(* ===== verification/_CoqProject ===== *)
-Q . S2P
Prelude.v
Wdk.v
IoctlTypes.v
HashMix.v
ListEntry.v
Srb.v
Ioq.v
IoqMem.v
IoqSpec.v
IoqRun.v
StgUnit.v
StgUnitInv.v
StgUnitProps.v
Scsi.v
ScsiSpec.v
ScsiProps.v
ScsiIo.v
ScsiIoProps.v
DriverIo.v
DriverIoInv.v
DriverIoProps.v
DriverIoctl.v
DriverIoctlProps.v
DriverGlobal.v
DriverGlobalProps.v
Mbr.v
StrToInt.v
StgHandle.v
StgHandleProps.v
Minimal.v
MinimalProps.v
IoctlDevice.v
IoctlDeviceProps.v
IoctlClient.v
IoctlClientProps.v
UnitHandle.v
Dispatcher.v
DispatcherProps.v
RawDisk.v
RawDiskProps.v
RawDiskCreate.v
Guard.v
ScsiDevice.v
StgTest.v
StgTestProps.v
StgPipe.v
LaunchText.v
LaunchTextProps.v
Launcher.v
LaunchServer.v
LauncherInv.v
LauncherCreate.v
LauncherRun.v
LaunchClient.v
LaunchClientProps.v
LaunchServerProps.v
ScsiText.v
ScsiTool.v
ScsiTextSpec.v
ScsiTextProps.v
ScsiFormats.v
ScsiToolProps.v
Text.v
RegUtil.v
ShellCom.v
ShellRegister.v
ShellExt.v
ShellExtProps.v
RawDiskMain.v
DriverEntry.v
DebugLog.v
DevSetupApi.v
DevSetup.v
DevSetupProps.v
Installer.v
TestBench.v
DriverTests.v
ScsiTests.v
DriverTestsProps.v
