(* ===== verification/Prelude.v ===== *)
(** * WinSpd: verification development

    WinSpd lets an ordinary process be a SCSI disk.  A storage port miniport driver ([src/sys])
    keeps a table of storage units, each with a queue of the SCSI requests that the port driver
    gives it; a process provisions a unit with a control request and then, in a loop of
    transactions, takes requests and gives responses ([src/shared], the DLL).  Instead of the
    driver a unit can be a named pipe, which test programs connect to.  A service, the launcher,
    starts and stops such processes ([src/launcher]), the shell mounts and ejects their disks
    through it ([src/shellex]), and tools install the driver ([src/devsetup]), show what a unit
    answers ([src/scsitool]) and test one ([src/stgtest]).

    This library models these programs, function by function, and proves what makes them correct.  A
    definition has the name of the function, structure or field that it translates.

    ** How code becomes definitions

    - An integer is a [Z] kept in the range of its type by an explicit wrap-around ([u32],
      [u64], [s64]); a buffer is the list of its bytes; memory reached by pointers is a [gmap] from
      addresses, so that aliasing and freed memory are visible.  A pointer to a text is the list of
      the characters from there on, the terminator among them.
    - A structure is a [Record] with the fields of the source and an [Eta] instance, which gives
      the update notation [r <| f := v |>].
    - A fault (an access outside a buffer, a null or dangling pointer, a handle that is not open, a
      failed [ASSERT] in the checked build, signed overflow, division by zero) is [None].  An error
      that the code reports is a value.  The theorems that say "no fault" say that the result is
      [Some].
    - A section of code under a spin lock, a mutex or an [SRWLOCK] is one atomic operation.
      Threads interleave by such sections: [StgUnitProps.step], the runs of [IoqRun], the steps of
      [LauncherRun] and the [rounds] of [SpdIoctlTransact] are about all interleavings.  Where the lock
      itself is the point, in [Guard], threads interleave by single instructions, and one that waits
      for a lock or for the dispatcher does not go on before it may.
    - What the operating system, the port driver or the storage device does is an argument: a
      value for each answer, or a function, with its documented behaviour as a named hypothesis
      or a class of laws.  What such a hypothesis leaves out because the code does not handle it, the
      comment of the theorem names.  A program with many calls, [DevSetup], is written in a monad over an
      environment that answers each call from the history of the calls before it.
    - The tests of the driver run on a bench ([TestBench]): the functions of the DLL over the handler
      of the driver; a thread of a test is a part of the program that can come before or after another.
    - A loop that is not structural takes fuel, and a theorem shows that the fuel that its caller
      passes is enough: one more than the number of owned requests for the lists and the hash
      chains of a queue ([IoqSpec]: no operation of a well-formed queue is [None]); 65 for the
      bits of a processor mask; the number of chunks for a transfer; the length of the
      list of interfaces for the inquiry of devices; [text_fuel], from the items of a format and the
      length of the data, for the display of SCSI data; two names for the final name of a file;
      the length of a format for [parse_format]; more than the number of enumerated items for
      [DevSetup].  The endless loop of a dispatcher thread is run for any number of rounds.

    ** The files

    Foundations.
    - [Prelude]: integers, bytes, buffers, record update, tactics, the hint base [spd].
    - [Wdk]: the numbers of the Windows headers.  [IoctlTypes]: [inc/winspd/ioctl.h].
    - [HashMix], [ListEntry], [Srb]: the helpers of [sys/driver.h] and [sys/srbcompat.h].
    - [Text]: literals.

    The driver, [src/sys].
    - [Ioq], [IoqMem], [IoqSpec], [IoqRun]: the queue of [ioq.c], with its lists and hash table in
      memory; [IoqSpec] is the abstract queue (two lists, a stopped flag, an event) that every
      operation refines, and [IoqRun] the theorems on runs: refinement, conservation of requests,
      no lost wake-up.
    - [StgUnit], [StgUnitInv], [StgUnitProps]: the reference counted table of
      [stgunit.c]; the invariant [ext_wf] relates slots, pool memory and the references that
      threads hold.
    - [Scsi], [ScsiSpec], [ScsiProps]: the commands of [scsi.c] that the driver answers by itself,
      with their data as lists of bytes ([ScsiSpec]) and what an initiator decodes.
    - [ScsiIo], [ScsiIoProps]: the commands that a storage device executes,
      cut in chunks and put together again.  [ScsiDevice]: the same with a device
      at the other end, the class [BlockDevice].
    - [DriverIo], [DriverIoInv], [DriverIoProps]: [io.c] and the resets and aborts of [adapter.c].
    - [DriverIoctl], [DriverIoctlProps]: the control requests of [ioctl.c].
    - [DriverGlobal], [DriverGlobalProps]: the adapter, its global extension, PnP.
    - [DriverEntry]: loading and unloading ([driver.c]), and the requests to the
      kernel ([util.c]).

    User mode, [src/shared] and [inc/winspd/winspd.h].
    - [Mbr], [StrToInt], [Minimal], [MinimalProps]: [mbr.c], [strtoint.c], [minimal.h],
      [memalign.c].  [RegUtil]: [regutil.c], over the classes [Registry],
      [RegistryLaws] and [ReliableRegistry].  [DebugLog]: the logs of [debug.c], [log.c]
      and [sys/debug.c], as formats with their arguments.
    - [StgHandle], [StgHandleProps]: the pipe units of [stghandle.c].
    - [IoctlDevice], [IoctlDeviceProps], [IoctlClient], [IoctlClientProps]:
      [ioctl.c], the last two over the driver's own handler.
    - [UnitHandle]: a handle, a pipe or the driver, as the class that the
      dispatcher is written against, and its instance for the whole system.
    - [Dispatcher], [DispatcherProps]: [stgunit.c], the threads that serve a
      unit; the class [StoppedHandle] is what a handle promises after a shutdown.

    A storage device and its tester, [tst/rawdisk] and [src/stgtest].
    - [RawDisk], [RawDiskProps], [RawDiskCreate]: a disk in a mapped file; the classes [MappedFile] and
      [MappedFileLaws] are the file.  [RawDiskMain]: its options and its life.
      [Guard]: the guard between its main thread, the dispatcher that it waits for and the events of
      the console ([SPD_GUARD]); the program ends after an event.
    - [StgTest], [StgTestProps]: the tester, over the classes [FileSystem] and
      [TestDevice].  [StgPipe]: the tester and the disk on the two ends of a pipe, which are together
      a [TestDevice] when the file is a [QuietFile].

    The launcher, [src/launcher], with [shared/launch.c] and [shared/secpipe.c].
    - [LaunchText], [LaunchTextProps]: command lines, registry values and messages as texts.
    - [Launcher], [LauncherInv], [LauncherCreate], [LauncherRun]: the instances with every handle that
      the launcher has, its ownership invariant, and the steps of its threads; the persistent
      instances that it starts again, with the buffers that their names and values must fit.
    - [LaunchServer], [LaunchServerProps]: the pipe of the service and its commands.
    - [LaunchClient], [LaunchClientProps]: the client library and the control program.

    Tools and the shell.
    - [ScsiText], [ScsiTextSpec], [ScsiTextProps]: the interpreter of formats of
      [scsitext.c], what a format means, and the printer.  [ScsiTool], [ScsiFormats], [ScsiToolProps]:
      the commands of [scsitool.c] with their formats, and what they show of a unit of the driver.
    - [ShellCom], [ShellRegister]: the server of the shell extension ([com.hpp],
      [command.hpp], [library.cpp]), its objects, and its registration over [RegUtil].  [ShellExt],
      [ShellExtProps]: mounting and ejecting, over [Launcher] and [LaunchClient].
    - [DevSetupApi], [DevSetup], [DevSetupProps]: [devsetup.c]; the class [Machine] is what the setup
      functions promise, and [opened] follows what the program has open.  [Installer]: the custom actions of the installer, which run it.

    The tests of the driver, [tst/winspd-tests].
    - [TestBench], [DriverTests], [ScsiTests], [DriverTestsProps]: [ioctl-test.c] and [scsi-test.c] over
      the DLL and the driver; the classes [PortErrors] and [DosErrors] are the conversions of errors.

    ** What the theorems show

    - Safety: no operation of the queue, of the table of units, of a pipe unit, of the launcher or of a
      SCSI handler touches memory or a handle that it does not own, in every interleaving; a unit is
      freed when nothing refers to it, and not before; a process can only serve its own units; the
      programs close what they open, on their error paths too.  Where the code does fault, the theorem
      leaves the case out by name: a unit for which there is no memory and one that another process
      unprovisions ([units_memory_safe]); a template that ends in a percent sign, a volume in use, and a
      number that overflows ([launcher_safe], [server_runs_commands]); a path that is too long
      ([devsetup_closes]); the checked build, for a request that was put back ([ioq_run_refines]).
    - Function: each command answers with the bytes of the standard, errors with the sense data
      of the error; a read or a write moves exactly the blocks that the command names, whatever
      the chunks; commands out of range never reach the storage device.  The tests of the driver pass.
    - Refinement: the queue is an abstract queue, the disk an array of blocks, the commands of the
      launcher's pipe what the launcher does, what the SCSI tool prints what the unit is.
    - Composition: a tester finds a disk on a pipe right; a client of the launcher gets what it asked for;
      ejecting in the shell stops the process that owns the volume; the DLL drives a unit of the driver
      through its life.
    - Bounds: lengths that the code computes in 32 bits wrap around, and the theorems say what is then
      still true ([scsi_range_commands_checked], [rawdisk_durable]); numbers of options are cut
      ([rawdisk_main_ends]); long values of the registry are passed over ([persistent_instances_restart]).
    - Liveness and termination: a waiter is woken when there is work; shutting a unit down ends
      its threads; the threads around the guard are never stuck, and end after an event; the loops end.
    - Round trips: what is written (partition tables, serial numbers, command blocks, numbers in
      text, device paths, registry values, registrations, lists of files, the line that a program logs)
      reads back.

    The manifest's findings are the places where the code does not do what it means to; most
    have a theorem or an example here that exhibits the behaviour.

    ** Not modelled

    - The .NET binding ([src/dotnet], another language) and the resources, which are data.
    - The tables of [sys/debug.c] that give the names of codes of the Driver Kit, and [tracing.c] and the
      [SPD_ENTER] and [SPD_LEAVE] macros, which only log; the functions of the system that print a format
      (what is passed to them is modelled); usage texts, message boxes, and the text of an error.
    - [SrbCopySrb] and [SrbGetSrbLength], which nothing calls; the initialization of events and locks;
      methods of the shell extension that only return a constant, and the item list that a context menu
      clones.
    - The test library ([ext/tlib]), which chooses tests and prints their results.
    - Calls whose effect is outside the program, other than through what they answer; timing, other than
      the deadline of a wait; weak memory, since every shared access is under a lock or interlocked. *)

From stdpp Require Export base tactics numbers option list fin_maps gmap.
From Stdlib Require Export ZArith Lia.

#[global] Open Scope Z_scope.

(** Comparisons are left alone by [simpl]. *)
#[global] Arguments Z.eqb : simpl never.
#[global] Arguments Z.leb : simpl never.
#[global] Arguments Z.ltb : simpl never.
#[global] Arguments Z.gtb : simpl never.

(** ** Notations of the development *)

Declare Scope spd_scope.
Delimit Scope spd_scope with spd.
Notation "a .& b" := (Z.land a b) (at level 40, left associativity) : spd_scope.
Notation "a .| b" := (Z.lor a b) (at level 50, left associativity) : spd_scope.
Notation "a .^ b" := (Z.lxor a b) (at level 48, left associativity) : spd_scope.
#[global] Open Scope spd_scope.

(** ** Machine integers

    An integer of the C sources is a [Z] kept in range by the wrap-around of its type. *)

Definition u8 (z : Z) : Z := z mod 2 ^ 8.
Definition u16 (z : Z) : Z := z mod 2 ^ 16.
Definition u32 (z : Z) : Z := z mod 2 ^ 32.
Definition u64 (z : Z) : Z := z mod 2 ^ 64.

(** A two's complement 64-bit integer ([long long]). *)
Definition s64 (z : Z) : Z := (z + 2 ^ 63) mod 2 ^ 64 - 2 ^ 63.

(** C's conversion of a comparison or a [BOOLEAN] to an integer. *)
Definition b2z (b : bool) : Z := if b then 1 else 0.

(** ** Bytes of an integer, as the sources write them: [(v >> k) & 0xff] *)

Definition byte_of (k v : Z) : Z := (v ≫ k) .& 0xff.

#[global] Arguments byte_of : simpl never.

Definition is_byte (b : Z) : Prop := 0 <= b < 256.

(** The store of a 32-bit and of a 64-bit value, most significant byte first. *)
Definition be32 (v : Z) : list Z := [byte_of 24 v; byte_of 16 v; byte_of 8 v; byte_of 0 v].
Definition be64 (v : Z) : list Z :=
  [byte_of 56 v; byte_of 48 v; byte_of 40 v; byte_of 32 v;
   byte_of 24 v; byte_of 16 v; byte_of 8 v; byte_of 0 v].
Definition le32 (v : Z) : list Z := [byte_of 0 v; byte_of 8 v; byte_of 16 v; byte_of 24 v].

(** The load of a value whose most significant byte comes first. *)
Definition get_be16 (b0 b1 : Z) : Z := (b0 ≪ 8) .| b1.
Definition get_be24 (b0 b1 b2 : Z) : Z := (b0 ≪ 16) .| (b1 ≪ 8) .| b2.
Definition get_be32 (b0 b1 b2 b3 : Z) : Z := (b0 ≪ 24) .| (b1 ≪ 16) .| (b2 ≪ 8) .| b3.
Definition get_be64 (b0 b1 b2 b3 b4 b5 b6 b7 : Z) : Z :=
  (b0 ≪ 56) .| (b1 ≪ 48) .| (b2 ≪ 40) .| (b3 ≪ 32) .|
  (b4 ≪ 24) .| (b5 ≪ 16) .| (b6 ≪ 8) .| b7.

#[global] Arguments get_be16 : simpl never.
#[global] Arguments get_be24 : simpl never.
#[global] Arguments get_be32 : simpl never.
#[global] Arguments get_be64 : simpl never.

(** ** Buffers

    A buffer is the list of its bytes.  Access outside it is undefined behaviour in the
    sources and [None] here. *)

Definition buf_write (off : nat) (bs buf : list Z) : option (list Z) :=
  if decide (off + length bs <= length buf)%nat
  then Some (take off buf ++ bs ++ drop (off + length bs) buf)
  else None.

Definition buf_read (off n : nat) (buf : list Z) : option (list Z) :=
  if decide (off + n <= length buf)%nat then Some (take n (drop off buf)) else None.

(** [RtlZeroMemory(buf, n)] / [memset(buf, 0, n)] *)
Definition buf_zero (n : Z) (buf : list Z) : option (list Z) :=
  buf_write 0 (replicate (Z.to_nat n) 0) buf.

(** Giving back one of the things that a program has; what it does not have is [None]. *)
Fixpoint take_away {A} `{EqDecision A} (x : A) (l : list A) : option (list A) :=
  match l with
  | [] => None
  | y :: l => if decide (x = y) then Some l else l ← take_away x l; Some (y :: l)
  end.

(** A group of stores, executed in order. *)
Fixpoint buf_writes (ws : list (nat * list Z)) (buf : list Z) : option (list Z) :=
  match ws with
  | [] => Some buf
  | (off, bs) :: ws => buf' ← buf_write off bs buf; buf_writes ws buf'
  end.

(** ** Record update

    A record type with an [Eta] instance, its constructor applied to its own fields, has the
    notation [r <| f := v |>]: the record [r] with the field [f] replaced.  The function that
    replaces a field is found by abstracting the field out of the [Eta] instance. *)

Class Eta (R : Type) := eta_record : R -> R.
Class Update {R T : Type} (f : R -> T) := update : (T -> T) -> R -> R.

Ltac solve_update :=
  lazymatch goal with
  | |- @Update ?R ?T ?f =>
      let inst := constr:(_ : Eta R) in
      let h := head_of inst in
      let body := eval cbv beta delta [h] in inst in
      lazymatch (eval pattern f in body) with
      | ?g _ => exact (fun (step : T -> T) => g (fun r => step (f r)))
      end
  end
with head_of t := lazymatch t with ?f _ => head_of f | ?x => x end.
Arguments update {R T} f {_} _ _ /.
#[export] Hint Extern 0 (Update _) => solve_update : typeclass_instances.

Notation "r <| f := v |>" := (update f (fun _ => v) r)
  (at level 1, left associativity, f at level 60, v at level 200) : spd_scope.

(** ** Tactics *)

(** Decompose the options bound in a hypothesis or in the goal. *)
Ltac simp_opt := repeat (simplify_option_eq; try done).

(** Reduce the binds of an option, and nothing else. *)
Ltac opt := cbn [mbind option_bind].

(** The same, one bind at a time; it leaves nothing for the kernel to evaluate. *)
Lemma bind_value {A B} (x : A) (f : A -> option B) : (y ← Some x; f y) = f x.
Proof. done. Qed.

(** Split on the conditions of a model definition, innermost last. *)
Ltac case_bools :=
  repeat match goal with
  | |- context [if ?b then _ else _] => destruct b eqn:?
  | H : context [if ?b then _ else _] |- _ => destruct b eqn:?
  end.

(** Turn the boolean comparisons of [Z] and [bool] in the hypotheses into propositions. *)
Ltac zify_bools :=
  repeat match goal with
  | H : _ && _ = true |- _ => apply andb_true_iff in H; destruct H
  | H : _ || _ = false |- _ => apply orb_false_iff in H; destruct H
  | H : negb _ = true |- _ => apply negb_true_iff in H
  | H : negb _ = false |- _ => apply negb_false_iff in H
  | H : (_ =? _) = true |- _ => apply Z.eqb_eq in H
  | H : (_ =? _) = false |- _ => apply Z.eqb_neq in H
  | H : (_ <=? _) = true |- _ => apply Z.leb_le in H
  | H : (_ <=? _) = false |- _ => apply Z.leb_gt in H
  | H : (_ <? _) = true |- _ => apply Z.ltb_lt in H
  | H : (_ <? _) = false |- _ => apply Z.ltb_ge in H
  | H : (_ >? _) = true |- _ => apply Z.gtb_lt in H
  | H : (_ >? _) = false |- _ => rewrite Z.gtb_ltb in H; apply Z.ltb_ge in H
  end.

(** Linear arithmetic with division and modulo by constants. *)
Ltac dlia := Z.to_euclidean_division_equations; lia.

(** Arithmetic on bytes. *)
Ltac blia := unfold is_byte in *; lia.

Create HintDb spd discriminated.

(** ** Integers *)

Lemma u8_bound z : is_byte (u8 z).
Proof. apply Z.mod_pos_bound. lia. Qed.

Lemma u32_bound z : 0 <= u32 z < 2 ^ 32.
Proof. apply Z.mod_pos_bound. lia. Qed.

Lemma u64_bound z : 0 <= u64 z < 2 ^ 64.
Proof. apply Z.mod_pos_bound. lia. Qed.

Lemma u32_small z : 0 <= z < 2 ^ 32 -> u32 z = z.
Proof. apply Z.mod_small. Qed.

Lemma u64_small z : 0 <= z < 2 ^ 64 -> u64 z = z.
Proof. apply Z.mod_small. Qed.

Lemma u8_small z : is_byte z -> u8 z = z.
Proof. apply Z.mod_small. Qed.

Lemma s64_small z : - 2 ^ 63 <= z < 2 ^ 63 -> s64 z = z.
Proof. intros H. unfold s64. rewrite Z.mod_small; lia. Qed.

Lemma byte_of_div k v : 0 <= k -> byte_of k v = (v / 2 ^ k) mod 256.
Proof.
  intros Hk. unfold byte_of. change 0xff with (Z.ones 8).
  rewrite Z.land_ones, Z.shiftr_div_pow2 by lia. done.
Qed.

Lemma byte_of_is_byte k v : is_byte (byte_of k v).
Proof.
  unfold byte_of. change 0xff with (Z.ones 8). rewrite Z.land_ones by lia.
  apply Z.mod_pos_bound. lia.
Qed.
#[export] Hint Resolve u8_bound byte_of_is_byte : spd.

(** Or-ing a value into zeroed low bits is an addition. *)
Lemma lor_disjoint_add k a b : 0 <= k -> 0 <= b < 2 ^ k -> a mod 2 ^ k = 0 -> a .| b = a + b.
Proof.
  intros Hk Hb Ha.
  assert (a .& b = 0) as Hl.
  { apply Z.bits_inj'. intros i Hi. rewrite Z.land_spec, Z.bits_0.
    destruct (decide (i < k)).
    - rewrite <- (Z.mod_pow2_bits_low a k i) by lia. by rewrite Ha, Z.bits_0.
    - rewrite <- (Z.mod_small b (2 ^ k)) by lia.
      rewrite (Z.mod_pow2_bits_high b k i) by lia. apply andb_false_r. }
  rewrite Z.add_nocarry_lxor by done. symmetry. by apply Z.lxor_lor.
Qed.

Ltac unshift := rewrite ?Z.shiftl_mul_pow2 by lia.

Lemma get_be16_add b0 b1 : is_byte b1 -> get_be16 b0 b1 = b0 * 2 ^ 8 + b1.
Proof.
  unfold is_byte, get_be16. intros. unshift. apply (lor_disjoint_add 8); dlia.
Qed.

Lemma get_be24_add b0 b1 b2 :
  is_byte b1 -> is_byte b2 -> get_be24 b0 b1 b2 = b0 * 2 ^ 16 + b1 * 2 ^ 8 + b2.
Proof.
  unfold is_byte, get_be24. intros. unshift.
  rewrite (lor_disjoint_add 16 (b0 * _)) by dlia.
  apply (lor_disjoint_add 8); dlia.
Qed.

Lemma get_be32_add b0 b1 b2 b3 :
  is_byte b1 -> is_byte b2 -> is_byte b3 ->
  get_be32 b0 b1 b2 b3 = b0 * 2 ^ 24 + b1 * 2 ^ 16 + b2 * 2 ^ 8 + b3.
Proof.
  unfold is_byte, get_be32. intros. unshift.
  rewrite (lor_disjoint_add 24 (b0 * _)) by dlia.
  rewrite (lor_disjoint_add 16 (_ + _)) by dlia.
  apply (lor_disjoint_add 8); dlia.
Qed.

Lemma get_be64_add b0 b1 b2 b3 b4 b5 b6 b7 :
  is_byte b1 -> is_byte b2 -> is_byte b3 -> is_byte b4 -> is_byte b5 -> is_byte b6 ->
  is_byte b7 ->
  get_be64 b0 b1 b2 b3 b4 b5 b6 b7 =
  b0 * 2 ^ 56 + b1 * 2 ^ 48 + b2 * 2 ^ 40 + b3 * 2 ^ 32 +
  b4 * 2 ^ 24 + b5 * 2 ^ 16 + b6 * 2 ^ 8 + b7.
Proof.
  unfold is_byte, get_be64. intros. unshift.
  rewrite (lor_disjoint_add 56 (b0 * _)) by dlia.
  rewrite (lor_disjoint_add 48 (_ + _)) by dlia.
  rewrite (lor_disjoint_add 40 (_ + _)) by dlia.
  rewrite (lor_disjoint_add 32 (_ + _)) by dlia.
  rewrite (lor_disjoint_add 24 (_ + _)) by dlia.
  rewrite (lor_disjoint_add 16 (_ + _)) by dlia.
  apply (lor_disjoint_add 8); dlia.
Qed.

(** A big-endian store followed by the load of the same bytes gives the value back. *)
Lemma be32_get v :
  get_be32 (byte_of 24 v) (byte_of 16 v) (byte_of 8 v) (byte_of 0 v) = u32 v.
Proof.
  rewrite get_be32_add by auto with spd. rewrite !byte_of_div by lia. unfold u32. dlia.
Qed.

Lemma be64_get v :
  get_be64 (byte_of 56 v) (byte_of 48 v) (byte_of 40 v) (byte_of 32 v)
           (byte_of 24 v) (byte_of 16 v) (byte_of 8 v) (byte_of 0 v) = u64 v.
Proof.
  rewrite get_be64_add by auto with spd. rewrite !byte_of_div by lia. unfold u64. dlia.
Qed.

Lemma get_be32_bound b0 b1 b2 b3 :
  is_byte b0 -> is_byte b1 -> is_byte b2 -> is_byte b3 -> 0 <= get_be32 b0 b1 b2 b3 < 2 ^ 32.
Proof. intros. rewrite get_be32_add by done. unfold is_byte in *. lia. Qed.

Lemma get_be64_bound b0 b1 b2 b3 b4 b5 b6 b7 :
  is_byte b0 -> is_byte b1 -> is_byte b2 -> is_byte b3 ->
  is_byte b4 -> is_byte b5 -> is_byte b6 -> is_byte b7 ->
  0 <= get_be64 b0 b1 b2 b3 b4 b5 b6 b7 < 2 ^ 64.
Proof. intros. rewrite get_be64_add by done. unfold is_byte in *. lia. Qed.

(** ** Buffers *)

Lemma take_away_head {A} `{EqDecision A} (x : A) l : take_away x (x :: l) = Some l.
Proof. simpl. by rewrite decide_True. Qed.

Lemma buf_write_Some off bs buf :
  (off + length bs <= length buf)%nat ->
  buf_write off bs buf = Some (take off buf ++ bs ++ drop (off + length bs) buf).
Proof. intros. unfold buf_write. by rewrite decide_True. Qed.

Lemma buf_write_inv off bs buf buf' :
  buf_write off bs buf = Some buf' ->
  (off + length bs <= length buf)%nat /\
  buf' = take off buf ++ bs ++ drop (off + length bs) buf.
Proof. unfold buf_write. case_decide; naive_solver. Qed.

Lemma buf_write_length off bs buf buf' :
  buf_write off bs buf = Some buf' -> length buf' = length buf.
Proof.
  intros [? ->]%buf_write_inv. rewrite !length_app, length_take, length_drop. lia.
Qed.

Lemma buf_write_is_Some off bs buf :
  is_Some (buf_write off bs buf) <-> (off + length bs <= length buf)%nat.
Proof. unfold buf_write. case_decide; split; naive_solver. Qed.

Lemma buf_read_Some off n buf bs :
  buf_read off n buf = Some bs -> length bs = n /\ (off + n <= length buf)%nat.
Proof.
  unfold buf_read. case_decide; [|done]. intros [= <-].
  rewrite length_take, length_drop. lia.
Qed.

Lemma buf_read_is_Some off n buf : is_Some (buf_read off n buf) <-> (off + n <= length buf)%nat.
Proof. unfold buf_read. case_decide; split; naive_solver. Qed.

Lemma buf_read_write_same off bs buf buf' :
  buf_write off bs buf = Some buf' -> buf_read off (length bs) buf' = Some bs.
Proof.
  intros Hw. pose proof (buf_write_length _ _ _ _ Hw) as Hlen.
  apply buf_write_inv in Hw as [Hle ->]. unfold buf_read. rewrite decide_True by lia.
  rewrite drop_app_length'; [|rewrite length_take; lia]. by rewrite take_app_length.
Qed.

(** Bytes outside the stored range keep their values. *)
Lemma buf_write_lookup_ne off bs buf buf' (i : nat) :
  buf_write off bs buf = Some buf' -> (i < off \/ off + length bs <= i)%nat ->
  buf' !! i = buf !! i.
Proof.
  intros [Hle ->]%buf_write_inv [Hi|Hi].
  - rewrite lookup_app_l by (rewrite length_take; lia). by rewrite lookup_take_lt.
  - rewrite lookup_app_r by (rewrite length_take; lia). rewrite length_take.
    rewrite lookup_app_r by lia. rewrite lookup_drop. f_equal. lia.
Qed.

Lemma buf_write_lookup off bs buf buf' (i : nat) :
  buf_write off bs buf = Some buf' -> (off <= i < off + length bs)%nat ->
  buf' !! i = bs !! (i - off)%nat.
Proof.
  intros [Hle ->]%buf_write_inv Hi.
  rewrite lookup_app_r by (rewrite length_take; lia). rewrite length_take.
  rewrite lookup_app_l by lia. f_equal. lia.
Qed.

Lemma buf_read_nothing off b : (off <= length b)%nat -> buf_read off 0 b = Some [].
Proof. intros. unfold buf_read. by rewrite decide_True by lia. Qed.

Lemma buf_read_write_other off bs b b' off' n :
  buf_write off bs b = Some b' -> (off' + n <= off \/ off + length bs <= off')%nat ->
  buf_read off' n b' = buf_read off' n b.
Proof.
  intros Hw Hd. pose proof (buf_write_length _ _ _ _ Hw) as Hl. unfold buf_read. rewrite Hl.
  case_decide; [|done]. f_equal. apply list_eq. intros i.
  destruct (decide (i < n)%nat).
  - rewrite !lookup_take_lt, !lookup_drop by lia. eapply buf_write_lookup_ne; [done|]. lia.
  - rewrite !lookup_take_ge by lia. done.
Qed.

Lemma buf_zero_length n buf buf' : buf_zero n buf = Some buf' -> length buf' = length buf.
Proof. apply buf_write_length. Qed.

Lemma buf_zero_is_Some n buf : is_Some (buf_zero n buf) <-> (Z.to_nat n <= length buf)%nat.
Proof. unfold buf_zero. by rewrite buf_write_is_Some, length_replicate. Qed.

Lemma buf_writes_length ws buf buf' :
  buf_writes ws buf = Some buf' -> length buf' = length buf.
Proof.
  revert buf. induction ws as [|[off bs] ws IH]; intros buf; simpl; [naive_solver|].
  intros (b & Hw & Hr)%bind_Some. rewrite (IH _ Hr). by eapply buf_write_length.
Qed.

(** Stores that all end inside the buffer succeed. *)
Lemma buf_writes_is_Some ws buf :
  Forall (fun w => (w.1 + length w.2 <= length buf)%nat) ws -> is_Some (buf_writes ws buf).
Proof.
  revert buf. induction ws as [|[off bs] ws IH]; intros buf H; simpl; [eauto|].
  apply Forall_cons in H as [H1 H2]. simpl in H1.
  destruct (proj2 (buf_write_is_Some off bs buf) H1) as [b Hb]. rewrite Hb. simpl.
  apply IH. rewrite (buf_write_length _ _ _ _ Hb). done.
Qed.

(** ** Lists *)

Lemma replicate_lookup_zero (n i : nat) : (i < n)%nat -> replicate n 0 !! i = Some 0.
Proof. intros. by apply lookup_replicate_2. Qed.

Lemma NoDup_app_split {A} (l1 l2 : list A) x :
  NoDup (l1 ++ x :: l2) -> NoDup (l1 ++ l2) /\ x ∉ l1 ++ l2.
Proof.
  rewrite Permutation_app_comm; simpl. rewrite NoDup_cons.
  rewrite (Permutation_app_comm l2 l1). rewrite !elem_of_app. intuition.
Qed.

(** Stores that do not reach the end of a buffer leave the rest of it alone. *)
Lemma buf_write_app off bs buf buf' rest :
  buf_write off bs buf = Some buf' -> buf_write off bs (buf ++ rest) = Some (buf' ++ rest).
Proof.
  intros [Hle ->]%buf_write_inv. rewrite buf_write_Some by (rewrite length_app; lia).
  rewrite take_app_le by lia. rewrite drop_app_le by lia. by rewrite <- !app_assoc.
Qed.

Lemma buf_read_app off n buf rest :
  (off + n <= length buf)%nat -> buf_read off n (buf ++ rest) = buf_read off n buf.
Proof.
  intros H. unfold buf_read. rewrite !decide_True by (rewrite ?length_app; lia).
  rewrite drop_app_le by lia. by rewrite take_app_le by (rewrite length_drop; lia).
Qed.

Lemma buf_writes_app ws buf buf' rest :
  buf_writes ws buf = Some buf' -> buf_writes ws (buf ++ rest) = Some (buf' ++ rest).
Proof.
  revert buf. induction ws as [|[off bs] ws IH]; intros buf; simpl; [naive_solver|].
  intros (b & Hw & Hr)%bind_Some. rewrite (buf_write_app _ _ _ _ rest Hw). simpl. by apply IH.
Qed.

(** The whole of a buffer is cleared. *)
Lemma buf_zero_all n buf :
  Z.of_nat (length buf) = n -> buf_zero n buf = Some (replicate (length buf) 0).
Proof.
  intros <-. unfold buf_zero. rewrite Nat2Z.id, buf_write_Some by (rewrite length_replicate; lia).
  rewrite length_replicate, drop_ge by lia. by rewrite app_nil_r.
Qed.

(** A list of a known length is the list of its elements. *)
Ltac explode l H :=
  lazymatch type of H with
  | length _ = O => apply nil_length_inv in H; subst l
  | length _ = S _ =>
      let x := fresh "b" in
      destruct l as [|x l]; [discriminate H|]; simpl in H; apply Nat.succ_inj in H; explode l H
  end.

(** A long read is two short ones, and so is a write. *)
Lemma buf_read_split off n m buf bs :
  buf_read off (n + m) buf = Some bs ->
  exists b1 b2, bs = b1 ++ b2 /\ buf_read off n buf = Some b1 /\
    buf_read (off + n) m buf = Some b2.
Proof.
  unfold buf_read. case_decide; [|done]. intros [= <-].
  rewrite !decide_True by lia. eexists _, _. split_and!; [|done..].
  rewrite <- drop_drop. symmetry. apply take_take_drop.
Qed.

Lemma buf_write_split off b1 b2 buf buf' :
  buf_write off (b1 ++ b2) buf = Some buf' ->
  exists m, buf_write off b1 buf = Some m /\ buf_write (off + length b1) b2 m = Some buf'.
Proof.
  intros [Hle ->]%buf_write_inv. rewrite length_app in Hle.
  rewrite buf_write_Some by lia. eexists. split; [done|].
  rewrite buf_write_Some.
  2: { rewrite !length_app, length_take, length_drop. lia. }
  f_equal. rewrite length_app.
  assert (off + length b1 = length (take off buf ++ b1))%nat as El
    by (rewrite length_app, length_take; lia).
  rewrite (app_assoc (take off buf) b1), El, take_app_length. rewrite <- !app_assoc.
  do 3 f_equal. rewrite <- El. rewrite app_assoc.
  rewrite drop_app_ge by (rewrite length_app, length_take; lia).
  rewrite drop_drop, length_app, length_take. f_equal. lia.
Qed.
