(* ===== verification/Wdk.v ===== *)
(** * Constants of the Windows Driver Kit headers

    The sources include [ntifs.h], [storport.h], [scsi.h], [srb.h] and [winerror.h] of the
    Windows Driver Kit for the numbers below and for the layouts of the SCSI structures, which
    the T10 standards (SPC, SBC) fix.  Nothing here is a property of the program: the file
    only names the values the modelled code switches on and stores.  The layouts that
    [src/src/scsitool/scsitool.c] spells out in its format strings agree with these offsets. *)

From S2P Require Import Prelude.

(** ** NTSTATUS and Win32 error codes *)

Definition STATUS_SUCCESS := 0x00000000.
Definition STATUS_ALERTED := 0x00000101.
Definition STATUS_TIMEOUT := 0x00000102.
Definition STATUS_BUFFER_OVERFLOW := 0x80000005.
Definition STATUS_UNSUCCESSFUL := 0xC0000001.
Definition STATUS_NOT_IMPLEMENTED := 0xC0000002.
Definition STATUS_INVALID_PARAMETER := 0xC000000D.
Definition STATUS_INVALID_DEVICE_REQUEST := 0xC0000010.
Definition STATUS_ACCESS_DENIED := 0xC0000022.
Definition STATUS_BUFFER_TOO_SMALL := 0xC0000023.
Definition STATUS_OBJECT_NAME_NOT_FOUND := 0xC0000034.
Definition STATUS_OBJECT_NAME_COLLISION := 0xC0000035.
Definition STATUS_THREAD_IS_TERMINATING := 0xC000004B.
Definition STATUS_INSUFFICIENT_RESOURCES := 0xC000009A.
Definition STATUS_CANCELLED := 0xC0000120.
Definition STATUS_INVALID_DEVICE_STATE := 0xC0000184.
Definition STATUS_INVALID_BUFFER_SIZE := 0xC0000206.
Definition STATUS_CANNOT_MAKE := 0xC00002EA.

(** [NT_SUCCESS(Status)]: the signed 32-bit status is not negative. *)
Definition NT_SUCCESS (Status : Z) : bool := Status <? 0x80000000.

Definition ERROR_SUCCESS := 0.
Definition ERROR_FILE_NOT_FOUND := 2.
Definition ERROR_ACCESS_DENIED := 5.
Definition ERROR_NOT_ENOUGH_MEMORY := 8.
Definition ERROR_CANNOT_MAKE := 82.
Definition ERROR_INVALID_PARAMETER := 87.
Definition ERROR_BROKEN_PIPE := 109.
Definition ERROR_INSUFFICIENT_BUFFER := 122.
Definition ERROR_ALREADY_EXISTS := 183.
Definition ERROR_PIPE_BUSY := 231.
Definition ERROR_NO_DATA := 232.
Definition ERROR_MORE_DATA := 234.
Definition ERROR_NO_MORE_ITEMS := 259.
Definition ERROR_PIPE_CONNECTED := 535.
Definition ERROR_OPERATION_ABORTED := 995.
Definition ERROR_IO_PENDING := 997.
Definition ERROR_IO_DEVICE := 1117.
Definition ERROR_NO_ASSOCIATION := 1155.
Definition ERROR_NO_SYSTEM_RESOURCES := 1450.
Definition ERROR_TIMEOUT := 1460.
Definition ERROR_DEVICE_IN_USE := 2404.
Definition WAIT_OBJECT_0 := 0.
Definition INVALID_HANDLE_VALUE : Z := 0xffffffffffffffff.

(** ** StorPort status codes *)

Definition STOR_STATUS_SUCCESS := 0x00000000.
Definition STOR_STATUS_UNSUCCESSFUL := 0xC1000001.
Definition STOR_STATUS_NOT_IMPLEMENTED := 0xC1000002.
Definition STOR_STATUS_INSUFFICIENT_RESOURCES := 0xC1000003.
Definition STOR_STATUS_BUFFER_TOO_SMALL := 0xC1000004.
Definition STOR_STATUS_ACCESS_DENIED := 0xC1000005.
Definition STOR_STATUS_INVALID_PARAMETER := 0xC1000006.
Definition STOR_STATUS_INVALID_DEVICE_REQUEST := 0xC1000007.
Definition STOR_STATUS_INVALID_IRQL := 0xC1000008.
Definition STOR_STATUS_INVALID_DEVICE_STATE := 0xC1000009.
Definition STOR_STATUS_INVALID_BUFFER_SIZE := 0xC100000A.
Definition STOR_STATUS_UNSUPPORTED_VERSION := 0xC100000B.
Definition STOR_STATUS_BUSY := 0xC100000C.

(** ** SCSI request blocks *)

Definition SRB_STATUS_PENDING := 0x00.
Definition SRB_STATUS_SUCCESS := 0x01.
Definition SRB_STATUS_ABORTED := 0x02.
Definition SRB_STATUS_ABORT_FAILED := 0x03.
Definition SRB_STATUS_ERROR := 0x04.
Definition SRB_STATUS_INVALID_REQUEST := 0x06.
Definition SRB_STATUS_NO_DEVICE := 0x08.
Definition SRB_STATUS_DATA_OVERRUN := 0x12.
Definition SRB_STATUS_INTERNAL_ERROR := 0x30.
Definition SRB_STATUS_QUEUE_FROZEN := 0x40.
Definition SRB_STATUS_AUTOSENSE_VALID := 0x80.

(** [SRB_STATUS(Status)]: the status without its two flag bits. *)
Definition SRB_STATUS (Status : Z) : Z := Status .& 0x3f.

Definition SRB_FUNCTION_EXECUTE_SCSI := 0x00.
Definition SRB_FUNCTION_SHUTDOWN := 0x07.
Definition SRB_FUNCTION_FLUSH := 0x08.
Definition SRB_FUNCTION_ABORT_COMMAND := 0x10.
Definition SRB_FUNCTION_RESET_BUS := 0x12.
Definition SRB_FUNCTION_RESET_DEVICE := 0x13.
Definition SRB_FUNCTION_WMI := 0x17.
Definition SRB_FUNCTION_RESET_LOGICAL_UNIT := 0x20.
Definition SRB_FUNCTION_PNP := 0x25.

Definition SRB_FLAGS_DISABLE_AUTOSENSE := 0x20.

Definition StorQueryCapabilities := 0x09.
Definition SRB_PNP_FLAGS_ADAPTER_REQUEST := 0x01.

Definition IRP_MN_START_DEVICE := 0x00.
Definition IRP_MN_REMOVE_DEVICE := 0x02.
Definition IRP_MN_QUERY_CAPABILITIES := 0x09.

(** ** SCSI operation codes, sense data and pages *)

Definition SCSIOP_TEST_UNIT_READY := 0x00.
Definition SCSIOP_READ6 := 0x08.
Definition SCSIOP_WRITE6 := 0x0A.
Definition SCSIOP_INQUIRY := 0x12.
Definition SCSIOP_MODE_SENSE := 0x1A.
Definition SCSIOP_READ_CAPACITY := 0x25.
Definition SCSIOP_READ := 0x28.
Definition SCSIOP_WRITE := 0x2A.
Definition SCSIOP_SYNCHRONIZE_CACHE := 0x35.
Definition SCSIOP_UNMAP := 0x42.
Definition SCSIOP_MODE_SENSE10 := 0x5A.
Definition SCSIOP_READ16 := 0x88.
Definition SCSIOP_WRITE16 := 0x8A.
Definition SCSIOP_SYNCHRONIZE_CACHE16 := 0x91.
Definition SCSIOP_SERVICE_ACTION_IN16 := 0x9E.
Definition SCSIOP_REPORT_LUNS := 0xA0.
Definition SCSIOP_READ12 := 0xA8.
Definition SCSIOP_WRITE12 := 0xAA.
Definition SERVICE_ACTION_READ_CAPACITY16 := 0x10.

Definition SCSISTAT_GOOD := 0x00.
Definition SCSISTAT_CHECK_CONDITION := 0x02.
Definition SCSI_SENSE_ERRORCODE_FIXED_CURRENT := 0x70.
Definition SCSI_SENSE_MEDIUM_ERROR := 0x03.
Definition SCSI_SENSE_ILLEGAL_REQUEST := 0x05.
Definition SCSI_ADSENSE_NO_SENSE := 0x00.
Definition SCSI_ADSENSE_WRITE_ERROR := 0x0c.
Definition SCSI_ADSENSE_UNRECOVERED_ERROR := 0x11.
Definition SCSI_ADSENSE_ILLEGAL_COMMAND := 0x20.
Definition SCSI_SENSE_DATA_PROTECT := 0x07.
Definition SCSI_ADSENSE_ILLEGAL_BLOCK := 0x21.
Definition SCSI_ADSENSE_INVALID_CDB := 0x24.
Definition SCSI_ADSENSE_INVALID_FIELD_PARAMETER_LIST := 0x26.
Definition SCSI_ADSENSE_WRITE_PROTECT := 0x27.

Definition DIRECT_ACCESS_DEVICE := 0x00.
Definition DEVICE_QUALIFIER_ACTIVE := 0x00.
Definition VPD_SUPPORTED_PAGES := 0x00.
Definition VPD_SERIAL_NUMBER := 0x80.
Definition VPD_DEVICE_IDENTIFIERS := 0x83.
Definition VPD_BLOCK_LIMITS := 0xB0.
Definition VPD_LOGICAL_BLOCK_PROVISIONING := 0xB2.
Definition VpdCodeSetBinary := 1.
Definition VpdCodeSetAscii := 2.
Definition VpdIdentifierTypeVendorSpecific := 0.
Definition VpdIdentifierTypeVendorId := 1.
Definition VpdAssocDevice := 0.
Definition PROVISIONING_TYPE_THIN := 2.
Definition MODE_PAGE_CACHING := 0x08.
Definition MODE_SENSE_RETURN_ALL := 0x3f.
Definition MODE_SENSE_CHANGEABLE_VALUES := 0x40.
Definition MODE_DSP_WRITE_PROTECT := 0x80.
Definition MODE_DSP_FUA_SUPPORTED := 0x10.

(** ** Sizes of the SCSI structures *)

Definition sizeof_LUN_LIST := 8.
Definition sizeof_LUN := 8.
Definition INQUIRYDATABUFFERSIZE := 36.
Definition sizeof_VPD_SUPPORTED_PAGES_PAGE := 4.
Definition sizeof_VPD_SERIAL_NUMBER_PAGE := 4.
Definition sizeof_VPD_IDENTIFICATION_PAGE := 4.
Definition sizeof_VPD_IDENTIFICATION_DESCRIPTOR := 4.
Definition sizeof_VPD_BLOCK_LIMITS_PAGE := 64.
Definition sizeof_VPD_LOGICAL_BLOCK_PROVISIONING_PAGE := 8.
Definition sizeof_MODE_PARAMETER_HEADER := 4.
Definition sizeof_MODE_PARAMETER_HEADER10 := 8.
Definition sizeof_MODE_CACHING_PAGE := 12.
Definition sizeof_READ_CAPACITY_DATA := 8.
Definition sizeof_READ_CAPACITY_DATA_EX := 12.
Definition sizeof_READ_CAPACITY16_DATA := 32.
Definition sizeof_SENSE_DATA := 18.
Definition sizeof_UNMAP_LIST_HEADER := 8.
Definition sizeof_UNMAP_BLOCK_DESCRIPTOR := 16.
Definition sizeof_STOR_DEVICE_CAPABILITIES := 8.
