(* ===== verification/IoctlTypes.v ===== *)
(** * The driver's public data: [inc/winspd/ioctl.h]

    Bus-target-lun addresses, storage unit parameters, and the messages that the driver and a
    user mode storage device exchange. *)

From S2P Require Import Prelude Wdk.

(** ** Bus-target-lun addresses *)

(** [SPD_IOCTL_BTL(B,T,L)] *)
Definition SPD_IOCTL_BTL (B T L : Z) : Z := ((B ≪ 16) .| (T ≪ 8)) .| L.
Definition SPD_IOCTL_BTL_B (Btl : Z) : Z := (Btl ≫ 16) .& 0xff.
Definition SPD_IOCTL_BTL_T (Btl : Z) : Z := (Btl ≫ 8) .& 0xff.
Definition SPD_IOCTL_BTL_L (Btl : Z) : Z := Btl .& 0xff.
Definition SPD_IOCTL_STORAGE_UNIT_CAPACITY : Z := 16.
Definition SPD_IOCTL_STORAGE_UNIT_MAX_CAPACITY : Z := 64.

(** [SPD_INDEX_FROM_BTL] and [SPD_BTL_FROM_INDEX] of [sys/driver.h]. *)
Definition SPD_INDEX_FROM_BTL (Btl : Z) : Z := SPD_IOCTL_BTL_T Btl.
Definition SPD_BTL_FROM_INDEX (Idx : Z) : Z := SPD_IOCTL_BTL 0 Idx 0.

(** ** Codes *)

Definition SPD_IOCTL_PROVISION : Z := 112.          (* 'p' *)
Definition SPD_IOCTL_UNPROVISION : Z := 117.        (* 'u' *)
Definition SPD_IOCTL_LIST : Z := 108.               (* 'l' *)
Definition SPD_IOCTL_TRANSACT : Z := 116.           (* 't' *)
Definition SPD_IOCTL_SET_TRANSACT_PID : Z := 105.   (* 'i' *)

(** The [SpdIoctlTransact...Kind] enumeration. *)
Definition SpdIoctlTransactReservedKind : Z := 0.
Definition SpdIoctlTransactReadKind : Z := 1.
Definition SpdIoctlTransactWriteKind : Z := 2.
Definition SpdIoctlTransactFlushKind : Z := 3.
Definition SpdIoctlTransactUnmapKind : Z := 4.
Definition SpdIoctlTransactKindCount : Z := 5.

(** ["WinSpd  "] *)
Definition SPD_IOCTL_VENDOR_ID : list Z := [87; 105; 110; 83; 112; 100; 32; 32].

(** ** Structures *)

Record GUID := mkGUID { Data1 : Z; Data2 : Z; Data3 : Z; Data4 : list Z }.

Record SPD_IOCTL_STORAGE_UNIT_PARAMS := mkParams {
  Guid : GUID;
  BlockCount : Z;
  BlockLength : Z;
  ProductId : list Z;               (* 16 bytes *)
  ProductRevisionLevel : list Z;    (* 4 bytes *)
  DeviceType : Z;
  WriteProtected : bool;
  CacheSupported : bool;
  UnmapSupported : bool;
  EjectDisabled : bool;
  MaxTransferLength : Z
}.

Record SPD_IOCTL_STORAGE_UNIT_STATUS := mkStatus {
  ScsiStatus : Z;
  SenseKey : Z;
  ASC : Z;
  ASCQ : Z;
  Information : Z;
  InformationValid : bool
}.

Record SPD_IOCTL_UNMAP_DESCRIPTOR := mkUnmapDescriptor {
  ud_BlockAddress : Z;
  ud_BlockCount : Z
}.

(** The union [Op] of a request, tagged here by the kind that the code stores beside it. *)
Inductive REQ_OP :=
  | OpNone
  | OpRead (BlockAddress BlockCount : Z) (ForceUnitAccess : Z)
  | OpWrite (BlockAddress BlockCount : Z) (ForceUnitAccess : Z)
  | OpFlush (BlockAddress BlockCount : Z)
  | OpUnmap (Count : Z).

Record SPD_IOCTL_TRANSACT_REQ := mkReq { req_Hint : Z; req_Kind : Z; req_Op : REQ_OP }.

Record SPD_IOCTL_TRANSACT_RSP := mkRsp {
  rsp_Hint : Z;
  rsp_Kind : Z;
  rsp_Status : SPD_IOCTL_STORAGE_UNIT_STATUS
}.

(** The zeroed request of [RtlZeroMemory(&Params->Dir.Req, ...)]. *)
Definition ReqZero : SPD_IOCTL_TRANSACT_REQ := mkReq 0 SpdIoctlTransactReservedKind OpNone.

(** [sizeof] of the marshalling structures on a 64-bit system. *)
Definition sizeof_SPD_IOCTL_UNMAP_DESCRIPTOR : Z := 16.
Definition sizeof_SPD_IOCTL_STORAGE_UNIT_PARAMS : Z := 128.
Definition sizeof_SPD_IOCTL_BASE_PARAMS : Z := 8.
Definition sizeof_SPD_IOCTL_PROVISION_PARAMS : Z := 136.
Definition sizeof_SPD_IOCTL_UNPROVISION_PARAMS : Z := 24.
Definition sizeof_SPD_IOCTL_LIST_PARAMS : Z := 8.
Definition sizeof_SPD_IOCTL_TRANSACT_PARAMS : Z := 72.
Definition sizeof_SPD_IOCTL_SET_TRANSACT_PID_PARAMS : Z := 16.

(** The descriptor that a storage device reads at the index [I] of its data buffer, least
    significant byte first. *)
Definition read_unmap (DataBuffer : list Z) (I : nat) : option (Z * Z) :=
  bs ← buf_read (16 * I) 16 DataBuffer;
  match bs with
  | b0 :: b1 :: b2 :: b3 :: b4 :: b5 :: b6 :: b7 :: c0 :: c1 :: c2 :: c3 :: _ =>
      Some (get_be64 b7 b6 b5 b4 b3 b2 b1 b0, get_be32 c3 c2 c1 c0)
  | _ => None
  end.

#[export] Instance PARAMS_eta : Eta SPD_IOCTL_STORAGE_UNIT_PARAMS := fun p =>
  mkParams (Guid p) (BlockCount p) (BlockLength p) (ProductId p) (ProductRevisionLevel p)
    (DeviceType p) (WriteProtected p) (CacheSupported p) (UnmapSupported p) (EjectDisabled p)
    (MaxTransferLength p).

#[export] Instance GUID_eq_dec : EqDecision GUID.
Proof. solve_decision. Defined.

#[export] Instance REQ_OP_eq_dec : EqDecision REQ_OP.
Proof. solve_decision. Defined.

#[export] Instance REQ_eq_dec : EqDecision SPD_IOCTL_TRANSACT_REQ.
Proof. solve_decision. Defined.

(** A GUID whose members are in the range of their C types. *)
Definition guid_wf (g : GUID) : Prop :=
  0 <= Data1 g < 2 ^ 32 /\ 0 <= Data2 g < 2 ^ 16 /\ 0 <= Data3 g < 2 ^ 16 /\
  length (Data4 g) = 8%nat /\ Forall is_byte (Data4 g).

(** What [SpdIoctlProvision] requires of the parameters it accepts, with the ranges of the
    C types: the geometry every later computation relies on. *)
Record params_wf (p : SPD_IOCTL_STORAGE_UNIT_PARAMS) : Prop := {
  wf_BlockCount : 0 < BlockCount p < 2 ^ 64;
  wf_BlockLength : 16 <= BlockLength p < 2 ^ 32;
  wf_MaxTransferLength : 0 < MaxTransferLength p < 2 ^ 32;
  wf_Max_Block : MaxTransferLength p mod BlockLength p = 0;
  wf_DeviceType : DeviceType p = DIRECT_ACCESS_DEVICE;
  wf_ProductId : length (ProductId p) = 16%nat;
  wf_ProductRevisionLevel : length (ProductRevisionLevel p) = 4%nat
}.

(** ** Addresses round trip *)

Lemma SPD_IOCTL_BTL_add B T L :
  is_byte T -> is_byte L -> SPD_IOCTL_BTL B T L = B * 2 ^ 16 + T * 2 ^ 8 + L.
Proof. apply get_be24_add. Qed.

Lemma land_ff z : z .& 0xff = z mod 256.
Proof. change 0xff with (Z.ones 8). by rewrite Z.land_ones. Qed.

Lemma BTL_parts B T L :
  is_byte B -> is_byte T -> is_byte L ->
  SPD_IOCTL_BTL_B (SPD_IOCTL_BTL B T L) = B /\
  SPD_IOCTL_BTL_T (SPD_IOCTL_BTL B T L) = T /\
  SPD_IOCTL_BTL_L (SPD_IOCTL_BTL B T L) = L.
Proof.
  intros HB HT HL. unfold SPD_IOCTL_BTL_B, SPD_IOCTL_BTL_T, SPD_IOCTL_BTL_L.
  rewrite !land_ff, SPD_IOCTL_BTL_add, !Z.shiftr_div_pow2 by (done || lia).
  unfold is_byte in *. split_and!; dlia.
Qed.

Lemma index_from_btl i : is_byte i -> SPD_INDEX_FROM_BTL (SPD_BTL_FROM_INDEX i) = i.
Proof. intros. apply BTL_parts; blia. Qed.

Lemma btl_from_index_shift i : is_byte i -> SPD_BTL_FROM_INDEX i = i * 256.
Proof.
  intros. unfold SPD_BTL_FROM_INDEX. rewrite SPD_IOCTL_BTL_add by blia. lia.
Qed.

Lemma index_from_btl_bound Btl : is_byte (SPD_INDEX_FROM_BTL Btl).
Proof. unfold SPD_INDEX_FROM_BTL, SPD_IOCTL_BTL_T. rewrite land_ff. unfold is_byte; dlia. Qed.
