(* ===== verification/HashMix.v ===== *)
(** * Hash mixing: [SpdHashMix32], [SpdHashMix64], [SpdHashMixPointer] ([sys/driver.h])

    The same 64-bit function is written out again as [HashMix64] in [shared/stghandle.c] and
    [stgtest/stgtest.c].  It indexes the driver's table of SRB's in process, and generates the
    contents [stgtest] writes and compares. *)

From S2P Require Import Prelude.

Definition SpdHashMix32 (h : Z) : Z :=
  let h := h .^ (h ≫ 16) in
  let h := u32 (h * 0x85ebca6b) in
  let h := h .^ (h ≫ 13) in
  let h := u32 (h * 0xc2b2ae35) in
  h .^ (h ≫ 16).

Definition SpdHashMix64 (k : Z) : Z :=
  let k := k .^ (k ≫ 33) in
  let k := u64 (k * 0xff51afd7ed558ccd) in
  let k := k .^ (k ≫ 33) in
  let k := u64 (k * 0xc4ceb9fe1a85ec53) in
  k .^ (k ≫ 33).

(** On a 64-bit system the mixed pointer is truncated to [ULONG]. *)
Definition SpdHashMixPointer (Pointer : Z) : Z := u32 (SpdHashMix64 Pointer).

(** The reference inverses, used only to state that mixing loses nothing. *)
Definition SpdHashUnmix32 (h : Z) : Z :=
  let h := h .^ (h ≫ 16) in
  let h := u32 (h * 0x7ed1b41d) in
  let h := (h .^ (h ≫ 13)) .^ (h ≫ 26) in
  let h := u32 (h * 0xa5cb9243) in
  h .^ (h ≫ 16).

Definition SpdHashUnmix64 (k : Z) : Z :=
  let k := k .^ (k ≫ 33) in
  let k := u64 (k * 0x9cb4b2f8129337db) in
  let k := k .^ (k ≫ 33) in
  let k := u64 (k * 0x4f74430c22a54005) in
  k .^ (k ≫ 33).

(** ** Each mixing round is invertible *)

Lemma shiftr_bound w k x : 0 <= k -> 0 <= x < 2 ^ w -> 0 <= x ≫ k < 2 ^ w.
Proof.
  intros Hk Hx. rewrite Z.shiftr_div_pow2 by lia.
  pose proof (Z.pow_pos_nonneg 2 k ltac:(lia) Hk).
  split; [apply Z.div_pos; lia|].
  apply Z.le_lt_trans with x; [|lia]. apply Z.div_le_upper_bound; nia.
Qed.

Lemma lxor_bound w a b : 0 <= w -> 0 <= a < 2 ^ w -> 0 <= b < 2 ^ w -> 0 <= a .^ b < 2 ^ w.
Proof.
  intros Hw Ha Hb. rewrite <- (Z.mod_small a (2 ^ w)), <- (Z.mod_small b (2 ^ w)) by done.
  rewrite <- !Z.land_ones by done.
  assert (Z.lxor (Z.land a (Z.ones w)) (Z.land b (Z.ones w)) =
          Z.land (Z.lxor a b) (Z.ones w)) as ->.
  { apply Z.bits_inj'. intros i Hi. rewrite !Z.lxor_spec, !Z.land_spec, Z.lxor_spec.
    by destruct (Z.testbit a i), (Z.testbit b i), (Z.testbit (Z.ones w) i). }
  rewrite Z.land_ones by done. apply Z.mod_pos_bound. by apply Z.pow_pos_nonneg.
Qed.

Lemma xorshift_bound w k x :
  0 <= w -> 0 <= k -> 0 <= x < 2 ^ w -> 0 <= x .^ (x ≫ k) < 2 ^ w.
Proof. intros. apply lxor_bound; auto using shiftr_bound. Qed.

Lemma shiftr_high w k x : 0 <= w <= k -> 0 <= x < 2 ^ w -> x ≫ k = 0.
Proof.
  intros Hk Hx. rewrite Z.shiftr_div_pow2 by lia. apply Z.div_small.
  pose proof (Z.pow_le_mono_r 2 w k). lia.
Qed.

(** [x ^= x >> k] twice is the identity when the shift covers half the word. *)
Lemma xorshift_involutive w k x :
  0 <= w <= k + k -> 0 <= k -> 0 <= x < 2 ^ w ->
  (x .^ (x ≫ k)) .^ ((x .^ (x ≫ k)) ≫ k) = x.
Proof.
  intros Hk Hk0 Hx. rewrite Z.shiftr_lxor, Z.shiftr_shiftr, (shiftr_high w (k + k)) by lia.
  by rewrite Z.lxor_0_r, Z.lxor_assoc, Z.lxor_nilpotent, Z.lxor_0_r.
Qed.

Lemma xorshift3_inverse w k x :
  0 <= w <= k + k + k -> 0 <= k -> 0 <= x < 2 ^ w ->
  let y := x .^ (x ≫ k) in (y .^ (y ≫ k)) .^ (y ≫ (k + k)) = x.
Proof.
  intros Hk Hk0 Hx y. subst y.
  rewrite !Z.shiftr_lxor, !Z.shiftr_shiftr by lia.
  rewrite (shiftr_high w (k + (k + k))) by lia. rewrite Z.lxor_0_r.
  rewrite !Z.lxor_assoc. rewrite <- (Z.lxor_assoc (x ≫ k) (x ≫ k)).
  by rewrite Z.lxor_nilpotent, Z.lxor_0_l, Z.lxor_nilpotent, Z.lxor_0_r.
Qed.

Lemma mul_inverse w a b x :
  0 < w -> (a * b) mod 2 ^ w = 1 -> 0 <= x < 2 ^ w ->
  ((x * a) mod 2 ^ w * b) mod 2 ^ w = x.
Proof.
  intros Hw Hab Hx. rewrite Z.mul_mod_idemp_l by lia.
  rewrite <- Z.mul_assoc, <- Z.mul_mod_idemp_r, Hab, Z.mul_1_r by lia.
  by apply Z.mod_small.
Qed.

(** ** The mixing functions are permutations *)

Lemma SpdHashMix64_bound k : 0 <= SpdHashMix64 k < 2 ^ 64.
Proof. apply xorshift_bound; [lia|lia|apply u64_bound]. Qed.

Lemma SpdHashMix64_unmix k : 0 <= k < 2 ^ 64 -> SpdHashUnmix64 (SpdHashMix64 k) = k.
Proof.
  intros Hk. unfold SpdHashUnmix64, SpdHashMix64, u64. cbv zeta.
  rewrite (xorshift_involutive 64) by (lia || apply u64_bound).
  rewrite (mul_inverse 64) by (lia || done || apply xorshift_bound; lia || apply u64_bound).
  rewrite (xorshift_involutive 64) by (lia || apply u64_bound).
  rewrite (mul_inverse 64) by (lia || done || apply xorshift_bound; lia).
  by apply (xorshift_involutive 64); lia.
Qed.

Lemma SpdHashUnmix64_mix k : 0 <= k < 2 ^ 64 -> SpdHashMix64 (SpdHashUnmix64 k) = k.
Proof.
  intros Hk. unfold SpdHashUnmix64, SpdHashMix64, u64. cbv zeta.
  rewrite (xorshift_involutive 64) by (lia || apply u64_bound).
  rewrite (mul_inverse 64) by (lia || done || apply xorshift_bound; lia || apply u64_bound).
  rewrite (xorshift_involutive 64) by (lia || apply u64_bound).
  rewrite (mul_inverse 64) by (lia || done || apply xorshift_bound; lia).
  by apply (xorshift_involutive 64); lia.
Qed.

Lemma SpdHashMix32_unmix h : 0 <= h < 2 ^ 32 -> SpdHashUnmix32 (SpdHashMix32 h) = h.
Proof.
  intros Hh. unfold SpdHashUnmix32, SpdHashMix32, u32. cbv zeta.
  rewrite (xorshift_involutive 32) by (lia || apply u32_bound).
  rewrite (mul_inverse 32) by (lia || done || apply xorshift_bound; lia || apply u32_bound).
  rewrite (xorshift3_inverse 32 13) by (lia || apply u32_bound).
  rewrite (mul_inverse 32) by (lia || done || apply xorshift_bound; lia).
  by apply (xorshift_involutive 32); lia.
Qed.

Lemma SpdHashMixPointer_bound p : 0 <= SpdHashMixPointer p < 2 ^ 32.
Proof. apply u32_bound. Qed.
