(* ===== verification/ListEntry.v ===== *)
(** * Doubly linked lists: [LIST_ENTRY] ([shared/minimal.h] and the Driver Kit)

    The operations work on a memory of entries, each with its two pointers; an access through a
    pointer to no entry is [None].  [dlist M h l] says that from the head [h] the memory [M]
    links the entries of [l], in order, both ways around; every operation is shown to implement
    the corresponding operation on the list [l] and to leave every other entry alone. *)

From S2P Require Import Prelude.

#[local] Set Warnings "-clear-no-such-hyp".

Section ListEntry.
Context {A : Type} `{Countable A}.

Record LIST_ENTRY := mkEntry { Flink : A; Blink : A }.

Implicit Types (M : gmap A LIST_ENTRY) (a b e h x y : A) (l : list A).

(** ** Operations *)

Definition get_Flink M e : option A := Flink <$> M !! e.
Definition get_Blink M e : option A := Blink <$> M !! e.

Definition set_Flink M e (v : A) : option (gmap A LIST_ENTRY) :=
  x ← M !! e; Some (<[e := mkEntry v (Blink x)]> M).
Definition set_Blink M e (v : A) : option (gmap A LIST_ENTRY) :=
  x ← M !! e; Some (<[e := mkEntry (Flink x) v]> M).

Definition InitializeListHead M (ListHead : A) : option (gmap A LIST_ENTRY) :=
  M ← set_Flink M ListHead ListHead; set_Blink M ListHead ListHead.

Definition InsertTailList M (ListHead Entry : A) : option (gmap A LIST_ENTRY) :=
  Blink ← get_Blink M ListHead;
  M ← set_Flink M Entry ListHead;
  M ← set_Blink M Entry Blink;
  M ← set_Flink M Blink Entry;
  set_Blink M ListHead Entry.

Definition InsertHeadList M (ListHead Entry : A) : option (gmap A LIST_ENTRY) :=
  Flink ← get_Flink M ListHead;
  M ← set_Flink M Entry Flink;
  M ← set_Blink M Entry ListHead;
  M ← set_Blink M Flink Entry;
  set_Flink M ListHead Entry.

(** Unlinks the entry and says whether the list is empty now. *)
Definition RemoveEntryList M (Entry : A) : option (bool * gmap A LIST_ENTRY) :=
  Flink ← get_Flink M Entry;
  Blink ← get_Blink M Entry;
  M ← set_Flink M Blink Flink;
  M ← set_Blink M Flink Blink;
  Some (bool_decide (Flink = Blink), M).

(** The loop [for (; Entry != &Head; Entry = Entry->Flink)], as the entries it visits. *)
Fixpoint walk_list (fuel : nat) M (ListHead Entry : A) : option (list A) :=
  if decide (Entry = ListHead) then Some []
  else match fuel with
       | O => None
       | S fuel => next ← get_Flink M Entry;
                   rest ← walk_list fuel M ListHead next;
                   Some (Entry :: rest)
       end.

(** ** What a memory of entries represents *)

Fixpoint dseg M a l b : Prop :=
  match l with
  | [] => get_Flink M a = Some b /\ get_Blink M b = Some a
  | x :: l => get_Flink M a = Some x /\ get_Blink M x = Some a /\ dseg M x l b
  end.

Definition dlist M h l : Prop := NoDup (h :: l) /\ dseg M h l h.

(** [M] and [M'] differ at the entries of [l] only. *)
Definition same_outside l M M' : Prop :=
  (forall y, y ∉ l -> M' !! y = M !! y) /\ (forall y, is_Some (M' !! y) <-> is_Some (M !! y)).

(** ** Field access *)

Lemma set_Flink_spec M e v :
  is_Some (M !! e) ->
  exists M', set_Flink M e v = Some M' /\ same_outside [e] M M' /\
    (forall y, get_Flink M' y = if decide (y = e) then Some v else get_Flink M y) /\
    (forall y, get_Blink M' y = get_Blink M y).
Proof.
  intros [x Hx]. unfold set_Flink, same_outside, get_Flink, get_Blink. rewrite Hx. simpl.
  eexists; split_and!; [done| | | |].
  - intros y Hy. apply lookup_insert_ne. set_solver.
  - intros y. destruct (decide (y = e)) as [->|].
    + rewrite lookup_insert_eq, Hx. naive_solver.
    + by rewrite lookup_insert_ne by congruence.
  - intros y. case_decide as Hy; subst.
    + by rewrite lookup_insert_eq.
    + by rewrite lookup_insert_ne by congruence.
  - intros y. destruct (decide (y = e)) as [->|].
    + by rewrite lookup_insert_eq, Hx.
    + by rewrite lookup_insert_ne by congruence.
Qed.

Lemma set_Blink_spec M e v :
  is_Some (M !! e) ->
  exists M', set_Blink M e v = Some M' /\ same_outside [e] M M' /\
    (forall y, get_Blink M' y = if decide (y = e) then Some v else get_Blink M y) /\
    (forall y, get_Flink M' y = get_Flink M y).
Proof.
  intros [x Hx]. unfold set_Blink, same_outside, get_Flink, get_Blink. rewrite Hx. simpl.
  eexists; split_and!; [done| | | |].
  - intros y Hy. apply lookup_insert_ne. set_solver.
  - intros y. destruct (decide (y = e)) as [->|].
    + rewrite lookup_insert_eq, Hx. naive_solver.
    + by rewrite lookup_insert_ne by congruence.
  - intros y. case_decide as Hy; subst.
    + by rewrite lookup_insert_eq.
    + by rewrite lookup_insert_ne by congruence.
  - intros y. destruct (decide (y = e)) as [->|].
    + by rewrite lookup_insert_eq, Hx.
    + by rewrite lookup_insert_ne by congruence.
Qed.

Lemma same_outside_trans l1 l2 M1 M2 M3 :
  same_outside l1 M1 M2 -> same_outside l2 M2 M3 -> same_outside (l1 ++ l2) M1 M3.
Proof.
  intros [H1 D1] [H2 D2]. split.
  - intros y [Hy1 Hy2]%not_elem_of_app. by rewrite H2, H1.
  - intros y. by rewrite D2, D1.
Qed.

Lemma same_outside_mono l1 l2 M1 M2 :
  l1 ⊆ l2 -> same_outside l1 M1 M2 -> same_outside l2 M1 M2.
Proof. intros Hs [H1 D1]. split; [|done]. intros y Hy. apply H1. intros ?. by apply Hy, Hs. Qed.

(** ** Segments *)

Lemma dseg_app M a l1 x l2 b :
  dseg M a (l1 ++ x :: l2) b <-> dseg M a l1 x /\ dseg M x l2 b.
Proof. revert a. induction l1 as [|z l1 IH]; intros a; simpl; [tauto|]. rewrite IH. tauto. Qed.

Lemma dseg_frame M M' a l b :
  (forall y, y ∈ a :: l -> get_Flink M' y = get_Flink M y) ->
  (forall y, y ∈ l ++ [b] -> get_Blink M' y = get_Blink M y) ->
  dseg M a l b -> dseg M' a l b.
Proof.
  revert a. induction l as [|z l IH]; intros a HF HB; simpl.
  - rewrite HF, HB; [done| |]; by apply list_elem_of_here.
  - intros (H1 & H2 & Hs). rewrite HF, HB, H1, H2 by apply list_elem_of_here.
    split; [done|]. split; [done|]. apply IH; [| |done]; intros y Hy.
    + apply HF. by apply list_elem_of_further.
    + apply HB. by apply list_elem_of_further.
Qed.

Lemma dseg_first M a l b : dseg M a l b -> get_Flink M a = head (l ++ [b]).
Proof. destruct l; simpl; naive_solver. Qed.

Lemma dseg_last M a l b : dseg M a l b -> get_Blink M b = last (a :: l).
Proof.
  revert a. induction l as [|z l IH]; intros a; simpl; [naive_solver|].
  intros (? & ? & Hs). rewrite (IH z Hs). done.
Qed.

Lemma get_Flink_is_Some M y v : get_Flink M y = Some v -> is_Some (M !! y).
Proof. unfold get_Flink. destruct (M !! y); naive_solver. Qed.

Lemma get_Blink_is_Some M y v : get_Blink M y = Some v -> is_Some (M !! y).
Proof. unfold get_Blink. destruct (M !! y); naive_solver. Qed.

Lemma dseg_is_Some M a l b y : dseg M a l b -> y ∈ a :: l ++ [b] -> is_Some (M !! y).
Proof.
  revert a. induction l as [|z l IH]; intros a; simpl.
  - intros [H1 H2] [->|[->|Hy]%elem_of_cons]%elem_of_cons;
      eauto using get_Flink_is_Some, get_Blink_is_Some. by apply not_elem_of_nil in Hy.
  - intros (H1 & H2 & Hs) [->|Hy]%elem_of_cons; eauto using get_Flink_is_Some.
Qed.

Lemma dlist_is_Some M h l y : dlist M h l -> y ∈ h :: l -> is_Some (M !! y).
Proof. intros [_ Hs] Hy. eapply dseg_is_Some; [done|]. set_solver. Qed.

Lemma dlist_first M h l : dlist M h l -> get_Flink M h = head (l ++ [h]).
Proof. intros [_ Hs]. by eapply dseg_first. Qed.

(** A list is unchanged by stores to entries it does not hold. *)
Lemma dlist_outside M M' h l l' :
  dlist M h l -> same_outside l' M M' -> (forall y, y ∈ h :: l -> y ∉ l') -> dlist M' h l.
Proof.
  intros [Hnd Hs] [HM _] Hd. split; [done|]. revert Hs. apply dseg_frame.
  - intros y Hy. unfold get_Flink. rewrite HM; [done|]. by apply Hd.
  - intros y Hy. unfold get_Blink. rewrite HM; [done|]. apply Hd. set_solver.
Qed.

(** ** The operations implement the operations on lists *)

Lemma dseg_snoc M a l x b :
  dseg M a (l ++ [x]) b <-> dseg M a l x /\ get_Flink M x = Some b /\ get_Blink M b = Some x.
Proof. by rewrite dseg_app. Qed.

(** One step of a proof about the links after stores: look the pointer up, splitting on the
    entries stored to. *)
Ltac links :=
  repeat match goal with
  | H : forall y, get_Flink ?M y = _ |- context [get_Flink ?M _] => rewrite H
  | H : forall y, get_Blink ?M y = _ |- context [get_Blink ?M _] => rewrite H
  | |- context [decide (?x = ?x)] => rewrite (decide_True_pi eq_refl)
  end;
  repeat case_decide; subst; try done; try congruence.

(** Membership facts, without the facts about the memory. *)
Ltac mem :=
  repeat match goal with
  | H : forall _, _ |- _ => clear H
  | H : same_outside _ _ _ |- _ => clear H
  | H : dlist _ _ _ |- _ => clear H
  | H : dseg _ _ _ _ |- _ => clear H
  | H : is_Some _ |- _ => clear H
  | H : get_Flink _ _ = _ |- _ => clear H
  | H : get_Blink _ _ = _ |- _ => clear H
  end; set_solver.

Lemma NoDup_snoc h l e : NoDup (h :: l) -> e ∉ h :: l -> NoDup (h :: l ++ [e]).
Proof.
  intros Hnd He. change (NoDup ((h :: l) ++ [e])).
  by rewrite Permutation_app_comm; apply NoDup_cons.
Qed.

Lemma NoDup_second h l e : NoDup (h :: l) -> e ∉ h :: l -> NoDup (h :: e :: l).
Proof. intros Hnd He. rewrite Permutation_swap. by apply NoDup_cons. Qed.

Lemma dlist_InitializeListHead M h :
  is_Some (M !! h) ->
  exists M', InitializeListHead M h = Some M' /\ dlist M' h [] /\ same_outside [h] M M'.
Proof.
  intros Hh. unfold InitializeListHead.
  destruct (set_Flink_spec M h h Hh) as (M1 & -> & [HM1 D1] & F1 & B1). simpl.
  destruct (set_Blink_spec M1 h h) as (M2 & -> & [HM2 D2] & B2 & F2); [by apply D1|].
  eexists; split_and!; [done| |].
  - split; [apply NoDup_singleton|]. simpl. split; links.
  - apply (same_outside_mono ([h] ++ [h])); [set_solver|]. by eapply same_outside_trans.
Qed.

Lemma dlist_InsertTailList M h l e :
  dlist M h l -> e ∉ h :: l -> is_Some (M !! e) ->
  exists M', InsertTailList M h e = Some M' /\ dlist M' h (l ++ [e]) /\
    same_outside (e :: h :: l) M M'.
Proof.
  intros Hl He HMe. pose proof Hl as [Hnd Hs].
  assert (exists p, last (h :: l) = Some p) as [p Hp].
  { destruct (last (h :: l)) eqn:E; [eauto|]. by apply last_None in E. }
  assert (p ∈ h :: l) as Hpl by by apply last_Some_elem_of.
  pose proof (dlist_is_Some _ _ _ p Hl Hpl) as HMp.
  pose proof (dlist_is_Some _ _ _ h Hl ltac:(apply list_elem_of_here)) as HMh.
  unfold InsertTailList. rewrite (dseg_last _ _ _ _ Hs), Hp. simpl.
  destruct (set_Flink_spec M e h HMe) as (M1 & -> & S1 & F1 & B1). simpl.
  destruct (set_Blink_spec M1 e p) as (M2 & -> & S2 & B2 & F2); [by apply S1|]. simpl.
  destruct (set_Flink_spec M2 p e) as (M3 & -> & S3 & F3 & B3); [by apply S2, S1|]. simpl.
  destruct (set_Blink_spec M3 h e) as (M4 & -> & S4 & B4 & F4); [by apply S3, S2, S1|].
  pose proof He as [Heh Hel]%not_elem_of_cons.
  exists M4. split_and!; [done| |].
  - split; [by apply NoDup_snoc|].
    apply dseg_snoc. split; [|split; links; mem].
    destruct l as [|x l' _] using rev_ind.
    + simpl in *. split; links.
    + rewrite (app_comm_cons _ _ h), last_snoc in Hp. injection Hp as ->.
      rewrite dseg_snoc in Hs |- *. destruct Hs as (Hs & HF & HB).
      assert (p ∉ h :: l') as Hd.
      { change (NoDup ((h :: l') ++ [p])) in Hnd. rewrite Permutation_app_comm in Hnd.
        by apply NoDup_cons in Hnd as [? _]. }
      assert (p <> h) as Hph by (intros ->; apply Hd, list_elem_of_here).
      assert (h ∉ l') as Hhl by (rewrite NoDup_cons in Hnd; intros ?; apply Hnd; set_solver).
      apply not_elem_of_app in Hel as [Hel1 Hel2].
      split_and!; [|links; mem|links; mem].
      revert Hs. apply dseg_frame; intros y Hy; links; mem.
  - eapply same_outside_mono; [|eapply same_outside_trans; [exact S1|eapply same_outside_trans;
      [exact S2|eapply same_outside_trans; [exact S3|exact S4]]]]. mem.
Qed.

Lemma dlist_InsertHeadList M h l e :
  dlist M h l -> e ∉ h :: l -> is_Some (M !! e) ->
  exists M', InsertHeadList M h e = Some M' /\ dlist M' h (e :: l) /\
    same_outside (e :: h :: l) M M'.
Proof.
  intros Hl He HMe. pose proof Hl as [Hnd Hs].
  assert (exists p, head (l ++ [h]) = Some p) as [p Hp] by (destruct l; simpl; eauto).
  assert (p ∈ h :: l) as Hpl.
  { destruct l; simplify_eq/=; mem. }
  pose proof (dlist_is_Some _ _ _ p Hl Hpl) as HMp.
  pose proof (dlist_is_Some _ _ _ h Hl ltac:(apply list_elem_of_here)) as HMh.
  unfold InsertHeadList. rewrite (dseg_first _ _ _ _ Hs), Hp. simpl.
  destruct (set_Flink_spec M e p HMe) as (M1 & -> & S1 & F1 & B1). simpl.
  destruct (set_Blink_spec M1 e h) as (M2 & -> & S2 & B2 & F2); [by apply S1|]. simpl.
  destruct (set_Blink_spec M2 p e) as (M3 & -> & S3 & B3 & F3); [by apply S2, S1|]. simpl.
  destruct (set_Flink_spec M3 h e) as (M4 & -> & S4 & F4 & B4); [by apply S3, S2, S1|].
  pose proof He as [Heh Hel]%not_elem_of_cons.
  exists M4. split_and!; [done| |].
  - split; [by apply NoDup_second|].
    simpl. split_and!; [links|links; mem|].
    destruct l as [|x l']; simplify_eq/=.
    + split; links.
    + destruct Hs as (HF & HB & Hs). rewrite !NoDup_cons in Hnd.
      split_and!; [links; mem|links; mem|].
      revert Hs. apply dseg_frame; intros y Hy; links; mem.
  - eapply same_outside_mono; [|eapply same_outside_trans; [exact S1|eapply same_outside_trans;
      [exact S2|eapply same_outside_trans; [exact S3|exact S4]]]]. mem.
Qed.

(** The links after the two stores of [RemoveEntryList]. *)
Lemma dseg_unlink M M' h l1 e l2 p q :
  NoDup (h :: l1 ++ e :: l2) -> dseg M h l1 e -> dseg M e l2 h ->
  last (h :: l1) = Some p -> head (l2 ++ [h]) = Some q ->
  (forall y, get_Flink M' y = if decide (y = p) then Some q else get_Flink M y) ->
  (forall y, get_Blink M' y = if decide (y = q) then Some p else get_Blink M y) ->
  dseg M' h (l1 ++ l2) h.
Proof.
  intros Hnd H1 H2 Hp Hq HF HB.
  rewrite app_comm_cons in Hnd. apply NoDup_app_split in Hnd as [Hnd He].
  rewrite <- app_comm_cons in *.
  destruct l2 as [|q' l2]; simplify_eq/=; destruct l1 as [|p' l1 _] using rev_ind;
    rewrite ?app_nil_r in *; simplify_eq/=.
  - split; links.
  - rewrite (app_comm_cons _ _ q), last_snoc in Hp. injection Hp as ->.
    rewrite dseg_snoc in H1 |- *. destruct H1 as (H1 & H1a & H1b).
    rewrite NoDup_cons, (Permutation_app_comm l1) in Hnd. simpl in Hnd.
    rewrite !NoDup_cons in Hnd.
    split_and!; [|links|links]. revert H1; apply dseg_frame; intros y Hy; links; mem.
  - destruct H2 as (H2a & H2b & H2). apply not_elem_of_cons in He as [? He].
    rewrite !NoDup_cons in Hnd.
    split_and!; [links|links|]. revert H2; apply dseg_frame; intros y Hy; links; mem.
  - rewrite (app_comm_cons _ _ h), last_snoc in Hp. injection Hp as ->.
    destruct H2 as (H2a & H2b & H2). apply dseg_app. rewrite dseg_snoc in H1 |- *.
    destruct H1 as (H1 & H1a & H1b).
    rewrite NoDup_cons, <- !app_assoc, (Permutation_app_comm l1) in Hnd. simpl in Hnd.
    rewrite !NoDup_cons, !not_elem_of_cons, !not_elem_of_app in Hnd.
    split_and!; [|links|links|]; revert H1 H2;
      [intros H1 _; revert H1|intros _]; apply dseg_frame; intros y Hy; links; mem.
Qed.

(** [RemoveEntryList] of an entry of the list. *)
Lemma dlist_RemoveEntryList M h l1 e l2 :
  dlist M h (l1 ++ e :: l2) ->
  exists M', RemoveEntryList M e = Some (bool_decide (l1 ++ l2 = []), M') /\
    dlist M' h (l1 ++ l2) /\ same_outside (h :: l1 ++ l2) M M'.
Proof.
  intros Hl. pose proof Hl as [Hnd Hs]. apply dseg_app in Hs as [H1 H2].
  assert (exists p, last (h :: l1) = Some p) as [p Hp].
  { destruct (last (h :: l1)) eqn:E; [eauto|]. by apply last_None in E. }
  assert (exists q, head (l2 ++ [h]) = Some q) as [q Hq] by (destruct l2; simpl; eauto).
  assert (p ∈ h :: l1) as Hpl by by apply last_Some_elem_of.
  assert (q ∈ h :: l2) as Hql by (destruct l2; simplify_eq/=; set_solver).
  assert (is_Some (M !! p) /\ is_Some (M !! q)) as [HMp HMq].
  { split; (eapply dlist_is_Some; [exact Hl|]); mem. }
  unfold RemoveEntryList. rewrite (dseg_first _ _ _ _ H2), Hq, (dseg_last _ _ _ _ H1), Hp. simpl.
  destruct (set_Flink_spec M p q HMp) as (M1 & -> & S1 & F1 & B1). simpl.
  destruct (set_Blink_spec M1 q p) as (M2 & -> & S2 & B2 & F2); [by apply S1|]. simpl.
  exists M2. split_and!.
  - do 2 f_equal. apply bool_decide_ext.
    rewrite app_comm_cons in Hnd. apply NoDup_app_split in Hnd as [Hnd _]. simpl in Hnd.
    destruct l2 as [|q' l2]; simplify_eq/=; destruct l1 as [|p' l1 _] using rev_ind;
      rewrite ?app_nil_r in *; simplify_eq/=.
    + done.
    + rewrite (app_comm_cons _ _ q), last_snoc in Hp. simplify_eq. 
      rewrite NoDup_cons in Hnd. split; [intros ->; exfalso|intros [? ?]%app_nil; done]. mem.
    + rewrite !NoDup_cons in Hnd. split; [intros ->; exfalso|done]. mem.
    + rewrite (app_comm_cons _ _ h), last_snoc in Hp. simplify_eq.
      rewrite NoDup_cons, <- app_assoc, (Permutation_app_comm l1) in Hnd. simpl in Hnd.
      rewrite !NoDup_cons in Hnd. split; [intros ->; exfalso|intros [? ?]%app_nil; done]. mem.
  - split.
    + rewrite app_comm_cons in Hnd. by apply NoDup_app_split in Hnd as [? _].
    + eapply (dseg_unlink M M2 h l1 e l2 p q); try done; intros y; [by rewrite F2, F1|].
      by rewrite B2, B1.
  - eapply same_outside_mono; [|eapply same_outside_trans; [exact S1|exact S2]]. mem.
Qed.

(** The loop over a list visits its entries in order. *)
Lemma walk_list_dseg M h a l fuel :
  dseg M a l h -> h ∉ l -> (length l <= fuel)%nat ->
  (next ← get_Flink M a; walk_list fuel M h next) = Some l.
Proof.
  revert a fuel. induction l as [|x l IH]; intros a fuel; simpl.
  - intros [-> _] _ _. simpl. destruct fuel; simpl; by rewrite decide_True.
  - intros (-> & _ & Hs) Hh Hf. destruct fuel as [|fuel]; [lia|]. simpl.
    rewrite decide_False by set_solver.
    specialize (IH x fuel Hs ltac:(set_solver) ltac:(lia)).
    destruct (get_Flink M x) as [next|]; simplify_eq/=. by rewrite IH.
Qed.
End ListEntry.
Arguments LIST_ENTRY : clear implicits.
