(* ===== verification/Srb.v ===== *)
(** * SCSI request blocks: [sys/srbcompat.h], [SpdSrbComplete] and the SRB extension ([sys/driver.h])

    A request is the structure [SCSI_REQUEST_BLOCK] together with the memory of the two buffers
    that the port driver gives to the request for as long as the miniport owns it: the data
    buffer and the sense buffer.  A store through a null buffer pointer or past the end of its
    memory is [None]. *)

From S2P Require Import Prelude Wdk.

Record SRB := mkSrb {
  srb_Length : Z;
  srb_Function : Z;
  srb_SrbStatus : Z;
  srb_ScsiStatus : Z;
  srb_PathId : Z;
  srb_TargetId : Z;
  srb_Lun : Z;
  srb_QueueTag : Z;
  srb_QueueAction : Z;
  srb_CdbLength : Z;
  srb_SenseInfoBufferLength : Z;
  srb_SrbFlags : Z;
  srb_DataTransferLength : Z;
  srb_TimeOutValue : Z;
  srb_DataBuffer : Z;          (* 0 is a null pointer *)
  srb_SenseInfoBuffer : Z;
  srb_NextSrb : Z;
  srb_OriginalRequest : Z;
  srb_SrbExtension : Z;
  srb_InternalStatus : Z;      (* a union with QueueSortKey *)
  srb_Cdb : list Z;            (* 16 bytes *)
  srb_Data : list Z;           (* the memory behind DataBuffer *)
  srb_Sense : list Z           (* the memory behind SenseInfoBuffer *)
}.

#[export] Instance SRB_eta : Eta SRB := fun s =>
  mkSrb (srb_Length s) (srb_Function s) (srb_SrbStatus s) (srb_ScsiStatus s) (srb_PathId s)
    (srb_TargetId s) (srb_Lun s) (srb_QueueTag s) (srb_QueueAction s) (srb_CdbLength s)
    (srb_SenseInfoBufferLength s) (srb_SrbFlags s) (srb_DataTransferLength s)
    (srb_TimeOutValue s) (srb_DataBuffer s) (srb_SenseInfoBuffer s) (srb_NextSrb s)
    (srb_OriginalRequest s) (srb_SrbExtension s) (srb_InternalStatus s) (srb_Cdb s)
    (srb_Data s) (srb_Sense s).

(** ** Accessors *)

Definition SrbGetCdb (Srb : SRB) : list Z := srb_Cdb Srb.
Definition SrbGetSrbFunction (Srb : SRB) : Z := srb_Function Srb.
Definition SrbGetSenseInfoBuffer (Srb : SRB) : Z := srb_SenseInfoBuffer Srb.
Definition SrbGetSenseInfoBufferLength (Srb : SRB) : Z := srb_SenseInfoBufferLength Srb.
Definition SrbSetSenseInfoBuffer (Srb : SRB) (SenseInfoBuffer : Z) : SRB :=
  Srb <| srb_SenseInfoBuffer := SenseInfoBuffer |>.
Definition SrbSetSenseInfoBufferLength (Srb : SRB) (SenseInfoBufferLength : Z) : SRB :=
  Srb <| srb_SenseInfoBufferLength := SenseInfoBufferLength |>.
Definition SrbGetOriginalRequest (Srb : SRB) : Z := srb_OriginalRequest Srb.
Definition SrbSetOriginalRequest (Srb : SRB) (OriginalRequest : Z) : SRB :=
  Srb <| srb_OriginalRequest := OriginalRequest |>.
Definition SrbGetDataBuffer (Srb : SRB) : Z := srb_DataBuffer Srb.
Definition SrbSetDataBuffer (Srb : SRB) (DataBuffer : Z) : SRB :=
  Srb <| srb_DataBuffer := DataBuffer |>.
Definition SrbGetDataTransferLength (Srb : SRB) : Z := srb_DataTransferLength Srb.
Definition SrbSetDataTransferLength (Srb : SRB) (DataTransferLength : Z) : SRB :=
  Srb <| srb_DataTransferLength := DataTransferLength |>.
Definition SrbGetTimeOutValue (Srb : SRB) : Z := srb_TimeOutValue Srb.
Definition SrbSetTimeOutValue (Srb : SRB) (TimeOutValue : Z) : SRB :=
  Srb <| srb_TimeOutValue := TimeOutValue |>.
Definition SrbSetQueueSortKey (Srb : SRB) (QueueSortKey : Z) : SRB :=
  Srb <| srb_InternalStatus := QueueSortKey |>.
Definition SrbSetQueueTag (Srb : SRB) (QueueTag : Z) : SRB :=
  Srb <| srb_QueueTag := u8 QueueTag |>.
Definition SrbGetQueueTag (Srb : SRB) : Z := srb_QueueTag Srb.
Definition SrbGetNextSrb (Srb : SRB) : Z := srb_NextSrb Srb.
Definition SrbSetNextSrb (Srb : SRB) (NextSrb : Z) : SRB := Srb <| srb_NextSrb := NextSrb |>.
Definition SrbGetSrbFlags (Srb : SRB) : Z := srb_SrbFlags Srb.
Definition SrbAssignSrbFlags (Srb : SRB) (Flags : Z) : SRB := Srb <| srb_SrbFlags := Flags |>.
Definition SrbSetSrbFlags (Srb : SRB) (Flags : Z) : SRB :=
  Srb <| srb_SrbFlags := srb_SrbFlags Srb .| Flags |>.
Definition SrbClearSrbFlags (Srb : SRB) (Flags : Z) : SRB :=
  Srb <| srb_SrbFlags := srb_SrbFlags Srb .& u32 (Z.lnot Flags) |>.
Definition SrbGetSystemStatus (Srb : SRB) : Z := srb_InternalStatus Srb.
Definition SrbSetSystemStatus (Srb : SRB) (Status : Z) : SRB :=
  Srb <| srb_InternalStatus := Status |>.
Definition SrbGetScsiStatus (Srb : SRB) : Z := srb_ScsiStatus Srb.
Definition SrbSetScsiStatus (Srb : SRB) (ScsiStatus : Z) : SRB :=
  Srb <| srb_ScsiStatus := ScsiStatus |>.
Definition SrbGetCdbLength (Srb : SRB) : Z := srb_CdbLength Srb.
Definition SrbSetCdbLength (Srb : SRB) (CdbLength : Z) : SRB :=
  Srb <| srb_CdbLength := CdbLength |>.
Definition SrbGetRequestAttribute (Srb : SRB) : Z := srb_QueueAction Srb.
Definition SrbSetRequestAttribute (Srb : SRB) (RequestAttribute : Z) : SRB :=
  Srb <| srb_QueueAction := RequestAttribute |>.
Definition SrbGetPathId (Srb : SRB) : Z := srb_PathId Srb.
Definition SrbGetTargetId (Srb : SRB) : Z := srb_TargetId Srb.
Definition SrbGetLun (Srb : SRB) : Z := srb_Lun Srb.

(** The three addresses that the caller of [SrbGetPathTargetLun] asks for. *)
Definition SrbGetPathTargetLun (Srb : SRB) : Z * Z * Z :=
  (srb_PathId Srb, srb_TargetId Srb, srb_Lun Srb).
Definition SrbGetMiniportContext (Srb : SRB) : Z := srb_SrbExtension Srb.
Definition SrbGetSrbStatus (Srb : SRB) : Z := srb_SrbStatus Srb.

(** A status keeps the flag that says that the sense data of the request is valid. *)
Definition SrbSetSrbStatus (Srb : SRB) (Status : Z) : SRB :=
  if negb (srb_SrbStatus Srb .& SRB_STATUS_AUTOSENSE_VALID =? 0)
  then Srb <| srb_SrbStatus := Status .| SRB_STATUS_AUTOSENSE_VALID |>
  else Srb <| srb_SrbStatus := Status |>.

(** A cleared request keeps its function and its length. *)
Definition SrbZeroSrb (Srb : SRB) : SRB :=
  mkSrb (srb_Length Srb) (srb_Function Srb) 0 0 0 0 0 0 0 0 0 0 0 0 0 0 0 0 0 0
    (replicate 16 0) (srb_Data Srb) (srb_Sense Srb).

(** ** The miniport's part of a request *)

(** [SPD_SRB_EXTENSION], without the two members that link it into a queue: [ListEntry] and
    [HashNext] are memories of their own in the model of the queue. *)
Record SPD_SRB_EXTENSION := mkExt {
  ext_StorageUnit : Z;
  ext_Srb : Z;
  ext_SystemDataBuffer : Z;
  ext_SystemDataLength : Z;
  ext_ChunkOffset : Z
}.

#[export] Instance EXT_eta : Eta SPD_SRB_EXTENSION := fun e =>
  mkExt (ext_StorageUnit e) (ext_Srb e) (ext_SystemDataBuffer e) (ext_SystemDataLength e)
    (ext_ChunkOffset e).

Definition SpdSrbExtension (Srb : SRB) : Z := SrbGetMiniportContext Srb.

(** [RtlZeroMemory(SrbExtension, sizeof(SPD_SRB_EXTENSION))] *)
Definition ExtZero : SPD_SRB_EXTENSION := mkExt 0 0 0 0 0.

(** [ASSERT]: in a checked build ([DBG]) a condition that does not hold stops the system. *)
Definition ASSERT (DBG : bool) (b : bool) : option unit :=
  if DBG && negb b then None else Some tt.

(** [SpdSrbComplete]: the request as it is handed back to the port driver. *)
Definition SpdSrbComplete (DBG : bool) (Srb : SRB) (SrbStatus : Z) : option SRB :=
  _ ← ASSERT DBG (negb (SRB_STATUS_PENDING =? SRB_STATUS SrbStatus));
  Some (SrbSetSrbStatus Srb SrbStatus).

(** ** Buffers of a request *)

(** What the port driver promises of a request: the buffers it points to have the lengths it
    states, and their bytes are bytes. *)
Record srb_wf (Srb : SRB) : Prop := {
  srb_wf_Data : srb_DataBuffer Srb <> 0 ->
    Z.of_nat (length (srb_Data Srb)) = srb_DataTransferLength Srb;
  srb_wf_Sense : srb_SenseInfoBuffer Srb <> 0 ->
    Z.of_nat (length (srb_Sense Srb)) = srb_SenseInfoBufferLength Srb;
  srb_wf_DataTransferLength : 0 <= srb_DataTransferLength Srb < 2 ^ 32;
  srb_wf_SenseInfoBufferLength : 0 <= srb_SenseInfoBufferLength Srb < 2 ^ 8;
  srb_wf_bytes : Forall is_byte (srb_Data Srb);
  srb_wf_Cdb : length (srb_Cdb Srb) = 16%nat;
  srb_wf_Cdb_bytes : Forall is_byte (srb_Cdb Srb)
}.

(** ** Statuses *)

Lemma ASSERT_true DBG b : b = true -> ASSERT DBG b = Some tt.
Proof. intros ->. unfold ASSERT. by destruct DBG. Qed.

Lemma ASSERT_free b : ASSERT false b = Some tt.
Proof. done. Qed.

Lemma SpdSrbComplete_Some DBG Srb SrbStatus :
  SRB_STATUS SrbStatus <> SRB_STATUS_PENDING ->
  SpdSrbComplete DBG Srb SrbStatus = Some (SrbSetSrbStatus Srb SrbStatus).
Proof.
  intros H. unfold SpdSrbComplete. rewrite ASSERT_true; [done|].
  apply negb_true_iff, Z.eqb_neq. done.
Qed.

Lemma SpdSrbComplete_aborted DBG Srb :
  SpdSrbComplete DBG Srb SRB_STATUS_ABORTED = Some (SrbSetSrbStatus Srb SRB_STATUS_ABORTED).
Proof. apply SpdSrbComplete_Some. by vm_compute. Qed.

Lemma SrbSetSrbStatus_SrbExtension Srb s :
  srb_SrbExtension (SrbSetSrbStatus Srb s) = srb_SrbExtension Srb.
Proof. unfold SrbSetSrbStatus. by case_match. Qed.

Lemma land_lor_absorb a m : (a .| m) .& m = m.
Proof.
  apply Z.bits_inj'. intros i Hi. rewrite Z.land_spec, Z.lor_spec.
  by destruct (Z.testbit a i), (Z.testbit m i).
Qed.

Lemma SRB_STATUS_lor_autosense s :
  SRB_STATUS (s .| SRB_STATUS_AUTOSENSE_VALID) = SRB_STATUS s.
Proof.
  unfold SRB_STATUS. apply Z.bits_inj'. intros i Hi.
  rewrite !Z.land_spec, Z.lor_spec. unfold SRB_STATUS_AUTOSENSE_VALID.
  assert (Z.testbit 128 i && Z.testbit 63 i = false) as Hd.
  { rewrite <- Z.land_spec. change (128 .& 63) with 0. apply Z.bits_0. }
  destruct (Z.testbit s i), (Z.testbit 128 i), (Z.testbit 63 i); done.
Qed.

Lemma SrbSetSrbStatus_status Srb s :
  SRB_STATUS (srb_SrbStatus (SrbSetSrbStatus Srb s)) = SRB_STATUS s.
Proof. unfold SrbSetSrbStatus. case_match; simpl; [apply SRB_STATUS_lor_autosense|done]. Qed.
