(* ===== verification/Ioq.v ===== *)
(** * The I/O queue: [sys/ioq.c], and the queued events of [sys/driver.h]

    A queue and the requests it owns are one record: the fields of [SPD_IOQ], and the memory of
    the requests posted to it.  That memory is split by field: [Links] holds every list entry
    (the two list heads and the [ListEntry] of every extension), [HashNext] the hash chain
    pointer of every extension, [Exts] and [Srbs] the rest.  A section of code under the spin
    lock is one atomic operation.  An access to memory that the queue does not own, in
    particular to a request that has been completed, is [None].

    Loops take fuel: the number of owned requests plus one, which is enough for a list without
    a cycle; [IoqSpec] shows that no operation runs out. *)

From S2P Require Import Prelude Wdk HashMix ListEntry Srb.

(** ** Data *)

(** The addresses of list entries: a null pointer, [&Ioq->PendingList], [&Ioq->ProcessList],
    and [&SrbExtension->ListEntry]. *)
Inductive laddr := LNull | LPendingList | LProcessList | LExt (SrbExtension : Z).

#[export] Instance laddr_eq_dec : EqDecision laddr.
Proof. solve_decision. Defined.

#[export] Instance laddr_countable : Countable laddr.
Proof.
  refine (inj_countable'
    (fun a => match a with
              | LNull => None | LPendingList => Some None | LProcessList => Some (Some None)
              | LExt e => Some (Some (Some e)) end)
    (fun o => match o with
              | None => LNull | Some None => LPendingList | Some (Some None) => LProcessList
              | Some (Some (Some e)) => LExt e end) _).
  by intros [].
Defined.

Record SPD_IOQ := mkIoq {
  Stopped : bool;
  PendingEvent : Z;                           (* KeReadStateQueue of the event's KQUEUE *)
  ProcessBucketCount : Z;
  ProcessBuckets : list Z;
  Links : gmap laddr (LIST_ENTRY laddr);
  HashNext : gmap Z Z;
  Exts : gmap Z SPD_SRB_EXTENSION;
  Srbs : gmap Z SRB
}.

#[export] Instance SPD_IOQ_eta : Eta SPD_IOQ := fun q =>
  mkIoq (Stopped q) (PendingEvent q) (ProcessBucketCount q) (ProcessBuckets q) (Links q)
    (HashNext q) (Exts q) (Srbs q).

(** A completed request: its address and what the port driver gets back. *)
Definition completion : Type := Z * SRB.

(** [CONTAINING_RECORD(Entry, SPD_SRB_EXTENSION, ListEntry)] *)
Definition CONTAINING_RECORD (Entry : laddr) : option Z :=
  match Entry with LExt e => Some e | _ => None end.

Definition PAGE_SIZE : Z := 4096.

(** ** Queued events *)

Definition SpdQeventSetNoLock (q : SPD_IOQ) : SPD_IOQ :=
  if 0 =? PendingEvent q then q <| PendingEvent := 1 |> else q.

(** What happens to a thread that waits for an event: it is given the dummy entry; it is given
    another status, such as [STATUS_TIMEOUT]; or it is alerted, and finds whether the thread is
    terminating, whether the IRP is cancelled and what time it is. *)
Inductive wait_event :=
  | WaitDummyEntry
  | WaitStatus (Status : Z)
  | WaitAlerted (Terminating Cancel : bool) (InterruptTime : Z).

(** [SpdQeventWait]: the status of one wait. *)
Definition SpdQeventWait (ev : wait_event) : Z :=
  match ev with
  | WaitDummyEntry => STATUS_SUCCESS
  | WaitStatus Status => Status
  | WaitAlerted _ _ _ => STATUS_ALERTED
  end.

(** The expiration time of a relative timeout; 0 when there is none. *)
Definition WaitExpirationTime (Now : Z) (PTimeout : option Z) : Z :=
  match PTimeout with
  | Some QuadPart => if 0 >? QuadPart then u64 (Now - QuadPart) else 0
  | None => 0
  end.

(** The [retry] loop, over the events the thread meets.  The result is the status and the
    timeout left; [None] when the thread still waits after the last event. *)
Fixpoint SpdQeventRetry (ExpirationTime : Z) (PTimeout : option Z) (Irp : bool)
    (evs : list wait_event) : option (Z * option Z * list wait_event) :=
  match evs with
  | [] => None
  | ev :: evs =>
      let Result := SpdQeventWait ev in
      if STATUS_ALERTED =? Result then
        match ev with
        | WaitAlerted Terminating Cancel InterruptTime =>
            if Terminating then Some (STATUS_THREAD_IS_TERMINATING, PTimeout, evs)
            else if Irp && Cancel then Some (STATUS_CANCELLED, PTimeout, evs)
            else if negb (0 =? ExpirationTime) then
              if ExpirationTime <=? InterruptTime then Some (STATUS_TIMEOUT, PTimeout, evs)
              else SpdQeventRetry ExpirationTime
                     (Some (s64 (s64 InterruptTime - s64 ExpirationTime))) Irp evs
            else SpdQeventRetry ExpirationTime PTimeout Irp evs
        | _ => None
        end
      else Some (Result, PTimeout, evs)
  end.

Definition SpdQeventCancellableWait (Now : Z) (PTimeout : option Z) (Irp : bool)
    (evs : list wait_event) : option (Z * option Z * list wait_event) :=
  SpdQeventRetry (WaitExpirationTime Now PTimeout) PTimeout Irp evs.

(** ** Creation *)

(** The size of [SPD_IOQ] depends on the kernel's structures. *)
Definition SpdIoqCreate (sizeof_SPD_IOQ : Z) (Alloc : bool) : option (Z * option SPD_IOQ) :=
  let BucketCount := (PAGE_SIZE - sizeof_SPD_IOQ) / 8 in
  if negb Alloc then Some (STATUS_INSUFFICIENT_RESOURCES, None)
  else
    let Zeroed := {[ LPendingList := mkEntry LNull LNull; LProcessList := mkEntry LNull LNull ]} in
    M ← InitializeListHead Zeroed LPendingList;
    M ← InitializeListHead M LProcessList;
    Some (STATUS_SUCCESS,
          Some (mkIoq false 0 BucketCount (replicate (Z.to_nat BucketCount) 0) M ∅ ∅ ∅)).

(** ** The hash table of the requests in process *)

(** The places a [PVOID *P] of the loops over a bucket points to. *)
Inductive hloc := HBucket (Index : nat) | HNext (SrbExtension : Z).

Definition hload (q : SPD_IOQ) (P : hloc) : option Z :=
  match P with
  | HBucket i => ProcessBuckets q !! i
  | HNext e => HashNext q !! e
  end.

Definition hstore (q : SPD_IOQ) (P : hloc) (v : Z) : option SPD_IOQ :=
  _ ← hload q P;
  Some match P with
       | HBucket i => q <| ProcessBuckets := <[i := v]> (ProcessBuckets q) |>
       | HNext e => q <| HashNext := <[e := v]> (HashNext q) |>
       end.

(** [SpdHashMixPointer(SrbExtension) % Ioq->ProcessBucketCount] *)
Definition bucket_index (q : SPD_IOQ) (SrbExtension : Z) : option nat :=
  if ProcessBucketCount q =? 0 then None
  else Some (Z.to_nat (SpdHashMixPointer SrbExtension mod ProcessBucketCount q)).

(** [for (P = ...; *P; P = &HashNext of what P points to) if (SrbExtension == what P points to) ...]: the place that points
    to the extension, or [None] inside when the bucket does not hold it. *)
Fixpoint bucket_find (fuel : nat) (q : SPD_IOQ) (P : hloc) (SrbExtension : Z)
    : option (option hloc) :=
  x ← hload q P;
  if x =? 0 then Some None
  else if x =? SrbExtension then Some (Some P)
  else match fuel with
       | O => None
       | S fuel => bucket_find fuel q (HNext x) SrbExtension
       end.

Definition queue_fuel (q : SPD_IOQ) : nat := S (size (HashNext q)).

(** ** Completion *)

(** [SpdSrbComplete] of a request of the queue: its memory goes back to the port driver. *)
Definition complete_srb (DBG : bool) (q : SPD_IOQ) (Srb SrbStatus : Z)
    : option (SPD_IOQ * completion) :=
  s ← Srbs q !! Srb;
  s' ← SpdSrbComplete DBG s SrbStatus;
  let e := SpdSrbExtension s in
  Some (q <| Srbs := delete Srb (Srbs q) |>
          <| Exts := delete e (Exts q) |>
          <| HashNext := delete e (HashNext q) |>
          <| Links := delete (LExt e) (Links q) |>, (Srb, s')).

(** ** The operations *)

Section Operations.
Context (DBG : bool).
Context {Ctx : Type}.

(** The loops of [SpdIoqReset] over a detached list. *)
Fixpoint abort_list (fuel : nat) (q : SPD_IOQ) (Head Entry : laddr)
    : option (SPD_IOQ * list completion) :=
  if decide (Entry = Head) then Some (q, [])
  else match fuel with
       | O => None
       | S fuel =>
           Flink ← get_Flink (Links q) Entry;
           e ← CONTAINING_RECORD Entry;
           ext ← Exts q !! e;
           '(q, c) ← complete_srb DBG q (ext_Srb ext) SRB_STATUS_ABORTED;
           '(q, cs) ← abort_list fuel q Head Flink;
           Some (q, c :: cs)
       end.

Definition SpdIoqReset (q : SPD_IOQ) (Stop : bool) : option (SPD_IOQ * list completion) :=
  if negb (Stopped q) then
    PendingEntry ← get_Flink (Links q) LPendingList;
    ProcessEntry ← get_Flink (Links q) LProcessList;
    M ← InitializeListHead (Links q) LPendingList;
    M ← InitializeListHead M LProcessList;
    let q := q <| Links := M |> in
    let q := q <| ProcessBuckets := replicate (Z.to_nat (ProcessBucketCount q)) 0 |> in
    '(q, cs1) ← abort_list (queue_fuel q) q LPendingList PendingEntry;
    '(q, cs2) ← abort_list (queue_fuel q) q LProcessList ProcessEntry;
    let q := if Stop then SpdQeventSetNoLock (q <| Stopped := true |>) else q in
    Some (q, cs1 ++ cs2)
  else Some (q, []).

(** The queue is freed after the reset: what it completed. *)
Definition SpdIoqDelete (q : SPD_IOQ) : option (list completion) :=
  '(_, cs) ← SpdIoqReset q false; Some cs.

Definition SpdIoqStopped (q : SPD_IOQ) : bool := Stopped q.

Definition SpdIoqCancelSrb (q : SPD_IOQ) (Srb : Z)
    : option (Z * SPD_IOQ * list completion) :=
  if negb (Stopped q) then
    s ← Srbs q !! Srb;
    let SrbExtension := SpdSrbExtension s in
    ext ← Exts q !! SrbExtension;
    _ ← ASSERT DBG (Srb =? ext_Srb ext);
    Index ← bucket_index q SrbExtension;
    found ← bucket_find (queue_fuel q) q (HBucket Index) SrbExtension;
    q ← match found with
        | Some P => next ← HashNext q !! SrbExtension;
                    q ← hstore q P next;
                    hstore q (HNext SrbExtension) 0
        | None => Some q
        end;
    '(_, M) ← RemoveEntryList (Links q) (LExt SrbExtension);
    M ← set_Blink M (LExt SrbExtension) LNull;
    M ← set_Flink M (LExt SrbExtension) LNull;
    let q := q <| Links := M |> in
    let q := q <| Exts := <[SrbExtension := ext <| ext_Srb := 0 |>]> (Exts q) |> in
    '(q, c) ← complete_srb DBG q Srb SRB_STATUS_ABORTED;
    Some (STATUS_SUCCESS, q, [c])
  else Some (STATUS_UNSUCCESSFUL, q, []).

(** The queue takes over the request, with the extension that the caller has filled in: its
    [HashNext] and [ListEntry] as the caller leaves them. *)
Definition SpdIoqPostSrb (q : SPD_IOQ) (Srb : Z) (s : SRB) (ext : SPD_SRB_EXTENSION)
    (next : Z) (entry : LIST_ENTRY laddr) : option (Z * SPD_IOQ) :=
  if negb (Stopped q) then
    let SrbExtension := SpdSrbExtension s in
    _ ← ASSERT DBG (0 =? ext_Srb ext);
    let ext := ext <| ext_Srb := Srb |> in
    _ ← ASSERT DBG (bool_decide (LNull = Flink entry) && bool_decide (LNull = Blink entry));
    M ← InsertTailList (<[LExt SrbExtension := entry]> (Links q)) LPendingList
          (LExt SrbExtension);
    let q := q <| Links := M |>
               <| HashNext := <[SrbExtension := next]> (HashNext q) |>
               <| Exts := <[SrbExtension := ext]> (Exts q) |>
               <| Srbs := <[Srb := s]> (Srbs q) |> in
    Some (STATUS_SUCCESS, SpdQeventSetNoLock q)
  else Some (STATUS_CANCELLED, q).

Section Start.
Context (Prepare : Z -> SPD_SRB_EXTENSION -> SRB -> Ctx -> option Ctx).

(** Linking an extension into the process list and its bucket. *)
Definition start_link (q : SPD_IOQ) (SrbExtension : Z) : option SPD_IOQ :=
  M ← InsertTailList (Links q) LProcessList (LExt SrbExtension);
  let q := q <| Links := M |> in
  Index ← bucket_index q SrbExtension;
  first ← ProcessBuckets q !! Index;
  found ← (if DBG then bucket_find (queue_fuel q) q (HBucket Index) SrbExtension
           else Some None);
  _ ← ASSERT DBG (bool_decide (found = None));
  next ← HashNext q !! SrbExtension;
  _ ← ASSERT DBG (0 =? next);
  q ← hstore q (HNext SrbExtension) first;
  hstore q (HBucket Index) SrbExtension.

(** The section of [SpdIoqStartProcessingSrb] under the spin lock. *)
Definition start_locked (q : SPD_IOQ) (ctx : Ctx) : option (Z * SPD_IOQ * Ctx) :=
  if negb (Stopped q) then
    PendingEntry ← get_Flink (Links q) LPendingList;
    if decide (PendingEntry <> LPendingList) then
      SrbExtension ← CONTAINING_RECORD PendingEntry;
      '(empty, M) ← RemoveEntryList (Links q) (LExt SrbExtension);
      let Wake := negb empty in
      let q := q <| Links := M |> in
      ext ← Exts q !! SrbExtension;
      s ← Srbs q !! ext_Srb ext;
      ctx ← Prepare SrbExtension ext s ctx;
      q ← start_link q SrbExtension;
      Some (STATUS_SUCCESS, if Wake then SpdQeventSetNoLock q else q, ctx)
    else Some (STATUS_UNSUCCESSFUL, q, ctx)
  else Some (STATUS_CANCELLED, SpdQeventSetNoLock q, ctx).

(** The whole of it, after a wait that returned [Result]. *)
Definition SpdIoqStartProcessingSrb (q : SPD_IOQ) (Result : Z) (ctx : Ctx)
    : option (Z * SPD_IOQ * Ctx) :=
  if STATUS_TIMEOUT =? Result then Some (STATUS_TIMEOUT, q, ctx)
  else if (STATUS_CANCELLED =? Result) || (STATUS_THREAD_IS_TERMINATING =? Result)
  then Some (STATUS_CANCELLED, q, ctx)
  else
    _ ← ASSERT DBG (STATUS_SUCCESS =? Result);
    start_locked q ctx.
End Start.

Section End_.
Context (Complete : SPD_SRB_EXTENSION -> SRB -> Ctx -> option (Z * SPD_SRB_EXTENSION * SRB)).

Definition SpdIoqEndProcessingSrb (q : SPD_IOQ) (Hint : Z) (ctx : Ctx)
    : option (SPD_IOQ * list completion) :=
  if negb (Stopped q) then
    let SrbExtension := Hint in
    Index ← bucket_index q SrbExtension;
    found ← bucket_find (queue_fuel q) q (HBucket Index) SrbExtension;
    match found with
    | None => Some (q, [])
    | Some P =>
        next ← HashNext q !! SrbExtension;
        q ← hstore q P next;
        '(_, M) ← RemoveEntryList (Links q) (LExt SrbExtension);
        let q := q <| Links := M |> in
        ext ← Exts q !! SrbExtension;
        s ← Srbs q !! ext_Srb ext;
        '(SrbStatus, ext', s') ← Complete ext s ctx;
        let q := q <| Exts := <[SrbExtension := ext']> (Exts q) |>
                   <| Srbs := <[ext_Srb ext := s']> (Srbs q) |> in
        if SRB_STATUS_PENDING =? SrbStatus then
          M ← InsertHeadList (Links q) LPendingList (LExt SrbExtension);
          Some (SpdQeventSetNoLock (q <| Links := M |>), [])
        else
          '(q, c) ← complete_srb DBG q (ext_Srb ext') SrbStatus;
          Some (q, [c])
    end
  else Some (q, []).
End End_.
End Operations.
