(* ===== verification/IoqMem.v ===== *)
(** * The memory of an I/O queue: representation predicates

    What the two lists, the hash table and the requests of a queue look like in memory, and
    how each store of the operations of [Ioq] changes what they represent. *)

From S2P Require Import Prelude Wdk HashMix ListEntry Srb Ioq.

#[local] Set Warnings "-clear-no-such-hyp".

(** ** The two lists *)

Definition links_rep (M : gmap laddr (LIST_ENTRY laddr)) (p r : list Z) : Prop :=
  dlist M LPendingList (LExt <$> p) /\ dlist M LProcessList (LExt <$> r) /\ NoDup (p ++ r).

(** The same entries are allocated. *)
Definition same_dom {K A} `{Countable K} (M M' : gmap K A) : Prop :=
  forall a, is_Some (M' !! a) <-> is_Some (M !! a).

(** ** The hash table *)

(** The chain of [HashNext] pointers that starts with the pointer [a]. *)
Fixpoint chain (H : gmap Z Z) (l : list Z) (a : Z) : Prop :=
  match l with
  | [] => a = 0
  | e :: l => a = e /\ e <> 0 /\ exists n, H !! e = Some n /\ chain H l n
  end.

Definition index_of (N e : Z) : nat := Z.to_nat (SpdHashMixPointer e mod N).

(** The buckets hold exactly the extensions of [r], each in the bucket of its hash. *)
Definition buckets_rep (N : Z) (H : gmap Z Z) (bk : list Z) (r : list Z) : Prop :=
  0 < N /\ Z.of_nat (length bk) = N /\
  exists bs, Forall2 (chain H) bs bk /\ concat bs ≡ₚ r /\
    forall i b e, bs !! i = Some b -> e ∈ b -> index_of N e = i.

(** ** Lists *)

Lemma LExt_in (e : Z) (l : list Z) : LExt e ∈ LExt <$> l <-> e ∈ l.
Proof. split; [intros (? & [= ->] & ?)%list_elem_of_fmap; done|apply list_elem_of_fmap_2]. Qed.

Lemma dlist_stays h M M' (l : list Z) l' :
  dlist M h (LExt <$> l) -> same_outside l' M M' ->
  (forall y, y ∈ h :: (LExt <$> l) -> y ∉ l') -> dlist M' h (LExt <$> l).
Proof. apply dlist_outside. Qed.

(** A list with head [h] and entries [l] does not meet the list with head [h'] and entries
    [l']. *)
Lemma lists_disjoint (h h' : laddr) (p r : list Z) :
  h <> h' -> (forall e, h <> LExt e) -> (forall e, h' <> LExt e) -> NoDup (p ++ r) ->
  forall y, y ∈ h' :: (LExt <$> r) -> y ∉ h :: (LExt <$> p).
Proof.
  intros Hne Hh Hh' Hnd y Hy Hy'. apply NoDup_app in Hnd as (_ & Hnd & _).
  apply elem_of_cons in Hy as [->|(e & -> & He)%list_elem_of_fmap];
    apply elem_of_cons in Hy' as [E|(e' & E & He')%list_elem_of_fmap].
  - by apply Hne.
  - by apply Hh' in E.
  - by apply (Hh e).
  - injection E as ->. by apply (Hnd e').
Qed.

Lemma fmap_LExt_app (l1 l2 : list Z) : LExt <$> (l1 ++ l2) = (LExt <$> l1) ++ (LExt <$> l2).
Proof. apply fmap_app. Qed.

Section Links.
Implicit Types (M : gmap laddr (LIST_ENTRY laddr)) (p r l : list Z) (e : Z).

Lemma links_swap M p r :
  dlist M LPendingList (LExt <$> p) /\ dlist M LProcessList (LExt <$> r) /\ NoDup (r ++ p) <->
  links_rep M p r.
Proof. unfold links_rep. by rewrite (Permutation_app_comm r p). Qed.

Lemma not_in_links h p e :
  (forall e, h <> LExt e) -> e ∉ p -> LExt e ∉ h :: (LExt <$> p).
Proof. intros Hh He [?|?%LExt_in]%elem_of_cons; [by apply (Hh e)|done]. Qed.

Lemma links_InsertTail_pending M p r e :
  links_rep M p r -> e ∉ p ++ r -> is_Some (M !! LExt e) ->
  exists M', InsertTailList M LPendingList (LExt e) = Some M' /\
    links_rep M' (p ++ [e]) r /\ same_dom M M'.
Proof.
  intros (Hp & Hr & Hnd) He HM. pose proof He as [Hep Her]%not_elem_of_app.
  destruct (dlist_InsertTailList M LPendingList (LExt <$> p) (LExt e)) as (M' & HI & Hd & Hs);
    [done|by apply not_in_links|done|].
  exists M'. split_and!; [done| |exact (proj2 Hs)]. unfold links_rep. rewrite fmap_LExt_app.
  split_and!; [done| |].
  - eapply dlist_stays; [exact Hr|exact Hs|]. intros y Hy [->|Hy']%elem_of_cons.
    + revert Hy. by apply not_in_links.
    + revert Hy'. by eapply lists_disjoint; [..|exact Hy].
  - rewrite <- app_assoc, (Permutation_app_comm p), <- app_assoc. simpl.
    rewrite (Permutation_app_comm r p). by apply NoDup_cons.
Qed.

Lemma links_InsertHead_pending M p r e :
  links_rep M p r -> e ∉ p ++ r -> is_Some (M !! LExt e) ->
  exists M', InsertHeadList M LPendingList (LExt e) = Some M' /\
    links_rep M' (e :: p) r /\ same_dom M M'.
Proof.
  intros (Hp & Hr & Hnd) He HM. pose proof He as [Hep Her]%not_elem_of_app.
  destruct (dlist_InsertHeadList M LPendingList (LExt <$> p) (LExt e)) as (M' & HI & Hd & Hs);
    [done|by apply not_in_links|done|].
  exists M'. split_and!; [done| |exact (proj2 Hs)]. split_and!; [done| |by apply NoDup_cons].
  eapply dlist_stays; [exact Hr|exact Hs|]. intros y Hy [->|Hy']%elem_of_cons.
  - revert Hy. by apply not_in_links.
  - revert Hy'. by eapply lists_disjoint; [..|exact Hy].
Qed.

Lemma links_InsertTail_process M p r e :
  links_rep M p r -> e ∉ p ++ r -> is_Some (M !! LExt e) ->
  exists M', InsertTailList M LProcessList (LExt e) = Some M' /\
    links_rep M' p (r ++ [e]) /\ same_dom M M'.
Proof.
  intros (Hp & Hr & Hnd) He HM. pose proof He as [Hep Her]%not_elem_of_app.
  destruct (dlist_InsertTailList M LProcessList (LExt <$> r) (LExt e)) as (M' & HI & Hd & Hs);
    [done|by apply not_in_links|done|].
  exists M'. split_and!; [done| |exact (proj2 Hs)]. unfold links_rep. rewrite fmap_LExt_app.
  split_and!; [|done|].
  - eapply dlist_stays; [exact Hp|exact Hs|]. intros y Hy [->|Hy']%elem_of_cons.
    + revert Hy. by apply not_in_links.
    + revert Hy'. eapply lists_disjoint; [..|exact Hy]; try done.
      by rewrite Permutation_app_comm.
  - rewrite app_assoc, Permutation_app_comm. simpl. by apply NoDup_cons.
Qed.

Lemma links_Remove_pending M p1 e p2 r :
  links_rep M (p1 ++ e :: p2) r ->
  exists M', RemoveEntryList M (LExt e) = Some (bool_decide (p1 ++ p2 = []), M') /\
    links_rep M' (p1 ++ p2) r /\ (e ∉ (p1 ++ p2) ++ r) /\ same_dom M M'.
Proof.
  intros (Hp & Hr & Hnd). rewrite fmap_LExt_app in Hp. simpl in Hp.
  pose proof Hnd as Hnd'. rewrite <- app_assoc in Hnd'. simpl in Hnd'.
  apply NoDup_app_split in Hnd' as [Hnd' He]. rewrite app_assoc in Hnd', He.
  destruct (dlist_RemoveEntryList M LPendingList _ _ _ Hp) as (M' & HR & Hd & Hs).
  rewrite <- fmap_LExt_app in *. exists M'. split_and!; [| |done|exact (proj2 Hs)].
  - rewrite HR. do 2 f_equal. apply bool_decide_ext. by destruct (p1 ++ p2).
  - split_and!; [done| |done]. eapply dlist_stays; [exact Hr|exact Hs|].
    by eapply lists_disjoint.
Qed.

Lemma links_Remove_process M p r1 e r2 :
  links_rep M p (r1 ++ e :: r2) ->
  exists b M', RemoveEntryList M (LExt e) = Some (b, M') /\
    links_rep M' p (r1 ++ r2) /\ (e ∉ p ++ r1 ++ r2) /\ same_dom M M'.
Proof.
  intros (Hp & Hr & Hnd). rewrite fmap_LExt_app in Hr. simpl in Hr.
  pose proof Hnd as Hnd'. rewrite app_assoc in Hnd'.
  apply NoDup_app_split in Hnd' as [Hnd' He]. rewrite <- app_assoc in Hnd', He.
  destruct (dlist_RemoveEntryList M LProcessList _ _ _ Hr) as (M' & HR & Hd & Hs).
  rewrite <- fmap_LExt_app in *. eexists _, M'. split_and!; [done| |done|exact (proj2 Hs)].
  split_and!; [|done|done]. eapply dlist_stays; [exact Hp|exact Hs|].
  eapply lists_disjoint; try done. by rewrite Permutation_app_comm.
Qed.

(** Stores to the entry of an extension that is in no list. *)
Lemma links_outside M M' p r e :
  links_rep M p r -> e ∉ p ++ r -> (forall y, y <> LExt e -> M' !! y = M !! y) ->
  links_rep M' p r.
Proof.
  intros (Hp & Hr & Hnd) [Hep Her]%not_elem_of_app HM.
  assert (forall h l, dlist M h (LExt <$> l) -> (forall e, h <> LExt e) -> e ∉ l ->
                      dlist M' h (LExt <$> l)) as Hd.
  { intros h l [Hl Hs] Hh He. split; [done|]. revert Hs.
    apply dseg_frame; intros y Hy; unfold get_Flink, get_Blink; rewrite HM; try done;
      intros ->; revert Hy; rewrite ?elem_of_app, ?elem_of_cons, LExt_in.
    - intros [?|?]; [by apply (Hh e)|done].
    - intros [?|[?|?%not_elem_of_nil]]; [done|by apply (Hh e)|done]. }
  split_and!; [by apply Hd|by apply Hd|done].
Qed.

Lemma links_first M p r :
  links_rep M p r ->
  get_Flink M LPendingList = Some match p with [] => LPendingList | e :: _ => LExt e end.
Proof. intros (Hp & _). rewrite (dlist_first _ _ _ Hp). by destruct p. Qed.
End Links.

(** ** Chains *)

Lemma chain_frame H H' l a :
  (forall x, x ∈ l -> H' !! x = H !! x) -> chain H l a -> chain H' l a.
Proof.
  revert a. induction l as [|e l IH]; intros a HH; simpl; [done|].
  intros (-> & He & n & Hn & Hc). split_and!; [done|done|]. exists n.
  rewrite HH by apply list_elem_of_here. split; [done|].
  apply IH; [|done]. intros x Hx. apply HH. by apply list_elem_of_further.
Qed.

Lemma chain_head H l a : chain H l a -> a = default 0 (head l).
Proof. destruct l; simpl; naive_solver. Qed.

Lemma chain_nonzero H l a x : chain H l a -> x ∈ l -> x <> 0 /\ is_Some (H !! x).
Proof.
  revert a. induction l as [|e l IH]; intros a; simpl; [by intros _ ?%not_elem_of_nil|].
  intros (-> & He & n & Hn & Hc) [->|Hx]%elem_of_cons; eauto.
Qed.

(** Unlinking the entry after [x]. *)
Lemma chain_unlink H l1 x e l2 a n :
  chain H (l1 ++ x :: e :: l2) a -> NoDup (l1 ++ x :: e :: l2) -> H !! e = Some n ->
  chain (<[x := n]> H) (l1 ++ x :: l2) a.
Proof.
  intros Hc Hnd Hn. revert a Hc. induction l1 as [|z l1 IH]; intros a; simpl in *.
  - intros (-> & Hx & ? & _ & -> & He & m & Hm & Hc). simplify_eq.
    split_and!; [done|done|]. exists n. split; [by rewrite lookup_insert_eq|].
    revert Hc. apply chain_frame. intros y Hy. apply lookup_insert_ne. intros ->.
    apply NoDup_cons in Hnd as [Hnd _]. apply Hnd. by apply list_elem_of_further.
  - intros (-> & Hz & m & Hm & Hc). apply NoDup_cons in Hnd as [Hnz Hnd].
    split_and!; [done|done|]. exists m. split; [|by apply IH].
    rewrite lookup_insert_ne; [done|]. intros ->. apply Hnz. set_solver.
Qed.

Section Find.
Context (q : SPD_IOQ).

(** A bucket that does not hold the extension is walked to its end. *)
Lemma bucket_find_absent e l fuel P a :
  hload q P = Some a -> chain (HashNext q) l a -> e ∉ l -> (length l <= fuel)%nat ->
  bucket_find fuel q P e = Some None.
Proof.
  revert fuel P a. induction l as [|x l IH]; intros fuel P a Ha Hc He Hf; simpl in *.
  - subst. destruct fuel; simpl; by rewrite Ha.
  - destruct Hc as (-> & Hx & n & Hn & Hc). apply not_elem_of_cons in He as [Hex He].
    destruct fuel as [|fuel]; [lia|]. simpl. rewrite Ha. simpl.
    rewrite (proj2 (Z.eqb_neq _ _) Hx), (proj2 (Z.eqb_neq _ _)) by done.
    eapply IH; [exact Hn|done|done|lia].
Qed.

(** The first entry of a bucket is found at the head; any other, at the entry before it. *)
Lemma bucket_find_first e l fuel P :
  hload q P = Some e -> chain (HashNext q) (e :: l) e -> bucket_find fuel q P e = Some (Some P).
Proof.
  intros Ha (_ & He & _). destruct fuel; simpl; rewrite Ha; simpl;
    by rewrite (proj2 (Z.eqb_neq _ _) He), Z.eqb_refl.
Qed.

Lemma bucket_find_later e l1 x l2 fuel P a :
  hload q P = Some a -> chain (HashNext q) (l1 ++ x :: e :: l2) a -> e ∉ l1 ++ [x] ->
  (length l1 < fuel)%nat -> bucket_find fuel q P e = Some (Some (HNext x)).
Proof.
  revert fuel P a. induction l1 as [|z l1 IH]; intros fuel P a Ha Hc He Hf; simpl in *.
  - destruct Hc as (-> & Hx & n & Hn & Hc). destruct fuel as [|fuel]; [lia|]. simpl.
    rewrite Ha. simpl. apply not_elem_of_cons in He as [He _].
    rewrite (proj2 (Z.eqb_neq _ _) Hx), (proj2 (Z.eqb_neq _ _)) by done.
    pose proof Hc as (-> & _). by eapply bucket_find_first.
  - destruct Hc as (-> & Hz & n & Hn & Hc). apply not_elem_of_cons in He as [Hez He].
    destruct fuel as [|fuel]; [lia|]. simpl. rewrite Ha. simpl.
    rewrite (proj2 (Z.eqb_neq _ _) Hz), (proj2 (Z.eqb_neq _ _)) by done.
    eapply IH; [exact Hn|done|done|lia].
Qed.
End Find.

(** ** Buckets *)

Lemma length_le_size (H : gmap Z Z) l :
  NoDup l -> (forall x, x ∈ l -> is_Some (H !! x)) -> (length l <= size H)%nat.
Proof.
  intros Hnd Hin. rewrite <- size_dom, <- (size_list_to_set (C := gset Z) l) by done.
  apply subseteq_size. intros x Hx%elem_of_list_to_set. by apply elem_of_dom, Hin.
Qed.

Lemma lookup_replace {A} (l1 : list A) x y l2 i :
  i <> length l1 -> (l1 ++ x :: l2) !! i = (l1 ++ y :: l2) !! i.
Proof.
  intros Hi. destruct (decide (i < length l1)%nat).
  - by rewrite !lookup_app_l.
  - rewrite !lookup_app_r by lia. destruct (i - length l1)%nat eqn:E; [lia|done].
Qed.

Lemma concat_middle {A} (bs1 : list (list A)) b bs2 :
  concat (bs1 ++ b :: bs2) ≡ₚ b ++ concat bs1 ++ concat bs2.
Proof.
  rewrite concat_app. simpl. rewrite !app_assoc. by rewrite (Permutation_app_comm (concat bs1)).
Qed.

Lemma chains_frame H H' bs bk :
  (forall x, x ∈ concat bs -> H' !! x = H !! x) -> Forall2 (chain H) bs bk ->
  Forall2 (chain H') bs bk.
Proof.
  intros HH HF. induction HF as [|b a bs bk Hc HF IH]; [constructor|]. constructor.
  - revert Hc. apply chain_frame. intros x Hx. apply HH. simpl. set_solver.
  - apply IH. intros x Hx. apply HH. simpl. set_solver.
Qed.

(** The parts of a table around the bucket of an extension. *)
Lemma buckets_split N H bk r e :
  buckets_rep N H bk r -> exists bs1 b bs2 bk1 a bk2,
    bk = bk1 ++ a :: bk2 /\ length bk1 = index_of N e /\ length bs1 = index_of N e /\
    Forall2 (chain H) bs1 bk1 /\ chain H b a /\ Forall2 (chain H) bs2 bk2 /\
    b ++ concat bs1 ++ concat bs2 ≡ₚ r /\
    (forall i c x, (bs1 ++ b :: bs2) !! i = Some c -> x ∈ c -> index_of N x = i).
Proof.
  intros (HN & Hlen & bs & HF & Hperm & Hidx).
  pose proof (Forall2_length _ _ _ HF) as Hlen2.
  destruct (lookup_lt_is_Some_2 bs (index_of N e)) as [b Hb].
  { unfold index_of. pose proof (Z.mod_pos_bound (SpdHashMixPointer e) N HN). lia. }
  apply list_elem_of_split_length in Hb as (bs1 & bs2 & -> & Hl).
  apply Forall2_app_inv_l in HF as (bk1 & bk' & HF1 & HF2 & ->).
  apply Forall2_cons_inv_l in HF2 as (a & bk2 & Hc & HF2 & ->).
  exists bs1, b, bs2, bk1, a, bk2. pose proof (Forall2_length _ _ _ HF1).
  split_and!; try done; [lia|]. by rewrite <- Hperm, concat_middle.
Qed.

(** A table with one bucket replaced. *)
Lemma buckets_join N H bk1 a bk2 bs1 b bs2 b' r e :
  0 < N -> Z.of_nat (length (bk1 ++ a :: bk2)) = N -> length bs1 = index_of N e ->
  Forall2 (chain H) bs1 bk1 -> chain H b' a -> Forall2 (chain H) bs2 bk2 ->
  b' ++ concat bs1 ++ concat bs2 ≡ₚ r ->
  (forall i c x, (bs1 ++ b :: bs2) !! i = Some c -> x ∈ c -> index_of N x = i) ->
  (forall x, x ∈ b' -> x ∈ b \/ x = e) ->
  buckets_rep N H (bk1 ++ a :: bk2) r.
Proof.
  intros HN Hlen Hl HF1 Hc HF2 Hperm Hidx Hsub. split_and!; [done|done|].
  exists (bs1 ++ b' :: bs2). split_and!.
  - apply Forall2_app; [done|]. by constructor.
  - by rewrite concat_middle.
  - intros i c x Hi Hx. destruct (decide (i = length bs1)) as [->|Hne].
    + rewrite list_lookup_middle in Hi by done. injection Hi as <-.
      destruct (Hsub x Hx) as [Hx'| ->]; [|done].
      apply (Hidx (length bs1) b); [by apply list_lookup_middle|done].
    + apply (Hidx i c); [|done]. by rewrite (lookup_replace _ _ b').
Qed.

Lemma buckets_perm N H bk r r' : r ≡ₚ r' -> buckets_rep N H bk r -> buckets_rep N H bk r'.
Proof. intros Hp (? & ? & bs & ? & Hperm & ?). split_and!; try done. exists bs. by rewrite <- Hp. Qed.

Lemma buckets_frame N H H' bk r :
  (forall x, x ∈ r -> H' !! x = H !! x) -> buckets_rep N H bk r -> buckets_rep N H' bk r.
Proof.
  intros HH (? & ? & bs & HF & Hperm & ?). split_and!; try done. exists bs. split_and!; try done.
  revert HF. apply chains_frame. intros x Hx. apply HH. by rewrite <- Hperm.
Qed.

Lemma buckets_empty N H : 0 < N -> buckets_rep N H (replicate (Z.to_nat N) 0) [].
Proof.
  intros HN. split_and!; [done|rewrite length_replicate; lia|].
  exists (replicate (Z.to_nat N) []). split_and!.
  - apply Forall2_same_length_lookup_2; [by rewrite !length_replicate|].
    by intros i b a [-> _]%lookup_replicate [-> _]%lookup_replicate.
  - induction (Z.to_nat N); simpl; [done|]. done.
  - intros i b x [-> _]%lookup_replicate ?%not_elem_of_nil. done.
Qed.

Lemma buckets_nonzero N H bk r x : buckets_rep N H bk r -> x ∈ r -> x <> 0 /\ is_Some (H !! x).
Proof.
  intros (_ & _ & bs & HF & Hperm & _) Hx. rewrite <- Hperm in Hx.
  induction HF as [|b a bs bk' Hc HF IH]; simpl in Hx; [by apply not_elem_of_nil in Hx|].
  apply elem_of_app in Hx as [Hx|Hx]; [by eapply chain_nonzero|].
  revert Hx. clear -HF. revert x. induction HF as [|b a bs bk' Hc HF IH]; intros x Hx;
    simpl in Hx; [by apply not_elem_of_nil in Hx|].
  apply elem_of_app in Hx as [Hx|Hx]; [by eapply chain_nonzero|by apply IH].
Qed.

(** ** The table of a queue *)

Definition table_rep (q : SPD_IOQ) (r : list Z) : Prop :=
  buckets_rep (ProcessBucketCount q) (HashNext q) (ProcessBuckets q) r.

Lemma bucket_index_Some q r e :
  table_rep q r -> bucket_index q e = Some (index_of (ProcessBucketCount q) e).
Proof. intros (HN & _). unfold bucket_index. rewrite (proj2 (Z.eqb_neq _ _)) by lia. done. Qed.

Lemma table_find_absent q r e :
  table_rep q r -> NoDup r -> e ∉ r ->
  bucket_find (queue_fuel q) q (HBucket (index_of (ProcessBucketCount q) e)) e = Some None.
Proof.
  intros Ht Hnd He. destruct (buckets_split _ _ _ _ e Ht)
    as (bs1 & b & bs2 & bk1 & a & bk2 & Hbk & Hl & _ & _ & Hc & _ & Hperm & _).
  eapply (bucket_find_absent q e b); [|exact Hc| |].
  - simpl. rewrite Hbk, <- Hl. by apply list_lookup_middle.
  - intros Hb. apply He. rewrite <- Hperm. set_solver.
  - unfold queue_fuel. apply Nat.le_le_succ_r, length_le_size.
    + rewrite <- Hperm in Hnd. by apply NoDup_app in Hnd as [? _].
    + intros x Hx. by eapply chain_nonzero.
Qed.

(** Finding a request in process and unlinking it from its bucket. *)
Lemma table_unlink q r e r' :
  table_rep q r -> NoDup r -> r ≡ₚ e :: r' ->
  exists P next bk H q',
    bucket_find (queue_fuel q) q (HBucket (index_of (ProcessBucketCount q) e)) e
      = Some (Some P) /\
    HashNext q !! e = Some next /\ hstore q P next = Some q' /\
    q' = q <| ProcessBuckets := bk |> <| HashNext := H |> /\
    same_dom (HashNext q) H /\ buckets_rep (ProcessBucketCount q) H bk r'.
Proof.
  intros Ht Hnd Hr. pose proof Ht as (HN & Hlen & _).
  destruct (buckets_split _ _ _ _ e Ht)
    as (bs1 & b & bs2 & bk1 & a & bk2 & Hbk & Hl & Hl' & HF1 & Hc & HF2 & Hperm & Hidx).
  assert (e ∈ b) as Hb.
  { assert (e ∈ b ++ concat bs1 ++ concat bs2) as He
      by (rewrite Hperm, Hr; apply list_elem_of_here).
    apply elem_of_app in He as [He|He]; [done|]. exfalso.
    rewrite <- concat_app in He. apply list_elem_of_In, in_concat in He as (c & Hin & He).
    apply list_elem_of_In in Hin, He. apply list_elem_of_lookup in Hin as [i Hi].
    destruct (decide (i < length bs1)%nat).
    - rewrite lookup_app_l in Hi by done.
      enough (index_of (ProcessBucketCount q) e = i) by lia.
      apply (Hidx i c); [by rewrite lookup_app_l|done].
    - rewrite lookup_app_r in Hi by lia.
      enough (index_of (ProcessBucketCount q) e = S i) by lia.
      apply (Hidx (S i) c); [|done]. rewrite lookup_app_r by lia.
      by replace (S i - length bs1)%nat with (S (i - length bs1)) by lia. }
  rewrite <- Hperm in Hnd. pose proof Hnd as (Hndb & Hdisj & _)%NoDup_app.
  apply list_elem_of_split in Hb as (l1 & l2 & ->).
  assert (ProcessBuckets q !! index_of (ProcessBucketCount q) e = Some a) as Ha.
  { rewrite Hbk, <- Hl. by apply list_lookup_middle. }
  assert (l1 ++ l2 ++ concat bs1 ++ concat bs2 ≡ₚ r') as Hperm'.
  { apply (Permutation_cons_inv (a := e)). rewrite <- Hr, <- Hperm, <- app_assoc. simpl.
    by rewrite Permutation_middle. }
  destruct l1 as [|x l1 _] using rev_ind.
  - cbn [app] in *. pose proof Hc as (-> & He & n & Hn & Hc2).
    exists (HBucket (index_of (ProcessBucketCount q) e)), n,
      (<[index_of (ProcessBucketCount q) e := n]> (ProcessBuckets q)), (HashNext q).
    eexists. split_and!; [by eapply bucket_find_first|done| |done|done|].
    + unfold hstore. simpl. by rewrite Ha.
    + rewrite Hbk, <- Hl, insert_app_r_alt, Nat.sub_diag by lia. simpl.
      eapply buckets_join; [done| |exact Hl'|exact HF1|exact Hc2|exact HF2|exact Hperm'|
        exact Hidx|].
      * rewrite <- Hlen, Hbk, !length_app. done.
      * intros x Hx. left. by apply list_elem_of_further.
  - assert (e ∉ l1 ++ [x]) as Hel.
    { apply NoDup_app_split in Hndb as [_ He]. by apply not_elem_of_app in He as [? _]. }
    rewrite <- app_assoc in *. cbn [app] in *.
    assert (exists n, HashNext q !! e = Some n) as [n Hn].
    { eapply (proj2 (chain_nonzero _ _ _ e Hc ltac:(set_solver))). }
    assert (x ∈ l1 ++ x :: e :: l2) as Hx by set_solver.
    destruct (proj2 (chain_nonzero _ _ _ x Hc Hx)) as [nx Hnx].
    exists (HNext x), n, (ProcessBuckets q), (<[x := n]> (HashNext q)). eexists.
    split_and!; [|done| |done| |].
    + eapply bucket_find_later; [exact Ha|exact Hc| |].
      * done.
      * pose proof (length_le_size (HashNext q) _ Hndb
          (fun y Hy => proj2 (chain_nonzero _ _ _ y Hc Hy))) as Hle.
        rewrite length_app in Hle. unfold queue_fuel. lia.
    + unfold hstore. simpl. by rewrite Hnx.
    + intros y. destruct (decide (y = x)) as [->|]; [rewrite lookup_insert_eq, Hnx; naive_solver|].
      by rewrite lookup_insert_ne.
    + rewrite Hbk.
      eapply (buckets_join _ _ _ _ _ bs1 (l1 ++ x :: e :: l2) bs2 (l1 ++ x :: l2) _ e);
        [done|by rewrite <- Hbk|exact Hl'| | | | |exact Hidx|set_solver].
      * revert HF1. apply chains_frame. intros y Hy. apply lookup_insert_ne. intros ->.
        apply (Hdisj y Hx). set_solver.
      * by eapply chain_unlink.
      * revert HF2. apply chains_frame. intros y Hy. apply lookup_insert_ne. intros ->.
        apply (Hdisj y Hx). set_solver.
      * rewrite <- Hperm', <- !app_assoc. done.
Qed.

(** Linking an extension in front of the bucket of its hash. *)
Lemma buckets_insert N H bk r e :
  buckets_rep N H bk r -> e ∉ r -> e <> 0 ->
  exists a, bk !! index_of N e = Some a /\
    buckets_rep N (<[e := a]> H) (<[index_of N e := e]> bk) (e :: r).
Proof.
  intros Ht Her He. pose proof Ht as (HN & Hlen & _).
  destruct (buckets_split _ _ _ _ e Ht)
    as (bs1 & b & bs2 & bk1 & a & bk2 & Hbk & Hl & Hl' & HF1 & Hc & HF2 & Hperm & Hidx).
  exists a. split; [rewrite Hbk, <- Hl; by apply list_lookup_middle|].
  assert (forall y, y ∈ b ++ concat bs1 ++ concat bs2 -> <[e := a]> H !! y = H !! y) as HH.
  { intros y Hy. rewrite Hperm in Hy. apply lookup_insert_ne. by intros ->. }
  rewrite Hbk, <- Hl at 1. rewrite insert_app_r_alt, Nat.sub_diag by lia. simpl.
  eapply (buckets_join _ _ _ _ _ bs1 b bs2 (e :: b) _ e); [done| |exact Hl'| | | | |exact Hidx|].
  - rewrite <- Hlen, Hbk, !length_app. done.
  - revert HF1. apply chains_frame. intros y Hy. apply HH. set_solver.
  - simpl. split_and!; [done|done|]. exists a. split; [apply lookup_insert_eq|].
    revert Hc. apply chain_frame. intros y Hy. apply HH. set_solver.
  - revert HF2. apply chains_frame. intros y Hy. apply HH. set_solver.
  - simpl. by rewrite Hperm.
  - intros x [->|]%elem_of_cons; auto.
Qed.
