(* ===== verification/IoqSpec.v ===== *)
(** * What an I/O queue promises

    The abstract queue is two lists of requests, those waiting in arrival order and those being
    processed, with a flag for "stopped" and one for the wake-up event.  Each operation of
    [Ioq] implements the operation below on the abstract queue: same result, same completed
    requests, and the memory of the queue represents the abstract queue again. *)

From S2P Require Import Prelude Wdk HashMix ListEntry Srb Ioq IoqMem.

#[local] Set Warnings "-clear-no-such-hyp".

(** ** The abstract queue *)

Record request := mkRequest {
  rq_ext : Z;                        (* the address of its extension: its identity, its Hint *)
  rq_value : SPD_SRB_EXTENSION;
  rq_srb : SRB
}.

Definition rq_Srb (rq : request) : Z := ext_Srb (rq_value rq).

Record queue := mkQueue {
  q_stopped : bool;
  q_event : bool;
  q_pending : list request;
  q_process : list request
}.

(** The first request with a property, and the others. *)
Fixpoint take_first (P : request -> bool) (l : list request) : option (request * list request) :=
  match l with
  | [] => None
  | rq :: l => if P rq then Some (rq, l)
               else '(rq', l) ← take_first P l; Some (rq', rq :: l)
  end.

Definition aborted (rq : request) : completion :=
  (rq_Srb rq, SrbSetSrbStatus (rq_srb rq) SRB_STATUS_ABORTED).

Definition q_post (Q : queue) (rq : request) : Z * queue :=
  if q_stopped Q then (STATUS_CANCELLED, Q)
  else (STATUS_SUCCESS, mkQueue false true (q_pending Q ++ [rq]) (q_process Q)).

Definition q_cancel (Q : queue) (Srb : Z) : Z * queue * list completion :=
  if q_stopped Q then (STATUS_UNSUCCESSFUL, Q, [])
  else match take_first (fun rq => rq_Srb rq =? Srb) (q_pending Q) with
       | Some (rq, p) =>
           (STATUS_SUCCESS, mkQueue false (q_event Q) p (q_process Q), [aborted rq])
       | None =>
           match take_first (fun rq => rq_Srb rq =? Srb) (q_process Q) with
           | Some (rq, r) =>
               (STATUS_SUCCESS, mkQueue false (q_event Q) (q_pending Q) r, [aborted rq])
           | None => (STATUS_SUCCESS, Q, [])
           end
       end.

Definition q_reset (Q : queue) (Stop : bool) : queue * list completion :=
  if q_stopped Q then (Q, [])
  else (mkQueue Stop (Stop || q_event Q) [] [], aborted <$> q_pending Q ++ q_process Q).

Section Spec.
Context {Ctx : Type}.

Definition q_start (Prepare : Z -> SPD_SRB_EXTENSION -> SRB -> Ctx -> option Ctx)
    (Q : queue) (ctx : Ctx) : option (Z * queue * Ctx) :=
  if q_stopped Q
  then Some (STATUS_CANCELLED, mkQueue true true (q_pending Q) (q_process Q), ctx)
  else match q_pending Q with
       | [] => Some (STATUS_UNSUCCESSFUL, Q, ctx)
       | rq :: p =>
           ctx ← Prepare (rq_ext rq) (rq_value rq) (rq_srb rq) ctx;
           Some (STATUS_SUCCESS,
                 mkQueue false (negb (bool_decide (p = [])) || q_event Q) p
                   (q_process Q ++ [rq]), ctx)
       end.

Definition q_end (DBG : bool)
    (Complete : SPD_SRB_EXTENSION -> SRB -> Ctx -> option (Z * SPD_SRB_EXTENSION * SRB))
    (Q : queue) (Hint : Z) (ctx : Ctx) : option (queue * list completion) :=
  if q_stopped Q then Some (Q, [])
  else match take_first (fun rq => rq_ext rq =? Hint) (q_process Q) with
       | None => Some (Q, [])
       | Some (rq, r) =>
           '(SrbStatus, ext, s) ← Complete (rq_value rq) (rq_srb rq) ctx;
           if SRB_STATUS_PENDING =? SrbStatus then
             Some (mkQueue false true (mkRequest (rq_ext rq) ext s :: q_pending Q) r, [])
           else
             s' ← SpdSrbComplete DBG s SrbStatus;
             Some (mkQueue false (q_event Q) (q_pending Q) r, [(rq_Srb rq, s')])
       end.
End Spec.

(** ** The memory represents the abstract queue *)

Record owns (q : SPD_IOQ) (rq : request) : Prop := {
  own_nonnull : rq_ext rq <> 0;
  own_hash : is_Some (HashNext q !! rq_ext rq);
  own_ext : Exts q !! rq_ext rq = Some (rq_value rq);
  own_srb : Srbs q !! rq_Srb rq = Some (rq_srb rq);
  own_back : SpdSrbExtension (rq_srb rq) = rq_ext rq
}.

Record ioq_abs (q : SPD_IOQ) (Q : queue) : Prop := {
  abs_stopped : Stopped q = q_stopped Q;
  abs_event : PendingEvent q = b2z (q_event Q);
  abs_links : links_rep (Links q) (rq_ext <$> q_pending Q) (rq_ext <$> q_process Q);
  abs_table : table_rep q (rq_ext <$> q_process Q);
  abs_owns : forall rq, rq ∈ q_pending Q ++ q_process Q -> owns q rq
}.

(** A request that the queue does not own yet, as [SpdScsiPostSrb] hands it over. *)
Record fresh (Q : queue) (rq : request) : Prop := {
  fresh_nonnull : rq_ext rq <> 0;
  fresh_back : SpdSrbExtension (rq_srb rq) = rq_ext rq;
  fresh_ext : forall x, x ∈ q_pending Q ++ q_process Q -> rq_ext x <> rq_ext rq;
  fresh_srb : forall x, x ∈ q_pending Q ++ q_process Q -> rq_Srb x <> rq_Srb rq
}.

#[local] Abbreviation ids l := (fmap (M := list) rq_ext l).

(** ** Lists of requests *)

Lemma take_first_Some P l rq l' :
  take_first P l = Some (rq, l') ->
  exists l1 l2, l = l1 ++ rq :: l2 /\ l' = l1 ++ l2 /\ P rq = true.
Proof.
  revert l'. induction l as [|x l IH]; intros l'; simpl; [done|].
  destruct (P x) eqn:HP; [intros [= -> ->]; by exists [], l'|].
  intros ([rq' l''] & Ht & [= -> <-])%bind_Some.
  destruct (IH _ Ht) as (l1 & l2 & -> & -> & ?). by exists (x :: l1), l2.
Qed.

Lemma take_first_None P l : take_first P l = None -> forall x, x ∈ l -> P x = false.
Proof.
  induction l as [|y l IH]; simpl; [by intros _ x ?%not_elem_of_nil|].
  destruct (P y) eqn:HP; [done|]. intros Ht x [->|Hx]%elem_of_cons; [done|].
  apply IH; [|done]. by destruct (take_first P l) as [[]|].
Qed.

Lemma ids_in (rq : request) (l : list request) : rq ∈ l -> rq_ext rq ∈ rq_ext <$> l.
Proof. apply list_elem_of_fmap_2. Qed.

Section Abs.
Context (q : SPD_IOQ) (Q : queue).
Hypothesis Habs : ioq_abs q Q.

Lemma abs_NoDup : NoDup (rq_ext <$> q_pending Q ++ q_process Q).
Proof. rewrite fmap_app. apply (abs_links _ _ Habs). Qed.

(** Requests are determined by their address, and by the address of their SRB. *)
Lemma abs_ext_inj x y :
  x ∈ q_pending Q ++ q_process Q -> y ∈ q_pending Q ++ q_process Q ->
  rq_ext x = rq_ext y -> x = y.
Proof.
  intros Hx Hy E. destruct (abs_owns _ _ Habs x Hx) as [_ _ Ex Sx _].
  destruct (abs_owns _ _ Habs y Hy) as [_ _ Ey Sy _].
  destruct x as [ix vx sx], y as [iy vy sy]; unfold rq_Srb in *; simpl in *; subst.
  rewrite Ex in Ey. injection Ey as ->. rewrite Sx in Sy. by injection Sy as ->.
Qed.

Lemma abs_srb_inj x y :
  x ∈ q_pending Q ++ q_process Q -> y ∈ q_pending Q ++ q_process Q ->
  rq_Srb x = rq_Srb y -> x = y.
Proof.
  intros Hx Hy E. apply abs_ext_inj; [done|done|].
  destruct (abs_owns _ _ Habs x Hx) as [_ _ _ Sx Bx].
  destruct (abs_owns _ _ Habs y Hy) as [_ _ _ Sy By].
  rewrite E, Sy in Sx. injection Sx as Sx. by rewrite <- Bx, <- By, Sx.
Qed.

Lemma abs_link_entry x : x ∈ q_pending Q ++ q_process Q -> is_Some (Links q !! LExt (rq_ext x)).
Proof.
  intros Hx. destruct (abs_links _ _ Habs) as (Hp & Hr & _).
  apply elem_of_app in Hx as [Hx|Hx]; [eapply (dlist_is_Some _ _ _ _ Hp)|
    eapply (dlist_is_Some _ _ _ _ Hr)]; apply list_elem_of_further, LExt_in, ids_in; done.
Qed.
End Abs.

(** ** Events *)

Lemma event_set q b :
  PendingEvent q = b2z b -> SpdQeventSetNoLock q = q <| PendingEvent := 1 |>.
Proof.
  intros E. unfold SpdQeventSetNoLock. rewrite E. destruct b; simpl; [|done].
  destruct q; simpl in *. by rewrite E.
Qed.

Lemma owns_same q q' x :
  owns q x -> is_Some (HashNext q' !! rq_ext x) -> Exts q' !! rq_ext x = Exts q !! rq_ext x ->
  Srbs q' !! rq_Srb x = Srbs q !! rq_Srb x -> owns q' x.
Proof. intros [? ? HE HS ?] HH HE' HS'. split; try done; congruence. Qed.

Lemma owns_fields q q' x :
  owns q x -> HashNext q' = HashNext q -> Exts q' = Exts q -> Srbs q' = Srbs q -> owns q' x.
Proof. intros Ho HH HE HS. apply (owns_same q); rewrite ?HH, ?HE, ?HS; try done. apply Ho. Qed.

Lemma insert_is_Some_other {A} (m : gmap Z A) k v k' :
  is_Some (m !! k') -> is_Some (<[k := v]> m !! k').
Proof. intros. destruct (decide (k = k')) as [->|]; [by rewrite lookup_insert_eq|by rewrite lookup_insert_ne]. Qed.

Lemma ids_notin_fresh Q rq :
  fresh Q rq -> rq_ext rq ∉ (rq_ext <$> q_pending Q) ++ (rq_ext <$> q_process Q).
Proof.
  intros Hf. rewrite <- fmap_app. intros (x & E & Hx)%list_elem_of_fmap.
  by apply (fresh_ext _ _ Hf x Hx).
Qed.

(** ** [SpdIoqPostSrb] *)

Lemma post_abs DBG q Q Srb s ext entry :
  let rq := mkRequest (SpdSrbExtension s) (ext <| ext_Srb := Srb |>) s in
  ioq_abs q Q -> fresh Q rq -> ext_Srb ext = 0 -> entry = mkEntry LNull LNull ->
  exists q', SpdIoqPostSrb DBG q Srb s ext 0 entry = Some ((q_post Q rq).1, q') /\
    ioq_abs q' (q_post Q rq).2.
Proof.
  intros rq Habs Hf HS ->. pose proof Habs as [Hst Hev Hli Hta Ho].
  unfold SpdIoqPostSrb, q_post. rewrite Hst. destruct (q_stopped Q) eqn:Hs; simpl; [by eexists|].
  rewrite !ASSERT_true by (rewrite ?HS; done). simpl.
  pose proof (ids_notin_fresh Q rq Hf) as Hn. simpl in Hn.
  destruct (links_InsertTail_pending (<[LExt (SpdSrbExtension s) := mkEntry LNull LNull]> (Links q))
    _ _ (SpdSrbExtension s)
    (links_outside _ _ _ _ _ Hli Hn (fun y Hy => lookup_insert_ne _ _ _ _ (not_eq_sym Hy))) Hn)
    as (M' & HI & Hl & _); [by rewrite lookup_insert_eq|].
  rewrite HI. simpl. rewrite (event_set _ (q_event Q)) by done.
  eexists. split; [done|]. split; simpl.
  - done.
  - done.
  - by rewrite fmap_app.
  - apply (buckets_frame _ (HashNext q)); [|done]. intros x Hx. apply lookup_insert_ne.
    intros <-. apply Hn. set_solver.
  - rewrite <- app_assoc. intros x Hx.
    assert (x = rq \/ x ∈ q_pending Q ++ q_process Q) as [->|Hx'] by set_solver.
    + split; simpl; try done; [apply Hf|rewrite lookup_insert_eq; done
        |by rewrite lookup_insert_eq|by rewrite lookup_insert_eq].
    + apply (owns_same q); simpl; [by apply Ho| | |].
      * apply insert_is_Some_other, (own_hash _ _ (Ho x Hx')).
      * apply lookup_insert_ne. intros E. by apply (fresh_ext _ _ Hf x Hx').
      * apply lookup_insert_ne. intros E. by apply (fresh_srb _ _ Hf x Hx').
Qed.

(** ** [SpdIoqStartProcessingSrb] *)

Lemma start_link_abs q e p r :
  links_rep (Links q) p r -> table_rep q r -> NoDup r -> e ∉ p ++ r ->
  e <> 0 -> is_Some (Links q !! LExt e) -> is_Some (HashNext q !! e) ->
  exists M H bk, start_link false q e =
      Some (q <| Links := M |> <| HashNext := H |> <| ProcessBuckets := bk |>) /\
    links_rep M p (r ++ [e]) /\
    buckets_rep (ProcessBucketCount q) H bk (r ++ [e]) /\
    same_dom (HashNext q) H.
Proof.
  intros Hli Hta Hnd He Hne HL HH. unfold start_link.
  destruct (links_InsertTail_process _ _ _ _ Hli He HL) as (M & -> & HM & _). simpl.
  rewrite (bucket_index_Some _ r e) by done. simpl. apply not_elem_of_app in He as [_ He].
  destruct (buckets_insert _ _ _ _ _ Hta He Hne) as (a & Ha & Hb). rewrite Ha. simpl.
  destruct HH as [next Hnext]. rewrite Hnext. simpl.
  unfold hstore. simpl. rewrite Hnext. simpl. rewrite Ha. simpl.
  do 3 eexists. split_and!; [done|done| |].
  - eapply buckets_perm; [|exact Hb]. by rewrite Permutation_app_comm.
  - intros x. destruct (decide (x = e)) as [->|].
    + rewrite lookup_insert_eq, Hnext. naive_solver.
    + by rewrite lookup_insert_ne.
Qed.

(** The first wake-up: [negb (bool_decide _)] as the wake flag. *)
Lemma event_wake q ev b :
  PendingEvent q = b2z ev ->
  PendingEvent (if b : bool then SpdQeventSetNoLock q else q) = b2z (b || ev).
Proof. intros E. destruct b; [by rewrite (event_set q ev)|done]. Qed.

Lemma event_set_fields q :
  Stopped (SpdQeventSetNoLock q) = Stopped q /\
  ProcessBucketCount (SpdQeventSetNoLock q) = ProcessBucketCount q /\
  ProcessBuckets (SpdQeventSetNoLock q) = ProcessBuckets q /\
  Links (SpdQeventSetNoLock q) = Links q /\ HashNext (SpdQeventSetNoLock q) = HashNext q /\
  Exts (SpdQeventSetNoLock q) = Exts q /\ Srbs (SpdQeventSetNoLock q) = Srbs q.
Proof. unfold SpdQeventSetNoLock. by case_match. Qed.

(** Setting the event changes the abstract event only. *)
Lemma abs_event_set q Q b :
  ioq_abs q Q ->
  ioq_abs (if b : bool then SpdQeventSetNoLock q else q)
    (mkQueue (q_stopped Q) (b || q_event Q) (q_pending Q) (q_process Q)).
Proof.
  intros [Hst Hev Hli Hta Ho]. destruct b; [|by split].
  destruct (event_set_fields q) as (E1 & E2 & E3 & E4 & E5 & E6 & E7).
  split; simpl.
  - by rewrite E1.
  - by rewrite (event_set q (q_event Q)).
  - by rewrite E4.
  - unfold table_rep. by rewrite E2, E3, E5.
  - intros x Hx. by apply (owns_fields q); [apply Ho|..].
Qed.

Section Start.
Context {Ctx : Type} (Prepare : Z -> SPD_SRB_EXTENSION -> SRB -> Ctx -> option Ctx).

Lemma start_abs q Q ctx :
  ioq_abs q Q ->
  match q_start Prepare Q ctx with
  | Some (st, Q', ctx') =>
      exists q', start_locked false Prepare q ctx = Some (st, q', ctx') /\ ioq_abs q' Q'
  | None => start_locked false Prepare q ctx = None
  end.
Proof.
  intros Habs. pose proof Habs as [Hst Hev Hli Hta Ho]. unfold q_start, start_locked.
  rewrite Hst. destruct (q_stopped Q) eqn:Hs; simpl.
  { eexists. split; [done|].
    pose proof (abs_event_set q Q true Habs) as Ha. by rewrite Hs in Ha. }
  rewrite (links_first _ _ _ Hli). simpl.
  destruct (q_pending Q) as [|rq p] eqn:Hp; simpl.
  { by eexists. }
 
  destruct (links_Remove_pending (Links q) [] (rq_ext rq) (ids (p))
    (ids (q_process Q)) Hli) as (M & HR & HM & Hn & HD). rewrite HR. simpl.
  destruct (Ho rq (list_elem_of_here _ _)) as [Hnn Hh He Hsr Hb].
  rewrite He. simpl. unfold rq_Srb in Hsr. rewrite Hsr. simpl.
  destruct (Prepare (rq_ext rq) (rq_value rq) (rq_srb rq) ctx) as [ctx1|] eqn:Hprep; simpl; [|done].
  destruct (start_link_abs (q <| Links := M |>) (rq_ext rq) (ids (p))
    (ids (q_process Q))) as (M' & H' & bk' & HL & HM' & Hbk & HD'); try done.
  { pose proof (abs_NoDup q Q Habs) as Hnd. rewrite Hp in Hnd. simpl in Hnd.
    apply NoDup_cons in Hnd as [_ Hnd]. rewrite fmap_app in Hnd. by apply NoDup_app in Hnd as (_ & _ & ?). }
  { simpl. apply HD. eapply (abs_link_entry q Q Habs). rewrite Hp. apply list_elem_of_here. }
  simpl in HL. simpl. rewrite HL. simpl. eexists. split; [done|].
  match goal with |- ioq_abs (if _ then SpdQeventSetNoLock ?q1 else _) _ =>
    pose proof (abs_event_set q1 (mkQueue false (q_event Q) p (q_process Q ++ [rq]))
      (negb (bool_decide ((ids (p)) = [])))) as Hfin end.
  simpl in Hfin.
  replace (bool_decide (p = [])) with (bool_decide ((ids (p)) = []))
    by (apply bool_decide_ext; by destruct p).
  apply Hfin. clear Hfin. split; simpl.
  - by rewrite Hst.
  - done.
  - by rewrite fmap_app.
  - by rewrite fmap_app.
  - intros x Hx. assert (x ∈ (rq :: p) ++ q_process Q) as Hx' by set_solver.
    pose proof (Ho x Hx') as Hox. apply (owns_same q); simpl; try done.
    apply HD', Hox.
Qed.
End Start.

(** ** Requests that have been taken off the lists *)

(** The queue [Q] is represented, and the memory of one more request is there. *)
Record detached (q : SPD_IOQ) (Q : queue) (e Srb : Z) (s : SRB) : Prop := {
  det_abs : ioq_abs q Q;
  det_ext : forall x, x ∈ q_pending Q ++ q_process Q -> rq_ext x <> e;
  det_srb : Srbs q !! Srb = Some s;
  det_back : SpdSrbExtension s = e
}.

Lemma detached_srb_ne q Q e Srb s x :
  detached q Q e Srb s -> x ∈ q_pending Q ++ q_process Q -> rq_Srb x <> Srb.
Proof.
  intros [Ha He Hs Hb] Hx E. destruct (abs_owns _ _ Ha x Hx) as [_ _ _ Sx Bx].
  rewrite E, Hs in Sx. injection Sx as Sx. apply (He x Hx). congruence.
Qed.

Lemma detached_notin q Q e Srb s :
  detached q Q e Srb s -> e ∉ ids (q_pending Q) ++ ids (q_process Q).
Proof.
  intros Hd. rewrite <- fmap_app. intros (x & -> & Hx)%list_elem_of_fmap.
  by apply (det_ext _ _ _ _ _ Hd x Hx).
Qed.

(** Stores to the memory of a detached request do not change the queue. *)
Lemma detached_stores q Q e Srb s entry next ext s' :
  detached q Q e Srb s -> SpdSrbExtension s' = e ->
  (forall y, y <> LExt e -> entry !! y = Links q !! y) ->
  (forall y, y <> e -> next !! y = HashNext q !! y) ->
  (forall y, y <> e -> ext !! y = Exts q !! y) ->
  detached (q <| Links := entry |> <| HashNext := next |> <| Exts := ext |>
              <| Srbs := <[Srb := s']> (Srbs q) |>) Q e Srb s'.
Proof.
  intros Hd Hb HL HN HE. pose proof (detached_notin _ _ _ _ _ Hd) as Hn.
  pose proof Hd as [[Hst Hev Hli Hta Ho] He Hs _]. split; simpl; try done.
  - split; simpl; try done.
    + by eapply links_outside.
    + unfold table_rep. simpl. revert Hta. apply buckets_frame. intros x Hx. apply HN.
      intros ->. apply Hn. set_solver.
    + intros x Hx. pose proof (Ho x Hx) as Hox. apply (owns_same q); simpl; try done.
      * rewrite HN by by apply He. apply Hox.
      * by apply HE, He.
      * apply lookup_insert_ne. intros E. by eapply detached_srb_ne.
  - apply lookup_insert_eq.
Qed.

Lemma detached_complete DBG q Q e Srb s st s' :
  detached q Q e Srb s -> SpdSrbComplete DBG s st = Some s' ->
  exists q', complete_srb DBG q Srb st = Some (q', (Srb, s')) /\ ioq_abs q' Q.
Proof.
  intros Hd Hc. pose proof (detached_notin _ _ _ _ _ Hd) as Hn.
  pose proof Hd as [[Hst Hev Hli Hta Ho] He Hs Hb]. unfold complete_srb. rewrite Hs. simpl.
  rewrite Hc. simpl. rewrite Hb. eexists. split; [done|]. split; simpl; try done.
  - eapply links_outside; [done|done|]. intros y Hy. by apply lookup_delete_ne.
  - unfold table_rep. simpl. revert Hta. apply buckets_frame. intros x Hx.
    apply lookup_delete_ne. intros <-. apply Hn. set_solver.
  - intros x Hx. pose proof (Ho x Hx) as Hox. apply (owns_same q); simpl; try done.
    + rewrite lookup_delete_ne by (intros E; by apply (He x Hx)). apply Hox.
    + rewrite lookup_delete_ne by (intros E; by apply (He x Hx)). done.
    + apply lookup_delete_ne. intros E. by eapply detached_srb_ne.
Qed.

Lemma in_middle {A} (l1 : list A) x l2 y : y ∈ l1 ++ l2 -> y ∈ l1 ++ x :: l2.
Proof. set_solver. Qed.

Lemma ids_middle l1 rq l2 : ids (l1 ++ rq :: l2) ≡ₚ rq_ext rq :: ids (l1 ++ l2).
Proof. rewrite !fmap_app. simpl. by rewrite Permutation_middle. Qed.

(** Taking a request in process off its bucket and off the list. *)
Lemma detach_process q Q r1 rq r2 :
  ioq_abs q Q -> q_process Q = r1 ++ rq :: r2 ->
  exists P next bk H b M,
    bucket_index q (rq_ext rq) = Some (index_of (ProcessBucketCount q) (rq_ext rq)) /\
    bucket_find (queue_fuel q) q (HBucket (index_of (ProcessBucketCount q) (rq_ext rq)))
      (rq_ext rq) = Some (Some P) /\
    HashNext q !! rq_ext rq = Some next /\
    hstore q P next = Some (q <| ProcessBuckets := bk |> <| HashNext := H |>) /\
    same_dom (HashNext q) H /\
    RemoveEntryList (Links q) (LExt (rq_ext rq)) = Some (b, M) /\
    is_Some (M !! LExt (rq_ext rq)) /\
    detached (q <| ProcessBuckets := bk |> <| HashNext := H |> <| Links := M |>)
      (mkQueue (q_stopped Q) (q_event Q) (q_pending Q) (r1 ++ r2))
      (rq_ext rq) (rq_Srb rq) (rq_srb rq).
Proof.
  intros Habs HQ. pose proof Habs as [Hst Hev Hli Hta Ho]. rewrite HQ in *.
  pose proof (abs_NoDup q Q Habs) as Hnd. rewrite HQ in Hnd.
  assert (NoDup (ids (r1 ++ rq :: r2))) as Hndr.
  { rewrite fmap_app in Hnd. by apply NoDup_app in Hnd as (_ & _ & ?). }
  destruct (table_unlink q _ (rq_ext rq) (ids (r1 ++ r2)) Hta Hndr (ids_middle r1 rq r2))
    as (P & next & bk & H & q' & HF & HN & HS & -> & HD & Hbk).
  rewrite (fmap_app rq_ext r1) in Hli. simpl in Hli.
  destruct (links_Remove_process _ _ _ _ _ Hli) as (b & M & HR & HM & Hn & HDM).
  assert (rq ∈ q_pending Q ++ r1 ++ rq :: r2) as Hin by set_solver.
  destruct (Ho rq Hin) as [Hnn Hh He Hs Hb].
  exists P, next, bk, H, b, M. split_and!; try done.
  - by eapply bucket_index_Some.
  - apply HDM, (abs_link_entry q Q Habs). by rewrite HQ.
  - split; simpl; try done.
    + split; simpl; try done.
      * by rewrite fmap_app.
      * intros x Hx. assert (x ∈ q_pending Q ++ r1 ++ rq :: r2) as Hx' by set_solver.
        pose proof (Ho x Hx') as Hox. apply (owns_same q); simpl; try done. apply HD, Hox.
    + intros x Hx E. apply Hn. rewrite <- E, <- !fmap_app. by apply list_elem_of_fmap_2.
Qed.

(** Taking a waiting request off the list; it is in no bucket. *)
Lemma detach_pending q Q p1 rq p2 :
  ioq_abs q Q -> q_pending Q = p1 ++ rq :: p2 ->
  exists b M,
    bucket_index q (rq_ext rq) = Some (index_of (ProcessBucketCount q) (rq_ext rq)) /\
    bucket_find (queue_fuel q) q (HBucket (index_of (ProcessBucketCount q) (rq_ext rq)))
      (rq_ext rq) = Some None /\
    RemoveEntryList (Links q) (LExt (rq_ext rq)) = Some (b, M) /\
    is_Some (M !! LExt (rq_ext rq)) /\
    detached (q <| Links := M |>)
      (mkQueue (q_stopped Q) (q_event Q) (p1 ++ p2) (q_process Q))
      (rq_ext rq) (rq_Srb rq) (rq_srb rq).
Proof.
  intros Habs HQ. pose proof Habs as [Hst Hev Hli Hta Ho]. rewrite HQ in *.
  pose proof (abs_NoDup q Q Habs) as Hnd. rewrite HQ in Hnd.
  rewrite (fmap_app rq_ext p1) in Hli. simpl in Hli.
  destruct (links_Remove_pending _ _ _ _ _ Hli) as (M & HR & HM & Hn & HDM).
  assert (rq ∈ (p1 ++ rq :: p2) ++ q_process Q) as Hin by set_solver.
  destruct (Ho rq Hin) as [Hnn Hh He Hs Hb].
  eexists _, M. split_and!.
  - by eapply bucket_index_Some.
  - eapply table_find_absent; [done| |by apply not_elem_of_app in Hn as [_ ?]].
    rewrite fmap_app in Hnd. by apply NoDup_app in Hnd as (_ & _ & ?).
  - exact HR.
  - apply HDM, (abs_link_entry q Q Habs). by rewrite HQ.
  - split; simpl; try done.
    + split; simpl; try done.
      * by rewrite fmap_app.
      * intros x Hx. assert (x ∈ (p1 ++ rq :: p2) ++ q_process Q) as Hx' by set_solver.
        pose proof (Ho x Hx') as Hox. by apply (owns_fields q).
    + intros x Hx E. apply Hn. rewrite <- E, <- !fmap_app. by apply list_elem_of_fmap_2.
Qed.

(** Putting a detached request back at the head of the waiting ones. *)
Lemma detached_requeue q Q rq :
  detached q Q (rq_ext rq) (rq_Srb rq) (rq_srb rq) -> q_stopped Q = false ->
  rq_ext rq <> 0 -> is_Some (HashNext q !! rq_ext rq) ->
  Exts q !! rq_ext rq = Some (rq_value rq) -> is_Some (Links q !! LExt (rq_ext rq)) ->
  exists M, InsertHeadList (Links q) LPendingList (LExt (rq_ext rq)) = Some M /\
    ioq_abs (SpdQeventSetNoLock (q <| Links := M |>))
      (mkQueue false true (rq :: q_pending Q) (q_process Q)).
Proof.
  intros Hd HQ Hnn Hh He HL. pose proof (detached_notin _ _ _ _ _ Hd) as Hn.
  pose proof Hd as [[Hst Hev Hli Hta Ho] Hne Hs Hb].
  destruct (links_InsertHead_pending _ _ _ _ Hli Hn HL) as (M & HI & HM & _).
  exists M. split; [done|].
  apply (abs_event_set _ (mkQueue false (q_event Q) (rq :: q_pending Q) (q_process Q)) true).
  split; simpl; try done.
  - by rewrite Hst.
  - intros x [->|Hx]%elem_of_cons; [done|]. by apply (owns_fields q); [apply Ho|..].
Qed.

(** ** [SpdIoqEndProcessingSrb] *)

Section End_.
Context {Ctx : Type}.
Context (Complete : SPD_SRB_EXTENSION -> SRB -> Ctx -> option (Z * SPD_SRB_EXTENSION * SRB)).

(** [Complete] does not move the request to another SRB or extension. *)
Hypothesis Complete_frame : forall ext s ctx st ext' s',
  Complete ext s ctx = Some (st, ext', s') ->
  ext_Srb ext' = ext_Srb ext /\ SpdSrbExtension s' = SpdSrbExtension s.

Lemma end_abs DBG q Q Hint ctx :
  ioq_abs q Q ->
  match q_end DBG Complete Q Hint ctx with
  | Some (Q', cs) =>
      exists q', SpdIoqEndProcessingSrb DBG Complete q Hint ctx = Some (q', cs) /\ ioq_abs q' Q'
  | None => SpdIoqEndProcessingSrb DBG Complete q Hint ctx = None
  end.
Proof.
  intros Habs. pose proof Habs as [Hst _ _ Hta Ho].
  unfold q_end, SpdIoqEndProcessingSrb. rewrite Hst.
  destruct (q_stopped Q) eqn:Hs; cbn [negb].
  { by eexists. }
  destruct (take_first _ (q_process Q)) as [[rq r]|] eqn:Ht.
  - apply take_first_Some in Ht as (r1 & r2 & HQ & -> & <-%Z.eqb_eq).
    destruct (detach_process q Q r1 rq r2 Habs HQ)
      as (P & next & bk & H & b & M & -> & HF & HN & HS & HD & HR & HL & Hd).
    opt. rewrite HF. opt. rewrite HN.
    opt. rewrite HS. simpl. rewrite HR. simpl.
    assert (owns q rq) as [Hnn Hh He Hsr Hb] by (apply Ho; rewrite HQ; set_solver).
    rewrite He. simpl. unfold rq_Srb in Hsr. rewrite Hsr. simpl.
    destruct (Complete (rq_value rq) (rq_srb rq) ctx) as [[[st ext'] s']|] eqn:HC; simpl; [|done].
    destruct (Complete_frame _ _ _ _ _ _ HC) as [Hf1 Hf2].
    assert (detached (q <| ProcessBuckets := bk |> <| HashNext := H |> <| Links := M |>
        <| Exts := <[rq_ext rq := ext']> (Exts q) |>
        <| Srbs := <[ext_Srb (rq_value rq) := s']> (Srbs q) |>)
      (mkQueue (q_stopped Q) (q_event Q) (q_pending Q) (r1 ++ r2))
      (rq_ext rq) (ext_Srb (rq_value rq)) s') as Hd'.
    { refine (detached_stores _ _ _ _ _ M H (<[rq_ext rq := ext']> (Exts q)) s' Hd _ _ _ _);
        try done; [congruence|]. intros y Hy. by apply lookup_insert_ne. }
    rewrite Hs in Hd'. simpl in Hd'. destruct (SRB_STATUS_PENDING =? st).
    + destruct (detached_requeue _ _ (mkRequest (rq_ext rq) ext' s')
        ltac:(unfold rq_Srb; simpl; rewrite Hf1; exact Hd')) as (M' & HI & Ha); simpl; try done.
      * apply HD, Hh.
      * by rewrite lookup_insert_eq.
      * simpl in HI. rewrite HI. simpl. by eexists.
    + rewrite Hf1. destruct (SpdSrbComplete DBG s' st) as [s''|] eqn:Hc; simpl.
      * destruct (detached_complete _ _ _ _ _ _ _ _ Hd' Hc) as (q' & Hcs & Ha).
        simpl in Hcs. rewrite Hcs. simpl. by eexists.
      * unfold complete_srb. simpl. rewrite lookup_insert_eq. simpl. by rewrite Hc.
  - rewrite (bucket_index_Some q _ Hint Hta). opt.
    rewrite (table_find_absent q (ids (q_process Q)) Hint Hta).
    + by eexists.
    + pose proof (abs_NoDup q Q Habs) as Hnd. rewrite fmap_app in Hnd.
      by apply NoDup_app in Hnd as (_ & _ & ?).
    + intros (x & -> & Hx)%list_elem_of_fmap.
      pose proof (take_first_None _ _ Ht x Hx) as E. simpl in E. by rewrite Z.eqb_refl in E.
Qed.
End End_.

(** ** [SpdIoqCancelSrb] *)

(** The end of a cancellation: the list entry and the extension are cleared, and the request
    is completed. *)
Lemma cancel_finish DBG q Q e Srb s ext M H :
  detached (q <| HashNext := H |> <| Links := M |>) Q e Srb s ->
  is_Some (M !! LExt e) ->
  exists M1 M2 q', set_Blink M (LExt e) LNull = Some M1 /\ set_Flink M1 (LExt e) LNull = Some M2 /\
    complete_srb DBG (q <| HashNext := H |> <| Links := M2 |> <| Exts := <[e := ext]> (Exts q) |>)
      Srb SRB_STATUS_ABORTED = Some (q', (Srb, SrbSetSrbStatus s SRB_STATUS_ABORTED)) /\
    ioq_abs q' Q.
Proof.
  intros Hd HL.
  destruct (set_Blink_spec M (LExt e) LNull HL) as (M1 & H1 & [S1 D1] & _).
  destruct (set_Flink_spec M1 (LExt e) LNull) as (M2 & H2 & [S2 D2] & _); [by apply D1|].
  assert (detached (q <| HashNext := H |> <| Links := M2 |> <| Exts := <[e := ext]> (Exts q) |>)
            Q e Srb s) as Hd'.
  { pose proof (det_srb _ _ _ _ _ Hd) as Hs. simpl in Hs. pose proof (det_back _ _ _ _ _ Hd) as Hb.
    pose proof (detached_stores _ _ _ _ _ M2 H (<[e := ext]> (Exts q)) s Hd Hb) as Hd'.
    simpl in Hd'. rewrite (insert_id (Srbs q)) in Hd' by done. apply Hd'; try done.
    - intros y Hy. by rewrite S2, S1 by (by rewrite list_elem_of_singleton).
    - intros y Hy. by apply lookup_insert_ne. }
  destruct (detached_complete DBG _ _ _ _ _ SRB_STATUS_ABORTED _ Hd'
    (SpdSrbComplete_aborted DBG s)) as (q' & Hc & Ha).
  by exists M1, M2, q'.
Qed.

(** The queue owns the request whose SRB is at this address. *)
Definition posted (Q : queue) (Srb : Z) : Prop :=
  exists x, x ∈ q_pending Q ++ q_process Q /\ rq_Srb x = Srb.

Lemma cancel_abs DBG q Q Srb :
  ioq_abs q Q -> posted Q Srb ->
  exists q', SpdIoqCancelSrb DBG q Srb = Some ((q_cancel Q Srb).1.1, q', (q_cancel Q Srb).2) /\
    ioq_abs q' (q_cancel Q Srb).1.2.
Proof.
  intros Habs (x & Hx & HSrb). pose proof Habs as [Hst _ _ Hta Ho].
  unfold q_cancel, SpdIoqCancelSrb. rewrite Hst.
  destruct (q_stopped Q) eqn:Hs; cbn [negb]; [by eexists|].
  destruct (take_first _ (q_pending Q)) as [[rq p]|] eqn:Htp;
    [|destruct (take_first _ (q_process Q)) as [[rq r]|] eqn:Htr].
  - apply take_first_Some in Htp as (p1 & p2 & HQ & -> & <-%Z.eqb_eq).
    destruct (detach_pending q Q p1 rq p2 Habs HQ) as (b & M & HI & HF & HR & HL & Hd).
    destruct (Ho rq) as [Hnn Hh He Hsr Hb]; [rewrite HQ; set_solver|].
    rewrite Hs in Hd. rewrite Hsr. opt. rewrite Hb, He. opt.
    rewrite ASSERT_true by apply Z.eqb_refl. opt. rewrite HI.
    opt. rewrite HF. opt. rewrite HR. simpl.
    destruct (cancel_finish DBG q _ _ _ _ ((rq_value rq) <| ext_Srb := 0 |>) M (HashNext q)
      Hd HL) as (M1 & M2 & q' & -> & HM2 & HC & Ha).
    simpl. rewrite HM2. simpl. simpl in HC. destruct q; simpl in *. rewrite HC. simpl.
    by eexists.
  - apply take_first_Some in Htr as (r1 & r2 & HQ & -> & <-%Z.eqb_eq).
    destruct (detach_process q Q r1 rq r2 Habs HQ)
      as (P & next & bk & H & b & M & HI & HF & HN & HS & HD & HR & HL & Hd).
    destruct (Ho rq) as [Hnn Hh He Hsr Hb]; [rewrite HQ; set_solver|].
    rewrite Hs in Hd. rewrite Hsr. opt. rewrite Hb, He. opt.
    rewrite ASSERT_true by apply Z.eqb_refl. opt. rewrite HI.
    opt. rewrite HF. opt. rewrite HN.
    opt. rewrite HS. opt. unfold hstore. simpl.
    destruct (proj2 (HD (rq_ext rq)) Hh) as [n' Hn']. rewrite Hn'. simpl. rewrite HR. simpl.
    assert (detached (q <| ProcessBuckets := bk |>
        <| HashNext := <[rq_ext rq := 0]> H |> <| Links := M |>)
      (mkQueue false (q_event Q) (q_pending Q) (r1 ++ r2))
      (rq_ext rq) (rq_Srb rq) (rq_srb rq)) as Hd'.
    { pose proof (detached_stores _ _ _ _ _ M (<[rq_ext rq := 0]> H) (Exts q) (rq_srb rq) Hd Hb)
        as Hd'. simpl in Hd'. rewrite (insert_id (Srbs q)) in Hd' by done. apply Hd'; try done.
      intros y Hy. by apply lookup_insert_ne. }
    destruct (cancel_finish DBG (q <| ProcessBuckets := bk |>) _ _ _ _
      ((rq_value rq) <| ext_Srb := 0 |>) M (<[rq_ext rq := 0]> H) Hd' HL)
      as (M1 & M2 & q' & -> & HM2 & HC & Ha).
    simpl. rewrite HM2. simpl. simpl in HC. rewrite HC. simpl. by eexists.
  - exfalso. apply elem_of_app in Hx as [Hx|Hx].
    + pose proof (take_first_None _ _ Htp x Hx) as E. simpl in E. by rewrite HSrb, Z.eqb_refl in E.
    + pose proof (take_first_None _ _ Htr x Hx) as E. simpl in E. by rewrite HSrb, Z.eqb_refl in E.
Qed.

(** ** [SpdIoqReset] *)

(** The chain of forward links that is left of a list after its head is initialised. *)
Fixpoint tail_links (M : gmap laddr (LIST_ENTRY laddr)) (Head : laddr) (l : list Z)
    (Entry : laddr) : Prop :=
  match l with
  | [] => Entry = Head
  | e :: l => Entry = LExt e /\ exists n, get_Flink M (LExt e) = Some n /\ tail_links M Head l n
  end.

Lemma tail_links_frame M M' Head l Entry :
  (forall e, e ∈ l -> M' !! LExt e = M !! LExt e) ->
  tail_links M Head l Entry -> tail_links M' Head l Entry.
Proof.
  revert Entry. induction l as [|e l IH]; intros Entry HM; simpl; [done|].
  intros (-> & n & Hn & Ht). split; [done|]. exists n. split.
  - unfold get_Flink in *. by rewrite HM by apply list_elem_of_here.
  - apply IH; [|done]. intros y Hy. apply HM. by apply list_elem_of_further.
Qed.

Lemma dseg_tail_links M Head l a n :
  dseg M a (LExt <$> l) Head -> get_Flink M a = Some n -> tail_links M Head l n.
Proof.
  revert a n. induction l as [|e l IH]; intros a n; simpl; [naive_solver|].
  intros (H1 & _ & Hs) Hn. rewrite Hn in H1. injection H1 as ->. split; [done|].
  destruct (get_Flink M (LExt e)) as [n'|] eqn:E.
  - exists n'. split; [done|]. by apply (IH (LExt e)).
  - apply dseg_first in Hs. rewrite E in Hs. by destruct l.
Qed.

(** Everything about the queue but the memory of the requests in [l] is unchanged. *)
Definition same_but (q q' : SPD_IOQ) (l : list request) : Prop :=
  Stopped q' = Stopped q /\ PendingEvent q' = PendingEvent q /\
  ProcessBucketCount q' = ProcessBucketCount q /\ ProcessBuckets q' = ProcessBuckets q /\
  (forall a, (forall x, x ∈ l -> a <> LExt (rq_ext x)) -> Links q' !! a = Links q !! a) /\
  (forall y, (forall x, x ∈ l -> rq_ext y <> rq_ext x) -> (forall x, x ∈ l -> rq_Srb y <> rq_Srb x) ->
    owns q y -> owns q' y).

Lemma abort_list_abs DBG Head (l : list request) fuel q Entry :
  (forall e, Head <> LExt e) -> (length l <= fuel)%nat ->
  tail_links (Links q) Head (ids l) Entry -> NoDup (ids l) ->
  (forall x y, x ∈ l -> y ∈ l -> rq_Srb x = rq_Srb y -> rq_ext x = rq_ext y) ->
  (forall x, x ∈ l -> owns q x) ->
  exists q', abort_list DBG fuel q Head Entry = Some (q', aborted <$> l) /\ same_but q q' l.
Proof.
  intros Hh. revert fuel q Entry. induction l as [|x l IH]; intros fuel q Entry Hf Ht Hnd Hinj Ho.
  - simpl in Ht. subst. exists q. split; [|split_and!; auto].
    destruct fuel; simpl; by rewrite decide_True.
  - simpl in Ht. destruct Ht as (-> & n & Hn & Ht). destruct fuel as [|fuel]; [simpl in Hf; lia|].
    simpl. rewrite decide_False by done. rewrite Hn. simpl.
    destruct (Ho x (list_elem_of_here _ _)) as [Hnn Hhx He Hs Hb]. rewrite He. simpl.
    unfold complete_srb at 1. fold (rq_Srb x). rewrite Hs. simpl.
    rewrite SpdSrbComplete_aborted. simpl. rewrite Hb.
    simpl in Hnd. apply NoDup_cons in Hnd as [Hnx Hnd].
    assert (forall y, y ∈ l -> rq_ext y <> rq_ext x /\ rq_Srb y <> rq_Srb x) as Hne.
    { intros y Hy. assert (rq_ext y <> rq_ext x) as Hyx.
      { intros E. apply Hnx. rewrite <- E. by apply ids_in. }
      split; [done|]. intros E. apply Hyx, Hinj; [by apply list_elem_of_further| |done].
      apply list_elem_of_here. }
    match goal with |- context [abort_list _ fuel ?q1 Head n] =>
      assert (forall y, rq_ext y <> rq_ext x -> rq_Srb y <> rq_Srb x -> owns q y -> owns q1 y)
        as Hkeep; [|destruct (IH fuel q1 n) as (q' & Hq' & Hsame)] end.
    { intros y H1 H2 Hy. apply (owns_same q); simpl; try done.
      - rewrite lookup_delete_ne by done. apply Hy.
      - by apply lookup_delete_ne.
      - by apply lookup_delete_ne. }
    + simpl in Hf. lia.
    + simpl. revert Ht. apply tail_links_frame. intros e He'.
      apply lookup_delete_ne. intros [= E]. apply Hnx. by rewrite E.
    + done.
    + intros y z Hy Hz. apply Hinj; by apply list_elem_of_further.
    + intros y Hy. apply Hkeep; [by apply Hne..|]. apply Ho. by apply list_elem_of_further.
    + rewrite Hq'. simpl. exists q'. split; [done|].
      destruct Hsame as (E1 & E2 & E3 & E4 & E5 & E6). simpl in *. split_and!; try done.
      * intros a Ha. rewrite E5.
        -- apply lookup_delete_ne. intros <-. by apply (Ha x (list_elem_of_here _ _)).
        -- intros y Hy. by apply Ha, list_elem_of_further.
      * intros y H1 H2 Hy. apply E6.
        -- intros z Hz. by apply H1, list_elem_of_further.
        -- intros z Hz. by apply H2, list_elem_of_further.
        -- apply Hkeep; [apply H1, list_elem_of_here|apply H2, list_elem_of_here|done].
Qed.

Lemma dlist_nil_frame (M M' : gmap laddr (LIST_ENTRY laddr)) h :
  dlist M h [] -> M' !! h = M !! h -> dlist M' h [].
Proof.
  intros [Hnd [HF HB]] E. split; [done|]. unfold dseg, get_Flink, get_Blink in *. by rewrite E.
Qed.

Lemma owned_fuel q (l : list request) :
  NoDup (ids l) -> (forall x, x ∈ l -> owns q x) -> (length l <= queue_fuel q)%nat.
Proof.
  intros Hnd Ho. unfold queue_fuel. rewrite <- (length_fmap rq_ext).
  apply Nat.le_le_succ_r, length_le_size; [done|].
  intros e (x & -> & Hx)%list_elem_of_fmap. apply Ho, Hx.
Qed.

(** The two list heads are initialised; the entries keep their links. *)
Lemma reset_heads M p r :
  links_rep M p r ->
  exists n1 n2 M1 M2, get_Flink M LPendingList = Some n1 /\ get_Flink M LProcessList = Some n2 /\
    InitializeListHead M LPendingList = Some M1 /\ InitializeListHead M1 LProcessList = Some M2 /\
    links_rep M2 [] [] /\ tail_links M2 LPendingList p n1 /\ tail_links M2 LProcessList r n2.
Proof.
  intros (Hp & Hr & Hnd).
  destruct (get_Flink M LPendingList) as [n1|] eqn:E1;
    [|rewrite (dlist_first _ _ _ Hp) in E1; by destruct p].
  destruct (get_Flink M LProcessList) as [n2|] eqn:E2;
    [|rewrite (dlist_first _ _ _ Hr) in E2; by destruct r].
  destruct (dlist_InitializeListHead M LPendingList) as (M1 & HM1 & D1 & [S1 I1]);
    [eapply (dlist_is_Some _ _ _ _ Hp), list_elem_of_here|].
  destruct (dlist_InitializeListHead M1 LProcessList) as (M2 & HM2 & D2 & [S2 I2]);
    [apply I1; eapply (dlist_is_Some _ _ _ _ Hr), list_elem_of_here|].
  assert (forall e, M2 !! LExt e = M !! LExt e) as He.
  { intros e. by rewrite S2, S1 by by rewrite list_elem_of_singleton. }
  exists n1, n2, M1, M2. split_and!; try done.
  - split_and!; [|done|constructor]. eapply dlist_nil_frame; [exact D1|].
    apply S2. by rewrite list_elem_of_singleton.
  - eapply tail_links_frame; [intros e _; apply He|]. eapply dseg_tail_links; [apply Hp|done].
  - eapply tail_links_frame; [intros e _; apply He|]. eapply dseg_tail_links; [apply Hr|done].
Qed.

Lemma reset_abs DBG q Q Stop :
  ioq_abs q Q ->
  exists q', SpdIoqReset DBG q Stop = Some (q', (q_reset Q Stop).2) /\
    ioq_abs q' (q_reset Q Stop).1.
Proof.
  intros Habs. pose proof Habs as [Hst Hev Hli Hta Ho]. unfold SpdIoqReset, q_reset. rewrite Hst.
  destruct (q_stopped Q) eqn:Hs; cbn [negb]; [by eexists|].
  destruct (reset_heads _ _ _ Hli) as (n1 & n2 & M1 & M2 & -> & -> & -> & HM2 & HL & T1 & T2).
  opt. rewrite HM2. opt. pose proof (abs_NoDup q Q Habs) as Hnd. rewrite fmap_app in Hnd.
  apply NoDup_app in Hnd as (Hndp & Hdis & Hndr). pose proof Hta as (HN & _).
  set (q0 := q <| Links := M2 |> <| ProcessBuckets :=
               replicate (Z.to_nat (ProcessBucketCount (q <| Links := M2 |>))) 0 |>).
  assert (forall x, x ∈ q_pending Q ++ q_process Q -> owns q0 x) as Ho0.
  { intros x Hx. by apply (owns_fields q); [apply Ho|..]. }
  assert (forall x y, x ∈ q_pending Q ++ q_process Q -> y ∈ q_pending Q ++ q_process Q ->
            rq_Srb x = rq_Srb y -> rq_ext x = rq_ext y) as Hinj.
  { intros x y Hx Hy E. by rewrite (abs_srb_inj q Q Habs x y). }
  assert (forall x, x ∈ q_process Q -> forall y, y ∈ q_pending Q ->
            rq_ext x <> rq_ext y /\ rq_Srb x <> rq_Srb y) as Hne.
  { intros x Hx y Hy. assert (rq_ext x <> rq_ext y) as Hxy.
    { intros E. apply (Hdis (rq_ext y)); [by apply ids_in|]. rewrite <- E. by apply ids_in. }
    split; [done|]. intros E. apply Hxy, Hinj; [set_solver..|done]. }
  destruct (abort_list_abs DBG LPendingList (q_pending Q) (queue_fuel q0) q0 n1)
    as (q1 & HA1 & F1 & F2 & F3 & F4 & F5 & F6); [done| |exact T1|done| | |].
  { apply owned_fuel; [done|]. intros x Hx. apply Ho0. set_solver. }
  { intros x y Hx Hy. apply Hinj; set_solver. }
  { intros x Hx. apply Ho0. set_solver. }
  assert (forall x, x ∈ q_process Q -> owns q1 x) as Ho1.
  { intros x Hx. apply F6; [intros y Hy; by apply Hne..|]. apply Ho0. set_solver. }
  destruct (abort_list_abs DBG LProcessList (q_process Q) (queue_fuel q1) q1 n2)
    as (q2 & HA2 & G1 & G2 & G3 & G4 & G5 & G6); [done|by apply owned_fuel| |done| |done|].
  { eapply tail_links_frame; [|exact T2]. intros e He. rewrite F5; [done|].
    intros x Hx [= ->]. by apply (Hdis (rq_ext x)); [apply ids_in|]. }
  { intros x y Hx Hy. apply Hinj; set_solver. }
  rewrite HA1. opt. rewrite HA2. opt. rewrite fmap_app. eexists. split; [done|].
  assert (ioq_abs q2 (mkQueue false (q_event Q) [] [])) as Hfin.
  { split; simpl.
    - rewrite G1, F1. done.
    - rewrite G2, F2. done.
    - destruct HL as (D1 & D2 & _).
      split_and!; [eapply (dlist_nil_frame M2); [done|]|eapply (dlist_nil_frame M2); [done|]|
        constructor]; by rewrite G5, F5.
    - unfold table_rep. rewrite G3, G4, F3, F4. by apply buckets_empty.
    - intros x []%not_elem_of_nil. }
  destruct Stop; [|done].
  apply (abs_event_set _ (mkQueue true (q_event Q) [] []) true).
  destruct Hfin as [E1 E2 E3 E4 E5]. split; try done. intros x []%not_elem_of_nil.
Qed.

(** ** [SpdIoqCreate] *)

Lemma create_abs sizeof_SPD_IOQ :
  0 <= sizeof_SPD_IOQ <= PAGE_SIZE - 8 ->
  exists q, SpdIoqCreate sizeof_SPD_IOQ true = Some (STATUS_SUCCESS, Some q) /\
    ioq_abs q (mkQueue false false [] []).
Proof.
  intros Hsz. unfold PAGE_SIZE in *. unfold SpdIoqCreate. cbn [negb].
  set (Z0 := {[LPendingList := _; LProcessList := _]}).
  destruct (dlist_InitializeListHead Z0 LPendingList) as (M1 & -> & D1 & [S1 I1]);
    [subst Z0; by rewrite lookup_insert_eq|]. opt.
  destruct (dlist_InitializeListHead M1 LProcessList) as (M2 & -> & D2 & [S2 I2]);
    [apply I1; subst Z0; by rewrite lookup_insert_ne, lookup_singleton_eq|]. opt.
  eexists. split; [done|]. split; simpl; try done.
  - split_and!; [|done|constructor]. eapply dlist_nil_frame; [exact D1|].
    apply S2. by rewrite list_elem_of_singleton.
  - apply buckets_empty. cbn [ProcessBucketCount]. unfold PAGE_SIZE. dlia.
  - intros x []%not_elem_of_nil.
Qed.
