(* ===== verification/IoqRun.v ===== *)
(** * Runs of an I/O queue

    A run is a sequence of operations, as the interleaving of the threads that use the queue
    orders their critical sections.  The theorems here are about every run: the queue in
    memory implements the abstract queue of [IoqSpec], no request is lost or completed twice,
    and a waiter is always woken up when there is work. *)

From S2P Require Import Prelude Wdk HashMix ListEntry Srb Ioq IoqMem IoqSpec.

#[local] Set Warnings "-clear-no-such-hyp".

(** ** Operations of a run *)

Inductive ioq_op {Ctx : Type} :=
  | OpPost (Srb : Z) (s : SRB) (ext : SPD_SRB_EXTENSION)
  | OpStart (ctx : Ctx)
  | OpEnd (Hint : Z) (ctx : Ctx)
  | OpCancel (Srb : Z)
  | OpReset (Stop : bool).
Arguments ioq_op : clear implicits.

(** What an operation gives its caller and the port driver. *)
Record output {Ctx : Type} := mkOutput {
  out_status : Z;
  out_ctx : option Ctx;
  out_completed : list completion
}.
Arguments output : clear implicits.

Section Run.
Context {Ctx : Type} (DBG : bool).
Context (Prepare : Z -> SPD_SRB_EXTENSION -> SRB -> Ctx -> option Ctx).
Context (Complete : SPD_SRB_EXTENSION -> SRB -> Ctx -> option (Z * SPD_SRB_EXTENSION * SRB)).

Definition ioq_step (q : SPD_IOQ) (op : ioq_op Ctx) : option (SPD_IOQ * output Ctx) :=
  match op with
  | OpPost Srb s ext =>
      '(st, q) ← SpdIoqPostSrb DBG q Srb s ext 0 (mkEntry LNull LNull);
      Some (q, mkOutput _ st None [])
  | OpStart ctx =>
      '(st, q, ctx) ← start_locked DBG Prepare q ctx;
      Some (q, mkOutput _ st (Some ctx) [])
  | OpEnd Hint ctx =>
      '(q, cs) ← SpdIoqEndProcessingSrb DBG Complete q Hint ctx;
      Some (q, mkOutput _ STATUS_SUCCESS None cs)
  | OpCancel Srb =>
      '(st, q, cs) ← SpdIoqCancelSrb DBG q Srb;
      Some (q, mkOutput _ st None cs)
  | OpReset Stop =>
      '(q, cs) ← SpdIoqReset DBG q Stop;
      Some (q, mkOutput _ STATUS_SUCCESS None cs)
  end.

Fixpoint ioq_run (q : SPD_IOQ) (ops : list (ioq_op Ctx)) : option (SPD_IOQ * list (output Ctx)) :=
  match ops with
  | [] => Some (q, [])
  | op :: ops => '(q, o) ← ioq_step q op; '(q, os) ← ioq_run q ops; Some (q, o :: os)
  end.

(** ** The same on the abstract queue *)

(** What the callers of the queue guarantee: only requests that are not in the queue are
    posted, with a cleared extension; only requests that are in the queue are cancelled. *)
Definition op_allowed (Q : queue) (op : ioq_op Ctx) : bool :=
  match op with
  | OpPost Srb s ext =>
      negb (SpdSrbExtension s =? 0) && (ext_Srb ext =? 0) &&
      forallb (fun x => negb (rq_ext x =? SpdSrbExtension s) && negb (rq_Srb x =? Srb))
        (q_pending Q ++ q_process Q)
  | OpCancel Srb => existsb (fun x => rq_Srb x =? Srb) (q_pending Q ++ q_process Q)
  | _ => true
  end.

Definition spec_step (Q : queue) (op : ioq_op Ctx) : option (queue * output Ctx) :=
  if negb (op_allowed Q op) then None
  else match op with
  | OpPost Srb s ext =>
      let '(st, Q) := q_post Q (mkRequest (SpdSrbExtension s) (ext <| ext_Srb := Srb |>) s) in
      Some (Q, mkOutput _ st None [])
  | OpStart ctx =>
      '(st, Q, ctx) ← q_start Prepare Q ctx;
      Some (Q, mkOutput _ st (Some ctx) [])
  | OpEnd Hint ctx =>
      '(Q, cs) ← q_end DBG Complete Q Hint ctx;
      Some (Q, mkOutput _ STATUS_SUCCESS None cs)
  | OpCancel Srb =>
      let '(st, Q, cs) := q_cancel Q Srb in
      Some (Q, mkOutput _ st None cs)
  | OpReset Stop =>
      let '(Q, cs) := q_reset Q Stop in
      Some (Q, mkOutput _ STATUS_SUCCESS None cs)
  end.

Fixpoint spec_run (Q : queue) (ops : list (ioq_op Ctx)) : option (queue * list (output Ctx)) :=
  match ops with
  | [] => Some (Q, [])
  | op :: ops => '(Q, o) ← spec_step Q op; '(Q, os) ← spec_run Q ops; Some (Q, o :: os)
  end.

(** The SRB addresses a run has handed to the queue, and those it got back. *)
Definition accepted (op : ioq_op Ctx) (o : output Ctx) : list Z :=
  match op with
  | OpPost Srb _ _ => if out_status o =? STATUS_SUCCESS then [Srb] else []
  | _ => []
  end.

Definition returned (o : output Ctx) : list Z := fst <$> out_completed o.

Definition owned (Q : queue) : list Z := rq_Srb <$> q_pending Q ++ q_process Q.

(** A stopped queue is empty. *)
Definition stopped_empty (Q : queue) : Prop :=
  q_stopped Q = true -> q_pending Q = [] /\ q_process Q = [].

(** ** Waiters

    The queue, and the number of threads that have been woken by its event and have not yet
    entered the critical section of [SpdIoqStartProcessingSrb]. *)
Inductive wait_step : SPD_IOQ * nat -> SPD_IOQ * nat -> Prop :=
  | wait_taken q w :
      PendingEvent q = 1 -> wait_step (q, w) (q <| PendingEvent := 0 |>, S w)
  | wait_started q w ctx q' o :
      ioq_step q (OpStart ctx) = Some (q', o) -> wait_step (q, S w) (q', w)
  | wait_other q w Q op q' o :
      ioq_abs q Q -> op_allowed Q op = true -> (forall ctx, op <> OpStart ctx) ->
      ioq_step q op = Some (q', o) -> wait_step (q, w) (q', w).

Inductive wait_reach (init : SPD_IOQ) : SPD_IOQ * nat -> Prop :=
  | reach_init : wait_reach init (init, O)
  | reach_step s s' : wait_reach init s -> wait_step s s' -> wait_reach init s'.
End Run.

(** ** One step *)

Section Steps.
Context {Ctx : Type}.
Context (Prepare : Z -> SPD_SRB_EXTENSION -> SRB -> Ctx -> option Ctx).
Context (Complete : SPD_SRB_EXTENSION -> SRB -> Ctx -> option (Z * SPD_SRB_EXTENSION * SRB)).
Hypothesis Complete_frame : forall ext s ctx st ext' s',
  Complete ext s ctx = Some (st, ext', s') ->
  ext_Srb ext' = ext_Srb ext /\ SpdSrbExtension s' = SpdSrbExtension s.

Lemma op_allowed_fresh Q Srb s ext :
  op_allowed (Ctx := Ctx) Q (OpPost Srb s ext) = true ->
  ext_Srb ext = 0 /\ fresh Q (mkRequest (SpdSrbExtension s) (ext <| ext_Srb := Srb |>) s).
Proof.
  simpl. intros [[H1 H2]%andb_true_iff H3]%andb_true_iff. zify_bools.
  split; [done|]. rewrite forallb_forall in H3.
  split; simpl; try done; intros x Hx%list_elem_of_In; apply H3 in Hx; zify_bools; done.
Qed.

Lemma op_allowed_posted Q Srb : op_allowed (Ctx := Ctx) Q (OpCancel Srb) = true -> posted Q Srb.
Proof.
  simpl. intros (x & Hx%list_elem_of_In & E%Z.eqb_eq)%existsb_exists. by exists x.
Qed.

Lemma step_abs q Q op :
  ioq_abs q Q -> op_allowed Q op = true ->
  match spec_step false Prepare Complete Q op with
  | Some (Q', o) =>
      exists q', ioq_step false Prepare Complete q op = Some (q', o) /\ ioq_abs q' Q'
  | None => ioq_step false Prepare Complete q op = None
  end.
Proof.
  intros Habs Hop. unfold spec_step. rewrite Hop. cbn [negb]. destruct op; cbn [ioq_step].
  - destruct (op_allowed_fresh _ _ _ _ Hop) as [HS Hf].
    destruct (post_abs false q Q Srb s ext _ Habs Hf HS eq_refl) as (q' & -> & Ha).
    destruct (q_post Q _) as [st Q']. simpl in *. by eexists.
  - pose proof (start_abs Prepare q Q ctx Habs) as Ha.
    destruct (q_start Prepare Q ctx) as [[[st Q'] ctx']|]; simpl; [|by rewrite Ha].
    destruct Ha as (q' & -> & Ha). simpl. by eexists.
  - pose proof (end_abs Complete Complete_frame false q Q Hint ctx Habs) as Ha.
    destruct (q_end false Complete Q Hint ctx) as [[Q' cs]|]; simpl; [|by rewrite Ha].
    destruct Ha as (q' & -> & Ha). simpl. by eexists.
  - destruct (cancel_abs false q Q Srb Habs (op_allowed_posted _ _ Hop)) as (q' & -> & Ha).
    destruct (q_cancel Q Srb) as [[st Q'] cs]. simpl in *. by eexists.
  - destruct (reset_abs false q Q Stop Habs) as (q' & -> & Ha).
    destruct (q_reset Q Stop) as [Q' cs]. simpl in *. by eexists.
Qed.

Lemma run_abs q Q ops Q' os :
  ioq_abs q Q -> spec_run false Prepare Complete Q ops = Some (Q', os) ->
  exists q', ioq_run false Prepare Complete q ops = Some (q', os) /\ ioq_abs q' Q'.
Proof.
  revert q Q os. induction ops as [|op ops IH]; intros q Q os Habs; simpl.
  - intros [= <- <-]. by eexists.
  - intros ([Q1 o] & H1 & ([Q2 os2] & H2 & [= <- <-])%bind_Some)%bind_Some.
    assert (op_allowed Q op = true) as Hop.
    { unfold spec_step in H1. by destruct (op_allowed Q op). }
    pose proof (step_abs q Q op Habs Hop) as Hs. rewrite H1 in Hs.
    destruct Hs as (q1 & -> & Ha1). simpl. destruct (IH q1 Q1 os2 Ha1 H2) as (q' & -> & Ha).
    simpl. by eexists.
Qed.

(** ** Conservation of requests *)

Lemma take_first_srbs P l rq l' :
  take_first P l = Some (rq, l') -> rq_Srb <$> l ≡ₚ rq_Srb rq :: (rq_Srb <$> l').
Proof.
  intros (l1 & l2 & -> & -> & _)%take_first_Some. rewrite !fmap_app. simpl.
  by rewrite Permutation_middle.
Qed.

Lemma aborted_srbs (l : list request) : fst <$> (aborted <$> l) = rq_Srb <$> l.
Proof. rewrite <- list_fmap_compose. done. Qed.

Lemma spec_step_conserves Q op Q' o :
  stopped_empty Q -> spec_step false Prepare Complete Q op = Some (Q', o) ->
  accepted op o ++ owned Q ≡ₚ returned o ++ owned Q' /\ stopped_empty Q'.
Proof.
  intros He. unfold spec_step. destruct (op_allowed Q op); cbn [negb]; [|done].
  destruct op; cbn [accepted]; unfold returned.
  - unfold owned, q_post. destruct (q_stopped Q) eqn:Hs; intros [= <- <-]; simpl; [done|].
    split; [|done]. rewrite <- app_assoc, !fmap_app. simpl. by rewrite Permutation_middle.
  - unfold owned, q_start. destruct (q_stopped Q) eqn:Hs.
    { intros [= <- <-]. simpl. split; [done|]. intros _. by apply He. }
    destruct (q_pending Q) as [|rq p] eqn:Hp; simpl.
    { intros [= <- <-]. simpl. rewrite Hp. done. }
    intros ([[st Q1] ctx1] & (ctx2 & _ & [= <- <- <-])%bind_Some & [= <- <-])%bind_Some.
    simpl. split; [|done]. rewrite app_assoc, (fmap_app rq_Srb (p ++ q_process Q)). simpl.
    apply Permutation_cons_append.
  - unfold owned, q_end. destruct (q_stopped Q) eqn:Hs.
    { intros [= <- <-]. simpl. split; [done|]. intros _. by apply He. }
    destruct (take_first _ (q_process Q)) as [[rq r]|] eqn:Ht.
    + intros ([Q1 cs] & ([[st ext'] s'] & HC & Hb)%bind_Some & [= <- <-])%bind_Some.
      pose proof (take_first_srbs _ _ _ _ Ht) as Hperm.
      destruct (Complete_frame _ _ _ _ _ _ HC) as [Hf _]. revert Hb. case_match.
      * intros [= <- <-]. simpl. split; [|done].
        rewrite !fmap_app, Hperm, <- Permutation_middle. unfold rq_Srb at 4. simpl.
        by rewrite Hf.
      * intros (s'' & _ & [= <- <-])%bind_Some. simpl. split; [|done].
        by rewrite !fmap_app, Hperm, <- Permutation_middle.
    + intros [= <- <-]. done.
  - unfold owned, q_cancel. destruct (q_stopped Q) eqn:Hs.
    { intros [= <- <-]. simpl. split; [done|]. intros _. by apply He. }
    destruct (take_first _ (q_pending Q)) as [[rq p]|] eqn:Hp;
      [|destruct (take_first _ (q_process Q)) as [[rq r]|] eqn:Hr];
      intros [= <- <-]; simpl; (split; [|done]); try done.
    + by rewrite !fmap_app, (take_first_srbs _ _ _ _ Hp).
    + by rewrite !fmap_app, (take_first_srbs _ _ _ _ Hr), <- Permutation_middle.
  - unfold owned, q_reset. destruct (q_stopped Q) eqn:Hs.
    { intros [= <- <-]. simpl. split; [done|]. intros _. by apply He. }
    intros [= <- <-]. simpl. split; [|done]. by rewrite aborted_srbs, app_nil_r.
Qed.

Lemma spec_run_conserves Q ops Q' os :
  stopped_empty Q -> spec_run false Prepare Complete Q ops = Some (Q', os) ->
  concat (zip_with accepted ops os) ++ owned Q ≡ₚ concat (returned <$> os) ++ owned Q' /\
  stopped_empty Q'.
Proof.
  revert Q os. induction ops as [|op ops IH]; intros Q os He; simpl.
  - by intros [= <- <-].
  - intros ([Q1 o] & H1 & ([Q2 os2] & H2 & [= <- <-])%bind_Some)%bind_Some.
    destruct (spec_step_conserves _ _ _ _ He H1) as [Hp He1].
    destruct (IH Q1 os2 He1 H2) as [Hp2 He2]. split; [|done]. simpl.
    rewrite <- !app_assoc, <- Hp2. rewrite (Permutation_app_comm (accepted op o)).
    rewrite <- app_assoc, (Permutation_app_comm (owned Q)), Hp.
    rewrite !app_assoc. apply Permutation_app_tail. apply Permutation_app_comm.
Qed.

(** A reset leaves nothing in the queue. *)
Lemma spec_run_reset Q ops Stop Q' os :
  stopped_empty Q -> spec_run false Prepare Complete Q (ops ++ [OpReset Stop]) = Some (Q', os) ->
  q_pending Q' = [] /\ q_process Q' = [].
Proof.
  revert Q os. induction ops as [|op ops IH]; intros Q os He; simpl.
  - unfold spec_step, q_reset. simpl. destruct (q_stopped Q) eqn:Hs; intros [= <- <-]; auto.
  - intros ([Q1 o] & H1 & ([Q2 os2] & H2 & [= <- <-])%bind_Some)%bind_Some.
    eapply IH; [|exact H2]. by eapply spec_step_conserves.
Qed.
End Steps.

(** ** Wake-ups *)

(** There is something for a waiter to do: a request, or the news that the queue is stopped. *)
Definition work (q : SPD_IOQ) : Prop :=
  Stopped q = true \/ get_Flink (Links q) LPendingList <> Some LPendingList.

Definition q_work (Q : queue) : Prop := q_stopped Q = true \/ q_pending Q <> [].

Lemma abs_work q Q : ioq_abs q Q -> work q <-> q_work Q.
Proof.
  intros [Hst _ Hli _ _]. unfold work, q_work. rewrite Hst, (links_first _ _ _ Hli).
  destruct (q_pending Q); simpl; naive_solver.
Qed.

Lemma abs_event_one q Q : ioq_abs q Q -> PendingEvent q = 1 <-> q_event Q = true.
Proof. intros [_ -> _ _ _]. by destruct (q_event Q). Qed.

Section Wake.
Context {Ctx : Type}.
Context (Prepare : Z -> SPD_SRB_EXTENSION -> SRB -> Ctx -> option Ctx).
Context (Complete : SPD_SRB_EXTENSION -> SRB -> Ctx -> option (Z * SPD_SRB_EXTENSION * SRB)).
Hypothesis Complete_frame : forall ext s ctx st ext' s',
  Complete ext s ctx = Some (st, ext', s') ->
  ext_Srb ext' = ext_Srb ext /\ SpdSrbExtension s' = SpdSrbExtension s.

(** After a start, work that is left has its event set. *)
Lemma start_signals Q ctx Q' o :
  spec_step false Prepare Complete Q (OpStart ctx) = Some (Q', o) ->
  q_work Q' -> q_event Q' = true.
Proof.
  unfold spec_step, q_start, q_work. simpl. destruct (q_stopped Q) eqn:Hs; simpl.
  { by intros [= <- <-]. }
  destruct (q_pending Q) as [|rq p] eqn:Hp; simpl.
  { intros [= <- <-]. rewrite Hs, Hp. naive_solver. }
  intros ([[st Q1] ctx1] & (ctx2 & _ & [= <- <- <-])%bind_Some & [= <- <-])%bind_Some.
  simpl. intros [?|Hp']; [done|]. by rewrite bool_decide_false.
Qed.

(** Any other operation that makes work sets the event, and none clears it. *)
Lemma other_signals Q op Q' o :
  (forall ctx, op <> OpStart ctx) ->
  spec_step false Prepare Complete Q op = Some (Q', o) ->
  (q_event Q = true -> q_event Q' = true) /\ (q_work Q' -> q_work Q \/ q_event Q' = true).
Proof.
  intros Hop. unfold spec_step. destruct (op_allowed Q op); cbn [negb]; [|done]. unfold q_work.
  destruct op as [Srb s ext|ctx|Hint ctx|Srb|Stop].
  - unfold q_post. destruct (q_stopped Q) eqn:Hs; intros [= <- <-]; simpl; rewrite ?Hs; auto.
  - by destruct (Hop ctx).
  - unfold q_end. destruct (q_stopped Q) eqn:Hs; simpl.
    { intros [= <- <-]. rewrite Hs. auto. }
    destruct (take_first _ (q_process Q)) as [[rq r]|]; simpl.
    + intros ([Q1 cs] & ([[st ext'] s'] & HC & Hb)%bind_Some & [= <- <-])%bind_Some.
      revert Hb. case_match; intros [= <- <-]; simpl; rewrite ?Hs; tauto.
    + intros [= <- <-]. rewrite Hs. auto.
  - unfold q_cancel. destruct (q_stopped Q) eqn:Hs.
    { intros [= <- <-]. rewrite Hs. auto. }
    destruct (take_first _ (q_pending Q)) as [[rq p]|] eqn:Hp;
      [|destruct (take_first _ (q_process Q)) as [[rq r]|] eqn:Hr]; intros [= <- <-]; simpl;
      rewrite ?Hs; try tauto.
    apply take_first_Some in Hp as (l1 & l2 & -> & _). split; [done|]. intros _. left. right.
    by destruct l1.
  - unfold q_reset. destruct (q_stopped Q) eqn:Hs.
    { intros [= <- <-]. rewrite Hs. auto. }
    intros [= <- <-]. destruct Stop; simpl; naive_solver.
Qed.

Lemma wait_invariant q0 Q0 s :
  ioq_abs q0 Q0 -> ~ q_work Q0 -> wait_reach false Prepare Complete q0 s ->
  (exists Q, ioq_abs s.1 Q) /\ (work s.1 -> PendingEvent s.1 = 1 \/ (0 < s.2)%nat).
Proof.
  intros Habs0 HQ0 Hr. induction Hr as [|s s' Hr [[Q Habs] IH] Hstep].
  - split; [by eexists|]. intros Hw. by apply (abs_work _ _ Habs0) in Hw.
  - destruct Hstep as [q w He|q w ctx q' o Hst|q w Qg op q' o Habsg Hop Hns Hst];
      cbn [fst snd] in *.
    + split; [|lia]. exists (mkQueue (q_stopped Q) false (q_pending Q) (q_process Q)).
      destruct Habs as [H1 H2 H3 H4 H5]. split; try done.
      intros x Hx. by apply (owns_fields q); [apply H5|..].
    + pose proof (step_abs Prepare Complete Complete_frame q Q (OpStart ctx) Habs eq_refl) as Hs.
      destruct (spec_step false Prepare Complete Q (OpStart ctx)) as [[Q' o']|] eqn:E;
        [|congruence]. destruct Hs as (q1 & Hq1 & Ha1). rewrite Hst in Hq1. simplify_eq.
      split; [by eexists|]. intros Hw. left. apply (abs_event_one _ _ Ha1).
      eapply start_signals; [exact E|]. by apply (abs_work _ _ Ha1).
    + pose proof (step_abs Prepare Complete Complete_frame q Qg op Habsg Hop) as Hs.
      destruct (spec_step false Prepare Complete Qg op) as [[Q' o']|] eqn:E; [|congruence].
      destruct Hs as (q1 & Hq1 & Ha1). rewrite Hst in Hq1. simplify_eq.
      split; [by eexists|]. intros Hw%(abs_work _ _ Ha1).
      destruct (other_signals _ _ _ _ Hns E) as [Hmono Hnew].
      rewrite (abs_event_one _ _ Ha1). destruct (Hnew Hw) as [Hw'|]; [|auto].
      apply (abs_work _ _ Habsg) in Hw'. apply IH in Hw' as [He|]; [|auto].
      left. apply Hmono. by apply (abs_event_one _ _ Habsg).
Qed.
End Wake.

(** ** Timeouts *)

Lemma retry_deadline Exp QuadPart Irp evs Result PTimeout rest :
  0 < Exp < 2 ^ 63 -> QuadPart < 0 ->
  (forall t c time, WaitAlerted t c time ∈ evs -> 0 <= time < 2 ^ 63) ->
  SpdQeventRetry Exp (Some QuadPart) Irp evs = Some (Result, PTimeout, rest) ->
  exists left, PTimeout = Some left /\ left < 0 /\
    (left = QuadPart \/ exists t c time, (WaitAlerted t c time ∈ evs) /\ time - left = Exp).
Proof.
  intros HE. revert QuadPart. induction evs as [|ev evs IH]; intros Q HQ Hevs; [done|].
  assert (forall res, Some (res, Some Q, evs) = Some (Result, PTimeout, rest) ->
    exists left, PTimeout = Some left /\ left < 0 /\
    (left = Q \/ exists t c time, (WaitAlerted t c time ∈ ev :: evs) /\ time - left = Exp)) as Hret.
  { intros res [= -> <- ->]. exists Q. auto. }
  cbn [SpdQeventRetry]. case_match; [|apply Hret].
  destruct ev as [| |t c time]; [done|done|].
  destruct t; [apply Hret|]. destruct (Irp && c); [apply Hret|].
  rewrite (proj2 (Z.eqb_neq 0 Exp)) by lia. cbn [negb].
  destruct (Exp <=? time) eqn:Ht; [apply Hret|]. zify_bools.
  pose proof (Hevs false c time (list_elem_of_here _ _)) as Hb.
  rewrite !s64_small by (rewrite ?s64_small; lia). intros Hr.
  apply IH in Hr as (left & -> & Hl & Hd); [|lia|].
  - exists left. split_and!; try done. right. destruct Hd as [->|(t' & c' & time' & Hin & Hd)].
    + exists false, c, time. split; [apply list_elem_of_here|lia].
    + exists t', c', time'. split; [by apply list_elem_of_further|done].
  - intros t' c' time' Hin. by apply (Hevs t' c'), list_elem_of_further.
Qed.

(** ** Concrete instances, for the examples *)

(** A request whose extension is at the address [e]. *)
Definition example_srb (e : Z) : SRB :=
  mkSrb 88 SRB_FUNCTION_EXECUTE_SCSI 0 0 0 0 0 0 0 16 0 0 0 0 0 0 0 0 e 0
    (replicate 16 0) [] [].

(** [Prepare] reports the Hint; [Complete] takes the status to complete with as its context. *)
Definition example_Prepare (e : Z) (ext : SPD_SRB_EXTENSION) (s : SRB) (ctx : Z) : option Z :=
  Some e.
Definition example_Complete (ext : SPD_SRB_EXTENSION) (s : SRB) (ctx : Z)
    : option (Z * SPD_SRB_EXTENSION * SRB) := Some (ctx, ext, s).

Lemma example_Complete_frame ext s ctx st ext' s' :
  example_Complete ext s ctx = Some (st, ext', s') ->
  ext_Srb ext' = ext_Srb ext /\ SpdSrbExtension s' = SpdSrbExtension s.
Proof. by intros [= <- <- <-]. Qed.

(** Two requests; both start; the second is put back once and started again; the first ends;
    a third is posted and cancelled. *)
Definition example_run : list (ioq_op Z) :=
  [OpPost 1 (example_srb 6400) ExtZero; OpPost 2 (example_srb 6720) ExtZero;
   OpStart 0; OpStart 0; OpEnd 6720 SRB_STATUS_PENDING; OpEnd 6400 SRB_STATUS_SUCCESS;
   OpPost 3 (example_srb 8000) ExtZero; OpCancel 3; OpStart 0].

Definition empty_queue : queue := mkQueue false false [] [].

(** The size of [SPD_IOQ] in a 64-bit kernel. *)
Definition sizeof_SPD_IOQ_64 : Z := 152.

Lemma empty_queue_stopped : stopped_empty empty_queue.
Proof. unfold stopped_empty, empty_queue. simpl. discriminate. Qed.

(** ** Properties *)

(** C1: In the free build, the I/O queue in memory (doubly linked lists, hash buckets chained
    through the extensions) implements the abstract queue.  From [SpdIoqCreate], every sequence of
    posts, starts, ends, cancels and resets that its callers may make (which [spec_run] describes:
    an extension is posted only when it is not in the queue, and the callbacks have no faults of
    their own) runs without a fault (no access to memory the queue does not own, no loop that runs
    out of fuel), gives the results and the completed requests of the abstract queue, and leaves
    memory that represents it.  In the checked build that is not so: after a request was put back
    for its next chunk an assertion may fail ([ioq_repost_assertion]; ioq.c:222 and 266). *)
Theorem ioq_run_refines {Ctx} Prepare Complete
    (Complete_frame : forall ext s (ctx : Ctx) st ext' s',
       Complete ext s ctx = Some (st, ext', s') ->
       ext_Srb ext' = ext_Srb ext /\ SpdSrbExtension s' = SpdSrbExtension s)
    sizeof_SPD_IOQ ops Q os :
  0 <= sizeof_SPD_IOQ <= PAGE_SIZE - 8 ->
  spec_run false Prepare Complete empty_queue ops = Some (Q, os) ->
  exists q0 q, SpdIoqCreate sizeof_SPD_IOQ true = Some (STATUS_SUCCESS, Some q0) /\
    ioq_run false Prepare Complete q0 ops = Some (q, os) /\ ioq_abs q Q.
Proof.
  intros Hsz Hrun. destruct (create_abs sizeof_SPD_IOQ Hsz) as (q0 & Hq0 & Ha0).
  destruct (run_abs Prepare Complete Complete_frame _ _ _ _ _ Ha0 Hrun) as (q & Hq & Ha).
  by exists q0, q.
Qed.

(** The example run, in which every kind of operation happens. *)
Lemma ioq_run_refines_witness :
  exists q0 q Q os, SpdIoqCreate sizeof_SPD_IOQ_64 true = Some (STATUS_SUCCESS, Some q0) /\
    ioq_run false example_Prepare example_Complete q0 example_run = Some (q, os) /\
    ioq_abs q Q /\ rq_ext <$> q_process Q = [6720].
Proof.
  destruct (spec_run false example_Prepare example_Complete empty_queue example_run)
    as [[Q os]|] eqn:E; [|vm_compute in E; discriminate].
  destruct (ioq_run_refines example_Prepare example_Complete example_Complete_frame
    sizeof_SPD_IOQ_64 example_run Q os) as (q0 & q & H1 & H2 & H3).
  - vm_compute. split; discriminate.
  - exact E.
  - exists q0, q, Q, os. split; [exact H1|]. split; [exact H2|]. split; [exact H3|].
    vm_compute in E. injection E as <- <-. reflexivity.
Defined.

(** C2: No request is lost and none is completed twice: when a run ends with a reset of the
    queue, the SRBs that the run handed back to the port driver are exactly those that were
    posted with success, each as often as it was posted. *)
Theorem ioq_requests_conserved {Ctx} Prepare Complete
    (Complete_frame : forall ext s (ctx : Ctx) st ext' s',
       Complete ext s ctx = Some (st, ext', s') ->
       ext_Srb ext' = ext_Srb ext /\ SpdSrbExtension s' = SpdSrbExtension s)
    sizeof_SPD_IOQ ops Stop Q os :
  0 <= sizeof_SPD_IOQ <= PAGE_SIZE - 8 ->
  spec_run false Prepare Complete empty_queue (ops ++ [OpReset Stop]) = Some (Q, os) ->
  exists q0 q, SpdIoqCreate sizeof_SPD_IOQ true = Some (STATUS_SUCCESS, Some q0) /\
    ioq_run false Prepare Complete q0 (ops ++ [OpReset Stop]) = Some (q, os) /\
    concat (zip_with accepted (ops ++ [OpReset Stop]) os) ≡ₚ concat (returned <$> os).
Proof.
  intros Hsz Hrun. destruct (create_abs sizeof_SPD_IOQ Hsz) as (q0 & Hq0 & Ha0).
  destruct (run_abs Prepare Complete Complete_frame _ _ _ _ _ Ha0 Hrun) as (q & Hq & Ha).
  exists q0, q. split_and!; try done.
  destruct (spec_run_conserves Prepare Complete Complete_frame _ _ _ _ empty_queue_stopped Hrun)
    as [Hp _].
  destruct (spec_run_reset Prepare Complete Complete_frame _ _ _ _ _ empty_queue_stopped Hrun) as [E1 E2].
  unfold owned in Hp. rewrite E1, E2 in Hp. simpl in Hp. by rewrite !app_nil_r in Hp.
Qed.

(** The example run, then a reset. *)
Lemma ioq_requests_conserved_witness :
  exists q0 q os, SpdIoqCreate sizeof_SPD_IOQ_64 true = Some (STATUS_SUCCESS, Some q0) /\
    ioq_run false example_Prepare example_Complete q0 (example_run ++ [OpReset true])
      = Some (q, os) /\
    concat (returned <$> os) = [1; 3; 2] /\
    concat (zip_with accepted (example_run ++ [OpReset true]) os) ≡ₚ [1; 3; 2].
Proof.
  destruct (spec_run false example_Prepare example_Complete empty_queue
    (example_run ++ [OpReset true])) as [[Q os]|] eqn:E; [|vm_compute in E; discriminate].
  destruct (ioq_requests_conserved example_Prepare example_Complete example_Complete_frame
    sizeof_SPD_IOQ_64 example_run true Q os) as (q0 & q & H1 & H2 & H3).
  - vm_compute. split; discriminate.
  - exact E.
  - assert (concat (returned <$> os) = [1; 3; 2]) as Hr
      by (vm_compute in E; injection E as <- <-; reflexivity).
    exists q0, q, os. split; [exact H1|]. split; [exact H2|]. split; [exact Hr|].
    rewrite <- Hr. exact H3.
Defined.

(** C3: No wake-up is lost: whatever the interleaving of the threads that post, start, end,
    cancel and reset, when a request is waiting or the queue is stopped, the event is set or a
    thread that has been woken by it has yet to look at the queue. *)
Theorem ioq_no_lost_wakeup {Ctx} Prepare Complete
    (Complete_frame : forall ext s (ctx : Ctx) st ext' s',
       Complete ext s ctx = Some (st, ext', s') ->
       ext_Srb ext' = ext_Srb ext /\ SpdSrbExtension s' = SpdSrbExtension s)
    sizeof_SPD_IOQ q0 q w :
  0 <= sizeof_SPD_IOQ <= PAGE_SIZE - 8 ->
  SpdIoqCreate sizeof_SPD_IOQ true = Some (STATUS_SUCCESS, Some q0) ->
  wait_reach false Prepare Complete q0 (q, w) -> work q ->
  PendingEvent q = 1 \/ (0 < w)%nat.
Proof.
  intros Hsz Hq0 Hr Hw. destruct (create_abs sizeof_SPD_IOQ Hsz) as (q1 & Hq1 & Ha).
  rewrite Hq0 in Hq1. injection Hq1 as <-.
  apply (wait_invariant Prepare Complete Complete_frame q0 empty_queue (q, w)); try done.
  unfold q_work. simpl. naive_solver.
Qed.

(** After a post the event is set; a waiter that takes it is counted. *)
Lemma ioq_no_lost_wakeup_witness :
  exists q0 q1, SpdIoqCreate sizeof_SPD_IOQ_64 true = Some (STATUS_SUCCESS, Some q0) /\
    wait_reach false example_Prepare example_Complete q0 (q1 <| PendingEvent := 0 |>, 1%nat) /\
    (PendingEvent (q1 <| PendingEvent := 0 |>) = 1 \/ (0 < 1)%nat).
Proof.
  destruct (create_abs sizeof_SPD_IOQ_64) as (q0 & Hq0 & Ha); [vm_compute; split; discriminate|].
  destruct (step_abs example_Prepare example_Complete example_Complete_frame q0 empty_queue
    (OpPost 1 (example_srb 6400) ExtZero) Ha eq_refl) as (q1 & Hq1 & Ha1).
  assert (wait_reach false example_Prepare example_Complete q0
            (q1 <| PendingEvent := 0 |>, 1%nat)) as Hr.
  { eapply reach_step; [eapply reach_step; [apply reach_init|]|].
    - eapply (wait_other _ _ _ q0 0%nat empty_queue (OpPost 1 (example_srb 6400) ExtZero) q1 _ Ha
        eq_refl); [discriminate|exact Hq1].
    - apply wait_taken. destruct Ha1 as [_ He _ _ _]. exact He. }
  exists q0, q1. split; [exact Hq0|]. split; [exact Hr|].
  apply (ioq_no_lost_wakeup example_Prepare example_Complete example_Complete_frame
    sizeof_SPD_IOQ_64 q0 _ _ ltac:(vm_compute; split; discriminate) Hq0 Hr).
  right. simpl. destruct Ha1 as [_ _ Hl _ _]. rewrite (links_first _ _ _ Hl). discriminate.
Defined.

(** The relative timeout of a cancellable wait is absolute in effect: however often the
    wait is interrupted by alerts, the timeout that is left is still negative (relative), and
    from the time of the last alert it expires when the original timeout would have. *)
Theorem wait_deadline_preserved Now QuadPart Irp evs Result PTimeout rest :
  QuadPart < 0 -> 0 <= Now -> Now - QuadPart < 2 ^ 63 ->
  (forall t c time, WaitAlerted t c time ∈ evs -> 0 <= time < 2 ^ 63) ->
  SpdQeventCancellableWait Now (Some QuadPart) Irp evs = Some (Result, PTimeout, rest) ->
  exists left, PTimeout = Some left /\ left < 0 /\
    (left = QuadPart \/
     exists t c time, (WaitAlerted t c time ∈ evs) /\ time - left = Now - QuadPart).
Proof.
  intros Hq Hn Ho Hevs. unfold SpdQeventCancellableWait, WaitExpirationTime.
  assert ((0 >? QuadPart) = true) as -> by lia. rewrite u64_small by lia.
  intros Hr. apply (retry_deadline (Now - QuadPart) QuadPart Irp evs Result PTimeout rest);
    try done; lia.
Qed.

(** Two alerts, then the event. *)
Lemma wait_deadline_preserved_witness :
  SpdQeventCancellableWait 1000 (Some (-500)) false
    [WaitAlerted false false 1200; WaitAlerted false true 1300; WaitDummyEntry]
    = Some (STATUS_SUCCESS, Some (-200), []) /\
  exists left, Some (-200) = Some left /\ left < 0 /\
    (left = -500 \/ exists t c time,
       (WaitAlerted t c time ∈
         [WaitAlerted false false 1200; WaitAlerted false true 1300; WaitDummyEntry]) /\
       time - left = 1000 - -500).
Proof.
  split; [reflexivity|].
  apply (wait_deadline_preserved 1000 (-500) false _ STATUS_SUCCESS _ []); try lia.
  - intros t c time Hin. apply list_elem_of_In in Hin. simpl in Hin.
    destruct Hin as [E|[E|[E|[]]]]; try discriminate E; injection E as <- <- <-; lia.
  - reflexivity.
Defined.

(** An SRB that is put back at the head of the queue for its next chunk keeps the hash
    chain pointer of its last time in process: when it is started again the assertion
    [0 == SrbExtension->HashNext] of a checked build fails if another request of the same
    bucket was behind it, although a free build goes on correctly. *)
Theorem ioq_repost_assertion :
  exists q0, SpdIoqCreate sizeof_SPD_IOQ_64 true = Some (STATUS_SUCCESS, Some q0) /\
    let ops := [OpPost 1 (example_srb 6400) ExtZero; OpPost 2 (example_srb 6720) ExtZero;
                OpStart 0; OpStart 0; OpEnd 6720 SRB_STATUS_PENDING; OpStart 0] in
    is_Some (ioq_run false example_Prepare example_Complete q0 ops) /\
    is_Some (ioq_run true example_Prepare example_Complete q0 (take 5 ops)) /\
    ioq_run true example_Prepare example_Complete q0 ops = None.
Proof.
  destruct (SpdIoqCreate sizeof_SPD_IOQ_64 true) as [[st [q0|]]|] eqn:E;
    [|vm_compute in E; discriminate..].
  exists q0. vm_compute in E. injection E as <- <-.
  split; [reflexivity|]. split_and!; vm_compute; [by eexists|by eexists|reflexivity].
Qed.
