(* ===== verification/StgUnit.v ===== *)
(** * The table of storage units: [sys/stgunit.c]

    The device extension holds the slots of the table and, in the model, the pool memory of
    the storage units: a pointer to a unit that is not in [Units] is a null pointer or a
    pointer to freed memory, and following it is [None].  A section of code under the spin
    lock of the extension is one atomic operation; the functions below compose such sections
    and the code between them. *)

From S2P Require Import Prelude Wdk IoctlTypes ListEntry Srb Ioq.

(** ** Data *)

Record SPD_STORAGE_UNIT := mkUnit {
  RefCount : Z;
  StorageUnitParams : SPD_IOCTL_STORAGE_UNIT_PARAMS;
  SerialNumber : list Z;               (* 36 bytes *)
  OwnerProcessId : Z;
  Ioq : option SPD_IOQ;                (* [None] is a null pointer *)
  DeviceObject : Z;
  TransactProcessId : Z
}.

#[export] Instance SPD_STORAGE_UNIT_eta : Eta SPD_STORAGE_UNIT := fun u =>
  mkUnit (RefCount u) (StorageUnitParams u) (SerialNumber u) (OwnerProcessId u) (Ioq u)
    (DeviceObject u) (TransactProcessId u).

Record SPD_DEVICE_EXTENSION := mkDevExt {
  AdapterObject : Z;                   (* the member DeviceObject *)
  StorageUnitCount : Z;
  StorageUnitCapacity : Z;
  StorageUnits : list Z;               (* pointers to units, 0 for a free slot *)
  Units : gmap Z SPD_STORAGE_UNIT      (* the memory of the units *)
}.

#[export] Instance SPD_DEVICE_EXTENSION_eta : Eta SPD_DEVICE_EXTENSION := fun E =>
  mkDevExt (AdapterObject E) (StorageUnitCount E) (StorageUnitCapacity E) (StorageUnits E) (Units E).

(** [(UINT32)-1] *)
Definition NO_BTL : Z := 0xffffffff.

(** What an operation does to the outside: the requests it completes, and whether it tells the
    port driver that the bus has changed. *)
Record effects := mkEffects { eff_completed : list completion; eff_bus_change : bool }.
Definition no_effects : effects := mkEffects [] false.

(** ** Contents of a new unit *)

(** The loop that "left aligns" an ASCII member: from the first byte that is not printable on,
    everything is a space. *)
Fixpoint left_align_loop (Spaces : bool) (l : list Z) : list Z :=
  match l with
  | [] => []
  | P :: l =>
      if Spaces || (32 >? P) || (127 <=? P) then 32 :: left_align_loop true l
      else P :: left_align_loop Spaces l
  end.

Definition left_align (l : list Z) : list Z :=
  match l with
  | P :: _ => if negb (P =? 0) then left_align_loop false l else l
  | [] => []
  end.

(** [%0nx]: the [n] low hexadecimal digits. *)
Definition hex_digit (d : Z) : Z := if d <? 10 then 48 + d else 87 + d.
Fixpoint hex_digits (n : nat) (v : Z) : list Z :=
  match n with
  | O => []
  | S n => hex_digits n (v / 16) ++ [hex_digit (v mod 16)]
  end.

Definition FormatSerialNumber (g : GUID) : list Z :=
  let b i := hex_digits 2 (Data4 g !!! i) in
  hex_digits 8 (Data1 g) ++ [45] ++ hex_digits 4 (Data2 g) ++ [45] ++
  hex_digits 4 (Data3 g) ++ [45] ++ b 0%nat ++ b 1%nat ++ [45] ++
  b 2%nat ++ b 3%nat ++ b 4%nat ++ b 5%nat ++ b 6%nat ++ b 7%nat.

(** The unit before its queue is created. *)
Definition NewStorageUnit (Params : SPD_IOCTL_STORAGE_UNIT_PARAMS) (ProcessId : Z)
    : SPD_STORAGE_UNIT :=
  let Params := Params <| ProductId := left_align (ProductId Params) |> in
  let Params := Params <| ProductRevisionLevel := left_align (ProductRevisionLevel Params) |> in
  mkUnit 1 Params (FormatSerialNumber (Guid Params)) ProcessId None 0 ProcessId.

(** ** Reference counts *)

(** [SpdStorageUnitReferenceByBtl]: the pointer, or 0. *)
Definition SpdStorageUnitReferenceByBtl (E : SPD_DEVICE_EXTENSION) (Btl : Z)
    : option (Z * SPD_DEVICE_EXTENSION) :=
  let B := SPD_IOCTL_BTL_B Btl in
  let T := SPD_IOCTL_BTL_T Btl in
  let L := SPD_IOCTL_BTL_L Btl in
  if negb (0 =? B) || negb (0 =? L) then Some (0, E)
  else
    StorageUnit ← (if StorageUnitCapacity E >? T then StorageUnits E !! Z.to_nat T else Some 0);
    if negb (0 =? StorageUnit) then
      u ← Units E !! StorageUnit;
      let u := u <| RefCount := u32 (RefCount u + 1) |> in
      Some (StorageUnit, E <| Units := <[StorageUnit := u]> (Units E) |>)
    else Some (StorageUnit, E).

(** [SpdStorageUnitDereference]: the last reference deletes the queue and frees the unit. *)
Definition SpdStorageUnitDereference (DBG : bool) (E : SPD_DEVICE_EXTENSION) (StorageUnit : Z)
    : option (SPD_DEVICE_EXTENSION * list completion) :=
  u ← Units E !! StorageUnit;
  let u := u <| RefCount := u32 (RefCount u - 1) |> in
  if 0 =? RefCount u then
    q ← Ioq u;
    cs ← SpdIoqDelete DBG q;
    Some (E <| Units := delete StorageUnit (Units E) |>, cs)
  else Some (E <| Units := <[StorageUnit := u]> (Units E) |>, []).

(** The loop of [SpdStorageUnitReferenceByDevice] over the slots from [I] on. *)
Fixpoint find_by_device (n : nat) (I : nat) (E : SPD_DEVICE_EXTENSION) (Device : Z) : option Z :=
  match n with
  | O => Some 0
  | S n =>
      Unit ← StorageUnits E !! I;
      if 0 =? Unit then find_by_device n (S I) E Device
      else
        u ← Units E !! Unit;
        if Device =? DeviceObject u then Some Unit else find_by_device n (S I) E Device
  end.

Definition SpdStorageUnitReferenceByDevice (E : SPD_DEVICE_EXTENSION) (Device : Z)
    : option (Z * SPD_DEVICE_EXTENSION) :=
  StorageUnit ← find_by_device (Z.to_nat (StorageUnitCapacity E)) 0 E Device;
  if negb (0 =? StorageUnit) then
    u ← Units E !! StorageUnit;
    let u := u <| RefCount := u32 (RefCount u + 1) |> in
    Some (StorageUnit, E <| Units := <[StorageUnit := u]> (Units E) |>)
  else Some (StorageUnit, E).

(** ** [SpdStorageUnitProvision] *)

(** The loop over the slots: a unit with the same GUID, or 0, and the first free address. *)
Fixpoint provision_scan (n I : nat) (E : SPD_DEVICE_EXTENSION) (NewGuid : GUID) (Btl : Z)
    : option (Z * Z) :=
  match n with
  | O => Some (0, Btl)
  | S n =>
      Unit ← StorageUnits E !! I;
      if 0 =? Unit then
        provision_scan n (S I) E NewGuid
          (if NO_BTL =? Btl then SPD_BTL_FROM_INDEX (Z.of_nat I) else Btl)
      else
        u ← Units E !! Unit;
        if decide (NewGuid = Guid (StorageUnitParams u)) then Some (Unit, Btl)
        else provision_scan n (S I) E NewGuid Btl
  end.

(** The locked section: the duplicate unit or 0, the address or [NO_BTL], and the table. *)
Definition provision_locked (E : SPD_DEVICE_EXTENSION) (StorageUnit : Z)
    : option (Z * Z * SPD_DEVICE_EXTENSION) :=
  u ← Units E !! StorageUnit;
  '(DuplicateUnit, Btl) ← provision_scan (Z.to_nat (StorageUnitCapacity E)) 0 E
      (Guid (StorageUnitParams u)) NO_BTL;
  if (0 =? DuplicateUnit) && negb (NO_BTL =? Btl) then
    let Index := Z.to_nat (SPD_INDEX_FROM_BTL Btl) in
    _ ← StorageUnits E !! Index;
    Some (DuplicateUnit, Btl,
          E <| StorageUnits := <[Index := StorageUnit]> (StorageUnits E) |>
            <| StorageUnitCount := u32 (StorageUnitCount E + 1) |>)
  else Some (DuplicateUnit, Btl, E).

(** The code at [exit] for a failed provision. *)
Definition provision_exit (DBG : bool) (E : SPD_DEVICE_EXTENSION) (StorageUnit : Z) (Result : Z)
    : option (Z * Z * SPD_DEVICE_EXTENSION * effects) :=
  u ← Units E !! StorageUnit;
  cs ← match Ioq u with Some q => SpdIoqDelete DBG q | None => Some [] end;
  let E := if negb (0 =? StorageUnit) then E <| Units := delete StorageUnit (Units E) |> else E in
  Some (Result, NO_BTL, E, mkEffects cs false).

(** [AllocUnit] is the pointer that the allocation of the unit returns, [AllocIoq] says whether
    the allocation of its queue succeeds.  The result is the status and [*PBtl]. *)
Definition SpdStorageUnitProvision (DBG : bool) (sizeof_SPD_IOQ : Z) (E : SPD_DEVICE_EXTENSION)
    (Params : SPD_IOCTL_STORAGE_UNIT_PARAMS) (ProcessId : Z) (AllocUnit : Z) (AllocIoq : bool)
    : option (Z * Z * SPD_DEVICE_EXTENSION * effects) :=
  let StorageUnit := AllocUnit in
  if 0 =? StorageUnit then
    provision_exit DBG E StorageUnit STATUS_INSUFFICIENT_RESOURCES
  else
    let u := NewStorageUnit Params ProcessId in
    '(Result, q) ← SpdIoqCreate sizeof_SPD_IOQ AllocIoq;
    let E := E <| Units := <[StorageUnit := u <| Ioq := q |>]> (Units E) |> in
    if negb (NT_SUCCESS Result) then provision_exit DBG E StorageUnit Result
    else
      '(DuplicateUnit, Btl, E) ← provision_locked E StorageUnit;
      if negb (0 =? DuplicateUnit) then
        provision_exit DBG E StorageUnit STATUS_OBJECT_NAME_COLLISION
      else if NO_BTL =? Btl then provision_exit DBG E StorageUnit STATUS_CANNOT_MAKE
      else Some (STATUS_SUCCESS, Btl, E, mkEffects [] true).

(** ** [SpdStorageUnitUnprovision] *)

Fixpoint find_by_guid (n I : nat) (E : SPD_DEVICE_EXTENSION) (G : GUID) : option (Z * nat) :=
  match n with
  | O => Some (0, O)
  | S n =>
      Unit ← StorageUnits E !! I;
      if 0 =? Unit then find_by_guid n (S I) E G
      else
        u ← Units E !! Unit;
        if decide (G = Guid (StorageUnitParams u)) then Some (Unit, I)
        else find_by_guid n (S I) E G
  end.

(** The locked section: the unit that was found, or 0; it is off the table if the process owns
    it.  A null [G] means the slot [Index]. *)
Definition unprovision_locked (E : SPD_DEVICE_EXTENSION) (G : option GUID) (Index : nat)
    (ProcessId : Z) : option (Z * SPD_DEVICE_EXTENSION) :=
  '(StorageUnit, Index) ←
    match G with
    | Some G => find_by_guid (Z.to_nat (StorageUnitCapacity E)) 0 E G
    | None => if StorageUnitCapacity E >? Z.of_nat Index
              then Unit ← StorageUnits E !! Index; Some (Unit, Index)
              else Some (0, Index)
    end;
  if negb (0 =? StorageUnit) then
    u ← Units E !! StorageUnit;
    if ProcessId =? OwnerProcessId u then
      Some (StorageUnit,
            E <| StorageUnitCount := u32 (StorageUnitCount E - 1) |>
              <| StorageUnits := <[Index := 0]> (StorageUnits E) |>)
    else Some (StorageUnit, E)
  else Some (StorageUnit, E).

(** The rest, after the lock is released. *)
Definition unprovision_unlocked (DBG : bool) (E : SPD_DEVICE_EXTENSION) (StorageUnit : Z)
    (ProcessId : Z) : option (Z * SPD_DEVICE_EXTENSION * effects) :=
  if 0 =? StorageUnit then Some (STATUS_OBJECT_NAME_NOT_FOUND, E, no_effects)
  else
    u ← Units E !! StorageUnit;
    if negb (ProcessId =? OwnerProcessId u) then Some (STATUS_ACCESS_DENIED, E, no_effects)
    else
      q ← Ioq u;
      '(q, cs1) ← SpdIoqReset DBG q true;
      let E := E <| Units := <[StorageUnit := u <| Ioq := Some q |>]> (Units E) |> in
      '(E, cs2) ← SpdStorageUnitDereference DBG E StorageUnit;
      Some (STATUS_SUCCESS, E, mkEffects (cs1 ++ cs2) true).

Definition SpdStorageUnitUnprovision (DBG : bool) (E : SPD_DEVICE_EXTENSION) (G : option GUID)
    (Index : nat) (ProcessId : Z) : option (Z * SPD_DEVICE_EXTENSION * effects) :=
  '(StorageUnit, E) ← unprovision_locked E G Index ProcessId;
  unprovision_unlocked DBG E StorageUnit ProcessId.

(** ** The use bitmap, and the end of a process *)

(** [SetFlag(Bitmap[I >> 3], 1 << (I & 7))] and [FlagOn] of the same bit. *)
Definition bitmap_set (Bitmap : list Z) (I : nat) : option (list Z) :=
  let Byte := Z.to_nat (Z.of_nat I ≫ 3) in
  b ← Bitmap !! Byte;
  Some (<[Byte := b .| u8 (1 ≪ (Z.of_nat I .& 7))]> Bitmap).
Definition bitmap_on (Bitmap : list Z) (I : nat) : option bool :=
  b ← Bitmap !! Z.to_nat (Z.of_nat I ≫ 3);
  Some (negb (b .& (1 ≪ (Z.of_nat I .& 7)) =? 0)).

Fixpoint use_bitmap_loop (n I : nat) (E : SPD_DEVICE_EXTENSION) (PProcessId : option Z)
    (Count : Z) (Bitmap : list Z) : option (Z * list Z) :=
  match n with
  | O => Some (Count, Bitmap)
  | S n =>
      if StorageUnitCount E >? Count then
        Unit ← StorageUnits E !! I;
        use ← (if negb (0 =? Unit) then
                 match PProcessId with
                 | None => Some true
                 | Some ProcessId =>
                     u ← Units E !! Unit; Some (ProcessId =? OwnerProcessId u)
                 end
               else Some false);
        if (use : bool) then
          Bitmap ← bitmap_set Bitmap I;
          use_bitmap_loop n (S I) E PProcessId (Count + 1) Bitmap
        else use_bitmap_loop n (S I) E PProcessId Count Bitmap
      else Some (Count, Bitmap)
  end.

Definition SpdStorageUnitGetUseBitmap (E : SPD_DEVICE_EXTENSION) (PProcessId : option Z)
    : option (Z * list Z) :=
  use_bitmap_loop (Z.to_nat (StorageUnitCapacity E)) 0 E PProcessId 0 (replicate 32 0).

(** The loop of the notify routine over the bits from [I] on. *)
Fixpoint notify_loop (n I : nat) (DBG : bool) (E : SPD_DEVICE_EXTENSION) (ProcessId : Z)
    (Count : Z) (Bitmap : list Z) : option (SPD_DEVICE_EXTENSION * list effects) :=
  match n with
  | O => Some (E, [])
  | S n =>
      if 0 <? Count then
        on ← bitmap_on Bitmap I;
        if (on : bool) then
          '(_, E, eff) ← SpdStorageUnitUnprovision DBG E None I ProcessId;
          '(E, effs) ← notify_loop n (S I) DBG E ProcessId (Count - 1) Bitmap;
          Some (E, eff :: effs)
        else notify_loop n (S I) DBG E ProcessId Count Bitmap
      else Some (E, [])
  end.

Definition SpdDeviceExtensionNotifyRoutine (DBG : bool) (E : SPD_DEVICE_EXTENSION)
    (ProcessId0 : Z) (Create : bool) : option (SPD_DEVICE_EXTENSION * list effects) :=
  if Create then Some (E, [])
  else
    let ProcessId := u32 ProcessId0 in
    '(Count, Bitmap) ← SpdStorageUnitGetUseBitmap E (Some ProcessId);
    notify_loop 256 0 DBG E ProcessId Count Bitmap.
