(* ===== verification/StgUnitInv.v ===== *)
(** * The invariant of the table of storage units, and what the operations of [StgUnit] do

    [ext_wf E refs] relates the table, the pool memory and the references [refs] that threads
    hold.  Every operation keeps it and runs without a fault. *)

From S2P Require Import Prelude Wdk IoctlTypes ListEntry Srb Ioq IoqMem IoqSpec StgUnit.

#[local] Set Warnings "-clear-no-such-hyp".

(** ** The invariant *)

Definition used_slots (l : list Z) : nat := length (filter (fun p => p <> 0) l).

(** The references of a unit: those that threads hold, and the table's. *)
Definition references (E : SPD_DEVICE_EXTENSION) (refs : list Z) (p : Z) : nat :=
  length (filter (fun x => x = p) refs) + length (filter (fun x => x = p) (StorageUnits E)).

(** A unit whose members have the values and sizes that a provision gives them. *)
Definition unit_data_wf (u : SPD_STORAGE_UNIT) : Prop :=
  params_wf (StorageUnitParams u) /\ length (SerialNumber u) = 36%nat.

Definition unit_ok (u : SPD_STORAGE_UNIT) : Prop :=
  unit_data_wf u /\ exists q Q, Ioq u = Some q /\ ioq_abs q Q.

Record ext_wf (E : SPD_DEVICE_EXTENSION) (refs : list Z) : Prop := {
  wf_capacity : 0 <= StorageUnitCapacity E <= SPD_IOCTL_STORAGE_UNIT_MAX_CAPACITY;
  wf_length : length (StorageUnits E) = Z.to_nat (StorageUnitCapacity E);
  wf_count : StorageUnitCount E = Z.of_nat (used_slots (StorageUnits E));
  wf_null : Units E !! 0 = None;
  wf_inj : forall i j p, StorageUnits E !! i = Some p -> StorageUnits E !! j = Some p ->
    p <> 0 -> i = j;
  wf_guid : forall p p' u u', p ∈ StorageUnits E -> p' ∈ StorageUnits E ->
    Units E !! p = Some u -> Units E !! p' = Some u' ->
    Guid (StorageUnitParams u) = Guid (StorageUnitParams u') -> p = p';
  wf_live : forall p, p <> 0 -> (is_Some (Units E !! p) <-> (0 < references E refs p)%nat);
  wf_refs : forall p u, Units E !! p = Some u -> RefCount u = Z.of_nat (references E refs p);
  wf_refs_nonnull : 0 ∉ refs;
  wf_few : Z.of_nat (length refs) < 2 ^ 32 - 1;
  wf_units : forall p u, Units E !! p = Some u -> unit_ok u
}.

(** An extension whose table is empty. *)
Definition empty_extension (Capacity : Z) : SPD_DEVICE_EXTENSION :=
  mkDevExt 0 0 Capacity (replicate (Z.to_nat Capacity) 0) ∅.

(** ** Counting *)

Lemma filter_eq_length_insert (l : list Z) (i : nat) (old new p : Z) :
  l !! i = Some old ->
  (length (filter (fun x => x = p) (<[i := new]> l)) + (if decide (old = p) then 1 else 0) =
   length (filter (fun x => x = p) l) + (if decide (new = p) then 1 else 0))%nat.
Proof.
  revert i. induction l as [|x l IH]; intros i Hi; [done|]. destruct i as [|i]; simpl in *.
  - injection Hi as ->. rewrite !filter_cons. repeat case_decide; simpl; lia.
  - rewrite !filter_cons. specialize (IH i Hi). repeat case_decide; simpl in *; lia.
Qed.

Lemma used_slots_insert (l : list Z) (i : nat) (old new : Z) :
  l !! i = Some old ->
  (used_slots (<[i := new]> l) + (if decide (old = 0%Z) then 0 else 1) =
   used_slots l + (if decide (new = 0%Z) then 0 else 1))%nat.
Proof.
  unfold used_slots. revert i. induction l as [|x l IH]; intros i Hi; [done|].
  destruct i as [|i]; simpl in *.
  - injection Hi as ->. rewrite !filter_cons. repeat case_decide; simpl; try lia; done.
  - rewrite !filter_cons. specialize (IH i Hi). repeat case_decide; simpl in *; lia.
Qed.

Lemma filter_eq_pos (l : list Z) p : (0 < length (filter (fun x => x = p) l))%nat <-> p ∈ l.
Proof.
  split.
  - intros H. destruct (filter (fun x => x = p) l) as [|y r] eqn:E; simpl in H; [lia|].
    assert (y ∈ filter (fun x => x = p) l) as Hy by (rewrite E; apply list_elem_of_here).
    by apply list_elem_of_filter in Hy as [-> ?].
  - intros H. destruct (filter (fun x => x = p) l) as [|y r] eqn:E; simpl; [|lia].
    assert (p ∈ filter (fun x => x = p) l) as Hy by (by apply list_elem_of_filter).
    rewrite E in Hy. by apply not_elem_of_nil in Hy.
Qed.

Lemma used_slots_bound l : (used_slots l <= length l)%nat.
Proof. apply length_filter. Qed.

Section Wf.
Context (E : SPD_DEVICE_EXTENSION) (refs : list Z).
Hypothesis Hwf : ext_wf E refs.

Lemma wf_slot_unit i p :
  StorageUnits E !! i = Some p -> p <> 0 -> exists u, Units E !! p = Some u.
Proof.
  intros Hi Hp. apply (wf_live _ _ Hwf p Hp). unfold references.
  apply list_elem_of_lookup_2, filter_eq_pos in Hi. lia.
Qed.

Lemma wf_slot_bound i : (i < Z.to_nat (StorageUnitCapacity E))%nat ->
  exists p, StorageUnits E !! i = Some p.
Proof. intros Hi. apply lookup_lt_is_Some_2. by rewrite (wf_length _ _ Hwf). Qed.

Lemma wf_in_table_once p :
  p <> 0 -> p ∈ StorageUnits E -> length (filter (fun x => x = p) (StorageUnits E)) = 1%nat.
Proof.
  intros Hp Hin. pose proof (wf_inj _ _ Hwf) as Hinj.
  apply list_elem_of_lookup in Hin as [i Hi].
  pose proof (filter_eq_length_insert _ i p 0 p Hi) as Hf.
  rewrite decide_True, decide_False in Hf by done.
  enough (~ (0 < length (filter (fun x => x = p) (<[i := 0%Z]> (StorageUnits E))))%nat) by lia.
  rewrite filter_eq_pos. intros (j & Hj)%list_elem_of_lookup.
  destruct (decide (i = j)) as [->|Hne].
  - apply lookup_lt_Some in Hi. rewrite list_lookup_insert_eq in Hj by done. congruence.
  - rewrite list_lookup_insert_ne in Hj by done. apply Hne. by eapply Hinj.
Qed.
End Wf.

(** ** Changes of the pool and of the table *)

(** A unit's reference count and the references move together. *)
Lemma wf_set_unit E refs refs' p u u' :
  ext_wf E refs -> Units E !! p = Some u -> p <> 0 ->
  StorageUnitParams u' = StorageUnitParams u -> unit_ok u' ->
  (forall x, x <> p -> length (filter (fun y => y = x) refs') =
                       length (filter (fun y => y = x) refs)) ->
  0 ∉ refs' -> Z.of_nat (length refs') < 2 ^ 32 - 1 ->
  RefCount u' = Z.of_nat (references E refs' p) -> (0 < references E refs' p)%nat ->
  ext_wf (E <| Units := <[p := u']> (Units E) |>) refs'.
Proof.
  intros Hwf Hu Hp Hpar Hok Hrefs H0 Hfew Hcnt Hpos.
  destruct Hwf as [W1 W2 W3 W4 W5 W6 W7 W8 W9 W11 W10].
  assert (forall x, x <> p -> references E refs' x = references E refs x) as Hr.
  { intros x Hx. unfold references. by rewrite Hrefs. }
  split; simpl; try done.
  - by rewrite lookup_insert_ne.
  - assert (forall x v, <[p := u']> (Units E) !! x = Some v ->
      exists w, Units E !! x = Some w /\ StorageUnitParams v = StorageUnitParams w) as Hl.
    { intros x v. destruct (decide (x = p)) as [->|].
      - rewrite lookup_insert_eq. intros [= <-]. by exists u.
      - rewrite lookup_insert_ne by done. intros Hv. by exists v. }
    intros x y v w Hx Hy (v' & Hv & Ev)%Hl (w' & Hw & Ew)%Hl HE. rewrite Ev, Ew in HE.
    by eapply (W6 x y v' w').
  - intros x Hx. destruct (decide (x = p)) as [->|Hne].
    + rewrite lookup_insert_eq. split; [done|]. by eexists.
    + rewrite lookup_insert_ne by done. unfold references; simpl. fold (references E refs' x).
      rewrite Hr by done. by apply W7.
  - intros x v. destruct (decide (x = p)) as [->|Hne].
    + rewrite lookup_insert_eq. by intros [= <-].
    + rewrite lookup_insert_ne by done. intros Hv. unfold references; simpl.
      fold (references E refs' x). rewrite Hr by done. by apply W8.
  - intros x v. destruct (decide (x = p)) as [->|Hne].
    + rewrite lookup_insert_eq. by intros [= <-].
    + rewrite lookup_insert_ne by done. apply W10.
Qed.

(** The last reference: the unit is freed. *)
Lemma wf_delete_unit E refs refs' p :
  ext_wf E refs -> p <> 0 ->
  (forall x, x <> p -> length (filter (fun y => y = x) refs') =
                       length (filter (fun y => y = x) refs)) ->
  0 ∉ refs' -> Z.of_nat (length refs') < 2 ^ 32 - 1 -> references E refs' p = 0%nat ->
  ext_wf (E <| Units := delete p (Units E) |>) refs'.
Proof.
  intros Hwf Hp Hrefs H0 Hfew Hz. destruct Hwf as [W1 W2 W3 W4 W5 W6 W7 W8 W9 W11 W10].
  assert (forall x, x <> p -> references E refs' x = references E refs x) as Hr.
  { intros x Hx. unfold references. by rewrite Hrefs. }
  assert (forall x v, delete p (Units E) !! x = Some v -> x <> p /\ Units E !! x = Some v) as Hl.
  { intros x v. destruct (decide (x = p)) as [->|]; [by rewrite lookup_delete_eq|].
    by rewrite lookup_delete_ne. }
  split; simpl; try done.
  - by rewrite lookup_delete_ne.
  - intros x y v w Hx Hy [_ Hv]%Hl [_ Hw]%Hl. by apply (W6 x y v w).
  - intros x Hx. destruct (decide (x = p)) as [->|Hne].
    + rewrite lookup_delete_eq. unfold references in *. simpl. split; [by intros []|lia].
    + rewrite lookup_delete_ne by done. unfold references; simpl. fold (references E refs' x).
      rewrite Hr by done. by apply W7.
  - intros x v [Hne Hv]%Hl. unfold references; simpl. fold (references E refs' x).
    rewrite Hr by done. by apply W8.
  - intros x v [Hne Hv]%Hl. by apply (W10 x).
Qed.

Lemma unit_ok_refs u n : unit_ok u -> unit_ok (u <| RefCount := n |>).
Proof. done. Qed.

Lemma filter_cons_ne (l : list Z) p x :
  x <> p -> length (filter (fun y => y = x) (p :: l)) = length (filter (fun y => y = x) l).
Proof. intros. rewrite filter_cons, decide_False by done. done. Qed.

Lemma references_cons E refs p : references E (p :: refs) p = S (references E refs p).
Proof. unfold references. rewrite filter_cons, decide_True by done. done. Qed.

Lemma references_bound E refs p :
  ext_wf E refs -> p <> 0 -> (references E refs p <= S (length refs))%nat.
Proof.
  intros Hwf Hp. unfold references. pose proof (length_filter (fun x => x = p) refs).
  destruct (decide (p ∈ StorageUnits E)) as [Hin|Hin].
  - rewrite (wf_in_table_once E refs Hwf p Hp Hin). lia.
  - rewrite <- filter_eq_pos in Hin. lia.
Qed.

(** ** [SpdStorageUnitReferenceByBtl], [SpdStorageUnitReferenceByDevice] *)

Lemma add_reference E refs p u :
  ext_wf E refs -> Units E !! p = Some u -> p <> 0 -> Z.of_nat (length refs) < 2 ^ 32 - 2 ->
  ext_wf (E <| Units := <[p := u <| RefCount := u32 (RefCount u + 1) |>]> (Units E) |>) (p :: refs).
Proof.
  intros Hwf Hu Hp Hlen. pose proof (references_bound E refs p Hwf Hp).
  eapply wf_set_unit; try done.
  - apply unit_ok_refs. by eapply wf_units.
  - intros x Hx. by apply filter_cons_ne.
  - apply not_elem_of_cons. split; [done|]. apply Hwf.
  - cbn [length]. lia.
  - change (u32 (RefCount u + 1) = Z.of_nat (references E (p :: refs) p)).
    rewrite references_cons, (wf_refs _ _ Hwf p u Hu), u32_small; lia.
  - rewrite references_cons. lia.
Qed.

Lemma reference_by_btl_wf E refs Btl :
  ext_wf E refs -> Z.of_nat (length refs) < 2 ^ 32 - 2 ->
  exists p E', SpdStorageUnitReferenceByBtl E Btl = Some (p, E') /\
    ((p = 0 /\ E' = E) \/ (p <> 0 /\ p ∈ StorageUnits E /\ is_Some (Units E' !! p) /\
                           ext_wf E' (p :: refs))).
Proof.
  intros Hwf Hlen. unfold SpdStorageUnitReferenceByBtl.
  destruct (_ || _); [eexists _, _; eauto|].
  destruct (StorageUnitCapacity E >? SPD_IOCTL_BTL_T Btl) eqn:HT; opt; cycle 1.
  { rewrite Z.eqb_refl. cbn [negb]. eexists _, _; eauto. }
  zify_bools. pose proof (index_from_btl_bound Btl) as Hb. unfold SPD_INDEX_FROM_BTL in Hb.
  destruct (wf_slot_bound E refs Hwf (Z.to_nat (SPD_IOCTL_BTL_T Btl))) as [p Hp]; [blia|].
  rewrite Hp. opt. destruct (Z.eqb_spec 0 p) as [<-|Hne]; cbn [negb]; [eexists _, _; eauto|].
  destruct (wf_slot_unit E refs Hwf _ _ Hp ltac:(done)) as [u Hu]. rewrite Hu. opt.
  eexists p, _. split; [done|]. right. split_and!; [done| | |].
  - by eapply list_elem_of_lookup_2.
  - simpl. rewrite lookup_insert_eq. by eexists.
  - by apply add_reference.
Qed.

Lemma find_by_device_wf E refs Device n I :
  ext_wf E refs -> (I + n <= Z.to_nat (StorageUnitCapacity E))%nat ->
  exists p, find_by_device n I E Device = Some p /\
    (p = 0 \/ p <> 0 /\ exists i u, StorageUnits E !! i = Some p /\ Units E !! p = Some u /\
                                   DeviceObject u = Device).
Proof.
  intros Hwf. revert I. induction n as [|n IH]; intros I Hn; simpl; [eauto|].
  destruct (wf_slot_bound E refs Hwf I) as [p Hp]; [lia|]. rewrite Hp. simpl.
  destruct (Z.eqb_spec 0 p) as [<-|Hne]; [apply IH; lia|].
  destruct (wf_slot_unit E refs Hwf _ _ Hp ltac:(done)) as [u Hu]. rewrite Hu. simpl.
  destruct (Z.eqb_spec Device (DeviceObject u)) as [->|]; [|apply IH; lia].
  exists p. split; [done|]. right. split; [done|]. eauto.
Qed.

Lemma reference_by_device_wf E refs Device :
  ext_wf E refs -> Z.of_nat (length refs) < 2 ^ 32 - 2 ->
  exists p E', SpdStorageUnitReferenceByDevice E Device = Some (p, E') /\
    ((p = 0 /\ E' = E) \/ (p <> 0 /\ p ∈ StorageUnits E /\ ext_wf E' (p :: refs))).
Proof.
  intros Hwf Hlen. unfold SpdStorageUnitReferenceByDevice.
  destruct (find_by_device_wf E refs Device (Z.to_nat (StorageUnitCapacity E)) 0 Hwf)
    as (p & -> & [->|(Hne & i & u & Hi & Hu & HD)]); [lia|..]; opt.
  - rewrite Z.eqb_refl. eexists _, _; eauto.
  - rewrite (proj2 (Z.eqb_neq 0 p)) by done. cbn [negb]. rewrite Hu. opt.
    eexists p, _. split; [done|]. right. split_and!; [done| |].
    + by eapply list_elem_of_lookup_2.
    + by apply add_reference.
Qed.

(** ** [SpdStorageUnitDereference] *)

Lemma delete_ok DBG q Q : ioq_abs q Q ->
  SpdIoqDelete DBG q = Some (q_reset Q false).2.
Proof.
  intros Ha. unfold SpdIoqDelete. destruct (reset_abs DBG q Q false Ha) as (q' & -> & _). done.
Qed.

Lemma dereference_wf DBG E refs p :
  ext_wf E (p :: refs) ->
  exists E' cs, SpdStorageUnitDereference DBG E p = Some (E', cs) /\ ext_wf E' refs /\
    StorageUnits E' = StorageUnits E /\ StorageUnitCapacity E' = StorageUnitCapacity E /\
    (forall x, x <> p -> Units E' !! x = Units E !! x).
Proof.
  intros Hwf. assert (p <> 0 /\ 0 ∉ refs) as [Hp H0].
  { pose proof (wf_refs_nonnull _ _ Hwf) as H0. apply not_elem_of_cons in H0. naive_solver. }
  destruct (proj2 (wf_live _ _ Hwf p Hp)) as [u Hu]; [rewrite references_cons; lia|].
  pose proof (wf_refs _ _ Hwf p u Hu) as Hr. rewrite references_cons in Hr.
  unfold SpdStorageUnitDereference. rewrite Hu. simpl.
  pose proof (references_bound _ _ p Hwf Hp) as Hb. rewrite references_cons in Hb.
  pose proof (wf_few _ _ Hwf) as Hfew. cbn [length] in Hb, Hfew.
  rewrite Hr. replace (Z.of_nat (S (references E refs p)) - 1) with
    (Z.of_nat (references E refs p)) by lia. rewrite u32_small by lia.
  destruct (Z.eqb_spec 0 (Z.of_nat (references E refs p))) as [Hz|Hz].
  - destruct (wf_units _ _ Hwf p u Hu) as (_ & q & Q & Hq & Ha). rewrite Hq. simpl.
    rewrite (delete_ok DBG q Q Ha). simpl. eexists _, _. split; [done|]. split_and!; try done.
    + apply (wf_delete_unit E (p :: refs)); try done.
      * intros x Hx. symmetry. by apply filter_cons_ne.
      * lia.
      * lia.
    + intros x Hx. simpl. by apply lookup_delete_ne.
  - eexists _, _. split; [done|]. split_and!; try done.
    + apply (wf_set_unit E (p :: refs) refs p u); try done.
      * apply unit_ok_refs. by eapply wf_units.
      * intros x Hx. symmetry. by apply filter_cons_ne.
      * lia.
      * lia.
    + intros x Hx. simpl. by apply lookup_insert_ne.
Qed.

(** ** A reference moves between a thread and the table *)

Lemma references_slot E refs refs' i old new p :
  StorageUnits E !! i = Some old ->
  (references (E <| StorageUnits := <[i := new]> (StorageUnits E) |>) refs' p
     + (if decide (old = p) then 1 else 0) + length (filter (fun x => x = p) refs) =
   references E refs p
     + (if decide (new = p) then 1 else 0) + length (filter (fun x => x = p) refs'))%nat.
Proof.
  intros Hi. unfold references. simpl. pose proof (filter_eq_length_insert _ i old new p Hi). lia.
Qed.

Lemma references_same_table E E' refs p :
  StorageUnits E' = StorageUnits E -> references E' refs p = references E refs p.
Proof. unfold references. by intros ->. Qed.

(** The table takes over the reference to a unit. *)
Lemma wf_put_slot E refs a u (i : nat) :
  ext_wf E (a :: refs) -> Units E !! a = Some u -> a ∉ StorageUnits E ->
  StorageUnits E !! i = Some 0 ->
  (forall p v, p ∈ StorageUnits E -> Units E !! p = Some v ->
     Guid (StorageUnitParams v) <> Guid (StorageUnitParams u)) ->
  ext_wf (E <| StorageUnits := <[i := a]> (StorageUnits E) |>
            <| StorageUnitCount := u32 (StorageUnitCount E + 1) |>) refs.
Proof.
  intros Hwf Hu Ha Hi Hguid. destruct Hwf as [W1 W2 W3 W4 W5 W6 W7 W8 W9 W11 W10].
  apply not_elem_of_cons in W9 as [Hz W9]. pose proof (lookup_lt_Some _ _ _ Hi) as Hlt.
  pose proof (used_slots_insert _ i 0 a Hi) as Huse. rewrite decide_True, decide_False in Huse by done.
  assert (forall p, p <> 0 -> references (E <| StorageUnits := <[i := a]> (StorageUnits E) |>
            <| StorageUnitCount := u32 (StorageUnitCount E + 1) |>) refs p =
            references E (a :: refs) p) as Hr.
  { intros p Hp. pose proof (references_slot E (a :: refs) refs i 0 a p Hi) as Hs.
    rewrite (decide_False (P := 0 = p)) in Hs by congruence.
    rewrite filter_cons in Hs. rewrite (references_same_table (E <| StorageUnits :=
      <[i := a]> (StorageUnits E) |>)) by done. repeat case_decide; simpl in Hs |- *; try done; lia. }
  assert (forall p, p ∈ <[i := a]> (StorageUnits E) -> p = a \/ p ∈ StorageUnits E) as Hin.
  { intros p (j & Hj)%list_elem_of_lookup. destruct (decide (i = j)) as [->|].
    - rewrite list_lookup_insert_eq in Hj by done. left. congruence.
    - rewrite list_lookup_insert_ne in Hj by done. right. by eapply list_elem_of_lookup_2. }
  split; simpl; try done.
  - by rewrite length_insert.
  - pose proof (used_slots_bound (<[i := a]> (StorageUnits E))). rewrite length_insert in *.
    unfold SPD_IOCTL_STORAGE_UNIT_MAX_CAPACITY in *. rewrite u32_small; lia.
  - intros j k p. destruct (decide (i = j)) as [->|], (decide (j = k)) as [->|]; try done.
    + rewrite list_lookup_insert_eq, list_lookup_insert_ne by done. intros [= <-] Hk _.
      by apply list_elem_of_lookup_2 in Hk.
    + destruct (decide (i = k)) as [->|].
      * rewrite list_lookup_insert_eq, list_lookup_insert_ne by done. intros Hj [= <-] _.
        by apply list_elem_of_lookup_2 in Hj.
      * rewrite !list_lookup_insert_ne by done. apply W5.
  - intros p p' v v' [->|Hp]%Hin [->|Hp']%Hin Hv Hv' HE; simplify_eq; try done.
    + by destruct (Hguid p' v' Hp' Hv').
    + by destruct (Hguid p v Hp Hv).
    + by apply (W6 p p' v v').
  - intros p Hp. rewrite Hr by done. by apply W7.
  - intros p v Hv. rewrite Hr; [by apply W8|]. intros ->. congruence.
  - cbn [length] in W11. lia.
Qed.

(** A thread takes over the table's reference. *)
Lemma wf_clear_slot E refs p (i : nat) :
  ext_wf E refs -> StorageUnits E !! i = Some p -> p <> 0 ->
  Z.of_nat (length refs) < 2 ^ 32 - 2 ->
  ext_wf (E <| StorageUnitCount := u32 (StorageUnitCount E - 1) |>
            <| StorageUnits := <[i := 0]> (StorageUnits E) |>) (p :: refs).
Proof.
  intros Hwf Hi Hz Hlen. destruct Hwf as [W1 W2 W3 W4 W5 W6 W7 W8 W9 W11 W10].
  pose proof (lookup_lt_Some _ _ _ Hi) as Hlt.
  pose proof (used_slots_insert _ i p 0 Hi) as Huse. rewrite decide_False, decide_True in Huse by done.
  assert (forall x, x <> 0 -> references (E <| StorageUnitCount := u32 (StorageUnitCount E - 1) |>
            <| StorageUnits := <[i := 0]> (StorageUnits E) |>) (p :: refs) x =
            references E refs x) as Hr.
  { intros x Hx. pose proof (references_slot E refs (p :: refs) i p 0 x Hi) as Hs.
    rewrite (decide_False (P := 0 = x)) in Hs by congruence.
    rewrite filter_cons in Hs. rewrite (references_same_table (E <| StorageUnits :=
      <[i := 0]> (StorageUnits E) |>)) by done. repeat case_decide; simpl in Hs |- *; try done; lia. }
  assert (forall x, x ∈ <[i := 0]> (StorageUnits E) -> x = 0 \/ x ∈ StorageUnits E) as Hin.
  { intros x (j & Hj)%list_elem_of_lookup. destruct (decide (i = j)) as [->|].
    - rewrite list_lookup_insert_eq in Hj by done. left. congruence.
    - rewrite list_lookup_insert_ne in Hj by done. right. by eapply list_elem_of_lookup_2. }
  split; simpl; try done.
  - by rewrite length_insert.
  - pose proof (used_slots_bound (StorageUnits E)).
    unfold SPD_IOCTL_STORAGE_UNIT_MAX_CAPACITY in *. rewrite u32_small; lia.
  - intros j k x. destruct (decide (i = j)) as [<-|], (decide (i = k)) as [<-|]; try done.
    + rewrite list_lookup_insert_eq by done. intros [= <-]. done.
    + intros _. rewrite list_lookup_insert_eq by done. intros [= <-]. done.
    + rewrite !list_lookup_insert_ne by done. apply W5.
  - intros x x' v v' [->|Hx]%Hin [->|Hx']%Hin Hv Hv' HE; simplify_eq; try done.
    by apply (W6 x x' v v').
  - intros x Hx. rewrite Hr by done. by apply W7.
  - intros x v Hv. rewrite Hr; [by apply W8|]. intros ->. congruence.
  - apply not_elem_of_cons. done.
  - lia.
Qed.

(** A new unit: the thread that makes it holds its reference. *)
Lemma wf_new_unit E refs a u :
  ext_wf E refs -> Units E !! a = None -> a <> 0 -> Z.of_nat (length refs) < 2 ^ 32 - 2 ->
  RefCount u = 1 -> unit_ok u ->
  ext_wf (E <| Units := <[a := u]> (Units E) |>) (a :: refs) /\ a ∉ StorageUnits E.
Proof.
  intros Hwf Ha Hz Hlen Hu Hok. pose proof Hwf as [W1 W2 W3 W4 W5 W6 W7 W8 W9 W11 W10].
  assert (references E refs a = 0%nat) as Hr0.
  { destruct (decide (references E refs a = 0)%nat) as [|Hne]; [done|].
    destruct (proj2 (W7 a Hz)) as [? ?]; [lia|congruence]. }
  assert (a ∉ StorageUnits E) as Hin.
  { intros Hin%filter_eq_pos. unfold references in Hr0. lia. }
  split; [|done].
  assert (forall x, x <> a -> references (E <| Units := <[a := u]> (Units E) |>) (a :: refs) x =
                      references E refs x) as Hr.
  { intros x Hx. unfold references. by rewrite filter_cons_ne. }
  assert (forall x, x ∈ StorageUnits E -> x <> a) as Hne by by intros x Hx ->.
  split; simpl; try done.
  - by rewrite lookup_insert_ne.
  - intros x x' v v' Hx Hx'. rewrite !lookup_insert_ne by (apply not_eq_sym, Hne; done). by apply W6.
  - intros x Hx. destruct (decide (x = a)) as [->|Hxa].
    + rewrite lookup_insert_eq, references_cons. split; [lia|by eexists].
    + rewrite lookup_insert_ne, Hr by done. by apply W7.
  - intros x v. destruct (decide (x = a)) as [->|Hxa].
    + rewrite lookup_insert_eq, references_cons. intros [= <-].
      rewrite (references_same_table E) by done. rewrite Hu. lia.
    + rewrite lookup_insert_ne, Hr by done. apply W8.
  - by apply not_elem_of_cons.
  - lia.
  - intros x v. destruct (decide (x = a)) as [->|Hxa].
    + rewrite lookup_insert_eq. by intros [= <-].
    + rewrite lookup_insert_ne by done. apply W10.
Qed.

(** ** [SpdStorageUnitProvision] *)

Lemma left_align_loop_length b l : length (left_align_loop b l) = length l.
Proof. revert b. induction l as [|P l IH]; intros b; simpl; [done|]. case_match; simpl; by rewrite IH. Qed.

Lemma left_align_length l : length (left_align l) = length l.
Proof. destruct l; [done|]. unfold left_align. case_match; [apply left_align_loop_length|done]. Qed.

Lemma hex_digits_length n v : length (hex_digits n v) = n.
Proof. revert v. induction n as [|n IH]; intros v; simpl; [done|]. rewrite length_app, IH. simpl. lia. Qed.

Lemma serial_number_length g : length (FormatSerialNumber g) = 36%nat.
Proof. unfold FormatSerialNumber. cbv zeta. by rewrite !length_app, !hex_digits_length. Qed.

Lemma new_unit_params Params pid :
  params_wf Params -> unit_data_wf (NewStorageUnit Params pid).
Proof.
  intros []. split; [|apply serial_number_length].
  split; simpl; rewrite ?left_align_length; done.
Qed.

(** Some unit of the table has the GUID. *)
Definition has_guid (E : SPD_DEVICE_EXTENSION) (G : GUID) : Prop :=
  exists i p u, StorageUnits E !! i = Some p /\ p <> 0 /\ Units E !! p = Some u /\
    Guid (StorageUnitParams u) = G.

(** The slot is the first free one from [I] on, below [N]. *)
Definition first_free (E : SPD_DEVICE_EXTENSION) (I N i : nat) : Prop :=
  (I <= i < N)%nat /\ StorageUnits E !! i = Some 0 /\
  forall j, (I <= j < i)%nat -> StorageUnits E !! j <> Some 0.

Definition no_free (E : SPD_DEVICE_EXTENSION) (I N : nat) : Prop :=
  forall j, (I <= j < N)%nat -> StorageUnits E !! j <> Some 0.

Lemma provision_scan_spec E refs G n I Btl :
  ext_wf E refs -> (I + n = Z.to_nat (StorageUnitCapacity E))%nat ->
  exists d b, provision_scan n I E G Btl = Some (d, b) /\
    ((d <> 0 /\ has_guid E G) \/
     (d = 0 /\
      (forall i p u, (I <= i)%nat -> StorageUnits E !! i = Some p -> p <> 0 ->
         Units E !! p = Some u -> Guid (StorageUnitParams u) <> G) /\
      (if NO_BTL =? Btl
       then (b = NO_BTL /\ no_free E I (I + n)) \/
            exists i, first_free E I (I + n) i /\ b = SPD_BTL_FROM_INDEX (Z.of_nat i)
       else b = Btl))).
Proof.
  intros Hwf. revert I Btl. induction n as [|n IH]; intros I Btl Hn.
  - simpl. exists 0, Btl. split; [done|]. right. split; [done|]. split.
    + intros i p u Hi Hp. apply lookup_lt_Some in Hp. rewrite (wf_length _ _ Hwf) in Hp. lia.
    + destruct (Z.eqb_spec NO_BTL Btl) as [<-|]; [|done]. left. split; [done|].
      intros j Hj. lia.
  - cbn [provision_scan]. destruct (wf_slot_bound E refs Hwf I) as [p Hp]; [lia|].
    rewrite Hp. opt. destruct (Z.eqb_spec 0 p) as [<-|Hne].
    + destruct (IH (S I) (if NO_BTL =? Btl then SPD_BTL_FROM_INDEX (Z.of_nat I) else Btl))
        as (d & b & -> & Hd); [lia|].
      exists d, b. split; [done|]. destruct Hd as [Hd|(-> & Hg & Hb)]; [by left|].
      right. split; [done|]. split.
      * intros i q u Hi Hq Hqz. destruct (decide (i = I)) as [->|]; [congruence|].
        apply (Hg i q u); [lia|done|done].
      * pose proof (wf_capacity _ _ Hwf) as Hcap.
        unfold SPD_IOCTL_STORAGE_UNIT_MAX_CAPACITY in Hcap.
        destruct (Z.eqb_spec NO_BTL Btl) as [<-|Hbtl].
        -- rewrite btl_from_index_shift in Hb by blia.
           rewrite (proj2 (Z.eqb_neq _ _)) in Hb by (unfold NO_BTL; lia).
           right. exists I. rewrite btl_from_index_shift by blia.
           split; [|done]. split; [lia|]. split; [done|]. intros j Hj. lia.
        -- by rewrite (proj2 (Z.eqb_neq NO_BTL Btl)) in Hb by done.
    + destruct (wf_slot_unit E refs Hwf _ _ Hp ltac:(done)) as [u Hu]. rewrite Hu. opt.
      case_decide as HG.
      * exists p, Btl. split; [done|]. left. split; [done|]. exists I, p, u. auto.
      * destruct (IH (S I) Btl) as (d & b & -> & Hd); [lia|].
        exists d, b. split; [done|]. destruct Hd as [Hd|(-> & Hg & Hb)]; [by left|].
        right. split; [done|]. split.
        -- intros i q v Hi Hq Hqz Hv. destruct (decide (i = I)) as [->|]; [congruence|].
           apply (Hg i q v); [lia|done..].
        -- destruct (NO_BTL =? Btl); [|done]. unfold no_free, first_free in *.
           assert (forall j, (I <= j)%nat -> j <> I -> (S I <= j)%nat) as HS by lia.
           destruct Hb as [[-> Hnf]|(i & (Hr & Hi0 & Hf) & ->)];
             [left; split; [done|]|right; exists i; split; [|done]].
           ++ intros j Hj. destruct (decide (j = I)) as [->|]; [congruence|]. apply Hnf. lia.
           ++ split; [lia|]. split; [done|]. intros j Hj.
              destruct (decide (j = I)) as [->|]; [congruence|]. apply Hf. lia.
Qed.

(** The result of a provision whose allocations succeed, in terms of the table before it. *)
Definition provision_result (E : SPD_DEVICE_EXTENSION) (u : SPD_STORAGE_UNIT) (a : Z)
    (Result Btl : Z) (E' : SPD_DEVICE_EXTENSION) (eff : effects) : Prop :=
  let G := Guid (StorageUnitParams u) in
  let N := Z.to_nat (StorageUnitCapacity E) in
  (Result = STATUS_OBJECT_NAME_COLLISION /\ has_guid E G /\ Btl = NO_BTL /\ E' = E /\
     eff = no_effects) \/
  (Result = STATUS_CANNOT_MAKE /\ ~ has_guid E G /\ no_free E 0 N /\ Btl = NO_BTL /\ E' = E /\
     eff = no_effects) \/
  (Result = STATUS_SUCCESS /\ ~ has_guid E G /\ eff = mkEffects [] true /\
     exists i q, first_free E 0 N i /\ Btl = SPD_BTL_FROM_INDEX (Z.of_nat i) /\
       ioq_abs q (mkQueue false false [] []) /\
       StorageUnits E' = <[i := a]> (StorageUnits E) /\
       Units E' = <[a := u <| Ioq := Some q |>]> (Units E)).

Lemma provision_exit_new DBG (E : SPD_DEVICE_EXTENSION) a u q Q r :
  Units E !! a = None -> a <> 0 -> Ioq u = Some q -> ioq_abs q Q ->
  q_pending Q = [] -> q_process Q = [] ->
  provision_exit DBG (E <| Units := <[a := u]> (Units E) |>) a r =
    Some (r, NO_BTL, E, no_effects).
Proof.
  intros Ha Hz Hq Habs Hp Hr. unfold provision_exit. simpl. rewrite lookup_insert_eq. simpl.
  rewrite Hq, (delete_ok DBG q Q Habs). simpl. rewrite (proj2 (Z.eqb_neq 0 a)) by done. simpl.
  rewrite delete_insert_id by done. unfold q_reset. rewrite Hp, Hr.
  destruct E; simpl. by destruct (q_stopped Q).
Qed.

Lemma provision_spec DBG sizeof_SPD_IOQ E refs Params pid a :
  ext_wf E refs -> params_wf Params -> 0 <= sizeof_SPD_IOQ <= PAGE_SIZE - 8 ->
  a <> 0 -> Units E !! a = None -> Z.of_nat (length refs) < 2 ^ 32 - 2 ->
  exists r btl E' eff,
    SpdStorageUnitProvision DBG sizeof_SPD_IOQ E Params pid a true = Some (r, btl, E', eff) /\
    ext_wf E' refs /\ provision_result E (NewStorageUnit Params pid) a r btl E' eff.
Proof.
  intros Hwf Hpar Hsz Ha Hfresh Hlen. unfold SpdStorageUnitProvision, provision_result.
  rewrite (proj2 (Z.eqb_neq 0 a)) by done.
  destruct (create_abs sizeof_SPD_IOQ Hsz) as (q & -> & Habs). opt.
  set (u := NewStorageUnit Params pid). set (u' := u <| Ioq := Some q |>).
  set (E1 := E <| Units := <[a := u']> (Units E) |>).
  change (negb (NT_SUCCESS STATUS_SUCCESS)) with false. cbv iota.
  destruct (wf_new_unit E refs a u' Hwf Hfresh Ha Hlen) as [Hwf1 Hin]; [done| |].
  { split; [by apply new_unit_params|]. by exists q, (mkQueue false false [] []). }
  unfold provision_locked. assert (Units E1 !! a = Some u') as Hu by apply lookup_insert_eq.
  rewrite Hu. opt.
  assert (forall i p v, StorageUnits E !! i = Some p -> p <> 0 ->
            (Units E1 !! p = Some v <-> Units E !! p = Some v)) as Hold.
  { intros i p v Hi Hp. subst E1. simpl. rewrite lookup_insert_ne; [done|].
    intros ->. by apply list_elem_of_lookup_2 in Hi. }
  assert (forall G, has_guid E1 G <-> has_guid E G) as Hhas.
  { intros G. split; intros (i & p & v & Hi & Hp & Hv & HG); exists i, p, v;
      split_and!; try done; by apply (Hold i p v). }
  destruct (provision_scan_spec E1 _ (Guid (StorageUnitParams u')) (Z.to_nat (StorageUnitCapacity E1))
    0 NO_BTL Hwf1 eq_refl) as (d & b & -> & Hd). opt.
  destruct Hd as [(Hd & Hg)|(-> & Hg & Hb)].
  - rewrite (proj2 (Z.eqb_neq 0 d)) by done. cbn [andb negb]. opt.
    rewrite (proj2 (Z.eqb_neq 0 d)) by done. cbn [negb].
    rewrite (provision_exit_new DBG E a u' q _ _ Hfresh Ha eq_refl Habs) by done.
    eexists _, _, _, _. split; [done|]. split; [done|]. left. split_and!; try done.
    by apply Hhas.
  - assert (~ has_guid E (Guid (StorageUnitParams u'))) as Hng.
    { intros (i & p & v & Hi & Hp & Hv & HG). apply (Hg i p v); try done; [lia|].
      by apply (Hold i p v). }
    rewrite Z.eqb_refl in Hb |- *. destruct Hb as [[-> Hnf]|(i & Hff & ->)].
    + rewrite Z.eqb_refl. cbn [andb negb]. opt. rewrite Z.eqb_refl. cbn [negb].
      rewrite (provision_exit_new DBG E a u' q _ _ Hfresh Ha eq_refl Habs) by done.
      eexists _, _, _, _. split; [done|]. split; [done|]. right. left. done.
    + destruct Hff as (Hr & Hi0 & Hf). pose proof (wf_capacity _ _ Hwf) as Hcap.
      unfold SPD_IOCTL_STORAGE_UNIT_MAX_CAPACITY in Hcap.
      assert (StorageUnitCapacity E1 = StorageUnitCapacity E) as HcE by done.
      rewrite index_from_btl by blia.
      rewrite (btl_from_index_shift (Z.of_nat i)) by blia.
      rewrite (proj2 (Z.eqb_neq NO_BTL _)) by (unfold NO_BTL; lia). cbn [andb negb].
      rewrite Nat2Z.id, Hi0. opt. rewrite Z.eqb_refl. cbn [negb].
      rewrite (proj2 (Z.eqb_neq NO_BTL _)) by (unfold NO_BTL; lia).
      eexists _, _, _, _. split; [done|]. split.
      * apply (wf_put_slot E1 refs a u' i); try done.
        intros p v (j & Hj)%list_elem_of_lookup Hv HG.
        assert (p <> 0) as Hpz by
          (intros ->; assert (Units E1 !! 0 = None) by exact (wf_null _ _ Hwf1); congruence).
        apply Hng. exists j, p, v. split_and!; try done. by apply (Hold j p v).
      * right. right. split_and!; try done. exists i, q.
        rewrite btl_from_index_shift by blia. split_and!; done.
Qed.

(** ** [SpdStorageUnitUnprovision] *)

(** The unit that a call means: by GUID, or by slot. *)
Definition target (E : SPD_DEVICE_EXTENSION) (G : option GUID) (Index i : nat) (p : Z) : Prop :=
  StorageUnits E !! i = Some p /\ p <> 0 /\
  match G with
  | Some G => exists u, Units E !! p = Some u /\ Guid (StorageUnitParams u) = G
  | None => i = Index
  end.

Lemma find_by_guid_spec E refs G n I :
  ext_wf E refs -> (I + n = Z.to_nat (StorageUnitCapacity E))%nat ->
  exists p i, find_by_guid n I E G = Some (p, i) /\
    ((p = 0 /\ forall j q Index, (I <= j)%nat -> ~ target E (Some G) Index j q) \/
     (p <> 0 /\ forall Index, target E (Some G) Index i p)).
Proof.
  intros Hwf. revert I. induction n as [|n IH]; intros I Hn.
  - simpl. exists 0, 0%nat. split; [done|]. left. split; [done|].
    intros j q Index Hj (Hq & _). apply lookup_lt_Some in Hq. rewrite (wf_length _ _ Hwf) in Hq. lia.
  - cbn [find_by_guid]. destruct (wf_slot_bound E refs Hwf I) as [p Hp]; [lia|].
    rewrite Hp. opt.
    assert ((exists q i, find_by_guid n (S I) E G = Some (q, i) /\
      ((q = 0 /\ forall j q Index, (S I <= j)%nat -> ~ target E (Some G) Index j q) \/
       (q <> 0 /\ forall Index, target E (Some G) Index i q))) ->
      (forall q Index, ~ target E (Some G) Index I q) ->
      exists q i, find_by_guid n (S I) E G = Some (q, i) /\
      ((q = 0 /\ forall j q Index, (I <= j)%nat -> ~ target E (Some G) Index j q) \/
       (q <> 0 /\ forall Index, target E (Some G) Index i q))) as Hstep.
    { intros (q & i & Hf & Hd) Hno. exists q, i. split; [done|].
      destruct Hd as [[Hq Hd]|Hd]; [left|by right]. split; [done|]. intros j r Index Hj.
      destruct (decide (j = I)) as [->|]; [apply Hno|apply Hd; lia]. }
    destruct (Z.eqb_spec 0 p) as [<-|Hne].
    + apply Hstep; [apply IH; lia|]. intros q Index (Hq & Hz & _). congruence.
    + destruct (wf_slot_unit E refs Hwf _ _ Hp ltac:(done)) as [u Hu]. rewrite Hu. opt.
      case_decide as HG.
      * exists p, I. split; [done|]. right. split; [done|]. intros Index. split_and!; try done.
        by exists u.
      * apply Hstep; [apply IH; lia|]. intros q Index (Hq & Hz & v & Hv & HE). congruence.
Qed.

Lemma unprovision_target E refs G Index :
  ext_wf E refs ->
  exists p i, (match G with
    | Some G => find_by_guid (Z.to_nat (StorageUnitCapacity E)) 0 E G
    | None => if StorageUnitCapacity E >? Z.of_nat Index
              then Unit ← StorageUnits E !! Index; Some (Unit, Index)
              else Some (0, Index)
    end) = Some (p, i) /\
    ((p = 0 /\ forall j q, ~ target E G Index j q) \/ (p <> 0 /\ target E G Index i p)).
Proof.
  intros Hwf. destruct G as [G|].
  - destruct (find_by_guid_spec E refs G (Z.to_nat (StorageUnitCapacity E)) 0 Hwf eq_refl)
      as (p & i & Hf & Hd). exists p, i. split; [done|].
    destruct Hd as [[-> Hd]|[Hne Hd]]; [left|by right]. split; [done|]. intros j q. apply Hd. lia.
  - destruct (StorageUnitCapacity E >? Z.of_nat Index) eqn:Hc; zify_bools.
    + destruct (wf_slot_bound E refs Hwf Index) as [p Hp]; [lia|]. rewrite Hp. opt.
      exists p, Index. split; [done|]. destruct (decide (p = 0)) as [->|]; [left|by right].
      split; [done|]. intros j q (Hq & Hz & ->). congruence.
    + exists 0, Index. split; [done|]. left. split; [done|].
      intros j q (Hq & Hz & ->). apply lookup_lt_Some in Hq.
      rewrite (wf_length _ _ Hwf) in Hq. lia.
Qed.

(** What the queue of a unit owes to the port driver. *)
Definition queue_requests (u : SPD_STORAGE_UNIT) (cs : list completion) : Prop :=
  exists q Q, Ioq u = Some q /\ ioq_abs q Q /\ cs = (q_reset Q true).2.

Lemma unlocked_spec DBG E refs p u pid :
  ext_wf E (p :: refs) -> Units E !! p = Some u -> pid = OwnerProcessId u ->
  exists E' cs, unprovision_unlocked DBG E p pid =
      Some (STATUS_SUCCESS, E', mkEffects cs true) /\
    ext_wf E' refs /\ queue_requests u cs /\ StorageUnits E' = StorageUnits E /\
    StorageUnitCapacity E' = StorageUnitCapacity E /\
    (forall x, x <> p -> Units E' !! x = Units E !! x).
Proof.
  intros Hwf Hu ->. assert (p <> 0) as Hp.
  { pose proof (wf_refs_nonnull _ _ Hwf) as H0. apply not_elem_of_cons in H0. naive_solver. }
  unfold unprovision_unlocked. rewrite (proj2 (Z.eqb_neq 0 p)), Hu by done. opt.
  rewrite Z.eqb_refl. cbn [negb]. pose proof (wf_units _ _ Hwf p u Hu) as (Hpar & q & Q & Hq & Ha).
  rewrite Hq. opt. destruct (reset_abs DBG q Q true Ha) as (q' & -> & Ha'). opt.
  assert (ext_wf (E <| Units := <[p := u <| Ioq := Some q' |>]> (Units E) |>) (p :: refs)) as Hwf'.
  { apply (wf_set_unit E (p :: refs) _ p u); try done.
    - split; [done|]. by exists q', (q_reset Q true).1.
    - apply Hwf.
    - apply Hwf.
    - apply (wf_refs _ _ Hwf p u Hu).
    - rewrite references_cons. lia. }
  destruct (dereference_wf DBG _ refs p Hwf') as (E' & cs & HD & HwfE & HS & HC & HU).
  assert (cs = []) as ->.
  { revert HD. unfold SpdStorageUnitDereference. simpl. rewrite lookup_insert_eq. simpl.
    case_match; [|by intros [= _ <-]]. rewrite (delete_ok DBG q' _ Ha'). simpl.
    intros [= _ <-]. unfold q_reset. destruct (q_stopped Q) eqn:Hs; simpl; [by rewrite Hs|done]. }
  rewrite HD. opt. rewrite app_nil_r. eexists _, _. split; [done|]. split; [done|].
  split; [by exists q, Q|]. split_and!; try done. intros x Hx. rewrite HU by done.
  simpl. by rewrite lookup_insert_ne.
Qed.

(** The three results of an unprovision, in terms of the table before it. *)
Definition unprovision_result (E : SPD_DEVICE_EXTENSION) (G : option GUID) (Index : nat)
    (pid Result : Z) (E' : SPD_DEVICE_EXTENSION) (eff : effects) : Prop :=
  (Result = STATUS_OBJECT_NAME_NOT_FOUND /\ (forall i p, ~ target E G Index i p) /\ E' = E /\
     eff = no_effects) \/
  (exists i p u, target E G Index i p /\ Units E !! p = Some u /\
     ((Result = STATUS_ACCESS_DENIED /\ OwnerProcessId u <> pid /\ E' = E /\ eff = no_effects) \/
      (Result = STATUS_SUCCESS /\ OwnerProcessId u = pid /\
       StorageUnits E' = <[i := 0]> (StorageUnits E) /\
       StorageUnitCapacity E' = StorageUnitCapacity E /\
       (forall x, x <> p -> Units E' !! x = Units E !! x) /\
       exists cs, eff = mkEffects cs true /\ queue_requests u cs))).

Lemma unprovision_spec DBG E refs G Index pid :
  ext_wf E refs -> Z.of_nat (length refs) < 2 ^ 32 - 2 ->
  exists r E' eff, SpdStorageUnitUnprovision DBG E G Index pid = Some (r, E', eff) /\
    ext_wf E' refs /\ unprovision_result E G Index pid r E' eff.
Proof.
  intros Hwf Hlen. unfold SpdStorageUnitUnprovision, unprovision_locked.
  destruct (unprovision_target E refs G Index Hwf) as (p & i & -> & Hd). opt.
  destruct Hd as [[-> Hd]|[Hp Ht]].
  - rewrite Z.eqb_refl. cbn [negb]. opt. unfold unprovision_unlocked. rewrite Z.eqb_refl.
    eexists _, _, _. split; [done|]. split; [done|]. by left.
  - rewrite (proj2 (Z.eqb_neq 0 p)) by done. cbn [negb]. pose proof Ht as (Hi & _).
    destruct (wf_slot_unit E refs Hwf _ _ Hi Hp) as [u Hu]. rewrite Hu. opt.
    destruct (Z.eqb_spec pid (OwnerProcessId u)) as [->|Hne]; opt.
    + pose proof (wf_clear_slot E refs p i Hwf Hi Hp Hlen) as Hwf'.
      destruct (unlocked_spec DBG _ refs p u _ Hwf' Hu eq_refl)
        as (E' & cs & -> & HwfE & Hq & HS & HC & HU).
      eexists _, _, _. split; [done|]. split; [done|]. right. exists i, p, u.
      split_and!; try done. right. split_and!; try done. by exists cs.
    + unfold unprovision_unlocked. rewrite (proj2 (Z.eqb_neq 0 p)), Hu by done. opt.
      rewrite (proj2 (Z.eqb_neq pid _)) by done. cbn [negb].
      eexists _, _, _. split; [done|]. split; [done|]. right. exists i, p, u.
      split_and!; try done. left. done.
Qed.

(** * The use bitmap of the table of storage units, and the end of a process

    [SpdStorageUnitGetUseBitmap] has exactly the bits of the slots it is asked for, although it
    stops as soon as it has counted [StorageUnitCount] units; the routine that is told of the
    end of a process removes exactly the units of that process. *)

(** ** What the bits mean *)

Definition bits (Bitmap : list Z) (I : nat) : bool :=
  Z.testbit (default 0 (Bitmap !! Z.to_nat (Z.of_nat I / 8))) (Z.of_nat I mod 8).

(** The unit [p] is one that the caller asks for. *)
Definition matches (E : SPD_DEVICE_EXTENSION) (PProcessId : option Z) (p : Z) : bool :=
  negb (0 =? p) &&
  match PProcessId with
  | None => true
  | Some pid => match Units E !! p with Some u => pid =? OwnerProcessId u | None => false end
  end.

Definition slot_matches (E : SPD_DEVICE_EXTENSION) (PProcessId : option Z) (I : nat) : bool :=
  match StorageUnits E !! I with Some p => matches E PProcessId p | None => false end.

Definition count_matches (E : SPD_DEVICE_EXTENSION) (PProcessId : option Z) (l : list Z) : nat :=
  length (filter (fun p => matches E PProcessId p = true) l).

(** The bits from [I] to 255 that are set. *)
Fixpoint count_bits (n I : nat) (Bitmap : list Z) : nat :=
  match n with
  | O => O
  | S n => ((if bits Bitmap I then 1 else 0) + count_bits n (S I) Bitmap)%nat
  end.

(** ** Bits of a byte *)

Lemma shift3 (I : nat) : Z.of_nat I ≫ 3 = Z.of_nat I / 8.
Proof. by rewrite Z.shiftr_div_pow2. Qed.

Lemma land7 (I : nat) : Z.of_nat I .& 7 = Z.of_nat I mod 8.
Proof. change 7 with (Z.ones 3). by rewrite Z.land_ones. Qed.

Lemma land_bit b k : 0 <= k -> negb (b .& (1 ≪ k) =? 0) = Z.testbit b k.
Proof.
  intros Hk. rewrite Z.shiftl_1_l. destruct (Z.testbit b k) eqn:E.
  - apply negb_true_iff, Z.eqb_neq. intros H0.
    assert (Z.testbit (b .& 2 ^ k) k = true) as H1.
    { rewrite Z.land_spec, E, Z.pow2_bits_true; done. }
    rewrite H0, Z.bits_0 in H1. done.
  - apply negb_false_iff, Z.eqb_eq. apply Z.bits_inj'. intros i Hi.
    rewrite Z.land_spec, Z.bits_0. destruct (decide (i = k)) as [->|Hne].
    + by rewrite E.
    + rewrite Z.pow2_bits_false by done. apply andb_false_r.
Qed.

Lemma or_bit b k i : 0 <= k < 8 -> 0 <= i ->
  Z.testbit (b .| u8 (1 ≪ k)) i = (if decide (i = k) then true else Z.testbit b i).
Proof.
  intros Hk Hi. rewrite Z.shiftl_1_l. unfold u8. rewrite Z.mod_small.
  2:{ split; [lia|]. apply Z.pow_lt_mono_r; lia. }
  rewrite Z.lor_spec. case_decide as H.
  - subst. rewrite Z.pow2_bits_true by lia. apply orb_true_r.
  - rewrite Z.pow2_bits_false by done. apply orb_false_r.
Qed.

Lemma byte_index (I : nat) : (I < 256)%nat -> (Z.to_nat (Z.of_nat I / 8) < 32)%nat.
Proof. intros. dlia. Qed.

Lemma bitmap_on_spec Bitmap I :
  length Bitmap = 32%nat -> (I < 256)%nat -> bitmap_on Bitmap I = Some (bits Bitmap I).
Proof.
  intros Hl HI. unfold bitmap_on, bits. rewrite shift3, land7.
  destruct (lookup_lt_is_Some_2 Bitmap (Z.to_nat (Z.of_nat I / 8))) as [b Hb];
    [rewrite Hl; by apply byte_index|].
  rewrite Hb. simpl. f_equal. apply land_bit. dlia.
Qed.

Lemma bitmap_set_spec Bitmap I :
  length Bitmap = 32%nat -> (I < 256)%nat ->
  exists Bitmap', bitmap_set Bitmap I = Some Bitmap' /\ length Bitmap' = 32%nat /\
    forall J, bits Bitmap' J = if decide (J = I) then true else bits Bitmap J.
Proof.
  intros Hl HI. unfold bitmap_set. rewrite shift3, land7.
  pose proof (byte_index I HI) as Hlt.
  destruct (lookup_lt_is_Some_2 Bitmap (Z.to_nat (Z.of_nat I / 8))) as [b Hb]; [by rewrite Hl|].
  rewrite Hb. simpl. eexists. split; [done|]. split; [by rewrite length_insert|].
  intros J. unfold bits. destruct (decide (Z.of_nat J / 8 = Z.of_nat I / 8)) as [Hq|Hq].
  - rewrite Hq, list_lookup_insert_eq by (by rewrite Hl). simpl.
    rewrite or_bit by dlia. rewrite Hb. simpl.
    repeat case_decide; try done; subst; exfalso; [dlia|done].
  - rewrite list_lookup_insert_ne by dlia. case_decide; [subst; done|done].
Qed.

Lemma bits_zero I : bits (replicate 32 0) I = false.
Proof.
  unfold bits. destruct (replicate 32 0 !! _) as [b|] eqn:E; simpl; [|apply Z.bits_0].
  apply lookup_replicate in E as [-> _]. apply Z.bits_0.
Qed.

(** ** The loop that fills the bitmap *)

Lemma count_matches_used E P l :
  (count_matches E P l <= used_slots l)%nat.
Proof.
  unfold count_matches, used_slots. induction l as [|p l IH]; [done|].
  rewrite !filter_cons. destruct (Z.eqb_spec 0 p) as [<-|Hne].
  - rewrite decide_False by (unfold matches; simpl; congruence).
    rewrite decide_False by congruence. done.
  - rewrite (decide_True (P := p <> 0)) by congruence. case_decide; simpl; lia.
Qed.

Lemma count_matches_zero E P l : count_matches E P l = 0%nat ->
  forall i p, l !! i = Some p -> matches E P p = false.
Proof.
  unfold count_matches. intros Hc i p Hi.
  destruct (matches E P p) eqn:Hm; [|done]. exfalso.
  assert (p ∈ filter (fun p => matches E P p = true) l) as Hin.
  { apply list_elem_of_filter. split; [done|]. by eapply list_elem_of_lookup_2. }
  apply nil_length_inv in Hc. rewrite Hc in Hin. by apply not_elem_of_nil in Hin.
Qed.

Section Loop.
Context (E : SPD_DEVICE_EXTENSION) (refs : list Z) (P : option Z).
Hypothesis Hwf : ext_wf E refs.

Lemma cap_bound : (Z.to_nat (StorageUnitCapacity E) <= 64)%nat.
Proof. pose proof (wf_capacity _ _ Hwf). unfold SPD_IOCTL_STORAGE_UNIT_MAX_CAPACITY in *. lia. Qed.

Lemma use_loop_spec n I Count Bitmap :
  (I + n = Z.to_nat (StorageUnitCapacity E))%nat -> length Bitmap = 32%nat ->
  Count = Z.of_nat (count_matches E P (take I (StorageUnits E))) ->
  (forall J, bits Bitmap J = bool_decide (J < I)%nat && slot_matches E P J) ->
  exists Count' Bitmap', use_bitmap_loop n I E P Count Bitmap = Some (Count', Bitmap') /\
    length Bitmap' = 32%nat /\ Count' = Z.of_nat (count_matches E P (StorageUnits E)) /\
    forall J, bits Bitmap' J = slot_matches E P J.
Proof.
  revert I Count Bitmap. pose proof cap_bound as Hcap.
  induction n as [|n IH]; intros I Count Bm Hn Hl HC HB.
  - simpl. exists Count, Bm. split; [done|]. split; [done|]. split.
    + rewrite HC. rewrite take_ge; [done|]. rewrite (wf_length _ _ Hwf). lia.
    + intros J. rewrite HB. case_bool_decide; [done|]. unfold slot_matches.
      rewrite lookup_ge_None_2; [done|]. rewrite (wf_length _ _ Hwf). lia.
  - cbn [use_bitmap_loop]. destruct (wf_slot_bound E refs Hwf I) as [p Hp]; [lia|].
    destruct (StorageUnitCount E >? Count) eqn:Hgt; zify_bools.
    + rewrite Hp. opt.
      assert (slot_matches E P I = matches E P p) as Hsm by (unfold slot_matches; by rewrite Hp).
      assert (take (S I) (StorageUnits E) = take I (StorageUnits E) ++ [p]) as HtS
        by by apply take_S_r.
      assert (count_matches E P (take (S I) (StorageUnits E)) =
        count_matches E P (take I (StorageUnits E)) + if matches E P p then 1 else 0)%nat as HcS.
      { rewrite HtS. unfold count_matches. rewrite filter_app, length_app, filter_cons, filter_nil.
        f_equal. destruct (matches E P p); by case_decide. }
      match goal with |- exists _ _, (use ← ?x; _) = _ /\ _ =>
        assert (x = Some (matches E P p)) as -> end.
      { unfold matches. destruct (Z.eqb_spec 0 p) as [<-|Hne]; [done|]. simpl.
        destruct P as [pid|]; [|done].
        destruct (wf_slot_unit E refs Hwf _ _ Hp ltac:(done)) as [u ->]. done. }
      opt. destruct (matches E P p) eqn:Hm.
      * destruct (bitmap_set_spec Bm I Hl) as (Bm' & -> & Hl' & HB'); [lia|]. opt.
        apply IH; [lia|done|lia|]. intros J. rewrite HB'. case_decide as HJ.
        -- subst J. rewrite bool_decide_true by lia. by rewrite Hsm.
        -- rewrite HB. f_equal. apply bool_decide_ext. lia.
      * apply IH; [lia|done|lia|]. intros J. rewrite HB. destruct (decide (J = I)) as [->|].
        -- rewrite Hsm. by rewrite !andb_false_r.
        -- f_equal. apply bool_decide_ext. lia.
    + pose proof (count_matches_used E P (take I (StorageUnits E))) as Hu1.
      pose proof (wf_count _ _ Hwf) as Hcount.
      assert (used_slots (StorageUnits E) =
        used_slots (take I (StorageUnits E)) + used_slots (drop I (StorageUnits E)))%nat as Hsplit.
      { unfold used_slots. rewrite <- length_app, <- filter_app. by rewrite take_drop. }
      assert (count_matches E P (drop I (StorageUnits E)) = 0)%nat as Hz.
      { pose proof (count_matches_used E P (drop I (StorageUnits E))). lia. }
      exists Count, Bm. split; [done|]. split; [done|]. split.
      * rewrite HC. f_equal. rewrite <- (take_drop I (StorageUnits E)) at 2.
        unfold count_matches in *. rewrite filter_app, length_app, Hz. lia.
      * intros J. rewrite HB. case_bool_decide as HJ; [done|]. simpl. unfold slot_matches.
        destruct (StorageUnits E !! J) as [r|] eqn:Hr; [|done]. symmetry.
        apply (count_matches_zero _ _ _ Hz (J - I)%nat). rewrite lookup_drop.
        by replace (I + (J - I))%nat with J by lia.
Qed.

Lemma use_bitmap_spec :
  exists Count Bitmap, SpdStorageUnitGetUseBitmap E P = Some (Count, Bitmap) /\
    length Bitmap = 32%nat /\ Count = Z.of_nat (count_matches E P (StorageUnits E)) /\
    forall J, bits Bitmap J = slot_matches E P J.
Proof.
  unfold SpdStorageUnitGetUseBitmap. apply use_loop_spec; try done.
  intros J. by rewrite bits_zero, bool_decide_false by lia.
Qed.
End Loop.

(** ** The end of a process *)

Lemma count_bits_zero n I Bitmap J :
  count_bits n I Bitmap = 0%nat -> (I <= J < I + n)%nat -> bits Bitmap J = false.
Proof.
  revert I. induction n as [|n IH]; intros I; simpl; [lia|].
  intros Hc HJ. destruct (bits Bitmap I) eqn:Hb; [lia|].
  destruct (decide (J = I)) as [->|]; [done|]. apply (IH (S I)); lia.
Qed.

Lemma count_bits_matches E P n I Bitmap :
  (forall J, bits Bitmap J = slot_matches E P J) -> (length (StorageUnits E) <= I + n)%nat ->
  count_bits n I Bitmap = count_matches E P (drop I (StorageUnits E)).
Proof.
  intros HB. revert I. induction n as [|n IH]; intros I Hn; simpl.
  - rewrite drop_ge by lia. done.
  - rewrite IH by lia. rewrite HB. unfold slot_matches.
    destruct (StorageUnits E !! I) as [p|] eqn:Hp.
    + rewrite (drop_S _ p I) by done. unfold count_matches. rewrite filter_cons.
      destruct (matches E P p); by case_decide.
    + apply lookup_ge_None_1 in Hp. rewrite !drop_ge by lia. done.
Qed.

Section Notify.
Context (DBG : bool) (E0 : SPD_DEVICE_EXTENSION) (refs : list Z) (pid : Z).
Hypothesis Hwf0 : ext_wf E0 refs.
Hypothesis Hlen : Z.of_nat (length refs) < 2 ^ 32 - 2.

(** The table when the slots below [I] have been dealt with. *)
Definition removed_below (I : nat) (E : SPD_DEVICE_EXTENSION) : Prop :=
  StorageUnitCapacity E = StorageUnitCapacity E0 /\
  (forall j, StorageUnits E !! j =
     if bool_decide (j < I)%nat && slot_matches E0 (Some pid) j then Some 0
     else StorageUnits E0 !! j) /\
  (forall p, p <> 0 -> p ∈ StorageUnits E -> Units E !! p = Units E0 !! p).

Lemma notify_loop_spec n I E Bitmap :
  (I + n = 256)%nat -> length Bitmap = 32%nat ->
  (forall J, bits Bitmap J = slot_matches E0 (Some pid) J) ->
  ext_wf E refs -> removed_below I E ->
  exists E' effs, notify_loop n I DBG E pid (Z.of_nat (count_bits n I Bitmap)) Bitmap =
      Some (E', effs) /\
    ext_wf E' refs /\ removed_below 256 E' /\ length effs = count_bits n I Bitmap /\
    Forall (fun e => eff_bus_change e = true) effs.
Proof.
  revert I E. induction n as [|n IH]; intros I E Hn Hl HB Hwf Hrem.
  - simpl. exists E, []. rewrite Nat.add_0_r in Hn. subst I. split_and!; done.
  - cbn [notify_loop]. destruct (0 <? Z.of_nat (count_bits (S n) I Bitmap)) eqn:HC; zify_bools.
    2:{ exists E, []. assert (count_bits (S n) I Bitmap = 0)%nat as Hz by lia.
        split; [done|]. split; [done|]. split; [|by rewrite Hz].
        destruct Hrem as (R1 & R2 & R3). split; [done|]. split; [|done]. intros j. rewrite R2.
        destruct (slot_matches E0 (Some pid) j) eqn:Hm; [|by rewrite !andb_false_r].
        rewrite !andb_true_r.
        assert (j < 256)%nat as Hj.
        { unfold slot_matches in Hm. destruct (StorageUnits E0 !! j) eqn:Hs; [|done].
          apply lookup_lt_Some in Hs. rewrite (wf_length _ _ Hwf0) in Hs.
          pose proof (wf_capacity _ _ Hwf0). unfold SPD_IOCTL_STORAGE_UNIT_MAX_CAPACITY in *. lia. }
        rewrite (bool_decide_true (j < 256)%nat) by done.
        case_bool_decide as HI; [done|]. exfalso.
        pose proof (count_bits_zero (S n) I Bitmap j Hz ltac:(lia)) as Hb.
        rewrite HB in Hb. congruence. }
    rewrite bitmap_on_spec by (done || lia). opt. cbn [count_bits].
    destruct (bits Bitmap I) eqn:Hb.
    + destruct (unprovision_spec DBG E refs None I pid Hwf Hlen) as (r & E1 & eff & -> & Hwf1 & Hr).
      opt. destruct Hrem as (R1 & R2 & R3).
      assert (exists p u, target E None I I p /\ Units E !! p = Some u /\ pid = OwnerProcessId u)
        as (p & u & Ht & Hu & Hown).
      { rewrite HB in Hb. unfold slot_matches in Hb.
        destruct (StorageUnits E0 !! I) as [p|] eqn:Hp; [|done]. unfold matches in Hb. zify_bools.
        destruct (Units E0 !! p) as [u|] eqn:Hu; [|done]. zify_bools.
        assert (StorageUnits E !! I = Some p) as HpE.
        { rewrite R2, bool_decide_false by lia. done. }
        exists p, u. split; [by split_and!|]. split; [|done].
        rewrite R3 by (done || by eapply list_elem_of_lookup_2). done. }
      destruct Hr as [(_ & Hno & _)|(i & p' & u' & (Hi & Hz & ->) & Hu' & Hr)];
        [by destruct (Hno I p)|].
      destruct Ht as (Hp & _ & _). assert (p' = p) as -> by congruence.
      assert (u' = u) as -> by congruence.
      destruct Hr as [(_ & Hne & _)|(-> & _ & HS & HCap & HU & cs & -> & Hcs)]; [congruence|].
      replace (Z.of_nat (1 + count_bits n (S I) Bitmap) - 1)
        with (Z.of_nat (count_bits n (S I) Bitmap)) by lia.
      destruct (IH (S I) E1) as (E' & effs & -> & HwfE & HremE & Hle & Hbus);
        [lia|done|done|done| |].
      { split; [congruence|]. split.
        - intros j. rewrite HS. destruct (decide (j = I)) as [->|Hj].
          + rewrite list_lookup_insert_eq by by eapply lookup_lt_Some.
            rewrite bool_decide_true by lia. rewrite HB in Hb. by rewrite Hb.
          + rewrite list_lookup_insert_ne by done. rewrite R2.
            by replace (bool_decide (j < S I)%nat) with (bool_decide (j < I)%nat)
              by (apply bool_decide_ext; lia).
        - intros x Hx Hin. assert (x <> p) as Hxp.
          { intros ->. rewrite HS in Hin. apply list_elem_of_lookup in Hin as [k Hk].
            destruct (decide (I = k)) as [->|Hk'].
            - rewrite list_lookup_insert_eq in Hk by by eapply lookup_lt_Some. congruence.
            - rewrite list_lookup_insert_ne in Hk by done. apply Hk'.
              by apply (wf_inj _ _ Hwf I k p). }
          rewrite HU by done. apply R3; [done|]. rewrite HS in Hin.
          apply list_elem_of_lookup in Hin as [k Hk].
          destruct (decide (I = k)) as [->|Hk'].
          + rewrite list_lookup_insert_eq in Hk by by eapply lookup_lt_Some. congruence.
          + rewrite list_lookup_insert_ne in Hk by done. by eapply list_elem_of_lookup_2. }
      opt. eexists _, _. split; [done|]. split_and!; try done.
      * simpl. by rewrite Hle.
      * by constructor.
    + destruct (IH (S I) E) as (E' & effs & Hf & HwfE & HremE & Hle & Hbus);
        [lia|done|done|done| |].
      { destruct Hrem as (R1 & R2 & R3). split; [done|]. split; [|done]. intros j. rewrite R2.
        destruct (decide (j = I)) as [->|Hj].
        - rewrite <- HB, Hb. by rewrite !andb_false_r.
        - by replace (bool_decide (j < S I)%nat) with (bool_decide (j < I)%nat)
            by (apply bool_decide_ext; lia). }
      exists E', effs. split_and!; done.
Qed.

Lemma notify_spec :
  pid = u32 pid ->
  exists E' effs, SpdDeviceExtensionNotifyRoutine DBG E0 pid false = Some (E', effs) /\
    ext_wf E' refs /\ removed_below 256 E' /\
    length effs = count_matches E0 (Some pid) (StorageUnits E0) /\
    Forall (fun e => eff_bus_change e = true) effs.
Proof.
  intros Hpid. unfold SpdDeviceExtensionNotifyRoutine. rewrite <- Hpid.
  destruct (use_bitmap_spec E0 refs (Some pid) Hwf0) as (Count & Bm & -> & Hl & -> & HB). opt.
  assert (count_matches E0 (Some pid) (StorageUnits E0) = count_bits 256 0 Bm) as Hc.
  { rewrite (count_bits_matches E0 (Some pid)); [by rewrite drop_0|done|].
    rewrite (wf_length _ _ Hwf0). pose proof (wf_capacity _ _ Hwf0).
    unfold SPD_IOCTL_STORAGE_UNIT_MAX_CAPACITY in *. lia. }
  rewrite Hc. apply notify_loop_spec; try done.
Qed.
End Notify.
