(* ===== verification/StgUnitProps.v ===== *)
(** * Storage units: references, and the properties of the table

    Threads that look up, use and release units, provision and unprovision them, interleave by
    their critical sections.  The theorems: a unit a thread holds a reference to is always
    there, and every unit is freed when, and only when, nothing refers to it; what provision,
    unprovision, the use bitmap and the end of a process do; and two defects. *)

From S2P Require Import Prelude Wdk IoctlTypes ListEntry Srb Ioq IoqMem.
From S2P Require Import IoqSpec IoqRun StgUnit StgUnitInv.

#[local] Set Warnings "-clear-no-such-hyp".

(** ** Interleaved use of the table

    The operations are the critical sections.  [UnitUnprovision] is a whole unprovision; that of
    the owner of the unit is also its two sections, [UnitUnprovisionLocked] and
    [UnitUnprovisionUnlocked], with the operations of other threads in between.  The state is
    the extension and the references that threads hold, that of an owner between its two
    sections included. *)

Inductive unit_op {Ctx : Type} :=
  | UnitProvision (Params : SPD_IOCTL_STORAGE_UNIT_PARAMS) (ProcessId AllocUnit : Z) (AllocIoq : bool)
  | UnitUnprovision (G : option GUID) (Index : nat) (ProcessId : Z)
  | UnitUnprovisionLocked (G : option GUID) (Index : nat) (ProcessId : Z)
  | UnitUnprovisionUnlocked (StorageUnit ProcessId : Z)
  | UnitReferenceByBtl (Btl : Z)
  | UnitReferenceByDevice (Device : Z)
  | UnitDereference (StorageUnit : Z)
  | UnitQueue (StorageUnit : Z) (op : ioq_op Ctx)
  | UnitField (StorageUnit Device Transact : Z).
Arguments unit_op : clear implicits.

(** The references without one to [p]. *)
Fixpoint give_back (p : Z) (refs : list Z) : list Z :=
  match refs with
  | [] => []
  | x :: refs => if x =? p then refs else x :: give_back p refs
  end.

Section System.
Context {Ctx : Type}.
Context (Prepare : Z -> SPD_SRB_EXTENSION -> SRB -> Ctx -> option Ctx).
Context (Complete : SPD_SRB_EXTENSION -> SRB -> Ctx -> option (Z * SPD_SRB_EXTENSION * SRB)).
Context (sizeof_SPD_IOQ : Z).

(** One operation; [None] is a fault. *)
Definition unit_exec (s : SPD_DEVICE_EXTENSION * list Z) (op : unit_op Ctx)
    : option (SPD_DEVICE_EXTENSION * list Z) :=
  let '(E, refs) := s in
  match op with
  | UnitProvision Params ProcessId AllocUnit AllocIoq =>
      '(_, _, E, _) ← SpdStorageUnitProvision false sizeof_SPD_IOQ E Params ProcessId AllocUnit AllocIoq;
      Some (E, refs)
  | UnitUnprovision G Index ProcessId =>
      '(_, E, _) ← SpdStorageUnitUnprovision false E G Index ProcessId;
      Some (E, refs)
  | UnitUnprovisionLocked G Index ProcessId =>
      '(p, E) ← unprovision_locked E G Index ProcessId;
      Some (E, if p =? 0 then refs else p :: refs)
  | UnitUnprovisionUnlocked StorageUnit ProcessId =>
      '(_, E, _) ← unprovision_unlocked false E StorageUnit ProcessId;
      Some (E, give_back StorageUnit refs)
  | UnitReferenceByBtl Btl =>
      '(p, E) ← SpdStorageUnitReferenceByBtl E Btl;
      Some (E, if p =? 0 then refs else p :: refs)
  | UnitReferenceByDevice Device =>
      '(p, E) ← SpdStorageUnitReferenceByDevice E Device;
      Some (E, if p =? 0 then refs else p :: refs)
  | UnitDereference StorageUnit =>
      '(E, _) ← SpdStorageUnitDereference false E StorageUnit;
      Some (E, give_back StorageUnit refs)
  | UnitQueue StorageUnit op =>
      u ← Units E !! StorageUnit;
      q ← Ioq u;
      '(q, _) ← ioq_step false Prepare Complete q op;
      Some (E <| Units := <[StorageUnit := u <| Ioq := Some q |>]> (Units E) |>, refs)
  | UnitField StorageUnit Device Transact =>
      u ← Units E !! StorageUnit;
      Some (E <| Units :=
              <[StorageUnit := u <| DeviceObject := Device |> <| TransactProcessId := Transact |>]>
                (Units E) |>, refs)
  end.

(** What is asked of an operation.  Threads use and release only units to which they hold a
    reference, and the queue as [op_allowed] says.  A new unit gets memory that is not in use:
    the allocation of the unit succeeds, that of its queue need not.  The two sections of an
    unprovision are apart only when the process that calls it owns the unit. *)
Definition unit_allowed (s : SPD_DEVICE_EXTENSION * list Z) (op : unit_op Ctx) : Prop :=
  let '(E, refs) := s in
  match op with
  | UnitProvision Params _ AllocUnit _ =>
      Z.of_nat (length refs) < 2 ^ 32 - 2 /\ params_wf Params /\ AllocUnit <> 0 /\ Units E !! AllocUnit = None
  | UnitUnprovisionLocked G Index ProcessId =>
      Z.of_nat (length refs) < 2 ^ 32 - 2 /\
      forall p E' u, unprovision_locked E G Index ProcessId = Some (p, E') -> Units E !! p = Some u ->
        OwnerProcessId u = ProcessId
  | UnitUnprovisionUnlocked p ProcessId =>
      p ∈ refs /\ forall u, Units E !! p = Some u -> OwnerProcessId u = ProcessId
  | UnitUnprovision _ _ _ | UnitReferenceByBtl _ | UnitReferenceByDevice _ =>
      Z.of_nat (length refs) < 2 ^ 32 - 2
  | UnitDereference p | UnitField p _ _ => p ∈ refs
  | UnitQueue p op =>
      p ∈ refs /\ forall u q Q, Units E !! p = Some u -> Ioq u = Some q -> ioq_abs q Q ->
        op_allowed Q op = true /\ is_Some (spec_step false Prepare Complete Q op)
  end.

Inductive unit_reach (E0 : SPD_DEVICE_EXTENSION) : SPD_DEVICE_EXTENSION * list Z -> Prop :=
  | unit_reach_init : unit_reach E0 (E0, [])
  | unit_reach_step s op s' :
      unit_reach E0 s -> unit_allowed s op -> unit_exec s op = Some s' -> unit_reach E0 s'.
End System.

(** ** Concrete instances, for the examples *)

Definition example_guid (n : Z) : GUID := mkGUID n 0x1234 0x5678 [1; 2; 3; 4; 5; 6; 7; 8].
Definition example_params (n : Z) : SPD_IOCTL_STORAGE_UNIT_PARAMS :=
  mkParams (example_guid n) 2048 512 (replicate 16 65) (replicate 4 49) DIRECT_ACCESS_DEVICE
    false true true false 65536.

Definition example_E1 : SPD_DEVICE_EXTENSION :=
  match SpdStorageUnitProvision false sizeof_SPD_IOQ_64 (empty_extension 16) (example_params 1) 77
          4096 true with Some (_, _, E, _) => E | None => empty_extension 0 end.
Definition example_E2 : SPD_DEVICE_EXTENSION :=
  match SpdStorageUnitReferenceByBtl example_E1 0 with
  | Some (_, E) => E | None => empty_extension 0 end.
Definition example_unit2 : SPD_STORAGE_UNIT :=
  default (NewStorageUnit (example_params 1) 77) (Units example_E2 !! 4096).
Definition example_E3 : SPD_DEVICE_EXTENSION :=
  match unprovision_locked example_E2 (Some (example_guid 1)) 0 77 with
  | Some (_, E) => E | None => empty_extension 0 end.
Definition example_E4 : SPD_DEVICE_EXTENSION :=
  match unprovision_unlocked false example_E3 4096 77 with
  | Some (_, E, _) => E | None => empty_extension 0 end.

(** ** The invariant holds of every reachable state *)

Lemma example_params_wf : params_wf (example_params 1).
Proof. split; vm_compute; try reflexivity; repeat split; try discriminate; reflexivity. Qed.

Lemma empty_extension_wf Capacity :
  0 <= Capacity <= SPD_IOCTL_STORAGE_UNIT_MAX_CAPACITY -> ext_wf (empty_extension Capacity) [].
Proof.
  intros Hc. unfold empty_extension. split; simpl; try done.
  - by rewrite length_replicate.
  - unfold used_slots. induction (Z.to_nat Capacity) as [|n IH]; [done|]. simpl.
    rewrite filter_cons, decide_False by auto. done.
  - intros i j p [-> _]%lookup_replicate. done.
  - intros p Hp. unfold references. simpl. rewrite lookup_empty. split; [by intros []|].
    intros Hr%filter_eq_pos. apply elem_of_replicate in Hr as [-> _]. done.
  - apply not_elem_of_nil.
Qed.

Lemma unprovision_locked_spec E refs G Index pid :
  ext_wf E refs ->
  exists p E', unprovision_locked E G Index pid = Some (p, E') /\
    ((p = 0 /\ E' = E) \/
     exists i u, target E G Index i p /\ Units E !! p = Some u /\
       (pid = OwnerProcessId u /\
        E' = E <| StorageUnitCount := u32 (StorageUnitCount E - 1) |>
               <| StorageUnits := <[i := 0]> (StorageUnits E) |> \/
        pid <> OwnerProcessId u /\ E' = E)).
Proof.
  intros Hwf. unfold unprovision_locked.
  destruct (unprovision_target E refs G Index Hwf) as (p & i & -> & Hd). opt.
  destruct Hd as [[-> Hd]|[Hp Ht]].
  - rewrite Z.eqb_refl. cbn [negb]. eexists _, _. split; [done|]. by left.
  - rewrite (proj2 (Z.eqb_neq 0 p)) by done. cbn [negb]. pose proof Ht as (Hi & _).
    destruct (wf_slot_unit E refs Hwf _ _ Hi Hp) as [u Hu]. rewrite Hu. opt.
    destruct (Z.eqb_spec pid (OwnerProcessId u)) as [->|Hne]; eexists _, _;
      (split; [done|]); right; exists i, u; auto.
Qed.

Lemma wf_permutation E refs refs' : refs ≡ₚ refs' -> ext_wf E refs -> ext_wf E refs'.
Proof.
  intros Hp [W1 W2 W3 W4 W5 W6 W7 W8 W9 W11 W10].
  assert (forall p, references E refs' p = references E refs p) as Hr.
  { intros p. unfold references. by rewrite Hp. }
  split; try done.
  - intros p Hz. rewrite Hr. by apply W7.
  - intros p u. rewrite Hr. apply W8.
  - by rewrite <- Hp.
  - by rewrite <- Hp.
Qed.

Lemma references_pos_in E refs p : p ∈ refs -> (0 < references E refs p)%nat.
Proof. intros Hin%filter_eq_pos. unfold references. lia. Qed.

(** A held unit changes in the fields that the invariant does not count. *)
Lemma wf_update_held E refs p u u' :
  ext_wf E refs -> p ∈ refs -> Units E !! p = Some u -> RefCount u' = RefCount u ->
  StorageUnitParams u' = StorageUnitParams u -> unit_ok u' ->
  ext_wf (E <| Units := <[p := u']> (Units E) |>) refs.
Proof.
  intros Hwf Hin Hu HR HP Hok. apply (wf_set_unit E refs refs p u u'); try done.
  - intros ->. by apply (wf_refs_nonnull _ _ Hwf).
  - apply (wf_refs_nonnull _ _ Hwf).
  - apply (wf_few _ _ Hwf).
  - rewrite HR. by apply (wf_refs _ _ Hwf).
  - by apply references_pos_in.
Qed.

(** A provision whose queue is not allocated fails, and leaves the table as it was. *)
Lemma provision_no_queue DBG sizeof_SPD_IOQ E Params pid a :
  a <> 0 -> Units E !! a = None ->
  SpdStorageUnitProvision DBG sizeof_SPD_IOQ E Params pid a false =
    Some (STATUS_INSUFFICIENT_RESOURCES, NO_BTL, E, no_effects).
Proof.
  intros Ha Hf. unfold SpdStorageUnitProvision. rewrite (proj2 (Z.eqb_neq 0 a)) by done.
  change (SpdIoqCreate sizeof_SPD_IOQ false) with (Some (STATUS_INSUFFICIENT_RESOURCES, None : option SPD_IOQ)). opt.
  change (negb (NT_SUCCESS STATUS_INSUFFICIENT_RESOURCES)) with true. cbv iota.
  unfold provision_exit. simpl. rewrite lookup_insert_eq. opt.
  cbn [Ioq]. rewrite (proj2 (Z.eqb_neq 0 a)) by done. cbn [negb Units]. rewrite delete_insert_id by done.
  by destruct E.
Qed.

Section Reach.
Context {Ctx : Type}.
Context (Prepare : Z -> SPD_SRB_EXTENSION -> SRB -> Ctx -> option Ctx).
Context (Complete : SPD_SRB_EXTENSION -> SRB -> Ctx -> option (Z * SPD_SRB_EXTENSION * SRB)).
Hypothesis Complete_frame : forall ext s ctx st ext' s',
  Complete ext s ctx = Some (st, ext', s') ->
  ext_Srb ext' = ext_Srb ext /\ SpdSrbExtension s' = SpdSrbExtension s.
Context (sizeof_SPD_IOQ : Z).
Hypothesis Hsizeof : 0 <= sizeof_SPD_IOQ <= PAGE_SIZE - 8.

(** An operation does not fault, and keeps the invariant of the table. *)
Definition unit_step_ok (s : SPD_DEVICE_EXTENSION * list Z) (op : unit_op Ctx) : Prop :=
  exists s', unit_exec Prepare Complete sizeof_SPD_IOQ s op = Some s' /\ ext_wf s'.1 s'.2.

Lemma step_provision E refs Params pid a ioq :
  ext_wf E refs -> unit_allowed Prepare Complete (E, refs) (UnitProvision Params pid a ioq) ->
  unit_step_ok (E, refs) (UnitProvision Params pid a ioq).
Proof.
  intros Hwf (Hlen & Hpar & Ha & Hf). unfold unit_step_ok. cbn [unit_exec]. destruct ioq.
  - destruct (provision_spec false sizeof_SPD_IOQ E refs Params pid a Hwf Hpar Hsizeof Ha Hf Hlen)
      as (r & btl & E' & eff & -> & Hwf' & _). opt. by eexists.
  - rewrite provision_no_queue by done. opt. by eexists.
Qed.

Lemma step_unprovision_locked E refs G Index pid :
  ext_wf E refs -> unit_allowed Prepare Complete (E, refs) (UnitUnprovisionLocked G Index pid) ->
  unit_step_ok (E, refs) (UnitUnprovisionLocked G Index pid).
Proof.
  intros Hwf (Hlen & Hown). unfold unit_step_ok. cbn [unit_exec].
  destruct (unprovision_locked_spec E refs G Index pid Hwf) as (p & E' & HU & Hd).
  rewrite HU. opt. eexists. split; [done|]. cbn [fst snd].
  destruct Hd as [[-> ->]|(i & u & (Hi & Hz & _) & Hu & Hd)]; [by rewrite Z.eqb_refl|].
  rewrite (proj2 (Z.eqb_neq p 0)) by done. specialize (Hown p E' u HU Hu).
  destruct Hd as [[_ ->]|[Hne _]]; [by apply wf_clear_slot|congruence].
Qed.

(** A reference that is given back is one of those held. *)
Lemma give_back_permutation p refs : p ∈ refs -> p :: give_back p refs ≡ₚ refs.
Proof.
  induction refs as [|x refs IH]; [by intros ?%not_elem_of_nil|]. cbn [give_back].
  destruct (Z.eqb_spec x p) as [->|Hne]; [done|]. intros [?|Hp]%elem_of_cons; [congruence|].
  by rewrite Permutation_swap, IH.
Qed.

Lemma held_reference E refs p : ext_wf E refs -> p ∈ refs -> ext_wf E (p :: give_back p refs).
Proof.
  intros Hwf Hp. apply (wf_permutation E refs); [|done]. symmetry. by apply give_back_permutation.
Qed.

Lemma held_unit E refs p : ext_wf E refs -> p ∈ refs -> exists u q, Units E !! p = Some u /\ Ioq u = Some q.
Proof.
  intros Hwf Hp. assert (p <> 0) as Hz by (intros ->; by apply (wf_refs_nonnull _ _ Hwf)).
  destruct (proj2 (wf_live _ _ Hwf p Hz) (references_pos_in E refs p Hp)) as [u Hu].
  destruct (wf_units _ _ Hwf p u Hu) as (_ & q & _ & Hq & _). eauto.
Qed.

Lemma step_unprovision_unlocked E refs p pid :
  ext_wf E refs -> unit_allowed Prepare Complete (E, refs) (UnitUnprovisionUnlocked p pid) ->
  unit_step_ok (E, refs) (UnitUnprovisionUnlocked p pid).
Proof.
  intros Hwf (Hp & Hown). unfold unit_step_ok. cbn [unit_exec].
  destruct (held_unit E refs p Hwf Hp) as (u & q & Hu & _).
  pose proof (held_reference E refs p Hwf Hp) as Hwf1.
  destruct (unlocked_spec false E _ p u pid Hwf1 Hu) as (E' & cs & -> & Hwf' & _); [by rewrite (Hown u Hu)|].
  opt. by eexists.
Qed.

Lemma step_dereference E refs p :
  ext_wf E refs -> p ∈ refs -> unit_step_ok (E, refs) (UnitDereference p).
Proof.
  intros Hwf Hp. unfold unit_step_ok. cbn [unit_exec].
  pose proof (held_reference E refs p Hwf Hp) as Hwf1.
  destruct (dereference_wf false E _ p Hwf1) as (E' & cs & -> & Hwf' & _). opt. by eexists.
Qed.

Lemma step_queue E refs p op :
  ext_wf E refs -> unit_allowed Prepare Complete (E, refs) (UnitQueue p op) ->
  unit_step_ok (E, refs) (UnitQueue p op).
Proof.
  intros Hwf (Hp & Hop). unfold unit_step_ok. cbn [unit_exec].
  destruct (held_unit E refs p Hwf Hp) as (u & _ & Hu & _). rewrite Hu.
  destruct (wf_units _ _ Hwf p u Hu) as (Hd & q & Q & Hq & Ha). opt. rewrite Hq. opt.
  destruct (Hop u q Q Hu Hq Ha) as (Hal & [[Q' o] Hs]).
  pose proof (step_abs Prepare Complete Complete_frame q Q op Ha Hal) as Hst. rewrite Hs in Hst.
  destruct Hst as (q' & -> & Ha'). opt. eexists. split; [done|].
  apply (wf_update_held E refs p u); try done. split; [done|]. by exists q', Q'.
Qed.

Lemma step_field E refs p Device Transact :
  ext_wf E refs -> p ∈ refs -> unit_step_ok (E, refs) (UnitField p Device Transact).
Proof.
  intros Hwf Hp. unfold unit_step_ok. cbn [unit_exec].
  destruct (held_unit E refs p Hwf Hp) as (u & _ & Hu & _). rewrite Hu. opt. eexists. split; [done|].
  apply (wf_update_held E refs p u); try done. apply (wf_units _ _ Hwf p u Hu).
Qed.

Lemma unit_exec_wf s op :
  ext_wf s.1 s.2 -> unit_allowed Prepare Complete s op -> unit_step_ok s op.
Proof.
  destruct s as [E refs]. cbn [fst snd]. intros Hwf Hal. destruct op.
  - by apply step_provision.
  - destruct (unprovision_spec false E refs G Index ProcessId Hwf Hal) as (r & E' & eff & HU & Hwf' & _).
    unfold unit_step_ok. cbn [unit_exec]. rewrite HU. opt. by eexists.
  - by apply step_unprovision_locked.
  - by apply step_unprovision_unlocked.
  - destruct (reference_by_btl_wf E refs Btl Hwf Hal) as (p & E' & HR & Hd).
    unfold unit_step_ok. cbn [unit_exec]. rewrite HR. opt. eexists. split; [done|]. cbn [fst snd].
    destruct Hd as [[-> ->]|(Hz & _ & _ & Hwf')]; [by rewrite Z.eqb_refl|by rewrite (proj2 (Z.eqb_neq p 0))].
  - destruct (reference_by_device_wf E refs Device Hwf Hal) as (p & E' & HR & Hd).
    unfold unit_step_ok. cbn [unit_exec]. rewrite HR. opt. eexists. split; [done|]. cbn [fst snd].
    destruct Hd as [[-> ->]|(Hz & _ & Hwf')]; [by rewrite Z.eqb_refl|by rewrite (proj2 (Z.eqb_neq p 0))].
  - by apply step_dereference.
  - by apply step_queue.
  - by apply step_field.
Qed.

Lemma unit_reach_wf Capacity s :
  0 <= Capacity <= SPD_IOCTL_STORAGE_UNIT_MAX_CAPACITY ->
  unit_reach Prepare Complete sizeof_SPD_IOQ (empty_extension Capacity) s -> ext_wf s.1 s.2.
Proof.
  intros Hc Hr. induction Hr as [|s op s' Hr IH Hal Hx]; [by apply empty_extension_wf|].
  destruct (unit_exec_wf s op IH Hal) as (s1 & Hs & Hwf). rewrite Hx in Hs. by injection Hs as <-.
Qed.
End Reach.

(** ** Serial numbers *)

Lemma hex_digit_inj a b : 0 <= a < 16 -> 0 <= b < 16 -> hex_digit a = hex_digit b -> a = b.
Proof. unfold hex_digit. intros Ha Hb. repeat case_match; zify_bools; lia. Qed.

Lemma hex_digits_inj n v w :
  0 <= v < 16 ^ Z.of_nat n -> 0 <= w < 16 ^ Z.of_nat n -> hex_digits n v = hex_digits n w -> v = w.
Proof.
  revert v w. induction n as [|n IH]; intros v w Hv Hw; simpl.
  - rewrite Z.pow_0_r in *. lia.
  - rewrite Nat2Z.inj_succ, Z.pow_succ_r in * by lia.
    intros [Hq Hr]%app_inj_2; [|done]. injection Hr as Hr.
    apply hex_digit_inj in Hr; [|dlia|dlia]. apply IH in Hq; dlia.
Qed.

Lemma hex_digits_app_inj n v w l1 l2 :
  0 <= v < 16 ^ Z.of_nat n -> 0 <= w < 16 ^ Z.of_nat n ->
  hex_digits n v ++ l1 = hex_digits n w ++ l2 -> v = w /\ l1 = l2.
Proof.
  intros Hv Hw [H1 H2]%app_inj_1; [|by rewrite !hex_digits_length].
  split; [by apply hex_digits_inj in H1|done].
Qed.

Lemma list_of_8 (l : list Z) : length l = 8%nat ->
  exists a b c d e f g h, l = [a; b; c; d; e; f; g; h].
Proof. intros H. do 8 (destruct l as [|? l]; [done|]). destruct l; [|done]. eauto 20. Qed.

(** ** Properties *)

(** C5: Storage units are memory safe in the free build under every interleaving of provisions,
    unprovisions, look-ups, releases and uses that [unit_allowed] describes: in every state they
    reach, none of these operations faults; a unit to which a thread holds a reference is
    allocated and has its queue; the reference count of every unit is the number of its
    references (the table's included); and a unit that nothing refers to is not allocated, so
    none leaks.  Two cases are not allowed, since the code does fault there: a provision whose
    memory for the unit cannot be allocated ([provision_out_of_memory_faults]), and a process
    that unprovisions the unit of another one while its owner does
    ([unprovision_race_faults]). *)
Theorem units_memory_safe {Ctx} Prepare Complete
    (Complete_frame : forall ext s (ctx : Ctx) st ext' s',
       Complete ext s ctx = Some (st, ext', s') ->
       ext_Srb ext' = ext_Srb ext /\ SpdSrbExtension s' = SpdSrbExtension s)
    sizeof_SPD_IOQ Capacity E refs :
  0 <= sizeof_SPD_IOQ <= PAGE_SIZE - 8 ->
  0 <= Capacity <= SPD_IOCTL_STORAGE_UNIT_MAX_CAPACITY ->
  unit_reach Prepare Complete sizeof_SPD_IOQ (empty_extension Capacity) (E, refs) ->
  (forall op, unit_allowed Prepare Complete (E, refs) op ->
     is_Some (unit_exec Prepare Complete sizeof_SPD_IOQ (E, refs) op)) /\
  (forall p, p ∈ refs -> exists u q, Units E !! p = Some u /\ Ioq u = Some q) /\
  (forall p u, Units E !! p = Some u -> RefCount u = Z.of_nat (references E refs p) /\
     (p ∈ refs \/ p ∈ StorageUnits E)).
Proof.
  intros Hsz Hcap Hr. pose proof (unit_reach_wf Prepare Complete Complete_frame _ Hsz _ _ Hcap Hr)
    as Hwf. cbn [fst snd] in Hwf. split_and!.
  - intros op Hal. destruct (unit_exec_wf Prepare Complete Complete_frame _ Hsz (E, refs) op Hwf Hal)
      as (s' & -> & _). by eexists.
  - intros p. by apply held_unit.
  - intros p u Hu. split; [by apply (wf_refs _ _ Hwf)|].
    assert (p <> 0) as Hz by (intros ->; pose proof (wf_null _ _ Hwf); congruence).
    pose proof (proj1 (wf_live _ _ Hwf p Hz) ltac:(by eexists)) as Hpos.
    destruct (decide (p ∈ refs)); [by left|right]. destruct (decide (p ∈ StorageUnits E)); [done|].
    rewrite <- filter_eq_pos in *. unfold references in Hpos. lia.
Qed.

(** A unit is provisioned, looked up and unprovisioned while the look-up is held. *)
Lemma units_memory_safe_witness :
  unit_reach example_Prepare example_Complete sizeof_SPD_IOQ_64 (empty_extension 16)
    (example_E4, [4096]) /\
  StorageUnits example_E4 !! 0%nat = Some 0 /\
  is_Some (unit_exec example_Prepare example_Complete sizeof_SPD_IOQ_64 (example_E4, [4096])
    (UnitDereference 4096)) /\
  (forall p, p ∈ [4096] -> exists u q, Units example_E4 !! p = Some u /\ Ioq u = Some q).
Proof.
  assert (unit_reach example_Prepare example_Complete sizeof_SPD_IOQ_64 (empty_extension 16)
            (example_E4, [4096])) as Hr.
  { eapply (unit_reach_step _ _ _ _ (example_E3, [4096; 4096]) (UnitUnprovisionUnlocked 4096 77));
      [eapply (unit_reach_step _ _ _ _ (example_E2, [4096])
         (UnitUnprovisionLocked (Some (example_guid 1)) 0 77));
        [eapply (unit_reach_step _ _ _ _ (example_E1, []) (UnitReferenceByBtl 0));
          [eapply (unit_reach_step _ _ _ _ (empty_extension 16, [])
             (UnitProvision (example_params 1) 77 4096 true)); [apply unit_reach_init|..]|..]|..]|..].
    - split; [reflexivity|]. split; [exact example_params_wf|]. split; [discriminate|reflexivity].
    - vm_compute. reflexivity.
    - reflexivity.
    - vm_compute. reflexivity.
    - split; [reflexivity|]. intros p E' u HU Hu. vm_compute in HU. injection HU as <- _.
      vm_compute in Hu. injection Hu as <-. reflexivity.
    - vm_compute. reflexivity.
    - split; [left|]. intros u Hu. vm_compute in Hu. injection Hu as <-. reflexivity.
    - vm_compute. reflexivity. }
  split; [exact Hr|]. split; [vm_compute; reflexivity|].
  destruct (units_memory_safe example_Prepare example_Complete example_Complete_frame
    sizeof_SPD_IOQ_64 16 example_E4 [4096]) as (Hs & Hu & _);
    [vm_compute; split; discriminate..|exact Hr|].
  split; [apply Hs; left|exact Hu].
Defined.

(** [SpdStorageUnitProvision], when its allocations succeed: a GUID that is in the table is
    a collision and a full table is an error, and both leave the extension exactly as it was;
    otherwise the unit, with its members aligned and the caller as its owner, goes to the first
    free slot, whose address is returned, and no other slot or unit changes.  The invariant of
    the table is kept in every case. *)
Theorem storage_unit_provision DBG sizeof_SPD_IOQ E refs Params ProcessId a :
  ext_wf E refs -> params_wf Params -> 0 <= sizeof_SPD_IOQ <= PAGE_SIZE - 8 ->
  a <> 0 -> Units E !! a = None -> Z.of_nat (length refs) < 2 ^ 32 - 2 ->
  exists r btl E' eff,
    SpdStorageUnitProvision DBG sizeof_SPD_IOQ E Params ProcessId a true
      = Some (r, btl, E', eff) /\
    ext_wf E' refs /\ provision_result E (NewStorageUnit Params ProcessId) a r btl E' eff.
Proof. apply provision_spec. Qed.

(** The first unit of an empty table. *)
Lemma storage_unit_provision_witness :
  exists btl E', SpdStorageUnitProvision false sizeof_SPD_IOQ_64 (empty_extension 16)
      (example_params 1) 77 4096 true = Some (STATUS_SUCCESS, btl, E', mkEffects [] true) /\
    ext_wf E' [] /\ btl = 0 /\ StorageUnits E' !! 0%nat = Some 4096.
Proof.
  destruct (storage_unit_provision false sizeof_SPD_IOQ_64 (empty_extension 16) []
    (example_params 1) 77 4096) as (r & btl & E' & eff & HP & Hwf & _).
  - apply empty_extension_wf. vm_compute. split; discriminate.
  - exact example_params_wf.
  - vm_compute. split; discriminate.
  - discriminate.
  - reflexivity.
  - reflexivity.
  - exists btl, E'. pose proof HP as HP'. vm_compute in HP'. injection HP' as <- <- <- <-.
    split; [exact HP|]. split; [exact Hwf|]. split; reflexivity.
Defined.

(** [SpdStorageUnitUnprovision], run alone, by GUID or by slot: no such unit, or a unit of
    another process, is an error that changes nothing; the unit of the calling process goes off
    the table, all requests of its queue are aborted, waiting ones first, and no other slot or
    unit changes.  The invariant of the table is kept in every case. *)
Theorem storage_unit_unprovision DBG E refs G Index ProcessId :
  ext_wf E refs -> Z.of_nat (length refs) < 2 ^ 32 - 2 ->
  exists r E' eff, SpdStorageUnitUnprovision DBG E G Index ProcessId = Some (r, E', eff) /\
    ext_wf E' refs /\ unprovision_result E G Index ProcessId r E' eff.
Proof. apply unprovision_spec. Qed.

Lemma example_E1_wf : ext_wf example_E1 [].
Proof.
  destruct (provision_spec false sizeof_SPD_IOQ_64 (empty_extension 16) []
    (example_params 1) 77 4096) as (r & btl & E' & eff & HP & Hwf & _).
  - apply empty_extension_wf. vm_compute. split; discriminate.
  - exact example_params_wf.
  - vm_compute. split; discriminate.
  - discriminate.
  - reflexivity.
  - reflexivity.
  - unfold example_E1. rewrite HP. exact Hwf.
Qed.

(** Another process, then the owner. *)
Lemma storage_unit_unprovision_witness :
  SpdStorageUnitUnprovision false example_E1 (Some (example_guid 1)) 0 78
    = Some (STATUS_ACCESS_DENIED, example_E1, no_effects) /\
  exists E', SpdStorageUnitUnprovision false example_E1 (Some (example_guid 1)) 0 77
    = Some (STATUS_SUCCESS, E', mkEffects [] true) /\ ext_wf E' [].
Proof.
  split; [vm_compute; reflexivity|].
  destruct (storage_unit_unprovision false example_E1 [] (Some (example_guid 1)) 0 77)
    as (r & E' & eff & HU & Hwf & _); [exact example_E1_wf|reflexivity|].
  exists E'. split; [|exact Hwf]. rewrite HU. vm_compute in HU. injection HU as <- <- <-.
  reflexivity.
Defined.

(** The end of a process removes exactly the storage units of that process: each of its
    slots is freed, every other slot keeps its unit as it was, and the bus change is reported
    once for each unit removed. *)
Theorem process_exit_unprovisions DBG E refs ProcessId :
  ext_wf E refs -> Z.of_nat (length refs) < 2 ^ 32 - 2 -> 0 <= ProcessId < 2 ^ 32 ->
  exists E' effs, SpdDeviceExtensionNotifyRoutine DBG E ProcessId false = Some (E', effs) /\
    ext_wf E' refs /\
    (forall i, StorageUnits E' !! i =
       if slot_matches E (Some ProcessId) i then Some 0 else StorageUnits E !! i) /\
    (forall p, p <> 0 -> p ∈ StorageUnits E' -> Units E' !! p = Units E !! p) /\
    length effs = count_matches E (Some ProcessId) (StorageUnits E) /\
    Forall (fun e => eff_bus_change e = true) effs.
Proof.
  intros Hwf Hlen Hpid.
  destruct (notify_spec DBG E refs ProcessId Hwf Hlen) as (E' & effs & HN & Hwf' & HR & Hl & Hb);
    [by rewrite u32_small|].
  destruct HR as (_ & HS & HU). exists E', effs. split_and!; try done.
  intros i. rewrite HS. destruct (slot_matches E (Some ProcessId) i) eqn:Hm;
    [|by rewrite andb_false_r].
  rewrite bool_decide_true; [done|]. unfold slot_matches in Hm.
  destruct (StorageUnits E !! i) eqn:Hi; [|done]. apply lookup_lt_Some in Hi.
  rewrite (wf_length _ _ Hwf) in Hi. pose proof (wf_capacity _ _ Hwf).
  unfold SPD_IOCTL_STORAGE_UNIT_MAX_CAPACITY in *. lia.
Qed.

Lemma process_exit_unprovisions_witness :
  exists E' effs, SpdDeviceExtensionNotifyRoutine false example_E1 77 false = Some (E', effs) /\
    StorageUnits E' !! 0%nat = Some 0 /\ length effs = 1%nat.
Proof.
  destruct (process_exit_unprovisions false example_E1 [] 77)
    as (E' & effs & HN & _ & HS & _ & Hl & _); [exact example_E1_wf|reflexivity|split; lia|].
  exists E', effs. split; [exact HN|]. split; [rewrite HS; vm_compute; reflexivity|].
  rewrite Hl. vm_compute. reflexivity.
Defined.

(** The use bitmap has exactly the bits of the slots that hold a unit (of the process asked
    for, if one is), and the count is the number of these bits, although the loop stops as soon
    as it has counted as many units as the table holds. *)
Theorem use_bitmap_exact E refs PProcessId :
  ext_wf E refs ->
  exists Count Bitmap, SpdStorageUnitGetUseBitmap E PProcessId = Some (Count, Bitmap) /\
    length Bitmap = 32%nat /\ Count = Z.of_nat (count_matches E PProcessId (StorageUnits E)) /\
    forall I, (I < 256)%nat -> bitmap_on Bitmap I = Some (slot_matches E PProcessId I).
Proof.
  intros Hwf. destruct (use_bitmap_spec E refs PProcessId Hwf) as (Count & Bm & HU & Hl & HC & HB).
  exists Count, Bm. split_and!; try done. intros I HI. by rewrite bitmap_on_spec, HB.
Qed.

Lemma use_bitmap_exact_witness :
  exists Bitmap, SpdStorageUnitGetUseBitmap example_E1 None = Some (1, Bitmap) /\
    bitmap_on Bitmap 0 = Some true /\ bitmap_on Bitmap 1 = Some false.
Proof.
  destruct (use_bitmap_exact example_E1 [] None example_E1_wf) as (C & Bm & HU & _ & -> & HB).
  exists Bm. split; [rewrite HU; vm_compute; reflexivity|].
  split; rewrite HB by lia; vm_compute; reflexivity.
Defined.

(** The serial number of a unit is the text of its GUID: 36 bytes, and different for
    different GUIDs. *)
Theorem serial_number_injective g h :
  guid_wf g -> guid_wf h -> FormatSerialNumber g = FormatSerialNumber h ->
  g = h /\ length (FormatSerialNumber g) = 36%nat.
Proof.
  intros (A1 & A2 & A3 & A4 & A5) (B1 & B2 & B3 & B4 & B5) HE.
  destruct g as [a1 a2 a3 a4], h as [b1 b2 b3 b4]; cbn [Data1 Data2 Data3 Data4] in *.
  destruct (list_of_8 a4 A4) as (x0 & x1 & x2 & x3 & x4 & x5 & x6 & x7 & ->).
  destruct (list_of_8 b4 B4) as (y0 & y1 & y2 & y3 & y4 & y5 & y6 & y7 & ->).
  split; [|apply serial_number_length].
  unfold FormatSerialNumber in HE. cbn [Data1 Data2 Data3 Data4 lookup_total list_lookup_total] in HE.
  repeat match goal with H : Forall is_byte (_ :: _) |- _ => apply Forall_cons in H as [? H] end.
  unfold is_byte in *.
  repeat match goal with
  | H : hex_digits _ _ ++ _ = hex_digits _ _ ++ _ |- _ =>
      apply hex_digits_app_inj in H as [? H]; [subst|simpl; lia|simpl; lia]
  | H : [45] ++ _ = [45] ++ _ |- _ => apply app_inv_head in H
  | H : hex_digits _ _ = hex_digits _ _ |- _ =>
      apply hex_digits_inj in H; [subst|simpl; lia|simpl; lia]
  end; done.
Qed.

Lemma serial_number_injective_witness :
  guid_wf (example_guid 0x0badf00d) /\
  FormatSerialNumber (example_guid 0x0badf00d) =
    (* 0badf00d-1234-5678-0102-030405060708 *)
    [48; 98; 97; 100; 102; 48; 48; 100; 45; 49; 50; 51; 52; 45; 53; 54; 55; 56; 45; 48; 49;
     48; 50; 45; 48; 51; 48; 52; 48; 53; 48; 54; 48; 55; 48; 56] /\
  length (FormatSerialNumber (example_guid 0x0badf00d)) = 36%nat.
Proof.
  assert (guid_wf (example_guid 0x0badf00d)) as Hg.
  { unfold guid_wf, example_guid. simpl. repeat split; try lia.
    repeat (constructor; [unfold is_byte; lia|]). constructor. }
  split; [exact Hg|]. split; [vm_compute; reflexivity|].
  apply (serial_number_injective (example_guid 0x0badf00d) (example_guid 0x0badf00d) Hg Hg
    eq_refl).
Defined.

(** When the allocation of a new unit fails, the error path of [SpdStorageUnitProvision]
    follows the null pointer: the code after [exit] reads [StorageUnit->Ioq] before it tests
    [StorageUnit]. *)
Theorem provision_out_of_memory_faults DBG sizeof_SPD_IOQ E refs Params ProcessId AllocIoq :
  ext_wf E refs ->
  SpdStorageUnitProvision DBG sizeof_SPD_IOQ E Params ProcessId 0 AllocIoq = None.
Proof.
  intros Hwf. unfold SpdStorageUnitProvision. rewrite Z.eqb_refl. unfold provision_exit.
  by rewrite (wf_null _ _ Hwf).
Qed.

Lemma provision_out_of_memory_faults_witness :
  ext_wf example_E1 [] /\
  SpdStorageUnitProvision false sizeof_SPD_IOQ_64 example_E1 (example_params 2) 78 0 true = None.
Proof.
  split; [exact example_E1_wf|].
  apply (provision_out_of_memory_faults _ _ example_E1 [] _ _ _ example_E1_wf).
Defined.

(** A process that tries to unprovision a unit it does not own reads the owner of the unit
    after the lock is released, without a reference: when the owner unprovisions the unit in
    between, this is a read of freed memory. *)
Theorem unprovision_race_faults :
  exists p E1 E2 eff,
    unprovision_locked example_E1 (Some (example_guid 1)) 0 78 = Some (p, E1) /\
    SpdStorageUnitUnprovision false E1 (Some (example_guid 1)) 0 77
      = Some (STATUS_SUCCESS, E2, eff) /\
    unprovision_unlocked false E2 p 78 = None.
Proof.
  destruct (SpdStorageUnitUnprovision false example_E1 (Some (example_guid 1)) 0 77)
    as [[[r E2] eff]|] eqn:HU; [|vm_compute in HU; discriminate].
  exists 4096, example_E1, E2, eff. split; [vm_compute; reflexivity|].
  rewrite HU. vm_compute in HU. injection HU as <- <- <-. split; vm_compute; reflexivity.
Qed.
