(* ===== verification/Scsi.v ===== *)
(** * SCSI commands: [sys/scsi.c]

    A handler takes the storage unit and the request and gives the SRB status and the request
    as it leaves it.  [None] is an access outside the buffers of the request, or another fault.

    The structures of the Driver Kit are written as the bytes that the T10 standards give them:
    a group of stores is a list of offsets and bytes, in the order of the source.  A store to a
    bit field of a byte that the handler has zeroed is the store of the byte's value. *)

From S2P Require Import Prelude Wdk IoctlTypes ListEntry Srb Ioq StgUnit.

(** ** Sense data *)

(** [SpdScsiErrorEx]; a null [PInformation] is [None]. *)
Definition SpdScsiErrorEx (Srb : SRB) (SenseKey AdditionalSenseCode AdditionalSenseCodeQualifier : Z)
    (PInformation : option Z) : option (Z * SRB) :=
  let SenseInfoBufferLength := SrbGetSenseInfoBufferLength Srb in
  let SenseInfoBuffer := SrbGetSenseInfoBuffer Srb in
  if negb (0 =? SenseInfoBuffer) && (sizeof_SENSE_DATA <=? SenseInfoBufferLength) &&
     (SrbGetSrbFlags Srb .& SRB_FLAGS_DISABLE_AUTOSENSE =? 0) then
    b ← buf_zero SenseInfoBufferLength (srb_Sense Srb);
    b ← buf_writes
          [(0%nat, [SCSI_SENSE_ERRORCODE_FIXED_CURRENT]);
           (2%nat, [SenseKey .& 0xf]);
           (12%nat, [AdditionalSenseCode]);
           (13%nat, [AdditionalSenseCodeQualifier]);
           (7%nat, [sizeof_SENSE_DATA - 8])] b;
    b ← match PInformation with
        | Some Information =>
            buf_writes [(3%nat, be32 Information);
                        (0%nat, [SCSI_SENSE_ERRORCODE_FIXED_CURRENT .| 0x80])] b
        | None => Some b
        end;
    let Srb := SrbSetScsiStatus (Srb <| srb_Sense := b |>) SCSISTAT_CHECK_CONDITION in
    Some (SRB_STATUS_ERROR .| SRB_STATUS_AUTOSENSE_VALID, Srb)
  else Some (SRB_STATUS_ERROR, Srb).

Definition SpdScsiError (Srb : SRB) (K A : Z) : option (Z * SRB) := SpdScsiErrorEx Srb K A 0 None.

(** ** Responses *)

(** [RtlZeroMemory(DataBuffer, DataTransferLength)] *)
Definition zero_data (Srb : SRB) : option SRB :=
  b ← buf_zero (SrbGetDataTransferLength Srb) (srb_Data Srb);
  Some (Srb <| srb_Data := b |>).

(** Stores through [DataBuffer]. *)
Definition store_data (Srb : SRB) (ws : list (nat * list Z)) : option SRB :=
  if 0 =? SrbGetDataBuffer Srb then None
  else b ← buf_writes ws (srb_Data Srb); Some (Srb <| srb_Data := b |>).

(** The end of a response: too long for the buffer, or the stores and the new length. *)
Definition respond (Srb : SRB) (Length : Z) (ws : list (nat * list Z)) : option (Z * SRB) :=
  if Length >? SrbGetDataTransferLength Srb then Some (SRB_STATUS_DATA_OVERRUN, Srb)
  else
    Srb ← store_data Srb ws;
    Some (SRB_STATUS_SUCCESS, SrbSetDataTransferLength Srb Length).

Definition SpdScsiReportLuns (StorageUnit : option SPD_STORAGE_UNIT) (Srb : SRB)
    : option (Z * SRB) :=
  if 0 =? SrbGetDataBuffer Srb then Some (SRB_STATUS_INTERNAL_ERROR, Srb)
  else
    Srb ← zero_data Srb;
    let Length := match StorageUnit with Some _ => sizeof_LUN | None => 0 end in
    respond Srb (sizeof_LUN_LIST + Length) [(0%nat, be32 Length)].

(** *** INQUIRY *)

Definition InquiryStandard (u : SPD_STORAGE_UNIT) (Srb : SRB) : option (Z * SRB) :=
  let P := StorageUnitParams u in
  respond Srb INQUIRYDATABUFFERSIZE
    [(0%nat, [(DeviceType P .& 0x1f) .| (DEVICE_QUALIFIER_ACTIVE ≪ 5)]);
     (1%nat, [0]);                                (* RemovableMedia *)
     (2%nat, [5]);                                (* Versions *)
     (3%nat, [2]);                                (* ResponseDataFormat *)
     (7%nat, [2]);                                (* CommandQueue *)
     (4%nat, [INQUIRYDATABUFFERSIZE - 5]);        (* AdditionalLength *)
     (8%nat, SPD_IOCTL_VENDOR_ID);
     (16%nat, ProductId P);
     (32%nat, ProductRevisionLevel P)].

(** The first byte and the page code of every page. *)
Definition vpd_header (u : SPD_STORAGE_UNIT) (PageCode : Z) : list (nat * list Z) :=
  [(0%nat, [(DeviceType (StorageUnitParams u) .& 0x1f) .| (DEVICE_QUALIFIER_ACTIVE ≪ 5)]);
   (1%nat, [PageCode])].

Definition InquirySupportedPages (u : SPD_STORAGE_UNIT) (Srb : SRB) : option (Z * SRB) :=
  let PageCount := 5 in
  respond Srb (sizeof_VPD_SUPPORTED_PAGES_PAGE + PageCount)
    (vpd_header u VPD_SUPPORTED_PAGES ++
     [(3%nat, [PageCount]);
      (4%nat, [VPD_SUPPORTED_PAGES; VPD_SERIAL_NUMBER; VPD_DEVICE_IDENTIFIERS;
               VPD_BLOCK_LIMITS; VPD_LOGICAL_BLOCK_PROVISIONING])]).

Definition sizeof_SerialNumber : Z := 36.

Definition InquirySerialNumber (u : SPD_STORAGE_UNIT) (Srb : SRB) : option (Z * SRB) :=
  respond Srb (sizeof_VPD_SERIAL_NUMBER_PAGE + sizeof_SerialNumber)
    (vpd_header u VPD_SERIAL_NUMBER ++
     [(3%nat, [sizeof_SerialNumber]);
      (4%nat, SerialNumber u)]).

Definition Identifier0Length : Z := 8 + 16 + 4 + sizeof_SerialNumber.
Definition Identifier1Length : Z := 8.

(** The two descriptors start at offsets 4 and 72; their identifiers, at 8 and 76. *)
Definition InquiryDeviceIdentifiers (u : SPD_STORAGE_UNIT) (Srb : SRB) : option (Z * SRB) :=
  let P := StorageUnitParams u in
  let Descriptors := sizeof_VPD_IDENTIFICATION_DESCRIPTOR + Identifier0Length +
                     sizeof_VPD_IDENTIFICATION_DESCRIPTOR + Identifier1Length in
  let Descriptor1 := Z.to_nat (sizeof_VPD_IDENTIFICATION_PAGE +
                     sizeof_VPD_IDENTIFICATION_DESCRIPTOR + Identifier0Length) in
  respond Srb (sizeof_VPD_IDENTIFICATION_PAGE + Descriptors)
    (vpd_header u VPD_DEVICE_IDENTIFIERS ++
     [(3%nat, [Descriptors]);
      (4%nat, [VpdCodeSetAscii]);
      (5%nat, [VpdIdentifierTypeVendorId .| (VpdAssocDevice ≪ 4)]);
      (7%nat, [Identifier0Length]);
      (8%nat, SPD_IOCTL_VENDOR_ID);
      (16%nat, ProductId P);
      (32%nat, ProductRevisionLevel P);
      (36%nat, SerialNumber u);
      (Descriptor1, [VpdCodeSetBinary]);
      ((Descriptor1 + 1)%nat, [VpdIdentifierTypeVendorSpecific .| (VpdAssocDevice ≪ 4)]);
      ((Descriptor1 + 3)%nat, [Identifier1Length]);
      ((Descriptor1 + 4)%nat, [80; 73; 68; if EjectDisabled P then 88 else 32]);  (* PID, X *)
      ((Descriptor1 + 8)%nat, be32 (OwnerProcessId u))]).

Definition InquiryBlockLimits (u : SPD_STORAGE_UNIT) (Srb : SRB) : option (Z * SRB) :=
  let P := StorageUnitParams u in
  if BlockLength P =? 0 then None
  else
  respond Srb sizeof_VPD_BLOCK_LIMITS_PAGE
    (vpd_header u VPD_BLOCK_LIMITS ++
     [(3%nat, [sizeof_VPD_BLOCK_LIMITS_PAGE - 4]);
      (8%nat, be32 (MaxTransferLength P / BlockLength P))] ++
     (if UnmapSupported P
      then [(20%nat, [0xff; 0xff; 0xff; 0xff]);
            (24%nat, be32 (MaxTransferLength P / sizeof_UNMAP_BLOCK_DESCRIPTOR))]
      else [])).

Definition InquiryLogicalBlockProvisioning (u : SPD_STORAGE_UNIT) (Srb : SRB)
    : option (Z * SRB) :=
  respond Srb sizeof_VPD_LOGICAL_BLOCK_PROVISIONING_PAGE
    (vpd_header u VPD_LOGICAL_BLOCK_PROVISIONING ++
     [(3%nat, [sizeof_VPD_LOGICAL_BLOCK_PROVISIONING_PAGE - 4])] ++
     (if UnmapSupported (StorageUnitParams u)
      then [(5%nat, [0x80]); (6%nat, [PROVISIONING_TYPE_THIN])]
      else [])).

(** A page of vital product data. *)
Definition InquiryPage (u : SPD_STORAGE_UNIT) (Srb : SRB) (PageCode : Z) : option (Z * SRB) :=
  if PageCode =? VPD_SUPPORTED_PAGES then InquirySupportedPages u Srb
  else if PageCode =? VPD_SERIAL_NUMBER then InquirySerialNumber u Srb
  else if PageCode =? VPD_DEVICE_IDENTIFIERS then InquiryDeviceIdentifiers u Srb
  else if PageCode =? VPD_BLOCK_LIMITS then InquiryBlockLimits u Srb
  else if PageCode =? VPD_LOGICAL_BLOCK_PROVISIONING then InquiryLogicalBlockProvisioning u Srb
  else SpdScsiError Srb SCSI_SENSE_ILLEGAL_REQUEST SCSI_ADSENSE_INVALID_CDB.

Definition SpdScsiInquiry (u : SPD_STORAGE_UNIT) (Srb : SRB) (Cdb : list Z) : option (Z * SRB) :=
  if 0 =? SrbGetDataBuffer Srb then Some (SRB_STATUS_INTERNAL_ERROR, Srb)
  else
    Srb ← zero_data Srb;
    b1 ← Cdb !! 1%nat;
    PageCode ← Cdb !! 2%nat;
    let EnableVitalProductData := b1 .& 1 in
    if 0 =? EnableVitalProductData then
      if negb (0 =? PageCode)
      then SpdScsiError Srb SCSI_SENSE_ILLEGAL_REQUEST SCSI_ADSENSE_INVALID_CDB
      else InquiryStandard u Srb
    else InquiryPage u Srb PageCode.

(** *** MODE SENSE *)

Definition DeviceSpecificParameter (P : SPD_IOCTL_STORAGE_UNIT_PARAMS) : Z :=
  (if WriteProtected P then MODE_DSP_WRITE_PROTECT else 0) .|
  (if CacheSupported P then MODE_DSP_FUA_SUPPORTED else 0).

(** The caching page at the offset [o]. *)
Definition ModeCachingPage (P : SPD_IOCTL_STORAGE_UNIT_PARAMS) (o : nat) : list (nat * list Z) :=
  [(o, [MODE_PAGE_CACHING]);
   ((o + 1)%nat, [sizeof_MODE_CACHING_PAGE - 2]);
   ((o + 2)%nat, [b2z (negb (CacheSupported P)) .| (b2z (CacheSupported P) ≪ 2)])].

(** The two forms of the command have a header each, and the same page after it. *)
Definition SpdScsiModeSense (u : SPD_STORAGE_UNIT) (Srb : SRB) (Cdb : list Z) : option (Z * SRB) :=
  if 0 =? SrbGetDataBuffer Srb then Some (SRB_STATUS_INTERNAL_ERROR, Srb)
  else
    Srb ← zero_data Srb;
    b0 ← Cdb !! 0%nat;
    b2 ← Cdb !! 2%nat;
    let P := StorageUnitParams u in
    let Pc := b2 ≫ 6 in
    let PageCode := b2 .& 0x3f in
    if SCSIOP_MODE_SENSE =? b0 then
      if (MODE_SENSE_CHANGEABLE_VALUES =? Pc) ||
         (negb (MODE_PAGE_CACHING =? PageCode) && negb (MODE_SENSE_RETURN_ALL =? PageCode))
      then SpdScsiError Srb SCSI_SENSE_ILLEGAL_REQUEST SCSI_ADSENSE_INVALID_CDB
      else
        let DataLength := sizeof_MODE_PARAMETER_HEADER + sizeof_MODE_CACHING_PAGE in
        respond Srb DataLength
          ([(0%nat, [u8 (DataLength - 1)]); (1%nat, [0]);
            (2%nat, [DeviceSpecificParameter P]); (3%nat, [0])] ++
           ModeCachingPage P (Z.to_nat sizeof_MODE_PARAMETER_HEADER))
    else
      if (MODE_SENSE_CHANGEABLE_VALUES =? Pc) ||
         (negb (MODE_PAGE_CACHING =? PageCode) && negb (MODE_SENSE_RETURN_ALL =? PageCode))
      then SpdScsiError Srb SCSI_SENSE_ILLEGAL_REQUEST SCSI_ADSENSE_INVALID_CDB
      else
        let DataLength := sizeof_MODE_PARAMETER_HEADER10 + sizeof_MODE_CACHING_PAGE in
        respond Srb DataLength
          ([(0%nat, [0]); (1%nat, [u8 (DataLength - 2)]); (2%nat, [0]);
            (3%nat, [DeviceSpecificParameter P]); (6%nat, [0]); (7%nat, [0])] ++
           ModeCachingPage P (Z.to_nat sizeof_MODE_PARAMETER_HEADER10)).

(** *** READ CAPACITY *)

Definition SpdScsiReadCapacity (u : SPD_STORAGE_UNIT) (Srb : SRB) (Cdb : list Z)
    : option (Z * SRB) :=
  if 0 =? SrbGetDataBuffer Srb then Some (SRB_STATUS_INTERNAL_ERROR, Srb)
  else
    Srb ← zero_data Srb;
    b0 ← Cdb !! 0%nat;
    let P := StorageUnitParams u in
    if SCSIOP_READ_CAPACITY =? b0 then
      let U32 := if 0x100000000 >? BlockCount P then u32 (u32 (BlockCount P) - 1)
                 else 0xffffffff in
      respond Srb sizeof_READ_CAPACITY_DATA [(0%nat, be32 U32); (4%nat, be32 (BlockLength P))]
    else if sizeof_READ_CAPACITY_DATA_EX >? SrbGetDataTransferLength Srb
    then Some (SRB_STATUS_DATA_OVERRUN, Srb)
    else
      let U64 := u64 (BlockCount P - 1) in
      Srb ← store_data Srb [(0%nat, be64 U64); (8%nat, be32 (BlockLength P))];
      if sizeof_READ_CAPACITY16_DATA <=? SrbGetDataTransferLength Srb then
        Srb ← (if UnmapSupported P then store_data Srb [(14%nat, [0x80])] else Some Srb);
        Some (SRB_STATUS_SUCCESS, SrbSetDataTransferLength Srb sizeof_READ_CAPACITY16_DATA)
      else Some (SRB_STATUS_SUCCESS, SrbSetDataTransferLength Srb sizeof_READ_CAPACITY_DATA_EX).

(** ** Ranges of blocks *)

Definition is_read_op (op : Z) : bool :=
  (SCSIOP_READ6 =? op) || (SCSIOP_READ =? op) || (SCSIOP_READ12 =? op) || (SCSIOP_READ16 =? op).

Definition is_write_op (op : Z) : bool :=
  (SCSIOP_WRITE6 =? op) || (SCSIOP_WRITE =? op) || (SCSIOP_WRITE12 =? op) ||
  (SCSIOP_WRITE16 =? op).

Definition is_sync_op (op : Z) : bool :=
  (SCSIOP_SYNCHRONIZE_CACHE =? op) || (SCSIOP_SYNCHRONIZE_CACHE16 =? op).

(** [SpdCdbGetRange]: offset, length and "force unit access".  [None] is an assertion that
    fails, a CDB of another size than 16 bytes, or an operation code for which the code sets
    none of the three. *)
Definition SpdCdbGetRange (DBG : bool) (Cdb : list Z) : option (Z * Z * Z) :=
  match Cdb with
  | [c0; c1; c2; c3; c4; c5; c6; c7; c8; c9; c10; c11; c12; c13; c14; c15] =>
      _ ← ASSERT DBG (is_read_op c0 || is_write_op c0 || is_sync_op c0);
      let Group := c0 .& 0xE0 in
      if Group =? 0 ≪ 5 then
        Some (get_be24 (c1 .& 0x1f) c2 c3, (if negb (0 =? c4) then c4 else 256), 0)
      else if (Group =? 1 ≪ 5) || (Group =? 2 ≪ 5) then
        Some (get_be32 c2 c3 c4 c5, get_be16 c7 c8, (c1 ≫ 3) .& 1)
      else if Group =? 4 ≪ 5 then
        Some (get_be64 c2 c3 c4 c5 c6 c7 c8 c9, get_be32 c10 c11 c12 c13, (c1 ≫ 3) .& 1)
      else if Group =? 5 ≪ 5 then
        Some (get_be32 c2 c3 c4 c5, get_be32 c6 c7 c8 c9, (c1 ≫ 3) .& 1)
      else None
  | _ => None
  end.
