(* ===== verification/ScsiSpec.v ===== *)
(** * What the responses of [Scsi] are

    The data of every response is given here as a list of bytes, and each handler is shown to
    answer with it: the data buffer holds the bytes, then zeros.  Decoding the bytes gives the
    parameters of the storage unit back. *)

From S2P Require Import Prelude Wdk IoctlTypes ListEntry Srb Ioq IoqMem IoqSpec StgUnit StgUnitInv Scsi.

(** ** Replies *)

(** The request whose data buffer is [data] and then zeros, of length [n] for the caller. *)
Definition with_data (Srb : SRB) (data : list Z) (n : Z) : SRB :=
  SrbSetDataTransferLength
    (Srb <| srb_Data := data ++ replicate (length (srb_Data Srb) - length data) 0 |>) n.

(** A response whose data is [data]; a buffer that is too short for it is only cleared. *)
Definition reply (Srb : SRB) (data : list Z) : Z * SRB :=
  if Z.of_nat (length data) >? SrbGetDataTransferLength Srb
  then (SRB_STATUS_DATA_OVERRUN, with_data Srb [] (SrbGetDataTransferLength Srb))
  else (SRB_STATUS_SUCCESS, with_data Srb data (Z.of_nat (length data))).

(** The fixed format sense data of an error. *)
Definition sense_data (K A Q : Z) (Information : option Z) : list Z :=
  [SCSI_SENSE_ERRORCODE_FIXED_CURRENT .| match Information with Some _ => 0x80 | None => 0 end;
   0; K .& 0xf] ++
  match Information with Some i => be32 i | None => [0; 0; 0; 0] end ++
  [10; 0; 0; 0; 0; A; Q; 0; 0; 0; 0].

Definition senses (Srb : SRB) : bool :=
  negb (0 =? SrbGetSenseInfoBuffer Srb) && (18 <=? SrbGetSenseInfoBufferLength Srb) &&
  (SrbGetSrbFlags Srb .& SRB_FLAGS_DISABLE_AUTOSENSE =? 0).

(** A command that ends with a check condition. *)
Definition check_condition (Srb : SRB) (K A Q : Z) (Information : option Z) : Z * SRB :=
  if senses Srb then
    (SRB_STATUS_ERROR .| SRB_STATUS_AUTOSENSE_VALID,
     SrbSetScsiStatus
       (Srb <| srb_Sense := sense_data K A Q Information ++
                            replicate (length (srb_Sense Srb) - 18) 0 |>)
       SCSISTAT_CHECK_CONDITION)
  else (SRB_STATUS_ERROR, Srb).

(** ** The data *)

Definition report_luns_data (StorageUnit : option SPD_STORAGE_UNIT) : list Z :=
  match StorageUnit with
  | Some _ => [0; 0; 0; 8; 0; 0; 0; 0] ++ replicate 8 0
  | None => replicate 8 0
  end.

Definition inquiry_data (u : SPD_STORAGE_UNIT) : list Z :=
  [DIRECT_ACCESS_DEVICE; 0; 5; 2; 31; 0; 0; 2] ++ SPD_IOCTL_VENDOR_ID ++
  ProductId (StorageUnitParams u) ++ ProductRevisionLevel (StorageUnitParams u).

(** A page of vital product data. *)
Definition vpd_data (u : SPD_STORAGE_UNIT) (PageCode : Z) : option (list Z) :=
  let P := StorageUnitParams u in
  if PageCode =? 0x00 then Some ([0; 0x00; 0; 5] ++ [0x00; 0x80; 0x83; 0xB0; 0xB2])
  else if PageCode =? 0x80 then Some ([0; 0x80; 0; 36] ++ SerialNumber u)
  else if PageCode =? 0x83 then
    Some ([0; 0x83; 0; 80] ++
          [2; 1; 0; 64] ++ SPD_IOCTL_VENDOR_ID ++ ProductId P ++ ProductRevisionLevel P ++
                           SerialNumber u ++
          [1; 0; 0; 8] ++ [80; 73; 68; if EjectDisabled P then 88 else 32] ++
                          be32 (OwnerProcessId u))
  else if PageCode =? 0xB0 then
    Some ([0; 0xB0; 0; 60] ++ replicate 4 0 ++ be32 (MaxTransferLength P / BlockLength P) ++
          replicate 8 0 ++
          (if UnmapSupported P
           then be32 0xffffffff ++ be32 (MaxTransferLength P / 16)
           else replicate 8 0) ++
          replicate 36 0)
  else if PageCode =? 0xB2 then
    Some ([0; 0xB2; 0; 4; 0] ++ (if UnmapSupported P then [0x80; 2] else [0; 0]) ++ [0])
  else None.

(** The caching page of MODE SENSE. *)
Definition caching_page (P : SPD_IOCTL_STORAGE_UNIT_PARAMS) : list Z :=
  [8; 10; if CacheSupported P then 4 else 1] ++ replicate 9 0.

Definition mode_data (P : SPD_IOCTL_STORAGE_UNIT_PARAMS) (Long : bool) : list Z :=
  let Dsp := (if WriteProtected P then 0x80 else 0) + (if CacheSupported P then 0x10 else 0) in
  (if Long then [0; 18; 0; Dsp; 0; 0; 0; 0] else [15; 0; Dsp; 0]) ++ caching_page P.

Definition capacity_data (P : SPD_IOCTL_STORAGE_UNIT_PARAMS) : list Z :=
  be32 (Z.min (BlockCount P - 1) 0xffffffff) ++ be32 (BlockLength P).

Definition capacity16_data (P : SPD_IOCTL_STORAGE_UNIT_PARAMS) (Long : bool) : list Z :=
  be64 (BlockCount P - 1) ++ be32 (BlockLength P) ++
  (if Long then [0; 0; if UnmapSupported P then 0x80 else 0; 0] ++ replicate 16 0 else []).

(** The answer of a command: data, or a check condition "invalid field in CDB". *)
Definition answer (Srb : SRB) (data : option (list Z)) : Z * SRB :=
  if SrbGetDataBuffer Srb =? 0 then (SRB_STATUS_INTERNAL_ERROR, Srb)
  else match data with
       | Some data => reply Srb data
       | None => check_condition (with_data Srb [] (SrbGetDataTransferLength Srb))
                   SCSI_SENSE_ILLEGAL_REQUEST SCSI_ADSENSE_INVALID_CDB 0 None
       end.

Definition inquiry_answer (u : SPD_STORAGE_UNIT) (Cdb : list Z) : option (list Z) :=
  let PageCode := Cdb !!! 2%nat in
  if Z.odd (Cdb !!! 1%nat) then vpd_data u PageCode
  else if PageCode =? 0 then Some (inquiry_data u) else None.

(** The page control of the CDB has no effect. *)
Definition mode_sense_answer (P : SPD_IOCTL_STORAGE_UNIT_PARAMS) (Cdb : list Z)
    : option (list Z) :=
  let PageCode := Cdb !!! 2%nat mod 64 in
  if (PageCode =? 8) || (PageCode =? 63)
  then Some (mode_data P (negb (Cdb !!! 0%nat =? SCSIOP_MODE_SENSE))) else None.

Definition read_capacity_answer (P : SPD_IOCTL_STORAGE_UNIT_PARAMS) (Srb : SRB) (Cdb : list Z)
    : list Z :=
  if Cdb !!! 0%nat =? SCSIOP_READ_CAPACITY then capacity_data P
  else capacity16_data P (32 <=? SrbGetDataTransferLength Srb).

(** ** What an initiator reads *)

(** The 32-bit number at an offset of the data. *)
Definition read_be32 (off : nat) (data : list Z) : option Z :=
  b0 ← data !! off; b1 ← data !! (off + 1)%nat; b2 ← data !! (off + 2)%nat;
  b3 ← data !! (off + 3)%nat;
  Some (get_be32 b0 b1 b2 b3).

Definition read_be64 (off : nat) (data : list Z) : option Z :=
  hi ← read_be32 off data; lo ← read_be32 (off + 4)%nat data; Some (hi * 2 ^ 32 + lo).

(** The identification descriptors of the page 0x83: code set, type, association and
    identifier of each. *)
Fixpoint descriptors (fuel : nat) (data : list Z) : option (list (Z * Z * Z * list Z)) :=
  match data, fuel with
  | [], _ => Some []
  | c :: t :: _ :: n :: data, S fuel =>
      Identifier ← buf_read 0 (Z.to_nat n) data;
      ds ← descriptors fuel (drop (Z.to_nat n) data);
      Some ((c .& 0xf, t .& 0xf, (t ≫ 4) .& 0x3, Identifier) :: ds)
  | _, _ => None
  end.

Definition identification (data : list Z) : option (list (Z * Z * Z * list Z)) :=
  n ← data !! 3%nat;
  ds ← buf_read 4 (Z.to_nat n) data;
  descriptors (length ds) ds.

(** The process that the descriptors name as the owner of the volume, with the test that the
    launcher makes of each. *)
Fixpoint owner_process (ds : list (Z * Z * Z * list Z)) : option Z :=
  match ds with
  | [] => None
  | (c, t, a, [p; i; d; x; b0; b1; b2; b3]) :: ds =>
      if (c =? 1) && (t =? 0) && (a =? 0) && (p =? 80) && (i =? 73) && (d =? 68) &&
         ((x =? 32) || (x =? 88))
      then Some (get_be32 b0 b1 b2 b3) else owner_process ds
  | _ :: ds => owner_process ds
  end.

(** ** Replies *)

Section Replies.
Context (Srb : SRB) (Hwf : srb_wf Srb) (Hbuf : srb_DataBuffer Srb <> 0).

Lemma data_not_null : (0 =? SrbGetDataBuffer Srb) = false.
Proof using Hbuf. apply Z.eqb_neq. auto. Qed.

Lemma zero_data_spec :
  zero_data Srb = Some (with_data Srb [] (SrbGetDataTransferLength Srb)).
Proof using Hwf Hbuf.
  unfold zero_data, with_data. rewrite buf_zero_all by apply (srb_wf_Data _ Hwf Hbuf).
  simpl. rewrite Nat.sub_0_r. by destruct Srb.
Qed.

(** Stores into the buffer. *)
Lemma store_over data ws data' n :
  buf_writes ws data = Some data' ->
  store_data (with_data Srb data n) ws = Some (with_data Srb data' n).
Proof using Hwf Hbuf.
  intros Hws. pose proof (buf_writes_length _ _ _ Hws) as Hd.
  unfold store_data. change (SrbGetDataBuffer (with_data _ _ _)) with (SrbGetDataBuffer Srb).
  rewrite data_not_null. change (srb_Data (with_data Srb data n))
    with (data ++ replicate (length (srb_Data Srb) - length data) 0).
  rewrite (buf_writes_app _ _ _ _ Hws). opt. unfold with_data. rewrite Hd. by destruct Srb.
Qed.

Lemma with_data_zeros (k : nat) n :
  (k <= length (srb_Data Srb))%nat -> with_data Srb (replicate k 0) n = with_data Srb [] n.
Proof.
  intros Hk. unfold with_data. rewrite length_replicate, <- replicate_add. simpl.
  by replace (k + (length (srb_Data Srb) - k))%nat with (length (srb_Data Srb) - 0)%nat by lia.
Qed.

Lemma store_spec (k : nat) ws data :
  buf_writes ws (replicate k 0) = Some data -> Z.of_nat k <= SrbGetDataTransferLength Srb ->
  store_data (with_data Srb [] (SrbGetDataTransferLength Srb)) ws
  = Some (with_data Srb data (SrbGetDataTransferLength Srb)).
Proof using Hwf Hbuf.
  intros Hws Hk. pose proof (srb_wf_Data _ Hwf Hbuf) as Hlen.
  unfold SrbGetDataTransferLength in Hk.
  rewrite <- (with_data_zeros k) by lia. by apply store_over.
Qed.

Lemma respond_spec Length ws data :
  buf_writes ws (replicate (Z.to_nat Length) 0) = Some data -> 0 <= Length ->
  respond (with_data Srb [] (SrbGetDataTransferLength Srb)) Length ws = Some (reply Srb data).
Proof using Hwf Hbuf.
  intros Hws HL. pose proof (buf_writes_length _ _ _ Hws) as Hd. rewrite length_replicate in Hd.
  unfold respond, reply. rewrite Hd, Z2Nat.id by done.
  change (SrbGetDataTransferLength (with_data Srb [] (SrbGetDataTransferLength Srb)))
    with (SrbGetDataTransferLength Srb).
  destruct (Length >? SrbGetDataTransferLength Srb) eqn:E; [done|]. zify_bools.
  by rewrite (store_spec _ _ _ Hws) by lia.
Qed.

Lemma error_ex_spec s K A Q Information :
  srb_Sense s = srb_Sense Srb -> srb_SenseInfoBuffer s = srb_SenseInfoBuffer Srb ->
  srb_SenseInfoBufferLength s = srb_SenseInfoBufferLength Srb ->
  SpdScsiErrorEx s K A Q Information = Some (check_condition s K A Q Information).
Proof using Hwf.
  intros E1 E2 E3. unfold SpdScsiErrorEx, check_condition, senses.
  unfold SrbGetSenseInfoBuffer, SrbGetSenseInfoBufferLength. rewrite E1, E2, E3.
  unfold sizeof_SENSE_DATA.
  destruct (negb (0 =? srb_SenseInfoBuffer Srb) && (18 <=? srb_SenseInfoBufferLength Srb) &&
            (SrbGetSrbFlags s .& SRB_FLAGS_DISABLE_AUTOSENSE =? 0)) eqn:E; [|done].
  apply andb_true_iff in E as [E _]. zify_bools.
  pose proof (srb_wf_Sense _ Hwf ltac:(lia)) as Hlen.
  rewrite buf_zero_all by done. cbn [mbind option_bind].
  assert (length (srb_Sense Srb) = 18 + (length (srb_Sense Srb) - 18))%nat as El by lia.
  rewrite El at 1. rewrite replicate_add. erewrite buf_writes_app by reflexivity.
  destruct Information as [i|]; [|reflexivity].
  cbn [mbind option_bind]. erewrite buf_writes_app by reflexivity. reflexivity.
Qed.

(** *** The handlers *)

Lemma report_luns_spec StorageUnit :
  SpdScsiReportLuns StorageUnit Srb = Some (reply Srb (report_luns_data StorageUnit)).
Proof using Hwf Hbuf.
  unfold SpdScsiReportLuns. rewrite data_not_null, zero_data_spec. opt.
  destruct StorageUnit; apply respond_spec; done.
Qed.

Context (u : SPD_STORAGE_UNIT) (Hu : unit_data_wf u).

Lemma inquiry_standard_spec :
  InquiryStandard u (with_data Srb [] (SrbGetDataTransferLength Srb))
  = Some (reply Srb (inquiry_data u)).
Proof using Hwf Hbuf Hu.
  destruct Hu as [HP _]. unfold InquiryStandard, inquiry_data. rewrite (wf_DeviceType _ HP).
  destruct (StorageUnitParams u) as [g bc bl pid rev dt wp ca un ej mtl].
  pose proof (wf_ProductId _ HP) as Hp. pose proof (wf_ProductRevisionLevel _ HP) as Hr.
  simpl in Hp, Hr. explode pid Hp. explode rev Hr. apply respond_spec; done.
Qed.

Lemma inquiry_page_spec PageCode data :
  vpd_data u PageCode = Some data ->
  InquiryPage u (with_data Srb [] (SrbGetDataTransferLength Srb)) PageCode
  = Some (reply Srb data).
Proof using Hwf Hbuf Hu.
  destruct Hu as [HP Hs]. unfold vpd_data, InquiryPage.
  unfold InquirySupportedPages, InquirySerialNumber, InquiryDeviceIdentifiers,
    InquiryBlockLimits, InquiryLogicalBlockProvisioning, vpd_header.
  pose proof (wf_BlockLength _ HP) as Hbl.
  rewrite (wf_DeviceType _ HP).
  destruct u as [rc P sn opid ioq dev tpid]. simpl in *.
  destruct P as [g bc bl pid rev dt wp ca un ej mtl].
  pose proof (wf_ProductId _ HP) as Hp. pose proof (wf_ProductRevisionLevel _ HP) as Hr.
  simpl in *. clear HP Hu. explode pid Hp. explode rev Hr. explode sn Hs.
  assert ((bl =? 0) = false) as -> by (apply Z.eqb_neq; lia).
  unfold VPD_SUPPORTED_PAGES, VPD_SERIAL_NUMBER, VPD_DEVICE_IDENTIFIERS, VPD_BLOCK_LIMITS,
    VPD_LOGICAL_BLOCK_PROVISIONING.
  case_bools; intros [= <-]; apply respond_spec; reflexivity || done.
Qed.

Lemma cdb_at i : (i < 16)%nat -> SrbGetCdb Srb !! i = Some (SrbGetCdb Srb !!! i).
Proof using Hwf.
  intros Hi. apply list_lookup_lookup_total_lt. unfold SrbGetCdb.
  rewrite (srb_wf_Cdb _ Hwf). done.
Qed.

Lemma cdb_byte i : (i < 16)%nat -> is_byte (SrbGetCdb Srb !!! i).
Proof using Hwf.
  intros Hi. pose proof (srb_wf_Cdb_bytes _ Hwf) as Hb. rewrite Forall_lookup in Hb.
  eapply Hb. by apply cdb_at.
Qed.

Lemma answer_data data : answer Srb (Some data) = reply Srb data.
Proof using Hbuf. unfold answer. by rewrite (proj2 (Z.eqb_neq (SrbGetDataBuffer Srb) 0) Hbuf). Qed.

Lemma answer_error :
  SpdScsiError (with_data Srb [] (SrbGetDataTransferLength Srb))
    SCSI_SENSE_ILLEGAL_REQUEST SCSI_ADSENSE_INVALID_CDB = Some (answer Srb None).
Proof using Hwf Hbuf.
  unfold SpdScsiError, answer. rewrite (proj2 (Z.eqb_neq (SrbGetDataBuffer Srb) 0) Hbuf). by apply error_ex_spec.
Qed.

Lemma inquiry_spec :
  SpdScsiInquiry u Srb (SrbGetCdb Srb)
  = Some (answer Srb (inquiry_answer u (SrbGetCdb Srb))).
Proof using Hwf Hbuf Hu.
  unfold SpdScsiInquiry, inquiry_answer. rewrite data_not_null, zero_data_spec, !cdb_at by lia.
  opt. change 1 with (Z.ones 1) at 1. rewrite Z.land_ones by lia.
  rewrite <- Z.bit0_odd, Z.testbit_odd, Z.shiftr_0_r. change (2 ^ 1) with 2. rewrite Zmod_odd.
  destruct (Z.odd _); simpl.
  - change (0 =? 1) with false. cbv iota.
    destruct (vpd_data u _) as [data|] eqn:E.
    + rewrite answer_data. by apply inquiry_page_spec.
    + rewrite <- answer_error. revert E. unfold vpd_data, InquiryPage.
      unfold VPD_SUPPORTED_PAGES, VPD_SERIAL_NUMBER, VPD_DEVICE_IDENTIFIERS, VPD_BLOCK_LIMITS,
        VPD_LOGICAL_BLOCK_PROVISIONING. by case_bools.
  - change (0 =? 0) with true. cbv iota. rewrite Z.eqb_sym.
    destruct (_ =? 0); cbn [negb]; [rewrite answer_data; apply inquiry_standard_spec|].
    apply answer_error.
Qed.

Lemma mode_sense_spec :
  SpdScsiModeSense u Srb (SrbGetCdb Srb)
  = Some (answer Srb (mode_sense_answer (StorageUnitParams u) (SrbGetCdb Srb))).
Proof using Hwf Hbuf Hu.
  unfold SpdScsiModeSense, mode_sense_answer.
  rewrite data_not_null, zero_data_spec, !cdb_at by lia. opt.
  pose proof (cdb_byte 2 ltac:(lia)) as Hb.
  change 0x3f with (Z.ones 6). rewrite Z.land_ones, Z.shiftr_div_pow2 by lia.
  assert ((MODE_SENSE_CHANGEABLE_VALUES =? SrbGetCdb Srb !!! 2%nat / 2 ^ 6) = false) as ->.
  { unfold MODE_SENSE_CHANGEABLE_VALUES. apply Z.eqb_neq. unfold is_byte in Hb. dlia. }
  change (2 ^ 6) with 64. change (Z.ones 6) with 63. rewrite !(Z.eqb_sym _ (_ mod _)), !(Z.eqb_sym _ (_ !!! _)).
  unfold MODE_PAGE_CACHING, MODE_SENSE_RETURN_ALL. rewrite <- negb_orb, orb_false_l.
  destruct ((_ =? 8) || (_ =? 63)); cbn [negb].
  2: { rewrite answer_error. by case_match. }
  rewrite answer_data. unfold DeviceSpecificParameter, ModeCachingPage, mode_data, caching_page.
  destruct (SrbGetCdb Srb !!! 0%nat =? SCSIOP_MODE_SENSE);
    destruct (WriteProtected _), (CacheSupported _);
    apply respond_spec; done.
Qed.

Lemma capacity_spec :
  SpdScsiReadCapacity u Srb (SrbGetCdb Srb)
  = Some (answer Srb (Some (read_capacity_answer (StorageUnitParams u) Srb (SrbGetCdb Srb)))).
Proof using Hwf Hbuf Hu.
  destruct Hu as [HP _]. pose proof (wf_BlockCount _ HP) as Hbc.
  unfold SpdScsiReadCapacity, read_capacity_answer.
  rewrite data_not_null, zero_data_spec, !cdb_at, answer_data by lia. opt.
  rewrite (Z.eqb_sym SCSIOP_READ_CAPACITY).
  destruct (_ =? SCSIOP_READ_CAPACITY); cbv zeta.
  - assert ((if 0x100000000 >? BlockCount (StorageUnitParams u)
             then u32 (u32 (BlockCount (StorageUnitParams u)) - 1) else 0xffffffff)
            = Z.min (BlockCount (StorageUnitParams u) - 1) 0xffffffff) as ->.
    { case_bools; zify_bools; [|lia]. rewrite !u32_small; [lia|lia|]. rewrite u32_small; lia. }
    apply respond_spec; done.
  - change (SrbGetDataTransferLength (with_data Srb [] (SrbGetDataTransferLength Srb)))
      with (SrbGetDataTransferLength Srb).
    rewrite (u64_small (_ - 1)) by lia. unfold reply, sizeof_READ_CAPACITY_DATA_EX.
    unfold sizeof_READ_CAPACITY16_DATA. unfold capacity16_data.
    destruct (32 <=? SrbGetDataTransferLength Srb) eqn:E.
    + zify_bools. cbn [app length be64 be32 replicate].
      assert ((12 >? SrbGetDataTransferLength Srb) = false) as -> by lia.
      change (Z.of_nat 32) with 32.
      assert ((32 >? SrbGetDataTransferLength Srb) = false) as -> by lia.
      erewrite (store_spec 32) by (done || lia). opt.
      change (SrbGetDataTransferLength (with_data Srb ?d ?n)) with n.
      assert ((32 <=? SrbGetDataTransferLength Srb) = true) as -> by lia.
      destruct (UnmapSupported _); [|done].
      by erewrite store_over by done.
    + zify_bools. cbn [app length be64 be32]. change (Z.of_nat 12) with 12.
      destruct (12 >? SrbGetDataTransferLength Srb) eqn:E2; [done|]. zify_bools.
      erewrite (store_spec 12) by (done || lia). opt.
      change (SrbGetDataTransferLength (with_data Srb ?d ?n)) with n.
      by assert ((32 <=? SrbGetDataTransferLength Srb) = false) as -> by lia.
Qed.
End Replies.
