(* ===== verification/ScsiProps.v ===== *)
(** * Properties of the SCSI responses

    The responses are those of [ScsiSpec], and what an initiator decodes from them is what the
    storage unit is. *)

From S2P Require Import Prelude Wdk IoctlTypes ListEntry Srb Ioq IoqMem IoqSpec.
From S2P Require Import IoqRun StgUnit StgUnitInv StgUnitProps Scsi ScsiSpec.

(** ** Commands as an initiator builds them *)

(** The READ and WRITE commands of 6, 10, 12 and 16 bytes (the last bytes are not used by the
    short ones), with the address, the number of blocks and the "force unit access" bit. *)
Definition cdb6 (op lba n : Z) : list Z :=
  [op; byte_of 16 lba; byte_of 8 lba; byte_of 0 lba; u8 n] ++ replicate 11 0.
Definition cdb10 (op lba n : Z) (fua : bool) : list Z :=
  [op; b2z fua ≪ 3] ++ be32 lba ++ [0; byte_of 8 n; byte_of 0 n] ++ replicate 7 0.
Definition cdb12 (op lba n : Z) (fua : bool) : list Z :=
  [op; b2z fua ≪ 3] ++ be32 lba ++ be32 n ++ replicate 6 0.
Definition cdb16 (op lba n : Z) (fua : bool) : list Z :=
  [op; b2z fua ≪ 3] ++ be64 lba ++ be32 n ++ [0; 0].

(** ** Decoding *)

Lemma read_be32_at off v (l1 l2 : list Z) :
  length l1 = off -> read_be32 off (l1 ++ be32 v ++ l2) = Some (u32 v).
Proof.
  intros <-. unfold read_be32.
  assert (forall k, (l1 ++ be32 v ++ l2) !! (length l1 + k)%nat = (be32 v ++ l2) !! k) as E.
  { intros k. rewrite lookup_app_r by lia. f_equal. lia. }
  rewrite <- (Nat.add_0_r (length l1)) at 1. rewrite !E. unfold be32. simpl.
  by rewrite be32_get.
Qed.

Lemma read_be32_head v (l : list Z) : read_be32 0 (be32 v ++ l) = Some (u32 v).
Proof. exact (read_be32_at 0 v [] l eq_refl). Qed.

Lemma be64_be32 v : be64 v = be32 (v / 2 ^ 32) ++ be32 v.
Proof.
  unfold be64, be32. simpl.
  assert (forall k, 0 <= k -> byte_of (32 + k) v = byte_of k (v / 2 ^ 32)) as E.
  { intros k Hk. rewrite !byte_of_div, Z.div_div, <- Z.pow_add_r by lia. done. }
  by rewrite <- (E 24), <- (E 16), <- (E 8), <- (E 0) by lia.
Qed.

Lemma read_be64_at v (l2 : list Z) :
  0 <= v < 2 ^ 64 -> read_be64 0 (be64 v ++ l2) = Some v.
Proof.
  intros Hv. unfold read_be64. rewrite be64_be32, <- app_assoc.
  rewrite read_be32_head. opt.
  rewrite (read_be32_at 4 _ (be32 (v / 2 ^ 32))) by done. opt. unfold u32. f_equal.
  rewrite (Z.mod_small (v / 2 ^ 32)); dlia.
Qed.

(** The descriptors of the page 0x83, byte by byte. *)
Lemma identification_vpd u data :
  unit_data_wf u -> vpd_data u 0x83 = Some data ->
  let P := StorageUnitParams u in
  identification data =
  Some [(2, 1, 0, SPD_IOCTL_VENDOR_ID ++ ProductId P ++ ProductRevisionLevel P ++
                  SerialNumber u);
        (1, 0, 0, [80; 73; 68; if EjectDisabled P then 88 else 32] ++
                  be32 (OwnerProcessId u))].
Proof.
  intros [HP Hs]. unfold vpd_data.
  destruct u as [rc P sn opid ioq dev tpid]. simpl in *.
  destruct P as [g bc bl pid rev dt wp ca un ej mtl].
  pose proof (wf_ProductId _ HP) as Hp. pose proof (wf_ProductRevisionLevel _ HP) as Hr.
  simpl in *. clear HP. explode pid Hp. explode rev Hr. explode sn Hs. intros [= <-].
  reflexivity.
Qed.

Lemma identifiers_length u data :
  unit_data_wf u -> vpd_data u 0x83 = Some data -> length data = 84%nat.
Proof.
  intros [HP Hs]. unfold vpd_data.
  destruct u as [rc P sn opid ioq dev tpid]. simpl in *.
  destruct P as [g bc bl pid rev dt wp ca un ej mtl].
  pose proof (wf_ProductId _ HP) as Hp. pose proof (wf_ProductRevisionLevel _ HP) as Hr.
  simpl in *. clear HP. explode pid Hp. explode rev Hr. explode sn Hs. by intros [= <-].
Qed.

Lemma with_data_Data Srb data n :
  srb_Data (with_data Srb data n)
  = data ++ replicate (length (srb_Data Srb) - length data) 0.
Proof. done. Qed.

(** ** Ranges *)

Lemma byte_21 v : 0 <= v < 2 ^ 21 ->
  get_be24 (byte_of 16 v .& 0x1f) (byte_of 8 v) (byte_of 0 v) = v.
Proof.
  intros. rewrite get_be24_add by auto with spd. change 0x1f with (Z.ones 5).
  rewrite Z.land_ones, !byte_of_div by lia. dlia.
Qed.

(** The six-byte form writes 256 blocks as 0. *)
Lemma count_256 n : 0 < n <= 256 -> (if negb (0 =? u8 n) then u8 n else 256) = n.
Proof.
  intros Hn. destruct (decide (n = 256)) as [->|]; [done|].
  rewrite u8_small by (unfold is_byte; lia). by rewrite (proj2 (Z.eqb_neq 0 n)) by lia.
Qed.

Lemma byte_16 v : 0 <= v < 2 ^ 16 -> get_be16 (byte_of 8 v) (byte_of 0 v) = v.
Proof. intros. rewrite get_be16_add, !byte_of_div by auto with spd lia. dlia. Qed.

Lemma fua_bit fua : ((b2z fua ≪ 3) ≫ 3) .& 1 = b2z fua.
Proof. by destruct fua. Qed.

(** The sense data that a refused command leaves. *)
Lemma sense_fields K A Q Information :
  is_byte K -> is_byte A -> is_byte Q ->
  let s := sense_data K A Q Information in
  length s = 18%nat /\
  s !! 0%nat = Some (match Information with Some _ => 0xf0 | None => 0x70 end) /\
  s !! 2%nat = Some (K mod 16) /\ s !! 12%nat = Some A /\ s !! 13%nat = Some Q /\
  read_be32 3 s = Some (match Information with Some i => u32 i | None => 0 end).
Proof.
  intros HK HA HQ. unfold sense_data. change 0xf with (Z.ones 4). rewrite Z.land_ones by lia.
  destruct Information as [i|]; [|done].
  split_and!; try done. unfold read_be32, be32. simpl. by rewrite be32_get.
Qed.

(** ** Concrete instances *)

Definition example_unit : SPD_STORAGE_UNIT := NewStorageUnit (example_params 1) 77.

Lemma example_unit_data_wf : unit_data_wf example_unit.
Proof.
  split; [|reflexivity]. destruct example_params_wf as [H1 H2 H3 H4 H5 H6 H7].
  split; done.
Qed.

(** A request with a buffer of [n] bytes and room for sense data. *)
Definition example_request (n : nat) (Cdb : list Z) : SRB :=
  mkSrb 88 SRB_FUNCTION_EXECUTE_SCSI 0 0 0 0 0 0 0 16 18 0 (Z.of_nat n) 0 0x10000 0x20000 0 0
    0x6400 0 Cdb (replicate n 0xcc) (replicate 18 0).

Lemma example_request_wf n Cdb :
  Z.of_nat n < 2 ^ 32 -> length Cdb = 16%nat -> Forall is_byte Cdb ->
  srb_wf (example_request n Cdb).
Proof.
  intros Hn Hl Hb. split; simpl; try done; try lia.
  - by rewrite length_replicate.
  - apply Forall_replicate. unfold is_byte. lia.
Qed.

Definition inquiry_cdb (PageCode : Z) : list Z :=
  [SCSIOP_INQUIRY; 1; PageCode; 0; 96] ++ replicate 11 0.
Definition mode_sense_cdb (b2 : Z) : list Z :=
  [SCSIOP_MODE_SENSE; 0; b2; 0; 96] ++ replicate 11 0.
Definition read_capacity_cdb : list Z := [SCSIOP_READ_CAPACITY] ++ replicate 15 0.

(** A concrete list of bytes. *)
Ltac bytes :=
  vm_compute; repeat (apply Forall_cons_2; [split; [discriminate|reflexivity]|]);
  apply Forall_nil_2.

(** ** Properties *)

(** INQUIRY, on every branch: the standard data, each page of vital product data, or an
    error with sense data for an unknown page; the buffer holds that data and then zeros, so
    that nothing that was in it before is given back, and is never written outside. *)
Theorem scsi_inquiry_refines u Srb :
  srb_wf Srb -> unit_data_wf u ->
  SpdScsiInquiry u Srb (SrbGetCdb Srb)
  = Some (answer Srb (inquiry_answer u (SrbGetCdb Srb))).
Proof.
  intros Hwf Hu. destruct (decide (srb_DataBuffer Srb = 0)) as [E|E].
  - unfold SpdScsiInquiry, answer, SrbGetDataBuffer. by rewrite E.
  - by apply inquiry_spec.
Qed.

(** The serial number page of the example unit, in a buffer of 44 bytes. *)
Lemma scsi_inquiry_refines_witness :
  exists Srb', SpdScsiInquiry example_unit (example_request 44 (inquiry_cdb 0x80))
                 (SrbGetCdb (example_request 44 (inquiry_cdb 0x80)))
               = Some (SRB_STATUS_SUCCESS, Srb') /\
  srb_Data Srb' = [0; 0x80; 0; 36] ++ SerialNumber example_unit ++ [0; 0; 0; 0].
Proof.
  eexists. split.
  - rewrite (scsi_inquiry_refines example_unit (example_request 44 (inquiry_cdb 0x80))).
    + vm_compute. reflexivity.
    + apply example_request_wf; [vm_compute; reflexivity|reflexivity|bytes].
    + exact example_unit_data_wf.
  - vm_compute. reflexivity.
Defined.

(** MODE SENSE (6) and (10), on every branch: the header with the write protection and
    "force unit access" bits of the unit, and the caching page; any page but the caching page
    and "all pages" is refused.  The page control field has no effect: changeable values are
    answered with the current ones. *)
Theorem scsi_mode_sense_refines u Srb :
  srb_wf Srb -> unit_data_wf u ->
  SpdScsiModeSense u Srb (SrbGetCdb Srb)
  = Some (answer Srb (mode_sense_answer (StorageUnitParams u) (SrbGetCdb Srb))).
Proof.
  intros Hwf Hu. destruct (decide (srb_DataBuffer Srb = 0)) as [E|E].
  - unfold SpdScsiModeSense, answer, SrbGetDataBuffer. by rewrite E.
  - by apply mode_sense_spec.
Qed.

(** "Changeable values" of the caching page, as a page control of 1. *)
Lemma scsi_mode_sense_refines_witness :
  exists Srb', SpdScsiModeSense example_unit (example_request 20 (mode_sense_cdb 0x48))
                 (SrbGetCdb (example_request 20 (mode_sense_cdb 0x48)))
               = Some (SRB_STATUS_SUCCESS, Srb') /\
  SrbGetDataTransferLength Srb' = 16.
Proof.
  eexists. split.
  - rewrite (scsi_mode_sense_refines example_unit (example_request 20 (mode_sense_cdb 0x48))).
    + vm_compute. reflexivity.
    + apply example_request_wf; [vm_compute; reflexivity|reflexivity|bytes].
    + exact example_unit_data_wf.
  - vm_compute. reflexivity.
Defined.

(** An initiator that decodes READ CAPACITY gets the last block and the block length of the
    unit: of the short form, at most [0xffffffff] for the last block, of the long form, exactly;
    the long form says how many of its 32 bytes fit. *)
Theorem scsi_read_capacity_decodes u Srb :
  srb_wf Srb -> unit_data_wf u -> srb_DataBuffer Srb <> 0 ->
  let P := StorageUnitParams u in
  let Long := negb (SrbGetCdb Srb !!! 0%nat =? SCSIOP_READ_CAPACITY) in
  (if Long then 12 else 8) <= SrbGetDataTransferLength Srb ->
  exists Srb', SpdScsiReadCapacity u Srb (SrbGetCdb Srb) = Some (SRB_STATUS_SUCCESS, Srb') /\
  if Long then
      read_be64 0 (srb_Data Srb') = Some (BlockCount P - 1) /\
  read_be32 8 (srb_Data Srb') = Some (BlockLength P) /\
  SrbGetDataTransferLength Srb' =
        (if 32 <=? SrbGetDataTransferLength Srb then 32 else 12)
    else
      read_be32 0 (srb_Data Srb') = Some (Z.min (BlockCount P - 1) 0xffffffff) /\
  read_be32 4 (srb_Data Srb') = Some (BlockLength P) /\
  SrbGetDataTransferLength Srb' = 8.
Proof.
  intros Hwf Hu Hb P Long HL. destruct Hu as [HP Hs].
  pose proof (wf_BlockCount _ HP) as Hbc. pose proof (wf_BlockLength _ HP) as Hbl.
  rewrite (capacity_spec Srb Hwf Hb u (conj HP Hs)), answer_data by done.
  unfold read_capacity_answer. subst Long. destruct (_ =? SCSIOP_READ_CAPACITY);
    cbn [negb] in HL |- *.
  - unfold reply, capacity_data. simpl length.
    assert ((Z.of_nat 8 >? SrbGetDataTransferLength Srb) = false) as -> by
      (change (Z.of_nat 8) with 8; lia).
    eexists. split; [reflexivity|]. rewrite with_data_Data, <- !app_assoc.
    split_and!; [| |done].
    + rewrite read_be32_head. rewrite u32_small by (subst P; lia). done.
    + rewrite (read_be32_at 4) by done. rewrite u32_small by (subst P; lia). done.
  - unfold reply, capacity16_data.
    destruct (32 <=? SrbGetDataTransferLength Srb) eqn:E; zify_bools.
    all: simpl length.
    1: assert ((Z.of_nat 32 >? SrbGetDataTransferLength Srb) = false) as -> by
        (change (Z.of_nat 32) with 32; lia).
    2: assert ((Z.of_nat 12 >? SrbGetDataTransferLength Srb) = false) as -> by
        (change (Z.of_nat 12) with 12; lia).
    all: eexists; split; [reflexivity|].
    all: rewrite with_data_Data, <- !app_assoc; split_and!; [| |done].
    all: rewrite ?read_be64_at by (subst P; lia); try done.
    all: rewrite (read_be32_at 8 _ (be64 _)) by done; rewrite u32_small by (subst P; lia); done.
Qed.

(** Eight bytes are enough for the short form. *)
Lemma scsi_read_capacity_decodes_witness :
  exists Srb', SpdScsiReadCapacity example_unit (example_request 8 read_capacity_cdb)
                 (SrbGetCdb (example_request 8 read_capacity_cdb))
               = Some (SRB_STATUS_SUCCESS, Srb') /\
  read_be32 0 (srb_Data Srb') = Some 2047 /\ read_be32 4 (srb_Data Srb') = Some 512.
Proof.
  destruct (scsi_read_capacity_decodes example_unit (example_request 8 read_capacity_cdb))
    as (Srb' & H1 & H2 & H3 & _).
  - apply example_request_wf; [vm_compute; reflexivity|reflexivity|bytes].
  - exact example_unit_data_wf.
  - discriminate.
  - vm_compute. discriminate.
  - exists Srb'. split; [exact H1|]. split; [exact H2|exact H3].
Defined.

(** The device identification page of a unit parses into two descriptors: the vendor,
    product, revision and serial number of the unit, and the identifier from which a reader
    that makes the launcher's test recovers the process that owns the unit. *)
Theorem scsi_owner_process_roundtrip u Srb :
  srb_wf Srb -> unit_data_wf u -> srb_DataBuffer Srb <> 0 ->
  0 <= OwnerProcessId u < 2 ^ 32 -> 84 <= SrbGetDataTransferLength Srb ->
  Z.odd (SrbGetCdb Srb !!! 1%nat) = true -> SrbGetCdb Srb !!! 2%nat = VPD_DEVICE_IDENTIFIERS ->
  exists Srb' ds, SpdScsiInquiry u Srb (SrbGetCdb Srb) = Some (SRB_STATUS_SUCCESS, Srb') /\
  identification (take (Z.to_nat (SrbGetDataTransferLength Srb')) (srb_Data Srb')) = Some ds /\
  length ds = 2%nat /\ owner_process ds = Some (OwnerProcessId u).
Proof.
  intros Hwf Hu Hb Ho HL Hodd Hpage.
  rewrite (inquiry_spec Srb Hwf Hb u Hu). unfold inquiry_answer. rewrite Hodd, Hpage.
  destruct (vpd_data u VPD_DEVICE_IDENTIFIERS) as [data|] eqn:E; [|discriminate E].
  rewrite answer_data by done.
  pose proof (identifiers_length u data Hu E) as Hlen.
  unfold reply. rewrite Hlen.
  assert ((Z.of_nat 84 >? SrbGetDataTransferLength Srb) = false) as -> by
    (change (Z.of_nat 84) with 84; lia).
  eexists _, _. split; [reflexivity|]. simpl. change (Pos.to_nat 84) with 84%nat.
  rewrite take_app_length' by done. split; [by apply identification_vpd|].
  split; [done|]. unfold owner_process, be32, SPD_IOCTL_VENDOR_ID. simpl.
  destruct Hu as [HP Hs]. pose proof (wf_ProductId _ HP) as Hp.
  destruct (ProductId _) as [|b l]; [done|]. simpl.
  destruct (EjectDisabled _); simpl; rewrite be32_get, u32_small; done.
Qed.

(** The owner of the example unit, 77. *)
Lemma scsi_owner_process_roundtrip_witness :
  exists Srb' ds, SpdScsiInquiry example_unit (example_request 96 (inquiry_cdb 0x83))
                 (SrbGetCdb (example_request 96 (inquiry_cdb 0x83)))
               = Some (SRB_STATUS_SUCCESS, Srb') /\
  identification (take (Z.to_nat (SrbGetDataTransferLength Srb')) (srb_Data Srb')) = Some ds /\
  owner_process ds = Some 77.
Proof.
  destruct (scsi_owner_process_roundtrip example_unit (example_request 96 (inquiry_cdb 0x83)))
    as (Srb' & ds & H1 & H2 & _ & H3).
  - apply example_request_wf; [vm_compute; reflexivity|reflexivity|bytes].
  - exact example_unit_data_wf.
  - discriminate.
  - vm_compute. split; [discriminate|reflexivity].
  - vm_compute. discriminate.
  - reflexivity.
  - reflexivity.
  - exists Srb', ds. split; [exact H1|]. split; [exact H2|exact H3].
Defined.

(** A refused command leaves fixed format sense data, when the request has room for it and
    does not disable it: the error code with its valid bit, the key, the two codes, and the low
    32 bits of the information at their standard offsets, zeros elsewhere, with the status that
    tells the port driver to look there; otherwise the request is not touched. *)
Theorem scsi_error_sense Srb K A Q Information :
  srb_wf Srb -> is_byte K -> is_byte A -> is_byte Q ->
  SpdScsiErrorEx Srb K A Q Information = Some (check_condition Srb K A Q Information) /\
  let s := sense_data K A Q Information in
  length s = 18%nat /\
  s !! 0%nat = Some (match Information with Some _ => 0xf0 | None => 0x70 end) /\
  s !! 2%nat = Some (K mod 16) /\ s !! 12%nat = Some A /\ s !! 13%nat = Some Q /\
  read_be32 3 s = Some (match Information with Some i => u32 i | None => 0 end).
Proof.
  intros Hwf HK HA HQ. split; [by apply error_ex_spec with (Srb := Srb)|].
  by apply sense_fields.
Qed.

(** A medium error with its block address. *)
Lemma scsi_error_sense_witness :
  exists Srb', SpdScsiErrorEx (example_request 8 read_capacity_cdb) 3 0x11 0 (Some 0x12345678)
      = Some (0x84, Srb') /\
  srb_Sense Srb' = [0xf0; 0; 3; 0x12; 0x34; 0x56; 0x78; 10; 0; 0; 0; 0; 0x11; 0; 0; 0; 0; 0].
Proof.
  eexists. split.
  - destruct (scsi_error_sense (example_request 8 read_capacity_cdb) 3 0x11 0 (Some 0x12345678))
      as [-> _].
    + apply example_request_wf; [vm_compute; reflexivity|reflexivity|bytes].
    + split; [discriminate|reflexivity].
    + split; [discriminate|reflexivity].
    + split; [discriminate|reflexivity].
    + vm_compute. reflexivity.
  - vm_compute. reflexivity.
Defined.

(** Every form of READ and WRITE decodes to the address, the number of blocks (0 means 256
    in the six-byte form) and the "force unit access" bit that it was built from. *)
Theorem scsi_cdb_range_roundtrip DBG lba n fua :
  0 <= lba -> 0 <= n ->
  (forall op, op ∈ [SCSIOP_READ6; SCSIOP_WRITE6] -> lba < 2 ^ 21 -> 0 < n <= 256 ->
     SpdCdbGetRange DBG (cdb6 op lba n) = Some (lba, n, 0)) /\
  (forall op, op ∈ [SCSIOP_READ; SCSIOP_WRITE; SCSIOP_SYNCHRONIZE_CACHE] ->
     lba < 2 ^ 32 -> n < 2 ^ 16 ->
     SpdCdbGetRange DBG (cdb10 op lba n fua) = Some (lba, n, b2z fua)) /\
  (forall op, op ∈ [SCSIOP_READ12; SCSIOP_WRITE12] -> lba < 2 ^ 32 -> n < 2 ^ 32 ->
     SpdCdbGetRange DBG (cdb12 op lba n fua) = Some (lba, n, b2z fua)) /\
  (forall op, op ∈ [SCSIOP_READ16; SCSIOP_WRITE16; SCSIOP_SYNCHRONIZE_CACHE16] ->
     lba < 2 ^ 64 -> n < 2 ^ 32 ->
     SpdCdbGetRange DBG (cdb16 op lba n fua) = Some (lba, n, b2z fua)).
Proof.
  intros Hl Hn. split_and!; intros op Hop Hlba Hlen;
    apply list_elem_of_In in Hop; simpl in Hop;
    repeat destruct Hop as [<-|Hop]; try done.
  all: unfold SpdCdbGetRange; simpl; destruct DBG; simpl.
  all: rewrite ?fua_bit, ?be32_get, ?be64_get, ?byte_16, ?u32_small, ?u64_small by lia.
  all: try done.
  all: by rewrite byte_21, count_256 by lia.
Qed.

(** READ (10) of 16 blocks at 0x12345. *)
Lemma scsi_cdb_range_roundtrip_witness :
  SpdCdbGetRange true (cdb10 SCSIOP_READ 0x12345 16 true) = Some (0x12345, 16, 1).
Proof.
  destruct (scsi_cdb_range_roundtrip true 0x12345 16 true) as (_ & H & _); [lia..|].
  apply H; [apply list_elem_of_here|reflexivity|reflexivity].
Defined.
