(* ===== verification/ScsiIo.v ===== *)
(** * SCSI commands that a storage device executes: [sys/scsi.c]

    The commands that read, write, flush or unmap blocks are checked, posted to the queue of
    their storage unit, and handed in chunks to the user mode process that serves the unit:
    [SpdSrbExecuteScsiPrepare] makes the request for the next chunk, and
    [SpdSrbExecuteScsiComplete] takes the response.  The port driver's mapping of the data
    buffer, [StorPortGetSystemAddress], is an argument: its status and the address.  The
    memory at that address is the data buffer of the request. *)

From S2P Require Import Prelude Wdk IoctlTypes ListEntry Srb Ioq StgUnit Scsi.

(** [SpdNtStatusFromStorStatus] of [sys/io.c]. *)
Definition SpdNtStatusFromStorStatus (StorStatus : Z) : Z :=
  if StorStatus =? STOR_STATUS_SUCCESS then STATUS_SUCCESS
  else if StorStatus =? STOR_STATUS_UNSUCCESSFUL then STATUS_UNSUCCESSFUL
  else if StorStatus =? STOR_STATUS_NOT_IMPLEMENTED then STATUS_NOT_IMPLEMENTED
  else if StorStatus =? STOR_STATUS_INSUFFICIENT_RESOURCES then STATUS_INSUFFICIENT_RESOURCES
  else if StorStatus =? STOR_STATUS_BUFFER_TOO_SMALL then STATUS_BUFFER_TOO_SMALL
  else if StorStatus =? STOR_STATUS_ACCESS_DENIED then STATUS_ACCESS_DENIED
  else if StorStatus =? STOR_STATUS_INVALID_PARAMETER then STATUS_INVALID_PARAMETER
  else if StorStatus =? STOR_STATUS_INVALID_DEVICE_REQUEST then STATUS_INVALID_DEVICE_REQUEST
  else if StorStatus =? STOR_STATUS_INVALID_IRQL then STATUS_INVALID_PARAMETER
  else if StorStatus =? STOR_STATUS_INVALID_DEVICE_STATE then STATUS_INVALID_DEVICE_STATE
  else if StorStatus =? STOR_STATUS_INVALID_BUFFER_SIZE then STATUS_INVALID_BUFFER_SIZE
  else if StorStatus =? STOR_STATUS_UNSUPPORTED_VERSION then STATUS_INVALID_PARAMETER
  else if StorStatus =? STOR_STATUS_BUSY then STATUS_INVALID_PARAMETER
  else STATUS_INVALID_PARAMETER.

(** ** Posting *)

Section Post.
Context (DBG : bool).
(** The storage unit and its address, the address of the request, and what
    [StorPortGetSystemAddress] returns for it: the status and the address. *)
Context (u : SPD_STORAGE_UNIT) (StorageUnit SrbAddress : Z) (SystemAddress : Z * Z).

Let P := StorageUnitParams u.

(** [SpdScsiPostSrb]: the status, the request and the queue. *)
Definition SpdScsiPostSrb (Srb : SRB) (DataLength : Z) : option (Z * SRB * SPD_IOQ) :=
  q ← Ioq u;
  if SpdSrbExtension Srb =? 0 then None
  else
    let SrbExtension := ExtZero in
    let SrbExtension := SrbExtension <| ext_StorageUnit := StorageUnit |> in
    let '(StorResult, SystemDataBuffer) := SystemAddress in
    if negb (0 =? DataLength) && negb (STOR_STATUS_SUCCESS =? StorResult) then
      Some (SRB_STATUS_INTERNAL_ERROR,
            SrbSetSystemStatus Srb (SpdNtStatusFromStorStatus StorResult), q)
    else
      let SrbExtension :=
        if negb (0 =? DataLength) then
          (SrbExtension <| ext_SystemDataBuffer := SystemDataBuffer |>)
            <| ext_SystemDataLength := DataLength |>
        else SrbExtension in
      '(Result, q) ← SpdIoqPostSrb DBG q SrbAddress Srb SrbExtension 0 (mkEntry LNull LNull);
      Some (if NT_SUCCESS Result then SRB_STATUS_PENDING else SRB_STATUS_ABORTED, Srb, q).

(** A command that ends without being posted leaves the queue alone. *)
Definition not_posted (r : option (Z * SRB)) : option (Z * SRB * SPD_IOQ) :=
  '(SrbStatus, Srb) ← r; q ← Ioq u; Some (SrbStatus, Srb, q).

(** The end of [SpdScsiPostRangeSrb], after its [switch]. *)
Definition post_range (Srb : SRB) (BlockAddress BlockCount_ DataLength : Z)
    : option (Z * SRB * SPD_IOQ) :=
  if 0 =? BlockCount_ then not_posted (Some (SRB_STATUS_SUCCESS, Srb))
  else
    let EndBlockAddress := u64 (BlockAddress + BlockCount_) in
    if (EndBlockAddress <? BlockAddress) || (EndBlockAddress >? BlockCount P) then
      not_posted (SpdScsiError Srb SCSI_SENSE_ILLEGAL_REQUEST SCSI_ADSENSE_ILLEGAL_BLOCK)
    else SpdScsiPostSrb Srb DataLength.

Definition SpdScsiPostRangeSrb (Srb : SRB) (Cdb : list Z) : option (Z * SRB * SPD_IOQ) :=
  op ← Cdb !! 0%nat;
  if is_read_op op then
    '(BlockAddress, BlockCount, _) ← SpdCdbGetRange DBG Cdb;
    let DataLength := u32 (BlockCount * BlockLength P) in
    if SrbGetDataTransferLength Srb <? DataLength
    then not_posted (Some (SRB_STATUS_INTERNAL_ERROR, Srb))
    else post_range Srb BlockAddress BlockCount DataLength
  else if is_write_op op then
    if WriteProtected P
    then not_posted (SpdScsiError Srb SCSI_SENSE_DATA_PROTECT SCSI_ADSENSE_WRITE_PROTECT)
    else
      '(BlockAddress, BlockCount, _) ← SpdCdbGetRange DBG Cdb;
      let DataLength := u32 (BlockCount * BlockLength P) in
      if SrbGetDataTransferLength Srb <? DataLength
      then not_posted (Some (SRB_STATUS_INTERNAL_ERROR, Srb))
      else post_range Srb BlockAddress BlockCount DataLength
  else if is_sync_op op then
    if negb (CacheSupported P) then not_posted (Some (SRB_STATUS_INVALID_REQUEST, Srb))
    else if WriteProtected P
    then not_posted (SpdScsiError Srb SCSI_SENSE_DATA_PROTECT SCSI_ADSENSE_WRITE_PROTECT)
    else
      '(BlockAddress, BlockCount, _) ← SpdCdbGetRange DBG Cdb;
      post_range Srb BlockAddress BlockCount 0
  else
    _ ← ASSERT DBG false;
    not_posted (Some (SRB_STATUS_INVALID_REQUEST, Srb)).

(** [Descriptors[I]] of an unmap list: address and number of blocks. *)
Definition unmap_descriptor (DataBuffer : list Z) (I : nat) : option (Z * Z) :=
  Src ← buf_read (8 + 16 * I) 16 DataBuffer;
  match Src with
  | b0 :: b1 :: b2 :: b3 :: b4 :: b5 :: b6 :: b7 :: c0 :: c1 :: c2 :: c3 :: _ =>
      Some (get_be64 b0 b1 b2 b3 b4 b5 b6 b7, get_be32 c0 c1 c2 c3)
  | _ => None
  end.

(** The loop over the descriptors from [I] on: are all of them inside the unit? *)
Fixpoint unmap_in_range (n I : nat) (DataBuffer : list Z) : option bool :=
  match n with
  | O => Some true
  | S n =>
      '(BlockAddress, BlockCount_) ← unmap_descriptor DataBuffer I;
      let EndBlockAddress := u64 (BlockAddress + BlockCount_) in
      if (EndBlockAddress <? BlockAddress) || (EndBlockAddress >? BlockCount P)
      then Some false else unmap_in_range n (S I) DataBuffer
  end.

Definition SpdScsiPostUnmapSrb (Srb : SRB) (Cdb : list Z) : option (Z * SRB * SPD_IOQ) :=
  if negb (UnmapSupported P) then not_posted (Some (SRB_STATUS_INVALID_REQUEST, Srb))
  else if WriteProtected P
  then not_posted (SpdScsiError Srb SCSI_SENSE_DATA_PROTECT SCSI_ADSENSE_WRITE_PROTECT)
  else
    let DataBuffer := SrbGetDataBuffer Srb in
    let DataTransferLength := SrbGetDataTransferLength Srb in
    if (0 =? DataBuffer) || (DataTransferLength <? sizeof_UNMAP_LIST_HEADER)
    then not_posted (Some (SRB_STATUS_INTERNAL_ERROR, Srb))
    else
      l0 ← srb_Data Srb !! 2%nat;
      l1 ← srb_Data Srb !! 3%nat;
      let DataLength := get_be16 l0 l1 in
      if DataTransferLength <? sizeof_UNMAP_LIST_HEADER + DataLength
      then not_posted (Some (SRB_STATUS_INTERNAL_ERROR, Srb))
      else if DataLength >? MaxTransferLength P
      then not_posted (SpdScsiError Srb SCSI_SENSE_ILLEGAL_REQUEST
                         SCSI_ADSENSE_INVALID_FIELD_PARAMETER_LIST)
      else
        b1 ← Cdb !! 1%nat;
        if negb (b1 .& 1 =? 0)       (* Anchor *)
        then not_posted (SpdScsiError Srb SCSI_SENSE_ILLEGAL_REQUEST SCSI_ADSENSE_INVALID_CDB)
        else if 0 =? DataLength then not_posted (Some (SRB_STATUS_SUCCESS, Srb))
        else
          ok ← unmap_in_range (Z.to_nat (DataLength / sizeof_UNMAP_BLOCK_DESCRIPTOR)) 0
                 (srb_Data Srb);
          if negb ok
          then not_posted (SpdScsiError Srb SCSI_SENSE_ILLEGAL_REQUEST SCSI_ADSENSE_ILLEGAL_BLOCK)
          else SpdScsiPostSrb Srb DataLength.
End Post.

(** ** Serving *)

(** What the user mode process exchanges with the driver: the request that the driver fills
    in, the response that the process gives, and the process's data buffer. *)
Record TRANSACT := mkTransact {
  t_Req : SPD_IOCTL_TRANSACT_REQ;
  t_Rsp : SPD_IOCTL_TRANSACT_RSP;
  t_DataBuffer : option (list Z)      (* [None] is a null pointer *)
}.

#[export] Instance TRANSACT_eta : Eta TRANSACT := fun t =>
  mkTransact (t_Req t) (t_Rsp t) (t_DataBuffer t).

Section Serve.
Context (DBG : bool).
(** The memory of the storage units. *)
Context (Mem : gmap Z SPD_STORAGE_UNIT).

(** The length of the next chunk. *)
Definition ChunkLength (P : SPD_IOCTL_STORAGE_UNIT_PARAMS) (e : SPD_SRB_EXTENSION) : Z :=
  let ChunkLength := u32 (ext_SystemDataLength e - ext_ChunkOffset e) in
  if ChunkLength >? MaxTransferLength P then MaxTransferLength P else ChunkLength.

(** The memory at [SrbExtension->SystemDataBuffer]. *)
Definition system_data (e : SPD_SRB_EXTENSION) (Srb : SRB) : list Z :=
  if ext_SystemDataBuffer e =? 0 then [] else srb_Data Srb.

(** The part of the range that the next chunk covers. *)
Definition chunk_range (P : SPD_IOCTL_STORAGE_UNIT_PARAMS) (e : SPD_SRB_EXTENSION)
    (BlockAddress ForceUnitAccess : Z) : option (Z * Z * Z) :=
  if BlockLength P =? 0 then None
  else Some (u64 (BlockAddress + ext_ChunkOffset e / BlockLength P),
             ChunkLength P e / BlockLength P,
             if CacheSupported P then ForceUnitAccess else 1).

(** The bytes of an [SPD_IOCTL_UNMAP_DESCRIPTOR]. *)
Definition unmap_bytes (d : SPD_IOCTL_UNMAP_DESCRIPTOR) : list Z :=
  rev (be64 (ud_BlockAddress d)) ++ le32 (ud_BlockCount d) ++ le32 0.

(** The loop that converts the descriptors from [I] on. *)
Fixpoint unmap_convert (n I : nat) (Src DataBuffer : list Z) : option (list Z) :=
  match n with
  | O => Some DataBuffer
  | S n =>
      '(BlockAddress, BlockCount) ← unmap_descriptor Src I;
      DataBuffer ← buf_write (16 * I) (unmap_bytes (mkUnmapDescriptor BlockAddress BlockCount))
                     DataBuffer;
      unmap_convert n (S I) Src DataBuffer
  end.

Definition SpdSrbExecuteScsiPrepare (SrbExtension : Z) (e : SPD_SRB_EXTENSION) (Srb : SRB)
    (t : TRANSACT) : option TRANSACT :=
  u ← Mem !! ext_StorageUnit e;
  let P := StorageUnitParams u in
  let Cdb := SrbGetCdb Srb in
  op ← Cdb !! 0%nat;
  if is_read_op op then
    '(BlockAddress, _, ForceUnitAccess) ← SpdCdbGetRange DBG Cdb;
    '(a, n, f) ← chunk_range P e BlockAddress ForceUnitAccess;
    Some (t <| t_Req := mkReq SrbExtension SpdIoctlTransactReadKind (OpRead a n f) |>)
  else if is_write_op op then
    '(BlockAddress, _, ForceUnitAccess) ← SpdCdbGetRange DBG Cdb;
    '(a, n, f) ← chunk_range P e BlockAddress ForceUnitAccess;
    bs ← buf_read (Z.to_nat (ext_ChunkOffset e)) (Z.to_nat (ChunkLength P e))
           (system_data e Srb);
    DataBuffer ← t_DataBuffer t;
    DataBuffer ← buf_write 0 bs DataBuffer;
    Some ((t <| t_Req := mkReq SrbExtension SpdIoctlTransactWriteKind (OpWrite a n f) |>)
            <| t_DataBuffer := Some DataBuffer |>)
  else if is_sync_op op then
    '(BlockAddress, BlockCount, _) ← SpdCdbGetRange DBG Cdb;
    Some (t <| t_Req := mkReq SrbExtension SpdIoctlTransactFlushKind
                          (OpFlush BlockAddress BlockCount) |>)
  else if SCSIOP_UNMAP =? op then
    let Count := ext_SystemDataLength e / sizeof_UNMAP_BLOCK_DESCRIPTOR in
    DataBuffer ← t_DataBuffer t;
    DataBuffer ← unmap_convert (Z.to_nat Count) 0 (system_data e Srb) DataBuffer;
    Some ((t <| t_Req := mkReq SrbExtension SpdIoctlTransactUnmapKind (OpUnmap Count) |>)
            <| t_DataBuffer := Some DataBuffer |>)
  else _ ← ASSERT DBG false; Some t.

(** The end of a chunk: the extension, and whether there are more. *)
Definition next_chunk (P : SPD_IOCTL_STORAGE_UNIT_PARAMS) (e : SPD_SRB_EXTENSION)
    : Z * SPD_SRB_EXTENSION :=
  let e := e <| ext_ChunkOffset := u32 (ext_ChunkOffset e + ChunkLength P e) |> in
  (if ext_SystemDataLength e <=? ext_ChunkOffset e
   then SRB_STATUS_SUCCESS else SRB_STATUS_PENDING, e).

Definition SpdSrbExecuteScsiComplete (e : SPD_SRB_EXTENSION) (Srb : SRB) (t : TRANSACT)
    : option (Z * SPD_SRB_EXTENSION * SRB) :=
  u ← Mem !! ext_StorageUnit e;
  let P := StorageUnitParams u in
  let Status := rsp_Status (t_Rsp t) in
  if negb (SCSISTAT_GOOD =? ScsiStatus Status) then
    '(SrbStatus, Srb) ← SpdScsiErrorEx Srb (SenseKey Status) (ASC Status) (ASCQ Status)
       (if InformationValid Status then Some (Information Status) else None);
    Some (SrbStatus, e, Srb)
  else
    op ← SrbGetCdb Srb !! 0%nat;
    if is_read_op op then
      let n := Z.to_nat (ChunkLength P e) in
      bs ← match t_DataBuffer t with
           | Some DataBuffer => buf_read 0 n DataBuffer
           | None => Some (replicate n 0)
           end;
      data ← buf_write (Z.to_nat (ext_ChunkOffset e)) bs (system_data e Srb);
      let Srb := if ext_SystemDataBuffer e =? 0 then Srb else Srb <| srb_Data := data |> in
      let '(SrbStatus, e) := next_chunk P e in Some (SrbStatus, e, Srb)
    else if is_write_op op then
      let '(SrbStatus, e) := next_chunk P e in Some (SrbStatus, e, Srb)
    else if is_sync_op op || (SCSIOP_UNMAP =? op) then Some (SRB_STATUS_SUCCESS, e, Srb)
    else _ ← ASSERT DBG false; Some (SRB_STATUS_ABORTED, e, Srb).
End Serve.

(** ** [SpdSrbExecuteScsi] *)

(** [SpdStorageUnitReference] *)
Definition SpdStorageUnitReference (E : SPD_DEVICE_EXTENSION) (Srb : SRB)
    : option (Z * SPD_DEVICE_EXTENSION) :=
  let '(PathId, TargetId, Lun) := SrbGetPathTargetLun Srb in
  SpdStorageUnitReferenceByBtl E (SPD_IOCTL_BTL PathId TargetId Lun).

(** The [switch] over the operation code, for a unit that exists. *)
Definition execute_scsi_switch (DBG : bool) (u : SPD_STORAGE_UNIT) (StorageUnit SrbAddress : Z)
    (SystemAddress : Z * Z) (Srb : SRB) : option (Z * SRB * SPD_IOQ) :=
  let Cdb := SrbGetCdb Srb in
  op ← Cdb !! 0%nat;
  if SCSIOP_REPORT_LUNS =? op then not_posted u (SpdScsiReportLuns (Some u) Srb)
  else if SCSIOP_TEST_UNIT_READY =? op then not_posted u (Some (SRB_STATUS_SUCCESS, Srb))
  else if SCSIOP_INQUIRY =? op then not_posted u (SpdScsiInquiry u Srb Cdb)
  else if (SCSIOP_MODE_SENSE =? op) || (SCSIOP_MODE_SENSE10 =? op)
  then not_posted u (SpdScsiModeSense u Srb Cdb)
  else if SCSIOP_READ_CAPACITY =? op then not_posted u (SpdScsiReadCapacity u Srb Cdb)
  else if is_read_op op || is_write_op op || is_sync_op op
  then SpdScsiPostRangeSrb DBG u StorageUnit SrbAddress SystemAddress Srb Cdb
  else if SCSIOP_UNMAP =? op
  then SpdScsiPostUnmapSrb DBG u StorageUnit SrbAddress SystemAddress Srb Cdb
  else if SCSIOP_SERVICE_ACTION_IN16 =? op then
    b1 ← Cdb !! 1%nat;
    if SERVICE_ACTION_READ_CAPACITY16 =? b1 .& 0x1f
    then not_posted u (SpdScsiReadCapacity u Srb Cdb)
    else not_posted u (Some (SRB_STATUS_INVALID_REQUEST, Srb))
  else not_posted u (Some (SRB_STATUS_INVALID_REQUEST, Srb)).

(** The whole of it, as one thread runs it: the status, the request, the table and the
    requests that the last dereference completes. *)
Definition SpdSrbExecuteScsi (DBG : bool) (E : SPD_DEVICE_EXTENSION) (SrbAddress : Z)
    (SystemAddress : Z * Z) (Srb : SRB)
    : option (Z * SRB * SPD_DEVICE_EXTENSION * list completion) :=
  '(StorageUnit, E) ← SpdStorageUnitReference E Srb;
  if 0 =? StorageUnit then
    op ← SrbGetCdb Srb !! 0%nat;
    if SCSIOP_REPORT_LUNS =? op then
      '(SrbStatus, Srb) ← SpdScsiReportLuns None Srb; Some (SrbStatus, Srb, E, [])
    else Some (SRB_STATUS_NO_DEVICE, Srb, E, [])
  else
    u ← Units E !! StorageUnit;
    '(SrbStatus, Srb, q) ← execute_scsi_switch DBG u StorageUnit SrbAddress SystemAddress Srb;
    let E := E <| Units := <[StorageUnit := u <| Ioq := Some q |>]> (Units E) |> in
    '(E, cs) ← SpdStorageUnitDereference DBG E StorageUnit;
    Some (SrbStatus, Srb, E, cs).
