(* ===== verification/ScsiIoProps.v ===== *)
(** * Transfers in chunks

    A request for blocks is served in chunks of at most [MaxTransferLength] bytes: prepare,
    let the storage device work, complete, and again while the completion is pending.  Here
    the device is one with a disk, and the whole transfer is shown to read, or write, exactly
    the blocks that the command asks for. *)

From S2P Require Import Prelude Wdk IoctlTypes ListEntry Srb Ioq StgUnit Scsi ScsiIo.
From S2P Require Import IoqMem IoqSpec IoqRun.
From S2P Require Import StgUnitInv StgUnitProps ScsiSpec ScsiProps.

(** ** A storage device *)

Definition rsp_good : SPD_IOCTL_TRANSACT_RSP := mkRsp 0 0 (mkStatus SCSISTAT_GOOD 0 0 0 0 false).

(** A device with a disk of blocks of [BL] bytes: the data buffer and the disk after a request.
    A request outside the disk or longer than the data buffer is [None]. *)
Definition device (BL : Z) (r : SPD_IOCTL_TRANSACT_REQ) (DataBuffer disk : list Z)
    : option (list Z * list Z) :=
  match req_Op r with
  | OpRead a n _ =>
      bs ← buf_read (Z.to_nat (a * BL)) (Z.to_nat (n * BL)) disk;
      DataBuffer ← buf_write 0 bs DataBuffer;
      Some (DataBuffer, disk)
  | OpWrite a n _ =>
      bs ← buf_read 0 (Z.to_nat (n * BL)) DataBuffer;
      disk ← buf_write (Z.to_nat (a * BL)) bs disk;
      Some (DataBuffer, disk)
  | _ => Some (DataBuffer, disk)
  end.

(** The service of one request to its end: the status, the request, the disk, and the requests
    that the device got. *)
Fixpoint transfer (fuel : nat) (DBG : bool) (Mem : gmap Z SPD_STORAGE_UNIT) (BL SrbExtension : Z)
    (e : SPD_SRB_EXTENSION) (Srb : SRB) (DataBuffer disk : list Z)
    : option (Z * SRB * list Z * list SPD_IOCTL_TRANSACT_REQ) :=
  match fuel with
  | O => None
  | S fuel =>
      t ← SpdSrbExecuteScsiPrepare DBG Mem SrbExtension e Srb
            (mkTransact ReqZero rsp_good (Some DataBuffer));
      DataBuffer ← t_DataBuffer t;
      '(DataBuffer, disk) ← device BL (t_Req t) DataBuffer disk;
      '(SrbStatus, e, Srb) ← SpdSrbExecuteScsiComplete DBG Mem e Srb
            (mkTransact (t_Req t) rsp_good (Some DataBuffer));
      if SrbStatus =? SRB_STATUS_PENDING then
        '(SrbStatus, Srb, disk, rs) ←
           transfer fuel DBG Mem BL SrbExtension e Srb DataBuffer disk;
        Some (SrbStatus, Srb, disk, t_Req t :: rs)
      else Some (SrbStatus, Srb, disk, [t_Req t])
  end.

(** The blocks that a request covers, and whether it fits a chunk. *)
Definition req_blocks (r : SPD_IOCTL_TRANSACT_REQ) : list Z :=
  match req_Op r with
  | OpRead a n _ | OpWrite a n _ => seqZ a n
  | _ => []
  end.

Definition req_fits (P : SPD_IOCTL_STORAGE_UNIT_PARAMS) (r : SPD_IOCTL_TRANSACT_REQ) : Prop :=
  match req_Op r with
  | OpRead a n _ | OpWrite a n _ => 0 < n /\ n * BlockLength P <= MaxTransferLength P
  | _ => True
  end.

Definition covers (P : SPD_IOCTL_STORAGE_UNIT_PARAMS) (rs : list SPD_IOCTL_TRANSACT_REQ)
    (a n : Z) : Prop :=
  Forall (req_fits P) rs /\ concat (req_blocks <$> rs) = seqZ a n.

(** ** One chunk *)

Section Transfer.
Context (DBG : bool) (Mem : gmap Z SPD_STORAGE_UNIT) (u : SPD_STORAGE_UNIT).
Let P := StorageUnitParams u.
Context (HP : params_wf P).
Context (SrbExtension StorageUnit Srb_ Buf len lba n fua : Z).
Context (Hu : Mem !! StorageUnit = Some u) (HBuf : Buf <> 0).
Context (Hlen : len = n * BlockLength P) (Hlen32 : 0 < len < 2 ^ 32).
Context (Hrange : 0 <= lba /\ lba + n <= BlockCount P).

(** The extension after [off] bytes. *)
Let ext (off : Z) : SPD_SRB_EXTENSION := mkExt StorageUnit Srb_ Buf len off.
Let chunk (off : Z) : Z := Z.min (MaxTransferLength P) (len - off).

Lemma chunk_length off : 0 <= off < len -> ChunkLength P (ext off) = chunk off.
Proof using Hlen32.
  intros Hoff. unfold ChunkLength, chunk, ext. simpl. rewrite u32_small by lia.
  case_match; zify_bools; lia.
Qed.

Lemma chunk_facts off :
  0 <= off < len -> off mod BlockLength P = 0 ->
  0 < chunk off <= len - off /\ chunk off <= MaxTransferLength P /\
  chunk off mod BlockLength P = 0 /\ (off + chunk off) mod BlockLength P = 0 /\
  (len - (off + chunk off) <= len - off - MaxTransferLength P \/ off + chunk off = len).
Proof using HP Hlen Hlen32.
  intros Hoff Hmod. unfold chunk. pose proof (wf_BlockLength _ HP). pose proof (wf_Max_Block _ HP).
  pose proof (wf_MaxTransferLength _ HP).
  assert (Z.min (MaxTransferLength P) (len - off) mod BlockLength P = 0) as Hc.
  { destruct (Z.min_spec (MaxTransferLength P) (len - off)) as [[_ ->]|[_ ->]]; [done|].
    rewrite Zminus_mod, Hmod, Hlen, Z_mod_mult. done. }
  split_and!; try lia; try done.
  rewrite Zplus_mod, Hmod, Hc. done.
Qed.

(** The blocks of the chunk at [off]. *)
Lemma chunk_blocks off :
  0 <= off < len -> off mod BlockLength P = 0 ->
  chunk_range P (ext off) lba fua
  = Some (lba + off / BlockLength P, chunk off / BlockLength P,
          if CacheSupported P then fua else 1) /\
  (lba + off / BlockLength P) * BlockLength P = lba * BlockLength P + off /\
  chunk off / BlockLength P * BlockLength P = chunk off /\
  0 < chunk off / BlockLength P.
Proof using HP Hlen Hlen32 Hrange.
  intros Hoff Hmod. pose proof (chunk_facts off Hoff Hmod) as (Hc & _ & Hcm & _).
  pose proof (wf_BlockLength _ HP). pose proof (wf_BlockCount _ HP).
  apply Z.div_exact in Hmod as Ho; [|lia]. apply Z.div_exact in Hcm as Hcd; [|lia].
  assert (off / BlockLength P < n) by nia.
  assert (0 <= off / BlockLength P) by (apply Z.div_pos; lia).
  split_and!; try nia.
  unfold chunk_range. rewrite (proj2 (Z.eqb_neq (BlockLength P) 0)) by lia.
  rewrite chunk_length by done. unfold ext at 1. simpl. by rewrite u64_small by lia.
Qed.

(** What is left after a chunk. *)
Lemma next_chunk_spec off :
  0 <= off < len -> off mod BlockLength P = 0 ->
  next_chunk P (ext off) =
  (if decide (off + chunk off = len) then SRB_STATUS_SUCCESS else SRB_STATUS_PENDING,
   ext (off + chunk off)).
Proof using HP Hlen Hlen32.
  intros Hoff Hmod. pose proof (chunk_facts off Hoff Hmod) as (Hc & _).
  unfold next_chunk. rewrite chunk_length by done. unfold ext. simpl.
  rewrite u32_small by lia. case_decide; case_match; zify_bools; done || lia.
Qed.

(** Blocks of a chunk, then the rest. *)
Lemma blocks_split off :
  0 <= off < len -> off mod BlockLength P = 0 ->
  seqZ (lba + off / BlockLength P) (chunk off / BlockLength P) ++
  seqZ (lba + (off + chunk off) / BlockLength P) ((len - (off + chunk off)) / BlockLength P)
  = seqZ (lba + off / BlockLength P) ((len - off) / BlockLength P).
Proof using HP Hlen Hlen32.
  intros Hoff Hmod. pose proof (chunk_facts off Hoff Hmod) as (Hc & _ & Hcm & Hom & _).
  pose proof (wf_BlockLength _ HP).
  assert (forall x y, x mod BlockLength P = 0 -> (x + y) / BlockLength P =
            x / BlockLength P + y / BlockLength P) as Hadd.
  { intros x y Hx. apply Z.div_exact in Hx; [|lia]. rewrite Hx at 1.
    rewrite Z.add_comm, Z.mul_comm, Z.div_add by lia. lia. }
  rewrite Hadd, Z.add_assoc by done.
  replace (len - off) with (chunk off + (len - (off + chunk off))) by lia.
  rewrite (Hadd (chunk off)) by done. rewrite <- seqZ_app; [done|apply Z.div_pos; lia..].
Qed.

(** The requests after a first one. *)
Lemma covers_cons off rs r :
  0 <= off < len -> off mod BlockLength P = 0 ->
  req_fits P r ->
  req_blocks r = seqZ (lba + off / BlockLength P) (chunk off / BlockLength P) ->
  covers P rs (lba + (off + chunk off) / BlockLength P)
    ((len - (off + chunk off)) / BlockLength P) ->
  covers P (r :: rs) (lba + off / BlockLength P) ((len - off) / BlockLength P).
Proof using HP Hlen Hlen32.
  intros Hoff Hmod Hf Hb [Hfs Hc]. split; [by constructor|].
  rewrite fmap_cons. cbn [concat]. rewrite Hb, Hc. by apply blocks_split.
Qed.

Lemma covers_last off : off = len ->
  covers P [] (lba + off / BlockLength P) ((len - off) / BlockLength P).
Proof using.
  intros ->. split; [done|]. by rewrite Z.sub_diag, Zdiv_0_l.
Qed.

Lemma chunk_fits off :
  0 <= off < len -> off mod BlockLength P = 0 ->
  0 < chunk off / BlockLength P /\
  chunk off / BlockLength P * BlockLength P <= MaxTransferLength P.
Proof using Buf Srb_ StorageUnit fua HP Hlen Hlen32 Hrange.
  intros Hoff Hmod. destruct (chunk_blocks off Hoff Hmod) as (_ & _ & -> & H0).
  pose proof (chunk_facts off Hoff Hmod). lia.
Qed.

(** The rest of the range after a chunk, as a number of bytes. *)
Lemma rest_split off : 0 <= off < len -> off mod BlockLength P = 0 ->
  Z.to_nat (len - off) = (Z.to_nat (chunk off) + Z.to_nat (len - (off + chunk off)))%nat /\
  Z.to_nat (off + chunk off) = (Z.to_nat off + Z.to_nat (chunk off))%nat /\
  Z.to_nat (lba * BlockLength P + (off + chunk off))
  = (Z.to_nat (lba * BlockLength P + off) + Z.to_nat (chunk off))%nat.
Proof using HP Hlen Hlen32 Hrange.
  intros Hoff Hmod. pose proof (chunk_facts off Hoff Hmod) as [Hc _].
  pose proof (wf_BlockLength _ HP). assert (0 <= lba * BlockLength P) by nia. lia.
Qed.

(** ** Whole transfers *)

Section Ops.
Context (Srb : SRB) (DataBuffer : list Z).
Context (op : Z) (Hop : SrbGetCdb Srb !! 0%nat = Some op).
Context (Hcdb : SpdCdbGetRange DBG (SrbGetCdb Srb) = Some (lba, n, fua)).

Let with_Data (d : list Z) : SRB := Srb <| srb_Data := d |>.

Lemma prepare_read off d t :
  is_read_op op = true -> 0 <= off < len -> off mod BlockLength P = 0 ->
  SpdSrbExecuteScsiPrepare DBG Mem SrbExtension (ext off) (with_Data d) t
  = Some (t <| t_Req := mkReq SrbExtension SpdIoctlTransactReadKind
            (OpRead (lba + off / BlockLength P) (chunk off / BlockLength P)
                    (if CacheSupported P then fua else 1)) |>).
Proof using HP Hlen Hlen32 Hrange Hu Hop Hcdb.
  intros Hread Hoff Hmod. unfold SpdSrbExecuteScsiPrepare.
  change (ext_StorageUnit (ext off)) with StorageUnit.
  change (SrbGetCdb (with_Data d)) with (SrbGetCdb Srb). rewrite Hu, Hop. opt.
  rewrite Hread, Hcdb. opt. fold P. by rewrite (proj1 (chunk_blocks off Hoff Hmod)).
Qed.

Lemma complete_read off d r b DB d1 :
  is_read_op op = true -> 0 <= off < len -> off mod BlockLength P = 0 ->
  buf_read 0 (Z.to_nat (chunk off)) DB = Some b -> buf_write (Z.to_nat off) b d = Some d1 ->
  SpdSrbExecuteScsiComplete DBG Mem (ext off) (with_Data d) (mkTransact r rsp_good (Some DB))
  = Some (if decide (off + chunk off = len) then SRB_STATUS_SUCCESS else SRB_STATUS_PENDING,
          ext (off + chunk off), with_Data d1).
Proof using HP Hlen Hlen32 Hu HBuf Hop.
  intros Hread Hoff Hmod Hb Hd. unfold SpdSrbExecuteScsiComplete.
  change (ext_StorageUnit (ext off)) with StorageUnit.
  change (SrbGetCdb (with_Data d)) with (SrbGetCdb Srb). rewrite Hu, Hop. opt. fold P.
  cbn [t_Rsp t_DataBuffer]. change (SCSISTAT_GOOD =? ScsiStatus (rsp_Status rsp_good)) with true.
  cbn [negb]. rewrite Hread, chunk_length, Hb by done. opt. unfold system_data.
  change (ext_SystemDataBuffer (ext off)) with Buf. rewrite (proj2 (Z.eqb_neq Buf 0)) by done.
  change (srb_Data (with_Data d)) with d. change (ext_ChunkOffset (ext off)) with off.
  rewrite Hd. opt. by rewrite next_chunk_spec.
Qed.

Lemma prepare_write off d t b DB DB' :
  is_read_op op = false -> is_write_op op = true ->
  0 <= off < len -> off mod BlockLength P = 0 ->
  buf_read (Z.to_nat off) (Z.to_nat (chunk off)) d = Some b ->
  t_DataBuffer t = Some DB -> buf_write 0 b DB = Some DB' ->
  SpdSrbExecuteScsiPrepare DBG Mem SrbExtension (ext off) (with_Data d) t
  = Some ((t <| t_Req := mkReq SrbExtension SpdIoctlTransactWriteKind
            (OpWrite (lba + off / BlockLength P) (chunk off / BlockLength P)
                     (if CacheSupported P then fua else 1)) |>)
            <| t_DataBuffer := Some DB' |>).
Proof using HP Hlen Hlen32 Hrange Hu HBuf Hop Hcdb.
  intros Hread Hwrite Hoff Hmod Hb HDB HDB'. unfold SpdSrbExecuteScsiPrepare.
  change (ext_StorageUnit (ext off)) with StorageUnit.
  change (SrbGetCdb (with_Data d)) with (SrbGetCdb Srb). rewrite Hu, Hop. opt.
  rewrite Hread, Hwrite, Hcdb. opt. fold P. rewrite (proj1 (chunk_blocks off Hoff Hmod)). opt.
  rewrite chunk_length by done. unfold system_data.
  change (ext_SystemDataBuffer (ext off)) with Buf. rewrite (proj2 (Z.eqb_neq Buf 0)) by done.
  change (srb_Data (with_Data d)) with d. change (ext_ChunkOffset (ext off)) with off.
  by rewrite Hb, HDB; opt; rewrite HDB'.
Qed.

Lemma complete_write off d r DB :
  is_read_op op = false -> is_write_op op = true ->
  0 <= off < len -> off mod BlockLength P = 0 ->
  SpdSrbExecuteScsiComplete DBG Mem (ext off) (with_Data d) (mkTransact r rsp_good DB)
  = Some (if decide (off + chunk off = len) then SRB_STATUS_SUCCESS else SRB_STATUS_PENDING,
          ext (off + chunk off), with_Data d).
Proof using HP Hlen Hlen32 Hu Hop.
  intros Hread Hwrite Hoff Hmod. unfold SpdSrbExecuteScsiComplete.
  change (ext_StorageUnit (ext off)) with StorageUnit.
  change (SrbGetCdb (with_Data d)) with (SrbGetCdb Srb). rewrite Hu, Hop. opt. fold P.
  cbn [t_Rsp]. change (SCSISTAT_GOOD =? ScsiStatus (rsp_Status rsp_good)) with true.
  cbn [negb]. by rewrite Hread, Hwrite, next_chunk_spec by done.
Qed.

Lemma transfer_read fuel off data bs data' disk DB :
  is_read_op op = true ->
  Z.of_nat (length DB) = MaxTransferLength P ->
  0 <= off < len -> off mod BlockLength P = 0 ->
  len - off <= Z.of_nat fuel * MaxTransferLength P ->
  buf_read (Z.to_nat (lba * BlockLength P + off)) (Z.to_nat (len - off)) disk = Some bs ->
  buf_write (Z.to_nat off) bs data = Some data' ->
  exists rs,
    transfer fuel DBG Mem (BlockLength P) SrbExtension (ext off) (with_Data data) DB disk
    = Some (SRB_STATUS_SUCCESS, with_Data data', disk, rs) /\
    covers P rs (lba + off / BlockLength P) ((len - off) / BlockLength P).
Proof using HP Hlen Hlen32 Hrange Hu HBuf Hop Hcdb.
  intros Hread. revert off data bs data' DB.
  induction fuel as [|fuel IH]; intros off data bs data' DB HDB Hoff Hmod Hfuel Hbs Hdata;
    [lia|].
  pose proof (chunk_facts off Hoff Hmod) as (Hc & HcM & Hcm & Hom & Hrest).
  pose proof (chunk_blocks off Hoff Hmod) as (_ & Ha & Hn & _).
  pose proof (chunk_fits off Hoff Hmod) as Hfit.
  pose proof (rest_split off Hoff Hmod) as (E1 & E2 & E3).
  rewrite E1 in Hbs. apply buf_read_split in Hbs as (b1 & b2 & -> & Hb1 & Hb2).
  apply buf_write_split in Hdata as (d1 & Hd1 & Hd2).
  destruct (buf_read_Some _ _ _ _ Hb1) as [Hl1 _].
  destruct (proj2 (buf_write_is_Some 0 b1 DB) ltac:(lia)) as [DB' HDB'].
  pose proof (buf_write_length _ _ _ _ HDB') as HlDB.
  pose proof (buf_read_write_same _ _ _ _ HDB') as Hrd. rewrite Hl1 in Hrd.
  cbn [transfer]. rewrite prepare_read by done. opt. cbn [t_DataBuffer t_Req update Update].
  opt. unfold device. cbn [req_Op]. rewrite Ha, Hn, Hb1. opt. rewrite HDB'. opt.
  erewrite complete_read by done. opt. case_decide as Hlast.
  - change (SRB_STATUS_SUCCESS =? SRB_STATUS_PENDING) with false. cbv iota.
    assert (b2 = []) as ->.
    { apply nil_length_inv. destruct (buf_read_Some _ _ _ _ Hb2) as [-> _]. lia. }
    apply buf_write_inv in Hd2 as [_ Hd2]. simpl in Hd2. rewrite Nat.add_0_r, take_drop in Hd2.
    subst d1. eexists. split; [done|].
    apply covers_cons; [done..|]. by apply covers_last.
  - change (SRB_STATUS_PENDING =? SRB_STATUS_PENDING) with true. cbv iota.
    destruct (IH (off + chunk off) d1 b2 data' DB') as (rs & -> & Hcov); try done; try lia.
    { rewrite E3. done. }
    { rewrite E2, <- Hl1. done. }
    opt. eexists. split; [done|]. by apply covers_cons.
Qed.

Lemma transfer_write fuel off data bs disk disk' DB :
  is_read_op op = false -> is_write_op op = true ->
  Z.of_nat (length DB) = MaxTransferLength P ->
  0 <= off < len -> off mod BlockLength P = 0 ->
  len - off <= Z.of_nat fuel * MaxTransferLength P ->
  buf_read (Z.to_nat off) (Z.to_nat (len - off)) data = Some bs ->
  buf_write (Z.to_nat (lba * BlockLength P + off)) bs disk = Some disk' ->
  exists rs,
    transfer fuel DBG Mem (BlockLength P) SrbExtension (ext off) (with_Data data) DB disk
    = Some (SRB_STATUS_SUCCESS, with_Data data, disk', rs) /\
    covers P rs (lba + off / BlockLength P) ((len - off) / BlockLength P).
Proof using HP Hlen Hlen32 Hrange Hu HBuf Hop Hcdb.
  intros Hread Hwrite. revert off bs disk DB.
  induction fuel as [|fuel IH]; intros off bs disk DB HDB Hoff Hmod Hfuel Hbs Hdisk; [lia|].
  pose proof (chunk_facts off Hoff Hmod) as (Hc & HcM & Hcm & Hom & Hrest).
  pose proof (chunk_blocks off Hoff Hmod) as (_ & Ha & Hn & _).
  pose proof (chunk_fits off Hoff Hmod) as Hfit.
  pose proof (rest_split off Hoff Hmod) as (E1 & E2 & E3).
  rewrite E1 in Hbs. apply buf_read_split in Hbs as (b1 & b2 & -> & Hb1 & Hb2).
  apply buf_write_split in Hdisk as (d1 & Hd1 & Hd2).
  destruct (buf_read_Some _ _ _ _ Hb1) as [Hl1 _].
  destruct (proj2 (buf_write_is_Some 0 b1 DB) ltac:(lia)) as [DB' HDB'].
  pose proof (buf_write_length _ _ _ _ HDB') as HlDB.
  pose proof (buf_read_write_same _ _ _ _ HDB') as Hrd. rewrite Hl1 in Hrd.
  cbn [transfer]. erewrite prepare_write by done. opt. cbn [t_DataBuffer t_Req update Update].
  opt. unfold device. cbn [req_Op]. rewrite Ha, Hn, Hrd. opt. rewrite Hd1. opt.
  rewrite complete_write by done. opt. case_decide as Hlast.
  - change (SRB_STATUS_SUCCESS =? SRB_STATUS_PENDING) with false. cbv iota.
    assert (b2 = []) as ->.
    { apply nil_length_inv. destruct (buf_read_Some _ _ _ _ Hb2) as [-> _]. lia. }
    apply buf_write_inv in Hd2 as [_ Hd2]. simpl in Hd2. rewrite Nat.add_0_r, take_drop in Hd2.
    subst d1. eexists. split; [done|].
    apply covers_cons; [done..|]. by apply covers_last.
  - change (SRB_STATUS_PENDING =? SRB_STATUS_PENDING) with true. cbv iota.
    destruct (IH (off + chunk off) b2 d1 DB') as (rs & -> & Hcov); try done; try lia.
    { rewrite E2. done. }
    { rewrite E3, <- Hl1. done. }
    opt. eexists. split; [done|]. by apply covers_cons.
Qed.
End Ops.
End Transfer.

(** ** Interface with the queue *)

(** The completion routine keeps what the queue relies on: the request of the extension and
    the extension of the request. *)
Lemma execute_scsi_complete_frame DBG Mem e Srb t st e' Srb' :
  SpdSrbExecuteScsiComplete DBG Mem e Srb t = Some (st, e', Srb') ->
  ext_Srb e' = ext_Srb e /\ SpdSrbExtension Srb' = SpdSrbExtension Srb.
Proof.
  unfold SpdSrbExecuteScsiComplete. intros (u & _ & H)%bind_Some. revert H.
  destruct (SCSISTAT_GOOD =? _); cbn [negb].
  - intros (op & _ & H)%bind_Some. revert H.
    destruct (is_read_op op).
    { intros (bs & _ & (d & _ & H)%bind_Some)%bind_Some. revert H. unfold next_chunk.
      intros [= _ <- <-]. by case_match. }
    destruct (is_write_op op); [by intros [= _ <- <-]|].
    destruct (is_sync_op op || _); [by intros [= _ <- <-]|].
    by intros (_ & _ & [= _ <- <-])%bind_Some.
  - intros ([st1 Srb1] & H & [= _ <- <-])%bind_Some. split; [done|]. revert H.
    unfold SpdScsiErrorEx. case_match; [|by intros [= _ <-]].
    by intros (b1 & _ & (b2 & _ & (b3 & _ & [= _ <-])%bind_Some)%bind_Some)%bind_Some.
Qed.

(** * Properties of the commands that a storage device executes *)

(** ** What is posted *)

(** The request that the queue gets: the cleared extension with its unit and its data. *)
Definition posted_request (StorageUnit SrbAddress Buf len : Z) (Srb : SRB) : request :=
  mkRequest (SpdSrbExtension Srb) (mkExt StorageUnit SrbAddress Buf len 0) Srb.

(** What the port driver and the rest of the driver guarantee when a command is executed: a
    well-formed request that is not in the queue, and a unit with its queue. *)
Record post_context (u : SPD_STORAGE_UNIT) (q : SPD_IOQ) (Q : queue) (Srb : SRB)
    (SrbAddress : Z) : Prop := {
  pc_srb : srb_wf Srb;
  pc_unit : unit_data_wf u;
  pc_ioq : Ioq u = Some q;
  pc_abs : ioq_abs q Q;
  pc_fresh : forall p b n, fresh Q (posted_request p SrbAddress b n Srb)
}.

(** A command that was answered without being posted. *)
Definition refused (u : SPD_STORAGE_UNIT) (r : option (Z * SRB * SPD_IOQ)) : Prop :=
  exists st Srb' q, r = Some (st, Srb', q) /\ Ioq u = Some q /\
    SRB_STATUS st <> SRB_STATUS_PENDING.

Section PostLemmas.
Context (DBG : bool) (u : SPD_STORAGE_UNIT) (StorageUnit SrbAddress : Z).
Context (q : SPD_IOQ) (Q : queue) (Srb : SRB) (Hpc : post_context u q Q Srb SrbAddress).
Let P := StorageUnitParams u.

Lemma refused_with st Srb' :
  SRB_STATUS st <> SRB_STATUS_PENDING -> refused u (not_posted u (Some (st, Srb'))).
Proof using Hpc.
  intros Hst. unfold refused, not_posted. opt. rewrite (pc_ioq _ _ _ _ _ Hpc). opt. by eexists _, _, q.
Qed.

Lemma refused_error K A : refused u (not_posted u (SpdScsiError Srb K A)).
Proof using Hpc.
  unfold SpdScsiError. rewrite (error_ex_spec Srb (pc_srb _ _ _ _ _ Hpc)) by done.
  unfold check_condition. destruct (senses Srb); by apply refused_with.
Qed.

(** Posting to a queue that runs. *)
Lemma post_srb_spec Buf DataLength :
  q_stopped Q = false ->
  exists q', SpdScsiPostSrb DBG u StorageUnit SrbAddress (STOR_STATUS_SUCCESS, Buf) Srb DataLength
    = Some (SRB_STATUS_PENDING, Srb, q') /\
    ioq_abs q' (q_post Q (posted_request StorageUnit SrbAddress
      (if DataLength =? 0 then 0 else Buf) DataLength Srb)).2.
Proof using Hpc.
  intros Hst. destruct Hpc as [Hsrb Hunit Hq Habs Hf]. unfold SpdScsiPostSrb. rewrite Hq. opt.
  pose proof (fresh_nonnull _ _ (Hf 0 0 0)) as Hnn. simpl in Hnn.
  rewrite (proj2 (Z.eqb_neq (SpdSrbExtension Srb) 0)) by done.
  change (STOR_STATUS_SUCCESS =? STOR_STATUS_SUCCESS) with true. rewrite andb_false_r.
  rewrite (Z.eqb_sym 0).
  set (ext := if negb (DataLength =? 0) then _ else _).
  assert (ext <| ext_Srb := SrbAddress |> =
    mkExt StorageUnit SrbAddress (if DataLength =? 0 then 0 else Buf) DataLength 0) as Hext.
  { subst ext. destruct (Z.eqb_spec DataLength 0) as [->|]; done. }
  destruct (post_abs DBG q Q SrbAddress Srb ext (mkEntry LNull LNull) Habs)
    as (q' & -> & Ha); [rewrite Hext; apply Hf|subst ext; by case_match|done|].
  rewrite Hext in Ha. unfold q_post in Ha |- *. rewrite Hst in Ha |- *. opt.
  by eexists.
Qed.

(** Posting, whatever the queue and the port driver say. *)
Lemma post_srb_total SystemAddress DataLength :
  exists st Srb' q',
    SpdScsiPostSrb DBG u StorageUnit SrbAddress SystemAddress Srb DataLength
    = Some (st, Srb', q') /\
    (SRB_STATUS st <> SRB_STATUS_PENDING /\ q' = q /\
       SpdSrbExtension Srb' = SpdSrbExtension Srb \/
     st = SRB_STATUS_PENDING /\ Srb' = Srb /\ q_stopped Q = false /\
       exists Buf, ioq_abs q' (q_post Q (posted_request StorageUnit SrbAddress Buf DataLength Srb)).2).
Proof using Hpc.
  destruct Hpc as [Hsrb Hunit Hq Habs Hf].
  destruct SystemAddress as [StorResult Buf].
  destruct (negb (0 =? DataLength) && negb (STOR_STATUS_SUCCESS =? StorResult)) eqn:E.
  - unfold SpdScsiPostSrb. rewrite Hq. opt.
    pose proof (fresh_nonnull _ _ (Hf 0 0 0)) as Hnn. simpl in Hnn.
    rewrite (proj2 (Z.eqb_neq (SpdSrbExtension Srb) 0)), E by done.
    eexists _, _, _. split; [done|]. by left.
  - destruct (q_stopped Q) eqn:Hst.
    + unfold SpdScsiPostSrb. rewrite Hq. opt.
      pose proof (fresh_nonnull _ _ (Hf 0 0 0)) as Hnn. simpl in Hnn.
      rewrite (proj2 (Z.eqb_neq (SpdSrbExtension Srb) 0)), E by done.
      unfold SpdIoqPostSrb. rewrite (abs_stopped _ _ Habs), Hst. cbn [negb]. opt.
      eexists _, _, _. split; [done|]. by left.
    + assert (exists Buf', SpdScsiPostSrb DBG u StorageUnit SrbAddress (StorResult, Buf) Srb DataLength
        = SpdScsiPostSrb DBG u StorageUnit SrbAddress (STOR_STATUS_SUCCESS, Buf') Srb DataLength)
        as [Buf' ->].
      { exists Buf. unfold SpdScsiPostSrb. rewrite E.
        change (STOR_STATUS_SUCCESS =? STOR_STATUS_SUCCESS) with true. by rewrite andb_false_r. }
      destruct (post_srb_spec Buf' DataLength Hst) as (q' & -> & Ha).
      eexists _, _, _. split; [done|]. right. split_and!; try done. by eexists.
Qed.
End PostLemmas.

(** ** Ranges *)

Definition is_range_op (op : Z) : bool := is_read_op op || is_write_op op || is_sync_op op.

(** The operation codes, one by one. *)
Lemma range_ops op :
  is_range_op op = true ->
  op ∈ [SCSIOP_READ6; SCSIOP_READ; SCSIOP_READ12; SCSIOP_READ16; SCSIOP_WRITE6; SCSIOP_WRITE;
        SCSIOP_WRITE12; SCSIOP_WRITE16; SCSIOP_SYNCHRONIZE_CACHE; SCSIOP_SYNCHRONIZE_CACHE16].
Proof.
  unfold is_range_op, is_read_op, is_write_op, is_sync_op. intros H.
  repeat (apply orb_true_iff in H as [H|H]); apply Z.eqb_eq in H as <-;
    apply list_elem_of_In; simpl; tauto.
Qed.

Lemma get_be24_bound b0 b1 b2 :
  is_byte b0 -> is_byte b1 -> is_byte b2 -> 0 <= get_be24 b0 b1 b2 < 2 ^ 24.
Proof. intros. rewrite get_be24_add by done. blia. Qed.

Lemma get_be16_bound b0 b1 : is_byte b0 -> is_byte b1 -> 0 <= get_be16 b0 b1 < 2 ^ 16.
Proof. intros. rewrite get_be16_add by done. blia. Qed.

Lemma land_byte b m : is_byte b -> 0 <= m -> is_byte (b .& m).
Proof.
  intros Hb Hm. unfold is_byte in *. split; [apply Z.land_nonneg; lia|].
  destruct (decide (b .& m = 0)) as [->|]; [lia|].
  assert (0 <= b .& m) by (apply Z.land_nonneg; lia).
  change 256 with (2 ^ 8). apply Z.log2_lt_pow2; [lia|].
  eapply Z.le_lt_trans; [apply Z.log2_land; lia|].
  assert (Z.log2 b < 8); [|lia]. destruct (decide (b = 0)) as [->|]; [done|].
  apply Z.log2_lt_pow2; lia.
Qed.

(** A command of a known operation code always has a range. *)
Lemma get_range_total DBG Cdb op :
  length Cdb = 16%nat -> Forall is_byte Cdb -> Cdb !! 0%nat = Some op -> is_range_op op = true ->
  exists lba n fua, SpdCdbGetRange DBG Cdb = Some (lba, n, fua) /\
    0 <= lba < 2 ^ 64 /\ 0 <= n < 2 ^ 32.
Proof.
  intros Hlen Hb Hop Hr. explode Cdb Hlen. injection Hop as <-.
  repeat (apply Forall_cons in Hb as [? Hb]). clear Hb.
  assert (is_byte (b0 .& 0x1f)) by (apply land_byte; [done|lia]).
  apply range_ops, list_elem_of_In in Hr. simpl in Hr.
  unfold SpdCdbGetRange. repeat destruct Hr as [<-|Hr]; try done.
  all: rewrite ASSERT_true by done; opt.
  all: eexists _, _, _; split; [reflexivity|].
  all: split.
  all: try (match goal with |- 0 <= (if negb (0 =? ?b) then _ else _) < _ =>
         unfold is_byte in *; destruct (negb (0 =? b)); lia end).
  all: try (match goal with |- 0 <= get_be24 ?a ?b ?c < _ =>
         pose proof (get_be24_bound a b c); lia || (destruct (get_be24_bound a b c); done || lia) end).
  all: try (match goal with |- 0 <= get_be16 ?a ?b < _ =>
         destruct (get_be16_bound a b); done || lia end).
  all: try (match goal with |- 0 <= get_be32 ?a ?b ?c ?d < _ =>
         destruct (get_be32_bound a b c d); done || lia end).
  all: try (by apply get_be64_bound).
Qed.

(** The test of a range against the size of the unit, with its wrap-around. *)
Lemma range_inside lba n B :
  0 <= lba < 2 ^ 64 -> 0 <= n < 2 ^ 32 -> B < 2 ^ 64 ->
  (u64 (lba + n) <? lba) || (u64 (lba + n) >? B) = false -> lba + n <= B.
Proof.
  intros Hlba Hn HB [E1 E2]%orb_false_iff. zify_bools. unfold u64 in *.
  destruct (decide (lba + n < 2 ^ 64)).
  - rewrite Z.mod_small in E2 by lia. lia.
  - assert ((lba + n) mod 2 ^ 64 = lba + n - 2 ^ 64) as Em; [|rewrite Em in *; lia].
    symmetry. apply Z.mod_unique with 1; lia.
Qed.

(** ** Commands *)

Section Commands.
Context (DBG : bool) (u : SPD_STORAGE_UNIT) (StorageUnit SrbAddress : Z).
Context (SystemAddress : Z * Z).
Context (q : SPD_IOQ) (Q : queue) (Srb : SRB) (Hpc : post_context u q Q Srb SrbAddress).
Let P := StorageUnitParams u.

(** Every way a command ends: it is answered, and the queue is as before; or it is pending, and
    the queue has it, for data that satisfies [Good]. *)
Definition post_outcome (r : option (Z * SRB * SPD_IOQ)) (Good : Z -> Prop) : Prop :=
  exists st Srb' q', r = Some (st, Srb', q') /\
    (SRB_STATUS st <> SRB_STATUS_PENDING /\ q' = q \/
     st = SRB_STATUS_PENDING /\ Srb' = Srb /\ q_stopped Q = false /\
     exists Buf len, Good len /\
       ioq_abs q' (q_post Q (posted_request StorageUnit SrbAddress Buf len Srb)).2).

Lemma refused_outcome r Good : refused u r -> post_outcome r Good.
Proof using Hpc.
  intros (st & Srb' & q' & -> & Hq & Hst). rewrite (pc_ioq _ _ _ _ _ Hpc) in Hq.
  injection Hq as <-. eexists _, _, _. split; [done|]. by left.
Qed.

Lemma posted_outcome DataLength (Good : Z -> Prop) :
  Good DataLength ->
  post_outcome (SpdScsiPostSrb DBG u StorageUnit SrbAddress SystemAddress Srb DataLength) Good.
Proof using Hpc.
  intros HG. destruct (post_srb_total DBG u StorageUnit SrbAddress q Q Srb Hpc SystemAddress DataLength)
    as (st & Srb' & q' & -> & [(H1 & -> & _)|(H1 & H2 & H3 & Buf & Ha)]);
    eexists _, _, _; (split; [done|]); [by left|right; split_and!; try done; by eexists _, _].
Qed.

Lemma post_range_outcome lba n DataLength (Good : Z -> Prop) :
  0 <= lba < 2 ^ 64 -> 0 <= n < 2 ^ 32 ->
  (0 < n -> lba + n <= BlockCount P -> Good DataLength) ->
  post_outcome (post_range DBG u StorageUnit SrbAddress SystemAddress Srb lba n DataLength) Good.
Proof using Hpc.
  intros Hlba Hn HG. pose proof (wf_BlockCount _ (proj1 (pc_unit _ _ _ _ _ Hpc))) as Hbc.
  unfold post_range. destruct (0 =? n) eqn:E0.
  { apply refused_outcome. by apply (refused_with u SrbAddress q Q Srb Hpc). }
  destruct ((_ <? lba) || _) eqn:E.
  - apply refused_outcome. by apply (refused_error u SrbAddress q Q Srb Hpc).
  - apply range_inside in E; [|done..|lia]. apply posted_outcome. zify_bools.
    apply HG; [lia|done].
Qed.

(** The lengths that a range command may be posted with.  The length of the data is computed in 32
    bits: that it fits in the buffer means that the range does only if its length is below 2^32
    bytes. *)
Definition range_ok (op : Z) (len : Z) : Prop :=
  exists lba n fua, SpdCdbGetRange DBG (SrbGetCdb Srb) = Some (lba, n, fua) /\
    0 <= lba /\ 0 < n /\ lba + n <= BlockCount P /\
    (is_read_op op = false -> WriteProtected P = false) /\
    (if is_read_op op || is_write_op op
     then len = u32 (n * BlockLength P) /\ len <= SrbGetDataTransferLength Srb /\
          (n * BlockLength P < 2 ^ 32 -> len = n * BlockLength P)
     else len = 0 /\ CacheSupported P = true).

Lemma post_range_srb_outcome op :
  SrbGetCdb Srb !! 0%nat = Some op -> is_range_op op = true ->
  post_outcome (SpdScsiPostRangeSrb DBG u StorageUnit SrbAddress SystemAddress Srb (SrbGetCdb Srb))
    (range_ok op).
Proof using Hpc.
  intros Hop Hr. destruct (pc_srb _ _ _ _ _ Hpc) as [_ _ _ _ _ Hl Hb].
  destruct (get_range_total DBG _ op Hl Hb Hop Hr) as (lba & n & fua & E & Hlba & Hn).
  pose proof (refused_with u SrbAddress q Q Srb Hpc) as Hrw.
  pose proof (refused_error u SrbAddress q Q Srb Hpc) as Hre.
  pose proof (wf_BlockLength _ (proj1 (pc_unit _ _ _ _ _ Hpc))) as HBL. fold P in HBL.
  unfold SpdScsiPostRangeSrb. rewrite Hop. opt. fold P.
  unfold is_range_op in Hr. unfold range_ok. unfold SrbGetCdb in E |- *. rewrite E.
  destruct (is_read_op op) eqn:Er; [|destruct (is_write_op op) eqn:Ew].
  - opt. case_match eqn:El; [by apply refused_outcome, Hrw|]. zify_bools.
    apply post_range_outcome; [done..|]. intros. eexists _, _, _; split_and!; try done; try lia.
    cbn [orb]. split_and!; [done|done|]. intros Hs. apply u32_small. nia.
  - destruct (WriteProtected P) eqn:Ewp; [by apply refused_outcome, Hre|]. opt.
    case_match eqn:El; [by apply refused_outcome, Hrw|]. zify_bools.
    apply post_range_outcome; [done..|]. intros. eexists _, _, _; split_and!; try done; try lia.
    cbn [orb]. split_and!; [done|done|]. intros Hs. apply u32_small. nia.
  - simpl in Hr. rewrite Hr.
    destruct (CacheSupported P) eqn:Ecs; cbn [negb]; [|by apply refused_outcome, Hrw].
    destruct (WriteProtected P) eqn:Ewp; [by apply refused_outcome, Hre|]. opt.
    apply post_range_outcome; [done..|]. intros. by eexists _, _, _; split_and!; try done; lia.
Qed.

(** The descriptors of an unmap list. *)
Lemma unmap_descriptor_total data I :
  Forall is_byte data -> (24 + 16 * I <= length data)%nat ->
  exists lba n, unmap_descriptor data I = Some (lba, n) /\ 0 <= lba < 2 ^ 64 /\ 0 <= n < 2 ^ 32.
Proof using.
  intros Hb Hl. unfold unmap_descriptor.
  destruct (proj2 (buf_read_is_Some (8 + 16 * I) 16 data) ltac:(lia)) as [bs Hbs].
  rewrite Hbs. opt. destruct (buf_read_Some _ _ _ _ Hbs) as [H16 _].
  assert (Forall is_byte bs) as Hbb.
  { unfold buf_read in Hbs. case_decide; [|done]. injection Hbs as <-.
    by apply Forall_take, Forall_drop. }
  clear Hbs. explode bs H16. repeat (apply Forall_cons in Hbb as [? Hbb]).
  eexists _, _. split; [done|]. split; [by apply get_be64_bound|by apply get_be32_bound].
Qed.

(** Every descriptor is inside the unit. *)
Definition descriptors_ok (data : list Z) (n : nat) : Prop :=
  forall I, (I < n)%nat -> exists lba c, unmap_descriptor data I = Some (lba, c) /\
    0 <= lba /\ lba + c <= BlockCount P.

Lemma unmap_in_range_spec data n I :
  Forall is_byte data -> (8 + 16 * (I + n) <= length data)%nat ->
  exists ok, unmap_in_range u n I data = Some ok /\
    (ok = true -> forall J, (I <= J < I + n)%nat -> exists lba c,
       unmap_descriptor data J = Some (lba, c) /\ 0 <= lba /\ lba + c <= BlockCount P).
Proof using Hpc.
  pose proof (wf_BlockCount _ (proj1 (pc_unit _ _ _ _ _ Hpc))) as Hbc.
  intros Hb. revert I. induction n as [|n IH]; intros I Hl; simpl.
  - eexists. split; [done|]. intros _ J HJ. lia.
  - destruct (unmap_descriptor_total data I Hb ltac:(lia)) as (lba & c & E & Hlba & Hc).
    rewrite E. opt. destruct ((_ <? lba) || _) eqn:Ec; [by eexists|].
    destruct (IH (S I) ltac:(lia)) as (ok & -> & Hok). eexists. split; [done|].
    intros Ht J HJ. destruct (decide (J = I)) as [->|]; [|apply Hok; [done|lia]].
    exists lba, c. split; [done|]. split; [lia|].
    apply range_inside in Ec; done || lia.
Qed.

Definition unmap_ok (len : Z) : Prop :=
  UnmapSupported P = true /\ WriteProtected P = false /\ 0 < len <= MaxTransferLength P /\
  8 + len <= Z.of_nat (length (srb_Data Srb)) /\
  descriptors_ok (srb_Data Srb) (Z.to_nat (len / 16)).

Lemma post_unmap_srb_outcome :
  post_outcome (SpdScsiPostUnmapSrb DBG u StorageUnit SrbAddress SystemAddress Srb (SrbGetCdb Srb))
    unmap_ok.
Proof using Hpc.
  destruct (pc_srb _ _ _ _ _ Hpc) as [Hdata _ _ _ Hbytes Hl _].
  pose proof (refused_with u SrbAddress q Q Srb Hpc) as Hrw.
  pose proof (refused_error u SrbAddress q Q Srb Hpc) as Hre.
  unfold SpdScsiPostUnmapSrb, unmap_ok. fold P.
  destruct (UnmapSupported P); cbn [negb]; [|by apply refused_outcome, Hrw].
  destruct (WriteProtected P); [by apply refused_outcome, Hre|].
  destruct ((0 =? SrbGetDataBuffer Srb) || _) eqn:E0; [by apply refused_outcome, Hrw|].
  apply orb_false_iff in E0 as [E0 E1]. zify_bools. unfold SrbGetDataBuffer in E0.
  specialize (Hdata ltac:(lia)). unfold SrbGetDataTransferLength, sizeof_UNMAP_LIST_HEADER in *.
  destruct (lookup_lt_is_Some_2 (srb_Data Srb) 2 ltac:(lia)) as [l0 Hl0].
  destruct (lookup_lt_is_Some_2 (srb_Data Srb) 3 ltac:(lia)) as [l1 Hl1].
  rewrite Hl0, Hl1. opt. rewrite Forall_lookup in Hbytes.
  destruct (get_be16_bound l0 l1) as [Hd _]; [by eapply Hbytes..|].
  set (len := get_be16 l0 l1) in *.
  case_match eqn:E2; [by apply refused_outcome, Hrw|].
  case_match eqn:E3; [by apply refused_outcome, Hre|].
  destruct (lookup_lt_is_Some_2 (SrbGetCdb Srb) 1) as [c1 Hc1]; [unfold SrbGetCdb; lia|].
  rewrite Hc1. opt. case_match eqn:E4; [by apply refused_outcome, Hre|].
  case_match eqn:E5; [by apply refused_outcome, Hrw|]. zify_bools.
  unfold sizeof_UNMAP_BLOCK_DESCRIPTOR.
  destruct (unmap_in_range_spec (srb_Data Srb) (Z.to_nat (len / 16)) 0) as (ok & -> & Hok).
  { by apply Forall_lookup. }
  { assert (16 * (len / 16) <= len) by dlia. lia. }
  opt. destruct ok; cbn [negb]; [|by apply refused_outcome, Hre].
  apply posted_outcome. split_and!; try done; try lia.
  intros I HI. apply Hok; [done|lia].
Qed.
End Commands.

(** ** Unmap lists *)

Lemma unmap_convert_spec Src n I DataBuffer :
  Forall is_byte Src -> (8 + 16 * (I + n) <= length Src)%nat ->
  (16 * (I + n) <= length DataBuffer)%nat ->
  exists DataBuffer', unmap_convert n I Src DataBuffer = Some DataBuffer' /\
    length DataBuffer' = length DataBuffer /\
    (forall J, (J < I)%nat -> read_unmap DataBuffer' J = read_unmap DataBuffer J) /\
    (forall J, (I <= J < I + n)%nat -> read_unmap DataBuffer' J = unmap_descriptor Src J).
Proof.
  intros Hb. revert I DataBuffer. induction n as [|n IH]; intros I DB Hl1 Hl2;
    cbn [unmap_convert].
  - eexists. split_and!; try done. intros. lia.
  - destruct (unmap_descriptor_total Src I Hb ltac:(lia)) as (lba & c & E & Hlba & Hc).
    rewrite E. opt.
    destruct (proj2 (buf_write_is_Some (16 * I) (unmap_bytes (mkUnmapDescriptor lba c)) DB)
      ltac:(change (length (unmap_bytes _)) with 16%nat; lia)) as [DB1 HDB1].
    rewrite HDB1. opt. pose proof (buf_write_length _ _ _ _ HDB1) as Hl.
    destruct (IH (S I) DB1 ltac:(lia) ltac:(lia)) as (DB2 & -> & H1 & H2 & H3).
    eexists. split; [done|]. split; [lia|]. split.
    + intros J HJ. rewrite H2 by lia. unfold read_unmap.
      erewrite buf_read_write_other; [done|done|].
      change (length (unmap_bytes _)) with 16%nat. lia.
    + intros J HJ. destruct (decide (J = I)) as [->|]; [|apply H3; lia].
      rewrite H2 by lia. rewrite E. unfold read_unmap.
      pose proof (buf_read_write_same _ _ _ _ HDB1) as Hr. change (length _) with 16%nat in Hr. rewrite Hr. opt.
      unfold unmap_bytes. simpl. rewrite be64_get, be32_get, u64_small, u32_small by done. done.
Qed.

(** ** Transfers *)

Section Transfers.
Context (DBG : bool) (u : SPD_STORAGE_UNIT) (StorageUnit SrbAddress Buf : Z).
Context (q : SPD_IOQ) (Q : queue) (Srb : SRB) (op lba n fua : Z).
Let P := StorageUnitParams u.

(** A command that reads or writes blocks of the unit, with a buffer for all of them, on a
    queue that runs. *)
Record range_command : Prop := {
  rc_post : post_context u q Q Srb SrbAddress;
  rc_running : q_stopped Q = false;
  rc_op : SrbGetCdb Srb !! 0%nat = Some op;
  rc_cdb : SpdCdbGetRange DBG (SrbGetCdb Srb) = Some (lba, n, fua);
  rc_range : 0 <= lba /\ 0 < n /\ lba + n <= BlockCount P;
  rc_length : n * BlockLength P < 2 ^ 32 /\ n * BlockLength P <= srb_DataTransferLength Srb;
  rc_buffer : srb_DataBuffer Srb <> 0 /\ Buf <> 0
}.

Context (Hrc : range_command).
Let len := n * BlockLength P.

Lemma range_command_facts :
  params_wf P /\ 0 < len < 2 ^ 32 /\ (Z.to_nat len <= length (srb_Data Srb))%nat /\
  u32 len = len.
Proof using Hrc.
  destruct Hrc as [Hpc _ _ _ Hr Hl [Hb _]]. destruct (pc_unit _ _ _ _ _ Hpc) as [HP _].
  pose proof (wf_BlockLength _ HP). pose proof (srb_wf_Data _ (pc_srb _ _ _ _ _ Hpc) Hb).
  fold P in HP, H. assert (0 < len) by (apply Z.mul_pos_pos; lia).
  fold P in Hl. fold len in Hl.
  split_and!; try done; try lia. apply u32_small. lia.
Qed.

(** It is posted, with its whole length. *)
Lemma range_command_posts :
  is_read_op op = true \/ is_read_op op = false /\ is_write_op op = true /\ WriteProtected P = false ->
  exists q',
    SpdScsiPostRangeSrb DBG u StorageUnit SrbAddress (STOR_STATUS_SUCCESS, Buf) Srb (SrbGetCdb Srb)
    = Some (SRB_STATUS_PENDING, Srb, q') /\
    ioq_abs q' (q_post Q (posted_request StorageUnit SrbAddress Buf len Srb)).2.
Proof using Hrc.
  intros Hop. destruct range_command_facts as (HP & Hlen & _ & Hu).
  pose proof (wf_BlockCount _ HP).
  destruct Hrc as [Hpc Hst Hop0 Hcdb Hr Hl [Hb HB]]. fold P in Hl. fold len in Hl.
  assert (exists q', post_range DBG u StorageUnit SrbAddress (STOR_STATUS_SUCCESS, Buf) Srb lba n len
    = Some (SRB_STATUS_PENDING, Srb, q') /\
    ioq_abs q' (q_post Q (posted_request StorageUnit SrbAddress Buf len Srb)).2) as Hp.
  { unfold post_range. rewrite (proj2 (Z.eqb_neq 0 n)), u64_small by lia. fold P.
    assert ((lba + n <? lba) || (lba + n >? BlockCount P) = false) as ->.
    { apply orb_false_iff. lia. }
    destruct (post_srb_spec DBG u StorageUnit SrbAddress q Q Srb Hpc Buf len Hst) as (q' & H1 & H2).
    rewrite (proj2 (Z.eqb_neq len 0)) in H2 by lia. by exists q'. }
  assert ((SrbGetDataTransferLength Srb <? len) = false) as Ht
    by (unfold SrbGetDataTransferLength; lia).
  unfold SpdScsiPostRangeSrb. rewrite Hop0, Hcdb. opt. fold P len. rewrite Hu, Ht.
  destruct Hop as [->|(-> & -> & ->)]; done.
Qed.
End Transfers.

(** ** Concrete instances *)

Definition example_queue : option SPD_IOQ :=
  match SpdIoqCreate sizeof_SPD_IOQ_64 true with Some (_, q) => q | None => None end.

Definition example_served_unit : SPD_STORAGE_UNIT := example_unit <| Ioq := example_queue |>.

(** A unit of 16 blocks, in chunks of two blocks. *)
Definition example_small_unit : SPD_STORAGE_UNIT :=
  example_served_unit <| StorageUnitParams :=
    ((StorageUnitParams example_served_unit) <| BlockCount := 16 |>)
      <| MaxTransferLength := 1024 |> |>.

Lemma example_post_context Srb :
  srb_wf Srb -> SpdSrbExtension Srb <> 0 ->
  exists q, post_context example_small_unit q empty_queue Srb 0x5000 /\
    Ioq example_small_unit = Some q.
Proof.
  intros Hsrb Hext.
  destruct (create_abs sizeof_SPD_IOQ_64) as (q & Hq & Ha); [vm_compute; split; discriminate|].
  exists q. assert (Ioq example_small_unit = Some q) as E.
  { change (Ioq example_small_unit) with example_queue. unfold example_queue. by rewrite Hq. }
  split; [|exact E]. constructor; [exact Hsrb| |exact E|exact Ha|].
  - destruct example_unit_data_wf as [[H1 H2 H3 H4 H5 H6 H7] H8].
    split; [|exact H8]. by constructor.
  - intros p b n. constructor; simpl; try done; intros x Hx; by apply elem_of_nil in Hx.
Qed.

Definition example_disk : list Z := replicate (Z.to_nat 8192) 7.

(** READ (10) of three blocks at block 5, into a buffer of 1536 bytes. *)
Definition example_read : SRB := example_request 1536 (cdb10 SCSIOP_READ 5 3 false).
Definition example_write : SRB := example_request 1536 (cdb10 SCSIOP_WRITE 5 3 false).

(** Both are commands on a range of the unit. *)
Lemma example_range_command op :
  op ∈ [SCSIOP_READ; SCSIOP_WRITE] ->
  exists q, range_command true example_small_unit 0x5000 0x9000 q empty_queue
    (example_request 1536 (cdb10 op 5 3 false)) op 5 3 0.
Proof.
  intros Hop. destruct (example_post_context (example_request 1536 (cdb10 op 5 3 false)))
    as (q & Hpc & _).
  - apply list_elem_of_In in Hop. destruct Hop as [<-|[<-|[]]];
      (apply example_request_wf; [vm_compute; reflexivity|reflexivity|bytes]).
  - discriminate.
  - exists q. apply list_elem_of_In in Hop. destruct Hop as [<-|[<-|[]]]; constructor;
      try exact Hpc; try (vm_compute; repeat split; discriminate || reflexivity).
Qed.

(** ** Properties *)

(** A READ of a range inside the unit is posted, and the chunks in which the storage device
    serves it end with success, having put exactly the blocks of the range into the first bytes
    of the data buffer and nothing anywhere else; the requests that the device gets fit the
    maximum transfer length, are contiguous and cover the range, each block once. *)
Theorem scsi_read_transfers DBG u StorageUnit SrbAddress Buf q Q Srb op lba n fua Mem disk
    DataBuffer :
  range_command DBG u SrbAddress Buf q Q Srb op lba n fua -> is_read_op op = true ->
  Mem !! StorageUnit = Some u ->
  let P := StorageUnitParams u in
  let len := n * BlockLength P in
  Z.of_nat (length disk) = BlockCount P * BlockLength P ->
  Z.of_nat (length DataBuffer) = MaxTransferLength P ->
  exists q', SpdScsiPostRangeSrb DBG u StorageUnit SrbAddress (STOR_STATUS_SUCCESS, Buf) Srb
               (SrbGetCdb Srb) = Some (SRB_STATUS_PENDING, Srb, q') /\
    let rq := posted_request StorageUnit SrbAddress Buf len Srb in
    ioq_abs q' (q_post Q rq).2 /\
    forall fuel, len <= Z.of_nat fuel * MaxTransferLength P ->
    exists rs,
      transfer fuel DBG Mem (BlockLength P) (rq_ext rq) (rq_value rq) Srb DataBuffer disk
      = Some (SRB_STATUS_SUCCESS,
              Srb <| srb_Data := take (Z.to_nat len) (drop (Z.to_nat (lba * BlockLength P)) disk)
                                 ++ drop (Z.to_nat len) (srb_Data Srb) |>, disk, rs) /\
      covers P rs lba n.
Proof.
  intros Hrc Hread Hu P len Hdisk HDB.
  destruct (range_command_facts _ _ _ _ _ _ _ _ _ _ _ Hrc) as (HP & Hlen & Hdata & _).
  destruct (range_command_posts _ _ StorageUnit _ _ _ _ _ _ _ _ _ Hrc (or_introl Hread))
    as (q' & Hpost & Ha). exists q'. split; [done|]. split; [done|]. intros fuel Hfuel.
  destruct Hrc as [Hpc _ Hop Hcdb Hr _ [_ HB]]. fold P len in HP, Hlen, Hdata, Hr.
  pose proof (wf_BlockLength _ HP).
  assert (buf_read (Z.to_nat (lba * BlockLength P + 0)) (Z.to_nat (len - 0)) disk
    = Some (take (Z.to_nat len) (drop (Z.to_nat (lba * BlockLength P)) disk))) as Hb.
  { rewrite Z.add_0_r, Z.sub_0_r. unfold buf_read. rewrite decide_True; [done|].
    assert (0 <= lba * BlockLength P) by nia. subst len. nia. }
  destruct (buf_read_Some _ _ _ _ Hb) as [Hbl _]. rewrite Z.sub_0_r in Hbl.
  assert (0 <= lba /\ lba + n <= BlockCount P) as Hrange by lia.
  assert (0 <= 0 < len) as H0 by lia.
  assert (len - 0 <= Z.of_nat fuel * MaxTransferLength P) as Hf by lia.
  pose proof (buf_write_Some (Z.to_nat 0) _ (srb_Data Srb)
    (eq_ind_r (fun k => (0 + k <= length (srb_Data Srb))%nat) Hdata Hbl)) as Hw.
  destruct (transfer_read DBG Mem u HP (SpdSrbExtension Srb) StorageUnit SrbAddress Buf len lba n
    fua Hu HB eq_refl Hlen Hrange Srb op Hop Hcdb fuel 0 (srb_Data Srb) _ _ disk DataBuffer
    Hread HDB H0 (Zmod_0_l _) Hf Hb Hw) as (rs & Ht & Hcov).
  exists rs. rewrite Zdiv_0_l, Z.add_0_r, Z.sub_0_r in Hcov.
  rewrite take_0, app_nil_l, Nat.add_0_l, Hbl in Ht. split.
  - rewrite <- Ht. f_equal. by destruct Srb.
  - assert (len / BlockLength P = n) as En by (apply Z.div_mul; lia).
    change (covers P rs lba (len / BlockLength P)) in Hcov. by rewrite En in Hcov.
Qed.

(** The example READ is served in two chunks. *)
Lemma scsi_read_transfers_witness :
  exists q' rs,
    SpdScsiPostRangeSrb true example_small_unit 4096 0x5000 (STOR_STATUS_SUCCESS, 0x9000)
      example_read (SrbGetCdb example_read) = Some (SRB_STATUS_PENDING, example_read, q') /\
    transfer 2 true {[4096 := example_small_unit]} 512 0x6400
      (mkExt 4096 0x5000 0x9000 1536 0) example_read (replicate 1024 0) example_disk
    = Some (SRB_STATUS_SUCCESS, example_read <| srb_Data := replicate 1536 7 |>, example_disk,
            rs) /\
    covers (StorageUnitParams example_small_unit) rs 5 3.
Proof.
  destruct (example_range_command SCSIOP_READ) as [q Hrc]; [apply list_elem_of_here|].
  destruct (scsi_read_transfers true example_small_unit 4096 0x5000 0x9000 q empty_queue
    example_read SCSIOP_READ 5 3 0 {[4096 := example_small_unit]} example_disk
    (replicate 1024 0)) as (q' & H1 & _ & H2);
    [exact Hrc|reflexivity|reflexivity|vm_compute; reflexivity|reflexivity|].
  destruct (H2 2%nat) as (rs & H3 & H4); [vm_compute; discriminate|].
  exists q', rs. split; [exact H1|]. split; [|exact H4].
  etransitivity; [exact H3|]. vm_compute. reflexivity.
Defined.

(** A WRITE of a range inside a unit that is not write protected is posted, and the chunks in
    which the storage device serves it end with success, having put exactly the first bytes of
    the data buffer on the blocks of the range and changed nothing else of the disk; the
    requests that the device gets cover the range as for READ. *)
Theorem scsi_write_transfers DBG u StorageUnit SrbAddress Buf q Q Srb op lba n fua Mem disk
    DataBuffer :
  range_command DBG u SrbAddress Buf q Q Srb op lba n fua ->
  is_read_op op = false -> is_write_op op = true ->
  WriteProtected (StorageUnitParams u) = false ->
  Mem !! StorageUnit = Some u ->
  let P := StorageUnitParams u in
  let len := n * BlockLength P in
  let start := Z.to_nat (lba * BlockLength P) in
  Z.of_nat (length disk) = BlockCount P * BlockLength P ->
  Z.of_nat (length DataBuffer) = MaxTransferLength P ->
  exists q', SpdScsiPostRangeSrb DBG u StorageUnit SrbAddress (STOR_STATUS_SUCCESS, Buf) Srb
               (SrbGetCdb Srb) = Some (SRB_STATUS_PENDING, Srb, q') /\
    let rq := posted_request StorageUnit SrbAddress Buf len Srb in
    ioq_abs q' (q_post Q rq).2 /\
    forall fuel, len <= Z.of_nat fuel * MaxTransferLength P ->
    exists rs,
      transfer fuel DBG Mem (BlockLength P) (rq_ext rq) (rq_value rq) Srb DataBuffer disk
      = Some (SRB_STATUS_SUCCESS, Srb,
              take start disk ++ take (Z.to_nat len) (srb_Data Srb) ++
              drop (start + Z.to_nat len) disk, rs) /\
      covers P rs lba n.
Proof.
  intros Hrc Hread Hwrite Hwp Hu P len start Hdisk HDB.
  destruct (range_command_facts _ _ _ _ _ _ _ _ _ _ _ Hrc) as (HP & Hlen & Hdata & _).
  destruct (range_command_posts _ _ StorageUnit _ _ _ _ _ _ _ _ _ Hrc
    (or_intror (conj Hread (conj Hwrite Hwp)))) as (q' & Hpost & Ha).
  exists q'. split; [done|]. split; [done|]. intros fuel Hfuel.
  destruct Hrc as [Hpc _ Hop Hcdb Hr _ [_ HB]]. fold P len in HP, Hlen, Hdata, Hr.
  pose proof (wf_BlockLength _ HP).
  assert (buf_read (Z.to_nat 0) (Z.to_nat (len - 0)) (srb_Data Srb)
    = Some (take (Z.to_nat len) (srb_Data Srb))) as Hb.
  { rewrite Z.sub_0_r. unfold buf_read. by rewrite decide_True by (simpl; lia). }
  destruct (buf_read_Some _ _ _ _ Hb) as [Hbl _]. rewrite Z.sub_0_r in Hbl.
  assert (start + length (take (Z.to_nat len) (srb_Data Srb)) <= length disk)%nat as Hfit.
  { rewrite Hbl. subst start len. assert (0 <= lba * BlockLength P) by nia. nia. }
  pose proof (buf_write_Some _ _ _ Hfit) as Hw. rewrite Hbl in Hw.
  assert (0 <= lba /\ lba + n <= BlockCount P) as Hrange by lia.
  assert (0 <= 0 < len) as H0 by lia.
  assert (len - 0 <= Z.of_nat fuel * MaxTransferLength P) as Hf by lia.
  assert (buf_write (Z.to_nat (lba * BlockLength P + 0)) (take (Z.to_nat len) (srb_Data Srb)) disk
    = Some (take start disk ++ take (Z.to_nat len) (srb_Data Srb) ++
            drop (start + Z.to_nat len) disk)) as Hw0 by (rewrite Z.add_0_r; exact Hw).
  destruct (transfer_write DBG Mem u HP (SpdSrbExtension Srb) StorageUnit SrbAddress Buf len lba n
    fua Hu HB eq_refl Hlen Hrange Srb op Hop Hcdb fuel 0 (srb_Data Srb) _ disk _ DataBuffer
    Hread Hwrite HDB H0 (Zmod_0_l _) Hf Hb Hw0) as (rs & Ht & Hcov).
  exists rs. rewrite Zdiv_0_l, Z.add_0_r, Z.sub_0_r in Hcov. split.
  - replace (Srb <| srb_Data := srb_Data Srb |>) with Srb in Ht by (by destruct Srb). exact Ht.
  - assert (len / BlockLength P = n) as En by (apply Z.div_mul; lia).
    change (covers P rs lba (len / BlockLength P)) in Hcov. by rewrite En in Hcov.
Qed.

(** The example WRITE puts three blocks of [0xcc] on the disk. *)
Lemma scsi_write_transfers_witness :
  exists q' rs,
    SpdScsiPostRangeSrb true example_small_unit 4096 0x5000 (STOR_STATUS_SUCCESS, 0x9000)
      example_write (SrbGetCdb example_write) = Some (SRB_STATUS_PENDING, example_write, q') /\
    transfer 2 true {[4096 := example_small_unit]} 512 0x6400
      (mkExt 4096 0x5000 0x9000 1536 0) example_write (replicate 1024 0) example_disk
    = Some (SRB_STATUS_SUCCESS, example_write,
            replicate 2560 7 ++ replicate 1536 0xcc ++ replicate (Z.to_nat 4096) 7, rs) /\
    covers (StorageUnitParams example_small_unit) rs 5 3.
Proof.
  destruct (example_range_command SCSIOP_WRITE) as [q Hrc];
    [apply list_elem_of_further, list_elem_of_here|].
  destruct (scsi_write_transfers true example_small_unit 4096 0x5000 0x9000 q empty_queue
    example_write SCSIOP_WRITE 5 3 0 {[4096 := example_small_unit]} example_disk
    (replicate 1024 0)) as (q' & H1 & _ & H2);
    [exact Hrc|reflexivity|reflexivity|reflexivity|reflexivity|vm_compute; reflexivity|
     reflexivity|].
  destruct (H2 2%nat) as (rs & H3 & H4); [vm_compute; discriminate|].
  exists q', rs. split; [exact H1|]. split; [|exact H4].
  etransitivity; [exact H3|]. vm_compute. reflexivity.
Defined.

(** C13: READ, WRITE and SYNCHRONIZE CACHE always end: either the command is answered and the
    queue is as it was, or it is pending and the queue has it; and a command is only pending
    if its range is not empty and inside the unit, without wrap-around of its end, if it is a
    READ or the unit is not write protected, if it transfers data or the unit has a cache, and if
    the length of its data, as the code computes it, fits in the data buffer.  The code computes
    the length in 32 bits: a range shorter than 2^32 bytes does fit, of a longer one only what is
    left of its length modulo 2^32 is compared. *)
Theorem scsi_range_commands_checked DBG u StorageUnit SrbAddress SystemAddress q Q Srb op :
  post_context u q Q Srb SrbAddress ->
  SrbGetCdb Srb !! 0%nat = Some op -> is_range_op op = true ->
  post_outcome StorageUnit SrbAddress q Q Srb
    (SpdScsiPostRangeSrb DBG u StorageUnit SrbAddress SystemAddress Srb (SrbGetCdb Srb))
    (range_ok DBG u Srb op).
Proof. intros Hpc. by apply post_range_srb_outcome. Qed.

(** A READ that starts inside the example unit and ends outside is refused. *)
Lemma scsi_range_commands_checked_witness :
  exists q, Ioq example_small_unit = Some q /\
    post_outcome 4096 0x5000 q empty_queue (example_request 1536 (cdb10 SCSIOP_READ 14 3 false))
      (SpdScsiPostRangeSrb true example_small_unit 4096 0x5000 (STOR_STATUS_SUCCESS, 0x9000)
         (example_request 1536 (cdb10 SCSIOP_READ 14 3 false))
         (cdb10 SCSIOP_READ 14 3 false))
      (range_ok true example_small_unit (example_request 1536 (cdb10 SCSIOP_READ 14 3 false))
         SCSIOP_READ) /\
    ~ range_ok true example_small_unit (example_request 1536 (cdb10 SCSIOP_READ 14 3 false))
         SCSIOP_READ 1536.
Proof.
  destruct (example_post_context (example_request 1536 (cdb10 SCSIOP_READ 14 3 false)))
    as (q & Hpc & Hq).
  - apply example_request_wf; [vm_compute; reflexivity|reflexivity|bytes].
  - discriminate.
  - exists q. split; [exact Hq|]. split.
    + apply (scsi_range_commands_checked true example_small_unit 4096 0x5000 _ q empty_queue _
        SCSIOP_READ Hpc); reflexivity.
    + intros (lba & n & fua & E & _ & _ & H & _). vm_compute in E. injection E as <- <- <-.
      vm_compute in H. apply H. reflexivity.
Defined.

(** UNMAP always ends as above, and is only pending if the unit supports it and is not write
    protected, the list fits the buffer and the maximum transfer length, and every descriptor
    is inside the unit.  The request that the storage device then gets has the number of
    descriptors, and its data buffer has each of them, converted from the order of bytes of
    SCSI to that of the processor. *)
Theorem scsi_unmap_lists DBG u StorageUnit SrbAddress SystemAddress q Q Srb :
  post_context u q Q Srb SrbAddress ->
  post_outcome StorageUnit SrbAddress q Q Srb
    (SpdScsiPostUnmapSrb DBG u StorageUnit SrbAddress SystemAddress Srb (SrbGetCdb Srb))
    (unmap_ok u Srb) /\
  forall len Mem Buf SrbExtension DataBuffer,
  unmap_ok u Srb len -> SrbGetCdb Srb !! 0%nat = Some SCSIOP_UNMAP ->
  Mem !! StorageUnit = Some u -> Buf <> 0 ->
  Z.of_nat (length DataBuffer) = MaxTransferLength (StorageUnitParams u) ->
  exists DataBuffer',
    SpdSrbExecuteScsiPrepare DBG Mem SrbExtension (mkExt StorageUnit SrbAddress Buf len 0) Srb
      (mkTransact ReqZero rsp_good (Some DataBuffer))
    = Some (mkTransact (mkReq SrbExtension SpdIoctlTransactUnmapKind (OpUnmap (len / 16)))
              rsp_good (Some DataBuffer')) /\
    length DataBuffer' = length DataBuffer /\
    forall I, (I < Z.to_nat (len / 16))%nat ->
      exists lba c, read_unmap DataBuffer' I = Some (lba, c) /\
        unmap_descriptor (srb_Data Srb) I = Some (lba, c) /\
        0 <= lba /\ lba + c <= BlockCount (StorageUnitParams u).
Proof.
  intros Hpc. split; [by apply post_unmap_srb_outcome|].
  intros len Mem Buf X DB (_ & _ & [Hl0 HlM] & Hld & Hds) Hop Hu HB HDB.
  pose proof (srb_wf_bytes _ (pc_srb _ _ _ _ _ Hpc)) as Hb.
  assert (16 * (len / 16) <= len) as H16 by dlia.
  destruct (unmap_convert_spec (srb_Data Srb) (Z.to_nat (len / 16)) 0 DB Hb ltac:(lia) ltac:(lia))
    as (DB' & Hc & Hl & _ & Hr).
  exists DB'. split_and!; [|done|].
  - unfold SpdSrbExecuteScsiPrepare. cbn [ext_StorageUnit]. rewrite Hu, Hop. opt.
    change (is_read_op SCSIOP_UNMAP) with false. change (is_write_op SCSIOP_UNMAP) with false.
    change (is_sync_op SCSIOP_UNMAP) with false.
    change (SCSIOP_UNMAP =? SCSIOP_UNMAP) with true. cbv iota. cbn [t_DataBuffer]. opt.
    unfold system_data. cbn [ext_SystemDataBuffer ext_SystemDataLength].
    rewrite (proj2 (Z.eqb_neq Buf 0)) by done. unfold sizeof_UNMAP_BLOCK_DESCRIPTOR.
    rewrite Hc. done.
  - intros I HI. destruct (Hds I HI) as (lba & c & E & H1 & H2). exists lba, c.
    rewrite Hr by lia. done.
Qed.

(** An unmap list of two descriptors: one block at 3, and two blocks at 14. *)
Definition example_unmap_list : list Z :=
  [0; 38; 0; 32; 0; 0; 0; 0] ++ be64 3 ++ be32 1 ++ be32 0 ++ be64 14 ++ be32 2 ++ be32 0.
Definition example_unmap : SRB :=
  (example_request 40 ([SCSIOP_UNMAP] ++ replicate 15 0)) <| srb_Data := example_unmap_list |>.

Lemma scsi_unmap_lists_witness :
  exists DataBuffer',
    SpdSrbExecuteScsiPrepare true {[4096 := example_small_unit]} 0x6400
      (mkExt 4096 0x5000 0x9000 32 0) example_unmap
      (mkTransact ReqZero rsp_good (Some (replicate 1024 0)))
    = Some (mkTransact (mkReq 0x6400 4 (OpUnmap 2)) rsp_good (Some DataBuffer')) /\
    read_unmap DataBuffer' 1 = Some (14, 2).
Proof.
  assert (srb_wf example_unmap) as Hwf.
  { constructor; [reflexivity|reflexivity|vm_compute; split; [discriminate|reflexivity]|
      vm_compute; split; [discriminate|reflexivity]|bytes|reflexivity|bytes]. }
  destruct (example_post_context example_unmap Hwf) as (q & Hpc & Hq); [discriminate|].
  destruct (scsi_unmap_lists true example_small_unit 4096 0x5000 (0, 0x9000) q empty_queue
    example_unmap Hpc) as [_ H].
  destruct (H 32 {[4096 := example_small_unit]} 0x9000 0x6400 (replicate 1024 0))
    as (DB' & H1 & _ & H2).
  - split; [reflexivity|]. split; [reflexivity|].
    split; [vm_compute; split; [reflexivity|discriminate]|].
    split; [vm_compute; discriminate|].
    intros I HI. change (Z.to_nat (32 / 16)) with 2%nat in HI.
    destruct I as [|[|I]]; [exists 3, 1|exists 14, 2|lia];
      (split; [reflexivity|split; vm_compute; discriminate]).
  - reflexivity.
  - reflexivity.
  - discriminate.
  - reflexivity.
  - exists DB'. split; [exact H1|]. destruct (H2 1%nat) as (lba & c & E1 & E2 & _).
    + change (Z.to_nat (32 / 16)) with 2%nat. lia.
    + rewrite E1. vm_compute in E2. injection E2 as <- <-. reflexivity.
Defined.

(** The length of a READ is computed in 32 bits: a READ of blocks inside the unit whose
    length in bytes is a multiple of 2^32 is posted with no data at all; the storage device
    is asked for no block, and the command ends with success without a byte of its data
    buffer having been read from the unit. *)
Theorem scsi_read_overflow_transfers_nothing DBG u StorageUnit SrbAddress Buf q Q Srb op lba n
    fua Mem disk DataBuffer :
  post_context u q Q Srb SrbAddress -> q_stopped Q = false ->
  SrbGetCdb Srb !! 0%nat = Some op -> is_read_op op = true ->
  SpdCdbGetRange DBG (SrbGetCdb Srb) = Some (lba, n, fua) ->
  let P := StorageUnitParams u in
  0 <= lba -> 0 < n -> lba + n <= BlockCount P ->
  (n * BlockLength P) mod 2 ^ 32 = 0 ->
  Mem !! StorageUnit = Some u ->
  lba * BlockLength P <= Z.of_nat (length disk) ->
  exists q', SpdScsiPostRangeSrb DBG u StorageUnit SrbAddress (STOR_STATUS_SUCCESS, Buf) Srb
               (SrbGetCdb Srb) = Some (SRB_STATUS_PENDING, Srb, q') /\
    let rq := posted_request StorageUnit SrbAddress 0 0 Srb in
    ioq_abs q' (q_post Q rq).2 /\
    transfer 1 DBG Mem (BlockLength P) (rq_ext rq) (rq_value rq) Srb DataBuffer disk
    = Some (SRB_STATUS_SUCCESS, Srb, disk,
            [mkReq (rq_ext rq) SpdIoctlTransactReadKind
               (OpRead lba 0 (if CacheSupported P then fua else 1))]).
Proof.
  intros Hpc Hst Hop Hread Hcdb P Hl Hn Hr Hmod Hu Hdisk.
  pose proof (proj1 (pc_unit _ _ _ _ _ Hpc)) as HP. fold P in HP.
  pose proof (wf_BlockLength _ HP). pose proof (wf_BlockCount _ HP).
  pose proof (wf_MaxTransferLength _ HP).
  destruct (post_srb_spec DBG u StorageUnit SrbAddress q Q Srb Hpc Buf 0 Hst) as (q' & Hp & Ha).
  exists q'. split; [|intros rq; split; [exact Ha|]].
  - unfold SpdScsiPostRangeSrb. rewrite Hop, Hcdb. opt. fold P. rewrite Hread.
    unfold u32. rewrite Hmod.
    pose proof (srb_wf_DataTransferLength _ (pc_srb _ _ _ _ _ Hpc)).
    assert ((SrbGetDataTransferLength Srb <? 0) = false) as ->
      by (unfold SrbGetDataTransferLength; lia).
    unfold post_range. rewrite (proj2 (Z.eqb_neq 0 n)), u64_small by lia. fold P.
    assert ((lba + n <? lba) || (lba + n >? BlockCount P) = false) as ->
      by (apply orb_false_iff; lia).
    exact Hp.
  - assert (ChunkLength P (mkExt StorageUnit SrbAddress 0 0 0) = 0) as Hc.
    { unfold ChunkLength. change (u32 _) with 0. by destruct (Z.gtb_spec 0 (MaxTransferLength P)); [lia|]. }
    assert (next_chunk P (mkExt StorageUnit SrbAddress 0 0 0)
      = (SRB_STATUS_SUCCESS, mkExt StorageUnit SrbAddress 0 0 0)) as Hnc.
    { unfold next_chunk. by rewrite Hc. }
    cbn [transfer]. unfold SpdSrbExecuteScsiPrepare, SpdSrbExecuteScsiComplete.
    subst rq. cbn [posted_request rq_value rq_ext ext_StorageUnit].
    rewrite Hu, Hop. opt. rewrite Hread, Hcdb. opt. fold P. unfold chunk_range. rewrite Hc.
    rewrite (proj2 (Z.eqb_neq (BlockLength P) 0)) by lia. opt.
    cbn [t_DataBuffer t_Req update Update ext_ChunkOffset]. rewrite !Zdiv_0_l, Z.add_0_r.
    rewrite u64_small by lia. opt. unfold device. cbn [req_Op]. rewrite Z.mul_0_l.
    assert (0 <= lba * BlockLength P) by nia.
    change (Z.to_nat 0) with 0%nat. rewrite buf_read_nothing by lia. opt.
    rewrite buf_write_Some by (simpl; lia). opt. cbn [t_DataBuffer t_Rsp].
    change (SCSISTAT_GOOD =? ScsiStatus (rsp_Status rsp_good)) with true. cbn [negb].
    change (Z.to_nat 0) with 0%nat. rewrite buf_read_nothing by (simpl; lia). opt.
    unfold system_data.
    change (0 =? 0) with true. cbn [ext_SystemDataBuffer ext_ChunkOffset]. cbv iota.
    change (buf_write 0 [] []) with (Some (A := list Z) []). opt. rewrite Hnc. done.
Qed.

(** READ (16) of 2^23 blocks of a large unit. *)
Definition example_large_unit : SPD_STORAGE_UNIT :=
  example_served_unit <| StorageUnitParams :=
    (StorageUnitParams example_served_unit) <| BlockCount := 2 ^ 24 |> |>.
Definition example_large_read : SRB :=
  example_request 64 (cdb16 SCSIOP_READ16 0 (2 ^ 23) false).

Lemma scsi_read_overflow_transfers_nothing_witness :
  exists q', SpdScsiPostRangeSrb true example_large_unit 4096 0x5000 (STOR_STATUS_SUCCESS, 0x9000)
      example_large_read (SrbGetCdb example_large_read)
    = Some (SRB_STATUS_PENDING, example_large_read, q').
Proof.
  destruct (create_abs sizeof_SPD_IOQ_64) as (q & Hq & Ha); [vm_compute; split; discriminate|].
  assert (post_context example_large_unit q empty_queue example_large_read 0x5000) as Hpc.
  { constructor.
    - apply example_request_wf; [vm_compute; reflexivity|reflexivity|bytes].
    - destruct example_unit_data_wf as [[H1 H2 H3 H4 H5 H6 H7] H8].
      split; [|exact H8].
      constructor; [vm_compute; split; reflexivity|exact H2|exact H3|exact H4|exact H5|
        exact H6|exact H7].
    - change (Ioq example_large_unit) with example_queue. unfold example_queue. by rewrite Hq.
    - exact Ha.
    - intros p b n. constructor; simpl; try done; intros x Hx; by apply elem_of_nil in Hx. }
  destruct (scsi_read_overflow_transfers_nothing true example_large_unit 4096 0x5000 0x9000 q
    empty_queue example_large_read SCSIOP_READ16 0 (2 ^ 23) 0 {[4096 := example_large_unit]}
    [] []) as (q' & H & _); [exact Hpc|reflexivity|reflexivity|reflexivity|reflexivity|
    vm_compute; discriminate|reflexivity|vm_compute; discriminate|reflexivity|reflexivity|
    vm_compute; discriminate|].
  exists q'. exact H.
Defined.
