(* ===== verification/DriverIo.v ===== *)
(** * Requests of the port driver: [sys/io.c], and the resets of [sys/adapter.c]

    [SpdHwStartIo] takes a request and gives the table of storage units and the requests that
    it hands back to the port driver, in their order.  The members of a PnP request that
    overlay the SRB, [PnPAction] and [SrbPnPFlags], are an argument. *)

From S2P Require Import Prelude Wdk IoctlTypes ListEntry Srb Ioq StgUnit Scsi ScsiIo.

(** What a handler gives: the status, the request, the table, the requests completed on the
    way. *)
Definition io_result : Type := Z * SRB * SPD_DEVICE_EXTENSION * list completion.

Section Io.
Context (DBG : bool).

(** A unit that was found, its queue replaced by [f]; then it is dereferenced. *)
Definition with_unit_queue (E : SPD_DEVICE_EXTENSION) (StorageUnit : Z)
    {R : Type} (f : SPD_IOQ -> option (R * SPD_IOQ * list completion))
    : option (R * SPD_DEVICE_EXTENSION * list completion) :=
  u ← Units E !! StorageUnit;
  q ← Ioq u;
  '(r, q, cs1) ← f q;
  let E := E <| Units := <[StorageUnit := u <| Ioq := Some q |>]> (Units E) |> in
  '(E, cs2) ← SpdStorageUnitDereference DBG E StorageUnit;
  Some (r, E, cs1 ++ cs2).

Definition SpdSrbAbortCommand (E : SPD_DEVICE_EXTENSION) (SrbAddress : Z) (Srb : SRB)
    : option io_result :=
  '(StorageUnit, E) ← SpdStorageUnitReference E Srb;
  if 0 =? StorageUnit then Some (SRB_STATUS_NO_DEVICE, Srb, E, [])
  else
    '(Result, E, cs) ← with_unit_queue E StorageUnit (fun q =>
        SpdIoqCancelSrb DBG q SrbAddress);
    Some (if NT_SUCCESS Result then SRB_STATUS_SUCCESS else SRB_STATUS_ABORT_FAILED, Srb, E, cs).

(** The reset of a unit that was found. *)
Definition reset_unit (E : SPD_DEVICE_EXTENSION) (StorageUnit : Z) (Stop : bool)
    : option (SPD_DEVICE_EXTENSION * list completion) :=
  '(_, E, cs) ← with_unit_queue E StorageUnit (fun q =>
      '(q, cs) ← SpdIoqReset DBG q Stop; Some (tt, q, cs));
  Some (E, cs).

(** The loop over the units from the slot [I] on. *)
Fixpoint reset_units (n I : nat) (E : SPD_DEVICE_EXTENSION) (Stop : bool)
    : option (SPD_DEVICE_EXTENSION * list completion) :=
  match n with
  | O => Some (E, [])
  | S n =>
      '(StorageUnit, E) ← SpdStorageUnitReferenceByBtl E (SPD_IOCTL_BTL 0 (Z.of_nat I) 0);
      if 0 =? StorageUnit then reset_units n (S I) E Stop
      else
        '(E, cs1) ← reset_unit E StorageUnit Stop;
        '(E, cs2) ← reset_units n (S I) E Stop;
        Some (E, cs1 ++ cs2)
  end.

Definition SpdHwResetBus (E : SPD_DEVICE_EXTENSION) (PathId : Z)
    : option (bool * SPD_DEVICE_EXTENSION * list completion) :=
  if 0 =? PathId then
    '(E, cs) ← reset_units (Z.to_nat (StorageUnitCapacity E)) 0 E false;
    Some (true, E, cs)
  else Some (false, E, []).

(** [SpdHwCompleteServiceIrp] of [sys/ioctl.c] stops every queue. *)
Definition SpdHwCompleteServiceIrp (E : SPD_DEVICE_EXTENSION)
    : option (SPD_DEVICE_EXTENSION * list completion) :=
  reset_units (Z.to_nat (StorageUnitCapacity E)) 0 E true.

Definition SpdSrbResetBus (E : SPD_DEVICE_EXTENSION) (Srb : SRB) : option io_result :=
  let '(PathId, TargetId, Lun) := SrbGetPathTargetLun Srb in
  if negb (0 =? PathId) then Some (SRB_STATUS_NO_DEVICE, Srb, E, [])
  else
    '(_, E, cs) ← SpdHwResetBus E 0;
    Some (SRB_STATUS_SUCCESS, Srb, E, cs).

Definition SpdSrbResetDevice (E : SPD_DEVICE_EXTENSION) (Srb : SRB) : option io_result :=
  let '(PathId, TargetId, Lun) := SrbGetPathTargetLun Srb in
  '(StorageUnit, E) ← SpdStorageUnitReferenceByBtl E (SPD_IOCTL_BTL PathId TargetId 0);
  if 0 =? StorageUnit then Some (SRB_STATUS_NO_DEVICE, Srb, E, [])
  else
    '(E, cs) ← reset_unit E StorageUnit false;
    Some (SRB_STATUS_SUCCESS, Srb, E, cs).

Definition SpdSrbResetLogicalUnit (E : SPD_DEVICE_EXTENSION) (Srb : SRB) : option io_result :=
  '(StorageUnit, E) ← SpdStorageUnitReference E Srb;
  if 0 =? StorageUnit then Some (SRB_STATUS_NO_DEVICE, Srb, E, [])
  else
    '(E, cs) ← reset_unit E StorageUnit false;
    Some (SRB_STATUS_SUCCESS, Srb, E, cs).

Definition SpdSrbFlush (E : SPD_DEVICE_EXTENSION) (Srb : SRB) : Z := SRB_STATUS_SUCCESS.
Definition SpdSrbShutdown (E : SPD_DEVICE_EXTENSION) (Srb : SRB) : Z := SRB_STATUS_SUCCESS.
Definition SpdSrbWmi (E : SPD_DEVICE_EXTENSION) (Srb : SRB) : Z := SRB_STATUS_INVALID_REQUEST.

(** [SpdPnpSetDeviceCapabilities]: the bits [Removable], [SilentInstall] and
    [SurpriseRemovalOK] of [STOR_DEVICE_CAPABILITIES]. *)
Definition SpdPnpSetDeviceCapabilities (D : list Z) : option (list Z) :=
  b4 ← D !! 4%nat;
  b5 ← D !! 5%nat;
  buf_writes [(4%nat, [b4 .| 0x10 .| 0x80]); (5%nat, [b5 .| 0x01])] D.

Definition SpdSrbPnp (Srb : SRB) (PnPAction SrbPnPFlags : Z) : option (Z * SRB) :=
  if PnPAction =? StorQueryCapabilities then
    if SrbPnPFlags .& SRB_PNP_FLAGS_ADAPTER_REQUEST =? 0 then
      if (0 =? SrbGetDataBuffer Srb) ||
         (sizeof_STOR_DEVICE_CAPABILITIES >? SrbGetDataTransferLength Srb)
      then Some (SRB_STATUS_INVALID_REQUEST, Srb)
      else
        data ← SpdPnpSetDeviceCapabilities (srb_Data Srb);
        Some (SRB_STATUS_SUCCESS, Srb <| srb_Data := data |>)
    else Some (SRB_STATUS_INVALID_REQUEST, Srb)
  else Some (SRB_STATUS_INVALID_REQUEST, Srb).

(** The [switch] over the function of the request. *)
Definition start_io_switch (E : SPD_DEVICE_EXTENSION) (SrbAddress : Z) (SystemAddress : Z * Z)
    (Pnp : Z * Z) (Srb : SRB) : option io_result :=
  let SrbFunction := SrbGetSrbFunction Srb in
  if SRB_FUNCTION_EXECUTE_SCSI =? SrbFunction
  then SpdSrbExecuteScsi DBG E SrbAddress SystemAddress Srb
  else if SRB_FUNCTION_ABORT_COMMAND =? SrbFunction then SpdSrbAbortCommand E SrbAddress Srb
  else if SRB_FUNCTION_RESET_BUS =? SrbFunction then SpdSrbResetBus E Srb
  else if SRB_FUNCTION_RESET_DEVICE =? SrbFunction then SpdSrbResetDevice E Srb
  else if SRB_FUNCTION_RESET_LOGICAL_UNIT =? SrbFunction then SpdSrbResetLogicalUnit E Srb
  else if SRB_FUNCTION_FLUSH =? SrbFunction then Some (SpdSrbFlush E Srb, Srb, E, [])
  else if SRB_FUNCTION_SHUTDOWN =? SrbFunction then Some (SpdSrbShutdown E Srb, Srb, E, [])
  else if SRB_FUNCTION_PNP =? SrbFunction then
    '(SrbStatus, Srb) ← SpdSrbPnp Srb Pnp.1 Pnp.2; Some (SrbStatus, Srb, E, [])
  else if SRB_FUNCTION_WMI =? SrbFunction then Some (SpdSrbWmi E Srb, Srb, E, [])
  else Some (SRB_STATUS_INVALID_REQUEST, Srb, E, []).

(** [SpdHwStartIo] *)
Definition SpdHwStartIo (E : SPD_DEVICE_EXTENSION) (SrbAddress : Z) (SystemAddress : Z * Z)
    (Pnp : Z * Z) (Srb : SRB) : option (SPD_DEVICE_EXTENSION * list completion) :=
  '(SrbStatus, Srb, E, cs) ← start_io_switch E SrbAddress SystemAddress Pnp Srb;
  if SRB_STATUS SrbStatus =? SRB_STATUS_PENDING then Some (E, cs)
  else
    let Srb :=
      if (SRB_STATUS SrbStatus =? SRB_STATUS_INTERNAL_ERROR) &&
         (STATUS_SUCCESS =? SrbGetSystemStatus Srb)
      then SrbSetSystemStatus Srb STATUS_INVALID_PARAMETER else Srb in
    Srb ← SpdSrbComplete DBG Srb SrbStatus;
    Some (E, cs ++ [(SrbAddress, Srb)]).
End Io.
