(* ===== verification/DriverIoInv.v ===== *)
(** * What the handlers of [DriverIo] do to the table and its queues

    A handler looks a unit up, works on its queue and releases it: the lemmas here give the
    exact state it leaves. *)

From S2P Require Import Prelude Wdk IoctlTypes ListEntry Srb Ioq IoqMem IoqSpec IoqRun.
From S2P Require Import StgUnit StgUnitInv Scsi ScsiSpec ScsiIo ScsiIoProps DriverIo.

(** ** A queue represents one abstract queue *)

Lemma dlist_unique (M : gmap laddr (LIST_ENTRY laddr)) h l l' :
  dlist M h l -> dlist M h l' -> l = l'.
Proof.
  intros [Hn Hd] [Hn' Hd']. apply NoDup_cons in Hn as [Hh _]. apply NoDup_cons in Hn' as [Hh' _].
  pose proof (walk_list_dseg M h h l (max (length l) (length l')) Hd Hh ltac:(lia)) as E.
  pose proof (walk_list_dseg M h h l' (max (length l) (length l')) Hd' Hh' ltac:(lia)) as E'.
  congruence.
Qed.

Lemma owns_unique q (l l' : list request) :
  (forall rq, rq ∈ l -> owns q rq) -> (forall rq, rq ∈ l' -> owns q rq) ->
  rq_ext <$> l = rq_ext <$> l' -> l = l'.
Proof.
  revert l'. induction l as [|x l IH]; intros [|y l'] H H' E; try done. injection E as E1 E2.
  rewrite (IH l'); [|intros; apply H; by apply list_elem_of_further
                    |intros; apply H'; by apply list_elem_of_further|done].
  f_equal. destruct (H x (list_elem_of_here _ _)) as [_ _ X1 X2 _].
  destruct (H' y (list_elem_of_here _ _)) as [_ _ Y1 Y2 _].
  destruct x as [e v s], y as [e' v' s']. unfold rq_Srb in *. simpl in *. subst e'.
  assert (v = v') as <- by congruence. assert (s = s') as <- by congruence. done.
Qed.

Lemma ioq_abs_unique q Q Q' :
  ioq_abs q Q -> ioq_abs q Q' ->
  q_stopped Q = q_stopped Q' /\ q_pending Q = q_pending Q' /\ q_process Q = q_process Q'.
Proof.
  intros [H1 _ (H2 & H3 & _) _ H4] [H1' _ (H2' & H3' & _) _ H4'].
  assert (forall l l' : list Z, LExt <$> l = LExt <$> l' -> l = l') as Hinj.
  { intros l l'. apply list_fmap_eq_inj. by intros ?? [=]. }
  pose proof (Hinj _ _ (dlist_unique _ _ _ _ H2 H2')) as Ep.
  pose proof (Hinj _ _ (dlist_unique _ _ _ _ H3 H3')) as Er.
  split_and!; [congruence|..]; apply (owns_unique q); try done; intros rq Hrq;
    first [apply H4; apply elem_of_app; by auto | apply H4'; apply elem_of_app; by auto].
Qed.

(** ** The requests that the driver holds *)

Definition held (E : SPD_DEVICE_EXTENSION) (rq : request) : Prop :=
  exists p u q Q, Units E !! p = Some u /\ Ioq u = Some q /\ ioq_abs q Q /\
    rq ∈ q_pending Q ++ q_process Q.

Definition queued (E : SPD_DEVICE_EXTENSION) (Srb : Z) : Prop :=
  exists rq, held E rq /\ rq_Srb rq = Srb.

(** A request of the port driver that the driver does not hold. *)
Definition new_request (E : SPD_DEVICE_EXTENSION) (SrbAddress : Z) (Srb : SRB) : Prop :=
  srb_wf Srb /\ SpdSrbExtension Srb <> 0 /\
  forall rq, held E rq -> rq_ext rq <> SpdSrbExtension Srb /\ rq_Srb rq <> SrbAddress.

(** ** Using a unit *)

Definition set_queue (E : SPD_DEVICE_EXTENSION) (p : Z) (u : SPD_STORAGE_UNIT) (q : SPD_IOQ)
    : SPD_DEVICE_EXTENSION :=
  E <| Units := <[p := u <| Ioq := Some q |>]> (Units E) |>.

(** The extension while a thread works with the unit. *)
Definition referenced (E : SPD_DEVICE_EXTENSION) (p : Z) (u : SPD_STORAGE_UNIT)
    : SPD_DEVICE_EXTENSION :=
  E <| Units := <[p := u <| RefCount := RefCount u + 1 |>]> (Units E) |>.

Lemma set_same_queue E p u q : p <> 0 /\ p ∈ StorageUnits E /\ Units E !! p = Some u -> Ioq u = Some q -> set_queue E p u q = E.
Proof.
  intros (_ & _ & Hu) Hq. unfold set_queue. replace (u <| Ioq := Some q |>) with u.
  - rewrite insert_id by done. by destruct E.
  - destruct u; simpl in *. by subst.
Qed.

Section Use.
Context (DBG : bool) (E : SPD_DEVICE_EXTENSION) (refs : list Z).
Context (Hwf : ext_wf E refs) (Hfew : Z.of_nat (length refs) < 2 ^ 32 - 2).

(** A unit of the table. *)
Definition in_table (p : Z) (u : SPD_STORAGE_UNIT) : Prop :=
  p <> 0 /\ p ∈ StorageUnits E /\ Units E !! p = Some u.

Lemma in_table_count p u : in_table p u -> 0 < RefCount u < 2 ^ 32 - 1.
Proof using Hwf Hfew.
  intros (Hp & Hin & Hu). rewrite (wf_refs _ _ Hwf p u Hu).
  pose proof (references_bound E refs p Hwf Hp). unfold references in *.
  apply filter_eq_pos in Hin. lia.
Qed.

Lemma reference_spec Btl :
  SpdStorageUnitReferenceByBtl E Btl = Some (0, E) \/
  exists p u, in_table p u /\
    SpdStorageUnitReferenceByBtl E Btl = Some (p, referenced E p u).
Proof using Hwf Hfew.
  unfold SpdStorageUnitReferenceByBtl. destruct (_ || _); [by left|].
  destruct (StorageUnitCapacity E >? SPD_IOCTL_BTL_T Btl) eqn:HT; opt; [|by left].
  zify_bools. pose proof (index_from_btl_bound Btl) as Hb. unfold SPD_INDEX_FROM_BTL in Hb.
  destruct (wf_slot_bound E refs Hwf (Z.to_nat (SPD_IOCTL_BTL_T Btl))) as [p Hp]; [blia|].
  rewrite Hp. opt. destruct (Z.eqb_spec 0 p) as [<-|Hne]; cbn [negb]; [by left|].
  destruct (wf_slot_unit E refs Hwf _ _ Hp ltac:(done)) as [u Hu]. rewrite Hu. opt.
  assert (in_table p u) as Hin by (split_and!; [done|by eapply list_elem_of_lookup_2|done]).
  right. exists p, u. split; [done|]. pose proof (in_table_count p u Hin).
  rewrite u32_small by lia. done.
Qed.

Lemma in_table_ok p u : in_table p u ->
  unit_data_wf u /\ exists q Q, Ioq u = Some q /\ ioq_abs q Q.
Proof using Hwf. intros (_ & _ & Hu). apply (wf_units _ _ Hwf p u Hu). Qed.

(** Releasing the unit, with another queue. *)
Lemma release_spec p u q :
  in_table p u ->
  SpdStorageUnitDereference DBG
    ((referenced E p u) <| Units :=
        <[p := (u <| RefCount := RefCount u + 1 |>) <| Ioq := Some q |>]>
          (Units (referenced E p u)) |>) p
  = Some (set_queue E p u q, []).
Proof using Hwf Hfew.
  intros Hin. pose proof (in_table_count p u Hin) as Hc. unfold SpdStorageUnitDereference.
  unfold referenced. simpl. rewrite lookup_insert_eq. opt.
  cbn [RefCount]. replace (RefCount u + 1 - 1) with (RefCount u) by lia.
  rewrite u32_small by lia. rewrite (proj2 (Z.eqb_neq 0 (RefCount u))) by lia.
  unfold set_queue. simpl. rewrite !insert_insert_eq. by destruct u.
Qed.

(** A unit that was looked up and is released as it was. *)
Lemma release_same p u :
  in_table p u -> SpdStorageUnitDereference DBG (referenced E p u) p = Some (E, []).
Proof using Hwf Hfew.
  intros Hin. destruct (in_table_ok p u Hin) as (_ & q & Q & Hq & _).
  rewrite <- (set_same_queue E p u q Hin Hq) at 2.
  rewrite <- (release_spec p u q Hin). f_equal.
  unfold referenced. simpl. rewrite insert_insert_eq. by rewrite Hq.
Qed.

Lemma with_unit_queue_spec p u q {R} f (r : R) q' cs :
  in_table p u -> Ioq u = Some q -> f q = Some (r, q', cs) ->
  with_unit_queue DBG (referenced E p u) p f = Some (r, set_queue E p u q', cs).
Proof using Hwf Hfew.
  intros Hin Hq Hf. unfold with_unit_queue.
  assert (Units (referenced E p u) !! p = Some (u <| RefCount := RefCount u + 1 |>)) as ->
    by apply lookup_insert_eq. opt.
  change (Ioq (u <| RefCount := RefCount u + 1 |>)) with (Ioq u). rewrite Hq. opt.
  rewrite Hf. opt. rewrite (release_spec p u q' Hin). opt. by rewrite app_nil_r.
Qed.

(** A unit of the table changes, but its references and its parameters. *)
Lemma wf_update_unit p u u' :
  in_table p u -> RefCount u' = RefCount u -> StorageUnitParams u' = StorageUnitParams u ->
  unit_ok u' -> ext_wf (E <| Units := <[p := u']> (Units E) |>) refs.
Proof using Hwf Hfew.
  intros (Hp & Hin & Hu) Hrc Hpar Hok.
  apply (wf_set_unit E refs refs p u); try done.
  - apply Hwf.
  - lia.
  - rewrite Hrc. apply (wf_refs _ _ Hwf p u Hu).
  - unfold references. apply filter_eq_pos in Hin. lia.
Qed.

Lemma set_queue_wf p u q Q :
  in_table p u -> ioq_abs q Q -> ext_wf (set_queue E p u q) refs.
Proof using Hwf Hfew.
  intros Hin Ha. apply (wf_update_unit p u); try done.
  split; [apply (in_table_ok p u Hin)|]. by exists q, Q.
Qed.

(** The requests held after the change of a queue. *)
Lemma held_set_queue p u q Q rq :
  ioq_abs q Q -> held (set_queue E p u q) rq ->
  held E rq \/ rq ∈ q_pending Q ++ q_process Q.
Proof using.
  intros Ha (p' & u' & q' & Q' & Hu' & Hq' & Ha' & Hrq). unfold set_queue in Hu'. simpl in Hu'.
  destruct (decide (p' = p)) as [->|Hne].
  - rewrite lookup_insert_eq in Hu'. injection Hu' as <-. injection Hq' as <-.
    destruct (ioq_abs_unique _ _ _ Ha Ha') as (_ & -> & ->). by right.
  - rewrite lookup_insert_ne in Hu' by done. left. by exists p', u', q', Q'.
Qed.

Lemma held_queue p u q Q rq :
  in_table p u -> Ioq u = Some q -> ioq_abs q Q -> rq ∈ q_pending Q ++ q_process Q -> held E rq.
Proof using. intros (_ & _ & Hu) Hq Ha Hrq. by exists p, u, q, Q. Qed.
End Use.

(** ** [SpdSrbExecuteScsi] *)

Section Execute.
Context (DBG : bool) (u : SPD_STORAGE_UNIT) (StorageUnit SrbAddress : Z).
Context (SystemAddress : Z * Z).
Context (q : SPD_IOQ) (Q : queue) (Srb : SRB) (Hpc : post_context u q Q Srb SrbAddress).

Lemma reply_status s data : SRB_STATUS (reply s data).1 <> SRB_STATUS_PENDING.
Proof using. unfold reply. by case_match. Qed.

Lemma answer_status s data : SRB_STATUS (answer s data).1 <> SRB_STATUS_PENDING.
Proof using.
  unfold answer. case_match; [done|]. destruct data; [apply reply_status|].
  unfold check_condition. by case_match.
Qed.

Lemma refused_answer (r : Z * SRB) :
  SRB_STATUS r.1 <> SRB_STATUS_PENDING -> refused u (not_posted u (Some r)).
Proof using Hpc. destruct r as [st s]. by apply (refused_with u SrbAddress q Q Srb Hpc). Qed.

Lemma capacity_refused :
  refused u (not_posted u (SpdScsiReadCapacity u Srb (SrbGetCdb Srb))).
Proof using Hpc.
  destruct (decide (srb_DataBuffer Srb = 0)) as [E0|E0].
  - unfold SpdScsiReadCapacity, SrbGetDataBuffer. rewrite E0. by apply refused_answer.
  - rewrite capacity_spec; [|apply Hpc|done|apply Hpc]. apply refused_answer, answer_status.
Qed.

Lemma execute_switch_outcome :
  post_outcome StorageUnit SrbAddress q Q Srb
    (execute_scsi_switch DBG u StorageUnit SrbAddress SystemAddress Srb) (fun _ => True).
Proof using Hpc.
  assert (forall r, refused u r -> post_outcome StorageUnit SrbAddress q Q Srb r (fun _ => True)) as HR.
  { intros r Hr. by apply (refused_outcome u _ _ q Q Srb Hpc). }
  assert (forall r (G : Z -> Prop), post_outcome StorageUnit SrbAddress q Q Srb r G ->
            post_outcome StorageUnit SrbAddress q Q Srb r (fun _ => True)) as HG.
  { intros r G (st & s & q' & E & [H|(H1 & H2 & H3 & B & l & _ & Ha)]);
      exists st, s, q'; (split; [done|]); [by left|right; split_and!; try done; by exists B, l]. }
  pose proof (pc_srb _ _ _ _ _ Hpc) as Hsrb. pose proof (pc_unit _ _ _ _ _ Hpc) as Hu.
  unfold execute_scsi_switch. rewrite (cdb_at Srb Hsrb 0) by lia. opt.
  set (op := SrbGetCdb Srb !!! 0%nat). pose proof (cdb_at Srb Hsrb 0 ltac:(lia)) as Hop.
  fold op in Hop.
  case_match; [apply HR|].
  { destruct (decide (srb_DataBuffer Srb = 0)) as [E0|E0].
    - unfold SpdScsiReportLuns, SrbGetDataBuffer. rewrite E0. by apply refused_answer.
    - rewrite report_luns_spec by done. apply refused_answer, reply_status. }
  case_match; [by apply HR, refused_answer|].
  case_match; [apply HR|].
  { destruct (decide (srb_DataBuffer Srb = 0)) as [E0|E0].
    - unfold SpdScsiInquiry, SrbGetDataBuffer. rewrite E0. by apply refused_answer.
    - rewrite inquiry_spec by done. apply refused_answer, answer_status. }
  case_match; [apply HR|].
  { destruct (decide (srb_DataBuffer Srb = 0)) as [E0|E0].
    - unfold SpdScsiModeSense, SrbGetDataBuffer. rewrite E0. by apply refused_answer.
    - rewrite mode_sense_spec by done. apply refused_answer, answer_status. }
  case_match; [apply HR, capacity_refused|].
  case_match eqn:Er.
  { eapply HG, (post_range_srb_outcome DBG u StorageUnit SrbAddress SystemAddress q Q Srb Hpc);
      [exact Hop|exact Er]. }
  case_match.
  { eapply HG, (post_unmap_srb_outcome DBG u StorageUnit SrbAddress SystemAddress q Q Srb Hpc). }
  case_match; [|by apply HR, refused_answer].
  rewrite (cdb_at Srb Hsrb 1) by lia. opt.
  case_match; [apply HR, capacity_refused|by apply HR, refused_answer].
Qed.
End Execute.

(** ** Handlers *)

(** What every handler does: it does not fault; the table is well formed, with the same units
    and references; it completes requests that were in a queue; and the request itself is in a
    queue afterwards just if its status is pending. *)
Definition io_ok (E : SPD_DEVICE_EXTENSION) (refs : list Z) (SrbAddress : Z)
    (r : option io_result) : Prop :=
  exists st Srb' E' cs, r = Some (st, Srb', E', cs) /\ ext_wf E' refs /\
    StorageUnits E' = StorageUnits E /\
    (forall s, s ∈ cs.*1 -> queued E s) /\
    (forall s, queued E' s -> queued E s \/ (st = SRB_STATUS_PENDING /\ s = SrbAddress)) /\
    (SRB_STATUS st = SRB_STATUS_PENDING ->
       st = SRB_STATUS_PENDING /\ queued E' SrbAddress /\ cs = []).

Section Handlers.
Context (DBG : bool) (E : SPD_DEVICE_EXTENSION) (refs : list Z).
Context (Hwf : ext_wf E refs) (Hfew : Z.of_nat (length refs) < 2 ^ 32 - 2).
Context (SrbAddress : Z).

(** A handler that leaves the table alone. *)
Lemma io_ok_same st s :
  SRB_STATUS st <> SRB_STATUS_PENDING -> io_ok E refs SrbAddress (Some (st, s, E, [])).
Proof using Hwf.
  intros Hst. exists st, s, E, []. split_and!; try done; intros s' Hs;
    [by apply not_elem_of_nil in Hs|by left].
Qed.

Lemma new_request_context p u Srb :
  in_table E p u -> new_request E SrbAddress Srb ->
  exists q Q, post_context u q Q Srb SrbAddress.
Proof using Hwf.
  intros Hin (Hsrb & Hext & Hnew). destruct (in_table_ok E refs Hwf p u Hin) as (Hu & q & Q & Hq & Ha).
  exists q, Q. constructor; try done. intros p' b n.
  constructor; simpl; try done; intros rq Hrq; apply Hnew; by eapply held_queue.
Qed.

Lemma execute_scsi_ok SystemAddress Srb :
  new_request E SrbAddress Srb ->
  io_ok E refs SrbAddress (SpdSrbExecuteScsi DBG E SrbAddress SystemAddress Srb).
Proof using Hwf Hfew.
  intros Hnew. pose proof Hnew as (Hsrb & _).
  unfold SpdSrbExecuteScsi, SpdStorageUnitReference, SrbGetPathTargetLun.
  destruct (reference_spec E refs Hwf Hfew
    (SPD_IOCTL_BTL (srb_PathId Srb) (srb_TargetId Srb) (srb_Lun Srb))) as [->|(p & u & Hin & ->)].
  - opt. rewrite Z.eqb_refl, (cdb_at Srb Hsrb 0) by lia. opt. case_match; [|by apply io_ok_same].
    destruct (decide (srb_DataBuffer Srb = 0)) as [E0|E0].
    + unfold SpdScsiReportLuns, SrbGetDataBuffer. rewrite E0. by apply io_ok_same.
    + rewrite report_luns_spec by done. pose proof (reply_status Srb (report_luns_data None)).
      destruct (reply _ _) as [st s]. opt. by apply io_ok_same.
  - opt. rewrite (proj2 (Z.eqb_neq 0 p)) by (by destruct Hin). opt.
    destruct (new_request_context p u Srb Hin Hnew) as (q & Q & Hpc).
    assert (Units (referenced E p u) !! p = Some (u <| RefCount := RefCount u + 1 |>)) as ->
      by apply lookup_insert_eq. opt.
    assert (post_context (u <| RefCount := RefCount u + 1 |>) q Q Srb SrbAddress) as Hpc'
      by (destruct Hpc; by constructor).
    destruct (execute_switch_outcome DBG _ p SrbAddress SystemAddress q Q Srb Hpc')
      as (st & Srb' & q' & -> & Hd). opt.
    rewrite (release_spec DBG E refs Hwf Hfew p u q' Hin). opt.
    exists st, Srb', (set_queue E p u q'), []. split; [done|].
    destruct Hd as [[Hst ->]|(-> & -> & Hst & Buf & len & _ & Ha)].
    + pose proof (pc_abs _ _ _ _ _ Hpc) as Ha. split_and!; try done.
      * by apply (set_queue_wf E refs Hwf Hfew p u q Q).
      * intros s Hs. by apply not_elem_of_nil in Hs.
      * intros s (rq & Hrq & Hs). left. exists rq. split; [|done].
        destruct (held_set_queue E p u q Q rq Ha Hrq) as [?|?]; [done|].
        eapply held_queue; try done. apply Hpc.
    + unfold q_post in Ha. rewrite Hst in Ha. simpl in Ha. split_and!; try done.
      * by eapply (set_queue_wf E refs Hwf Hfew p u).
      * intros s Hs. by apply not_elem_of_nil in Hs.
      * intros s (rq & Hrq & Hs). destruct (held_set_queue E p u q' _ rq Ha Hrq) as [?|Hm].
        { left. by exists rq. }
        simpl in Hm. rewrite <- app_assoc in Hm. apply elem_of_app in Hm as [Hm|Hm].
        { left. exists rq. split; [|done]. eapply held_queue; try apply Hpc; try done.
          apply elem_of_app. by left. }
        apply elem_of_cons in Hm as [->|Hm]; [by right|].
        left. exists rq. split; [|done]. eapply held_queue; try apply Hpc; try done.
        apply elem_of_app. by right.
      * intros _. split_and!; try done. eexists. split.
        { exists p, (u <| Ioq := Some q' |>), q'. eexists. split_and!; [|done|exact Ha|].
          - unfold set_queue. simpl. apply lookup_insert_eq.
          - simpl. rewrite <- app_assoc. apply elem_of_app. right. apply list_elem_of_here. }
        done.
Qed.

(** *** Resets *)

(** The queue of the unit is stopped or holds no request. *)
Definition idle (E' : SPD_DEVICE_EXTENSION) (p : Z) : Prop :=
  forall u q Q, Units E' !! p = Some u -> Ioq u = Some q -> ioq_abs q Q ->
    q_stopped Q = false -> q_pending Q ++ q_process Q = [].

(** One extension follows another by a reset: the requests that are completed were held, those
    that are held were held before, and an idle unit stays idle. *)
Definition reset_step (E1 E2 : SPD_DEVICE_EXTENSION) (cs : list completion) : Prop :=
  ext_wf E2 refs /\ StorageUnits E2 = StorageUnits E1 /\
  StorageUnitCapacity E2 = StorageUnitCapacity E1 /\
  (forall s, s ∈ cs.*1 -> queued E1 s) /\ (forall rq, held E2 rq -> held E1 rq) /\
  (forall p, idle E1 p -> idle E2 p).

Lemma reset_unit_ok p u Stop :
  in_table E p u ->
  exists E' cs, reset_unit DBG (referenced E p u) p Stop = Some (E', cs) /\
    reset_step E E' cs /\ idle E' p.
Proof using Hwf Hfew.
  intros Hin. destruct (in_table_ok E refs Hwf p u Hin) as (Hu & q & Q & Hq & Ha).
  destruct (reset_abs DBG q Q Stop Ha) as (q' & Hr & Ha').
  exists (set_queue E p u q'), (q_reset Q Stop).2.
  assert (idle (set_queue E p u q') p) as Hidle.
  { intros u1 q1 Q1 Hu1 Hq1 Ha1 Hs1. unfold set_queue in Hu1. simpl in Hu1.
    rewrite lookup_insert_eq in Hu1. injection Hu1 as <-. injection Hq1 as <-.
    destruct (ioq_abs_unique _ _ _ Ha' Ha1) as (E1 & <- & <-). rewrite <- E1 in Hs1. revert Hs1.
    unfold q_reset. destruct (q_stopped Q) eqn:Hs; simpl; [by rewrite Hs|done]. }
  split; [|split; [|exact Hidle]].
  - unfold reset_unit.
    erewrite (with_unit_queue_spec DBG E refs Hwf Hfew p u q _ tt q'); [done|done|done|].
    simpl. by rewrite Hr.
  - split; [by eapply (set_queue_wf E refs Hwf Hfew p u)|]. split_and!; try done.
    + intros s Hs. apply list_elem_of_fmap in Hs as (c & -> & Hc). revert Hc. unfold q_reset.
      case_match; simpl; [by intros Hc%not_elem_of_nil|].
      intros (rq & -> & Hrq)%list_elem_of_fmap. exists rq. split; [|done]. by eapply held_queue.
    + intros rq Hrq. destruct (held_set_queue E p u q' _ rq Ha' Hrq) as [?|Hm]; [done|].
      revert Hm. unfold q_reset. case_match; simpl; [|by intros Hm%not_elem_of_nil].
      intros Hm. by eapply held_queue.
    + intros p' Hp'. destruct (decide (p' = p)) as [->|Hne]; [done|].
      intros u1 q1 Q1 Hu1. unfold set_queue in Hu1. simpl in Hu1.
      rewrite lookup_insert_ne in Hu1 by done. by apply Hp'.
Qed.

(** The unit of a slot, by its address. *)
Lemma reference_slot (I : nat) p :
  StorageUnits E !! I = Some p ->
  (p = 0 /\ SpdStorageUnitReferenceByBtl E (SPD_IOCTL_BTL 0 (Z.of_nat I) 0) = Some (0, E)) \/
  exists u, in_table E p u /\
    SpdStorageUnitReferenceByBtl E (SPD_IOCTL_BTL 0 (Z.of_nat I) 0)
    = Some (p, referenced E p u).
Proof using Hwf Hfew.
  intros Hp. pose proof (lookup_lt_Some _ _ _ Hp) as Hlt. rewrite (wf_length _ _ Hwf) in Hlt.
  pose proof (wf_capacity _ _ Hwf) as Hc. unfold SPD_IOCTL_STORAGE_UNIT_MAX_CAPACITY in Hc.
  destruct (BTL_parts 0 (Z.of_nat I) 0) as (HB & HT & HL); [blia..|].
  unfold SpdStorageUnitReferenceByBtl. rewrite HB, HT, HL. cbn [negb orb].
  change (0 =? 0) with true. cbn [negb orb].
  assert ((StorageUnitCapacity E >? Z.of_nat I) = true) as -> by lia.
  rewrite Nat2Z.id, Hp. opt. destruct (Z.eqb_spec 0 p) as [<-|Hne]; cbn [negb]; [by left|].
  destruct (wf_slot_unit E refs Hwf _ _ Hp ltac:(done)) as [u Hu]. rewrite Hu. opt.
  assert (in_table E p u) as Hin by (split_and!; [done|by eapply list_elem_of_lookup_2|done]).
  right. exists u. split; [done|]. pose proof (in_table_count E refs Hwf Hfew p u Hin).
  rewrite u32_small by lia. done.
Qed.
End Handlers.

Lemma reset_step_refl E refs : ext_wf E refs -> reset_step refs E E [].
Proof. intros Hwf. split; [done|]. split_and!; try done. intros s Hs. by apply not_elem_of_nil in Hs. Qed.

Lemma reset_step_trans refs E1 E2 E3 cs1 cs2 :
  reset_step refs E1 E2 cs1 -> reset_step refs E2 E3 cs2 -> reset_step refs E1 E3 (cs1 ++ cs2).
Proof.
  intros (W1 & S1 & C1 & Q1 & H1 & I1) (W2 & S2 & C2 & Q2 & H2 & I2).
  split; [done|]. split_and!; [congruence|congruence| |by auto|by auto].
  intros s. rewrite fmap_app, elem_of_app. intros [Hs|Hs]; [by apply Q1|].
  destruct (Q2 s Hs) as (rq & Hrq & E). exists rq. split; [by apply H1|done].
Qed.

(** The loop over the slots. *)
Lemma reset_units_ok DBG refs n I E Stop :
  ext_wf E refs -> Z.of_nat (length refs) < 2 ^ 32 - 2 ->
  (I + n = Z.to_nat (StorageUnitCapacity E))%nat ->
  exists E' cs, reset_units DBG n I E Stop = Some (E', cs) /\ reset_step refs E E' cs /\
    (forall J p, (I <= J)%nat -> StorageUnits E !! J = Some p -> p <> 0 -> idle E' p).
Proof.
  revert I E. induction n as [|n IH]; intros I E Hwf Hfew HI; cbn [reset_units].
  - exists E, []. split; [done|]. split; [by apply reset_step_refl|].
    intros J p HJ Hp. apply lookup_lt_Some in Hp. rewrite (wf_length _ _ Hwf) in Hp. lia.
  - destruct (wf_slot_bound E refs Hwf I) as [p Hp]; [lia|].
    destruct (reference_slot E refs Hwf Hfew I p Hp) as [[-> ->]|(u & Hin & ->)].
    + opt. rewrite Z.eqb_refl. destruct (IH (S I) E Hwf Hfew ltac:(lia)) as (E' & cs & -> & Hs & Hi).
      exists E', cs. split_and!; [done..|]. intros J p HJ Hp' Hne.
      destruct (decide (J = I)) as [->|]; [congruence|]. by apply (Hi J); [lia|..].
    + opt. rewrite (proj2 (Z.eqb_neq 0 p)) by (by destruct Hin).
      destruct (reset_unit_ok DBG E refs Hwf Hfew p u Stop Hin) as (E1 & cs1 & -> & Hs1 & Hi1).
      opt. pose proof Hs1 as (Hwf1 & HS1 & HC1 & _ & _ & _).
      destruct (IH (S I) E1 Hwf1 Hfew ltac:(rewrite HC1; lia)) as (E2 & cs2 & -> & Hs2 & Hi2).
      opt. exists E2, (cs1 ++ cs2). split; [done|]. split; [by eapply reset_step_trans|].
      intros J p' HJ Hp' Hne. destruct (decide (J = I)) as [->|].
      * assert (p' = p) as -> by congruence. by apply Hs2.
      * apply (Hi2 J); [lia|by rewrite HS1|done].
Qed.

(** A reset is a handler like the others. *)
Lemma io_ok_reset E refs SrbAddress E' cs s :
  reset_step refs E E' cs -> io_ok E refs SrbAddress (Some (SRB_STATUS_SUCCESS, s, E', cs)).
Proof.
  intros (W & S & C & Q & H & _). exists SRB_STATUS_SUCCESS, s, E', cs. split; [done|].
  split_and!; try done. intros s' (rq & Hrq & Hs'). left. exists rq. split; [by apply H|done].
Qed.
