(* ===== verification/DriverIoProps.v ===== *)
(** * Properties of the requests of the port driver *)

From S2P Require Import Prelude Wdk IoctlTypes ListEntry Srb Ioq IoqMem IoqSpec IoqRun.
From S2P Require Import StgUnit StgUnitInv StgUnitProps Scsi ScsiSpec ScsiProps.
From S2P Require Import ScsiIo ScsiIoProps DriverIo DriverIoInv.

(** ** Every function *)

Section Switch.
Context (DBG : bool) (E : SPD_DEVICE_EXTENSION) (refs : list Z).
Context (Hwf : ext_wf E refs) (Hfew : Z.of_nat (length refs) < 2 ^ 32 - 2).
Context (SrbAddress : Z) (Srb : SRB) (Hnew : new_request E SrbAddress Srb).

Lemma reset_found_ok Btl s :
  io_ok E refs SrbAddress
    ('(StorageUnit, E1) ← SpdStorageUnitReferenceByBtl E Btl;
     if 0 =? StorageUnit then Some (SRB_STATUS_NO_DEVICE, s, E1, [])
     else '(E2, cs) ← reset_unit DBG E1 StorageUnit false;
          Some (SRB_STATUS_SUCCESS, s, E2, cs)).
Proof using Hwf Hfew.
  destruct (reference_spec E refs Hwf Hfew Btl) as [->|(p & u & Hin & ->)]; opt.
  - rewrite Z.eqb_refl. by apply io_ok_same.
  - rewrite (proj2 (Z.eqb_neq 0 p)) by (by destruct Hin).
    destruct (reset_unit_ok DBG E refs Hwf Hfew p u false Hin) as (E' & cs & -> & Hs & _).
    opt. by apply io_ok_reset.
Qed.

Lemma reset_bus_ok : io_ok E refs SrbAddress (SpdSrbResetBus DBG E Srb).
Proof using Hwf Hfew.
  unfold SpdSrbResetBus, SrbGetPathTargetLun. destruct (0 =? srb_PathId Srb); cbn [negb];
    [|by apply io_ok_same].
  unfold SpdHwResetBus. change (0 =? 0) with true. cbv iota.
  destruct (reset_units_ok DBG refs (Z.to_nat (StorageUnitCapacity E)) 0 E false Hwf Hfew eq_refl)
    as (E' & cs & -> & Hs & _). opt. by apply io_ok_reset.
Qed.

(** The capabilities are in the buffer that the request has for them. *)
Lemma pnp_ok PnPAction SrbPnPFlags :
  io_ok E refs SrbAddress
    ('(SrbStatus, Srb) ← SpdSrbPnp Srb PnPAction SrbPnPFlags; Some (SrbStatus, Srb, E, [])).
Proof using Hwf Hnew.
  destruct Hnew as [Hsrb _]. unfold SpdSrbPnp.
  case_match; [|opt; by apply io_ok_same]. case_match; [|opt; by apply io_ok_same].
  case_match eqn:Eb; [opt; by apply io_ok_same|].
  apply orb_false_iff in Eb as [E0 E1]. zify_bools. unfold SrbGetDataBuffer in E0.
  pose proof (srb_wf_Data _ Hsrb ltac:(lia)) as Hl. unfold SrbGetDataTransferLength in E1.
  unfold sizeof_STOR_DEVICE_CAPABILITIES in E1. unfold SpdPnpSetDeviceCapabilities.
  destruct (lookup_lt_is_Some_2 (srb_Data Srb) 4 ltac:(lia)) as [b4 ->]. opt.
  destruct (lookup_lt_is_Some_2 (srb_Data Srb) 5 ltac:(lia)) as [b5 ->]. opt.
  destruct (buf_writes_is_Some [(4%nat, [b4 .| 0x10 .| 0x80]); (5%nat, [b5 .| 0x01])]
    (srb_Data Srb)) as [d ->]; [repeat (apply Forall_cons; split; [simpl; lia|]); done|].
  opt. by apply io_ok_same.
Qed.

Lemma switch_ok SystemAddress Pnp :
  SrbGetSrbFunction Srb <> SRB_FUNCTION_ABORT_COMMAND ->
  io_ok E refs SrbAddress (start_io_switch DBG E SrbAddress SystemAddress Pnp Srb).
Proof using Hwf Hfew Hnew.
  intros Hf. unfold start_io_switch. rewrite (proj2 (Z.eqb_neq SRB_FUNCTION_ABORT_COMMAND _)) by auto.
  case_match; [by apply execute_scsi_ok|]. case_match; [apply reset_bus_ok|].
  case_match; [apply reset_found_ok|]. case_match; [apply reset_found_ok|].
  case_match; [by apply io_ok_same|]. case_match; [by apply io_ok_same|].
  case_match; [apply pnp_ok|]. case_match; by apply io_ok_same.
Qed.
End Switch.

(** ** Concrete instances *)

(** The example table with a unit at the address 4096, and requests to it. *)
Definition io_srb (Function : Z) (Cdb : list Z) : SRB :=
  (example_request 1536 Cdb) <| srb_Function := Function |>.

Lemma io_srb_wf Function Cdb :
  length Cdb = 16%nat -> Forall is_byte Cdb -> srb_wf (io_srb Function Cdb).
Proof.
  intros Hl Hb. destruct (example_request_wf 1536 Cdb ltac:(vm_compute; reflexivity) Hl Hb).
  by constructor.
Qed.

Lemma example_E1_unit :
  exists u q, Units example_E1 = {[4096 := u]} /\ Ioq u = Some q /\ example_queue = Some q.
Proof. eexists _, _. split; [vm_compute; reflexivity|]. split; vm_compute; reflexivity. Qed.

(** Nothing is queued in the example table. *)
Lemma example_E1_new Function Cdb :
  length Cdb = 16%nat -> Forall is_byte Cdb ->
  new_request example_E1 0x5000 (io_srb Function Cdb).
Proof.
  intros Hl Hb. split; [by apply io_srb_wf|]. split; [discriminate|].
  intros rq (p & u & q & Q & Hu & Hq & Ha & Hrq). exfalso.
  destruct example_E1_unit as (u' & q' & E1 & E2 & E3). rewrite E1 in Hu.
  apply lookup_singleton_Some in Hu as [<- <-].
  destruct (create_abs sizeof_SPD_IOQ_64) as (q0 & Hq0 & Ha0); [vm_compute; split; discriminate|].
  unfold example_queue in E3. rewrite Hq0 in E3. injection E3 as <-.
  assert (q = q0) as -> by congruence.
  destruct (ioq_abs_unique _ _ _ Ha0 Ha) as (_ & Ep & Er). rewrite <- Ep, <- Er in Hrq.
  by apply not_elem_of_nil in Hrq.
Qed.

(** ** Properties *)

(** C15: Every request that the port driver starts, but an abort, is accounted for: when
    [SpdHwStartIo] returns, either the request is in the queue of a storage unit and nothing
    has been completed, or it has been completed, once and last, with a status that is not
    pending, and is in no queue; the other requests that are completed were in a queue; and
    the table, its reference counts and its queues are well formed as before. *)
Theorem hw_start_io_accounts DBG E refs SrbAddress SystemAddress Pnp Srb :
  ext_wf E refs -> Z.of_nat (length refs) < 2 ^ 32 - 2 -> new_request E SrbAddress Srb ->
  SrbGetSrbFunction Srb <> SRB_FUNCTION_ABORT_COMMAND ->
  exists E' cs, SpdHwStartIo DBG E SrbAddress SystemAddress Pnp Srb = Some (E', cs) /\
    ext_wf E' refs /\ StorageUnits E' = StorageUnits E /\
    ((queued E' SrbAddress /\ cs = []) \/
     (~ queued E' SrbAddress /\ exists cs0 Srb', cs = cs0 ++ [(SrbAddress, Srb')] /\
        (SrbAddress ∉ cs0.*1) /\ SRB_STATUS (srb_SrbStatus Srb') <> SRB_STATUS_PENDING /\
        forall s, s ∈ cs0.*1 -> queued E s)).
Proof.
  intros Hwf Hfew Hnew Hf.
  destruct (switch_ok DBG E refs Hwf Hfew SrbAddress Srb Hnew SystemAddress Pnp Hf)
    as (st & Srb1 & E' & cs & Hr & Hwf' & Hsu & Hcs & Hq & Hp).
  assert (~ queued E SrbAddress) as Hnq.
  { intros (rq & Hrq & Hs). by destruct (proj2 (proj2 Hnew) rq Hrq). }
  unfold SpdHwStartIo. rewrite Hr. opt.
  destruct (Z.eqb_spec (SRB_STATUS st) SRB_STATUS_PENDING) as [Est|Est].
  - destruct (Hp Est) as (-> & Hin & ->). exists E', []. split_and!; try done. by left.
  - set (Srb2 := if _ : bool then _ else _).
    rewrite SpdSrbComplete_Some by done. opt. exists E', (cs ++ [(SrbAddress, SrbSetSrbStatus Srb2 st)]).
    split_and!; try done. right. split.
    { intros Hin. destruct (Hq _ Hin) as [?|[-> _]]; [done|]. by apply Est. }
    exists cs, (SrbSetSrbStatus Srb2 st). split_and!; try done.
    + intros Hin. by apply Hnq, Hcs.
    + by rewrite SrbSetSrbStatus_status.
Qed.

(** A READ of the example unit is queued. *)
Lemma hw_start_io_accounts_witness :
  exists E', SpdHwStartIo true example_E1 0x5000 (STOR_STATUS_SUCCESS, 0x9000) (0, 0)
      (io_srb SRB_FUNCTION_EXECUTE_SCSI (cdb10 SCSIOP_READ 5 3 false)) = Some (E', []) /\
    queued E' 0x5000.
Proof.
  destruct (hw_start_io_accounts true example_E1 [] 0x5000 (STOR_STATUS_SUCCESS, 0x9000) (0, 0)
    (io_srb SRB_FUNCTION_EXECUTE_SCSI (cdb10 SCSIOP_READ 5 3 false)))
    as (E' & cs & H & _ & _ & [[Hq ->]|[_ (cs0 & Srb' & -> & _)]]).
  - exact example_E1_wf.
  - reflexivity.
  - apply example_E1_new; [reflexivity|bytes].
  - discriminate.
  - exists E'. split; [exact H|exact Hq].
  - exfalso. destruct cs0; vm_compute in H; discriminate H.
Defined.

(** A bus reset always succeeds; it completes only requests that were in a queue, keeps the
    table and its reference counts well formed, and leaves no request in the queue of any
    storage unit, unless that queue is stopped. *)
Theorem hw_reset_bus_clears DBG E refs :
  ext_wf E refs -> Z.of_nat (length refs) < 2 ^ 32 - 2 ->
  exists E' cs, SpdHwResetBus DBG E 0 = Some (true, E', cs) /\ reset_step refs E E' cs /\
    forall (i : nat) p, StorageUnits E !! i = Some p -> p <> 0 -> idle E' p.
Proof.
  intros Hwf Hfew. unfold SpdHwResetBus. change (0 =? 0) with true. cbv iota.
  destruct (reset_units_ok DBG refs (Z.to_nat (StorageUnitCapacity E)) 0 E false Hwf Hfew eq_refl)
    as (E' & cs & -> & Hs & Hi). opt. exists E', cs. split_and!; [done..|].
  intros i p Hp Hne. by apply (Hi i); [lia|..].
Qed.

Lemma hw_reset_bus_clears_witness :
  exists E' cs, SpdHwResetBus true example_E1 0 = Some (true, E', cs) /\ idle E' 4096.
Proof.
  destruct (hw_reset_bus_clears true example_E1 [] example_E1_wf) as (E' & cs & H & _ & Hi);
    [reflexivity|].
  exists E', cs. split; [exact H|]. apply (Hi 0%nat); [vm_compute; reflexivity|discriminate].
Defined.

(** An abort request never aborts another request: [SpdSrbAbortCommand] looks for the abort
    request itself in the queue, not for the request that its [NextSrb] names.  When the queue
    runs, the driver accesses list entries of the abort request's extension that were never
    set. *)
Theorem hw_abort_command_faults DBG E refs SrbAddress SystemAddress Pnp Srb p u q :
  ext_wf E refs -> Z.of_nat (length refs) < 2 ^ 32 - 2 ->
  SrbGetSrbFunction Srb = SRB_FUNCTION_ABORT_COMMAND ->
  SpdStorageUnitReference E Srb = Some (p, referenced E p u) -> in_table E p u ->
  Ioq u = Some q -> Stopped q = false -> Srbs q !! SrbAddress = None ->
  SpdHwStartIo DBG E SrbAddress SystemAddress Pnp Srb = None.
Proof.
  intros Hwf Hfew Hf Hr Hin Hq Hst Hs.
  unfold SpdHwStartIo, start_io_switch. rewrite Hf.
  change (SRB_FUNCTION_EXECUTE_SCSI =? SRB_FUNCTION_ABORT_COMMAND) with false.
  rewrite Z.eqb_refl. unfold SpdSrbAbortCommand. rewrite Hr. opt.
  rewrite (proj2 (Z.eqb_neq 0 p)) by (by destruct Hin).
  unfold with_unit_queue.
  assert (Units (referenced E p u) !! p = Some (u <| RefCount := RefCount u + 1 |>)) as ->
    by apply lookup_insert_eq. opt.
  change (Ioq (u <| RefCount := RefCount u + 1 |>)) with (Ioq u). rewrite Hq. opt.
  unfold SpdIoqCancelSrb. rewrite Hst. cbn [negb]. by rewrite Hs.
Qed.

(** An abort to the example unit. *)
Lemma hw_abort_command_faults_witness :
  SpdHwStartIo false example_E1 0x5000 (STOR_STATUS_SUCCESS, 0) (0, 0)
    ((io_srb SRB_FUNCTION_ABORT_COMMAND (replicate 16 0)) <| srb_NextSrb := 0x7000 |>) = None.
Proof.
  destruct example_E1_unit as (u & q & E1 & E2 & E3).
  assert (in_table example_E1 4096 u) as Hin.
  { split; [discriminate|]. split; [|rewrite E1; reflexivity].
    apply list_elem_of_lookup. exists 0%nat. vm_compute. reflexivity. }
  apply (hw_abort_command_faults false example_E1 [] 0x5000 (STOR_STATUS_SUCCESS, 0) (0, 0) _ 4096
    u q example_E1_wf); [reflexivity|reflexivity| |exact Hin|exact E2| |].
  - assert (u = default u (Units example_E1 !! 4096)) as -> by (rewrite E1; reflexivity).
    vm_compute. reflexivity.
  - vm_compute in E3. injection E3 as <-. reflexivity.
  - vm_compute in E3. injection E3 as <-. reflexivity.
Defined.
