(* ===== verification/DriverIoctl.v ===== *)
(** * Control requests of user mode: [sys/ioctl.c]

    A control request comes with a system buffer that is both input and output.  [SystemBuffer]
    has the members of the buffer as each of the handlers reads them.  A handler gives the
    status, the number of bytes of output, and the output.

    [SpdIoctlTransact] can wait: each time its thread wakes up it finds the extension as the
    other threads have left it, so the function takes a list of such [rounds], a status of the
    wait and an extension each. *)

From S2P Require Import Prelude Wdk IoctlTypes ListEntry Srb Ioq StgUnit Scsi ScsiIo.

Record SystemBuffer := mkBuffer {
  sb_Size : Z;                                   (* SPD_IOCTL_BASE_PARAMS *)
  sb_Code : Z;
  sb_StorageUnitParams : SPD_IOCTL_STORAGE_UNIT_PARAMS;     (* SPD_IOCTL_PROVISION_PARAMS *)
  sb_Guid : GUID;                                (* SPD_IOCTL_UNPROVISION_PARAMS *)
  sb_Btl : Z;                                    (* SPD_IOCTL_TRANSACT_PARAMS, ..._SET_TRANSACT_PID_PARAMS *)
  sb_ReqValid : bool;
  sb_RspValid : bool;
  sb_DataBuffer : Z;
  sb_Rsp : SPD_IOCTL_TRANSACT_RSP;
  sb_ProcessId : Z
}.

#[export] Instance SystemBuffer_eta : Eta SystemBuffer := fun b =>
  mkBuffer (sb_Size b) (sb_Code b) (sb_StorageUnitParams b) (sb_Guid b) (sb_Btl b)
    (sb_ReqValid b) (sb_RspValid b) (sb_DataBuffer b) (sb_Rsp b) (sb_ProcessId b).

(** The output of a handler in the system buffer. *)
Inductive ioctl_output :=
  | OutNone
  | OutProvision (Btl : Z)
  | OutList (Btls : list Z)
  | OutTransact (Req : SPD_IOCTL_TRANSACT_REQ) (DataBuffer : option (list Z)).

(** The request packet: the lengths of its buffers, the process and the mode of its sender, and
    its status before the handler runs. *)
Record IRP := mkIrp {
  irp_InputBufferLength : Z;
  irp_OutputBufferLength : Z;
  irp_RequestorProcessId : Z;
  irp_UserMode : bool;
  irp_Status : Z
}.

Definition STATUS_ANSWER : Type := Z * Z * ioctl_output.

(** What mapping the sender's data buffer gives: an exception, no memory, or the buffer. *)
Inductive mapping := MapException (Code : Z) | MapFailed | Mapped (DataBuffer : list Z).

Section Ioctl.
Context (DBG : bool).

Definition NullGuid : GUID := mkGUID 0 0 0 (replicate 8 0).

(** The parameters that [SpdIoctlProvision] refuses; a division by zero is [None]. *)
Definition provision_params_invalid (P : SPD_IOCTL_STORAGE_UNIT_PARAMS) : option bool :=
  if bool_decide (NullGuid = Guid P) || (0 =? BlockCount P) ||
     (sizeof_SPD_IOCTL_UNMAP_DESCRIPTOR >? BlockLength P) ||
     negb (DIRECT_ACCESS_DEVICE =? DeviceType P) || (0 =? MaxTransferLength P)
  then Some true
  else if BlockLength P =? 0 then None
  else Some (negb (0 =? MaxTransferLength P mod BlockLength P)).

Definition SpdIoctlProvision (sizeof_SPD_IOQ : Z) (E : SPD_DEVICE_EXTENSION) (irp : IRP)
    (Params : SystemBuffer) (AllocUnit : Z) (AllocIoq : bool)
    : option (STATUS_ANSWER * SPD_DEVICE_EXTENSION * effects) :=
  if (sizeof_SPD_IOCTL_PROVISION_PARAMS >? irp_InputBufferLength irp) ||
     (sizeof_SPD_IOCTL_PROVISION_PARAMS >? irp_OutputBufferLength irp)
  then Some (STATUS_INVALID_PARAMETER, 0, OutNone, E, no_effects)
  else
    invalid ← provision_params_invalid (sb_StorageUnitParams Params);
    if (invalid : bool) then Some (STATUS_INVALID_PARAMETER, 0, OutNone, E, no_effects)
    else
      '(Status, Btl, E, eff) ← SpdStorageUnitProvision DBG sizeof_SPD_IOQ E
          (sb_StorageUnitParams Params) (irp_RequestorProcessId irp) AllocUnit AllocIoq;
      if negb (NT_SUCCESS Status) then Some (Status, 0, OutNone, E, eff)
      else Some (STATUS_SUCCESS, sizeof_SPD_IOCTL_PROVISION_PARAMS, OutProvision Btl, E, eff).

Definition SpdIoctlUnprovision (E : SPD_DEVICE_EXTENSION) (irp : IRP) (Params : SystemBuffer)
    : option (STATUS_ANSWER * SPD_DEVICE_EXTENSION * effects) :=
  if sizeof_SPD_IOCTL_UNPROVISION_PARAMS >? irp_InputBufferLength irp
  then Some (STATUS_INVALID_PARAMETER, 0, OutNone, E, no_effects)
  else
    '(Status, E, eff) ← SpdStorageUnitUnprovision DBG E (Some (sb_Guid Params)) 0
        (irp_RequestorProcessId irp);
    if negb (NT_SUCCESS Status) then Some (Status, 0, OutNone, E, eff)
    else Some (STATUS_SUCCESS, 0, OutNone, E, eff).

(** The loop over the bits of the bitmap; [Out] is what is already in the output buffer. *)
Fixpoint list_loop (n I : nat) (irp : IRP) (Count : Z) (Bitmap : list Z) (Out : list Z)
    : option (Z * list Z) :=
  match n with
  | O => Some (STATUS_SUCCESS, Out)
  | S n =>
      if 0 <? Count then
        on ← bitmap_on Bitmap I;
        if (on : bool) then
          if 4 * Z.of_nat (length Out) + 4 >? irp_OutputBufferLength irp
          then Some (STATUS_BUFFER_TOO_SMALL, Out)
          else list_loop n (S I) irp (Count - 1) Bitmap
                 (Out ++ [SPD_BTL_FROM_INDEX (Z.of_nat I)])
        else list_loop n (S I) irp Count Bitmap Out
      else Some (STATUS_SUCCESS, Out)
  end.

Definition SpdIoctlGetList (E : SPD_DEVICE_EXTENSION) (irp : IRP) : option STATUS_ANSWER :=
  if sizeof_SPD_IOCTL_LIST_PARAMS >? irp_InputBufferLength irp
  then Some (STATUS_INVALID_PARAMETER, 0, OutNone)
  else
    '(Count, Bitmap) ← SpdStorageUnitGetUseBitmap E None;
    '(Status, Out) ← list_loop 256 0 irp Count Bitmap [];
    if Status =? STATUS_SUCCESS then Some (Status, 4 * Z.of_nat (length Out), OutList Out)
    else Some (Status, 0, OutNone).

(** *** Transactions *)

(** The checks before the storage unit is looked up: a status to end with, or none. *)
Definition transact_check (irp : IRP) (Params : SystemBuffer) : option Z :=
  if (sizeof_SPD_IOCTL_TRANSACT_PARAMS >? irp_InputBufferLength irp) ||
     (sizeof_SPD_IOCTL_TRANSACT_PARAMS >? irp_OutputBufferLength irp)
  then Some STATUS_INVALID_PARAMETER
  else if (negb (sb_ReqValid Params) && negb (sb_RspValid Params)) ||
          (sb_ReqValid Params && (0 =? sb_DataBuffer Params))
  then Some STATUS_INVALID_PARAMETER
  else None.

(** The data buffer as the driver sees it: a status to end with, or the buffer.  Only a buffer
    of user mode is probed and mapped; a pointer of kernel mode is used as it is. *)
Definition transact_map (irp : IRP) (Params : SystemBuffer) (m : mapping)
    : option (Z + option (list Z)) :=
  if 0 =? sb_DataBuffer Params then Some (inr None)
  else if irp_UserMode irp then
    match m with
    | MapException Code => Some (inl Code)
    | MapFailed => Some (inl STATUS_INSUFFICIENT_RESOURCES)
    | Mapped DataBuffer =>
        if negb (NT_SUCCESS (irp_Status irp)) then Some (inl (irp_Status irp))
        else Some (inr (Some DataBuffer))
    end
  else match m with Mapped DataBuffer => Some (inr (Some DataBuffer)) | _ => None end.

(** The response, when there is one. *)
Definition transact_respond (E : SPD_DEVICE_EXTENSION) (StorageUnit : Z) (Params : SystemBuffer)
    (DataBuffer : option (list Z)) : option (SPD_DEVICE_EXTENSION * list completion) :=
  if sb_RspValid Params then
    u ← Units E !! StorageUnit;
    q ← Ioq u;
    '(q, cs) ← SpdIoqEndProcessingSrb DBG (SpdSrbExecuteScsiComplete DBG (Units E)) q
        (rsp_Hint (sb_Rsp Params)) (mkTransact ReqZero (sb_Rsp Params) DataBuffer);
    Some (E <| Units := <[StorageUnit := u <| Ioq := Some q |>]> (Units E) |>, cs)
  else Some (E, []).

(** The loop that waits for a request to arrive.  It gives the status, the extension and the
    request with its data; [None] when the thread still waits after the last round. *)
Fixpoint transact_wait (StorageUnit : Z) (t : TRANSACT)
    (rounds : list (Z * SPD_DEVICE_EXTENSION)) : option (Z * SPD_DEVICE_EXTENSION * TRANSACT) :=
  match rounds with
  | [] => None
  | (Result, E) :: rounds =>
      u ← Units E !! StorageUnit;
      q ← Ioq u;
      '(Status, q, t) ← SpdIoqStartProcessingSrb DBG (SpdSrbExecuteScsiPrepare DBG (Units E))
          q Result t;
      let E := E <| Units := <[StorageUnit := u <| Ioq := Some q |>]> (Units E) |> in
      if STATUS_UNSUCCESSFUL =? Status then
        if SpdIoqStopped q then Some (STATUS_CANCELLED, E, t)
        else transact_wait StorageUnit t rounds
      else Some (Status, E, t)
  end.

(** The request part, and the answer. *)
Definition transact_request (E : SPD_DEVICE_EXTENSION) (StorageUnit : Z) (Params : SystemBuffer)
    (DataBuffer : option (list Z)) (rounds : list (Z * SPD_DEVICE_EXTENSION))
    : option (STATUS_ANSWER * SPD_DEVICE_EXTENSION) :=
  if sb_ReqValid Params then
    '(Status, E, t) ← transact_wait StorageUnit
        (mkTransact ReqZero (sb_Rsp Params) DataBuffer) rounds;
    if negb (NT_SUCCESS Status) then Some (Status, 0, OutNone, E)
    else if STATUS_TIMEOUT =? Status then Some (STATUS_SUCCESS, 0, OutNone, E)
    else Some (STATUS_SUCCESS, sizeof_SPD_IOCTL_TRANSACT_PARAMS,
               OutTransact (t_Req t) (t_DataBuffer t), E)
  else Some (STATUS_SUCCESS, 0, OutNone, E).

(** [SpdIoctlTransact]: the answer, the extension, and the requests that are completed. *)
Definition SpdIoctlTransact (E : SPD_DEVICE_EXTENSION) (irp : IRP) (Params : SystemBuffer)
    (m : mapping) (rounds : list (Z * SPD_DEVICE_EXTENSION))
    : option (STATUS_ANSWER * SPD_DEVICE_EXTENSION * list completion) :=
  match transact_check irp Params with
  | Some Status => Some (Status, 0, OutNone, E, [])
  | None =>
      '(StorageUnit, E) ← SpdStorageUnitReferenceByBtl E (sb_Btl Params);
      if 0 =? StorageUnit then Some (STATUS_CANCELLED, 0, OutNone, E, [])
      else
        u ← Units E !! StorageUnit;
        '(answer, E, cs1) ←
          (if negb (irp_RequestorProcessId irp =? TransactProcessId u)
           then Some (STATUS_ACCESS_DENIED, 0, OutNone, E, [])
           else
                DataBuffer ← transact_map irp Params m;
                match DataBuffer with
                | inl Status => Some (Status, 0, OutNone, E, [])
                | inr DataBuffer =>
                    '(E, cs) ← transact_respond E StorageUnit Params DataBuffer;
                    '(answer, E) ← transact_request E StorageUnit Params DataBuffer rounds;
                    Some (answer, E, cs)
                end);
        '(E, cs2) ← SpdStorageUnitDereference DBG E StorageUnit;
        Some (answer, E, cs1 ++ cs2)
  end.

Definition SpdIoctlSetTransactProcessId (E : SPD_DEVICE_EXTENSION) (irp : IRP)
    (Params : SystemBuffer) : option (STATUS_ANSWER * SPD_DEVICE_EXTENSION * list completion) :=
  if sizeof_SPD_IOCTL_SET_TRANSACT_PID_PARAMS >? irp_InputBufferLength irp
  then Some (STATUS_INVALID_PARAMETER, 0, OutNone, E, [])
  else
    '(StorageUnit, E) ← SpdStorageUnitReferenceByBtl E (sb_Btl Params);
    if 0 =? StorageUnit then Some (STATUS_CANCELLED, 0, OutNone, E, [])
    else
      u ← Units E !! StorageUnit;
      let E := E <| Units := <[StorageUnit := u <| TransactProcessId := sb_ProcessId Params |>]>
                               (Units E) |> in
      '(E, cs) ← SpdStorageUnitDereference DBG E StorageUnit;
      Some (STATUS_SUCCESS, 0, OutNone, E, cs).

(** [SpdHwProcessServiceRequest]; a null system buffer is [None]. *)
Definition SpdHwProcessServiceRequest (sizeof_SPD_IOQ : Z) (E : SPD_DEVICE_EXTENSION) (irp : IRP)
    (Params : option SystemBuffer) (AllocUnit : Z) (AllocIoq : bool) (m : mapping)
    (rounds : list (Z * SPD_DEVICE_EXTENSION))
    : option (STATUS_ANSWER * SPD_DEVICE_EXTENSION * effects) :=
  '(Status, Information, Out, E, eff) ←
    match Params with
    | None => Some (STATUS_INVALID_PARAMETER, 0, OutNone, E, no_effects)
    | Some Params =>
        if (sizeof_SPD_IOCTL_BASE_PARAMS >? irp_InputBufferLength irp) ||
           (sb_Size Params >? irp_InputBufferLength irp)
        then Some (STATUS_INVALID_PARAMETER, 0, OutNone, E, no_effects)
        else if sb_Code Params =? SPD_IOCTL_PROVISION
        then SpdIoctlProvision sizeof_SPD_IOQ E irp Params AllocUnit AllocIoq
        else if sb_Code Params =? SPD_IOCTL_UNPROVISION then SpdIoctlUnprovision E irp Params
        else if sb_Code Params =? SPD_IOCTL_LIST then
          answer ← SpdIoctlGetList E irp; Some (answer, E, no_effects)
        else if sb_Code Params =? SPD_IOCTL_TRANSACT then
          '(answer, E, cs) ← SpdIoctlTransact E irp Params m rounds;
          Some (answer, E, mkEffects cs false)
        else if sb_Code Params =? SPD_IOCTL_SET_TRANSACT_PID then
          '(answer, E, cs) ← SpdIoctlSetTransactProcessId E irp Params;
          Some (answer, E, mkEffects cs false)
        else Some (STATUS_INVALID_PARAMETER, 0, OutNone, E, no_effects)
    end;
  let Information := if negb (STATUS_SUCCESS =? Status) && negb (STATUS_BUFFER_OVERFLOW =? Status)
                     then 0 else Information in
  Some (Status, Information, Out, E, eff).
End Ioctl.
