(* ===== verification/DriverIoctlProps.v ===== *)
(** * Properties of the control requests *)

From S2P Require Import Prelude Wdk IoctlTypes ListEntry Srb Ioq IoqMem IoqSpec IoqRun.
From S2P Require Import StgUnit StgUnitInv StgUnitProps Scsi ScsiSpec ScsiProps.
From S2P Require Import ScsiIo ScsiIoProps DriverIo DriverIoInv DriverIoProps.
From S2P Require Import DriverIoctl.

(** ** Provisioning *)

(** The members of the parameters are in the range of their C types. *)
Record params_range (P : SPD_IOCTL_STORAGE_UNIT_PARAMS) : Prop := {
  pr_BlockCount : 0 <= BlockCount P < 2 ^ 64;
  pr_BlockLength : 0 <= BlockLength P < 2 ^ 32;
  pr_MaxTransferLength : 0 <= MaxTransferLength P < 2 ^ 32;
  pr_ProductId : length (ProductId P) = 16%nat;
  pr_ProductRevisionLevel : length (ProductRevisionLevel P) = 4%nat
}.

(** The parameters of a storage unit that can be served. *)
Definition params_accepted (P : SPD_IOCTL_STORAGE_UNIT_PARAMS) : Prop :=
  Guid P <> NullGuid /\ BlockCount P <> 0 /\ 16 <= BlockLength P /\
  DeviceType P = DIRECT_ACCESS_DEVICE /\ MaxTransferLength P <> 0 /\
  MaxTransferLength P mod BlockLength P = 0.

Lemma provision_params_spec P : params_range P ->
  exists b, provision_params_invalid P = Some b /\ (b = false <-> params_accepted P).
Proof.
  intros [HC HL HM _ _]. unfold provision_params_invalid, params_accepted.
  destruct (bool_decide_reflect (NullGuid = Guid P)) as [Eg|Eg]; cbn [orb];
    [exists true; split; [done|]; split; [done|intros (H & _); congruence]|].
  destruct (Z.eqb_spec 0 (BlockCount P)); cbn [orb];
    [exists true; split; [done|]; split; [done|intros (_ & H & _); lia]|].
  unfold sizeof_SPD_IOCTL_UNMAP_DESCRIPTOR.
  destruct (16 >? BlockLength P) eqn:El; cbn [orb]; zify_bools;
    [exists true; split; [done|]; split; [done|intros (_ & _ & H & _); lia]|].
  destruct (Z.eqb_spec DIRECT_ACCESS_DEVICE (DeviceType P)); cbn [orb negb];
    [|exists true; split; [done|]; split; [done|intros (_ & _ & _ & H & _); congruence]].
  destruct (Z.eqb_spec 0 (MaxTransferLength P));
    [exists true; split; [done|]; split; [done|intros (_ & _ & _ & _ & H & _); lia]|].
  rewrite (proj2 (Z.eqb_neq _ 0)) by lia. eexists. split; [done|].
  rewrite negb_false_iff, Z.eqb_eq. split.
  - intros H. split_and!; try done; lia || congruence.
  - intros H. symmetry. apply H.
Qed.

Lemma accepted_wf P : params_range P -> params_accepted P -> params_wf P.
Proof. intros [] (? & ? & ? & ? & ? & ?). constructor; try done; lia. Qed.

(** A request to provision never divides by zero: it is refused, and nothing changes, unless
    both buffers have room and the parameters are those of a unit that can be served (a GUID
    that is not null, blocks, a block length of at least 16 bytes, a direct access device, a
    maximum transfer length that is a positive multiple of the block length).  Otherwise the
    result and the address are those of the table's provision, and the table stays well
    formed, with units whose parameters meet the conditions. *)
Theorem ioctl_provision_checked DBG sizeof_SPD_IOQ E refs irp Params a :
  ext_wf E refs -> Z.of_nat (length refs) < 2 ^ 32 - 2 ->
  params_range (sb_StorageUnitParams Params) ->
  0 <= sizeof_SPD_IOQ <= PAGE_SIZE - 8 -> a <> 0 -> Units E !! a = None ->
  let P := sb_StorageUnitParams Params in
  let ok := sizeof_SPD_IOCTL_PROVISION_PARAMS <= irp_InputBufferLength irp /\
            sizeof_SPD_IOCTL_PROVISION_PARAMS <= irp_OutputBufferLength irp /\
            params_accepted P in
  let r := SpdIoctlProvision DBG sizeof_SPD_IOQ E irp Params a true in
  (~ ok /\ r = Some (STATUS_INVALID_PARAMETER, 0, OutNone, E, no_effects)) \/
  (ok /\ exists Status Btl E' eff,
     provision_result E (NewStorageUnit P (irp_RequestorProcessId irp)) a Status Btl E' eff /\
     ext_wf E' refs /\
     r = Some (if NT_SUCCESS Status
               then (STATUS_SUCCESS, sizeof_SPD_IOCTL_PROVISION_PARAMS, OutProvision Btl)
               else (Status, 0, OutNone), E', eff)).
Proof.
  intros Hwf Hfew Hrange Hsz Ha Hfresh P ok r. subst ok r. unfold SpdIoctlProvision.
  destruct (_ || _) eqn:Eb.
  { left. split; [|done]. apply orb_true_iff in Eb. intros (H1 & H2 & _). lia. }
  apply orb_false_iff in Eb as [E1 E2]. zify_bools.
  destruct (provision_params_spec P Hrange) as (b & Hb & Hacc). fold P. rewrite Hb. opt.
  destruct b.
  { left. split; [|done]. intros (_ & _ & H). apply Hacc in H. done. }
  assert (params_accepted P) as Hok by by apply Hacc. right. split; [split_and!; [lia|lia|done]|].
  destruct (provision_spec DBG sizeof_SPD_IOQ E refs P (irp_RequestorProcessId irp) a Hwf
    (accepted_wf P Hrange Hok) Hsz Ha Hfresh Hfew) as (st & btl & E' & eff & -> & Hwf' & Hr).
  opt. exists st, btl, E', eff. split_and!; [done..|]. by destruct (NT_SUCCESS st).
Qed.

Definition example_irp : IRP := mkIrp 136 136 77 true STATUS_SUCCESS.
Definition example_buffer (P : SPD_IOCTL_STORAGE_UNIT_PARAMS) : SystemBuffer :=
  mkBuffer 136 SPD_IOCTL_PROVISION P (Guid P) 0 true false 0x9000
    rsp_good 77.

(** A unit is provisioned; with a block length of 0 it is not. *)
Lemma ioctl_provision_checked_witness :
  (exists E' eff, SpdIoctlProvision true sizeof_SPD_IOQ_64 (empty_extension 16) example_irp
      (example_buffer (example_params 1)) 4096 true
    = Some (STATUS_SUCCESS, 136, OutProvision 0, E', eff) /\ ext_wf E' []) /\
  params_range (example_params 1).
Proof.
  assert (params_range (example_params 1)) as Hr
    by (constructor; try reflexivity; vm_compute; split; congruence).
  split; [|exact Hr].
  destruct (ioctl_provision_checked true sizeof_SPD_IOQ_64 (empty_extension 16) [] example_irp
    (example_buffer (example_params 1)) 4096) as [[Hn _]|[_ (st & btl & E' & eff & _ & Hwf & Hr')]].
  - apply empty_extension_wf. vm_compute. split; discriminate.
  - reflexivity.
  - exact Hr.
  - vm_compute. split; discriminate.
  - discriminate.
  - reflexivity.
  - exfalso. apply Hn. split; [vm_compute; discriminate|]. split; [vm_compute; discriminate|].
    repeat split; vm_compute; congruence.
  - exists E', eff. split; [|exact Hwf]. rewrite Hr'.
    pose proof (f_equal (fmap (fun r => r.1.1)) Hr') as H. cbn [fmap option_fmap option_map fst] in H.
    apply (f_equal (default (0, 0, OutNone))) in H. cbn [default from_option id] in H.
    rewrite <- H. vm_compute. reflexivity.
Defined.

(** ** The list of units *)

(** The addresses of the slots in use, in ascending order. *)
Definition used_addresses (E : SPD_DEVICE_EXTENSION) : list Z :=
  (fun I => SPD_BTL_FROM_INDEX (Z.of_nat I)) <$>
    filter (fun I => slot_matches E None I = true) (seq 0 256).

Lemma list_loop_spec irp Bitmap n I Out :
  length Bitmap = 32%nat -> (I + n <= 256)%nat ->
  4 * Z.of_nat (length Out) <= irp_OutputBufferLength irp ->
  let l := filter (fun I => bits Bitmap I = true) (seq I n) in
  exists Status Out', list_loop n I irp (Z.of_nat (count_bits n I Bitmap)) Bitmap Out
    = Some (Status, Out') /\
    (if 4 * Z.of_nat (length Out + length l) <=? irp_OutputBufferLength irp
     then Status = STATUS_SUCCESS /\
          Out' = Out ++ ((fun I => SPD_BTL_FROM_INDEX (Z.of_nat I)) <$> l)
     else Status = STATUS_BUFFER_TOO_SMALL).
Proof.
  intros Hl. revert I Out. induction n as [|n IH]; intros I Out HI Hroom l; subst l.
  - cbn [list_loop seq]. rewrite filter_nil. exists STATUS_SUCCESS, Out. split; [done|].
    cbn [length fmap list_fmap]. rewrite Nat.add_0_r, app_nil_r.
    by rewrite (proj2 (Z.leb_le _ _) Hroom).
  - cbn [list_loop count_bits seq]. rewrite bitmap_on_spec by (done || lia).
    rewrite filter_cons. destruct (bits Bitmap I) eqn:Eb.
    + rewrite decide_True by done. rewrite (proj2 (Z.ltb_lt 0 _)) by lia. opt.
      cbn [length]. destruct (4 * Z.of_nat (length Out) + 4 >? _) eqn:Er.
      * eexists _, _. split; [done|]. zify_bools.
        rewrite (proj2 (Z.leb_gt _ _)) by lia. done.
      * zify_bools. replace (Z.of_nat (1 + count_bits n (S I) Bitmap) - 1)
          with (Z.of_nat (count_bits n (S I) Bitmap)) by lia.
        destruct (IH (S I) (Out ++ [SPD_BTL_FROM_INDEX (Z.of_nat I)])) as (st & Out' & -> & Hr);
          [lia|rewrite length_app; simpl; lia|].
        exists st, Out'. split; [done|]. rewrite length_app in Hr. simpl in Hr.
        rewrite <- Nat.add_assoc in Hr. simpl in Hr. revert Hr. case_match; [|done].
        intros [-> ->]. split; [done|]. by rewrite <- app_assoc.
    + rewrite decide_False by done. simpl Nat.add.
      destruct (0 <? Z.of_nat (count_bits n (S I) Bitmap)) eqn:Ec; opt; [by apply IH; lia|].
      zify_bools. destruct (IH (S I) Out) as (st & Out' & Hr & Hd); [lia|done|].
      destruct n as [|n]; cbn [list_loop] in Hr; [by exists st, Out'|].
      rewrite (proj2 (Z.ltb_ge 0 _)) in Hr by lia. by exists st, Out'.
Qed.

Lemma get_list_spec E refs irp :
  ext_wf E refs -> sizeof_SPD_IOCTL_LIST_PARAMS <= irp_InputBufferLength irp ->
  0 <= irp_OutputBufferLength irp ->
  SpdIoctlGetList E irp =
    Some (if 4 * Z.of_nat (length (used_addresses E)) <=? irp_OutputBufferLength irp
          then (STATUS_SUCCESS, 4 * Z.of_nat (length (used_addresses E)), OutList (used_addresses E))
          else (STATUS_BUFFER_TOO_SMALL, 0, OutNone)).
Proof.
  intros Hwf Hin Hout. unfold SpdIoctlGetList, used_addresses.
  remember 256%nat as N eqn:HN.
  destruct (_ >? _) eqn:El; [zify_bools; lia|].
  destruct (use_bitmap_spec E refs None Hwf) as (Count & Bm & -> & Hl & -> & HB).
  rewrite bind_value.
  pose proof (wf_capacity _ _ Hwf) as Hc. unfold SPD_IOCTL_STORAGE_UNIT_MAX_CAPACITY in Hc.
  assert (count_matches E None (StorageUnits E) = count_bits N 0 Bm) as ->.
  { rewrite (count_bits_matches E None); [by rewrite drop_0|done|].
    rewrite (wf_length _ _ Hwf). lia. }
  destruct (list_loop_spec irp Bm N 0 []) as (st & Out' & -> & Hr); [done|lia|done|]. opt.
  assert (filter (fun I => bits Bm I = true) (seq 0 N)
          = filter (fun I => slot_matches E None I = true) (seq 0 N)) as Hf.
  { apply list_filter_iff. intros I. by rewrite HB. }
  rewrite Hf in Hr. rewrite length_fmap. rewrite Nat.add_0_l in Hr. destruct (_ <=? _).
  - destruct Hr as [-> ->]. by rewrite app_nil_l, Z.eqb_refl, length_fmap.
  - by rewrite Hr.
Qed.

(** The request for the list of units answers with the addresses of exactly the slots in use,
    ascending, if the output buffer has room for all of them, and with
    [STATUS_BUFFER_TOO_SMALL] and no output otherwise. *)
Theorem ioctl_list_exact E refs irp :
  ext_wf E refs -> sizeof_SPD_IOCTL_LIST_PARAMS <= irp_InputBufferLength irp ->
  0 <= irp_OutputBufferLength irp ->
  let l := used_addresses E in
  let n := 4 * Z.of_nat (length l) in
  SpdIoctlGetList E irp =
    Some (if n <=? irp_OutputBufferLength irp then (STATUS_SUCCESS, n, OutList l)
          else (STATUS_BUFFER_TOO_SMALL, 0, OutNone)).
Proof. apply get_list_spec. Qed.

(** One unit, in a buffer that has room for it and in one that has not. *)
Lemma ioctl_list_exact_witness :
  SpdIoctlGetList example_E1 (mkIrp 8 4 1 true STATUS_SUCCESS)
    = Some (STATUS_SUCCESS, 4, OutList [0]) /\
  SpdIoctlGetList example_E1 (mkIrp 8 3 1 true STATUS_SUCCESS)
    = Some (STATUS_BUFFER_TOO_SMALL, 0, OutNone).
Proof.
  split.
  - rewrite (ioctl_list_exact example_E1 []); [vm_compute; reflexivity|exact example_E1_wf| |];
      vm_compute; discriminate.
  - rewrite (ioctl_list_exact example_E1 []); [vm_compute; reflexivity|exact example_E1_wf| |];
      vm_compute; discriminate.
Defined.

(** ** Transactions *)

Section Transact.
Context (DBG : bool) (E : SPD_DEVICE_EXTENSION) (refs : list Z).
Context (Hwf : ext_wf E refs) (Hfew : Z.of_nat (length refs) < 2 ^ 32 - 2).

(** The process that may exchange requests with the unit at an address. *)
Definition transact_process (Btl pid : Z) : Prop :=
  exists p u, in_table E p u /\ TransactProcessId u = pid /\
    SpdStorageUnitReferenceByBtl E Btl = Some (p, referenced E p u).

Lemma transact_refused irp Params m rounds :
  ~ transact_process (sb_Btl Params) (irp_RequestorProcessId irp) ->
  exists Status, Status ∈ [STATUS_INVALID_PARAMETER; STATUS_CANCELLED; STATUS_ACCESS_DENIED] /\
    SpdIoctlTransact DBG E irp Params m rounds = Some (Status, 0, OutNone, E, []).
Proof using Hwf Hfew.
  intros Hn. unfold SpdIoctlTransact.
  destruct (transact_check irp Params) as [st|] eqn:Ec.
  { exists STATUS_INVALID_PARAMETER. split; [set_solver|]. unfold transact_check in Ec.
    by repeat (case_match; simplify_eq). }
  destruct (reference_spec E refs Hwf Hfew (sb_Btl Params)) as [->|(p & u & Hin & Hr)].
  { exists STATUS_CANCELLED. split; [set_solver|]. done. }
  rewrite Hr. opt. rewrite (proj2 (Z.eqb_neq 0 p)) by (by destruct Hin).
  assert (Units (referenced E p u) !! p = Some (u <| RefCount := RefCount u + 1 |>)) as ->
    by apply lookup_insert_eq. opt.
  exists STATUS_ACCESS_DENIED. split; [set_solver|].
  assert (irp_RequestorProcessId irp <> TransactProcessId u) as Hne.
  { intros Heq. apply Hn. by exists p, u. }
  change (TransactProcessId (u <| RefCount := RefCount u + 1 |>)) with (TransactProcessId u).
  rewrite (proj2 (Z.eqb_neq _ _) Hne). cbn [negb]. opt.
  by rewrite (release_same DBG E refs Hwf Hfew p u Hin).
Qed.

(** *** The exchange *)

Context (HDBG : DBG = false).

Lemma transact_respond_spec p u q Q Params DataBuffer Q1 cs :
  in_table E p u -> Ioq u = Some q -> ioq_abs q Q -> sb_RspValid Params = true ->
  q_end DBG (SpdSrbExecuteScsiComplete DBG (Units (referenced E p u))) Q
    (rsp_Hint (sb_Rsp Params)) (mkTransact ReqZero (sb_Rsp Params) DataBuffer) = Some (Q1, cs) ->
  exists q1, ioq_abs q1 Q1 /\
    transact_respond DBG (referenced E p u) p Params DataBuffer
    = Some (referenced (set_queue E p u q1) p (u <| Ioq := Some q1 |>), cs).
Proof using.
  intros Hin Hq Ha Hv Hend. unfold transact_respond. rewrite Hv.
  assert (Units (referenced E p u) !! p = Some (u <| RefCount := RefCount u + 1 |>)) as ->
    by apply lookup_insert_eq. opt.
  change (Ioq (u <| RefCount := RefCount u + 1 |>)) with (Ioq u). rewrite Hq. opt.
  pose proof (end_abs (SpdSrbExecuteScsiComplete DBG (Units (referenced E p u)))
    (execute_scsi_complete_frame DBG _) DBG q Q (rsp_Hint (sb_Rsp Params))
    (mkTransact ReqZero (sb_Rsp Params) DataBuffer) Ha) as He.
  rewrite Hend in He. destruct He as (q1 & Hr & Ha1). exists q1. split; [done|].
  match goal with |- context [SpdIoqEndProcessingSrb ?a ?b ?c ?d ?e] =>
    change (SpdIoqEndProcessingSrb a b c d e) with (SpdIoqEndProcessingSrb a b q
      (rsp_Hint (sb_Rsp Params)) (mkTransact ReqZero (sb_Rsp Params) DataBuffer)) end.
  rewrite Hr. opt. do 2 f_equal. unfold referenced, set_queue. simpl.
  rewrite !insert_insert_eq. done.
Qed.
End Transact.

(** C36: Only one process exchanges requests with a storage unit: a transaction of any other
    process is refused, whatever its buffers, without an effect on the driver.  The request to
    set that process is granted to every process, if there is a unit at the address; it keeps
    the table well formed and changes only the unit's [TransactProcessId], so that from then on
    just the new process is let in. *)
Theorem ioctl_transact_one_process DBG E refs Btl pid irp Params :
  ext_wf E refs -> Z.of_nat (length refs) < 2 ^ 32 - 2 ->
  (forall irp Params m rounds,
     ~ transact_process E (sb_Btl Params) (irp_RequestorProcessId irp) ->
     exists Status, Status ∈ [STATUS_INVALID_PARAMETER; STATUS_CANCELLED; STATUS_ACCESS_DENIED] /\
       SpdIoctlTransact DBG E irp Params m rounds = Some (Status, 0, OutNone, E, [])) /\
  (transact_process E Btl pid ->
   sb_Btl Params = Btl -> sizeof_SPD_IOCTL_SET_TRANSACT_PID_PARAMS <= irp_InputBufferLength irp ->
   exists p u, in_table E p u /\
     let E' := E <| Units := <[p := u <| TransactProcessId := sb_ProcessId Params |>]> (Units E) |> in
     SpdIoctlSetTransactProcessId DBG E irp Params = Some (STATUS_SUCCESS, 0, OutNone, E', []) /\
     ext_wf E' refs /\
     forall pid', transact_process E' Btl pid' <-> pid' = sb_ProcessId Params).
Proof.
  intros Hwf Hfew. split.
  { intros irp' P' m rounds. by apply (transact_refused DBG E refs Hwf Hfew). }
  intros (p & u & Hin & _ & Hr) HBtl Hsz. exists p, u. split; [done|]. intros E'.
  pose proof Hin as (Hp & Hslot & Hu). destruct (in_table_ok E refs Hwf p u Hin) as (Hd & q & Q & Hq & Ha).
  assert (ext_wf E' refs) as Hwf'.
  { apply (wf_update_unit E refs Hwf Hfew p u); try done. split; [done|]. by exists q, Q. }
  assert (in_table E' p (u <| TransactProcessId := sb_ProcessId Params |>)) as Hin'.
  { split_and!; [done|done|]. apply lookup_insert_eq. }
  assert (SpdStorageUnitReferenceByBtl E' Btl
    = Some (p, referenced E' p (u <| TransactProcessId := sb_ProcessId Params |>))) as Hr'.
  { revert Hr. unfold SpdStorageUnitReferenceByBtl. case_match; [intros [= ]; congruence|].
    change (StorageUnitCapacity E') with (StorageUnitCapacity E).
    change (StorageUnits E') with (StorageUnits E).
    destruct (if _ : bool then _ else _) as [p'|]; [|done]. opt.
    destruct (Z.eqb_spec 0 p') as [<-|_]; cbn [negb]; [intros [= ]; congruence|].
    destruct (Units E !! p') as [u'|]; [|done]. opt. intros [= -> _].
    unfold E'. simpl. rewrite lookup_insert_eq. opt.
    pose proof (in_table_count E refs Hwf Hfew p u Hin). simpl. rewrite u32_small by lia. done. }
  split_and!; [|done|].
  - unfold SpdIoctlSetTransactProcessId. destruct (_ >? _) eqn:Es; [zify_bools; lia|].
    rewrite HBtl, Hr. opt. rewrite (proj2 (Z.eqb_neq 0 p)) by done.
    assert (Units (referenced E p u) !! p = Some (u <| RefCount := RefCount u + 1 |>)) as ->
      by apply lookup_insert_eq. opt.
    pose proof (release_same DBG E' refs Hwf' Hfew p _ Hin') as Hd'.
    match type of Hd' with SpdStorageUnitDereference _ ?X _ = _ =>
      match goal with |- context [SpdStorageUnitDereference DBG ?Y p] =>
        replace Y with X by (unfold E', referenced; simpl; by rewrite !insert_insert_eq) end end.
    by rewrite Hd'.
  - intros pid'. split.
    + intros (p' & u' & Hin1 & <- & Hr1). rewrite Hr' in Hr1. injection Hr1 as <- Hu1.
      destruct Hin1 as (_ & _ & Hu2). unfold E' in Hu2. simpl in Hu2.
      rewrite lookup_insert_eq in Hu2. by injection Hu2 as <-.
    + intros ->. by eexists _, _.
Qed.

(** Process 5 is given the example unit that belongs to process 77. *)
Lemma ioctl_transact_one_process_witness :
  exists E', SpdIoctlSetTransactProcessId true example_E1 (mkIrp 16 0 3 true STATUS_SUCCESS)
      ((example_buffer (example_params 1)) <| sb_ProcessId := 5 |>)
    = Some (STATUS_SUCCESS, 0, OutNone, E', []) /\
    transact_process E' 0 5 /\ ~ transact_process E' 0 77.
Proof.
  destruct (ioctl_transact_one_process true example_E1 [] 0 77
    (mkIrp 16 0 3 true STATUS_SUCCESS) ((example_buffer (example_params 1)) <| sb_ProcessId := 5 |>)
    example_E1_wf ltac:(reflexivity)) as [_ H].
  destruct H as (p & u & _ & H & _ & Hp); [|reflexivity|vm_compute; discriminate|].
  - destruct example_E1_unit as (u & q & E1 & E2 & E3). exists 4096, u. split.
    { split; [discriminate|]. split; [|rewrite E1; reflexivity].
      apply list_elem_of_lookup. exists 0%nat. vm_compute. reflexivity. }
    assert (u = default u (Units example_E1 !! 4096)) as -> by (rewrite E1; reflexivity).
    split; vm_compute; reflexivity.
  - eexists. split; [exact H|]. split; [by apply Hp|]. intros Hc. by apply Hp in Hc.
Defined.
