(* ===== verification/DriverGlobal.v ===== *)
(** * The adapter and its global device extension

    [sys/stgunit.c] (the functions on [SpdGlobalDeviceExtension]), [sys/dispatch.c],
    [sys/adapter.c], and from [sys/driver.c] and [sys/util.c] the capacity of the table and the
    address of a disk.  The state has the global variables, the memory of the extension, and the
    number of times that the running thread holds [SpdGlobalDeviceResource] shared; a function
    that takes the resource exclusively is one step, when no one holds it shared. *)

From S2P Require Import Prelude Wdk IoctlTypes ListEntry Srb Ioq StgUnit Scsi ScsiIo.

Record GLOBAL := mkGlobal {
  SpdGlobalDeviceExtension : Z;
  SpdStorageUnitCapacity : Z;
  Shared : Z;                          (* shared acquisitions of SpdGlobalDeviceResource *)
  Registered : bool;                   (* the process notify routine *)
  Extension : SPD_DEVICE_EXTENSION     (* the memory of the global extension *)
}.

#[export] Instance GLOBAL_eta : Eta GLOBAL := fun G =>
  mkGlobal (SpdGlobalDeviceExtension G) (SpdStorageUnitCapacity G) (Shared G) (Registered G)
    (Extension G).

(** ** [DriverEntry]: the capacity of the table *)

Definition REG_DWORD : Z := 4.

(** [Status], [Type] and [Value] are what [SpdRegistryGetValue] gives for the registry value
    ["StorageUnitCapacity"]. *)
Definition DriverEntryCapacity (Status Type_ Value : Z) : Z :=
  if NT_SUCCESS Status && (REG_DWORD =? Type_) then
    if (SPD_IOCTL_STORAGE_UNIT_CAPACITY <=? Value) &&
       (Value <=? SPD_IOCTL_STORAGE_UNIT_MAX_CAPACITY)
    then Value else SPD_IOCTL_STORAGE_UNIT_CAPACITY
  else SPD_IOCTL_STORAGE_UNIT_CAPACITY.

(** ** The extension *)

(** [E] is the memory of the extension that the port driver has allocated, which is zero but for
    the size of its table; [NotifyResult] is what the system gives for the notify routine. *)
Definition SpdDeviceExtensionInit (G : GLOBAL) (DeviceExtension : Z) (E : SPD_DEVICE_EXTENSION)
    (BusInformation NotifyResult : Z) : Z * GLOBAL :=
  if negb (0 =? SpdGlobalDeviceExtension G) then
    (if DeviceExtension =? SpdGlobalDeviceExtension G
     then STATUS_SUCCESS else STATUS_INVALID_PARAMETER, G)
  else if negb (NT_SUCCESS NotifyResult) then (NotifyResult, G)
  else
    let E := E <| AdapterObject := BusInformation |>
               <| StorageUnitCapacity := SpdStorageUnitCapacity G |> in
    (STATUS_SUCCESS,
     G <| Registered := true |> <| Extension := E |>
       <| SpdGlobalDeviceExtension := DeviceExtension |>).

Definition SpdDeviceExtensionFini (G : GLOBAL) (DeviceExtension : Z) : GLOBAL :=
  if DeviceExtension =? SpdGlobalDeviceExtension G then
    G <| Registered := false |> <| SpdGlobalDeviceExtension := 0 |>
  else G.

Definition SpdDeviceExtensionAcquire (G : GLOBAL) : Z * GLOBAL :=
  if negb (0 =? SpdGlobalDeviceExtension G)
  then (SpdGlobalDeviceExtension G, G <| Shared := Shared G + 1 |>)
  else (0, G).

Definition SpdDeviceExtensionRelease (G : GLOBAL) : GLOBAL := G <| Shared := Shared G - 1 |>.

(** ** The storage unit of a disk *)

(** What the port driver answers to [IOCTL_SCSI_GET_ADDRESS]. *)
Record SCSI_ADDRESS := mkScsiAddress {
  IoStatus_Status : Z; IoStatus_Information : Z;
  sa_Length : Z; sa_PathId : Z; sa_TargetId : Z; sa_Lun : Z
}.

Definition sizeof_SCSI_ADDRESS : Z := 8.

Definition SpdGetScsiAddress (a : SCSI_ADDRESS) : Z :=
  if negb (NT_SUCCESS (IoStatus_Status a)) then IoStatus_Status a
  else if (sizeof_SCSI_ADDRESS >? IoStatus_Information a) || (sizeof_SCSI_ADDRESS >? sa_Length a)
  then STATUS_OBJECT_NAME_NOT_FOUND
  else STATUS_SUCCESS.

Section Global.
Context (DBG : bool).

Definition SpdStorageUnitGlobalSetDevice (G : GLOBAL) (Device : Z) (a : SCSI_ADDRESS)
    : option (Z * GLOBAL * list completion) :=
  let Result := SpdGetScsiAddress a in
  if negb (NT_SUCCESS Result) then Some (Result, G, [])
  else
    let '(Ext, G) := SpdDeviceExtensionAcquire G in
    if 0 =? Ext then Some (STATUS_OBJECT_NAME_NOT_FOUND, G, [])
    else
      '(StorageUnit, E) ← SpdStorageUnitReferenceByBtl (Extension G)
          (SPD_IOCTL_BTL (sa_PathId a) (sa_TargetId a) (sa_Lun a));
      '(Result, E, cs) ←
        (if negb (0 =? StorageUnit) then
           u ← Units E !! StorageUnit;
           let '(Result, u) :=
             if 0 =? DeviceObject u then (STATUS_SUCCESS, u <| DeviceObject := Device |>)
             else (STATUS_OBJECT_NAME_COLLISION, u) in
           let E := E <| Units := <[StorageUnit := u]> (Units E) |> in
           '(E, cs) ← SpdStorageUnitDereference DBG E StorageUnit;
           Some (Result, E, cs)
         else Some (STATUS_OBJECT_NAME_NOT_FOUND, E, []));
      Some (Result, SpdDeviceExtensionRelease (G <| Extension := E |>), cs).

Definition SpdStorageUnitGlobalReferenceByDevice (G : GLOBAL) (Device : Z)
    : option (Z * GLOBAL) :=
  let '(Ext, G) := SpdDeviceExtensionAcquire G in
  if 0 =? Ext then Some (0, G)
  else
    '(StorageUnit, E) ← SpdStorageUnitReferenceByDevice (Extension G) Device;
    let G := G <| Extension := E |> in
    Some (StorageUnit, if 0 =? StorageUnit then SpdDeviceExtensionRelease G else G).

Definition SpdStorageUnitGlobalDereference (G : GLOBAL) (StorageUnit : Z)
    : option (GLOBAL * list completion) :=
  '(E, cs) ← SpdStorageUnitDereference DBG (Extension G) StorageUnit;
  Some (SpdDeviceExtensionRelease (G <| Extension := E |>), cs).

(** ** [SpdDispatchPnp] *)

(** [SpdPnpSetAdapterCapabilities]: the three members that are set to 1. *)
Record DEVICE_CAPABILITIES := mkCapabilities {
  Removable : bool; SilentInstall : bool; SurpriseRemovalOK : bool
}.
Definition SpdPnpSetAdapterCapabilities (D : DEVICE_CAPABILITIES) : DEVICE_CAPABILITIES :=
  mkCapabilities true true true.

(** The port driver's own handler; other threads run as well while it does. *)
Context (StorPortDispatchPnp : GLOBAL -> Z * GLOBAL).

(** Before [StorPortDispatchPnp]: the capabilities, and the GUID and the process of the unit
    whose disk is removed. *)
Definition pnp_before (G : GLOBAL) (Device MinorFunction : Z) (a : SCSI_ADDRESS)
    (Caps : DEVICE_CAPABILITIES)
    : option (DEVICE_CAPABILITIES * option (GUID * Z) * GLOBAL * list completion) :=
  if MinorFunction =? IRP_MN_QUERY_CAPABILITIES then
    let '(DeviceExtension, G) := SpdDeviceExtensionAcquire G in
    if negb (0 =? DeviceExtension) then
      Some (if Device =? AdapterObject (Extension G) then SpdPnpSetAdapterCapabilities Caps
            else Caps, None, SpdDeviceExtensionRelease G, [])
    else Some (Caps, None, G, [])
  else if MinorFunction =? IRP_MN_START_DEVICE then
    '(_, G, cs) ← SpdStorageUnitGlobalSetDevice G Device a;
    Some (Caps, None, G, cs)
  else if MinorFunction =? IRP_MN_REMOVE_DEVICE then
    '(StorageUnit, G) ← SpdStorageUnitGlobalReferenceByDevice G Device;
    if negb (0 =? StorageUnit) then
      u ← Units (Extension G) !! StorageUnit;
      '(G, cs) ← SpdStorageUnitGlobalDereference G StorageUnit;
      Some (Caps, Some (Guid (StorageUnitParams u), OwnerProcessId u), G, cs)
    else Some (Caps, None, G, [])
  else Some (Caps, None, G, []).

(** [ProvisionPid] is -1 when there is nothing to unprovision. *)
Definition SpdDispatchPnp (G : GLOBAL) (Device MinorFunction : Z) (a : SCSI_ADDRESS)
    (Caps : DEVICE_CAPABILITIES) : option (Z * DEVICE_CAPABILITIES * GLOBAL * list completion) :=
  '(Caps, Provision, G, cs1) ← pnp_before G Device MinorFunction a Caps;
  let '(Result, G) := StorPortDispatchPnp G in
  let '(ProvisionGuid, ProvisionPid) := default (mkGUID 0 0 0 [], 0xffffffff) Provision in
  if (MinorFunction =? IRP_MN_REMOVE_DEVICE) && negb (0xffffffff =? ProvisionPid) then
    let '(DeviceExtension, G) := SpdDeviceExtensionAcquire G in
    if negb (0 =? DeviceExtension) then
      '(_, E, eff) ← SpdStorageUnitUnprovision DBG (Extension G) (Some ProvisionGuid) 0
                       ProvisionPid;
      Some (Result, Caps, SpdDeviceExtensionRelease (G <| Extension := E |>),
            cs1 ++ eff_completed eff)
    else Some (Result, Caps, G, cs1)
  else Some (Result, Caps, G, cs1).
End Global.

(** ** The adapter *)

(** What [SpdHwFindAdapter] tells the port driver, the members that do not have a fixed value. *)
Definition SpdHwFindAdapter (G : GLOBAL) (DeviceExtension : Z) (E : SPD_DEVICE_EXTENSION)
    (BusInformation NotifyResult : Z) : option Z * GLOBAL :=
  let '(Result, G) := SpdDeviceExtensionInit G DeviceExtension E BusInformation NotifyResult in
  if NT_SUCCESS Result
  then (Some (u8 (StorageUnitCapacity (Extension G))), G)     (* MaximumNumberOfTargets *)
  else (None, G).                                             (* SP_RETURN_NOT_FOUND *)

Definition SpdHwFreeAdapterResources (G : GLOBAL) (DeviceExtension : Z) : GLOBAL :=
  SpdDeviceExtensionFini G DeviceExtension.

Definition ScsiQuerySupportedControlTypes : Z := 0.
Definition ScsiStopAdapter : Z := 1.
Definition ScsiRestartAdapter : Z := 2.

(** [SupportedTypeList[i] = TRUE], below [MaxControlType]. *)
Definition SetSupportedControlType (i MaxControlType : Z) (SupportedTypeList : list bool)
    : list bool :=
  if MaxControlType >? i then <[Z.to_nat i := true]> SupportedTypeList else SupportedTypeList.

(** Success, and the list of the parameters. *)
Definition SpdHwAdapterControl (ControlType MaxControlType : Z) (SupportedTypeList : list bool)
    : bool * list bool :=
  if ControlType =? ScsiQuerySupportedControlTypes then
    (true,
     SetSupportedControlType ScsiRestartAdapter MaxControlType
       (SetSupportedControlType ScsiStopAdapter MaxControlType
          (SetSupportedControlType ScsiQuerySupportedControlTypes MaxControlType
             SupportedTypeList)))
  else if ControlType =? ScsiStopAdapter then (true, SupportedTypeList)
  else if ControlType =? ScsiRestartAdapter then (true, SupportedTypeList)
  else (false, SupportedTypeList).
