(* ===== verification/DriverGlobalProps.v ===== *)
(** * Properties of the adapter and of its PnP requests *)

From S2P Require Import Prelude Wdk IoctlTypes ListEntry Srb Ioq IoqMem IoqSpec IoqRun.
From S2P Require Import StgUnit StgUnitInv StgUnitProps Scsi ScsiIo.
From S2P Require Import DriverIoInv DriverIoProps DriverGlobal.

(** The table is well formed when there is an extension. *)
Definition global_wf (G : GLOBAL) (refs : list Z) : Prop :=
  (SpdGlobalDeviceExtension G <> 0 -> ext_wf (Extension G) refs) /\
  (Registered G = negb (0 =? SpdGlobalDeviceExtension G)).

(** ** The adapter *)

Lemma driver_capacity_range Status Type_ Value :
  SPD_IOCTL_STORAGE_UNIT_CAPACITY <= DriverEntryCapacity Status Type_ Value <=
    SPD_IOCTL_STORAGE_UNIT_MAX_CAPACITY.
Proof.
  unfold DriverEntryCapacity, SPD_IOCTL_STORAGE_UNIT_CAPACITY, SPD_IOCTL_STORAGE_UNIT_MAX_CAPACITY.
  case_bools; zify_bools; lia.
Qed.

(** The memory of an extension as the port driver allocates it for a table of that capacity. *)
Definition allocated_extension (Capacity : Z) : SPD_DEVICE_EXTENSION :=
  mkDevExt 0 0 0 (replicate (Z.to_nat Capacity) 0) ∅.

(** Whatever the registry has, the first adapter that is found gets an empty, well-formed
    table of 16 to 64 units, and the port driver is told that number of targets without
    truncation; while there is an adapter, another one is refused and changes nothing; and
    when the resources of the adapter are freed, the driver is as it was before. *)
Theorem find_adapter_starts G RegStatus RegType RegValue DeviceExtension Bus NotifyResult Other E2
    Bus2 :
  SpdGlobalDeviceExtension G = 0 -> Registered G = false ->
  SpdStorageUnitCapacity G = DriverEntryCapacity RegStatus RegType RegValue ->
  DeviceExtension <> 0 -> Other <> DeviceExtension -> NT_SUCCESS NotifyResult = true ->
  exists G',
    SpdHwFindAdapter G DeviceExtension (allocated_extension (SpdStorageUnitCapacity G)) Bus
      NotifyResult = (Some (SpdStorageUnitCapacity G), G') /\
    global_wf G' [] /\ StorageUnitCapacity (Extension G') = SpdStorageUnitCapacity G /\
    16 <= SpdStorageUnitCapacity G <= 64 /\
    SpdHwFindAdapter G' Other E2 Bus2 NotifyResult = (None, G') /\
    SpdDeviceExtensionInit G' DeviceExtension E2 Bus2 NotifyResult = (STATUS_SUCCESS, G') /\
    let G0 := SpdHwFreeAdapterResources G' DeviceExtension in
    SpdGlobalDeviceExtension G0 = 0 /\ Registered G0 = false /\
    (SpdDeviceExtensionAcquire G0).1 = 0.
Proof.
  intros H0 Hreg Hcap Hne Hother Hn.
  pose proof (driver_capacity_range RegStatus RegType RegValue) as Hr. rewrite <- Hcap in Hr.
  unfold SPD_IOCTL_STORAGE_UNIT_CAPACITY, SPD_IOCTL_STORAGE_UNIT_MAX_CAPACITY in Hr.
  eexists. unfold SpdHwFindAdapter, SpdDeviceExtensionInit. rewrite H0, Hn. cbn [negb].
  change (negb (0 =? 0)) with false. cbv iota. change (NT_SUCCESS STATUS_SUCCESS) with true.
  cbv iota. simpl. rewrite u8_small by (unfold is_byte; lia).
  split; [done|]. simpl. rewrite (proj2 (Z.eqb_neq 0 DeviceExtension)) by done. simpl.
  rewrite (proj2 (Z.eqb_neq Other DeviceExtension)), Z.eqb_refl by done.
  split_and!; try done; try lia.
  - split; simpl; [|by rewrite (proj2 (Z.eqb_neq 0 DeviceExtension))]. intros _.
    pose proof (empty_extension_wf (SpdStorageUnitCapacity G)) as Hwf.
    unfold SPD_IOCTL_STORAGE_UNIT_MAX_CAPACITY in Hwf. specialize (Hwf ltac:(lia)).
    destruct Hwf. split; try done.
  - unfold SpdHwFreeAdapterResources, SpdDeviceExtensionFini. simpl. by rewrite Z.eqb_refl.
  - unfold SpdHwFreeAdapterResources, SpdDeviceExtensionFini. simpl. by rewrite Z.eqb_refl.
  - unfold SpdHwFreeAdapterResources, SpdDeviceExtensionFini. simpl. by rewrite Z.eqb_refl.
Qed.

Definition example_G : GLOBAL :=
  mkGlobal 0 (DriverEntryCapacity STATUS_SUCCESS REG_DWORD 64) 0 false (empty_extension 0).

Lemma find_adapter_starts_witness :
  exists G', SpdHwFindAdapter example_G 0x8000 (allocated_extension 64) 7 STATUS_SUCCESS
    = (Some 64, G') /\ global_wf G' [].
Proof.
  destruct (find_adapter_starts example_G STATUS_SUCCESS REG_DWORD 64 0x8000 7 STATUS_SUCCESS
    0x9000 (empty_extension 0) 7) as (G' & H & Hwf & _); try reflexivity; try discriminate.
  exists G'. split; [exact H|exact Hwf].
Defined.

(** ** PnP requests *)

Section Pnp.
Context (DBG : bool) (refs : list Z) (Hfew : Z.of_nat (length refs) < 2 ^ 32 - 2).

(** A reference that is taken and given back. *)
Lemma dereference_referenced E p u :
  ext_wf E refs -> in_table E p u ->
  SpdStorageUnitDereference DBG (referenced E p u) p = Some (E, []).
Proof using Hfew. intros Hwf Hin. by apply (release_same DBG E refs). Qed.

Lemma set_device_wf G Device a :
  global_wf G refs ->
  exists Result G' cs, SpdStorageUnitGlobalSetDevice DBG G Device a = Some (Result, G', cs) /\
    global_wf G' refs /\ Shared G' = Shared G.
Proof using Hfew.
  intros HG. pose proof HG as [Hwf Hreg].
  unfold SpdStorageUnitGlobalSetDevice, SpdDeviceExtensionAcquire.
  destruct (negb (NT_SUCCESS _)); [by eexists _, G, _|].
  destruct (Z.eqb_spec 0 (SpdGlobalDeviceExtension G)) as [E0|E0]; cbn [negb];
    [rewrite Z.eqb_refl; by eexists _, G, _|].
  rewrite (proj2 (Z.eqb_neq 0 _)) by done. specialize (Hwf (not_eq_sym E0)).
  change (Extension (G <| Shared := Shared G + 1 |>)) with (Extension G).
  destruct (reference_spec (Extension G) refs Hwf Hfew
    (SPD_IOCTL_BTL (sa_PathId a) (sa_TargetId a) (sa_Lun a))) as [->|(p & u & Hin & ->)]; opt.
  { rewrite Z.eqb_refl. cbn [negb]. opt. eexists _, _, _. split; [done|]. split; [done|].
    simpl. lia. }
  pose proof Hin as (Hp & Hslot & Hu).
  rewrite (proj2 (Z.eqb_neq 0 p)) by done. cbn [negb].
  assert (Units (referenced (Extension G) p u) !! p = Some (u <| RefCount := RefCount u + 1 |>)) as ->
    by apply lookup_insert_eq. opt.
  destruct (in_table_ok _ refs Hwf p u Hin) as (Hd & q & Q & Hq & Ha).
  assert (forall u' : SPD_STORAGE_UNIT, RefCount u' = RefCount u ->
    StorageUnitParams u' = StorageUnitParams u -> unit_ok u' ->
    let E' := (Extension G) <| Units := <[p := u']> (Units (Extension G)) |> in
    ext_wf E' refs /\
    SpdStorageUnitDereference DBG
      ((referenced (Extension G) p u) <| Units :=
         <[p := u' <| RefCount := RefCount u + 1 |>]> (Units (referenced (Extension G) p u)) |>) p
    = Some (E', [])) as Hupd.
  { intros u' Hrc Hpar Hok E'.
    assert (ext_wf E' refs) as Hwf' by by apply (wf_update_unit _ refs Hwf Hfew p u).
    split; [done|].
    rewrite <- (dereference_referenced E' p u' Hwf'); [|split_and!; [done..|apply lookup_insert_eq]].
    unfold referenced, E'. simpl. by rewrite !insert_insert_eq, Hrc. }
  change (DeviceObject (u <| RefCount := RefCount u + 1 |>)) with (DeviceObject u).
  destruct (0 =? DeviceObject u).
  - destruct (Hupd (u <| DeviceObject := Device |>)) as [Hwf' HD]; [done|done|
      split; [done|]; by exists q, Q|].
    change ((u <| RefCount := RefCount u + 1 |>) <| DeviceObject := Device |>)
      with ((u <| DeviceObject := Device |>) <| RefCount := RefCount u + 1 |>).
    cbv beta iota zeta. rewrite HD. opt. eexists _, _, _. split; [done|].
    split; [split; [intros _; exact Hwf'|apply HG]|]. simpl. lia.
  - destruct (Hupd u) as [Hwf' HD]; [done|done|split; [done|]; by exists q, Q|].
    cbv beta iota zeta. rewrite HD. opt. eexists _, _, _. split; [done|].
    split; [split; [intros _; exact Hwf'|apply HG]|]. simpl. lia.
Qed.

(** The unit of a disk: the first slot whose unit has the device. *)
Definition disk_unit (E : SPD_DEVICE_EXTENSION) (Device p : Z) : Prop :=
  find_by_device (Z.to_nat (StorageUnitCapacity E)) 0 E Device = Some p.

(** Looking up the unit of a disk and releasing it leaves all as it was. *)
Lemma reference_by_device_spec E Device :
  ext_wf E refs ->
  (disk_unit E Device 0 /\ SpdStorageUnitReferenceByDevice E Device = Some (0, E)) \/
  exists p u, disk_unit E Device p /\ in_table E p u /\ DeviceObject u = Device /\
    SpdStorageUnitReferenceByDevice E Device = Some (p, referenced E p u).
Proof using Hfew.
  intros Hwf. unfold SpdStorageUnitReferenceByDevice, disk_unit.
  destruct (find_by_device_wf E refs Device (Z.to_nat (StorageUnitCapacity E)) 0 Hwf)
    as (p & -> & [->|(Hne & i & u & Hi & Hu & HD)]); [lia|by left|]. opt.
  assert (in_table E p u) as Hin by (split_and!; [done|by eapply list_elem_of_lookup_2|done]).
  right. exists p, u. rewrite (proj2 (Z.eqb_neq 0 p)) by done. cbn [negb]. rewrite Hu. opt.
  pose proof (in_table_count E refs Hwf Hfew p u Hin). rewrite u32_small by lia. done.
Qed.

(** What is done before the port driver's handler. *)
Lemma pnp_before_spec G Device MinorFunction a Caps :
  global_wf G refs ->
  exists Caps' Provision G' cs,
    pnp_before DBG G Device MinorFunction a Caps = Some (Caps', Provision, G', cs) /\
    global_wf G' refs /\ Shared G' = Shared G /\
    (MinorFunction <> IRP_MN_REMOVE_DEVICE -> Provision = None) /\
    (MinorFunction = IRP_MN_REMOVE_DEVICE -> G' = G /\ cs = [] /\ Caps' = Caps /\
       (SpdGlobalDeviceExtension G <> 0 -> forall p u,
          disk_unit (Extension G) Device p -> in_table (Extension G) p u ->
          Provision = Some (Guid (StorageUnitParams u), OwnerProcessId u))).
Proof using Hfew.
  intros HG. pose proof HG as [Hwf _]. unfold pnp_before.
  destruct (Z.eqb_spec MinorFunction IRP_MN_QUERY_CAPABILITIES) as [->|Hq].
  { unfold SpdDeviceExtensionAcquire.
    destruct (0 =? SpdGlobalDeviceExtension G) eqn:E0; cbn [negb].
    - eexists _, _, G, _. split; [done|]. split; [done|]. split_and!; done.
    - rewrite E0. cbn [negb]. eexists _, _, _, _. split; [done|]. split; [exact HG|].
      split_and!; [simpl; lia|done|done]. }
  destruct (Z.eqb_spec MinorFunction IRP_MN_START_DEVICE) as [->|Hs].
  { destruct (set_device_wf G Device a HG) as (Result & G' & cs & -> & HG' & HS). opt.
    eexists _, _, G', _. split; [done|]. split_and!; done. }
  destruct (Z.eqb_spec MinorFunction IRP_MN_REMOVE_DEVICE) as [->|Hr].
  2: { eexists _, _, G, _. split; [done|]. split_and!; done. }
  unfold SpdStorageUnitGlobalReferenceByDevice, SpdDeviceExtensionAcquire.
  destruct (Z.eqb_spec 0 (SpdGlobalDeviceExtension G)) as [E0|E0]; cbn [negb].
  { rewrite Z.eqb_refl. opt. rewrite Z.eqb_refl. cbn [negb]. eexists _, _, G, _. split; [done|].
    split_and!; try done. }
  rewrite (proj2 (Z.eqb_neq 0 _)) by done. specialize (Hwf (not_eq_sym E0)).
  change (Extension (G <| Shared := Shared G + 1 |>)) with (Extension G).
  assert ((SpdDeviceExtensionRelease
    ((G <| Shared := Shared G + 1 |>) <| Extension := Extension G |>)) = G) as HRel.
  { unfold SpdDeviceExtensionRelease. destruct G. simpl. by rewrite Z.add_simpl_r. }
  destruct (reference_by_device_spec (Extension G) Device Hwf)
    as [[Hd ->]|(p & u & Hd & Hin & HD & ->)]; opt.
  - rewrite Z.eqb_refl. cbn [negb]. rewrite HRel. eexists _, _, G, _. split; [done|].
    split_and!; try done. intros _. split_and!; try done. intros _ p u Hd' (Hp & _).
    unfold disk_unit in *. congruence.
  - rewrite (proj2 (Z.eqb_neq 0 p)) by (by destruct Hin). cbn [negb].
    assert (Units (Extension ((G <| Shared := Shared G + 1 |>) <| Extension :=
      referenced (Extension G) p u |>)) !! p = Some (u <| RefCount := RefCount u + 1 |>)) as ->
      by apply lookup_insert_eq. opt.
    unfold SpdStorageUnitGlobalDereference.
    change (Extension ((G <| Shared := Shared G + 1 |>) <| Extension :=
      referenced (Extension G) p u |>)) with (referenced (Extension G) p u).
    rewrite (dereference_referenced _ _ _ Hwf Hin). opt.
    exists Caps, (Some (Guid (StorageUnitParams u), OwnerProcessId u)), G, [].
    split; [by do 3 f_equal|].
    split_and!; try done. intros _. split_and!; try done. intros _ p' u' Hd' (_ & _ & Hu').
    unfold disk_unit in *. assert (p' = p) as -> by congruence.
    destruct Hin as (_ & _ & Hu). assert (u' = u) as -> by congruence. done.
Qed.
End Pnp.

(** After an unprovision no unit of the table has the GUID and belongs to the process. *)
Lemma unprovision_gone DBG E refs g pid :
  ext_wf E refs -> Z.of_nat (length refs) < 2 ^ 32 - 2 ->
  exists r E' eff, SpdStorageUnitUnprovision DBG E (Some g) 0 pid = Some (r, E', eff) /\
    ext_wf E' refs /\
    forall p u, in_table E' p u -> Guid (StorageUnitParams u) = g -> OwnerProcessId u <> pid.
Proof.
  intros Hwf Hfew. destruct (unprovision_spec DBG E refs (Some g) 0 pid Hwf Hfew)
    as (r & E' & eff & HU & Hwf' & Hd). exists r, E', eff. split_and!; [done..|].
  intros p u (Hp & Hslot & Hu) Hg Ho.
  destruct Hd as [(_ & Hno & -> & _)|(i & p0 & u0 & (Hi & Hz & u1 & Hu1 & Hg1) & Hu0 & Hd)].
  - apply list_elem_of_lookup in Hslot as [i Hi]. apply (Hno i p). split_and!; try done. by exists u.
  - assert (u1 = u0) as -> by congruence.
    assert (p0 ∈ StorageUnits E) as Hin0 by by eapply list_elem_of_lookup_2.
    destruct Hd as [(_ & Hno & -> & _)|(_ & Ho0 & HS & _ & HU' & _)].
    + assert (p = p0) as -> by (apply (wf_guid _ _ Hwf p p0 u u0); [done..|congruence]). congruence.
    + assert (p <> p0) as Hne.
      { intros ->. rewrite HS in Hslot. apply list_elem_of_lookup in Hslot as [j Hj].
        destruct (decide (j = i)) as [->|].
        - apply list_lookup_insert_Some in Hj as [(_ & <- & _)|[? _]]; done.
        - rewrite list_lookup_insert_ne in Hj by done. by pose proof (wf_inj _ _ Hwf _ _ _ Hj Hi Hz). }
      apply Hne. rewrite HU' in Hu by done.
      assert (p ∈ StorageUnits E) as Hin.
      { rewrite HS in Hslot. apply list_elem_of_lookup in Hslot as [j Hj].
        apply list_lookup_insert_Some in Hj as [(_ & <- & _)|[_ Hj]]; [done|].
        by eapply list_elem_of_lookup_2. }
      apply (wf_guid _ _ Hwf p p0 u u0); [done..|congruence].
Qed.

(** [SpdDispatchPnp] never faults and gives the result of the port driver's handler; it
    releases the global resource as often as it acquires it, on every path, and keeps the
    table well formed, if the port driver's handler does.  The removal of the disk of a unit
    unprovisions that unit: afterwards no unit of the table has its GUID and belongs to its
    process. *)
Theorem dispatch_pnp_removes DBG StorPortDispatchPnp refs G Device MinorFunction a Caps :
  global_wf G refs -> Z.of_nat (length refs) < 2 ^ 32 - 2 ->
  (forall G1, global_wf G1 refs ->
     global_wf (StorPortDispatchPnp G1).2 refs /\ Shared (StorPortDispatchPnp G1).2 = Shared G1) ->
  exists G1 Result Caps' G' cs,
    SpdDispatchPnp DBG StorPortDispatchPnp G Device MinorFunction a Caps
      = Some (Result, Caps', G', cs) /\
    Result = (StorPortDispatchPnp G1).1 /\ global_wf G' refs /\ Shared G' = Shared G /\
    (MinorFunction = IRP_MN_REMOVE_DEVICE -> G1 = G /\
       forall p u, SpdGlobalDeviceExtension G <> 0 ->
         disk_unit (Extension G) Device p -> in_table (Extension G) p u ->
         OwnerProcessId u <> 0xffffffff -> SpdGlobalDeviceExtension G' <> 0 ->
         forall p' u', in_table (Extension G') p' u' ->
           Guid (StorageUnitParams u') = Guid (StorageUnitParams u) ->
           OwnerProcessId u' <> OwnerProcessId u).
Proof.
  intros HG Hfew HS. unfold SpdDispatchPnp.
  destruct (pnp_before_spec DBG refs Hfew G Device MinorFunction a Caps HG)
    as (Caps' & Provision & G1 & cs & -> & HG1 & HS1 & Hnr & Hr). opt.
  destruct (HS G1 HG1) as [HG2 HS2]. exists G1.
  destruct (StorPortDispatchPnp G1) as [Result G2]. cbn [fst snd] in *.
  destruct (Z.eqb_spec MinorFunction IRP_MN_REMOVE_DEVICE) as [->|Hne]; cbn [andb].
  2: { destruct (default _ Provision). eexists _, _, G2, _. split; [done|].
       split_and!; try done; congruence. }
  destruct (Hr eq_refl) as (-> & -> & -> & Hprov). clear Hnr.
  destruct Provision as [[g pid]|]; cbn [default from_option id].
  2: { cbn [negb]. change (0xffffffff =? 0xffffffff) with true. cbn [negb].
       eexists _, _, G2, _. split; [done|]. split_and!; [done|done|congruence|].
       intros _. split; [done|]. intros p u Hext Hd Hin. by specialize (Hprov Hext p u Hd Hin). }
  destruct (Z.eqb_spec 0xffffffff pid) as [<-|Hpid]; cbn [negb].
  { eexists _, _, G2, _. split; [done|]. split_and!; [done|done|congruence|].
    intros _. split; [done|]. intros p u Hext Hd Hin Ho.
    specialize (Hprov Hext p u Hd Hin). injection Hprov as _ Hprov. congruence. }
  unfold SpdDeviceExtensionAcquire.
  destruct (Z.eqb_spec 0 (SpdGlobalDeviceExtension G2)) as [E0|E0]; cbn [negb].
  { rewrite Z.eqb_refl. cbn [negb]. eexists _, _, G2, _. split; [done|]. split_and!; [done|done|congruence|].
    intros _. split; [done|]. intros p u Hext Hd Hin Ho Hext'. congruence. }
  rewrite (proj2 (Z.eqb_neq 0 _)) by done. cbn [negb].
  pose proof HG2 as [Hwf2 Hreg2]. specialize (Hwf2 (not_eq_sym E0)).
  change (Extension (G2 <| Shared := Shared G2 + 1 |>)) with (Extension G2).
  destruct (unprovision_gone DBG (Extension G2) refs g pid Hwf2 Hfew)
    as (r & E' & eff & -> & Hwf' & Hgone). opt.
  eexists _, _, _, _. split; [done|]. split; [done|].
  split; [split; [by intros _|exact Hreg2]|]. split; [simpl; lia|].
  intros _. split; [done|]. intros p u Hext Hd Hin Ho Hext' p' u' Hin' Hg.
  specialize (Hprov Hext p u Hd Hin). injection Hprov as -> ->. by apply (Hgone p' u').
Qed.

(** The example unit with a disk at the address 0x700, which is removed. *)
Definition example_disk : GLOBAL :=
  mkGlobal 0x8000 16 0 true
    (example_E1 <| Units := (fun u => u <| DeviceObject := 0x700 |>) <$> Units example_E1 |>).

Lemma dispatch_pnp_removes_witness :
  exists Caps G', SpdDispatchPnp true (fun G => (STATUS_SUCCESS, G)) example_disk 0x700
      IRP_MN_REMOVE_DEVICE (mkScsiAddress 0 0 0 0 0 0) (mkCapabilities false false false)
    = Some (STATUS_SUCCESS, Caps, G', []) /\ Shared G' = 0 /\ global_wf G' [] /\
    StorageUnitCount (Extension G') = 0.
Proof.
  assert (global_wf example_disk []) as HG.
  { split; [|reflexivity]. intros _. destruct example_E1_unit as (u & q & E1 & E2 & _).
    assert (in_table example_E1 4096 u) as Hin.
    { split; [discriminate|]. split; [|rewrite E1; reflexivity].
      apply list_elem_of_lookup. exists 0%nat. vm_compute. reflexivity. }
    destruct (in_table_ok example_E1 [] example_E1_wf 4096 u Hin) as (Hd & q' & Q & Hq & Ha).
    assert (Extension example_disk = example_E1 <| Units := <[4096 := u <| DeviceObject := 0x700 |>]>
      (Units example_E1) |>) as ->.
    { unfold example_disk. simpl. rewrite E1, map_fmap_singleton. by rewrite insert_singleton_eq. }
    apply (wf_update_unit example_E1 [] example_E1_wf ltac:(reflexivity) 4096 u _ Hin);
      [reflexivity|reflexivity|].
    split; [exact Hd|]. exists q', Q. split; [exact Hq|exact Ha]. }
  destruct (dispatch_pnp_removes true (fun G => (STATUS_SUCCESS, G)) [] example_disk 0x700
    IRP_MN_REMOVE_DEVICE (mkScsiAddress 0 0 0 0 0 0) (mkCapabilities false false false) HG)
    as (G1 & r & Caps & G' & cs & H & Hr & HG' & HS & _); [reflexivity|by intros|].
  simpl in Hr. subst r.
  assert (cs = [] /\ StorageUnitCount (Extension G') = 0) as [-> H0].
  { pose proof H as H'. vm_compute in H'. injection H' as _ <- <-. split; reflexivity. }
  exists Caps, G'. split; [exact H|]. split; [exact HS|]. split; [exact HG'|exact H0].
Defined.
