(* ===== verification/Mbr.v ===== *)
(** * Partition tables: [shared/mbr.c]

    [SpdDefinePartitionTable] writes a master boot record; the properties read it back. *)

From S2P Require Import Prelude Wdk IoctlTypes.

(** Windows defaults: sectors per track, heads per cylinder. *)
Definition SPT : Z := 63.
Definition HPC : Z := 255.

Definition LBA_TO_CHS (lba : Z) : Z * Z * Z :=
  (lba / (HPC * SPT), (lba / SPT) mod HPC, lba mod SPT + 1).

Definition CHS_TO_MBR (chs : Z * Z * Z) : list Z :=
  let '(c, h, s) := chs in
  [u8 h; u8 ((s .& 0x3f) .| ((c ≫ 2) .& 0xc0)); u8 (c .& 0xff)].

Record SPD_PARTITION := mkPartition {
  Type_ : Z; Active : Z; BlockAddress : Z; BlockCount : Z
}.

(** The initialized record, of 512 bytes. *)
Definition SpdMbr : list Z :=
  [0xCD; 0x18; 0xF4; 0xEB; 0xFD] ++ replicate 505 0 ++ [0x55; 0xAA].

(** The first loop: are all of the partitions in range?  [I] is the next index. *)
Fixpoint partitions_check (n I : nat) (Partitions : list SPD_PARTITION) : option bool :=
  match n with
  | O => Some true
  | S n =>
      P ← Partitions !! I;
      let EndBlockAddress := u64 (BlockAddress P + BlockCount P) in
      if (EndBlockAddress <=? BlockAddress P) || (EndBlockAddress >? 0xffffffff)
      then Some false else partitions_check n (S I) Partitions
  end.

Definition clamp_chs (chs : Z * Z * Z) : Z * Z * Z :=
  if 1023 <? chs.1.1 then (1023, 254, 63) else chs.

(** The bytes of an entry, in the order of [struct SPD_MBR_PARTITION]. *)
Definition partition_entry (P : SPD_PARTITION) : list Z :=
  let EndBlockAddress := u64 (BlockAddress P + BlockCount P) in
  [Active P] ++ CHS_TO_MBR (clamp_chs (LBA_TO_CHS (u32 (BlockAddress P)))) ++
  [Type_ P] ++ CHS_TO_MBR (clamp_chs (LBA_TO_CHS (u32 EndBlockAddress))) ++
  le32 (BlockAddress P) ++ le32 (BlockCount P).

(** The second loop, over the entries at the offset 446. *)
Fixpoint partitions_write (n I : nat) (Partitions : list SPD_PARTITION) (Buffer : list Z)
    : option (list Z) :=
  match n with
  | O => Some Buffer
  | S n =>
      P ← Partitions !! I;
      Buffer ← buf_write (446 + 16 * I) (partition_entry P) Buffer;
      partitions_write n (S I) Partitions Buffer
  end.

Definition SpdDefinePartitionTable (Partitions : list SPD_PARTITION) (Count : Z)
    (Buffer : list Z) : option (Z * list Z) :=
  if 4 <? Count then Some (ERROR_INVALID_PARAMETER, Buffer)
  else
    ok ← partitions_check (Z.to_nat Count) 0 Partitions;
    if negb ok then Some (ERROR_INVALID_PARAMETER, Buffer)
    else
      Buffer ← buf_write 0 SpdMbr Buffer;
      Buffer ← partitions_write (Z.to_nat Count) 0 Partitions Buffer;
      Some (ERROR_SUCCESS, Buffer).

(** ** Reading the record back *)

Definition get_le32 (bs : list Z) : Z :=
  match bs with
  | [b0; b1; b2; b3] => b0 + b1 * 2 ^ 8 + b2 * 2 ^ 16 + b3 * 2 ^ 24
  | _ => 0
  end.

(** The block at a CHS address, as a reader of the record computes it. *)
Definition chs_block (bs : list Z) : Z :=
  match bs with
  | [h; sc; c] => ((sc / 64 * 256 + c) * 255 + h) * 63 + (sc mod 64 - 1)
  | _ => 0
  end.

(** The first block that a CHS address can not tell, 1024 cylinders. *)
Definition chs_max : Z := 1024 * 255 * 63.
Definition chs_clamped (lba : Z) : Z := if lba <? chs_max then lba else chs_max - 1.

(** The entry [I]: active, type, first and last CHS address, first block, number of blocks. *)
Definition read_entry (I : nat) (Buffer : list Z) : option (Z * Z * Z * Z * Z * Z) :=
  match buf_read (446 + 16 * I) 16 Buffer with
  | Some [a; f0; f1; f2; t; l0; l1; l2; b0; b1; b2; b3; n0; n1; n2; n3] =>
      Some (a, t, chs_block [f0; f1; f2], chs_block [l0; l1; l2],
            get_le32 [b0; b1; b2; b3], get_le32 [n0; n1; n2; n3])
  | _ => None
  end.

Definition partition_wf (P : SPD_PARTITION) : Prop :=
  is_byte (Type_ P) /\ is_byte (Active P) /\
  0 <= BlockAddress P < 2 ^ 64 /\ 0 <= BlockCount P < 2 ^ 64.

(** The partition has a block and ends before the block 2^32 - 1. *)
Definition partition_fits (P : SPD_PARTITION) : Prop :=
  0 < BlockCount P /\ BlockAddress P + BlockCount P <= 2 ^ 32 - 1.

(** ** Lemmas *)

Lemma land_c0 x : is_byte x -> x .& 0xc0 = x / 64 * 64.
Proof.
  intros Hx.
  assert (forallb (fun n => let x := Z.of_nat n in (x .& 0xc0) =? x / 64 * 64) (seq 0 256) = true)
    as H by (vm_compute; reflexivity).
  rewrite forallb_forall in H. specialize (H (Z.to_nat x)).
  rewrite in_seq, Z2Nat.id in H by blia. apply Z.eqb_eq, H. blia.
Qed.

Lemma chs_roundtrip lba :
  0 <= lba < 2 ^ 32 -> chs_block (CHS_TO_MBR (clamp_chs (LBA_TO_CHS lba))) = chs_clamped lba.
Proof.
  intros Hl. unfold clamp_chs, LBA_TO_CHS, chs_clamped, chs_max, HPC, SPT. simpl fst.
  destruct (1023 <? lba / (255 * 63)) eqn:Ec; zify_bools.
  - rewrite (proj2 (Z.ltb_ge _ _)) by dlia. vm_compute. reflexivity.
  - rewrite (proj2 (Z.ltb_lt _ _)) by dlia.
    set (c := lba / (255 * 63)) in *. set (h := (lba / 63) mod 255). set (s := lba mod 63 + 1).
    assert (0 <= c <= 1023) as Hc by (subst c; dlia).
    assert (0 <= h < 255 /\ 1 <= s <= 63) as [Hh Hs] by (subst h s; split; dlia).
    assert (lba = (c * 255 + h) * 63 + (s - 1)) as Hlba by (subst c h s; dlia).
    clearbody c h s. unfold CHS_TO_MBR, chs_block.
    assert (s .& 0x3f = s) as ->.
    { change 0x3f with (Z.ones 6). rewrite Z.land_ones by lia. apply Z.mod_small. lia. }
    rewrite Z.shiftr_div_pow2, land_c0 by (unfold is_byte; dlia || lia).
    assert (s .| (c / 2 ^ 2 / 64 * 64) = c / 256 * 64 + s) as ->.
    { rewrite Z.lor_comm. rewrite (lor_disjoint_add 6) by dlia. dlia. }
    rewrite land_ff, !u8_small by (unfold is_byte; dlia || lia).
    rewrite Hlba. rewrite Z.div_add_l, (Z.div_small s), Z.add_0_r by lia.
    rewrite (Z.add_comm (c / 256 * 64) s), Z.mod_add, (Z.mod_small s) by lia.
    dlia.
Qed.

Lemma le32_get v : 0 <= v < 2 ^ 32 ->
  get_le32 [byte_of 0 v; byte_of 8 v; byte_of 16 v; byte_of 24 v] = v.
Proof. intros Hv. unfold get_le32. rewrite !byte_of_div by lia. dlia. Qed.

Lemma partition_entry_length P : length (partition_entry P) = 16%nat.
Proof. unfold partition_entry. by destruct (clamp_chs _) as [[??]?], (clamp_chs _) as [[??]?]. Qed.

Lemma partitions_check_spec n I Ps :
  Forall partition_wf Ps -> (I + n <= length Ps)%nat ->
  exists b, partitions_check n I Ps = Some b /\
    (b = true <-> Forall partition_fits (take n (drop I Ps))).
Proof.
  intros Hwf. revert I. induction n as [|n IH]; intros I Hn; cbn [partitions_check].
  - exists true. by rewrite take_0.
  - destruct (lookup_lt_is_Some_2 Ps I) as [P HP]; [lia|]. rewrite HP. opt.
    pose proof (Forall_lookup_1 _ _ _ _ Hwf HP) as (_ & _ & HA & HC).
    rewrite (drop_S Ps P I HP). cbn [take].
    setoid_rewrite Forall_cons. unfold partition_fits at 1.
    destruct (_ || _) eqn:Eb; opt.
    + exists false. split; [done|]. split; [done|]. intros [[H1 H2] _].
      rewrite u64_small in Eb by lia. apply orb_true_iff in Eb. lia.
    + apply orb_false_iff in Eb as [E1 E2]. zify_bools.
      destruct (IH (S I)) as (b & -> & Hb); [lia|]. exists b. split; [done|]. rewrite Hb.
      assert (u64 (BlockAddress P + BlockCount P) = BlockAddress P + BlockCount P) as Hs.
      { unfold u64 in *. dlia. }
      rewrite Hs in *. intuition lia.
Qed.

Lemma read_entry_written P I B B' :
  partition_wf P -> partition_fits P ->
  buf_write (446 + 16 * I) (partition_entry P) B = Some B' ->
  read_entry I B' = Some (Active P, Type_ P, chs_clamped (BlockAddress P),
                          chs_clamped (BlockAddress P + BlockCount P),
                          BlockAddress P, BlockCount P).
Proof.
  intros (_ & _ & HA & HC) [H1 H2] Hw. apply buf_read_write_same in Hw.
  rewrite partition_entry_length in Hw. unfold read_entry. rewrite Hw.
  unfold partition_entry. rewrite u64_small, !u32_small by lia.
  pose proof (chs_roundtrip (BlockAddress P) ltac:(lia)) as R1.
  pose proof (chs_roundtrip (BlockAddress P + BlockCount P) ltac:(lia)) as R2.
  destruct (clamp_chs (LBA_TO_CHS (BlockAddress P))) as [[c h] s].
  destruct (clamp_chs (LBA_TO_CHS (BlockAddress P + BlockCount P))) as [[c' h'] s'].
  unfold CHS_TO_MBR, le32 in *. cbn [app]. rewrite R1, R2, !le32_get by lia. done.
Qed.

Lemma buf_read_same off n B B' :
  length B' = length B -> (forall i, (off <= i < off + n)%nat -> B' !! i = B !! i) ->
  buf_read off n B' = buf_read off n B.
Proof.
  intros Hl H. unfold buf_read. rewrite Hl. case_decide; [|done]. f_equal.
  apply list_eq. intros i. destruct (decide (i < n)%nat).
  - rewrite !lookup_take_lt, !lookup_drop by done. apply H. lia.
  - by rewrite !lookup_take_ge by lia.
Qed.

Lemma partitions_write_spec n I Ps B :
  Forall partition_wf Ps -> Forall partition_fits (take n (drop I Ps)) ->
  (I + n <= length Ps)%nat -> (I + n <= 4)%nat -> length B = 512%nat ->
  exists B', partitions_write n I Ps B = Some B' /\ length B' = 512%nat /\
    (forall i, (i < 446 + 16 * I \/ 446 + 16 * (I + n) <= i)%nat -> B' !! i = B !! i) /\
    (forall J P, (I <= J < I + n)%nat -> Ps !! J = Some P ->
       read_entry J B' = Some (Active P, Type_ P, chs_clamped (BlockAddress P),
         chs_clamped (BlockAddress P + BlockCount P), BlockAddress P, BlockCount P)).
Proof.
  intros Hwf. revert I B. induction n as [|n IH]; intros I B Hfit Hn H4 HB; cbn [partitions_write].
  - exists B. split_and!; try done. intros. lia.
  - destruct (lookup_lt_is_Some_2 Ps I) as [P HP]; [lia|]. rewrite HP. opt.
    rewrite (drop_S Ps P I HP) in Hfit. cbn [take] in Hfit. apply Forall_cons in Hfit as [Hf Hfit].
    pose proof (partition_entry_length P) as HLe.
    destruct (proj2 (buf_write_is_Some (446 + 16 * I) (partition_entry P) B)) as [B1 HB1]; [lia|].
    rewrite HB1. opt. pose proof (buf_write_length _ _ _ _ HB1) as HL1.
    destruct (IH (S I) B1) as (B' & -> & HL & Hout & Hin); [done|lia..|].
    exists B'. split_and!; try done.
    + intros i Hi. rewrite Hout by lia. apply (buf_write_lookup_ne _ _ _ _ _ HB1). lia.
    + intros J P' HJ HP'. destruct (decide (J = I)) as [->|]; [|apply (Hin J P'); [lia|done]].
      assert (P' = P) as -> by congruence.
      rewrite <- (read_entry_written P I B B1); [|by eapply Forall_lookup_1|done..].
      unfold read_entry. rewrite (buf_read_same _ _ B1 B'); [done|lia|].
      intros i Hi. apply Hout. lia.
Qed.

(** ** Properties *)

(** C37: [SpdDefinePartitionTable] refuses more than four partitions, and partitions without
    blocks or that end past the block 2^32 - 1, wrap-around of their end included, and then
    leaves the buffer alone.  Otherwise the record has its boot code, its magic number, and
    the partitions in their order, that read back as they were given; the other entries are
    empty.  The CHS address of the first block is right up to the largest one that the format
    has.  The address that the record gives for the last block is not: it is the one of the block
    after it, because the code converts the end of the partition (mbr.c:123). *)
Theorem mbr_reads_back Ps Count Buffer :
  Forall partition_wf Ps -> 0 <= Count <= Z.of_nat (length Ps) -> length Buffer = 512%nat ->
  let n := Z.to_nat Count in
  let ok := Count <= 4 /\ Forall partition_fits (take n Ps) in
  (~ ok /\ SpdDefinePartitionTable Ps Count Buffer = Some (ERROR_INVALID_PARAMETER, Buffer)) \/
  (ok /\ exists B, SpdDefinePartitionTable Ps Count Buffer = Some (ERROR_SUCCESS, B) /\
     length B = 512%nat /\ take 446 B = [0xCD; 0x18; 0xF4; 0xEB; 0xFD] ++ replicate 441 0 /\
     drop 510 B = [0x55; 0xAA] /\
     (forall I P, (I < n)%nat -> Ps !! I = Some P ->
        read_entry I B = Some (Active P, Type_ P, chs_clamped (BlockAddress P),
          chs_clamped (BlockAddress P + BlockCount P), BlockAddress P, BlockCount P)) /\
     (forall I, (n <= I < 4)%nat -> buf_read (446 + 16 * I) 16 B = Some (replicate 16 0))).
Proof.
  intros Hwf HC HB n ok. unfold SpdDefinePartitionTable.
  destruct (4 <? Count) eqn:E4; zify_bools; [left; split; [|done]; intros [? _]; lia|].
  destruct (partitions_check_spec n 0 Ps Hwf) as (b & Hb & Hfit); [lia|].
  fold n. rewrite Hb. opt. rewrite drop_0 in Hfit. destruct b; cbn [negb].
  2: { left. split; [|done]. intros [_ H]. apply Hfit in H. done. }
  right. split; [split; [done|by apply Hfit]|].
  assert (buf_write 0 SpdMbr Buffer = Some SpdMbr) as ->.
  { rewrite buf_write_Some by (rewrite HB; vm_compute; lia).
    rewrite drop_ge by (rewrite HB; vm_compute; lia). by rewrite take_0, app_nil_r. }
  opt. destruct (partitions_write_spec n 0 Ps SpdMbr Hwf) as (B & -> & HL & Hout & Hin);
    [rewrite drop_0; by apply Hfit|lia|lia|done|]. opt.
  exists B. split; [done|]. split; [done|].
  assert (take 446 B = take 446 SpdMbr /\ drop 510 B = drop 510 SpdMbr) as [-> ->].
  { split; apply list_eq; intros i.
    - destruct (decide (i < 446)%nat); [|by rewrite !lookup_take_ge by lia].
      rewrite !lookup_take_lt by done. apply Hout. lia.
    - rewrite !lookup_drop. apply Hout. lia. }
  split; [vm_compute; reflexivity|]. split; [vm_compute; reflexivity|].
  split; [intros I P HI; apply Hin; lia|].
  intros I HI. rewrite (buf_read_same _ _ SpdMbr B HL) by (intros i Hi; apply Hout; lia).
  assert (I = 0 \/ I = 1 \/ I = 2 \/ I = 3)%nat as [->|[->|[->| ->]]] by lia;
    vm_compute; reflexivity.
Qed.

(** One partition of a disk of 2^20 blocks. *)
Lemma mbr_reads_back_witness :
  exists B, SpdDefinePartitionTable [mkPartition 7 0x80 2048 1046528] 1 (replicate 512 1)
      = Some (ERROR_SUCCESS, B) /\
    read_entry 0 B = Some (0x80, 7, 2048, 1048576, 2048, 1046528).
Proof.
  destruct (mbr_reads_back [mkPartition 7 0x80 2048 1046528] 1 (replicate 512 1))
    as [[Hn _]|[_ (B & HB & _ & _ & _ & Hr & _)]].
  - apply Forall_singleton. repeat split; vm_compute; congruence.
  - vm_compute. split; discriminate.
  - reflexivity.
  - exfalso. apply Hn. split; [vm_compute; discriminate|]. apply Forall_singleton.
    split; vm_compute; congruence.
  - exists B. split; [exact HB|]. apply (Hr 0%nat _ ltac:(vm_compute; lia) eq_refl).
Defined.
