(* ===== verification/StrToInt.v ===== *)
(** * Numbers in text: [shared/strtoint.c]

    [strtoint] and [wcstoint] differ only in the type of the characters; a text is the list of
    its characters, the terminating zero among them.  Reading past the end, and the overflow of
    the signed 64-bit value, are [None]. *)

From S2P Require Import Prelude.

(** A signed 64-bit result; the overflow of one is undefined. *)
Definition long_long (v : Z) : option Z :=
  if (- 2 ^ 63 <=? v) && (v <? 2 ^ 63) then Some v else None.

(** The sign. *)
Definition toint_sign (p : list Z) (is_signed : bool) : option (Z * list Z) :=
  if is_signed then
    c ← p !! 0%nat;
    if 43 =? c then Some (1, tail p)
    else if 45 =? c then Some (-1, tail p)
    else Some (1, p)
  else Some (1, p).

(** The base, which a prefix tells if it is 0. *)
Definition toint_base (p : list Z) (base : Z) : option (Z * list Z) :=
  if 0 =? base then
    c ← p !! 0%nat;
    if 48 =? c then
      c1 ← p !! 1%nat;
      if (120 =? c1) || (88 =? c1) then Some (16, tail (tail p)) else Some (8, tail p)
    else Some (10, p)
  else Some (base, p).

Definition maxdig (base : Z) : Z := if 10 <? base then 57 else base - 1 + 48.
Definition maxalp (base : Z) : Z := if 10 <? base then base - 1 - 10 + 97 else 0.

(** The loop over the digits: the value and the rest of the text. *)
Fixpoint toint_loop (p : list Z) (base v : Z) : option (Z * list Z) :=
  match p with
  | [] => None
  | c :: p' =>
      if c =? 0 then Some (v, p)
      else if (48 <=? c) && (c <=? maxdig base) then
        v ← long_long (base * v + (c - 48)); toint_loop p' base v
      else
        let c := c .| 0x20 in
        if (97 <=? c) && (c <=? maxalp base) then
          v ← long_long (base * v + (c - 97) + 10); toint_loop p' base v
        else Some (v, p)
  end.

(** [strtoint]: the value and [*endp]. *)
Definition strtoint (p : list Z) (base : Z) (is_signed : bool) : option (Z * list Z) :=
  '(sign, p) ← toint_sign p is_signed;
  '(base, p) ← toint_base p base;
  '(v, p) ← toint_loop p base 0;
  Some (sign * v, p).

(** [wcstoint] is the same text with wide characters. *)
Definition wcstoint (p : list Z) (base : Z) (is_signed : bool) : option (Z * list Z) :=
  '(sign, p) ← toint_sign p is_signed;
  '(base, p) ← toint_base p base;
  '(v, p) ← toint_loop p base 0;
  Some (sign * v, p).

(** ** Numerals *)

(** The characters of a digit: a decimal digit, or a letter of either case. *)
Definition digit_char (d c : Z) : Prop :=
  (d < 10 /\ c = 48 + d) \/ (10 <= d /\ (c = 87 + d \/ c = 55 + d)).

(** The numeral [cs] of the digits [ds] in a base. *)
Definition numeral (base : Z) (ds cs : list Z) : Prop :=
  Forall2 digit_char ds cs /\ Forall (fun d => 0 <= d < base) ds.

Definition digits_value (base : Z) (ds : list Z) : Z :=
  fold_left (fun v d => base * v + d) ds 0.

(** The text after the numeral does not go on with a digit. *)
Definition no_digit (base : Z) (p : list Z) : Prop :=
  exists c p', p = c :: p' /\ forall d, 0 <= d < base -> ~ digit_char d c.

(** A sign, and what it does. *)
Definition sign_text (is_signed : bool) (s : Z) (t : list Z) : Prop :=
  (s = 1 /\ (t = [] \/ is_signed = true /\ t = [43])) \/ (s = -1 /\ is_signed = true /\ t = [45]).

(** The prefix that goes with a base: none if the caller says what the base is; otherwise that
    of the notation of C, where a decimal numeral starts with another digit than 0, and an
    octal one without more digits is not followed by an x. *)
Definition base_text (arg base : Z) (t ds p : list Z) : Prop :=
  (arg = base /\ 2 <= base <= 36 /\ t = []) \/
  (arg = 0 /\ base = 16 /\ (t = [48; 120] \/ t = [48; 88])) \/
  (arg = 0 /\ base = 8 /\ t = [48] /\
     (ds = [] -> p !! 0%nat <> Some 120 /\ p !! 0%nat <> Some 88)) \/
  (arg = 0 /\ base = 10 /\ t = [] /\ exists d ds', ds = d :: ds' /\ d <> 0).

(** ** Lemmas *)

Lemma lor_20 c : 0 <= c < 256 -> c .| 0x20 = if Z.testbit c 5 then c else c + 32.
Proof.
  intros Hc.
  assert (forallb (fun n => let c := Z.of_nat n in
    (c .| 0x20) =? (if Z.testbit c 5 then c else c + 32)) (seq 0 256) = true) as H
    by (vm_compute; reflexivity).
  rewrite forallb_forall in H. specialize (H (Z.to_nat c)).
  rewrite in_seq, Z2Nat.id in H by lia. apply Z.eqb_eq, H. lia.
Qed.

Lemma lor_20_lower c : 97 <= c <= 122 -> c .| 0x20 = c.
Proof.
  intros Hc. rewrite lor_20 by lia.
  assert (forallb (fun n => Z.testbit (Z.of_nat n) 5) (seq 97 26) = true) as H
    by (vm_compute; reflexivity).
  rewrite forallb_forall in H. specialize (H (Z.to_nat c)).
  rewrite in_seq, Z2Nat.id in H by lia. by rewrite H by lia.
Qed.

Lemma lor_20_upper c : 65 <= c <= 90 -> c .| 0x20 = c + 32.
Proof.
  intros Hc. rewrite lor_20 by lia.
  assert (forallb (fun n => negb (Z.testbit (Z.of_nat n) 5)) (seq 65 26) = true) as H
    by (vm_compute; reflexivity).
  rewrite forallb_forall in H. specialize (H (Z.to_nat c)).
  rewrite in_seq, Z2Nat.id in H by lia. specialize (H ltac:(lia)).
  apply negb_true_iff in H. by rewrite H.
Qed.

(** Only letters become lower case letters. *)
Lemma lor_20_inv c : 97 <= c .| 0x20 <= 122 -> c .| 0x20 = c \/ c .| 0x20 = c + 32.
Proof.
  intros H. assert (0 <= c .| 0x20) as H0 by lia. apply Z.lor_nonneg in H0 as [H0 _].
  assert (c < 256).
  { destruct (decide (c < 256)) as [|Hc]; [done|]. exfalso.
    assert (c <= c .| 0x20) by (apply Z.ldiff_le; [lia|]; apply Z.bits_inj_0; intros n;
      rewrite Z.ldiff_spec, Z.lor_spec; by destruct (Z.testbit c n)). lia. }
  rewrite lor_20 by lia. destruct (Z.testbit c 5); auto.
Qed.

Lemma long_long_small v : 0 <= v < 2 ^ 63 -> long_long v = Some v.
Proof. intros Hv. unfold long_long. by rewrite (proj2 (Z.leb_le _ _)), (proj2 (Z.ltb_lt _ _)) by lia. Qed.

Section Loop.
Context (base : Z) (Hbase : 2 <= base <= 36).

Lemma toint_loop_digit d c p v :
  0 <= d < base -> digit_char d c ->
  toint_loop (c :: p) base v = (v ← long_long (base * v + d); toint_loop p base v).
Proof using Hbase.
  intros Hd Hc. cbn [toint_loop]. unfold maxdig, maxalp.
  destruct Hc as [[H10 ->]|[H10 Hc]].
  - rewrite (proj2 (Z.eqb_neq _ 0)) by lia. rewrite (proj2 (Z.leb_le 48 _)) by lia.
    rewrite (proj2 (Z.leb_le (48 + d) _)) by (case_match; zify_bools; lia).
    cbn [andb]. by replace (48 + d - 48) with d by lia.
  - rewrite (proj2 (Z.ltb_lt 10 base)) by lia.
    rewrite (proj2 (Z.eqb_neq _ 0)), (proj2 (Z.leb_gt c 57)), andb_false_r by lia.
    assert (c .| 0x20 = 87 + d) as ->.
    { destruct Hc as [->| ->]; [by rewrite lor_20_lower by lia|rewrite lor_20_upper; lia]. }
    rewrite !(proj2 (Z.leb_le _ _)) by lia. cbn [andb].
    by replace (base * v + (87 + d - 97) + 10) with (base * v + d) by lia.
Qed.

Lemma toint_loop_stop p v : no_digit base p -> toint_loop p base v = Some (v, p).
Proof using Hbase.
  intros (c & p' & -> & Hno). cbn [toint_loop]. destruct (Z.eqb_spec c 0); [done|].
  destruct ((48 <=? c) && (c <=? maxdig base)) eqn:E1.
  { apply andb_true_iff in E1 as [E1 E2]. zify_bools. unfold maxdig in E2.
    destruct (Hno (c - 48)); [case_match; zify_bools; lia|]. left. case_match; zify_bools; lia. }
  destruct ((97 <=? c .| 32) && (c .| 32 <=? maxalp base)) eqn:E2; [|done].
  apply andb_true_iff in E2 as [E2 E3]. zify_bools. unfold maxalp in E3.
  destruct (10 <? base) eqn:Eb; zify_bools; [|lia].
  destruct (lor_20_inv c) as [Hc|Hc]; [lia|destruct (Hno (c - 87))|destruct (Hno (c - 55))];
    try lia; right; lia.
Qed.

Lemma digits_value_step v ds :
  0 <= v -> Forall (fun d => 0 <= d < base) ds ->
  v <= fold_left (fun v d => base * v + d) ds v.
Proof using Hbase.
  intros Hv Hds. revert v Hv. induction Hds as [|d ds Hd _ IH]; intros v Hv; cbn [fold_left]; [lia|].
  etransitivity; [|apply IH; nia]. nia.
Qed.

(** The digits of a numeral are read, whatever the value before them. *)
Lemma toint_loop_numeral ds cs p v :
  numeral base ds cs -> 0 <= v -> fold_left (fun v d => base * v + d) ds v < 2 ^ 63 ->
  toint_loop (cs ++ p) base v = toint_loop p base (fold_left (fun v d => base * v + d) ds v).
Proof using Hbase.
  intros [HF Hds]. revert v. induction HF as [|d c ds cs Hdc _ IH]; intros v Hv Hfit; [done|].
  apply Forall_cons in Hds as [Hd Hds]. cbn [app fold_left] in *.
  rewrite (toint_loop_digit d c) by done.
  pose proof (digits_value_step (base * v + d) ds ltac:(nia) Hds).
  rewrite long_long_small by nia. opt. apply IH; [done|nia|done].
Qed.

(** More digits than fit are an overflow. *)
Lemma toint_loop_overflow ds cs p v :
  numeral base ds cs -> 0 <= v < 2 ^ 63 ->
  2 ^ 63 <= fold_left (fun v d => base * v + d) ds v ->
  toint_loop (cs ++ p) base v = None.
Proof using Hbase.
  intros [HF Hds]. revert v. induction HF as [|d c ds cs Hdc _ IH]; intros v Hv Hfit;
    cbn [fold_left app] in *; [lia|].
  apply Forall_cons in Hds as [Hd Hds]. rewrite (toint_loop_digit d c) by done.
  destruct (decide (base * v + d < 2 ^ 63)).
  - rewrite long_long_small by nia. opt. apply IH; [done|nia|done].
  - unfold long_long. rewrite (proj2 (Z.ltb_ge _ (2 ^ 63))), andb_false_r by lia. done.
Qed.
End Loop.

(** The loop ends on every text that has a terminator, at a character of the text; it only
    fails for an overflow. *)
Lemma toint_loop_total base p v :
  0 ∈ p ->
  toint_loop p base v = None \/
  exists v' p1 p2, toint_loop p base v = Some (v', p2) /\ p = p1 ++ p2 /\ 0 ∈ p2.
Proof.
  revert v. induction p as [|c p IH]; intros v Hz; [by apply not_elem_of_nil in Hz|].
  cbn [toint_loop]. destruct (Z.eqb_spec c 0) as [->|Hc].
  { right. exists v, [], (0 :: p). split_and!; [done..|]. apply list_elem_of_here. }
  assert (0 ∈ p) as Hz'. { apply elem_of_cons in Hz as [?|?]; [lia|done]. }
  assert (forall o : option Z, (v ← o; toint_loop p base v) = None \/
    exists v' p1 p2, (v ← o; toint_loop p base v) = Some (v', p2) /\ c :: p = p1 ++ p2 /\ 0 ∈ p2)
    as Hstep.
  { intros [w|]; opt; [|by left]. destruct (IH w Hz') as [->|(v' & p1 & p2 & -> & -> & H2)];
      [by left|right]. by exists v', (c :: p1), p2. }
  case_match; [apply Hstep|]. case_match; [apply Hstep|].
  right. by exists v, [], (c :: p).
Qed.

(** ** Properties *)

Lemma toint_base_prefix arg base t ds cs p :
  base_text arg base t ds p -> numeral base ds cs -> no_digit base p ->
  toint_base (t ++ cs ++ p) arg = Some (base, cs ++ p) /\ 2 <= base <= 36.
Proof.
  intros Ht [HF Hds] Hp. unfold toint_base.
  destruct Ht as [(-> & Hb & ->)|[(-> & -> & [->| ->])|[(-> & -> & -> & Hx)|(-> & -> & -> & d & ds' & -> & Hd)]]].
  - rewrite (proj2 (Z.eqb_neq 0 base)) by lia. done.
  - done.
  - done.
  - change (0 =? 0) with true. cbv iota. cbn [app lookup list_lookup]. opt.
    change (48 =? 48) with true. cbv iota.
    assert (exists c q, cs ++ p = c :: q /\ c <> 120 /\ c <> 88) as (c & q & -> & H1 & H2).
    { destruct HF as [|d c ds cs Hdc _]; cbn [app].
      - destruct Hp as (c & p' & -> & Hno). exists c, p'. split; [done|].
        cbn in Hx. specialize (Hx eq_refl) as [H1 H2]. split; congruence.
      - apply Forall_cons in Hds as [Hd _]. exists c, (cs ++ p). split; [done|].
        unfold digit_char in Hdc. lia. }
    cbn [lookup list_lookup]. opt.
    rewrite !(proj2 (Z.eqb_neq _ c)) by lia. done.
  - inversion HF as [|? c ? cs' Hdc _]. subst. cbn [app lookup list_lookup]. opt.
    apply Forall_cons in Hds as [Hd' _]. unfold digit_char in Hdc.
    change (0 =? 0) with true. cbv iota. rewrite (proj2 (Z.eqb_neq 48 c)) by lia. done.
Qed.

Lemma tail_terminated c p : 0 ∈ c :: p -> c <> 0 -> 0 ∈ p.
Proof. intros Hz Hc. apply elem_of_cons in Hz as [?|?]; [lia|done]. Qed.

Lemma strtoint_total text base is_signed :
  0 ∈ text ->
  strtoint text base is_signed = None \/
  exists v p1 p2, strtoint text base is_signed = Some (v, p2) /\ text = p1 ++ p2 /\ 0 ∈ p2.
Proof.
  intros Hz. unfold strtoint.
  assert (exists s t1 t2, toint_sign text is_signed = Some (s, t2) /\ text = t1 ++ t2 /\ 0 ∈ t2)
    as (s & t1 & t2 & -> & -> & Hz2).
  { unfold toint_sign. destruct is_signed; [|by exists 1, [], text].
    destruct text as [|c p]; [by apply not_elem_of_nil in Hz|]. cbn [lookup list_lookup tail]. opt.
    destruct (Z.eqb_spec 43 c) as [<-|]; [by exists 1, [43], p; split_and!; [..|apply (tail_terminated 43)]|].
    destruct (Z.eqb_spec 45 c) as [<-|]; [by exists (-1), [45], p; split_and!; [..|apply (tail_terminated 45)]|].
    by exists 1, [], (c :: p). }
  opt. clear Hz.
  assert (exists b u1 u2, toint_base t2 base = Some (b, u2) /\ t2 = u1 ++ u2 /\ 0 ∈ u2)
    as (b & u1 & u2 & -> & -> & Hz).
  { unfold toint_base. destruct (0 =? base); [|by exists base, [], t2].
    destruct t2 as [|c p]; [by apply not_elem_of_nil in Hz2|]. cbn [lookup list_lookup tail]. opt.
    destruct (Z.eqb_spec 48 c) as [<-|]; [|by exists 10, [], (c :: p)].
    apply (tail_terminated 48) in Hz2; [|done].
    destruct p as [|c1 p]; [by apply not_elem_of_nil in Hz2|]. cbn [lookup list_lookup tail]. opt.
    destruct (_ || _) eqn:E; [|by exists 8, [48], (c1 :: p)].
    exists 16, [48; c1], p. split_and!; [done..|]. apply (tail_terminated c1); [done|].
    apply orb_true_iff in E. lia. }
  opt. destruct (toint_loop_total b u2 0 Hz) as [->|(v & p1 & p2 & -> & -> & H2)]; [by left|right].
  opt. exists (s * v), (t1 ++ u1 ++ p1), p2. by rewrite <- !app_assoc.
Qed.

(** C38: A numeral in a base from 2 to 36, with digits of either case, with its sign and its
    prefix, reads as its value, and the text that is left is what follows its last digit; but a
    value that does not fit in 63 bits overflows.  Every text that has a terminator is read to
    an end, not past it, unless the value overflows. *)
Theorem strtoint_reads arg is_signed s st base bt ds cs p :
  sign_text is_signed s st -> base_text arg base bt ds p -> numeral base ds cs ->
  no_digit base p -> (is_signed = true -> (bt ++ cs ++ p) !! 0%nat <> Some 43 /\
                                         (bt ++ cs ++ p) !! 0%nat <> Some 45) ->
  strtoint (st ++ bt ++ cs ++ p) arg is_signed =
    (if digits_value base ds <? 2 ^ 63 then Some (s * digits_value base ds, p) else None) /\
  (forall text arg is_signed, 0 ∈ text ->
     strtoint text arg is_signed = None \/
     exists v p1 p2, strtoint text arg is_signed = Some (v, p2) /\ text = p1 ++ p2 /\ 0 ∈ p2).
Proof.
  intros Hs Ht Hn Hp Hno. split.
  - destruct (toint_base_prefix arg base bt ds cs p Ht Hn Hp) as [Hb Hbase].
    unfold strtoint.
    assert (toint_sign (st ++ bt ++ cs ++ p) is_signed = Some (s, bt ++ cs ++ p)) as ->.
    { unfold toint_sign. destruct Hs as [(-> & [->|(-> & ->)])|(-> & -> & ->)]; [|done..].
      cbn [app]. destruct is_signed; [|done]. destruct (Hno eq_refl) as [H1 H2].
      assert (is_Some ((bt ++ cs ++ p) !! 0%nat)) as [c Hc].
      { apply lookup_lt_is_Some_2. rewrite !length_app. destruct Hp as (c & p' & -> & _). simpl. lia. }
      rewrite Hc in *. opt. rewrite !(proj2 (Z.eqb_neq _ c)) by congruence. done. }
    opt. rewrite Hb. opt. unfold digits_value. destruct (_ <? _) eqn:Ef; zify_bools.
    + rewrite (toint_loop_numeral base Hbase ds cs p 0) by (done || lia).
      by rewrite (toint_loop_stop base Hbase) by done.
    + by rewrite (toint_loop_overflow base Hbase ds cs p 0) by (done || lia).
  - intros text a sg. apply strtoint_total.
Qed.

(** -0x1Fz, and a text that ends after the prefix. *)
Lemma strtoint_reads_witness :
  strtoint [45; 48; 120; 49; 70; 122; 0] 0 true = Some (-31, [122; 0]) /\
  strtoint [48; 120; 0] 0 true = Some (0, [0]).
Proof.
  destruct (strtoint_reads 0 true (-1) [45] 16 [48; 120] [1; 15] [49; 70] [122; 0]) as [H _].
  - right. repeat split.
  - right. left. repeat split. by left.
  - split; [|repeat constructor; discriminate].
    constructor; [left; split; [lia|reflexivity]|]. constructor; [right; split; [lia|by right]|constructor].
  - exists 122, [0]. split; [reflexivity|]. intros d Hd. unfold digit_char. lia.
  - intros _. split; discriminate.
  - split; [exact H|vm_compute; reflexivity].
Defined.
