(* ===== verification/StgHandle.v ===== *)
(** * Storage unit handles: [shared/stghandle.c]

    A handle stands for the driver's device, or for a named pipe: then its lowest bit is set and
    the rest is a pointer to a [STORAGE_UNIT], and the functions here do what the driver does.
    The section under a lock is one step.  What the operating system answers is an argument: an
    [OVERLAPPED_IO] for an asynchronous operation and its wait.  Reading memory that is not
    there, a copy past the end of a buffer and an overflow of [Connected] are [None]. *)

From S2P Require Import Prelude Wdk IoctlTypes.

(** ** Data *)

Record HINT_VALUE_ITEM := mkHint { Hint : Z; Value : Z }.

(** A unit; [Buckets] are the chains of [HashBuckets], and [Client] tells whether a client is
    connected to the pipe. *)
Record STORAGE_UNIT := mkPipeUnit {
  StorageUnitParams : SPD_IOCTL_STORAGE_UNIT_PARAMS;
  Event : Z;
  Pipe : Z;
  Signaled : bool;
  Connected : Z;
  Client : bool;
  Buckets : list (list HINT_VALUE_ITEM)
}.

#[export] Instance STORAGE_UNIT_eta : Eta STORAGE_UNIT := fun u =>
  mkPipeUnit (StorageUnitParams u) (Event u) (Pipe u) (Signaled u) (Connected u) (Client u)
    (Buckets u).

(** The process: the table, if it has been allocated, the memory of the units, and the handles
    of the system that are open. *)
Record PROCESS := mkProcess {
  StorageUnits : option (list Z);
  Units : gmap Z STORAGE_UNIT;
  Handles : gset Z
}.

#[export] Instance PROCESS_eta : Eta PROCESS := fun H =>
  mkProcess (StorageUnits H) (Units H) (Handles H).

Definition sizeof_TRANSACT_MSG : Z := 48.
Definition HashBucketCount : Z := 61.

Definition IsPipeHandle (Handle : Z) : bool := negb (Handle .& 1 =? 0).
Definition GetPipeHandle (Handle : Z) : Z := Handle .& 0xfffffffffffffffe.
Definition SetPipeHandle (Handle : Z) : Z := Handle .| 1.

Definition CloseHandle (H : PROCESS) (h : Z) : option PROCESS :=
  if decide (h ∈ Handles H) then Some (H <| Handles := Handles H ∖ {[h]} |>) else None.

(** ** The table of hints *)

Definition HashMix64 (k : Z) : Z :=
  let k := k .^ (k ≫ 33) in
  let k := u64 (k * 0xff51afd7ed558ccd) in
  let k := k .^ (k ≫ 33) in
  let k := u64 (k * 0xc4ceb9fe1a85ec53) in
  k .^ (k ≫ 33).

Definition hint_index (h : Z) : nat := Z.to_nat (HashMix64 h mod HashBucketCount).

(** The first item of a chain with the hint is taken off; its value, and the chain. *)
Fixpoint take_item (h : Z) (l : list HINT_VALUE_ITEM) : option (Z * list HINT_VALUE_ITEM) :=
  match l with
  | [] => None
  | it :: l =>
      if Hint it =? h then Some (Value it, l)
      else '(v, l) ← take_item h l; Some (v, it :: l)
  end.

Definition TakeHintValue (u : STORAGE_UNIT) (h : Z) : option (Z * STORAGE_UNIT) :=
  l ← Buckets u !! hint_index h;
  match take_item h l with
  | Some (v, l) => Some (v, u <| Buckets := <[hint_index h := l]> (Buckets u) |>)
  | None => Some (0, u)
  end.

(** [Alloc] tells whether there is memory for the item. *)
Definition PutHintValue (u : STORAGE_UNIT) (h v : Z) (Alloc : bool)
    : option (bool * STORAGE_UNIT) :=
  l ← Buckets u !! hint_index h;
  if existsb (fun it => Hint it =? h) l then Some (false, u)
  else if negb Alloc then Some (false, u)
  else Some (true, u <| Buckets := <[hint_index h := mkHint h v :: l]> (Buckets u) |>).

(** ** Opening *)

(** [GuidEqual], member by member. *)
Definition GuidEqual (a b : GUID) : bool :=
  (Data1 a =? Data1 b) && (Data2 a =? Data2 b) && (Data3 a =? Data3 b) &&
  forallb (fun I : nat => default 0 (Data4 a !! I) =? default 0 (Data4 b !! I)) (seq 0 8).

Definition NO_BTL : Z := 0xffffffff.

(** The loop over the table: the duplicate, or 0, and the first free address. *)
Fixpoint pipe_scan (n I : nat) (H : PROCESS) (Table : list Z) (NewGuid : GUID) (Btl : Z)
    : option (Z * Z) :=
  match n with
  | O => Some (0, Btl)
  | S n =>
      Unit ← Table !! I;
      if 0 =? Unit then
        pipe_scan n (S I) H Table NewGuid
          (if NO_BTL =? Btl then SPD_BTL_FROM_INDEX (Z.of_nat I) else Btl)
      else
        u ← Units H !! Unit;
        if GuidEqual NewGuid (Guid (StorageUnitParams u)) then Some (Unit, Btl)
        else pipe_scan n (S I) H Table NewGuid Btl
  end.

(** The code at [exit] for a failed open. *)
Definition open_exit (H : PROCESS) (StorageUnit DuplicateUnit Btl Error : Z)
    : option (Z * Z * Z * PROCESS) :=
  H ← (if (0 =? DuplicateUnit) && negb (NO_BTL =? Btl) then
         Table ← StorageUnits H;
         let Index := Z.to_nat (SPD_INDEX_FROM_BTL Btl) in
         _ ← Table !! Index;
         Some (H <| StorageUnits := Some (<[Index := 0]> Table) |>)
       else Some H);
  H ← (if negb (0 =? StorageUnit) then
         u ← Units H !! StorageUnit;
         H ← (if negb (INVALID_HANDLE_VALUE =? Pipe u) then CloseHandle H (Pipe u) else Some H);
         H ← (if negb (0 =? Event u) then CloseHandle H (Event u) else Some H);
         Some (H <| Units := delete StorageUnit (Units H) |>)
       else Some H);
  Some (Error, INVALID_HANDLE_VALUE, NO_BTL, H).

Definition NewStorageUnit (Params : SPD_IOCTL_STORAGE_UNIT_PARAMS) : STORAGE_UNIT :=
  mkPipeUnit Params 0 INVALID_HANDLE_VALUE false 0 false
    (replicate (Z.to_nat HashBucketCount) []).

(** What the system gives when it is asked for memory, an event and a pipe: a pointer, the
    handles, and the error when there is none. *)
Record OPEN_ANSWERS := mkOpen {
  oa_Table : bool; oa_Unit : Z;
  oa_Event : Z; oa_EventError : Z; oa_Pipe : Z; oa_PipeError : Z
}.

(** [SpdStorageUnitHandleOpenPipe]: the error, the handle, the address. *)
Definition SpdStorageUnitHandleOpenPipe (H : PROCESS) (Params : SPD_IOCTL_STORAGE_UNIT_PARAMS)
    (a : OPEN_ANSWERS) : option (Z * Z * Z * PROCESS) :=
  let Capacity := Z.to_nat SPD_IOCTL_STORAGE_UNIT_MAX_CAPACITY in
  let H := match StorageUnits H with
           | None => if oa_Table a then H <| StorageUnits := Some (replicate Capacity 0) |> else H
           | Some _ => H
           end in
  match StorageUnits H with
  | None => open_exit H 0 0 NO_BTL ERROR_NO_SYSTEM_RESOURCES
  | Some Table =>
      let StorageUnit := oa_Unit a in
      if 0 =? StorageUnit then open_exit H 0 0 NO_BTL ERROR_NO_SYSTEM_RESOURCES
      else
        let u := NewStorageUnit Params in
        let H := H <| Units := <[StorageUnit := u]> (Units H) |> in
        '(DuplicateUnit, Btl) ← pipe_scan Capacity 0 H Table (Guid Params) NO_BTL;
        H ← (if (0 =? DuplicateUnit) && negb (NO_BTL =? Btl) then
               let Index := Z.to_nat (SPD_INDEX_FROM_BTL Btl) in
               _ ← Table !! Index;
               Some (H <| StorageUnits := Some (<[Index := StorageUnit]> Table) |>)
             else Some H);
        if negb (0 =? DuplicateUnit)
        then open_exit H StorageUnit DuplicateUnit Btl ERROR_ALREADY_EXISTS
        else if NO_BTL =? Btl then open_exit H StorageUnit DuplicateUnit Btl ERROR_CANNOT_MAKE
        else if 0 =? oa_Event a
        then open_exit H StorageUnit DuplicateUnit Btl (oa_EventError a)
        else
          let u := u <| Event := oa_Event a |> in
          let H := H <| Handles := {[oa_Event a]} ∪ Handles H |>
                     <| Units := <[StorageUnit := u]> (Units H) |> in
          if INVALID_HANDLE_VALUE =? oa_Pipe a
          then open_exit H StorageUnit DuplicateUnit Btl (oa_PipeError a)
          else
            let u := u <| Pipe := oa_Pipe a |> in
            let H := H <| Handles := {[oa_Pipe a]} ∪ Handles H |>
                       <| Units := <[StorageUnit := u]> (Units H) |> in
            Some (ERROR_SUCCESS, SetPipeHandle StorageUnit, Btl, H)
  end.

(** ** Transactions *)

(** An asynchronous operation: whether the call succeeded, its error, what the wait for the
    stop event and the operation gave, whether the result is a success, and its error. *)
Record OVERLAPPED_IO := mkIo {
  io_Success : bool; io_LastError : Z; io_Wait : Z; io_Got : bool; io_GotError : Z
}.

Definition WaitOverlappedResult (io : OVERLAPPED_IO) : Z :=
  if negb (io_Success io) && negb (ERROR_IO_PENDING =? io_LastError io) then io_LastError io
  else if WAIT_OBJECT_0 =? io_Wait io then ERROR_OPERATION_ABORTED
  else if WAIT_OBJECT_0 + 1 =? io_Wait io then
    if negb (io_Got io) then io_GotError io else ERROR_SUCCESS
  else io_GotError io.

(** A [LONG]; the overflow of one is undefined. *)
Definition LONG (v : Z) : option Z :=
  if (- 2 ^ 31 <=? v) && (v <? 2 ^ 31) then Some v else None.

(** The section that connects: the error, and the unit.  [Connect] is the wait for a client,
    [Greet] the write of the parameters. *)
Definition pipe_connect (u : STORAGE_UNIT) (Connect Greet : OVERLAPPED_IO)
    : option (Z * STORAGE_UNIT) :=
  if 0 >=? Connected u then
    let Error := WaitOverlappedResult Connect in
    if (ERROR_SUCCESS =? Error) || (ERROR_PIPE_CONNECTED =? Error) then
      let Error := WaitOverlappedResult Greet in
      if ERROR_SUCCESS =? Error then
        c ← LONG (- Connected u);
        c ← LONG (c + 1);
        Some (Error, u <| Connected := c |> <| Client := true |>)
      else Some (ERROR_NO_DATA, u <| Client := false |>)
    else Some (Error, u)
  else Some (ERROR_SUCCESS, u).

(** The section that disconnects, for a thread that found [c] in [Connected]. *)
Definition pipe_disconnect (u : STORAGE_UNIT) (c : Z) : option STORAGE_UNIT :=
  if c =? Connected u then
    c ← LONG (- Connected u);
    Some (u <| Client := false |> <| Connected := c |>)
  else Some u.

(** The message that goes to the client: the response and [DataLength] bytes of the buffer. *)
Definition pipe_message (u : STORAGE_UNIT) (Rsp : SPD_IOCTL_TRANSACT_RSP)
    (DataBuffer : option (list Z))
    : option (SPD_IOCTL_TRANSACT_RSP * list Z * STORAGE_UNIT) :=
  '(DataLength, u) ←
    (if SpdIoctlTransactReadKind =? rsp_Kind Rsp then
       match DataBuffer with Some _ => TakeHintValue u (rsp_Hint Rsp) | None => Some (0, u) end
     else Some (0, u));
  data ← (if negb (0 =? DataLength) then
            DataBuffer ← DataBuffer;
            if DataLength >? MaxTransferLength (StorageUnitParams u) then None
            else buf_read 0 (Z.to_nat DataLength) DataBuffer
          else Some []);
  Some (Rsp, data, u).

(** The length of the data that goes with a request; the member of the union is the one that
    the kind of the request selects. *)
Definition request_length (P : SPD_IOCTL_STORAGE_UNIT_PARAMS) (Req : SPD_IOCTL_TRANSACT_REQ) : Z :=
  match req_Op Req with
  | OpRead _ BlockCount _ | OpWrite _ BlockCount _ => u32 (BlockCount * BlockLength P)
  | OpUnmap Count => u32 (Count * sizeof_SPD_IOCTL_UNMAP_DESCRIPTOR)
  | _ => 0
  end.

(** The data of a request in the buffer: what came, and zeros. *)
Definition pipe_data (DataBuffer : list Z) (DataLength BytesTransferred : Z) (data : list Z)
    : option (list Z) :=
  let n := if BytesTransferred >? DataLength then DataLength else BytesTransferred in
  bs ← buf_read 0 (Z.to_nat n) data;
  DataBuffer ← buf_write 0 bs DataBuffer;
  buf_write (Z.to_nat n) (replicate (Z.to_nat (DataLength - n)) 0) DataBuffer.

(** What becomes of a message that was read: whether the request is good, the buffer, the unit.
    [BytesTransferred] counts the header. *)
Definition pipe_request (u : STORAGE_UNIT) (Req : SPD_IOCTL_TRANSACT_REQ) (data : list Z)
    (BytesTransferred : Z) (DataBuffer : list Z) (Alloc : bool)
    : option (bool * list Z * STORAGE_UNIT) :=
  let P := StorageUnitParams u in
  let DataLength := request_length P Req in
  if sizeof_TRANSACT_MSG >? BytesTransferred then Some (false, DataBuffer, u)
  else if SpdIoctlTransactReadKind =? req_Kind Req then
    if DataLength >? MaxTransferLength P then Some (false, DataBuffer, u)
    else
      '(put, u) ← PutHintValue u (req_Hint Req) DataLength Alloc;
      Some (put, DataBuffer, u)
  else if (SpdIoctlTransactWriteKind =? req_Kind Req) ||
          (SpdIoctlTransactUnmapKind =? req_Kind Req) then
    if DataLength >? MaxTransferLength P then Some (false, DataBuffer, u)
    else
      DataBuffer ← pipe_data DataBuffer DataLength (BytesTransferred - sizeof_TRANSACT_MSG) data;
      Some (true, DataBuffer, u)
  else Some (true, DataBuffer, u).

(** What the system does for a transaction. *)
Record TRANSACT_ANSWERS := mkAnswers {
  ta_Overlapped : Z;                      (* SpdOverlappedInit *)
  ta_Msg : bool; ta_Item : bool;          (* memory for the message, for a hint *)
  ta_Connect : OVERLAPPED_IO; ta_Greet : OVERLAPPED_IO;
  ta_Write : OVERLAPPED_IO;
  ta_Read : OVERLAPPED_IO;
  ta_BytesTransferred : Z; ta_Req : SPD_IOCTL_TRANSACT_REQ; ta_Data : list Z
}.

(** The result: the error, the request, the buffer, the message that was sent. *)
Record TRANSACT_RESULT := mkResult {
  tr_Error : Z;
  tr_Req : option SPD_IOCTL_TRANSACT_REQ;
  tr_DataBuffer : option (list Z);
  tr_Sent : option (SPD_IOCTL_TRANSACT_RSP * list Z)
}.

(** The code at [disconnect] and at [zeroout]. *)
Definition pipe_zeroout (u : STORAGE_UNIT) (Req : bool) (DataBuffer : option (list Z))
    (sent : option (SPD_IOCTL_TRANSACT_RSP * list Z)) : TRANSACT_RESULT * STORAGE_UNIT :=
  (mkResult ERROR_SUCCESS (if Req then Some ReqZero else None) DataBuffer sent, u).

(** The exchange on a connection, as one thread runs it; [c] is [Connected] when it began. *)
Definition pipe_exchange (u : STORAGE_UNIT) (c : Z) (Rsp : option SPD_IOCTL_TRANSACT_RSP)
    (Req : bool) (DataBuffer : option (list Z)) (a : TRANSACT_ANSWERS)
    : option (TRANSACT_RESULT * STORAGE_UNIT) :=
  '(sent, u) ←
    match Rsp with
    | Some Rsp => '(Rsp, data, u) ← pipe_message u Rsp DataBuffer; Some (Some (Rsp, data), u)
    | None => Some (None, u)
    end;
  if match Rsp with Some _ => negb (ERROR_SUCCESS =? WaitOverlappedResult (ta_Write a))
     | None => false end
  then u ← pipe_disconnect u c; Some (pipe_zeroout u Req DataBuffer None)
  else if Req then
    if negb (ERROR_SUCCESS =? WaitOverlappedResult (ta_Read a))
    then u ← pipe_disconnect u c; Some (pipe_zeroout u Req DataBuffer sent)
    else
      buf ← DataBuffer;
      '(good, buf, u) ← pipe_request u (ta_Req a) (ta_Data a) (ta_BytesTransferred a) buf
                          (ta_Item a);
      if negb good then Some (pipe_zeroout u Req (Some buf) sent)
      else Some (mkResult ERROR_SUCCESS (Some (ta_Req a)) (Some buf) sent, u)
  else Some (mkResult ERROR_SUCCESS None DataBuffer sent, u).

(** [SpdStorageUnitHandleTransactPipe] *)
Definition SpdStorageUnitHandleTransactPipe (H : PROCESS) (Handle Btl : Z)
    (Rsp : option SPD_IOCTL_TRANSACT_RSP) (Req : bool) (DataBuffer : option (list Z))
    (a : TRANSACT_ANSWERS) : option (TRANSACT_RESULT * PROCESS) :=
  let StorageUnit := Handle in
  let failed Error := Some (mkResult Error None DataBuffer None, H) in
  if (negb Req && bool_decide (Rsp = None)) || (Req && bool_decide (DataBuffer = None))
  then failed ERROR_INVALID_PARAMETER
  else if negb (ERROR_SUCCESS =? ta_Overlapped a) then failed (ta_Overlapped a)
  else
    Table ← StorageUnits H;
    Unit ← Table !! Z.to_nat (SPD_INDEX_FROM_BTL Btl);
    if negb (StorageUnit =? Unit) then failed ERROR_FILE_NOT_FOUND
    else if negb (ta_Msg a) then failed ERROR_NO_SYSTEM_RESOURCES
    else
      u ← Units H !! StorageUnit;
      '(err, u) ← pipe_connect u (ta_Connect a) (ta_Greet a);
      '(r, u) ←
        (if ERROR_NO_DATA =? err then Some (pipe_zeroout u Req DataBuffer None)
         else if negb (ERROR_SUCCESS =? err) then Some (mkResult err None DataBuffer None, u)
         else pipe_exchange u (Connected u) Rsp Req DataBuffer a);
      Some (r, H <| Units := <[StorageUnit := u]> (Units H) |>).

(** ** Shutdown and close *)

(** The loop: the index of the unit with the GUID. *)
Fixpoint pipe_find (n I : nat) (H : PROCESS) (Table : list Z) (G : GUID) : option (option nat) :=
  match n with
  | O => Some None
  | S n =>
      Unit ← Table !! I;
      if 0 =? Unit then pipe_find n (S I) H Table G
      else
        u ← Units H !! Unit;
        if GuidEqual G (Guid (StorageUnitParams u)) then Some (Some I)
        else pipe_find n (S I) H Table G
  end.

Definition SpdStorageUnitHandleShutdownPipe (H : PROCESS) (Handle : Z) (G : GUID)
    : option (Z * PROCESS) :=
  let StorageUnit := Handle in
  Table ← StorageUnits H;
  Index ← pipe_find (Z.to_nat SPD_IOCTL_STORAGE_UNIT_MAX_CAPACITY) 0 H Table G;
  match Index with
  | Some Index =>
      Unit ← Table !! Index;
      if StorageUnit =? Unit then
        u ← Units H !! StorageUnit;
        Some (ERROR_SUCCESS,
              H <| StorageUnits := Some (<[Index := 0]> Table) |>
                <| Units := <[StorageUnit := u <| Signaled := true |>]> (Units H) |>)
      else Some (ERROR_FILE_NOT_FOUND, H)
  | None => Some (ERROR_FILE_NOT_FOUND, H)
  end.

Definition SpdStorageUnitHandleClosePipe (H : PROCESS) (Handle : Z) : option (Z * PROCESS) :=
  u ← Units H !! Handle;
  H ← CloseHandle H (Pipe u);
  H ← CloseHandle H (Event u);
  Some (ERROR_SUCCESS, H <| Units := delete Handle (Units H) |>).

(** The prefix of a name that tells a pipe, character by character: [\\.\pipe\]. *)
Definition pipe_prefix : list Z := [92; 92; 46; 92; 112; 105; 112; 101; 92].

Fixpoint has_prefix (prefix Name : list Z) : option bool :=
  match prefix with
  | [] => Some true
  | c :: prefix =>
      n ← Name !! 0%nat;
      if c =? n then has_prefix prefix (tail Name) else Some false
  end.
