(* ===== verification/StgHandleProps.v ===== *)
(** * Properties of storage unit handles *)

From S2P Require Import Prelude Wdk IoctlTypes StgHandle.

#[local] Set Warnings "-clear-no-such-hyp".

(** ** The table of hints is a map *)

(** The chains represent a map from hints to values: an item is in the chain of its hint. *)
Record hints_rep (B : list (list HINT_VALUE_ITEM)) (m : gmap Z Z) : Prop := {
  hr_length : length B = Z.to_nat HashBucketCount;
  hr_nodup : forall i l, B !! i = Some l -> NoDup (Hint <$> l);
  hr_item : forall i l h v, B !! i = Some l -> mkHint h v ∈ l -> i = hint_index h /\ m !! h = Some v;
  hr_map : forall h v, m !! h = Some v -> exists l, B !! hint_index h = Some l /\ mkHint h v ∈ l
}.

Lemma hint_index_bound h : (hint_index h < Z.to_nat HashBucketCount)%nat.
Proof. unfold hint_index, HashBucketCount. pose proof (Z.mod_pos_bound (HashMix64 h) 61). lia. Qed.

Lemma hints_rep_empty : hints_rep (replicate (Z.to_nat HashBucketCount) []) ∅.
Proof.
  split.
  - apply length_replicate.
  - intros i l [-> _]%lookup_replicate. constructor.
  - intros i l h v [-> _]%lookup_replicate Hin. by apply not_elem_of_nil in Hin.
  - intros h v Hm. by rewrite lookup_empty in Hm.
Qed.

Lemma take_item_Some h l v l' :
  take_item h l = Some (v, l') -> exists l1 l2, l = l1 ++ mkHint h v :: l2 /\ l' = l1 ++ l2.
Proof.
  revert l'. induction l as [|[h0 v0] l IH]; intros l'; cbn [take_item]; [done|].
  cbn [Hint Value]. destruct (Z.eqb_spec h0 h) as [->|].
  - intros [= -> ->]. by exists [], l'.
  - intros ([v1 l1] & Ht & [= -> <-])%bind_Some. destruct (IH l1 Ht) as (a & b & -> & ->).
    by exists (mkHint h0 v0 :: a), b.
Qed.

Lemma take_item_None h l v : take_item h l = None -> mkHint h v ∉ l.
Proof.
  induction l as [|[h0 v0] l IH]; cbn [take_item]; [intros _; apply not_elem_of_nil|].
  cbn [Hint Value]. destruct (Z.eqb_spec h0 h); [done|].
  destruct (take_item h l) as [[? ?]|] eqn:E; [done|]. intros _.
  apply not_elem_of_cons. split; [congruence|by apply IH].
Qed.

Lemma existsb_hint h l :
  existsb (fun it => Hint it =? h) l = true <-> exists v, mkHint h v ∈ l.
Proof.
  rewrite existsb_exists. split.
  - intros ([h0 v] & Hin & E). simpl in E. apply Z.eqb_eq in E as ->. exists v.
    by apply list_elem_of_In.
  - intros [v Hin]. exists (mkHint h v). split; [by apply list_elem_of_In|]. simpl. apply Z.eqb_refl.
Qed.

(** One chain is replaced, and the map changes at one hint. *)
Lemma hints_rep_update B m h l l' m' :
  hints_rep B m -> B !! hint_index h = Some l -> NoDup (Hint <$> l') ->
  (forall h' v, h' <> h -> (mkHint h' v ∈ l' <-> mkHint h' v ∈ l) /\ m' !! h' = m !! h') ->
  (forall v, mkHint h v ∈ l' <-> m' !! h = Some v) ->
  hints_rep (<[hint_index h := l']> B) m'.
Proof.
  intros Hr Hl Hnd Hother Hsame. pose proof (lookup_lt_Some _ _ _ Hl) as Hlt. split.
  - rewrite length_insert. apply Hr.
  - intros i k Hk. apply list_lookup_insert_Some in Hk as [(_ & <- & _)|[_ Hk]]; [done|].
    by eapply hr_nodup.
  - intros i k h' v Hk Hin. apply list_lookup_insert_Some in Hk as [(<- & <- & _)|[Hne Hk]].
    + destruct (decide (h' = h)) as [->|Hh]; [split; [done|by apply Hsame]|].
      destruct (Hother h' v Hh) as [H1 H2]. rewrite H2. apply (hr_item _ _ Hr _ l); [done|by apply H1].
    + destruct (hr_item _ _ Hr i k h' v Hk Hin) as [-> Hm]. split; [done|].
      destruct (decide (h' = h)) as [->|Hh]; [done|]. by rewrite (proj2 (Hother h' v Hh)).
  - intros h' v Hm. destruct (decide (h' = h)) as [->|Hh].
    + exists l'. rewrite list_lookup_insert_eq by done. split; [done|by apply Hsame].
    + rewrite (proj2 (Hother h' v Hh)) in Hm. destruct (hr_map _ _ Hr h' v Hm) as (k & Hk & Hin).
      destruct (decide (hint_index h' = hint_index h)) as [E|E].
      * rewrite E in *. exists l'. rewrite list_lookup_insert_eq by done. split; [done|].
        apply (Hother h' v Hh). congruence.
      * exists k. by rewrite list_lookup_insert_ne by done.
Qed.

(** What a unit keeps when its hints change. *)
Definition with_hints (u : STORAGE_UNIT) (B : list (list HINT_VALUE_ITEM)) : STORAGE_UNIT :=
  u <| Buckets := B |>.

Lemma take_hint_rep u m h :
  hints_rep (Buckets u) m ->
  exists B, TakeHintValue u h = Some (default 0 (m !! h), with_hints u B) /\
    hints_rep B (delete h m).
Proof.
  intros Hr. unfold TakeHintValue.
  destruct (lookup_lt_is_Some_2 (Buckets u) (hint_index h)) as [l Hl];
    [rewrite (hr_length _ _ Hr); apply hint_index_bound|].
  rewrite Hl. opt. destruct (take_item h l) as [[v l']|] eqn:Et.
  - apply take_item_Some in Et as (l1 & l2 & -> & ->).
    destruct (hr_item _ _ Hr _ _ h v Hl) as [_ Hm]; [set_solver|]. rewrite Hm.
    eexists. split; [done|].
    pose proof (hr_nodup _ _ Hr _ _ Hl) as Hnd. rewrite fmap_app, fmap_cons in Hnd.
    apply NoDup_app_split in Hnd as [Hnd Hnin]. rewrite <- fmap_app in Hnd, Hnin.
    apply (hints_rep_update _ m h (l1 ++ mkHint h v :: l2)); try done.
    + intros h' v' Hh. split; [|by rewrite lookup_delete_ne by done]. set_solver by congruence.
    + intros v'. rewrite lookup_delete_eq. split; [|done]. intros Hin. exfalso. apply Hnin.
      apply list_elem_of_fmap. by exists (mkHint h v').
  - assert (m !! h = None) as Hm.
    { destruct (m !! h) as [v|] eqn:Hm; [|done]. exfalso.
      destruct (hr_map _ _ Hr h v Hm) as (k & Hk & Hin). assert (k = l) as -> by congruence.
      by apply (take_item_None h l v Et). }
    rewrite Hm. exists (Buckets u). split; [by destruct u|]. by rewrite delete_id by done.
Qed.

Lemma put_hint_rep u m h v Alloc :
  hints_rep (Buckets u) m ->
  exists B, PutHintValue u h v Alloc =
      Some (bool_decide (m !! h = None) && Alloc, with_hints u B) /\
    hints_rep B (if bool_decide (m !! h = None) && Alloc then <[h := v]> m else m).
Proof.
  intros Hr. unfold PutHintValue.
  destruct (lookup_lt_is_Some_2 (Buckets u) (hint_index h)) as [l Hl];
    [rewrite (hr_length _ _ Hr); apply hint_index_bound|].
  rewrite Hl. opt. destruct (existsb _ l) eqn:Ee.
  - apply existsb_hint in Ee as [v' Hin]. destruct (hr_item _ _ Hr _ _ h v' Hl Hin) as [_ Hm].
    rewrite bool_decide_false by congruence. exists (Buckets u). split; [by destruct u|done].
  - assert (m !! h = None) as Hm.
    { destruct (m !! h) as [v'|] eqn:Hm; [|done]. exfalso.
      destruct (hr_map _ _ Hr h v' Hm) as (k & Hk & Hin). assert (k = l) as -> by congruence.
      assert (existsb (fun it => Hint it =? h) l = true) by (apply existsb_hint; by exists v').
      congruence. }
    rewrite bool_decide_true by done. destruct Alloc; cbn [negb andb];
      [|exists (Buckets u); split; [by destruct u|done]].
    eexists. split; [done|]. apply (hints_rep_update _ m h l); try done.
    + rewrite fmap_cons, NoDup_cons. split; [|by eapply hr_nodup]. cbn [Hint].
      intros ([h0 v0] & E & Hin)%list_elem_of_fmap. simpl in E. subst h0.
      destruct (hr_item _ _ Hr _ _ h v0 Hl Hin). congruence.
    + intros h' v' Hh. split; [|by rewrite lookup_insert_ne by done].
      rewrite elem_of_cons. split; [intros [E|?]; [congruence|done]|by right].
    + intros v'. rewrite lookup_insert_eq, elem_of_cons. split.
      * intros [[= ->]|Hin]; [done|]. destruct (hr_item _ _ Hr _ _ h v' Hl Hin). congruence.
      * intros [= ->]. by left.
Qed.

(** The operations on the table, and on the map. *)
Inductive hint_op := OpTake (h : Z) | OpPut (h v : Z) (Alloc : bool).

Definition hint_step (u : STORAGE_UNIT) (op : hint_op) : option (Z * STORAGE_UNIT) :=
  match op with
  | OpTake h => TakeHintValue u h
  | OpPut h v Alloc => '(r, u) ← PutHintValue u h v Alloc; Some (if (r : bool) then 1 else 0, u)
  end.

Definition map_step (m : gmap Z Z) (op : hint_op) : Z * gmap Z Z :=
  match op with
  | OpTake h => (default 0 (m !! h), delete h m)
  | OpPut h v Alloc =>
      if bool_decide (m !! h = None) && Alloc then (1, <[h := v]> m) else (0, m)
  end.

Fixpoint hint_run (u : STORAGE_UNIT) (ops : list hint_op) : option (list Z * STORAGE_UNIT) :=
  match ops with
  | [] => Some ([], u)
  | op :: ops => '(r, u) ← hint_step u op; '(rs, u) ← hint_run u ops; Some (r :: rs, u)
  end.

Fixpoint map_run (m : gmap Z Z) (ops : list hint_op) : list Z * gmap Z Z :=
  match ops with
  | [] => ([], m)
  | op :: ops =>
      let (r, m) := map_step m op in
      let (rs, m) := map_run m ops in (r :: rs, m)
  end.

(** C28: The table of hints, a table of chains, is equivalent to a map: started empty, every
    sequence of puts and takes has the results that it has on the map, a hint that is taken
    is gone, and the table then represents the map that is left. *)
Theorem hint_table_is_map P ops :
  exists u', hint_run (NewStorageUnit P) ops = Some ((map_run ∅ ops).1, u') /\
    hints_rep (Buckets u') (map_run ∅ ops).2 /\ StorageUnitParams u' = P.
Proof.
  assert (forall u m, hints_rep (Buckets u) m -> StorageUnitParams u = P ->
    exists u', hint_run u ops = Some ((map_run m ops).1, u') /\
      hints_rep (Buckets u') (map_run m ops).2 /\ StorageUnitParams u' = P) as H.
  { induction ops as [|op ops IH]; intros u m Hr HP; cbn [hint_run map_run]; [by exists u|].
    assert (exists B, hint_step u op = Some ((map_step m op).1, with_hints u B) /\
      hints_rep B (map_step m op).2) as (B & -> & HB).
    { destruct op as [h|h v Alloc]; cbn [hint_step map_step].
      - destruct (take_hint_rep u m h Hr) as (B & -> & HB). by exists B.
      - destruct (put_hint_rep u m h v Alloc Hr) as (B & -> & HB). opt. exists B.
        destruct (_ && _); by split. }
    opt. destruct (map_step m op) as [r m1]. cbn [fst snd] in *.
    destruct (IH (with_hints u B) m1 HB HP) as (u' & -> & Hr' & HP').
    destruct (map_run m1 ops) as [rs m2]. by exists u'. }
  apply H; [apply hints_rep_empty|done].
Qed.

(** ** Connections *)

(** The states of a unit in any interleaving of the sections of its threads: the values of
    [Connected] that threads remember, and the number of connections so far.  Hints change in
    between. *)
Inductive pipe_reach : STORAGE_UNIT -> list Z -> Z -> Prop :=
  | reach_open P e p : pipe_reach ((NewStorageUnit P) <| Event := e |> <| Pipe := p |>) [] 0
  | reach_connect u held n Connect Greet u' :
      pipe_reach u held n -> pipe_connect u Connect Greet = Some (ERROR_SUCCESS, u') ->
      pipe_reach u' (Connected u' :: held) (if Client u then n else n + 1)
  | reach_refused u held n Connect Greet Err u' :
      pipe_reach u held n -> pipe_connect u Connect Greet = Some (Err, u') ->
      Err <> ERROR_SUCCESS -> pipe_reach u' held n
  | reach_disconnect u held n c u' :
      pipe_reach u held n -> c ∈ held -> pipe_disconnect u c = Some u' -> pipe_reach u' held n
  | reach_hints u held n B : pipe_reach u held n -> pipe_reach (with_hints u B) held n.

(** [Connected] numbers the connections: it is positive during one, and negative after it. *)
Definition generation (u : STORAGE_UNIT) (n : Z) : Prop :=
  Connected u = (if Client u then n else - n) /\ 0 <= n < 2 ^ 31 /\ (Client u = true -> 0 < n).

Lemma LONG_inv v w : LONG v = Some w -> w = v /\ - 2 ^ 31 <= v < 2 ^ 31.
Proof.
  unfold LONG. destruct (_ && _) eqn:E; [|done]. intros [= <-].
  apply andb_true_iff in E as [E1 E2]. zify_bools. lia.
Qed.

Lemma LONG_small v : - 2 ^ 31 <= v < 2 ^ 31 -> LONG v = Some v.
Proof. intros Hv. unfold LONG. by rewrite (proj2 (Z.leb_le _ _)), (proj2 (Z.ltb_lt _ _)) by lia. Qed.

Lemma connect_generation u n Connect Greet Err u' :
  generation u n -> pipe_connect u Connect Greet = Some (Err, u') ->
  if Err =? ERROR_SUCCESS
  then generation u' (if Client u then n else n + 1) /\ Client u' = true
  else Client u = false /\ generation u' n /\ Client u' = false.
Proof.
  intros (HC & Hn & Hpos) Hc. unfold pipe_connect in Hc.
  destruct (Client u) eqn:Ecl.
  - rewrite Z.geb_leb, (proj2 (Z.leb_gt _ _)) in Hc by (rewrite HC; specialize (Hpos eq_refl); lia).
    injection Hc as <- <-. rewrite Z.eqb_refl. split; [|done].
    split; [by rewrite Ecl|]. split; [done|]. intros _. by apply Hpos.
  - rewrite Z.geb_leb, (proj2 (Z.leb_le _ _)) in Hc by lia.
    destruct (_ || _) eqn:E1.
    + destruct (Z.eqb_spec ERROR_SUCCESS (WaitOverlappedResult Greet)) as [E|E].
      * apply bind_Some in Hc as (c & [-> _]%LONG_inv & Hc).
        apply bind_Some in Hc as (c & [-> Hr]%LONG_inv & [= <- <-]).
        rewrite <- E, Z.eqb_refl. split; [|done]. split; [simpl; lia|]. split; [lia|]. intros _. lia.
      * injection Hc as <- <-. change (ERROR_NO_DATA =? ERROR_SUCCESS) with false.
        split; [done|]. split; [|done]. split; [done|]. split; [lia|done].
    + injection Hc as <- <-. apply orb_false_iff in E1 as [E1 _].
      rewrite Z.eqb_sym, E1. split; [done|]. split; [|done]. split; [by rewrite Ecl|].
      split; [lia|]. by rewrite Ecl.
Qed.

(** The section that connects never overflows before 2^31 - 1 clients. *)
Lemma pipe_generation_connect u n Connect Greet :
  generation u n -> n < 2 ^ 31 - 1 ->
  exists Err u', pipe_connect u Connect Greet = Some (Err, u') /\
    if Err =? ERROR_SUCCESS
    then generation u' (if Client u then n else n + 1) /\ Client u' = true
    else Client u = false /\ generation u' n /\ Client u' = false.
Proof.
  intros HG Hlt. assert (exists Err u', pipe_connect u Connect Greet = Some (Err, u'))
    as (Err & u' & Hc).
  { pose proof HG as (HC & Hn & Hpos).
    unfold pipe_connect. destruct (0 >=? Connected u) eqn:E1; [|by eexists _, _].
    destruct ((_ =? _) || _); [|by eexists _, _]. destruct (_ =? _); [|by eexists _, _].
    rewrite Z.geb_leb in E1. zify_bools. rewrite HC in *.
    rewrite LONG_small by (destruct (Client u); lia). opt.
    rewrite LONG_small by (destruct (Client u); lia). opt. by eexists _, _. }
  exists Err, u'. split; [done|]. by apply (connect_generation u n Connect Greet).
Qed.

(** Disconnecting affects just the connection that the thread has seen. *)
Lemma disconnect_generation u n c :
  generation u n -> 0 < c <= n ->
  exists u', pipe_disconnect u c = Some u' /\ generation u' n /\
    (if Client u && (c =? n) then Client u' = false else u' = u).
Proof.
  intros HG Hc. pose proof HG as (HC & Hn & Hpos). unfold pipe_disconnect.
  destruct (Client u) eqn:Ecl; cbn [andb].
  - rewrite HC. destruct (c =? n); [|by exists u].
    rewrite LONG_small by lia. opt. eexists. split; [done|]. split; [|done].
    split; [done|]. split; [done|]. intros Hf. discriminate Hf.
  - rewrite (proj2 (Z.eqb_neq c _)) by lia. by exists u.
Qed.

Lemma pipe_reach_generation u held n :
  pipe_reach u held n -> generation u n /\ Forall (fun c => 0 < c <= n) held.
Proof.
  induction 1 as [P e p|u held n Connect Greet u' _ [HG HF] Hc|u held n Connect Greet Err u' _ [HG HF] Hc Hne
                 |u held n c u' _ [HG HF] Hin Hd|u held n B _ [HG HF]].
  - split; [|done]. split; [done|]. split; [lia|done].
  - pose proof (connect_generation _ _ _ _ _ _ HG Hc) as H. rewrite Z.eqb_refl in H.
    destruct H as [HG' Hcl]. split; [done|]. apply Forall_cons. split.
    + destruct HG' as (HC & _ & Hpos). rewrite HC, Hcl. specialize (Hpos Hcl). lia.
    + eapply Forall_impl; [exact HF|]. intros c Hcc. simpl in *. case_match; lia.
  - pose proof (connect_generation _ _ _ _ _ _ HG Hc) as H.
    rewrite (proj2 (Z.eqb_neq Err ERROR_SUCCESS)) in H by done. by destruct H as (_ & H & _).
  - rewrite Forall_forall in HF. destruct (disconnect_generation u n c HG (HF c Hin)) as (u1 & E & HG' & _).
    rewrite E in Hd. injection Hd as <-. split; [done|by apply Forall_forall].
  - split; [exact HG|done].
Qed.

(** C27: In every interleaving of the threads that use a pipe, [Connected] is the number of the
    connection while a client is connected, and its negation while none is; so connections
    have different numbers.  A thread that gives up on a connection disconnects the client of
    that connection, or nothing: it never cuts off a later client.  A thread finds the number
    of the connection it uses as long as fewer than 2^31 - 1 clients have connected, and
    disconnecting does not overflow. *)
Theorem pipe_generations u held n :
  pipe_reach u held n ->
  Connected u = (if Client u then n else - n) /\ (Client u = true <-> 0 < Connected u) /\
  (forall c, c ∈ held -> 0 < c <= n /\
     exists u', pipe_disconnect u c = Some u' /\
       (if Client u && (c =? n) then Client u' = false else u' = u)) /\
  (n < 2 ^ 31 - 1 -> forall Connect Greet, exists Err u',
     pipe_connect u Connect Greet = Some (Err, u') /\
     (Err = ERROR_SUCCESS -> Client u' = true /\ Connected u' = if Client u then n else n + 1)).
Proof.
  intros Hr. destruct (pipe_reach_generation u held n Hr) as [HG HF].
  pose proof HG as (HC & Hn & Hpos). split_and!.
  - done.
  - rewrite HC. destruct (Client u).
    + split; [intros _; by apply Hpos|done].
    + split; [done|lia].
  - intros c Hin. rewrite Forall_forall in HF. split; [by apply HF|].
    destruct (disconnect_generation u n c HG (HF c Hin)) as (u' & E & _ & H). by exists u'.
  - intros Hlt Connect Greet.
    destruct (pipe_generation_connect u n Connect Greet HG Hlt) as (Err & u' & Hc & H).
    exists Err, u'. split; [done|]. intros ->. rewrite Z.eqb_refl in H.
    destruct H as [(HC' & _ & _) Hcl]. split; [done|]. by rewrite HC', Hcl.
Qed.

(** A client, its end, and a second client; then a thread of the first connection gives up. *)
Definition io_good : OVERLAPPED_IO := mkIo true 0 1 true 0.
Definition example_pipe (n : Z) (c : bool) : STORAGE_UNIT :=
  mkPipeUnit (mkParams (mkGUID 1 2 3 [1; 2; 3; 4; 5; 6; 7; 8]) 64 512 [] [] 0 false false false
                false 4096) 8 12 false n c (replicate 61 []).

Lemma pipe_generations_witness :
  Connected (example_pipe 2 true) = 2 /\ pipe_disconnect (example_pipe 2 true) 1 = Some (example_pipe 2 true).
Proof.
  assert (pipe_reach (example_pipe 2 true) [2; 1] 2) as Hr.
  { apply (reach_connect (example_pipe (-1) false) [1] 1 io_good io_good);
      [|vm_compute; reflexivity].
    apply (reach_disconnect (example_pipe 1 true) [1] 1 1);
      [|apply list_elem_of_here|vm_compute; reflexivity].
    apply (reach_connect (example_pipe 0 false) [] 0 io_good io_good); [|vm_compute; reflexivity].
    apply reach_open. }
  destruct (pipe_generations (example_pipe 2 true) [2; 1] 2 Hr) as (HC & _ & Hd & _).
  split; [exact HC|]. destruct (Hd 1) as (_ & u' & E & ->); [apply list_elem_of_further, list_elem_of_here|].
  exact E.
Defined.

(** ** Transactions *)

(** The hints of a unit are lengths that fit in a buffer. *)
Definition unit_hints (u : STORAGE_UNIT) (m : gmap Z Z) : Prop :=
  hints_rep (Buckets u) m /\
  (forall h v, m !! h = Some v -> 0 <= v <= MaxTransferLength (StorageUnitParams u)) /\
  0 <= MaxTransferLength (StorageUnitParams u) < 2 ^ 32.

(** The member of the union is the one that the kind selects. *)
Definition request_wf (Req : SPD_IOCTL_TRANSACT_REQ) : Prop :=
  match req_Op Req with
  | OpRead _ _ _ => req_Kind Req = SpdIoctlTransactReadKind
  | OpWrite _ _ _ => req_Kind Req = SpdIoctlTransactWriteKind
  | OpUnmap _ => req_Kind Req = SpdIoctlTransactUnmapKind
  | _ => req_Kind Req <> SpdIoctlTransactReadKind /\ req_Kind Req <> SpdIoctlTransactWriteKind /\
         req_Kind Req <> SpdIoctlTransactUnmapKind
  end.

(** A message as the system delivers it: a header and the bytes after it, if it is that long. *)
Definition message_wf (P : SPD_IOCTL_STORAGE_UNIT_PARAMS) (a : TRANSACT_ANSWERS) : Prop :=
  request_wf (ta_Req a) /\
  (sizeof_TRANSACT_MSG <= ta_BytesTransferred a ->
     Z.of_nat (length (ta_Data a)) = ta_BytesTransferred a - sizeof_TRANSACT_MSG).

(** The data of a request as the storage device is to see them: cut or padded to the length. *)
Definition fit_data (n : Z) (data : list Z) : list Z :=
  take (Z.to_nat n) data ++ replicate (Z.to_nat n - length data) 0.

Lemma fit_data_length n data : length (fit_data n data) = Z.to_nat n.
Proof. unfold fit_data. rewrite length_app, length_take, length_replicate. lia. Qed.

Lemma pipe_data_spec DataBuffer DataLength n data :
  0 <= DataLength <= Z.of_nat (length DataBuffer) -> Z.of_nat (length data) = n ->
  pipe_data DataBuffer DataLength n data =
    Some (fit_data DataLength data ++ drop (Z.to_nat DataLength) DataBuffer).
Proof.
  intros HD Hn. unfold pipe_data. set (k := if n >? DataLength then DataLength else n).
  assert (0 <= k <= DataLength /\ k <= n /\ (k = DataLength \/ k = n)) as (Hk & Hkn & Hkd)
    by (subst k; case_match; zify_bools; lia).
  unfold buf_read. rewrite decide_True by lia. opt. rewrite drop_0.
  set (bs := take (Z.to_nat k) data).
  assert (length bs = Z.to_nat k) as Hbs by (subst bs; rewrite length_take; lia).
  rewrite buf_write_Some by lia. opt. rewrite take_0, app_nil_l, Nat.add_0_l, Hbs.
  rewrite buf_write_Some by (rewrite length_app, length_drop, length_replicate; lia).
  f_equal. rewrite take_app_length' by done. rewrite length_replicate.
  rewrite drop_app_ge by lia. rewrite Hbs, drop_drop. unfold fit_data.
  rewrite <- app_assoc. f_equal; [|f_equal; [f_equal; lia|f_equal; lia]].
  subst bs. destruct Hkd as [->| ->]; [done|]. rewrite !take_ge by lia. done.
Qed.

(** A response that carries data: the data, and the hints that are left. *)
Definition carries_data (Rsp : SPD_IOCTL_TRANSACT_RSP) (DataBuffer : option (list Z)) : bool :=
  bool_decide (rsp_Kind Rsp = SpdIoctlTransactReadKind) && bool_decide (DataBuffer <> None).

Definition response_data (m : gmap Z Z) (Rsp : SPD_IOCTL_TRANSACT_RSP)
    (DataBuffer : option (list Z)) : list Z :=
  if carries_data Rsp DataBuffer
  then take (Z.to_nat (default 0 (m !! rsp_Hint Rsp))) (default [] DataBuffer) else [].

Definition response_hints (m : gmap Z Z) (Rsp : option SPD_IOCTL_TRANSACT_RSP)
    (DataBuffer : option (list Z)) : gmap Z Z :=
  match Rsp with
  | Some Rsp => if carries_data Rsp DataBuffer then delete (rsp_Hint Rsp) m else m
  | None => m
  end.

(** What a thread gets: a request of zeros, or the request of the client, of a length that fits
    in the buffer, which holds its data; the length of a read is recorded under its hint. *)
Definition request_outcome (P : SPD_IOCTL_STORAGE_UNIT_PARAMS) (m m' : gmap Z Z)
    (a : TRANSACT_ANSWERS) (buf : list Z) (q : SPD_IOCTL_TRANSACT_REQ) (buf' : list Z) : Prop :=
  (q = ReqZero /\ m' = m /\ buf' = buf) \/
  (q = ta_Req a /\ request_length P q <= MaxTransferLength P /\
   if req_Kind q =? SpdIoctlTransactReadKind
   then m !! req_Hint q = None /\ m' = <[req_Hint q := request_length P q]> m /\ buf' = buf
   else m' = m /\
        buf' = fit_data (request_length P q) (ta_Data a) ++
               drop (Z.to_nat (request_length P q)) buf).

(** The outcome of a transaction that has not failed. *)
Definition transact_outcome (P : SPD_IOCTL_STORAGE_UNIT_PARAMS) (m m' : gmap Z Z)
    (Rsp : option SPD_IOCTL_TRANSACT_RSP) (Req : bool) (DataBuffer : option (list Z))
    (a : TRANSACT_ANSWERS) (r : TRANSACT_RESULT) : Prop :=
  (tr_Sent r = None \/
   exists R, Rsp = Some R /\ tr_Sent r = Some (R, response_data m R DataBuffer)) /\
  (if Req
   then exists q buf buf', tr_Req r = Some q /\ DataBuffer = Some buf /\ tr_DataBuffer r = Some buf' /\
          exists m1, (m1 = m \/ m1 = response_hints m Rsp DataBuffer) /\
            request_outcome P m1 m' a buf q buf'
   else tr_Req r = None /\ tr_DataBuffer r = DataBuffer /\
        (m' = m \/ m' = response_hints m Rsp DataBuffer)).

Section Exchange.
Context (u : STORAGE_UNIT) (m : gmap Z Z) (Hu : unit_hints u m).
Let P := StorageUnitParams u.

Lemma request_length_bound Req : 0 <= request_length P Req < 2 ^ 32.
Proof using.
  unfold request_length. destruct (req_Op Req); try apply u32_bound; lia.
Qed.

(** The response: what is sent, and the hint that is used up. *)
Lemma pipe_message_spec Rsp DataBuffer :
  (forall buf, DataBuffer = Some buf -> Z.of_nat (length buf) = MaxTransferLength P) ->
  exists data B,
    pipe_message u Rsp DataBuffer = Some (Rsp, data, with_hints u B) /\
    unit_hints (with_hints u B) (response_hints m (Some Rsp) DataBuffer) /\
    data = response_data m Rsp DataBuffer.
Proof using Hu.
  intros Hbuf. destruct Hu as (Hr & Hv & HM).
  unfold pipe_message, response_hints, response_data, carries_data.
  destruct (Z.eqb_spec SpdIoctlTransactReadKind (rsp_Kind Rsp)) as [<-|Hk].
  2: { opt. change (0 =? 0) with true. cbn [negb]. opt. exists [], (Buckets u).
       rewrite bool_decide_false by congruence. cbn [andb].
       replace (with_hints u (Buckets u)) with u by (by destruct u). done. }
  rewrite bool_decide_true by done. destruct DataBuffer as [buf|]; cbn [andb].
  2: { opt. change (0 =? 0) with true. cbn [negb]. opt. exists [], (Buckets u).
       rewrite bool_decide_false by auto.
       replace (with_hints u (Buckets u)) with u by (by destruct u). done. }
  rewrite bool_decide_true by done. destruct (take_hint_rep u m (rsp_Hint Rsp) Hr) as (B & -> & HB).
  opt. change (StorageUnitParams (with_hints u B)) with P. specialize (Hbuf buf eq_refl).
  set (v := default 0 (m !! rsp_Hint Rsp)).
  assert (0 <= v <= MaxTransferLength P) as Hvb.
  { subst v. destruct (m !! rsp_Hint Rsp) eqn:E; simpl; [by apply (Hv _ _ E)|fold P in HM; lia]. }
  exists (take (Z.to_nat v) buf), B. split; [|split; [|done]].
  - destruct (Z.eqb_spec 0 v) as [<-|Hne]; cbn [negb]; opt; [by rewrite take_0|].
    rewrite Z.gtb_ltb, (proj2 (Z.ltb_ge _ _)) by lia.
    unfold buf_read. rewrite decide_True by lia. opt. by rewrite drop_0.
  - split; [done|]. split; [|done]. intros h w Hw. apply (Hv h).
    by apply lookup_delete_Some in Hw as [_ Hw].
Qed.

(** What is read: the request is dropped, or it is good and its data are in the buffer. *)
Lemma pipe_request_spec a buf :
  message_wf P a -> Z.of_nat (length buf) = MaxTransferLength P ->
  exists good buf' B m',
    pipe_request u (ta_Req a) (ta_Data a) (ta_BytesTransferred a) buf (ta_Item a)
      = Some (good, buf', with_hints u B) /\ unit_hints (with_hints u B) m' /\
    length buf' = length buf /\
    (if good then
       request_length P (ta_Req a) <= MaxTransferLength P /\
       (if req_Kind (ta_Req a) =? SpdIoctlTransactReadKind
        then m !! req_Hint (ta_Req a) = None /\
             m' = <[req_Hint (ta_Req a) := request_length P (ta_Req a)]> m /\ buf' = buf
        else m' = m /\ buf' = fit_data (request_length P (ta_Req a)) (ta_Data a) ++
                               drop (Z.to_nat (request_length P (ta_Req a))) buf)
     else m' = m /\ buf' = buf).
Proof using Hu.
  intros [Hq Hd] Hbuf. pose proof Hu as (Hr & Hv & HM). unfold pipe_request. fold P.
  assert (forall b : bool, exists good buf' B m',
    Some (b, buf, u) = Some (good, buf', with_hints u B) /\ unit_hints (with_hints u B) m' /\
    length buf' = length buf /\ good = b /\ m' = m /\ buf' = buf) as Hsame.
  { intros b. exists b, buf, (Buckets u), m.
    replace (with_hints u (Buckets u)) with u by (by destruct u). done. }
  destruct (Hsame false) as (g & b' & B0 & m0 & E0 & HU0 & HL0 & -> & -> & ->).
  destruct (sizeof_TRANSACT_MSG >? ta_BytesTransferred a) eqn:Es.
  { exists false, buf, B0, m. done. }
  zify_bools. specialize (Hd Es). pose proof (request_length_bound (ta_Req a)) as Hlen.
  destruct (Z.eqb_spec SpdIoctlTransactReadKind (req_Kind (ta_Req a))) as [Ek|Hk].
  { rewrite <- Ek, Z.eqb_refl. destruct (_ >? _) eqn:El; [by exists false, buf, B0, m|]. zify_bools.
    destruct (put_hint_rep u m (req_Hint (ta_Req a)) (request_length P (ta_Req a)) (ta_Item a) Hr)
      as (B & -> & HB). opt. eexists _, buf, B, _. split; [done|].
    split; [split; [exact HB|split; [|exact HM]]|].
    - destruct (bool_decide _ && ta_Item a); [|exact Hv].
      intros h w [[_ <-]|[_ Hw]]%lookup_insert_Some; [simpl; fold P; lia|by apply (Hv h)].
    - destruct (bool_decide_reflect (m !! req_Hint (ta_Req a) = None)), (ta_Item a);
        cbn [andb]; by split_and!. }
  rewrite (proj2 (Z.eqb_neq (req_Kind (ta_Req a)) _)) by congruence.
  destruct (_ || _) eqn:Eo.
  - destruct (_ >? _) eqn:El; [by exists false, buf, B0, m|]. zify_bools.
    rewrite pipe_data_spec by (try done; lia). opt.
    exists true, (fit_data (request_length P (ta_Req a)) (ta_Data a) ++
              drop (Z.to_nat (request_length P (ta_Req a))) buf), (Buckets u), m.
    replace (with_hints u (Buckets u)) with u by (by destruct u).
    split_and!; try done. rewrite length_app, fit_data_length, length_drop. lia.
  - apply orb_false_iff in Eo as [E1 E2]. zify_bools.
    assert (request_length P (ta_Req a) = 0) as Hz.
    { unfold request_wf in Hq. unfold request_length. destruct (req_Op (ta_Req a)); congruence. }
    exists true, buf, (Buckets u), m. rewrite Hz.
    replace (with_hints u (Buckets u)) with u by (by destruct u).
    split_and!; try done. fold P in HM. lia.
Qed.
End Exchange.

(** ** The whole transaction *)

Lemma connect_keeps u Connect Greet Err u' :
  pipe_connect u Connect Greet = Some (Err, u') ->
  Buckets u' = Buckets u /\ StorageUnitParams u' = StorageUnitParams u.
Proof.
  unfold pipe_connect. intros Hc. destruct (0 >=? _); [|by injection Hc as <- <-].
  destruct (_ || _); [|by injection Hc as <- <-].
  destruct (_ =? _); [|by injection Hc as <- <-].
  apply bind_Some in Hc as (c & _ & Hc). by apply bind_Some in Hc as (c' & _ & [= <- <-]).
Qed.

Lemma disconnect_keeps u c u' :
  pipe_disconnect u c = Some u' ->
  Buckets u' = Buckets u /\ StorageUnitParams u' = StorageUnitParams u.
Proof.
  unfold pipe_disconnect. intros Hd. destruct (_ =? _); [|by injection Hd as <-].
  by apply bind_Some in Hd as (c' & _ & [= <-]).
Qed.

Lemma unit_hints_keeps u u' m :
  Buckets u' = Buckets u -> StorageUnitParams u' = StorageUnitParams u ->
  unit_hints u m -> unit_hints u' m.
Proof. unfold unit_hints. by intros -> ->. Qed.

Lemma disconnect_unit u m n c :
  unit_hints u m -> generation u n -> 0 < c <= n ->
  exists u', pipe_disconnect u c = Some u' /\ unit_hints u' m /\ generation u' n /\
    StorageUnitParams u' = StorageUnitParams u.
Proof.
  intros Hu HG Hc. destruct (disconnect_generation u n c HG Hc) as (u' & E & HG' & _).
  destruct (disconnect_keeps _ _ _ E) as [HB HP]. exists u'. split_and!; try done.
  by eapply unit_hints_keeps.
Qed.

Lemma exchange_spec u m n Rsp Req DataBuffer a :
  unit_hints u m -> generation u n -> Client u = true ->
  message_wf (StorageUnitParams u) a -> (Req = true -> DataBuffer <> None) ->
  (forall buf, DataBuffer = Some buf ->
     Z.of_nat (length buf) = MaxTransferLength (StorageUnitParams u)) ->
  exists r u' m', pipe_exchange u (Connected u) Rsp Req DataBuffer a = Some (r, u') /\
    unit_hints u' m' /\ generation u' n /\ StorageUnitParams u' = StorageUnitParams u /\
    tr_Error r = ERROR_SUCCESS /\
    transact_outcome (StorageUnitParams u) m m' Rsp Req DataBuffer a r.
Proof.
  intros Hu HG Hcl Hwf Hreq Hbuf. unfold pipe_exchange, transact_outcome.
  assert (0 < Connected u <= n) as Hc.
  { destruct HG as (HC & Hn & Hpos). rewrite HC, Hcl. specialize (Hpos Hcl). lia. }
  set (m1 := response_hints m Rsp DataBuffer).
  set (sent := (fun R => (R, response_data m R DataBuffer)) <$> Rsp).
  (* the response *)
  assert (exists B, match Rsp with
    | Some Rsp => '(Rsp, data, u) ← pipe_message u Rsp DataBuffer; Some (Some (Rsp, data), u)
    | None => Some (None, u)
    end = Some (sent, with_hints u B) /\ unit_hints (with_hints u B) m1) as (B & -> & Hu1).
  { subst sent. destruct Rsp as [R|].
    - destruct (pipe_message_spec u m Hu R DataBuffer Hbuf) as (data & B & -> & HB & ->).
      opt. by exists B.
    - exists (Buckets u). by replace (with_hints u (Buckets u)) with u by (by destruct u). }
  opt. set (u1 := with_hints u B) in *.
  assert (generation u1 n) as HG1 by exact HG.
  assert (sent = None \/ exists R, Rsp = Some R /\ sent = Some (R, response_data m R DataBuffer)) as Hsent.
  { subst sent. destruct Rsp as [R|]; simpl; [right; by exists R|by left]. }
  assert (forall s, (s = None \/ s = sent) ->
    (s = None \/ exists R, Rsp = Some R /\ s = Some (R, response_data m R DataBuffer))) as Hs.
  { intros s [->| ->]; [by left|exact Hsent]. }
  (* the code at disconnect *)
  assert (forall s, (s = None \/ s = sent) -> exists r u' m',
    (u ← pipe_disconnect u1 (Connected u); Some (pipe_zeroout u Req DataBuffer s)) = Some (r, u') /\
    unit_hints u' m' /\ generation u' n /\ StorageUnitParams u' = StorageUnitParams u /\
    tr_Error r = ERROR_SUCCESS /\
    transact_outcome (StorageUnitParams u) m m' Rsp Req DataBuffer a r) as Hdisc.
  { intros s Hin. destruct (disconnect_unit u1 m1 n (Connected u) Hu1 HG1 Hc) as (u' & -> & Hu' & HG' & HP').
    opt. eexists _, u', m1. split; [done|]. split_and!; try done. split; [by apply Hs|].
    destruct Req; cbn; [|by split_and!; try done; right].
    destruct DataBuffer as [buf|]; [|by destruct (Hreq eq_refl)].
    exists ReqZero, buf, buf. split_and!; try done. exists m1. split; [by right|]. by left. }
  destruct (match Rsp with Some _ => _ | None => _ end); [apply Hdisc; by left|].
  destruct Req.
  2: { eexists _, u1, m1. split; [done|]. split_and!; try done; cbn. by right. }
  destruct (negb _); [apply Hdisc; by right|].
  destruct DataBuffer as [buf|]; [|by destruct (Hreq eq_refl)]. opt.
  destruct (pipe_request_spec u1 m1 Hu1 a buf Hwf (Hbuf buf eq_refl))
    as (good & buf' & B' & m' & -> & Hu' & Hlen & Hgood). opt.
  destruct good; cbn [negb].
  - destruct Hgood as [Hl Hgood]. eexists _, (with_hints u1 B'), m'. split; [done|].
    split_and!; try done. exists (ta_Req a), buf, buf'. split_and!; try done.
    exists m1. split; [by right|]. right. by split_and!.
  - destruct Hgood as [-> ->]. eexists _, (with_hints u1 B'), m1. split; [done|].
    split_and!; try done. exists ReqZero, buf, buf. split_and!; try done.
    exists m1. split; [by right|]. by left.
Qed.

(** C25: A transaction on a pipe never goes past the end of a buffer, whatever the client sends:
    it always has a result.  An unknown handle or a stopped wait is an error that leaves the
    hints alone.  Otherwise the response goes out with the bytes of the buffer that the hint of
    its read has recorded, and no others, and the hint is used up; the request that is received
    is good, and no longer than the buffer, which holds the data of a write or an unmap, cut or
    padded with zeros, or it is replaced by zeros; the length of a read is recorded under its
    hint, which was free.  The representation of the hints and of the connection is kept. *)
Theorem pipe_transact_safe H Table Handle Btl u m n Rsp Req DataBuffer a :
  StorageUnits H = Some Table -> Table !! Z.to_nat (SPD_INDEX_FROM_BTL Btl) = Some Handle ->
  Units H !! Handle = Some u ->
  unit_hints u m -> generation u n -> n < 2 ^ 31 - 1 ->
  message_wf (StorageUnitParams u) a ->
  (forall buf, DataBuffer = Some buf ->
     Z.of_nat (length buf) = MaxTransferLength (StorageUnitParams u)) ->
  exists r u' m' n',
    SpdStorageUnitHandleTransactPipe H Handle Btl Rsp Req DataBuffer a =
      Some (r, H <| Units := <[Handle := u']> (Units H) |>) /\
    unit_hints u' m' /\ generation u' n' /\ n <= n' <= n + 1 /\
    StorageUnitParams u' = StorageUnitParams u /\
    (if tr_Error r =? ERROR_SUCCESS
     then transact_outcome (StorageUnitParams u) m m' Rsp Req DataBuffer a r
     else m' = m /\ tr_Req r = None /\ tr_Sent r = None /\ tr_DataBuffer r = DataBuffer).
Proof.
  intros HT Hi HU Hu HG Hn Hwf Hbuf. unfold SpdStorageUnitHandleTransactPipe.
  assert (H <| Units := <[Handle := u]> (Units H) |> = H) as Hid.
  { destruct H as [T Us Hs]. change (mkProcess T (<[Handle := u]> Us) Hs = mkProcess T Us Hs).
    f_equal. by apply insert_id. }
  assert (forall e, (e =? ERROR_SUCCESS) = false -> exists r u' m' n',
    Some (mkResult e None DataBuffer None, H) =
      Some (r, H <| Units := <[Handle := u']> (Units H) |>) /\
    unit_hints u' m' /\ generation u' n' /\ n <= n' <= n + 1 /\
    StorageUnitParams u' = StorageUnitParams u /\
    (if tr_Error r =? ERROR_SUCCESS
     then transact_outcome (StorageUnitParams u) m m' Rsp Req DataBuffer a r
     else m' = m /\ tr_Req r = None /\ tr_Sent r = None /\ tr_DataBuffer r = DataBuffer)) as Hfail.
  { intros e He. eexists _, u, m, n. rewrite Hid. split; [done|]. cbn [tr_Error]. rewrite He.
    split_and!; try done; lia. }
  destruct (_ || _) eqn:Ev; [by apply Hfail|]. apply orb_false_iff in Ev as [_ Ev].
  assert (Req = true -> DataBuffer <> None) as Hreq.
  { intros -> ->. done. }
  destruct (negb (ERROR_SUCCESS =? ta_Overlapped a)) eqn:Eo.
  { apply Hfail. rewrite Z.eqb_sym. by apply negb_true_iff. }
  rewrite HT. opt. rewrite Hi. opt. rewrite Z.eqb_refl. cbn [negb].
  destruct (ta_Msg a); cbn [negb]; [|by apply Hfail]. rewrite HU. opt.
  destruct (pipe_generation_connect u n (ta_Connect a) (ta_Greet a) HG Hn) as (err & u1 & Hc & HG1).
  rewrite Hc. opt. destruct (connect_keeps _ _ _ _ _ Hc) as [HB HP].
  assert (unit_hints u1 m) as Hu1 by (by eapply unit_hints_keeps).
  destruct (ERROR_NO_DATA =? err) eqn:E1.
  { opt. eexists _, u1, m, _. split; [done|]. apply Z.eqb_eq in E1 as <-.
    change (ERROR_NO_DATA =? ERROR_SUCCESS) with false in HG1.
    split_and!; try done; try apply HG1; try lia. cbn. split; [by left|]. destruct Req; cbn.
    - destruct DataBuffer as [buf|]; [|by destruct (Hreq eq_refl)].
      exists ReqZero, buf, buf. split_and!; try done. exists m. split; by left.
    - by split_and!; try done; left. }
  destruct (ERROR_SUCCESS =? err) eqn:E2; cbn [negb].
  - apply Z.eqb_eq in E2 as <-. change (ERROR_SUCCESS =? ERROR_SUCCESS) with true in HG1.
    destruct HG1 as [HG1 Hcl]. rewrite <- HP in Hwf, Hbuf.
    destruct (exchange_spec u1 m _ Rsp Req DataBuffer a Hu1 HG1 Hcl Hwf Hreq Hbuf)
      as (r & u' & m' & -> & Hu' & HG' & HP' & Hr & Ho). opt.
    eexists r, u', m', _. split; [done|]. split; [done|]. split; [exact HG'|].
    split; [destruct (Client u); lia|]. split; [congruence|].
    rewrite Hr, Z.eqb_refl. by rewrite <- HP.
  - opt. eexists _, u1, m, n. split; [done|]. cbn [tr_Error]. rewrite Z.eqb_sym in E2.
    rewrite E2 in HG1 |- *.
    destruct HG1 as (_ & HG1 & _). split_and!; try done; lia.
Qed.

Lemma pipe_transact_safe_witness :
  let u := example_pipe 1 true in
  exists r H', SpdStorageUnitHandleTransactPipe (mkProcess (Some (replicate 16 4096)) {[4096 := u]} ∅)
    4096 0 None true (Some (replicate 4096 7))
    (mkAnswers 0 true true io_good io_good io_good io_good 48 ReqZero []) = Some (r, H') /\
    tr_Error r = 0.
Proof.
  intros u. set (H := mkProcess (Some (replicate 16 4096)) {[4096 := u]} ∅).
  destruct (pipe_transact_safe H (replicate 16 4096) 4096 0 u ∅ 1 None true (Some (replicate 4096 7))
    (mkAnswers 0 true true io_good io_good io_good io_good 48 ReqZero []))
    as (r & u' & m' & n' & E & _ & _ & _ & _ & Ho).
  - reflexivity.
  - reflexivity.
  - apply lookup_singleton_eq.
  - split; [apply hints_rep_empty|]. split; [|vm_compute; split; congruence].
    intros h v Hm. rewrite lookup_empty in Hm. discriminate Hm.
  - split; [reflexivity|]. split; [lia|]. intros _. lia.
  - lia.
  - split; [vm_compute; split_and!; congruence|]. intros _. reflexivity.
  - intros buf [= <-]. reflexivity.
  - eexists r, _. split; [exact E|]. destruct (tr_Error r =? ERROR_SUCCESS) eqn:Er.
    + by apply Z.eqb_eq in Er.
    + destruct Ho as (_ & Hq & _). exfalso. clear -E Hq Er.
      assert (tr_Error <$> (fst <$> SpdStorageUnitHandleTransactPipe H 4096 0 None true
        (Some (replicate 4096 7)) (mkAnswers 0 true true io_good io_good io_good io_good 48 ReqZero []))
        = Some 0) as E0 by (vm_compute; reflexivity).
      rewrite E in E0. injection E0 as E0. rewrite E0 in Er. discriminate Er.
Defined.

(** * Opening, shutting down and closing a pipe unit

    The life of a unit in the table of the process: what opening takes, what a failure gives
    back, and what shutting down and closing restore. *)

Definition Capacity : nat := Z.to_nat SPD_IOCTL_STORAGE_UNIT_MAX_CAPACITY.

Lemma eqb_lookup_bytes (k : nat) (a b : list Z) :
  length a = k -> length b = k ->
  forallb (fun I : nat => default 0 (a !! I) =? default 0 (b !! I)) (seq 0 k) = true -> a = b.
Proof.
  intros Ha Hb Hall. apply list_eq. intros i. rewrite forallb_forall in Hall.
  destruct (decide (i < k)%nat) as [Hi|Hi].
  - specialize (Hall i ltac:(apply in_seq; lia)). apply Z.eqb_eq in Hall.
    destruct (lookup_lt_is_Some_2 a i ltac:(lia)) as [x Hx], (lookup_lt_is_Some_2 b i ltac:(lia)) as [y Hy].
    rewrite Hx, Hy in *. simpl in Hall. congruence.
  - rewrite !lookup_ge_None_2 by lia. done.
Qed.

Lemma GuidEqual_spec a b :
  length (Data4 a) = 8%nat -> length (Data4 b) = 8%nat -> GuidEqual a b = true <-> a = b.
Proof.
  intros Ha Hb. unfold GuidEqual. split.
  - rewrite !andb_true_iff, !Z.eqb_eq. intros [[[E1 E2] E3] E4].
    apply (eqb_lookup_bytes 8) in E4; [|done..]. destruct a, b. simpl in *. congruence.
  - intros ->. rewrite !Z.eqb_refl. cbn [andb]. apply forallb_forall. intros i _. apply Z.eqb_refl.
Qed.

Lemma GuidEqual_refl a : GuidEqual a a = true.
Proof.
  unfold GuidEqual. rewrite !Z.eqb_refl. cbn [andb]. apply forallb_forall. intros i _. apply Z.eqb_refl.
Qed.

(** A table has its full size, and its entries are empty or point to units. *)
Definition table_wf (Us : gmap Z STORAGE_UNIT) (Table : list Z) : Prop :=
  length Table = Capacity /\
  forall i p, Table !! i = Some p -> p <> 0 ->
    exists u, Us !! p = Some u /\ length (Data4 (Guid (StorageUnitParams u))) = 8%nat.

(** No unit from [I] on has the GUID. *)
Definition guid_free (Us : gmap Z STORAGE_UNIT) (Table : list Z) (I : nat) (G : GUID) : Prop :=
  forall j p u, (I <= j)%nat -> Table !! j = Some p -> p <> 0 -> Us !! p = Some u ->
    Guid (StorageUnitParams u) <> G.

Lemma pipe_scan_spec H Table G n I Btl :
  table_wf (Units H) Table -> length (Data4 G) = 8%nat -> (I + n)%nat = Capacity ->
  exists d b, pipe_scan n I H Table G Btl = Some (d, b) /\
    (d <> 0 -> exists j u, Table !! j = Some d /\ Units H !! d = Some u /\
       Guid (StorageUnitParams u) = G) /\
    (d = 0 -> guid_free (Units H) Table I G /\
       if NO_BTL =? Btl
       then (b = NO_BTL /\ forall j, (I <= j)%nat -> Table !! j <> Some 0) \/
            (exists j, (I <= j)%nat /\ b = SPD_BTL_FROM_INDEX (Z.of_nat j) /\ Table !! j = Some 0 /\
               forall i, (I <= i < j)%nat -> Table !! i <> Some 0)
       else b = Btl).
Proof.
  intros [HL HT] HG. revert I Btl. induction n as [|n IH]; intros I Btl HI.
  - exists 0, Btl. split; [done|]. split; [done|]. intros _.
    assert (forall j, (I <= j)%nat -> Table !! j = None) as Hn
      by (intros j Hj; apply lookup_ge_None_2; lia).
    split; [intros j p u Hj Hp; by rewrite Hn in Hp|].
    destruct (Z.eqb_spec NO_BTL Btl) as [<-|]; [left|done]. split; [done|].
    intros j Hj. by rewrite Hn.
  - cbn [pipe_scan]. destruct (lookup_lt_is_Some_2 Table I ltac:(lia)) as [p Hp]. rewrite Hp. opt.
    assert (forall j, (I <= j)%nat -> j = I \/ (S I <= j)%nat) as Hcase by lia.
    destruct (Z.eqb_spec 0 p) as [<-|Hne].
    + destruct (IH (S I) (if NO_BTL =? Btl then SPD_BTL_FROM_INDEX (Z.of_nat I) else Btl) ltac:(lia))
        as (d & b & Hs & H1 & H2). exists d, b. split; [exact Hs|]. split; [exact H1|]. intros Hd.
      destruct (H2 Hd) as [Hf Hb]. split.
      * intros j q u Hj Hq. destruct (Hcase j Hj) as [->|Hj']; [congruence|by apply (Hf j)].
      * destruct (Z.eqb_spec NO_BTL Btl) as [<-|Hb'].
        2: { by rewrite (proj2 (Z.eqb_neq _ _)) in Hb by done. }
        right. exists I. split; [done|].
        rewrite (proj2 (Z.eqb_neq _ _)) in Hb.
        2: { rewrite btl_from_index_shift by (unfold is_byte; change Capacity with 64%nat in HI; lia).
             unfold NO_BTL. lia. }
        split; [done|]. split; [done|]. intros i Hi. lia.
    + destruct (HT I p Hp ltac:(congruence)) as (u & Hu & Hu4). rewrite Hu. opt.
      destruct (GuidEqual G (Guid (StorageUnitParams u))) eqn:Eg.
      * apply GuidEqual_spec in Eg; [|done..]. exists p, Btl. split; [done|]. split; [|congruence].
        intros _. by exists I, u.
      * destruct (IH (S I) Btl ltac:(lia)) as (d & b & Hs & H1 & H2). exists d, b.
        split; [exact Hs|]. split; [exact H1|]. intros Hd. destruct (H2 Hd) as [Hf Hb]. split.
        -- intros j q u' Hj Hq. destruct (Hcase j Hj) as [->|Hj']; [|by apply (Hf j)].
           intros _ Hu' EG. assert (u' = u) as -> by congruence. subst G.
           by rewrite GuidEqual_refl in Eg.
        -- destruct (NO_BTL =? Btl); [|done].
           assert (forall j, (I <= j)%nat -> Table !! j = Some 0 -> (S I <= j)%nat) as H0
             by (intros j Hj E; destruct (Hcase j Hj) as [->|?]; [congruence|done]).
           destruct Hb as [[-> Hb]|(j & Hj & -> & Hjt & Hb)]; [left|right].
           ++ split; [done|]. intros j Hj E. by apply (Hb j (H0 j Hj E)).
           ++ exists j. split; [lia|]. split; [done|]. split; [done|]. intros i Hi E.
              apply (Hb i); [|done]. split; [apply H0; [lia|done]|lia].
Qed.

Lemma pipe_find_spec H Table G n I i p u :
  table_wf (Units H) Table -> length (Data4 G) = 8%nat -> (I + n)%nat = Capacity -> (I <= i)%nat ->
  Table !! i = Some p -> p <> 0 -> Units H !! p = Some u -> Guid (StorageUnitParams u) = G ->
  (forall j q v, (I <= j < i)%nat -> Table !! j = Some q -> q <> 0 -> Units H !! q = Some v ->
     Guid (StorageUnitParams v) <> G) ->
  pipe_find n I H Table G = Some (Some i).
Proof.
  intros [HL HT] HG. revert I. induction n as [|n IH]; intros I HI Hi Hp Hp0 Hu EG Hf.
  - apply lookup_lt_Some in Hp. lia.
  - cbn [pipe_find]. destruct (decide (I = i)) as [->|Hne].
    + rewrite Hp. opt. rewrite (proj2 (Z.eqb_neq 0 p)) by done. rewrite Hu. opt.
      rewrite EG. by rewrite GuidEqual_refl.
    + destruct (lookup_lt_is_Some_2 Table I ltac:(lia)) as [q Hq]. rewrite Hq. opt.
      assert (pipe_find n (S I) H Table G = Some (Some i)) as Hnext.
      { apply IH; try done; try lia. intros j q' v Hj. apply Hf. lia. }
      destruct (Z.eqb_spec 0 q) as [<-|Hq0]; [done|].
      destruct (HT I q Hq ltac:(congruence)) as (v & Hv & Hv4). rewrite Hv. opt.
      destruct (GuidEqual _ _) eqn:Eg; [|done]. apply GuidEqual_spec in Eg; [|done..].
      exfalso. apply (Hf I q v); [lia|done|congruence|done|congruence].
Qed.

Lemma pipe_find_total H Table G n I :
  table_wf (Units H) Table -> (I + n)%nat = Capacity ->
  exists o, pipe_find n I H Table G = Some o /\
    forall i, o = Some i -> exists p, Table !! i = Some p /\ p <> 0.
Proof.
  intros [HL HT]. revert I. induction n as [|n IH]; intros I HI; cbn [pipe_find]; [by exists None|].
  destruct (lookup_lt_is_Some_2 Table I ltac:(lia)) as [p Hp]. rewrite Hp. opt.
  destruct (Z.eqb_spec 0 p) as [<-|Hne]; [apply IH; lia|].
  destruct (HT I p Hp ltac:(congruence)) as (u & -> & _). opt.
  destruct (GuidEqual _ _); [|apply IH; lia]. exists (Some I). split; [done|].
  intros i [= <-]. by exists p.
Qed.

(** Shutting down never faults. *)
Lemma shutdown_total H T U G :
  StorageUnits H = Some T -> table_wf (Units H) T ->
  exists err H', SpdStorageUnitHandleShutdownPipe H U G = Some (err, H').
Proof.
  intros HS HT. unfold SpdStorageUnitHandleShutdownPipe. rewrite HS, bind_value.
  destruct (pipe_find_total H T G Capacity 0 HT eq_refl) as (o & Ho & Hi).
  change (Z.to_nat SPD_IOCTL_STORAGE_UNIT_MAX_CAPACITY) with Capacity. rewrite Ho, bind_value.
  destruct o as [i|]; [|by eexists _, _]. destruct (Hi i eq_refl) as (p & Hp & Hp0).
  rewrite Hp, bind_value. destruct (Z.eqb_spec U p) as [->|]; [|by eexists _, _].
  destruct HT as [_ HT]. destruct (HT i p Hp Hp0) as (u & Hu & _). rewrite Hu, bind_value. by eexists _, _.
Qed.

(** ** The lifecycle *)

Definition table_of (H : PROCESS) : list Z := default (replicate Capacity 0) (StorageUnits H).

Lemma close_handle h Hs T Us :
  h ∉ Hs -> CloseHandle (mkProcess T Us ({[h]} ∪ Hs)) h = Some (mkProcess T Us Hs).
Proof.
  intros Hh. unfold CloseHandle. cbn [Handles]. rewrite decide_True by set_solver.
  f_equal. change (mkProcess T Us (({[h]} ∪ Hs) ∖ {[h]}) = mkProcess T Us Hs). f_equal. set_solver.
Qed.

(** The code at [exit] gives back the slot, the memory and the event. *)
Lemma open_exit_spec T Us Hs U u d b E :
  Us !! U = None -> U <> 0 -> Pipe u = INVALID_HANDLE_VALUE -> (Event u <> 0 -> Event u ∉ Hs) ->
  (d = 0 -> b <> NO_BTL -> is_Some (T !! Z.to_nat (SPD_INDEX_FROM_BTL b))) ->
  open_exit (mkProcess (Some T) (<[U := u]> Us)
               (if 0 =? Event u then Hs else {[Event u]} ∪ Hs)) U d b E =
    Some (E, INVALID_HANDLE_VALUE, NO_BTL,
          mkProcess (Some (if (0 =? d) && negb (NO_BTL =? b)
                           then <[Z.to_nat (SPD_INDEX_FROM_BTL b) := 0]> T else T)) Us Hs).
Proof.
  intros HU HU0 Hpipe Hev Hb. unfold open_exit. set (X := if 0 =? Event u then Hs else _).
  set (T' := if _ && _ then _ else T).
  set (H := mkProcess (Some T) (<[U := u]> Us) X).
  assert ((if (0 =? d) && negb (NO_BTL =? b)
    then Table ← StorageUnits H;
         _ ← Table !! Z.to_nat (SPD_INDEX_FROM_BTL b);
         Some (H <| StorageUnits := Some (<[Z.to_nat (SPD_INDEX_FROM_BTL b) := 0]> Table) |>)
    else Some H) =
    Some (mkProcess (Some T') (<[U := u]> Us) X)) as ->.
  { subst T'. destruct ((0 =? d) && _) eqn:E1; [|done]. apply andb_true_iff in E1 as [E1 E2].
    apply negb_true_iff in E2. zify_bools. destruct Hb as [x Hx]; [done|congruence|].
    subst H. cbn [StorageUnits]. opt. rewrite Hx. done. }
  opt. rewrite (proj2 (Z.eqb_neq 0 U)) by done. cbn [negb Units]. rewrite lookup_insert_eq. opt.
  rewrite Hpipe, Z.eqb_refl. cbn [negb]. opt.
  assert ((if negb (0 =? Event u) then CloseHandle (mkProcess (Some T') (<[U := u]> Us) X) (Event u)
           else Some (mkProcess (Some T') (<[U := u]> Us) X)) =
          Some (mkProcess (Some T') (<[U := u]> Us) Hs)) as ->.
  { subst X. destruct (Z.eqb_spec 0 (Event u)) as [Ee|Ee]; cbn [negb]; [done|].
    by rewrite close_handle by auto. }
  opt. do 2 f_equal.
  change (mkProcess (Some T') (delete U (<[U := u]> Us)) Hs = mkProcess (Some T') Us Hs).
  f_equal. by apply delete_insert_id.
Qed.

(** What the system gives is new: memory that is not in use, handles that are not open; where it
    gives nothing there is an error. *)
Record answers_wf (H : PROCESS) (a : OPEN_ANSWERS) : Prop := {
  aw_unit : oa_Unit a <> 0 -> Units H !! oa_Unit a = None /\
            IsPipeHandle (oa_Unit a) = false /\ 0 <= oa_Unit a < 2 ^ 64;
  aw_event : oa_Event a <> 0 -> oa_Event a ∉ Handles H;
  aw_pipe : oa_Pipe a <> INVALID_HANDLE_VALUE ->
            (oa_Pipe a ∉ Handles H) /\ oa_Pipe a <> oa_Event a;
  aw_error : oa_EventError a <> 0 /\ oa_PipeError a <> 0
}.

(** A tagged pointer. *)
Lemma pipe_handle_roundtrip p :
  IsPipeHandle p = false -> 0 <= p < 2 ^ 64 ->
  IsPipeHandle (SetPipeHandle p) = true /\ GetPipeHandle (SetPipeHandle p) = p.
Proof.
  unfold IsPipeHandle, SetPipeHandle, GetPipeHandle. intros Hp Hb.
  apply negb_false_iff, Z.eqb_eq in Hp.
  assert (Z.testbit p 0 = false) as H0.
  { pose proof (Z.land_spec p 1 0) as H. rewrite Hp, Z.bits_0, andb_true_r in H. done. }
  split.
  - apply negb_true_iff, Z.eqb_neq. intros E.
    pose proof (Z.land_spec (p .| 1) 1 0) as H. rewrite E, Z.bits_0, Z.lor_spec in H.
    by rewrite orb_true_r in H.
  - apply Z.bits_inj_iff. intros k. rewrite Z.land_spec, Z.lor_spec.
    destruct (Z.ltb_spec k 0) as [Hk|Hk]; [by rewrite !Z.testbit_neg_r by lia|].
    destruct (Z.eqb_spec k 0) as [->|Hk0]; [rewrite H0; done|].
    assert (Z.testbit 1 k = false) as ->.
    { change 1 with (2 ^ 0). rewrite Z.pow2_bits_eqb by lia. by apply Z.eqb_neq. }
    rewrite orb_false_r. destruct (Z.testbit p k) eqn:Ep; [|done]. cbn [andb].
    assert (k < 64) as Hk64.
    { destruct (Z.ltb_spec k 64) as [|Hge]; [done|]. rewrite Z.bits_above_log2 in Ep; [done|lia|].
      destruct (decide (p = 0)) as [->|]; [change (Z.log2 0) with 0; lia|].
      apply Z.log2_lt_pow2; [lia|]. eapply Z.lt_le_trans; [apply Hb|]. apply Z.pow_le_mono_r; lia. }
    change 0xfffffffffffffffe with (Z.ldiff (Z.ones 64) 1).
    rewrite Z.ldiff_spec, Z.ones_spec_low by lia.
    change 1 with (2 ^ 0). rewrite Z.pow2_bits_eqb by lia. by rewrite (proj2 (Z.eqb_neq 0 k)) by done.
Qed.

(** A failed open leaves the process as it was; the table may have been allocated. *)
Definition open_failed (H : PROCESS) (err h b : Z) (H' : PROCESS) : Prop :=
  err <> ERROR_SUCCESS /\ h = INVALID_HANDLE_VALUE /\ b = NO_BTL /\
  Units H' = Units H /\ Handles H' = Handles H /\ table_of H' = table_of H.

(** An open takes the first free slot for a GUID that is not in the table. *)
Definition open_succeeded (H : PROCESS) (P : SPD_IOCTL_STORAGE_UNIT_PARAMS) (a : OPEN_ANSWERS)
    (h b : Z) (H' : PROCESS) (i : nat) : Prop :=
  h = SetPipeHandle (oa_Unit a) /\ b = SPD_BTL_FROM_INDEX (Z.of_nat i) /\
  table_of H !! i = Some 0 /\ (forall j, (j < i)%nat -> table_of H !! j <> Some 0) /\
  guid_free (Units H) (table_of H) 0 (Guid P) /\
  oa_Unit a <> 0 /\ oa_Event a <> 0 /\ oa_Pipe a <> INVALID_HANDLE_VALUE /\
  H' = mkProcess (Some (<[i := oa_Unit a]> (table_of H)))
         (<[oa_Unit a := (NewStorageUnit P) <| Event := oa_Event a |> <| Pipe := oa_Pipe a |>]> (Units H))
         ({[oa_Pipe a]} ∪ ({[oa_Event a]} ∪ Handles H)).

Lemma open_spec H P a :
  table_wf (Units H) (table_of H) -> length (Data4 (Guid P)) = 8%nat -> answers_wf H a ->
  exists err h b H', SpdStorageUnitHandleOpenPipe H P a = Some (err, h, b, H') /\
    (if err =? ERROR_SUCCESS then exists i, open_succeeded H P a h b H' i
     else open_failed H err h b H').
Proof.
  intros HT HG Ha. unfold SpdStorageUnitHandleOpenPipe.
  assert (forall T e, table_of (mkProcess T (Units H) (Handles H)) = table_of H ->
      e <> ERROR_SUCCESS -> exists err h b H',
      Some (e, INVALID_HANDLE_VALUE, NO_BTL, mkProcess T (Units H) (Handles H)) = Some (err, h, b, H') /\
      (if err =? ERROR_SUCCESS then exists i, open_succeeded H P a h b H' i
       else open_failed H err h b H')) as Hfail.
  { intros T e HTe He. eexists e, _, _, _. split; [done|].
    rewrite (proj2 (Z.eqb_neq e _)) by done. by split_and!. }
  set (H1 := match StorageUnits H with None => _ | Some _ => H end).
  assert (H1 = mkProcess (StorageUnits H1) (Units H) (Handles H) /\
          (StorageUnits H1 = Some (table_of H) \/
           (StorageUnits H1 = None /\ StorageUnits H = None))) as [E1 HS].
  { subst H1. unfold table_of. destruct H as [[T|] Us Hs]; cbn.
    - split; [done|by left].
    - destruct (oa_Table a); cbn; split; try done; [by left|by right]. }
  destruct HS as [HS|[HS HS0]].
  2: { rewrite HS. rewrite E1, HS. apply (Hfail None); [by unfold table_of; cbn; rewrite HS0|done]. }
  rewrite HS. rewrite E1, HS. clear E1 HS H1. set (T := table_of H).
  assert (forall e, e <> ERROR_SUCCESS -> exists err h b H',
      Some (e, INVALID_HANDLE_VALUE, NO_BTL, mkProcess (Some T) (Units H) (Handles H)) =
        Some (err, h, b, H') /\
      (if err =? ERROR_SUCCESS then exists i, open_succeeded H P a h b H' i
       else open_failed H err h b H')) as Hfail' by (intros e; by apply Hfail). clear Hfail.
  destruct (Z.eqb_spec 0 (oa_Unit a)) as [E0|E0]; [by apply Hfail'|].
  destruct (aw_unit _ _ Ha ltac:(congruence)) as (HU & Htag & Hb64).
  set (H2 := mkProcess (Some T) (<[oa_Unit a := NewStorageUnit P]> (Units H)) (Handles H)).
  assert (forall p u, Units H !! p = Some u -> Units H2 !! p = Some u) as Hold.
  { intros p u Hp. subst H2. cbn [Units]. rewrite lookup_insert_ne; [done|congruence]. }
  assert (table_wf (Units H2) T) as HT2.
  { destruct HT as [HL HT]. split; [done|]. intros i p Hp Hp0.
    destruct (HT i p Hp Hp0) as (u & Hu & H8). exists u. auto. }
  destruct (pipe_scan_spec H2 T (Guid P) Capacity 0 NO_BTL HT2 HG eq_refl) as (d & b & Hs & H3 & H4).
  change (Z.to_nat SPD_IOCTL_STORAGE_UNIT_MAX_CAPACITY) with Capacity.
  change ((mkProcess (Some T) (Units H) (Handles H))
    <| Units := <[oa_Unit a := NewStorageUnit P]> (Units (mkProcess (Some T) (Units H) (Handles H))) |>)
    with H2.
  rewrite Hs. opt.
  pose proof (open_exit_spec T (Units H) (Handles H) (oa_Unit a) (NewStorageUnit P)) as Hexit.
  change (if 0 =? Event (NewStorageUnit P) then _ else _) with (Handles H) in Hexit.
  fold H2 in Hexit. cbn [Event Pipe NewStorageUnit] in Hexit.
  destruct (Z.eqb_spec 0 d) as [<-|Hd]; cbn [negb andb].
  2: { opt. rewrite Hexit by congruence.
       rewrite (proj2 (Z.eqb_neq 0 d)) by done. by apply Hfail'. }
  destruct (H4 eq_refl) as [Hfree Hb]. rewrite Z.eqb_refl in Hb.
  destruct (Z.eqb_spec NO_BTL b) as [<-|Hbn]; cbn [negb].
  { opt. rewrite Hexit by congruence. rewrite !Z.eqb_refl. by apply Hfail'. }
  destruct Hb as [[Hb _]|(j & _ & -> & Hj & Hfirst)]; [congruence|].
  assert (j < Capacity)%nat as Hjc by (destruct HT as [<- _]; by eapply lookup_lt_Some).
  rewrite index_from_btl in * by (unfold is_byte; change Capacity with 64%nat in Hjc; lia).
  rewrite Nat2Z.id in *. rewrite Hj. opt.
  set (T' := <[j := oa_Unit a]> T).
  assert (<[j := 0]> T' = T) as HT'.
  { subst T'. rewrite list_insert_insert_eq. by apply list_insert_id. }
  assert (is_Some (T' !! j)) as HjT'.
  { subst T'. apply lookup_lt_is_Some_2. rewrite length_insert. apply lookup_lt_Some in Hj. exact Hj. }
  pose proof (fun u E => open_exit_spec T' (Units H) (Handles H) (oa_Unit a) u 0
    (SPD_BTL_FROM_INDEX (Z.of_nat j)) E HU ltac:(congruence)) as Hexit'.
  rewrite index_from_btl in Hexit' by (unfold is_byte; change Capacity with 64%nat in Hjc; lia).
  rewrite Nat2Z.id, (proj2 (Z.eqb_neq NO_BTL _)) in Hexit' by done. change (0 =? 0) with true in Hexit'. cbn [negb andb] in Hexit'.
  rewrite HT' in Hexit'.
  destruct (Z.eqb_spec 0 (oa_Event a)) as [Ee|Ee].
  { specialize (Hexit' (NewStorageUnit P) (oa_EventError a) eq_refl ltac:(done) ltac:(done)).
    cbn [Event NewStorageUnit] in Hexit'. change (0 =? 0) with true in Hexit'. cbn match in Hexit'.
    match goal with |- context [open_exit ?X _ _ _ _] => change X with
      (mkProcess (Some T') (<[oa_Unit a := NewStorageUnit P]> (Units H)) (Handles H)) end.
    rewrite Hexit'. apply Hfail', (aw_error _ _ Ha). }
  destruct (Z.eqb_spec INVALID_HANDLE_VALUE (oa_Pipe a)) as [Ep|Ep].
  { specialize (Hexit' ((NewStorageUnit P) <| Event := oa_Event a |>) (oa_PipeError a) eq_refl).
    cbn [Event] in Hexit'.
    match goal with |- context [open_exit ?X _ _ _ _] => change X with
      (mkProcess (Some T') (<[oa_Unit a := (NewStorageUnit P) <| Event := oa_Event a |>]>
         (<[oa_Unit a := NewStorageUnit P]> (Units H))) ({[oa_Event a]} ∪ Handles H)) end.
    rewrite insert_insert_eq. change (Event ((NewStorageUnit P) <| Event := oa_Event a |>))
      with (oa_Event a) in Hexit'. rewrite (proj2 (Z.eqb_neq 0 _)) in Hexit' by done.
    rewrite Hexit'; [apply Hfail', (aw_error _ _ Ha)|apply (aw_event _ _ Ha)|done]. }
  eexists ERROR_SUCCESS, _, _, _. split; [done|]. rewrite Z.eqb_refl. exists j. split_and!; try done; try congruence.
  - intros i Hi. apply Hfirst. lia.
  - intros i p u Hi Hp Hp0 Hu. apply (Hfree i p u Hi Hp Hp0). by apply Hold.
  - match goal with |- ?X = _ => change X with
      (mkProcess (Some T') (<[oa_Unit a := (NewStorageUnit P) <| Event := oa_Event a |> <| Pipe := oa_Pipe a |>]>
         (<[oa_Unit a := (NewStorageUnit P) <| Event := oa_Event a |>]>
           (<[oa_Unit a := NewStorageUnit P]> (Units H)))) ({[oa_Pipe a]} ∪ ({[oa_Event a]} ∪ Handles H))) end.
    by rewrite !insert_insert_eq.
Qed.

Lemma shutdown_spec H T U u i G :
  StorageUnits H = Some T -> table_wf (Units H) T -> T !! i = Some U -> U <> 0 ->
  Units H !! U = Some u -> Guid (StorageUnitParams u) = G -> length (Data4 G) = 8%nat ->
  (forall j q v, (j < i)%nat -> T !! j = Some q -> q <> 0 -> Units H !! q = Some v ->
     Guid (StorageUnitParams v) <> G) ->
  SpdStorageUnitHandleShutdownPipe H U G =
    Some (ERROR_SUCCESS,
          mkProcess (Some (<[i := 0]> T)) (<[U := u <| Signaled := true |>]> (Units H)) (Handles H)).
Proof.
  intros HS HT Hi HU0 HU HuG HG Hf. unfold SpdStorageUnitHandleShutdownPipe.
  rewrite HS, bind_value.
  rewrite (pipe_find_spec H T G _ 0 i U u HT HG) 
    by first [done|lia|intros j q v Hj; apply Hf; lia].
  rewrite bind_value, Hi, bind_value, Z.eqb_refl, HU, bind_value. done.
Qed.

(** Opening a pipe unit either takes the first free slot of the table for a GUID that no
    unit has, with a handle that is the tagged pointer to the unit, or fails and gives back
    everything it has taken: no memory, no handle of the system and no slot is lost.  Shutting
    the unit down then finds it by its GUID, signals it and frees its slot, and closing it
    restores the memory and the handles that were there before it was opened. *)
Theorem pipe_open_lifecycle H P a :
  table_wf (Units H) (table_of H) -> length (Data4 (Guid P)) = 8%nat -> answers_wf H a ->
  exists err h b H', SpdStorageUnitHandleOpenPipe H P a = Some (err, h, b, H') /\
    (if err =? ERROR_SUCCESS
     then (exists i, open_succeeded H P a h b H' i) /\
          IsPipeHandle h = true /\ table_wf (Units H') (table_of H') /\
          exists H2 H3,
            SpdStorageUnitHandleShutdownPipe H' (GetPipeHandle h) (Guid P) = Some (ERROR_SUCCESS, H2) /\
            table_of H2 = table_of H /\
            Signaled <$> Units H2 !! GetPipeHandle h = Some true /\
            SpdStorageUnitHandleClosePipe H2 (GetPipeHandle h) = Some (ERROR_SUCCESS, H3) /\
            Units H3 = Units H /\ Handles H3 = Handles H /\ table_of H3 = table_of H
     else open_failed H err h b H').
Proof.
  intros HT HG Ha. destruct (open_spec H P a HT HG Ha) as (err & h & b & H' & E & Ho).
  exists err, h, b, H'. split; [done|]. destruct (err =? ERROR_SUCCESS); [|done].
  destruct Ho as [i Ho]. split; [by exists i|]. destruct Ho as (-> & _ & Hi & _ & Hfree & HU0 & He & Hp & ->).
  destruct (aw_unit _ _ Ha HU0) as (HU & Htag & Hb64).
  destruct (pipe_handle_roundtrip _ Htag Hb64) as [HIs ->]. split; [done|].
  set (U := oa_Unit a) in *. set (u := (NewStorageUnit P) <| Event := oa_Event a |> <| Pipe := oa_Pipe a |>).
  set (T := table_of H) in *. set (H' := mkProcess _ _ _).
  assert (Guid (StorageUnitParams u) = Guid P) as HuG by done.
  assert (i < length T)%nat as Hlt by (by eapply lookup_lt_Some).
  assert (table_wf (Units H') (<[i := U]> T)) as HT'.
  { destruct HT as [HL HT]. split; [by rewrite length_insert|]. intros j p Hj Hp0.
    apply list_lookup_insert_Some in Hj as [(_ & <- & _)|[_ Hj]].
    - exists u. subst H'. cbn [Units]. rewrite lookup_insert_eq. by rewrite HuG.
    - destruct (HT j p Hj Hp0) as (v & Hv & H8). exists v. subst H'. cbn [Units].
      rewrite lookup_insert_ne; [done|congruence]. }
  split; [exact HT'|].
  assert (Units H' !! U = Some u) as HlU by (subst H'; cbn [Units]; apply lookup_insert_eq).
  rewrite (shutdown_spec H' (<[i := U]> T) U u i (Guid P) eq_refl HT'); try done.
  2: { by rewrite list_lookup_insert_eq by done. }
  2: { intros j q v Hj Hq Hq0 Hv. rewrite list_lookup_insert_ne in Hq by lia.
       apply (Hfree j q v); [lia|done..|].
       destruct HT as [_ HT]. destruct (HT j q Hq Hq0) as (w & Hw & _).
       subst H'. cbn [Units] in Hv. rewrite lookup_insert_ne in Hv; [done|congruence]. }
  assert (<[i := 0]> (<[i := U]> T) = T) as Hback
    by (rewrite list_insert_insert_eq; by apply list_insert_id).
  rewrite Hback. set (us := u <| Signaled := true |>).
  set (H2 := mkProcess (Some T) (<[U := us]> (Units H')) (Handles H')).
  exists H2, (mkProcess (Some T) (Units H) (Handles H)). split; [done|]. split; [done|].
  split; [subst H2; cbn [Units]; by rewrite lookup_insert_eq|]. split; [|done].
  unfold SpdStorageUnitHandleClosePipe. subst H2. cbn [Units]. rewrite lookup_insert_eq. opt.
  subst H'. cbn [Handles Units]. change (Pipe us) with (oa_Pipe a). change (Event us) with (oa_Event a).
  destruct (aw_pipe _ _ Ha Hp) as [Hp1 Hp2]. pose proof (aw_event _ _ Ha He) as He1.
  rewrite close_handle by set_solver. opt. rewrite close_handle by done. opt.
  do 2 f_equal. rewrite insert_insert_eq.
  change (mkProcess (Some T) (delete U (<[U := us]> (Units H))) (Handles H) =
          mkProcess (Some T) (Units H) (Handles H)).
  f_equal. by apply delete_insert_id.
Qed.

(** The first unit of a process that has another handle open. *)
Definition example_process : PROCESS := mkProcess None ∅ {[4]}.
Definition example_pipe_params : SPD_IOCTL_STORAGE_UNIT_PARAMS :=
  mkParams (mkGUID 1 2 3 [1; 2; 3; 4; 5; 6; 7; 8]) 64 512 [] [] 0 false false false false 4096.
Definition example_answers : OPEN_ANSWERS := mkOpen true 4096 8 5 12 5.

Example example_open :
  fst <$> SpdStorageUnitHandleOpenPipe example_process example_pipe_params example_answers =
    Some (ERROR_SUCCESS, 4097, 0).
Proof. vm_compute. reflexivity. Qed.

Lemma pipe_open_lifecycle_witness :
  exists err h b H',
    SpdStorageUnitHandleOpenPipe example_process example_pipe_params example_answers = Some (err, h, b, H') /\
    (if err =? ERROR_SUCCESS then IsPipeHandle h = true else open_failed example_process err h b H').
Proof.
  destruct (pipe_open_lifecycle example_process example_pipe_params example_answers)
    as (err & h & b & H' & E & Ho).
  - split; [reflexivity|]. intros i p Hp Hp0. apply lookup_replicate in Hp as [-> _].
    exfalso. apply Hp0. reflexivity.
  - reflexivity.
  - split; cbn.
    + intros _. split; [reflexivity|]. split; [reflexivity|lia].
    + intros _. set_solver.
    + intros _. split; [set_solver|lia].
    + lia.
  - exists err, h, b, H'. split; [exact E|]. destruct (err =? ERROR_SUCCESS); [|exact Ho].
    destruct Ho as (_ & HI & _). exact HI.
Defined.
