(* ===== verification/Minimal.v ===== *)
(** * Support of the user mode programs: [shared/minimal.h], [shared/memalign.c]

    The comparisons of strings, the results of asynchronous operations, and aligned memory.  A
    string is the list of its characters, the terminating zero among them; reading past its end
    is [None].  Memory is a map of words with the blocks of the heap, and writing outside of a
    block is [None]. *)

From S2P Require Import Prelude Wdk IoctlTypes.

(** ** Lengths *)

(** The length of a text of the system, up to its terminator. *)
Fixpoint lstrlenW (p : list Z) : option nat :=
  match p with
  | [] => None
  | c :: p => if c =? 0 then Some O else n ← lstrlenW p; Some (S n)
  end.

(** ** Formats *)

(** The decimal digits of a number below [10 ^ n]. *)
Fixpoint decimal (n : nat) (v : Z) (t : list Z) : list Z :=
  match n with
  | O => t
  | S n => if v <? 10 then 48 + v :: t else decimal n (v / 10) (48 + v mod 10 :: t)
  end.

(** A digit of a hexadecimal number, which has at most [n] digits, or exactly [n]. *)
Definition hex_digit (d : Z) : Z := if d <? 10 then 48 + d else 87 + d.

Fixpoint hexadecimal (n : nat) (v : Z) (t : list Z) : list Z :=
  match n with
  | O => t
  | S n => if v <? 16 then hex_digit v :: t else hexadecimal n (v / 16) (hex_digit (v mod 16) :: t)
  end.

Fixpoint hexadecimal_padded (n : nat) (v : Z) (t : list Z) : list Z :=
  match n with
  | O => t
  | S n => hexadecimal_padded n (v / 16) (hex_digit (v mod 16) :: t)
  end.

(** ** Comparisons *)

(** [int] from [unsigned]. *)
Definition int_of (v : Z) : Z := let v := u32 v in if v <? 2 ^ 31 then v else v - 2 ^ 32.

Definition invariant_toupper (c : Z) : Z :=
  if (97 <=? c) && (c <=? 122) then c .& u32 (Z.lnot 0x20) else c.

(** The functions of [WINSPD_SHARED_MINIMAL_STRCMP]; [CONV] converts a character. *)
Fixpoint strcmp_loop (CONV : Z -> Z) (s t : list Z) : option Z :=
  match s, t with
  | cs :: s, ct :: t =>
      let v := int_of (CONV cs - CONV ct) in
      if (0 =? v) && negb (ct =? 0) then strcmp_loop CONV s t else Some v
  | _, _ => None
  end.

(** The functions of [WINSPD_SHARED_MINIMAL_STRNCMP]; [v] is the last difference. *)
Fixpoint strncmp_loop (CONV : Z -> Z) (s t : list Z) (n : nat) (v : Z) : option Z :=
  match n with
  | O => Some v
  | S n =>
      match s, t with
      | cs :: s, ct :: t =>
          let v := int_of (CONV cs - CONV ct) in
          if (0 =? v) && negb (ct =? 0) then strncmp_loop CONV s t n v else Some v
      | _, _ => None
      end
  end.

(** A [char] as it converts to [unsigned]. *)
Definition unsigned_char (c : Z) : Z := u32 (if c <? 128 then c else c - 256).

Definition invariant_strcmp (s t : list Z) : option Z := strcmp_loop unsigned_char s t.
Definition invariant_stricmp (s t : list Z) : option Z :=
  strcmp_loop (fun c => invariant_toupper (unsigned_char c)) s t.
Definition invariant_strncmp (s t : list Z) (n : nat) : option Z := strncmp_loop unsigned_char s t n 0.
Definition invariant_strnicmp (s t : list Z) (n : nat) : option Z :=
  strncmp_loop (fun c => invariant_toupper (unsigned_char c)) s t n 0.
Definition invariant_wcscmp (s t : list Z) : option Z := strcmp_loop u32 s t.
Definition invariant_wcsicmp (s t : list Z) : option Z := strcmp_loop invariant_toupper s t.
Definition invariant_wcsncmp (s t : list Z) (n : nat) : option Z := strncmp_loop u32 s t n 0.
Definition invariant_wcsnicmp (s t : list Z) (n : nat) : option Z :=
  strncmp_loop invariant_toupper s t n 0.

(** ** Asynchronous operations *)

(** [SpdOverlappedInit]; [Event] and [LastError] are what the system gives. *)
Definition SpdOverlappedInit (Event LastError : Z) : Z :=
  if negb (0 =? Event) then ERROR_SUCCESS else LastError.

(** [SpdOverlappedWaitResult]: whether the call has succeeded, its error, the result of the
    operation and its error. *)
Definition SpdOverlappedWaitResult (Success : bool) (LastError : Z) (Got : bool) (GotError : Z)
    : Z :=
  if negb Success && negb (ERROR_IO_PENDING =? LastError) then LastError
  else if negb Got then GotError else ERROR_SUCCESS.

(** ** Aligned memory *)

(** The heap: the blocks with their sizes, and the words that have been stored. *)
Record HEAP := mkHeap { Blocks : gmap Z Z; Words : gmap Z Z }.

Definition sizeof_PVOID : Z := 8.

(** A word inside of one block. *)
Definition in_block (H : HEAP) (Base A : Z) : bool :=
  match Blocks H !! Base with
  | Some Size => (Base <=? A) && (A + sizeof_PVOID <=? Base + Size)
  | None => false
  end.

(** [SpdIoctlMemAlignAlloc]; [P] is the block of the heap, or 0.  The error, the pointer. *)
Definition SpdIoctlMemAlignAlloc (H : HEAP) (Size AlignmentMask P : Z) : option (Z * Z * HEAP) :=
  let AlignmentMask := if u32 (AlignmentMask + 1) <? sizeof_PVOID
                       then sizeof_PVOID - 1 else AlignmentMask in
  if 0 =? P then Some (ERROR_NOT_ENOUGH_MEMORY, 0, H)
  else
    let H := mkHeap (<[P := u32 (Size + AlignmentMask)]> (Blocks H)) (Words H) in
    let PP := u64 (P + AlignmentMask) .& u64 (Z.lnot AlignmentMask) in
    if in_block H P (PP - sizeof_PVOID)
    then Some (ERROR_SUCCESS, PP, mkHeap (Blocks H) (<[PP - sizeof_PVOID := P]> (Words H)))
    else None.

Definition SpdIoctlMemAlignFree (H : HEAP) (P : Z) : option HEAP :=
  if 0 =? P then Some H
  else
    Base ← Words H !! (P - sizeof_PVOID);
    _ ← Blocks H !! Base;
    Some (mkHeap (delete Base (Blocks H)) (Words H)).

(** * Memory without the C library: [shared/minimal.h]

    [memset], [memcpy] and [memmove] over the functions of the system, which take a size of 32 bits, and
    the wrappers of the process heap.  The heap is the contents of its blocks; giving back what is not
    a block is [None].  What the system answers, a block or 0, is an argument. *)

(** ** Buffers *)

(** [RtlFillMemory] and [RtlMoveMemory] of [Length] bytes: a buffer is written from its start. *)
Definition RtlFillMemory (Destination : list Z) (Length Fill : Z) : option (list Z) :=
  buf_write 0 (replicate (Z.to_nat Length) (u8 Fill)) Destination.

(** The places are offsets in one memory, which may overlap. *)
Definition RtlMoveMemory (Memory : list Z) (Destination Source : nat) (Length : Z) : option (list Z) :=
  bs ← buf_read Source (Z.to_nat Length) Memory; buf_write Destination bs Memory.

Definition memset (dst : list Z) (val siz : Z) : option (list Z) := RtlFillMemory dst (u32 siz) val.
Definition memcpy (Memory : list Z) (dst src : nat) (siz : Z) : option (list Z) := RtlMoveMemory Memory dst src (u32 siz).
Definition memmove (Memory : list Z) (dst src : nat) (siz : Z) : option (list Z) := RtlMoveMemory Memory dst src (u32 siz).

(** ** The heap *)

(** [HeapAlloc]: [P] is the new block, with what was in its memory. *)
Definition HeapAlloc (H : gmap Z (list Z)) (Size P : Z) (Was : list Z) : Z * gmap Z (list Z) :=
  if 0 =? P then (0, H) else (P, <[P := take (Z.to_nat Size) (Was ++ replicate (Z.to_nat Size) 0)]> H).

Definition HeapFree (H : gmap Z (list Z)) (Pointer : Z) : option (gmap Z (list Z)) :=
  _ ← H !! Pointer; Some (delete Pointer H).

(** [HeapReAlloc]: the block [P] has what fits of the old one, which stays if there is no memory. *)
Definition HeapReAlloc (H : gmap Z (list Z)) (Pointer Size P : Z) (Was : list Z) : option (Z * gmap Z (list Z)) :=
  bs ← H !! Pointer;
  Some (if 0 =? P then (0, H)
        else (P, <[P := take (Z.to_nat Size) (bs ++ Was ++ replicate (Z.to_nat Size) 0)]> (delete Pointer H))).

Definition MemAlloc (H : gmap Z (list Z)) (Size P : Z) (Was : list Z) : Z * gmap Z (list Z) := HeapAlloc H Size P Was.

Definition MemRealloc (H : gmap Z (list Z)) (Pointer Size P : Z) (Was : list Z) : option (Z * gmap Z (list Z)) :=
  if 0 =? Pointer then Some (HeapAlloc H Size P Was)
  else if 0 =? Size then H ← HeapFree H Pointer; Some (0, H)
  else HeapReAlloc H Pointer Size P Was.

Definition MemFree (H : gmap Z (list Z)) (Pointer : Z) : option (gmap Z (list Z)) :=
  if negb (0 =? Pointer) then HeapFree H Pointer else Some H.

(** ** Properties *)

(** Below 4 GB the three functions are those of the standard: they write the bytes that they should and
    no others, and a move reads all of its source before it writes. *)
Lemma memory_functions m dst src val siz :
  0 <= siz < 2 ^ 32 -> (dst + Z.to_nat siz <= length m)%nat -> (src + Z.to_nat siz <= length m)%nat ->
  let n := Z.to_nat siz in
  memset m val siz = Some (replicate n (u8 val) ++ drop n m) /\
  memmove m dst src siz = Some (take dst m ++ take n (drop src m) ++ drop (dst + n) m) /\
  memcpy m dst src siz = memmove m dst src siz.
Proof.
  intros Hs Hd Hsrc n. unfold memset, memmove, memcpy, RtlFillMemory, RtlMoveMemory. rewrite u32_small by done.
  fold n in Hd, Hsrc. fold n. split; [|split; [|done]].
  - rewrite buf_write_Some by (rewrite length_replicate; lia). by rewrite take_0, length_replicate.
  - unfold buf_read. rewrite decide_True, bind_value by done.
    assert (length (take n (drop src m)) = n) as Hl by (rewrite length_take, length_drop; lia).
    rewrite buf_write_Some by (rewrite Hl; lia). by rewrite Hl.
Qed.

(** A size of 4 GB or more is cut to its low 32 bits: 4 GB are no byte at all. *)
Lemma memset_size_cut m val : memset m val (2 ^ 32) = Some m.
Proof.
  unfold memset, RtlFillMemory. change (Z.to_nat (u32 (2 ^ 32))) with 0%nat. cbn [replicate].
  rewrite buf_write_Some by (cbn; lia). done.
Qed.

(** A block that changes its size keeps what it had, as far as it fits; the other blocks stay as they are, and
    when there is no memory nothing changes. *)
Lemma mem_realloc_keeps H Pointer Size P Was bs :
  Pointer <> 0 -> 0 < Size -> H !! Pointer = Some bs -> (P = Pointer \/ H !! P = None) ->
  exists P' H', MemRealloc H Pointer Size P Was = Some (P', H') /\
    (P = 0 -> P' = 0 /\ H' = H) /\
    (P <> 0 -> P' = P /\
       (exists bs', H' !! P = Some bs' /\ length bs' = Z.to_nat Size /\
          take (Nat.min (Z.to_nat Size) (length bs)) bs' = take (Z.to_nat Size) bs) /\
       forall Q, Q <> P -> Q <> Pointer -> H' !! Q = H !! Q).
Proof.
  intros HP HS Hb Hfresh. unfold MemRealloc. rewrite (proj2 (Z.eqb_neq 0 Pointer)) by congruence.
  rewrite (proj2 (Z.eqb_neq 0 Size)) by lia. unfold HeapReAlloc. rewrite Hb, bind_value.
  destruct (Z.eqb_spec 0 P) as [<-|Hne]; [by eexists _, _|].
  eexists _, _. split; [reflexivity|]. split; [congruence|]. intros _. split; [done|]. split.
  - eexists. split; [apply lookup_insert_eq|]. split.
    + rewrite length_take, !length_app, length_replicate. lia.
    + rewrite take_take, Nat.min_l by lia. rewrite take_app_le by lia.
      destruct (Nat.le_ge_cases (Z.to_nat Size) (length bs)); [by rewrite Nat.min_l|].
      rewrite Nat.min_r by lia. rewrite !take_ge by lia. done.
  - intros Q HQ1 HQ2. rewrite lookup_insert_ne by congruence. by rewrite lookup_delete_ne by congruence.
Qed.

(** What was allocated is given back once, and a null pointer may always be given back. *)
Lemma mem_free_alloc H Size P Was :
  P <> 0 -> H !! P = None ->
  MemFree (MemAlloc H Size P Was).2 P = Some H /\ MemFree H P = None /\ MemFree H 0 = Some H.
Proof.
  intros HP Hf. unfold MemFree, MemAlloc, HeapAlloc, HeapFree. rewrite (proj2 (Z.eqb_neq 0 P)) by congruence.
  cbn [negb snd]. rewrite lookup_insert_eq, Hf, bind_value. split_and!; try done.
  by rewrite delete_insert_id by done.
Qed.

(** The lengths of the formats. *)
Lemma decimal_length n v t : (length (decimal n v t) <= n + length t)%nat.
Proof.
  revert v t. induction n as [|n IH]; intros v t; cbn [decimal]; [lia|]. destruct (v <? 10); cbn [length]; [lia|].
  specialize (IH (v / 10) (48 + v mod 10 :: t)). cbn [length] in IH. lia.
Qed.

Lemma hexadecimal_length n v t : (length (hexadecimal n v t) <= n + length t)%nat.
Proof.
  revert v t. induction n as [|n IH]; intros v t; cbn [hexadecimal]; [lia|]. destruct (v <? 16); cbn [length]; [lia|].
  etrans; [apply IH|]. cbn. lia.
Qed.

Lemma hexadecimal_padded_length n v t : length (hexadecimal_padded n v t) = (n + length t)%nat.
Proof. revert v t. induction n as [|n IH]; intros v t; [done|]. cbn [hexadecimal_padded]. rewrite IH. cbn. lia. Qed.
