(* ===== verification/MinimalProps.v ===== *)
(** * Properties of the support of the user mode programs *)

From S2P Require Import Prelude Wdk IoctlTypes Minimal.

#[local] Set Warnings "-clear-no-such-hyp".

(** ** Comparisons order strings *)

(** The lexicographic order of texts without their terminators. *)
Fixpoint lex_lt (a b : list Z) : Prop :=
  match a, b with
  | _, [] => False
  | [], _ :: _ => True
  | x :: a, y :: b => x < y \/ (x = y /\ lex_lt a b)
  end.

(** A conversion of wide characters that keeps the terminator apart. *)
Definition converts (CONV : Z -> Z) : Prop :=
  forall c, 0 <= c < 2 ^ 16 -> 0 <= CONV c < 2 ^ 16 /\ (CONV c = 0 <-> c = 0).

Definition text (a : list Z) : Prop := Forall (fun c => 0 < c < 2 ^ 16) a.

(** A text without a terminator inside. *)
Definition is_text (t : list Z) : Prop := Forall (fun c => c <> 0) t.

Lemma lstrlenW_text t r : is_text t -> lstrlenW (t ++ 0 :: r) = Some (length t).
Proof.
  induction 1 as [|c t Hc Ht IH]; [done|]. cbn [app lstrlenW length].
  rewrite (proj2 (Z.eqb_neq c 0)) by done. by rewrite IH, bind_value.
Qed.

Lemma text_is_text t : text t -> is_text t.
Proof. intros Ht. eapply Forall_impl; [exact Ht|]. simpl. lia. Qed.

Lemma int_of_small v : - 2 ^ 31 <= v < 2 ^ 31 -> int_of v = v.
Proof. intros Hv. unfold int_of, u32. case_match; zify_bools; dlia. Qed.

Lemma u32_converts : converts u32.
Proof. intros c Hc. unfold u32. rewrite Z.mod_small by lia. lia. Qed.

Lemma toupper_upper c : 97 <= c <= 122 -> invariant_toupper c = c - 32.
Proof.
  intros Hc. assert (exists i, (i < 26)%nat /\ c = 97 + Z.of_nat i) as (i & Hi & ->)
    by (exists (Z.to_nat (c - 97)); lia).
  do 26 (destruct i as [|i]; [reflexivity|]). lia.
Qed.

Lemma toupper_other c : ~ 97 <= c <= 122 -> invariant_toupper c = c.
Proof. intros Hc. unfold invariant_toupper. case_match; [|done]. zify_bools. lia. Qed.

Lemma toupper_converts : converts invariant_toupper.
Proof.
  intros c Hc. destruct (decide (97 <= c <= 122)).
  - rewrite toupper_upper by done. lia.
  - rewrite toupper_other by done. lia.
Qed.

Lemma strcmp_spec CONV a b x y :
  converts CONV -> text a -> text b ->
  exists v, strcmp_loop CONV (a ++ 0 :: x) (b ++ 0 :: y) = Some v /\
    (v = 0 <-> CONV <$> a = CONV <$> b) /\ (v < 0 <-> lex_lt (CONV <$> a) (CONV <$> b)).
Proof.
  intros HC Ha. revert b. induction Ha as [|c a Hc Ha IH]; intros b Hb.
  - destruct (HC 0) as [H0 [_ H1]]; [lia|]. rewrite (H1 eq_refl) in H0.
    destruct Hb as [|d b Hd Hb]; cbn [app strcmp_loop fmap list_fmap lex_lt].
    + exists 0. rewrite (H1 eq_refl). done.
    + destruct (HC d) as [Hd0 Hd1]; [lia|]. rewrite int_of_small by lia.
      rewrite (proj2 (Z.eqb_neq 0 _)) by lia. eexists. split; [done|]. split; [|split; [done|]]; [|lia].
      split; [lia|done].
  - destruct (HC c) as [Hc0 Hc1]; [lia|].
    destruct Hb as [|d b Hd Hb]; cbn [app strcmp_loop fmap list_fmap lex_lt].
    + destruct (HC 0) as [H0 [_ H1]]; [lia|]. rewrite int_of_small by lia.
      rewrite (H1 eq_refl). rewrite (proj2 (Z.eqb_neq 0 _)) by lia. eexists. split; [done|].
      split; [split; [lia|done]|lia].
    + destruct (HC d) as [Hd0 Hd1]; [lia|]. rewrite int_of_small by lia.
      destruct (Z.eqb_spec 0 (CONV c - CONV d)) as [E|E]; cbn [andb].
      * rewrite (proj2 (Z.eqb_neq d 0)) by lia. cbn [negb].
        destruct (IH b Hb) as (v & -> & Hv & Hlt). exists v. split; [done|].
        replace (CONV d) with (CONV c) by lia. split.
        -- rewrite Hv. split; [by intros ->|by intros [= ->]].
        -- rewrite Hlt. split; [by right|]. by intros [|[_ ?]]; [lia|].
      * eexists. split; [done|]. split; [split; [lia|intros [= ? _]; lia]|].
        split; [lia|]. by intros [|[? _]]; lia.
Qed.

(** The comparison of at most [n] characters is that of the prefixes. *)
Lemma strncmp_prefix CONV a b x y n v :
  converts CONV -> text a -> text b ->
  exists w, strncmp_loop CONV (a ++ 0 :: x) (b ++ 0 :: y) n v = Some w /\
    ((n = 0%nat /\ w = v) \/ (n <> 0%nat /\
     (w = 0 <-> take n (CONV <$> a ++ [0]) = take n (CONV <$> b ++ [0])))).
Proof.
  intros HC Ha. revert b n v. induction Ha as [|c a Hc Ha IH]; intros b n v Hb.
  - destruct n as [|n]; [exists v; split; [done|by left]|].
    destruct (HC 0) as [H0 [_ H1]]; [lia|]. specialize (H1 eq_refl).
    destruct Hb as [|d b Hd Hb]; cbn [app strncmp_loop fmap list_fmap take].
    + exists 0. rewrite H1. split; [done|]. by right.
    + destruct (HC d) as [Hd0 Hd1]; [lia|]. rewrite int_of_small by lia.
      rewrite (proj2 (Z.eqb_neq 0 _)) by lia. eexists. split; [done|]. right. split; [done|].
      split; [lia|]. intros [= ? _]. lia.
  - destruct n as [|n]; [exists v; split; [done|by left]|].
    destruct (HC c) as [Hc0 Hc1]; [lia|].
    destruct Hb as [|d b Hd Hb]; cbn [app strncmp_loop fmap list_fmap take].
    + destruct (HC 0) as [H0 [_ H1]]; [lia|]. specialize (H1 eq_refl). rewrite int_of_small by lia.
      rewrite (proj2 (Z.eqb_neq 0 _)) by lia. eexists. split; [done|]. right. split; [done|].
      split; [lia|]. intros [= ? _]. lia.
    + destruct (HC d) as [Hd0 Hd1]; [lia|]. rewrite int_of_small by lia.
      destruct (Z.eqb_spec 0 (CONV c - CONV d)) as [E|E]; cbn [andb].
      * rewrite (proj2 (Z.eqb_neq d 0)) by lia. cbn [negb].
        destruct (IH b n (CONV c - CONV d) Hb) as (w & -> & Hw). exists w. split; [done|]. right.
        split; [done|]. replace (CONV d) with (CONV c) by lia. destruct Hw as [[-> ->]|[_ Hw]].
        -- cbn [take]. split; [done|lia].
        -- rewrite Hw. split; [by intros ->|by intros [= ->]].
      * eexists. split; [done|]. right. split; [done|]. split; [lia|]. intros [= ? _]. lia.
Qed.

(** The comparison of two wide strings reads no further than their terminators, is zero for
    strings that are equal up to the conversion of the characters, and is negative when the first
    comes before the second in the lexicographic order; so it orders strings, the comparison
    without case up to the case of Latin letters.  The comparison of at most [n] characters is
    zero just when the first [n] characters, the terminator among them, are equal. *)
Theorem comparisons_order a b x y n :
  text a -> text b ->
  let s := a ++ 0 :: x in
  let t := b ++ 0 :: y in
  (exists v, invariant_wcscmp s t = Some v /\ (v = 0 <-> a = b) /\ (v < 0 <-> lex_lt a b)) /\
  (exists v, invariant_wcsicmp s t = Some v /\
     (v = 0 <-> invariant_toupper <$> a = invariant_toupper <$> b) /\
     (v < 0 <-> lex_lt (invariant_toupper <$> a) (invariant_toupper <$> b))) /\
  (exists w, invariant_wcsncmp s t n = Some w /\ (w = 0 <-> take n (a ++ [0]) = take n (b ++ [0]))) /\
  (exists w, invariant_wcsnicmp s t n = Some w /\
     (w = 0 <-> take n (invariant_toupper <$> a ++ [0]) = take n (invariant_toupper <$> b ++ [0]))).
Proof.
  intros Ha Hb s t.
  assert (forall l, text l -> u32 <$> l = l) as Hid.
  { intros l Hl. induction Hl as [|c l Hc Hl IH]; [done|]. rewrite fmap_cons, IH. f_equal.
    unfold u32. rewrite Z.mod_small; lia. }
  assert (forall CONV, converts CONV -> exists w, strncmp_loop CONV s t n 0 = Some w /\
    (w = 0 <-> take n (CONV <$> a ++ [0]) = take n (CONV <$> b ++ [0]))) as Hn.
  { intros CONV HC. destruct (strncmp_prefix CONV a b x y n 0 HC Ha Hb) as (w & Hw & [[-> ->]|[_ H]]).
    - by exists 0.
    - by exists w. }
  split_and!.
  - destruct (strcmp_spec u32 a b x y u32_converts Ha Hb) as (v & H1 & H2).
    rewrite !Hid in H2 by done. by exists v.
  - apply strcmp_spec; [apply toupper_converts|done..].
  - destruct (Hn u32 u32_converts) as (w & H1 & H2).
    rewrite !fmap_app, (Hid a Ha), (Hid b Hb) in H2. by exists w.
  - apply Hn, toupper_converts.
Qed.

(** "Disk", "disK", and a string that they come before. *)
Lemma comparisons_order_witness :
  invariant_wcsicmp [68; 105; 115; 107; 0] [100; 105; 115; 75; 0] = Some 0 /\
  exists v, invariant_wcsicmp [68; 105; 115; 107; 0] [100; 105; 115; 75; 49; 0] = Some v /\ v < 0.
Proof.
  assert (text [68; 105; 115; 107] /\ text [100; 105; 115; 75] /\ text [100; 105; 115; 75; 49])
    as (H1 & H2 & H3) by (repeat split; repeat constructor; lia).
  destruct (comparisons_order [68; 105; 115; 107] [100; 105; 115; 75] [] [] 0 H1 H2)
    as (_ & (v & E & Hv & _) & _).
  destruct (comparisons_order [68; 105; 115; 107] [100; 105; 115; 75; 49] [] [] 0 H1 H3)
    as (_ & (w & E' & _ & Hw) & _).
  split.
  - cbn [app] in E. rewrite E. f_equal. apply Hv. reflexivity.
  - exists w. split; [exact E'|]. apply Hw. simpl. repeat (right; split; [reflexivity|]). exact I.
Defined.

(** ** Aligned memory *)

(** A mask with [j] bits aligns down. *)
Lemma land_lnot_ones x j :
  0 <= x < 2 ^ 64 -> 0 <= j -> x .& u64 (Z.lnot (2 ^ j - 1)) = x / 2 ^ j * 2 ^ j.
Proof.
  intros Hx Hj.
  assert (x .& u64 (Z.lnot (2 ^ j - 1)) = x .& Z.lnot (2 ^ j - 1)) as ->.
  { unfold u64. rewrite <- Z.land_ones by lia.
    rewrite (Z.land_comm (Z.lnot _)), Z.land_assoc, Z.land_ones, Z.mod_small by lia. done. }
  replace (2 ^ j - 1) with (Z.ones j) by (rewrite Z.ones_equiv; lia).
  rewrite <- Z.ldiff_land, Z.ldiff_ones_r by lia.
  by rewrite Z.shiftl_mul_pow2, Z.shiftr_div_pow2 by lia.
Qed.

(** The least multiple of [A] that is not below [P]. *)
Lemma align_up P A :
  0 < A ->
  let PP := (P + (A - 1)) / A * A in
  PP mod A = 0 /\ P <= PP < P + A /\ (P mod A = 0 -> PP = P).
Proof.
  intros HA PP. subst PP. pose proof (Z.div_mod (P + (A - 1)) A ltac:(lia)).
  pose proof (Z.mod_pos_bound (P + (A - 1)) A HA). split; [apply Z.mod_mul; lia|]. split; [lia|].
  intros HP. apply Z.mod_divide in HP as [k ->]; [|lia].
  replace (k * A + (A - 1)) with ((A - 1) + k * A) by lia.
  rewrite Z.div_add, Z.div_small by lia. lia.
Qed.

(** The alignment that is used, at least that of a pointer. *)
Definition alignment (j : Z) : Z := 2 ^ (Z.max 3 j).

Lemma alignment_mask j :
  0 <= j <= 31 ->
  (if u32 (2 ^ j - 1 + 1) <? sizeof_PVOID then sizeof_PVOID - 1 else 2 ^ j - 1) = alignment j - 1.
Proof.
  intros Hj. unfold alignment, sizeof_PVOID. replace (2 ^ j - 1 + 1) with (2 ^ j) by lia.
  assert (2 ^ j <= 2 ^ 31) by (apply Z.pow_le_mono_r; lia). pose proof (Z.pow_pos_nonneg 2 j).
  unfold u32. rewrite Z.mod_small by lia. destruct (Z.ltb_spec (2 ^ j) 8) as [Hlt|Hge].
  - change 8 with (2 ^ 3) in Hlt. apply Z.pow_lt_mono_r_iff in Hlt; [|lia..].
    rewrite Z.max_l by lia. done.
  - change 8 with (2 ^ 3) in Hge. apply Z.pow_le_mono_r_iff in Hge; [|lia..].
    by rewrite Z.max_r by lia.
Qed.

(** Aligned memory keeps the address of its block in the word before it.  From a block that
    is not aligned already, it is aligned, with that word and all of its bytes inside the block,
    and it is freed with its block.  But a block that happens to be aligned leaves no room for
    the word, which is then stored before the block; since the heap aligns its blocks to 16 bytes
    this is always so for an alignment of up to 16. *)
Theorem memalign_header H Size j P :
  0 <= j <= 31 -> 0 < P -> P mod 16 = 0 -> P + 2 ^ 32 < 2 ^ 64 -> Blocks H !! P = None ->
  0 <= Size -> Size + alignment j <= 2 ^ 32 ->
  (if P mod alignment j =? 0
   then SpdIoctlMemAlignAlloc H Size (2 ^ j - 1) P = None
   else exists PP H',
     SpdIoctlMemAlignAlloc H Size (2 ^ j - 1) P = Some (ERROR_SUCCESS, PP, H') /\
     PP mod alignment j = 0 /\ P + sizeof_PVOID <= PP /\
     (exists n, Blocks H' !! P = Some n /\ PP + Size <= P + n) /\
     exists H'', SpdIoctlMemAlignFree H' PP = Some H'' /\ Blocks H'' = Blocks H) /\
  (j <= 4 -> P mod alignment j = 0).
Proof.
  intros Hj HP H16 H64 Hfresh HS0 HS.
  assert (8 <= alignment j <= 2 ^ 31) as HA.
  { unfold alignment. split.
    - change 8 with (2 ^ 3). apply Z.pow_le_mono_r; lia.
    - apply Z.pow_le_mono_r; lia. }
  assert (j <= 4 -> P mod alignment j = 0) as Hsmall.
  { intros H4. apply Z.mod_divide; [lia|]. apply Z.mod_divide in H16 as [k ->]; [|lia].
    apply Z.divide_mul_r. exists (2 ^ (4 - Z.max 3 j)). unfold alignment.
    rewrite <- Z.pow_add_r by lia. by replace (4 - Z.max 3 j + Z.max 3 j) with 4 by lia. }
  split; [|exact Hsmall].
  unfold SpdIoctlMemAlignAlloc. rewrite alignment_mask by done.
  rewrite (proj2 (Z.eqb_neq 0 P)) by lia.
  replace (u64 (P + (alignment j - 1)) .& u64 (Z.lnot (alignment j - 1)))
    with ((P + (alignment j - 1)) / alignment j * alignment j).
  2: { unfold u64 at 1. rewrite Z.mod_small by lia. unfold alignment.
       rewrite land_lnot_ones by (unfold alignment in HA; lia). done. }
  destruct (align_up P (alignment j) ltac:(lia)) as (HPP & Hb & Hal).
  set (PP := (P + (alignment j - 1)) / alignment j * alignment j) in *.
  unfold in_block. cbn [Blocks Words]. rewrite lookup_insert_eq.
  unfold u32 at 1. unfold sizeof_PVOID in *.
  destruct (Z.eqb_spec (P mod alignment j) 0) as [E|E].
  - rewrite (Hal E). by rewrite (proj2 (Z.leb_gt P _)) by lia.
  - assert (P + 8 <= PP) as H8.
    { assert (PP mod 16 = 0) as HP16.
      { assert ((16 | alignment j)) as Hdv.
        { destruct (Z.leb_spec j 4) as [H4|H4]; [by destruct E; apply Hsmall|].
          exists (2 ^ (j - 4)). unfold alignment. rewrite Z.max_r by lia. change 16 with (2 ^ 4).
          rewrite <- Z.pow_add_r by lia. f_equal. lia. }
        apply Z.mod_divide; [lia|]. etransitivity; [exact Hdv|]. apply Z.mod_divide; lia. }
      assert (PP <> P) as Hne by (intros Hne; apply E; by rewrite <- Hne).
      apply Z.mod_divide in HP16 as [a Ha]; [|lia]. apply Z.mod_divide in H16 as [b Hb']; [|lia]. lia. }
    rewrite (proj2 (Z.leb_le P _)), (proj2 (Z.leb_le (PP - 8 + 8) _)); cbn [andb].
    2: { unfold u32. rewrite Z.mod_small by lia. lia. }
    2: lia.
    eexists PP, _. split; [done|]. split; [done|]. split; [done|]. cbn [Blocks Words]. split.
    + eexists. split; [apply lookup_insert_eq|]. unfold u32. rewrite Z.mod_small by lia. lia.
    + unfold SpdIoctlMemAlignFree, sizeof_PVOID. rewrite (proj2 (Z.eqb_neq 0 PP)) by lia.
      cbn [Words Blocks]. rewrite lookup_insert_eq. opt. rewrite lookup_insert_eq. opt.
      eexists. split; [done|]. cbn [Blocks]. by apply delete_insert_id.
Qed.

(** A sector from a block that is aligned to 16 bytes only, and one from an aligned block. *)
Lemma memalign_header_witness :
  (exists H', SpdIoctlMemAlignAlloc (mkHeap ∅ ∅) 512 511 65552 = Some (ERROR_SUCCESS, 66048, H')) /\
  SpdIoctlMemAlignAlloc (mkHeap ∅ ∅) 512 511 65536 = None.
Proof.
  destruct (memalign_header (mkHeap ∅ ∅) 512 9 65552) as [H1 _];
    [lia|lia|reflexivity|lia|apply lookup_empty|lia|vm_compute; discriminate|].
  destruct (memalign_header (mkHeap ∅ ∅) 512 9 65536) as [H2 _];
    [lia|lia|reflexivity|lia|apply lookup_empty|lia|vm_compute; discriminate|].
  change (65552 mod alignment 9 =? 0) with false in H1.
  change (65536 mod alignment 9 =? 0) with true in H2. split; [|exact H2].
  destruct H1 as (PP & H' & E & HPP & Hb & (n & Hn & He) & _).
  unfold SpdIoctlMemAlignAlloc in E. exists H'.
  assert (PP = 66048) as <-; [|exact E].
  assert ((fun x => x.1.2) <$> SpdIoctlMemAlignAlloc (mkHeap ∅ ∅) 512 511 65552 = Some 66048) as E0
    by (vm_compute; reflexivity).
  unfold SpdIoctlMemAlignAlloc in E0. change (2 ^ 9 - 1) with 511 in E. rewrite E in E0.
  injection E0 as E0. exact E0.
Defined.
