(* ===== verification/IoctlDevice.v ===== *)
(** * Devices from user mode: [shared/ioctl.c], first part

    The path of a device, and the execution of a SCSI command by way of the pass-through
    request.  A wide string is the list of its characters with its terminator; buffers keep
    their size, and an access outside of one is [None].  What the system answers is an argument:
    the devices that it enumerates, and the answer to each request. *)

From S2P Require Import Prelude Wdk IoctlTypes Minimal.

(** ** Paths *)

(** [GLOBAL] and [GLOBALROOT] *)
Definition GLOBAL : list Z := [92; 92; 63; 92].
Definition GLOBALROOT : list Z := [92; 92; 63; 92; 71; 76; 79; 66; 65; 76; 82; 79; 79; 84].

(** The loop over the strings of a list of strings that is in a buffer; [fuel] bounds their
    number. *)
Fixpoint hwid_scan (fuel : nat) (P HardwareId : list Z) : option bool :=
  match fuel with
  | O => None
  | S fuel =>
      c ← P !! 0%nat;
      if 0 =? c then Some false
      else
        v ← invariant_wcsicmp P HardwareId;
        if 0 =? v then Some true
        else n ← lstrlenW P; hwid_scan fuel (drop (n + 1) P) HardwareId
  end.

(** A device as the system describes it: its hardware ids, if they can be read, and its name, or
    the error of reading it. *)
Record DEVICE_INFO := mkDevice { dev_HardwareIds : option (list Z); dev_Name : list Z + Z }.

(** The number of characters of [PropBuf]. *)
Definition PropBufLength : nat := 1024.

(** The loop over the devices: whether one is found, and it.  [LastError] is what ends the
    enumeration. *)
Fixpoint device_scan (Devices : list DEVICE_INFO) (PropBuf HardwareId : list Z)
    : option (option DEVICE_INFO) :=
  match Devices with
  | [] => Some None
  | Info :: Devices =>
      match dev_HardwareIds Info with
      | None => device_scan Devices PropBuf HardwareId
      | Some ids =>
          if (PropBufLength - 2 <? length ids)%nat
          then device_scan Devices PropBuf HardwareId
          else
            PropBuf ← buf_write 0 ids PropBuf;
            PropBuf ← buf_write (PropBufLength - 2) [0] PropBuf;
            PropBuf ← buf_write (PropBufLength - 1) [0] PropBuf;
            Found ← hwid_scan PropBufLength PropBuf HardwareId;
            if (Found : bool) then Some (Some Info) else device_scan Devices PropBuf HardwareId
      end
  end.

(** The devices of the system, or the error of asking for them; what is in [PropBuf] before; the
    error that ends the enumeration. *)
Record DEVICES := mkDevices {
  ds_Devices : list DEVICE_INFO + Z; ds_PropBuf : list Z; ds_LastError : Z
}.

Definition not_found_error (Error : Z) : Z :=
  if ERROR_NO_MORE_ITEMS =? Error then ERROR_FILE_NOT_FOUND else Error.

(** [GetDevicePathByHardwareId]: the error and the buffer, from [off] on. *)
Definition GetDevicePathByHardwareId (ds : DEVICES) (HardwareId PathBuf : list Z) (off : nat)
    (PathBufSize : Z) : option (Z * list Z) :=
  match ds_Devices ds with
  | inr LastError => Some (not_found_error LastError, PathBuf)
  | inl Devices =>
      Info ← device_scan Devices (ds_PropBuf ds) HardwareId;
      match Info with
      | None => Some (not_found_error (ds_LastError ds), PathBuf)
      | Some Info =>
          match dev_Name Info with
          | inr LastError => Some (not_found_error LastError, PathBuf)
          | inl Name =>
              if 2 * Z.of_nat (length Name) >? PathBufSize
              then Some (not_found_error ERROR_INSUFFICIENT_BUFFER, PathBuf)
              else PathBuf ← buf_write off Name PathBuf; Some (ERROR_SUCCESS, PathBuf)
          end
      end
  end.

(** The loop that looks for a character of a hardware id. *)
Fixpoint is_hwid (P : list Z) : option bool :=
  match P with
  | [] => None
  | c :: P => if 0 =? c then Some false
              else if (92 =? c) || (42 =? c) then Some true else is_hwid P
  end.

(** The prefix of a path, the number of bytes of the name that follow it, and [IsHwid]. *)
Definition path_parts (DeviceName : list Z) : option (list Z * Z * bool) :=
  c0 ← DeviceName !! 0%nat;
  if 92 =? c0 then
    c1 ← DeviceName !! 1%nat;
    global ← (if 92 =? c1 then
                c2 ← DeviceName !! 2%nat;
                if (63 =? c2) || (46 =? c2)
                then c3 ← DeviceName !! 3%nat; Some (92 =? c3) else Some false
              else Some false);
    n ← lstrlenW DeviceName;
    Some (if (global : bool) then [] else GLOBALROOT, u32 (2 * Z.of_nat n), false)
  else
    IsHwid ← is_hwid DeviceName;
    if (IsHwid : bool) then Some (GLOBALROOT, 0, true)
    else n ← lstrlenW DeviceName; Some (GLOBAL, u32 (2 * Z.of_nat n), false).

(** [SpdIoctlGetDevicePath]: the error and the buffer. *)
Definition SpdIoctlGetDevicePath (ds : DEVICES) (DeviceName PathBuf : list Z) (PathBufSize : Z)
    : option (Z * list Z) :=
  '(Prefix, NameSize, IsHwid) ← path_parts DeviceName;
  let PrefixSize := 2 * Z.of_nat (length Prefix) in
  if u32 (PrefixSize + NameSize) + 2 >? PathBufSize then Some (ERROR_MORE_DATA, PathBuf)
  else
    PathBuf ← buf_write 0 Prefix PathBuf;
    name ← buf_read 0 (Z.to_nat (NameSize / 2)) DeviceName;
    PathBuf ← buf_write (length Prefix) name PathBuf;
    PathBuf ← buf_write (Z.to_nat ((PrefixSize + NameSize) / 2)) [0] PathBuf;
    if (IsHwid : bool) then
      '(err, PathBuf) ← GetDevicePathByHardwareId ds DeviceName PathBuf (length Prefix)
                          (PathBufSize - PrefixSize);
      if negb (ERROR_SUCCESS =? err)
      then Some (if ERROR_INSUFFICIENT_BUFFER =? err then ERROR_MORE_DATA else err, PathBuf)
      else Some (ERROR_SUCCESS, PathBuf)
    else Some (ERROR_SUCCESS, PathBuf).

(** [SpdIoctlOpenDevice]: the error and the handle.  [CreateFile] gives a handle, or an error. *)
Definition SpdIoctlOpenDevice (ds : DEVICES) (DeviceName PathBuf : list Z)
    (CreateFile : list Z -> Z * Z) : option (Z * Z) :=
  '(err, PathBuf) ← SpdIoctlGetDevicePath ds DeviceName PathBuf (2 * 1024);
  if negb (ERROR_SUCCESS =? err) then Some (err, INVALID_HANDLE_VALUE)
  else
    let (DeviceHandle, LastError) := CreateFile PathBuf in
    if INVALID_HANDLE_VALUE =? DeviceHandle then Some (LastError, INVALID_HANDLE_VALUE)
    else Some (ERROR_SUCCESS, DeviceHandle).

(** ** SCSI commands *)

Record SCSI_PASS_THROUGH_DIRECT := mkScsi {
  pt_PathId : Z; pt_TargetId : Z; pt_Lun : Z;
  pt_CdbLength : Z;
  pt_SenseInfoLength : Z;
  pt_DataIn : Z;
  pt_DataTransferLength : Z;
  pt_TimeOutValue : Z;
  pt_Cdb : list Z
}.

Definition SCSI_IOCTL_DATA_OUT : Z := 0.
Definition SCSI_IOCTL_DATA_IN : Z := 1.
Definition SCSI_IOCTL_DATA_UNSPECIFIED : Z := 2.
Definition SCSISTAT_GOOD : Z := 0.

(** What the system makes of a request: the error of waiting for it, the members of the request
    that it changes, and the data buffer. *)
Record PASS_THROUGH_ANSWER := mkPassThrough {
  pa_Error : Z;
  pa_DataTransferLength : Z;
  pa_ScsiStatus : Z;
  pa_SenseInfoLength : Z;
  pa_SenseInfo : list Z;
  pa_DataBuffer : list Z
}.

(** The length of a command, which its group code tells. *)
Definition cdb_length (Cdb : list Z) : option (option Z) :=
  op ← Cdb !! 0%nat;
  let group := op .& 0xE0 in
  Some (if group =? 0 ≪ 5 then Some 6
        else if (group =? 1 ≪ 5) || (group =? 2 ≪ 5) then Some 10
        else if group =? 4 ≪ 5 then Some 16
        else if group =? 5 ≪ 5 then Some 12
        else None).

Definition pass_through (Btl CdbLength : Z) (Cdb : list Z) (DataDirection : Z)
    (DataLength : option Z) : SCSI_PASS_THROUGH_DIRECT :=
  mkScsi ((Btl ≫ 16) .& 0xff) ((Btl ≫ 8) .& 0xff) (Btl .& 0xff) CdbLength 32
    (if 0 <? DataDirection then SCSI_IOCTL_DATA_IN
     else if 0 >? DataDirection then SCSI_IOCTL_DATA_OUT else SCSI_IOCTL_DATA_UNSPECIFIED)
    (default 0 DataLength) 10 (take 16 Cdb).

(** The result: the error, the data buffer, the length of the data, the status and the sense
    information, where the caller has asked for them. *)
Record EXECUTE_RESULT := mkExecute {
  ex_Error : Z; ex_DataBuffer : list Z; ex_DataLength : option Z; ex_ScsiStatus : option Z;
  ex_SenseInfo : option (list Z)
}.

Section Pass.
Context {W : Type} (PassThrough : W -> SCSI_PASS_THROUGH_DIRECT -> list Z -> PASS_THROUGH_ANSWER * W).
Context (Overlapped : Z).

(** [SpdIoctlScsiExecute]; [Overlapped] is the error of [SpdOverlappedInit]. *)
Definition SpdIoctlScsiExecute (w : W) (Btl : Z) (Cdb : list Z) (DataDirection : Z)
    (DataBuffer : list Z) (DataLength ScsiStatus : option Z) (SenseInfoBuffer : option (list Z))
    : option (EXECUTE_RESULT * W) :=
  CdbLength ← cdb_length Cdb;
  let failed Error := mkExecute Error DataBuffer DataLength ScsiStatus SenseInfoBuffer in
  match CdbLength with
  | None => Some (failed ERROR_INVALID_PARAMETER, w)
  | Some CdbLength =>
      if negb (ERROR_SUCCESS =? Overlapped) then Some (failed Overlapped, w)
      else
        let (a, w) := PassThrough w (pass_through Btl CdbLength Cdb DataDirection DataLength)
                        DataBuffer in
        if negb (ERROR_SUCCESS =? pa_Error a)
        then Some (mkExecute (pa_Error a) (pa_DataBuffer a) DataLength ScsiStatus SenseInfoBuffer, w)
        else
          sense ← match SenseInfoBuffer with
                  | Some buf =>
                      if negb (SCSISTAT_GOOD =? pa_ScsiStatus a) then
                        bs ← buf_read 0 (Z.to_nat (pa_SenseInfoLength a)) (pa_SenseInfo a);
                        buf ← buf_write 0 bs buf; Some (Some buf)
                      else Some SenseInfoBuffer
                  | None => Some None
                  end;
          Some (mkExecute ERROR_SUCCESS (pa_DataBuffer a)
                  (match DataLength with Some _ => Some (pa_DataTransferLength a) | None => None end)
                  (match ScsiStatus with Some _ => Some (pa_ScsiStatus a) | None => None end)
                  sense, w)
  end.

Definition Delays : list Z := [100; 300; 300; 300; 1000].
Definition VPD_MAX_BUFFER_SIZE : Z := 0xff.

(** The delay after attempt [I]: the last one repeats, and it is no longer than what is left. *)
Definition inquiry_delay (I : nat) (Timeout : Z) : option Z :=
  let N := length Delays in
  Delay ← Delays !! (if (I <? N)%nat then I else (N - 1)%nat);
  Some (if Delay <? Timeout then Delay else Timeout).

Definition INQUIRY_CDB : list Z := [0x12; 0; 0; 0; VPD_MAX_BUFFER_SIZE; 0] ++ replicate 10 0.

(** The loop: the error, the data buffer, the length of the data, and the delays that it slept
    through.  [Status], [Sense] and [DataBuffer] are what the stack holds. *)
Fixpoint inquiry_loop (fuel : nat) (w : W) (Btl : Z) (I : nat) (Timeout : Z)
    (DataBuffer : list Z) (Status : Z) (Sense : list Z) (Slept : list Z)
    : option (Z * list Z * Z * list Z * W) :=
  match fuel with
  | O => None
  | S fuel =>
      '(r, w) ← SpdIoctlScsiExecute w Btl INQUIRY_CDB 1 DataBuffer (Some VPD_MAX_BUFFER_SIZE)
                  (Some Status) (Some Sense);
      let DataBuffer := ex_DataBuffer r in
      let DataLength := default 0 (ex_DataLength r) in
      let Status := default 0 (ex_ScsiStatus r) in
      if (ERROR_SUCCESS =? ex_Error r) && (SCSISTAT_GOOD =? Status)
      then Some (ex_Error r, DataBuffer, DataLength, Slept, w)
      else if 0 =? Timeout then Some (ERROR_TIMEOUT, DataBuffer, DataLength, Slept, w)
      else
        Delay ← inquiry_delay I Timeout;
        inquiry_loop fuel w Btl (S I) (u32 (Timeout - Delay)) DataBuffer Status
          (default [] (ex_SenseInfo r)) (Slept ++ [Delay])
  end.

(** [SpdIoctlScsiInquiry]: the error, the inquiry data if they are asked for, the delays. *)
Definition SpdIoctlScsiInquiry (fuel : nat) (sizeof_INQUIRYDATA : Z) (w : W) (Btl : Z)
    (InquiryData : bool) (Timeout : Z) (Stack : list Z * Z * list Z)
    : option (Z * option (list Z) * list Z * W) :=
  let '(DataBuffer, Status, Sense) := Stack in
  '(err, DataBuffer, DataLength, Slept, w) ←
    inquiry_loop fuel w Btl 0 Timeout DataBuffer Status Sense [];
  Data ← (if InquiryData then
            let Data := replicate (Z.to_nat sizeof_INQUIRYDATA) 0 in
            if ERROR_SUCCESS =? err then
              let n := if sizeof_INQUIRYDATA <? DataLength then sizeof_INQUIRYDATA else DataLength in
              bs ← buf_read 0 (Z.to_nat n) DataBuffer;
              Data ← buf_write 0 bs Data; Some (Some Data)
            else Some (Some Data)
          else Some None);
  Some (err, Data, Slept, w).
End Pass.
