(* ===== verification/IoctlDeviceProps.v ===== *)
(** * Properties of devices from user mode *)

From S2P Require Import Prelude Wdk IoctlTypes Minimal MinimalProps IoctlDevice.

#[local] Set Warnings "-clear-no-such-hyp".

(** ** Hardware ids *)

Lemma wcsicmp_text a b x y :
  text a -> text b ->
  exists v, invariant_wcsicmp (a ++ 0 :: x) (b ++ 0 :: y) = Some v /\
    (0 =? v) = bool_decide (invariant_toupper <$> a = invariant_toupper <$> b).
Proof.
  intros Ha Hb. destruct (strcmp_spec invariant_toupper a b x y toupper_converts Ha Hb) as (v & Hv & Hv0 & _).
  exists v. split; [exact Hv|]. rewrite Z.eqb_sym. destruct (Z.eqb_spec v 0) as [->|Hne].
  - by rewrite bool_decide_true by (by apply Hv0).
  - rewrite bool_decide_false; [done|]. intros E. by apply Hne, Hv0.
Qed.

(** The strings of a list, each with its terminator, and the empty string at the end. *)
Fixpoint multi_sz (l : list (list Z)) : list Z :=
  match l with
  | [] => [0]
  | a :: l => a ++ 0 :: multi_sz l
  end.

Definition same_id (HardwareId a : list Z) : bool :=
  bool_decide (invariant_toupper <$> a = invariant_toupper <$> HardwareId).

Definition ids_wf (l : list (list Z)) : Prop := Forall (fun a => a <> [] /\ text a) l.

Lemma hwid_scan_spec l n x y fuel :
  ids_wf l -> text n -> (length l < fuel)%nat ->
  hwid_scan fuel (multi_sz l ++ x) (n ++ 0 :: y) = Some (existsb (same_id n) l).
Proof.
  intros Hl Hn. revert fuel. induction Hl as [|a l [Ha0 Ha] Hl IH]; intros [|fuel] Hf; simpl in Hf;
    try lia; [done|].
  cbn [multi_sz hwid_scan existsb]. rewrite <- app_assoc. cbn [app].
  destruct a as [|c a]; [done|]. cbn [app lookup list_lookup]. opt.
  pose proof (Forall_inv Ha : 0 < c < 2 ^ 16) as Hc. rewrite (proj2 (Z.eqb_neq 0 c)) by lia.
  destruct (wcsicmp_text (c :: a) n (multi_sz l ++ x) y Ha Hn) as (v & Hv & Hv0).
  cbn [app] in Hv. rewrite Hv. opt. rewrite Hv0. fold (same_id n (c :: a)).
  destruct (same_id n (c :: a)); cbn [orb]; [done|].
  pose proof (lstrlenW_text (c :: a) (multi_sz l ++ x) (text_is_text _ Ha)) as Hlen. cbn [app] in Hlen.
  rewrite Hlen. opt.
  replace (drop (length (c :: a) + 1) (c :: a ++ 0 :: multi_sz l ++ x)) with (multi_sz l ++ x).
  - apply IH. lia.
  - change (c :: a ++ 0 :: multi_sz l ++ x) with ((c :: a) ++ 0 :: multi_sz l ++ x).
    rewrite drop_app_ge by lia. by replace (length (c :: a) + 1 - length (c :: a))%nat with 1%nat by lia.
Qed.

(** The first zero of a list of characters. *)
Lemma first_zero P :
  Forall (fun c => 0 <= c < 2 ^ 16) P -> 0 ∈ P ->
  exists a x, P = a ++ 0 :: x /\ text a.
Proof.
  intros HP H0. induction HP as [|c P Hc HP IH]; [by apply not_elem_of_nil in H0|].
  destruct (Z.eqb_spec c 0) as [->|Hne]; [exists [], P; split; [done|constructor]|].
  apply elem_of_cons in H0 as [?|H0]; [congruence|]. destruct (IH H0) as (a & x & -> & Ha).
  exists (c :: a), x. split; [done|]. apply Forall_cons; split; [simpl; lia|exact Ha].
Qed.

(** Whatever a driver has put in the buffer, two terminators at its end stop the loop. *)
Lemma hwid_scan_total fuel P n y :
  Forall (fun c => 0 <= c < 2 ^ 16) P -> text n -> (length P < fuel)%nat ->
  ((exists Q, P = Q ++ [0; 0]) \/ P = [0]) ->
  exists b, hwid_scan fuel P (n ++ 0 :: y) = Some b.
Proof.
  revert P. induction fuel as [|fuel IH]; intros P HP Hn Hf Hend; [lia|]. cbn [hwid_scan].
  assert (0 ∈ P) as H0 by (destruct Hend as [[Q ->]| ->]; set_solver).
  destruct (first_zero P HP H0) as (a & x & -> & Ha). destruct a as [|c a]; [by exists false|].
  cbn [app lookup list_lookup]. opt. pose proof (Forall_inv Ha : 0 < c < 2 ^ 16) as Hc.
  rewrite (proj2 (Z.eqb_neq 0 c)) by lia.
  destruct (wcsicmp_text (c :: a) n x y Ha Hn) as (v & Hv & _). cbn [app] in Hv. rewrite Hv. opt.
  destruct (0 =? v); [by exists true|].
  pose proof (lstrlenW_text (c :: a) x (text_is_text _ Ha)) as Hlen. cbn [app] in Hlen. rewrite Hlen. opt.
  replace (drop (length (c :: a) + 1) (c :: a ++ 0 :: x)) with x.
  2: { change (c :: a ++ 0 :: x) with ((c :: a) ++ 0 :: x). rewrite drop_app_ge by lia.
       by replace (length (c :: a) + 1 - length (c :: a))%nat with 1%nat by lia. }
  apply IH; [|done| |].
  - apply Forall_app in HP as [_ HP]. by apply Forall_inv_tail in HP.
  - rewrite length_app in Hf. simpl in Hf. lia.
  - destruct Hend as [[Q E]|E]; [|by destruct a].
    destruct x as [|z x' _] using rev_ind.
    + exfalso. change (Q ++ [0; 0]) with (Q ++ [0] ++ [0]) in E. rewrite app_assoc in E.
      apply app_inj_tail in E as [E _]. assert (last (c :: a) = last (Q ++ [0])) as El by (by rewrite E).
      rewrite last_snoc in El. apply last_Some_elem_of in El.
      unfold text in Ha. rewrite Forall_forall in Ha. specialize (Ha _ El). lia.
    + change ((c :: a) ++ 0 :: x' ++ [z]) with ((c :: a) ++ (0 :: x') ++ [z]) in E.
      change (Q ++ [0; 0]) with (Q ++ [0] ++ [0]) in E. rewrite !app_assoc in E.
      apply app_inj_tail in E as [E ->]. destruct x' as [|z' x'' _] using rev_ind;
        [by right|left]. exists x''.
      change (0 :: x'' ++ [z']) with ((0 :: x'') ++ [z']) in E. rewrite app_assoc in E.
      apply app_inj_tail in E as [_ ->]. by rewrite <- app_assoc.
Qed.

(** A device: its hardware ids, if they can be read, and its name, or the error of reading it. *)
Record device := Device { ad_ids : option (list (list Z)); ad_name : list Z + Z }.

Definition describe (d : device) : DEVICE_INFO :=
  mkDevice (multi_sz <$> ad_ids d)
    (match ad_name d with inl n => inl (n ++ [0]) | inr e => inr e end).

Definition device_wf (d : device) : Prop :=
  (forall l, ad_ids d = Some l -> ids_wf l) /\
  match ad_name d with inl n => text n | inr e => e <> ERROR_SUCCESS end.

(** A device has the hardware id, among ids that are not too long to be read. *)
Definition has_id (n : list Z) (d : device) : bool :=
  match ad_ids d with
  | Some l => (length (multi_sz l) <=? PropBufLength - 2)%nat && existsb (same_id n) l
  | None => false
  end.

Lemma multi_sz_length l : (length l < length (multi_sz l))%nat.
Proof. induction l as [|a l IH]; [simpl; lia|]. cbn [multi_sz]. rewrite length_app. simpl. lia. Qed.

(** The buffer after the ids have been read into it. *)
Lemma prop_buf_write PropBuf ids :
  length PropBuf = PropBufLength -> (length ids <= PropBufLength - 2)%nat ->
  exists b1 b2 b3 x, buf_write 0 ids PropBuf = Some b1 /\ buf_write (PropBufLength - 2) [0] b1 = Some b2 /\
    buf_write (PropBufLength - 1) [0] b2 = Some b3 /\ b3 = ids ++ x /\ length b3 = PropBufLength.
Proof.
  intros HL Hi. set (n := PropBufLength) in *. assert (2 <= n)%nat as Hn by (subst n; unfold PropBufLength; lia).
  clearbody n.
  destruct (proj2 (buf_write_is_Some 0 ids PropBuf)) as [b1 H1]; [lia|].
  pose proof (buf_write_length _ _ _ _ H1) as L1.
  destruct (proj2 (buf_write_is_Some (n - 2) [0] b1)) as [b2 H2]; [simpl; lia|].
  pose proof (buf_write_length _ _ _ _ H2) as L2.
  destruct (proj2 (buf_write_is_Some (n - 1) [0] b2)) as [b3 H3]; [simpl; lia|].
  pose proof (buf_write_length _ _ _ _ H3) as L3.
  exists b1, b2, b3, (drop (length ids) b3). split_and!; try done; [|lia].
  rewrite <- (take_drop (length ids) b3) at 1. f_equal.
  apply list_eq. intros i. destruct (decide (i < length ids)%nat) as [Hlt|Hge].
  - rewrite lookup_take_lt by done.
    rewrite (buf_write_lookup_ne _ _ _ _ i H3), (buf_write_lookup_ne _ _ _ _ i H2) by lia.
    rewrite (buf_write_lookup _ _ _ _ i H1) by lia. f_equal. lia.
  - by rewrite !lookup_ge_None_2 by (rewrite ?length_take; lia).
Qed.

Lemma device_scan_spec ads PropBuf n y :
  Forall device_wf ads -> length PropBuf = PropBufLength -> text n ->
  device_scan (describe <$> ads) PropBuf (n ++ 0 :: y) = Some (describe <$> find (has_id n) ads).
Proof.
  intros Hads HL Hn. revert PropBuf HL. induction Hads as [|d ads [Hids _] Hads IH]; intros PropBuf HL; [done|].
  rewrite fmap_cons. cbn [device_scan find describe dev_HardwareIds]. unfold has_id at 1.
  destruct (ad_ids d) as [l|] eqn:Ed; cbn [fmap option_fmap option_map]; [|by apply IH].
  rewrite (Nat.leb_antisym (PropBufLength - 2)). 
  destruct (PropBufLength - 2 <? length (multi_sz l))%nat eqn:El; cbn [negb andb]; [by apply IH|].
  apply Nat.ltb_ge in El.
  destruct (prop_buf_write PropBuf (multi_sz l) HL El) as (b1 & b2 & b3 & x & -> & H2 & H3 & Hx & L3).
  rewrite bind_value, H2, bind_value, H3, bind_value, Hx.
  rewrite hwid_scan_spec; [|by apply Hids|done|pose proof (multi_sz_length l); unfold PropBufLength in *; lia].
  rewrite bind_value. destruct (existsb _ l); [done|]. rewrite <- Hx. by apply IH.
Qed.

(** ** Paths *)

Definition char_at (n : list Z) (i : nat) : Z := default 0 (n !! i).

Lemma char_at_lookup n y i : (i <= length n)%nat -> (n ++ 0 :: y) !! i = Some (char_at n i).
Proof.
  intros Hi. unfold char_at. destruct (decide (i < length n)%nat) as [Hlt|Hge].
  - rewrite lookup_app_l by done. destruct (lookup_lt_is_Some_2 n i Hlt) as [c ->]. done.
  - replace i with (length n) by lia. rewrite lookup_app_r, Nat.sub_diag by lia.
    by rewrite (lookup_ge_None_2 n) by lia.
Qed.

Lemma char_at_inside n i : char_at n i <> 0 -> (S i <= length n)%nat.
Proof.
  unfold char_at. intros Hc. destruct (n !! i) eqn:E; [|done]. by apply lookup_lt_Some in E.
Qed.

(** The names: of the system's root, global ones, hardware ids, and the others. *)
Definition rooted (n : list Z) : bool := char_at n 0 =? 92.
Definition global_name (n : list Z) : bool :=
  (char_at n 1 =? 92) && ((char_at n 2 =? 63) || (char_at n 2 =? 46)) && (char_at n 3 =? 92).
Definition hwid_name (n : list Z) : bool :=
  negb (rooted n) && existsb (fun c => (92 =? c) || (42 =? c)) n.

Lemma is_hwid_text n y : text n -> is_hwid (n ++ 0 :: y) = Some (existsb (fun c => (92 =? c) || (42 =? c)) n).
Proof.
  induction 1 as [|c n Hc Hn IH]; [done|]. cbn [app is_hwid existsb].
  rewrite (proj2 (Z.eqb_neq 0 c)) by lia. by destruct ((92 =? c) || (42 =? c)).
Qed.

Lemma path_parts_spec n y :
  text n ->
  path_parts (n ++ 0 :: y) =
    Some (if hwid_name n then (GLOBALROOT, 0, true)
          else (if rooted n then (if global_name n then [] else GLOBALROOT) else GLOBAL,
                u32 (2 * Z.of_nat (length n)), false)).
Proof.
  intros Hn. unfold path_parts, hwid_name, rooted. rewrite (char_at_lookup n y 0) by lia. opt.
  rewrite (Z.eqb_sym _ 92). destruct (Z.eqb_spec 92 (char_at n 0)) as [E0|E0]; cbn [negb andb].
  - pose proof (char_at_inside n 0 ltac:(lia)) as H0.
    rewrite (char_at_lookup n y 1) by lia. opt. unfold global_name. rewrite (Z.eqb_sym _ 92).
    rewrite lstrlenW_text by (by apply text_is_text).
    destruct (Z.eqb_spec 92 (char_at n 1)) as [E1|E1]; cbn [andb]; [|by opt].
    pose proof (char_at_inside n 1 ltac:(lia)) as H1.
    rewrite (char_at_lookup n y 2) by lia. opt. rewrite !(Z.eqb_sym (char_at n 2)).
    destruct (_ || _) eqn:E2; cbn [andb]; [|by opt].
    pose proof (char_at_inside n 2) as H2. apply orb_true_iff in E2. rewrite !Z.eqb_eq in E2.
    rewrite (char_at_lookup n y 3) by lia. opt. by rewrite (Z.eqb_sym _ 92).
  - rewrite is_hwid_text by done. opt. destruct (existsb _ n); [done|].
    by rewrite lstrlenW_text by (by apply text_is_text).
Qed.

(** The path that a name stands for, or the error. *)
Definition more_data (err : Z) : Z := if ERROR_INSUFFICIENT_BUFFER =? err then ERROR_MORE_DATA else err.

Definition path_of (ads : list device + Z) (LastError : Z) (n : list Z) : list Z + Z :=
  if hwid_name n then
    match ads with
    | inr e => inr e
    | inl ads =>
        match find (has_id n) ads with
        | Some d => match ad_name d with inl p => inl (GLOBALROOT ++ p) | inr e => inr e end
        | None => inr LastError
        end
    end
  else if rooted n then inl (if global_name n then n else GLOBALROOT ++ n)
  else inl (GLOBAL ++ n).

(** The buffer with a text, its terminator, and what was after it. *)
Definition holds (PathBuf path : list Z) : Prop := exists x, PathBuf = path ++ 0 :: x.

(** What the system answers about its devices. *)
Record devices_wf (ds : DEVICES) (ads : list device + Z) : Prop := {
  dw_devices : ds_Devices ds = match ads with inl ads => inl (describe <$> ads) | inr e => inr e end;
  dw_each : match ads with inl ads => Forall device_wf ads | inr e => e <> ERROR_SUCCESS end;
  dw_PropBuf : length (ds_PropBuf ds) = PropBufLength;
  dw_LastError : ds_LastError ds <> ERROR_SUCCESS
}.

Lemma not_found_success e : e <> ERROR_SUCCESS -> (ERROR_SUCCESS =? not_found_error e) = false.
Proof. intros He. apply Z.eqb_neq. unfold not_found_error. case_match; [done|congruence]. Qed.

(** The lookup of a hardware id: its error, or the name in the buffer. *)
Lemma by_hardware_id_spec ds ads n y PathBuf off Size :
  devices_wf ds ads -> text n -> 2 * Z.of_nat (length PathBuf) = 2 * Z.of_nat off + Size -> 0 < Size ->
  hwid_name n = true -> rooted n = false ->
  exists err PathBuf',
    GetDevicePathByHardwareId ds (n ++ 0 :: y) PathBuf off Size = Some (err, PathBuf') /\
    length PathBuf' = length PathBuf /\
    match path_of ads (ds_LastError ds) n with
    | inl path => exists p, path = GLOBALROOT ++ p /\
        if 2 * (Z.of_nat (length p) + 1) >? Size
        then err = ERROR_INSUFFICIENT_BUFFER /\ PathBuf' = PathBuf
        else err = ERROR_SUCCESS /\
             PathBuf' = take off PathBuf ++ (p ++ [0]) ++ drop (off + length (p ++ [0])) PathBuf
    | inr e => err = not_found_error e /\ e <> ERROR_SUCCESS /\ PathBuf' = PathBuf
    end.
Proof.
  intros [Hds Heach HPB HLE] Hn HL HS Hh Hr. unfold GetDevicePathByHardwareId, path_of.
  rewrite Hh, Hds. destruct ads as [ads|e]; [|by eexists _, _].
  rewrite device_scan_spec by done. rewrite bind_value.
  destruct (find (has_id n) ads) as [d|] eqn:Ef; cbn [fmap option_fmap option_map];
    [|by eexists _, _].
  apply find_some in Ef as [Hin _]. rewrite Forall_forall in Heach.
  destruct (Heach d) as [_ Hname]; [by apply list_elem_of_In|]. cbn [describe dev_Name].
  destruct (ad_name d) as [p|e]; [|by eexists _, _].
  rewrite length_app. cbn [length].
  replace (Z.of_nat (length p + 1)) with (Z.of_nat (length p) + 1) by lia.
  destruct (2 * (Z.of_nat (length p) + 1) >? Size) eqn:E.
  - eexists _, _. split; [done|]. split; [done|]. exists p. by rewrite E.
  - zify_bools. rewrite buf_write_Some by (rewrite length_app; simpl; lia). rewrite bind_value.
    eexists _, _. split; [done|]. split.
    + rewrite !length_app, length_take, length_drop. simpl. lia.
    + exists p. split; [done|]. destruct (_ >? _) eqn:E'; [zify_bools; lia|done].
Qed.

(** A prefix, a name and a terminator fit in a buffer, or are refused. *)
Lemma write_path PathBuf (Prefix name : list Z) :
  (length Prefix + length name + 1 <= length PathBuf)%nat ->
  exists b1 b2 b3, buf_write 0 Prefix PathBuf = Some b1 /\ buf_write (length Prefix) name b1 = Some b2 /\
    buf_write (length Prefix + length name) [0] b2 = Some b3 /\
    length b3 = length PathBuf /\ exists x, b3 = (Prefix ++ name) ++ 0 :: x.
Proof.
  intros HL. rewrite buf_write_Some by lia. eexists. rewrite take_0, app_nil_l, Nat.add_0_l.
  assert (length (Prefix ++ drop (length Prefix) PathBuf) = length PathBuf) as L1
    by (rewrite length_app, length_drop; lia).
  rewrite buf_write_Some by (rewrite ?L1; lia). eexists. rewrite take_app_length, drop_app_ge by lia.
  replace (length Prefix + length name - length Prefix)%nat with (length name) by lia.
  rewrite drop_drop, app_assoc.
  assert (length ((Prefix ++ name) ++ drop (length Prefix + length name) PathBuf) = length PathBuf) as L2
    by (rewrite !length_app, length_drop; lia).
  rewrite buf_write_Some by (rewrite L2; simpl; lia). eexists. rewrite <- length_app.
  rewrite take_app_length. split_and!; try done.
  - rewrite !length_app, !length_drop, !length_app, length_drop. simpl. lia.
  - by eexists.
Qed.

(** The path of a device is written inside its buffer, with its terminator, or the buffer is
    too small and an error says so.  Global names are paths already; names in the system's
    root get the prefix of the root, a name with a backslash or a star is a hardware id, and stands
    for the name of the first device that has it, up to case, under the root; other names get
    the global prefix.  A hardware id that no device has is not found.  Whatever the devices
    answer, no character is read or written outside of the buffers. *)
Theorem device_path ds ads n y PathBuf Size :
  devices_wf ds ads -> text n -> Z.of_nat (length n) < 2 ^ 30 -> Size = 2 * Z.of_nat (length PathBuf) ->
  Size < 2 ^ 32 -> (hwid_name n = true -> 32 <= Size) ->
  exists err PathBuf',
    SpdIoctlGetDevicePath ds (n ++ 0 :: y) PathBuf Size = Some (err, PathBuf') /\
    length PathBuf' = length PathBuf /\
    match path_of ads (ds_LastError ds) n with
    | inl path =>
        if 2 * (Z.of_nat (length path) + 1) >? Size then err = ERROR_MORE_DATA
        else err = ERROR_SUCCESS /\ holds PathBuf' path
    | inr e => err = more_data (not_found_error e) /\ err <> ERROR_SUCCESS
    end.
Proof.
  intros Hds Hn Hlen HS HS32 Hhw. unfold SpdIoctlGetDevicePath. rewrite path_parts_spec by done.
  rewrite bind_value. destruct (hwid_name n) eqn:Eh.
  - specialize (Hhw eq_refl). assert (rooted n = false) as Er
      by (unfold hwid_name in Eh; by apply andb_true_iff in Eh as [E _]; apply negb_true_iff in E).
    change (2 * Z.of_nat (length GLOBALROOT)) with 28. change (u32 (28 + 0) + 2) with 30.
    rewrite Z.gtb_ltb, (proj2 (Z.ltb_ge _ _)) by lia.
    change (Z.to_nat (0 / 2)) with 0%nat. change (Z.to_nat ((28 + 0) / 2)) with (length GLOBALROOT + length (@nil Z))%nat.
    destruct (write_path PathBuf GLOBALROOT []) as (b1 & b2 & b3 & H1 & H2 & H3 & L3 & x & Hx);
      [change (length GLOBALROOT) with 14%nat; simpl; lia|].
    rewrite H1, bind_value. change (buf_read 0 0 (n ++ 0 :: y)) with (Some (@nil Z)).
    rewrite bind_value, H2, bind_value, H3, bind_value.
    destruct (by_hardware_id_spec ds ads n y b3 (length GLOBALROOT) (Size - 28) Hds Hn)
      as (err & PathBuf' & -> & L & Ho); [rewrite L3; change (length GLOBALROOT) with 14%nat; lia|lia|done..|].
    rewrite bind_value. destruct (path_of ads (ds_LastError ds) n) as [path|e].
    + destruct Ho as (p & -> & Ho). rewrite length_app. change (length GLOBALROOT) with 14%nat.
      destruct (2 * (Z.of_nat (length p) + 1) >? Size - 28) eqn:E; destruct Ho as [-> HP]; zify_bools.
      * eexists _, _. split; [done|]. split; [congruence|].
        destruct (_ >? _) eqn:E'; [done|zify_bools; lia].
      * eexists _, _. split; [done|]. split; [congruence|].
        destruct (_ >? _) eqn:E'; [zify_bools; lia|]. split; [done|]. rewrite HP.
        rewrite app_nil_r in Hx. rewrite Hx, take_app_length, <- !app_assoc. by eexists.
    + destruct Ho as (-> & He & HP). rewrite not_found_success by done. cbn [negb].
      eexists _, _. split; [done|]. split; [congruence|]. split; [done|].
      unfold more_data, not_found_error. repeat case_match; try done; congruence.
  - set (Prefix := if rooted n then if global_name n then [] else GLOBALROOT else GLOBAL).
    assert (path_of ads (ds_LastError ds) n = inl (Prefix ++ n)) as ->.
    { unfold path_of. rewrite Eh. subst Prefix. by destruct (rooted n), (global_name n). }
    assert (length Prefix <= 14)%nat as HP
      by (subst Prefix; destruct (rooted n), (global_name n); vm_compute; lia).
    rewrite length_app. unfold u32 at 1 2. rewrite (Z.mod_small (2 * _)) by lia.
    rewrite Z.mod_small by lia.
    destruct (_ >? Size) eqn:E; zify_bools.
    + eexists _, _. split; [done|]. split; [done|]. destruct (_ >? _) eqn:E'; [done|zify_bools; lia].
    + replace (Z.to_nat (u32 (2 * Z.of_nat (length n)) / 2)) with (length n)
        by (unfold u32; rewrite Z.mod_small by lia; dlia).
      replace (Z.to_nat ((2 * Z.of_nat (length Prefix) + u32 (2 * Z.of_nat (length n))) / 2))
        with (length Prefix + length n)%nat by (unfold u32; rewrite Z.mod_small by lia; dlia).
      destruct (write_path PathBuf Prefix n) as (b1 & b2 & b3 & H1 & H2 & H3 & L3 & Hx); [lia|].
      rewrite H1, bind_value. unfold buf_read. rewrite decide_True by (rewrite length_app; simpl; lia).
      rewrite bind_value, drop_0, take_app_length, H2, bind_value, H3, bind_value.
      eexists _, _. split; [done|]. split; [done|]. destruct (_ >? _) eqn:E'; [zify_bools; lia|].
      split; [done|exact Hx].
Qed.

(** The second device has the id, in the other case. *)
Lemma device_path_witness :
  let ads := [Device None (inr 5); Device (Some [[66]; [42; 65]]) (inl [92; 68])] in
  let ds := mkDevices (inl (describe <$> ads)) (replicate 1024 7) ERROR_NO_MORE_ITEMS in
  exists PathBuf', SpdIoctlGetDevicePath ds [42; 97; 0] (replicate 20 7) 40 = Some (ERROR_SUCCESS, PathBuf') /\
    holds PathBuf' (GLOBALROOT ++ [92; 68]).
Proof.
  intros ads ds.
  destruct (device_path ds (inl ads) [42; 97] [] (replicate 20 7) 40) as (err & PathBuf' & E & _ & Ho).
  - split; [reflexivity| |apply length_replicate|discriminate].
    apply Forall_cons. split; [split; [intros l H; discriminate H|discriminate]|].
    apply Forall_cons. split; [|apply Forall_nil; exact I].
    split; [|repeat constructor; lia].
    intros l [= <-]. repeat (apply Forall_cons; split; [split; [discriminate|repeat constructor; lia]|]).
    apply Forall_nil. exact I.
  - repeat constructor; lia.
  - simpl. lia.
  - reflexivity.
  - lia.
  - intros _. lia.
  - change (path_of (inl ads) (ds_LastError ds) [42; 97]) with (@inl (list Z) Z (GLOBALROOT ++ [92; 68])) in Ho.
    change (2 * (Z.of_nat (length (GLOBALROOT ++ [92; 68])) + 1) >? 40) with false in Ho.
    destruct Ho as [-> Hh]. exists PathBuf'. split; [exact E|exact Hh].
Defined.

(** * The inquiry of a device ends *)

(** The fields of the address in a pass-through request. *)
Lemma pass_through_btl B T L n Cdb d len :
  is_byte B -> is_byte T -> is_byte L ->
  let r := pass_through (SPD_IOCTL_BTL B T L) n Cdb d len in
  pt_PathId r = B /\ pt_TargetId r = T /\ pt_Lun r = L.
Proof.
  intros HB HT HL. cbn. rewrite !land_ff, SPD_IOCTL_BTL_add by done.
  rewrite !Z.shiftr_div_pow2 by lia. unfold is_byte in *. split_and!; dlia.
Qed.

(** The length of a command that its group code tells. *)
Lemma cdb_length_groups op Cdb :
  is_byte op ->
  cdb_length (op :: Cdb) =
    Some (match op / 32 with 0 => Some 6 | 1 | 2 => Some 10 | 4 => Some 16 | 5 => Some 12 | _ => None end).
Proof.
  intros Hop. unfold cdb_length. cbn [lookup list_lookup]. opt.
  assert (op .& 0xE0 = op / 32 * 32) as ->.
  { change 0xE0 with (Z.ldiff (Z.ones 8) (Z.ones 5)). apply Z.bits_inj_iff'. intros k Hk.
    change 32 with (2 ^ 5). rewrite <- Z.shiftl_mul_pow2, <- Z.shiftr_div_pow2, <- Z.ldiff_ones_r by lia.
    rewrite Z.land_spec, !Z.ldiff_spec. destruct (Z.testbit op k) eqn:E; [|done]. cbn [andb].
    rewrite (Z.testbit_ones_nonneg 8) by lia. rewrite (proj2 (Z.ltb_lt k 8)); [done|].
    destruct (Z.ltb_spec k 8) as [|Hge]; [done|]. exfalso.
    destruct (decide (op = 0)) as [->|Hne]; [by rewrite Z.bits_0 in E|].
    rewrite Z.bits_above_log2 in E; [done|unfold is_byte in Hop; lia|].
    apply Z.log2_lt_pow2; [unfold is_byte in Hop; lia|].
    eapply Z.lt_le_trans; [apply Hop|]. change 256 with (2 ^ 8). apply Z.pow_le_mono_r; lia. }
  assert (0 <= op / 32 < 8) as Hg by (unfold is_byte in Hop; dlia). generalize (op / 32) Hg. clear.
  intros g Hg. assert (g = 0 \/ g = 1 \/ g = 2 \/ g = 3 \/ g = 4 \/ g = 5 \/ g = 6 \/ g = 7) as Hc by lia.
  repeat destruct Hc as [->|Hc]; try reflexivity. by subst g.
Qed.

(** ** The loop *)

Definition total (l : list Z) : Z := foldr Z.add 0 l.

Lemma total_app l k : total (l ++ k) = total l + total k.
Proof. unfold total. induction l as [|x l IH]; simpl in *; lia. Qed.

(** The attempts that are left with [Timeout] milliseconds to go. *)
Definition attempts (I : nat) (Timeout : Z) : nat :=
  if Timeout =? 0 then 1%nat else (4 - I + Z.to_nat (Timeout / 1000) + 2)%nat.

Lemma inquiry_delay_spec I Timeout :
  0 < Timeout ->
  exists Delay, inquiry_delay I Timeout = Some Delay /\ 0 < Delay <= Timeout /\
    (attempts (S I) (Timeout - Delay) < attempts I Timeout)%nat.
Proof.
  intros HT. unfold inquiry_delay. set (i := if (I <? length Delays)%nat then I else _).
  assert (exists d, Delays !! i = Some d /\ 0 < d /\ ((4 <= I)%nat -> d = 1000)) as (d & Hd & Hd0 & Hd4).
  { subst i. change (length Delays) with 5%nat.
    do 4 (destruct I as [|I]; [eexists; split; [reflexivity|]; split; [lia|intros; lia]|]).
    destruct I as [|I]; [by exists 1000|]. by exists 1000. }
  rewrite Hd. opt. exists (if d <? Timeout then d else Timeout). split; [done|].
  destruct (Z.ltb_spec d Timeout) as [Hlt|Hge].
  - split; [lia|]. unfold attempts. rewrite !(proj2 (Z.eqb_neq _ 0)) by lia.
    assert ((Timeout - d) / 1000 <= Timeout / 1000) by (apply Z.div_le_mono; lia).
    assert (0 <= (Timeout - d) / 1000) by (apply Z.div_pos; lia).
    destruct (decide (4 <= I)%nat) as [H4|H4]; [|lia]. rewrite (Hd4 H4) in *.
    replace ((Timeout - 1000) / 1000) with (Timeout / 1000 - 1) in * by dlia. lia.
  - split; [lia|]. unfold attempts. rewrite Z.sub_diag, Z.eqb_refl.
    rewrite (proj2 (Z.eqb_neq _ 0)) by lia. lia.
Qed.

#[local] Ltac exec_fields :=
  cbn; split_and!; try done; eexists; (split || idtac); try done; try lia.

Section Inquiry.
Context {W : Type} (PassThrough : W -> SCSI_PASS_THROUGH_DIRECT -> list Z -> PASS_THROUGH_ANSWER * W).
Context (Overlapped : Z).

(** The system does not lengthen the data or the sense information. *)
Definition pass_through_wf : Prop :=
  forall w r buf, let a := fst (PassThrough w r buf) in
    length (pa_DataBuffer a) = length buf /\
    (0 <= pt_DataTransferLength r -> 0 <= pa_DataTransferLength a <= pt_DataTransferLength r) /\
    length (pa_SenseInfo a) = 32%nat /\ 0 <= pa_SenseInfoLength a <= 32.

Context (HPT : pass_through_wf).

Lemma execute_inquiry w Btl buf st sense :
  length sense = 32%nat -> Z.of_nat (length buf) = VPD_MAX_BUFFER_SIZE ->
  exists r w', SpdIoctlScsiExecute PassThrough Overlapped w Btl INQUIRY_CDB 1 buf
      (Some VPD_MAX_BUFFER_SIZE) (Some st) (Some sense) = Some (r, w') /\
    length (ex_DataBuffer r) = length buf /\
    (exists n, ex_DataLength r = Some n /\ 0 <= n <= VPD_MAX_BUFFER_SIZE) /\
    (exists s, ex_ScsiStatus r = Some s) /\
    exists s, ex_SenseInfo r = Some s /\ length s = 32%nat.
Proof using HPT.
  intros Hs Hb. unfold SpdIoctlScsiExecute. change (cdb_length INQUIRY_CDB) with (Some (Some 6)).
  rewrite bind_value. assert (0 <= VPD_MAX_BUFFER_SIZE) by (unfold VPD_MAX_BUFFER_SIZE; lia).
  destruct (negb (ERROR_SUCCESS =? Overlapped)).
  { eexists _, w. split; [done|]. exec_fields. }
  set (req := pass_through _ _ _ _ _). pose proof (HPT w req buf) as (H1 & H2 & H3 & H4).
  destruct (PassThrough w req buf) as [a w']. cbn [fst] in *. 
  change (pt_DataTransferLength req) with VPD_MAX_BUFFER_SIZE in H2. specialize (H2 ltac:(assumption)).
  destruct (negb (ERROR_SUCCESS =? pa_Error a)).
  { eexists _, w'. split; [done|]. exec_fields. }
  destruct (negb (SCSISTAT_GOOD =? pa_ScsiStatus a)).
  - unfold buf_read. rewrite decide_True by lia. rewrite bind_value, drop_0.
    rewrite buf_write_Some by (rewrite length_take; lia). rewrite !bind_value.
    eexists _, w'. split; [done|]. exec_fields.
    rewrite !length_app, length_take, length_drop, length_take. lia.
  - rewrite bind_value. eexists _, w'. split; [done|]. exec_fields.
Qed.

Lemma inquiry_loop_ends fuel w Btl I Timeout buf st sense Slept :
  0 <= Timeout < 2 ^ 32 -> (attempts I Timeout <= fuel)%nat ->
  length sense = 32%nat -> Z.of_nat (length buf) = VPD_MAX_BUFFER_SIZE ->
  exists err buf' n More w',
    inquiry_loop PassThrough Overlapped fuel w Btl I Timeout buf st sense Slept =
      Some (err, buf', n, Slept ++ More, w') /\
    (err = ERROR_SUCCESS \/ err = ERROR_TIMEOUT) /\ length buf' = length buf /\
    0 <= n <= VPD_MAX_BUFFER_SIZE /\ Forall (fun d => 0 < d) More /\
    (if err =? ERROR_SUCCESS then total More <= Timeout else total More = Timeout) /\
    (S (length More) <= attempts I Timeout)%nat.
Proof using HPT.
  revert w I Timeout buf st sense Slept. induction fuel as [|fuel IH];
    intros w I Timeout buf st sense Slept HT Hf Hs Hb.
  { unfold attempts in Hf. case_match; lia. }
  cbn [inquiry_loop].
  destruct (execute_inquiry w Btl buf st sense Hs Hb)
    as (r & w' & -> & Hl & (n & Hn & Hnb) & (s & Hst) & (se & Hse & Hsel)).
  rewrite bind_value, Hn, Hst, Hse. cbn [from_option id].
  assert (1 <= attempts I Timeout)%nat as H1 by (unfold attempts; case_match; lia).
  destruct ((ERROR_SUCCESS =? ex_Error r) && (SCSISTAT_GOOD =? s)) eqn:Eg.
  { apply andb_true_iff in Eg as [Eg _]. apply Z.eqb_eq in Eg as <-. eexists _, _, _, [], _.
    rewrite app_nil_r. split; [done|]. split_and!; first [done|by left|apply Forall_nil_2; exact I|simpl; lia]. }
  destruct (Z.eqb_spec 0 Timeout) as [<-|Hne].
  { eexists _, _, _, [], _. rewrite app_nil_r. split; [done|].
    split_and!; first [done|by right|apply Forall_nil_2; exact I|simpl; lia]. }
  destruct (inquiry_delay_spec I Timeout) as (d & -> & Hd & Hat); [lia|].
  rewrite bind_value. unfold u32. rewrite Z.mod_small by lia.
  destruct (IH w' (S I) (Timeout - d) (ex_DataBuffer r) s se (Slept ++ [d]))
    as (err & buf' & m & More & w'' & -> & He & Hl' & Hm & HF & Ht & Hlen); try done; try lia.
  eexists _, _, _, (d :: More), _. rewrite <- app_assoc. split; [done|].
  split_and!; try done; try lia.
  - apply Forall_cons. split; [lia|done].
  - change (total (d :: More)) with (d + total More). destruct (err =? ERROR_SUCCESS); lia.
  - simpl. lia.
Qed.

(** The inquiry of a device ends: with success as soon as the device answers, or with a time
    out, whatever the errors were.  Each delay is positive; together they are no longer than the
    time that the caller gives, and a time out has used all of it; and there are at most six
    attempts and one more for each second.  Inquiry data are the bytes that the device has given,
    padded with zeros or cut to the size of the structure, and zeros after a time out. *)
Theorem inquiry_terminates fuel sizeof_INQUIRYDATA w Btl Timeout buf st sense :
  0 <= Timeout < 2 ^ 32 -> (Z.to_nat (Timeout / 1000) + 6 <= fuel)%nat ->
  length sense = 32%nat -> Z.of_nat (length buf) = VPD_MAX_BUFFER_SIZE -> 0 <= sizeof_INQUIRYDATA ->
  exists err Data Slept w' buf' n,
    SpdIoctlScsiInquiry PassThrough Overlapped fuel sizeof_INQUIRYDATA w Btl true Timeout (buf, st, sense) =
      Some (err, Some Data, Slept, w') /\
    (err = ERROR_SUCCESS \/ err = ERROR_TIMEOUT) /\ Forall (fun d => 0 < d) Slept /\
    (if err =? ERROR_SUCCESS then total Slept <= Timeout else total Slept = Timeout) /\
    (length Slept <= Z.to_nat (Timeout / 1000) + 5)%nat /\
    length buf' = length buf /\ 0 <= n <= VPD_MAX_BUFFER_SIZE /\
    Data = (if err =? ERROR_SUCCESS
            then take (Z.to_nat sizeof_INQUIRYDATA) (take (Z.to_nat n) buf') ++
                 replicate (Z.to_nat sizeof_INQUIRYDATA - Z.to_nat n) 0
            else replicate (Z.to_nat sizeof_INQUIRYDATA) 0).
Proof using HPT.
  intros HT Hf Hs Hb Hsz. unfold SpdIoctlScsiInquiry.
  assert (attempts 0 Timeout <= Z.to_nat (Timeout / 1000) + 6)%nat as Ha
    by (unfold attempts; case_match; lia).
  destruct (inquiry_loop_ends fuel w Btl 0 Timeout buf st sense [] HT ltac:(lia) Hs Hb)
    as (err & buf' & n & More & w' & -> & He & Hl & Hn & HF & Ht & Hlen).
  rewrite bind_value. cbn [app]. rewrite (Z.eqb_sym ERROR_SUCCESS).
  set (S := Z.to_nat sizeof_INQUIRYDATA).
  assert (exists Data, (if err =? ERROR_SUCCESS
    then bs ← buf_read 0 (Z.to_nat (if sizeof_INQUIRYDATA <? n then sizeof_INQUIRYDATA else n)) buf';
         Data ← buf_write 0 bs (replicate S 0); Some (Some Data)
    else Some (Some (replicate S 0))) = Some (Some Data) /\
    Data = (if err =? ERROR_SUCCESS
            then take S (take (Z.to_nat n) buf') ++ replicate (S - Z.to_nat n) 0
            else replicate S 0)) as (Data & -> & HD).
  { destruct (err =? ERROR_SUCCESS); [|by eexists].
    set (k := if sizeof_INQUIRYDATA <? n then sizeof_INQUIRYDATA else n).
    assert (Z.to_nat k = S `min` Z.to_nat n)%nat as Hk by (subst k S; case_match; zify_bools; lia).
    unfold buf_read. rewrite decide_True by lia. rewrite bind_value, drop_0, Hk.
    rewrite buf_write_Some by (rewrite length_take, length_replicate; lia). rewrite bind_value.
    eexists. split; [done|]. rewrite take_0, app_nil_l, Nat.add_0_l, take_take. f_equal.
    rewrite drop_replicate, length_take. f_equal. lia. }
  rewrite bind_value. exists err, Data, More, w', buf', n. split; [done|].
  split_and!; try done; try lia.
Qed.
End Inquiry.

(** A device that answers the third attempt, and one that does not answer. *)
Definition example_device (ready : Z) (n : Z) (r : SCSI_PASS_THROUGH_DIRECT) (buf : list Z)
    : PASS_THROUGH_ANSWER * Z :=
  (mkPassThrough 0 (pt_DataTransferLength r) (if n <? ready then 8 else 0) 32 (replicate 32 0) buf, n + 1).

Lemma inquiry_terminates_witness :
  (exists Data, SpdIoctlScsiInquiry (example_device 2) 0 8 36 0 0 true 2500
      (replicate 255 9, 0, replicate 32 0) = Some (ERROR_SUCCESS, Some Data, [100; 300], 3)) /\
  exists err Data Slept w', SpdIoctlScsiInquiry (example_device 99) 0 8 36 0 0 true 2500
      (replicate 255 9, 0, replicate 32 0) = Some (err, Some Data, Slept, w') /\ total Slept <= 2500.
Proof.
  assert (forall k, pass_through_wf (example_device k)) as Hwf.
  { intros k w r buf. cbn. split; [reflexivity|]. split; [lia|]. split; [reflexivity|lia]. }
  split.
  - eexists. vm_compute. reflexivity.
  - destruct (inquiry_terminates (example_device 99) 0 (Hwf 99) 8 36 0 0 2500 (replicate 255 9) 0
      (replicate 32 0)) as (err & Data & Slept & w' & buf' & n & E & _ & _ & Ht & _).
    + lia.
    + vm_compute. lia.
    + reflexivity.
    + reflexivity.
    + lia.
    + exists err, Data, Slept, w'. split; [exact E|]. destruct (err =? ERROR_SUCCESS); lia.
Defined.
