(* ===== verification/IoctlClient.v ===== *)
(** * Control requests from user mode: [shared/ioctl.c], second part

    Each function fills the parameters of a request, sends it with [DeviceIoControl] and reads the
    answer.  [DeviceIoControl] is an argument: the state of the system, the handle, the input
    buffer with the lengths of both buffers, and the memory that [DataBuffer] points to.
    [DriverDevice] is the one that the driver's own handler implements. *)

From S2P Require Import Prelude Wdk IoctlTypes ListEntry Srb Ioq StgUnit Scsi ScsiIo DriverIoctl.

(** The answer: whether the request has succeeded, the last error, the output, its length, and
    the data buffer. *)
Record IOCTL_ANSWER := mkAnswer {
  ans_Success : bool;
  ans_LastError : Z;
  ans_Output : ioctl_output;
  ans_BytesTransferred : Z;
  ans_DataBuffer : option (list Z)
}.

(** A structure of zeros with its size and its code. *)
Definition ZeroParams : SPD_IOCTL_STORAGE_UNIT_PARAMS :=
  mkParams NullGuid 0 0 (replicate 16 0) (replicate 4 0) 0 false false false false 0.
Definition ZeroStatus : SPD_IOCTL_STORAGE_UNIT_STATUS := mkStatus 0 0 0 0 0 false.
Definition ZeroRsp : SPD_IOCTL_TRANSACT_RSP := mkRsp 0 0 ZeroStatus.
Definition base_params (Size Code : Z) : SystemBuffer :=
  mkBuffer Size Code ZeroParams NullGuid 0 false false 0 ZeroRsp 0.

Section Client.
Context {W : Type}
  (DeviceIoControl : W -> Z -> SystemBuffer -> Z -> Z -> option (list Z) -> option (IOCTL_ANSWER * W)).
(** The address of a data buffer. *)
Context (Address : Z).

Definition NO_BTL : Z := 0xffffffff.

(** [SpdIoctlProvision]: the error and [*PBtl].  The output is in place of the input: its address
    is in the memory of the first member of the GUID. *)
Definition ProvisionClient (w : W) (DeviceHandle : Z) (StorageUnitParams : SPD_IOCTL_STORAGE_UNIT_PARAMS)
    : option (Z * Z * W) :=
  let Params := (base_params sizeof_SPD_IOCTL_PROVISION_PARAMS SPD_IOCTL_PROVISION)
                  <| sb_StorageUnitParams := StorageUnitParams |> in
  '(a, w) ← DeviceIoControl w DeviceHandle Params sizeof_SPD_IOCTL_PROVISION_PARAMS
              sizeof_SPD_IOCTL_PROVISION_PARAMS None;
  if negb (ans_Success a) then Some (ans_LastError a, NO_BTL, w)
  else
    let Btl := match ans_Output a with
               | OutProvision Btl => Btl
               | _ => Data1 (Guid StorageUnitParams)
               end in
    Some (ERROR_SUCCESS, Btl, w).

(** [SpdIoctlUnprovision] *)
Definition UnprovisionClient (w : W) (DeviceHandle : Z) (G : GUID) : option (Z * W) :=
  let Params := (base_params sizeof_SPD_IOCTL_UNPROVISION_PARAMS SPD_IOCTL_UNPROVISION)
                  <| sb_Guid := G |> in
  '(a, w) ← DeviceIoControl w DeviceHandle Params sizeof_SPD_IOCTL_UNPROVISION_PARAMS 0 None;
  if negb (ans_Success a) then Some (ans_LastError a, w) else Some (ERROR_SUCCESS, w).

(** [SpdIoctlGetList]: the error, the addresses that are in the buffer, and [*PListSize]. *)
Definition GetListClient (w : W) (DeviceHandle ListSize : Z) : option (Z * list Z * Z * W) :=
  let Params := base_params sizeof_SPD_IOCTL_LIST_PARAMS SPD_IOCTL_LIST in
  '(a, w) ← DeviceIoControl w DeviceHandle Params sizeof_SPD_IOCTL_LIST_PARAMS ListSize None;
  if negb (ans_Success a) then Some (ans_LastError a, [], ListSize, w)
  else
    let List := match ans_Output a with OutList Btls => Btls | _ => [] end in
    Some (ERROR_SUCCESS, List, ans_BytesTransferred a, w).

(** [SpdIoctlTransact]: the error, the request if it is asked for, and the data buffer.  Memory
    that is no request, read as one, is [None]. *)
Definition TransactClient (w : W) (DeviceHandle Btl : Z) (Rsp : option SPD_IOCTL_TRANSACT_RSP)
    (Req : bool) (DataBuffer : option (list Z))
    : option (Z * option SPD_IOCTL_TRANSACT_REQ * option (list Z) * W) :=
  let Params := (base_params sizeof_SPD_IOCTL_TRANSACT_PARAMS SPD_IOCTL_TRANSACT)
                  <| sb_Btl := Btl |> <| sb_ReqValid := Req |>
                  <| sb_RspValid := bool_decide (Rsp <> None) |>
                  <| sb_DataBuffer := match DataBuffer with Some _ => Address | None => 0 end |> in
  let Params := match Rsp with Some Rsp => Params <| sb_Rsp := Rsp |> | None => Params end in
  '(a, w) ← DeviceIoControl w DeviceHandle Params sizeof_SPD_IOCTL_TRANSACT_PARAMS
              sizeof_SPD_IOCTL_TRANSACT_PARAMS DataBuffer;
  if negb (ans_Success a) then Some (ans_LastError a, None, ans_DataBuffer a, w)
  else
    Request ← (if Req then
                 if sizeof_SPD_IOCTL_TRANSACT_PARAMS =? ans_BytesTransferred a then
                   match ans_Output a with OutTransact R _ => Some (Some R) | _ => None end
                 else Some (Some ReqZero)
               else Some None);
    Some (ERROR_SUCCESS, Request, ans_DataBuffer a, w).

(** [SpdIoctlSetTransactProcessId] *)
Definition SetTransactProcessIdClient (w : W) (DeviceHandle Btl ProcessId : Z) : option (Z * W) :=
  let Params := (base_params sizeof_SPD_IOCTL_SET_TRANSACT_PID_PARAMS SPD_IOCTL_SET_TRANSACT_PID)
                  <| sb_Btl := Btl |> <| sb_ProcessId := ProcessId |> in
  '(a, w) ← DeviceIoControl w DeviceHandle Params sizeof_SPD_IOCTL_SET_TRANSACT_PID_PARAMS 0 None;
  if negb (ans_Success a) then Some (ans_LastError a, w) else Some (ERROR_SUCCESS, w).
End Client.

(** ** The driver as the device *)

(** The state: the driver's extension, the process that sends the requests, the memory and the
    sizes that the kernel gives, what the thread finds after each of its waits, and the requests
    that have been completed. *)
Record DRIVER := mkDriver {
  drv_Extension : SPD_DEVICE_EXTENSION;
  drv_ProcessId : Z;
  drv_AllocUnit : Z;
  drv_AllocIoq : bool;
  drv_Rounds : list (Z * SPD_DEVICE_EXTENSION);
  drv_Effects : list effects
}.

#[export] Instance DRIVER_eta : Eta DRIVER := fun d =>
  mkDriver (drv_Extension d) (drv_ProcessId d) (drv_AllocUnit d) (drv_AllocIoq d) (drv_Rounds d)
    (drv_Effects d).

Section DriverDevice.
Context (DBG : bool) (sizeof_SPD_IOQ : Z) (RtlNtStatusToDosError : Z -> Z).

(** The request as the system hands it to [SpdHwProcessServiceRequest]: from user mode, with the
    data buffer mapped; then the error of its status, or its output. *)
Definition DriverDevice (d : DRIVER) (DeviceHandle : Z) (Params : SystemBuffer)
    (InputLength OutputLength : Z) (DataBuffer : option (list Z)) : option (IOCTL_ANSWER * DRIVER) :=
  let irp := mkIrp InputLength OutputLength (drv_ProcessId d) true STATUS_SUCCESS in
  '(Status, Information, Out, E, eff) ←
    SpdHwProcessServiceRequest DBG sizeof_SPD_IOQ (drv_Extension d) irp (Some Params)
      (drv_AllocUnit d) (drv_AllocIoq d)
      (match DataBuffer with Some b => Mapped b | None => MapFailed end) (drv_Rounds d);
  Some (mkAnswer (NT_SUCCESS Status) (RtlNtStatusToDosError Status) Out Information
          (match Out with OutTransact _ b => b | _ => DataBuffer end),
        d <| drv_Extension := E |> <| drv_Effects := drv_Effects d ++ [eff] |>).
End DriverDevice.
