(* ===== verification/IoctlClientProps.v ===== *)
(** * User mode and the driver together

    The functions of [shared/ioctl.c] with the driver's handler as the device. *)

From S2P Require Import Prelude Wdk IoctlTypes ListEntry Srb Ioq IoqRun StgUnit StgUnitInv StgUnitProps Scsi ScsiIo DriverIoctl DriverIoctlProps IoctlClient.

#[local] Set Warnings "-clear-no-such-hyp".

(** A request that is as long as its input buffer reaches the handler of its code. *)
Lemma process_dispatch DBG sz E irp B a q m rounds :
  sizeof_SPD_IOCTL_BASE_PARAMS <= irp_InputBufferLength irp ->
  sb_Size B <= irp_InputBufferLength irp ->
  SpdHwProcessServiceRequest DBG sz E irp (Some B) a q m rounds =
    ('(Status, Information, Out, E, eff) ←
      (if sb_Code B =? SPD_IOCTL_PROVISION then SpdIoctlProvision DBG sz E irp B a q
       else if sb_Code B =? SPD_IOCTL_UNPROVISION then SpdIoctlUnprovision DBG E irp B
       else if sb_Code B =? SPD_IOCTL_LIST then
         answer ← SpdIoctlGetList E irp; Some (answer, E, no_effects)
       else if sb_Code B =? SPD_IOCTL_TRANSACT then
         '(answer, E, cs) ← SpdIoctlTransact DBG E irp B m rounds;
         Some (answer, E, mkEffects cs false)
       else if sb_Code B =? SPD_IOCTL_SET_TRANSACT_PID then
         '(answer, E, cs) ← SpdIoctlSetTransactProcessId DBG E irp B;
         Some (answer, E, mkEffects cs false)
       else Some (STATUS_INVALID_PARAMETER, 0, OutNone, E, no_effects));
     Some (Status, (if negb (STATUS_SUCCESS =? Status) && negb (STATUS_BUFFER_OVERFLOW =? Status)
                    then 0 else Information), Out, E, eff)).
Proof.
  intros H1 H2. unfold SpdHwProcessServiceRequest.
  by rewrite !Z.gtb_ltb, !(proj2 (Z.ltb_ge _ _)) by lia.
Qed.

Section Client.
Context (DBG : bool) (sz : Z) (Dos : Z -> Z) (Address : Z).
Context (HDos : forall s, NT_SUCCESS s = false -> Dos s <> ERROR_SUCCESS).
Let Device := DriverDevice DBG sz Dos.

(** The state after a request. *)
Definition after (d : DRIVER) (E : SPD_DEVICE_EXTENSION) (eff : effects) : DRIVER :=
  d <| drv_Extension := E |> <| drv_Effects := drv_Effects d ++ [eff] |>.

(** What the caller's process gets when it asks for a unit with these parameters. *)
Definition can_provision (E : SPD_DEVICE_EXTENSION) (P : SPD_IOCTL_STORAGE_UNIT_PARAMS) : Prop :=
  params_accepted P /\ ~ has_guid E (Guid P) /\ ~ no_free E 0 (Z.to_nat (StorageUnitCapacity E)).

Lemma client_list d refs h n :
  ext_wf (drv_Extension d) refs -> 0 <= n ->
  let l := used_addresses (drv_Extension d) in
  GetListClient Device d h n =
    Some (if 4 * Z.of_nat (length l) <=? n
          then (ERROR_SUCCESS, l, 4 * Z.of_nat (length l), after d (drv_Extension d) no_effects)
          else (Dos STATUS_BUFFER_TOO_SMALL, [], n, after d (drv_Extension d) no_effects)).
Proof using.
  intros Hwf Hn l. unfold GetListClient, Device, DriverDevice.
  rewrite process_dispatch by (vm_compute; discriminate).
  change (sb_Code (base_params sizeof_SPD_IOCTL_LIST_PARAMS SPD_IOCTL_LIST) =? SPD_IOCTL_PROVISION) with false.
  change (sb_Code (base_params sizeof_SPD_IOCTL_LIST_PARAMS SPD_IOCTL_LIST) =? SPD_IOCTL_UNPROVISION) with false.
  change (sb_Code (base_params sizeof_SPD_IOCTL_LIST_PARAMS SPD_IOCTL_LIST) =? SPD_IOCTL_LIST) with true.
  cbv iota. rewrite (get_list_spec _ refs) by (done || (vm_compute; discriminate)).
  cbn [irp_OutputBufferLength]. fold l. rewrite bind_value.
  by destruct (4 * Z.of_nat (length l) <=? n).
Qed.

Lemma client_provision d refs h P :
  ext_wf (drv_Extension d) refs -> Z.of_nat (length refs) < 2 ^ 32 - 2 -> params_range P ->
  0 <= sz <= PAGE_SIZE - 8 -> drv_AllocUnit d <> 0 -> Units (drv_Extension d) !! drv_AllocUnit d = None ->
  drv_AllocIoq d = true ->
  let E := drv_Extension d in
  exists Status Btl E' eff,
    ProvisionClient Device d h P =
      Some (if NT_SUCCESS Status then (ERROR_SUCCESS, Btl, after d E' eff)
            else (Dos Status, NO_BTL, after d E' eff)) /\
    ext_wf E' refs /\
    ((Status = STATUS_INVALID_PARAMETER /\ ~ params_accepted P /\ E' = E /\ eff = no_effects) \/
     (params_accepted P /\
      provision_result E (NewStorageUnit P (drv_ProcessId d)) (drv_AllocUnit d) Status Btl E' eff)).
Proof using.
  intros Hwf Hfew HP Hsz Ha Hfresh Hq E. unfold ProvisionClient, Device, DriverDevice.
  set (B := _ <| sb_StorageUnitParams := P |>). rewrite process_dispatch by (vm_compute; discriminate).
  change (sb_Code B =? SPD_IOCTL_PROVISION) with true. cbv iota.
  unfold SpdIoctlProvision. cbn [irp_InputBufferLength irp_OutputBufferLength irp_RequestorProcessId].
  change (_ || _) with false. change (sb_StorageUnitParams B) with P. cbv iota.
  destruct (provision_params_spec P HP) as (b & -> & Hacc). rewrite bind_value. destruct b.
  { exists STATUS_INVALID_PARAMETER, NO_BTL, E, no_effects. split; [done|]. split; [done|]. left.
    split; [done|]. split; [|done]. intros Hok. apply Hacc in Hok. discriminate Hok. }
  assert (params_accepted P) as Hok by by apply Hacc. rewrite Hq.
  destruct (provision_spec DBG sz E refs P (drv_ProcessId d) (drv_AllocUnit d) Hwf
    (accepted_wf P HP Hok) Hsz Ha Hfresh Hfew) as (st & btl & E' & eff & HS & Hwf' & Hr).
  fold E. rewrite HS, bind_value. exists st, btl, E', eff. split; [|split; [done|by right]].
  by destruct Hr as [(-> & _ & -> & _)|[(-> & _ & _ & -> & _)|(-> & _)]].
Qed.

(** Without memory for the queue of the unit there is an error. *)
Lemma client_no_queue d h P :
  params_range P -> drv_AllocUnit d <> 0 -> Units (drv_Extension d) !! drv_AllocUnit d = None ->
  drv_AllocIoq d = false ->
  exists Status, NT_SUCCESS Status = false /\
    ProvisionClient Device d h P = Some (Dos Status, NO_BTL, after d (drv_Extension d) no_effects).
Proof using.
  intros HP Ha Hfresh Hq. unfold ProvisionClient, Device, DriverDevice.
  set (B := _ <| sb_StorageUnitParams := P |>). rewrite process_dispatch by (vm_compute; discriminate).
  change (sb_Code B =? SPD_IOCTL_PROVISION) with true. cbv iota.
  unfold SpdIoctlProvision. cbn [irp_InputBufferLength irp_OutputBufferLength irp_RequestorProcessId].
  change (_ || _) with false. change (sb_StorageUnitParams B) with P. cbv iota.
  destruct (provision_params_spec P HP) as (b & -> & _). rewrite bind_value. destruct b.
  { exists STATUS_INVALID_PARAMETER. by split. }
  rewrite Hq, provision_no_queue by done. rewrite bind_value. exists STATUS_INSUFFICIENT_RESOURCES. by split.
Qed.

Lemma client_unprovision d refs h G :
  ext_wf (drv_Extension d) refs -> Z.of_nat (length refs) < 2 ^ 32 - 2 ->
  let E := drv_Extension d in
  exists Status E' eff,
    UnprovisionClient Device d h G =
      Some (if NT_SUCCESS Status then ERROR_SUCCESS else Dos Status, after d E' eff) /\
    ext_wf E' refs /\ unprovision_result E (Some G) 0 (drv_ProcessId d) Status E' eff.
Proof using.
  intros Hwf Hfew E. unfold UnprovisionClient, Device, DriverDevice.
  set (B := _ <| sb_Guid := G |>). rewrite process_dispatch by (vm_compute; discriminate).
  change (sb_Code B =? SPD_IOCTL_PROVISION) with false.
  change (sb_Code B =? SPD_IOCTL_UNPROVISION) with true. cbv iota.
  unfold SpdIoctlUnprovision. cbn [irp_InputBufferLength irp_RequestorProcessId].
  change (_ >? _) with false. change (sb_Guid B) with G. cbv iota. fold E.
  destruct (unprovision_spec DBG E refs (Some G) 0 (drv_ProcessId d) Hwf Hfew)
    as (st & E' & eff & -> & Hwf' & Hr). rewrite bind_value. exists st, E', eff.
  split; [|done].
  by destruct Hr as [(-> & _)|(i & p & u & _ & _ & [(-> & _)|(-> & _)])].
Qed.
End Client.

(** The addresses in use are those of the slots that hold a unit. *)
Lemma used_addresses_spec E refs i :
  ext_wf E refs -> (i < Z.to_nat (StorageUnitCapacity E))%nat ->
  SPD_BTL_FROM_INDEX (Z.of_nat i) ∈ used_addresses E <->
  exists p, StorageUnits E !! i = Some p /\ p <> 0.
Proof.
  intros Hwf Hi. pose proof (wf_capacity _ _ Hwf) as Hc. unfold SPD_IOCTL_STORAGE_UNIT_MAX_CAPACITY in Hc.
  unfold used_addresses. rewrite list_elem_of_fmap. split.
  - intros (j & E1 & [Hm Hj]%list_elem_of_filter). rewrite elem_of_seq in Hj.
    rewrite !btl_from_index_shift in E1 by (unfold is_byte; lia). assert (j = i) as -> by lia.
    unfold slot_matches, matches in Hm. destruct (StorageUnits E !! i) as [p|]; [|done].
    exists p. split; [done|]. rewrite andb_true_r in Hm. zify_bools. done.
  - intros (p & Hp & Hne). exists i. split; [done|]. apply list_elem_of_filter. split; [|apply elem_of_seq; lia].
    unfold slot_matches, matches. rewrite Hp, andb_true_r. apply negb_true_iff, Z.eqb_neq. done.
Qed.

(** The owner of a unit gives it up: its slot is free. *)
Lemma client_gives_back DBG sz Dos d refs h i p u :
  let E := drv_Extension d in
  ext_wf E refs -> Z.of_nat (length refs) < 2 ^ 32 - 2 ->
  StorageUnits E !! i = Some p -> p <> 0 -> Units E !! p = Some u -> OwnerProcessId u = drv_ProcessId d ->
  exists d3, UnprovisionClient (DriverDevice DBG sz Dos) d h (Guid (StorageUnitParams u)) = Some (ERROR_SUCCESS, d3) /\
    ext_wf (drv_Extension d3) refs /\ StorageUnits (drv_Extension d3) = <[i := 0]> (StorageUnits E).
Proof.
  intros E Hwf Hfew Hi Hp Hu Hown.
  destruct (client_unprovision DBG sz Dos d refs h (Guid (StorageUnitParams u)) Hwf Hfew)
    as (St & E3 & eff & HC & Hwf3 & Hr). fold E in Hr.
  assert (target E (Some (Guid (StorageUnitParams u))) 0 i p) as Ht by (split; [done|]; split; [done|]; by exists u).
  destruct Hr as [(_ & Hno & _)|(j & p' & u' & (Hj & Hp0 & v & Hv & HvG) & Hu' & Hr)]; [by destruct (Hno i p)|].
  assert (p' = p) as ->.
  { eapply (wf_guid _ _ Hwf); [by eapply list_elem_of_lookup_2|by eapply list_elem_of_lookup_2|exact Hv|exact Hu|exact HvG]. }
  rewrite Hu in Hu'. injection Hu' as <-. destruct Hr as [(_ & Hno & _)|(-> & _ & HS3 & _)]; [by destruct Hno|].
  eexists. split; [exact HC|]. split; [done|]. change (drv_Extension (after _ E3 eff)) with E3. rewrite HS3.
  assert (j = i) as -> by by eapply (wf_inj _ _ Hwf). done.
Qed.

(** C26: A user mode process and the driver together: when the driver gets memory for the unit, asking
    for a unit succeeds just when its parameters can be served, its GUID is new, the table has a
    free slot and there is memory for the queue, and otherwise changes nothing and gives an error
    and no address.  The address of a new unit was not in the list of units before, and is in the
    list that the process reads afterwards; and when the process gives up the GUID the table is
    what it was.  Without memory for the unit itself ([drv_AllocUnit d = 0]) the driver would not
    give an error but follow a null pointer ([provision_out_of_memory_faults]). *)
Theorem client_unit_lifecycle DBG sz Dos d refs h P :
  (forall s, NT_SUCCESS s = false -> Dos s <> ERROR_SUCCESS) ->
  ext_wf (drv_Extension d) refs -> Z.of_nat (length refs) < 2 ^ 32 - 2 -> params_range P ->
  0 <= sz <= PAGE_SIZE - 8 -> drv_AllocUnit d <> 0 -> Units (drv_Extension d) !! drv_AllocUnit d = None ->
  let Device := DriverDevice DBG sz Dos in
  let E := drv_Extension d in
  exists err Btl d1, ProvisionClient Device d h P = Some (err, Btl, d1) /\
    ext_wf (drv_Extension d1) refs /\
    (err = ERROR_SUCCESS <-> can_provision E P /\ drv_AllocIoq d = true) /\
    (if err =? ERROR_SUCCESS
     then (Btl ∉ used_addresses E) /\
       (exists l n d2, GetListClient Device d1 h 1024 = Some (ERROR_SUCCESS, l, n, d2) /\
          Btl ∈ l /\ drv_Extension d2 = drv_Extension d1) /\
       (exists d3, UnprovisionClient Device d1 h (Guid P) = Some (ERROR_SUCCESS, d3) /\
          ext_wf (drv_Extension d3) refs /\ StorageUnits (drv_Extension d3) = StorageUnits E)
     else Btl = NO_BTL /\ drv_Extension d1 = E).
Proof.
  intros HDos Hwf Hfew HP Hsz Ha Hfresh Device E. destruct (drv_AllocIoq d) eqn:Hq.
  2: { destruct (client_no_queue DBG sz Dos d h P HP Ha Hfresh Hq) as (St & HS & HC). unfold Device. rewrite HC.
       eexists _, _, _. split; [done|]. split; [done|]. specialize (HDos St HS). split; [by split; [|intros []]|].
       by rewrite (proj2 (Z.eqb_neq _ _)). }
  destruct (client_provision DBG sz Dos d refs h P Hwf Hfew HP Hsz Ha Hfresh Hq)
    as (St & Btl & E1 & eff & HC & Hwf1 & Hr). fold E in Hr.
  assert (forall s (B : Z -> DRIVER -> Prop), NT_SUCCESS s = false -> ~ can_provision E P -> E1 = E -> St = s ->
    exists err B' d1, ProvisionClient Device d h P = Some (err, B', d1) /\
      ext_wf (drv_Extension d1) refs /\ (err = ERROR_SUCCESS <-> can_provision E P /\ true = true) /\
      if err =? ERROR_SUCCESS then B B' d1 else B' = NO_BTL /\ drv_Extension d1 = E) as Hfail.
  { intros s B Hs Hno HE ->. unfold Device. rewrite HC, Hs. eexists _, _, _. split; [done|].
    subst E1. specialize (HDos s Hs). split; [done|]. split; [by split; [|intros []]|].
    by rewrite (proj2 (Z.eqb_neq _ _)). }
  destruct Hr as [(HS & Hno & HE & _)|[Hok [(HS & Hg & _ & HE & _)|
    [(HS & Hg & Hf & _ & HE & _)|(-> & Hg & _ & i & q & Hf & HB & _ & HSU & HU)]]]].
  - eapply Hfail; [|by intros (H & _)|done..]. done.
  - eapply Hfail; [|by intros (_ & H & _)|done..]. done.
  - eapply Hfail; [|by intros (_ & _ & H)|done..]. done.
  - change (NT_SUCCESS STATUS_SUCCESS) with true in HC. cbv iota in HC.
    destruct Hf as (Hi & Hi0 & _).
    assert (i < Z.to_nat (StorageUnitCapacity E))%nat as HiC by lia.
    assert (is_Some (StorageUnits E1 !! i)) as [p Hp].
    { rewrite HSU. apply lookup_lt_is_Some_2. rewrite length_insert. by eapply lookup_lt_Some. }
    assert (StorageUnits E1 !! i = Some (drv_AllocUnit d)) as Hi1.
    { rewrite HSU. apply list_lookup_insert_eq. by eapply lookup_lt_Some. }
    assert (StorageUnitCapacity E1 = StorageUnitCapacity E) as HCap.
    { pose proof (wf_length _ _ Hwf1) as L1. pose proof (wf_length _ _ Hwf) as L.
      rewrite HSU, length_insert in L1. pose proof (wf_capacity _ _ Hwf1).
      pose proof (wf_capacity _ _ Hwf). fold E in L. lia. }
    eexists _, Btl, _. split; [exact HC|]. split; [done|]. split.
    { split; [|done]. intros _. split; [|done]. split; [done|]. split; [done|]. intros Hnf.
      by apply (Hnf i Hi). }
    rewrite Z.eqb_refl. split; [|split].
    + rewrite HB, (used_addresses_spec E refs i Hwf HiC). intros (p' & Hp' & Hne). congruence.
    + assert (Hl := client_list DBG sz Dos (after d E1 eff) refs h 1024 Hwf1 ltac:(lia)).
      cbv zeta in Hl. rewrite (proj2 (Z.leb_le _ 1024)) in Hl.
      2: { unfold used_addresses. rewrite length_fmap. 
           pose proof (length_filter (fun I => slot_matches (drv_Extension (after d E1 eff)) None I = true) (seq 0 256)).
           rewrite length_seq in *. lia. }
      eexists _, _, _. split; [exact Hl|]. split; [|done].
      change (drv_Extension (after d E1 eff)) with E1. rewrite HB.
      apply (used_addresses_spec E1 refs i Hwf1); [lia|]. by eexists.
    + destruct (client_gives_back DBG sz Dos (after d E1 eff) refs h i (drv_AllocUnit d) _ Hwf1 Hfew Hi1 Ha
        ltac:(change (drv_Extension (after d E1 eff)) with E1; by rewrite HU, lookup_insert_eq) eq_refl) as (d3 & HC3 & Hwf3 & HS3).
      exists d3. split; [exact HC3|]. split; [done|]. rewrite HS3. change (drv_Extension (after d E1 eff)) with E1.
      rewrite HSU, list_insert_insert_eq. by apply list_insert_id.
Qed.

(** The first unit of an empty table. *)
Lemma client_unit_lifecycle_witness :
  let d := mkDriver (empty_extension 16) 77 4096 true [] [] in
  let Device := DriverDevice false sizeof_SPD_IOQ_64 (fun s => s) in
  exists Btl d1, ProvisionClient Device d 8 (example_params 1) = Some (ERROR_SUCCESS, Btl, d1) /\
    exists d3, UnprovisionClient Device d1 8 (Guid (example_params 1)) = Some (ERROR_SUCCESS, d3) /\
      StorageUnits (drv_Extension d3) = replicate 16 0.
Proof.
  intros d Device.
  destruct (client_unit_lifecycle false sizeof_SPD_IOQ_64 (fun s => s) d [] 8 (example_params 1))
    as (err & Btl & d1 & E & _ & Hok & Ho).
  - intros s Hs ->. discriminate Hs.
  - apply empty_extension_wf. vm_compute. split; discriminate.
  - reflexivity.
  - constructor; try reflexivity; vm_compute; split; congruence.
  - vm_compute. split; discriminate.
  - discriminate.
  - reflexivity.
  - assert (err = ERROR_SUCCESS) as ->.
    { apply Hok. split; [|reflexivity]. split; [repeat split; vm_compute; congruence|]. split.
      - intros (i & p & u & Hi & Hp & _). apply lookup_replicate in Hi as [-> _]. apply Hp. reflexivity.
      - intros Hnf. apply (Hnf 0%nat); [|reflexivity]. vm_compute. lia. }
    rewrite Z.eqb_refl in Ho. destruct Ho as (_ & _ & d3 & E3 & _ & HS).
    exists Btl, d1. split; [exact E|]. exists d3. split; [exact E3|exact HS].
Defined.
