(* ===== verification/UnitHandle.v ===== *)
(** * The handle of a storage unit: [shared/stghandle.c], second part

    A handle is dispatched on its lowest bit: to the functions on pipes, or to the requests of
    the driver.  [UnitHandle] is what the dispatcher of requests needs of a handle. *)

From S2P Require Import Prelude Wdk IoctlTypes StgHandle IoctlDevice DriverIoctl IoctlClient.
From S2P Require Import StgHandleProps.
From S2P Require Import ListEntry Srb Ioq StgUnit StgUnitInv Scsi ScsiIo DriverIo DriverIoInv DriverIoctlProps IoctlClientProps.

(** The interface: opening gives the error, the handle and the address; a transaction gives the
    error, the request if it is asked for and the data buffer; a shutdown and a close give the
    error. *)
Class UnitHandle (W : Type) := {
  HandleOpen : W -> list Z -> SPD_IOCTL_STORAGE_UNIT_PARAMS -> option (Z * Z * Z * W);
  HandleTransact : W -> Z -> Z -> option SPD_IOCTL_TRANSACT_RSP -> bool -> option (list Z) ->
    option (Z * option SPD_IOCTL_TRANSACT_REQ * option (list Z) * W);
  HandleShutdown : W -> Z -> GUID -> option (Z * W);
  HandleClose : W -> Z -> option (Z * W)
}.

(** What the system answers when a unit is opened: for a pipe, and for a device. *)
Record OPEN_SYSTEM := mkOpenSystem {
  os_Pipe : OPEN_ANSWERS;
  os_Devices : DEVICES;
  os_PathBuf : list Z;
  os_CreateFile : list Z -> Z * Z
}.

(** The system: the process with its pipes, the device, and what the system answers when a unit is
    opened, and to each transaction on a pipe; these are counted. *)
Record SYSTEM (D : Type) := mkSystem {
  sys_Process : PROCESS;
  sys_Device : D;
  sys_Open : OPEN_SYSTEM;
  sys_Answers : nat -> TRANSACT_ANSWERS;
  sys_Count : nat
}.
Arguments mkSystem {D} _ _ _ _ _.
Arguments sys_Process {D} _.
Arguments sys_Device {D} _.
Arguments sys_Open {D} _.
Arguments sys_Answers {D} _.
Arguments sys_Count {D} _.

#[export] Instance SYSTEM_eta {D} : Eta (SYSTEM D) := fun w =>
  mkSystem (sys_Process w) (sys_Device w) (sys_Open w) (sys_Answers w) (sys_Count w).

Definition GetDeviceHandle (Handle : Z) : Z := Handle.

Section Handle.
Context {D : Type}
  (DeviceIoControl : D -> Z -> SystemBuffer -> Z -> Z -> option (list Z) -> option (IOCTL_ANSWER * D)).
Context (Address : Z).

(** [SpdStorageUnitHandleOpenDevice]: the error, the handle and the address. *)
Definition SpdStorageUnitHandleOpenDevice (w : SYSTEM D) (Name : list Z)
    (StorageUnitParams : SPD_IOCTL_STORAGE_UNIT_PARAMS) : option (Z * Z * Z * SYSTEM D) :=
  let os := sys_Open w in
  '(err, Handle) ← SpdIoctlOpenDevice (os_Devices os) Name (os_PathBuf os) (os_CreateFile os);
  if negb (ERROR_SUCCESS =? err) then Some (err, INVALID_HANDLE_VALUE, NO_BTL, w)
  else
    let H := sys_Process w in
    let H := H <| Handles := {[Handle]} ∪ Handles H |> in
    '(err, Btl, d) ← ProvisionClient DeviceIoControl (sys_Device w) Handle StorageUnitParams;
    let w := w <| sys_Device := d |> in
    if negb (ERROR_SUCCESS =? err) then
      H ← (if negb (INVALID_HANDLE_VALUE =? Handle) then CloseHandle H Handle else Some H);
      Some (err, INVALID_HANDLE_VALUE, NO_BTL, w <| sys_Process := H |>)
    else Some (ERROR_SUCCESS, Handle, Btl, w <| sys_Process := H |>).

(** [SpdStorageUnitHandleOpen] *)
Definition SpdStorageUnitHandleOpen (w : SYSTEM D) (Name : list Z)
    (StorageUnitParams : SPD_IOCTL_STORAGE_UNIT_PARAMS) : option (Z * Z * Z * SYSTEM D) :=
  pipe ← has_prefix pipe_prefix Name;
  if (pipe : bool) then
    '(err, Handle, Btl, H) ← SpdStorageUnitHandleOpenPipe (sys_Process w) StorageUnitParams
                               (os_Pipe (sys_Open w));
    Some (err, Handle, Btl, w <| sys_Process := H |>)
  else SpdStorageUnitHandleOpenDevice w Name StorageUnitParams.

(** [SpdStorageUnitHandleTransact] *)
Definition SpdStorageUnitHandleTransact (w : SYSTEM D) (Handle Btl : Z)
    (Rsp : option SPD_IOCTL_TRANSACT_RSP) (Req : bool) (DataBuffer : option (list Z))
    : option (Z * option SPD_IOCTL_TRANSACT_REQ * option (list Z) * SYSTEM D) :=
  if IsPipeHandle Handle then
    let a := sys_Answers w (sys_Count w) in
    '(r, H) ← SpdStorageUnitHandleTransactPipe (sys_Process w) (GetPipeHandle Handle) Btl Rsp Req
                DataBuffer a;
    Some (tr_Error r, tr_Req r, tr_DataBuffer r,
          w <| sys_Process := H |> <| sys_Count := S (sys_Count w) |>)
  else
    '(err, R, b, d) ← TransactClient DeviceIoControl Address (sys_Device w) (GetDeviceHandle Handle)
                        Btl Rsp Req DataBuffer;
    Some (err, R, b, w <| sys_Device := d |>).

(** [SpdStorageUnitHandleShutdown] *)
Definition SpdStorageUnitHandleShutdown (w : SYSTEM D) (Handle : Z) (G : GUID)
    : option (Z * SYSTEM D) :=
  if IsPipeHandle Handle then
    '(err, H) ← SpdStorageUnitHandleShutdownPipe (sys_Process w) (GetPipeHandle Handle) G;
    Some (err, w <| sys_Process := H |>)
  else
    '(err, d) ← UnprovisionClient DeviceIoControl (sys_Device w) (GetDeviceHandle Handle) G;
    Some (err, w <| sys_Device := d |>).

(** [SpdStorageUnitHandleClose] *)
Definition SpdStorageUnitHandleClose (w : SYSTEM D) (Handle : Z) : option (Z * SYSTEM D) :=
  if IsPipeHandle Handle then
    '(err, H) ← SpdStorageUnitHandleClosePipe (sys_Process w) (GetPipeHandle Handle);
    Some (err, w <| sys_Process := H |>)
  else
    H ← CloseHandle (sys_Process w) (GetDeviceHandle Handle);
    Some (ERROR_SUCCESS, w <| sys_Process := H |>).

(** The functions of the handle implement the interface. *)
Definition system_handle : UnitHandle (SYSTEM D) := {|
  HandleOpen := SpdStorageUnitHandleOpen;
  HandleTransact := SpdStorageUnitHandleTransact;
  HandleShutdown := SpdStorageUnitHandleShutdown;
  HandleClose := SpdStorageUnitHandleClose
|}.
End Handle.

(** * Properties of the handle of a storage unit *)

#[local] Set Warnings "-clear-no-such-hyp".

(** A handle whose unit is gone: a thread that asks it for a request gets an error, with no
    request, and the handle stays as it is. *)
Class StoppedHandle (W : Type) (HW : UnitHandle W) := {
  handle_stopped : W -> Z -> Z -> Prop;
  stopped_transact w h B Rsp b :
    handle_stopped w h B ->
    exists err w', HandleTransact w h B Rsp true (Some b) = Some (err, None, Some b, w') /\
      err <> ERROR_SUCCESS /\ handle_stopped w' h B;
  stopped_shutdown w h B G :
    handle_stopped w h B -> exists err w', HandleShutdown w h G = Some (err, w')
}.

Section Driver.
Context (DBG : bool) (sz : Z) (Dos : Z -> Z) (Address : Z).
Context (HDos : forall s, NT_SUCCESS s = false -> Dos s <> ERROR_SUCCESS).

Instance driver_handle : UnitHandle (SYSTEM DRIVER) :=
  system_handle (DriverDevice DBG sz Dos) Address.

(** The slot of the pipe has another unit, or none. *)
Definition pipe_stopped (H : PROCESS) (Handle Btl : Z) : Prop :=
  exists Table p, StgHandle.StorageUnits H = Some Table /\
    table_wf (StgHandle.Units H) Table /\ Table !! Z.to_nat (SPD_INDEX_FROM_BTL Btl) = Some p /\ p <> Handle.

(** The driver has no unit at the address for the process. *)
Definition driver_stopped (d : DRIVER) (Btl : Z) : Prop :=
  exists refs, ext_wf (drv_Extension d) refs /\ Z.of_nat (length refs) < 2 ^ 32 - 2 /\
    ~ transact_process (drv_Extension d) Btl (drv_ProcessId d).

Definition system_stopped (w : SYSTEM DRIVER) (Handle Btl : Z) : Prop :=
  if IsPipeHandle Handle then pipe_stopped (sys_Process w) (GetPipeHandle Handle) Btl
  else driver_stopped (sys_Device w) Btl.

Lemma client_transact_refused d h B Rsp Req b :
  driver_stopped d B ->
  exists Status, NT_SUCCESS Status = false /\
    TransactClient (DriverDevice DBG sz Dos) Address d h B Rsp Req b =
      Some (Dos Status, None, b, after d (drv_Extension d) no_effects).
Proof using.
  intros (refs & Hwf & Hfew & Hno). unfold TransactClient, DriverDevice.
  set (P0 := _ <| sb_DataBuffer := _ |>). set (P := match Rsp with Some _ => _ | None => P0 end).
  assert (sb_Size P = sizeof_SPD_IOCTL_TRANSACT_PARAMS /\ sb_Code P = SPD_IOCTL_TRANSACT /\ sb_Btl P = B)
    as (H1 & H2 & H3) by (subst P; by destruct Rsp).
  rewrite process_dispatch; cbn [irp_InputBufferLength];
    [|vm_compute; discriminate|rewrite H1; lia]. rewrite H2.
  change (SPD_IOCTL_TRANSACT =? SPD_IOCTL_PROVISION) with false.
  change (SPD_IOCTL_TRANSACT =? SPD_IOCTL_UNPROVISION) with false.
  change (SPD_IOCTL_TRANSACT =? SPD_IOCTL_LIST) with false. rewrite Z.eqb_refl.
  set (irp := mkIrp _ _ _ _ _).
  destruct (transact_refused DBG (drv_Extension d) refs Hwf Hfew irp P
    (match b with Some b => Mapped b | None => MapFailed end) (drv_Rounds d)) as (St & HSt & ->).
  { rewrite H3. exact Hno. }
  rewrite !bind_value. exists St.
  assert (NT_SUCCESS St = false) as HN by 
    (repeat (apply elem_of_cons in HSt as [->|HSt]; [done|]); by apply not_elem_of_nil in HSt).
  split; [done|]. cbn [ans_Success ans_LastError]. rewrite HN. cbn [negb]. done.
Qed.

(** The driver and the pipes implement it. *)
#[global] Program Instance system_stopped_handle : StoppedHandle (SYSTEM DRIVER) driver_handle := {
  handle_stopped := system_stopped
}.
Next Obligation.
  intros w h B Rsp b Hs. cbn [HandleTransact driver_handle system_handle].
  unfold SpdStorageUnitHandleTransact. unfold system_stopped in *. destruct (IsPipeHandle h) eqn:Eh.
  - destruct Hs as (T & p & HT & Hwf & Hp & Hne). unfold SpdStorageUnitHandleTransactPipe.
    cbn [negb andb orb]. change (bool_decide (Some b = None)) with false. cbn [andb orb].
    set (a := sys_Answers w (sys_Count w)). destruct (Z.eqb_spec ERROR_SUCCESS (ta_Overlapped a)) as [E|E]; cbn [negb].
    + rewrite HT, bind_value, Hp, bind_value, (proj2 (Z.eqb_neq _ p)) by congruence. cbn [negb].
      rewrite bind_value. eexists _, _. split; [done|]. split; [done|]. by exists T, p.
    + rewrite bind_value. eexists _, _. split; [done|]. split; [done|]. by exists T, p.
  - destruct (client_transact_refused (sys_Device w) (GetDeviceHandle h) B Rsp true (Some b) Hs)
      as (St & HN & ->). rewrite bind_value. eexists _, _. split; [done|].
    split; [by apply HDos|]. exact Hs.
Qed.
Next Obligation.
  intros w h B G Hs. cbn [HandleShutdown driver_handle system_handle].
  unfold SpdStorageUnitHandleShutdown, system_stopped in *. destruct (IsPipeHandle h).
  - destruct Hs as (T & p & HT & Hwf & _).
    destruct (shutdown_total _ _ (GetPipeHandle h) G HT Hwf) as (err & H' & ->). by eexists _, _.
  - destruct Hs as (refs & Hwf & Hfew & _).
    destruct (client_unprovision DBG sz Dos _ refs (GetDeviceHandle h) G Hwf Hfew)
      as (St & E' & eff & -> & _). by eexists _, _.
Qed.
(** ** Shutting a unit down *)

(** The pipe is the unit with the GUID, and the first one. *)
Definition pipe_open (H : PROCESS) (p Btl : Z) (G : GUID) : Prop :=
  exists T u, StgHandle.StorageUnits H = Some T /\ table_wf (StgHandle.Units H) T /\
    T !! Z.to_nat (SPD_INDEX_FROM_BTL Btl) = Some p /\ p <> 0 /\ StgHandle.Units H !! p = Some u /\
    Guid (StgHandle.StorageUnitParams u) = G /\ length (Data4 G) = 8%nat /\
    forall j q v, (j < Z.to_nat (SPD_INDEX_FROM_BTL Btl))%nat -> T !! j = Some q -> q <> 0 ->
      StgHandle.Units H !! q = Some v -> Guid (StgHandle.StorageUnitParams v) <> G.

Lemma pipe_shutdown_stops H p Btl G :
  pipe_open H p Btl G ->
  exists H', SpdStorageUnitHandleShutdownPipe H p G = Some (ERROR_SUCCESS, H') /\
    pipe_stopped H' p Btl.
Proof using.
  intros (T & u & HT & Hwf & Hi & Hp & Hu & HG & H8 & Hf).
  rewrite (shutdown_spec H T p u _ G HT Hwf Hi Hp Hu HG H8 Hf). eexists. split; [done|].
  eexists _, 0. split; [done|]. split; [|split; [|done]].
  - destruct Hwf as [HL Hwf]. split; [by rewrite length_insert|]. intros j q Hj Hq.
    apply list_lookup_insert_Some in Hj as [(_ & <- & _)|[_ Hj]]; [done|].
    destruct (Hwf j q Hj Hq) as (v & Hv & Hv8). cbn [StgHandle.Units].
    destruct (decide (q = p)) as [->|Hne].
    + rewrite lookup_insert_eq. eexists. split; [done|]. rewrite <- HG in H8. exact H8.
    + rewrite lookup_insert_ne by congruence. by exists v.
  - apply list_lookup_insert_eq. by eapply lookup_lt_Some.
Qed.

(** The unit at the address has the GUID, and belongs to the process. *)
Definition driver_open (d : DRIVER) (Btl : Z) (G : GUID) : Prop :=
  exists refs p u, ext_wf (drv_Extension d) refs /\ Z.of_nat (length refs) < 2 ^ 32 - 2 /\
    StorageUnits (drv_Extension d) !! Z.to_nat (SPD_INDEX_FROM_BTL Btl) = Some p /\ p <> 0 /\
    Units (drv_Extension d) !! p = Some u /\ Guid (StorageUnitParams u) = G /\
    OwnerProcessId u = drv_ProcessId d.

Lemma driver_shutdown_stops d h Btl G :
  driver_open d Btl G ->
  exists d', UnprovisionClient (DriverDevice DBG sz Dos) d h G = Some (ERROR_SUCCESS, d') /\
    driver_stopped d' Btl.
Proof using.
  intros (refs & p & u & Hwf & Hfew & Hi & Hp & Hu & HG & Ho).
  destruct (client_unprovision DBG sz Dos d refs h G Hwf Hfew) as (St & E' & eff & HC & Hwf' & Hr).
  set (i := Z.to_nat (SPD_INDEX_FROM_BTL Btl)) in *.
  destruct Hr as [(_ & Hno & _)|(j & p' & u' & (Hj & Hp' & v & Hv & HvG) & Hu' & Hr)].
  { destruct (Hno i p). split; [done|]. split; [done|]. by exists u. }
  assert (p' = p) as -> by (eapply (wf_guid _ _ Hwf); [by eapply list_elem_of_lookup_2|
    by eapply list_elem_of_lookup_2|exact Hv|exact Hu|congruence]).
  assert (j = i) as -> by (by eapply (wf_inj _ _ Hwf)).
  destruct Hr as [(_ & Hown & _)|(-> & _ & HS & HCap & _)]; [congruence|].
  eexists. split; [exact HC|]. exists refs. change (drv_Extension (after d E' eff)) with E'.
  split; [done|]. split; [done|]. intros (p1 & u1 & (Hp1 & _) & _ & HRef).
  unfold SpdStorageUnitReferenceByBtl in HRef. destruct (_ || _); [injection HRef; congruence|].
  assert ((if StorageUnitCapacity E' >? SPD_IOCTL_BTL_T Btl then StorageUnits E' !! Z.to_nat (SPD_IOCTL_BTL_T Btl)
           else Some 0) = Some 0) as HR.
  { destruct (_ >? _); [|done]. rewrite HS. apply list_lookup_insert_eq. by eapply lookup_lt_Some. }
  rewrite HR in HRef. rewrite bind_value in HRef. change (negb (0 =? 0)) with false in HRef.
  injection HRef. congruence.
Qed.

(** The handle is open for a unit with the address and the GUID. *)
Definition system_open (w : SYSTEM DRIVER) (Handle Btl : Z) (G : GUID) : Prop :=
  if IsPipeHandle Handle then pipe_open (sys_Process w) (GetPipeHandle Handle) Btl G
  else driver_open (sys_Device w) Btl G.

Lemma shutdown_stops w h B G :
  system_open w h B G ->
  exists w', HandleShutdown w h G = Some (ERROR_SUCCESS, w') /\ system_stopped w' h B.
Proof using.
  intros Ho. cbn [HandleShutdown driver_handle system_handle].
  unfold SpdStorageUnitHandleShutdown, system_open, system_stopped in *. destruct (IsPipeHandle h).
  - destruct (pipe_shutdown_stops _ _ _ _ Ho) as (H' & -> & Hs). rewrite bind_value. by eexists.
  - destruct (driver_shutdown_stops _ (GetDeviceHandle h) _ _ Ho) as (d' & -> & Hs).
    rewrite bind_value. by eexists.
Qed.
End Driver.
