(* ===== verification/Dispatcher.v ===== *)
(** * The dispatcher of requests: [shared/stgunit.c]

    A storage unit in user mode: a thread exchanges requests and responses over the unit's
    handle and hands each request to the storage device, an [SPD_STORAGE_UNIT_INTERFACE].  The
    handle is any implementation of [UnitHandle]; the storage device has a state of its own.
    The endless loop of a thread is run for a number of rounds. *)

From S2P Require Import Prelude Wdk IoctlTypes UnitHandle.

(** ** Data *)

(** The operations of a storage device, which it may lack.  Each gives whether the request is
    complete, and the status; those with a buffer also what is in it afterwards.  One that faults
    gives [None]. *)
Record SPD_STORAGE_UNIT_INTERFACE (D : Type) := mkInterface {
  Read : option (D -> list Z -> Z -> Z -> Z -> SPD_IOCTL_STORAGE_UNIT_STATUS ->
                 option (bool * list Z * SPD_IOCTL_STORAGE_UNIT_STATUS * D));
  Write : option (D -> list Z -> Z -> Z -> Z -> SPD_IOCTL_STORAGE_UNIT_STATUS ->
                  option (bool * list Z * SPD_IOCTL_STORAGE_UNIT_STATUS * D));
  Flush : option (D -> Z -> Z -> SPD_IOCTL_STORAGE_UNIT_STATUS ->
                  option (bool * SPD_IOCTL_STORAGE_UNIT_STATUS * D));
  Unmap : option (D -> list Z -> Z -> SPD_IOCTL_STORAGE_UNIT_STATUS ->
                  option (bool * list Z * SPD_IOCTL_STORAGE_UNIT_STATUS * D))
}.
Arguments mkInterface {D} _ _ _ _.
Arguments Read {D} _.
Arguments Write {D} _.
Arguments Flush {D} _.
Arguments Unmap {D} _.

(** [SPD_STORAGE_UNIT] of [winspd.h], without its buffer allocator. *)
Record SPD_STORAGE_UNIT := mkStorageUnit {
  StorageUnitParams : SPD_IOCTL_STORAGE_UNIT_PARAMS;
  Handle : Z;
  Btl : Z;
  DispatcherThreadId : Z;
  DispatcherThread : Z;
  DispatcherThreadCount : Z;
  DispatcherError : Z;
  DebugLog : Z
}.

#[export] Instance SPD_STORAGE_UNIT_eta : Eta SPD_STORAGE_UNIT := fun u =>
  mkStorageUnit (StorageUnitParams u) (Handle u) (Btl u) (DispatcherThreadId u)
    (DispatcherThread u) (DispatcherThreadCount u) (DispatcherError u) (DebugLog u).

(** The thread-local storage that all units share. *)
Record TLS := mkTls { SpdStorageUnitTlsCount : Z; SpdStorageUnitTlsKey : Z }.

Definition TLS_OUT_OF_INDEXES : Z := 0xffffffff.

(** ** Status and errors *)

Definition ZeroStatus : SPD_IOCTL_STORAGE_UNIT_STATUS := mkStatus 0 0 0 0 0 false.

(** [SpdStorageUnitStatusSetSense] of [winspd.h] *)
Definition SpdStorageUnitStatusSetSense (s : SPD_IOCTL_STORAGE_UNIT_STATUS) (Key Asc : Z)
    (PInformation : option Z) : SPD_IOCTL_STORAGE_UNIT_STATUS :=
  match PInformation with
  | Some Info => mkStatus SCSISTAT_CHECK_CONDITION Key Asc (ASCQ s) Info true
  | None => mkStatus SCSISTAT_CHECK_CONDITION Key Asc (ASCQ s) (Information s) (InformationValid s)
  end.

(** [SpdStorageUnitSetDispatcherError] of [winspd.h]: the first error stays. *)
Definition SpdStorageUnitSetDispatcherError (u : SPD_STORAGE_UNIT) (Error : Z) : SPD_STORAGE_UNIT :=
  if ERROR_SUCCESS =? Error then u
  else if DispatcherError u =? ERROR_SUCCESS then u <| DispatcherError := Error |> else u.

(** ** Thread-local storage *)

(** [TlsAlloc] is the key that the system gives. *)
Definition SpdStorageUnitTlsInit (t : TLS) (TlsAlloc : Z) : TLS :=
  let Count := u32 (SpdStorageUnitTlsCount t + 1) in
  mkTls Count (if 1 =? Count then TlsAlloc else SpdStorageUnitTlsKey t).

(** It also tells whether the key is freed. *)
Definition SpdStorageUnitTlsFini (t : TLS) : TLS * bool :=
  let Count := u32 (SpdStorageUnitTlsCount t - 1) in
  if (0 =? Count) && negb (TLS_OUT_OF_INDEXES =? SpdStorageUnitTlsKey t)
  then (mkTls Count TLS_OUT_OF_INDEXES, true)
  else (mkTls Count (SpdStorageUnitTlsKey t), false).

Section Dispatcher.
Context {W D : Type} {HW : UnitHandle W} (Interface : SPD_STORAGE_UNIT_INTERFACE D).

(** ** Creation *)

(** ["root\\winspd"], the device for a null name. *)
Definition SPD_IOCTL_HARDWARE_ID : list Z := [114; 111; 111; 116; 92; 119; 105; 110; 115; 112; 100; 0].

(** [SpdStorageUnitCreate]: the error, and the unit if there is one.  [Alloc] tells whether there
    is memory for the unit. *)
Definition SpdStorageUnitCreate (w : W) (t : TLS) (DeviceName : option (list Z))
    (Params : SPD_IOCTL_STORAGE_UNIT_PARAMS) (TlsAlloc : Z) (Alloc : bool)
    : option (Z * option SPD_STORAGE_UNIT * W * TLS) :=
  let t := SpdStorageUnitTlsInit t TlsAlloc in
  let failed Error w := Some (Error, None, w, fst (SpdStorageUnitTlsFini t)) in
  if TLS_OUT_OF_INDEXES =? SpdStorageUnitTlsKey t then failed ERROR_NO_SYSTEM_RESOURCES w
  else if negb Alloc then failed ERROR_NO_SYSTEM_RESOURCES w
  else
    '(err, H, B, w) ← HandleOpen w (default SPD_IOCTL_HARDWARE_ID DeviceName) Params;
    if negb (ERROR_SUCCESS =? err) then failed err w
    else Some (ERROR_SUCCESS, Some (mkStorageUnit Params H B 0 0 0 0 0), w, t).

(** [SpdStorageUnitDelete] *)
Definition SpdStorageUnitDelete (w : W) (t : TLS) (u : SPD_STORAGE_UNIT) : option (W * TLS) :=
  '(_, w) ← HandleShutdown w (Handle u) (Guid (StorageUnitParams u));
  '(_, w) ← HandleClose w (Handle u);
  Some (w, fst (SpdStorageUnitTlsFini t)).

(** [SpdStorageUnitShutdown] *)
Definition SpdStorageUnitShutdown (w : W) (u : SPD_STORAGE_UNIT) : option W :=
  '(_, w) ← HandleShutdown w (Handle u) (Guid (StorageUnitParams u)); Some w.

(** ** Requests *)

(** What goes to the debug log. *)
Inductive log_entry :=
  | LogRequest (Request : SPD_IOCTL_TRANSACT_REQ)
  | LogResponse (Response : SPD_IOCTL_TRANSACT_RSP).

Definition logs (u : SPD_STORAGE_UNIT) (Kind : Z) : bool :=
  negb (DebugLog u =? 0) &&
  ((SpdIoctlTransactKindCount <=? Kind) || negb (DebugLog u .& u32 (1 ≪ Kind) =? 0)).

Definition log (u : SPD_STORAGE_UNIT) (Kind : Z) (e : log_entry) : list log_entry :=
  if logs u Kind then [e] else [].

(** The code at [invalid]. *)
Definition dispatch_invalid (d : D) (DataBuffer : list Z) (s : SPD_IOCTL_STORAGE_UNIT_STATUS)
    : bool * list Z * SPD_IOCTL_STORAGE_UNIT_STATUS * D :=
  (true, DataBuffer,
   SpdStorageUnitStatusSetSense s SCSI_SENSE_ILLEGAL_REQUEST SCSI_ADSENSE_ILLEGAL_COMMAND None, d).

(** The switch over the kind of a request.  The member of the union that the kind selects is read;
    a request that holds another is [None]. *)
Definition dispatch_switch (d : D) (DataBuffer : list Z) (Request : SPD_IOCTL_TRANSACT_REQ)
    (s : SPD_IOCTL_STORAGE_UNIT_STATUS)
    : option (bool * list Z * SPD_IOCTL_STORAGE_UNIT_STATUS * D) :=
  let Kind := req_Kind Request in
  let invalid := Some (dispatch_invalid d DataBuffer s) in
  if SpdIoctlTransactReadKind =? Kind then
    match Read Interface with
    | None => invalid
    | Some f => match req_Op Request with
                | OpRead A C Fua => f d DataBuffer A C Fua s
                | _ => None
                end
    end
  else if SpdIoctlTransactWriteKind =? Kind then
    match Write Interface with
    | None => invalid
    | Some f => match req_Op Request with
                | OpWrite A C Fua => f d DataBuffer A C Fua s
                | _ => None
                end
    end
  else if SpdIoctlTransactFlushKind =? Kind then
    match Flush Interface with
    | None => invalid
    | Some f => match req_Op Request with
                | OpFlush A C => '(c, s, d) ← f d A C s; Some (c, DataBuffer, s, d)
                | _ => None
                end
    end
  else if SpdIoctlTransactUnmapKind =? Kind then
    match Unmap Interface with
    | None => invalid
    | Some f => match req_Op Request with
                | OpUnmap C => f d DataBuffer C s
                | _ => None
                end
    end
  else invalid.

(** ** The loop of a thread *)

(** The state of the loop: the system, the storage device, the response to send, the data buffer,
    and the debug log. *)
Record DISPATCH := mkDispatch {
  dp_World : W; dp_Device : D;
  dp_Response : option SPD_IOCTL_TRANSACT_RSP;
  dp_DataBuffer : list Z;
  dp_Log : list log_entry
}.

(** One round: the loop goes on, or it ends with an error.  It also gives the request. *)
Definition dispatcher_round (u : SPD_STORAGE_UNIT) (st : DISPATCH)
    : option (option Z * option SPD_IOCTL_TRANSACT_REQ * DISPATCH) :=
  '(err, Request, DataBuffer, w) ←
    HandleTransact (dp_World st) (Handle u) (Btl u) (dp_Response st) true (Some (dp_DataBuffer st));
  DataBuffer ← DataBuffer;
  let st := mkDispatch w (dp_Device st) (dp_Response st) DataBuffer (dp_Log st) in
  if negb (ERROR_SUCCESS =? err) then Some (Some err, None, st)
  else
    Request ← Request;
    if 0 =? req_Hint Request
    then Some (None, Some Request, mkDispatch w (dp_Device st) None DataBuffer (dp_Log st))
    else
      '(Complete, DataBuffer, s, d) ← dispatch_switch (dp_Device st) DataBuffer Request ZeroStatus;
      let Response := mkRsp (req_Hint Request) (req_Kind Request) s in
      let l := dp_Log st ++ log u (req_Kind Request) (LogRequest Request) in
      let l := if (Complete : bool) then l ++ log u (rsp_Kind Response) (LogResponse Response) else l in
      Some (None, Some Request,
            mkDispatch w d (if Complete then Some Response else None) DataBuffer l).

(** The loop for [n] rounds: the error that ended it, if one did. *)
Fixpoint dispatcher_loop (n : nat) (u : SPD_STORAGE_UNIT) (st : DISPATCH)
    : option (option Z * DISPATCH) :=
  match n with
  | O => Some (None, st)
  | S n =>
      '(err, _, st) ← dispatcher_round u st;
      match err with
      | Some err => Some (Some err, st)
      | None => dispatcher_loop n u st
      end
  end.

(** The beginning of a thread.  [Alloc] tells whether there is a buffer, and [CreateThread] is the
    next thread, or 0 and an error.  The error if there is one, and the next thread. *)
Definition dispatcher_begin (u : SPD_STORAGE_UNIT) (Alloc : bool) (CreateThread : Z * Z)
    : option Z * Z * SPD_STORAGE_UNIT :=
  if negb Alloc then (Some ERROR_NO_SYSTEM_RESOURCES, 0, u)
  else if 1 <? DispatcherThreadCount u then
    let u := u <| DispatcherThreadCount := u32 (DispatcherThreadCount u - 1) |> in
    let (Thread, LastError) := CreateThread in
    if 0 =? Thread then (Some LastError, 0, u) else (None, Thread, u)
  else (None, 0, u).

(** The end of a thread, at [exit]: the unit, the system and the storage device.  The thread that
    the unit names flushes the storage device when the other threads have ended. *)
Definition dispatcher_exit (u : SPD_STORAGE_UNIT) (w : W) (d : D) (Error CurrentThreadId : Z)
    : option (SPD_STORAGE_UNIT * W * D) :=
  let u := SpdStorageUnitSetDispatcherError u Error in
  '(_, w) ← HandleShutdown w (Handle u) (Guid (StorageUnitParams u));
  d ← (if CurrentThreadId =? DispatcherThreadId u then
         if CacheSupported (StorageUnitParams u) then
           match Flush Interface with
           | Some f => '(_, _, d) ← f d 0 0 ZeroStatus; Some d
           | None => Some d
           end
         else Some d
       else Some d);
  Some (u, w, d).

(** [SpdStorageUnitDispatcherThread], if it ends within [n] rounds: the error, the next thread,
    the unit and the state. *)
Definition SpdStorageUnitDispatcherThread (n : nat) (u : SPD_STORAGE_UNIT) (w : W) (d : D)
    (DataBuffer : option (list Z)) (CreateThread : Z * Z) (CurrentThreadId : Z)
    : option (option (Z * Z * SPD_STORAGE_UNIT * W * D * list log_entry)) :=
  let '(err, Thread, u) := dispatcher_begin u (bool_decide (DataBuffer <> None)) CreateThread in
  match err, DataBuffer with
  | Some err, _ =>
      '(u, w, d) ← dispatcher_exit u w d err CurrentThreadId;
      Some (Some (err, Thread, u, w, d, []))
  | None, None => None
  | None, Some DataBuffer =>
      '(err, st) ← dispatcher_loop n u (mkDispatch w d None DataBuffer []);
      match err with
      | Some err =>
          '(u, w, d) ← dispatcher_exit u (dp_World st) (dp_Device st) err CurrentThreadId;
          Some (Some (err, Thread, u, w, d, dp_Log st))
      | None => Some None
      end
  end.

(** ** Starting and stopping *)

(** The loop that counts the processors of a mask. *)
Fixpoint count_processors (fuel : nat) (ProcessMask ThreadCount : Z) : option Z :=
  match fuel with
  | O => None
  | S fuel =>
      if 0 =? ProcessMask then Some ThreadCount
      else count_processors fuel (ProcessMask ≫ 1) (u32 (ThreadCount + (ProcessMask .& 1)))
  end.

(** [SpdStorageUnitStartDispatcher]: the mask of the process, or an error; the thread, or 0, with
    its number and the error; the result of [ResumeThread] and its error; whether the thread has been
    closed again. *)
Definition SpdStorageUnitStartDispatcher (u : SPD_STORAGE_UNIT) (ThreadCount : Z)
    (AffinityMask : Z + Z) (CreateThread : Z * Z * Z) (ResumeThread : Z * Z)
    : option (Z * SPD_STORAGE_UNIT) :=
  if negb (0 =? DispatcherThread u) then Some (ERROR_INVALID_PARAMETER, u)
  else
    ThreadCount ← (if 0 =? ThreadCount then
                     match AffinityMask with
                     | inl ProcessMask => n ← count_processors 65 ProcessMask 0; Some (inl n)
                     | inr LastError => Some (inr LastError)
                     end
                   else Some (inl ThreadCount));
    match ThreadCount with
    | inr LastError => Some (LastError, u)
    | inl ThreadCount =>
        let '(Thread, ThreadId, LastError) := CreateThread in
        let u := u <| DispatcherThreadCount := ThreadCount |> <| DispatcherThread := Thread |>
                   <| DispatcherThreadId := ThreadId |> in
        if 0 =? Thread then Some (LastError, u)
        else
          let (SuspendCount, LastError) := ResumeThread in
          if 0 =? SuspendCount then Some (LastError, u) else Some (ERROR_SUCCESS, u)
    end.

(** [SpdStorageUnitWaitDispatcher]: the thread that is waited for and closed, and the unit. *)
Definition SpdStorageUnitWaitDispatcher (u : SPD_STORAGE_UNIT) : option Z * SPD_STORAGE_UNIT :=
  if 0 =? DispatcherThread u then (None, u)
  else (Some (DispatcherThread u), u <| DispatcherThread := 0 |>).

(** [SpdStorageUnitSendResponse] *)
Definition SpdStorageUnitSendResponse (u : SPD_STORAGE_UNIT) (w : W)
    (Response : SPD_IOCTL_TRANSACT_RSP) (DataBuffer : option (list Z))
    : option (SPD_STORAGE_UNIT * W * list log_entry) :=
  let l := log u (rsp_Kind Response) (LogResponse Response) in
  '(err, _, _, w) ← HandleTransact w (Handle u) (Btl u) (Some Response) false DataBuffer;
  if negb (ERROR_SUCCESS =? err) then
    let u := SpdStorageUnitSetDispatcherError u err in
    '(_, w) ← HandleShutdown w (Handle u) (Guid (StorageUnitParams u));
    Some (u, w, l)
  else Some (u, w, l).
End Dispatcher.
