(* ===== verification/DispatcherProps.v ===== *)
(** * Properties of the dispatcher of requests *)

From S2P Require Import Prelude Wdk IoctlTypes ListEntry Srb Ioq IoqRun StgUnitInv StgUnitProps Scsi ScsiIo.
From S2P Require Import DriverIoInv DriverIoctl DriverIoctlProps IoctlDevice IoctlClient IoctlClientProps StgHandle StgHandleProps.
From S2P Require Import UnitHandle Dispatcher.

#[local] Set Warnings "-clear-no-such-hyp".

Definition lacks {A} (f : option A) : bool := match f with Some _ => false | None => true end.

(** The status of a request that the storage device has no operation for. *)
Definition illegal_request : SPD_IOCTL_STORAGE_UNIT_STATUS :=
  mkStatus SCSISTAT_CHECK_CONDITION SCSI_SENSE_ILLEGAL_REQUEST SCSI_ADSENSE_ILLEGAL_COMMAND 0 0 false.

Section Dispatcher.
Context {W D : Type} {HW : UnitHandle W} (Interface : SPD_STORAGE_UNIT_INTERFACE D).

(** ** Requests and their responses *)

Definition unsupported (q : SPD_IOCTL_TRANSACT_REQ) : bool :=
  let Kind := req_Kind q in
  if SpdIoctlTransactReadKind =? Kind then lacks (Read Interface)
  else if SpdIoctlTransactWriteKind =? Kind then lacks (Write Interface)
  else if SpdIoctlTransactFlushKind =? Kind then lacks (Flush Interface)
  else if SpdIoctlTransactUnmapKind =? Kind then lacks (Unmap Interface)
  else true.

(** A response answers a request: it has its hint and its kind. *)
Definition answers (q : SPD_IOCTL_TRANSACT_REQ) (r : option SPD_IOCTL_TRANSACT_RSP) : Prop :=
  if req_Hint q =? 0 then r = None
  else if unsupported q then r = Some (mkRsp (req_Hint q) (req_Kind q) illegal_request)
  else r = None \/ exists s, r = Some (mkRsp (req_Hint q) (req_Kind q) s).

(** The rounds of a thread: what it has sent and received in each of them. *)
Inductive dispatcher_run (u : SPD_STORAGE_UNIT)
    : DISPATCH -> list (option SPD_IOCTL_TRANSACT_RSP * SPD_IOCTL_TRANSACT_REQ) -> DISPATCH -> Prop :=
  | run_nil st : dispatcher_run u st [] st
  | run_snoc st tr st1 q st2 :
      dispatcher_run u st tr st1 ->
      dispatcher_round Interface u st1 = Some (None, Some q, st2) ->
      dispatcher_run u st (tr ++ [(dp_Response st1, q)]) st2.

#[local] Ltac operation Hs Hval Hinv b op :=
  destruct b; [destruct op; cbn [lacks]; [apply Hval|destruct (Hinv Hs); by split]|].

Lemma round_answers u st q st' :
  dispatcher_round Interface u st = Some (None, Some q, st') ->
  answers q (dp_Response st') /\
  (unsupported q = true \/ req_Hint q = 0 -> dp_Device st' = dp_Device st).
Proof using.
  unfold dispatcher_round, answers. intros H.
  apply bind_Some in H as ([[[err R] b] w] & HT & H). apply bind_Some in H as (c & -> & H).
  destruct (negb (ERROR_SUCCESS =? err)); [discriminate H|].
  apply bind_Some in H as (q0 & -> & H). destruct (Z.eqb_spec 0 (req_Hint q0)) as [E|E].
  { injection H as <- <-. by rewrite <- E, Z.eqb_refl. }
  apply bind_Some in H as ([[[C c'] s] d] & Hs & H). injection H as <- <-. cbn [dp_Response dp_Device].
  rewrite (proj2 (Z.eqb_neq (req_Hint q0) 0)) by congruence. unfold dispatch_switch in Hs. unfold unsupported.
  assert (Some (dispatch_invalid (dp_Device st) c ZeroStatus) = Some (C, c', s, d) ->
    (if C then Some (mkRsp (req_Hint q0) (req_Kind q0) s) else None) =
      Some (mkRsp (req_Hint q0) (req_Kind q0) illegal_request) /\ d = dp_Device st) as Hinv.
  { by intros [= <- <- <- <-]. }
  assert (forall P : Prop, ((if C then Some (mkRsp (req_Hint q0) (req_Kind q0) s) else None) = None \/
    (exists s0, (if C then Some (mkRsp (req_Hint q0) (req_Kind q0) s) else None) =
      Some (mkRsp (req_Hint q0) (req_Kind q0) s0))) /\ (false = true \/ req_Hint q0 = 0 -> P)) as Hval.
  { intros P. split; [|intros [?|?]; congruence]. destruct C; [right; by eexists|by left]. }
  operation Hs Hval Hinv (SpdIoctlTransactReadKind =? req_Kind q0) (Read Interface).
  operation Hs Hval Hinv (SpdIoctlTransactWriteKind =? req_Kind q0) (Write Interface).
  operation Hs Hval Hinv (SpdIoctlTransactFlushKind =? req_Kind q0) (Flush Interface).
  operation Hs Hval Hinv (SpdIoctlTransactUnmapKind =? req_Kind q0) (Unmap Interface).
  destruct (Hinv Hs). by split.
Qed.

(** C24: The protocol of a thread of the dispatcher, over any handle and any storage device: it
    begins without a response, and in each round it sends the response to the request of the round
    before, with its hint and its kind, or none when there was no request or the storage device
    completes it later; so no request is answered twice by the thread, and no response is for
    another request.  A request that the storage device has no operation for is always answered,
    with an illegal request, and does not change the storage device. *)
Theorem dispatcher_protocol u st tr st' :
  dispatcher_run u st tr st' -> dp_Response st = None ->
  (forall r q, head tr = Some (r, q) -> r = None) /\
  (forall i r q r' q', tr !! i = Some (r, q) -> tr !! (S i) = Some (r', q') -> answers q r') /\
  (forall r q, last tr = Some (r, q) -> answers q (dp_Response st')) /\
  (Forall (fun rq => unsupported rq.2 = true \/ req_Hint rq.2 = 0) tr -> dp_Device st' = dp_Device st).
Proof using.
  intros Hr H0. assert (tr = [] -> dp_Response st' = None) as Hnil.
  { destruct Hr as [|st tr st1 q st2]; [done|by destruct tr]. }
  induction Hr as [st|st tr st1 q st2 Hr IH Hround]; [by split_and!|].
  destruct (round_answers u st1 q st2 Hround) as [Ha Hd].
  assert (tr = [] -> dp_Response st1 = None) as Hnil1.
  { inversion Hr as [|? tr0 ? ? ? ? ? E1]; subst; [done|by destruct tr0]. }
  destruct (IH H0 Hnil1) as (IH1 & IH2 & IH3 & IH4). split_and!.
  - intros r p. destruct tr as [|[r0 q0] tr]; cbn [app head]; [|by apply IH1].
    intros [= <- <-]. by apply Hnil1.
  - intros i r p r' p' Hi Hi'. destruct (decide (S i < length tr)%nat) as [Hlt|Hge].
    + rewrite lookup_app_l in Hi, Hi' by lia. by eapply IH2.
    + pose proof (lookup_lt_Some _ _ _ Hi') as Hl. rewrite length_app in Hl. simpl in Hl.
      assert (S i = length tr) as Ei by lia.
      rewrite Ei, lookup_app_r, Nat.sub_diag in Hi' by lia. injection Hi' as <- <-.
      rewrite lookup_app_l in Hi by lia. apply (IH3 r p). rewrite last_lookup. by rewrite <- Ei.
  - intros r p. rewrite last_snoc. intros [= <- <-]. exact Ha.
  - intros [HF Hq]%Forall_app. rewrite Hd; [by apply IH4|]. by apply Forall_inv in Hq.
Qed.
End Dispatcher.

(** A handle that gives the requests of a list, and then an error; it keeps what was sent. *)
Definition SCRIPT : Type := list SPD_IOCTL_TRANSACT_REQ * list (option SPD_IOCTL_TRANSACT_RSP).

#[local] Instance script_handle : UnitHandle SCRIPT := {|
  HandleOpen w _ _ := Some (ERROR_SUCCESS, 8, 0, w);
  HandleTransact w _ _ Rsp _ b :=
    match w with
    | ([], sent) => Some (ERROR_NO_DATA, None, b, w)
    | (q :: qs, sent) => Some (ERROR_SUCCESS, Some q, b, (qs, sent ++ [Rsp]))
    end;
  HandleShutdown w _ _ := Some (ERROR_SUCCESS, w);
  HandleClose w _ := Some (ERROR_SUCCESS, w)
|}.

Definition example_unit (count thread : Z) : SPD_STORAGE_UNIT :=
  mkStorageUnit (mkParams (mkGUID 1 2 3 [1; 2; 3; 4; 5; 6; 7; 8]) 64 512 [] [] 0 false false false
    false 4096) 8 0 1 thread count 0 0.

(** A storage device that counts its flushes, and reads later. *)
Definition example_interface : SPD_STORAGE_UNIT_INTERFACE Z :=
  mkInterface (Some (fun d b _ _ _ s => Some (false, b, s, d))) None
    (Some (fun d _ _ s => Some (true, s, d + 1))) None.

(** A flush, a write that is not supported, and a read. *)
Lemma dispatcher_protocol_witness :
  let qs := [mkReq 7 3 (OpFlush 0 0); mkReq 8 2 (OpWrite 0 1 0); mkReq 9 1 (OpRead 0 1 0)] in
  exists st', dispatcher_run example_interface (example_unit 1 0) (mkDispatch (qs, []) 0 None [] [])
      [(None, mkReq 7 3 (OpFlush 0 0)); (Some (mkRsp 7 3 ZeroStatus), mkReq 8 2 (OpWrite 0 1 0));
       (Some (mkRsp 8 2 illegal_request), mkReq 9 1 (OpRead 0 1 0))] st' /\
    dp_Device st' = 1 /\ answers example_interface (mkReq 9 1 (OpRead 0 1 0)) (dp_Response st').
Proof.
  intros qs. eexists.
  assert (dispatcher_run example_interface (example_unit 1 0) (mkDispatch (qs, []) 0 None [] [])
    [(None, mkReq 7 3 (OpFlush 0 0)); (Some (mkRsp 7 3 ZeroStatus), mkReq 8 2 (OpWrite 0 1 0));
     (Some (mkRsp 8 2 illegal_request), mkReq 9 1 (OpRead 0 1 0))]
    (mkDispatch ([], [None; Some (mkRsp 7 3 ZeroStatus); Some (mkRsp 8 2 illegal_request)]) 1 None [] []))
    as Hr.
  { apply (run_snoc _ _ _ [_; _] (mkDispatch ([mkReq 9 1 (OpRead 0 1 0)], [None; Some (mkRsp 7 3 ZeroStatus)])
      1 (Some (mkRsp 8 2 illegal_request)) [] []) (mkReq 9 1 (OpRead 0 1 0))); [|vm_compute; reflexivity].
    apply (run_snoc _ _ _ [_] (mkDispatch ([mkReq 8 2 (OpWrite 0 1 0); mkReq 9 1 (OpRead 0 1 0)], [None])
      1 (Some (mkRsp 7 3 ZeroStatus)) [] []) (mkReq 8 2 (OpWrite 0 1 0))); [|vm_compute; reflexivity].
    apply (run_snoc _ _ _ [] (mkDispatch (qs, []) 0 None [] []) (mkReq 7 3 (OpFlush 0 0)));
      [|vm_compute; reflexivity].
    apply run_nil. }
  split; [exact Hr|]. split; [reflexivity|].
  destruct (dispatcher_protocol example_interface _ _ _ _ Hr eq_refl) as (_ & _ & Ha & _).
  apply (Ha (Some (mkRsp 8 2 illegal_request))). reflexivity.
Defined.

(** ** Starting the threads *)

(** The number of bits that are set among the lowest [k]. *)
Definition set_bits (k : nat) (m : Z) : nat :=
  sum_list ((fun i : nat => if Z.testbit m (Z.of_nat i) then 1%nat else 0%nat) <$> seq 0 k).

Lemma set_bits_S k m :
  0 <= m -> set_bits (S k) m = ((if Z.testbit m 0 then 1 else 0) + set_bits k (m ≫ 1))%nat.
Proof.
  intros Hm. unfold set_bits. cbn [seq fmap list_fmap sum_list]. f_equal.
  rewrite <- (fmap_S_seq 0 k), <- list_fmap_compose. f_equal. apply list_fmap_ext. intros _ i _.
  unfold compose. rewrite Z.shiftr_spec by lia. by rewrite Nat2Z.inj_succ.
Qed.

Lemma set_bits_0 k : set_bits k 0 = 0%nat.
Proof.
  unfold set_bits. generalize (seq 0 k) as l. intros l. induction l as [|i l IH]; [done|].
  cbn [fmap list_fmap sum_list]. by rewrite Z.bits_0.
Qed.

Lemma set_bits_bound k m : (set_bits k m <= k)%nat.
Proof.
  unfold set_bits. transitivity (length (seq 0 k)); [|by rewrite length_seq].
  generalize (seq 0 k) as l. intros l.
  induction l as [|i l IH]; [done|]. rewrite fmap_cons. simpl. case_match; lia.
Qed.

Lemma count_processors_spec k m c :
  0 <= m < 2 ^ Z.of_nat k -> 0 <= c -> c + Z.of_nat k < 2 ^ 32 ->
  count_processors (S k) m c = Some (c + Z.of_nat (set_bits k m)).
Proof.
  revert m c. induction k as [|k IH]; intros m c Hm Hc Hb.
  - change (2 ^ Z.of_nat 0) with 1 in Hm. assert (m = 0) as -> by lia. rewrite set_bits_0. simpl. f_equal. lia.
  - remember (S k) as n. cbn [count_processors]. subst n.
    destruct (Z.eqb_spec 0 m) as [<-|Hne]; [rewrite set_bits_0; f_equal; lia|].
    rewrite set_bits_S by lia.
    assert (m .& 1 = if Z.testbit m 0 then 1 else 0) as ->.
    { change 1 with (Z.ones 1) at 1. rewrite Z.land_ones by lia. change (2 ^ 1) with 2.
      rewrite Zmod_odd, Z.bit0_odd. done. }
    assert (0 <= m ≫ 1 < 2 ^ Z.of_nat k) as Hs.
    { rewrite Z.shiftr_div_pow2 by lia. change (2 ^ 1) with 2.
      replace (Z.of_nat (S k)) with (Z.of_nat k + 1) in Hm by lia.
      rewrite Z.pow_add_r in Hm by lia. change (2 ^ 1) with 2 in Hm. dlia. }
    unfold u32. rewrite Z.mod_small by (case_match; lia).
    rewrite IH by first [exact Hs|case_match; lia]. f_equal. case_match; lia.
Qed.

(** The threads that start one after the other, each the next one's parent, when the system has
    memory and threads for them. *)
Inductive threads_started : SPD_STORAGE_UNIT -> nat -> SPD_STORAGE_UNIT -> Prop :=
  | threads_last u CT u' : dispatcher_begin u true CT = (None, 0, u') -> threads_started u 1 u'
  | threads_next u h e u' k u'' :
      h <> 0 -> dispatcher_begin u true (h, e) = (None, h, u') ->
      threads_started u' k u'' -> threads_started u (S k) u''.

Lemma threads_started_count u k u' :
  threads_started u k u' -> 0 <= DispatcherThreadCount u < 2 ^ 32 ->
  Z.of_nat k = Z.max 1 (DispatcherThreadCount u).
Proof.
  induction 1 as [u [h e] u' Hb|u h e u' k u'' Hh Hb Hs IH]; intros Hc; unfold dispatcher_begin in Hb;
    cbn [negb] in Hb; destruct (1 <? DispatcherThreadCount u) eqn:E; zify_bools.
  - destruct (Z.eqb_spec 0 h); [discriminate Hb|]. injection Hb as ? _. congruence.
  - lia.
  - destruct (Z.eqb_spec 0 h); [discriminate Hb|]. injection Hb as <-.
    assert (u32 (DispatcherThreadCount u - 1) = DispatcherThreadCount u - 1) as Hu
      by (unfold u32; rewrite Z.mod_small; lia).
    rewrite Hu in *. cbn [DispatcherThreadCount] in IH. specialize (IH ltac:(lia)). lia.
  - injection Hb as ? _. congruence.
Qed.

Lemma threads_started_exist u :
  0 <= DispatcherThreadCount u < 2 ^ 32 -> exists k u', threads_started u k u'.
Proof.
  remember (Z.to_nat (DispatcherThreadCount u)) as n eqn:Hn. revert u Hn.
  induction n as [n IH] using lt_wf_ind. intros u -> Hc.
  destruct (1 <? DispatcherThreadCount u) eqn:E; zify_bools.
  - set (u1 := u <| DispatcherThreadCount := u32 (DispatcherThreadCount u - 1) |>).
    assert (DispatcherThreadCount u1 = DispatcherThreadCount u - 1) as Hu
      by (change (DispatcherThreadCount u1) with (u32 (DispatcherThreadCount u - 1)); unfold u32;
          rewrite Z.mod_small; lia).
    destruct (IH (Z.to_nat (DispatcherThreadCount u1))) with (u := u1) as (k & u' & Hs); try done; try lia.
    exists (S k), u'. apply (threads_next u 1 0 u1); [done| |exact Hs].
    unfold dispatcher_begin. cbn [negb]. by rewrite (proj2 (Z.ltb_lt _ _)).
  - exists 1%nat, u. apply (threads_last u (0, 0)). unfold dispatcher_begin. cbn [negb].
    by rewrite (proj2 (Z.ltb_ge _ _)).
Qed.

(** Starting the dispatcher of a unit that has none starts as many threads as the caller asks
    for, or as there are processors in the mask of the process, and at least one: the loop that
    counts the bits of the mask ends, each thread starts the next one, and the chain ends.  A
    unit that has a dispatcher is refused, until the dispatcher is waited for. *)
Theorem start_dispatcher_threads u ThreadCount mask Thread ThreadId e1 SuspendCount e2 :
  0 <= ThreadCount < 2 ^ 32 -> 0 <= mask < 2 ^ 64 -> Thread <> 0 -> SuspendCount <> 0 ->
  (if 0 =? DispatcherThread u then
     exists u', SpdStorageUnitStartDispatcher u ThreadCount (inl mask) (Thread, ThreadId, e1)
         (SuspendCount, e2) = Some (ERROR_SUCCESS, u') /\
       (exists k u'', threads_started u' k u'') /\
       (forall k u'', threads_started u' k u'' ->
          Z.of_nat k = Z.max 1 (if ThreadCount =? 0 then Z.of_nat (set_bits 64 mask) else ThreadCount)) /\
       SpdStorageUnitStartDispatcher u' ThreadCount (inl mask) (Thread, ThreadId, e1) (SuspendCount, e2) =
         Some (ERROR_INVALID_PARAMETER, u') /\
       fst (SpdStorageUnitWaitDispatcher u') = Some Thread /\
       DispatcherThread (snd (SpdStorageUnitWaitDispatcher u')) = 0
   else SpdStorageUnitStartDispatcher u ThreadCount (inl mask) (Thread, ThreadId, e1) (SuspendCount, e2) =
          Some (ERROR_INVALID_PARAMETER, u)).
Proof.
  intros Hn Hm HT HS. unfold SpdStorageUnitStartDispatcher at 1 3.
  destruct (0 =? DispatcherThread u); cbn [negb]; [|done].
  set (n := if ThreadCount =? 0 then Z.of_nat (set_bits 64 mask) else ThreadCount).
  pose proof (set_bits_bound 64 mask) as Hb.
  assert ((if 0 =? ThreadCount then n ← count_processors 65 mask 0; Some (inl n)
           else Some (inl ThreadCount)) = Some (@inl Z Z n)) as ->.
  { subst n. rewrite Z.eqb_sym. destruct (Z.eqb_spec ThreadCount 0) as [->|]; [|done].
    rewrite (count_processors_spec 64) by lia. by rewrite bind_value. }
  rewrite bind_value, (proj2 (Z.eqb_neq 0 Thread)), (proj2 (Z.eqb_neq 0 SuspendCount)) by congruence.
  set (u' := u <| DispatcherThreadCount := n |> <| DispatcherThread := Thread |> <| DispatcherThreadId := ThreadId |>).
  assert (0 <= DispatcherThreadCount u' < 2 ^ 32) as Hc
    by (change (DispatcherThreadCount u') with n; subst n; case_match; lia).
  exists u'. split; [done|]. split; [by apply threads_started_exist|]. split.
  { intros k u'' Hk. by apply (threads_started_count u' k u''). }
  unfold SpdStorageUnitStartDispatcher, SpdStorageUnitWaitDispatcher.
  change (DispatcherThread u') with Thread. by rewrite (proj2 (Z.eqb_neq 0 Thread)) by congruence.
Qed.

(** Four processors. *)
Lemma start_dispatcher_threads_witness :
  exists u', SpdStorageUnitStartDispatcher (example_unit 0 0) 0 (inl 0x99) (12, 1, 0) (1, 0) =
      Some (ERROR_SUCCESS, u') /\ forall k u'', threads_started u' k u'' -> Z.of_nat k = 4.
Proof.
  destruct (start_dispatcher_threads (example_unit 0 0) 0 0x99 12 1 0 1 0) as (u' & Hs & _ & Hk & _); try lia.
  exists u'. split; [exact Hs|]. intros k u'' H. rewrite (Hk k u'' H). reflexivity.
Defined.

(** * How the dispatcher ends

    A thread runs until its handle gives an error.  Shutting a unit down, over a pipe or the
    driver, makes the handle do so, and the threads of the unit end. *)

(** ** Threads of a stopped handle *)

Section Stopped.
Context {W D : Type} {HW : UnitHandle W} {HS : StoppedHandle W HW}
  (Interface : SPD_STORAGE_UNIT_INTERFACE D).

Lemma stopped_loop n u st :
  handle_stopped (dp_World st) (Handle u) (Btl u) ->
  exists err w, dispatcher_loop Interface (S n) u st =
      Some (Some err, mkDispatch w (dp_Device st) (dp_Response st) (dp_DataBuffer st) (dp_Log st)) /\
    err <> ERROR_SUCCESS /\ handle_stopped w (Handle u) (Btl u).
Proof using HS.
  intros Hs. destruct (stopped_transact _ _ _ (dp_Response st) (dp_DataBuffer st) Hs)
    as (err & w & HT & He & Hs'). exists err, w. split; [|done].
  cbn [dispatcher_loop]. unfold dispatcher_round. rewrite HT, !bind_value.
  rewrite (proj2 (Z.eqb_neq ERROR_SUCCESS err)) by congruence. cbn [negb]. by rewrite bind_value.
Qed.

(** The errors that the threads of a unit report: the first one stays. *)
Lemma dispatcher_error_first u e1 e2 :
  e1 <> ERROR_SUCCESS ->
  DispatcherError (SpdStorageUnitSetDispatcherError (SpdStorageUnitSetDispatcherError u e1) e2) =
    (if DispatcherError u =? ERROR_SUCCESS then e1 else DispatcherError u) /\
  Handle (SpdStorageUnitSetDispatcherError u e1) = Handle u /\
  StorageUnitParams (SpdStorageUnitSetDispatcherError u e1) = StorageUnitParams u.
Proof using.
  intros He. unfold SpdStorageUnitSetDispatcherError.
  rewrite (proj2 (Z.eqb_neq ERROR_SUCCESS e1)) by congruence.
  destruct (DispatcherError u =? ERROR_SUCCESS) eqn:E.
  - change (DispatcherError (u <| DispatcherError := e1 |>)) with e1.
    rewrite (proj2 (Z.eqb_neq e1 _)) by done. by destruct (ERROR_SUCCESS =? e2).
  - rewrite E. by destruct (ERROR_SUCCESS =? e2).
Qed.
End Stopped.

(** ** Shutting a unit down *)

Section System.
Context (DBG : bool) (sz : Z) (Dos : Z -> Z) (Address : Z).
Context (HDos : forall s, NT_SUCCESS s = false -> Dos s <> ERROR_SUCCESS).
Context {D : Type} (Interface : SPD_STORAGE_UNIT_INTERFACE D).
Let HW : UnitHandle (SYSTEM DRIVER) := driver_handle DBG sz Dos Address.
Let HS : StoppedHandle (SYSTEM DRIVER) HW := system_stopped_handle DBG sz Dos Address HDos.
#[local] Existing Instance HW.
#[local] Existing Instance HS.

(** C23: Shutting a unit down ends its threads, whether its handle is a pipe or the driver: the
    loop of a thread, wherever it is and whatever it has to send, ends in its next round with an
    error, and leaves the storage device as it is; then the thread reports the error, or the
    error of the thread before it, and at most flushes the storage device, if it is the first
    thread and the unit has a cache.  (The flush of the storage device itself must not fault.) *)
Theorem shutdown_ends_dispatcher w u :
  system_open w (Handle u) (Btl u) (Guid (StorageUnitParams u)) ->
  exists w', SpdStorageUnitShutdown w u = Some w' /\
    forall n (st : DISPATCH), dp_World st = w' ->
      exists err st', dispatcher_loop Interface (S n) u st = Some (Some err, st') /\
        err <> ERROR_SUCCESS /\ dp_Device st' = dp_Device st /\
        forall tid, (forall f, Flush Interface = Some f -> is_Some (f (dp_Device st) 0 0 ZeroStatus)) ->
        exists u2 w2 d2,
          dispatcher_exit Interface u (dp_World st') (dp_Device st') err tid = Some (u2, w2, d2) /\
          DispatcherError u2 =
            (if DispatcherError u =? ERROR_SUCCESS then err else DispatcherError u) /\
          (d2 = dp_Device st \/
           (tid = DispatcherThreadId u /\ CacheSupported (StorageUnitParams u) = true /\
            exists f c s, Flush Interface = Some f /\ f (dp_Device st) 0 0 ZeroStatus = Some (c, s, d2))).
Proof using HDos.
  intros Ho. destruct (shutdown_stops DBG sz Dos Address w (Handle u) (Btl u) _ Ho) as (w' & HSh & Hst).
  change (driver_handle DBG sz Dos Address) with HW in HSh.
  exists w'. unfold SpdStorageUnitShutdown. split; [by rewrite HSh|].
  intros n st Hw. destruct (stopped_loop Interface n u st) as (err & w1 & HL & He & Hst1).
  { rewrite Hw. exact Hst. }
  eexists err, _. split; [exact HL|]. split; [done|]. split; [done|]. cbn [dp_World dp_Device].
  intros tid HF. unfold dispatcher_exit.
  destruct (stopped_shutdown w1 (Handle u) (Btl u) (Guid (StorageUnitParams u)) Hst1) as (e & w3 & HSh').
  destruct (dispatcher_error_first u err ERROR_SUCCESS He) as (HE & HHan & HPar).
  unfold SpdStorageUnitSetDispatcherError at 1 in HE. rewrite Z.eqb_refl in HE.
  assert (DispatcherThreadId (SpdStorageUnitSetDispatcherError u err) = DispatcherThreadId u) as ->
    by (unfold SpdStorageUnitSetDispatcherError; by repeat case_match).
  rewrite HPar, HHan, HSh', bind_value.
  destruct (Z.eqb_spec tid (DispatcherThreadId u)) as [->|]; [|by eexists _, _, _; split_and!; [done|exact HE|left]].
  destruct (CacheSupported (StorageUnitParams u)); [|by eexists _, _, _; split_and!; [done|exact HE|left]].
  destruct (Flush Interface) as [f|]; [|by eexists _, _, _; split_and!; [done|exact HE|left]].
  destruct (HF f eq_refl) as [[[c s] d2] Hf]. rewrite Hf, !bind_value.
  eexists _, _, d2. split_and!; [done|exact HE|]. right. split_and!; [done|done|]. by exists f, c, s.
Qed.
End System.

(** A unit of the driver whose storage device has no operation. *)
Lemma shutdown_ends_dispatcher_witness :
  let d := mkDriver example_E1 77 8192 true [] [] in
  let os := mkOpenSystem (mkOpen true 0 0 0 0 0) (mkDevices (inr 2) [] 2) [] (fun _ => (0, 0)) in
  let w := mkSystem (mkProcess None ∅ ∅) d os
             (fun _ => mkAnswers 0 true true (mkIo true 0 1 true 0) (mkIo true 0 1 true 0)
                         (mkIo true 0 1 true 0) (mkIo true 0 1 true 0) 0 ReqZero []) 0 in
  let u := mkStorageUnit (example_params 1) 8 0 1 12 1 0 0 in
  exists w', @SpdStorageUnitShutdown _ (driver_handle false 0 (fun s => s) 4096) w u = Some w' /\
    exists err st', @dispatcher_loop _ unit (driver_handle false 0 (fun s => s) 4096)
        (mkInterface None None None None) 5 u (mkDispatch w' tt None [] []) = Some (Some err, st') /\
      err <> ERROR_SUCCESS.
Proof.
  intros d os w u.
  destruct (fun H => shutdown_ends_dispatcher false 0 (fun s => s) 4096 H
    (@mkInterface unit None None None None) w u) as (w' & Hs & Hl).
  - intros s Hs ->. discriminate Hs.
  - exists [], 4096. eexists. split; [exact example_E1_wf|]. split; [reflexivity|].
    split; [vm_compute; reflexivity|]. split; [discriminate|]. split; [vm_compute; reflexivity|].
    split; reflexivity.
  - exists w'. split; [exact Hs|].
    destruct (Hl 4%nat (mkDispatch w' tt None [] []) eq_refl) as (err & st' & HL & He & _).
    exists err, st'. split; [exact HL|exact He].
Defined.
