(* ===== verification/RawDisk.v ===== *)
(** * The storage device of the test suite: [tst/rawdisk/rawdisk.c]

    A disk that is a file, mapped into memory: blocks are copied to and from the view of the file.
    The file is an argument, an implementation of [MappedFile]: an access to the view can fail
    with an in-page error, and the system decides when what is in the view reaches the medium.
    An access outside of the view is [None].  [WARNONCE] only writes to the log. *)

From S2P Require Import Prelude Wdk IoctlTypes UnitHandle Mbr Dispatcher.

(** ** The file *)

(** A pointer that the code copies from or to: into the data buffer of the request, or into the
    view, as an offset from its start. *)
Inductive PVOID :=
  | AtBuffer
  | AtFile (Offset : Z).

(** What the system does for a mapped file.  [Written] is what it has of the file outside of the
    view, and [Medium] what would be left after a loss of power.  [CopyException] is asked when
    memory is copied: the in-page error, if there is one, leaves something in the destination and
    may know its address. *)
Class MappedFile (F : Type) := {
  View : F -> list Z;
  Written : F -> list Z;
  Medium : F -> list Z;
  SetView : F -> list Z -> F;
  CopyException : F -> PVOID -> option PVOID -> Z -> option (list Z * Z) * F;
  FlushViewOfFile : F -> Z -> Z -> bool * F;
  FlushFileBuffers : F -> bool * F;
  SetZeroData : F -> Z -> Z -> bool * F
}.

(** The documented behaviour. *)
Class MappedFileLaws (F : Type) {HF : MappedFile F} : Prop := {
  view_set f v : View (SetView f v) = v;
  copy_exception_view f Dst Src n : View (CopyException f Dst Src n).2 = View f;
  copy_exception_length f Dst Src n bs a :
    (CopyException f Dst Src n).1 = Some (bs, a) -> length bs = Z.to_nat n;
  flush_view_view f off n : View (FlushViewOfFile f off n).2 = View f;
  flush_view_written f off n i :
    (FlushViewOfFile f off n).1 = true ->
    off <= Z.of_nat i -> (n = 0 \/ Z.of_nat i < off + n) ->
    Written (FlushViewOfFile f off n).2 !! i = View f !! i;
  flush_buffers_view f : View (FlushFileBuffers f).2 = View f;
  flush_buffers_medium f :
    (FlushFileBuffers f).1 = true -> Medium (FlushFileBuffers f).2 = Written f;
  set_zero_length f a b : length (View (SetZeroData f a b).2) = length (View f);
  set_zero_outside f a b i :
    Z.of_nat i < a \/ b <= Z.of_nat i -> View (SetZeroData f a b).2 !! i = View f !! i;
  set_zero_inside f a b i :
    (SetZeroData f a b).1 = true -> a <= Z.of_nat i < b -> (i < length (View f))%nat ->
    View (SetZeroData f a b).2 !! i = Some 0
}.

(** ** The disk *)

Record RAWDISK := mkRawDisk {
  rd_StorageUnit : SPD_STORAGE_UNIT;
  rd_BlockCount : Z;
  rd_BlockLength : Z;
  rd_Handle : Z;
  rd_Mapping : Z;
  rd_Pointer : Z;
  rd_Sparse : bool
}.

Section RawDisk.
Context {F : Type} {HF : MappedFile F}.

Definition mem_load (f : F) (Buffer : list Z) (p : PVOID) (n : nat) : option (list Z) :=
  match p with
  | AtBuffer => buf_read 0 n Buffer
  | AtFile o => buf_read (Z.to_nat o) n (View f)
  end.

Definition mem_store (f : F) (Buffer : list Z) (p : PVOID) (bs : list Z) : option (F * list Z) :=
  match p with
  | AtBuffer => Buffer ← buf_write 0 bs Buffer; Some (f, Buffer)
  | AtFile o => v ← buf_write (Z.to_nat o) bs (View f); Some (SetView f v, Buffer)
  end.

Section Disk.
Context (RawDisk : RAWDISK).

(** The block of an address in the view, as [ExceptionFilter] and [CopyBuffer] compute it. *)
Definition exception_information (ExceptionDataAddress : Z) : option (option Z) :=
  if 0 =? ExceptionDataAddress then Some None
  else if 0 =? rd_BlockLength RawDisk then None
  else Some (Some (u64 (ExceptionDataAddress - rd_Pointer RawDisk) / rd_BlockLength RawDisk)).

(** A null [Src] copies zeros; a null [Status] reports nothing. *)
Definition CopyBuffer (f : F) (Buffer : list Z) (Dst : PVOID) (Src : option PVOID) (Length ASC : Z)
    (Status : option SPD_IOCTL_STORAGE_UNIT_STATUS)
    : option (F * list Z * option SPD_IOCTL_STORAGE_UNIT_STATUS) :=
  let '(Exception, f) := CopyException f Dst Src Length in
  match Exception with
  | None =>
      bs ← match Src with
           | Some Src => mem_load f Buffer Src (Z.to_nat Length)
           | None => Some (replicate (Z.to_nat Length) 0)
           end;
      '(f, Buffer) ← mem_store f Buffer Dst bs;
      Some (f, Buffer, Status)
  | Some (bs, ExceptionDataAddress) =>
      '(f, Buffer) ← mem_store f Buffer Dst bs;
      match Status with
      | None => Some (f, Buffer, None)
      | Some s =>
          PInformation ← exception_information ExceptionDataAddress;
          Some (f, Buffer,
                Some (SpdStorageUnitStatusSetSense s SCSI_SENSE_MEDIUM_ERROR ASC PInformation))
      end
  end.

(** The address in the view of a block. *)
Definition FileBuffer (BlockAddress : Z) : Z := u64 (BlockAddress * rd_BlockLength RawDisk).

Definition FlushInternal (f : F) (BlockAddress BlockCount : Z) (s : SPD_IOCTL_STORAGE_UNIT_STATUS)
    : bool * SPD_IOCTL_STORAGE_UNIT_STATUS * F :=
  let error f :=
    (true, SpdStorageUnitStatusSetSense s SCSI_SENSE_MEDIUM_ERROR SCSI_ADSENSE_WRITE_ERROR None, f) in
  let '(ok, f) := FlushViewOfFile f (FileBuffer BlockAddress)
                    (u32 (BlockCount * rd_BlockLength RawDisk)) in
  if negb ok then error f
  else
    let '(ok, f) := FlushFileBuffers f in
    if negb ok then error f else (true, s, f).

(** The status is the response's, so it is never null here. *)
Definition copy_status (r : option (F * list Z * option SPD_IOCTL_STORAGE_UNIT_STATUS))
    : option (F * list Z * SPD_IOCTL_STORAGE_UNIT_STATUS) :=
  '(f, Buffer, Status) ← r; s ← Status; Some (f, Buffer, s).

Definition RawDiskRead (f : F) (Buffer : list Z) (BlockAddress BlockCount FlushFlag : Z)
    (s : SPD_IOCTL_STORAGE_UNIT_STATUS)
    : option (bool * list Z * SPD_IOCTL_STORAGE_UNIT_STATUS * F) :=
  let '(_, s, f) := if FlushFlag =? 0 then (true, s, f) else FlushInternal f BlockAddress BlockCount s in
  if negb (FlushFlag =? 0) && negb (SCSISTAT_GOOD =? ScsiStatus s) then Some (true, Buffer, s, f)
  else
    '(f, Buffer, s) ← copy_status (CopyBuffer f Buffer AtBuffer (Some (AtFile (FileBuffer BlockAddress)))
       (u32 (BlockCount * rd_BlockLength RawDisk)) SCSI_ADSENSE_UNRECOVERED_ERROR (Some s));
    Some (true, Buffer, s, f).

Definition RawDiskWrite (f : F) (Buffer : list Z) (BlockAddress BlockCount FlushFlag : Z)
    (s : SPD_IOCTL_STORAGE_UNIT_STATUS)
    : option (bool * list Z * SPD_IOCTL_STORAGE_UNIT_STATUS * F) :=
  '(f, Buffer, s) ← copy_status (CopyBuffer f Buffer (AtFile (FileBuffer BlockAddress)) (Some AtBuffer)
     (u32 (BlockCount * rd_BlockLength RawDisk)) SCSI_ADSENSE_WRITE_ERROR (Some s));
  if (SCSISTAT_GOOD =? ScsiStatus s) && negb (FlushFlag =? 0) then
    let '(_, s, f) := FlushInternal f BlockAddress BlockCount s in Some (true, Buffer, s, f)
  else Some (true, Buffer, s, f).

Definition RawDiskFlush (f : F) (BlockAddress BlockCount : Z) (s : SPD_IOCTL_STORAGE_UNIT_STATUS)
    : option (bool * SPD_IOCTL_STORAGE_UNIT_STATUS * F) := Some (FlushInternal f BlockAddress BlockCount s).

(** The loop over the descriptors; [I] is the next index. *)
Fixpoint unmap_loop (n I : nat) (f : F) (Buffer : list Z) : option (list Z * F) :=
  match n with
  | O => Some (Buffer, f)
  | S n =>
      '(BlockAddress, BlockCount) ← read_unmap Buffer I;
      let '(SetZero, f) :=
        if rd_Sparse RawDisk then
          SetZeroData f (s64 (u64 (BlockAddress * rd_BlockLength RawDisk)))
            (s64 (u64 (u64 (BlockAddress + BlockCount) * rd_BlockLength RawDisk)))
        else (false, f) in
      '(f, Buffer) ← (if SetZero : bool then Some (f, Buffer)
                      else '(f, Buffer, _) ← CopyBuffer f Buffer (AtFile (FileBuffer BlockAddress)) None
                             (u32 (BlockCount * rd_BlockLength RawDisk)) SCSI_ADSENSE_NO_SENSE None;
                           Some (f, Buffer));
      unmap_loop n (S I) f Buffer
  end.

Definition RawDiskUnmap (f : F) (Buffer : list Z) (Count : Z) (s : SPD_IOCTL_STORAGE_UNIT_STATUS)
    : option (bool * list Z * SPD_IOCTL_STORAGE_UNIT_STATUS * F) :=
  '(Buffer, f) ← unmap_loop (Z.to_nat Count) 0 f Buffer; Some (true, Buffer, s, f).

Definition RawDiskInterface : SPD_STORAGE_UNIT_INTERFACE F :=
  mkInterface (Some RawDiskRead) (Some RawDiskWrite) (Some RawDiskFlush) (Some RawDiskUnmap).
End Disk.
End RawDisk.
