(* ===== verification/RawDiskProps.v ===== *)
(** * Properties of the storage device of the test suite

    Whatever the file does, a block holds what was last written to it, as far as the requests
    have reported; and what a flush reports as done is on the medium. *)

From S2P Require Import Prelude Wdk IoctlTypes UnitHandle Dispatcher RawDisk.

(** ** Blocks of a buffer *)

Definition chunk (BL k : Z) (buf : list Z) : list Z :=
  take (Z.to_nat BL) (drop (Z.to_nat (k * BL)) buf).

Lemma chunk_lookup BL k buf i :
  (i < Z.to_nat BL)%nat -> chunk BL k buf !! i = buf !! (Z.to_nat (k * BL) + i)%nat.
Proof. intros Hi. unfold chunk. by rewrite lookup_take_lt, lookup_drop by done. Qed.

Lemma chunk_ext BL k buf k' buf' :
  (forall i, (i < Z.to_nat BL)%nat ->
     buf !! (Z.to_nat (k * BL) + i)%nat = buf' !! (Z.to_nat (k' * BL) + i)%nat) ->
  chunk BL k buf = chunk BL k' buf'.
Proof.
  intros H. apply list_eq. intros i. destruct (decide (i < Z.to_nat BL)%nat) as [Hi|Hi].
  - by rewrite !chunk_lookup, H by done.
  - unfold chunk. by rewrite !lookup_take_ge by lia.
Qed.

(** A block that a store does not reach, and one that it covers. *)
Lemma chunk_write_other BL a n bs buf buf' b :
  0 < BL -> 0 <= a -> 0 <= b -> length bs = Z.to_nat (n * BL) -> 0 <= n ->
  buf_write (Z.to_nat (a * BL)) bs buf = Some buf' -> ~ (a <= b < a + n) ->
  chunk BL b buf' = chunk BL b buf.
Proof.
  intros HBL Ha Hb Hl Hn Hw Hout. apply chunk_ext. intros i Hi.
  eapply buf_write_lookup_ne; [exact Hw|]. rewrite Hl.
  assert (0 <= a * BL /\ 0 <= b * BL /\ 0 <= n * BL) by nia.
  destruct (decide (b < a)); [left; nia|right; nia].
Qed.

Lemma chunk_write_same BL a n bs buf buf' b :
  0 < BL -> 0 <= a -> length bs = Z.to_nat (n * BL) ->
  buf_write (Z.to_nat (a * BL)) bs buf = Some buf' -> a <= b < a + n ->
  chunk BL b buf' = chunk BL (b - a) bs.
Proof.
  intros HBL Ha Hl Hw Hin. apply chunk_ext. intros i Hi.
  assert (0 <= a * BL /\ 0 <= (b - a) * BL /\ (b - a) * BL + BL <= n * BL) by nia.
  assert (Z.to_nat (b * BL) = (Z.to_nat (a * BL) + Z.to_nat ((b - a) * BL))%nat) as -> by nia.
  erewrite buf_write_lookup; [|exact Hw|lia]. f_equal. lia.
Qed.

Lemma chunk_read BL a n v bs k :
  0 < BL -> 0 <= a -> buf_read (Z.to_nat (a * BL)) (Z.to_nat (n * BL)) v = Some bs -> 0 <= k < n ->
  chunk BL k bs = chunk BL (a + k) v.
Proof.
  intros HBL Ha Hr Hk. apply chunk_ext. intros i Hi. unfold buf_read in Hr.
  case_decide; [|done]. injection Hr as <-. assert (k * BL + BL <= n * BL) by nia.
  rewrite lookup_take_lt, lookup_drop by nia. f_equal. nia.
Qed.

(** ** What one request does *)

Section RawDisk.
Context {F : Type} {HF : MappedFile F} {HL : MappedFileLaws F}.
Context (RawDisk : RAWDISK).
Let BL := rd_BlockLength RawDisk.

(** The disk fits the view of the file. *)
Record disk_wf (f : F) : Prop := {
  dw_BlockLength : 0 < BL < 2 ^ 32;
  dw_BlockCount : 0 <= rd_BlockCount RawDisk;
  dw_View : rd_BlockCount RawDisk * BL <= Z.of_nat (length (View f)) < 2 ^ 63
}.

Definition in_range (a n : Z) : Prop := 0 <= a /\ 0 <= n /\ a + n <= rd_BlockCount RawDisk.

(** A request for a range of the disk that fits the data buffer. *)
Definition valid (q : SPD_IOCTL_TRANSACT_REQ) (Buffer : list Z) : Prop :=
  match req_Op q with
  | OpNone => False
  | OpRead a n _ => req_Kind q = SpdIoctlTransactReadKind /\ in_range a n /\
      n * BL < 2 ^ 32 /\ n * BL <= Z.of_nat (length Buffer)
  | OpWrite a n _ => req_Kind q = SpdIoctlTransactWriteKind /\ in_range a n /\
      n * BL < 2 ^ 32 /\ n * BL <= Z.of_nat (length Buffer)
  | OpFlush a n => req_Kind q = SpdIoctlTransactFlushKind
  | OpUnmap c => req_Kind q = SpdIoctlTransactUnmapKind /\
      forall J, (J < Z.to_nat c)%nat -> exists a n, read_unmap Buffer J = Some (a, n) /\ in_range a n
  end.

(** The status of a request: success, or an error of the medium. *)
Definition reported (s : SPD_IOCTL_STORAGE_UNIT_STATUS) : Prop :=
  s = ZeroStatus \/ (ScsiStatus s = SCSISTAT_CHECK_CONDITION /\ SenseKey s = SCSI_SENSE_MEDIUM_ERROR).

Definition good (s : SPD_IOCTL_STORAGE_UNIT_STATUS) : bool := ScsiStatus s =? SCSISTAT_GOOD.

Lemma reported_good s : reported s -> good s = true -> s = ZeroStatus.
Proof using. unfold good. intros [?|[E _]]; [done|]. by rewrite E. Qed.

Lemma range_offset f a n :
  disk_wf f -> in_range a n ->
  FileBuffer RawDisk a = a * BL /\ 0 <= a * BL /\ 0 <= n * BL /\
  a * BL + n * BL <= Z.of_nat (length (View f)).
Proof using.
  intros [H1 H2 H3] (Ha & Hn & Hr). unfold FileBuffer. fold BL.
  assert (0 <= a * BL /\ 0 <= n * BL /\ a * BL + n * BL <= rd_BlockCount RawDisk * BL) by nia.
  split_and!; try lia. apply u64_small. lia.
Qed.

Lemma flush_internal_spec f a n s :
  View (FlushInternal RawDisk f a n s).2 = View f /\
  (FlushInternal RawDisk f a n s).1.1 = true /\
  (good (FlushInternal RawDisk f a n s).1.2 = true -> (FlushInternal RawDisk f a n s).1.2 = s) /\
  (reported s -> reported (FlushInternal RawDisk f a n s).1.2) /\
  (good (FlushInternal RawDisk f a n s).1.2 = true ->
   disk_wf f -> in_range a n -> forall i,
   a * BL <= Z.of_nat i ->
   (u32 (n * BL) = 0 \/ Z.of_nat i < a * BL + u32 (n * BL)) ->
   Medium (FlushInternal RawDisk f a n s).2 !! i = View f !! i).
Proof using HL.
  unfold FlushInternal. fold BL. set (o := FileBuffer RawDisk a). set (m := u32 (n * BL)).
  pose proof (flush_view_view f o m) as H1. pose proof (flush_view_written f o m) as H2.
  destruct (FlushViewOfFile f o m) as [[] f1]; cbn [negb fst snd] in *.
  - pose proof (flush_buffers_view f1) as H3. pose proof (flush_buffers_medium f1) as H4.
    destruct (FlushFileBuffers f1) as [[] f2]; cbn [negb fst snd] in *; try rewrite H3.
    + split_and!; try done. intros _ Hw Hr i Hi Hor.
      destruct (range_offset f a n Hw Hr) as (Ho & Ha0 & Hn0 & _). rewrite (H4 eq_refl).
      apply H2; [done|subst o; lia|]. subst m o. rewrite Ho. destruct Hor; [by left|right; lia].
    + split_and!; try done. by right.
  - split_and!; try done. by right.
Qed.

(** A copy from the view into the buffer. *)
Lemma copy_read_spec f Buffer a n ASC :
  disk_wf f -> in_range a n -> n * BL < 2 ^ 32 -> n * BL <= Z.of_nat (length Buffer) ->
  exists f' Buffer' s,
    copy_status (CopyBuffer RawDisk f Buffer AtBuffer (Some (AtFile (FileBuffer RawDisk a)))
                   (u32 (n * BL)) ASC (Some ZeroStatus)) = Some (f', Buffer', s) /\
    View f' = View f /\ reported s /\ length Buffer' = length Buffer /\
    (good s = true -> exists bs, buf_read (Z.to_nat (a * BL)) (Z.to_nat (n * BL)) (View f) = Some bs /\
       buf_write 0 bs Buffer = Some Buffer').
Proof using HL.
  intros Hw Hr Hn HB. destruct (range_offset f a n Hw Hr) as (-> & Ha0 & Hn0 & Hlen).
  rewrite u32_small by lia. unfold CopyBuffer.
  pose proof (copy_exception_view f AtBuffer (Some (AtFile (a * BL))) (n * BL)) as H1.
  pose proof (copy_exception_length f AtBuffer (Some (AtFile (a * BL))) (n * BL)) as H2.
  destruct (CopyException f AtBuffer (Some (AtFile (a * BL))) (n * BL)) as [[[bs x]|] f1];
    cbn [fst snd] in *; cbn [mem_store mem_load].
  - destruct (proj2 (buf_write_is_Some 0 bs Buffer)) as [B' HB']; [rewrite (H2 bs x eq_refl); lia|].
    rewrite HB'. opt. unfold exception_information. fold BL.
    rewrite (proj2 (Z.eqb_neq 0 BL)) by (pose proof (dw_BlockLength _ Hw); lia).
    destruct (0 =? x); opt; eexists _, _, _;
      (split; [reflexivity|]; split_and!; [done|by right|by eapply buf_write_length|done]).
  - rewrite H1. destruct (proj2 (buf_read_is_Some (Z.to_nat (a * BL)) (Z.to_nat (n * BL)) (View f)))
      as [bs Hbs]; [lia|]. rewrite Hbs. opt. destruct (buf_read_Some _ _ _ _ Hbs) as [Hl _].
    destruct (proj2 (buf_write_is_Some 0 bs Buffer)) as [B' HB']; [lia|]. rewrite HB'. opt.
    eexists _, _, _. split; [reflexivity|].
    split_and!; [done|by left|by eapply buf_write_length|by exists bs].
Qed.

(** A copy into the view, from the buffer or of zeros. *)
Definition copied (Buffer : list Z) (Src : option PVOID) (n : nat) (bs : list Z) : Prop :=
  match Src with Some _ => buf_read 0 n Buffer = Some bs | None => bs = replicate n 0 end.

Lemma copy_write_spec f Buffer o m Src ASC (Status : option SPD_IOCTL_STORAGE_UNIT_STATUS) :
  BL <> 0 -> 0 <= o -> 0 <= m -> o + m <= Z.of_nat (length (View f)) ->
  (Src = Some AtBuffer /\ m <= Z.of_nat (length Buffer) \/ Src = None) ->
  (Status = None \/ Status = Some ZeroStatus) ->
  exists f' Status' bs,
    CopyBuffer RawDisk f Buffer (AtFile o) Src m ASC Status = Some (f', Buffer, Status') /\
    length bs = Z.to_nat m /\ buf_write (Z.to_nat o) bs (View f) = Some (View f') /\
    (Status = None -> Status' = None) /\
    (Status = Some ZeroStatus -> exists s, Status' = Some s /\ reported s /\
       (good s = true -> copied Buffer Src (Z.to_nat m) bs)) /\
    ((CopyException f (AtFile o) Src m).1 = None ->
       Status' = Status /\ copied Buffer Src (Z.to_nat m) bs).
Proof using HL.
  intros HBL Ho Hm Hlen HS Hst. unfold CopyBuffer.
  pose proof (copy_exception_view f (AtFile o) Src m) as H1.
  pose proof (copy_exception_length f (AtFile o) Src m) as H2.
  destruct (CopyException f (AtFile o) Src m) as [[[bs x]|] f1];
    cbn [fst snd] in *; cbn [mem_store].
  - rewrite H1. pose proof (H2 bs x eq_refl) as Hl.
    destruct (proj2 (buf_write_is_Some (Z.to_nat o) bs (View f))) as [v Hv]; [lia|].
    rewrite Hv. opt. unfold exception_information. fold BL.
    rewrite (proj2 (Z.eqb_neq 0 BL)) by lia.
    destruct Hst as [->| ->]; [|destruct (0 =? x); opt]; eexists _, _, bs;
      (split; [reflexivity|]; rewrite view_set; split_and!; try done);
      (intros _; eexists; split; [reflexivity|]; split; [by right|done]).
  - assert (exists bs, copied Buffer Src (Z.to_nat m) bs /\ length bs = Z.to_nat m /\
      match Src with
      | Some Src => mem_load f1 Buffer Src (Z.to_nat m)
      | None => Some (replicate (Z.to_nat m) 0)
      end = Some bs) as (bs & Hc & Hl & ->).
    { destruct HS as [[-> HB]| ->]; cbn [mem_load copied].
      - destruct (proj2 (buf_read_is_Some 0 (Z.to_nat m) Buffer)) as [bs Hbs]; [lia|].
        exists bs. split_and!; try done. by destruct (buf_read_Some _ _ _ _ Hbs).
      - eexists. split_and!; [reflexivity|by rewrite length_replicate|reflexivity]. }
    rewrite H1. opt.
    destruct (proj2 (buf_write_is_Some (Z.to_nat o) bs (View f))) as [v Hv]; [lia|].
    rewrite Hv. opt. eexists _, _, bs. split; [reflexivity|]. rewrite view_set.
    split_and!; try done. intros ->. eexists. split; [reflexivity|]. split; [by left|done].
Qed.

(** The view after a request: what it may have changed, and what it has if it succeeds. *)
Lemma read_spec f Buffer a n fua :
  disk_wf f -> in_range a n -> n * BL < 2 ^ 32 -> n * BL <= Z.of_nat (length Buffer) ->
  exists Buffer' s f',
    RawDiskRead RawDisk f Buffer a n fua ZeroStatus = Some (true, Buffer', s, f') /\
    View f' = View f /\ reported s /\ length Buffer' = length Buffer /\
    (good s = true -> exists bs, buf_read (Z.to_nat (a * BL)) (Z.to_nat (n * BL)) (View f) = Some bs /\
       buf_write 0 bs Buffer = Some Buffer').
Proof using HL.
  intros Hw Hr Hn HB. unfold RawDiskRead. fold BL.
  destruct (flush_internal_spec f a n ZeroStatus) as (H1 & _ & H3 & H4 & _).
  destruct (fua =? 0) eqn:E; cbn [negb andb].
  - destruct (copy_read_spec f Buffer a n SCSI_ADSENSE_UNRECOVERED_ERROR Hw Hr Hn HB)
      as (f' & B' & s & -> & Hs). rewrite bind_value. by eexists _, _, _.
  - destruct (FlushInternal RawDisk f a n ZeroStatus) as [[c s] f1]; cbn [fst snd] in *.
    unfold good in H3. rewrite Z.eqb_sym. destruct (ScsiStatus s =? SCSISTAT_GOOD) eqn:Es; cbn [negb].
    + rewrite (H3 eq_refl). assert (disk_wf f1) as Hw1 by (destruct Hw; constructor; by rewrite ?H1).
      destruct (copy_read_spec f1 Buffer a n SCSI_ADSENSE_UNRECOVERED_ERROR Hw1 Hr Hn HB)
        as (f' & B' & s' & -> & Hs). rewrite bind_value. rewrite H1 in Hs. by eexists _, _, _.
    + eexists _, _, _. split; [reflexivity|]. split_and!; try done; [by apply H4; left|].
      unfold good. by rewrite Es.
Qed.

Lemma write_spec f Buffer a n fua :
  disk_wf f -> in_range a n -> n * BL < 2 ^ 32 -> n * BL <= Z.of_nat (length Buffer) ->
  exists s f' bs,
    RawDiskWrite RawDisk f Buffer a n fua ZeroStatus = Some (true, Buffer, s, f') /\
    reported s /\ length bs = Z.to_nat (n * BL) /\
    buf_write (Z.to_nat (a * BL)) bs (View f) = Some (View f') /\
    (good s = true -> buf_read 0 (Z.to_nat (n * BL)) Buffer = Some bs) /\
    (good s = true -> fua <> 0 -> forall i, a * BL <= Z.of_nat i < (a + n) * BL ->
       Medium f' !! i = View f' !! i).
Proof using HL.
  intros Hw Hr Hn HB. unfold RawDiskWrite. fold BL.
  destruct (range_offset f a n Hw Hr) as (-> & Ha0 & Hn0 & Hlen). rewrite u32_small by lia.
  destruct (copy_write_spec f Buffer (a * BL) (n * BL) (Some AtBuffer) SCSI_ADSENSE_WRITE_ERROR
    (Some ZeroStatus)) as (f1 & Status & bs & -> & Hl & Hv & _ & Hst & _);
    [pose proof (dw_BlockLength _ Hw); lia|done..|by left|by right|].
  destruct (Hst eq_refl) as (s & -> & Hrs & Hg). unfold copy_status. rewrite !bind_value.
  assert (disk_wf f1) as Hw1.
  { pose proof (buf_write_length _ _ _ _ Hv) as E. destruct Hw. constructor; by rewrite ?E. }
  destruct (flush_internal_spec f1 a n s) as (H1 & _ & H3 & H4 & H5).
  rewrite Z.eqb_sym. destruct (ScsiStatus s =? SCSISTAT_GOOD) eqn:Es; cbn [andb].
  - destruct (Z.eqb_spec fua 0) as [->|Hf]; cbn [negb].
    + eexists _, _, bs. split; [reflexivity|]. by split_and!.
    + destruct (FlushInternal RawDisk f1 a n s) as [[c s'] f2]; cbn [fst snd] in *.
      eexists _, _, bs. split; [reflexivity|]. rewrite H1. split_and!; try done; [by apply H4| |].
      * intros Hs'. apply Hg. unfold good. by rewrite Es.
      * intros Hs' _ i Hi. apply H5; [done..|lia|]. rewrite u32_small by lia. right. lia.
  - eexists _, _, bs. split; [reflexivity|]. split_and!; try done.
    unfold good. by rewrite Es.
Qed.

(** The bytes of the descriptors of an unmap list. *)
Definition covered (Buffer : list Z) (I n i : nat) : Prop :=
  exists J a c, (I <= J < I + n)%nat /\ read_unmap Buffer J = Some (a, c) /\
    a * BL <= Z.of_nat i < (a + c) * BL.

Definition no_exceptions : Prop := forall (f : F) Dst m, (CopyException f Dst None m).1 = None.

(** One descriptor: whatever is outside it stays, and what is inside is cleared if its length is
    a 32-bit number and its pages can be written. *)
Lemma unmap_one f Buffer a c :
  disk_wf f -> in_range a c ->
  let '(SetZero, f1) :=
    if rd_Sparse RawDisk then
      SetZeroData f (s64 (u64 (a * BL))) (s64 (u64 (u64 (a + c) * BL)))
    else (false, f) in
  exists f', (if SetZero : bool then Some (f1, Buffer)
              else '(f, Buffer, _) ← CopyBuffer RawDisk f1 Buffer (AtFile (FileBuffer RawDisk a)) None
                     (u32 (c * BL)) SCSI_ADSENSE_NO_SENSE None;
                   Some (f, Buffer)) = Some (f', Buffer) /\
    length (View f') = length (View f) /\
    (forall i, Z.of_nat i < a * BL \/ (a + c) * BL <= Z.of_nat i -> View f' !! i = View f !! i) /\
    (no_exceptions -> c * BL < 2 ^ 32 ->
     forall i, a * BL <= Z.of_nat i < (a + c) * BL -> View f' !! i = Some 0).
Proof using HL.
  intros Hw Hr. destruct (range_offset f a c Hw Hr) as (-> & Ha0 & Hc0 & Hlen).
  destruct Hw as [HBL _ HV]. destruct Hr as (Ha & Hc & Hac).
  assert (s64 (u64 (a * BL)) = a * BL) as -> by (rewrite u64_small, s64_small by lia; lia).
  assert (s64 (u64 (u64 (a + c) * BL)) = (a + c) * BL) as ->.
  { assert (0 <= a + c <= Z.of_nat (length (View f))) by nia. rewrite (u64_small (a + c)) by lia.
    rewrite u64_small, s64_small by lia. lia. }
  assert (forall f1, length (View f1) = length (View f) ->
    (forall i, Z.of_nat i < a * BL \/ (a + c) * BL <= Z.of_nat i -> View f1 !! i = View f !! i) ->
    exists f' : F, ('(f, Buffer, _) ← CopyBuffer RawDisk f1 Buffer (AtFile (a * BL)) None (u32 (c * BL))
                   SCSI_ADSENSE_NO_SENSE None; Some (f, Buffer)) = Some (f', Buffer) /\
    length (View f') = length (View f) /\
    (forall i, Z.of_nat i < a * BL \/ (a + c) * BL <= Z.of_nat i -> View f' !! i = View f !! i) /\
    (no_exceptions -> c * BL < 2 ^ 32 ->
     forall i, a * BL <= Z.of_nat i < (a + c) * BL -> View f' !! i = Some 0)) as Hcopy.
  { intros f1 Hl1 Ho1. pose proof (u32_bound (c * BL)) as Hub.
    assert (u32 (c * BL) <= c * BL) as Hu by (apply Z.mod_le; lia).
    destruct (copy_write_spec f1 Buffer (a * BL) (u32 (c * BL)) None SCSI_ADSENSE_NO_SENSE None)
      as (f' & Status' & bs & -> & Hl & Hv & _ & _ & Hx); [lia..|by right|by left|].
    rewrite bind_value. exists f'. split; [done|]. pose proof (buf_write_length _ _ _ _ Hv) as Hl'.
    split; [lia|]. split.
    - intros i Hi. rewrite <- Ho1 by done. eapply buf_write_lookup_ne; [exact Hv|]. lia.
    - intros Hne Hs i Hi. destruct (Hx (Hne _ _ _)) as [_ Hbs]. cbn [copied] in Hbs. subst bs.
      rewrite u32_small in Hv by lia. erewrite buf_write_lookup; [|exact Hv|].
      + apply lookup_replicate_2. lia.
      + rewrite length_replicate. lia. }
  destruct (rd_Sparse RawDisk); [|by apply Hcopy].
  pose proof (set_zero_length f (a * BL) ((a + c) * BL)) as H1.
  pose proof (set_zero_outside f (a * BL) ((a + c) * BL)) as H2.
  pose proof (set_zero_inside f (a * BL) ((a + c) * BL)) as H3.
  destruct (SetZeroData f (a * BL) ((a + c) * BL)) as [[] f1]; cbn [fst snd] in *; [|by apply Hcopy].
  eexists. split; [reflexivity|]. split_and!; [done..|]. intros _ _ i Hi. apply H3; [done..|lia].
Qed.

Lemma unmap_loop_spec Buffer n I f :
  disk_wf f ->
  (forall J, (I <= J < I + n)%nat -> exists a c, read_unmap Buffer J = Some (a, c) /\ in_range a c) ->
  exists f', unmap_loop RawDisk n I f Buffer = Some (Buffer, f') /\
    length (View f') = length (View f) /\
    (forall i, View f' !! i = View f !! i \/ covered Buffer I n i) /\
    (no_exceptions ->
     (forall J a c, (I <= J < I + n)%nat -> read_unmap Buffer J = Some (a, c) -> c * BL < 2 ^ 32) ->
     forall i, covered Buffer I n i \/ View f !! i = Some 0 -> View f' !! i = Some 0).
Proof using HL.
  revert I f. induction n as [|n IH]; intros I f Hw Hd; cbn [unmap_loop].
  { exists f. split_and!; try done; [by left|]. intros _ _ i [(J & a & c & HJ & _)|]; [lia|done]. }
  destruct (Hd I ltac:(lia)) as (a & c & HI & Hr). rewrite HI, bind_value. fold BL.
  pose proof (unmap_one f Buffer a c Hw Hr) as H1.
  set (z := if rd_Sparse RawDisk then _ else _) in *. destruct z as [SetZero f1].
  destruct H1 as (f2 & -> & Hl2 & Ho2 & Hz2). rewrite bind_value.
  assert (disk_wf f2) as Hw2 by (destruct Hw; constructor; by rewrite ?Hl2).
  destruct (IH (S I) f2 Hw2) as (f' & -> & Hl & Ho & Hz); [intros J HJ; apply Hd; lia|].
  assert (forall i, covered Buffer (S I) n i -> covered Buffer I (S n) i) as Hcov.
  { intros i (J & a' & c' & HJ & Hi). exists J, a', c'. split; [lia|done]. }
  assert (forall i, a * BL <= Z.of_nat i < (a + c) * BL \/
    (Z.of_nat i < a * BL \/ (a + c) * BL <= Z.of_nat i)) as Hsplit by (intros; lia).
  exists f'. split; [done|]. split; [lia|]. split.
  - intros i. destruct (Ho i) as [->|Hi]; [|right; by apply Hcov].
    destruct (Hsplit i) as [Hi|Hi]; [right|left; by apply Ho2].
    exists I, a, c. split; [lia|done].
  - intros Hne Hs i Hi. apply Hz; [done|intros J a' c' HJ; apply Hs; lia|].
    destruct Hi as [(J & a' & c' & HJ & HR & Hi)|Hi].
    + destruct (decide (J = I)) as [->|].
      * rewrite HI in HR. injection HR as <- <-. right. apply Hz2; try done. eapply Hs; [|exact HI]. lia.
      * left. exists J, a', c'. split; [lia|done].
    + right. destruct (Hsplit i) as [Hin|Hout]; [|by rewrite Ho2].
      apply Hz2; try done. eapply Hs; [|exact HI]. lia.
Qed.

(** ** Histories *)

(** The storage device, as the dispatcher calls it. *)
Definition serve (f : F) (Buffer : list Z) (q : SPD_IOCTL_TRANSACT_REQ)
    : option (bool * list Z * SPD_IOCTL_STORAGE_UNIT_STATUS * F) :=
  dispatch_switch (RawDiskInterface RawDisk) f Buffer q ZeroStatus.

(** What a client knows of the contents of the blocks. *)
Definition known : Type := Z -> option (list Z).

Definition unmapped (Buffer : list Z) (c b : Z) : bool :=
  existsb (fun J => match read_unmap Buffer J with
                    | Some (a, n) => (a <=? b) && (b <? a + n)
                    | None => false
                    end) (seq 0 (Z.to_nat c)).

(** After a request, with the data and the status it had: what was written is known, and what was
    not written for an error, or unmapped, is not. *)
Definition remember (q : SPD_IOCTL_TRANSACT_REQ) (Buffer : list Z) (s : SPD_IOCTL_STORAGE_UNIT_STATUS)
    (K : known) : known := fun b =>
  match req_Op q with
  | OpWrite a n _ =>
      if (a <=? b) && (b <? a + n) then if good s then Some (chunk BL (b - a) Buffer) else None else K b
  | OpUnmap c => if unmapped Buffer c b then None else K b
  | _ => K b
  end.

(** The requests that a client has made, one after the other, whatever the file did to them. *)
Inductive disk_run (f0 : F) (K0 : known) : F -> known -> Prop :=
  | disk_start : disk_run f0 K0 f0 K0
  | disk_step f K q Buffer c Buffer' s f' :
      disk_run f0 K0 f K -> valid q Buffer ->
      serve f Buffer q = Some (c, Buffer', s, f') ->
      disk_run f0 K0 f' (remember q Buffer s K).

Definition knows (K : known) (f : F) : Prop :=
  forall b c, 0 <= b < rd_BlockCount RawDisk -> K b = Some c -> chunk BL b (View f) = c.

(** What a request answers, and what it does to the view. *)
Record served (f : F) (Buffer : list Z) (q : SPD_IOCTL_TRANSACT_REQ) (Buffer' : list Z)
    (s : SPD_IOCTL_STORAGE_UNIT_STATUS) (f' : F) : Prop := {
  sv_reported : reported s;
  sv_Buffer : length Buffer' = length Buffer;
  sv_wf : disk_wf f';
  sv_read a n fua : req_Op q = OpRead a n fua -> good s = true ->
    exists bs, buf_read (Z.to_nat (a * BL)) (Z.to_nat (n * BL)) (View f) = Some bs /\
      buf_write 0 bs Buffer = Some Buffer';
  sv_other : (forall a n fua, req_Op q <> OpRead a n fua) -> Buffer' = Buffer;
  sv_knows K : knows K f -> knows (remember q Buffer s K) f'
}.

Lemma disk_wf_view f f' : disk_wf f -> length (View f') = length (View f) -> disk_wf f'.
Proof using. intros [H1 H2 H3] E. constructor; by rewrite ?E. Qed.

Lemma knows_view K f f' : View f' = View f -> knows K f -> knows K f'.
Proof using. unfold knows. by intros ->. Qed.

Lemma unmapped_covered Buffer c b (i : nat) :
  unmapped Buffer c b = false -> 0 < BL -> 0 <= b -> b * BL <= Z.of_nat i < (b + 1) * BL ->
  ~ covered Buffer 0 (Z.to_nat c) i.
Proof using.
  intros Hu HBL Hb Hi (J & a & n & HJ & HR & Hin). unfold unmapped in Hu.
  assert (existsb (fun J => match read_unmap Buffer J with
                    | Some (a, n) => (a <=? b) && (b <? a + n) | None => false end)
            (seq 0 (Z.to_nat c)) = true) as Ht; [|congruence].
  apply existsb_exists. exists J. split; [apply in_seq; lia|]. rewrite HR.
  apply andb_true_iff. split; [apply Z.leb_le|apply Z.ltb_lt]; nia.
Qed.

Lemma serve_spec f Buffer q :
  disk_wf f -> valid q Buffer ->
  exists Buffer' s f', serve f Buffer q = Some (true, Buffer', s, f') /\ served f Buffer q Buffer' s f'.
Proof using HL.
  intros Hw Hv. unfold serve, dispatch_switch, valid in *.
  destruct q as [Hint Kind [|a n fua|a n fua|a n|c]]; cbn [req_Op req_Kind] in *; [done|..].
  - destruct Hv as (-> & Hr & Hn & HB).
    destruct (read_spec f Buffer a n fua Hw Hr Hn HB) as (B' & s & f' & E & HV & Hs & Hl & Hg).
    cbn [Read RawDiskInterface] in *. eexists _, _, _. split; [exact E|].
    constructor; try done; [apply (disk_wf_view f); [done|by rewrite HV]| |by intros H; destruct (H a n fua)|].
    + by intros a' n' fua' [= <- <- <-].
    + intros K. by apply knows_view.
  - destruct Hv as (-> & Hr & Hn & HB).
    destruct (write_spec f Buffer a n fua Hw Hr Hn HB) as (s & f' & bs & E & Hs & Hl & HW & Hg & _).
    cbn [Write RawDiskInterface] in *. eexists _, _, _. split; [exact E|].
    constructor; try done; [apply (disk_wf_view f); [done|by eapply buf_write_length]|].
    intros K HK b c Hb. unfold remember. cbn [req_Op]. destruct Hw as [HBL _ _], Hr as (Ha & Hn0 & _).
    destruct ((a <=? b) && (b <? a + n)) eqn:E1.
    + zify_bools. destruct (good s); [|done]. intros [= <-]. specialize (Hg eq_refl).
      rewrite (chunk_write_same BL a n bs _ _ b) by (done || lia).
      assert (buf_read (Z.to_nat (0 * BL)) (Z.to_nat (n * BL)) Buffer = Some bs) as Hg' by done.
      rewrite (chunk_read BL 0 n Buffer bs (b - a)) by (done || lia). by rewrite Z.add_0_l.
    + intros HKb. rewrite (chunk_write_other BL a n bs _ _ b) by (done || lia || (intros ?; lia)).
      by apply HK.
  - subst Kind. cbn [Flush RawDiskInterface]. unfold RawDiskFlush. rewrite bind_value.
    change (SpdIoctlTransactReadKind =? SpdIoctlTransactFlushKind) with false.
    change (SpdIoctlTransactWriteKind =? SpdIoctlTransactFlushKind) with false.
    change (SpdIoctlTransactFlushKind =? SpdIoctlTransactFlushKind) with true. cbv iota.
    destruct (flush_internal_spec f a n ZeroStatus) as (HV & Hc & _ & Hs & _).
    destruct (FlushInternal RawDisk f a n ZeroStatus) as [[c s] f']; cbn [fst snd] in *. subst c.
    eexists _, _, _. split; [reflexivity|].
    constructor; try done; [by apply Hs; left|apply (disk_wf_view f); [done|by rewrite HV]|..].
    intros K. by apply knows_view.
  - destruct Hv as (-> & Hd). cbn [Unmap RawDiskInterface]. unfold RawDiskUnmap.
    change (SpdIoctlTransactReadKind =? SpdIoctlTransactUnmapKind) with false.
    change (SpdIoctlTransactWriteKind =? SpdIoctlTransactUnmapKind) with false.
    change (SpdIoctlTransactFlushKind =? SpdIoctlTransactUnmapKind) with false.
    change (SpdIoctlTransactUnmapKind =? SpdIoctlTransactUnmapKind) with true. cbv iota.
    destruct (unmap_loop_spec Buffer (Z.to_nat c) 0 f Hw) as (f' & -> & Hl & Ho & _);
      [intros J HJ; apply Hd; lia|]. rewrite bind_value.
    eexists _, _, _. split; [reflexivity|].
    constructor; try done; [by left|by apply (disk_wf_view f)|].
    intros K HK b ct Hb. unfold remember. cbn [req_Op]. destruct (unmapped Buffer c b) eqn:E; [done|].
    intros HKb. rewrite <- (HK b ct Hb HKb). apply chunk_ext. intros i Hi.
    destruct (Ho (Z.to_nat (b * BL) + i)%nat) as [|Hcov]; [done|]. exfalso.
    destruct Hw as [HBL _ _]. revert Hcov. apply (unmapped_covered Buffer c b); try done; lia.
Qed.

Lemma disk_run_knows f0 K0 f K :
  disk_wf f0 -> knows K0 f0 -> disk_run f0 K0 f K -> disk_wf f /\ knows K f.
Proof using HL.
  intros Hw HK. induction 1 as [|f K q Buffer c Buffer' s f' Hr [IHw IHk] Hv Hs]; [done|].
  destruct (serve_spec f Buffer q IHw Hv) as (B & s1 & f1 & E & Hserved).
  rewrite E in Hs. injection Hs as <- <- <- <-. destruct Hserved. split; [done|]. by apply sv_knows0.
Qed.

(** C12: The storage device is a disk, whatever its file does: after any history of requests, a
    request in range is served without a fault, and reports success or an error of the medium; a
    read that reports success puts into its buffer, for each of its blocks, what was last written
    there with success, if no request since has failed to write the block or unmapped it, or what
    was there in the beginning; and nothing but a read changes the data buffer. *)
Theorem rawdisk_last_write f0 K0 f K q Buffer :
  disk_wf f0 -> knows K0 f0 -> disk_run f0 K0 f K -> valid q Buffer ->
  exists Buffer' s f', serve f Buffer q = Some (true, Buffer', s, f') /\
    reported s /\ length Buffer' = length Buffer /\
    ((forall a n fua, req_Op q <> OpRead a n fua) -> Buffer' = Buffer) /\
    forall a n fua, req_Op q = OpRead a n fua -> good s = true ->
      (forall k c, 0 <= k < n -> K (a + k) = Some c -> chunk BL k Buffer' = c) /\
      drop (Z.to_nat (n * BL)) Buffer' = drop (Z.to_nat (n * BL)) Buffer.
Proof using HL.
  intros Hw HK Hrun Hv. destruct (disk_run_knows f0 K0 f K Hw HK Hrun) as [Hwf HKf].
  destruct (serve_spec f Buffer q Hwf Hv) as (B & s & f' & E & [Hs Hl _ Hread Hoth _]).
  eexists _, _, _. split; [exact E|]. split_and!; try done.
  intros a n fua Hq Hg. destruct (Hread a n fua Hq Hg) as (bs & Hbs & HB).
  unfold valid in Hv. rewrite Hq in Hv. destruct Hv as (_ & (Ha & Hn & Hr) & _).
  destruct (buf_read_Some _ _ _ _ Hbs) as [Hlb _]. pose proof (dw_BlockLength _ Hwf).
  apply buf_write_inv in HB as [_ ->]. rewrite take_0. cbn [app]. split.
  - intros k c Hk HKk. rewrite <- (HKf (a + k) c) by (done || lia).
    rewrite <- (chunk_read BL a n (View f) bs k) by (done || lia). apply chunk_ext. intros i Hi.
    apply lookup_app_l. assert (k * BL + BL <= n * BL) by nia. nia.
  - rewrite drop_app_length' by lia. f_equal. lia.
Qed.

(** ** Durability *)

(** The medium has what the view has of a block. *)
Definition on_medium (f : F) (b : Z) : Prop := chunk BL b (Medium f) = chunk BL b (View f).

(** C29: What the storage device reports as flushed is on the medium: after a write that forces
    unit access and reports success, every block of its range; after a flush of a range of the
    disk that reports success, every block of the range if the range is shorter than 2^32 bytes,
    or if it has no blocks every block up to the end of the disk.  The code computes the length of
    a flush in 32 bits: of a range of 2^32 bytes or more only the blocks in the first bytes of the
    range, as many as its length modulo 2^32, are on the medium, or all up to the end of the disk
    if that is zero. *)
Theorem rawdisk_durable f Buffer q c Buffer' s f' :
  disk_wf f -> valid q Buffer -> serve f Buffer q = Some (c, Buffer', s, f') -> good s = true ->
  (forall a n fua b, req_Op q = OpWrite a n fua -> fua <> 0 -> a <= b < a + n -> on_medium f' b) /\
  (forall a n b, req_Op q = OpFlush a n -> in_range a n -> n * BL < 2 ^ 32 ->
     a <= b < (if n =? 0 then rd_BlockCount RawDisk else a + n) -> on_medium f' b) /\
  (forall a n b, req_Op q = OpFlush a n -> in_range a n -> a <= b < rd_BlockCount RawDisk ->
     u32 (n * BL) = 0 \/ (b + 1) * BL <= a * BL + u32 (n * BL) -> on_medium f' b).
Proof using HL.
  intros Hw Hv Hs Hg. pose proof (dw_BlockLength _ Hw) as HBL.
  assert (forall a n b, req_Op q = OpFlush a n -> in_range a n -> a <= b < rd_BlockCount RawDisk ->
     u32 (n * BL) = 0 \/ (b + 1) * BL <= a * BL + u32 (n * BL) -> on_medium f' b) as Hflush.
  { intros a n b Hq Hr Hb Hor. unfold serve, dispatch_switch, valid in *. destruct q as [Hint Kind op].
    cbn [req_Op req_Kind] in *. subst op Kind.
    change (('(c, s, d) ← RawDiskFlush RawDisk f a n ZeroStatus; Some (c, Buffer, s, d)) =
      Some (c, Buffer', s, f')) in Hs. unfold RawDiskFlush in Hs. rewrite bind_value in Hs.
    destruct (flush_internal_spec f a n ZeroStatus) as (HV & _ & _ & _ & HM).
    destruct (FlushInternal RawDisk f a n ZeroStatus) as [[c1 s1] f1]; cbn [fst snd] in *.
    injection Hs as <- <- <- <-. apply chunk_ext. intros i Hi. rewrite HV. pose proof Hr as (Ha & Hn0 & _).
    assert (0 <= b * BL) by nia. assert (a * BL <= b * BL) by nia.
    apply HM; try done; rewrite Nat2Z.inj_add, Z2Nat.id by lia; [lia|]. destruct Hor; [by left|right; lia]. }
  split_and!; [|intros a n b Hq Hr Hn Hb|done].
  - intros a n fua b Hq Hfua Hb. unfold serve, dispatch_switch, valid in *. destruct q as [Hint Kind op].
    cbn [req_Op req_Kind] in *. subst op. destruct Hv as (-> & Hr & Hn & HB).
    destruct (write_spec f Buffer a n fua Hw Hr Hn HB) as (s1 & f1 & bs & E & _ & _ & _ & _ & HM).
    change (RawDiskWrite RawDisk f Buffer a n fua ZeroStatus = Some (c, Buffer', s, f')) in Hs.
    rewrite E in Hs. injection Hs as <- <- <- <-. apply chunk_ext. intros i Hi.
    destruct Hr. apply HM; [done..|]. assert (0 <= b * BL) by nia. nia.
  - pose proof Hr as (Ha & Hn0 & Hr'). apply (Hflush a n b Hq Hr).
    + destruct (n =? 0); lia.
    + assert (0 <= n * BL) by nia. rewrite u32_small by lia.
      destruct (Z.eqb_spec n 0) as [->|]; [by left|right]. nia.
Qed.

(** ** Unmapped blocks *)

(** Unmapping clears: when the pages of the view can be written, every block of a descriptor
    of less than 2^32 bytes reads as zeros afterwards, whatever the other descriptors are, and
    other blocks stay.  The length is a 32-bit number, though: on a file that is not sparse, a
    descriptor of 2^32 bytes is reported as done and clears nothing. *)
Theorem rawdisk_unmap_clears f Buffer q k :
  disk_wf f -> valid q Buffer -> req_Op q = OpUnmap k -> no_exceptions ->
  exists f', serve f Buffer q = Some (true, Buffer, ZeroStatus, f') /\
    (forall b, 0 <= b -> unmapped Buffer k b = false -> chunk BL b (View f') = chunk BL b (View f)) /\
    ((forall J a n, (J < Z.to_nat k)%nat -> read_unmap Buffer J = Some (a, n) -> n * BL < 2 ^ 32) ->
     forall b, 0 <= b -> unmapped Buffer k b = true ->
       chunk BL b (View f') = replicate (Z.to_nat BL) 0) /\
    (k = 1 -> rd_Sparse RawDisk = false ->
     forall a n, read_unmap Buffer 0 = Some (a, n) -> n * BL = 2 ^ 32 -> View f' = View f).
Proof using HL.
  intros Hw Hv Hq Hne. pose proof (dw_BlockLength _ Hw) as HBL.
  destruct q as [Hint Kind op]. cbn [req_Op] in Hq. subst op. unfold valid in Hv. cbn [req_Op req_Kind] in Hv.
  destruct Hv as (-> & Hd). unfold serve, dispatch_switch. cbn [req_Op req_Kind Unmap RawDiskInterface].
  change (SpdIoctlTransactReadKind =? SpdIoctlTransactUnmapKind) with false.
  change (SpdIoctlTransactWriteKind =? SpdIoctlTransactUnmapKind) with false.
  change (SpdIoctlTransactFlushKind =? SpdIoctlTransactUnmapKind) with false.
  change (SpdIoctlTransactUnmapKind =? SpdIoctlTransactUnmapKind) with true. cbv iota.
  unfold RawDiskUnmap.
  destruct (unmap_loop_spec Buffer (Z.to_nat k) 0 f Hw) as (f' & E & Hl & Ho & Hz);
    [intros J HJ; apply Hd; lia|]. rewrite E, bind_value. exists f'. split; [done|]. split; [|split].
  - intros b Hb Hu. apply chunk_ext. intros i Hi.
    destruct (Ho (Z.to_nat (b * BL) + i)%nat) as [|Hcov]; [done|]. exfalso. revert Hcov.
    apply (unmapped_covered Buffer k b); try done; lia.
  - intros Hs b Hb Hu. apply existsb_exists in Hu as (J & HJ & Hin). apply in_seq in HJ.
    destruct (read_unmap Buffer J) as [[a n]|] eqn:HR; [|done]. zify_bools.
    apply list_eq. intros i. destruct (decide (i < Z.to_nat BL)%nat) as [Hi|Hi].
    + rewrite chunk_lookup by done. rewrite lookup_replicate_2 by done. apply Hz; [done| |].
      * intros J' a' n' HJ'. apply Hs. lia.
      * left. exists J, a, n. split; [lia|]. split; [done|]. assert (0 <= b * BL) by nia. nia.
    + unfold chunk. rewrite lookup_take_ge by lia. symmetry. apply lookup_replicate_None. lia.
  - intros -> HSp a n HR HL32. change (Z.to_nat 1) with 1%nat in *. cbn [unmap_loop] in E.
    rewrite HR, bind_value, HSp in E. fold BL in E. rewrite HL32 in E. change (u32 (2 ^ 32)) with 0 in E.
    destruct (Hd 0%nat ltac:(lia)) as (a' & n' & HR' & Hr). rewrite HR in HR'. injection HR' as <- <-.
    destruct (range_offset f a n Hw Hr) as (Eo & Ha0 & _ & Hlen). rewrite Eo in E.
    destruct (copy_write_spec f Buffer (a * BL) 0 None SCSI_ADSENSE_NO_SENSE None)
      as (f1 & St & bs & E1 & Hlb & HW & _); [lia..|by right|by left|].
    rewrite E1, !bind_value in E. injection E as <-.
    apply nil_length_inv in Hlb. subst bs. apply buf_write_inv in HW as [_ HW]. rewrite HW. cbn [app length].
    by rewrite Nat.add_0_r, take_drop.
Qed.
End RawDisk.

(** ** A concrete file *)

(** A file whose view is written through, with the in-page errors that are still to come; a quiet
    one has none. *)
Record PLAIN := mkPlain { pf_View : list Z; pf_Medium : list Z; pf_Faults : list bool }.

Definition plain_file (quiet : bool) : MappedFile PLAIN := {|
  View := pf_View;
  Written := pf_View;
  Medium := pf_Medium;
  SetView f v := mkPlain v (pf_Medium f) (pf_Faults f);
  CopyException f Dst Src n :=
    if quiet then (None, f) else
    match pf_Faults f with
    | [] => (None, f)
    | true :: l => (Some (replicate (Z.to_nat n) 0xee, 0x10004), mkPlain (pf_View f) (pf_Medium f) l)
    | false :: l => (None, mkPlain (pf_View f) (pf_Medium f) l)
    end;
  FlushViewOfFile f off n := (true, f);
  FlushFileBuffers f := (true, mkPlain (pf_View f) (pf_View f) (pf_Faults f));
  SetZeroData f a b :=
    (true, mkPlain (imap (fun i x => if (a <=? Z.of_nat i) && (Z.of_nat i <? b) then 0 else x) (pf_View f))
             (pf_Medium f) (pf_Faults f))
|}.

Lemma plain_file_laws quiet : @MappedFileLaws PLAIN (plain_file quiet).
Proof.
  constructor; cbn [View Written Medium SetView CopyException FlushViewOfFile FlushFileBuffers
    SetZeroData plain_file fst snd pf_View pf_Medium]; try done.
  - intros f Dst Src n. destruct quiet; [done|]. by destruct (pf_Faults f) as [|[] l].
  - intros f Dst Src n bs a. destruct quiet; [done|]. destruct (pf_Faults f) as [|[] l]; cbn [fst]; try done.
    intros [= <- <-]. by rewrite length_replicate.
  - intros f a b. by rewrite length_imap.
  - intros f a b i Hi. rewrite list_lookup_imap.
    assert ((a <=? Z.of_nat i) && (Z.of_nat i <? b) = false) as -> by lia.
    by destruct (pf_View f !! i).
  - intros f a b i _ Hi [x Hx]%lookup_lt_is_Some. rewrite list_lookup_imap.
    assert ((a <=? Z.of_nat i) && (Z.of_nat i <? b) = true) as -> by lia. by rewrite Hx.
Qed.

(** A disk of four blocks of four bytes. *)
Definition example_rawdisk : RAWDISK :=
  mkRawDisk (mkStorageUnit (mkParams (mkGUID 0 0 0 []) 4 4 [] [] 0 false true true false 8)
    8 0 0 0 0 0 0) 4 4 12 16 0x10000 false.

Definition example_file (faults : list bool) : PLAIN := mkPlain (seqZ 0 16) (seqZ 0 16) faults.

Lemma example_disk_wf quiet faults : @disk_wf PLAIN (plain_file quiet) example_rawdisk (example_file faults).
Proof.
  constructor; [vm_compute; by split|vm_compute; discriminate|].
  split; [vm_compute; discriminate|vm_compute; reflexivity].
Qed.

(** Block 1 is written, then block 2 with an error; a read of all has the first and, of the
    blocks that were not written, what they had in the beginning. *)
Lemma rawdisk_last_write_witness :
  let K0 : known := fun b => if (0 <=? b) && (b <? 4) then Some (seqZ (b * 4) 4) else None in
  let W a := mkReq 5 SpdIoctlTransactWriteKind (OpWrite a 1 0) in
  let R := mkReq 6 SpdIoctlTransactReadKind (OpRead 0 4 0) in
  let B := seqZ 100 16 in
  exists f K Buffer' s f', @disk_run PLAIN (plain_file false) example_rawdisk (example_file [false; true]) K0 f K /\
    @serve PLAIN (plain_file false) example_rawdisk f B R = Some (true, Buffer', s, f') /\
    good s = true /\ K 2 = None /\ chunk 4 1 Buffer' = [100; 101; 102; 103] /\
    chunk 4 3 Buffer' = [12; 13; 14; 15].
Proof.
  intros K0 W R B.
  assert (exists f K, @disk_run PLAIN (plain_file false) example_rawdisk (example_file [false; true]) K0 f K /\
    K 1 = Some [100; 101; 102; 103] /\ K 2 = None /\ K 3 = Some [12; 13; 14; 15] /\
    (forall x, @serve PLAIN (plain_file false) example_rawdisk f B R = Some x -> good x.1.2 = true))
    as (f & K & Hrun & HK1 & HK2 & HK3 & Hg).
  { eexists _, _. split.
    - eapply (disk_step _ _ _ _ _ (W 2) B).
      + eapply (disk_step _ _ _ _ _ (W 1) B); [apply disk_start| |vm_compute; reflexivity].
        vm_compute. repeat split; discriminate.
      + vm_compute. repeat split; discriminate.
      + vm_compute. reflexivity.
    - split_and!; try (vm_compute; reflexivity). intros x. vm_compute. by intros [= <-]. }
  destruct (fun HK Hv => @rawdisk_last_write PLAIN (plain_file false) (plain_file_laws false) example_rawdisk
    (example_file [false; true]) K0 f K R B (example_disk_wf _ _) HK Hrun Hv)
    as (B' & s & f' & Hs & _ & _ & _ & Hr).
  - intros b c Hb. unfold K0. change (rd_BlockCount example_rawdisk) with 4 in Hb.
    assert (b = 0 \/ b = 1 \/ b = 2 \/ b = 3) as [->|[->|[->| ->]]] by lia; by intros [= <-].
  - vm_compute. repeat split; discriminate.
  - exists f, K, B', s, f'. specialize (Hg _ Hs). cbn [fst snd] in Hg.
    destruct (Hr 0 4 0 eq_refl Hg) as [Hk _].
    split; [exact Hrun|]. split; [exact Hs|]. split; [exact Hg|]. split; [exact HK2|].
    split; [apply (Hk 1 _ ltac:(lia) HK1)|apply (Hk 3 _ ltac:(lia) HK3)].
Defined.

Lemma rawdisk_durable_witness :
  let q := mkReq 5 SpdIoctlTransactWriteKind (OpWrite 1 2 1) in
  exists f', @serve PLAIN (plain_file false) example_rawdisk (example_file []) (seqZ 100 16) q =
      Some (true, seqZ 100 16, ZeroStatus, f') /\
    chunk 4 2 (@Medium PLAIN (plain_file false) f') = [104; 105; 106; 107].
Proof.
  intros q. eexists. split; [vm_compute; reflexivity|].
  destruct (@rawdisk_durable PLAIN (plain_file false) (plain_file_laws false) example_rawdisk (example_file [])
    (seqZ 100 16) q true (seqZ 100 16) ZeroStatus _ (example_disk_wf _ _)
    ltac:(vm_compute; repeat split; discriminate) ltac:(vm_compute; reflexivity) eq_refl) as (Hm & _ & _).
  etransitivity; [apply (Hm 1 2 1 2); [reflexivity|discriminate|vm_compute; split; [discriminate|reflexivity]]|].
  vm_compute. reflexivity.
Defined.

(** A flush of one block more than 4 GB is that of one block. *)
Lemma flush_cut {F} `{MappedFile F} RawDisk f a s :
  rd_BlockLength RawDisk = 512 -> FlushInternal RawDisk f a (2 ^ 23 + 1) s = FlushInternal RawDisk f a 1 s.
Proof. intros HBL. unfold FlushInternal. by rewrite HBL. Qed.

(** A list of two descriptors: block 2, then blocks 0 and 1. *)
Lemma rawdisk_unmap_clears_witness :
  let B := concat [[2; 0; 0; 0; 0; 0; 0; 0; 1; 0; 0; 0; 0; 0; 0; 0];
                   [0; 0; 0; 0; 0; 0; 0; 0; 2; 0; 0; 0; 0; 0; 0; 0]] in
  let q := mkReq 5 SpdIoctlTransactUnmapKind (OpUnmap 2) in
  exists f', @serve PLAIN (plain_file true) example_rawdisk (example_file []) B q =
      Some (true, B, ZeroStatus, f') /\
    chunk 4 1 (pf_View f') = [0; 0; 0; 0] /\ chunk 4 3 (pf_View f') = [12; 13; 14; 15].
Proof.
  intros B q.
  destruct (@rawdisk_unmap_clears PLAIN (plain_file true) (plain_file_laws true) example_rawdisk
    (example_file []) B q 2) as (f' & Hs & Ho & Hz & _).
  - apply example_disk_wf.
  - split; [reflexivity|]. intros J HJ. change (Z.to_nat 2) with 2%nat in HJ.
    assert (J = 0 \/ J = 1)%nat as [->| ->] by lia; eexists _, _;
      (split; [vm_compute; reflexivity|]; vm_compute; repeat split; discriminate).
  - reflexivity.
  - intros f Dst m. reflexivity.
  - exists f'. split; [exact Hs|]. split.
    + apply Hz; [|lia|vm_compute; reflexivity]. intros J a n HJ HR.
      change (Z.to_nat 2) with 2%nat in HJ.
      assert (J = 0 \/ J = 1)%nat as [->| ->] by lia; vm_compute in HR; injection HR as <- <-; reflexivity.
    + transitivity (chunk 4 3 (seqZ 0 16)); [|vm_compute; reflexivity].
      apply (Ho 3); [lia|vm_compute; reflexivity].
Defined.
