(* ===== verification/RawDiskCreate.v ===== *)
(** * The life of the storage device of the test suite: [tst/rawdisk/rawdisk.c], second part

    What creating a disk takes from the system, what a failure gives back, and what deleting the
    disk gives back.  What the system answers is an argument. *)

From S2P Require Import Prelude Wdk IoctlTypes UnitHandle Mbr Dispatcher RawDisk RawDiskProps.

(** ** Data *)

(** What the process has from the system. *)
Inductive OBJECT :=
  | ObjMemory (P : Z)
  | ObjHandle (Handle : Z)
  | ObjView (Pointer : Z).

#[export] Instance OBJECT_eq_dec : EqDecision OBJECT.
Proof. solve_decision. Defined.

(** The answers to the calls of [RawDiskCreate], in their order.  [GetLastError] is asked only
    after the call that fails. *)
Record CREATE_ANSWERS (F : Type) := mkCreate {
  cr_UuidCreate : GUID;
  cr_WideCharToMultiByte : list Z -> Z -> option (list Z);
  cr_malloc : Z;
  cr_CreateFile : Z;
  cr_SetSparse : bool;
  cr_GetFileSizeEx : option Z;
  cr_SetEndOfFile : bool;
  cr_CreateFileMapping : Z;
  cr_MapViewOfFile : Z * F;
  cr_LastError : Z;
  cr_TlsAlloc : Z;
  cr_UnitAlloc : bool
}.
Arguments mkCreate {F} _ _ _ _ _ _ _ _ _ _ _ _.
Arguments cr_UuidCreate {F} _.
Arguments cr_WideCharToMultiByte {F} _.
Arguments cr_malloc {F} _.
Arguments cr_CreateFile {F} _.
Arguments cr_SetSparse {F} _.
Arguments cr_GetFileSizeEx {F} _.
Arguments cr_SetEndOfFile {F} _.
Arguments cr_CreateFileMapping {F} _.
Arguments cr_MapViewOfFile {F} _.
Arguments cr_LastError {F} _.
Arguments cr_TlsAlloc {F} _.
Arguments cr_UnitAlloc {F} _.

Section Create.
Context {W F : Type} {HW : UnitHandle W} {HF : MappedFile F}.

(** ** Creation *)

(** The code at [exit].  [StorageUnit] is still null there whenever there is an error. *)
Definition create_exit (os : list OBJECT) (Error RawDisk Handle Mapping Pointer : Z)
    : option (list OBJECT) :=
  if ERROR_SUCCESS =? Error then Some os
  else
    os ← (if 0 =? Pointer then Some os else take_away (ObjView Pointer) os);
    os ← (if 0 =? Mapping then Some os else take_away (ObjHandle Mapping) os);
    os ← (if INVALID_HANDLE_VALUE =? Handle then Some os else take_away (ObjHandle Handle) os);
    if 0 =? RawDisk then Some os else take_away (ObjMemory RawDisk) os.

(** The name in a field of [Size] bytes that was zeroed. *)
Definition name_field (a : CREATE_ANSWERS F) (Name : list Z) (Size : nat) : option (option (list Z)) :=
  match cr_WideCharToMultiByte a Name (Z.of_nat Size) with
  | None => Some None
  | Some bs => b ← buf_write 0 bs (replicate Size 0); Some (Some b)
  end.

(** The partition of a new disk, written through the view; an exception there is not handled. *)
Definition create_partition (f : F) (BlockCount BlockLength : Z) : option F :=
  BlockAddress ← (if 4096 >=? BlockLength then
                    if 0 =? BlockLength then None else Some (4096 / BlockLength)
                  else Some 1);
  let Partition := mkPartition 7 0 BlockAddress (u64 (BlockCount - BlockAddress)) in
  match CopyException f (AtFile 0) None 512 with
  | (Some _, _) => None
  | (None, f) =>
      '(err, v) ← SpdDefinePartitionTable [Partition] 1 (View f);
      let f := SetView f v in
      if ERROR_SUCCESS =? err then
        let '(_, f) := FlushViewOfFile f 0 0 in let '(_, f) := FlushFileBuffers f in Some f
      else Some f
  end.

(** [RawDiskCreate]: the error, and the address of the disk with the disk and its file. *)
Definition RawDiskCreate (os : list OBJECT) (w : W) (t : TLS) (a : CREATE_ANSWERS F)
    (BlockCount BlockLength : Z) (ProductId ProductRevision : list Z)
    (WriteProtected CacheSupported UnmapSupported : bool) (PipeName : option (list Z))
    : option (Z * option (Z * RAWDISK * F) * list OBJECT * W * TLS) :=
  let exit os Error RawDisk Handle Mapping Pointer w t :=
    os ← create_exit os Error RawDisk Handle Mapping Pointer; Some (Error, None, os, w, t) in
  ProductId ← name_field a ProductId 16;
  match ProductId with
  | None => exit os ERROR_INVALID_PARAMETER 0 INVALID_HANDLE_VALUE 0 0 w t
  | Some ProductId =>
  ProductRevision ← name_field a ProductRevision 4;
  match ProductRevision with
  | None => exit os ERROR_INVALID_PARAMETER 0 INVALID_HANDLE_VALUE 0 0 w t
  | Some ProductRevision =>
  let Params := mkParams (cr_UuidCreate a) BlockCount BlockLength ProductId ProductRevision 0
                  WriteProtected CacheSupported UnmapSupported false (64 * 1024) in
  let RawDisk := cr_malloc a in
  if 0 =? RawDisk then exit os ERROR_NOT_ENOUGH_MEMORY 0 INVALID_HANDLE_VALUE 0 0 w t
  else
  let os := ObjMemory RawDisk :: os in
  let Handle := cr_CreateFile a in
  if INVALID_HANDLE_VALUE =? Handle then exit os (cr_LastError a) RawDisk Handle 0 0 w t
  else
  let os := ObjHandle Handle :: os in
  match cr_GetFileSizeEx a with
  | None => exit os (cr_LastError a) RawDisk Handle 0 0 w t
  | Some FileSize =>
  let ZeroSize := 0 =? FileSize in
  let FileSize := if ZeroSize then s64 (u64 (BlockCount * BlockLength)) else FileSize in
  if (0 =? FileSize) || negb (u64 (BlockCount * BlockLength) =? u64 FileSize)
  then exit os ERROR_INVALID_PARAMETER RawDisk Handle 0 0 w t
  else if negb (cr_SetEndOfFile a) then exit os (cr_LastError a) RawDisk Handle 0 0 w t
  else
  let Mapping := cr_CreateFileMapping a in
  if 0 =? Mapping then exit os (cr_LastError a) RawDisk Handle 0 0 w t
  else
  let os := ObjHandle Mapping :: os in
  let '(Pointer, f) := cr_MapViewOfFile a in
  if 0 =? Pointer then exit os (cr_LastError a) RawDisk Handle Mapping 0 w t
  else
  let os := ObjView Pointer :: os in
  f ← (if ZeroSize then create_partition f BlockCount BlockLength else Some f);
  '(err, StorageUnit, w, t) ← SpdStorageUnitCreate w t PipeName Params (cr_TlsAlloc a) (cr_UnitAlloc a);
  match StorageUnit with
  | Some StorageUnit =>
      Some (ERROR_SUCCESS,
            Some (RawDisk, mkRawDisk StorageUnit BlockCount BlockLength Handle Mapping Pointer
                             (cr_SetSparse a), f), os, w, t)
  | None => exit os err RawDisk Handle Mapping Pointer w t
  end
  end
  end
  end.

(** ** Deletion *)

(** [RawDiskDelete], of the disk at the address [P]. *)
Definition RawDiskDelete (os : list OBJECT) (w : W) (t : TLS) (P : Z) (RawDisk : RAWDISK) (f : F)
    : option (list OBJECT * W * TLS * F) :=
  '(w, t) ← SpdStorageUnitDelete w t (rd_StorageUnit RawDisk);
  let '(_, f) := FlushViewOfFile f 0 0 in
  let '(_, f) := FlushFileBuffers f in
  os ← take_away (ObjView (rd_Pointer RawDisk)) os;
  os ← take_away (ObjHandle (rd_Mapping RawDisk)) os;
  os ← take_away (ObjHandle (rd_Handle RawDisk)) os;
  os ← take_away (ObjMemory P) os;
  Some (os, w, t, f).
End Create.

(** ** Lemmas *)

(** The end of a creation that failed. *)
Lemma create_exit_some os Error P H M V :
  Error <> ERROR_SUCCESS ->
  create_exit ((if 0 =? V then [] else [ObjView V]) ++ (if 0 =? M then [] else [ObjHandle M]) ++
    (if INVALID_HANDLE_VALUE =? H then [] else [ObjHandle H]) ++
    (if 0 =? P then [] else [ObjMemory P]) ++ os) Error P H M V = Some os.
Proof.
  intros HE. unfold create_exit. rewrite (proj2 (Z.eqb_neq ERROR_SUCCESS Error)) by congruence.
  destruct (0 =? V), (0 =? M), (INVALID_HANDLE_VALUE =? H), (0 =? P); cbn [app];
    rewrite ?take_away_head, ?bind_value, ?take_away_head, ?bind_value, ?take_away_head, ?bind_value, ?take_away_head; done.
Qed.

(** A partition table in a buffer that is longer than a block. *)
Lemma partitions_write_app n I Ps B B' rest :
  partitions_write n I Ps B = Some B' -> partitions_write n I Ps (B ++ rest) = Some (B' ++ rest).
Proof.
  revert I B. induction n as [|n IH]; intros I B; cbn [partitions_write]; [by intros [= ->]|].
  intros (P & HP & (B1 & HB & Hr)%bind_Some)%bind_Some. rewrite HP, bind_value.
  rewrite (buf_write_app _ _ _ _ rest HB), bind_value. by apply IH.
Qed.

Lemma define_partition_table_app Ps n B err B' rest :
  SpdDefinePartitionTable Ps n B = Some (err, B') ->
  SpdDefinePartitionTable Ps n (B ++ rest) = Some (err, B' ++ rest).
Proof.
  unfold SpdDefinePartitionTable. destruct (4 <? n); [by intros [= <- <-]|].
  intros ([] & Hc & H)%bind_Some; rewrite Hc, bind_value; cbn [negb] in *; [|by injection H as <- <-].
  apply bind_Some in H as (B1 & H1 & H). apply bind_Some in H as (B2 & H2 & H). injection H as <- <-.
  rewrite (buf_write_app _ _ _ _ rest H1), bind_value.
  by rewrite (partitions_write_app _ _ _ _ _ rest H2), bind_value.
Qed.

(** The table of one partition. *)
Lemma define_one_partition P B :
  partition_wf P -> (512 <= length B)%nat ->
  exists err v, SpdDefinePartitionTable [P] 1 B = Some (err, v) /\ length v = length B /\
    (forall i, (512 <= i)%nat -> v !! i = B !! i) /\
    (partition_fits P -> err = ERROR_SUCCESS /\
       read_entry 0 v = Some (Active P, Type_ P, chs_clamped (BlockAddress P),
         chs_clamped (BlockAddress P + BlockCount P), BlockAddress P, BlockCount P)).
Proof.
  intros HP HB. rewrite <- (take_drop 512 B). set (B0 := take 512 B). set (rest := drop 512 B).
  assert (length B0 = 512%nat) as HB0 by (subst B0; rewrite length_take; lia).
  destruct (partitions_check_spec 1 0 [P]) as (b & Hb & Hfit); [by constructor|simpl; lia|].
  change (take 1 (drop 0 [P])) with [P] in Hfit. rewrite Forall_singleton in Hfit.
  assert (exists err v, SpdDefinePartitionTable [P] 1 B0 = Some (err, v) /\ length v = 512%nat /\
    (partition_fits P -> err = ERROR_SUCCESS /\
       read_entry 0 v = Some (Active P, Type_ P, chs_clamped (BlockAddress P),
         chs_clamped (BlockAddress P + BlockCount P), BlockAddress P, BlockCount P)))
    as (err & v & Hd & Hl & Hr).
  { unfold SpdDefinePartitionTable. change (4 <? 1) with false. cbv iota. change (Z.to_nat 1) with 1%nat.
    rewrite Hb, bind_value. destruct b; cbn [negb].
    - assert (buf_write 0 SpdMbr B0 = Some SpdMbr) as ->.
      { rewrite buf_write_Some by (rewrite HB0; vm_compute; lia).
        rewrite drop_ge by (rewrite HB0; vm_compute; lia). by rewrite take_0, app_nil_r. }
      rewrite bind_value.
      destruct (partitions_write_spec 1 0 [P] SpdMbr) as (B' & -> & HL & _ & Hin);
        [by constructor|constructor; [by apply Hfit|constructor]|simpl; lia|lia|done|].
      rewrite bind_value. eexists _, B'. split; [done|]. split; [done|]. intros _.
      split; [done|]. apply (Hin 0%nat P); [lia|done].
    - eexists _, _. split; [done|]. split; [done|]. intros Hf. by apply Hfit in Hf. }
  exists err, (v ++ rest). split; [by apply define_partition_table_app|].
  split; [by rewrite !length_app, Hl, HB0|]. split.
  - intros i Hi. rewrite !lookup_app_r by lia. by rewrite Hl, HB0.
  - intros Hf. destruct (Hr Hf) as [-> Hre]. split; [done|]. rewrite <- Hre.
    unfold read_entry. rewrite (buf_read_app _ _ v rest); [done|]. rewrite Hl. simpl. lia.
Qed.

(** ** Properties *)

Section CreateProps.
Context {W F : Type} {HW : UnitHandle W} {HF : MappedFile F} {HL : MappedFileLaws F}.

(** What the system guarantees about its answers, for a disk of [bc] blocks of [bl] bytes. *)
Record answers_wf (a : CREATE_ANSWERS F) (bc bl : Z) : Prop := {
  aw_params : 0 <= bc < 2 ^ 32 /\ 0 <= bl < 2 ^ 32;
  aw_names n k bs : 0 <= k -> cr_WideCharToMultiByte a n k = Some bs -> Z.of_nat (length bs) <= k;
  aw_error : cr_LastError a <> ERROR_SUCCESS;
  aw_size sz : cr_GetFileSizeEx a = Some sz -> 0 <= sz < 2 ^ 63;
  aw_view : fst (cr_MapViewOfFile a) <> 0 ->
    let f := snd (cr_MapViewOfFile a) in
    bc * bl <= Z.of_nat (length (View f)) < 2 ^ 63 /\ (512 <= length (View f))%nat /\
    (CopyException f (AtFile 0) None 512).1 = None;
  aw_open w n P : is_Some (HandleOpen (W := W) w n P)
}.

(** The first block of the partition of a new disk. *)
Definition partition_start (bl : Z) : Z := if 4096 >=? bl then 4096 / bl else 1.

Lemma name_field_some a bc bl n k :
  answers_wf a bc bl -> exists r, name_field a n k = Some r.
Proof using.
  intros Ha. unfold name_field. destruct (cr_WideCharToMultiByte a n (Z.of_nat k)) as [bs|] eqn:E; [|by eexists].
  apply (aw_names _ _ _ Ha) in E; [|lia].
  destruct (proj2 (buf_write_is_Some 0 bs (replicate k 0))) as [b ->]; [rewrite length_replicate; lia|].
  rewrite bind_value. by eexists.
Qed.

(** The test of the size of the file. *)
Lemma size_check bc bl sz :
  0 <= bc < 2 ^ 32 -> 0 <= bl < 2 ^ 32 -> 0 <= sz < 2 ^ 63 ->
  (let FileSize := if 0 =? sz then s64 (u64 (bc * bl)) else sz in
   (0 =? FileSize) || negb (u64 (bc * bl) =? u64 FileSize)) = false ->
  0 < bc * bl /\ (sz <> 0 -> sz = bc * bl).
Proof using.
  intros Hbc Hbl Hsz. assert (0 <= bc * bl < 2 ^ 64) as Hm by nia. rewrite (u64_small _ Hm).
  intros [E1 E2]%orb_false_iff. zify_bools. destruct (Z.eqb_spec 0 sz) as [<-|Hne].
  - split; [|done]. destruct (decide (bc * bl = 0)) as [E|]; [|lia]. rewrite E in E1. by destruct E1.
  - rewrite u64_small in E2 by lia. lia.
Qed.

(** A new disk: only its first 512 bytes change, and they have its partition. *)
Lemma create_partition_spec f bc bl :
  0 <= bc < 2 ^ 32 -> 0 < bl < 2 ^ 32 -> (512 <= length (View f))%nat ->
  (CopyException f (AtFile 0) None 512).1 = None ->
  exists f', create_partition f bc bl = Some f' /\ length (View f') = length (View f) /\
    (forall i, (512 <= i)%nat -> View f' !! i = View f !! i) /\
    (partition_start bl < bc -> read_entry 0 (View f') =
       Some (0, 7, chs_clamped (partition_start bl), chs_clamped bc, partition_start bl,
             bc - partition_start bl)).
Proof using HL.
  intros Hbc Hbl Hv HX. unfold create_partition.
  assert ((if 4096 >=? bl then if 0 =? bl then None else Some (4096 / bl) else Some 1)
    = Some (partition_start bl)) as ->.
  { unfold partition_start. rewrite (proj2 (Z.eqb_neq 0 bl)) by lia. by destruct (4096 >=? bl). }
  rewrite bind_value.
  assert (1 <= partition_start bl <= 4096) as Hps.
  { unfold partition_start. destruct (4096 >=? bl) eqn:E; [|lia]. rewrite Z.geb_leb in E. zify_bools.
    split; [apply Z.div_le_lower_bound; lia|apply Z.div_le_upper_bound; nia]. }
  pose proof (copy_exception_view f (AtFile 0) None 512) as HV.
  destruct (CopyException f (AtFile 0) None 512) as [[[bs x]|] f1]; [done|]. cbn [fst snd] in *.
  set (P := mkPartition _ _ _ _).
  destruct (define_one_partition P (View f1)) as (err & v & Hd & Hl & Ho & Hr).
  { split_and!; cbn [Type_ Active BlockAddress BlockCount P]; try (unfold is_byte; lia); apply u64_bound. }
  { by rewrite HV. }
  rewrite Hd, bind_value.
  assert (forall f' : F, View f' = v -> length (View f') = length (View f) /\
    (forall i, (512 <= i)%nat -> View f' !! i = View f !! i) /\
    (partition_start bl < bc -> read_entry 0 (View f') =
       Some (0, 7, chs_clamped (partition_start bl), chs_clamped bc, partition_start bl,
             bc - partition_start bl))) as Hall.
  { intros f' ->. rewrite <- HV. split_and!; try done. intros Hlt.
    assert (BlockCount P = bc - partition_start bl) as EB
      by (cbn [P BlockCount]; rewrite u64_small by lia; lia).
    destruct Hr as [_ ->].
    - split; rewrite EB; [lia|]. cbn [P BlockAddress]. lia.
    - rewrite EB. cbn [P BlockAddress Active Type_]. by replace (partition_start bl + (bc - partition_start bl)) with bc by lia. }
  destruct (ERROR_SUCCESS =? err); [|eexists; split; [reflexivity|]; apply Hall, view_set].
  pose proof (flush_view_view (SetView f1 v) 0 0) as H1.
  destruct (FlushViewOfFile (SetView f1 v) 0 0) as [c1 f2]. cbn [snd] in H1.
  pose proof (flush_buffers_view f2) as H2. destruct (FlushFileBuffers f2) as [c2 f3]. cbn [snd] in H2.
  eexists. split; [reflexivity|]. apply Hall. by rewrite H2, H1, view_set.
Qed.

(** Creating a unit: the error, and the count of the users of the thread-local storage. *)
Lemma storage_unit_create_spec w t PipeName Params key alloc :
  (forall w n P, is_Some (HandleOpen (W := W) w n P)) -> 0 <= SpdStorageUnitTlsCount t < 2 ^ 32 ->
  exists err u w' t', SpdStorageUnitCreate w t PipeName Params key alloc = Some (err, u, w', t') /\
    match u with
    | Some u => err = ERROR_SUCCESS /\ StorageUnitParams u = Params
    | None => err <> ERROR_SUCCESS /\ SpdStorageUnitTlsCount t' = SpdStorageUnitTlsCount t
    end.
Proof using.
  intros Ho Ht. unfold SpdStorageUnitCreate.
  assert (forall err (w : W), err <> ERROR_SUCCESS -> exists err' u w' t',
    Some (err, @None SPD_STORAGE_UNIT, w, fst (SpdStorageUnitTlsFini (SpdStorageUnitTlsInit t key)))
      = Some (err', u, w', t') /\
    match u with
    | Some u => err' = ERROR_SUCCESS /\ StorageUnitParams u = Params
    | None => err' <> ERROR_SUCCESS /\ SpdStorageUnitTlsCount t' = SpdStorageUnitTlsCount t
    end) as Hfail.
  { intros err w1 He. eexists _, _, _, _. split; [reflexivity|]. split; [done|].
    unfold SpdStorageUnitTlsFini, SpdStorageUnitTlsInit. cbn [SpdStorageUnitTlsCount].
    assert (u32 (u32 (SpdStorageUnitTlsCount t + 1) - 1) = SpdStorageUnitTlsCount t) as E
      by (unfold u32; rewrite Zminus_mod_idemp_l, Z.add_simpl_r; apply Z.mod_small; lia).
    case_match; cbn [fst SpdStorageUnitTlsCount]; exact E. }
  destruct (TLS_OUT_OF_INDEXES =? _); [by apply Hfail|]. destruct alloc; cbn [negb]; [|by apply Hfail].
  destruct (Ho w (default SPD_IOCTL_HARDWARE_ID PipeName) Params) as [[[[err H] B] w1] ->].
  rewrite bind_value. destruct (Z.eqb_spec ERROR_SUCCESS err) as [<-|He]; cbn [negb].
  - by eexists _, _, _, _.
  - apply Hfail. congruence.
Qed.

(** What a creation ends with. *)
Definition created (os : list OBJECT) (t : TLS) (a : CREATE_ANSWERS F) (bc bl : Z)
    (err : Z) (r : option (Z * RAWDISK * F)) (os' : list OBJECT) (t' : TLS) : Prop :=
  match r with
  | None => err <> ERROR_SUCCESS /\ os' = os /\ SpdStorageUnitTlsCount t' = SpdStorageUnitTlsCount t
  | Some (P, rd, f) =>
      let f0 := snd (cr_MapViewOfFile a) in
      err = ERROR_SUCCESS /\ disk_wf rd f /\ rd_BlockCount rd = bc /\ rd_BlockLength rd = bl /\
      IoctlTypes.BlockCount (StorageUnitParams (rd_StorageUnit rd)) = bc /\
      IoctlTypes.BlockLength (StorageUnitParams (rd_StorageUnit rd)) = bl /\
      length os' = (4 + length os)%nat /\
      (forall sz, cr_GetFileSizeEx a = Some sz -> sz <> 0 -> sz = bc * bl /\ View f = View f0) /\
      (cr_GetFileSizeEx a = Some 0 ->
         (forall i, (512 <= i)%nat -> View f !! i = View f0 !! i) /\
         (partition_start bl < bc -> read_entry 0 (View f) =
            Some (0, 7, chs_clamped (partition_start bl), chs_clamped bc, partition_start bl,
                  bc - partition_start bl))) /\
      (forall (w2 : W) t2 w3 t3 f2, SpdStorageUnitDelete w2 t2 (rd_StorageUnit rd) = Some (w3, t3) ->
         exists f3, RawDiskDelete os' w2 t2 P rd f2 = Some (os, w3, t3, f3))
  end.

(** Creating a disk, call by call. *)
Lemma rawdisk_create_spec os (w : W) t a bc bl ProductId ProductRevision WP CS US PipeName :
  answers_wf a bc bl -> 0 <= SpdStorageUnitTlsCount t < 2 ^ 32 ->
  exists err r os' w' t',
    RawDiskCreate os w t a bc bl ProductId ProductRevision WP CS US PipeName = Some (err, r, os', w', t') /\
    created os t a bc bl err r os' t'.
Proof using HL.
  intros Ha Ht. unfold RawDiskCreate.
  destruct (aw_params _ _ _ Ha) as [Hbc Hbl].
  assert (forall err P H M V (w : W) os1, err <> ERROR_SUCCESS ->
    os1 = ((if 0 =? V then [] else [ObjView V]) ++ (if 0 =? M then [] else [ObjHandle M]) ++
      (if INVALID_HANDLE_VALUE =? H then [] else [ObjHandle H]) ++
      (if 0 =? P then [] else [ObjMemory P]) ++ os) ->
    forall t', SpdStorageUnitTlsCount t' = SpdStorageUnitTlsCount t ->
    exists err' r os' w' t'', (os ← create_exit os1 err P H M V; Some (err, None, os, w, t')) =
        Some (err', r, os', w', t'') /\ created os t a bc bl err' r os' t'') as Hexit.
  { intros err P H M V w1 os1 He -> t' Ht'. rewrite create_exit_some, bind_value by done.
    by eexists _, _, _, _, _. }
  pose proof (aw_error _ _ _ Ha) as HE.
  destruct (name_field_some a bc bl ProductId 16 Ha) as [[pid|] ->]; rewrite bind_value; [|by apply Hexit].
  destruct (name_field_some a bc bl ProductRevision 4 Ha) as [[rev|] ->]; rewrite bind_value; [|by apply Hexit].
  destruct (0 =? cr_malloc a) eqn:EP; [by apply Hexit|].
  destruct (INVALID_HANDLE_VALUE =? cr_CreateFile a) eqn:EH; [apply Hexit; by rewrite ?EP, ?EH|].
  destruct (cr_GetFileSizeEx a) as [sz|] eqn:Esz; [|apply Hexit; by rewrite ?EP, ?EH].
  pose proof (aw_size _ _ _ Ha sz Esz) as Hsz.
  destruct ((0 =? _) || _) eqn:EF; [apply Hexit; by rewrite ?EP, ?EH|].
  destruct (cr_SetEndOfFile a); cbn [negb]; [|apply Hexit; by rewrite ?EP, ?EH].
  destruct (0 =? cr_CreateFileMapping a) eqn:EM; [apply Hexit; by rewrite ?EP, ?EH|].
  pose proof (aw_view _ _ _ Ha) as Hview. destruct (cr_MapViewOfFile a) as [V f0] eqn:Emap. cbn [fst snd] in Hview.
  destruct (Z.eqb_spec 0 V) as [<-|EV]; [apply Hexit; by rewrite ?EP, ?EH, ?EM|].
  destruct (Hview ltac:(congruence)) as (Hv1 & Hv2 & Hv3).
  destruct (size_check bc bl sz Hbc Hbl Hsz EF) as [Hpos Heq].
  assert (0 < bl < 2 ^ 32) as Hbl' by nia.
  assert (exists f, (if 0 =? sz then create_partition f0 bc bl else Some f0) = Some f /\
    length (View f) = length (View f0) /\
    (forall i, (512 <= i)%nat -> View f !! i = View f0 !! i) /\
    (sz <> 0 -> View f = View f0) /\
    (sz = 0 -> partition_start bl < bc -> read_entry 0 (View f) =
       Some (0, 7, chs_clamped (partition_start bl), chs_clamped bc, partition_start bl,
             bc - partition_start bl))) as (f & -> & Hlf & Hof & Hsame & Hpart).
  { destruct (Z.eqb_spec 0 sz) as [<-|Hne].
    - destruct (create_partition_spec f0 bc bl Hbc Hbl' Hv2 Hv3) as (f & -> & H1 & H2 & H3).
      exists f. by split_and!.
    - exists f0. split_and!; try done. }
  rewrite bind_value.
  set (Params := mkParams _ _ _ _ _ _ _ _ _ _ _).
  destruct (storage_unit_create_spec w t PipeName Params (cr_TlsAlloc a) (cr_UnitAlloc a)
    (aw_open _ _ _ Ha) Ht) as (err & u & w1 & t1 & -> & Hu). rewrite bind_value.
  destruct u as [u|]; [|destruct Hu as [Hu1 Hu2]; apply Hexit; try done; rewrite EP, EH, EM;
    by rewrite (proj2 (Z.eqb_neq 0 V))].
  destruct Hu as [-> Hu]. eexists _, _, _, _, _. split; [reflexivity|]. unfold created.
  rewrite Emap, Esz. cbn [fst snd rd_BlockCount rd_BlockLength rd_StorageUnit]. rewrite Hu.
  split_and!; try done.
  - constructor; cbn [rd_BlockCount rd_BlockLength]; lia.
  - intros sz' [= <-] Hne. by split; [apply Heq|apply Hsame].
  - intros [= ->]. split; [exact Hof|]. by apply Hpart.
  - intros w2 t2 w3 t3 f2 Hdel. unfold RawDiskDelete.
    cbn [rd_StorageUnit rd_Pointer rd_Mapping rd_Handle]. rewrite Hdel, bind_value.
    destruct (FlushViewOfFile f2 0 0) as [c1 f3]. destruct (FlushFileBuffers f3) as [c2 f4].
    rewrite !take_away_head, !bind_value, !take_away_head, !bind_value, !take_away_head, !bind_value, take_away_head.
    by eexists.
Qed.
End CreateProps.

(** A new disk of 16 blocks of 512 bytes. *)
Definition plain_handle : UnitHandle unit := {|
  HandleOpen w _ _ := Some (ERROR_SUCCESS, 8, 0, w);
  HandleTransact w _ _ _ _ b := Some (ERROR_NO_DATA, None, b, w);
  HandleShutdown w _ _ := Some (ERROR_SUCCESS, w);
  HandleClose w _ := Some (ERROR_SUCCESS, w)
|}.

Definition example_answers : CREATE_ANSWERS PLAIN :=
  let v := replicate (Z.to_nat 8192) 0 in
  mkCreate (mkGUID 1 2 3 [1; 2; 3; 4; 5; 6; 7; 8]) (fun n k => Some (take (Z.to_nat k) n)) 0x2000 12 true (Some 0) true
    16 (0x10000, mkPlain v v []) 5 3 true.

