(* ===== verification/Guard.v ===== *)
(** * A guarded pointer: [SPD_GUARD] of [inc/winspd/winspd.h], and the console handler of [tst/rawdisk/rawdisk.c]

    A guard lets a thread that the system creates, for a control event of the console, call a
    function on a storage unit that the main thread is about to delete.  The main thread waits
    for the thread of the dispatcher, which ends only when the unit is shut down or its transfer
    fails.  The threads interleave instruction by instruction; an access without the lock, the
    release of a lock that is not held and the use of a unit that was deleted are faults. *)

From S2P Require Import Prelude.

(** ** Instructions *)

(** What the functions do, one after the other.  [CallPointer] is the test of the pointer of the
    guard, and [Shutdown P] is [SpdStorageUnitShutdown] on the unit at [P].  [Transact P] stands for
    the rounds of the dispatcher up to the one whose transfer fails, and [WaitDispatcher P] is
    [SpdStorageUnitWaitDispatcher] once the dispatcher was started. *)
Inductive INSTR :=
  | AcquireSRWLockExclusive
  | StorePointer (Pointer : Z)
  | ReleaseSRWLockExclusive
  | AcquireSRWLockShared
  | CallPointer
  | Shutdown (Pointer : Z)
  | ReleaseSRWLockShared
  | SetConsoleCtrlHandler
  | WaitDispatcher (Pointer : Z)
  | DeleteUnit (Pointer : Z)
  | Transact (Pointer : Z)
  | ExitThread.

Definition SpdGuardSet (Pointer : Z) : list INSTR :=
  [AcquireSRWLockExclusive; StorePointer Pointer; ReleaseSRWLockExclusive].

Definition SpdGuardExecute : list INSTR := [AcquireSRWLockShared; CallPointer; ReleaseSRWLockShared].

(** A thread of the system for a control event. *)
Definition ConsoleCtrlHandler : list INSTR := SpdGuardExecute.

(** The end of [wmain], from where the dispatcher runs, for the unit at [Unit]. *)
Definition main_guarded (Unit : Z) : list INSTR :=
  SpdGuardSet Unit ++ [SetConsoleCtrlHandler; WaitDispatcher Unit] ++ SpdGuardSet 0 ++ [DeleteUnit Unit].

(** The thread of the dispatcher: its rounds, then the shutdown of the handle. *)
Definition dispatcher_thread (Unit : Z) : list INSTR := [Transact Unit; Shutdown Unit; ExitThread].

(** ** States *)

(** The lock, held for reading by some threads or by one for writing; the pointer; the units that
    exist; whether the handler is registered; whether the unit was shut down; whether the thread
    of the dispatcher has ended. *)
Record GUARD := mkGuard {
  Readers : nat; Writer : bool; Pointer : Z; Units : list Z; Registered : bool; Shut : bool; Stopped : bool
}.

#[export] Instance GUARD_eta : Eta GUARD := fun g =>
  mkGuard (Readers g) (Writer g) (Pointer g) (Units g) (Registered g) (Shut g) (Stopped g).

(** The guard as [SPD_GUARD_INIT] makes it, when there is one unit, whose dispatcher runs. *)
Definition SPD_GUARD_INIT (Unit : Z) : GUARD := mkGuard 0 false 0 [Unit] false false false.

(** What an instruction does: it goes on with other instructions before those of the thread, or it
    waits. *)
Inductive RESULT := Blocked | Fault | Next (more : list INSTR) (g : GUARD).

Definition exec (i : INSTR) (g : GUARD) : RESULT :=
  match i with
  | AcquireSRWLockExclusive =>
      if Writer g || (0 <? Z.of_nat (Readers g)) then Blocked else Next [] (g <| Writer := true |>)
  | StorePointer P => if Writer g then Next [] (g <| Pointer := P |>) else Fault
  | ReleaseSRWLockExclusive => if Writer g then Next [] (g <| Writer := false |>) else Fault
  | AcquireSRWLockShared =>
      if Writer g then Blocked else Next [] (g <| Readers := S (Readers g) |>)
  | CallPointer =>
      if 0 <? Z.of_nat (Readers g)
      then Next (if 0 =? Pointer g then [] else [Shutdown (Pointer g)]) g
      else Fault
  | Shutdown P => if existsb (Z.eqb P) (Units g) then Next [] (g <| Shut := true |>) else Fault
  | ReleaseSRWLockShared =>
      match Readers g with O => Fault | S n => Next [] (g <| Readers := n |>) end
  | SetConsoleCtrlHandler => Next [] (g <| Registered := true |>)
  | WaitDispatcher P =>
      if existsb (Z.eqb P) (Units g) then if Stopped g then Next [] g else Blocked else Fault
  | DeleteUnit P =>
      if existsb (Z.eqb P) (Units g) then Next [] (g <| Units := List.filter (fun x => negb (P =? x)) (Units g) |>) else Fault
  | Transact P =>
      if existsb (Z.eqb P) (Units g) then if Shut g then Next [] g else Blocked else Fault
  | ExitThread => Next [] (g <| Stopped := true |>)
  end.

(** The process: the main thread, the thread of the dispatcher and the threads of the handler. *)
Record THREADS := mkThreads {
  th_Guard : GUARD; th_Main : list INSTR; th_Dispatcher : list INSTR; th_Handlers : list (list INSTR)
}.

Inductive step : THREADS -> THREADS -> Prop :=
  | step_main i k g more g' d hs :
      exec i g = Next more g' -> step (mkThreads g (i :: k) d hs) (mkThreads g' (more ++ k) d hs)
  | step_dispatcher i k g more g' m hs :
      exec i g = Next more g' -> step (mkThreads g m (i :: k) hs) (mkThreads g' m (more ++ k) hs)
  | step_handler i k g more g' m d l r :
      exec i g = Next more g' ->
      step (mkThreads g m d (l ++ (i :: k) :: r)) (mkThreads g' m d (l ++ (more ++ k) :: r)).

(** A control event may come whenever the handler is registered, and the transfer of the dispatcher
    may fail whether or not the unit was shut down. *)
Inductive event : THREADS -> THREADS -> Prop :=
  | event_ctrl g m d hs :
      Registered g = true -> event (mkThreads g m d hs) (mkThreads g m d (ConsoleCtrlHandler :: hs))
  | event_error P g m d hs :
      existsb (Z.eqb P) (Units g) = true ->
      event (mkThreads g m (Transact P :: d) hs) (mkThreads g m d hs).

Definition run_step (t t' : THREADS) : Prop := step t t' \/ event t t'.

(** What the process starts with. *)
Definition main_start (Unit : Z) : THREADS :=
  mkThreads (SPD_GUARD_INIT Unit) (main_guarded Unit) (dispatcher_thread Unit) [].

(** A thread is about to do something wrong. *)
Definition faulty (t : THREADS) : Prop :=
  exists i k, (th_Main t = i :: k \/ th_Dispatcher t = i :: k \/ (i :: k) ∈ th_Handlers t) /\
    exec i (th_Guard t) = Fault.

(** Every thread has ended. *)
Definition finished (t : THREADS) : Prop :=
  th_Main t = [] /\ th_Dispatcher t = [] /\ Forall (fun h => h = []) (th_Handlers t).

(** The disk is in use: the main thread waits for the dispatcher, which waits for requests; nothing
    has shut the unit down, and a control event would find the guard free and the unit in it. *)
Definition serving (Unit : Z) (t : THREADS) : Prop :=
  let g := th_Guard t in
  (exists k, th_Main t = WaitDispatcher Unit :: k) /\ (exists k, th_Dispatcher t = Transact Unit :: k) /\
  Forall (fun h => h = []) (th_Handlers t) /\ Shut g = false /\
  Writer g = false /\ Readers g = O /\ Pointer g = Unit /\ Registered g = true.

(** * The guard keeps the handler away from a unit that was deleted

    An invariant of the instructions that the threads still have to do, for every interleaving. *)

(** ** The invariant *)

Section Guard.
Context (Unit : Z) (Unit_set : Unit <> 0).

(** The main thread has done [n] instructions: whether it has the lock, and whether the guard has the
    pointer. *)
Definition locked (n : nat) : bool := match n with 1 | 2 | 6 | 7 => true | _ => false end%nat.
Definition guarded (n : nat) : bool := match n with 2 | 3 | 4 | 5 | 6 => true | _ => false end%nat.

(** What the guard is when the main thread has done its first [n] instructions and the dispatcher
    its first [d]. *)
Record guard_at (n d : nat) (g : GUARD) : Prop := {
  ga_Writer : Writer g = locked n;
  ga_Pointer : Pointer g = if guarded n then Unit else 0;
  ga_Units : Units g = if (n <=? 8)%nat then [Unit] else [];
  ga_Registered : Registered g = (4 <=? n)%nat;
  ga_Stopped : Stopped g = (3 <=? d)%nat;
  ga_waited : (5 <= n -> 3 <= d)%nat;
  ga_exclusive : Writer g = true -> Readers g = O
}.

(** A thread of the handler has one of these instructions to do; it runs the function only with the
    pointer to the unit. *)
Inductive handler_at (P : Z) : list INSTR -> Prop :=
  | ha_begin : handler_at P ConsoleCtrlHandler
  | ha_call : handler_at P [CallPointer; ReleaseSRWLockShared]
  | ha_running : P = Unit -> handler_at P [Shutdown Unit; ReleaseSRWLockShared]
  | ha_release : handler_at P [ReleaseSRWLockShared]
  | ha_end : handler_at P [].

(** Whether it holds the lock. *)
Definition holding (h : list INSTR) : nat :=
  match h with CallPointer :: _ | Shutdown _ :: _ | ReleaseSRWLockShared :: _ => 1 | _ => 0 end.

Fixpoint held (hs : list (list INSTR)) : nat :=
  match hs with [] => O | h :: hs => (holding h + held hs)%nat end.

Record inv_at (n d : nat) (t : THREADS) : Prop := {
  ia_n : (n <= 9)%nat;
  ia_d : (d <= 3)%nat;
  ia_Main : th_Main t = drop n (main_guarded Unit);
  ia_Dispatcher : th_Dispatcher t = drop d (dispatcher_thread Unit);
  ia_guard : guard_at n d (th_Guard t);
  ia_handlers : Forall (handler_at (Pointer (th_Guard t))) (th_Handlers t);
  ia_Readers : Readers (th_Guard t) = held (th_Handlers t)
}.

(** The dispatcher will end: the unit was shut down, or the rounds are over, or a handler that will
    find the unit in the guard has not read it yet. *)
Definition stopping (n d : nat) (t : THREADS) : Prop :=
  Shut (th_Guard t) = true \/ (1 <= d)%nat \/ (n = 4%nat /\ Exists (fun h => 2 <= length h)%nat (th_Handlers t)).

Lemma inv_start : inv_at 0 0 (main_start Unit).
Proof using. constructor; cbn; try done; try lia. constructor; cbn; first [done|lia]. Qed.

(** ** Steps *)

(** Lock by lock, the thread counts. *)
Lemma held_middle l h r : held (l ++ h :: r) = (holding h + held (l ++ r))%nat.
Proof using. induction l as [|x l IH]; cbn; [done|]. rewrite IH. lia. Qed.

(** No reader has the lock while there is a writer, so no handler runs the function. *)
Lemma handlers_change P P' hs : held hs = O -> Forall (handler_at P) hs -> Forall (handler_at P') hs.
Proof using.
  induction hs as [|h hs IH]; [done|]. cbn [held]. intros Hs [Hh Hr]%Forall_cons.
  constructor; [|apply IH; [lia|done]]. destruct Hh; try constructor. cbn in Hs. lia.
Qed.

(** The unit exists as long as the dispatcher runs, or the guard has the pointer. *)
Lemma unit_exists n d g : guard_at n d g -> (n <= 8)%nat -> existsb (Z.eqb Unit) (Units g) = true.
Proof using. intros [_ _ -> _ _ _ _] Hn. rewrite (proj2 (Nat.leb_le n 8)) by done. cbn. by rewrite Z.eqb_refl. Qed.

(** What a handler, or the dispatcher, changes of the guard keeps [guard_at]. *)
Lemma guard_at_readers n d g r :
  guard_at n d g -> Writer g = false \/ r = O -> guard_at n d (g <| Readers := r |>).
Proof using. intros [HW HP HU HR HS Hw HX] H. constructor; cbn; try done. destruct H as [-> |H]; done. Qed.

Lemma guard_at_shut n d g b : guard_at n d g -> guard_at n d (g <| Shut := b |>).
Proof using. intros [HW HP HU HR HS Hw HX]. by constructor. Qed.

(** A handler does not fault, and keeps what the others know. *)
Lemma handler_step n d g i k h :
  guard_at n d g -> (n <= 9)%nat -> handler_at (Pointer g) (i :: k) ->
  Readers g = (holding (i :: k) + h)%nat ->
  exec i g <> Fault /\
  forall more g', exec i g = Next more g' ->
    handler_at (Pointer g') (more ++ k) /\ Readers g' = (holding (more ++ k) + h)%nat /\
    guard_at n d g' /\ Pointer g' = Pointer g /\ (Shut g = true -> Shut g' = true) /\
    (n = 4%nat -> (2 <= length (i :: k))%nat -> Shut g' = true \/ (2 <= length (more ++ k))%nat).
Proof using Unit_set.
  intros HG Hn Hh Hr. pose proof HG as [HW HP HU HR HS Hw HX]. inversion Hh; subst; cbn [exec holding] in *.
  - split; [by destruct (Writer g)|]. destruct (Writer g) eqn:E; [done|]. intros more g' [= <- <-].
    split; [constructor|]. split; [cbn; lia|]. split; [apply guard_at_readers; auto|]. cbn. auto with lia.
  - rewrite (proj2 (Z.ltb_lt _ _)) by lia. split; [done|]. intros more g' [= <- <-].
    assert (Pointer g = Unit \/ Pointer g = 0 /\ n <> 4%nat) as [E|[E H4]]
      by (rewrite HP; destruct (guarded n) eqn:Eg; [by left|right; split; [done|by intros ->]]); rewrite E.
    + rewrite (proj2 (Z.eqb_neq 0 Unit)) by done. cbn [app]. split; [by constructor|]. cbn. auto with lia.
    + split; [constructor|]. cbn. auto with lia.
  - destruct (decide (n <= 8)%nat) as [E8|E8].
    + rewrite (unit_exists n d g HG E8). split; [done|]. intros more g' [= <- <-]. split; [constructor|].
      split; [done|]. split; [by apply guard_at_shut|]. cbn. auto.
    + assert (n = 9%nat) as -> by lia. cbn in HP. congruence.
  - rewrite Hr. cbn [Nat.add]. split; [done|]. intros more g' [= <- <-]. split; [constructor|]. split; [done|].
    split; [|cbn; auto with lia]. apply guard_at_readers; [done|]. destruct (Writer g); [|by left].
    specialize (HX eq_refl). lia.
Qed.

(** The main thread does not fault either; it writes the pointer when no handler runs. *)
Lemma main_step n d g i k :
  guard_at n d g -> drop n (main_guarded Unit) = i :: k ->
  exec i g <> Fault /\
  forall more g', exec i g = Next more g' ->
    more ++ k = drop (S n) (main_guarded Unit) /\ (S n <= 9)%nat /\ guard_at (S n) d g' /\
    Readers g' = Readers g /\ Shut g' = Shut g /\ (n = 4%nat -> (3 <= d)%nat) /\
    (Pointer g' = Pointer g \/ Readers g = O).
Proof using Unit_set.
  intros [HW HP HU HR HS Hw HX] Hd.
  destruct n as [|[|[|[|[|[|[|[|[|n]]]]]]]]]; [..|by destruct n].
  all: injection Hd as <- <-; cbn in HW, HP, HU, HR; cbn [exec]; rewrite ?HW, ?HU.
  all: cbn [existsb List.filter]; rewrite ?Z.eqb_refl; cbn [orb negb].
  all: try destruct (0 <? Z.of_nat (Readers g)) eqn:ER; try destruct (Stopped g) eqn:ES; zify_bools.
  all: split; [done|]; intros more g' Hn; simplify_eq.
  all: split; [done|]; split; [lia|]; split; [|do 3 (split; [first [done|intros; by apply Nat.leb_le]|])].
  all: try (by left); try (right; apply HX; by rewrite HW).
  all: constructor; cbn [Writer Pointer Units Registered Stopped Readers Shut]; rewrite ?HW, ?HP, ?HU, ?HR, ?ES; try done;
    try (intros; by apply Nat.leb_le); try lia; try (intros; apply HX; congruence).
Qed.

(** The dispatcher runs while the unit exists, and ends before the main thread goes on. *)
Lemma dispatcher_step n d g i k :
  guard_at n d g -> drop d (dispatcher_thread Unit) = i :: k ->
  exec i g <> Fault /\ (Shut g = true \/ (1 <= d)%nat -> exec i g <> Blocked) /\
  forall more g', exec i g = Next more g' ->
    more ++ k = drop (S d) (dispatcher_thread Unit) /\ (S d <= 3)%nat /\ guard_at n (S d) g' /\
    Readers g' = Readers g /\ Pointer g' = Pointer g.
Proof using Unit_set.
  intros HG Hd. assert (d < 3)%nat as H3 by (destruct d as [|[|[|[|d]]]]; cbn in Hd; first [lia|done]).
  assert (n <= 8)%nat as H8 by (pose proof (ga_waited _ _ _ HG); lia).
  pose proof HG as [HW HP HU HR HS Hw HX].
  destruct d as [|[|[|d]]]; [..|lia]; injection Hd as <- <-; cbn [exec]; rewrite ?(unit_exists n _ g HG H8).
  1: destruct (Shut g) eqn:ES.
  all: split; [done|]; split; [intros [?|?]; first [done|lia]|]; intros more g' Hn; simplify_eq.
  all: do 2 (split; [first [done|lia]|]); split; [|done]; constructor; cbn; try done; try lia.
  all: intros H5; specialize (Hw H5); lia.
Qed.

(** Whoever goes on, the invariant is kept, and the dispatcher that will end still will. *)
Definition kept (n d : nat) (t t' : THREADS) : Prop :=
  exists n' d', inv_at n' d' t' /\ (stopping n d t -> stopping n' d' t').

Lemma keep_main n d t t' g i k more g' :
  inv_at n d t -> t = mkThreads g (i :: k) (th_Dispatcher t) (th_Handlers t) -> exec i g = Next more g' ->
  t' = mkThreads g' (more ++ k) (th_Dispatcher t) (th_Handlers t) -> kept n d t t'.
Proof using Unit_set.
  intros [Hn Hd Hm Hp Hg Hh Hr] Ht Hx ->. rewrite Ht in *. cbn [th_Guard th_Main th_Dispatcher th_Handlers] in *.
  destruct (main_step n d g i k Hg) as [_ Hstep]; [done|].
  destruct (Hstep more g' Hx) as (Hk & Hn' & Hg' & HR & HS & H4 & HP). exists (S n), d. split.
  - constructor; cbn; try done; [|congruence]. destruct HP as [->|HP]; [done|].
    apply (handlers_change (Pointer g)); [congruence|done].
  - unfold stopping. cbn. rewrite HS. intros [?|[?|[? _]]]; [auto|auto|right; left; specialize (H4 H); lia].
Qed.

Lemma keep_dispatcher n d t t' g i k more g' :
  inv_at n d t -> t = mkThreads g (th_Main t) (i :: k) (th_Handlers t) -> exec i g = Next more g' ->
  t' = mkThreads g' (th_Main t) (more ++ k) (th_Handlers t) -> kept n d t t'.
Proof using Unit_set.
  intros [Hn Hd Hm Hp Hg Hh Hr] Ht Hx ->. rewrite Ht in *. cbn [th_Guard th_Main th_Dispatcher th_Handlers] in *.
  destruct (dispatcher_step n d g i k Hg) as (_ & _ & Hstep); [done|].
  destruct (Hstep more g' Hx) as (Hk & Hd' & Hg' & HR & HP). exists n, (S d). split.
  - constructor; cbn; [done|done|done|done|done|by rewrite HP|by rewrite HR].
  - unfold stopping. cbn. intros _. right. left. lia.
Qed.

Lemma keep_handler n d t t' g i k l r more g' :
  inv_at n d t -> t = mkThreads g (th_Main t) (th_Dispatcher t) (l ++ (i :: k) :: r) -> exec i g = Next more g' ->
  t' = mkThreads g' (th_Main t) (th_Dispatcher t) (l ++ (more ++ k) :: r) -> kept n d t t'.
Proof using Unit_set.
  intros [Hn Hd Hm Hp Hg Hh Hr] Ht Hx ->. rewrite Ht in *. cbn [th_Guard th_Main th_Dispatcher th_Handlers] in *.
  apply Forall_app in Hh as [Hl [Hi Hr']%Forall_cons]. rewrite held_middle in Hr.
  destruct (handler_step n d g i k _ Hg Hn Hi Hr) as [_ Hstep].
  destruct (Hstep more g' Hx) as (Hi' & HR & Hg' & HP & HS & H4). exists n, d. split.
  - constructor; cbn; try done; [|by rewrite held_middle].
    rewrite HP. apply Forall_app. split; [done|]. constructor; [by rewrite <- HP|done].
  - unfold stopping. cbn [th_Guard th_Handlers]. intros [?|[?|[-> H]]]; [by auto..|].
    rewrite Exists_app, Exists_cons in H. rewrite Exists_app, Exists_cons.
    destruct H as [?|[H|?]]; [by auto 6| |by auto 6]. destruct (H4 eq_refl H); [by auto|by auto 6].
Qed.

(** An event makes the dispatcher end. *)
Lemma keep_event n d t t' : inv_at n d t -> event t t' -> exists n' d', inv_at n' d' t' /\ stopping n' d' t'.
Proof using Unit_set.
  intros Hi He. destruct He as [g m p hs Hreg|P g m p hs HP]; destruct Hi as [Hn Hd Hm Hp Hg Hh Hr];
    cbn [th_Guard th_Main th_Dispatcher th_Handlers] in *.
  - exists n, d. split; [constructor; cbn; try done; by constructor; [constructor|]|].
    pose proof (ga_Registered _ _ _ Hg) as HR. rewrite Hreg in HR. symmetry in HR. apply Nat.leb_le in HR.
    destruct (decide (n = 4%nat)) as [->|]; [|right; left; pose proof (ga_waited _ _ _ Hg); lia].
    right. right. split; [done|]. constructor. cbn. lia.
  - assert (d = 0%nat) as -> by (destruct d as [|[|[|d]]]; try done; by destruct d).
    exists n, 1%nat. split; [|right; left; lia]. injection Hp as -> ->. pose proof Hg as [HW HPt HU HR HS Hw HX].
    constructor; cbn; try done; [lia|]. constructor; try done. intros H5. specialize (Hw H5). lia.
Qed.

Lemma inv_step n d t t' : inv_at n d t -> step t t' -> kept n d t t'.
Proof using Unit_set.
  intros Hi Hs. destruct Hs; [by eapply keep_main|by eapply keep_dispatcher|by eapply keep_handler].
Qed.

Lemma inv_reachable t : rtc run_step (main_start Unit) t -> exists n d, inv_at n d t.
Proof using Unit_set.
  intros H. pattern t. eapply rtc_ind_r; [|intros ? t' _ Hs (n & d & Hi)|exact H]; [by exists O, O; apply inv_start|].
  destruct Hs as [Hs|Hs]; [destruct (inv_step n d _ _ Hi Hs) as (n' & d' & Hi' & _)
    |destruct (keep_event n d _ _ Hi Hs) as (n' & d' & Hi' & _)]; by exists n', d'.
Qed.

Lemma stopping_reachable n d t t' :
  inv_at n d t -> stopping n d t -> rtc run_step t t' -> exists n' d', inv_at n' d' t' /\ stopping n' d' t'.
Proof using Unit_set.
  intros Hi Hst H. pattern t'. eapply rtc_ind_r; [|intros ? t1 _ Hs (n1 & d1 & Hi1 & Hst1)|exact H]; [by exists n, d|].
  destruct Hs as [Hs|Hs]; [destruct (inv_step n1 d1 _ _ Hi1 Hs) as (n' & d' & Hi' & Hst'); exists n', d'; auto
    |by eapply keep_event].
Qed.

(** ** What follows *)

Lemma inv_not_faulty n d t : inv_at n d t -> ~ faulty t.
Proof using Unit_set.
  intros [Hn Hd Hm Hp Hg Hh Hr] (i & k & Hi & Hf). destruct Hi as [Hi|[Hi|Hi]].
  - rewrite Hm in Hi. by apply (main_step n d _ i k Hg Hi).
  - rewrite Hp in Hi. by destruct (dispatcher_step n d _ i k Hg Hi).
  - pose proof (proj1 (Forall_forall _ _) Hh _ Hi) as Hat. apply list_elem_of_split in Hi as (l & r & Hl).
    rewrite Hl, held_middle in Hr. by apply (handler_step n d _ i k _ Hg Hn Hat Hr).
Qed.

(** An instruction that does not fault is executed, but for the lock and the two waits. *)
Lemma exec_next i g :
  exec i g <> Fault -> (exists more g', exec i g = Next more g') \/
  (exec i g = Blocked /\ (Writer g = true \/ i = AcquireSRWLockExclusive /\ Readers g <> O \/
    (exists P, i = WaitDispatcher P /\ Stopped g = false) \/ (exists P, i = Transact P))).
Proof using Unit_set.
  destruct i; cbn; intros H; repeat case_match; try done; try (left; by do 2 eexists); right; (split; [done|]).
  - apply orb_true_iff in H0 as [H0|H0]; [by left|]. zify_bools. right. left. split; [done|lia].
  - by left.
  - do 2 right. left. by eexists.
  - do 3 right. by eexists.
Qed.

(** The main thread goes on while it has the lock. *)
Lemma locked_next n d g i k : locked n = true -> guard_at n d g -> drop n (main_guarded Unit) = i :: k ->
  exists more g', exec i g = Next more g'.
Proof using Unit_set.
  intros Hl [HW _ _ _ _ _ _] Hd. rewrite Hl in HW.
  destruct n as [|[|[|[|[|[|[|[|n]]]]]]]]; try done; injection Hd as <- <-; cbn; rewrite HW; eauto.
Qed.

(** Either every thread of the handler has ended, or one has something to do. *)
Lemma handlers_ended (hs : list (list INSTR)) :
  Forall (fun h => h = []) hs \/ exists l i k r, hs = l ++ (i :: k) :: r.
Proof using Unit_set.
  induction hs as [|[|i k] hs [IH|(l & i' & k' & r & ->)]]; [by left| | | |].
  - left. by constructor.
  - right. by exists ([] :: l), i', k', r.
  - right. by exists [], i, k, hs.
  - right. by exists [], i, k, (l ++ (i' :: k') :: r).
Qed.

Lemma ended_held hs : Forall (fun h => h = []) hs -> held hs = O.
Proof using Unit_set. intros He. induction He as [|? ? -> ? IH]; [done|exact IH]. Qed.

(** The main thread goes on while it has the lock, whatever the others do. *)
Lemma locked_progress n d t : inv_at n d t -> Writer (th_Guard t) = true -> exists t', step t t'.
Proof using Unit_set.
  destruct t as [g m p hs]. intros [Hn Hd Hm Hp Hg Hh Hr] HW. cbn in *. rewrite (ga_Writer _ _ _ Hg) in HW.
  destruct m as [|i k]; [destruct n as [|[|[|[|[|[|[|[|[|n]]]]]]]]]; done|].
  destruct (locked_next n d g i k) as (more & g' & Hx); [done..|]. eexists. by apply step_main.
Qed.

(** So does a thread of the handler, or the main thread has the lock. *)
Lemma handler_progress n d t l i k r :
  inv_at n d t -> th_Handlers t = l ++ (i :: k) :: r -> exists t', step t t'.
Proof using Unit_set.
  intros Hi Hl. destruct (Writer (th_Guard t)) eqn:EW; [by eapply locked_progress|].
  destruct t as [g m p hs]. destruct Hi as [Hn Hd Hm Hp Hg Hh Hr]. cbn in *. subst hs.
  apply Forall_app in Hh as [_ [Hi _]%Forall_cons]. rewrite held_middle in Hr.
  destruct (exec_next i g) as [(more & g' & Hx)|[Hb [HW|[[-> _]|[(P & -> & _)|(P & ->)]]]]].
  - by eapply handler_step.
  - eexists. by apply step_handler.
  - congruence.
  - inversion Hi.
  - inversion Hi.
  - inversion Hi.
Qed.

(** When the handlers have ended, the main thread goes on, unless it waits for the dispatcher. *)
Lemma main_progress n d t i k :
  inv_at n d t -> Forall (fun h => h = []) (th_Handlers t) -> th_Main t = i :: k -> n <> 4%nat \/ d = 3%nat ->
  exists t', step t t'.
Proof using Unit_set.
  intros Hi He Hm H4. destruct (Writer (th_Guard t)) eqn:EW; [by eapply locked_progress|].
  destruct t as [g m p hs]. destruct Hi as [Hn Hd Hd' Hp Hg Hh Hr]. cbn in *. rewrite Hm in Hd'. subst m. symmetry in Hd'.
  destruct (exec_next i g) as [(more & g' & Hx)|[Hb [HW|[[_ HR]|[(P & -> & HS)|(P & ->)]]]]].
  - by eapply main_step.
  - eexists. by apply step_main.
  - congruence.
  - rewrite Hr, ended_held in HR; done.
  - rewrite (ga_Stopped _ _ _ Hg) in HS. apply Nat.leb_gt in HS.
    destruct n as [|[|[|[|[|[|[|[|[|n]]]]]]]]]; try done; [lia|by destruct n].
  - by destruct n as [|[|[|[|[|[|[|[|[|[|n]]]]]]]]]].
Qed.

(** The dispatcher goes on when it is to end. *)
Lemma dispatcher_progress n d t i k :
  inv_at n d t -> th_Dispatcher t = i :: k -> Shut (th_Guard t) = true \/ (1 <= d)%nat -> exists t', step t t'.
Proof using Unit_set.
  destruct t as [g m p hs]. intros [Hn Hd Hm Hp Hg Hh Hr] Hk HS. cbn in *. rewrite Hk in Hp. subst p. symmetry in Hp.
  destruct (dispatcher_step n d g i k Hg Hp) as (Hf & Hb & _).
  destruct (exec i g) as [| |more g'] eqn:Hx; [by destruct Hb|done|]. eexists. by apply step_dispatcher.
Qed.

Lemma stopping_progress n d t : inv_at n d t -> stopping n d t -> ~ finished t -> exists t', step t t'.
Proof using Unit_set.
  intros Hi Hst Hf. destruct (handlers_ended (th_Handlers t)) as [He|(l & i & k & r & Hl)]; [|by eapply handler_progress].
  assert (Shut (th_Guard t) = true \/ (1 <= d)%nat) as HS.
  { destruct Hst as [?|[?|[_ Hx]]]; [by auto..|]. exfalso. apply Exists_exists in Hx as (h & Hh & Hlen).
    by rewrite (proj1 (Forall_forall _ _) He _ Hh) in Hlen; cbn in Hlen; lia. }
  destruct (th_Dispatcher t) as [|i k] eqn:Ep; [|by eapply dispatcher_progress].
  destruct (th_Main t) as [|i k] eqn:Em; [by destruct Hf|]. eapply main_progress; [done..|]. right.
  pose proof (ia_Dispatcher _ _ _ Hi) as Hp. pose proof (ia_d _ _ _ Hi). rewrite Ep in Hp.
  destruct d as [|[|[|d]]]; try done. lia.
Qed.

Lemma inv_progress n d t : inv_at n d t -> ~ finished t -> (exists t', step t t') \/ serving Unit t.
Proof using Unit_set.
  intros Hi Hf. destruct (handlers_ended (th_Handlers t)) as [He|(l & i & k & r & Hl)]; [|left; by eapply handler_progress].
  destruct (decide (1 <= d)%nat) as [Hd|Hd]; [left; eapply stopping_progress; [done| |done]; unfold stopping; auto|].
  destruct (Shut (th_Guard t)) eqn:ES; [left; eapply stopping_progress; [done| |done]; unfold stopping; auto|].
  assert (d = 0%nat) as -> by lia. pose proof (ia_guard _ _ _ Hi) as [HW HP HU HR HS Hw HX].
  destruct (decide (n = 4%nat)) as [->|H4].
  - right. pose proof (ia_Main _ _ _ Hi) as Hm. pose proof (ia_Dispatcher _ _ _ Hi) as Hp.
    unfold serving. rewrite (ia_Readers _ _ _ Hi), ended_held by done.
    split; [by eexists; rewrite Hm|]. split; [by eexists; rewrite Hp|]. by split_and!.
  - left. destruct (th_Main t) as [|i k] eqn:Em; [|eapply main_progress; eauto].
    exfalso. pose proof (ia_Main _ _ _ Hi) as Hm. rewrite Em in Hm. pose proof (ia_n _ _ _ Hi).
    destruct n as [|[|[|[|[|[|[|[|[|n]]]]]]]]]; try done. lia.
Qed.

End Guard.

(** ** What is left to do *)

Definition weight (i : INSTR) : nat := match i with CallPointer => 2 | _ => 1 end.

Fixpoint work (k : list INSTR) : nat := match k with [] => O | i :: k => (weight i + work k)%nat end.

Fixpoint works (hs : list (list INSTR)) : nat := match hs with [] => O | h :: hs => (work h + works hs)%nat end.

Definition work_left (t : THREADS) : nat :=
  (work (th_Main t) + work (th_Dispatcher t) + works (th_Handlers t))%nat.

Lemma works_middle l h r : works (l ++ h :: r) = (work h + works (l ++ r))%nat.
Proof. induction l as [|x l IH]; cbn; [done|]. rewrite IH. lia. Qed.

Lemma exec_work i k g more g' : exec i g = Next more g' -> (work (more ++ k) < work (i :: k))%nat.
Proof. destruct i; cbn; intros H; repeat case_match; simplify_eq; cbn; lia. Qed.

Lemma step_work t t' : step t t' -> (work_left t' < work_left t)%nat.
Proof.
  unfold work_left. intros [i k g more g' d hs Hx|i k g more g' m hs Hx|i k g more g' m d l r Hx];
    cbn [th_Main th_Dispatcher th_Handlers]; rewrite ?works_middle; apply (exec_work i k) in Hx; lia.
Qed.

Lemma steps_bounded n t t' : nsteps step n t t' -> (n <= work_left t)%nat.
Proof.
  intros Hn. enough (n + work_left t' <= work_left t)%nat by lia.
  induction Hn as [|n t t1 t' Hs _ IH]; [lia|]. apply step_work in Hs. lia.
Qed.

(** ** Properties *)

(** C17: While the main thread of [rawdisk] hands its storage unit to the handler of console events,
    waits for the dispatcher, and takes the unit back, in every interleaving with any number of
    events: no thread touches the pointer without the lock, and neither a handler nor the
    dispatcher uses a unit that was deleted.  Some thread can go on until all have ended, unless
    the disk is in use, which waits for an event with the guard free and the unit in it.  From the
    first event on (of the console, or a transfer of the dispatcher that fails) some thread can
    always go on until all have ended, and between two events only a bounded number of times, so
    that the process ends. *)
Theorem guard_protects_unit Unit t :
  Unit <> 0 -> rtc run_step (main_start Unit) t ->
  ~ faulty t /\
  (~ finished t -> (exists t', step t t') \/ serving Unit t) /\
  (forall t1 t2, event t t1 -> rtc run_step t1 t2 -> ~ finished t2 -> exists t3, step t2 t3) /\
  (forall n t', nsteps step n t t' -> (n <= work_left t)%nat).
Proof.
  intros HU Hr. destruct (inv_reachable Unit HU t Hr) as (n & d & Hi). split_and!.
  - by eapply inv_not_faulty.
  - by eapply inv_progress.
  - intros t1 t2 He Hr2 Hf. destruct (keep_event Unit HU n d t t1 Hi He) as (n1 & d1 & Hi1 & Hst1).
    destruct (stopping_reachable Unit HU n1 d1 t1 t2 Hi1 Hst1 Hr2) as (n2 & d2 & Hi2 & Hst2).
    by eapply stopping_progress.
  - intros k t'. apply steps_bounded.
Qed.

(** The disk serves its unit, and a control event comes. *)
Lemma guard_protects_unit_witness :
  exists t t1, rtc run_step (main_start 0x1000) t /\ ~ faulty t /\ serving 0x1000 t /\ event t t1 /\
    (~ finished t1 -> exists t2, step t1 t2).
Proof.
  set (g := mkGuard 0 false 0x1000 [0x1000] true false false).
  set (m := WaitDispatcher 0x1000 :: SpdGuardSet 0 ++ [DeleteUnit 0x1000]).
  set (t := mkThreads g m (dispatcher_thread 0x1000) []).
  set (t1 := mkThreads g m (dispatcher_thread 0x1000) [ConsoleCtrlHandler]).
  assert (rtc run_step (main_start 0x1000) t) as Hr by (do 4 (eapply rtc_l; [left; apply step_main; reflexivity|]); apply rtc_refl).
  assert (event t t1) as He by (by apply event_ctrl).
  exists t, t1. split; [exact Hr|].
  pose proof (guard_protects_unit 0x1000 t ltac:(done) Hr) as (Hnf & _ & Hev & _).
  split; [exact Hnf|]. split; [|split; [exact He|exact (Hev t1 t1 He (rtc_refl _ _))]].
  do 2 (split; [eexists; reflexivity|]). by repeat split.
Defined.

(** That the lock is given back before the wait matters: a main thread that waited with the lock
    would wait for ever after a control event. *)
Example wait_with_lock_stuck :
  let g := mkGuard 0 true 0x1000 [0x1000] true false false in
  let t := mkThreads g [WaitDispatcher 0x1000; ReleaseSRWLockExclusive] (dispatcher_thread 0x1000) [ConsoleCtrlHandler] in
  forall t', ~ step t t'.
Proof.
  cbv zeta. intros t' Hs. inversion Hs as [| |? ? ? ? ? ? ? l]; subst.
  - done.
  - done.
  - destruct l as [|h [|? ?]]; simplify_eq/=. unfold ConsoleCtrlHandler, SpdGuardExecute in *. by simplify_eq/=.
Qed.
