(* ===== verification/ScsiDevice.v ===== *)
(** * The driver and a storage device together

    [BlockDevice] is what a storage device promises: to read and write blocks, or to report an
    error.  Over any such device, a SCSI command that reads or writes is served in chunks to its
    end, with its data moved, or with the error of the device. *)

From S2P Require Import Prelude Wdk IoctlTypes UnitHandle Dispatcher RawDisk RawDiskProps ListEntry Srb.
From S2P Require Import Ioq IoqMem IoqSpec IoqRun StgUnit StgUnitInv StgUnitProps Scsi ScsiSpec.
From S2P Require Import ScsiProps ScsiIo ScsiIoProps.

(** ** The interface *)

(** A storage device with [BC] blocks of [BL] bytes: the status of a request, with the data buffer
    and the device after it. *)
Class BlockDevice (D : Type) (BL BC : Z) := {
  bd_serve : D -> list Z -> SPD_IOCTL_TRANSACT_REQ ->
    option (SPD_IOCTL_STORAGE_UNIT_STATUS * list Z * D);
  bd_contents : D -> list Z;
  bd_wf : D -> Prop;
  bd_length d : bd_wf d -> BC * BL <= Z.of_nat (length (bd_contents d));
  bd_read d B h a n fua :
    bd_wf d -> 0 <= a -> 0 <= n -> a + n <= BC -> n * BL < 2 ^ 32 ->
    n * BL <= Z.of_nat (length B) ->
    exists s B' d', bd_serve d B (mkReq h SpdIoctlTransactReadKind (OpRead a n fua)) = Some (s, B', d') /\
      bd_wf d' /\ bd_contents d' = bd_contents d /\ length B' = length B /\
      (ScsiStatus s = SCSISTAT_GOOD -> exists bs,
         buf_read (Z.to_nat (a * BL)) (Z.to_nat (n * BL)) (bd_contents d) = Some bs /\
         buf_write 0 bs B = Some B');
  bd_write d B h a n fua :
    bd_wf d -> 0 <= a -> 0 <= n -> a + n <= BC -> n * BL < 2 ^ 32 ->
    n * BL <= Z.of_nat (length B) ->
    exists s d' bs, bd_serve d B (mkReq h SpdIoctlTransactWriteKind (OpWrite a n fua)) = Some (s, B, d') /\
      bd_wf d' /\ length bs = Z.to_nat (n * BL) /\
      buf_write (Z.to_nat (a * BL)) bs (bd_contents d) = Some (bd_contents d') /\
      (ScsiStatus s = SCSISTAT_GOOD -> buf_read 0 (Z.to_nat (n * BL)) B = Some bs)
}.

(** The service of one request to its end: the status, the request, the device, and the requests
    that the device got. *)
Fixpoint served_transfer {D BL BC} {BD : BlockDevice D BL BC} (fuel : nat) (DBG : bool)
    (Mem : gmap Z SPD_STORAGE_UNIT) (SrbExtension : Z) (e : SPD_SRB_EXTENSION) (Srb : SRB)
    (DataBuffer : list Z) (d : D) : option (Z * SRB * D * list SPD_IOCTL_TRANSACT_REQ) :=
  match fuel with
  | O => None
  | S fuel =>
      t ← SpdSrbExecuteScsiPrepare DBG Mem SrbExtension e Srb
            (mkTransact ReqZero rsp_good (Some DataBuffer));
      DataBuffer ← t_DataBuffer t;
      '(s, DataBuffer, d) ← bd_serve d DataBuffer (t_Req t);
      '(SrbStatus, e, Srb) ← SpdSrbExecuteScsiComplete DBG Mem e Srb
            (mkTransact (t_Req t) (mkRsp (req_Hint (t_Req t)) (req_Kind (t_Req t)) s) (Some DataBuffer));
      if SrbStatus =? SRB_STATUS_PENDING then
        '(SrbStatus, Srb, d, rs) ←
           served_transfer fuel DBG Mem SrbExtension e Srb DataBuffer d;
        Some (SrbStatus, Srb, d, t_Req t :: rs)
      else Some (SrbStatus, Srb, d, [t_Req t])
  end.

(** A request that ends with the error of the device. *)
Definition failed_transfer (Srb : SRB) (st : Z) (Srb' : SRB) : Prop :=
  exists s data, ScsiStatus s <> SCSISTAT_GOOD /\ length data = length (srb_Data Srb) /\
    (st, Srb') = check_condition (Srb <| srb_Data := data |>) (SenseKey s) (ASC s) (ASCQ s)
                   (if InformationValid s then Some (Information s) else None).

(** ** Completions *)

(** Only the status of a response matters, and of a good one only that it is good. *)
Lemma complete_good DBG Mem e Srb r h k s DB :
  ScsiStatus s = SCSISTAT_GOOD ->
  SpdSrbExecuteScsiComplete DBG Mem e Srb (mkTransact r (mkRsp h k s) DB) =
  SpdSrbExecuteScsiComplete DBG Mem e Srb (mkTransact r rsp_good DB).
Proof.
  intros Hs. unfold SpdSrbExecuteScsiComplete. cbn [t_Rsp rsp_Status t_DataBuffer].
  rewrite Hs. change (ScsiStatus (rsp_Status rsp_good)) with SCSISTAT_GOOD.
  by rewrite Z.eqb_refl.
Qed.

Lemma complete_error DBG Mem e Srb Srb0 r h k s DB u :
  Mem !! ext_StorageUnit e = Some u -> ScsiStatus s <> SCSISTAT_GOOD ->
  srb_wf Srb0 -> srb_Sense Srb = srb_Sense Srb0 -> srb_SenseInfoBuffer Srb = srb_SenseInfoBuffer Srb0 ->
  srb_SenseInfoBufferLength Srb = srb_SenseInfoBufferLength Srb0 ->
  exists st Srb', SpdSrbExecuteScsiComplete DBG Mem e Srb (mkTransact r (mkRsp h k s) DB) = Some (st, e, Srb') /\
    (st =? SRB_STATUS_PENDING) = false /\
    (st, Srb') = check_condition Srb (SenseKey s) (ASC s) (ASCQ s)
                   (if InformationValid s then Some (Information s) else None).
Proof.
  intros Hu Hs Hwf E1 E2 E3. unfold SpdSrbExecuteScsiComplete. rewrite Hu. opt. cbn [t_Rsp rsp_Status].
  rewrite (proj2 (Z.eqb_neq SCSISTAT_GOOD (ScsiStatus s))) by congruence. cbn [negb].
  rewrite (error_ex_spec Srb0 Hwf) by done.
  destruct (check_condition Srb _ _ _ _) as [st Srb'] eqn:E. rewrite bind_value.
  eexists _, _. split; [done|]. split; [|done].
  unfold check_condition in E. destruct (senses Srb); injection E as <- <-; reflexivity.
Qed.

(** ** Stores one after the other *)

Lemma buf_write_join off b1 b2 buf m buf' :
  buf_write off b1 buf = Some m -> buf_write (off + length b1) b2 m = Some buf' ->
  buf_write off (b1 ++ b2) buf = Some buf'.
Proof.
  intros H1 H2. pose proof (buf_write_length _ _ _ _ H1) as Hl1.
  pose proof (buf_write_length _ _ _ _ H2) as Hl2.
  pose proof (buf_write_inv _ _ _ _ H2) as [Hle2 _].
  destruct (proj2 (buf_write_is_Some off (b1 ++ b2) buf)) as [x Hx]; [rewrite length_app; lia|].
  rewrite Hx. f_equal. destruct (buf_write_split _ _ _ _ _ Hx) as (m' & Hm & Hx').
  rewrite H1 in Hm. injection Hm as <-. congruence.
Qed.

Lemma buf_write_same off n v :
  (off + n <= length v)%nat -> buf_write off (take n (drop off v)) v = Some v.
Proof.
  intros H. rewrite buf_write_Some by (rewrite length_take, length_drop; lia).
  rewrite length_take, length_drop, Nat.min_l by lia. rewrite <- drop_drop. by rewrite !take_drop.
Qed.

(** A store, seen as a longer one that keeps what follows. *)
Lemma failed_write_rest o w1 (b2 : list Z) v v' :
  buf_write (Z.to_nat o) w1 v = Some v' ->
  (Z.to_nat o + length w1 + length b2 <= length v)%nat ->
  exists ws, length ws = length (w1 ++ b2) /\ buf_write (Z.to_nat o) ws v = Some v'.
Proof.
  intros HW Hl. pose proof (buf_write_length _ _ _ _ HW) as Hl'.
  exists (w1 ++ take (length b2) (drop (Z.to_nat o + length w1) v')).
  split; [rewrite !length_app, length_take, length_drop; lia|].
  eapply buf_write_join; [exact HW|]. apply buf_write_same. lia.
Qed.

(** ** Transfers *)

Section Served.
Context {D : Type} (DBG : bool) (Mem : gmap Z SPD_STORAGE_UNIT) (u : SPD_STORAGE_UNIT).
Let P := StorageUnitParams u.
Context {BD : BlockDevice D (BlockLength P) (BlockCount P)}.
Context (HP : params_wf P).
Context (SrbExtension StorageUnit Srb_ Buf len lba n fua : Z).
Context (Hu : Mem !! StorageUnit = Some u) (HBuf : Buf <> 0).
Context (Hlen : len = n * BlockLength P) (Hlen32 : 0 < len < 2 ^ 32).
Context (Hrange : 0 <= lba /\ lba + n <= BlockCount P).
Context (Srb : SRB) (Hwf : srb_wf Srb).
Context (op : Z) (Hop : SrbGetCdb Srb !! 0%nat = Some op).
Context (Hcdb : SpdCdbGetRange DBG (SrbGetCdb Srb) = Some (lba, n, fua)).

Let ext (off : Z) : SPD_SRB_EXTENSION := mkExt StorageUnit Srb_ Buf len off.
Let with_Data (d : list Z) : SRB := Srb <| srb_Data := d |>.

(** The blocks of a chunk are blocks of the device. *)
Lemma chunk_in_range off :
  0 <= off < len -> off mod BlockLength P = 0 ->
  let c := Z.min (MaxTransferLength P) (len - off) in
  let a := lba + off / BlockLength P in
  0 <= a /\ 0 <= c / BlockLength P /\ a + c / BlockLength P <= BlockCount P /\
  c / BlockLength P * BlockLength P = c /\ a * BlockLength P = lba * BlockLength P + off.
Proof using HP Hlen Hlen32 Hrange fua StorageUnit Srb_ Buf.
  intros Hoff Hmod c a. pose proof (wf_BlockLength _ HP).
  destruct (chunk_blocks u HP StorageUnit Srb_ Buf len lba n fua Hlen Hlen32 Hrange off Hoff Hmod)
    as (_ & Ha & Hc & H0).
  destruct (chunk_facts u HP len n Hlen Hlen32 off Hoff Hmod) as (Hc1 & _).
  cbv beta in *. fold P in Ha, Hc, H0. subst a c.
  assert (0 <= off / BlockLength P) by (apply Z.div_pos; lia).
  split_and!; try done; try lia.
  assert ((lba + off / BlockLength P + Z.min (MaxTransferLength P) (len - off) / BlockLength P) *
    BlockLength P <= BlockCount P * BlockLength P); [|nia].
  rewrite Z.mul_add_distr_r, Ha, Hc. nia.
Qed.

Lemma failed_data data st Srb' :
  length data = length (srb_Data Srb) ->
  (exists s, ScsiStatus s <> SCSISTAT_GOOD /\
     (st, Srb') = check_condition (with_Data data) (SenseKey s) (ASC s) (ASCQ s)
                    (if InformationValid s then Some (Information s) else None)) ->
  failed_transfer Srb st Srb'.
Proof using. intros Hl (s & Hs & E). by exists s, data. Qed.

Lemma served_read fuel off data bs data' d DB :
  is_read_op op = true -> bd_wf d ->
  Z.of_nat (length DB) = MaxTransferLength P -> length data = length (srb_Data Srb) ->
  0 <= off < len -> off mod BlockLength P = 0 ->
  len - off <= Z.of_nat fuel * MaxTransferLength P ->
  buf_read (Z.to_nat (lba * BlockLength P + off)) (Z.to_nat (len - off)) (bd_contents d) = Some bs ->
  buf_write (Z.to_nat off) bs data = Some data' ->
  exists st Srb' d' rs,
    served_transfer fuel DBG Mem SrbExtension (ext off) (with_Data data) DB d = Some (st, Srb', d', rs) /\
    bd_wf d' /\ bd_contents d' = bd_contents d /\
    (st = SRB_STATUS_SUCCESS /\ Srb' = with_Data data' /\
       covers P rs (lba + off / BlockLength P) ((len - off) / BlockLength P) \/
     failed_transfer Srb st Srb').
Proof using HP Hlen Hlen32 Hrange Hu HBuf Hop Hcdb Hwf.
  intros Hread. unfold ext, with_Data. revert off data bs data' d DB.
  induction fuel as [|fuel IH]; intros off data bs data' d DB Hd HDB Hld Hoff Hmod Hfuel Hbs Hdata; [lia|].
  pose proof (chunk_facts u HP len n Hlen Hlen32 off Hoff Hmod) as (Hc & HcM & Hcm & Hom & Hrest).
  pose proof (chunk_in_range off Hoff Hmod) as (Hr1 & Hr2 & Hr3 & Hr4 & Hr5).
  pose proof (rest_split u HP len lba n Hlen Hlen32 Hrange off Hoff Hmod) as (E1 & E2 & E3).
  pose proof (chunk_fits u HP 0 0 0 len lba n 0 Hlen Hlen32 Hrange off Hoff Hmod) as Hfit.
  cbv beta zeta in *. fold P in Hc, HcM, Hcm, Hom, Hrest, E1, E2, E3, Hfit.
  set (c := Z.min (MaxTransferLength P) (len - off)) in *.
  rewrite E1 in Hbs. apply buf_read_split in Hbs as (b1 & b2 & -> & Hb1 & Hb2).
  apply buf_write_split in Hdata as (d1 & Hd1 & Hd2).
  destruct (buf_read_Some _ _ _ _ Hb1) as [Hl1 _].
  pose proof (buf_write_length _ _ _ _ Hd1) as Hld1.
  cbn [served_transfer]. erewrite prepare_read by done. rewrite bind_value. fold P.
  set (S1 := Srb <| srb_Data := data |>). cbn [t_DataBuffer t_Req update Update]. subst S1.
  rewrite bind_value.
  destruct (bd_read d DB SrbExtension (lba + off / BlockLength P) (c / BlockLength P)
    (if CacheSupported P then fua else 1) Hd Hr1 Hr2 Hr3) as (s & B' & d' & Hs & Hd' & Hcd & HlB & Hg);
    [rewrite Hr4; lia|rewrite Hr4; lia|].
  subst c. cbv beta. rewrite Hs, bind_value. cbn [req_Hint req_Kind].
  set (c := Z.min (MaxTransferLength P) (len - off)) in *.
  destruct (Z.eq_dec (ScsiStatus s) SCSISTAT_GOOD) as [Es|Es].
  2: { destruct (complete_error DBG Mem (ext off) (with_Data data) Srb
         (mkReq SrbExtension SpdIoctlTransactReadKind (OpRead (lba + off / BlockLength P)
            (c / BlockLength P) (if CacheSupported P then fua else 1)))
         SrbExtension SpdIoctlTransactReadKind s (Some B') u Hu Es Hwf eq_refl eq_refl eq_refl)
         as (st & Srb' & HE & Hst & HC). unfold ext, with_Data in HE. rewrite HE, bind_value, Hst.
       eexists _, _, _, _. split; [reflexivity|]. split_and!; try done. right.
       apply (failed_data data); [done|]. by exists s. }
  rewrite complete_good by done. destruct (Hg Es) as (b1' & Hb1' & HB').
  rewrite Hr4, Hr5, Hb1 in Hb1'. injection Hb1' as <-.
  pose proof (buf_read_write_same _ _ _ _ HB') as Hrd. rewrite Hl1 in Hrd.
  erewrite complete_read by done. fold P c. rewrite bind_value.
  case_decide as Hlast.
  - change (SRB_STATUS_SUCCESS =? SRB_STATUS_PENDING) with false. cbv iota.
    assert (b2 = []) as ->.
    { apply nil_length_inv. destruct (buf_read_Some _ _ _ _ Hb2) as [-> _]. lia. }
    apply buf_write_inv in Hd2 as [_ Hd2]. simpl in Hd2. rewrite Nat.add_0_r, take_drop in Hd2.
    subst d1. eexists _, _, _, _. split; [reflexivity|]. split_and!; try done. left. split_and!; try done.
    apply (covers_cons u HP len lba n Hlen Hlen32); try done. by apply covers_last.
  - change (SRB_STATUS_PENDING =? SRB_STATUS_PENDING) with true. cbv iota.
    destruct (IH (off + c) d1 b2 data' d' B') as (st & Srb' & d2 & rs & HE & Hd2' & Hc2 & Hout);
      try done; try lia.
    { rewrite E3, Hcd. done. }
    { rewrite E2, <- Hl1. done. }
    rewrite HE, bind_value. eexists _, _, _, _. split; [reflexivity|].
    split; [done|]. split; [congruence|]. destruct Hout as [(-> & -> & Hcov)|Hf]; [left|by right].
    split_and!; try done. by apply (covers_cons u HP len lba n Hlen Hlen32).
Qed.

(** A write that fails may have written some of its blocks, and nothing else. *)
Lemma served_write fuel off bs d DB :
  is_read_op op = false -> is_write_op op = true -> bd_wf d ->
  Z.of_nat (length DB) = MaxTransferLength P ->
  0 <= off < len -> off mod BlockLength P = 0 ->
  len - off <= Z.of_nat fuel * MaxTransferLength P ->
  buf_read (Z.to_nat off) (Z.to_nat (len - off)) (srb_Data Srb) = Some bs ->
  exists st Srb' d' rs ws,
    served_transfer fuel DBG Mem SrbExtension (ext off) Srb DB d = Some (st, Srb', d', rs) /\
    bd_wf d' /\ length ws = length bs /\
    buf_write (Z.to_nat (lba * BlockLength P + off)) ws (bd_contents d) = Some (bd_contents d') /\
    (st = SRB_STATUS_SUCCESS /\ Srb' = Srb /\ ws = bs /\
       covers P rs (lba + off / BlockLength P) ((len - off) / BlockLength P) \/
     failed_transfer Srb st Srb').
Proof using HP Hlen Hlen32 Hrange Hu HBuf Hop Hcdb Hwf.
  intros Hread Hwrite. unfold ext. revert off bs d DB.
  induction fuel as [|fuel IH]; intros off bs d DB Hd HDB Hoff Hmod Hfuel Hbs; [lia|].
  assert (Srb <| srb_Data := srb_Data Srb |> = Srb) as Esrb by (destruct Srb; reflexivity).
  pose proof (fun t b DB DB' => prepare_write DBG Mem u HP SrbExtension StorageUnit Srb_ Buf len lba n fua
    Hu HBuf Hlen Hlen32 Hrange Srb op Hop Hcdb off (srb_Data Srb) t b DB DB' Hread Hwrite Hoff Hmod) as Hprep.
  pose proof (fun r DB => complete_write DBG Mem u HP StorageUnit Srb_ Buf len n Hu Hlen Hlen32 Srb op Hop off
    (srb_Data Srb) r DB Hread Hwrite Hoff Hmod) as Hcomp.
  pose proof (chunk_facts u HP len n Hlen Hlen32 off Hoff Hmod) as (Hc & HcM & Hcm & Hom & Hrest).
  pose proof (chunk_in_range off Hoff Hmod) as (Hr1 & Hr2 & Hr3 & Hr4 & Hr5).
  pose proof (rest_split u HP len lba n Hlen Hlen32 Hrange off Hoff Hmod) as (E1 & E2 & E3).
  pose proof (chunk_fits u HP 0 0 0 len lba n 0 Hlen Hlen32 Hrange off Hoff Hmod) as Hfit.
  cbv beta zeta in *. fold P in Hc, HcM, Hcm, Hom, Hrest, E1, E2, E3, Hfit, Hprep, Hcomp.
  rewrite Esrb in Hprep, Hcomp.
  set (c := Z.min (MaxTransferLength P) (len - off)) in *.
  rewrite E1 in Hbs. apply buf_read_split in Hbs as (b1 & b2 & -> & Hb1 & Hb2).
  destruct (buf_read_Some _ _ _ _ Hb1) as [Hl1 _]. destruct (buf_read_Some _ _ _ _ Hb2) as [Hl2 _].
  destruct (proj2 (buf_write_is_Some 0 b1 DB) ltac:(lia)) as [DB' HDB'].
  pose proof (buf_write_length _ _ _ _ HDB') as HlDB.
  pose proof (buf_read_write_same _ _ _ _ HDB') as Hrd. rewrite Hl1 in Hrd.
  cbn [served_transfer]. erewrite Hprep by done. rewrite bind_value.
  cbn [t_DataBuffer t_Req update Update]. rewrite bind_value.
  destruct (bd_write d DB' SrbExtension (lba + off / BlockLength P) (c / BlockLength P)
    (if CacheSupported P then fua else 1) Hd Hr1 Hr2 Hr3) as (s & d' & w1 & Hs & Hd' & Hlw & HW & Hg);
    [rewrite Hr4; lia|rewrite Hr4; lia|].
  rewrite Hr4 in Hlw, Hg. rewrite Hr5 in HW.
  rewrite Hs, bind_value. cbn [req_Hint req_Kind].
  destruct (Z.eq_dec (ScsiStatus s) SCSISTAT_GOOD) as [Es|Es].
  2: { destruct (complete_error DBG Mem (ext off) Srb Srb
         (mkReq SrbExtension SpdIoctlTransactWriteKind (OpWrite (lba + off / BlockLength P)
            (c / BlockLength P) (if CacheSupported P then fua else 1)))
         SrbExtension SpdIoctlTransactWriteKind s (Some DB') u Hu Es Hwf eq_refl eq_refl eq_refl)
         as (st & Srb' & HE & Hst & HC). unfold ext in HE. rewrite HE, bind_value, Hst.
       destruct (failed_write_rest (lba * BlockLength P + off) w1 b2 (bd_contents d) (bd_contents d'))
         as (ws & Hws & Hww); [done| |].
       { rewrite Hl2, Hlw, <- E3. pose proof (bd_length d Hd). pose proof (wf_BlockLength _ HP).
         assert (lba * BlockLength P + len <= BlockCount P * BlockLength P) by nia.
         assert (0 <= lba * BlockLength P) by nia. lia. }
       eexists _, _, _, _, ws. split; [reflexivity|].
       split_and!; try done; [rewrite Hws, !length_app; lia|]. right.
       apply (failed_data (srb_Data Srb)); [done|]. exists s. unfold with_Data. by rewrite Esrb. }
  rewrite complete_good by done. rewrite (Hg Es) in Hrd. injection Hrd as ->.
  rewrite Hcomp, bind_value.
  case_decide as Hlast.
  - change (SRB_STATUS_SUCCESS =? SRB_STATUS_PENDING) with false. cbv iota.
    assert (b2 = []) as -> by (apply nil_length_inv; lia). rewrite app_nil_r.
    eexists _, _, _, _, b1. split; [reflexivity|]. split_and!; try done. left. split_and!; try done.
    apply (covers_cons u HP len lba n Hlen Hlen32); try done. by apply covers_last.
  - change (SRB_STATUS_PENDING =? SRB_STATUS_PENDING) with true. cbv iota.
    destruct (IH (off + c) b2 d' DB') as (st & Srb' & d2 & rs & w2 & HE & Hd2' & Hl2' & HW2 & Hout);
      try done; try lia.
    { rewrite E2. done. }
    rewrite HE, bind_value. eexists _, _, _, _, (b1 ++ w2). split; [reflexivity|].
    split; [done|]. split; [rewrite !length_app; lia|]. split.
    + rewrite E3 in HW2. rewrite <- Hl1 in HW2. by eapply buf_write_join.
    + destruct Hout as [(-> & -> & -> & Hcov)|Hf]; [left|by right].
      split_and!; try done. by apply (covers_cons u HP len lba n Hlen Hlen32).
Qed.
End Served.

(** * Properties of the driver and a storage device together

    The driver's chunks over any [BlockDevice], and the instance for the disk of [RawDisk] behind
    the dispatcher's switch. *)

(** ** The disk is such a device *)

Section RawDiskDevice.
Context {F : Type} {HF : MappedFile F} {HL : MappedFileLaws F} (RawDisk : RAWDISK).

Definition rawdisk_serve (f : F) (B : list Z) (q : SPD_IOCTL_TRANSACT_REQ)
    : option (SPD_IOCTL_STORAGE_UNIT_STATUS * list Z * F) :=
  '(Complete, B, s, f) ← serve RawDisk f B q; if (Complete : bool) then Some (s, B, f) else None.

Program Definition rawdisk_device
    : BlockDevice F (rd_BlockLength RawDisk) (rd_BlockCount RawDisk) := {|
  bd_serve := rawdisk_serve;
  bd_contents f := View f;
  bd_wf f := disk_wf RawDisk f
|}.
Next Obligation. intros d [_ _ H]. lia. Qed.
Next Obligation.
  intros f B h a n fua Hw Ha Hn Hr H32 HB.
  destruct (read_spec RawDisk f B a n fua Hw) as (B' & s & f' & E & HV & Hs & Hl & Hg); try done.
  unfold rawdisk_serve.
  change (serve RawDisk f B (mkReq h SpdIoctlTransactReadKind (OpRead a n fua)))
    with (RawDiskRead RawDisk f B a n fua ZeroStatus). rewrite E, bind_value.
  eexists _, _, _. split; [reflexivity|].
  split_and!; try done; [apply (disk_wf_view RawDisk f); [done|by rewrite HV]|].
  intros Es. apply Hg. unfold good. by rewrite Es.
Qed.
Next Obligation.
  intros f B h a n fua Hw Ha Hn Hr H32 HB.
  destruct (write_spec RawDisk f B a n fua Hw) as (s & f' & bs & E & Hs & Hl & HW & Hg & _); try done.
  unfold rawdisk_serve.
  change (serve RawDisk f B (mkReq h SpdIoctlTransactWriteKind (OpWrite a n fua)))
    with (RawDiskWrite RawDisk f B a n fua ZeroStatus). rewrite E, bind_value.
  eexists _, _, bs. split; [reflexivity|].
  split_and!; try done; [apply (disk_wf_view RawDisk f); [done|by eapply buf_write_length]|].
  intros Es. apply Hg. unfold good. by rewrite Es.
Qed.
End RawDiskDevice.

(** ** Properties *)

(** C9: Over any storage device, a READ of a range inside the unit is posted, and is served to its
    end whatever the device reports: either with success, and the first bytes of the data buffer
    are exactly the blocks of the range, as the device has them, and its requests cover the
    range, each block once, in requests that fit the maximum transfer length; or with the error
    of the device as its sense data.  The contents of the device stay. *)
Theorem scsi_read_served DBG D u (BD : BlockDevice D (BlockLength (StorageUnitParams u))
    (BlockCount (StorageUnitParams u))) StorageUnit SrbAddress Buf q Q Srb op lba n fua Mem d DataBuffer :
  range_command DBG u SrbAddress Buf q Q Srb op lba n fua -> is_read_op op = true ->
  Mem !! StorageUnit = Some u -> bd_wf d ->
  let P := StorageUnitParams u in
  let len := n * BlockLength P in
  Z.of_nat (length DataBuffer) = MaxTransferLength P ->
  exists q', SpdScsiPostRangeSrb DBG u StorageUnit SrbAddress (STOR_STATUS_SUCCESS, Buf) Srb
               (SrbGetCdb Srb) = Some (SRB_STATUS_PENDING, Srb, q') /\
    let rq := posted_request StorageUnit SrbAddress Buf len Srb in
    ioq_abs q' (q_post Q rq).2 /\
    forall fuel, len <= Z.of_nat fuel * MaxTransferLength P ->
    exists st Srb' d' rs,
      served_transfer fuel DBG Mem (rq_ext rq) (rq_value rq) Srb DataBuffer d = Some (st, Srb', d', rs) /\
      bd_wf d' /\ bd_contents d' = bd_contents d /\
      (st = SRB_STATUS_SUCCESS /\ covers P rs lba n /\
       Srb' = Srb <| srb_Data :=
         take (Z.to_nat len) (drop (Z.to_nat (lba * BlockLength P)) (bd_contents d)) ++
         drop (Z.to_nat len) (srb_Data Srb) |> \/
       failed_transfer Srb st Srb').
Proof.
  intros Hrc Hread Hu Hd P len HDB.
  destruct (range_command_facts _ _ _ _ _ _ _ _ _ _ _ Hrc) as (HP & Hlen & Hdata & _).
  destruct (range_command_posts _ _ StorageUnit _ _ _ _ _ _ _ _ _ Hrc (or_introl Hread))
    as (q' & Hpost & Ha). exists q'. split; [done|]. split; [done|]. intros fuel Hfuel.
  destruct Hrc as [Hpc _ Hop Hcdb Hr _ [_ HB]]. fold P len in HP, Hlen, Hdata, Hr.
  pose proof (wf_BlockLength _ HP).
  assert (BlockCount P * BlockLength P <= Z.of_nat (length (bd_contents d))) as Hbl by exact (bd_length d Hd).
  assert (0 <= lba * BlockLength P /\ lba * BlockLength P + len <= BlockCount P * BlockLength P)
    as [Ho Ho'].
  { assert ((lba + n) * BlockLength P <= BlockCount P * BlockLength P) by nia. subst len. nia. }
  assert (Z.to_nat (lba * BlockLength P) + Z.to_nat len <= length (bd_contents d))%nat as Hnat by lia.
  set (bs := take (Z.to_nat len) (drop (Z.to_nat (lba * BlockLength P)) (bd_contents d))).
  assert (length bs = Z.to_nat len) as Hlb by (subst bs; rewrite length_take, length_drop; lia).
  destruct (served_read DBG Mem u HP (SpdSrbExtension Srb) StorageUnit SrbAddress Buf len lba n fua Hu HB
    eq_refl Hlen (conj (proj1 Hr) (proj2 (proj2 Hr))) Srb (pc_srb _ _ _ _ _ Hpc) op Hop Hcdb fuel 0 (srb_Data Srb) bs
    (bs ++ drop (Z.to_nat len) (srb_Data Srb)) d DataBuffer) as (st & Srb' & d' & rs & HE & Hd' & Hc & Hout);
    try done; try lia.
  { by rewrite Z.sub_0_r. }
  { subst bs. rewrite Z.add_0_r, Z.sub_0_r. unfold buf_read. by rewrite decide_True by exact Hnat. }
  { rewrite buf_write_Some by (simpl; lia). change (Z.to_nat 0) with 0%nat. rewrite take_0. simpl.
    do 2 f_equal. by rewrite Hlb. }
  assert (Srb <| srb_Data := srb_Data Srb |> = Srb) as Esrb by (destruct Srb; reflexivity).
  rewrite Esrb in HE. exists st, Srb', d', rs. split; [exact HE|]. split; [done|]. split; [done|].
  destruct Hout as [(-> & -> & Hcov)|Hf]; [left|by right]. split; [done|]. split; [|done].
  rewrite Zdiv_0_l, Z.add_0_r, Z.sub_0_r in Hcov. fold P in Hcov. subst len.
  by rewrite Z.div_mul in Hcov by lia.
Qed.

(** C11: Over any storage device, a WRITE of a range inside a unit that is not write protected is
    posted, and is served to its end whatever the device reports: either with success, and the
    device has the first bytes of the data buffer in the blocks of the range; or with the error
    of the device as its sense data.  Either way nothing outside of the range changes. *)
Theorem scsi_write_served DBG D u (BD : BlockDevice D (BlockLength (StorageUnitParams u))
    (BlockCount (StorageUnitParams u))) StorageUnit SrbAddress Buf q Q Srb op lba n fua Mem d DataBuffer :
  range_command DBG u SrbAddress Buf q Q Srb op lba n fua ->
  is_read_op op = false -> is_write_op op = true -> WriteProtected (StorageUnitParams u) = false ->
  Mem !! StorageUnit = Some u -> bd_wf d ->
  let P := StorageUnitParams u in
  let len := n * BlockLength P in
  Z.of_nat (length DataBuffer) = MaxTransferLength P ->
  exists q', SpdScsiPostRangeSrb DBG u StorageUnit SrbAddress (STOR_STATUS_SUCCESS, Buf) Srb
               (SrbGetCdb Srb) = Some (SRB_STATUS_PENDING, Srb, q') /\
    let rq := posted_request StorageUnit SrbAddress Buf len Srb in
    ioq_abs q' (q_post Q rq).2 /\
    forall fuel, len <= Z.of_nat fuel * MaxTransferLength P ->
    exists st Srb' d' rs ws,
      served_transfer fuel DBG Mem (rq_ext rq) (rq_value rq) Srb DataBuffer d = Some (st, Srb', d', rs) /\
      bd_wf d' /\ Z.of_nat (length ws) = len /\
      buf_write (Z.to_nat (lba * BlockLength P)) ws (bd_contents d) = Some (bd_contents d') /\
      (st = SRB_STATUS_SUCCESS /\ covers P rs lba n /\ Srb' = Srb /\
       ws = take (Z.to_nat len) (srb_Data Srb) \/
       failed_transfer Srb st Srb').
Proof.
  intros Hrc Hread Hwrite Hwp Hu Hd P len HDB.
  destruct (range_command_facts _ _ _ _ _ _ _ _ _ _ _ Hrc) as (HP & Hlen & Hdata & _).
  destruct (range_command_posts _ _ StorageUnit _ _ _ _ _ _ _ _ _ Hrc
    (or_intror (conj Hread (conj Hwrite Hwp)))) as (q' & Hpost & Ha).
  exists q'. split; [done|]. split; [done|]. intros fuel Hfuel.
  destruct Hrc as [Hpc _ Hop Hcdb Hr _ [_ HB]]. fold P len in HP, Hlen, Hdata, Hr.
  pose proof (wf_BlockLength _ HP).
  destruct (served_write DBG Mem u HP (SpdSrbExtension Srb) StorageUnit SrbAddress Buf len lba n fua Hu HB
    eq_refl Hlen (conj (proj1 Hr) (proj2 (proj2 Hr))) Srb (pc_srb _ _ _ _ _ Hpc) op Hop Hcdb fuel 0
    (take (Z.to_nat len) (srb_Data Srb)) d DataBuffer)
    as (st & Srb' & d' & rs & ws & HE & Hd' & Hl & HW & Hout); try done; try lia.
  { by rewrite Z.sub_0_r. }
  { rewrite Z.sub_0_r. unfold buf_read. rewrite decide_True by (simpl; lia). done. }
  rewrite Z.add_0_r in HW. rewrite length_take in Hl.
  exists st, Srb', d', rs, ws. split; [exact HE|]. split; [done|]. split; [lia|]. split; [exact HW|].
  destruct Hout as [(-> & -> & -> & Hcov)|Hf]; [left|by right]. split; [done|]. split; [|done].
  rewrite Zdiv_0_l, Z.add_0_r, Z.sub_0_r in Hcov. fold P in Hcov. subst len.
  by rewrite Z.div_mul in Hcov by lia.
Qed.

(** ** Concrete instances *)

(** The disk of 16 blocks of 512 bytes, whose file has the in-page errors [faults]. *)
Definition served_rawdisk : RAWDISK :=
  mkRawDisk (Dispatcher.mkStorageUnit (StorageUnitParams example_small_unit) 8 0 0 0 0 0 0) 16 512 12 16
    0x10000 false.

Definition served_file (faults : list bool) : PLAIN := mkPlain example_disk example_disk faults.

Lemma served_wf faults : @disk_wf PLAIN (plain_file false) served_rawdisk (served_file faults).
Proof.
  constructor; [vm_compute; by split|vm_compute; discriminate|].
  split; [vm_compute; discriminate|vm_compute; reflexivity].
Qed.

(** The second chunk of a read cannot be paged in. *)
Lemma scsi_read_served_witness :
  let BD := @rawdisk_device PLAIN (plain_file false) (plain_file_laws false) served_rawdisk in
  let rq := posted_request 0x5000 0x5000 0x9000 1536 example_read in
  exists st Srb' d' rs,
    @served_transfer _ _ _ BD 2 true {[0x5000 := example_small_unit]} (rq_ext rq) (rq_value rq) example_read
      (replicate (Z.to_nat 1024) 0) (served_file [false; true]) = Some (st, Srb', d', rs) /\
    pf_View d' = example_disk /\ st <> SRB_STATUS_SUCCESS /\ failed_transfer example_read st Srb'.
Proof.
  intros BD rq.
  destruct (example_range_command SCSIOP_READ ltac:(apply list_elem_of_In; simpl; tauto)) as (q & Hrc).
  destruct (scsi_read_served true PLAIN example_small_unit BD 0x5000 0x5000 0x9000 q empty_queue example_read
    SCSIOP_READ 5 3 0 {[0x5000 := example_small_unit]} (served_file [false; true])
    (replicate (Z.to_nat 1024) 0) Hrc eq_refl (lookup_singleton_eq _ _) (served_wf _) ltac:(reflexivity))
    as (q' & _ & _ & Hserve).
  destruct (Hserve 2%nat ltac:(vm_compute; discriminate)) as (st & Srb' & d' & rs & HE & _ & Hc & Hout).
  exists st, Srb', d', rs. split; [exact HE|]. split; [exact Hc|].
  assert (st <> SRB_STATUS_SUCCESS) as Hst.
  { apply (f_equal (fun r => match r with Some (st, _, _, _) => st | None => 0 end)) in HE.
    cbv beta iota in HE. intros E. rewrite E in HE. clear - HE. vm_compute in HE. discriminate HE. }
  split; [exact Hst|]. destruct Hout as [(E & _)|Hf]; [exfalso; exact (Hst E)|exact Hf].
Defined.

Lemma scsi_write_served_witness :
  let BD := @rawdisk_device PLAIN (plain_file false) (plain_file_laws false) served_rawdisk in
  let rq := posted_request 0x5000 0x5000 0x9000 1536 example_write in
  exists st Srb' d' rs ws,
    @served_transfer _ _ _ BD 2 true {[0x5000 := example_small_unit]} (rq_ext rq) (rq_value rq) example_write
      (replicate (Z.to_nat 1024) 0) (served_file []) = Some (st, Srb', d', rs) /\
    buf_write (Z.to_nat 2560) ws example_disk = Some (pf_View d') /\ Z.of_nat (length ws) = 1536.
Proof.
  intros BD rq.
  destruct (example_range_command SCSIOP_WRITE ltac:(apply list_elem_of_In; simpl; tauto)) as (q & Hrc).
  destruct (scsi_write_served true PLAIN example_small_unit BD 0x5000 0x5000 0x9000 q empty_queue example_write
    SCSIOP_WRITE 5 3 0 {[0x5000 := example_small_unit]} (served_file [])
    (replicate (Z.to_nat 1024) 0) Hrc eq_refl eq_refl eq_refl (lookup_singleton_eq _ _) (served_wf _)
    ltac:(reflexivity)) as (q' & _ & _ & Hserve).
  destruct (Hserve 2%nat ltac:(vm_compute; discriminate))
    as (st & Srb' & d' & rs & ws & HE & _ & Hl & HW & _).
  exists st, Srb', d', rs, ws. split; [exact HE|]. split; [exact HW|exact Hl].
Defined.
