(* ===== verification/StgTest.v ===== *)
(** * The tester of storage units: [stgtest/stgtest.c]

    [stgtest] opens a unit, over the pipe of its storage device or as a volume of the system,
    sends it requests and compares what it reads with what it has written.  The files of the
    system are an argument, [FileSystem].  An access outside of a buffer and a division by zero
    are [None].  The messages that it prints are left out. *)

From S2P Require Import Prelude Wdk IoctlTypes Minimal StrToInt IoctlDevice ScsiIo HashMix StgHandle.

(** ** The system *)

(** What the system does with the handles of [stgtest]; an operation gives the result of
    [SpdOverlappedWaitResult].  A message is a request or a response with the data that follow. *)
Class FileSystem (T : Type) := {
  fs_OverlappedInit : T -> Z;
  fs_MemAlloc : T -> Z -> bool;
  fs_WriteMsg : T -> Z -> SPD_IOCTL_TRANSACT_REQ * list Z -> Z * T;
  fs_ReadMsg : T -> Z -> Z * Z * (SPD_IOCTL_TRANSACT_RSP * list Z) * T;
  fs_WriteAt : T -> Z -> Z -> list Z -> Z * Z * T;
  fs_ReadAt : T -> Z -> Z -> list Z -> Z * Z * list Z * T;
  fs_CloseHandle : T -> Z -> T
}.

Section StgTest.
Context {T : Type} {FS : FileSystem T}.

(** ** Pipes *)

(** [Op.Read.BlockCount] of a request, whatever its kind: the members of the union overlap, and
    the request was zeroed. *)
Definition op_block_count (Req : SPD_IOCTL_TRANSACT_REQ) : Z :=
  match req_Op Req with
  | OpRead _ n _ | OpWrite _ n _ | OpFlush _ n => n
  | OpUnmap _ | OpNone => 0
  end.

(** The length of the data that go with a request. *)
Definition sent_length (Req : SPD_IOCTL_TRANSACT_REQ) (P : SPD_IOCTL_STORAGE_UNIT_PARAMS) : Z :=
  if SpdIoctlTransactWriteKind =? req_Kind Req then u32 (op_block_count Req * BlockLength P)
  else if SpdIoctlTransactUnmapKind =? req_Kind Req then
    match req_Op Req with
    | OpUnmap Count => u32 (Count * sizeof_SPD_IOCTL_UNMAP_DESCRIPTOR)
    | _ => 0
    end
  else 0.

(** The data of a response, copied to the buffer: what came, and zeros. *)
Definition received_data (DataBuffer : list Z) (DataLength BytesTransferred : Z) (data : list Z)
    : option (list Z) :=
  let n := if BytesTransferred >? DataLength then DataLength else BytesTransferred in
  bs ← buf_read 0 (Z.to_nat n) data;
  DataBuffer ← buf_write 0 bs DataBuffer;
  buf_write (Z.to_nat n) (replicate (Z.to_nat (DataLength - n)) 0) DataBuffer.

(** [StgTransactPipe]: the error, the response if there is none, and the buffer.  [Rsp] tells
    whether a response is asked for. *)
Definition StgTransactPipe (t : T) (Handle : Z) (Req : option SPD_IOCTL_TRANSACT_REQ) (Rsp : bool)
    (DataBuffer : option (list Z)) (P : SPD_IOCTL_STORAGE_UNIT_PARAMS)
    : option (Z * option SPD_IOCTL_TRANSACT_RSP * option (list Z) * T) :=
  match Req with
  | None => Some (ERROR_INVALID_PARAMETER, None, DataBuffer, t)
  | Some Req =>
  if negb Rsp then Some (ERROR_INVALID_PARAMETER, None, DataBuffer, t)
  else
  let Error := fs_OverlappedInit t in
  if negb (ERROR_SUCCESS =? Error) then Some (Error, None, DataBuffer, t)
  else if negb (fs_MemAlloc t (sizeof_TRANSACT_MSG + MaxTransferLength P))
  then Some (ERROR_NO_SYSTEM_RESOURCES, None, DataBuffer, t)
  else
    let DataLength := match DataBuffer with Some _ => sent_length Req P | None => 0 end in
    data ← (if negb (0 =? DataLength) then
              DataBuffer ← DataBuffer;
              if DataLength >? MaxTransferLength P then None
              else buf_read 0 (Z.to_nat DataLength) DataBuffer
            else Some []);
    let '(err, t) := fs_WriteMsg t Handle (Req, data) in
    if negb (ERROR_SUCCESS =? err) then Some (err, None, DataBuffer, t)
    else
      let '(err, BytesTransferred, (R, data), t) := fs_ReadMsg t Handle in
      if negb (ERROR_SUCCESS =? err) then Some (err, None, DataBuffer, t)
      else if (sizeof_TRANSACT_MSG >? BytesTransferred) || negb (req_Hint Req =? rsp_Hint R)
      then Some (ERROR_IO_DEVICE, None, DataBuffer, t)
      else if (SpdIoctlTransactReadKind =? rsp_Kind R) &&
              (SCSISTAT_GOOD =? ScsiStatus (rsp_Status R)) then
        let DataLength := u32 (op_block_count Req * BlockLength P) in
        if DataLength >? MaxTransferLength P then Some (ERROR_IO_DEVICE, None, DataBuffer, t)
        else
          DataBuffer ← DataBuffer;
          DataBuffer ← received_data DataBuffer DataLength (BytesTransferred - sizeof_TRANSACT_MSG) data;
          Some (ERROR_SUCCESS, Some R, Some DataBuffer, t)
      else Some (ERROR_SUCCESS, Some R, DataBuffer, t)
  end.

(** The test of the parameters that the pipe sends first, in [StgOpenPipe]. *)
Definition pipe_params_ok (BytesTransferred : Z) (P : SPD_IOCTL_STORAGE_UNIT_PARAMS) : bool :=
  negb ((sizeof_SPD_IOCTL_STORAGE_UNIT_PARAMS >? BytesTransferred) || (0 =? BlockCount P) ||
        (sizeof_SPD_IOCTL_UNMAP_DESCRIPTOR >? BlockLength P) || (0 =? MaxTransferLength P) ||
        negb (0 =? MaxTransferLength P mod BlockLength P)).

(** The answers to the calls of [StgOpenPipe], in their order: each call of [CreateFileW] gives a
    handle or an error. *)
Record OPEN_PIPE := mkOpenPipe {
  op_Create : Z * Z; op_CreateAgain : Z * Z; op_SetState : bool; op_SetStateError : Z;
  op_Read : bool; op_ReadError : Z; op_BytesTransferred : Z; op_Params : SPD_IOCTL_STORAGE_UNIT_PARAMS
}.

(** [StgOpenPipe]: the error, the handle and the parameters. *)
Definition StgOpenPipe (t : T) (a : OPEN_PIPE) : Z * Z * SPD_IOCTL_STORAGE_UNIT_PARAMS * T :=
  let P := op_Params a in
  let failed Error t := (Error, INVALID_HANDLE_VALUE, P, t) in
  let exit Handle Error := failed Error (fs_CloseHandle t Handle) in
  let opened Handle :=
    if negb (op_SetState a) then exit Handle (op_SetStateError a)
    else if negb (op_Read a) then exit Handle (op_ReadError a)
    else if negb (pipe_params_ok (op_BytesTransferred a) P) then exit Handle ERROR_IO_DEVICE
    else (ERROR_SUCCESS, SetPipeHandle Handle, P, t) in
  let '(Handle, err) := op_Create a in
  if INVALID_HANDLE_VALUE =? Handle then
    if negb (ERROR_PIPE_BUSY =? err) then failed err t
    else
      let '(Handle, err) := op_CreateAgain a in
      if INVALID_HANDLE_VALUE =? Handle then failed err t else opened Handle
  else opened Handle.

(** ** Volumes *)

(** The answers to the calls of [StgOpenRaw], in their order; [or_Stack] is what its variables
    [DataBuffer], [ScsiStatus] and [Sense] hold. *)
Record OPEN_RAW (W : Type) := mkOpenRaw {
  or_Create : Z * Z;
  or_QueryStatus : Z; or_TotalUnits : Z; or_SectorsPerUnit : Z; or_BytesPerSector : Z;
  or_Overlapped : Z;
  or_World : W;
  or_PassThrough : W -> SCSI_PASS_THROUGH_DIRECT -> list Z -> PASS_THROUGH_ANSWER * W;
  or_Stack : list Z * Z * list Z
}.
Arguments or_Create {W} _.
Arguments or_QueryStatus {W} _.
Arguments or_TotalUnits {W} _.
Arguments or_SectorsPerUnit {W} _.
Arguments or_BytesPerSector {W} _.
Arguments or_Overlapped {W} _.
Arguments or_World {W} _.
Arguments or_PassThrough {W} _.
Arguments or_Stack {W} _.

Definition BLOCK_LIMITS_CDB : list Z := [0x12; 1; 0xB0; 0; VPD_MAX_BUFFER_SIZE; 0] ++ replicate 10 0.

(** The longest transfer that is tested, from the page of the block limits. *)
Definition raw_transfer_length (BlockLength : Z) (Page : list Z) : option Z :=
  bs ← buf_read 8 4 Page;
  match bs with
  | [b0; b1; b2; b3] =>
      let n := u32 (BlockLength * get_be32 b0 b1 b2 b3) in
      Some (u32 ((if 0 =? n then 64 * 1024 else n) * 3))
  | _ => None
  end.

(** [StgOpenRaw]: the error, the handle and the parameters. *)
Definition StgOpenRaw {W} (RtlNtStatusToDosError : Z -> Z) (t : T) (a : OPEN_RAW W)
    : option (Z * Z * SPD_IOCTL_STORAGE_UNIT_PARAMS * T) :=
  let P0 := mkParams (mkGUID 0 0 0 (replicate 8 0)) 0 0 (replicate 16 0) (replicate 4 0) 0 false false
              false false 0 in
  let '(Handle, err) := or_Create a in
  if INVALID_HANDLE_VALUE =? Handle then Some (err, INVALID_HANDLE_VALUE, P0, t)
  else
    let exit err P := Some (err, INVALID_HANDLE_VALUE, P, fs_CloseHandle t Handle) in
    if 0 >? or_QueryStatus a then exit (RtlNtStatusToDosError (or_QueryStatus a)) P0
    else
      let P := (P0 <| BlockCount := u64 (or_TotalUnits a * or_SectorsPerUnit a) |>)
                 <| BlockLength := or_BytesPerSector a |> in
      let '(DataBuffer, ScsiStatus, Sense) := or_Stack a in
      '(r, _) ← SpdIoctlScsiExecute (or_PassThrough a) (or_Overlapped a) (or_World a) 0 BLOCK_LIMITS_CDB 1
                  DataBuffer (Some 255) (Some ScsiStatus) (Some Sense);
      if negb (ERROR_SUCCESS =? ex_Error r) then exit (ex_Error r) P
      else if negb (SCSISTAT_GOOD =? default 0 (ex_ScsiStatus r)) then exit ERROR_IO_DEVICE P
      else
        n ← raw_transfer_length (BlockLength P) (ex_DataBuffer r);
        let P := P <| MaxTransferLength := n |> in
        if (0 =? BlockCount P) || (0 =? BlockLength P) then exit ERROR_IO_DEVICE P
        else Some (ERROR_SUCCESS, Handle, P, t).

(** [StgTransactRaw] *)
Definition StgTransactRaw (t : T) (Handle : Z) (Req : option SPD_IOCTL_TRANSACT_REQ) (Rsp : bool)
    (DataBuffer : option (list Z)) (P : SPD_IOCTL_STORAGE_UNIT_PARAMS)
    : option (Z * option SPD_IOCTL_TRANSACT_RSP * option (list Z) * T) :=
  let invalid := Some (ERROR_INVALID_PARAMETER, None, DataBuffer, t) in
  match Req, DataBuffer with
  | Some Req, Some Buffer =>
      if negb Rsp || (negb (SpdIoctlTransactReadKind =? req_Kind Req) &&
                      negb (SpdIoctlTransactWriteKind =? req_Kind Req))
      then invalid
      else
      let Error := fs_OverlappedInit t in
      if negb (ERROR_SUCCESS =? Error) then Some (Error, None, DataBuffer, t)
      else
        '(BlockAddress, BlockCount) ← match req_Op Req with
                                     | OpRead a n _ | OpWrite a n _ => Some (a, n)
                                     | _ => None
                                     end;
        let Offset := u64 (BlockAddress * BlockLength P) in
        let DataLength := u32 (BlockCount * BlockLength P) in
        '(err, BytesTransferred, Buffer, t) ←
          (if SpdIoctlTransactWriteKind =? req_Kind Req then
             bs ← buf_read 0 (Z.to_nat DataLength) Buffer;
             let '(err, BytesTransferred, t) := fs_WriteAt t Handle Offset bs in
             Some (err, BytesTransferred, Buffer, t)
           else
             let '(err, BytesTransferred, bs, t) :=
               fs_ReadAt t Handle Offset (take (Z.to_nat DataLength) Buffer) in
             Buffer ← buf_write 0 bs Buffer;
             Some (err, BytesTransferred, Buffer, t));
        if negb (ERROR_SUCCESS =? err) then Some (err, None, Some Buffer, t)
        else if negb (DataLength =? BytesTransferred) then Some (ERROR_IO_DEVICE, None, Some Buffer, t)
        else Some (ERROR_SUCCESS,
                   Some (mkRsp (req_Hint Req) (req_Kind Req) (mkStatus SCSISTAT_GOOD 0 0 0 0 false)),
                   Some Buffer, t)
  | _, _ => invalid
  end.

(** ** Handles *)

Definition StgTransact (t : T) (Handle : Z) (Req : option SPD_IOCTL_TRANSACT_REQ) (Rsp : bool)
    (DataBuffer : option (list Z)) (P : SPD_IOCTL_STORAGE_UNIT_PARAMS)
    : option (Z * option SPD_IOCTL_TRANSACT_RSP * option (list Z) * T) :=
  if IsPipeHandle Handle then StgTransactPipe t (GetPipeHandle Handle) Req Rsp DataBuffer P
  else StgTransactRaw t Handle Req Rsp DataBuffer P.

Definition StgClose (t : T) (Handle : Z) : T :=
  if IsPipeHandle Handle then fs_CloseHandle t (GetPipeHandle Handle) else fs_CloseHandle t Handle.

(** The prefix of the name of a pipe. *)
Definition PIPE_PREFIX : list Z := [92; 92; 46; 92; 112; 105; 112; 101; 92].

(** The comparison with a prefix, character by character up to a difference. *)
Fixpoint has_prefix (Prefix Name : list Z) : option bool :=
  match Prefix with
  | [] => Some true
  | c :: Prefix =>
      match Name with
      | [] => None
      | d :: Name => if c =? d then has_prefix Prefix Name else Some false
      end
  end.

Definition StgOpen {W} (RtlNtStatusToDosError : Z -> Z) (t : T) (Name : list Z) (p : OPEN_PIPE)
    (a : OPEN_RAW W) : option (Z * Z * SPD_IOCTL_STORAGE_UNIT_PARAMS * T) :=
  pipe ← has_prefix PIPE_PREFIX Name;
  if (pipe : bool) then Some (StgOpenPipe t p) else StgOpenRaw RtlNtStatusToDosError t a.

(** ** Contents *)

(** [HashMix64], written out a third time. *)
Definition HashMix64 (k : Z) : Z :=
  let k := k .^ (k ≫ 33) in
  let k := u64 (k * 0xff51afd7ed558ccd) in
  let k := k .^ (k ≫ 33) in
  let k := u64 (k * 0xc4ceb9fe1a85ec53) in
  k .^ (k ≫ 33).

(** A [UINT64] in a buffer, least significant byte first. *)
Definition load64 (off : nat) (buf : list Z) : option Z :=
  bs ← buf_read off 8 buf;
  match bs with
  | [b0; b1; b2; b3; b4; b5; b6; b7] => Some (get_be64 b7 b6 b5 b4 b3 b2 b1 b0)
  | _ => None
  end.

Definition store64 (off : nat) (v : Z) (buf : list Z) : option (list Z) :=
  buf_write off (rev (be64 v)) buf.

(** The loop over the words of a block at the offset [off]. *)
Fixpoint fill_words (n J off : nat) (HashAddress : Z) (Kind : Z) (buf : list Z)
    : option (bool * list Z) :=
  match n with
  | O => Some (true, buf)
  | S n =>
      let o := (off + 8 * J)%nat in
      if SpdIoctlTransactReservedKind =? Kind then
        buf ← store64 o HashAddress buf; fill_words n (S J) off HashAddress Kind buf
      else if SpdIoctlTransactWriteKind =? Kind then
        w ← load64 o buf;
        if negb (w =? HashAddress) then Some (false, buf)
        else fill_words n (S J) off HashAddress Kind buf
      else if SpdIoctlTransactUnmapKind =? Kind then
        w ← load64 o buf;
        if negb (w =? 0) then Some (false, buf) else fill_words n (S J) off HashAddress Kind buf
      else fill_words n (S J) off HashAddress Kind buf
  end.

(** The loop over the blocks. *)
Fixpoint fill_blocks (n I : nat) (BlockLength BlockAddress Kind : Z) (buf : list Z)
    : option (bool * list Z) :=
  match n with
  | O => Some (true, buf)
  | S n =>
      let off := Z.to_nat (u32 (Z.of_nat I * BlockLength)) in
      let HashAddress := HashMix64 (u64 (BlockAddress + Z.of_nat I + 1)) in
      '(ok, buf) ← fill_words (Z.to_nat (BlockLength / 8)) 0 off HashAddress Kind buf;
      if negb ok then Some (false, buf) else fill_blocks n (S I) BlockLength BlockAddress Kind buf
  end.

Definition FillOrTest (DataBuffer : list Z) (BlockLength BlockAddress BlockCount Kind : Z)
    : option (bool * list Z) :=
  fill_blocks (Z.to_nat BlockCount) 0 BlockLength BlockAddress Kind DataBuffer.

(** The loop of [GenRandomBytes]. *)
Fixpoint random_bytes (n : nat) (Seed : Z) : list Z * Z :=
  match n with
  | O => ([], Seed)
  | S n =>
      let Seed := u32 (Seed * 214013 + 2531011) in
      let '(bs, Seed') := random_bytes n Seed in (u8 (Seed ≫ 16) :: bs, Seed')
  end.

Definition GenRandomBytes (Seed : Z) (Size : nat) : list Z * Z :=
  random_bytes Size (if negb (0 =? Seed) then Seed else 1).

(** ** The test *)

Definition kind_of_letter (c : Z) : list Z :=
  if (c =? 82) || (c =? 114) then [SpdIoctlTransactReadKind]          (* R, r *)
  else if (c =? 87) || (c =? 119) then [SpdIoctlTransactWriteKind]    (* W, w *)
  else if (c =? 70) || (c =? 102) then [SpdIoctlTransactFlushKind]    (* F, f *)
  else if (c =? 85) || (c =? 117) then [SpdIoctlTransactUnmapKind]    (* U, u *)
  else [].

(** The loop over the set of operations, a text with its terminator. *)
Fixpoint op_kinds_loop (n : nat) (OpSet : list Z) : option (list Z) :=
  match n with
  | O => Some []
  | S n =>
      match OpSet with
      | [] => None
      | c :: OpSet =>
          if 0 =? c then Some [] else ks ← op_kinds_loop n OpSet; Some (kind_of_letter c ++ ks)
      end
  end.

Definition op_kinds (OpSet : list Z) : option (list Z) :=
  ks ← op_kinds_loop 32 OpSet;
  Some (match ks with
        | [] => [SpdIoctlTransactWriteKind; SpdIoctlTransactReadKind]
        | _ => ks
        end).

(** The variables of the loop of [run]. *)
Record RUN := mkRun {
  r_I : Z; r_J : Z;
  r_BlockAddress : Z; r_BlockCount : Z; r_OpBlockCount : Z;
  r_TestOpKind : Z;
  r_Seed : Z;
  r_DataBuffer : list Z;
  r_System : T
}.

#[local] Instance RUN_eta : Eta RUN := fun r =>
  mkRun (r_I r) (r_J r) (r_BlockAddress r) (r_BlockCount r) (r_OpBlockCount r) (r_TestOpKind r)
    (r_Seed r) (r_DataBuffer r) (r_System r).

Definition le_value (bs : list Z) : Z := foldr (fun b v => b + 256 * v) 0 bs.

Section Run.
Context (P : SPD_IOCTL_STORAGE_UNIT_PARAMS) (Handle ThreadId : Z) (OpKinds : list Z).
Context (RandomAddress RandomCount : bool).

Definition MaxBlockCount : Z := MaxTransferLength P / BlockLength P.

(** The range of the next operations. *)
Definition choose_range (r : RUN) : option RUN :=
  if BlockCount P =? 0 then None
  else
    let '(BlockAddress, Seed) :=
      if RandomAddress then
        let '(bs, Seed) := GenRandomBytes (r_Seed r) 8 in (le_value bs, Seed)
      else if negb (0 =? r_I r) then (u64 (r_BlockAddress r + r_BlockCount r), r_Seed r)
      else (r_BlockAddress r, r_Seed r) in
    let BlockAddress := BlockAddress mod BlockCount P in
    '(Count, Seed) ← (if RandomCount then
                        let '(bs, Seed) := GenRandomBytes Seed 4 in
                        if MaxBlockCount =? 0 then None else Some (le_value bs mod MaxBlockCount, Seed)
                      else if r_BlockCount r >? MaxBlockCount then Some (MaxBlockCount, Seed)
                      else Some (r_BlockCount r, Seed));
    let Count := if Count =? 0 then 1 else Count in
    let OpBlockCount := if u64 (BlockAddress + Count) <=? BlockCount P then Count
                        else u32 (BlockCount P - BlockAddress) in
    Some (mkRun (r_I r) (r_J r) BlockAddress Count OpBlockCount SpdIoctlTransactReservedKind Seed
            (r_DataBuffer r) (r_System r)).

(** The request of an operation; a write fills the buffer, an unmap puts its descriptor there. *)
Definition make_request (r : RUN) : option (SPD_IOCTL_TRANSACT_REQ * RUN) :=
  Kind ← OpKinds !! Z.to_nat (r_I r mod Z.of_nat (length OpKinds));
  let Hint := (u32 ThreadId ≪ 32) .| r_I r in
  let a := r_BlockAddress r in
  let n := r_OpBlockCount r in
  let Fua := b2z (negb (CacheSupported P)) in
  if SpdIoctlTransactReadKind =? Kind then Some (mkReq Hint Kind (OpRead a n Fua), r)
  else if SpdIoctlTransactWriteKind =? Kind then
    '(_, DataBuffer) ← FillOrTest (r_DataBuffer r) (BlockLength P) a n SpdIoctlTransactReservedKind;
    Some (mkReq Hint Kind (OpWrite a n Fua),
          r <| r_DataBuffer := DataBuffer |> <| r_TestOpKind := SpdIoctlTransactWriteKind |>)
  else if SpdIoctlTransactFlushKind =? Kind then Some (mkReq Hint Kind (OpFlush a n), r)
  else if SpdIoctlTransactUnmapKind =? Kind then
    DataBuffer ← buf_write 0 (unmap_bytes (mkUnmapDescriptor a n)) (r_DataBuffer r);
    Some (mkReq Hint Kind (OpUnmap 1),
          r <| r_DataBuffer := DataBuffer |> <| r_TestOpKind := SpdIoctlTransactUnmapKind |>)
  else None.

(** The tests of a response: is it the expected one? *)
Definition check_response (Req : SPD_IOCTL_TRANSACT_REQ) (Rsp : SPD_IOCTL_TRANSACT_RSP) (r : RUN)
    : option bool :=
  if negb (req_Hint Req =? rsp_Hint Rsp) then Some false
  else if negb (req_Kind Req =? rsp_Kind Rsp) then Some false
  else if negb (SCSISTAT_GOOD =? ScsiStatus (rsp_Status Rsp)) then Some false
  else if SpdIoctlTransactReadKind =? rsp_Kind Rsp then
    if (SpdIoctlTransactWriteKind =? r_TestOpKind r) || (SpdIoctlTransactUnmapKind =? r_TestOpKind r)
    then
      '(ok, _) ← FillOrTest (r_DataBuffer r) (BlockLength P) (r_BlockAddress r) (r_OpBlockCount r)
                   (r_TestOpKind r);
      Some ok
    else Some true
  else Some true.

(** One operation: an error ends the test. *)
Definition run_operation (r : RUN) : option (option Z * RUN) :=
  r ← (if 0 =? r_J r then choose_range r else Some r);
  '(Req, r) ← make_request r;
  '(err, Rsp, DataBuffer, t) ← StgTransact (r_System r) Handle (Some Req) true (Some (r_DataBuffer r)) P;
  DataBuffer ← DataBuffer;
  let r := r <| r_DataBuffer := DataBuffer |> <| r_System := t |> in
  if negb (ERROR_SUCCESS =? err) then Some (Some err, r)
  else
    Rsp ← Rsp;
    ok ← check_response Req Rsp r;
    if negb ok then Some (Some ERROR_IO_DEVICE, r)
    else Some (None, r <| r_J := (r_J r + 1) mod Z.of_nat (length OpKinds) |> <| r_I := u32 (r_I r + 1) |>).

Fixpoint run_loop (n : nat) (r : RUN) : option (Z * RUN) :=
  match n with
  | O => Some (ERROR_SUCCESS, r)
  | S n =>
      '(err, r) ← run_operation r;
      match err with
      | Some err => Some (err, r)
      | None => run_loop n r
      end
  end.
End Run.

(** [run], for a unit that [StgOpen] has opened, or not; [Buffer] is the memory for the data, if
    there is any.  It gives the error, the seed and the system. *)
Definition run (Opened : Z * Z * SPD_IOCTL_STORAGE_UNIT_PARAMS * T) (Buffer : option (list Z))
    (ThreadId OpCount : Z) (OpSet : list Z) (BlockAddress BlockCount RandomSeed : Z)
    : option (Z * Z * T) :=
  let '(err, Handle, P, t) := Opened in
  let exit Error Seed t :=
    Some (Error, Seed, if negb (INVALID_HANDLE_VALUE =? Handle) then StgClose t Handle else t) in
  if negb (ERROR_SUCCESS =? err) then exit err RandomSeed t
  else
    match Buffer with
    | None => exit ERROR_NO_SYSTEM_RESOURCES RandomSeed t
    | Some Buffer =>
        let OpCount := if 0 =? OpCount then 1 else OpCount in
        OpKinds ← op_kinds OpSet;
        if BlockLength P =? 0 then None
        else
          '(err, r) ← run_loop P Handle ThreadId OpKinds (BlockAddress =? u64 (-1)) (BlockCount =? u32 (-1))
             (Z.to_nat OpCount)
             (mkRun 0 0 BlockAddress BlockCount 0 SpdIoctlTransactReservedKind RandomSeed Buffer t);
          exit err (r_Seed r) (r_System r)
    end.
End StgTest.

(** ** The command line *)

Record TEST_ARGS := mkTestArgs {
  a_Seed : Z; a_PipeName : list Z; a_OpCount : Z; a_OpSet : list Z;
  a_BlockAddress : Z; a_BlockCount : Z
}.

(** A character of a text with its terminator. *)
Definition char_is (s : list Z) (i : nat) (c : Z) : option bool := d ← s !! i; Some (c =? d).

(** The comparison of an argument with [*]. *)
Definition is_star (s : list Z) : option bool :=
  c ← char_is s 0 42; if (c : bool) then char_is s 1 0 else Some false.

(** The comparison of an argument with [-s]. *)
Definition is_seed_option (s : list Z) : option bool :=
  c ← char_is s 0 45;
  if (c : bool) then c ← char_is s 1 115; if (c : bool) then char_is s 2 0 else Some false
  else Some false.

(** [wmain] up to the call of [run], for the arguments after the name of the program: the
    arguments of [run], or [None] inside if it tells its usage. *)
Definition wmain_args (argv : list (list Z)) (TickCount : Z) : option (option TEST_ARGS) :=
  '(Seed, argv) ← match argv with
                  | o :: v :: argv' =>
                      seed ← is_seed_option o;
                      if (seed : bool) then '(n, _) ← wcstoint v 0 false; Some (u32 n, argv')
                      else Some (TickCount, argv)
                  | _ => Some (TickCount, argv)
                  end;
  if (2 >? Z.of_nat (length argv)) || (5 <? Z.of_nat (length argv)) then Some None
  else
    PipeName ← argv !! 0%nat;
    count ← argv !! 1%nat;
    '(OpCount, _) ← wcstoint count 0 false;
    let OpSet := default [0] (argv !! 2%nat) in
    BlockAddress ← match argv !! 3%nat with
                   | Some a => star ← is_star a;
                               if (star : bool) then Some (u64 (-1))
                               else '(n, _) ← wcstoint a 0 false; Some (u64 n)
                   | None => Some 0
                   end;
    BlockCount ← match argv !! 4%nat with
                 | Some a => star ← is_star a;
                             if (star : bool) then Some (u32 (-1))
                             else '(n, _) ← wcstoint a 0 false; Some (u32 n)
                 | None => Some 0
                 end;
    Some (Some (mkTestArgs Seed PipeName (u32 OpCount) OpSet BlockAddress BlockCount)).
