(* ===== verification/StgTestProps.v ===== *)
(** * The contents that the tester writes and compares

    [FillOrTest] of [stgtest/stgtest.c]: what it writes it recognizes, and nothing else; blocks of
    different addresses have different contents. *)

From S2P Require Import Prelude Wdk IoctlTypes HashMix StgTest.
From S2P Require Import ScsiIo StgHandle.

(** ** Words of a buffer *)

Lemma load64_some off buf :
  (off + 8 <= length buf)%nat -> exists w, load64 off buf = Some w.
Proof.
  intros H. unfold load64. destruct (proj2 (buf_read_is_Some off 8 buf) H) as [bs Hbs]. rewrite Hbs.
  destruct (buf_read_Some _ _ _ _ Hbs) as [Hl _]. rewrite bind_value. clear Hbs. explode bs Hl. by eexists.
Qed.

Lemma store64_spec off v buf :
  0 <= v < 2 ^ 64 -> (off + 8 <= length buf)%nat ->
  exists buf', store64 off v buf = Some buf' /\ length buf' = length buf /\
    load64 off buf' = Some v /\
    forall o, (o + 8 <= off \/ off + 8 <= o)%nat -> load64 o buf' = load64 o buf.
Proof.
  intros Hv Hl. unfold store64.
  destruct (proj2 (buf_write_is_Some off (rev (be64 v)) buf)) as [buf' Hw]; [simpl; lia|].
  exists buf'. split; [done|]. split; [by eapply buf_write_length|]. split.
  - unfold load64. pose proof (buf_read_write_same _ _ _ _ Hw) as Hr. change (length _) with 8%nat in Hr.
    rewrite Hr, bind_value. cbn [rev be64 app]. by rewrite be64_get, u64_small.
  - intros o Ho. unfold load64. erewrite buf_read_write_other; [done|exact Hw|].
    change (length (rev _)) with 8%nat. lia.
Qed.

(** ** One block *)

Lemma fill_words_fill n J off h buf :
  0 <= h < 2 ^ 64 -> (off + 8 * (J + n) <= length buf)%nat ->
  exists buf', fill_words n J off h SpdIoctlTransactReservedKind buf = Some (true, buf') /\
    length buf' = length buf /\
    (forall K, (J <= K < J + n)%nat -> load64 (off + 8 * K) buf' = Some h) /\
    (forall o, (o + 8 <= off + 8 * J \/ off + 8 * (J + n) <= o)%nat -> load64 o buf' = load64 o buf).
Proof.
  intros Hh. revert J buf. induction n as [|n IH]; intros J buf Hl; cbn [fill_words].
  { exists buf. split_and!; try done. intros; lia. }
  change (SpdIoctlTransactReservedKind =? SpdIoctlTransactReservedKind) with true. cbv iota.
  destruct (store64_spec (off + 8 * J) h buf Hh ltac:(lia)) as (b1 & -> & Hl1 & Hw & Ho). rewrite bind_value.
  destruct (IH (S J) b1 ltac:(lia)) as (b2 & -> & Hl2 & Hin & Hout). exists b2.
  split; [done|]. split; [lia|]. split.
  - intros K HK. destruct (decide (K = J)) as [->|]; [|apply Hin; lia]. by rewrite Hout by lia.
  - intros o Hd. rewrite Hout by lia. apply Ho. lia.
Qed.

(** What a test of a block expects. *)
Definition expected (Kind HashAddress : Z) : Z :=
  if SpdIoctlTransactWriteKind =? Kind then HashAddress else 0.

Definition test_kind (Kind : Z) : Prop :=
  Kind = SpdIoctlTransactWriteKind \/ Kind = SpdIoctlTransactUnmapKind.

Lemma fill_words_test n J off h Kind buf :
  test_kind Kind -> (off + 8 * (J + n) <= length buf)%nat ->
  exists b, fill_words n J off h Kind buf = Some (b, buf) /\
    (b = true <-> forall K, (J <= K < J + n)%nat -> load64 (off + 8 * K) buf = Some (expected Kind h)).
Proof.
  intros HK. revert J. induction n as [|n IH]; intros J Hl; cbn [fill_words].
  { exists true. split; [done|]. split; [intros _ K; lia|done]. }
  destruct (load64_some (off + 8 * J) buf ltac:(lia)) as [w Hw].
  destruct (IH (S J) ltac:(lia)) as (b & Hb & Hiff).
  assert (exists b0, (if negb (w =? expected Kind h) then Some (false, buf)
                      else fill_words n (S J) off h Kind buf) = Some (b0, buf) /\
    (b0 = true <-> forall K, (J <= K < J + S n)%nat -> load64 (off + 8 * K) buf = Some (expected Kind h)))
    as (b0 & H0 & Hiff0).
  { destruct (Z.eqb_spec w (expected Kind h)) as [->|Hne]; cbn [negb].
    - exists b. split; [done|]. rewrite Hiff. split.
      + intros H K HJ. destruct (decide (K = J)) as [->|]; [done|]. apply H. lia.
      + intros H K HJ. apply H. lia.
    - exists false. split; [done|]. split; [done|]. intros H. specialize (H J ltac:(lia)). congruence. }
  exists b0. split; [|done]. rewrite <- H0. unfold expected.
  destruct HK as [-> | ->].
  - change (SpdIoctlTransactReservedKind =? SpdIoctlTransactWriteKind) with false.
    change (SpdIoctlTransactWriteKind =? SpdIoctlTransactWriteKind) with true. cbv iota.
    by rewrite Hw, bind_value.
  - change (SpdIoctlTransactReservedKind =? SpdIoctlTransactUnmapKind) with false.
    change (SpdIoctlTransactWriteKind =? SpdIoctlTransactUnmapKind) with false.
    change (SpdIoctlTransactUnmapKind =? SpdIoctlTransactUnmapKind) with true. cbv iota.
    by rewrite Hw, bind_value.
Qed.

(** ** All blocks *)

Lemma HashMix64_is k : HashMix64 k = SpdHashMix64 k.
Proof. reflexivity. Qed.

(** The contents of the block at an address. *)
Definition block_word (a : Z) : Z := HashMix64 (u64 (a + 1)).

Lemma block_word_bound a : 0 <= block_word a < 2 ^ 64.
Proof. apply SpdHashMix64_bound. Qed.

(** Blocks of different addresses have different contents. *)
Lemma block_word_inj a b :
  0 <= a < 2 ^ 64 -> 0 <= b < 2 ^ 64 -> block_word a = block_word b -> a = b.
Proof.
  intros Ha Hb E. unfold block_word in E. rewrite !HashMix64_is in E.
  apply (f_equal SpdHashUnmix64) in E. rewrite !SpdHashMix64_unmix in E by apply u64_bound.
  unfold u64 in E. dlia.
Qed.

(** The words of [n] blocks from the address [a] are those that a test expects. *)
Definition pattern (Kind BL a n : Z) (buf : list Z) : Prop :=
  forall i j, 0 <= i < n -> 0 <= j < BL / 8 ->
    load64 (Z.to_nat (i * BL + 8 * j)) buf = Some (expected Kind (block_word (a + i))).

Section Blocks.
Context (BL a : Z) (HBL : 0 < BL).

(** The words of block [I], for the loops. *)
Definition block_at (buf : list Z) (I : nat) (w : Z) : Prop :=
  forall K, (K < Z.to_nat (BL / 8))%nat -> load64 (Z.to_nat (Z.of_nat I * BL) + 8 * K) buf = Some w.

Lemma block_words : 8 * Z.of_nat (Z.to_nat (BL / 8)) <= BL.
Proof using HBL. assert (0 <= BL / 8) by (apply Z.div_pos; lia). rewrite Z2Nat.id by lia. dlia. Qed.

Lemma block_hash I : HashMix64 (u64 (a + Z.of_nat I + 1)) = block_word (a + Z.of_nat I).
Proof using. reflexivity. Qed.

Lemma fill_blocks_fill n I buf :
  Z.of_nat (I + n) * BL <= Z.of_nat (length buf) -> Z.of_nat (I + n) * BL < 2 ^ 32 ->
  exists buf', fill_blocks n I BL a SpdIoctlTransactReservedKind buf = Some (true, buf') /\
    length buf' = length buf /\
    (forall J, (I <= J < I + n)%nat -> block_at buf' J (block_word (a + Z.of_nat J))) /\
    (forall o, Z.of_nat o + 8 <= Z.of_nat I * BL -> load64 o buf' = load64 o buf).
Proof using HBL.
  pose proof block_words as HW. revert I buf. induction n as [|n IH]; intros I buf Hl H32; cbn [fill_blocks].
  { exists buf. split_and!; try done. intros; lia. }
  assert (0 <= Z.of_nat I * BL /\ Z.of_nat I * BL + BL <= Z.of_nat (I + S n) * BL) as [H0 H1] by nia.
  rewrite (u32_small (Z.of_nat I * BL)) by lia. rewrite block_hash.
  destruct (fill_words_fill (Z.to_nat (BL / 8)) 0 (Z.to_nat (Z.of_nat I * BL)) (block_word (a + Z.of_nat I)) buf
    (block_word_bound _)) as (b1 & -> & Hl1 & Hin & Hout); [lia|].
  rewrite bind_value. cbn [negb].
  destruct (IH (S I) b1) as (b2 & -> & Hl2 & Hin2 & Hout2); [by rewrite Hl1, Nat.add_succ_l, <- Nat.add_succ_r|
    by rewrite Nat.add_succ_l, <- Nat.add_succ_r|].
  exists b2. split; [done|]. split; [lia|]. split.
  - intros J HJ K HK. destruct (decide (J = I)) as [->|]; [|apply Hin2; lia].
    rewrite Hout2 by nia. apply Hin. lia.
  - intros o Ho. rewrite Hout2 by nia. apply Hout. lia.
Qed.

Lemma fill_blocks_test Kind n I buf :
  test_kind Kind -> Z.of_nat (I + n) * BL <= Z.of_nat (length buf) -> Z.of_nat (I + n) * BL < 2 ^ 32 ->
  exists b, fill_blocks n I BL a Kind buf = Some (b, buf) /\
    (b = true <-> forall J, (I <= J < I + n)%nat ->
       block_at buf J (expected Kind (block_word (a + Z.of_nat J)))).
Proof using HBL.
  intros HK. pose proof block_words as HW. revert I. induction n as [|n IH]; intros I Hl H32; cbn [fill_blocks].
  { exists true. split; [done|]. split; [intros _ J; lia|done]. }
  assert (0 <= Z.of_nat I * BL /\ Z.of_nat I * BL + BL <= Z.of_nat (I + S n) * BL) as [H0 H1] by nia.
  rewrite (u32_small (Z.of_nat I * BL)) by lia. rewrite block_hash.
  destruct (fill_words_test (Z.to_nat (BL / 8)) 0 (Z.to_nat (Z.of_nat I * BL)) (block_word (a + Z.of_nat I))
    Kind buf HK) as (b1 & -> & Hiff1); [lia|]. rewrite bind_value.
  destruct (IH (S I)) as (b & -> & Hiff); [by rewrite Nat.add_succ_l, <- Nat.add_succ_r|
    by rewrite Nat.add_succ_l, <- Nat.add_succ_r|].
  destruct b1; cbn [negb].
  - exists b. split; [done|]. rewrite Hiff. split.
    + intros H J HJ. destruct (decide (J = I)) as [->|]; [|apply H; lia].
      intros K HK'. apply (proj1 Hiff1 eq_refl). lia.
    + intros H J HJ. apply H. lia.
  - exists false. split; [done|]. split; [done|]. intros H. apply Hiff1. intros K HK'.
    apply (H I); [lia|lia].
Qed.
End Blocks.

Lemma pattern_blocks Kind BL a n buf :
  0 < BL -> 0 <= n ->
  pattern Kind BL a n buf <->
  forall J, (0 <= J < 0 + Z.to_nat n)%nat -> block_at BL buf J (expected Kind (block_word (a + Z.of_nat J))).
Proof.
  intros HBL Hn. split.
  - intros H J HJ K HK. specialize (H (Z.of_nat J) (Z.of_nat K) ltac:(lia) ltac:(lia)).
    rewrite <- H. f_equal. nia.
  - intros H i j Hi Hj. specialize (H (Z.to_nat i) ltac:(lia) (Z.to_nat j) ltac:(lia)).
    rewrite Z2Nat.id in H by lia. rewrite <- H. f_equal. nia.
Qed.

(** Filling writes the pattern of a write. *)
Lemma fill_spec BL a n buf :
  0 < BL -> 0 <= n -> n * BL <= Z.of_nat (length buf) -> n * BL < 2 ^ 32 ->
  exists buf', FillOrTest buf BL a n SpdIoctlTransactReservedKind = Some (true, buf') /\
    length buf' = length buf /\ pattern SpdIoctlTransactWriteKind BL a n buf'.
Proof.
  intros HBL Hn Hl H32. unfold FillOrTest.
  destruct (fill_blocks_fill BL a HBL (Z.to_nat n) 0 buf) as (buf' & -> & Hl' & Hin & _);
    [rewrite Nat.add_0_l, Z2Nat.id by lia; done|rewrite Nat.add_0_l, Z2Nat.id by lia; done|].
  exists buf'. split; [done|]. split; [done|]. apply pattern_blocks; done.
Qed.

(** Testing tells whether the buffer has the pattern. *)
Lemma test_spec Kind BL a n buf :
  test_kind Kind -> 0 < BL -> 0 <= n -> n * BL <= Z.of_nat (length buf) -> n * BL < 2 ^ 32 ->
  exists b, FillOrTest buf BL a n Kind = Some (b, buf) /\ (b = true <-> pattern Kind BL a n buf).
Proof.
  intros HK HBL Hn Hl H32. unfold FillOrTest.
  destruct (fill_blocks_test BL a HBL Kind (Z.to_nat n) 0 buf HK) as (b & -> & Hiff);
    [rewrite Nat.add_0_l, Z2Nat.id by lia; done|rewrite Nat.add_0_l, Z2Nat.id by lia; done|].
  exists b. split; [done|]. by rewrite pattern_blocks.
Qed.

(** * Properties of the tester of storage units

    [TestDevice] is what a unit promises to its tester; over any such unit every test succeeds. *)

(** ** What a unit promises *)

(** A request of the tester: its range is inside the unit and fits its buffer. *)
Definition test_range (P : SPD_IOCTL_STORAGE_UNIT_PARAMS) (a n : Z) : Prop :=
  0 <= a /\ 0 < n /\ a + n <= BlockCount P /\ n * BlockLength P <= MaxTransferLength P.

(** A unit that answers every request with success: it has [td_contents], which a read gives, a
    write changes, and an unmap clears. *)
Class TestDevice (T : Type) {FS : FileSystem T} (P : SPD_IOCTL_STORAGE_UNIT_PARAMS) (Handle : Z) := {
  td_wf : T -> Prop;
  td_contents : T -> list Z;
  td_read t h a n fua DB :
    td_wf t -> 0 < h < 2 ^ 64 -> test_range P a n -> Z.of_nat (length DB) = MaxTransferLength P ->
    exists s t' bs DB',
      StgTransact t Handle (Some (mkReq h SpdIoctlTransactReadKind (OpRead a n fua))) true (Some DB) P =
        Some (ERROR_SUCCESS, Some (mkRsp h SpdIoctlTransactReadKind s), Some DB', t') /\
      ScsiStatus s = SCSISTAT_GOOD /\ td_wf t' /\ td_contents t' = td_contents t /\
      buf_read (Z.to_nat (a * BlockLength P)) (Z.to_nat (n * BlockLength P)) (td_contents t) = Some bs /\
      buf_write 0 bs DB = Some DB';
  td_write t h a n fua DB :
    td_wf t -> 0 < h < 2 ^ 64 -> test_range P a n -> Z.of_nat (length DB) = MaxTransferLength P ->
    exists s t' bs,
      StgTransact t Handle (Some (mkReq h SpdIoctlTransactWriteKind (OpWrite a n fua))) true (Some DB) P =
        Some (ERROR_SUCCESS, Some (mkRsp h SpdIoctlTransactWriteKind s), Some DB, t') /\
      ScsiStatus s = SCSISTAT_GOOD /\ td_wf t' /\
      buf_read 0 (Z.to_nat (n * BlockLength P)) DB = Some bs /\
      buf_write (Z.to_nat (a * BlockLength P)) bs (td_contents t) = Some (td_contents t');
  td_flush t h a n DB :
    td_wf t -> 0 < h < 2 ^ 64 -> test_range P a n -> Z.of_nat (length DB) = MaxTransferLength P ->
    exists s t',
      StgTransact t Handle (Some (mkReq h SpdIoctlTransactFlushKind (OpFlush a n))) true (Some DB) P =
        Some (ERROR_SUCCESS, Some (mkRsp h SpdIoctlTransactFlushKind s), Some DB, t') /\
      ScsiStatus s = SCSISTAT_GOOD /\ td_wf t' /\ td_contents t' = td_contents t;
  td_unmap t h a n DB :
    td_wf t -> 0 < h < 2 ^ 64 -> test_range P a n -> Z.of_nat (length DB) = MaxTransferLength P ->
    buf_read 0 16 DB = Some (unmap_bytes (mkUnmapDescriptor a n)) ->
    exists s t',
      StgTransact t Handle (Some (mkReq h SpdIoctlTransactUnmapKind (OpUnmap 1))) true (Some DB) P =
        Some (ERROR_SUCCESS, Some (mkRsp h SpdIoctlTransactUnmapKind s), Some DB, t') /\
      ScsiStatus s = SCSISTAT_GOOD /\ td_wf t' /\
      forall i, a * BlockLength P <= Z.of_nat i < (a + n) * BlockLength P -> td_contents t' !! i = Some 0
}.

(** ** The contents of a range *)

Definition slice (BL a n : Z) (v : list Z) : list Z :=
  take (Z.to_nat (n * BL)) (drop (Z.to_nat (a * BL)) v).

Lemma slice_read BL a n v bs :
  buf_read (Z.to_nat (a * BL)) (Z.to_nat (n * BL)) v = Some bs -> slice BL a n v = bs.
Proof. unfold buf_read, slice. case_decide; [|done]. by intros [= <-]. Qed.

Lemma slice_written BL a n bs v v' :
  length bs = Z.to_nat (n * BL) -> buf_write (Z.to_nat (a * BL)) bs v = Some v' -> slice BL a n v' = bs.
Proof.
  intros Hl Hw. apply slice_read. rewrite <- Hl. by apply (buf_read_write_same _ _ v).
Qed.

(** A pattern is about the words inside of the range only. *)
Lemma load64_prefix o buf buf' m :
  take m buf = take m buf' -> (o + 8 <= m)%nat -> (m <= length buf)%nat -> (m <= length buf')%nat ->
  load64 o buf = load64 o buf'.
Proof.
  intros E Ho Hl Hl'. unfold load64. rewrite <- (take_drop m buf), <- (take_drop m buf').
  rewrite !buf_read_app by (rewrite length_take; lia). by rewrite E.
Qed.

Lemma pattern_prefix Kind BL a n buf buf' :
  0 < BL -> take (Z.to_nat (n * BL)) buf = take (Z.to_nat (n * BL)) buf' ->
  n * BL <= Z.of_nat (length buf) -> n * BL <= Z.of_nat (length buf') ->
  pattern Kind BL a n buf -> pattern Kind BL a n buf'.
Proof.
  intros HBL E Hl Hl' H i j Hi Hj. rewrite <- (H i j Hi Hj). symmetry.
  assert (8 * (BL / 8) <= BL) by dlia. assert (i * BL + BL <= n * BL) by nia. assert (0 <= i * BL) by nia.
  apply (load64_prefix _ _ _ (Z.to_nat (n * BL))); try done; lia.
Qed.

Lemma pattern_zero BL a n buf :
  0 < BL -> (forall i, Z.of_nat i < n * BL -> buf !! i = Some 0) ->
  pattern SpdIoctlTransactUnmapKind BL a n buf.
Proof.
  intros HBL Hz i j Hi Hj. assert (8 * (BL / 8) <= BL) by dlia.
  assert (i * BL + BL <= n * BL) by nia. assert (0 <= i * BL) by nia.
  assert (buf_read (Z.to_nat (i * BL + 8 * j)) 8 buf = Some (replicate 8 0)) as Hr.
  { assert (is_Some (buf !! (Z.to_nat (i * BL + 8 * j) + 7)%nat)) as Hs%lookup_lt_is_Some
      by (rewrite Hz by lia; by eexists).
    unfold buf_read. rewrite decide_True by lia. f_equal. apply list_eq. intros k.
    destruct (decide (k < 8)%nat).
    - rewrite lookup_take_lt, lookup_drop, lookup_replicate_2, Hz by lia. done.
    - rewrite lookup_take_ge by lia. symmetry. apply lookup_replicate_None. lia. }
  unfold load64. rewrite Hr, bind_value. reflexivity.
Qed.

(** ** Random bytes *)

Lemma le_value_bound bs : Forall is_byte bs -> 0 <= le_value bs < 2 ^ (8 * Z.of_nat (length bs)).
Proof.
  induction 1 as [|b bs Hb H IH]; [done|]. cbn [le_value foldr length]. fold (le_value bs).
  replace (8 * Z.of_nat (S (length bs))) with (8 + 8 * Z.of_nat (length bs)) by lia.
  rewrite Z.pow_add_r by lia. unfold is_byte in Hb. change (2 ^ 8) with 256. lia.
Qed.

Lemma random_bytes_wf n Seed :
  length (random_bytes n Seed).1 = n /\ Forall is_byte (random_bytes n Seed).1.
Proof.
  revert Seed. induction n as [|n IH]; intros Seed; cbn [random_bytes]; [done|].
  destruct (IH (u32 (Seed * 214013 + 2531011))) as [H1 H2].
  destruct (random_bytes n _) as [bs S']. cbn [fst length] in *. split; [lia|].
  constructor; [apply u8_bound|done].
Qed.

Lemma random_value n Seed bs Seed' :
  GenRandomBytes Seed n = (bs, Seed') -> 0 <= le_value bs < 2 ^ (8 * Z.of_nat n).
Proof.
  unfold GenRandomBytes. intros E. set (s := if negb (0 =? Seed) then Seed else 1) in E.
  destruct (random_bytes_wf n s) as [H1 H2]. rewrite E in H1, H2. cbn [fst] in *.
  pose proof (le_value_bound bs H2) as Hb. by rewrite H1 in Hb.
Qed.

Lemma hint_bound ThreadId I :
  0 < ThreadId < 2 ^ 32 -> 0 <= I < 2 ^ 32 -> 0 < (u32 ThreadId ≪ 32) .| I < 2 ^ 64.
Proof.
  intros HT HI. rewrite (u32_small ThreadId) by lia. rewrite Z.shiftl_mul_pow2 by lia.
  rewrite (lor_disjoint_add 32) by (done || lia || (by rewrite Z.mod_mul)). lia.
Qed.

(** ** The operations of a test *)

Section Passes.
Context {T : Type} {FS : FileSystem T} (P : SPD_IOCTL_STORAGE_UNIT_PARAMS) (Handle ThreadId : Z).
Context {TD : TestDevice T P Handle}.
Context (OpKinds : list Z) (RandomAddress RandomCount : bool).

(** The geometry that a pipe is opened with; the unit ends before the last 2^32 block addresses. *)
Record geometry_wf : Prop := {
  gw_BlockCount : 0 < BlockCount P <= 2 ^ 64 - 2 ^ 32;
  gw_BlockLength : 16 <= BlockLength P < 2 ^ 32;
  gw_Max : 0 < MaxTransferLength P < 2 ^ 32;
  gw_Blocks : MaxTransferLength P mod BlockLength P = 0
}.

Context (HG : geometry_wf) (HT : 0 < ThreadId < 2 ^ 32).
Context (HK : OpKinds <> []) (HKs : Forall (fun k => 1 <= k <= 4) OpKinds).
Let BL := BlockLength P.

Lemma max_block_count : 1 <= MaxBlockCount P /\ MaxBlockCount P * BL = MaxTransferLength P /\ MaxBlockCount P < 2 ^ 32.
Proof using HG.
  destruct HG as [_ H1 H2 H3]. unfold MaxBlockCount, BL.
  apply Z.div_exact in H3; [|lia]. assert (0 < MaxTransferLength P / BlockLength P) by nia. nia.
Qed.

(** What the last write or unmap of the range has left there. *)
Definition tested (r : RUN) : Prop :=
  test_kind (r_TestOpKind r) ->
  let a := r_BlockAddress r in
  let n := r_OpBlockCount r in
  n * BL <= Z.of_nat (length (slice BL a n (td_contents (r_System r)))) /\
  pattern (r_TestOpKind r) BL a n (slice BL a n (td_contents (r_System r))).

Record run_wf (r : RUN) : Prop := {
  rw_System : td_wf (r_System r);
  rw_DataBuffer : Z.of_nat (length (r_DataBuffer r)) = MaxTransferLength P;
  rw_I : 0 <= r_I r < 2 ^ 32;
  rw_J : 0 <= r_J r;
  rw_BlockAddress : 0 <= r_BlockAddress r < 2 ^ 64;
  rw_BlockCount : 0 <= r_BlockCount r < 2 ^ 32;
  rw_range : r_J r <> 0 -> test_range P (r_BlockAddress r) (r_OpBlockCount r) /\ tested r
}.

(** The range that is chosen is inside the unit. *)
Lemma choose_range_spec r :
  run_wf r -> exists r', choose_range P RandomAddress RandomCount r = Some r' /\
    test_range P (r_BlockAddress r') (r_OpBlockCount r') /\
    r_TestOpKind r' = SpdIoctlTransactReservedKind /\ r_System r' = r_System r /\
    r_DataBuffer r' = r_DataBuffer r /\ r_I r' = r_I r /\ r_J r' = r_J r /\
    0 <= r_BlockAddress r' < 2 ^ 64 /\ 0 <= r_BlockCount r' < 2 ^ 32.
Proof using HG.
  intros [Hs HD HI HJ Ha Hn _]. destruct max_block_count as (HM1 & HM2 & HM3).
  destruct HG as [HBC HBL _ _]. fold BL in HBL. unfold choose_range.
  rewrite (proj2 (Z.eqb_neq (BlockCount P) 0)) by lia.
  set (A := if RandomAddress then _ else _).
  assert (0 <= A.1 < 2 ^ 64) as HA.
  { subst A. destruct RandomAddress.
    - destruct (GenRandomBytes (r_Seed r) 8) as [bs S'] eqn:E. by apply random_value in E.
    - case_match; [apply u64_bound|done]. }
  destruct A as [A Seed]. cbn [fst] in HA.
  assert (exists c Seed', (if RandomCount then
      let '(bs, Seed) := GenRandomBytes Seed 4 in
      if MaxBlockCount P =? 0 then None else Some (le_value bs mod MaxBlockCount P, Seed)
    else if r_BlockCount r >? MaxBlockCount P then Some (MaxBlockCount P, Seed)
    else Some (r_BlockCount r, Seed)) = Some (c, Seed') /\ 0 <= c <= MaxBlockCount P)
    as (c & Seed' & -> & Hc).
  { destruct RandomCount.
    - destruct (GenRandomBytes Seed 4) as [bs S']. rewrite (proj2 (Z.eqb_neq (MaxBlockCount P) 0)) by lia.
      eexists _, _. split; [done|]. pose proof (Z.mod_pos_bound (le_value bs) (MaxBlockCount P)). lia.
    - destruct (r_BlockCount r >? MaxBlockCount P) eqn:E; zify_bools; eexists _, _; (split; [done|]); lia. }
  rewrite bind_value. set (c' := if c =? 0 then 1 else c).
  assert (1 <= c' <= MaxBlockCount P) as Hc' by (subst c'; destruct (Z.eqb_spec c 0); lia).
  pose proof (Z.mod_pos_bound A (BlockCount P) ltac:(lia)) as Hmod.
  set (a := A mod BlockCount P) in *. eexists. split; [reflexivity|].
  cbn [r_BlockAddress r_OpBlockCount r_TestOpKind r_System r_DataBuffer r_I r_J r_BlockCount].
  split_and!; try done; try lia. rewrite u64_small by lia. fold BL.
  destruct (a + c' <=? BlockCount P) eqn:E; zify_bools.
  - split_and!; try lia. fold BL. nia.
  - rewrite u32_small by lia. split_and!; try lia. fold BL. nia.
Qed.

(** The end of an operation that has succeeded. *)
Lemma run_wf_next r a :
  a = Z.of_nat (length OpKinds) ->
  td_wf (r_System r) -> Z.of_nat (length (r_DataBuffer r)) = MaxTransferLength P ->
  0 <= r_I r < 2 ^ 32 -> 0 <= r_J r -> 0 <= r_BlockAddress r < 2 ^ 64 -> 0 <= r_BlockCount r < 2 ^ 32 ->
  test_range P (r_BlockAddress r) (r_OpBlockCount r) -> tested r ->
  run_wf (mkRun (u32 (r_I r + 1)) ((r_J r + 1) mod a) (r_BlockAddress r) (r_BlockCount r)
    (r_OpBlockCount r) (r_TestOpKind r) (r_Seed r) (r_DataBuffer r) (r_System r)).
Proof using HK.
  intros -> H1 H2 H3 H4 H5 H6 H7 H8.
  assert (length OpKinds <> 0)%nat by (by intros E%nil_length_inv).
  constructor; try done; [apply u32_bound|].
  cbn [r_J]. pose proof (Z.mod_pos_bound (r_J r + 1) (Z.of_nat (length OpKinds))). lia.
Qed.

(** A response that is as expected. *)
Lemma check_good h k op s (r : @RUN T) :
  k <> SpdIoctlTransactReadKind -> ScsiStatus s = SCSISTAT_GOOD ->
  check_response P (mkReq h k op) (mkRsp h k s) r = Some true.
Proof using.
  intros Hk Hs. unfold check_response. cbn [req_Hint rsp_Hint req_Kind rsp_Kind rsp_Status].
  rewrite !Z.eqb_refl, Hs. cbn [negb]. change (SCSISTAT_GOOD =? SCSISTAT_GOOD) with true. cbn [negb].
  by rewrite (proj2 (Z.eqb_neq SpdIoctlTransactReadKind k)).
Qed.

Lemma check_read h op s (r : @RUN T) :
  ScsiStatus s = SCSISTAT_GOOD ->
  test_range P (r_BlockAddress r) (r_OpBlockCount r) ->
  Z.of_nat (length (r_DataBuffer r)) = MaxTransferLength P ->
  (test_kind (r_TestOpKind r) -> pattern (r_TestOpKind r) BL (r_BlockAddress r) (r_OpBlockCount r) (r_DataBuffer r)) ->
  check_response P (mkReq h SpdIoctlTransactReadKind op) (mkRsp h SpdIoctlTransactReadKind s) r = Some true.
Proof using HG.
  intros Hs (Ha & Hn & Hr & HM) HD Hp. unfold check_response.
  cbn [req_Hint rsp_Hint req_Kind rsp_Kind rsp_Status]. rewrite !Z.eqb_refl, Hs.
  change (SCSISTAT_GOOD =? SCSISTAT_GOOD) with true. cbn [negb].
  destruct ((SpdIoctlTransactWriteKind =? r_TestOpKind r) || (SpdIoctlTransactUnmapKind =? r_TestOpKind r)) eqn:E;
    [|done].
  assert (test_kind (r_TestOpKind r)) as Hk.
  { apply orb_true_iff in E as [E|E]; zify_bools; [by left|by right]. }
  destruct HG as [_ HBL HMax _]. fold BL in HBL, HM |- *.
  destruct (test_spec (r_TestOpKind r) BL (r_BlockAddress r) (r_OpBlockCount r) (r_DataBuffer r) Hk)
    as (b & -> & Hiff); [lia..|]. rewrite bind_value. f_equal. apply Hiff. by apply Hp.
Qed.

(** One operation succeeds. *)
Lemma run_operation_spec r :
  run_wf r -> exists r', run_operation P Handle ThreadId OpKinds RandomAddress RandomCount r = Some (None, r') /\
    run_wf r'.
Proof using HG HT HK HKs TD.
  intros Hwf. unfold run_operation.
  assert (exists r1, (if 0 =? r_J r then choose_range P RandomAddress RandomCount r else Some r) = Some r1 /\
    td_wf (r_System r1) /\ Z.of_nat (length (r_DataBuffer r1)) = MaxTransferLength P /\
    0 <= r_I r1 < 2 ^ 32 /\ 0 <= r_J r1 /\ 0 <= r_BlockAddress r1 < 2 ^ 64 /\
    0 <= r_BlockCount r1 < 2 ^ 32 /\ test_range P (r_BlockAddress r1) (r_OpBlockCount r1) /\ tested r1)
    as (r1 & -> & H1 & H2 & H3 & H4 & H5 & H6 & H7 & H8).
  { destruct (Z.eqb_spec 0 (r_J r)) as [E|E].
    - destruct (choose_range_spec r Hwf) as (r1 & -> & Hr & Hk & Es & Ed & Ei & Ej & Ha & Hn).
      destruct Hwf as [Hs HD HI HJ _ _ _]. exists r1. rewrite Es, Ed, Ei, Ej. split_and!; try done; try lia.
      unfold tested. rewrite Hk. by intros [?|?].
    - destruct Hwf as [Hs HD HI HJ Ha Hn Hr]. destruct Hr as [Hr Ht]; [congruence|].
      exists r. split_and!; try done; lia. }
  rewrite bind_value. clear r Hwf. rename r1 into r.
  pose proof (hint_bound ThreadId (r_I r) HT H3) as Hh. set (h := (u32 ThreadId ≪ 32) .| r_I r) in *.
  pose proof H7 as (Ha & Hn & Hr & HM). pose proof HG as [_ HBL HMax _].
  destruct (lookup_lt_is_Some_2 OpKinds (Z.to_nat (r_I r mod Z.of_nat (length OpKinds)))) as [k Hk].
  { assert (length OpKinds <> 0)%nat by (by intros E%nil_length_inv).
    pose proof (Z.mod_pos_bound (r_I r) (Z.of_nat (length OpKinds))). lia. }
  assert (1 <= k <= 4) as Hk14 by (by eapply Forall_lookup_1 in HKs).
  unfold make_request. rewrite Hk, bind_value. cbv zeta. fold h.
  assert (k = 1 \/ k = 2 \/ k = 3 \/ k = 4) as [->|[->|[->| ->]]] by lia.
  - change (SpdIoctlTransactReadKind =? 1) with true. cbv iota. rewrite bind_value.
    destruct (td_read (r_System r) h (r_BlockAddress r) (r_OpBlockCount r) (b2z (negb (CacheSupported P)))
      (r_DataBuffer r) H1 Hh H7 H2) as (s & t' & bs & DB' & E & Hs & Ht' & Hc & Hbs & HDB).
    change (mkReq h 1) with (mkReq h SpdIoctlTransactReadKind). rewrite E, !bind_value.
    change (negb (ERROR_SUCCESS =? ERROR_SUCCESS)) with false. cbv iota.
    destruct (buf_read_Some _ _ _ _ Hbs) as [Hlb _]. fold BL in Hbs, Hlb, HM, HBL.
    pose proof (buf_write_length _ _ _ _ HDB) as HlDB.
    rewrite check_read; try done.
    + rewrite bind_value. cbn [negb]. eexists. split; [reflexivity|].
      apply (run_wf_next (mkRun (r_I r) (r_J r) (r_BlockAddress r) (r_BlockCount r) (r_OpBlockCount r)
        (r_TestOpKind r) (r_Seed r) DB' t')); cbn [r_System r_DataBuffer r_I r_J r_BlockAddress r_BlockCount
        r_OpBlockCount]; try done; [by rewrite HlDB|].
      unfold tested. cbn [r_TestOpKind r_System r_BlockAddress r_OpBlockCount]. by rewrite Hc.
    + change (Z.of_nat (length DB') = MaxTransferLength P). by rewrite HlDB.
    + change (test_kind (r_TestOpKind r) ->
        pattern (r_TestOpKind r) BL (r_BlockAddress r) (r_OpBlockCount r) DB'). intros Hkind.
      destruct (H8 Hkind) as [Hl Hp]. rewrite (slice_read _ _ _ _ _ Hbs) in Hl, Hp.
      apply (pattern_prefix _ _ _ _ bs); try done; try lia.
      apply buf_write_inv in HDB as [_ ->]. rewrite take_0. cbn [app].
      rewrite (take_ge bs) by lia. by rewrite take_app_length' by lia.
  - change (SpdIoctlTransactReadKind =? 2) with false. change (SpdIoctlTransactWriteKind =? 2) with true.
    cbv iota. fold BL in HBL, HM |- *.
    destruct (fill_spec BL (r_BlockAddress r) (r_OpBlockCount r) (r_DataBuffer r))
      as (DB & -> & HlDB & Hp); [lia..|]. rewrite !bind_value.
    destruct (td_write (r_System r) h (r_BlockAddress r) (r_OpBlockCount r) (b2z (negb (CacheSupported P)))
      DB H1 Hh H7 ltac:(by rewrite HlDB)) as (s & t' & bs & E & Hs & Ht' & Hbs & Hw).
    change (mkReq h 2) with (mkReq h SpdIoctlTransactWriteKind).
    change (r_DataBuffer (r <| r_DataBuffer := DB |> <| r_TestOpKind := SpdIoctlTransactWriteKind |>)) with DB.
    change (r_System (r <| r_DataBuffer := DB |> <| r_TestOpKind := SpdIoctlTransactWriteKind |>))
      with (r_System r).
    rewrite E, !bind_value. change (negb (ERROR_SUCCESS =? ERROR_SUCCESS)) with false. cbv iota.
    rewrite check_good by done. rewrite bind_value. cbn [negb]. eexists. split; [reflexivity|].
    destruct (buf_read_Some _ _ _ _ Hbs) as [Hlb _]. fold BL in Hbs, Hlb, Hw.
    apply (run_wf_next (mkRun (r_I r) (r_J r) (r_BlockAddress r) (r_BlockCount r) (r_OpBlockCount r)
      SpdIoctlTransactWriteKind (r_Seed r) DB t')); cbn [r_System r_DataBuffer r_I r_J r_BlockAddress r_BlockCount
      r_OpBlockCount]; try done; [by rewrite HlDB|].
    unfold tested. cbn [r_TestOpKind r_System r_BlockAddress r_OpBlockCount]. intros _.
    rewrite (slice_written _ _ _ _ _ _ Hlb Hw). split; [lia|].
    apply (pattern_prefix _ _ _ _ DB); try done; try lia.
    unfold buf_read in Hbs. case_decide; [|done]. injection Hbs as <-. rewrite drop_0.
    by rewrite take_take, Nat.min_id.
  - change (SpdIoctlTransactReadKind =? 3) with false. change (SpdIoctlTransactWriteKind =? 3) with false.
    change (SpdIoctlTransactFlushKind =? 3) with true. cbv iota. rewrite bind_value.
    destruct (td_flush (r_System r) h (r_BlockAddress r) (r_OpBlockCount r) (r_DataBuffer r) H1 Hh H7 H2)
      as (s & t' & E & Hs & Ht' & Hc).
    change (mkReq h 3) with (mkReq h SpdIoctlTransactFlushKind). rewrite E, !bind_value.
    change (negb (ERROR_SUCCESS =? ERROR_SUCCESS)) with false. cbv iota.
    rewrite check_good by done. rewrite bind_value. cbn [negb]. eexists. split; [reflexivity|].
    apply (run_wf_next (mkRun (r_I r) (r_J r) (r_BlockAddress r) (r_BlockCount r) (r_OpBlockCount r)
      (r_TestOpKind r) (r_Seed r) (r_DataBuffer r) t')); cbn [r_System r_DataBuffer r_I r_J r_BlockAddress
      r_BlockCount r_OpBlockCount]; try done.
    unfold tested. cbn [r_TestOpKind r_System r_BlockAddress r_OpBlockCount]. by rewrite Hc.
  - change (SpdIoctlTransactReadKind =? 4) with false. change (SpdIoctlTransactWriteKind =? 4) with false.
    change (SpdIoctlTransactFlushKind =? 4) with false. change (SpdIoctlTransactUnmapKind =? 4) with true. cbv iota.
    set (d := unmap_bytes _). assert (length d = 16%nat) as Hd by reflexivity.
    fold BL in HBL, HM.
    destruct (proj2 (buf_write_is_Some 0 d (r_DataBuffer r))) as [DB HDB]; [rewrite Hd; nia|].
    rewrite HDB, !bind_value. pose proof (buf_write_length _ _ _ _ HDB) as HlDB.
    pose proof (buf_read_write_same _ _ _ _ HDB) as Hrd. rewrite Hd in Hrd.
    destruct (td_unmap (r_System r) h (r_BlockAddress r) (r_OpBlockCount r) DB H1 Hh H7
      ltac:(by rewrite HlDB) Hrd) as (s & t' & E & Hs & Ht' & Hz).
    change (mkReq h 4) with (mkReq h SpdIoctlTransactUnmapKind).
    change (r_DataBuffer (r <| r_DataBuffer := DB |> <| r_TestOpKind := SpdIoctlTransactUnmapKind |>)) with DB.
    change (r_System (r <| r_DataBuffer := DB |> <| r_TestOpKind := SpdIoctlTransactUnmapKind |>))
      with (r_System r).
    rewrite E, !bind_value. change (negb (ERROR_SUCCESS =? ERROR_SUCCESS)) with false. cbv iota.
    rewrite check_good by done. rewrite bind_value. cbn [negb]. eexists. split; [reflexivity|].
    apply (run_wf_next (mkRun (r_I r) (r_J r) (r_BlockAddress r) (r_BlockCount r) (r_OpBlockCount r)
      SpdIoctlTransactUnmapKind (r_Seed r) DB t')); cbn [r_System r_DataBuffer r_I r_J r_BlockAddress r_BlockCount
      r_OpBlockCount]; try done; [by rewrite HlDB|].
    unfold tested. cbn [r_TestOpKind r_System r_BlockAddress r_OpBlockCount]. intros _. fold BL in Hz.
    set (a := r_BlockAddress r) in *. set (n := r_OpBlockCount r) in *.
    assert (0 <= a * BL /\ 16 <= n * BL) as [Ha0 Hn0] by nia.
    assert (is_Some (td_contents t' !! Z.to_nat (a * BL + n * BL - 1))) as Hlt%lookup_lt_is_Some
      by (rewrite Hz by lia; by eexists).
    split; [unfold slice; rewrite length_take, length_drop; lia|].
    apply pattern_zero; [lia|]. intros i Hi. unfold slice. rewrite lookup_take_lt by lia.
    rewrite lookup_drop. apply Hz. lia.
Qed.

Lemma run_loop_spec n r :
  run_wf r -> exists r', run_loop P Handle ThreadId OpKinds RandomAddress RandomCount n r = Some (ERROR_SUCCESS, r').
Proof using HG HT HK HKs TD.
  revert r. induction n as [|n IH]; intros r Hwf; cbn [run_loop]; [by eexists|].
  destruct (run_operation_spec r Hwf) as (r' & -> & Hwf'). rewrite bind_value. by apply IH.
Qed.
End Passes.

(** The operations of a text. *)
Lemma op_kinds_loop_spec n OpSet :
  0 ∈ OpSet -> exists ks, op_kinds_loop n OpSet = Some ks /\ Forall (fun k => 1 <= k <= 4) ks.
Proof.
  revert OpSet. induction n as [|n IH]; intros OpSet H0; cbn [op_kinds_loop]; [by eexists|].
  destruct OpSet as [|c OpSet]; [by apply elem_of_nil in H0|].
  destruct (Z.eqb_spec 0 c) as [E|E]; [by eexists|].
  apply elem_of_cons in H0 as [?|H0]; [congruence|].
  destruct (IH OpSet H0) as (ks & -> & Hks). rewrite bind_value. eexists. split; [done|].
  apply Forall_app. split; [|done]. unfold kind_of_letter. repeat case_match; repeat constructor; done.
Qed.

Lemma op_kinds_spec OpSet :
  0 ∈ OpSet -> exists ks, op_kinds OpSet = Some ks /\ ks <> [] /\ Forall (fun k => 1 <= k <= 4) ks.
Proof.
  intros H0. unfold op_kinds. destruct (op_kinds_loop_spec 32 OpSet H0) as (ks & -> & Hks).
  rewrite bind_value. eexists. split; [done|]. destruct ks as [|k ks]; [|done].
  split; [done|]. repeat constructor; done.
Qed.

(** ** Properties *)

(** The tester recognizes what it writes, and nothing else: the buffer that it fills for a
    range of blocks passes the test for the range, and the test for no other range of as many
    blocks; any buffer passes a test exactly when every word of its blocks is the expected one,
    the word of the block's address after a write and zero after an unmap. *)
Theorem fill_or_test_exact BL a n buf :
  8 <= BL -> 0 < n -> n * BL <= Z.of_nat (length buf) -> n * BL < 2 ^ 32 -> 0 <= a < 2 ^ 64 ->
  exists buf', FillOrTest buf BL a n SpdIoctlTransactReservedKind = Some (true, buf') /\
    length buf' = length buf /\
    (forall b, 0 <= b < 2 ^ 64 -> exists ok,
       FillOrTest buf' BL b n SpdIoctlTransactWriteKind = Some (ok, buf') /\ (ok = true <-> b = a)) /\
    (forall Kind b, test_kind Kind -> exists ok,
       FillOrTest buf BL b n Kind = Some (ok, buf) /\
       (ok = true <-> forall i j, 0 <= i < n -> 0 <= j < BL / 8 ->
          load64 (Z.to_nat (i * BL + 8 * j)) buf =
          Some (if Kind =? SpdIoctlTransactWriteKind then SpdHashMix64 (u64 (b + i + 1)) else 0))).
Proof.
  intros HBL Hn Hl H32 Ha.
  destruct (fill_spec BL a n buf) as (buf' & Hf & Hl' & Hp); [lia..|].
  exists buf'. split; [done|]. split; [done|]. split.
  - intros b Hb. destruct (test_spec SpdIoctlTransactWriteKind BL b n buf') as (ok & Ht & Hok);
      [by left|lia..|]. exists ok. split; [done|]. rewrite Hok. split; [|by intros ->].
    intros Hp'. assert (0 <= 0 < BL / 8) as H8 by (split; [lia|]; apply Z.div_str_pos; lia).
    specialize (Hp 0 0 ltac:(lia) H8). rewrite (Hp' 0 0 ltac:(lia) H8) in Hp. injection Hp as Hp.
    unfold expected in Hp. cbn in Hp. rewrite !Z.add_0_r in Hp. by apply block_word_inj.
  - intros Kind b HK. destruct (test_spec Kind BL b n buf HK) as (ok & Ht & Hok); [lia..|].
    exists ok. split; [done|]. rewrite Hok. unfold pattern, expected. by rewrite (Z.eqb_sym Kind).
Qed.

Lemma fill_or_test_exact_witness :
  exists buf', FillOrTest (replicate 32 7) 16 5 2 SpdIoctlTransactReservedKind = Some (true, buf') /\
    FillOrTest buf' 16 5 2 SpdIoctlTransactWriteKind = Some (true, buf') /\
    FillOrTest buf' 16 6 2 SpdIoctlTransactWriteKind = Some (false, buf').
Proof.
  destruct (fill_or_test_exact 16 5 2 (replicate 32 7)) as (buf' & Hf & _ & Ht & _);
    [lia|lia|vm_compute; discriminate|lia|lia|].
  exists buf'. split; [exact Hf|].
  destruct (Ht 5 ltac:(lia)) as (ok5 & -> & [_ H5]). destruct (Ht 6 ltac:(lia)) as (ok6 & -> & [H6 _]).
  rewrite (H5 eq_refl). split; [reflexivity|]. destruct ok6; [|reflexivity].
  specialize (H6 eq_refl). lia.
Defined.

(** A test of a unit that keeps its promises succeeds, whatever the operations, the range, the
    counts and the seed that it is run with: every request is for blocks of the unit and fits
    the buffer, no access is out of bounds, no response is taken for a bad one, and in the end
    the unit is closed. *)
Lemma run_passes {T} {FS : FileSystem T} P Handle (TD : TestDevice T P Handle) t Buffer ThreadId OpCount
    OpSet BlockAddress BlockCount Seed :
  geometry_wf P -> 0 < ThreadId < 2 ^ 32 -> Handle <> INVALID_HANDLE_VALUE ->
  td_wf t -> Z.of_nat (length Buffer) = MaxTransferLength P -> 0 ∈ OpSet ->
  0 <= BlockAddress < 2 ^ 64 -> 0 <= BlockCount < 2 ^ 32 ->
  exists Seed' t', run (ERROR_SUCCESS, Handle, P, t) (Some Buffer) ThreadId OpCount OpSet BlockAddress BlockCount
      Seed = Some (ERROR_SUCCESS, Seed', StgClose t' Handle).
Proof.
  intros HG HT HH Ht HB HO Ha Hn. unfold run.
  change (negb (ERROR_SUCCESS =? ERROR_SUCCESS)) with false. cbv iota.
  destruct (op_kinds_spec OpSet HO) as (ks & -> & Hks & Hf). rewrite bind_value.
  rewrite (proj2 (Z.eqb_neq (BlockLength P) 0)) by (destruct HG; lia).
  set (r := mkRun 0 0 BlockAddress BlockCount 0 SpdIoctlTransactReservedKind Seed Buffer t).
  assert (run_wf P Handle r) as Hwf by (constructor; done).
  destruct (run_loop_spec P Handle ThreadId ks (BlockAddress =? u64 (-1)) (BlockCount =? u32 (-1)) HG HT Hks Hf
    (Z.to_nat (if 0 =? OpCount then 1 else OpCount)) r Hwf) as (r' & ->).
  rewrite bind_value. rewrite (proj2 (Z.eqb_neq INVALID_HANDLE_VALUE Handle)) by congruence. cbn [negb].
  by eexists _, _.
Qed.
