(* ===== verification/StgPipe.v ===== *)
(** * A tester and a storage device on the two ends of a pipe

    The client of [StgTest], over the server side of [StgHandle], the switch of [Dispatcher] and
    the disk of [RawDisk]: over a quiet file they are together a [TestDevice]. *)

From S2P Require Import Prelude Wdk IoctlTypes ScsiIo UnitHandle Dispatcher RawDisk RawDiskProps.
From S2P Require Import StgHandle StgHandleProps StgTest StgTestProps.

(** ** The server *)

(** What the server keeps between two messages, and the response that is in the pipe. *)
Record PIPE (F : Type) := mkPipe {
  pp_Unit : STORAGE_UNIT;
  pp_Buffer : list Z;
  pp_File : F;
  pp_Response : option (SPD_IOCTL_TRANSACT_RSP * list Z)
}.
Arguments mkPipe {F} _ _ _ _.
Arguments pp_Unit {F} _.
Arguments pp_Buffer {F} _.
Arguments pp_File {F} _.
Arguments pp_Response {F} _.

Section Server.
Context {F : Type} {HF : MappedFile F} (RawDisk : RAWDISK).

(** From the receipt of a request to its response: the end of one transaction, the switch of the
    dispatcher, and the beginning of the next transaction.  Nothing comes back for a request that
    is dropped, for a fault, or for a response that is left for later. *)
Definition server_answer (t : PIPE F) (q : SPD_IOCTL_TRANSACT_REQ) (data : list Z)
    : option (SPD_IOCTL_TRANSACT_RSP * list Z * PIPE F) :=
  '(good, buf, u) ← pipe_request (pp_Unit t) q data (sizeof_TRANSACT_MSG + Z.of_nat (length data))
                      (pp_Buffer t) true;
  if negb good || (0 =? req_Hint q) then None
  else
    '(Complete, buf, s, f) ← dispatch_switch (RawDiskInterface RawDisk) (pp_File t) buf q ZeroStatus;
    if negb Complete then None
    else
      '(R, data, u) ← pipe_message u (mkRsp (req_Hint q) (req_Kind q) s) (Some buf);
      Some (R, data, mkPipe u buf f (Some (R, data))).

(** The pipe as the system of the client: a message that is written is answered, and the answer
    is read next. *)
#[local] Instance pipe_system : FileSystem (PIPE F) := {|
  fs_OverlappedInit t := ERROR_SUCCESS;
  fs_MemAlloc t n := true;
  fs_WriteMsg t h m :=
    match server_answer t m.1 m.2 with
    | Some (_, _, t) => (ERROR_SUCCESS, t)
    | None => (ERROR_OPERATION_ABORTED, t)
    end;
  fs_ReadMsg t h :=
    match pp_Response t with
    | Some (R, data) => (ERROR_SUCCESS, sizeof_TRANSACT_MSG + Z.of_nat (length data), (R, data),
                         mkPipe (pp_Unit t) (pp_Buffer t) (pp_File t) None)
    | None => (ERROR_OPERATION_ABORTED, 0, (mkRsp 0 0 ZeroStatus, []), t)
    end;
  fs_WriteAt t h off bs := (ERROR_OPERATION_ABORTED, 0, t);
  fs_ReadAt t h off bs := (ERROR_OPERATION_ABORTED, 0, bs, t);
  fs_CloseHandle t h := t
|}.
End Server.

(** The two ends of [server_answer] are the two halves of an exchange whose messages go through. *)
Lemma pipe_exchange_halves u c R buf a :
  WaitOverlappedResult (ta_Write a) = ERROR_SUCCESS -> WaitOverlappedResult (ta_Read a) = ERROR_SUCCESS ->
  pipe_exchange u c (Some R) true (Some buf) a =
    ('(R, data, u) ← pipe_message u R (Some buf);
     '(good, buf, u) ← pipe_request u (ta_Req a) (ta_Data a) (ta_BytesTransferred a) buf (ta_Item a);
     Some (mkResult ERROR_SUCCESS (Some (if (good : bool) then ta_Req a else ReqZero)) (Some buf)
             (Some (R, data)), u)).
Proof.
  intros HW HR. unfold pipe_exchange. rewrite HW, HR. change (negb (ERROR_SUCCESS =? ERROR_SUCCESS)) with false.
  destruct (pipe_message u R (Some buf)) as [[[R' data] u']|]; [|done]. rewrite !bind_value.
  destruct (pipe_request u' _ _ _ _ _) as [[[good buf'] u'']|]; [|done]. rewrite !bind_value.
  by destruct good.
Qed.

(** ** A quiet file *)

(** No access fails, and every flush succeeds. *)
Class QuietFile (F : Type) {HF : MappedFile F} : Prop := {
  quiet_copy f Dst Src n : (CopyException f Dst Src n).1 = None;
  quiet_flush_view f off n : (FlushViewOfFile f off n).1 = true;
  quiet_flush_buffers f : (FlushFileBuffers f).1 = true
}.

Section Quiet.
Context {F : Type} {HF : MappedFile F} {HQ : QuietFile F} (RawDisk : RAWDISK).

Lemma quiet_CopyBuffer f Buffer Dst Src n ASC s f' Buffer' s' :
  copy_status (CopyBuffer RawDisk f Buffer Dst Src n ASC (Some s)) = Some (f', Buffer', s') -> s' = s.
Proof using HQ.
  unfold copy_status, CopyBuffer. pose proof (quiet_copy f Dst Src n) as E.
  destruct (CopyException f Dst Src n) as [x f1]; cbn [fst] in E. subst x.
  intros ([[f2 B] S] & H & H')%bind_Some.
  apply bind_Some in H as (bs & _ & H). apply bind_Some in H as ([f3 B3] & _ & [= <- <- <-]).
  by injection H' as _ _ <-.
Qed.

Lemma quiet_FlushInternal f a n s : (FlushInternal RawDisk f a n s).1.2 = s.
Proof using HQ.
  unfold FlushInternal. set (o := FileBuffer RawDisk a). set (m := u32 _).
  pose proof (quiet_flush_view f o m) as E. destruct (FlushViewOfFile f o m) as [b f1]; cbn [fst] in E.
  subst b. cbn [negb]. pose proof (quiet_flush_buffers f1) as E.
  destruct (FlushFileBuffers f1) as [b f2]; cbn [fst] in E. by subst b.
Qed.

Lemma quiet_read f Buffer a n fua c Buffer' s f' :
  RawDiskRead RawDisk f Buffer a n fua ZeroStatus = Some (c, Buffer', s, f') -> s = ZeroStatus.
Proof using HQ.
  unfold RawDiskRead. intros H.
  assert ((if fua =? 0 then (true, ZeroStatus, f) else FlushInternal RawDisk f a n ZeroStatus).1.2 = ZeroStatus)
    as E by (destruct (fua =? 0); [done|apply quiet_FlushInternal]).
  destruct (if fua =? 0 then _ else _) as [[b s1] f1]; cbn [fst snd] in E. subst s1.
  change (negb (SCSISTAT_GOOD =? ScsiStatus ZeroStatus)) with false in H. rewrite andb_false_r in H.
  apply bind_Some in H as ([[f2 B] s2] & H & [= <- <- <- <-]). by eapply quiet_CopyBuffer.
Qed.

Lemma quiet_write f Buffer a n fua c Buffer' s f' :
  RawDiskWrite RawDisk f Buffer a n fua ZeroStatus = Some (c, Buffer', s, f') -> s = ZeroStatus.
Proof using HQ.
  unfold RawDiskWrite. intros ([[f1 B] s1] & H1 & H)%bind_Some.
  apply quiet_CopyBuffer in H1. subst s1. destruct (_ && _); [|by injection H as <- <- <- <-].
  pose proof (quiet_FlushInternal f1 a n ZeroStatus) as E.
  destruct (FlushInternal RawDisk f1 a n ZeroStatus) as [[b s2] f2]; cbn [fst snd] in E. subst s2.
  by injection H as <- <- <- <-.
Qed.
End Quiet.

(** ** One request *)

Section Pipe.
Context {F : Type} {HF : MappedFile F} {HL : MappedFileLaws F} {HQ : QuietFile F} (RawDisk : RAWDISK).
Context (P : SPD_IOCTL_STORAGE_UNIT_PARAMS).

(** Between two requests: no hint is held, and the buffer has the size of the largest transfer. *)
Record pipe_wf (t : PIPE F) : Prop := {
  pw_Unit : unit_hints (pp_Unit t) ∅;
  pw_Params : StorageUnitParams (pp_Unit t) = P;
  pw_Buffer : Z.of_nat (length (pp_Buffer t)) = MaxTransferLength P;
  pw_File : disk_wf RawDisk (pp_File t)
}.

(** The buffer that the storage device sees. *)
Definition server_buffer (t : PIPE F) (q : SPD_IOCTL_TRANSACT_REQ) (data : list Z) : list Z :=
  if req_Kind q =? SpdIoctlTransactReadKind then pp_Buffer t
  else fit_data (request_length P q) data ++ drop (Z.to_nat (request_length P q)) (pp_Buffer t).

Lemma request_bound q : 0 <= request_length P q < 2 ^ 32.
Proof using. unfold request_length. destruct (req_Op q); try apply u32_bound; lia. Qed.

Lemma server_buffer_length t q data :
  pipe_wf t -> request_length P q <= MaxTransferLength P ->
  length (server_buffer t q data) = length (pp_Buffer t).
Proof using.
  intros [_ _ HB _] Hl. pose proof (request_bound q) as Hb. unfold server_buffer.
  case_match; [done|]. rewrite length_app, fit_data_length, length_drop. lia.
Qed.

(** A good request is taken. *)
Lemma server_request t q data :
  pipe_wf t -> request_wf q -> request_length P q <= MaxTransferLength P ->
  exists B, pipe_request (pp_Unit t) q data (sizeof_TRANSACT_MSG + Z.of_nat (length data)) (pp_Buffer t) true
      = Some (true, server_buffer t q data, with_hints (pp_Unit t) B) /\
    unit_hints (with_hints (pp_Unit t) B)
      (if req_Kind q =? SpdIoctlTransactReadKind then {[req_Hint q := request_length P q]} else ∅).
Proof using.
  intros [HU HP HB _] Hq Hl. pose proof HU as (Hr & Hv & HM). pose proof (request_bound q) as Hb.
  unfold unit_hints, pipe_request, server_buffer. rewrite HP in *.
  change (StorageUnitParams (with_hints (pp_Unit t) ?B)) with (StorageUnitParams (pp_Unit t)).
  rewrite Z.gtb_ltb, (proj2 (Z.ltb_ge _ _)) by lia.
  assert (exists B, pp_Unit t = with_hints (pp_Unit t) B) as [B0 E0]
    by (exists (Buckets (pp_Unit t)); by destruct (pp_Unit t)).
  destruct (Z.eqb_spec SpdIoctlTransactReadKind (req_Kind q)) as [<-|Hk].
  { rewrite Z.eqb_refl. rewrite Z.gtb_ltb, (proj2 (Z.ltb_ge _ _)) by lia.
    destruct (put_hint_rep (pp_Unit t) ∅ (req_Hint q) (request_length P q) true Hr)
      as (B & -> & HB').
    case_bool_decide as E; [|destruct E; exact (lookup_empty _)]. cbn [andb] in *. rewrite bind_value.
    exists B. split; [done|]. split; [exact HB'|]. rewrite HP. split; [|done].
    intros h v [<- <-]%lookup_singleton_Some. lia. }
  rewrite (proj2 (Z.eqb_neq (req_Kind q) _)) by congruence.
  destruct (_ || _) eqn:Eo.
  - rewrite Z.gtb_ltb, (proj2 (Z.ltb_ge _ _)) by lia. rewrite pipe_data_spec by lia. rewrite bind_value.
    exists B0. by rewrite <- E0.
  - apply orb_false_iff in Eo as [E1 E2]. zify_bools.
    assert (request_length P q = 0) as ->.
    { unfold request_wf in Hq. unfold request_length. destruct (req_Op q); congruence. }
    exists B0. rewrite <- E0. done.
Qed.

(** What a good request is answered, if the storage device reports a status. *)
Lemma server_answer_spec t q data buf s f :
  pipe_wf t -> request_wf q -> 0 < req_Hint q -> request_length P q <= MaxTransferLength P ->
  serve RawDisk (pp_File t) (server_buffer t q data) q = Some (true, buf, s, f) ->
  length buf = length (pp_Buffer t) -> disk_wf RawDisk f ->
  let R := mkRsp (req_Hint q) (req_Kind q) s in
  let out := if req_Kind q =? SpdIoctlTransactReadKind then take (Z.to_nat (request_length P q)) buf else [] in
  exists u, server_answer RawDisk t q data = Some (R, out, mkPipe u buf f (Some (R, out))) /\
    pipe_wf (mkPipe u buf f None).
Proof using.
  intros Hw Hq Hh Hl Hs Hlb Hf R out. unfold server_answer.
  destruct (server_request t q data Hw Hq Hl) as (B & -> & HU). rewrite bind_value.
  rewrite (proj2 (Z.eqb_neq 0 (req_Hint q))) by lia. cbn [negb orb].
  unfold serve in Hs. rewrite Hs, bind_value. cbn [negb]. fold R.
  destruct Hw as [_ HP HB _].
  destruct (pipe_message_spec _ _ HU R (Some buf)) as (data' & B' & -> & HU' & ->).
  { intros b [= <-]. change (StorageUnitParams (with_hints (pp_Unit t) B)) with (StorageUnitParams (pp_Unit t)).
    rewrite HP. lia. }
  rewrite bind_value.
  assert (response_data (if req_Kind q =? SpdIoctlTransactReadKind then {[req_Hint q := request_length P q]} else ∅)
            R (Some buf) = out /\
          response_hints (if req_Kind q =? SpdIoctlTransactReadKind then {[req_Hint q := request_length P q]} else ∅)
            (Some R) (Some buf) = ∅) as [-> EH].
  { unfold response_data, response_hints, carries_data. subst out R. cbn [rsp_Kind rsp_Hint].
    rewrite (bool_decide_true (Some buf <> None)) by done. rewrite andb_true_r.
    destruct (Z.eqb_spec (req_Kind q) SpdIoctlTransactReadKind) as [E|E].
    - rewrite bool_decide_true by done. rewrite lookup_singleton_eq. split; [done|].
      apply delete_singleton_eq.
    - by rewrite bool_decide_false. }
  rewrite EH in HU'. eexists. split; [reflexivity|]. constructor; try done. cbn [pp_Buffer]. by rewrite Hlb.
Qed.

(** The exchange of the client: what is sent is answered. *)
Lemma transact_pipe t h q data B R out u buf f :
  sent_length q P <= MaxTransferLength P ->
  buf_read 0 (Z.to_nat (sent_length q P)) B = Some data ->
  server_answer RawDisk t q data = Some (R, out, mkPipe u buf f (Some (R, out))) ->
  rsp_Hint R = req_Hint q ->
  StgTransactPipe (FS := pipe_system RawDisk) t h (Some q) true (Some B) P =
    if (SpdIoctlTransactReadKind =? rsp_Kind R) && (SCSISTAT_GOOD =? ScsiStatus (rsp_Status R)) then
      if u32 (op_block_count q * BlockLength P) >? MaxTransferLength P
      then Some (ERROR_IO_DEVICE, None, Some B, mkPipe u buf f None)
      else DB ← received_data B (u32 (op_block_count q * BlockLength P)) (Z.of_nat (length out)) out;
           Some (ERROR_SUCCESS, Some R, Some DB, mkPipe u buf f None)
    else Some (ERROR_SUCCESS, Some R, Some B, mkPipe u buf f None).
Proof using.
  intros Hl Hd HA HR. unfold StgTransactPipe.
  cbn [negb fs_OverlappedInit fs_MemAlloc fs_WriteMsg fs_ReadMsg pipe_system].
  change (negb (ERROR_SUCCESS =? ERROR_SUCCESS)) with false. cbv iota.
  assert ((if negb (0 =? sent_length q P)
           then DataBuffer ← Some B;
                if sent_length q P >? MaxTransferLength P then None
                else buf_read 0 (Z.to_nat (sent_length q P)) DataBuffer
           else Some []) = Some data) as ->.
  { destruct (Z.eqb_spec 0 (sent_length q P)) as [E|E]; cbn [negb].
    - rewrite <- E in Hd. change (Z.to_nat 0) with 0%nat in Hd. by rewrite buf_read_nothing in Hd by lia.
    - rewrite bind_value, Z.gtb_ltb, (proj2 (Z.ltb_ge _ _)) by lia. done. }
  rewrite bind_value. cbn [fst snd]. rewrite HA. cbn [pp_Response pp_Unit pp_Buffer pp_File].
  change (negb (ERROR_SUCCESS =? ERROR_SUCCESS)) with false. cbv iota.
  rewrite HR, Z.eqb_refl, Z.gtb_ltb, (proj2 (Z.ltb_ge _ _)) by lia. cbn [negb orb].
  by rewrite Z.add_simpl_l.
Qed.

(** ** The device *)

Context (Handle : Z) (HH : IsPipeHandle Handle = true).
Context (HBL : rd_BlockLength RawDisk = BlockLength P) (HBC : rd_BlockCount RawDisk = BlockCount P).
Context (H16 : 16 <= BlockLength P).

Lemma range_facts t a n :
  pipe_wf t -> test_range P a n ->
  in_range RawDisk a n /\ n * BlockLength P < 2 ^ 32 /\ n * BlockLength P <= Z.of_nat (length (pp_Buffer t)) /\
  u32 (n * BlockLength P) = n * BlockLength P /\ n * BlockLength P <= MaxTransferLength P /\
  16 <= n * BlockLength P.
Proof using HBC H16.
  intros [(_ & _ & HM) HP HB _] (Ha & Hn & Hr & Hl). rewrite HP in HM. unfold in_range. rewrite HBC.
  assert (16 <= n * BlockLength P) by nia. split_and!; try lia. apply u32_small. lia.
Qed.

Lemma received_all DB data n :
  n = Z.of_nat (length data) -> n <= Z.of_nat (length DB) ->
  received_data DB n n data = buf_write 0 data DB.
Proof using.
  intros -> Hl. change received_data with pipe_data. rewrite pipe_data_spec by lia.
  rewrite buf_write_Some by lia. f_equal. unfold fit_data. rewrite Nat2Z.id, Nat.sub_diag, app_nil_r.
  rewrite take_ge by lia. by rewrite take_0, Nat.add_0_l.
Qed.

Lemma pipe_read t h a n fua DB :
  pipe_wf t -> 0 < h < 2 ^ 64 -> test_range P a n -> Z.of_nat (length DB) = MaxTransferLength P ->
  exists s t' bs DB',
    StgTransact (FS := pipe_system RawDisk) t Handle
      (Some (mkReq h SpdIoctlTransactReadKind (OpRead a n fua))) true (Some DB) P =
      Some (ERROR_SUCCESS, Some (mkRsp h SpdIoctlTransactReadKind s), Some DB', t') /\
    ScsiStatus s = SCSISTAT_GOOD /\ pipe_wf t' /\ View (pp_File t') = View (pp_File t) /\
    buf_read (Z.to_nat (a * BlockLength P)) (Z.to_nat (n * BlockLength P)) (View (pp_File t)) = Some bs /\
    buf_write 0 bs DB = Some DB'.
Proof using HL HQ HH HBL HBC H16.
  intros Hw Hh Hr HDB. destruct (range_facts t a n Hw Hr) as (Hin & H32 & HlB & Hu & HM & Hge).
  set (q := mkReq h SpdIoctlTransactReadKind (OpRead a n fua)).
  destruct (read_spec RawDisk (pp_File t) (pp_Buffer t) a n fua (pw_File t Hw)) as (B' & s & f' & E & HV & _ & Hl & Hg);
    [done|by rewrite HBL..|].
  pose proof (quiet_read _ _ _ _ _ _ _ _ _ _ E) as ->. destruct (Hg eq_refl) as (bs & Hbs & HB'). rewrite HBL in Hbs.
  assert (request_length P q = n * BlockLength P) as Hrl by exact Hu.
  pose proof (proj1 Hh : 0 < req_Hint q) as Hhq.
  destruct (server_answer_spec t q [] B' ZeroStatus f' Hw) as (u & HA & Hw'); try done; try lia.
  { apply (disk_wf_view RawDisk (pp_File t)); [apply Hw|by rewrite HV]. }
  unfold StgTransact. rewrite HH. erewrite transact_pipe; [|change (sent_length q P) with 0; lia| |exact HA|done];
    [|by apply buf_read_nothing; lia].
  change ((_ =? _) && _) with true. cbv iota. change (op_block_count q) with n. rewrite Hu.
  rewrite Z.gtb_ltb, (proj2 (Z.ltb_ge _ _)) by lia.
  destruct (buf_read_Some _ _ _ _ Hbs) as [Hlb _].
  assert (take (Z.to_nat (request_length P q)) B' = bs) as Etk.
  { rewrite Hrl. apply buf_write_inv in HB' as [_ ->]. rewrite take_0. cbn [app]. by rewrite take_app_length' by lia. }
  change (req_Kind q =? SpdIoctlTransactReadKind) with true. cbv iota. rewrite Etk.
  replace (Z.of_nat (length bs)) with (n * BlockLength P) by lia.
  rewrite received_all by lia. destruct (proj2 (buf_write_is_Some 0 bs DB)) as [DB' HDB']; [lia|].
  rewrite HDB', bind_value. by eexists _, _, bs, DB'.
Qed.

Lemma pipe_write t h a n fua DB :
  pipe_wf t -> 0 < h < 2 ^ 64 -> test_range P a n -> Z.of_nat (length DB) = MaxTransferLength P ->
  exists s t' bs,
    StgTransact (FS := pipe_system RawDisk) t Handle
      (Some (mkReq h SpdIoctlTransactWriteKind (OpWrite a n fua))) true (Some DB) P =
      Some (ERROR_SUCCESS, Some (mkRsp h SpdIoctlTransactWriteKind s), Some DB, t') /\
    ScsiStatus s = SCSISTAT_GOOD /\ pipe_wf t' /\
    buf_read 0 (Z.to_nat (n * BlockLength P)) DB = Some bs /\
    buf_write (Z.to_nat (a * BlockLength P)) bs (View (pp_File t)) = Some (View (pp_File t')).
Proof using HL HQ HH HBL HBC H16.
  intros Hw Hh Hr HDB. destruct (range_facts t a n Hw Hr) as (Hin & H32 & HlB & Hu & HM & Hge).
  set (q := mkReq h SpdIoctlTransactWriteKind (OpWrite a n fua)).
  assert (request_length P q = n * BlockLength P) as Hrl by exact Hu.
  destruct (proj2 (buf_read_is_Some 0 (Z.to_nat (n * BlockLength P)) DB)) as [bs Hbs]; [lia|].
  destruct (buf_read_Some _ _ _ _ Hbs) as [Hlb _].
  assert (server_buffer t q bs = bs ++ drop (Z.to_nat (n * BlockLength P)) (pp_Buffer t)) as EB.
  { unfold server_buffer. change (req_Kind q =? SpdIoctlTransactReadKind) with false. cbv iota.
    rewrite Hrl. unfold fit_data. by rewrite take_ge, Hlb, Nat.sub_diag, app_nil_r by lia. }
  pose proof (server_buffer_length t q bs Hw ltac:(lia)) as HlS.
  destruct (write_spec RawDisk (pp_File t) (server_buffer t q bs) a n fua (pw_File t Hw))
    as (s & f' & bs' & E & _ & Hl' & HW & Hg & _); [done|by rewrite HBL|rewrite HlS, HBL; lia|].
  pose proof (quiet_write _ _ _ _ _ _ _ _ _ _ E) as ->. specialize (Hg eq_refl). rewrite HBL in *.
  assert (bs' = bs) as ->.
  { rewrite EB in Hg. unfold buf_read in Hg. case_decide; [|done]. injection Hg as <-.
    rewrite drop_0. by rewrite take_app_length' by lia. }
  pose proof (proj1 Hh : 0 < req_Hint q) as Hhq.
  destruct (server_answer_spec t q bs (server_buffer t q bs) ZeroStatus f' Hw) as (u & HA & Hw'); try done; try lia.
  { apply (disk_wf_view RawDisk (pp_File t)); [apply Hw|by eapply buf_write_length]. }
  unfold StgTransact. rewrite HH. assert (sent_length q P = n * BlockLength P) as Hsl by exact Hu.
  erewrite transact_pipe; [|by rewrite Hsl|by rewrite Hsl|exact HA|done].
  eexists _, _, bs. split; [reflexivity|]. by split_and!.
Qed.

Lemma pipe_flush t h a n DB :
  pipe_wf t -> 0 < h < 2 ^ 64 -> test_range P a n -> Z.of_nat (length DB) = MaxTransferLength P ->
  exists s t',
    StgTransact (FS := pipe_system RawDisk) t Handle
      (Some (mkReq h SpdIoctlTransactFlushKind (OpFlush a n))) true (Some DB) P =
      Some (ERROR_SUCCESS, Some (mkRsp h SpdIoctlTransactFlushKind s), Some DB, t') /\
    ScsiStatus s = SCSISTAT_GOOD /\ pipe_wf t' /\ View (pp_File t') = View (pp_File t).
Proof using HL HQ HH.
  intros Hw Hh Hr HDB. set (q := mkReq h SpdIoctlTransactFlushKind (OpFlush a n)).
  destruct (flush_internal_spec RawDisk (pp_File t) a n ZeroStatus) as (HV & HC & _).
  pose proof (quiet_FlushInternal RawDisk (pp_File t) a n ZeroStatus) as HS.
  destruct (FlushInternal RawDisk (pp_File t) a n ZeroStatus) as [[c s] f'] eqn:E. cbn [fst snd] in *. subst c s.
  assert (0 <= MaxTransferLength P) as HM by lia.
  pose proof (proj1 Hh : 0 < req_Hint q) as Hhq.
  destruct (server_answer_spec t q [] (server_buffer t q []) ZeroStatus f' Hw) as (u & HA & Hw'); try done.
  { unfold serve, dispatch_switch. cbn [Flush RawDiskInterface]. unfold RawDiskFlush.
    change (req_Op q) with (OpFlush a n). cbv iota. rewrite bind_value, E. reflexivity. }
  { apply (disk_wf_view RawDisk (pp_File t)); [apply Hw|by rewrite HV]. }
  unfold StgTransact. rewrite HH. erewrite transact_pipe; [|done| |exact HA|done].
  - eexists _, _. split; [reflexivity|]. by split_and!.
  - change (sent_length q P) with 0. apply buf_read_nothing. lia.
Qed.

Lemma read_unmap_bytes a n rest :
  0 <= a < 2 ^ 64 -> 0 <= n < 2 ^ 32 ->
  read_unmap (unmap_bytes (mkUnmapDescriptor a n) ++ rest) 0 = Some (a, n).
Proof using.
  intros Ha Hn. unfold read_unmap. rewrite buf_read_app by (cbn; lia).
  unfold buf_read. rewrite decide_True by (cbn; lia). rewrite bind_value. unfold unmap_bytes. simpl.
  by rewrite be64_get, be32_get, u64_small, u32_small.
Qed.

Lemma pipe_unmap t h a n DB :
  BlockCount P < 2 ^ 64 ->
  pipe_wf t -> 0 < h < 2 ^ 64 -> test_range P a n -> Z.of_nat (length DB) = MaxTransferLength P ->
  buf_read 0 16 DB = Some (unmap_bytes (mkUnmapDescriptor a n)) ->
  exists s t',
    StgTransact (FS := pipe_system RawDisk) t Handle
      (Some (mkReq h SpdIoctlTransactUnmapKind (OpUnmap 1))) true (Some DB) P =
      Some (ERROR_SUCCESS, Some (mkRsp h SpdIoctlTransactUnmapKind s), Some DB, t') /\
    ScsiStatus s = SCSISTAT_GOOD /\ pipe_wf t' /\
    forall i, a * BlockLength P <= Z.of_nat i < (a + n) * BlockLength P -> View (pp_File t') !! i = Some 0.
Proof using HL HQ HH HBL HBC H16.
  intros H64 Hw Hh Hr HDB Hd. destruct (range_facts t a n Hw Hr) as (Hin & H32 & HlB & Hu & HM & Hge).
  set (q := mkReq h SpdIoctlTransactUnmapKind (OpUnmap 1)). set (d := unmap_bytes (mkUnmapDescriptor a n)) in *.
  assert (request_length P q = 16) as Hrl by reflexivity.
  assert (server_buffer t q d = d ++ drop 16 (pp_Buffer t)) as EB by reflexivity.
  assert (read_unmap (server_buffer t q d) 0 = Some (a, n)) as HR.
  { rewrite EB. destruct Hr as (Ha & Hn & Hr & _). apply read_unmap_bytes; [lia|nia]. }
  pose proof (server_buffer_length t q d Hw ltac:(lia)) as HlS.
  destruct (unmap_loop_spec RawDisk (server_buffer t q d) 1 0 (pp_File t) (pw_File t Hw))
    as (f' & E & Hl & _ & Hz).
  { intros J HJ. assert (J = 0%nat) as -> by lia. by exists a, n. }
  pose proof (proj1 Hh : 0 < req_Hint q) as Hhq.
  destruct (server_answer_spec t q d (server_buffer t q d) ZeroStatus f' Hw) as (u & HA & Hw'); try done; try lia.
  { unfold serve, dispatch_switch. cbn [Unmap RawDiskInterface]. unfold RawDiskUnmap.
    change (req_Op q) with (OpUnmap 1). cbv iota. change (Z.to_nat 1) with 1%nat. by rewrite E, bind_value. }
  { apply (disk_wf_view RawDisk (pp_File t)); [apply Hw|done]. }
  unfold StgTransact. rewrite HH. erewrite transact_pipe; [| |exact Hd|exact HA|done].
  - eexists _, _. split; [reflexivity|]. split_and!; try done. intros i Hi.
    apply Hz; [intros f Dst m; apply quiet_copy| |].
    + intros J a' c' HJ HR'. assert (J = 0%nat) as -> by lia. rewrite HR in HR'. injection HR' as <- <-.
      by rewrite HBL.
    + left. exists 0%nat, a, n. rewrite HBL. split; [lia|]. by split.
  - change (sent_length q P) with 16. lia.
Qed.

(** The unit, its storage device and its file, seen through the pipe. *)
Program Definition pipe_device (H64 : BlockCount P < 2 ^ 64)
    : @TestDevice (PIPE F) (pipe_system RawDisk) P Handle := {|
  td_wf := pipe_wf;
  td_contents t := View (pp_File t)
|}.
Next Obligation. intros. by apply pipe_read. Qed.
Next Obligation. intros. by apply pipe_write. Qed.
Next Obligation. intros. by eapply pipe_flush. Qed.
Next Obligation. intros. by apply pipe_unmap. Qed.
End Pipe.

(** ** Properties *)

(** C4: The tester, the pipe, the switch of the dispatcher and the raw disk fit together: a test of
    a raw disk on a quiet file, over the pipe of its unit, succeeds, whatever the operations, the
    range, the counts and the seed that it is run with.  Every request is for blocks of the unit and
    fits the buffers of both ends, no access is out of bounds, every response is the expected one, and
    every block that is read has what the test last wrote there. *)
Theorem stgtest_rawdisk {F} {HF : MappedFile F} {HL : MappedFileLaws F} {HQ : QuietFile F} RawDisk P Handle
    (t : PIPE F) Buffer ThreadId OpCount OpSet BlockAddress BlockCount Seed :
  geometry_wf P -> rd_BlockLength RawDisk = BlockLength P -> rd_BlockCount RawDisk = IoctlTypes.BlockCount P ->
  pipe_wf RawDisk P t -> IsPipeHandle Handle = true -> Handle <> INVALID_HANDLE_VALUE ->
  0 < ThreadId < 2 ^ 32 -> Z.of_nat (length Buffer) = MaxTransferLength P -> 0 ∈ OpSet ->
  0 <= BlockAddress < 2 ^ 64 -> 0 <= BlockCount < 2 ^ 32 ->
  exists Seed' t', run (FS := pipe_system RawDisk) (ERROR_SUCCESS, Handle, P, t) (Some Buffer) ThreadId OpCount OpSet
      BlockAddress BlockCount Seed = Some (ERROR_SUCCESS, Seed', t').
Proof.
  intros HG HBL HBC Hw HH HI HT HB HO Ha Hn. pose proof HG as [HP H16 _ _].
  destruct (run_passes P Handle (pipe_device RawDisk P Handle HH HBL HBC ltac:(lia) ltac:(lia)) t Buffer ThreadId
    OpCount OpSet BlockAddress BlockCount Seed HG HT HI Hw HB HO Ha Hn) as (Seed' & t' & E).
  by eexists _, _.
Qed.

Lemma plain_file_quiet : @QuietFile PLAIN (plain_file true).
Proof. by constructor. Qed.

(** Writes, reads, flushes and unmaps, of two blocks at a time, on a disk of four blocks: the last
    range wraps around. *)
Lemma stgtest_rawdisk_witness :
  let P := mkParams (mkGUID 0 0 0 []) 4 16 [] [] 0 false true true false 32 in
  let rd := mkRawDisk (mkStorageUnit P 8 0 0 0 0 0 0) 4 16 12 16 0x10000 false in
  let t := mkPipe (mkPipeUnit P 1 2 false 1 true (replicate (Z.to_nat HashBucketCount) [])) (replicate 32 7)
             (mkPlain (replicate 64 9) (replicate 64 9) []) None in
  exists Seed' t', run (FS := @pipe_system PLAIN (plain_file true) rd) (ERROR_SUCCESS, 4097, P, t)
    (Some (replicate 32 0)) 5 100 [87; 82; 70; 85; 82; 0] 1 2 0 = Some (ERROR_SUCCESS, Seed', t').
Proof.
  intros P rd t.
  apply (@stgtest_rawdisk PLAIN (plain_file true) (plain_file_laws true) plain_file_quiet rd P 4097 t).
  - constructor; vm_compute; repeat split; congruence.
  - reflexivity.
  - reflexivity.
  - constructor.
    + split; [apply hints_rep_empty|]. split; [|vm_compute; split; congruence].
      intros h v Hm. rewrite lookup_empty in Hm. discriminate Hm.
    + reflexivity.
    + reflexivity.
    + constructor; [split; reflexivity|vm_compute; discriminate|].
      split; [vm_compute; discriminate|vm_compute; reflexivity].
  - reflexivity.
  - vm_compute; discriminate.
  - split; reflexivity.
  - reflexivity.
  - rewrite list_elem_of_In. vm_compute. tauto.
  - split; [discriminate|reflexivity].
  - split; [discriminate|reflexivity].
Defined.
