(* ===== verification/LaunchText.v ===== *)
(** * The texts of the launcher: [launcher/launcher.c]

    The command line of a service instance, the value that keeps a persistent instance in the
    registry, and the messages of the launcher's pipe.  A pointer to a text is the list of the
    characters from there on; reading past its end is [None], and so is writing past the end of a
    block. *)

From S2P Require Import Prelude Wdk Minimal.

(** ** Texts *)

(** The text at a pointer, without its terminator. *)
Definition wcs (p : list Z) : option (list Z) := n ← lstrlenW p; Some (take n p).

(** ** Command lines *)

Fixpoint argument_length (p : list Z) (Length : Z) : option Z :=
  match p with
  | [] => None
  | c :: p =>
      if c =? 0 then Some Length
      else argument_length p (if negb (34 =? c) then u32 (Length + 1) else Length)
  end.

Definition SvcInstanceArgumentLength (Arg : list Z) : option Z := argument_length Arg 2.

Fixpoint argument_copy (p : list Z) : option (list Z) :=
  match p with
  | [] => None
  | c :: p =>
      if c =? 0 then Some []
      else t ← argument_copy p; Some (if negb (34 =? c) then c :: t else t)
  end.

(** The characters that are written. *)
Definition SvcInstanceArgumentCopy (Arg : list Z) : option (list Z) :=
  t ← argument_copy Arg; Some (34 :: t ++ [34]).

(** The argument of a number: the empty one if there are not so many. *)
Definition numbered_argument (Argv : list (list Z)) (d : Z) : option (list Z) :=
  if Z.of_nat (length Argv) >? d - 48 then Argv !! Z.to_nat (d - 48) else Some [0].

Definition is_digit (c : Z) : bool := (48 <=? c) && (c <=? 57).

(** The first pass over the text. *)
Fixpoint replace_length (Argv : list (list Z)) (p : list Z) (Length : Z) : option Z :=
  match p with
  | [] => None
  | c :: p =>
      if c =? 0 then Some Length
      else if c =? 37 then
        match p with
        | [] => None
        | d :: p =>
            if is_digit d then
              Arg ← numbered_argument Argv d;
              n ← SvcInstanceArgumentLength Arg;
              replace_length Argv p (u32 (Length + n))
            else replace_length Argv p (u32 (Length + 1))
        end
      else replace_length Argv p (u32 (Length + 1))
  end.

(** Writing to the memory of [n] characters that is left. *)
Definition put_chars (n : Z) (cs : list Z) : option Z :=
  if Z.of_nat (length cs) <=? n then Some (n - Z.of_nat (length cs)) else None.

(** The second pass, into a block with room for [n] characters. *)
Fixpoint replace_copy (Argv : list (list Z)) (p : list Z) (n : Z) : option (list Z) :=
  match p with
  | [] => None
  | c :: p =>
      if c =? 0 then _ ← put_chars n [0]; Some [0]
      else if c =? 37 then
        match p with
        | [] => None
        | d :: p =>
            if is_digit d then
              Arg ← numbered_argument Argv d;
              cs ← SvcInstanceArgumentCopy Arg;
              n ← put_chars n cs;
              t ← replace_copy Argv p n;
              Some (cs ++ t)
            else n ← put_chars n [d]; t ← replace_copy Argv p n; Some (d :: t)
        end
      else n ← put_chars n [c]; t ← replace_copy Argv p n; Some (c :: t)
  end.

(** [SvcInstanceReplaceArguments]: the error, and the new text with its terminator. *)
Definition SvcInstanceReplaceArguments (Text : list Z) (Argv : list (list Z)) (Alloc : bool)
    : option (Z * list Z) :=
  Length ← replace_length Argv Text 0;
  if negb Alloc then Some (ERROR_NO_SYSTEM_RESOURCES, [])
  else t ← replace_copy Argv Text (u32 (Length + 1)); Some (ERROR_SUCCESS, t).

(** The directory of the program, for a working directory [.] in [SvcInstanceCreateProcess]: the
    loop finds the last backslash. *)
Fixpoint last_backslash (p : list Z) (i : nat) (found : option nat) : option (option nat) :=
  match p with
  | [] => None
  | c :: p => if c =? 0 then Some found else last_backslash p (S i) (if 92 =? c then Some i else found)
  end.

Definition module_directory (FileName : list Z) : option (list Z) :=
  Backslash ← last_backslash FileName 0 None;
  match Backslash with
  | Some (S i) => c ← FileName !! i;
                  Some (if negb (58 =? c) then <[S i := 0]> FileName else FileName)
  | _ => Some FileName
  end.

(** ** Persistent instances *)

(** The size of the value, in bytes. *)
Fixpoint persistent_args_size (Argv : list (list Z)) (ArgSize : Z) : option Z :=
  match Argv with
  | [] => Some ArgSize
  | Arg :: Argv => n ← lstrlenW Arg; persistent_args_size Argv (u32 (ArgSize + u32 (Z.of_nat n + 1)))
  end.

Definition persistent_size (Argv : list (list Z)) (Security : list Z) : option Z :=
  ArgSize ← persistent_args_size Argv 1;
  n ← lstrlenW Security;
  Some (u32 (u32 (ArgSize + u32 (Z.of_nat n + 1)) * 2)).

(** The copies, into a block with room for [n] characters. *)
Fixpoint persistent_args_copy (Argv : list (list Z)) (n : Z) : option (list Z * Z) :=
  match Argv with
  | [] => Some ([], n)
  | Arg :: Argv =>
      l ← lstrlenW Arg;
      let cs := take (S l) Arg in
      n ← put_chars n cs;
      '(t, n) ← persistent_args_copy Argv n;
      Some (cs ++ t, n)
  end.

(** The value of [SvcInstanceSetPersistent], if there is memory for it. *)
Definition persistent_value (Argv : list (list Z)) (Security : list Z) (Alloc : bool)
    : option (option (list Z)) :=
  ArgSize ← persistent_size Argv Security;
  if negb Alloc then Some None
  else
    '(t, n) ← persistent_args_copy Argv (ArgSize / 2);
    l ← lstrlenW Security;
    let cs := take (S l) Security in
    n ← put_chars n cs;
    _ ← put_chars n [0];
    Some (Some (t ++ cs ++ [0])).

(** The loop of [SvcInstanceStartAllPersistent] that splits a value; [n] entries of [Argv] are
    left, and [Size] bytes of the value. *)
Fixpoint split_value (n : nat) (P : list Z) (Size : Z) : option (list (list Z)) :=
  match n with
  | O => Some []
  | S n =>
      if 0 <? Size then
        l ← lstrlenW P;
        Argv ← split_value n (drop (S l) P) (Size - 2 * (Z.of_nat l + 1));
        Some (P :: Argv)
      else Some []
  end.

(** The arguments and the security of a persistent instance, if it is to be started. *)
Definition persistent_args (RegValue : list Z) (RegValueSize : Z)
    : option (option (list (list Z) * list Z)) :=
  Argv ← split_value 11 RegValue RegValueSize;
  if 2 <? Z.of_nat (length Argv) then
    let Argc := (length Argv - 2)%nat in
    Security ← Argv !! Argc;
    Some (Some (take Argc Argv, Security))
  else Some None.

(** ** Messages *)

Definition SPD_LAUNCH_PIPE_BUFFER_SIZE : Z := 4096.
Definition SpdLaunchCmdStart : Z := 83.
Definition SpdLaunchCmdStop : Z := 84.
Definition SpdLaunchCmdStopForced : Z := 70.
Definition SpdLaunchCmdGetInfo : Z := 73.
Definition SpdLaunchCmdGetNameList : Z := 76.
Definition SpdLaunchCmdQuit : Z := 81.
Definition SpdLaunchCmdSuccess : Z := 36.
Definition SpdLaunchCmdFailure : Z := 33.

(** [SvcPipeTransactGetPart], for the characters up to the end of the message: the part, if there
    is one, and what follows. *)
Fixpoint after_part (P : list Z) : option (list Z) :=
  match P with
  | [] => None
  | c :: P => if c =? 0 then Some P else after_part P
  end.

Definition SvcPipeTransactGetPart (P : list Z) : option (list Z) * list Z :=
  match after_part P with
  | Some P' => (Some P, P')
  | None => (None, [])
  end.

(** The loop over at most [n] arguments. *)
Fixpoint get_parts (n : nat) (P : list Z) : list (list Z) :=
  match n with
  | O => []
  | S n =>
      match SvcPipeTransactGetPart P with
      | (Some Arg, P) => Arg :: get_parts n P
      | (None, _) => []
      end
  end.

(** A [DWORD] as [%ld] prints it. *)
Definition format_ld (v : Z) : list Z :=
  let v := int_of v in if v <? 0 then 45 :: decimal 10 (- v) [] else decimal 10 v [].

(** [SvcPipeTransactResult]: the message, where [data] are the characters that go with a
    success. *)
Definition SvcPipeTransactResult (Error : Z) (data : list Z) : list Z :=
  if ERROR_SUCCESS =? Error then SpdLaunchCmdSuccess :: data
  else SpdLaunchCmdFailure :: format_ld Error ++ [0].
