(* ===== verification/LaunchTextProps.v ===== *)
(** * Properties of the texts of the launcher *)

From S2P Require Import Prelude Wdk Minimal MinimalProps LaunchText.

(** ** Texts *)

Lemma wcs_text t r : is_text t -> wcs (t ++ 0 :: r) = Some t.
Proof. intros Ht. unfold wcs. rewrite lstrlenW_text by done. rewrite bind_value. by rewrite take_app_length. Qed.

Lemma take_text t r : take (S (length t)) (t ++ 0 :: r) = t ++ [0].
Proof. change (0 :: r) with ([0] ++ r). rewrite app_assoc. rewrite take_app_length'; [done|]. rewrite length_app. simpl. lia. Qed.

Lemma drop_text t r : drop (S (length t)) (t ++ 0 :: r) = r.
Proof. change (0 :: r) with ([0] ++ r). rewrite app_assoc. rewrite drop_app_length'; [done|]. rewrite length_app. simpl. lia. Qed.

Lemma u32_add_l a b : u32 (u32 a + b) = u32 (a + b).
Proof. apply Zplus_mod_idemp_l. Qed.

Lemma u32_add_r a b : u32 (a + u32 b) = u32 (a + b).
Proof. apply Zplus_mod_idemp_r. Qed.

Lemma put_chars_Some n cs : Z.of_nat (length cs) <= n -> put_chars n cs = Some (n - Z.of_nat (length cs)).
Proof. intros H. unfold put_chars. by rewrite (proj2 (Z.leb_le _ _)). Qed.

(** ** Arguments in quotes *)

(** An argument as it stands in a command line: in quotes, without the quotes it had. *)
Definition unquoted (t : list Z) : list Z := filter (fun c => c <> 34) t.
Definition quoted (t : list Z) : list Z := 34 :: unquoted t ++ [34].

Lemma argument_length_text t r L :
  is_text t -> argument_length (t ++ 0 :: r) (u32 L) = Some (u32 (L + Z.of_nat (length (unquoted t)))).
Proof.
  intros Ht. revert L. induction Ht as [|c t Hc Ht IH]; intros L; cbn [app argument_length].
  - cbn. by rewrite Z.add_0_r.
  - rewrite (proj2 (Z.eqb_neq c 0)) by done. unfold unquoted. rewrite filter_cons.
    destruct (Z.eqb_spec 34 c) as [E|E]; cbn [negb].
    + rewrite decide_False by congruence. apply IH.
    + rewrite decide_True by congruence. rewrite u32_add_l, IH. f_equal. f_equal. unfold unquoted.
      cbn [length]. lia.
Qed.

Lemma argument_copy_text t r : is_text t -> argument_copy (t ++ 0 :: r) = Some (unquoted t).
Proof.
  induction 1 as [|c t Hc Ht IH]; [done|]. cbn [app argument_copy].
  rewrite (proj2 (Z.eqb_neq c 0)) by done. rewrite IH, bind_value. unfold unquoted. rewrite filter_cons.
  destruct (Z.eqb_spec 34 c) as [E|E]; cbn [negb].
  - by rewrite decide_False by congruence.
  - by rewrite decide_True by congruence.
Qed.

Lemma quoted_length t : Z.of_nat (length (quoted t)) = 2 + Z.of_nat (length (unquoted t)).
Proof. unfold quoted. cbn [length]. rewrite length_app. simpl. lia. Qed.

(** ** Templates of command lines *)

(** A character, a character after a percent sign, and the place of an argument. *)
Inductive item :=
  | Char (c : Z)
  | Escaped (c : Z)
  | Argument (d : Z).

Definition item_text (i : item) : list Z :=
  match i with
  | Char c => [c]
  | Escaped c => [37; c]
  | Argument d => [37; 48 + d]
  end.

Definition item_wf (i : item) : Prop :=
  match i with
  | Char c => c <> 0 /\ c <> 37
  | Escaped c => c <> 0 /\ is_digit c = false
  | Argument d => 0 <= d <= 9
  end.

(** What an item becomes, for arguments that are texts. *)
Definition item_value (Args : list (list Z)) (i : item) : list Z :=
  match i with
  | Char c | Escaped c => [c]
  | Argument d => quoted (default [] (Args !! Z.to_nat d))
  end.

Definition template_text (l : list item) : list Z := concat (item_text <$> l).
Definition template_value (Args : list (list Z)) (l : list item) : list Z := concat (item_value Args <$> l).

(** Every text is a template, or a template and a percent sign that nothing follows. *)
Lemma template_exists t :
  is_text t -> exists l, Forall item_wf l /\ (t = template_text l \/ t = template_text l ++ [37]).
Proof.
  remember (length t) as n eqn:Hn. assert (length t <= n)%nat as Hle by lia. clear Hn.
  revert t Hle. induction n as [|n IH]; intros t Hle Ht.
  { destruct t; [|simpl in Hle; lia]. exists []. split; [constructor|by left]. }
  destruct t as [|c t]; [exists []; split; [constructor|by left]|].
  apply Forall_cons in Ht as [Hc Ht]. simpl in Hle.
  destruct (decide (c = 37)) as [->|H37].
  - destruct t as [|d t]; [exists []; split; [constructor|by right]|].
    apply Forall_cons in Ht as [Hd Ht]. simpl in Hle.
    destruct (IH t ltac:(lia) Ht) as (l & Hl & Hor).
    destruct (is_digit d) eqn:E.
    + exists (Argument (d - 48) :: l). unfold is_digit in E. apply andb_true_iff in E as [E1 E2]. zify_bools.
      split; [constructor; [simpl; lia|done]|].
      unfold template_text. cbn [fmap list_fmap concat item_text app].
      replace (48 + (d - 48)) with d by lia. destruct Hor as [->| ->]; [by left|by right].
    + exists (Escaped d :: l). split; [by constructor|].
      unfold template_text. cbn [fmap list_fmap concat item_text app]. destruct Hor as [->| ->]; [by left|by right].
  - destruct (IH t ltac:(lia) Ht) as (l & Hl & Hor). exists (Char c :: l). split; [by constructor|].
    unfold template_text. cbn [fmap list_fmap concat item_text app]. destruct Hor as [->| ->]; [by left|by right].
Qed.

(** Pointers to the arguments. *)
Definition arguments (Argv Args : list (list Z)) : Prop :=
  Forall2 (fun p t => is_text t /\ exists r, p = t ++ 0 :: r) Argv Args.

Lemma numbered_argument_text Argv Args d :
  arguments Argv Args -> 0 <= d <= 9 ->
  exists r, numbered_argument Argv (48 + d) = Some (default [] (Args !! Z.to_nat d) ++ 0 :: r) /\
    is_text (default [] (Args !! Z.to_nat d)).
Proof.
  intros HA Hd. unfold numbered_argument. rewrite Z.add_simpl_l. pose proof (Forall2_length _ _ _ HA) as Hl.
  rewrite Z.gtb_ltb. destruct (Z.ltb_spec d (Z.of_nat (length Argv))) as [H|H].
  - destruct (lookup_lt_is_Some_2 Argv (Z.to_nat d) ltac:(lia)) as [p Hp].
    destruct (Forall2_lookup_l _ _ _ _ _ HA Hp) as (t & -> & Ht & r & ->). by exists r.
  - rewrite (lookup_ge_None_2 Args) by lia. exists []. split; [done|constructor].
Qed.

(** ** The two passes *)

Lemma replace_length_template Argv Args l rest L :
  arguments Argv Args -> Forall item_wf l ->
  replace_length Argv (template_text l ++ rest) (u32 L) =
    replace_length Argv rest (u32 (L + Z.of_nat (length (template_value Args l)))).
Proof.
  intros HA Hl. revert L. induction Hl as [|i l Hi Hl IH]; intros L.
  { cbn. by rewrite Z.add_0_r. }
  unfold template_text, template_value. cbn [fmap list_fmap concat]. fold (template_text l) (template_value Args l).
  rewrite <- app_assoc, length_app. destruct i as [c|c|d]; cbn [item_text item_value app item_wf length replace_length] in *.
  - destruct Hi as [H0 H37]. rewrite (proj2 (Z.eqb_neq c 0)), (proj2 (Z.eqb_neq c 37)) by done.
    rewrite u32_add_l, IH. f_equal. f_equal. lia.
  - destruct Hi as [H0 Hd]. change (37 =? 0) with false. change (37 =? 37) with true. cbv iota. rewrite Hd.
    rewrite u32_add_l, IH. f_equal. f_equal. lia.
  - change (37 =? 0) with false. change (37 =? 37) with true. cbv iota.
    assert (is_digit (48 + d) = true) as ->.
    { unfold is_digit. apply andb_true_iff. split; apply Z.leb_le; lia. }
    destruct (numbered_argument_text Argv Args d HA Hi) as (r & -> & Ht). rewrite bind_value.
    unfold SvcInstanceArgumentLength. change 2 with (u32 2). rewrite argument_length_text by done.
    rewrite bind_value, u32_add_l, u32_add_r, IH. f_equal. f_equal. rewrite Nat2Z.inj_add, quoted_length. lia.
Qed.

Lemma replace_copy_template Argv Args l rest n :
  arguments Argv Args -> Forall item_wf l -> Z.of_nat (length (template_value Args l)) <= n ->
  replace_copy Argv (template_text l ++ rest) n =
    t ← replace_copy Argv rest (n - Z.of_nat (length (template_value Args l)));
    Some (template_value Args l ++ t).
Proof.
  intros HA Hl. revert n. induction Hl as [|i l Hi Hl IH]; intros n Hn.
  { cbn. rewrite Z.sub_0_r. by destruct (replace_copy Argv rest _). }
  unfold template_text, template_value in *. cbn [fmap list_fmap concat] in *.
  fold (template_text l) (template_value Args l) in *.
  rewrite length_app in Hn |- *. rewrite <- app_assoc.
  assert (forall cs, length cs = length (item_value Args i) ->
    put_chars n cs = Some (n - Z.of_nat (length (item_value Args i)))) as Hput.
  { intros cs Hcs. rewrite put_chars_Some by lia. by rewrite Hcs. }
  assert (replace_copy Argv (template_text l ++ rest) (n - Z.of_nat (length (item_value Args i))) =
    t ← replace_copy Argv rest (n - Z.of_nat (length (item_value Args i) + length (template_value Args l)));
    Some (template_value Args l ++ t)) as IH'.
  { rewrite IH by lia. do 2 f_equal. lia. }
  set (k := (length (item_value Args i) + length (template_value Args l))%nat) in *. clearbody k.
  destruct i as [c|c|d]; cbn [item_text item_value app item_wf length replace_copy] in *.
  - destruct Hi as [H0 H37]. rewrite (proj2 (Z.eqb_neq c 0)), (proj2 (Z.eqb_neq c 37)) by done.
    rewrite Hput by done. rewrite bind_value, IH'. by destruct (replace_copy Argv rest _).
  - destruct Hi as [H0 Hd]. change (37 =? 0) with false. change (37 =? 37) with true. cbv iota. rewrite Hd.
    rewrite Hput by done. rewrite bind_value, IH'. by destruct (replace_copy Argv rest _).
  - change (37 =? 0) with false. change (37 =? 37) with true. cbv iota.
    assert (is_digit (48 + d) = true) as ->.
    { unfold is_digit. apply andb_true_iff. split; apply Z.leb_le; lia. }
    destruct (numbered_argument_text Argv Args d HA Hi) as (r & -> & Ht). rewrite bind_value.
    unfold SvcInstanceArgumentCopy. rewrite argument_copy_text by done. rewrite !bind_value.
    fold (quoted (default [] (Args !! Z.to_nat d))). rewrite Hput by done. rewrite bind_value, IH'.
    destruct (replace_copy Argv rest _); [|done]. rewrite !bind_value. by rewrite app_assoc.
Qed.

(** A command line is made as its template says: every character of the template stands for
    itself, a percent sign and a digit for the argument of that number, in quotes and without the
    quotes that it had itself, or for an empty argument if there is none, and a percent sign and
    another character for that character.  The block that is allocated has exactly the room that
    the second pass needs.  Every text is such a template, but for one that ends in a percent sign:
    then the code goes past the terminator. *)
Theorem replace_arguments Argv Args t rest :
  arguments Argv Args -> is_text t ->
  exists l, Forall item_wf l /\
  ((t = template_text l /\
    (Z.of_nat (length (template_value Args l)) < 2 ^ 32 - 1 ->
     SvcInstanceReplaceArguments (t ++ 0 :: rest) Argv true = Some (ERROR_SUCCESS, template_value Args l ++ [0]) /\
     replace_length Argv (t ++ 0 :: rest) 0 = Some (Z.of_nat (length (template_value Args l))))) \/
   (t = template_text l ++ [37] /\
    replace_length Argv (t ++ 0 :: rest) 0 =
      replace_length Argv rest (u32 (Z.of_nat (length (template_value Args l)) + 1)))).
Proof.
  intros HA Ht. destruct (template_exists t Ht) as (l & Hl & Hor). exists l. split; [done|].
  destruct Hor as [->| ->]; [left|right]; (split; [done|]).
  - intros Hlen. assert (replace_length Argv (template_text l ++ 0 :: rest) 0 =
      Some (Z.of_nat (length (template_value Args l)))) as E.
    { change 0 with (u32 0) at 2. erewrite replace_length_template by done. cbn. f_equal. apply u32_small. lia. }
    split; [|done]. unfold SvcInstanceReplaceArguments. rewrite E, bind_value. cbn [negb].
    rewrite u32_small by lia. erewrite replace_copy_template by (done || lia).
    cbn [replace_copy]. change (0 =? 0) with true. cbv iota.
    rewrite put_chars_Some by (cbn [length]; lia). by rewrite !bind_value.
  - rewrite <- app_assoc. change 0 with (u32 0) at 2. erewrite replace_length_template by done.
    cbn [app replace_length]. change (37 =? 0) with false. change (37 =? 37) with true. cbv iota.
    change (is_digit 0) with false. cbv iota. by rewrite u32_add_l.
Qed.

(** Of a template with two arguments: the second one loses a quote. *)
Lemma replace_arguments_witness :
  exists l, Forall item_wf l /\
  (([37; 48; 32; 37; 49] = template_text l /\
    (Z.of_nat (length (template_value [[97]; [34; 98]] l)) < 2 ^ 32 - 1 ->
     SvcInstanceReplaceArguments ([37; 48; 32; 37; 49] ++ 0 :: []) [[97; 0]; [34; 98; 0]] true =
       Some (ERROR_SUCCESS, template_value [[97]; [34; 98]] l ++ [0]) /\
     replace_length [[97; 0]; [34; 98; 0]] ([37; 48; 32; 37; 49] ++ 0 :: []) 0 =
       Some (Z.of_nat (length (template_value [[97]; [34; 98]] l))))) \/
   ([37; 48; 32; 37; 49] = template_text l ++ [37] /\
    replace_length [[97; 0]; [34; 98; 0]] ([37; 48; 32; 37; 49] ++ 0 :: []) 0 =
      replace_length [[97; 0]; [34; 98; 0]] [] (u32 (Z.of_nat (length (template_value [[97]; [34; 98]] l)) + 1)))).
Proof.
  apply (replace_arguments [[97; 0]; [34; 98; 0]] [[97]; [34; 98]] [37; 48; 32; 37; 49] []).
  - repeat (apply Forall2_cons; split); [split; [|by exists []]; by repeat constructor..|constructor].
  - by repeat constructor.
Defined.

(** No argument can leave its quotes. *)
Lemma quoted_closed t : exists u, quoted t = 34 :: u ++ [34] /\ 34 ∉ u.
Proof.
  exists (unquoted t). split; [done|]. unfold unquoted. rewrite list_elem_of_filter. by intros [H _].
Qed.

(** ** Lists of texts *)

(** Texts one after the other, each with its terminator. *)
Definition multi_sz (ts : list (list Z)) : list Z := concat ((fun t => t ++ [0]) <$> ts).

Lemma multi_sz_cons t ts rest : multi_sz (t :: ts) ++ rest = t ++ 0 :: multi_sz ts ++ rest.
Proof. unfold multi_sz. cbn. by rewrite <- !app_assoc. Qed.

Lemma multi_sz_cons_length t ts : length (multi_sz (t :: ts)) = (length t + 1 + length (multi_sz ts))%nat.
Proof. unfold multi_sz. cbn. rewrite !length_app. simpl. lia. Qed.

Lemma multi_sz_app ts us : multi_sz (ts ++ us) = multi_sz ts ++ multi_sz us.
Proof. unfold multi_sz. by rewrite fmap_app, concat_app. Qed.

Lemma arguments_cons p Argv t Args :
  arguments (p :: Argv) (t :: Args) <-> (is_text t /\ exists r, p = t ++ 0 :: r) /\ arguments Argv Args.
Proof. unfold arguments. by rewrite Forall2_cons. Qed.

Lemma persistent_args_size_texts Argv Args A :
  arguments Argv Args ->
  persistent_args_size Argv (u32 A) = Some (u32 (A + Z.of_nat (length (multi_sz Args)))).
Proof.
  intros HA. revert A. induction HA as [|p t Argv Args [Ht [r ->]] HA IH]; intros A; cbn [persistent_args_size].
  { cbn. by rewrite Z.add_0_r. }
  rewrite lstrlenW_text by done. rewrite bind_value, u32_add_l, u32_add_r, IH, multi_sz_cons_length.
  f_equal. f_equal. lia.
Qed.

Lemma persistent_args_copy_texts Argv Args n :
  arguments Argv Args -> Z.of_nat (length (multi_sz Args)) <= n ->
  persistent_args_copy Argv n = Some (multi_sz Args, n - Z.of_nat (length (multi_sz Args))).
Proof.
  intros HA. revert n. induction HA as [|p t Argv Args [Ht [r ->]] HA IH]; intros n Hn; cbn [persistent_args_copy].
  { cbn. by rewrite Z.sub_0_r. }
  rewrite multi_sz_cons_length in *. rewrite lstrlenW_text by done. rewrite bind_value, take_text.
  rewrite put_chars_Some by (rewrite length_app; cbn [length]; lia). rewrite bind_value, IH by (rewrite length_app; cbn [length]; lia).
  rewrite bind_value. f_equal. f_equal. rewrite length_app. cbn [length]. lia.
Qed.

(** The value: the arguments, the security and an empty text. *)
Lemma persistent_value_texts Argv Args Security s r :
  arguments Argv Args -> is_text s -> Security = s ++ 0 :: r ->
  2 * Z.of_nat (length (multi_sz (Args ++ [s; []]))) < 2 ^ 32 ->
  persistent_value Argv Security true = Some (Some (multi_sz (Args ++ [s; []]))).
Proof.
  intros HA Hs -> Hlen. unfold persistent_value, persistent_size.
  assert (multi_sz [s; []] = s ++ [0] ++ [0]) as E by (unfold multi_sz; cbn; by rewrite <- app_assoc).
  rewrite multi_sz_app, E in Hlen |- *. rewrite !length_app in Hlen. cbn [length] in Hlen.
  pose proof (persistent_args_size_texts Argv Args 1 HA : persistent_args_size Argv 1 = _) as ES. rewrite ES.
  rewrite bind_value, lstrlenW_text by done. rewrite bind_value, u32_add_l, u32_add_r. cbn [negb].
  rewrite bind_value, (u32_small (1 + _ + _)), u32_small by lia.
  erewrite persistent_args_copy_texts by (done || dlia). rewrite !bind_value, take_text.
  rewrite put_chars_Some by (rewrite length_app; cbn [length]; dlia). rewrite bind_value.
  rewrite put_chars_Some by (rewrite length_app; cbn [length]; dlia). rewrite bind_value. by rewrite <- app_assoc.
Qed.

Lemma split_value_texts n ts rest :
  Forall is_text ts -> (length ts <= n)%nat ->
  exists ps, split_value n (multi_sz ts ++ rest) (2 * Z.of_nat (length (multi_sz ts))) = Some ps /\ arguments ps ts.
Proof.
  intros Hts. revert n. induction Hts as [|t ts Ht Hts IH]; intros n Hn.
  { exists []. split; [by destruct n|constructor]. }
  destruct n as [|n]; simpl in Hn; [lia|]. destruct (IH n ltac:(lia)) as (ps & E & Hps).
  rewrite multi_sz_cons, multi_sz_cons_length. cbn [split_value]. rewrite (proj2 (Z.ltb_lt _ _)) by lia.
  rewrite lstrlenW_text by done. rewrite bind_value, drop_text.
  replace (_ - _) with (2 * Z.of_nat (length (multi_sz ts))) by lia. rewrite E, bind_value.
  eexists. split; [done|]. apply arguments_cons. split; [|done]. split; [done|by eexists].
Qed.

Lemma arguments_app Argv Args Argv' Args' :
  arguments Argv Args -> arguments Argv' Args' -> arguments (Argv ++ Argv') (Args ++ Args').
Proof. apply Forall2_app. Qed.

(** The value of a persistent instance has exactly the size that was computed for it, and is split
    into the same arguments and the same security; without an argument it stands for none. *)
Lemma persistent_value_split Argv Args Security s r rest :
  arguments Argv Args -> is_text s -> Security = s ++ 0 :: r -> (length Args <= 9)%nat ->
  2 * Z.of_nat (length (multi_sz (Args ++ [s; []]))) < 2 ^ 32 ->
  exists v, persistent_value Argv Security true = Some (Some v) /\
    persistent_size Argv Security = Some (2 * Z.of_nat (length v)) /\
    if bool_decide (Args = []) then persistent_args (v ++ rest) (2 * Z.of_nat (length v)) = Some None
    else exists ps p, persistent_args (v ++ rest) (2 * Z.of_nat (length v)) = Some (Some (ps, p)) /\
           arguments ps Args /\ wcs p = Some s.
Proof.
  intros HA Hs HS Hn Hlen. eexists. split; [by eapply persistent_value_texts|]. split.
  { unfold persistent_size.
    pose proof (persistent_args_size_texts Argv Args 1 HA : persistent_args_size Argv 1 = _) as ES. rewrite ES.
    subst Security. rewrite bind_value, lstrlenW_text by done. rewrite bind_value, u32_add_l, u32_add_r.
    rewrite multi_sz_app, !length_app in Hlen |- *.
    assert (length (multi_sz [s; []]) = length s + 2)%nat as E
      by (rewrite !multi_sz_cons_length; cbn; lia).
    rewrite E in *. rewrite (u32_small (1 + _ + _)), u32_small by lia. f_equal. lia. }
  assert (Forall is_text (Args ++ [s; []])) as Hts.
  { apply Forall_app. split; [|repeat constructor; done].
    apply Forall_forall. intros t (i & Hi)%list_elem_of_lookup.
    by destruct (Forall2_lookup_r _ _ _ _ _ HA Hi) as (p & _ & Ht & _). }
  destruct (split_value_texts 11 (Args ++ [s; []]) rest Hts) as (ps & E & Hps); [rewrite length_app; cbn; lia|].
  pose proof (Forall2_length _ _ _ Hps) as Hl. rewrite length_app in Hl. cbn [length] in Hl.
  unfold persistent_args. rewrite E, bind_value.
  destruct (bool_decide_reflect (Args = [])) as [->|HAne].
  { rewrite (proj2 (Z.ltb_ge _ _)) by (cbn in Hl; lia). done. }
  assert (length Args <> 0)%nat as Hne by (by intros ?%nil_length_inv).
  rewrite (proj2 (Z.ltb_lt _ _)) by lia.
  replace (length ps - 2)%nat with (length Args) by lia.
  apply Forall2_app_inv_r in Hps as (ps1 & ps2 & Hp1 & Hp2 & ->).
  pose proof (Forall2_length _ _ _ Hp1) as Hl1.
  apply Forall2_cons_inv_r in Hp2 as (p & ps3 & [Hts' (r' & ->)] & _ & ->).
  rewrite lookup_app_r by lia. replace (length Args - length ps1)%nat with 0%nat by lia. cbn [lookup list_lookup].
  rewrite bind_value. eexists _, _. split; [reflexivity|]. split; [|by apply wcs_text].
  rewrite take_app_length' by lia. done.
Qed.

(** ** Messages *)

Lemma after_part_text t r : is_text t -> after_part (t ++ 0 :: r) = Some r.
Proof.
  induction 1 as [|c t Hc Ht IH]; [done|]. cbn [app after_part]. by rewrite (proj2 (Z.eqb_neq c 0)).
Qed.

Lemma get_part_text t r : is_text t -> SvcPipeTransactGetPart (t ++ 0 :: r) = (Some (t ++ 0 :: r), r).
Proof. intros Ht. unfold SvcPipeTransactGetPart. by rewrite after_part_text. Qed.

Lemma get_parts_texts n ts :
  Forall is_text ts -> (length ts <= n)%nat -> arguments (get_parts n (multi_sz ts)) ts.
Proof.
  intros Hts. revert n. induction Hts as [|t ts Ht Hts IH]; intros n Hn.
  { destruct n; constructor. }
  destruct n as [|n]; simpl in Hn; [lia|].
  assert (multi_sz (t :: ts) = t ++ 0 :: multi_sz ts) as ->.
  { pose proof (multi_sz_cons t ts []) as E. by rewrite !app_nil_r in E. }
  cbn [get_parts]. rewrite get_part_text by done. apply arguments_cons. split; [|apply IH; lia].
  split; [done|by eexists].
Qed.
