(* ===== verification/Launcher.v ===== *)
(** * The launcher: [launcher/launcher.c]

    The service that starts and stops the processes of storage units.  Its instances are in a
    list and in memory; the handles, the registered waits and the security descriptors that it
    holds are tracked, and to use one that it does not hold is [None], as is a pointer to memory
    that was freed.  What the system answers to the calls of an operation is its argument; what
    is done to processes and to the registry is a trace. *)

From S2P Require Import Prelude Wdk IoctlTypes Minimal StrToInt LaunchText.

(** ** State *)

(** What the launcher gets from the system and has to give back. *)
Inductive RESOURCE :=
  | RHandle (h : Z)
  | RWait (w : Z)
  | RLocal (p : Z).

#[export] Instance RESOURCE_eq_dec : EqDecision RESOURCE.
Proof. solve_decision. Defined.

#[export] Instance RESOURCE_countable : Countable RESOURCE.
Proof.
  refine (inj_countable' (fun r => match r with RHandle h => inl h | RWait w => inr (inl w) | RLocal p => inr (inr p) end)
    (fun x => match x with inl h => RHandle h | inr (inl w) => RWait w | inr (inr p) => RLocal p end) _).
  by intros [].
Defined.

(** [VolumeHandles] and [VolumeHandleCount] are one list, if they have been allocated. *)
Record SVC_INSTANCE := mkSvcInstance {
  si_RefCount : Z;
  si_ClassName : list Z;
  si_InstanceName : list Z;
  si_CommandLine : list Z;
  si_SecurityDescriptor : Z;
  si_Persistent : bool;
  si_ProcessId : Z;
  si_Process : Z;
  si_ProcessWait : Z;
  si_VolumeHandles : option (list Z)
}.

#[export] Instance SVC_INSTANCE_eta : Eta SVC_INSTANCE := fun i =>
  mkSvcInstance (si_RefCount i) (si_ClassName i) (si_InstanceName i) (si_CommandLine i)
    (si_SecurityDescriptor i) (si_Persistent i) (si_ProcessId i) (si_Process i) (si_ProcessWait i)
    (si_VolumeHandles i).

Inductive EFFECT :=
  | CtrlBreak (ProcessId : Z)
  | Terminate (Process : Z)
  | Assign (Job Process : Z)
  | Resume (Thread : Z)
  | SetInstance (ClassName InstanceName Value : list Z)
  | DeleteInstance (ClassName InstanceName : list Z)
  | QuitService.

(** The memory of a [KILL_PROCESS_DATA] is found by its wait. *)
Record LAUNCHER := mkLauncher {
  SvcInstanceList : list Z;
  SvcInstances : gmap Z SVC_INSTANCE;
  SvcInstanceEvent : bool;
  KillProcessData : gmap Z Z;
  Resources : gset RESOURCE;
  Trace : list EFFECT
}.

#[export] Instance LAUNCHER_eta : Eta LAUNCHER := fun L =>
  mkLauncher (SvcInstanceList L) (SvcInstances L) (SvcInstanceEvent L) (KillProcessData L) (Resources L) (Trace L).

Definition emit (e : EFFECT) (L : LAUNCHER) : LAUNCHER := L <| Trace := Trace L ++ [e] |>.

Definition acquire (r : RESOURCE) (L : LAUNCHER) : LAUNCHER := L <| Resources := {[r]} ∪ Resources L |>.

Definition release (r : RESOURCE) (L : LAUNCHER) : option LAUNCHER :=
  if bool_decide (r ∈ Resources L) then Some (L <| Resources := Resources L ∖ {[r]} |>) else None.

(** The use of a resource. *)
Definition held (r : RESOURCE) (L : LAUNCHER) : option unit :=
  if bool_decide (r ∈ Resources L) then Some tt else None.

Definition CloseHandle (h : Z) (L : LAUNCHER) : option LAUNCHER := release (RHandle h) L.
Definition UnregisterWait (w : Z) (L : LAUNCHER) : option LAUNCHER := release (RWait w) L.
Definition LocalFree (p : Z) (L : LAUNCHER) : option LAUNCHER :=
  if 0 =? p then Some L else release (RLocal p) L.

Definition TerminateProcess (h : Z) (L : LAUNCHER) : option LAUNCHER :=
  _ ← held (RHandle h) L; Some (emit (Terminate h) L).

(** ** Processes *)

Record KILL_ANSWERS := mkKillAnswers {
  ka_CtrlBreak : bool; ka_Alloc : bool; ka_Duplicate : Z; ka_Register : Z
}.

Definition KillProcess (L : LAUNCHER) (ProcessId Process : Z) (a : KILL_ANSWERS) : option LAUNCHER :=
  if ka_CtrlBreak a then
    let L := emit (CtrlBreak ProcessId) L in
    if ka_Alloc a then
      _ ← held (RHandle Process) L;
      if negb (0 =? ka_Duplicate a) then
        let L := acquire (RHandle (ka_Duplicate a)) L in
        if negb (0 =? ka_Register a) then
          Some (acquire (RWait (ka_Register a)) L
                  <| KillProcessData := <[ka_Register a := ka_Duplicate a]> (KillProcessData L) |>)
        else CloseHandle (ka_Duplicate a) L
      else Some L
    else Some L
  else TerminateProcess Process L.

Definition KillProcessWait (L : LAUNCHER) (ProcessWait : Z) (Timeout : bool) : option LAUNCHER :=
  Process ← KillProcessData L !! ProcessWait;
  L ← (if Timeout then TerminateProcess Process L else Some L);
  L ← UnregisterWait ProcessWait L;
  L ← CloseHandle Process L;
  Some (L <| KillProcessData := delete ProcessWait (KillProcessData L) |>).

(** ** Volumes *)

(** Numbers in the buffers of the system, least significant byte first. *)
Definition load_le16 (o : nat) (buf : list Z) : option Z :=
  b0 ← buf !! o; b1 ← buf !! (o + 1)%nat; Some (get_be16 b1 b0).

Definition load_le32 (o : nat) (buf : list Z) : option Z :=
  b0 ← buf !! o; b1 ← buf !! (o + 1)%nat; b2 ← buf !! (o + 2)%nat; b3 ← buf !! (o + 3)%nat;
  Some (get_be32 b3 b2 b1 b0).

Definition sizeof_DescBuf : Z := 1024.

(** A test of a condition that is evaluated after others. *)
Definition and_then (b : option bool) (c : option bool) : option bool := b ← b; if (b : bool) then c else Some false.

(** Is the vendor of a [STORAGE_DEVICE_DESCRIPTOR] this one? *)
Definition vendor_is_spd (Desc : list Z) : option bool :=
  Size ← load_le32 4 Desc;
  if Size <=? sizeof_DescBuf then
    Offset ← load_le32 12 Desc;
    if negb (0 =? Offset) then
      v ← invariant_strcmp (drop (Z.to_nat Offset) Desc) (SPD_IOCTL_VENDOR_ID ++ [0]);
      Some (0 =? v)
    else Some false
  else Some false.

(** The test of a [STORAGE_IDENTIFIER] at the offset [o]. *)
Definition identifier_is_pid (o : nat) (Desc : list Z) : option bool :=
  let eq32 k v := x ← load_le32 (o + k) Desc; Some (v =? x) in
  let eq8 k v := x ← Desc !! (o + k)%nat; Some (v =? x) in
  and_then (eq32 0%nat 1) (and_then (eq32 4%nat 0) (and_then (eq32 12%nat 0)
    (and_then (x ← load_le16 (o + 8) Desc; Some (8 =? x))
       (and_then (eq8 16%nat 80) (and_then (eq8 17%nat 73) (and_then (eq8 18%nat 68)
          (x ← Desc !! (o + 19)%nat; Some ((32 =? x) || (88 =? x))))))))).

(** The loop over the identifiers: the process, if there is one. *)
Fixpoint find_pid (n : nat) (o : nat) (Desc : list Z) : option (option Z) :=
  match n with
  | O => Some None
  | S n =>
      pid ← identifier_is_pid o Desc;
      if (pid : bool) then
        b4 ← Desc !! (o + 20)%nat; b5 ← Desc !! (o + 21)%nat; b6 ← Desc !! (o + 22)%nat; b7 ← Desc !! (o + 23)%nat;
        Some (Some (get_be32 b4 b5 b6 b7))
      else
        NextOffset ← load_le16 (o + 10) Desc;
        find_pid n (o + Z.to_nat NextOffset) Desc
  end.

(** The answers for a volume: the handle or an error, and the buffers or an error. *)
Record VOLUME_OWNER := mkVolumeOwner {
  vo_Create : Z * Z; vo_Device : bool * Z * list Z; vo_DeviceId : bool * Z * list Z
}.

(** [GetVolumeOwnerProcessId]: the error and the process.  The handle is closed at the end. *)
Definition GetVolumeOwnerProcessId (a : VOLUME_OWNER) : option (Z * Z) :=
  if INVALID_HANDLE_VALUE =? (vo_Create a).1 then Some ((vo_Create a).2, 0)
  else
    let '(ok, LastError, Desc) := vo_Device a in
    if negb ok then Some (LastError, 0)
    else
      spd ← vendor_is_spd Desc;
      if negb spd then Some (ERROR_NO_ASSOCIATION, 0)
      else
        let '(ok, LastError, Desc) := vo_DeviceId a in
        if negb ok then Some (LastError, 0)
        else
          Size ← load_le32 4 Desc;
          if Size <=? sizeof_DescBuf then
            Count ← load_le32 8 Desc;
            ProcessId ← find_pid (Z.to_nat Count) 12 Desc;
            Some (match ProcessId with
                  | Some ProcessId => (ERROR_SUCCESS, ProcessId)
                  | None => (ERROR_NO_ASSOCIATION, 0)
                  end)
          else Some (ERROR_NO_ASSOCIATION, 0).

Record OPEN_VOLUME := mkOpenVolume {
  ov_Create : Z * Z; ov_Lock : bool; ov_Dismount : bool; ov_LastError : Z
}.

(** [OpenAndDismountVolume]: the error and the handle. *)
Definition OpenAndDismountVolume (L : LAUNCHER) (a : OPEN_VOLUME) : option (Z * Z * LAUNCHER) :=
  let '(Handle, LastError) := ov_Create a in
  if INVALID_HANDLE_VALUE =? Handle then Some (LastError, INVALID_HANDLE_VALUE, L)
  else
    let L := acquire (RHandle Handle) L in
    if negb (ov_Lock a) || negb (ov_Dismount a) then
      let Error := if ERROR_ACCESS_DENIED =? ov_LastError a then ERROR_DEVICE_IN_USE else ov_LastError a in
      L ← CloseHandle Handle L;
      Some (Error, INVALID_HANDLE_VALUE, L)
    else Some (ERROR_SUCCESS, Handle, L).

Fixpoint CloseHandles (Handles : list Z) (L : LAUNCHER) : option LAUNCHER :=
  match Handles with
  | [] => Some L
  | h :: Handles => L ← CloseHandle h L; CloseHandles Handles L
  end.

(** A volume that the enumeration has found. *)
Record VOLUME := mkVolume { vol_Owner : VOLUME_OWNER; vol_Open : OPEN_VOLUME }.

(** The loop over the volumes; [Handles] are those that are open, at most [Count]. *)
Fixpoint dismount_volumes (vs : list VOLUME) (L : LAUNCHER) (ProcessId Count : Z) (Handles : list Z)
    (DevicesInUse : Z) : option (list Z * Z * LAUNCHER) :=
  match vs with
  | [] => Some (Handles, DevicesInUse, L)
  | v :: vs =>
      if Count <=? Z.of_nat (length Handles) then Some (Handles, DevicesInUse, L)
      else
        '(err, OwnerProcessId) ← GetVolumeOwnerProcessId (vol_Owner v);
        if negb (ERROR_SUCCESS =? err) || negb (ProcessId =? OwnerProcessId)
        then dismount_volumes vs L ProcessId Count Handles DevicesInUse
        else
          '(err, Handle, L) ← OpenAndDismountVolume L (vol_Open v);
          if ERROR_SUCCESS =? err then dismount_volumes vs L ProcessId Count (Handles ++ [Handle]) DevicesInUse
          else if ERROR_DEVICE_IN_USE =? err
          then dismount_volumes vs L ProcessId Count Handles (u32 (DevicesInUse + 1))
          else dismount_volumes vs L ProcessId Count Handles DevicesInUse
  end.

(** [OpenAndDismountVolumesForProcessId], for the volumes that the enumeration gives, or its
    error: the error, and the handles that the caller finds, as many as it is told. *)
Definition OpenAndDismountVolumesForProcessId (L : LAUNCHER) (ProcessId Count : Z)
    (Find : Z + list VOLUME) : option (Z * list Z * LAUNCHER) :=
  match Find with
  | inl err => Some (err, [], L)
  | inr vs =>
      '(Handles, DevicesInUse, L) ← dismount_volumes vs L ProcessId Count [] 0;
      let Error := if 0 =? DevicesInUse then ERROR_SUCCESS else ERROR_DEVICE_IN_USE in
      L ← (if negb (ERROR_SUCCESS =? Error) then CloseHandles Handles L else Some L);
      Some (Error, Handles, L)
  end.

(** ** Instances *)

Fixpoint lookup_by_pid (l : list Z) (L : LAUNCHER) (ProcessId : Z) : option (option Z) :=
  match l with
  | [] => Some None
  | a :: l =>
      i ← SvcInstances L !! a;
      if ProcessId =? si_ProcessId i then Some (Some a) else lookup_by_pid l L ProcessId
  end.

Definition SvcInstanceLookupByPid (L : LAUNCHER) (ProcessId : Z) : option (option Z) :=
  lookup_by_pid (SvcInstanceList L) L ProcessId.

Fixpoint lookup_by_name (l : list Z) (L : LAUNCHER) (ClassName InstanceName : list Z) : option (option Z) :=
  match l with
  | [] => Some None
  | a :: l =>
      i ← SvcInstances L !! a;
      c ← invariant_wcsicmp ClassName (si_ClassName i);
      if 0 =? c then
        c ← invariant_wcsicmp InstanceName (si_InstanceName i);
        if 0 =? c then Some (Some a) else lookup_by_name l L ClassName InstanceName
      else lookup_by_name l L ClassName InstanceName
  end.

(** The class that stands for a process: [.pid.]. *)
Definition pid_class : list Z := [46; 112; 105; 100; 46; 0].

Definition SvcInstanceLookup (L : LAUNCHER) (ClassName InstanceName : list Z) (AllowPidLookup : bool)
    : option (option Z) :=
  pid ← (if AllowPidLookup then c ← invariant_wcsicmp ClassName pid_class; Some (0 =? c) else Some false);
  if (pid : bool) then
    '(v, _) ← wcstoint InstanceName 0 false;
    SvcInstanceLookupByPid L (u32 v)
  else lookup_by_name (SvcInstanceList L) L ClassName InstanceName.

(** ** Security *)

(** [SvcInstanceAddUserRights], for the answers to its calls: the error and the new descriptor. *)
Record RIGHTS_ANSWERS := mkRightsAnswers {
  ra_First : bool; ra_FirstError : Z; ra_Alloc : bool; ra_Second : bool; ra_SecondError : Z;
  ra_Build : Z; ra_NewDescriptor : Z
}.

Definition SvcInstanceAddUserRights (L : LAUNCHER) (a : RIGHTS_ANSWERS) : Z * Z * LAUNCHER :=
  if ra_First a then (ERROR_INVALID_PARAMETER, 0, L)
  else if negb (ERROR_INSUFFICIENT_BUFFER =? ra_FirstError a) then (ra_FirstError a, 0, L)
  else if negb (ra_Alloc a) then (ERROR_NO_SYSTEM_RESOURCES, 0, L)
  else if negb (ra_Second a) then (ra_SecondError a, 0, L)
  else if negb (ERROR_SUCCESS =? ra_Build a) then (ra_Build a, 0, L)
  else (ERROR_SUCCESS, ra_NewDescriptor a, acquire (RLocal (ra_NewDescriptor a)) L).

(** [SvcInstanceAccessCheck]: whether the call succeeded, whether it grants access, its error. *)
Definition SvcInstanceAccessCheck (a : bool * bool * Z) : Z :=
  let '(ok, granted, LastError) := a in
  if ok : bool then if granted : bool then ERROR_SUCCESS else ERROR_ACCESS_DENIED else LastError.

(** ** The creation of an instance *)

Record PROCESS_INFORMATION := mkProcessInformation {
  pi_Process : Z; pi_Thread : Z; pi_ProcessId : Z
}.

(** The answers for [SvcInstanceCreateProcess]: the length and the name of the program's file, and
    the process or an error. *)
Record PROCESS_ANSWERS := mkProcessAnswers {
  pa_ModuleLength : Z; pa_Module : list Z; pa_ModuleError : Z;
  pa_Create : bool; pa_CreateError : Z; pa_Info : PROCESS_INFORMATION
}.

Definition is_dot (p : list Z) : option bool :=
  c ← p !! 0%nat; if 46 =? c then c ← p !! 1%nat; Some (0 =? c) else Some false.

(** [SvcInstanceCreateProcess]: the error, and the working directory of the process. *)
Definition SvcInstanceCreateProcess (L : LAUNCHER) (WorkDirectory : option (list Z)) (a : PROCESS_ANSWERS)
    : option (Z * option (list Z) * LAUNCHER) :=
  dot ← match WorkDirectory with Some p => is_dot p | None => Some false end;
  if (dot : bool) && (0 =? pa_ModuleLength a) then Some (pa_ModuleError a, None, L)
  else
    WorkDirectory ← (if dot : bool then d ← module_directory (pa_Module a); Some (Some d) else Some WorkDirectory);
    if negb (pa_Create a) then Some (pa_CreateError a, WorkDirectory, L)
    else Some (ERROR_SUCCESS, WorkDirectory,
               acquire (RHandle (pi_Thread (pa_Info a))) (acquire (RHandle (pi_Process (pa_Info a))) L)).

(** The answers for [SvcInstanceCreate], in the order of its calls.  The registry gives the values
    of the class as texts; an instance is allocated at an address, or not if it is 0. *)
Record CREATE_ANSWERS := mkCreateAnswers {
  ca_RegOpen : Z;
  ca_Executable : Z * list Z;
  ca_CommandLine : Z * list Z;
  ca_WorkDirectory : Z * list Z;
  ca_Security : Z * list Z;
  ca_JobControl : Z * Z;
  ca_Convert : list Z -> Z * Z;
  ca_Access : bool * bool * Z;
  ca_Rights : RIGHTS_ANSWERS;
  ca_Instance : Z;
  ca_AllocCommandLine : bool;
  ca_Process : PROCESS_ANSWERS;
  ca_Register : Z * Z
}.

Definition SPD_LAUNCH_SERVICE_DEFAULT_SDDL : list Z :=
  [68; 58; 80; 40; 65; 59; 59; 82; 80; 87; 80; 76; 67; 59; 59; 59; 83; 89; 41;
   40; 65; 59; 59; 82; 80; 87; 80; 76; 67; 59; 59; 59; 66; 65; 41; 0].       (* D:P(A;;RPWPLC;;;SY)(A;;RPWPLC;;;BA) *)

(** The owner and the group that the security of a class is put after: [O:SYG:SY]. *)
Definition SECURITY_PREFIX : list Z := [79; 58; 83; 89; 71; 58; 83; 89].

(** The command line of a class: [%0] and what the registry has. *)
Definition class_command_line (v : Z * list Z) : list Z :=
  if ERROR_FILE_NOT_FOUND =? v.1 then [37; 48; 0] else [37; 48; 32] ++ v.2.

(** The security of a class: the default one, the one of the registry, or that with an owner and
    a group. *)
Definition class_security (Security : list Z) : option (list Z) :=
  c0 ← Security !! 0%nat;
  let Security := if 0 =? c0 then SPD_LAUNCH_SERVICE_DEFAULT_SDDL else Security in
  c0 ← Security !! 0%nat;
  if 68 =? c0 then
    c1 ← Security !! 1%nat;
    Some (if 58 =? c1 then SECURITY_PREFIX ++ Security else Security)
  else Some Security.

(** A value that may be missing in the registry. *)
Definition reg_failed (Error : Z) : bool :=
  negb (ERROR_SUCCESS =? Error) && negb (ERROR_FILE_NOT_FOUND =? Error).

(** A text of the registry, which is empty if it is missing. *)
Definition reg_text (v : Z * list Z) : list Z := if ERROR_SUCCESS =? v.1 then v.2 else [0].

(** The code at [exit] for an error: what is set is released. *)
Definition create_exit (L : LAUNCHER) (Error SecurityDescriptor Thread : Z) (SvcInstance : option SVC_INSTANCE)
    : option (Z * Z * LAUNCHER) :=
  L ← LocalFree SecurityDescriptor L;
  L ← (if negb (0 =? Thread) then CloseHandle Thread L else Some L);
  L ← match SvcInstance with
      | None => Some L
      | Some i =>
          L ← (if negb (0 =? si_ProcessWait i) then UnregisterWait (si_ProcessWait i) L else Some L);
          if negb (0 =? si_Process i) then L ← TerminateProcess (si_Process i) L; CloseHandle (si_Process i) L
          else Some L
      end;
  Some (Error, 0, L).

(** From the check of the security on. *)
Definition create_secured (L : LAUNCHER) (ClientToken : bool) (SecurityDescriptor : Z) (a : CREATE_ANSWERS)
    : option (Z * Z * LAUNCHER) :=
  if ClientToken then
    let Error := SvcInstanceAccessCheck (ca_Access a) in
    if negb (ERROR_SUCCESS =? Error) then Some (Error, SecurityDescriptor, L)
    else
      let '(err, NewSecurityDescriptor, L) := SvcInstanceAddUserRights L (ca_Rights a) in
      if negb (ERROR_SUCCESS =? err) then Some (err, SecurityDescriptor, L)
      else L ← LocalFree SecurityDescriptor L; Some (ERROR_SUCCESS, NewSecurityDescriptor, L)
  else Some (ERROR_SUCCESS, SecurityDescriptor, L).

(** From the allocation of the instance on; [Argv] begins with the executable. *)
Definition create_instance (L : LAUNCHER) (SecurityDescriptor : Z) (ClassName InstanceName : list Z)
    (Argv : list (list Z)) (Job : Z) (a : CREATE_ANSWERS) : option (Z * Z * LAUNCHER) :=
  if 0 =? ca_Instance a then create_exit L ERROR_NO_SYSTEM_RESOURCES SecurityDescriptor 0 None
  else
    nc ← lstrlenW ClassName;
    ni ← lstrlenW InstanceName;
    let i := mkSvcInstance 2 (take (S nc) ClassName) (take (S ni) InstanceName) [] SecurityDescriptor false 0 0 0 None in
    '(err, CommandLine) ← SvcInstanceReplaceArguments (class_command_line (ca_CommandLine a)) Argv
                            (ca_AllocCommandLine a);
    let i := i <| si_CommandLine := CommandLine |> in
    if negb (ERROR_SUCCESS =? err) then create_exit L err SecurityDescriptor 0 (Some i)
    else
      let dir := reg_text (ca_WorkDirectory a) in
      c ← dir !! 0%nat;
      '(err, _, L) ← SvcInstanceCreateProcess L (if negb (0 =? c) then Some dir else None) (ca_Process a);
      if negb (ERROR_SUCCESS =? err) then create_exit L err SecurityDescriptor 0 (Some i)
      else
        let info := pa_Info (ca_Process a) in
        let i := i <| si_ProcessId := pi_ProcessId info |> <| si_Process := pi_Process info |> in
        let '(ProcessWait, LastError) := ca_Register a in
        if 0 =? ProcessWait then create_exit L LastError SecurityDescriptor (pi_Thread info) (Some i)
        else
          let L := acquire (RWait ProcessWait) L in
          let i := i <| si_ProcessWait := ProcessWait |> in
          let JobControl := if ERROR_SUCCESS =? (ca_JobControl a).1 then (ca_JobControl a).2 else 1 in
          let L := if negb (0 =? Job) && negb (0 =? JobControl) then emit (Assign Job (si_Process i)) L else L in
          let L := emit (Resume (pi_Thread info)) L in
          L ← CloseHandle (pi_Thread info) L;
          Some (ERROR_SUCCESS, ca_Instance a,
                L <| SvcInstanceList := SvcInstanceList L ++ [ca_Instance a] |>
                  <| SvcInstances := <[ca_Instance a := i]> (SvcInstances L) |>
                  <| SvcInstanceEvent := false |>).

(** [SvcInstanceCreate]: the error and the instance.  [ExternalSecurity] is used instead of the
    security of the class, and [ClientToken] tells whether there is a client. *)
Definition SvcInstanceCreate (L : LAUNCHER) (ClientToken : bool) (ExternalSecurity : option (list Z))
    (ClassName InstanceName : list Z) (Argv0 : list (list Z)) (Job : Z) (a : CREATE_ANSWERS)
    : option (Z * Z * LAUNCHER) :=
  let exit Error := Some (Error, 0, L) in
  let Argv0 := take 9 Argv0 in
  c ← invariant_wcsicmp ClassName pid_class;
  if 0 =? c then exit ERROR_INVALID_PARAMETER
  else
    Found ← SvcInstanceLookup L ClassName InstanceName false;
    match Found with
    | Some _ => exit ERROR_ALREADY_EXISTS
    | None =>
        if negb (ERROR_SUCCESS =? ca_RegOpen a) then exit (ca_RegOpen a)
        else if negb (ERROR_SUCCESS =? (ca_Executable a).1) then exit (ca_Executable a).1
        else if reg_failed (ca_CommandLine a).1 then exit (ca_CommandLine a).1
        else if reg_failed (ca_WorkDirectory a).1 then exit (ca_WorkDirectory a).1
        else if reg_failed (ca_Security a).1 then exit (ca_Security a).1
        else if reg_failed (ca_JobControl a).1 then exit (ca_JobControl a).1
        else
          Security ← class_security (reg_text (ca_Security a));
          let '(SecurityDescriptor, LastError) :=
            ca_Convert a (match ExternalSecurity with Some s => s | None => Security end) in
          if 0 =? SecurityDescriptor then exit LastError
          else
            let L := acquire (RLocal SecurityDescriptor) L in
            '(err, SecurityDescriptor, L) ← create_secured L ClientToken SecurityDescriptor a;
            if negb (ERROR_SUCCESS =? err) then create_exit L err SecurityDescriptor 0 None
            else create_instance L SecurityDescriptor ClassName InstanceName ((ca_Executable a).2 :: Argv0) Job a
    end.

(** ** The end of an instance *)

(** The decrement of [SvcInstanceRelease]: whether it was the last reference. *)
Definition release_count (L : LAUNCHER) (SvcInstance : Z) : option (bool * LAUNCHER) :=
  i ← SvcInstances L !! SvcInstance;
  let i := i <| si_RefCount := int_of (si_RefCount i - 1) |> in
  Some (si_RefCount i =? 0, L <| SvcInstances := <[SvcInstance := i]> (SvcInstances L) |>).

(** The rest of [SvcInstanceRelease]. *)
Definition release_last (L : LAUNCHER) (SvcInstance : Z) : option LAUNCHER :=
  i ← SvcInstances L !! SvcInstance;
  let l := filter (fun a => a <> SvcInstance) (SvcInstanceList L) in
  let L := L <| SvcInstanceList := l |> in
  let L := if bool_decide (l = []) then L <| SvcInstanceEvent := true |> else L in
  L ← match si_VolumeHandles i with Some Handles => CloseHandles Handles L | None => Some L end;
  L ← (if negb (0 =? si_ProcessWait i) then UnregisterWait (si_ProcessWait i) L else Some L);
  L ← (if negb (0 =? si_Process i) then CloseHandle (si_Process i) L else Some L);
  L ← LocalFree (si_SecurityDescriptor i) L;
  Some (L <| SvcInstances := delete SvcInstance (SvcInstances L) |>).

Definition SvcInstanceRelease (L : LAUNCHER) (SvcInstance : Z) : option LAUNCHER :=
  '(last, L) ← release_count L SvcInstance;
  if (last : bool) then release_last L SvcInstance else Some L.

(** [SvcInstanceTerminated] *)
Definition SvcInstanceTerminated (L : LAUNCHER) (SvcInstance : Z) : option LAUNCHER :=
  SvcInstanceRelease L SvcInstance.

Record STOP_ANSWERS := mkStopAnswers {
  sa_Find : Z + list VOLUME; sa_Alloc : bool; sa_Kill : KILL_ANSWERS
}.

(** [SvcInstanceKill]: its local array has room for 256 handles. *)
Definition SvcInstanceKill (L : LAUNCHER) (SvcInstance : Z) (Forced : bool) (a : STOP_ANSWERS)
    : option (Z * LAUNCHER) :=
  i ← SvcInstances L !! SvcInstance;
  '(err, Handles, L) ←
    match si_VolumeHandles i with
    | None =>
        '(err, Handles, L) ← OpenAndDismountVolumesForProcessId L (si_ProcessId i) 256 (sa_Find a);
        if (ERROR_SUCCESS =? err) && negb (bool_decide (Handles = [])) && sa_Alloc a
        then Some (err, [], L <| SvcInstances := <[SvcInstance := i <| si_VolumeHandles := Some Handles |>]>
                                                   (SvcInstances L) |>)
        else Some (err, Handles, L)
    | Some _ => Some (ERROR_SUCCESS, [], L)
    end;
  L ← (if (ERROR_SUCCESS =? err) || Forced then KillProcess L (si_ProcessId i) (si_Process i) (sa_Kill a) else Some L);
  L ← CloseHandles Handles L;
  Some (err, L).

(** ** The operations *)

(** The answers for [SvcInstanceSetPersistent]: for the registry, the security as a text. *)
Record PERSISTENT_ANSWERS := mkPersistentAnswers {
  pe_RegOpen : Z; pe_Persistent : Z * Z; pe_Security : option (list Z); pe_Alloc : bool;
  pe_ClassOpen : Z; pe_Set : Z
}.

Definition SvcInstanceSetPersistent (L : LAUNCHER) (ClassName InstanceName : list Z) (Argv : list (list Z))
    (a : PERSISTENT_ANSWERS) : option (bool * LAUNCHER) :=
  if negb (ERROR_SUCCESS =? pe_RegOpen a) || negb (ERROR_SUCCESS =? (pe_Persistent a).1) ||
     (0 =? (pe_Persistent a).2) then Some (false, L)
  else
    match pe_Security a with
    | None => Some (false, L)
    | Some Security =>
        Value ← persistent_value Argv Security (pe_Alloc a);
        match Value with
        | None => Some (false, L)
        | Some Value =>
            if negb (ERROR_SUCCESS =? pe_ClassOpen a) || negb (ERROR_SUCCESS =? pe_Set a) then Some (false, L)
            else Some (true, emit (SetInstance ClassName InstanceName Value) L)
        end
    end.

(** The answers for [SvcInstanceDeletePersistent]: the opened keys and the deletion. *)
Definition SvcInstanceDeletePersistent (L : LAUNCHER) (ClassName InstanceName : list Z) (a : Z * Z * Z) : LAUNCHER :=
  let '(RegOpen, ClassOpen, Delete) := a in
  if negb (ERROR_SUCCESS =? RegOpen) || negb (ERROR_SUCCESS =? ClassOpen) || negb (ERROR_SUCCESS =? Delete) then L
  else emit (DeleteInstance ClassName InstanceName) L.

(** The code of [SvcInstanceStart] after the creation. *)
Definition start_finish (L : LAUNCHER) (SvcInstance : Z) (Argv : list (list Z)) (p : PERSISTENT_ANSWERS)
    : option LAUNCHER :=
  i ← SvcInstances L !! SvcInstance;
  '(Persistent, L) ← SvcInstanceSetPersistent L (si_ClassName i) (si_InstanceName i) Argv p;
  Some (L <| SvcInstances := <[SvcInstance := i <| si_Persistent := Persistent |>]> (SvcInstances L) |>).

Definition SvcInstanceStart (L : LAUNCHER) (ClassName InstanceName : list Z) (Argv : list (list Z)) (Job : Z)
    (a : CREATE_ANSWERS) (p : PERSISTENT_ANSWERS) : option (Z * LAUNCHER) :=
  '(err, SvcInstance, L) ← SvcInstanceCreate L true None ClassName InstanceName Argv Job a;
  if negb (ERROR_SUCCESS =? err) then Some (err, L)
  else
    L ← start_finish L SvcInstance Argv p;
    L ← SvcInstanceRelease L SvcInstance;
    Some (ERROR_SUCCESS, L).

Definition SvcInstanceStop (L : LAUNCHER) (ClassName InstanceName : list Z) (Forced : bool)
    (Access : bool * bool * Z) (s : STOP_ANSWERS) (d : Z * Z * Z) : option (Z * LAUNCHER) :=
  Found ← SvcInstanceLookup L ClassName InstanceName true;
  match Found with
  | None => Some (ERROR_FILE_NOT_FOUND, L)
  | Some SvcInstance =>
      let Error := SvcInstanceAccessCheck Access in
      if negb (ERROR_SUCCESS =? Error) then Some (Error, L)
      else
        '(err, L) ← SvcInstanceKill L SvcInstance Forced s;
        i ← SvcInstances L !! SvcInstance;
        Some (err, if ERROR_SUCCESS =? err then SvcInstanceDeletePersistent L (si_ClassName i) (si_InstanceName i) d
                   else L)
  end.

(** [SvcInstanceGetInfo]: the error and the characters that are written, at most [Size] bytes. *)
Definition SvcInstanceGetInfo (L : LAUNCHER) (ClassName InstanceName : list Z) (Access : bool * bool * Z) (Size : Z)
    : option (Z * list Z) :=
  Found ← SvcInstanceLookup L ClassName InstanceName true;
  match Found with
  | None => Some (ERROR_FILE_NOT_FOUND, [])
  | Some SvcInstance =>
      let Error := SvcInstanceAccessCheck Access in
      if negb (ERROR_SUCCESS =? Error) then Some (Error, [])
      else
        i ← SvcInstances L !! SvcInstance;
        nc ← lstrlenW (si_ClassName i);
        ni ← lstrlenW (si_InstanceName i);
        nl ← lstrlenW (si_CommandLine i);
        let ClassNameSize := u32 (Z.of_nat nc + 1) in
        let InstanceNameSize := u32 (Z.of_nat ni + 1) in
        let CommandLineSize := u32 (Z.of_nat nl + 1) in
        if Size <? u32 (u32 (ClassNameSize + InstanceNameSize) + CommandLineSize) * 2
        then Some (ERROR_INSUFFICIENT_BUFFER, [])
        else Some (ERROR_SUCCESS,
                   take (S nc) (si_ClassName i) ++ take (S ni) (si_InstanceName i) ++ take (S nl) (si_CommandLine i))
  end.

(** The loop of [SvcInstanceGetNameList]; [n] characters of the buffer are left. *)
Fixpoint name_list (l : list Z) (L : LAUNCHER) (n : Z) : option (list Z) :=
  match l with
  | [] => Some []
  | a :: l =>
      i ← SvcInstances L !! a;
      nc ← lstrlenW (si_ClassName i);
      ni ← lstrlenW (si_InstanceName i);
      let size := Z.of_nat nc + 1 + (Z.of_nat ni + 1) in
      if n <? size then Some []
      else
        t ← name_list l L (n - size);
        Some (take (S nc) (si_ClassName i) ++ take (S ni) (si_InstanceName i) ++ t)
  end.

Definition SvcInstanceGetNameList (L : LAUNCHER) (Size : Z) : option (list Z) :=
  name_list (SvcInstanceList L) L (Size / 2).

(** A value of the key [Instances] of a class: its name, whether its type is [REG_MULTI_SZ], what the
    buffer has once it was read, its size in bytes, and the answers for the instance. *)
Record PERSISTENT_INSTANCE := mkPersistentInstance {
  pv_InstanceName : list Z; pv_MultiSz : bool; pv_Value : list Z; pv_Size : Z; pv_Create : CREATE_ANSWERS
}.

(** The sizes of [ClassName] and [InstanceName], in characters, and of [RegValue], in bytes. *)
Definition sizeof_ClassName : Z := 64.
Definition sizeof_InstanceName : Z := 4 + 260.
Definition sizeof_RegValue : Z := 2 * (1024 + 512).

(** [RegEnumValueW] fails if the name, with its terminator, or the value does not fit in the buffer
    that it is given. *)
Definition value_fits (v : PERSISTENT_INSTANCE) : option bool :=
  n ← lstrlenW (pv_InstanceName v);
  Some ((Z.of_nat n <? sizeof_InstanceName) && (pv_Size v <=? sizeof_RegValue)).

(** So does [RegEnumKeyExW], for the name of a class. *)
Definition class_fits (ClassName : list Z) : option bool :=
  n ← lstrlenW ClassName; Some (Z.of_nat n <? sizeof_ClassName).

(** The loop over the instances of a class: it ends at the first value that cannot be read, or has
    another type. *)
Fixpoint start_class (vs : list PERSISTENT_INSTANCE) (L : LAUNCHER) (ClassName : list Z) (Job : Z) : option LAUNCHER :=
  match vs with
  | [] => Some L
  | v :: vs =>
      fits ← value_fits v;
      if negb fits || negb (pv_MultiSz v) then Some L
      else
        args ← persistent_args (pv_Value v) (pv_Size v);
        L ← match args with
            | None => Some L
            | Some (Argv, Security) =>
                '(err, SvcInstance, L) ← SvcInstanceCreate L false (Some Security) ClassName (pv_InstanceName v)
                                            Argv Job (pv_Create v);
                if ERROR_SUCCESS =? err then SvcInstanceRelease L SvcInstance else Some L
            end;
        start_class vs L ClassName Job
  end.

(** The loop over the classes: it ends at the first whose name cannot be read; a class whose keys do
    not open is passed over. *)
Fixpoint start_classes (cs : list (list Z * option (list PERSISTENT_INSTANCE))) (L : LAUNCHER) (Job : Z)
    : option LAUNCHER :=
  match cs with
  | [] => Some L
  | (ClassName, Instances) :: cs =>
      fits ← class_fits ClassName;
      if negb fits then Some L
      else
        L ← match Instances with Some vs => start_class vs L ClassName Job | None => Some L end;
        start_classes cs L Job
  end.

(** [SvcInstanceStartAllPersistent], for the error of the launcher's key or its classes. *)
Definition SvcInstanceStartAllPersistent (L : LAUNCHER) (Job : Z)
    (Reg : Z + list (list Z * option (list PERSISTENT_INSTANCE))) : option (Z * LAUNCHER) :=
  match Reg with
  | inl err => Some (err, L)
  | inr cs => L ← start_classes cs L Job; Some (ERROR_SUCCESS, L)
  end.

(** The loop of [SvcInstanceStopAndWaitAll], with the answers for each instance; the wait for the
    event, with a timeout, follows. *)
Fixpoint stop_all (l : list Z) (L : LAUNCHER) (answers : Z -> STOP_ANSWERS) : option LAUNCHER :=
  match l with
  | [] => Some L
  | a :: l => '(_, L) ← SvcInstanceKill L a true (answers a); stop_all l L answers
  end.

Definition SvcInstanceStopAndWaitAll (L : LAUNCHER) (answers : Z -> STOP_ANSWERS) : option LAUNCHER :=
  stop_all (SvcInstanceList L) L answers.
