(* ===== verification/LaunchServer.v ===== *)
(** * The service of the launcher: [launcher/launcher.c]

    The commands of the launcher's pipe, the loop of its server, and the states that the service
    reports.  The characters of a message are a list. *)

From S2P Require Import Prelude Wdk IoctlTypes Minimal StrToInt LaunchText Launcher.

(** ** Commands *)

(** The answers for the operations of a command. *)
Record COMMAND_ANSWERS := mkCommandAnswers {
  co_Create : CREATE_ANSWERS; co_Persistent : PERSISTENT_ANSWERS;
  co_Access : bool * bool * Z; co_Stop : STOP_ANSWERS; co_Delete : Z * Z * Z
}.

Section SvcPipeTransact.
Context (DBG : bool) (SvcJob : Z).

(** [SvcPipeTransact]: the message that answers [PipeBuf].  A message without a character is left
    as it is. *)
Definition SvcPipeTransact (L : LAUNCHER) (PipeBuf : list Z) (a : COMMAND_ANSWERS) : option (list Z * LAUNCHER) :=
  match PipeBuf with
  | [] => Some ([], L)
  | Command :: P =>
      let invalid := Some (SvcPipeTransactResult ERROR_INVALID_PARAMETER [], L) in
      let '(ClassName, P1) := SvcPipeTransactGetPart P in
      let '(InstanceName, P2) := SvcPipeTransactGetPart P1 in
      if SpdLaunchCmdStart =? Command then
        let Argv := get_parts 9 P2 in
        match ClassName, InstanceName with
        | Some ClassName, Some InstanceName =>
            '(err, L) ← SvcInstanceStart L ClassName InstanceName Argv SvcJob (co_Create a) (co_Persistent a);
            Some (SvcPipeTransactResult err [], L)
        | _, _ => invalid
        end
      else if (SpdLaunchCmdStopForced =? Command) || (SpdLaunchCmdStop =? Command) then
        match ClassName, InstanceName with
        | Some ClassName, Some InstanceName =>
            '(err, L) ← SvcInstanceStop L ClassName InstanceName (SpdLaunchCmdStopForced =? Command) (co_Access a)
                          (co_Stop a) (co_Delete a);
            Some (SvcPipeTransactResult err [], L)
        | _, _ => invalid
        end
      else if SpdLaunchCmdGetInfo =? Command then
        match ClassName, InstanceName with
        | Some ClassName, Some InstanceName =>
            '(err, data) ← SvcInstanceGetInfo L ClassName InstanceName (co_Access a) (SPD_LAUNCH_PIPE_BUFFER_SIZE - 1);
            Some (SvcPipeTransactResult err data, L)
        | _, _ => invalid
        end
      else if SpdLaunchCmdGetNameList =? Command then
        data ← SvcInstanceGetNameList L (SPD_LAUNCH_PIPE_BUFFER_SIZE - 1);
        Some (SvcPipeTransactResult ERROR_SUCCESS data, L)
      else if DBG && (SpdLaunchCmdQuit =? Command)
      then Some (SvcPipeTransactResult ERROR_SUCCESS [], emit QuitService L)
      else invalid
  end.

(** ** The server *)

(** An asynchronous operation, and the wait for it and for the event that stops the service. *)
Record PIPE_IO := mkPipeIo {
  pw_Success : bool; pw_LastError : Z; pw_Wait : Z; pw_Got : bool; pw_GotError : Z
}.

(** The special error that stops the thread. *)
Definition STOP_THREAD : Z := u32 (-1).

Definition SvcPipeWaitResult (io : PIPE_IO) : Z :=
  if negb (pw_Success io) && negb (ERROR_IO_PENDING =? pw_LastError io) then pw_LastError io
  else if WAIT_OBJECT_0 =? pw_Wait io then STOP_THREAD
  else if WAIT_OBJECT_0 + 1 =? pw_Wait io then
    if negb (pw_Got io) then pw_GotError io else ERROR_SUCCESS
  else pw_GotError io.

(** What the system does in a round of the loop. *)
Record ROUND := mkRound {
  rn_Connect : PIPE_IO;
  rn_Read : PIPE_IO; rn_BytesTransferred : Z; rn_Message : list Z;
  rn_Impersonate : bool; rn_Token : Z; rn_Revert : bool;
  rn_Command : COMMAND_ANSWERS;
  rn_Write : PIPE_IO
}.

(** The server: the launcher, whether a client is connected, whether the thread acts for one. *)
Record SERVER := mkServer {
  sv_Launcher : LAUNCHER; sv_Connected : bool; sv_Impersonating : bool
}.

(** A round: whether the loop goes on, the server, and the message that was made. *)
Definition server_round (s : SERVER) (r : ROUND) : option (bool * SERVER * option (list Z)) :=
  let L := sv_Launcher s in
  let LastError := SvcPipeWaitResult (rn_Connect r) in
  if STOP_THREAD =? LastError then Some (false, s, None)
  else if negb (0 =? LastError) && negb (ERROR_PIPE_CONNECTED =? LastError) && negb (ERROR_NO_DATA =? LastError)
  then Some (true, s, None)
  else
    let LastError := SvcPipeWaitResult (rn_Read r) in
    if STOP_THREAD =? LastError then Some (false, mkServer L true (sv_Impersonating s), None)
    else if negb (0 =? LastError) || (2 >? rn_BytesTransferred r)
    then Some (true, mkServer L false (sv_Impersonating s), None)
    else if negb (rn_Impersonate r) then Some (true, mkServer L false (sv_Impersonating s), None)
    else if 0 =? rn_Token r then Some (true, mkServer L false true, None)
    else
      let L := acquire (RHandle (rn_Token r)) L in
      if negb (rn_Revert r) then
        L ← CloseHandle (rn_Token r) L;
        Some (false, mkServer L false true, None)
      else
        '(Rsp, L) ← SvcPipeTransact L (rn_Message r) (rn_Command r);
        L ← CloseHandle (rn_Token r) L;
        let LastError := SvcPipeWaitResult (rn_Write r) in
        if STOP_THREAD =? LastError then Some (false, mkServer L true false, Some Rsp)
        else Some (true, mkServer L false false, Some Rsp).

(** The loop: it ends in a round that says so, or goes on after the last one. *)
Fixpoint server_loop (rs : list ROUND) (s : SERVER) : option (bool * SERVER) :=
  match rs with
  | [] => Some (true, s)
  | r :: rs =>
      '(go, s, _) ← server_round s r;
      if (go : bool) then server_loop rs s else Some (false, s)
  end.
End SvcPipeTransact.

(** ** The service *)

(** A report of the state of the service. *)
Record SERVICE_STATUS := mkServiceStatus {
  dwCurrentState : Z; dwControlsAccepted : Z; dwWin32ExitCode : Z; dwCheckPoint : Z; dwWaitHint : Z
}.

Definition SERVICE_STOPPED : Z := 1.
Definition SERVICE_START_PENDING : Z := 2.
Definition SERVICE_STOP_PENDING : Z := 3.
Definition SERVICE_RUNNING : Z := 4.
Definition SERVICE_ACCEPT_STOP : Z := 1.
Definition SERVICE_CONTROL_STOP : Z := 1.
Definition SERVICE_CONTROL_PAUSE : Z := 2.
Definition SERVICE_CONTROL_CONTINUE : Z := 3.
Definition SERVICE_CONTROL_SHUTDOWN : Z := 5.
Definition LAUNCHER_START_TIMEOUT : Z := 30000.
Definition LAUNCHER_STOP_TIMEOUT : Z := 30000.

(** [SvcPipeServer]: the buffer, the rounds, the instances that are stopped, the report; nothing
    is reported by a loop that goes on. *)
Definition SvcPipeServer (DBG : bool) (SvcJob : Z) (L : LAUNCHER) (Alloc : bool) (rs : list ROUND)
    (answers : Z -> STOP_ANSWERS) : option (SERVER * option SERVICE_STATUS) :=
  '(go, s) ← (if Alloc then server_loop DBG SvcJob rs (mkServer L false false)
              else Some (false, mkServer L false false));
  if (go : bool) then Some (s, None)
  else
    L ← SvcInstanceStopAndWaitAll (sv_Launcher s) answers;
    Some (mkServer L (sv_Connected s) (sv_Impersonating s),
          Some (mkServiceStatus SERVICE_STOPPED 0 (if Alloc then 0 else ERROR_NO_SYSTEM_RESOURCES) 0 0)).

(** The answers for [SvcOnStart]: whether the calls succeed and the error of the one that fails. *)
Record START_ANSWERS := mkStartAnswers {
  st_Security : bool; st_InstanceEvent : bool; st_Job : Z; st_SetJob : bool; st_Event : bool;
  st_OverlappedEvent : bool; st_Pipe : bool; st_Thread : bool; st_LastError : Z;
  st_Registry : Z + list (list Z * option (list PERSISTENT_INSTANCE))
}.

(** [SvcOnStart]: the error, the job, and whether the thread of the server runs. *)
Definition SvcOnStart (L : LAUNCHER) (a : START_ANSWERS) : option (Z * Z * bool * LAUNCHER) :=
  if negb (st_Security a) || negb (st_InstanceEvent a) then Some (st_LastError a, 0, false, L)
  else
    let Job := if negb (0 =? st_Job a) && negb (st_SetJob a) then 0 else st_Job a in
    if negb (st_Event a) || negb (st_OverlappedEvent a) || negb (st_Pipe a) || negb (st_Thread a)
    then Some (st_LastError a, Job, false, L)
    else
      '(_, L) ← SvcInstanceStartAllPersistent L Job (st_Registry a);
      Some (ERROR_SUCCESS, Job, true, L).

(** [SvcCtrlHandler]: the result, the report, and whether the server is told to stop. *)
Definition ERROR_CALL_NOT_IMPLEMENTED : Z := 120.

Definition SvcCtrlHandler (Control : Z) : Z * option SERVICE_STATUS * bool :=
  if (SERVICE_CONTROL_SHUTDOWN =? Control) || (SERVICE_CONTROL_STOP =? Control)
  then (ERROR_SUCCESS, Some (mkServiceStatus SERVICE_STOP_PENDING 0 ERROR_SUCCESS 1 LAUNCHER_STOP_TIMEOUT), true)
  else if (SERVICE_CONTROL_PAUSE =? Control) || (SERVICE_CONTROL_CONTINUE =? Control)
  then (ERROR_CALL_NOT_IMPLEMENTED, None, false)
  else (ERROR_SUCCESS, None, false).

(** [SvcEntry]: the reports, in their order. *)
Definition SvcEntry (L : LAUNCHER) (Handle : Z) (a : START_ANSWERS) : option (list SERVICE_STATUS * LAUNCHER) :=
  if 0 =? Handle then Some ([], L)
  else
    let s := mkServiceStatus SERVICE_START_PENDING 0 ERROR_SUCCESS 0 LAUNCHER_START_TIMEOUT in
    '(err, _, _, L) ← SvcOnStart L a;
    let '(state, accepted) := if ERROR_SUCCESS =? err then (SERVICE_RUNNING, SERVICE_ACCEPT_STOP)
                              else (SERVICE_STOPPED, 0) in
    Some ([s; mkServiceStatus state accepted ERROR_SUCCESS 0 LAUNCHER_START_TIMEOUT], L).
