(* ===== verification/LauncherInv.v ===== *)
(** * What the launcher owns

    The resources of the launcher are exactly those of its instances and of the processes that it
    waits for to end, and each of its operations keeps it so. *)

From S2P Require Import Prelude Wdk IoctlTypes Minimal MinimalProps StrToInt LaunchText LaunchTextProps Launcher.

#[local] Set Warnings "-clear-no-such-hyp".

(** ** Ownership *)

Definition instance_resources (i : SVC_INSTANCE) : list RESOURCE :=
  RHandle (si_Process i) :: RWait (si_ProcessWait i) :: RLocal (si_SecurityDescriptor i) ::
  (RHandle <$> default [] (si_VolumeHandles i)).

Definition instances_resources (m : gmap Z SVC_INSTANCE) : list RESOURCE :=
  concat ((fun x => instance_resources x.2) <$> map_to_list m).

Definition kill_resources (m : gmap Z Z) : list RESOURCE :=
  concat ((fun x => [RWait x.1; RHandle x.2]) <$> map_to_list m).

Definition owned (L : LAUNCHER) : list RESOURCE :=
  instances_resources (SvcInstances L) ++ kill_resources (KillProcessData L).

(** The resources are these, each once. *)
Definition holds (L : LAUNCHER) (O : list RESOURCE) : Prop := elements (Resources L) ≡ₚ O.

(** They are those that are owned, and [X]. *)
Definition owns (L : LAUNCHER) (X : list RESOURCE) : Prop := holds L (owned L ++ X).

(** The same instances, in the same list, and the same processes that are to end. *)
Record same (L L' : LAUNCHER) : Prop := {
  same_List : SvcInstanceList L' = SvcInstanceList L;
  same_Instances : SvcInstances L' = SvcInstances L;
  same_Event : SvcInstanceEvent L' = SvcInstanceEvent L;
  same_Kill : KillProcessData L' = KillProcessData L
}.

#[export] Instance same_preorder : PreOrder same.
Proof.
  split; [by constructor|]. intros L1 L2 L3 [A1 A2 A3 A4] [B1 B2 B3 B4].
  constructor; congruence.
Qed.

#[export] Instance holds_proper L : Proper ((≡ₚ) ==> iff) (holds L).
Proof. intros O O' E. unfold holds. by rewrite E. Qed.

#[export] Instance owns_proper L : Proper ((≡ₚ) ==> iff) (owns L).
Proof. intros X Y E. unfold owns. by rewrite E. Qed.

Lemma same_owns L L' X : same L L' -> owns L' X <-> holds L' (owned L ++ X).
Proof. intros [_ H1 _ H2]. unfold owns, owned. by rewrite H1, H2. Qed.

Lemma holds_in L O r : holds L O -> r ∈ Resources L <-> r ∈ O.
Proof. intros HO. rewrite <- elem_of_elements. by rewrite HO. Qed.

Lemma holds_acquire L O r : holds L O -> r ∉ Resources L -> holds (acquire r L) (r :: O).
Proof.
  unfold holds. intros HO Hr. change (Resources (acquire r L)) with ({[r]} ∪ Resources L).
  rewrite elements_union_singleton by done. by rewrite HO.
Qed.

Lemma owns_acquire L X r : owns L X -> r ∉ Resources L -> owns (acquire r L) (r :: X).
Proof.
  intros HO Hr. unfold owns. change (owned (acquire r L)) with (owned L).
  rewrite <- Permutation_middle. by apply holds_acquire.
Qed.

Lemma holds_held L O r : holds L O -> r ∈ O -> held r L = Some tt.
Proof. intros HO Hr. unfold held. rewrite bool_decide_true; [done|]. by apply (holds_in L O). Qed.

(** What is released is not held any more; all else stays. *)
Lemma holds_release L O r :
  holds L (r :: O) ->
  exists L', release r L = Some L' /\ same L L' /\ holds L' O /\ Resources L' = Resources L ∖ {[r]}.
Proof.
  intros HO. assert (r ∈ Resources L) as Hr by (apply (holds_in L (r :: O)); [done|set_solver]).
  unfold release. rewrite bool_decide_true by done. eexists. split; [reflexivity|].
  split; [done|]. split; [|done]. unfold holds in *.
  change (elements (Resources L ∖ {[r]}) ≡ₚ O).
  assert (Resources L = {[r]} ∪ (Resources L ∖ {[r]})) as E by (apply union_difference_singleton_L; done).
  rewrite E, elements_union_singleton in HO by set_solver. by apply (Permutation_cons_inv (a := r)).
Qed.

Lemma holds_CloseHandles L O hs :
  holds L ((RHandle <$> hs) ++ O) ->
  exists L', CloseHandles hs L = Some L' /\ same L L' /\ holds L' O /\ Resources L' ⊆ Resources L.
Proof.
  revert L. induction hs as [|h hs IH]; intros L HO; cbn [CloseHandles].
  { exists L. by split_and!. }
  destruct (holds_release _ _ _ HO) as (L1 & E & HS & HO1 & HR). unfold CloseHandle. rewrite E, bind_value.
  destruct (IH _ HO1) as (L' & -> & HS' & HO' & HR'). exists L'. split_and!; try done; [by etrans|].
  rewrite HR in HR'. set_solver.
Qed.

Lemma holds_TerminateProcess L O h :
  holds L O -> RHandle h ∈ O ->
  exists L', TerminateProcess h L = Some L' /\ same L L' /\ holds L' O /\ Resources L' = Resources L.
Proof. intros HO Hh. unfold TerminateProcess. rewrite (holds_held L O) by done. by eexists. Qed.

(** ** The map of the instances *)

Lemma instances_resources_insert m a i :
  m !! a = None -> instances_resources (<[a := i]> m) ≡ₚ instance_resources i ++ instances_resources m.
Proof.
  intros Hm. unfold instances_resources. by rewrite map_to_list_insert.
Qed.

Lemma instances_resources_take m a i :
  m !! a = Some i -> instances_resources m ≡ₚ instance_resources i ++ instances_resources (delete a m).
Proof.
  intros Hm. rewrite <- (insert_delete_id m a i) at 1 by done.
  apply instances_resources_insert, lookup_delete_eq.
Qed.

Lemma instances_resources_update m a i i' :
  m !! a = Some i ->
  instances_resources (<[a := i']> m) ≡ₚ instance_resources i' ++ instances_resources (delete a m).
Proof.
  intros Hm. rewrite <- (insert_delete_eq m). apply instances_resources_insert, lookup_delete_eq.
Qed.

(** A change of an instance that keeps its resources. *)
Lemma owns_same_instance L X a i i' :
  SvcInstances L !! a = Some i -> instance_resources i' = instance_resources i -> owns L X ->
  owns (L <| SvcInstances := <[a := i']> (SvcInstances L) |>) X.
Proof.
  intros Hi Hr HO. unfold owns, owned in *.
  change (holds L ((instances_resources (<[a := i']> (SvcInstances L)) ++ kill_resources (KillProcessData L)) ++ X)).
  rewrite (instances_resources_update _ _ _ i' Hi), Hr, <- (instances_resources_take _ _ _ Hi). done.
Qed.

Lemma instance_owned L a i r : SvcInstances L !! a = Some i -> r ∈ instance_resources i -> r ∈ owned L.
Proof. intros Hi Hr. unfold owned. rewrite (instances_resources_take _ _ _ Hi). set_solver. Qed.

(** ** Processes that are to end *)

Lemma kill_resources_insert m w h :
  m !! w = None -> kill_resources (<[w := h]> m) ≡ₚ [RWait w; RHandle h] ++ kill_resources m.
Proof. intros Hm. unfold kill_resources. by rewrite map_to_list_insert. Qed.

Lemma kill_resources_take m w h :
  m !! w = Some h -> kill_resources m ≡ₚ [RWait w; RHandle h] ++ kill_resources (delete w m).
Proof.
  intros Hm. rewrite <- (insert_delete_id m w h) at 1 by done.
  apply kill_resources_insert, lookup_delete_eq.
Qed.

Lemma kill_fresh L X w : owns L X -> RWait w ∉ Resources L -> KillProcessData L !! w = None.
Proof.
  intros HO Hw. destruct (KillProcessData L !! w) as [h|] eqn:E; [|done]. exfalso. apply Hw.
  apply (holds_in L (owned L ++ X)); [done|]. unfold owned. rewrite (kill_resources_take _ _ _ E). set_solver.
Qed.

(** The answers are for new handles. *)
Record kill_ok (L : LAUNCHER) (a : KILL_ANSWERS) : Prop := {
  ko_Duplicate : RHandle (ka_Duplicate a) ∉ Resources L;
  ko_Register : RWait (ka_Register a) ∉ Resources L
}.

(** The same instances, whatever the processes that are to end. *)
Record same_instances (L L' : LAUNCHER) : Prop := {
  si_List : SvcInstanceList L' = SvcInstanceList L;
  si_Instances : SvcInstances L' = SvcInstances L;
  si_Event : SvcInstanceEvent L' = SvcInstanceEvent L
}.

Lemma same_same_instances L L' : same L L' -> same_instances L L'.
Proof. by intros []. Qed.

Lemma KillProcess_owns L X pid h a :
  owns L X -> RHandle h ∈ owned L ++ X -> kill_ok L a ->
  exists L', KillProcess L pid h a = Some L' /\ same_instances L L' /\ owns L' X.
Proof.
  intros HO Hh [HD HR]. unfold KillProcess. destruct (ka_CtrlBreak a).
  2: { destruct (holds_TerminateProcess L _ h HO Hh) as (L' & E & HS & HO' & _). exists L'.
       split_and!; [done|by apply same_same_instances|by apply (same_owns L)]. }
  set (L1 := emit (CtrlBreak pid) L). assert (owns L1 X) as HO1 by exact HO.
  destruct (ka_Alloc a); [|by exists L1]. rewrite (holds_held L1 (owned L1 ++ X)) by done. rewrite bind_value.
  destruct (negb (0 =? ka_Duplicate a)); [|by exists L1].
  pose proof (owns_acquire L1 X (RHandle (ka_Duplicate a)) HO1 HD) as HO2.
  set (L2 := acquire (RHandle (ka_Duplicate a)) L1) in *.
  destruct (negb (0 =? ka_Register a)).
  - assert (RWait (ka_Register a) ∉ Resources L2) as HR2.
    { change (RWait (ka_Register a) ∉ {[RHandle (ka_Duplicate a)]} ∪ Resources L). set_solver. }
    pose proof (owns_acquire L2 _ (RWait (ka_Register a)) HO2 HR2) as HO3.
    pose proof (kill_fresh L2 _ _ HO2 HR2) as Hk.
    eexists. split; [reflexivity|]. split; [done|]. unfold owns, owned in *.
    set (L3 := acquire (RWait (ka_Register a)) L2) in *.
    change (holds L3 ((instances_resources (SvcInstances L3) ++
      kill_resources (<[ka_Register a := ka_Duplicate a]> (KillProcessData L2))) ++ X)).
    rewrite (kill_resources_insert (KillProcessData L2) _ _ Hk).
    change (KillProcessData L3) with (KillProcessData L2) in HO3.
    eapply holds_proper; [|exact HO3]. solve_Permutation.
  - destruct (holds_release L2 (owned L2 ++ X) (RHandle (ka_Duplicate a))) as (L' & E & HS' & HO' & _).
    { rewrite Permutation_middle. exact HO2. }
    exists L'. split_and!; [done| |by apply (same_owns L2)]. by destruct HS'.
Qed.

Lemma KillProcessWait_owns L X w h Timeout :
  owns L X -> KillProcessData L !! w = Some h ->
  exists L', KillProcessWait L w Timeout = Some L' /\ same_instances L L' /\ owns L' X.
Proof.
  intros HO Hk. unfold KillProcessWait. rewrite Hk, bind_value.
  set (O := (instances_resources (SvcInstances L) ++ kill_resources (delete w (KillProcessData L))) ++ X).
  assert (holds L (RWait w :: RHandle h :: O)) as HO0.
  { unfold owns, owned in HO. rewrite (kill_resources_take _ _ _ Hk) in HO.
    eapply holds_proper; [|exact HO]. subst O. solve_Permutation. }
  assert (exists L1, (if Timeout then TerminateProcess h L else Some L) = Some L1 /\ same L L1 /\
    holds L1 (RWait w :: RHandle h :: O)) as (L1 & -> & HS1 & HO1).
  { destruct Timeout; [|by exists L].
    destruct (holds_TerminateProcess L _ h HO0) as (L1 & ? & ? & ? & _); [set_solver|by exists L1]. }
  rewrite bind_value. destruct (holds_release _ _ _ HO1) as (L2 & E2 & HS2 & HO2 & _).
  destruct (holds_release _ _ _ HO2) as (L3 & E3 & HS3 & HO3 & _).
  unfold UnregisterWait, CloseHandle. rewrite E2, bind_value, E3, bind_value.
  assert (same L L3) as [S1 S2 S3 S4] by (etrans; [exact HS1|]; by etrans).
  eexists. split; [reflexivity|]. split; [done|].
  change (holds L3 ((instances_resources (SvcInstances L3) ++ kill_resources (delete w (KillProcessData L3))) ++ X)).
  by rewrite S2, S4.
Qed.

(** ** Volumes *)

Definition new_handles (vs : list VOLUME) : list Z :=
  filter (fun h => h <> INVALID_HANDLE_VALUE) ((fun v => (ov_Create (vol_Open v)).1) <$> vs).

Lemma new_handles_cons v vs :
  new_handles (v :: vs) =
    (if decide ((ov_Create (vol_Open v)).1 = INVALID_HANDLE_VALUE) then [] else [(ov_Create (vol_Open v)).1]) ++
    new_handles vs.
Proof.
  unfold new_handles. rewrite fmap_cons, filter_cons. destruct (decide (_ = INVALID_HANDLE_VALUE)).
  - by rewrite decide_False by auto.
  - by rewrite decide_True by done.
Qed.

(** An error is not the code of success. *)
Definition open_errors (a : OPEN_VOLUME) : Prop := (ov_Create a).2 <> ERROR_SUCCESS /\ ov_LastError a <> ERROR_SUCCESS.

(** The handles are new, errors are errors, and the buffers for the owners are well-formed. *)
Record volumes_ok (L : LAUNCHER) (vs : list VOLUME) : Prop := {
  vk_errors : Forall (fun v => open_errors (vol_Open v)) vs;
  vk_Owner : Forall (fun v => is_Some (GetVolumeOwnerProcessId (vol_Owner v))) vs;
  vk_NoDup : NoDup (new_handles vs);
  vk_fresh h : h ∈ new_handles vs -> RHandle h ∉ Resources L
}.

Lemma OpenAndDismountVolume_holds L O a :
  holds L O -> open_errors a ->
  ((ov_Create a).1 <> INVALID_HANDLE_VALUE -> RHandle (ov_Create a).1 ∉ Resources L) ->
  exists err h L', OpenAndDismountVolume L a = Some (err, h, L') /\ same L L' /\
    ((err <> ERROR_SUCCESS /\ holds L' O /\ Resources L' ⊆ Resources L) \/
     (err = ERROR_SUCCESS /\ h = (ov_Create a).1 /\ h <> INVALID_HANDLE_VALUE /\ holds L' (RHandle h :: O) /\
      Resources L' = {[RHandle h]} ∪ Resources L)).
Proof.
  intros HO [He1 He2] Hf. unfold OpenAndDismountVolume. destruct (ov_Create a) as [h e]. cbn [fst snd] in *.
  destruct (Z.eqb_spec INVALID_HANDLE_VALUE h) as [E|E].
  { eexists _, _, L. split; [reflexivity|]. split; [done|]. by left. }
  specialize (Hf ltac:(congruence)). pose proof (holds_acquire L O (RHandle h) HO Hf) as HO1.
  destruct (_ || _).
  - destruct (holds_release _ _ _ HO1) as (L' & E1 & HS & HO' & HR). unfold CloseHandle. rewrite E1, bind_value.
    eexists _, _, L'. split; [reflexivity|]. split; [destruct HS; by constructor|]. left. split_and!; try done.
    + destruct (ERROR_ACCESS_DENIED =? ov_LastError a); [discriminate|done].
    + rewrite HR. change (Resources (acquire (RHandle h) L)) with ({[RHandle h]} ∪ Resources L). set_solver.
  - eexists _, _, _. split; [reflexivity|]. split; [done|]. right. by split_and!.
Qed.

Lemma dismount_volumes_holds vs L O pid Count hs D :
  holds L ((RHandle <$> hs) ++ O) -> volumes_ok L vs ->
  exists hs' D' L', dismount_volumes vs L pid Count hs D = Some (hs', D', L') /\ same L L' /\
    holds L' ((RHandle <$> hs') ++ O) /\
    (forall r, r ∈ Resources L' -> r ∈ Resources L \/ exists h, r = RHandle h /\ h ∈ new_handles vs).
Proof.
  revert L hs D. induction vs as [|v vs IH]; intros L hs D HO [He Hw HN Hf]; cbn [dismount_volumes].
  { exists hs, D, L. split_and!; try done. by left. }
  apply Forall_cons in He as [He1 He]. apply Forall_cons in Hw as [[[err pid'] Ew] Hw]. rewrite new_handles_cons in HN, Hf.
  apply NoDup_app in HN as (_ & Hd & HN).
  assert (volumes_ok L vs) as Hok by (constructor; [done|done|done|intros h Hh; apply Hf; set_solver]).
  assert (forall L1, same L L1 -> (forall r, r ∈ Resources L1 -> r ∈ Resources L \/ r = RHandle (ov_Create (vol_Open v)).1 /\
      (ov_Create (vol_Open v)).1 <> INVALID_HANDLE_VALUE) -> forall hs D,
      holds L1 ((RHandle <$> hs) ++ O) -> exists hs' D' L', dismount_volumes vs L1 pid Count hs D = Some (hs', D', L') /\
      same L L' /\ holds L' ((RHandle <$> hs') ++ O) /\
      (forall r, r ∈ Resources L' -> r ∈ Resources L \/ exists h, r = RHandle h /\ h ∈ new_handles (v :: vs))) as HIH.
  { intros L1 HS HR hs1 D1 HO1. destruct (IH L1 hs1 D1) as (hs' & D' & L' & -> & HS' & HO' & HR'); [done| |].
    - constructor; [done|done|done|]. intros h Hh [Hr|[Hr Hne]]%HR; [by apply (Hf h); [set_solver|]|].
      injection Hr as ->. apply (Hd (ov_Create (vol_Open v)).1); [|done]. rewrite decide_False by done. set_solver.
    - eexists _, _, _. split; [reflexivity|]. split; [by etrans|]. split; [done|].
      intros r [Hr|(h & -> & Hh)]%HR'.
      + apply HR in Hr as [Hr|[-> Hne]]; [by left|]. right. eexists. split; [done|].
        rewrite new_handles_cons, decide_False by done. set_solver.
      + right. exists h. split; [done|]. rewrite new_handles_cons. set_solver. }
  destruct (_ <=? _).
  { exists hs, D, L. split_and!; try done. by left. }
  rewrite Ew, bind_value. destruct (_ || _).
  { apply HIH; [done|by left|done]. }
  destruct (OpenAndDismountVolume_holds L ((RHandle <$> hs) ++ O) (vol_Open v) HO He1)
    as (e & h & L1 & -> & HS & Hor).
  { intros Hne. apply Hf. rewrite decide_False by done. set_solver. }
  rewrite bind_value. destruct Hor as [(Hne & HO1 & HR1)|(-> & Eh & Hne & HO1 & HR1)].
  - rewrite (proj2 (Z.eqb_neq ERROR_SUCCESS e)) by congruence.
    destruct (ERROR_DEVICE_IN_USE =? e); (apply HIH; [done| |done]); intros r Hr; left; set_solver.
  - change (ERROR_SUCCESS =? ERROR_SUCCESS) with true. cbv iota. apply HIH; [done| |].
    + intros r Hr. rewrite HR1 in Hr. apply elem_of_union in Hr as [->%elem_of_singleton|Hr]; [right|by left].
      by rewrite <- Eh.
    + eapply holds_proper; [|exact HO1]. rewrite fmap_app. cbn. rewrite <- app_assoc. symmetry. apply Permutation_middle.
Qed.

(** What the enumeration gives: volumes, or an error. *)
Definition find_ok (L : LAUNCHER) (Find : Z + list VOLUME) : Prop :=
  match Find with inl err => err <> ERROR_SUCCESS | inr vs => volumes_ok L vs end.

Definition found_handles (Find : Z + list VOLUME) : list Z :=
  match Find with inl _ => [] | inr vs => new_handles vs end.

Lemma OpenAndDismountVolumesForProcessId_holds L O pid Count Find :
  holds L O -> find_ok L Find ->
  exists err hs L', OpenAndDismountVolumesForProcessId L pid Count Find = Some (err, hs, L') /\ same L L' /\
    holds L' (if err =? ERROR_SUCCESS then (RHandle <$> hs) ++ O else O) /\
    (forall r, r ∈ Resources L' -> r ∈ Resources L \/ exists h, r = RHandle h /\ h ∈ found_handles Find).
Proof.
  intros HO HF. unfold OpenAndDismountVolumesForProcessId. destruct Find as [err|vs]; cbn [find_ok found_handles] in *.
  { eexists _, _, L. split; [reflexivity|]. split; [done|]. rewrite (proj2 (Z.eqb_neq err ERROR_SUCCESS)) by done.
    split; [done|]. by left. }
  destruct (dismount_volumes_holds vs L O pid Count [] 0 HO HF) as (hs & D & L1 & -> & HS & HO1 & HR).
  rewrite bind_value. destruct (0 =? D).
  - change (negb (ERROR_SUCCESS =? ERROR_SUCCESS)) with false. cbv iota. rewrite bind_value.
    by eexists _, _, L1.
  - change (negb (ERROR_SUCCESS =? ERROR_DEVICE_IN_USE)) with true. cbv iota.
    destruct (holds_CloseHandles L1 O hs HO1) as (L' & -> & HS' & HO' & HR'). rewrite bind_value.
    eexists _, _, L'. split; [reflexivity|]. split; [by etrans|].
    change (ERROR_DEVICE_IN_USE =? ERROR_SUCCESS) with false. split; [done|].
    intros r Hr. apply HR. set_solver.
Qed.

(** ** Killing an instance *)

(** The answers are for new handles, all different. *)
Record stop_ok (L : LAUNCHER) (a : STOP_ANSWERS) : Prop := {
  so_Find : find_ok L (sa_Find a);
  so_Kill : kill_ok L (sa_Kill a);
  so_Duplicate : ka_Duplicate (sa_Kill a) ∉ found_handles (sa_Find a)
}.

(** No volume is in use after another one was dismounted. *)
Definition no_volume_in_use (L : LAUNCHER) (a : STOP_ANSWERS) : Prop :=
  forall pid err hs L', OpenAndDismountVolumesForProcessId L pid 256 (sa_Find a) = Some (err, hs, L') ->
    err = ERROR_SUCCESS \/ hs = [].

Lemma SvcInstanceKill_owns L a i Forced s :
  owns L [] -> SvcInstances L !! a = Some i -> stop_ok L s -> no_volume_in_use L s ->
  exists err L' v, SvcInstanceKill L a Forced s = Some (err, L') /\ owns L' [] /\
    SvcInstanceList L' = SvcInstanceList L /\ SvcInstanceEvent L' = SvcInstanceEvent L /\
    SvcInstances L' = <[a := i <| si_VolumeHandles := v |>]> (SvcInstances L).
Proof.
  intros HO Hi [HF [HKD HKR] HD] HU. unfold SvcInstanceKill. rewrite Hi, bind_value.
  assert (SvcInstances L = <[a := i <| si_VolumeHandles := si_VolumeHandles i |>]> (SvcInstances L)) as Eid.
  { replace (i <| si_VolumeHandles := si_VolumeHandles i |>) with i by (by destruct i). by rewrite insert_id. }
  (* the volumes *)
  assert (exists err hs L1 v, match si_VolumeHandles i with
    | None =>
        '(err, Handles, L) ← OpenAndDismountVolumesForProcessId L (si_ProcessId i) 256 (sa_Find s);
        if (ERROR_SUCCESS =? err) && negb (bool_decide (Handles = [])) && sa_Alloc s
        then Some (err, [], L <| SvcInstances := <[a := i <| si_VolumeHandles := Some Handles |>]> (SvcInstances L) |>)
        else Some (err, Handles, L)
    | Some _ => Some (ERROR_SUCCESS, [], L)
    end = Some (err, hs, L1) /\ owns L1 (RHandle <$> hs) /\ SvcInstanceList L1 = SvcInstanceList L /\
    SvcInstanceEvent L1 = SvcInstanceEvent L /\
    SvcInstances L1 = <[a := i <| si_VolumeHandles := v |>]> (SvcInstances L) /\
    kill_ok L1 (sa_Kill s)) as (err & hs & L1 & v & -> & HO1 & HL1 & HE1 & HI1 & HK1).
  { destruct (si_VolumeHandles i) as [hs0|] eqn:Ev.
    { eexists _, _, L, _. split; [reflexivity|]. split; [done|]. by split_and!. }
    destruct (OpenAndDismountVolumesForProcessId_holds L (owned L ++ []) (si_ProcessId i) 256 (sa_Find s) HO HF)
      as (err & hs & L1 & E & HS & HO1 & HR). rewrite E, bind_value. rewrite app_nil_r in HO1.
    assert (kill_ok L1 (sa_Kill s)) as HK1.
    { constructor; intros [Hr|(h & Eh & Hh)]%HR; try done. injection Eh as <-. done. }
    destruct ((ERROR_SUCCESS =? err) && negb (bool_decide (hs = [])) && sa_Alloc s) eqn:Ea.
    - eexists _, _, _, (Some hs). split; [reflexivity|]. destruct HS as [S1 S2 S3 S4].
      split; [|split_and!; [done|done|cbn; by rewrite S2|by destruct HK1]].
      rewrite !andb_true_iff in Ea. destruct Ea as [[Ee _] _]. zify_bools. subst err.
      change (ERROR_SUCCESS =? ERROR_SUCCESS) with true in HO1. cbv iota in HO1.
      unfold owns, owned in *.
      change (holds L1 ((instances_resources (<[a := i <| si_VolumeHandles := Some hs |>]> (SvcInstances L1)) ++
        kill_resources (KillProcessData L1)) ++ [])).
      rewrite S2, S4 in *. rewrite (instances_resources_update _ _ _ _ Hi).
      rewrite (instances_resources_take _ _ _ Hi) in HO1. eapply holds_proper; [|exact HO1].
      unfold instance_resources. cbn. rewrite Ev. cbn. solve_Permutation.
    - eexists _, _, L1, None. split; [reflexivity|]. split; [|by destruct HS as [? HS2 ? ?]; rewrite HS2; split_and!; try done; rewrite <- Ev].
      destruct (Z.eqb_spec err ERROR_SUCCESS) as [Ee|Ee].
      + apply (same_owns L); [done|]. eapply holds_proper; [|exact HO1]. apply Permutation_app_comm.
      + destruct (HU _ _ _ _ E) as [?| ->]; [done|]. apply (same_owns L); [done|]. by rewrite app_nil_r. }
  rewrite bind_value.
  assert (exists L2, (if (ERROR_SUCCESS =? err) || Forced then KillProcess L1 (si_ProcessId i) (si_Process i) (sa_Kill s)
    else Some L1) = Some L2 /\ same_instances L1 L2 /\ owns L2 (RHandle <$> hs)) as (L2 & -> & HS2 & HO2).
  { destruct (_ || _); [|by exists L1]. apply KillProcess_owns; [done| |done].
    apply elem_of_app. left. apply (instance_owned L1 a (i <| si_VolumeHandles := v |>)); [|set_solver].
    by rewrite HI1, lookup_insert_eq. }
  rewrite bind_value.
  destruct (holds_CloseHandles L2 (owned L2) hs) as (L3 & -> & HS3 & HO3 & _).
  { eapply holds_proper; [|exact HO2]. apply Permutation_app_comm. }
  rewrite bind_value. destruct HS2 as [S1 S2 S3], HS3 as [T1 T2 T3 T4].
  eexists _, L3, v. split; [reflexivity|]. split; [|split_and!; congruence].
  apply (same_owns L2); [done|]. by rewrite app_nil_r.
Qed.

(** ** A defect *)

Lemma release_Some r L L' : release r L = Some L' -> Resources L' = Resources L ∖ {[r]}.
Proof. unfold release. case_bool_decide; [|done]. by intros [= <-]. Qed.

(** Handles that were closed are not held any more. *)
Lemma CloseHandles_gone hs L L' h :
  CloseHandles hs L = Some L' -> (h ∈ hs \/ RHandle h ∉ Resources L) -> RHandle h ∉ Resources L'.
Proof.
  revert L. induction hs as [|h0 hs IH]; intros L; cbn [CloseHandles].
  - intros [= <-] [H%elem_of_nil|H]; done.
  - intros (L1 & H1%release_Some & E)%bind_Some Hor. apply (IH L1 E). rewrite H1.
    destruct Hor as [[->|H]%elem_of_cons|H]; [right|by left|right]; set_solver.
Qed.

(** When a volume of an instance is in use after another one was dismounted, a stop that is not
    forced closes the handles of the dismounted volumes twice: they are closed with the error, but
    the caller is told that there are as many. *)
Theorem kill_closes_twice L a i s err hs L' :
  SvcInstances L !! a = Some i -> si_VolumeHandles i = None ->
  OpenAndDismountVolumesForProcessId L (si_ProcessId i) 256 (sa_Find s) = Some (err, hs, L') ->
  err <> ERROR_SUCCESS -> hs <> [] -> SvcInstanceKill L a false s = None.
Proof.
  intros Hi Hv E He Hhs. unfold SvcInstanceKill. rewrite Hi, bind_value, Hv, E, bind_value.
  rewrite (proj2 (Z.eqb_neq ERROR_SUCCESS err)) by congruence. cbn [andb]. rewrite !bind_value.
  rewrite (proj2 (Z.eqb_neq ERROR_SUCCESS err)) by congruence. change (false || false) with false. cbv iota. rewrite bind_value.
  destruct hs as [|h hs]; [done|]. cbn [CloseHandles]. unfold CloseHandle, release.
  rewrite bool_decide_eq_false_2; [done|].
  unfold OpenAndDismountVolumesForProcessId in E. destruct (sa_Find s) as [e|vs]; [by injection E|].
  apply bind_Some in E as ([[hs' D] L1] & _ & E). apply bind_Some in E as (L2 & E & E2). injection E2 as <- -> ->.
  rewrite (proj2 (Z.eqb_neq ERROR_SUCCESS _)) in E by congruence. cbn [negb] in E.
  eapply CloseHandles_gone; [exact E|left; left].
Qed.

(** A volume of the process 7, whose lock fails or not. *)
Definition volume_of_7 (h : Z) (lock : bool) : VOLUME :=
  mkVolume
    (mkVolumeOwner (900, 0)
       (true, 0, [0; 0; 0; 0; 40; 0; 0; 0; 0; 0; 0; 0; 16; 0; 0; 0] ++ SPD_IOCTL_VENDOR_ID ++ [0])
       (true, 0, [0; 0; 0; 0; 36; 0; 0; 0; 1; 0; 0; 0] ++
          [1; 0; 0; 0; 0; 0; 0; 0; 8; 0; 24; 0; 0; 0; 0; 0; 80; 73; 68; 32; 0; 0; 0; 7]))
    (mkOpenVolume (h, 5) lock true ERROR_ACCESS_DENIED).

(** An instance of that process, with a volume that is dismounted and one that is in use. *)
Definition two_volumes : LAUNCHER :=
  mkLauncher [1000] {[1000 := mkSvcInstance 2 [99; 0] [105; 0] [97; 0] 500 false 7 16 32 None]} false ∅
    {[RHandle 16; RWait 32; RLocal 500]} [].

Lemma kill_closes_twice_witness :
  SvcInstanceKill two_volumes 1000 false
    (mkStopAnswers (inr [volume_of_7 40 true; volume_of_7 44 false]) true (mkKillAnswers true true 60 64)) = None.
Proof.
  eapply (kill_closes_twice two_volumes 1000 (mkSvcInstance 2 [99; 0] [105; 0] [97; 0] 500 false 7 16 32 None)
            _ ERROR_DEVICE_IN_USE [40] two_volumes); [reflexivity|reflexivity|vm_compute; reflexivity|done|done].
Defined.
