(* ===== verification/LauncherCreate.v ===== *)
(** * The creation and the end of an instance keep what the launcher owns *)

From S2P Require Import Prelude Wdk IoctlTypes Minimal MinimalProps StrToInt LaunchText LaunchTextProps Launcher.
From S2P Require Import LauncherInv.

#[local] Set Warnings "-clear-no-such-hyp".

(** ** Lookups *)

(** A pointer to a text. *)
Definition terminated (p : list Z) : Prop := exists t r, text t /\ p = t ++ 0 :: r.

Lemma terminated_length p : terminated p -> exists n, lstrlenW p = Some n.
Proof. intros (t & r & Ht%text_is_text & ->). by eexists; apply lstrlenW_text. Qed.

Lemma terminated_head p : terminated p -> exists c, p !! 0%nat = Some c /\ (c <> 0 -> exists c1, p !! 1%nat = Some c1).
Proof.
  intros (t & r & Ht & ->). destruct t as [|c t]; [by exists 0|]. exists c. split; [done|]. intros _.
  destruct t as [|c1 t]; [by exists 0|by exists c1].
Qed.

Lemma terminated_compare s t : terminated s -> terminated t -> exists v, invariant_wcsicmp s t = Some v.
Proof.
  intros (a & x & Ha & ->) (b & y & Hb & ->).
  destruct (strcmp_spec invariant_toupper a b x y toupper_converts Ha Hb) as (v & E & _). by exists v.
Qed.

Lemma pid_class_terminated : terminated pid_class.
Proof. exists [46; 112; 105; 100; 46], []. split; [|done]. repeat constructor; lia. Qed.

(** An instance with its handles and its texts. *)
Record instance_wf (i : SVC_INSTANCE) : Prop := {
  iw_Process : si_Process i <> 0;
  iw_Wait : si_ProcessWait i <> 0;
  iw_Security : si_SecurityDescriptor i <> 0;
  iw_ClassName : terminated (si_ClassName i);
  iw_InstanceName : terminated (si_InstanceName i);
  iw_CommandLine : exists n, lstrlenW (si_CommandLine i) = Some n
}.

(** The list has the instances, each once. *)
Record listed (L : LAUNCHER) : Prop := {
  li_NoDup : NoDup (SvcInstanceList L);
  li_In a : a ∈ SvcInstanceList L <-> is_Some (SvcInstances L !! a);
  li_wf a i : SvcInstances L !! a = Some i -> instance_wf i
}.

Lemma lookup_by_name_total l L c n :
  listed L -> (forall a, a ∈ l -> a ∈ SvcInstanceList L) -> terminated c -> terminated n ->
  exists r, lookup_by_name l L c n = Some r /\ (forall a, r = Some a -> a ∈ l).
Proof.
  intros HL Hl Hc Hn. induction l as [|a l IH]; cbn [lookup_by_name]; [by exists None|].
  destruct (proj1 (li_In L HL a)) as [i Hi]; [apply Hl; set_solver|]. rewrite Hi, bind_value.
  destruct (li_wf L HL a i Hi) as [_ _ _ H1 H2 _].
  destruct (terminated_compare c _ Hc H1) as [v ->]. rewrite bind_value.
  destruct IH as (r & E & Hr); [intros b Hb; apply Hl; set_solver|].
  assert (exists r, lookup_by_name l L c n = Some r /\ (forall b, r = Some b -> b ∈ a :: l)) as HIH.
  { exists r. split; [done|]. intros b Hb. specialize (Hr b Hb). set_solver. }
  destruct (0 =? v); [|done]. destruct (terminated_compare n _ Hn H2) as [w ->]. rewrite bind_value.
  destruct (0 =? w); [|done]. exists (Some a). split; [done|]. intros b [= <-]. set_solver.
Qed.

Lemma lookup_by_pid_total l L pid :
  listed L -> (forall a, a ∈ l -> a ∈ SvcInstanceList L) ->
  exists r, lookup_by_pid l L pid = Some r /\ (forall a, r = Some a -> a ∈ l).
Proof.
  intros HL Hl. induction l as [|a l IH]; cbn [lookup_by_pid]; [by exists None|].
  destruct (proj1 (li_In L HL a)) as [i Hi]; [apply Hl; set_solver|]. rewrite Hi, bind_value.
  destruct IH as (r & E & Hr); [intros b Hb; apply Hl; set_solver|].
  destruct (pid =? si_ProcessId i).
  - exists (Some a). split; [done|]. intros b [= <-]. set_solver.
  - exists r. split; [done|]. intros b Hb. specialize (Hr b Hb). set_solver.
Qed.

(** A class that stands for a process is followed by a number that does not overflow. *)
Definition pid_readable (c n : list Z) : Prop :=
  invariant_wcsicmp c pid_class = Some 0 -> exists r, wcstoint n 0 false = Some r.

Lemma SvcInstanceLookup_total L c n pid :
  listed L -> terminated c -> terminated n -> (pid = true -> pid_readable c n) ->
  exists r, SvcInstanceLookup L c n pid = Some r /\ (forall a, r = Some a -> a ∈ SvcInstanceList L).
Proof.
  intros HL Hc Hn Hp. unfold SvcInstanceLookup. destruct pid.
  - destruct (terminated_compare c _ Hc pid_class_terminated) as [v Ev]. rewrite Ev, !bind_value.
    destruct (Z.eqb_spec 0 v) as [<-|]; [|by apply lookup_by_name_total].
    destruct (Hp eq_refl Ev) as [[w q] ->]. rewrite bind_value. by apply lookup_by_pid_total.
  - rewrite bind_value. by apply lookup_by_name_total.
Qed.

(** ** The answers for a creation *)

(** A pointer to a text that is not longer than 32K characters: the buffers and the messages of the
    launcher are far smaller. *)
Definition short_text (p : list Z) : Prop :=
  exists t r, is_text t /\ Z.of_nat (length t) < 2 ^ 15 /\ p = t ++ 0 :: r.

(** The texts that the registry and the system give, and the arguments. *)
Record create_texts (Argv : list (list Z)) (a : CREATE_ANSWERS) : Prop := {
  ct_WorkDirectory : terminated (ca_WorkDirectory a).2;
  ct_Security : terminated (ca_Security a).2;
  ct_Module : terminated (pa_Module (ca_Process a));
  ct_Executable : short_text (ca_Executable a).2;
  ct_CommandLine : short_text (ca_CommandLine a).2;
  ct_Argv : Forall short_text Argv
}.

(** No percent sign of the template of the command line is the last character: every percent sign
    has the character that it stands before. *)
Definition template_complete (a : CREATE_ANSWERS) : Prop :=
  forall l r, Forall item_wf l -> (ca_CommandLine a).2 <> template_text l ++ 37 :: 0 :: r.

Lemma short_texts_arguments Argv :
  Forall short_text Argv -> exists Args, arguments Argv Args /\ Forall (fun t => Z.of_nat (length t) < 2 ^ 15) Args.
Proof.
  induction 1 as [|p Argv (t & r & Ht & Hl & ->) _ (Args & HA & HF)]; [by exists []; split; constructor|].
  exists (t :: Args). split; [|by constructor]. apply arguments_cons. split; [|done]. split; [done|by exists r].
Qed.

(** The file name of a program is cut at its last backslash. *)
Lemma last_backslash_text t r i f :
  is_text t -> (forall k, f = Some k -> (k < i)%nat) ->
  exists b, last_backslash (t ++ 0 :: r) i f = Some b /\ (forall k, b = Some k -> (k < i + length t)%nat).
Proof.
  intros Ht. revert i f. induction Ht as [|c t Hc Ht IH]; intros i f Hf; cbn [app last_backslash length].
  { exists f. split; [done|]. intros k Hk. apply Hf in Hk. lia. }
  rewrite (proj2 (Z.eqb_neq c 0)) by done.
  destruct (IH (S i) (if 92 =? c then Some i else f)) as (b & -> & Hb).
  { intros k. destruct (92 =? c); [intros [= <-]; lia|]. intros Hk. apply Hf in Hk. lia. }
  exists b. split; [done|]. intros k Hk. apply Hb in Hk. lia.
Qed.

Lemma module_directory_total p : terminated p -> exists d, module_directory p = Some d.
Proof.
  intros (t & r & Ht%text_is_text & ->). unfold module_directory.
  destruct (last_backslash_text t r 0 None Ht) as (b & -> & Hb); [done|]. rewrite bind_value.
  destruct b as [[|i]|]; [by eexists| |by eexists]. specialize (Hb (S i) eq_refl).
  destruct (lookup_lt_is_Some_2 (t ++ 0 :: r) i) as [c ->]; [rewrite length_app; simpl; lia|]. rewrite bind_value. by eexists.
Qed.

Lemma item_value_text Args i :
  Forall is_text Args -> item_wf i -> is_text (item_value Args i).
Proof.
  intros HA Hi. destruct i as [c|c|d]; cbn in *; [by apply Forall_singleton, Hi..|].
  constructor; [done|]. apply Forall_app. split; [|by apply Forall_singleton].
  apply Forall_forall. intros c. unfold unquoted. rewrite list_elem_of_filter. intros [_ Hc].
  destruct (Args !! Z.to_nat d) as [t|] eqn:E; [|by apply not_elem_of_nil in Hc].
  apply list_elem_of_lookup_2 in E. pose proof (proj1 (Forall_forall _ _) HA t E) as Ht.
  by apply (proj1 (Forall_forall _ _) Ht).
Qed.

Lemma item_value_length Args i :
  Forall (fun t => Z.of_nat (length t) < 2 ^ 15) Args -> Z.of_nat (length (item_value Args i)) <= 2 ^ 15 + 2.
Proof.
  intros HA. destruct i as [c|c|d]; cbn [item_value length]; [lia..|]. rewrite quoted_length.
  enough (Z.of_nat (length (unquoted (default [] (Args !! Z.to_nat d)))) <= 2 ^ 15) by lia.
  unfold unquoted. etrans; [apply inj_le, length_filter|].
  destruct (Args !! Z.to_nat d) as [t|] eqn:E; [|cbn; lia]. apply list_elem_of_lookup_2 in E.
  pose proof (proj1 (Forall_forall _ _) HA t E). cbn in *. lia.
Qed.

Lemma template_value_bounds Args l :
  Forall is_text Args -> Forall (fun t => Z.of_nat (length t) < 2 ^ 15) Args -> Forall item_wf l ->
  is_text (template_value Args l) /\
  Z.of_nat (length (template_value Args l)) <= (2 ^ 15 + 2) * Z.of_nat (length (template_text l)).
Proof.
  intros HT HL. induction 1 as [|i l Hi _ [IH1 IH2]]; [by split; [constructor|]|].
  unfold template_value, template_text in *. cbn [fmap list_fmap concat]. split.
  - apply Forall_app. split; [by apply item_value_text|done].
  - rewrite !length_app. pose proof (item_value_length Args i HL).
    assert (1 <= length (item_text i))%nat by (destruct i; cbn; lia). nia.
Qed.

(** A command line that is made from a complete template. *)
Lemma replace_arguments_total Argv Args l r Alloc :
  arguments Argv Args -> Forall (fun t => Z.of_nat (length t) < 2 ^ 15) Args ->
  Forall item_wf l -> Z.of_nat (length (template_text l)) < 2 ^ 15 + 3 ->
  exists err t, SvcInstanceReplaceArguments (template_text l ++ 0 :: r) Argv Alloc = Some (err, t) /\
    (err = ERROR_SUCCESS -> exists n, lstrlenW t = Some n).
Proof.
  intros HA HL Hl Hlen.
  assert (Forall is_text Args) as HT.
  { apply Forall_forall. intros t (k & Hk)%list_elem_of_lookup.
    by destruct (Forall2_lookup_r _ _ _ _ _ HA Hk) as (p & _ & Ht & _). }
  destruct (template_value_bounds Args l HT HL Hl) as [Ht Hb].
  assert (replace_length Argv (template_text l ++ 0 :: r) 0 = Some (Z.of_nat (length (template_value Args l)))) as E.
  { change 0 with (u32 0) at 2. erewrite replace_length_template by done. cbn. f_equal. apply u32_small. lia. }
  unfold SvcInstanceReplaceArguments. rewrite E, bind_value. destruct Alloc; cbn [negb]; [|by eexists _, _].
  rewrite u32_small by lia. erewrite replace_copy_template by (done || lia).
  cbn [replace_copy]. change (0 =? 0) with true. cbv iota.
  rewrite put_chars_Some by (cbn [length]; lia). rewrite !bind_value. eexists _, _. split; [done|].
  intros _. eexists. by apply lstrlenW_text.
Qed.

Lemma create_command_line Argv a :
  create_texts Argv a -> template_complete a ->
  exists err t, SvcInstanceReplaceArguments (class_command_line (ca_CommandLine a))
    ((ca_Executable a).2 :: take 9 Argv) (ca_AllocCommandLine a) = Some (err, t) /\
    (err = ERROR_SUCCESS -> exists n, lstrlenW t = Some n).
Proof.
  intros [_ _ _ HE (t & r & Ht & Hl & HC) HA] Hcomp.
  destruct (short_texts_arguments ((ca_Executable a).2 :: take 9 Argv)) as (Args & HAr & HLs).
  { constructor; [done|]. by apply Forall_take. }
  unfold class_command_line. destruct (_ =? _).
  - apply (replace_arguments_total _ Args [Argument 0] [] (ca_AllocCommandLine a) HAr HLs); [|cbn; lia].
    by apply Forall_singleton.
  - destruct (template_exists t Ht) as (l & Hwf & [->| ->]).
    + rewrite HC. apply (replace_arguments_total _ Args ([Argument 0; Char 32] ++ l) r (ca_AllocCommandLine a) HAr HLs).
      * constructor; [done|]. by constructor.
      * unfold template_text in *. cbn [app fmap list_fmap concat item_text length]. lia.
    + exfalso. apply (Hcomp l r Hwf). rewrite HC. by rewrite <- app_assoc.
Qed.

(** A call that fails has an error. *)
Record create_errors (a : CREATE_ANSWERS) : Prop := {
  ce_Convert s : (ca_Convert a s).1 = 0 -> (ca_Convert a s).2 <> ERROR_SUCCESS;
  ce_Access : (ca_Access a).2 <> ERROR_SUCCESS;
  ce_Rights : ra_FirstError (ca_Rights a) <> ERROR_SUCCESS /\ ra_SecondError (ca_Rights a) <> ERROR_SUCCESS;
  ce_Process : pa_CreateError (ca_Process a) <> ERROR_SUCCESS /\ pa_ModuleError (ca_Process a) <> ERROR_SUCCESS;
  ce_Register : (ca_Register a).1 = 0 -> (ca_Register a).2 <> ERROR_SUCCESS
}.

(** What is new is new. *)
Record process_fresh (L : LAUNCHER) (a : CREATE_ANSWERS) : Prop := {
  pf_Process : (RHandle (pi_Process (pa_Info (ca_Process a))) ∉ Resources L) /\ pi_Process (pa_Info (ca_Process a)) <> 0;
  pf_Thread : (RHandle (pi_Thread (pa_Info (ca_Process a))) ∉ Resources L) /\ pi_Thread (pa_Info (ca_Process a)) <> 0 /\
    pi_Process (pa_Info (ca_Process a)) <> pi_Thread (pa_Info (ca_Process a));
  pf_Register : RWait (ca_Register a).1 ∉ Resources L;
  pf_Instance : SvcInstances L !! ca_Instance a = None
}.

Record create_fresh (L : LAUNCHER) (a : CREATE_ANSWERS) : Prop := {
  cf_Convert s : (RLocal (ca_Convert a s).1 ∉ Resources L) /\ (ca_Convert a s).1 <> ra_NewDescriptor (ca_Rights a);
  cf_Rights : (RLocal (ra_NewDescriptor (ca_Rights a)) ∉ Resources L) /\ ra_NewDescriptor (ca_Rights a) <> 0;
  cf_Process : process_fresh L a
}.

Lemma reg_text_terminated v : terminated v.2 -> terminated (reg_text v).
Proof.
  intros Hv. unfold reg_text. destruct (ERROR_SUCCESS =? v.1); [done|]. exists [], []. split; [constructor|done].
Qed.

Lemma class_security_total s : terminated s -> exists t, class_security s = Some t.
Proof.
  intros Hs. unfold class_security. destruct (terminated_head s Hs) as (c & -> & Hc). rewrite bind_value.
  destruct (Z.eqb_spec 0 c) as [<-|Hne].
  - change (SPD_LAUNCH_SERVICE_DEFAULT_SDDL !! 0%nat) with (Some 68). rewrite bind_value.
    change (SPD_LAUNCH_SERVICE_DEFAULT_SDDL !! 1%nat) with (Some 58). by eexists.
  - destruct Hc as [c1 Hc1]; [congruence|]. destruct (terminated_head s Hs) as (c' & -> & _). rewrite bind_value.
    destruct (68 =? c'); [|by eexists]. rewrite Hc1, bind_value. by eexists.
Qed.

(** ** The code at the end of a failed creation *)

Definition if_nonzero (v : Z) (r : RESOURCE) : list RESOURCE := if v =? 0 then [] else [r].

Definition process_resources (i : option SVC_INSTANCE) : list RESOURCE :=
  match i with
  | Some i => if_nonzero (si_ProcessWait i) (RWait (si_ProcessWait i)) ++
              if_nonzero (si_Process i) (RHandle (si_Process i))
  | None => []
  end.

(** A resource that may be missing. *)
Lemma holds_release_nonzero L v r O (f : LAUNCHER -> option LAUNCHER) :
  f = release r -> holds L (if_nonzero v r ++ O) ->
  exists L', (if negb (0 =? v) then f L else Some L) = Some L' /\ same L L' /\ holds L' O.
Proof.
  intros -> HO. rewrite (Z.eqb_sym 0 v). unfold if_nonzero in HO. destruct (v =? 0); cbn [negb app] in *.
  - by exists L.
  - destruct (holds_release _ _ _ HO) as (L' & -> & HS & HO' & _). by exists L'.
Qed.

Lemma create_exit_owns L err sd th i X :
  sd <> 0 -> owns L (RLocal sd :: if_nonzero th (RHandle th) ++ process_resources i ++ X) ->
  exists L', create_exit L err sd th i = Some (err, 0, L') /\ same L L' /\ owns L' X.
Proof.
  intros Hsd HO. unfold create_exit, LocalFree. rewrite (proj2 (Z.eqb_neq 0 sd)) by congruence.
  assert (holds L (RLocal sd :: if_nonzero th (RHandle th) ++ process_resources i ++ X ++ owned L)) as HO0.
  { eapply holds_proper; [|exact HO]. solve_Permutation. }
  destruct (holds_release _ _ _ HO0) as (L1 & -> & HS1 & HO1 & _). rewrite bind_value.
  destruct (holds_release_nonzero L1 th (RHandle th) _ (CloseHandle th) eq_refl HO1) as (L2 & -> & HS2 & HO2).
  rewrite bind_value. assert (same L L2) as HS by (by etrans).
  assert (forall L', holds L' (X ++ owned L) -> same L L' -> owns L' X) as Hend.
  { intros L' HO' HS'. apply (same_owns L); [done|]. eapply holds_proper; [|exact HO']. apply Permutation_app_comm. }
  destruct i as [i|]; cbn [process_resources] in HO2.
  2: { rewrite bind_value. exists L2. split_and!; try done. by apply Hend. }
  rewrite <- app_assoc in HO2.
  destruct (holds_release_nonzero L2 _ _ _ (UnregisterWait (si_ProcessWait i)) eq_refl HO2) as (L3 & -> & HS3 & HO3).
  rewrite bind_value. assert (same L L3) as HS' by (by etrans).
  unfold if_nonzero in HO3. rewrite (Z.eqb_sym 0 (si_Process i)). destruct (si_Process i =? 0); cbn [negb app] in *.
  { rewrite bind_value. exists L3. split_and!; try done. by apply Hend. }
  destruct (holds_TerminateProcess L3 _ (si_Process i) HO3) as (L4 & -> & HS4 & HO4 & _); [set_solver|].
  rewrite bind_value. destruct (holds_release _ _ _ HO4) as (L5 & E5 & HS5 & HO5 & _).
  unfold CloseHandle. rewrite E5, bind_value.
  assert (same L L5) as HS'' by (etrans; [exact HS'|]; by etrans).
  exists L5. split_and!; try done. by apply Hend.
Qed.

(** ** The creation *)

Lemma add_user_rights L a :
  ra_FirstError a <> ERROR_SUCCESS -> ra_SecondError a <> ERROR_SUCCESS ->
  (exists err, SvcInstanceAddUserRights L a = (err, 0, L) /\ err <> ERROR_SUCCESS) \/
  SvcInstanceAddUserRights L a = (ERROR_SUCCESS, ra_NewDescriptor a, acquire (RLocal (ra_NewDescriptor a)) L).
Proof.
  intros H1 H2. unfold SvcInstanceAddUserRights.
  destruct (ra_First a); [left; by eexists|]. destruct (negb (_ =? ra_FirstError a)); [left; by eexists|].
  destruct (negb (ra_Alloc a)); [left; by eexists|]. destruct (negb (ra_Second a)); [left; by eexists|].
  destruct (Z.eqb_spec ERROR_SUCCESS (ra_Build a)) as [E|E]; cbn [negb]; [by right|left].
  eexists. split; [done|congruence].
Qed.

(** The security: either there is an error, or the descriptor is the launcher's, and the answers
    that follow are still new. *)
Lemma create_secured_owns L client sd a :
  owns L [RLocal sd] -> sd <> 0 -> create_errors a ->
  RLocal (ra_NewDescriptor (ca_Rights a)) ∉ Resources L -> ra_NewDescriptor (ca_Rights a) <> 0 ->
  exists err sd' L', create_secured L client sd a = Some (err, sd', L') /\ same L L' /\ owns L' [RLocal sd'] /\
    sd' <> 0 /\ (forall r, r ∈ Resources L' -> r ∈ Resources L \/ r = RLocal (ra_NewDescriptor (ca_Rights a))).
Proof.
  intros HO Hsd [_ Hacc [Hr1 Hr2] _ _] Hf Hn0. unfold create_secured.
  assert (forall err : Z, exists (err' sd' : Z) L', Some (err, sd, L) = Some (err', sd', L') /\ same L L' /\ owns L' [RLocal sd'] /\
    sd' <> 0 /\ (forall r, r ∈ Resources L' -> r ∈ Resources L \/ r = RLocal (ra_NewDescriptor (ca_Rights a)))) as Hsame.
  { intros err. exists err, sd, L. split_and!; try done. by left. }
  destruct client; [|apply Hsame]. destruct (negb _); [apply Hsame|].
  destruct (add_user_rights L (ca_Rights a) Hr1 Hr2) as [(err & -> & He)| ->].
  { rewrite (proj2 (Z.eqb_neq ERROR_SUCCESS err)) by congruence. apply Hsame. }
  change (negb (ERROR_SUCCESS =? ERROR_SUCCESS)) with false. cbv iota.
  pose proof (owns_acquire L _ _ HO Hf) as HO1. set (L1 := acquire _ L) in *.
  unfold LocalFree. rewrite (proj2 (Z.eqb_neq 0 sd)) by congruence.
  destruct (holds_release L1 (RLocal (ra_NewDescriptor (ca_Rights a)) :: owned L1) (RLocal sd))
    as (L2 & -> & HS2 & HO2 & HR2); [eapply holds_proper; [|exact HO1]; solve_Permutation|].
  rewrite bind_value. eexists _, _, L2. split; [reflexivity|]. split; [destruct HS2; by constructor|].
  split; [|split; [done|]].
  - apply (same_owns L1); [done|]. eapply holds_proper; [|exact HO2]. solve_Permutation.
  - intros r Hr. rewrite HR2 in Hr. apply elem_of_difference in Hr as [Hr _].
    change (r ∈ {[RLocal (ra_NewDescriptor (ca_Rights a))]} ∪ Resources L) in Hr. set_solver.
Qed.

(** What a creation does: there is an error, and all is as before, or there is a new instance with
    two references. *)
Definition created (L : LAUNCHER) (a : CREATE_ANSWERS) (err addr : Z) (L' : LAUNCHER) : Prop :=
  owns L' [] /\ KillProcessData L' = KillProcessData L /\
  ((err <> ERROR_SUCCESS /\ same L L') \/
   (err = ERROR_SUCCESS /\ addr = ca_Instance a /\ SvcInstances L !! addr = None /\
    SvcInstanceList L' = SvcInstanceList L ++ [addr] /\ SvcInstanceEvent L' = false /\
    exists i, SvcInstances L' = <[addr := i]> (SvcInstances L) /\ instance_wf i /\ si_RefCount i = 2)).

Lemma created_error L L0 a err L' : same L L0 -> err <> ERROR_SUCCESS -> same L0 L' -> owns L' [] -> created L a err 0 L'.
Proof.
  intros HS He HS' HO. assert (same L L') as HS'' by (by etrans). split; [done|]. split; [by destruct HS''|].
  left. by split.
Qed.

Lemma create_instance_owns L sd c n Argv Job a :
  owns L [RLocal sd] -> sd <> 0 -> terminated c -> terminated n -> create_errors a ->
  process_fresh L a -> create_texts Argv a -> template_complete a ->
  exists err addr L', create_instance L sd c n ((ca_Executable a).2 :: take 9 Argv) Job a = Some (err, addr, L') /\
    created L a err addr L'.
Proof.
  intros HO Hsd Hc Hn [_ _ _ [Hp1 Hp2] Hreg] [[HP HP0] (HT & HT0 & HPT) HR HI] Htx Hcomp.
  pose proof Htx as [Hdir _ Hmod%module_directory_total _ _ _].
  pose proof (create_command_line Argv a Htx Hcomp) as Hcmd.
  unfold create_instance.
  assert (forall L1 err th i, err <> ERROR_SUCCESS -> same L L1 ->
    owns L1 (RLocal sd :: if_nonzero th (RHandle th) ++ process_resources i ++ []) ->
    exists err' addr L', create_exit L1 err sd th i = Some (err', addr, L') /\ created L a err' addr L') as Hexit.
  { intros L1 err th i He HS HO1. destruct (create_exit_owns L1 err sd th i [] Hsd HO1) as (L' & -> & HS' & HO').
    eexists _, _, L'. split; [reflexivity|]. by eapply created_error. }
  destruct (Z.eqb_spec 0 (ca_Instance a)) as [E0|E0]; [by apply Hexit|].
  destruct (terminated_length c Hc) as [nc Hnc]. destruct (terminated_length n Hn) as [nn Hnn].
  rewrite Hnc, bind_value, Hnn, bind_value.
  destruct Hcmd as (e & t & -> & Ht). rewrite bind_value.
  destruct (Z.eqb_spec ERROR_SUCCESS e) as [<-|Ee]; cbn [negb].
  2: { apply Hexit; [congruence|done|]. exact HO. }
  specialize (Ht eq_refl).
  pose proof (reg_text_terminated _ Hdir) as Hdt.
  destruct (terminated_head _ Hdt) as (c0 & -> & Hc0). rewrite bind_value.
  (* the process *)
  unfold SvcInstanceCreateProcess.
  assert (exists dot, match (if negb (0 =? c0) then Some (reg_text (ca_WorkDirectory a)) else None) with
    | Some p => is_dot p | None => Some false end = Some dot) as [dot ->].
  { destruct (Z.eqb_spec 0 c0) as [E|E]; cbn [negb]; [by eexists|]. unfold is_dot.
    destruct (terminated_head _ Hdt) as (c1 & E1 & H1). rewrite E1, bind_value.
    destruct (Z.eqb_spec 46 c1) as [<-|]; [|by eexists]. destruct H1 as [c2 ->]; [done|]. rewrite bind_value. by eexists. }
  rewrite bind_value.
  destruct (dot && (0 =? pa_ModuleLength (ca_Process a))).
  { rewrite bind_value. rewrite (proj2 (Z.eqb_neq ERROR_SUCCESS (pa_ModuleError (ca_Process a)))) by congruence. cbn [negb].
    apply Hexit; [done|done|exact HO]. }
  assert (exists d, (if dot : bool then d ← module_directory (pa_Module (ca_Process a)); Some (Some d)
    else Some (if negb (0 =? c0) then Some (reg_text (ca_WorkDirectory a)) else None)) = Some d) as [d ->].
  { destruct dot; [|by eexists]. destruct Hmod as [d ->]. rewrite bind_value. by eexists. }
  rewrite bind_value. destruct (pa_Create (ca_Process a)); cbn [negb].
  2: { rewrite bind_value. rewrite (proj2 (Z.eqb_neq ERROR_SUCCESS (pa_CreateError (ca_Process a)))) by congruence. cbn [negb].
       apply Hexit; [done|done|exact HO]. }
  rewrite bind_value. change (negb (ERROR_SUCCESS =? ERROR_SUCCESS)) with false. cbv iota.
  set (info := pa_Info (ca_Process a)) in *.
  pose proof (owns_acquire L _ _ HO HP) as HO1. set (L1 := acquire (RHandle (pi_Process info)) L) in *.
  assert (RHandle (pi_Thread info) ∉ Resources L1) as HT1.
  { change (RHandle (pi_Thread info) ∉ {[RHandle (pi_Process info)]} ∪ Resources L). set_solver. }
  pose proof (owns_acquire L1 _ _ HO1 HT1) as HO2. set (L2 := acquire (RHandle (pi_Thread info)) L1) in *.
  destruct (ca_Register a) as [w e2]. cbn [fst snd] in *.
  destruct (Z.eqb_spec 0 w) as [<-|Hw].
  { apply Hexit; [by apply Hreg|done|]. eapply owns_proper; [|exact HO2]. unfold process_resources. cbn. unfold if_nonzero.
    rewrite (proj2 (Z.eqb_neq (pi_Thread info) 0)), (proj2 (Z.eqb_neq (pi_Process info) 0)) by done. cbn. solve_Permutation. }
  assert (RWait w ∉ Resources L2) as HR2.
  { change (RWait w ∉ {[RHandle (pi_Thread info)]} ∪ ({[RHandle (pi_Process info)]} ∪ Resources L)). set_solver. }
  pose proof (owns_acquire L2 _ _ HO2 HR2) as HO3. set (L3 := acquire (RWait w) L2) in *.
  set (i := _ <| si_ProcessWait := w |>).
  set (L4 := emit (Resume (pi_Thread info)) _).
  assert (owns L4 [RWait w; RHandle (pi_Thread info); RHandle (pi_Process info); RLocal sd] /\ same L L4) as [HO4 HS4].
  { subst L4. by destruct (_ && _). }
  clearbody L4.
  destruct (holds_release L4 (owned L4 ++ [RWait w; RHandle (pi_Process info); RLocal sd]) (RHandle (pi_Thread info)))
    as (L5 & E5 & HS5 & HO5 & _); [eapply holds_proper; [|exact HO4]; solve_Permutation|].
  unfold CloseHandle. rewrite E5, bind_value.
  assert (same L L5) as [S1 S2 S3 S4] by (by etrans).
  eexists _, _, _. split; [reflexivity|]. split; [|split; [exact S4|]].
  - unfold owns, owned.
    change (holds L5 ((instances_resources (<[ca_Instance a := i]> (SvcInstances L5)) ++
      kill_resources (KillProcessData L5)) ++ [])).
    rewrite instances_resources_insert by (rewrite S2; done).
    destruct HS5 as [_ T2 _ T4]. rewrite T2, T4. eapply holds_proper; [|exact HO5].
    unfold owned, instance_resources. cbn. solve_Permutation.
  - right. split; [done|]. split; [done|]. split; [done|].
    split; [change (SvcInstanceList L5 ++ [ca_Instance a] = SvcInstanceList L ++ [ca_Instance a]); by rewrite S1|].
    split; [done|]. exists i.
    split; [change (<[ca_Instance a := i]> (SvcInstances L5) = <[ca_Instance a := i]> (SvcInstances L)); by rewrite S2|].
    split; [|done]. destruct Hc as (tc & rc & Htc & ->). destruct Hn as (tn & rn & Htn & ->).
    rewrite lstrlenW_text in Hnc by (by apply text_is_text). injection Hnc as <-.
    rewrite lstrlenW_text in Hnn by (by apply text_is_text). injection Hnn as <-.
    constructor; try done; try (by intros ->);
      [exists tc, []|exists tn, []]; (split; [done|]); apply take_text.
Qed.

Lemma reg_failed_error e : reg_failed e = true -> e <> ERROR_SUCCESS.
Proof. unfold reg_failed. intros [H _]%andb_true_iff ->. by rewrite Z.eqb_refl in H. Qed.

Lemma SvcInstanceCreate_owns L client ext c n Argv Job a :
  owns L [] -> listed L -> terminated c -> terminated n ->
  create_errors a -> create_fresh L a -> create_texts Argv a -> template_complete a ->
  exists err addr L', SvcInstanceCreate L client ext c n Argv Job a = Some (err, addr, L') /\
    created L a err addr L'.
Proof.
  intros HO HL Hc Hn He Hf Ht Hcomp. unfold SvcInstanceCreate.
  assert (forall err, err <> ERROR_SUCCESS -> exists err' addr L', Some (err, 0, L) = Some (err', addr, L') /\
    created L a err' addr L') as Hexit.
  { intros err Herr. eexists _, _, L. split; [reflexivity|]. by eapply created_error. }
  destruct (terminated_compare c _ Hc pid_class_terminated) as [v ->]. rewrite bind_value.
  destruct (0 =? v); [by apply Hexit|].
  destruct (SvcInstanceLookup_total L c n false HL Hc Hn) as (r & -> & _); [done|]. rewrite bind_value.
  destruct r as [x|]; [by apply Hexit|].
  destruct (Z.eqb_spec ERROR_SUCCESS (ca_RegOpen a)) as [_|E]; cbn [negb]; [|apply Hexit; congruence].
  destruct (Z.eqb_spec ERROR_SUCCESS (ca_Executable a).1) as [_|E]; cbn [negb]; [|apply Hexit; congruence].
  destruct (reg_failed (ca_CommandLine a).1) eqn:E1; [by apply Hexit, reg_failed_error|].
  destruct (reg_failed (ca_WorkDirectory a).1) eqn:E2; [by apply Hexit, reg_failed_error|].
  destruct (reg_failed (ca_Security a).1) eqn:E3; [by apply Hexit, reg_failed_error|].
  destruct (reg_failed (ca_JobControl a).1) eqn:E4; [by apply Hexit, reg_failed_error|].
  destruct (class_security_total (reg_text (ca_Security a))) as [s ->].
  { apply reg_text_terminated. by destruct Ht. }
  rewrite bind_value. set (s' := match ext with Some s => s | None => s end).
  pose proof (ce_Convert a He s') as Hce. destruct (cf_Convert L a Hf s') as [Hc1 Hc2].
  destruct (ca_Convert a s') as [sd e]. cbn [fst snd] in *.
  destruct (Z.eqb_spec 0 sd) as [<-|Hsd]; [by apply Hexit, Hce|].
  pose proof (owns_acquire L [] (RLocal sd) HO Hc1) as HO1. set (L1 := acquire (RLocal sd) L) in *.
  assert (RLocal (ra_NewDescriptor (ca_Rights a)) ∉ Resources L1) as HR1.
  { change (RLocal (ra_NewDescriptor (ca_Rights a)) ∉ {[RLocal sd]} ∪ Resources L).
    destruct (cf_Rights L a Hf) as [H _]. set_solver. }
  destruct (create_secured_owns L1 client sd a HO1 ltac:(congruence) He HR1 (proj2 (cf_Rights L a Hf)))
    as (err & sd' & L2 & -> & HS2 & HO2 & Hsd' & HR2). rewrite bind_value.
  assert (same L L2) as HS by (destruct HS2; by constructor).
  destruct (Z.eqb_spec ERROR_SUCCESS err) as [_|E]; cbn [negb].
  2: { destruct (create_exit_owns L2 err sd' 0 None [] Hsd' HO2) as (L' & -> & HS' & HO').
       eexists _, _, L'. split; [reflexivity|]. eapply created_error; try done. }
  assert (process_fresh L2 a) as Hf2.
  { assert (forall r, r ∉ Resources L -> (forall p, r <> RLocal p) -> r ∉ Resources L2) as Hn2.
    { intros r Hr H1 [H2|H2]%HR2; [|by eapply H1]. change (r ∈ {[RLocal sd]} ∪ Resources L) in H2.
      apply elem_of_union in H2 as [->%elem_of_singleton|H2]; [by eapply H1|done]. }
    destruct Hf as [_ _ [[Hf1 Hf2] (Hf3 & Hf4) Hf5 Hf6]].
    constructor; [split; [by apply Hn2|done]|split; [by apply Hn2|done]|by apply Hn2|by rewrite (same_Instances _ _ HS)]. }
  destruct (create_instance_owns L2 sd' c n Argv Job a HO2 Hsd' Hc Hn He Hf2 Ht Hcomp) as (err' & addr & L' & -> & HC).
  eexists _, _, L'. split; [reflexivity|]. destruct HC as (HO' & HK & Hor). destruct HS as [S1 S2 S3 S4].
  split; [done|]. split; [congruence|]. destruct Hor as [[Herr [T1 T2 T3 T4]]|(-> & -> & HN & HLs & HE & i & HI & Hwf & Hrc)].
  - left. split; [done|]. constructor; congruence.
  - right. split_and!; try done; [by rewrite <- S2|by rewrite HLs, S1|]. exists i. by rewrite HI, S2.
Qed.

(** ** The end *)

(** The last reference. *)
Lemma release_last_owns L a i :
  owns L [] -> listed L -> SvcInstances L !! a = Some i ->
  exists L', release_last L a = Some L' /\ owns L' [] /\ KillProcessData L' = KillProcessData L /\
    SvcInstances L' = delete a (SvcInstances L) /\
    SvcInstanceList L' = filter (fun b => b <> a) (SvcInstanceList L) /\
    SvcInstanceEvent L' = (if bool_decide (SvcInstanceList L' = []) then true else SvcInstanceEvent L).
Proof.
  intros HO HL Hi. destruct (li_wf L HL a i Hi) as [HP HW HS _ _ _]. unfold release_last. rewrite Hi, bind_value.
  set (l := filter (fun b => b <> a) (SvcInstanceList L)).
  set (L1 := if bool_decide (l = []) then _ else _).
  set (O := instances_resources (delete a (SvcInstances L)) ++ kill_resources (KillProcessData L)).
  assert (holds L1 ((RHandle <$> default [] (si_VolumeHandles i)) ++ RWait (si_ProcessWait i) ::
    RHandle (si_Process i) :: RLocal (si_SecurityDescriptor i) :: O)) as HO1.
  { assert (Resources L1 = Resources L) as HR by (subst L1; by destruct (bool_decide _)).
    unfold holds. rewrite HR. unfold owns, owned in HO. rewrite (instances_resources_take _ _ _ Hi) in HO.
    etrans; [exact HO|]. subst O. unfold instance_resources. solve_Permutation. }
  assert (exists L2, match si_VolumeHandles i with Some Handles => CloseHandles Handles L1 | None => Some L1 end = Some L2 /\
    same L1 L2 /\ holds L2 (RWait (si_ProcessWait i) :: RHandle (si_Process i) :: RLocal (si_SecurityDescriptor i) :: O))
    as (L2 & -> & HS2 & HO2).
  { destruct (si_VolumeHandles i) as [hs|]; [|by exists L1].
    destruct (holds_CloseHandles L1 _ hs HO1) as (L2 & ? & ? & ? & _). by exists L2. }
  rewrite bind_value. rewrite (proj2 (Z.eqb_neq 0 (si_ProcessWait i))), (proj2 (Z.eqb_neq 0 (si_Process i))) by congruence.
  cbn [negb]. destruct (holds_release _ _ _ HO2) as (L3 & E3 & HS3 & HO3 & _).
  destruct (holds_release _ _ _ HO3) as (L4 & E4 & HS4 & HO4 & _).
  destruct (holds_release _ _ _ HO4) as (L5 & E5 & HS5 & HO5 & _).
  unfold UnregisterWait, CloseHandle, LocalFree. rewrite (proj2 (Z.eqb_neq 0 (si_SecurityDescriptor i))) by congruence.
  rewrite E3, bind_value, E4, bind_value, E5, bind_value.
  assert (same L1 L5) as [S1 S2 S3 S4] by (etrans; [exact HS2|]; etrans; [exact HS3|]; by etrans).
  assert (SvcInstances L1 = SvcInstances L /\ KillProcessData L1 = KillProcessData L /\ SvcInstanceList L1 = l /\
    SvcInstanceEvent L1 = if bool_decide (l = []) then true else SvcInstanceEvent L) as (U1 & U2 & U3 & U4).
  { subst L1. by destruct (bool_decide _). }
  eexists. split; [reflexivity|].
  change (owns (L5 <| SvcInstances := delete a (SvcInstances L5) |>) [] /\ KillProcessData L5 = KillProcessData L /\
    delete a (SvcInstances L5) = delete a (SvcInstances L) /\ SvcInstanceList L5 = l /\
    SvcInstanceEvent L5 = if bool_decide (SvcInstanceList L5 = []) then true else SvcInstanceEvent L).
  rewrite S1, S2, S3, S4, U1, U2, U3, U4. split_and!; try done.
  unfold owns, owned. change (holds L5 ((instances_resources (delete a (SvcInstances L)) ++
    kill_resources (KillProcessData L5)) ++ [])). rewrite S4, U2, app_nil_r. exact HO5.
Qed.
