(* ===== verification/LauncherRun.v ===== *)
(** * The threads of the launcher

    The thread of the pipe's server, the one that starts the persistent instances and the callbacks
    of the waits for processes share the instances.  A step is what one of them does in a critical
    section or in one atomic operation; what a thread still has to do is in the state.  No step
    ever uses or releases what the launcher does not have, and nothing is left in the end, but for
    three cases that the code does not handle.  And what the launcher keeps of a persistent instance
    is what it starts again. *)

From S2P Require Import Prelude Wdk IoctlTypes Minimal MinimalProps StrToInt LaunchText LaunchTextProps Launcher.
From S2P Require Import LauncherInv LauncherCreate.

#[local] Set Warnings "-clear-no-such-hyp".

(** ** Steps *)

(** The launcher, the instances that a thread that has created them still refers to, those whose
    process has not ended, and those that are to be freed. *)
Record SYSTEM := mkSystem {
  sy_Launcher : LAUNCHER; creators : gset Z; running : gset Z; freeing : gset Z
}.

Inductive ACTION :=
  | ACreate (ClientToken : bool) (ExternalSecurity : option (list Z)) (ClassName InstanceName : list Z)
      (Argv : list (list Z)) (Job : Z) (a : CREATE_ANSWERS)
  | APersist (SvcInstance : Z) (Argv : list (list Z)) (p : PERSISTENT_ANSWERS)
  | ARelease (SvcInstance : Z)
  | ATerminated (SvcInstance : Z)
  | AFree (SvcInstance : Z)
  | AStop (ClassName InstanceName : list Z) (Forced : bool) (Access : bool * bool * Z) (s : STOP_ANSWERS)
      (d : Z * Z * Z)
  | AStopAll (answers : Z -> STOP_ANSWERS)
  | AKillWait (ProcessWait : Z) (Timeout : bool)
  | AGetInfo (ClassName InstanceName : list Z) (Access : bool * bool * Z) (Size : Z)
  | AGetNameList (Size : Z).

Definition with_launcher (S : SYSTEM) (L : LAUNCHER) : SYSTEM := mkSystem L (creators S) (running S) (freeing S).

Definition system_step (S : SYSTEM) (o : ACTION) : option SYSTEM :=
  let L := sy_Launcher S in
  match o with
  | ACreate t e c n Argv Job a =>
      '(err, i, L) ← SvcInstanceCreate L t e c n Argv Job a;
      Some (if err =? ERROR_SUCCESS then mkSystem L ({[i]} ∪ creators S) ({[i]} ∪ running S) (freeing S)
            else with_launcher S L)
  | APersist i Argv p => L ← start_finish L i Argv p; Some (with_launcher S L)
  | ARelease i =>
      '(last, L) ← release_count L i;
      Some (mkSystem L (creators S ∖ {[i]}) (running S) (if (last : bool) then {[i]} ∪ freeing S else freeing S))
  | ATerminated i =>
      '(last, L) ← release_count L i;
      Some (mkSystem L (creators S) (running S ∖ {[i]}) (if (last : bool) then {[i]} ∪ freeing S else freeing S))
  | AFree i => L ← release_last L i; Some (mkSystem L (creators S) (running S) (freeing S ∖ {[i]}))
  | AStop c n Forced Access s d => '(_, L) ← SvcInstanceStop L c n Forced Access s d; Some (with_launcher S L)
  | AStopAll answers => L ← SvcInstanceStopAndWaitAll L answers; Some (with_launcher S L)
  | AKillWait w Timeout => L ← KillProcessWait L w Timeout; Some (with_launcher S L)
  | AGetInfo c n Access Size => _ ← SvcInstanceGetInfo L c n Access Size; Some S
  | AGetNameList Size => _ ← SvcInstanceGetNameList L Size; Some S
  end.

(** A condition on the answers for the instances, one after the other. *)
Fixpoint stop_all_each (P : LAUNCHER -> STOP_ANSWERS -> Prop) (l : list Z) (L : LAUNCHER)
    (answers : Z -> STOP_ANSWERS) : Prop :=
  match l with
  | [] => True
  | a :: l =>
      P L (answers a) /\
      forall err L', SvcInstanceKill L a true (answers a) = Some (err, L') -> stop_all_each P l L' answers
  end.

(** The arguments and the security that are kept in the registry. *)
Definition persistent_ok (Argv : list (list Z)) (p : PERSISTENT_ANSWERS) : Prop :=
  Forall short_text Argv /\ (length Argv <= 9)%nat /\ forall s, pe_Security p = Some s -> short_text s.

(** A step that a thread can make, with texts that have terminators and answers that are as
    documented: what is new is new, and a call that fails has an error. *)
Definition enabled (S : SYSTEM) (o : ACTION) : Prop :=
  let L := sy_Launcher S in
  match o with
  | ACreate _ _ c n Argv _ a =>
      terminated c /\ terminated n /\ create_errors a /\ create_fresh L a /\ create_texts Argv a
  | APersist i Argv p => i ∈ creators S /\ persistent_ok Argv p
  | ARelease i => i ∈ creators S
  | ATerminated i => i ∈ running S
  | AFree i => i ∈ freeing S
  | AStop c n _ _ s _ => terminated c /\ terminated n /\ stop_ok L s
  | AStopAll answers => stop_all_each stop_ok (SvcInstanceList L) L answers
  | AKillWait w _ => is_Some (KillProcessData L !! w)
  | AGetInfo c n _ _ => terminated c /\ terminated n
  | AGetNameList _ => True
  end.

(** What the code does not handle, and has to be kept away from it: a template of a command line
    that ends in a percent sign (in [SvcInstanceReplaceArguments]), a volume that is in use after
    another one was dismounted (in [OpenAndDismountVolumesForProcessId] and [SvcInstanceKill]),
    and a number of a process that overflows (in [wcstoint]). *)
Definition handled (S : SYSTEM) (o : ACTION) : Prop :=
  let L := sy_Launcher S in
  match o with
  | ACreate _ _ _ _ _ _ a => template_complete a
  | AStop c n _ _ s _ => pid_readable c n /\ no_volume_in_use L s
  | AStopAll answers => stop_all_each no_volume_in_use (SvcInstanceList L) L answers
  | AGetInfo c n _ _ => pid_readable c n
  | _ => True
  end.

Definition system_start : SYSTEM := mkSystem (mkLauncher [] ∅ true ∅ ∅ []) ∅ ∅ ∅.

Inductive system_reach : SYSTEM -> Prop :=
  | reach_start : system_reach system_start
  | reach_step S o S' :
      system_reach S -> enabled S o -> handled S o -> system_step S o = Some S' -> system_reach S'.

(** ** The invariant *)

(** An instance is referred to by the thread that creates it and by the wait for its process; when
    neither does any more, it is to be freed. *)
Record system_wf (S : SYSTEM) : Prop := {
  sw_owns : owns (sy_Launcher S) [];
  sw_listed : listed (sy_Launcher S);
  sw_Event : SvcInstanceEvent (sy_Launcher S) = bool_decide (SvcInstanceList (sy_Launcher S) = []);
  sw_RefCount a i : SvcInstances (sy_Launcher S) !! a = Some i ->
    si_RefCount i = b2z (bool_decide (a ∈ creators S)) + b2z (bool_decide (a ∈ running S)) /\
    (a ∈ freeing S <-> (a ∉ creators S) /\ (a ∉ running S));
  sw_dom a : a ∈ creators S \/ a ∈ running S \/ a ∈ freeing S -> is_Some (SvcInstances (sy_Launcher S) !! a)
}.

Lemma system_start_wf : system_wf system_start.
Proof.
  constructor; cbn.
  - unfold owns, holds. cbn. by rewrite elements_empty.
  - constructor; cbn; [constructor|intros a; rewrite lookup_empty; split; [by intros ?%elem_of_nil|by intros []]|].
    intros a i. by rewrite lookup_empty.
  - done.
  - intros a i. by rewrite lookup_empty.
  - set_solver.
Qed.

(** A change of one instance that keeps its references. *)
Lemma system_wf_update S L' a i i' :
  system_wf S -> SvcInstances (sy_Launcher S) !! a = Some i ->
  owns L' [] -> SvcInstanceList L' = SvcInstanceList (sy_Launcher S) ->
  SvcInstanceEvent L' = SvcInstanceEvent (sy_Launcher S) ->
  SvcInstances L' = <[a := i']> (SvcInstances (sy_Launcher S)) ->
  si_RefCount i' = si_RefCount i -> instance_wf i' -> system_wf (with_launcher S L').
Proof.
  intros [H1 [N1 N2 N3] H3 H4 H5] Hi HO HLs HE HI HR Hwf. constructor; cbn; [done| |by rewrite HE, HLs| |].
  - constructor; [by rewrite HLs| |].
    + intros b. rewrite HLs, N2, HI. destruct (decide (a = b)) as [<-|Hne].
      * rewrite lookup_insert_eq, Hi. by split; eexists.
      * by rewrite lookup_insert_ne.
    + intros b j. rewrite HI. intros [[<- <-]|[_ Hj]]%lookup_insert_Some; [done|by apply (N3 b)].
  - intros b j. rewrite HI. intros [[<- <-]|[_ Hj]]%lookup_insert_Some; [|by apply H4].
    rewrite HR. by apply H4.
  - intros b Hb. rewrite HI. apply lookup_insert_is_Some'. right. by apply H5.
Qed.

Lemma system_wf_same S L' :
  system_wf S -> owns L' [] -> same_instances (sy_Launcher S) L' -> system_wf (with_launcher S L').
Proof.
  intros [H1 [N1 N2 N3] H3 H4 H5] HO [S1 S2 S3]. constructor; cbn; [done| |by rewrite S3, S1|by rewrite S2|by rewrite S2].
  constructor; [by rewrite S1|intros a; by rewrite S1, S2|by rewrite S2].
Qed.

Lemma instance_wf_volumes i v : instance_wf i -> instance_wf (i <| si_VolumeHandles := v |>).
Proof. by intros []. Qed.

(** ** Every step keeps it *)

Lemma step_create S t e c n Argv Job a :
  system_wf S -> enabled S (ACreate t e c n Argv Job a) -> template_complete a ->
  exists S', system_step S (ACreate t e c n Argv Job a) = Some S' /\ system_wf S'.
Proof.
  intros HS (Hc & Hn & He & Hf & Ht) Hcomp. pose proof HS as [H1 HL H3 H4 H5]. cbn [system_step].
  destruct (SvcInstanceCreate_owns (sy_Launcher S) t e c n Argv Job a H1 HL Hc Hn He Hf Ht Hcomp)
    as (err & addr & L' & -> & HO & _ & Hor). rewrite bind_value. eexists. split; [reflexivity|].
  destruct Hor as [[Herr HSame]|(-> & -> & HN & HLs & HE & i & HI & Hwf & Hrc)].
  { rewrite (proj2 (Z.eqb_neq err ERROR_SUCCESS)) by done. apply system_wf_same; [done|done|].
    by apply same_same_instances. }
  change (ERROR_SUCCESS =? ERROR_SUCCESS) with true. cbv iota. set (x := ca_Instance a) in *.
  assert ((x ∉ creators S) /\ (x ∉ running S) /\ (x ∉ freeing S)) as (X1 & X2 & X3).
  { split_and!; intros Hx; destruct (H5 x) as [j Hj]; try congruence; set_solver. }
  destruct HL as [N1 N2 N3]. constructor; cbn; [done| | | |].
  - constructor.
    + rewrite HLs. apply NoDup_app. split; [done|]. split; [|apply NoDup_singleton].
      intros y Hy ->%list_elem_of_singleton. apply N2 in Hy. rewrite HN in Hy. by destruct Hy.
    + intros b. rewrite HLs, elem_of_app, N2, list_elem_of_singleton, HI.
      destruct (decide (x = b)) as [<-|Hne].
      * rewrite lookup_insert_eq. split; [by eexists|by right].
      * rewrite lookup_insert_ne by done. split; [by intros [|]|by left].
    + intros b j. rewrite HI. intros [[<- <-]|[_ Hj]]%lookup_insert_Some; [done|by apply (N3 b)].
  - rewrite HE, HLs. symmetry. apply bool_decide_false. by destruct (SvcInstanceList (sy_Launcher S)).
  - intros b j. rewrite HI. intros [[<- <-]|[Hne Hj]]%lookup_insert_Some.
    + rewrite Hrc, !bool_decide_true by set_solver. split; [done|]. set_solver.
    + destruct (H4 b j Hj) as [Hr Hfr]. rewrite Hr. split.
      * f_equal; f_equal; apply bool_decide_ext; set_solver.
      * rewrite Hfr. set_solver.
  - intros b Hb. rewrite HI. apply lookup_insert_is_Some'. destruct (decide (x = b)) as [->|]; [by left|right].
    apply H5. set_solver.
Qed.

Lemma persistent_value_total Argv p s :
  persistent_ok Argv p -> pe_Security p = Some s -> exists v, persistent_value Argv s (pe_Alloc p) = Some v.
Proof.
  intros (HA & Hn & Hs) Hp. destruct (Hs s Hp) as (t & r & Ht & Hl & ->).
  destruct (short_texts_arguments Argv HA) as (Args & HAr & HLs).
  assert (Z.of_nat (length (multi_sz (Args ++ [t; []]))) <= 11 * (2 ^ 15)) as Hlen.
  { rewrite multi_sz_app, length_app, !multi_sz_cons_length. cbn [multi_sz length fmap list_fmap concat].
    enough (Z.of_nat (length (multi_sz Args)) <= 2 ^ 15 * Z.of_nat (length Args))
      by (rewrite <- (Forall2_length _ _ _ HAr) in *; lia).
    clear -HLs. induction HLs as [|u Args Hu _ IH]; [cbn; lia|]. rewrite multi_sz_cons_length. cbn [length]. lia. }
  destruct (pe_Alloc p).
  - rewrite (persistent_value_texts Argv Args _ t r HAr Ht eq_refl) by lia. by eexists.
  - unfold persistent_value, persistent_size.
    pose proof (persistent_args_size_texts Argv Args 1 HAr : persistent_args_size Argv 1 = _) as ->.
    rewrite bind_value, lstrlenW_text by done. rewrite !bind_value. by eexists.
Qed.

Lemma step_persist S x Argv p :
  system_wf S -> enabled S (APersist x Argv p) ->
  exists S', system_step S (APersist x Argv p) = Some S' /\ system_wf S'.
Proof.
  intros HS (Hx & Hv). pose proof HS as [H1 HL H3 H4 H5]. cbn [system_step]. unfold start_finish.
  destruct (H5 x) as [i Hi]; [by left|]. rewrite Hi, bind_value.
  assert (exists b L1, SvcInstanceSetPersistent (sy_Launcher S) (si_ClassName i) (si_InstanceName i) Argv p = Some (b, L1) /\
    same (sy_Launcher S) L1 /\ Resources L1 = Resources (sy_Launcher S)) as (b & L1 & -> & HS1 & HR1).
  { unfold SvcInstanceSetPersistent. destruct (_ || _); [by eexists _, _|].
    destruct (pe_Security p) as [s|] eqn:Es; [|by eexists _, _].
    destruct (persistent_value_total Argv p s Hv Es) as [v ->]. rewrite bind_value.
    destruct v as [v|]; [|by eexists _, _]. destruct (_ || _); by eexists _, _. }
  rewrite !bind_value. eexists. split; [reflexivity|]. pose proof HS1 as [S1 S2 S3 S4].
  apply (system_wf_update S _ x i (i <| si_Persistent := b |>)); try done.
  - apply (owns_same_instance L1 [] x i); [by rewrite S2|done|]. apply (same_owns (sy_Launcher S)); [done|].
    unfold holds. by rewrite HR1.
  - cbn. by rewrite S2.
  - destruct (li_wf _ HL x i Hi). by constructor.
Qed.

(** A reference goes away. *)
Lemma release_count_wf S x C R :
  system_wf S -> is_Some (SvcInstances (sy_Launcher S) !! x) ->
  (forall b, b <> x -> (b ∈ C <-> b ∈ creators S) /\ (b ∈ R <-> b ∈ running S)) ->
  (x ∈ C -> x ∈ creators S) -> (x ∈ R -> x ∈ running S) ->
  b2z (bool_decide (x ∈ C)) + b2z (bool_decide (x ∈ R)) =
    b2z (bool_decide (x ∈ creators S)) + b2z (bool_decide (x ∈ running S)) - 1 ->
  exists last L', release_count (sy_Launcher S) x = Some (last, L') /\
    system_wf (mkSystem L' C R (if (last : bool) then {[x]} ∪ freeing S else freeing S)).
Proof.
  intros HS [i Hi] Hoth HC HR Hcount. pose proof HS as [H1 HL H3 H4 H5]. pose proof HL as [N1 N2 N3].
  unfold release_count. rewrite Hi, bind_value. destruct (H4 x i Hi) as [Hrc Hfr].
  assert (0 <= b2z (bool_decide (x ∈ C)) <= 1 /\ 0 <= b2z (bool_decide (x ∈ R)) <= 1) as [B1 B2]
    by (unfold b2z; split; case_match; lia).
  assert (int_of (si_RefCount i - 1) = b2z (bool_decide (x ∈ C)) + b2z (bool_decide (x ∈ R))) as ->.
  { rewrite Hrc, <- Hcount. apply int_of_small. lia. }
  set (rc := b2z (bool_decide (x ∈ C)) + b2z (bool_decide (x ∈ R))) in *.
  eexists _, _. split; [reflexivity|].
  change (si_RefCount (i <| si_RefCount := rc |>)) with rc.
  assert (rc = 0 <-> (x ∉ C) /\ (x ∉ R)) as Hz.
  { subst rc. destruct (bool_decide_reflect (x ∈ C)), (bool_decide_reflect (x ∈ R)); cbn; split; try done; try lia;
      intros [? ?]; done. }
  assert (x ∉ freeing S) as Hxf.
  { intros Hx. apply Hfr in Hx as [Hx1 Hx2]. rewrite (bool_decide_false (x ∈ creators S)), (bool_decide_false (x ∈ running S)) in Hcount by done.
    cbn in Hcount. lia. }
  constructor; cbn.
  - by apply (owns_same_instance _ _ _ i).
  - constructor; cbn; [done| |].
    + intros b. rewrite N2. destruct (decide (x = b)) as [<-|Hne].
      * rewrite lookup_insert_eq, Hi. by split; eexists.
      * by rewrite lookup_insert_ne.
    + intros b j [[<- <-]|[_ Hj]]%lookup_insert_Some; [|by apply (N3 b)]. by destruct (N3 x i Hi).
  - done.
  - intros b j [[<- <-]|[Hne Hj]]%lookup_insert_Some.
    + split; [done|]. destruct (Z.eqb_spec rc 0) as [E|E].
      * split; [intros _; by apply Hz|set_solver].
      * split; [done|]. intros Hin. by apply Hz in Hin.
    + destruct (H4 b j Hj) as [Hr Hfb]. destruct (Hoth b) as [O1 O2]; [congruence|]. rewrite Hr. split.
      * f_equal; f_equal; apply bool_decide_ext; [by rewrite O1|by rewrite O2].
      * rewrite O1, O2, <- Hfb. destruct (rc =? 0); [|done]. set_solver.
  - intros b Hb. apply lookup_insert_is_Some'. destruct (decide (x = b)) as [->|Hne]; [by left|right].
    destruct (Hoth b) as [O1 O2]; [congruence|]. apply H5. rewrite O1, O2 in Hb. destruct (rc =? 0); set_solver.
Qed.

Lemma step_release S x :
  system_wf S -> enabled S (ARelease x) -> exists S', system_step S (ARelease x) = Some S' /\ system_wf S'.
Proof.
  intros HS Hx. cbn [enabled system_step] in *.
  destruct (release_count_wf S x (creators S ∖ {[x]}) (running S) HS) as (last & L' & -> & Hwf).
  - apply (sw_dom S HS). by left.
  - intros b Hb. set_solver.
  - set_solver.
  - done.
  - rewrite (bool_decide_false (x ∈ creators S ∖ {[x]})) by set_solver.
    rewrite (bool_decide_true (x ∈ creators S)) by done. cbn [b2z]. lia.
  - rewrite bind_value. by eexists.
Qed.

Lemma step_terminated S x :
  system_wf S -> enabled S (ATerminated x) -> exists S', system_step S (ATerminated x) = Some S' /\ system_wf S'.
Proof.
  intros HS Hx. cbn [enabled system_step] in *.
  destruct (release_count_wf S x (creators S) (running S ∖ {[x]}) HS) as (last & L' & -> & Hwf).
  - apply (sw_dom S HS). by right; left.
  - intros b Hb. set_solver.
  - done.
  - set_solver.
  - rewrite (bool_decide_false (x ∈ running S ∖ {[x]})) by set_solver.
    rewrite (bool_decide_true (x ∈ running S)) by done. cbn [b2z]. lia.
  - rewrite bind_value. by eexists.
Qed.

Lemma step_free S x :
  system_wf S -> enabled S (AFree x) -> exists S', system_step S (AFree x) = Some S' /\ system_wf S'.
Proof.
  intros HS Hx. cbn [enabled system_step] in *. pose proof HS as [H1 HL H3 H4 H5]. pose proof HL as [N1 N2 N3].
  destruct (H5 x) as [i Hi]; [by right; right|].
  destruct (release_last_owns _ x i H1 HL Hi) as (L' & -> & HO & HK & HI & HLs & HE). rewrite bind_value.
  eexists. split; [reflexivity|]. destruct (H4 x i Hi) as [_ Hfr]. apply Hfr in Hx as Hx'. destruct Hx' as [X1 X2].
  constructor; cbn; [done| | | |].
  - constructor.
    + rewrite HLs. by apply NoDup_filter.
    + intros b. rewrite HLs, list_elem_of_filter, N2, HI. destruct (decide (x = b)) as [<-|Hne].
      * rewrite lookup_delete_eq. split; [by intros []|by intros []].
      * rewrite lookup_delete_ne by done. split; [by intros []|done].
    + intros b j. rewrite HI. intros [_ Hj]%lookup_delete_Some. by apply (N3 b).
  - rewrite HE. destruct (bool_decide_reflect (SvcInstanceList L' = [])) as [|Hne]; [done|].
    rewrite H3. apply bool_decide_false. intros E. apply Hne. by rewrite HLs, E.
  - intros b j. rewrite HI. intros [Hne Hj]%lookup_delete_Some. destruct (H4 b j Hj) as [-> Hfb].
    split; [done|]. rewrite <- Hfb. set_solver.
  - intros b Hb. rewrite HI. destruct (decide (x = b)) as [<-|Hne]; [set_solver|].
    rewrite lookup_delete_ne by done. apply H5. set_solver.
Qed.

(** What a kill leaves. *)
Lemma kill_wf S x Forced s :
  system_wf S -> x ∈ SvcInstanceList (sy_Launcher S) ->
  stop_ok (sy_Launcher S) s -> no_volume_in_use (sy_Launcher S) s ->
  exists err L', SvcInstanceKill (sy_Launcher S) x Forced s = Some (err, L') /\ system_wf (with_launcher S L') /\
    SvcInstanceList L' = SvcInstanceList (sy_Launcher S).
Proof.
  intros HS Hx Hok Huse. pose proof HS as [H1 HL H3 H4 H5]. destruct (proj1 (li_In _ HL x) Hx) as [i Hi].
  destruct (SvcInstanceKill_owns _ x i Forced s H1 Hi Hok Huse) as (err & L' & v & E & HO & HLs & HE & HI).
  exists err, L'. split; [done|]. split; [|done]. eapply (system_wf_update S L' x i); try done.
  apply instance_wf_volumes. by apply (li_wf _ HL x).
Qed.

Lemma step_stop S c n Forced Access s d :
  system_wf S -> enabled S (AStop c n Forced Access s d) -> handled S (AStop c n Forced Access s d) ->
  exists S', system_step S (AStop c n Forced Access s d) = Some S' /\ system_wf S'.
Proof.
  intros HS (Hc & Hn & Hok) (Hp & Huse). cbn [system_step]. unfold SvcInstanceStop.
  pose proof HS as [H1 HL H3 H4 H5].
  destruct (SvcInstanceLookup_total _ c n true HL Hc Hn) as (r & -> & Hr); [done|]. rewrite bind_value.
  assert (system_wf (with_launcher S (sy_Launcher S))) as HS0 by (by destruct S).
  destruct r as [x|]; [|rewrite bind_value; by eexists].
  destruct (negb _); [rewrite bind_value; by eexists|].
  destruct (kill_wf S x Forced s HS (Hr x eq_refl) Hok Huse) as (err & L' & -> & HS' & HLs). rewrite bind_value.
  destruct (proj1 (li_In _ (sw_listed _ HS') x)) as [j Hj]; [cbn; rewrite HLs; by apply Hr|]. cbn in Hj.
  rewrite Hj, !bind_value. eexists. split; [reflexivity|].
  destruct (ERROR_SUCCESS =? err); [|done].
  apply (system_wf_same (with_launcher S L')); [done| |].
  - unfold SvcInstanceDeletePersistent. destruct d as [[]]. by destruct (_ || _); destruct HS'.
  - unfold SvcInstanceDeletePersistent. destruct d as [[]]. by destruct (_ || _).
Qed.

Lemma stop_all_wf l S answers :
  system_wf S -> (forall x, x ∈ l -> x ∈ SvcInstanceList (sy_Launcher S)) ->
  stop_all_each stop_ok l (sy_Launcher S) answers -> stop_all_each no_volume_in_use l (sy_Launcher S) answers ->
  exists L', stop_all l (sy_Launcher S) answers = Some L' /\ system_wf (with_launcher S L').
Proof.
  revert S. induction l as [|x l IH]; intros S HS Hl Hok Huse; cbn [stop_all].
  { exists (sy_Launcher S). split; [done|]. by destruct S. }
  destruct Hok as (Hok & Hrest), Huse as (Huse & Hrest').
  destruct (kill_wf S x true (answers x) HS) as (err & L' & E & HS' & HLs); [apply Hl; set_solver|done|done|].
  rewrite E, bind_value. apply (IH (with_launcher S L')); [done| |by apply (Hrest err)|by apply (Hrest' err)].
  intros y Hy. cbn. rewrite HLs. apply Hl. set_solver.
Qed.

Lemma terminated_lstrlen S x i :
  system_wf S -> SvcInstances (sy_Launcher S) !! x = Some i ->
  exists a b c, lstrlenW (si_ClassName i) = Some a /\ lstrlenW (si_InstanceName i) = Some b /\
    lstrlenW (si_CommandLine i) = Some c.
Proof.
  intros HS Hi. destruct (li_wf _ (sw_listed _ HS) x i Hi) as [_ _ _ [a Ha]%terminated_length [b Hb]%terminated_length [c Hc]].
  by exists a, b, c.
Qed.

Lemma step_get_info S c n Access Size :
  system_wf S -> enabled S (AGetInfo c n Access Size) -> handled S (AGetInfo c n Access Size) ->
  exists S', system_step S (AGetInfo c n Access Size) = Some S' /\ system_wf S'.
Proof.
  intros HS (Hc & Hn) Hp. cbn [system_step handled] in *. unfold SvcInstanceGetInfo.
  destruct (SvcInstanceLookup_total _ c n true (sw_listed _ HS) Hc Hn) as (r & -> & Hr); [done|]. rewrite bind_value.
  destruct r as [x|]; [|rewrite bind_value; by eexists]. destruct (negb _); [rewrite bind_value; by eexists|].
  destruct (proj1 (li_In _ (sw_listed _ HS) x) (Hr x eq_refl)) as [i Hi]. rewrite Hi, bind_value.
  destruct (terminated_lstrlen S x i HS Hi) as (a & b & k & -> & -> & ->). rewrite !bind_value.
  case_match; rewrite bind_value; by eexists.
Qed.

Lemma step_get_name_list S Size :
  system_wf S -> exists S', system_step S (AGetNameList Size) = Some S' /\ system_wf S'.
Proof.
  intros HS. cbn [system_step]. unfold SvcInstanceGetNameList.
  assert (forall l m, (forall x, x ∈ l -> x ∈ SvcInstanceList (sy_Launcher S)) ->
    exists t, name_list l (sy_Launcher S) m = Some t) as Hnl.
  { induction l as [|x l IH]; intros m Hl; cbn [name_list]; [by eexists|].
    destruct (proj1 (li_In _ (sw_listed _ HS) x)) as [i Hi]; [apply Hl; set_solver|]. rewrite Hi, bind_value.
    destruct (terminated_lstrlen S x i HS Hi) as (a & b & k & -> & -> & _). rewrite !bind_value.
    destruct (_ <? _); [by eexists|].
    destruct (IH (m - (Z.of_nat a + 1 + (Z.of_nat b + 1)))) as [t ->]; [intros y Hy; apply Hl; set_solver|].
    rewrite bind_value. by eexists. }
  destruct (Hnl (SvcInstanceList (sy_Launcher S)) (Size / 2)) as [t ->]; [done|]. rewrite bind_value. by eexists.
Qed.

Lemma system_step_wf S o :
  system_wf S -> enabled S o -> handled S o -> exists S', system_step S o = Some S' /\ system_wf S'.
Proof.
  intros HS He Hh. destruct o.
  - by apply step_create.
  - by apply step_persist.
  - by apply step_release.
  - by apply step_terminated.
  - by apply step_free.
  - by apply step_stop.
  - cbn [system_step enabled handled] in *. unfold SvcInstanceStopAndWaitAll.
    destruct (stop_all_wf (SvcInstanceList (sy_Launcher S)) S answers HS) as (L' & -> & HS'); [done..|].
    rewrite bind_value. by eexists.
  - cbn [system_step enabled] in *. destruct He as [h Hw].
    destruct (KillProcessWait_owns _ [] _ h Timeout (sw_owns _ HS) Hw) as (L' & -> & HS' & HO). rewrite bind_value.
    eexists. split; [reflexivity|]. by apply system_wf_same.
  - by apply step_get_info.
  - by apply step_get_name_list.
Qed.

Lemma system_reach_wf S : system_reach S -> system_wf S.
Proof.
  induction 1 as [|S o S' HR IH He Hh E]; [apply system_start_wf|].
  destruct (system_step_wf S o IH He Hh) as (S1 & E1 & H1). congruence.
Qed.

(** C6: However the threads of the launcher and the ends of its processes interleave, no step of the
    launcher uses an instance that was freed, nor uses or releases a handle, a wait or a security
    descriptor that it does not have, with answers of the system that are as documented
    ([enabled]), and in all cases but three that the code does not handle ([handled]): the template
    of a command line ends in a percent sign, a volume is in use after another one was dismounted,
    or the number that a client names a process by overflows.  The event tells that there is no
    instance exactly when there is none.  And when every thread is done, every process has ended
    and every wait is over, everything has been released. *)
Theorem launcher_safe S :
  system_reach S ->
  (forall o, enabled S o -> handled S o -> exists S', system_step S o = Some S') /\
  (SvcInstanceEvent (sy_Launcher S) = true <-> SvcInstanceList (sy_Launcher S) = []) /\
  (creators S = ∅ -> running S = ∅ -> freeing S = ∅ -> KillProcessData (sy_Launcher S) = ∅ ->
   SvcInstanceList (sy_Launcher S) = [] /\ SvcInstances (sy_Launcher S) = ∅ /\ Resources (sy_Launcher S) = ∅).
Proof.
  intros HR%system_reach_wf. split.
  { intros o He Hh. destruct (system_step_wf S o HR He Hh) as (S' & E & _). by exists S'. }
  pose proof HR as [H1 [N1 N2 N3] H3 H4 H5]. split; [by rewrite H3, bool_decide_eq_true|].
  intros HC HRn HF HK.
  assert (SvcInstances (sy_Launcher S) = ∅) as HI.
  { apply map_empty. intros a. destruct (SvcInstances (sy_Launcher S) !! a) as [i|] eqn:Hi; [|done].
    destruct (H4 a i Hi) as [_ Hfr]. rewrite HC, HRn, HF in Hfr. set_solver. }
  split_and!; [|done|].
  - destruct (SvcInstanceList (sy_Launcher S)) as [|a l]; [done|]. exfalso.
    destruct (proj1 (N2 a)) as [i Hi]; [set_solver|]. by rewrite HI, lookup_empty in Hi.
  - unfold owns, holds, owned in H1. rewrite HI, HK in H1. unfold instances_resources, kill_resources in H1.
    rewrite !map_to_list_empty in H1. cbn in H1. symmetry in H1. apply Permutation_nil_l in H1.
    apply leibniz_equiv. by apply elements_empty_inv.
Qed.

(** ** A run *)

(** The answers for the creation of an instance at the address 1000, of the class [c] with the
    executable [a] and the command line [%1]. *)
Definition answers_1000 : CREATE_ANSWERS :=
  mkCreateAnswers ERROR_SUCCESS (ERROR_SUCCESS, [97; 0]) (ERROR_SUCCESS, [37; 49; 0])
    (ERROR_FILE_NOT_FOUND, [0]) (ERROR_FILE_NOT_FOUND, [0]) (ERROR_FILE_NOT_FOUND, 0)
    (fun _ => (500, 5)) (true, true, 5) (mkRightsAnswers false ERROR_INSUFFICIENT_BUFFER true true 5 0 600)
    1000 true (mkProcessAnswers 0 [0] 5 true 5 (mkProcessInformation 16 20 7)) (32, 5).

Definition creation (Argv : list (list Z)) : ACTION := ACreate true None [99; 0] [105; 0] Argv 0 answers_1000.

Lemma letter_terminated c : 0 < c < 65536 -> terminated [c; 0].
Proof. intros Hc. exists [c], []. split; [|done]. repeat constructor; lia. Qed.

Lemma letters_short t : is_text t -> Z.of_nat (length t) < 2 ^ 15 -> short_text (t ++ [0]).
Proof. intros Ht Hl. by exists t, []. Qed.

Lemma creation_texts Argv : Forall short_text Argv -> create_texts Argv answers_1000.
Proof.
  intros HA. constructor; try done; try (exists [], []; split; [constructor|done]).
  - by apply (letters_short [97]); [apply Forall_singleton|].
  - by apply (letters_short [37; 49]); [repeat constructor|].
Qed.

Lemma creation_handled : template_complete answers_1000.
Proof.
  intros l r Hl Ht. change ([37; 49; 0] = template_text l ++ 37 :: 0 :: r) in Ht. unfold template_text in Ht.
  destruct Hl as [|i l Hi Hl]; [done|]. destruct i as [c|c|d]; cbn in Hi; cbn in Ht; simplify_eq; [lia|by destruct Hi|].
  destruct Hl as [|i l Hi' Hl]; [done|]. destruct i as [c|c|d']; cbn in *; simplify_eq; by destruct Hi'.
Qed.

Lemma creation_enabled Argv : Forall short_text Argv -> enabled system_start (creation Argv).
Proof.
  intros HA. split_and!; [by apply letter_terminated..| | |by apply creation_texts].
  - constructor; cbn; done.
  - constructor; [done..|]. constructor; cbn; done.
Qed.

(** The state after the steps that can be made. *)
Definition after (S : SYSTEM) (o : ACTION) : SYSTEM := default S (system_step S o).

Lemma after_reach S o : system_reach S -> enabled S o -> handled S o -> system_reach (after S o).
Proof.
  intros HR He Hh. destruct (system_step_wf S o (system_reach_wf S HR) He Hh) as (S' & E & _).
  unfold after. rewrite E. by eapply reach_step.
Qed.

Lemma launcher_safe_witness :
  let S := after (after (after system_start (creation [[98; 0]])) (ARelease 1000)) (ATerminated 1000) in
  (forall o, enabled S o -> handled S o -> exists S', system_step S o = Some S') /\
  (SvcInstanceEvent (sy_Launcher S) = true <-> SvcInstanceList (sy_Launcher S) = []).
Proof.
  intros S. assert (system_reach S) as HR.
  { apply after_reach; [apply after_reach; [apply after_reach|..]|..]; try done.
    - apply reach_start.
    - apply creation_enabled. constructor; [|constructor]. by apply (letters_short [98]); [apply Forall_singleton|].
    - apply creation_handled. }
  destruct (launcher_safe S HR) as (H1 & H2 & _). by split.
Defined.

(** ** Persistent instances *)

(** C22: What the launcher keeps in the registry of a persistent instance with arguments is what it
    starts it with the next time: the value has exactly the size that was computed for it, and the
    loop over the values of the class makes an instance with the same arguments and the same
    security from it and goes on with the next value.  That holds for at most nine
    arguments, all that a command of the pipe can have, and for a name of at most 263 characters and
    a value of at most 3072 bytes, which fit in the buffers of the loop.  A longer
    one, which a client can make, ends the loop: neither that instance nor any after it in the
    class is started.  And an instance that was started without arguments is passed over. *)
Theorem persistent_instances_restart L c n k Argv Args Security s r rest Job a vs :
  arguments Argv Args -> is_text s -> Security = s ++ 0 :: r -> (length Args <= 9)%nat ->
  2 * Z.of_nat (length (multi_sz (Args ++ [s; []]))) < 2 ^ 32 -> lstrlenW n = Some k ->
  exists v ps p, persistent_value Argv Security true = Some (Some v) /\
    persistent_size Argv Security = Some (2 * Z.of_nat (length v)) /\ arguments ps Args /\ wcs p = Some s /\
    start_class (mkPersistentInstance n true (v ++ rest) (2 * Z.of_nat (length v)) a :: vs) L c Job =
      if (Z.of_nat k <=? 263) && (2 * Z.of_nat (length v) <=? 3072) then
        if bool_decide (Args = []) then start_class vs L c Job
        else
          '(err, SvcInstance, L) ← SvcInstanceCreate L false (Some p) c n ps Job a;
          L ← (if err =? ERROR_SUCCESS then SvcInstanceRelease L SvcInstance else Some L);
          start_class vs L c Job
      else Some L.
Proof.
  intros HA Hs HS Hn Hlen Hk.
  destruct (persistent_value_split Argv Args Security s r rest HA Hs HS Hn Hlen) as (v & Hv & Hsz & Hsp).
  assert (exists ps p, arguments ps Args /\ wcs p = Some s /\
    persistent_args (v ++ rest) (2 * Z.of_nat (length v)) =
      Some (if bool_decide (Args = []) then None else Some (ps, p))) as (ps & p & Hps & Hp & E).
  { destruct (bool_decide_reflect (Args = [])) as [->|_].
    - exists [], (s ++ 0 :: []). split; [constructor|]. split; [by apply wcs_text|done].
    - destruct Hsp as (ps & p & E & Hps & Hp). by exists ps, p. }
  exists v, ps, p. split; [done|]. split; [done|]. split; [done|]. split; [done|].
  cbn [start_class]. unfold value_fits, sizeof_InstanceName, sizeof_RegValue. cbn [pv_InstanceName pv_Size pv_MultiSz].
  rewrite Hk, !bind_value. cbn [negb]. rewrite orb_false_r.
  replace (Z.of_nat k <? 4 + 260) with (Z.of_nat k <=? 263) by (destruct (Z.leb_spec (Z.of_nat k) 263), (Z.ltb_spec (Z.of_nat k) (4 + 260)); done || lia).
  change (2 * (1024 + 512)) with 3072. destruct (_ && _); cbn [negb]; [|done].
  cbn [pv_Value]. rewrite E, bind_value. destruct (bool_decide _); [by rewrite bind_value|]. cbn [pv_Create].
  destruct (SvcInstanceCreate _ _ _ _ _ _ _ _) as [[[err x] L1]|]; [|done]. rewrite !bind_value.
  by rewrite (Z.eqb_sym ERROR_SUCCESS err).
Qed.

(** An argument comes back. *)
Lemma persistent_instances_restart_witness :
  exists v ps p, persistent_value [[97; 0]] [68; 58; 0] true = Some (Some v) /\
    persistent_size [[97; 0]] [68; 58; 0] = Some (2 * Z.of_nat (length v)) /\ arguments ps [[97]] /\
    wcs p = Some [68; 58] /\
    start_class [mkPersistentInstance [105; 0] true (v ++ [1]) (2 * Z.of_nat (length v)) answers_1000]
      (sy_Launcher system_start) [99; 0] 0 =
      if (Z.of_nat 1 <=? 263) && (2 * Z.of_nat (length v) <=? 3072) then
        if bool_decide ([[97]] = @nil (list Z)) then Some (sy_Launcher system_start)
        else
          '(err, SvcInstance, L) ← SvcInstanceCreate (sy_Launcher system_start) false (Some p) [99; 0] [105; 0] ps 0 answers_1000;
          L ← (if err =? ERROR_SUCCESS then SvcInstanceRelease L SvcInstance else Some L);
          Some L
      else Some (sy_Launcher system_start).
Proof.
  apply (persistent_instances_restart (sy_Launcher system_start) [99; 0] [105; 0] 1 [[97; 0]] [[97]] [68; 58; 0] [68; 58] [] [1]
    0 answers_1000 []).
  - apply Forall2_cons. split; [|constructor]. split; [by repeat constructor|by exists []].
  - by repeat constructor.
  - reflexivity.
  - simpl. lia.
  - vm_compute. reflexivity.
  - reflexivity.
Defined.

(** A message of the pipe has room for an argument that is not started again. *)
Example persistent_too_long :
  let Arg := replicate 1600 97 ++ [0] in
  2 * Z.of_nat (length ([SpdLaunchCmdStart; 99; 0; 105; 0] ++ Arg)) <= SPD_LAUNCH_PIPE_BUFFER_SIZE /\
  exists v, persistent_value [Arg] [68; 58; 0] true = Some (Some v) /\
    start_class [mkPersistentInstance [105; 0] true v (2 * Z.of_nat (length v)) answers_1000]
      (sy_Launcher system_start) [99; 0] 0 = Some (sy_Launcher system_start).
Proof.
  split; [vm_compute; discriminate|]. eexists. split; [vm_compute; reflexivity|]. vm_compute. reflexivity.
Qed.
