(* ===== verification/LaunchClient.v ===== *)
(** * The clients of the launcher: [shared/launch.c], [shared/secpipe.c], [launcher/launchctl.c]

    The messages that clients send to the launcher, what they make of its answers, and the call of
    a pipe whose owner is checked.  The characters of a message are a list, and its size counts
    bytes; a pointer to a text is the list of the characters from there on, and reading past its
    end is [None]. *)

From S2P Require Import Prelude Wdk Minimal LaunchText.

(** ** The call of a pipe: [SpdCallNamedPipeSecurelyEx] *)

(** The answers to its calls: each [CreateFileW] gives a handle or an error; for the owner, whether
    the identifier is made, the owner is read, and they are equal. *)
Record SECURE_ANSWERS := mkSecureAnswers {
  se_Create : Z * Z; se_CreateAgain : Z * Z;
  se_WellKnown : bool; se_WellKnownError : Z; se_SecurityInfo : Z; se_EqualSid : bool;
  se_SetState : bool; se_SetStateError : Z;
  se_Transact : bool; se_TransactError : Z
}.

(** The check of the owner; [Sid] is a number for a well-known one, or a pointer. *)
Definition check_owner (Sid : Z) (a : SECURE_ANSWERS) : Z :=
  if negb (0 =? Sid) then
    if (1024 >? Sid) && negb (se_WellKnown a) then se_WellKnownError a
    else if negb (0 =? se_SecurityInfo a) then se_SecurityInfo a
    else if negb (se_EqualSid a) then ERROR_ACCESS_DENIED else ERROR_SUCCESS
  else ERROR_SUCCESS.

(** The handle and the error of the two attempts to open the pipe. *)
Definition open_pipe (a : SECURE_ANSWERS) : Z * Z :=
  let '(Pipe, LastError) := se_Create a in
  if INVALID_HANDLE_VALUE =? Pipe then
    if negb (ERROR_PIPE_BUSY =? LastError) then (Pipe, LastError) else se_CreateAgain a
  else (Pipe, LastError).

(** The error, whether the message was sent, and the handles that were opened and closed. *)
Definition SpdCallNamedPipeSecurelyEx (Sid : Z) (a : SECURE_ANSWERS) : Z * bool * list Z * list Z :=
  let '(Pipe, LastError) := open_pipe a in
  if INVALID_HANDLE_VALUE =? Pipe then (LastError, false, [], [])
  else
    let exit Error sent := (Error, sent, [Pipe], [Pipe]) in
    let Error := check_owner Sid a in
    if negb (ERROR_SUCCESS =? Error) then exit Error false
    else if negb (se_SetState a) then exit (se_SetStateError a) false
    else if negb (se_Transact a) then exit (se_TransactError a) true
    else exit ERROR_SUCCESS true.

(** ** Messages *)

(** The loop over the arguments: the message, or none if it does not fit.  A null argument is left
    out; [Argl] has the lengths, where -1 is the length of a text. *)
Fixpoint put_arguments (Argv : list (option (list Z))) (Argl : option (list Z)) (P : list Z)
    : option (option (list Z)) :=
  match Argv with
  | [] => Some (Some P)
  | Arg :: Argv =>
      let Argl' := tail <$> Argl in
      match Arg with
      | None => put_arguments Argv Argl' P
      | Some Arg =>
          Length ← match Argl with
                   | None => n ← lstrlenW Arg; Some (Z.of_nat n)
                   | Some l => v ← l !! 0%nat; if u32 (-1) =? v then n ← lstrlenW Arg; Some (Z.of_nat n) else Some v
                   end;
          if SPD_LAUNCH_PIPE_BUFFER_SIZE <? u32 (u32 (Z.of_nat (length P) + Length) + 1) * 2 then Some None
          else
            cs ← buf_read 0 (Z.to_nat Length) Arg;
            put_arguments Argv Argl' (P ++ cs ++ [0])
      end
  end.

(** The loop over the digits of an error, up to the end of the message. *)
Fixpoint error_digits (P : list Z) (LauncherError : Z) : Z :=
  match P with
  | [] => LauncherError
  | c :: P => if is_digit c then error_digits P (u32 (10 * LauncherError + (c - 48))) else LauncherError
  end.

(** What is made of an answer of [BytesTransferred] bytes: the error of the launcher, and the data
    if it has succeeded. *)
Definition launcher_answer (PipeBuf : list Z) (BytesTransferred : Z) : option (Z * option (list Z)) :=
  if 2 <=? BytesTransferred then
    c ← PipeBuf !! 0%nat;
    P ← buf_read 1 (Z.to_nat (BytesTransferred / 2 - 1)) PipeBuf;
    if SpdLaunchCmdSuccess =? c then Some (0, Some P)
    else if SpdLaunchCmdFailure =? c then
      let LauncherError := error_digits P 0 in
      Some (if 0 =? LauncherError then ERROR_BROKEN_PIPE else LauncherError, None)
    else Some (ERROR_BROKEN_PIPE, None)
  else Some (ERROR_BROKEN_PIPE, None).

(** The result of a call: the error, that of the launcher if it is written, and with a buffer the
    whole characters that are copied to it and its size. *)
Record LAUNCH_RESULT := mkLaunchResult {
  lr_Error : Z; lr_LauncherError : option Z; lr_Buffer : list Z; lr_Size : option Z
}.

Section Launch.
(** The call of the pipe: for a message, the error, and the answer with its size in bytes. *)
Context (Call : list Z -> Z * list Z * Z).

Definition SpdLaunchCallLauncherPipe (Alloc : bool) (Command : Z) (Argv : list (option (list Z)))
    (Argl : option (list Z)) (Size : option Z) : option LAUNCH_RESULT :=
  let failed Error := Some (mkLaunchResult Error (Some 0) [] (if Size is Some _ then Some 0 else None)) in
  if negb Alloc then failed ERROR_NO_SYSTEM_RESOURCES
  else
    Message ← put_arguments Argv Argl [Command];
    match Message with
    | None => failed ERROR_INVALID_PARAMETER
    | Some Message =>
        let '(err, PipeBuf, BytesTransferred) := Call Message in
        if negb (ERROR_SUCCESS =? err) then failed err
        else
          '(LauncherError, data) ← launcher_answer PipeBuf BytesTransferred;
          match data, Size with
          | Some data, Some n =>
              let BytesTransferred := BytesTransferred - 2 in
              Some (mkLaunchResult ERROR_SUCCESS (Some LauncherError)
                      (take (Z.to_nat ((if n <? BytesTransferred then n else BytesTransferred) / 2)) data)
                      (Some BytesTransferred))
          | _, _ => Some (mkLaunchResult ERROR_SUCCESS (Some LauncherError) [] Size)
          end
    end.

Definition SpdLaunchStart (Alloc : bool) (ClassName InstanceName : list Z) (Argv0 : list (option (list Z)))
    : option LAUNCH_RESULT :=
  if 9 <? Z.of_nat (length Argv0) then Some (mkLaunchResult ERROR_INVALID_PARAMETER None [] None)
  else SpdLaunchCallLauncherPipe Alloc SpdLaunchCmdStart
         (Some ClassName :: Some InstanceName :: Argv0) None None.

Definition SpdLaunchStop (Alloc : bool) (ClassName InstanceName : list Z) : option LAUNCH_RESULT :=
  SpdLaunchCallLauncherPipe Alloc SpdLaunchCmdStop [Some ClassName; Some InstanceName] None None.

Definition SpdLaunchGetInfo (Alloc : bool) (ClassName InstanceName : list Z) (Size : option Z)
    : option LAUNCH_RESULT :=
  SpdLaunchCallLauncherPipe Alloc SpdLaunchCmdGetInfo [Some ClassName; Some InstanceName] None Size.

Definition SpdLaunchGetNameList (Alloc : bool) (Size : option Z) : option LAUNCH_RESULT :=
  SpdLaunchCallLauncherPipe Alloc SpdLaunchCmdGetNameList [] None Size.
End Launch.

(** ** The control program *)

(** What [call_pipe_and_report] prints. *)
Inductive REPORT :=
  | CallError (Error : Z)
  | EmptyBuffer
  | Ok (Text : option (list Z))
  | LauncherFailure (Text : list Z)
  | CorruptedBuffer.

(** The loop that puts newlines and spaces in the place of zeros. *)
Fixpoint print_parts (P : list Z) (Count : nat) : list Z :=
  match P with
  | [] => []
  | c :: P =>
      if c =? 0 then (if Nat.odd Count then 10 else 32) :: print_parts P (S Count)
      else c :: print_parts P Count
  end.

(** The text at a pointer, in memory with a terminator. *)
Definition report_text (P : list Z) (BytesTransferred RecvSize : Z) : option (list Z) :=
  let end_ := if BytesTransferred <? RecvSize then BytesTransferred / 2 else RecvSize / 2 - 1 in
  if Z.of_nat (length P) <? end_ then None else Some (take (Z.to_nat end_) P).

Section Control.
Context (Call : list Z -> Z * list Z * Z) (PipeBufSize : Z).

(** [call_pipe_and_report]; the text that is printed starts after the first character, and ends at
    a zero. *)
Definition until_zero (P : list Z) : list Z := default P (wcs P).

Definition call_pipe_and_report (Message : list Z) : option (Z * REPORT) :=
  let '(LastError, PipeBuf, BytesTransferred) := Call Message in
  if negb (0 =? LastError) then Some (LastError, CallError LastError)
  else if 2 >? BytesTransferred then Some (0, EmptyBuffer)
  else
    c ← PipeBuf !! 0%nat;
    if SpdLaunchCmdSuccess =? c then
      if 2 =? BytesTransferred then Some (0, Ok None)
      else
        P ← buf_read 0 (Z.to_nat (BytesTransferred / 2)) PipeBuf;
        t ← report_text (print_parts P 0) BytesTransferred PipeBufSize;
        Some (0, Ok (Some (until_zero (tail t))))
    else if SpdLaunchCmdFailure =? c then
      P ← buf_read 0 (Z.to_nat (BytesTransferred / 2)) PipeBuf;
      t ← report_text P BytesTransferred PipeBufSize;
      Some (0, LauncherFailure (until_zero (tail t)))
    else Some (0, CorruptedBuffer).

(** The texts with their terminators. *)
Fixpoint copy_texts (Argv : list (list Z)) : option (list Z) :=
  match Argv with
  | [] => Some []
  | Arg :: Argv => n ← lstrlenW Arg; t ← copy_texts Argv; Some (take (S n) Arg ++ t)
  end.

(** The message of a command, if it fits: the test comes first, then the copies. *)
Definition control_message (Command : Z) (Argv : list (list Z)) : option (option (list Z)) :=
  t ← copy_texts Argv;
  if PipeBufSize <? u32 (1 + Z.of_nat (length t)) * 2 then Some None else Some (Some (Command :: t)).

Definition control_call (Command : Z) (Argv : list (list Z)) : option (Z * option REPORT) :=
  m ← control_message Command Argv;
  match m with
  | None => Some (ERROR_INVALID_PARAMETER, None)
  | Some m => '(err, r) ← call_pipe_and_report m; Some (err, Some r)
  end.

Definition start (ClassName InstanceName : list Z) (Argv : list (list Z)) :=
  control_call SpdLaunchCmdStart (ClassName :: InstanceName :: Argv).
Definition stop (ClassName InstanceName : list Z) (Forced : bool) :=
  control_call (if Forced then SpdLaunchCmdStopForced else SpdLaunchCmdStop) [ClassName; InstanceName].
Definition getinfo (ClassName InstanceName : list Z) := control_call SpdLaunchCmdGetInfo [ClassName; InstanceName].
Definition list_ := control_call SpdLaunchCmdGetNameList [].
Definition quit := control_call SpdLaunchCmdQuit [].

(** The names of the commands, with their terminators. *)
Definition START : list Z := [115; 116; 97; 114; 116; 0].
Definition STOP : list Z := [115; 116; 111; 112; 0].
Definition STOP_FORCED : list Z := [115; 116; 111; 112; 70; 111; 114; 99; 101; 100; 0].
Definition INFO : list Z := [105; 110; 102; 111; 0].
Definition LIST : list Z := [108; 105; 115; 116; 0].
Definition QUIT : list Z := [113; 117; 105; 116; 0].

Definition is_command (Name Arg : list Z) : option bool := v ← invariant_wcscmp Name Arg; Some (0 =? v).

(** [wmain], for the arguments after the name of the program: the result, or that it tells its
    usage. *)
Definition wmain (Alloc : bool) (argv : list (list Z)) : option (option (Z * option REPORT)) :=
  let usage := Some None in
  if negb Alloc then Some (Some (ERROR_NO_SYSTEM_RESOURCES, None))
  else
  let argc := length argv in
  let run r := v ← r; Some (Some v) in
  match argv with
  | [] => usage
  | cmd :: args =>
      c ← is_command START cmd;
      if (c : bool) then
        match args with
        | c :: i :: Argv => if (12 <? argc)%nat then usage else run (start c i Argv)
        | _ => usage
        end
      else c ← is_command STOP cmd;
      if (c : bool) then match args with [c; i] => run (stop c i false) | _ => usage end
      else c ← is_command STOP_FORCED cmd;
      if (c : bool) then match args with [c; i] => run (stop c i true) | _ => usage end
      else c ← is_command INFO cmd;
      if (c : bool) then match args with [c; i] => run (getinfo c i) | _ => usage end
      else c ← is_command LIST cmd;
      if (c : bool) then match args with [] => run list_ | _ => usage end
      else c ← is_command QUIT cmd;
      if (c : bool) then match args with [] => run quit | _ => usage end
      else usage
  end.
End Control.
