(* ===== verification/LaunchClientProps.v ===== *)
(** * Properties of the clients of the launcher

    What a client asks for is what the launcher does, and what the launcher answers is what the
    client is told; the control program speaks the same way as the library. *)

From S2P Require Import Prelude Wdk IoctlTypes Minimal MinimalProps StrToInt LaunchText LaunchTextProps Launcher LaunchServer.
From S2P Require Import LaunchClient.

(** ** Errors as text *)

Lemma is_digit_value d : 0 <= d < 10 -> is_digit (48 + d) = true.
Proof. intros H. unfold is_digit. apply andb_true_iff. split; apply Z.leb_le; lia. Qed.

Lemma error_digits_decimal n v t :
  (0 < n)%nat -> 0 <= v < 10 ^ Z.of_nat n -> v < 2 ^ 32 -> error_digits (decimal n v t) 0 = error_digits t v.
Proof.
  revert v t. induction n as [|n IH]; [lia|]. intros v t _ Hv H32. cbn [decimal].
  destruct (Z.ltb_spec v 10) as [H|H].
  - cbn [error_digits]. rewrite is_digit_value by lia. f_equal. rewrite u32_small by lia. lia.
  - assert (0 < n)%nat as Hn by (destruct n; [simpl in Hv; lia|lia]).
    rewrite Nat2Z.inj_succ, Z.pow_succ_r in Hv by lia.
    rewrite IH by (try done; dlia). cbn [error_digits]. rewrite is_digit_value by dlia.
    f_equal. rewrite u32_small by dlia. dlia.
Qed.

Lemma format_ld_length v : (length (format_ld v) <= 11)%nat.
Proof.
  unfold format_ld. pose proof (decimal_length 10 (int_of v) []) as H1.
  pose proof (decimal_length 10 (- int_of v) []) as H2. cbn [length] in *. destruct (_ <? 0); cbn [length]; lia.
Qed.

(** The error that a client is told: one that does not fit in an [int] is lost. *)
Definition client_error (e : Z) : Z := if e <? 2 ^ 31 then e else ERROR_BROKEN_PIPE.

Lemma error_digits_format e :
  0 < e < 2 ^ 32 ->
  (let v := error_digits (format_ld e ++ [0]) 0 in if 0 =? v then ERROR_BROKEN_PIPE else v) = client_error e.
Proof.
  intros He. assert (forall n v t u, decimal n v t ++ u = decimal n v (t ++ u)) as Happ.
  { induction n as [|n IH]; intros v t u; cbn [decimal]; [done|]. destruct (v <? 10); [done|]. by rewrite IH. }
  unfold format_ld, int_of, client_error. rewrite (u32_small e) by lia. destruct (Z.ltb_spec e (2 ^ 31)) as [H|H].
  - rewrite (proj2 (Z.ltb_ge _ 0)) by lia. rewrite Happ. rewrite error_digits_decimal by lia.
    cbn. destruct e; [lia|done|lia].
  - rewrite (proj2 (Z.ltb_lt _ 0)) by lia. cbn [app error_digits]. done.
Qed.

(** ** Answers *)

Lemma buf_read_tail (c : Z) (l : list Z) : buf_read 1 (length l) (c :: l) = Some l.
Proof. unfold buf_read. rewrite decide_True by (cbn [length]; lia). cbn [drop]. by rewrite firstn_all. Qed.

(** An answer of the launcher is read as what it was. *)
Lemma launcher_answer_result e data :
  0 <= e < 2 ^ 32 ->
  launcher_answer (SvcPipeTransactResult e data) (2 * Z.of_nat (length (SvcPipeTransactResult e data))) =
    Some (client_error e, if e =? 0 then Some data else None).
Proof.
  intros He. unfold SvcPipeTransactResult. change ERROR_SUCCESS with 0. rewrite (Z.eqb_sym e 0).
  destruct (Z.eqb_spec 0 e) as [<-|Hne]; unfold launcher_answer;
    (rewrite (proj2 (Z.leb_le _ _)) by (cbn [length]; lia)); cbn [lookup list_lookup]; rewrite bind_value.
  - replace (Z.to_nat _) with (length data) by (cbn [length]; dlia). rewrite buf_read_tail, bind_value. done.
  - replace (Z.to_nat _) with (length (format_ld e ++ [0])) by (cbn [length]; dlia).
    rewrite buf_read_tail, bind_value. pose proof (error_digits_format e ltac:(lia)) as E. cbv zeta in E.
    cbv zeta. change (SpdLaunchCmdSuccess =? SpdLaunchCmdFailure) with false.
    change (SpdLaunchCmdFailure =? SpdLaunchCmdFailure) with true. cbv iota. by rewrite E.
Qed.

(** ** Messages *)

Lemma arguments_texts Argv Args : arguments Argv Args -> Forall is_text Args.
Proof.
  intros HA. apply Forall_forall. intros t (i & Hi)%list_elem_of_lookup.
  by destruct (Forall2_lookup_r _ _ _ _ _ HA Hi) as (p & _ & Ht & _).
Qed.

Lemma multi_sz_cons_nil t ts : multi_sz (t :: ts) = t ++ 0 :: multi_sz ts.
Proof. pose proof (multi_sz_cons t ts []) as E. by rewrite !app_nil_r in E. Qed.

Lemma put_arguments_texts Argv Args P :
  arguments Argv Args -> 2 * Z.of_nat (length P) <= SPD_LAUNCH_PIPE_BUFFER_SIZE ->
  Z.of_nat (length (multi_sz Args)) < 2 ^ 31 ->
  put_arguments (Some <$> Argv) None P =
    Some (if SPD_LAUNCH_PIPE_BUFFER_SIZE <? 2 * Z.of_nat (length P + length (multi_sz Args)) then None
          else Some (P ++ multi_sz Args)).
Proof.
  unfold SPD_LAUNCH_PIPE_BUFFER_SIZE. intros HA. revert P.
  induction HA as [|p t Argv Args [Ht [r ->]] HA IH]; intros P HP Hlen.
  - cbn. rewrite Nat.add_0_r. rewrite (proj2 (Z.ltb_ge _ _)) by lia. by rewrite app_nil_r.
  - rewrite fmap_cons. cbn [put_arguments fmap option_fmap option_map].
    rewrite multi_sz_cons_length in *. rewrite lstrlenW_text by done. rewrite !bind_value.
    rewrite u32_add_l, u32_small by lia. unfold SPD_LAUNCH_PIPE_BUFFER_SIZE.
    destruct (Z.ltb_spec 4096 ((Z.of_nat (length P) + Z.of_nat (length t) + 1) * 2)) as [H|H].
    { by rewrite (proj2 (Z.ltb_lt _ _)) by lia. }
    rewrite Nat2Z.id. unfold buf_read. rewrite decide_True by (rewrite length_app; lia). rewrite drop_0.
    rewrite take_app_length. rewrite bind_value.
    assert (length (P ++ t ++ [0%Z]) = length P + (length t + 1))%nat as El by (rewrite !length_app; done).
    rewrite IH by (rewrite ?El; lia). rewrite El, multi_sz_cons_nil, <- !app_assoc. cbn [app].
    by rewrite (Nat.add_assoc (length P) (length t + 1)).
Qed.

Lemma copy_texts_texts Argv Args : arguments Argv Args -> copy_texts Argv = Some (multi_sz Args).
Proof.
  induction 1 as [|p t Argv Args [Ht [r ->]] HA IH]; [done|]. cbn [copy_texts].
  rewrite lstrlenW_text by done. rewrite bind_value, IH, bind_value, take_text.
  rewrite multi_sz_cons_nil. by rewrite <- app_assoc.
Qed.

(** The control program and the client library speak the same language: for the same command
    and texts they send the same message, and refuse the same texts because they are too long. *)
Theorem launchctl_speaks_launch Command Argv Args :
  arguments Argv Args -> Z.of_nat (length (multi_sz Args)) < 2 ^ 31 ->
  control_message SPD_LAUNCH_PIPE_BUFFER_SIZE Command Argv = put_arguments (Some <$> Argv) None [Command].
Proof.
  intros HA Hlen. unfold control_message. rewrite (copy_texts_texts _ _ HA), bind_value.
  rewrite (put_arguments_texts _ _ _ HA) by done. cbn [length app].
  rewrite u32_small by lia. replace ((1 + _) * 2) with (2 * Z.of_nat (1 + length (multi_sz Args))) by lia.
  by destruct (_ <? _).
Qed.

(** ** Commands *)

Section Served.
Context (DBG : bool) (Job : Z) (L : LAUNCHER) (a : COMMAND_ANSWERS).

(** The pipe, when the launcher answers: a message is one character and texts. *)
Definition served (m : list Z) : Z * list Z * Z :=
  match SvcPipeTransact DBG Job L m a with
  | Some (Rsp, _) => (ERROR_SUCCESS, Rsp, 2 * Z.of_nat (length Rsp))
  | None => (ERROR_BROKEN_PIPE, [], 0)
  end.

(** What a client gets for the error and the data of an operation. *)
Definition client_result (err : Z) (data : list Z) (Size : option Z) : LAUNCH_RESULT :=
  match Size with
  | Some n =>
      if err =? 0 then
        mkLaunchResult ERROR_SUCCESS (Some 0) (take (Z.to_nat (Z.min n (2 * Z.of_nat (length data)) / 2)) data)
          (Some (2 * Z.of_nat (length data)))
      else mkLaunchResult ERROR_SUCCESS (Some (client_error err)) [] Size
  | None => mkLaunchResult ERROR_SUCCESS (Some (client_error err)) [] None
  end.

(** A call, for the message that is made. *)
Lemma call_served Command Argv Args Size err data L' :
  arguments Argv Args -> 2 * Z.of_nat (1 + length (multi_sz Args)) <= SPD_LAUNCH_PIPE_BUFFER_SIZE ->
  SvcPipeTransact DBG Job L (Command :: multi_sz Args) a = Some (SvcPipeTransactResult err data, L') ->
  0 <= err < 2 ^ 32 ->
  SpdLaunchCallLauncherPipe served true Command (Some <$> Argv) None Size = Some (client_result err data Size).
Proof using.
  unfold SPD_LAUNCH_PIPE_BUFFER_SIZE. intros HA Hfit HT He. unfold SpdLaunchCallLauncherPipe. cbn [negb].
  rewrite (put_arguments_texts _ _ [Command] HA) by (unfold SPD_LAUNCH_PIPE_BUFFER_SIZE; cbn [length]; lia).
  unfold SPD_LAUNCH_PIPE_BUFFER_SIZE. rewrite (proj2 (Z.ltb_ge _ _)) by (cbn [length]; lia). rewrite bind_value.
  unfold served. cbn [app]. rewrite HT. change (negb (ERROR_SUCCESS =? ERROR_SUCCESS)) with false. cbv iota.
  rewrite launcher_answer_result by done. rewrite bind_value. unfold client_result.
  destruct (Z.eqb_spec err 0) as [->|Hne].
  - change (client_error 0) with 0. destruct Size as [n|]; [|done].
    assert (2 * Z.of_nat (length (SvcPipeTransactResult 0 data)) - 2 = 2 * Z.of_nat (length data)) as ->.
    { unfold SvcPipeTransactResult. change (ERROR_SUCCESS =? 0) with true. cbn [length]. lia. }
    do 3 f_equal. f_equal. f_equal. destruct (Z.ltb_spec n (2 * Z.of_nat (length data))); lia.
  - by destruct Size.
Qed.

(** The parts of a message. *)
Lemma get_parts_named c i Args :
  Forall is_text (c :: i :: Args) -> (length Args <= 9)%nat ->
  exists cp ip P1 P2, SvcPipeTransactGetPart (multi_sz (c :: i :: Args)) = (Some cp, P1) /\
    SvcPipeTransactGetPart P1 = (Some ip, P2) /\ arguments (cp :: ip :: get_parts 9 P2) (c :: i :: Args).
Proof using.
  intros Ht Hn. inversion_clear Ht as [|? ? Hc Ht']. inversion_clear Ht' as [|? ? Hi HA].
  eexists _, _, _, _. rewrite multi_sz_cons_nil, get_part_text by done. split; [reflexivity|].
  rewrite multi_sz_cons_nil, get_part_text by done. split; [reflexivity|].
  apply arguments_cons. split; [split; [done|by eexists]|].
  apply arguments_cons. split; [split; [done|by eexists]|]. by apply get_parts_texts.
Qed.
End Served.

(** C8: A client of the launcher gets what it asks for: the launcher runs the operation of the
    command on pointers to the same class, instance and arguments, and the client is told the error
    of the operation, or its data with their size, cut to the client's buffer.  Only an error that
    does not fit in an [int] is told as a broken pipe. *)
Theorem launcher_serves_clients DBG Job L a cp ip Argv c i Args :
  arguments (cp :: ip :: Argv) (c :: i :: Args) -> (length Args <= 9)%nat ->
  2 * Z.of_nat (1 + length (multi_sz (c :: i :: Args))) <= SPD_LAUNCH_PIPE_BUFFER_SIZE ->
  exists cx ix As, arguments (cx :: ix :: As) (c :: i :: Args) /\
  (forall err L', SvcInstanceStart L cx ix As Job (co_Create a) (co_Persistent a) = Some (err, L') ->
     0 <= err < 2 ^ 32 ->
     SpdLaunchStart (served DBG Job L a) true cp ip (Some <$> Argv) = Some (client_result err [] None)) /\
  (Args = [] -> forall err L', SvcInstanceStop L cx ix false (co_Access a) (co_Stop a) (co_Delete a) = Some (err, L') ->
     0 <= err < 2 ^ 32 -> SpdLaunchStop (served DBG Job L a) true cp ip = Some (client_result err [] None)) /\
  (Args = [] -> forall Size err data,
     SvcInstanceGetInfo L cx ix (co_Access a) (SPD_LAUNCH_PIPE_BUFFER_SIZE - 1) = Some (err, data) ->
     0 <= err < 2 ^ 32 -> SpdLaunchGetInfo (served DBG Job L a) true cp ip Size = Some (client_result err data Size)) /\
  (forall Size data, SvcInstanceGetNameList L (SPD_LAUNCH_PIPE_BUFFER_SIZE - 1) = Some data ->
     SpdLaunchGetNameList (served DBG Job L a) true Size = Some (client_result 0 data Size)).
Proof.
  intros HA Hn Hfit. pose proof (Forall2_length _ _ _ HA) as Hl. simpl in Hl.
  destruct (get_parts_named c i Args (arguments_texts _ _ HA) Hn) as (cx & ix & P1 & P2 & E1 & E2 & HA').
  exists cx, ix, (get_parts 9 P2). split; [done|]. split_and!.
  - intros err L' HS He. unfold SpdLaunchStart. rewrite length_fmap. rewrite (proj2 (Z.ltb_ge _ _)) by lia.
    eapply (call_served DBG Job L a SpdLaunchCmdStart (cp :: ip :: Argv)); try done.
    unfold SvcPipeTransact. rewrite E1, E2. change (SpdLaunchCmdStart =? SpdLaunchCmdStart) with true. cbv iota zeta.
    by rewrite HS, bind_value.
  - intros -> err L' HS He. destruct Argv; [|simpl in Hl; lia].
    eapply (call_served DBG Job L a SpdLaunchCmdStop [cp; ip]); try done.
    unfold SvcPipeTransact. rewrite E1, E2. cbv iota zeta.
    change (SpdLaunchCmdStart =? SpdLaunchCmdStop) with false.
    change (SpdLaunchCmdStopForced =? SpdLaunchCmdStop) with false.
    change (SpdLaunchCmdStop =? SpdLaunchCmdStop) with true. cbv iota. cbn [orb]. by rewrite HS, bind_value.
  - intros -> Size err data HS He. destruct Argv; [|simpl in Hl; lia].
    eapply (call_served DBG Job L a SpdLaunchCmdGetInfo [cp; ip]); try done.
    unfold SvcPipeTransact. rewrite E1, E2. cbv iota zeta.
    change (SpdLaunchCmdStart =? SpdLaunchCmdGetInfo) with false.
    change (SpdLaunchCmdStopForced =? SpdLaunchCmdGetInfo) with false.
    change (SpdLaunchCmdStop =? SpdLaunchCmdGetInfo) with false.
    change (SpdLaunchCmdGetInfo =? SpdLaunchCmdGetInfo) with true. cbv iota. cbn [orb]. by rewrite HS, bind_value.
  - intros Size data HS.
    eapply (call_served DBG Job L a SpdLaunchCmdGetNameList [] []); try done; [constructor|].
    unfold SvcPipeTransact. cbn [SvcPipeTransactGetPart multi_sz concat fmap list_fmap after_part]. 
    cbv iota zeta.
    change (SpdLaunchCmdStart =? SpdLaunchCmdGetNameList) with false.
    change (SpdLaunchCmdStopForced =? SpdLaunchCmdGetNameList) with false.
    change (SpdLaunchCmdStop =? SpdLaunchCmdGetNameList) with false.
    change (SpdLaunchCmdGetInfo =? SpdLaunchCmdGetNameList) with false.
    change (SpdLaunchCmdGetNameList =? SpdLaunchCmdGetNameList) with true. cbv iota. cbn [orb]. by rewrite HS, bind_value.
Qed.

(** ** What the control program prints *)

Lemma print_parts_app u v k :
  print_parts (u ++ v) k = print_parts u k ++ print_parts v (k + length (filter (fun c => c = 0) u)).
Proof.
  revert k. induction u as [|c u IH]; intros k; [by rewrite Nat.add_0_r|]. cbn [app print_parts].
  rewrite filter_cons. destruct (Z.eqb_spec c 0) as [->|Hc].
  - rewrite decide_True by done. rewrite IH. cbn [length app]. by rewrite Nat.add_succ_r.
  - rewrite decide_False by done. by rewrite IH.
Qed.

Lemma text_no_zero t : is_text t -> filter (fun c => c = 0) t = [].
Proof. induction 1 as [|c t Hc Ht IH]; [done|]. rewrite filter_cons. by rewrite decide_False. Qed.

Lemma print_parts_text t k : is_text t -> print_parts t k = t.
Proof.
  intros Ht. revert k. induction Ht as [|c t Hc Ht IH]; intros k; [done|]. cbn [print_parts].
  rewrite (proj2 (Z.eqb_neq c 0)) by done. by rewrite IH.
Qed.

(** A name as a line. *)
Definition name_line (n : list Z * list Z) : list Z := n.1 ++ [32] ++ n.2 ++ [10].
Definition names_sz (ns : list (list Z * list Z)) : list Z := concat ((fun n => multi_sz [n.1; n.2]) <$> ns).
Definition names_text (ns : list (list Z * list Z)) : Prop := Forall (fun n => is_text n.1 /\ is_text n.2) ns.

Lemma print_parts_part t k : is_text t -> print_parts (t ++ [0]) k = t ++ [if Nat.odd k then 10 else 32].
Proof.
  intros Ht. rewrite print_parts_app, print_parts_text, text_no_zero by done. cbn [print_parts length].
  change (0 =? 0) with true. by rewrite Nat.add_0_r.
Qed.

Lemma print_names ns k :
  names_text ns -> Nat.odd k = false -> print_parts (names_sz ns) k = concat (name_line <$> ns).
Proof.
  intros Hns. revert k. induction Hns as [|[c i] ns [Hc Hi] Hns IH]; intros k Hk; [done|]. cbn in Hc, Hi.
  unfold names_sz. rewrite !fmap_cons. cbn [concat fst snd]. fold (names_sz ns).
  assert (multi_sz [c; i] = (c ++ [0]) ++ (i ++ [0])) as -> by (unfold multi_sz; cbn; by rewrite app_nil_r).
  assert (forall t, is_text t -> length (filter (fun x => x = 0) (t ++ [0])) = 1%nat) as Hf.
  { intros t Ht. rewrite filter_app, text_no_zero by done. done. }
  rewrite print_parts_app. rewrite filter_app, length_app, !Hf by done.
  rewrite IH by (rewrite Nat.odd_add; by rewrite Hk). rewrite print_parts_app, Hf, !print_parts_part by done.
  rewrite Hk, Nat.odd_add, Hk. unfold name_line. cbn [fst snd]. by rewrite <- !app_assoc.
Qed.

Lemma until_zero_text t : is_text t -> until_zero t = t.
Proof.
  intros Ht. unfold until_zero, wcs. assert (lstrlenW t = None) as ->; [|done].
  induction Ht as [|c t Hc Ht IH]; [done|]. cbn [lstrlenW]. rewrite (proj2 (Z.eqb_neq c 0)) by done. by rewrite IH.
Qed.

Lemma names_lines_text ns : names_text ns -> is_text (concat (name_line <$> ns)).
Proof.
  induction 1 as [|[c i] ns [Hc Hi] Hns IH]; [constructor|]. cbn in Hc, Hi. rewrite fmap_cons. cbn [concat].
  unfold name_line. cbn [fst snd]. repeat (apply Forall_app; split); try done; by repeat constructor.
Qed.

Lemma names_sz_length ns : length (names_sz ns) = length (concat (name_line <$> ns)).
Proof.
  induction ns as [|[c i] ns IH]; [done|]. unfold names_sz, name_line in *. rewrite !fmap_cons. cbn [concat fst snd].
  rewrite !length_app, IH, !multi_sz_cons_length. simpl. lia.
Qed.

(** The control program prints the names that the launcher lists, each with its class on a line
    of its own; only when the answer fills the whole buffer is the last end of a line lost. *)
Theorem launchctl_lists_names (Call : list Z -> Z * list Z * Z) ns :
  names_text ns -> ns <> [] -> 2 * Z.of_nat (1 + length (names_sz ns)) <= SPD_LAUNCH_PIPE_BUFFER_SIZE ->
  Call [SpdLaunchCmdGetNameList] =
    (ERROR_SUCCESS, SvcPipeTransactResult ERROR_SUCCESS (names_sz ns), 2 * Z.of_nat (1 + length (names_sz ns))) ->
  let lines := concat (name_line <$> ns) in
  wmain Call SPD_LAUNCH_PIPE_BUFFER_SIZE true [LIST] =
    Some (Some (0, Some (Ok (Some (
      if 2 * Z.of_nat (1 + length (names_sz ns)) =? SPD_LAUNCH_PIPE_BUFFER_SIZE
      then take (length lines - 1) lines else lines))))).
Proof.
  intros Hns Hne Hfit HC lines. unfold SPD_LAUNCH_PIPE_BUFFER_SIZE in *.
  assert (wmain Call 4096 true [LIST] = (v ← list_ Call 4096; Some (Some v))) as -> by done.
  unfold list_, control_call. change (control_message 4096 SpdLaunchCmdGetNameList []) with (Some (Some [SpdLaunchCmdGetNameList])).
  rewrite bind_value. unfold call_pipe_and_report. rewrite HC.
  assert (1 <= length (names_sz ns))%nat as Hlen.
  { destruct ns as [|[c i] ns]; [done|]. unfold names_sz. rewrite fmap_cons. cbn [concat fst snd].
    rewrite length_app, !multi_sz_cons_length. lia. }
  set (n := length (names_sz ns)) in *.
  change (negb (0 =? ERROR_SUCCESS)) with false. cbv iota. rewrite Z.gtb_ltb, (proj2 (Z.ltb_ge _ _)) by lia.
  unfold SvcPipeTransactResult. change (ERROR_SUCCESS =? ERROR_SUCCESS) with true. cbv iota. cbn [lookup list_lookup].
  rewrite bind_value. change (SpdLaunchCmdSuccess =? SpdLaunchCmdSuccess) with true. cbv iota.
  rewrite (proj2 (Z.eqb_neq 2 _)) by lia. replace (Z.to_nat _) with (S n) by dlia.
  unfold buf_read. rewrite decide_True by (cbn [length]; lia). rewrite drop_0. rewrite firstn_all2 by (cbn [length]; lia).
  rewrite bind_value. cbn [print_parts]. change (SpdLaunchCmdSuccess =? 0) with false. cbv iota.
  rewrite print_names by done. unfold report_text. fold lines.
  assert (length lines = n) as Hl by (symmetry; apply names_sz_length).
  pose proof (names_lines_text ns Hns) as Ht. fold lines in Ht. cbn [length]. rewrite Hl.
  destruct (Z.ltb_spec (2 * Z.of_nat (1 + n)) 4096) as [H|H].
  - rewrite (proj2 (Z.ltb_ge _ _)) by dlia. rewrite bind_value. rewrite (proj2 (Z.eqb_neq _ 4096)) by lia.
    replace (Z.to_nat _) with (S n) by dlia. cbn [take tail]. rewrite firstn_all2 by lia. by rewrite until_zero_text.
  - rewrite (proj2 (Z.ltb_ge _ _)) by dlia. rewrite bind_value. rewrite (proj2 (Z.eqb_eq _ 4096)) by lia.
    replace (Z.to_nat _) with (S (n - 1)) by dlia. cbn [take tail]. rewrite until_zero_text by (by apply Forall_take).
    done.
Qed.

(** ** Instances of the theorems *)

(** Pointers to the texts [c], [i] and [b]. *)
Lemma letters_arguments : arguments [[99; 0]; [105; 0]; [98; 0]] [[99]; [105]; [98]].
Proof. repeat (apply Forall2_cons; split); [split; [|by exists []]; by repeat constructor..|constructor]. Qed.

Lemma launchctl_speaks_launch_witness :
  control_message SPD_LAUNCH_PIPE_BUFFER_SIZE SpdLaunchCmdStart [[99; 0]; [105; 0]; [98; 0]] =
    put_arguments (Some <$> [[99; 0]; [105; 0]; [98; 0]]) None [SpdLaunchCmdStart].
Proof. apply (launchctl_speaks_launch _ _ _ letters_arguments). by vm_compute. Defined.

(** No answer is needed by a list of names. *)
Definition no_answers : COMMAND_ANSWERS :=
  mkCommandAnswers
    (mkCreateAnswers ERROR_ACCESS_DENIED (0, []) (0, []) (0, []) (0, []) (0, 0) (fun _ => (0, 0)) (true, true, 0)
       (mkRightsAnswers true 0 true true 0 0 0) 0 true (mkProcessAnswers 0 [] 0 true 0 (mkProcessInformation 0 0 0)) (0, 0))
    (mkPersistentAnswers 0 (0, 0) None true 0 0) (true, true, 0)
    (mkStopAnswers (inl 0) true (mkKillAnswers true true 0 0)) (0, 0, 0).

(** A start of an instance of a class that is not there: the client is told so. *)
Lemma launcher_serves_clients_witness :
  SpdLaunchStart (served false 0 (mkLauncher [] ∅ true ∅ ∅ []) no_answers) true [99; 0] [105; 0] [Some [98; 0]] =
    Some (client_result ERROR_ACCESS_DENIED [] None).
Proof.
  destruct (launcher_serves_clients false 0 (mkLauncher [] ∅ true ∅ ∅ []) no_answers _ _ _ _ _ _ letters_arguments)
    as (c & i & As & HA & HS & _); [by vm_compute; lia|by vm_compute|].
  apply arguments_cons in HA as [[_ [r ->]] HA]. apply arguments_cons in HA as [[_ [r' ->]] HA].
  apply (HS ERROR_ACCESS_DENIED (mkLauncher [] ∅ true ∅ ∅ [])); [|by split].
  unfold SvcInstanceStart, SvcInstanceCreate. reflexivity.
Defined.

Lemma launchctl_lists_names_witness :
  let Call := fun m : list Z => if bool_decide (m = [SpdLaunchCmdGetNameList]) then
    (ERROR_SUCCESS, SvcPipeTransactResult ERROR_SUCCESS (names_sz [([99], [105])]), 10) else (5, [], 0) in
  wmain Call SPD_LAUNCH_PIPE_BUFFER_SIZE true [LIST] = Some (Some (0, Some (Ok (Some [99; 32; 105; 10])))).
Proof.
  intros Call. apply (launchctl_lists_names Call [([99], [105])]); [|done|by vm_compute|reflexivity].
  repeat constructor; done.
Defined.
