(* ===== verification/LaunchServerProps.v ===== *)
(** * Properties of the service of the launcher *)

From S2P Require Import Prelude Wdk IoctlTypes Minimal MinimalProps StrToInt LaunchText LaunchTextProps Launcher LaunchServer.
From S2P Require Import LauncherInv LauncherCreate LauncherRun LaunchClient LaunchClientProps.

#[local] Set Warnings "-clear-no-such-hyp".

(** ** Answers fit in the buffer *)

(** The texts of the instances are not absurdly long. *)
Definition texts_short (L : LAUNCHER) : Prop := forall x i n, SvcInstances L !! x = Some i ->
  lstrlenW (si_ClassName i) = Some n \/ lstrlenW (si_InstanceName i) = Some n \/
  lstrlenW (si_CommandLine i) = Some n -> Z.of_nat n < 2 ^ 30.

Lemma name_list_length l L n t : name_list l L n = Some t -> 0 <= n -> Z.of_nat (length t) <= n.
Proof.
  revert n t. induction l as [|a l IH]; intros n t; cbn [name_list]; [intros [= <-]; cbn; lia|].
  intros (i & _ & (nc & _ & (ni & _ & E)%bind_Some)%bind_Some)%bind_Some Hn.
  destruct (Z.ltb_spec n (Z.of_nat nc + 1 + (Z.of_nat ni + 1))) as [H|H]; [injection E as <-; cbn; lia|].
  apply bind_Some in E as (t' & E & [= <-]). apply IH in E; [|lia].
  rewrite !length_app, !length_take. lia.
Qed.

Lemma get_info_length L c i Access Size err data :
  texts_short L -> 0 <= Size -> SvcInstanceGetInfo L c i Access Size = Some (err, data) ->
  2 * Z.of_nat (length data) <= Size.
Proof.
  intros HL Hs (r & _ & E)%bind_Some. destruct r as [x|]; [|injection E as <- <-; cbn; lia].
  cbv zeta in E. destruct (negb _); [injection E as <- <-; cbn; lia|].
  apply bind_Some in E as (s & Hx & (nc & H1 & (ni & H2 & (nl & H3 & E)%bind_Some)%bind_Some)%bind_Some).
  pose proof (HL x s nc Hx (or_introl H1)). pose proof (HL x s ni Hx (or_intror (or_introl H2))).
  pose proof (HL x s nl Hx (or_intror (or_intror H3))).
  rewrite (u32_small (Z.of_nat nc + 1)), (u32_small (Z.of_nat ni + 1)), (u32_small (Z.of_nat nl + 1)) in E by lia.
  rewrite u32_add_l, u32_small in E by lia.
  destruct (Z.ltb_spec Size ((Z.of_nat nc + 1 + (Z.of_nat ni + 1) + (Z.of_nat nl + 1)) * 2)) as [Hlt|Hle];
    injection E as <- <-; [cbn; lia|]. rewrite !length_app, !length_take. lia.
Qed.

Lemma result_length e data n :
  2 * Z.of_nat (length data) <= n - 2 -> 26 <= n -> 2 * Z.of_nat (length (SvcPipeTransactResult e data)) <= n.
Proof.
  intros Hd Hn. unfold SvcPipeTransactResult. destruct (_ =? _); cbn [length]; [lia|].
  rewrite length_app. pose proof (format_ld_length e). cbn [length]. lia.
Qed.

(** C35: Whatever message a client sends, the answer of the launcher fits in its buffer. *)
Theorem launcher_answer_fits DBG Job L m a Rsp L' :
  texts_short L -> SvcPipeTransact DBG Job L m a = Some (Rsp, L') ->
  2 * Z.of_nat (length Rsp) <= SPD_LAUNCH_PIPE_BUFFER_SIZE.
Proof.
  unfold SPD_LAUNCH_PIPE_BUFFER_SIZE. intros HL E. destruct m as [|Command P]; [injection E as <- <-; cbn; lia|].
  assert (forall e, 2 * Z.of_nat (length (SvcPipeTransactResult e [])) <= 4096) as Hnil.
  { intros e. apply result_length; cbn; lia. }
  unfold SvcPipeTransact in E. destruct (SvcPipeTransactGetPart P) as [c P1].
  destruct (SvcPipeTransactGetPart P1) as [i P2]. cbv zeta in E. unfold SPD_LAUNCH_PIPE_BUFFER_SIZE in E.
  destruct (_ =? Command); [|destruct (_ || _); [|destruct (_ =? Command); [|destruct (_ =? Command); [|destruct (_ && _)]]]].
  - destruct c as [c|]; [destruct i as [i|]|]; [|injection E as <- <-; apply Hnil..].
    apply bind_Some in E as ([err L1] & _ & E). injection E as <- <-. apply Hnil.
  - destruct c as [c|]; [destruct i as [i|]|]; [|injection E as <- <-; apply Hnil..].
    apply bind_Some in E as ([err L1] & _ & E). injection E as <- <-. apply Hnil.
  - destruct c as [c|]; [destruct i as [i|]|]; [|injection E as <- <-; apply Hnil..].
    apply bind_Some in E as ([err data] & Ed & E). injection E as <- <-. apply get_info_length in Ed; [|done|lia].
    apply result_length; lia.
  - apply bind_Some in E as (data & Ed & E). injection E as <- <-. apply name_list_length in Ed; [|dlia].
    apply result_length; dlia.
  - injection E as <- <-. apply Hnil.
  - injection E as <- <-. apply Hnil.
Qed.

(** ** Commands as steps *)

(** A message of the pipe: characters, as many as its buffer holds. *)
Definition message (m : list Z) : Prop :=
  Forall (fun c => 0 <= c < 2 ^ 16) m /\ 2 * Z.of_nat (length m) <= SPD_LAUNCH_PIPE_BUFFER_SIZE.

(** The answers of the system for a command are as documented. *)
Definition command_ok (S : SYSTEM) (m : list Z) (a : COMMAND_ANSWERS) : Prop :=
  match m with
  | [] => True
  | Command :: _ =>
      if SpdLaunchCmdStart =? Command then
        create_errors (co_Create a) /\ create_fresh (sy_Launcher S) (co_Create a) /\ create_texts [] (co_Create a) /\
        forall s, pe_Security (co_Persistent a) = Some s -> short_text s
      else if (SpdLaunchCmdStopForced =? Command) || (SpdLaunchCmdStop =? Command) then
        stop_ok (sy_Launcher S) (co_Stop a)
      else True
  end.

(** And it is not one of the cases that the code does not handle, as in [handled]. *)
Definition command_handled (S : SYSTEM) (m : list Z) (a : COMMAND_ANSWERS) : Prop :=
  match m with
  | [] => True
  | Command :: P =>
      let readable := forall c i P1 P2,
        SvcPipeTransactGetPart P = (Some c, P1) -> SvcPipeTransactGetPart P1 = (Some i, P2) -> pid_readable c i in
      if SpdLaunchCmdStart =? Command then template_complete (co_Create a)
      else if (SpdLaunchCmdStopForced =? Command) || (SpdLaunchCmdStop =? Command) then
        readable /\ no_volume_in_use (sy_Launcher S) (co_Stop a)
      else if SpdLaunchCmdGetInfo =? Command then readable
      else True
  end.

(** The parts of a message. *)
Lemma get_part_part P p P' :
  Forall (fun c => 0 <= c < 2 ^ 16) P -> Z.of_nat (length P) < 2 ^ 15 -> SvcPipeTransactGetPart P = (Some p, P') ->
  terminated p /\ short_text p /\ Forall (fun c => 0 <= c < 2 ^ 16) P' /\ Z.of_nat (length P') < 2 ^ 15.
Proof.
  intros HP Hlen. unfold SvcPipeTransactGetPart. destruct (after_part P) as [P1|] eqn:E; [|done].
  intros [= <- <-].
  assert (exists t, text t /\ P = t ++ 0 :: P1) as (t & Ht & ->).
  { clear Hlen. revert E. induction HP as [|c P Hc HP IH]; [done|]. cbn [after_part].
    destruct (Z.eqb_spec c 0) as [->|Hne]; [intros [= ->]; by exists []; split; [constructor|]|].
    intros (t & Ht & ->)%IH. exists (c :: t). split; [|done]. constructor; [lia|done]. }
  rewrite length_app in Hlen. cbn [length] in Hlen. apply Forall_app in HP as [_ [_ HP1]%Forall_cons].
  split; [by exists t, P1|]. split; [|split; [done|lia]]. exists t, P1. split; [by apply text_is_text|]. split; [lia|done].
Qed.

Lemma get_parts_short n P :
  Forall (fun c => 0 <= c < 2 ^ 16) P -> Z.of_nat (length P) < 2 ^ 15 ->
  Forall short_text (get_parts n P) /\ (length (get_parts n P) <= n)%nat.
Proof.
  revert P. induction n as [|n IH]; intros P HP Hlen; cbn [get_parts]; [by split; [constructor|]|].
  destruct (SvcPipeTransactGetPart P) as [[p|] P'] eqn:E; [|split; [constructor|simpl; lia]].
  destruct (get_part_part P p P' HP Hlen E) as (_ & Hs & HP' & Hl'). destruct (IH P' HP' Hl') as [IH1 IH2].
  split; [by constructor|simpl; lia].
Qed.

(** A step that can be made is made. *)
Lemma reach_enabled S o :
  system_reach S -> enabled S o -> handled S o -> exists S', system_step S o = Some S' /\ system_reach S'.
Proof.
  intros HR He Hh. destruct (system_step_wf S o (system_reach_wf S HR) He Hh) as (S' & E & _).
  exists S'. split; [done|]. by eapply reach_step.
Qed.

(** The start of an instance: its creation, the registry, and the thread's reference. *)
Lemma start_steps S c i Argv Job ca p :
  system_reach S -> enabled S (ACreate true None c i Argv Job ca) -> template_complete ca -> persistent_ok Argv p ->
  exists err S', SvcInstanceStart (sy_Launcher S) c i Argv Job ca p = Some (err, sy_Launcher S') /\ system_reach S' /\
    creators S' = creators S.
Proof.
  intros HR He Hcomp Hp. destruct (reach_enabled S _ HR He Hcomp) as (S1 & E1 & HR1). cbn [system_step] in E1.
  apply bind_Some in E1 as ([[err x] L1] & EC & E1). injection E1 as E1. unfold SvcInstanceStart. rewrite EC, bind_value.
  rewrite (Z.eqb_sym ERROR_SUCCESS err).
  destruct (Z.eqb_spec err ERROR_SUCCESS) as [->|Hne]; cbn [negb]; subst S1; [|by eexists _, (with_launcher S L1)].
  set (S1 := mkSystem L1 _ _ _) in *.
  assert (x ∉ creators S) as Hx.
  { intros Hx. destruct (sw_dom S (system_reach_wf S HR) x (or_introl Hx)) as [i0 Hi0].
    destruct He as (H1 & H2 & H3 & H4 & H5).
    destruct (SvcInstanceCreate_owns (sy_Launcher S) true None c i Argv Job ca) as (err' & x' & L1' & EC' & HC);
      try done; [by destruct (system_reach_wf S HR)..|].
    rewrite EC in EC'. injection EC' as <- <- <-. destruct HC as (_ & _ & [[]|(_ & _ & Hf & _)]); congruence. }
  destruct (reach_enabled S1 (APersist x Argv p) HR1) as (S2 & E2 & HR2); [split; [set_solver|done]|done|].
  cbn [system_step] in E2. apply bind_Some in E2 as (L2 & EP & [= <-]). change (sy_Launcher S1) with L1 in EP.
  rewrite EP, bind_value.
  destruct (reach_enabled (with_launcher S1 L2) (ARelease x) HR2) as (S3 & E3 & HR3); [cbn; set_solver|done|].
  cbn [system_step] in E3. apply bind_Some in E3 as ([last L3] & ER & [= <-]). cbn in ER.
  unfold SvcInstanceRelease. rewrite ER, bind_value.
  destruct (proj1 (bind_Some _ _ _) ER) as (j & Hj & E). injection E as El EL.
  destruct (sw_RefCount _ (system_reach_wf _ HR2) x j Hj) as [HRC _]. cbn in HRC.
  rewrite !bool_decide_eq_true_2 in HRC by set_solver.
  assert (last = false) as ->. { rewrite <- El. cbn. rewrite HRC. done. }
  eexists _, (mkSystem L3 _ _ _). split; [reflexivity|]. split; [exact HR3|]. cbn. set_solver.
Qed.

(** C7: The server's thread runs every command of a client as steps of the launcher's threads, so
    that every command ends with an answer and leaves the launcher in a state in which it is safe,
    and the thread keeps no reference to an instance: for every message, with answers of the system
    that are as documented ([command_ok]), but for the three cases that the code does not handle
    ([command_handled]): the template of the command line of a class that ends in a percent sign, a
    volume that is in use after another one was dismounted, a number of a process that
    overflows. *)
Theorem server_runs_commands S Job m a :
  system_reach S -> message m -> command_ok S m a -> command_handled S m a ->
  exists Rsp S', SvcPipeTransact false Job (sy_Launcher S) m a = Some (Rsp, sy_Launcher S') /\ system_reach S' /\
    creators S' = creators S.
Proof.
  intros HR [Hm Hlen] Hok Hh. destruct m as [|Command P]; [by eexists _, S|].
  apply Forall_cons in Hm as [_ HP]. unfold SPD_LAUNCH_PIPE_BUFFER_SIZE in Hlen. cbn [length] in Hlen.
  assert (Z.of_nat (length P) < 2 ^ 15) as HlP by lia. clear Hlen.
  unfold SvcPipeTransact. cbn [command_ok command_handled] in Hok, Hh. cbv zeta in Hh.
  destruct (SvcPipeTransactGetPart P) as [c P1] eqn:Ec. destruct (SvcPipeTransactGetPart P1) as [i P2] eqn:Ei. cbv zeta.
  destruct (SpdLaunchCmdStart =? Command);
    [|destruct (_ || _); [|destruct (SpdLaunchCmdGetInfo =? Command); [|destruct (_ =? Command)]]].
  - destruct c as [c|]; [destruct i as [i|]|]; [|by eexists _, S..].
    destruct (get_part_part P c P1 HP HlP Ec) as (Hc & _ & HP1 & Hl1).
    destruct (get_part_part P1 i P2 HP1 Hl1 Ei) as (Hi & _ & HP2 & Hl2).
    destruct (get_parts_short 9 P2 HP2 Hl2) as [Hs Hn]. destruct Hok as (He & Hf & [] & Hp).
    destruct (start_steps S c i (get_parts 9 P2) Job (co_Create a) (co_Persistent a) HR) as (err & S' & -> & HR' & HC);
      [by split_and!; try done; constructor|done|by split_and!|]. rewrite bind_value. by eexists _, S'.
  - destruct c as [c|]; [destruct i as [i|]|]; [|by eexists _, S..].
    destruct (get_part_part P c P1 HP HlP Ec) as (Hc & _ & HP1 & Hl1).
    destruct (get_part_part P1 i P2 HP1 Hl1 Ei) as (Hi & _ & _). destruct Hh as [Hp Huse].
    destruct (reach_enabled S (AStop c i (SpdLaunchCmdStopForced =? Command) (co_Access a) (co_Stop a) (co_Delete a)) HR)
      as (S' & E & HR'); [done|by split; [by eapply Hp|]|]. cbn [system_step] in E.
    apply bind_Some in E as ([err L1] & -> & [= <-]). rewrite bind_value. by eexists _, (with_launcher S L1).
  - destruct c as [c|]; [destruct i as [i|]|]; [|by eexists _, S..].
    destruct (get_part_part P c P1 HP HlP Ec) as (Hc & _ & HP1 & Hl1).
    destruct (get_part_part P1 i P2 HP1 Hl1 Ei) as (Hi & _ & _).
    destruct (reach_enabled S (AGetInfo c i (co_Access a) (SPD_LAUNCH_PIPE_BUFFER_SIZE - 1)) HR)
      as (S' & E & HR'); [done|by eapply Hh|]. cbn [system_step] in E.
    apply bind_Some in E as ([err data] & -> & [= <-]). rewrite bind_value. by eexists _, S.
  - destruct (reach_enabled S (AGetNameList (SPD_LAUNCH_PIPE_BUFFER_SIZE - 1)) HR I I) as (S' & E & HR').
    cbn [system_step] in E. apply bind_Some in E as (data & -> & [= <-]). rewrite bind_value. by eexists _, S.
  - by eexists _, S.
Qed.

(** ** Sessions *)

(** A round for a server without a client. *)
Lemma server_round_session DBG Job s r go s' m :
  server_round DBG Job s r = Some (go, s', m) -> sv_Connected s = false ->
  (go = true -> sv_Connected s' = false) /\
  (sv_Impersonating s' = true -> sv_Impersonating s = true \/
     (rn_Impersonate r = true /\ (rn_Token r = 0 \/ (rn_Revert r = false /\ go = false)))) /\
  (is_Some m -> sv_Impersonating s' = false).
Proof.
  intros E Hc. unfold server_round in E. cbv zeta in E.
  destruct (STOP_THREAD =? _); [injection E as <- <- <-; split_and!; [done|auto|by intros []]|].
  destruct (_ && _); [injection E as <- <- <-; split_and!; [done|auto|by intros []]|].
  destruct (STOP_THREAD =? _); [injection E as <- <- <-; split_and!; [done|auto|by intros []]|].
  destruct (_ || _); [injection E as <- <- <-; split_and!; [done|auto|by intros []]|].
  destruct (rn_Impersonate r); cbn [negb] in E; [|injection E as <- <- <-; split_and!; [done|auto|by intros []]].
  destruct (Z.eqb_spec 0 (rn_Token r)) as [H0|H0]; [injection E as <- <- <-; split_and!; [done|auto|by intros []]|].
  destruct (rn_Revert r); cbn [negb] in E.
  - apply bind_Some in E as ([Rsp L1] & _ & E). apply bind_Some in E as (L2 & _ & E).
    destruct (STOP_THREAD =? _); injection E as <- <- <-; split_and!; try done.
  - apply bind_Some in E as (L2 & _ & E). injection E as <- <- <-. split_and!; [done|auto|by intros []].
Qed.

(** Between two rounds of the server no client is connected.  The thread of the server still acts
    for a client between two rounds only if the token of one could not be opened after it had
    started to act for it: then the server goes on all the same. *)
Theorem server_sessions DBG Job rs L go s' :
  server_loop DBG Job rs (mkServer L false false) = Some (go, s') ->
  (go = true -> sv_Connected s' = false) /\
  (sv_Impersonating s' = true ->
     exists r, r ∈ rs /\ rn_Impersonate r = true /\ (rn_Token r = 0 \/ (rn_Revert r = false /\ go = false))).
Proof.
  assert (forall rs s, sv_Connected s = false -> server_loop DBG Job rs s = Some (go, s') ->
    (go = true -> sv_Connected s' = false) /\
    (sv_Impersonating s' = true -> sv_Impersonating s = true \/
       exists r, r ∈ rs /\ rn_Impersonate r = true /\ (rn_Token r = 0 \/ (rn_Revert r = false /\ go = false)))) as H.
  { clear rs L. intros rs. induction rs as [|r rs IH]; intros s Hc E; cbn [server_loop] in E.
    { injection E as <- <-. auto. }
    apply bind_Some in E as ([[g s1] m] & E1 & E). destruct (server_round_session _ _ _ _ _ _ _ E1 Hc) as (H1 & H2 & _).
    destruct g.
    - destruct (IH s1 (H1 eq_refl) E) as [H3 H4]. split; [done|]. intros Hi.
      destruct (H4 Hi) as [Hi1|(r' & Hr' & HX)]; [|right; exists r'; split; [set_solver|done]].
      destruct (H2 Hi1) as [|(? & [?|[_ ?]])]; [by left| |done]. right. exists r. split; [set_solver|auto].
    - injection E as <- <-. split; [done|]. intros Hi. destruct (H2 Hi) as [|HX]; [by left|].
      right. exists r. split; [set_solver|done]. }
  intros E. destruct (H rs (mkServer L false false) eq_refl E) as [H1 H2]. split; [done|].
  intros Hi. destruct (H2 Hi) as [|]; [done|done].
Qed.

(** ** Instances of the theorems *)

Lemma launcher_answer_fits_witness :
  2 * Z.of_nat (length [33; 56; 55; 0]) <= SPD_LAUNCH_PIPE_BUFFER_SIZE.
Proof.
  apply (launcher_answer_fits true 0 (mkLauncher [] ∅ true ∅ ∅ []) [90] no_answers _ (mkLauncher [] ∅ true ∅ ∅ [])).
  - intros x i n Hx. cbn [SvcInstances] in Hx. by rewrite lookup_empty in Hx.
  - reflexivity.
Defined.

(** The start of an instance, by the message [S], [c], [i], [b]. *)
Lemma server_runs_commands_witness :
  exists Rsp S', SvcPipeTransact false 0 (sy_Launcher system_start) [83; 99; 0; 105; 0; 98; 0]
      (mkCommandAnswers answers_1000 (co_Persistent no_answers) (co_Access no_answers) (co_Stop no_answers)
         (co_Delete no_answers)) = Some (Rsp, sy_Launcher S') /\
    system_reach S' /\ creators S' = creators system_start.
Proof.
  apply (server_runs_commands system_start 0 [83; 99; 0; 105; 0; 98; 0]); [apply reach_start|..].
  - split; [repeat constructor; lia|vm_compute; discriminate].
  - split_and!; [|constructor; [done..|]|by apply creation_texts|intros s [=]]; constructor; cbn; done.
  - apply creation_handled.
Defined.

(** A client whose token cannot be opened. *)
Definition no_token : ROUND :=
  mkRound (mkPipeIo true 0 1 true 0) (mkPipeIo true 0 1 true 0) 2 [76] true 0 true no_answers (mkPipeIo true 0 1 true 0).

Lemma server_sessions_witness :
  server_loop false 0 [no_token] (mkServer (mkLauncher [] ∅ true ∅ ∅ []) false false) =
    Some (true, mkServer (mkLauncher [] ∅ true ∅ ∅ []) false true) /\
  exists r, r ∈ [no_token] /\ rn_Impersonate r = true /\ (rn_Token r = 0 \/ (rn_Revert r = false /\ true = false)).
Proof.
  split; [reflexivity|].
  apply (server_sessions false 0 [no_token] (mkLauncher [] ∅ true ∅ ∅ []) true
    (mkServer (mkLauncher [] ∅ true ∅ ∅ []) false true)); reflexivity.
Defined.
