(* ===== verification/ScsiText.v ===== *)
(** * The text of SCSI data: [scsitool/scsitext.c]

    [ScsiText] interprets a format, line by line, over a buffer: each line has the type and the
    width of a field and its name.  A text is the list of the characters from a pointer on, the
    terminating zero among them; reading past its end, or outside of the buffer, is [None].  The
    printers turn the fields into lines or into a table, through a buffer of their own. *)

From S2P Require Import Prelude Wdk Minimal StrToInt.

(** ** Fields *)

Inductive WARNING :=
  | DataLengthMismatch
  | NonZeroReserved.

(** What the callback is given: a number, or the bytes of a part of the buffer. *)
Record FIELD := mkField {
  fd_type : Z; fd_width : Z; fd_name : list Z; fd_uval : Z; fd_pval : list Z; fd_warn : option WARNING
}.

(** The variables of the loop. *)
Record TEXT := mkText {
  tx_p : list Z; tx_star : option (list Z); tx_m : Z; tx_bitpos : Z; tx_len : Z
}.

(** ** Names *)

Fixpoint skip_spaces (p : list Z) : option (list Z) :=
  match p with
  | [] => None
  | c :: p' => if 32 =? c then skip_spaces p' else Some p
  end.

(** [(n-7)]: the number, for the letter [n]. *)
Definition name_mark (letter : Z) (p : list Z) : option (option Z) :=
  c0 ← p !! 0%nat;
  if 40 =? c0 then
    c1 ← p !! 1%nat;
    if letter =? c1 then
      c2 ← p !! 2%nat;
      if 45 =? c2 then
        '(v, q) ← strtoint (drop 3 p) 10 false;
        c ← q !! 0%nat;
        Some (if 41 =? c then Some (u32 v) else None)
      else Some None
    else Some None
  else Some None.

(** The end of the name, and the numbers of its marks. *)
Fixpoint scan_name (p : list Z) (nminusv mminusv : Z) : option (list Z * Z * Z) :=
  match p with
  | [] => None
  | c :: p' =>
      if (c =? 0) || (c =? 10) then Some (p, nminusv, mminusv)
      else
        n ← name_mark 110 p;
        match n with
        | Some v => scan_name p' v mminusv
        | None => m ← name_mark 109 p; scan_name p' nminusv (default mminusv m)
        end
  end.

(** ** Numbers *)

(** The loop over the bytes that a number of [loopw] bits touches. *)
Fixpoint read_bits (fuel : nat) (buf : list Z) (bitpos loopw uval : Z) : option (Z * Z) :=
  match fuel with
  | O => None
  | S fuel =>
      if 0 <? loopw then
        let endpos := u64 (bitpos + 8) .& u64 (Z.lnot 7) in
        let w := if u64 (bitpos + loopw) >? endpos then u32 (u64 (endpos - bitpos)) else loopw in
        u ← buf !! Z.to_nat (bitpos / 8);
        read_bits fuel buf (u64 (bitpos + w)) (u32 (loopw - w))
          (u64 (uval ≪ w) .| (((u ≪ (bitpos .& 7)) .& 0xff) ≫ (8 - w)))
      else Some (uval, bitpos)
  end.

Definition is_upper (c : Z) : bool := (65 <=? c) && (c <=? 90).
Definition is_lower (c : Z) : bool := (97 <=? c) && (c <=? 122).

(** The name [Reserved]. *)
Definition RESERVED : list Z := [82; 101; 115; 101; 114; 118; 101; 100; 0].

(** ** The interpreter *)

(** The part of the buffer for a type in upper case. *)
Definition text_bytes (buf : list Z) (t : TEXT) (type width : Z) (name : list Z) : option (TEXT * option FIELD) :=
  let bitpos := u64 (tx_bitpos t + 7) .& u64 (Z.lnot 7) in
  let lval := if u64 (bitpos / 8 + width) >? tx_len t then u32 (u64 (tx_len t - bitpos / 8)) else width in
  pval ← buf_read (Z.to_nat (bitpos / 8)) (Z.to_nat lval) buf;
  Some (mkText (tx_p t) (tx_star t) (tx_m t) (u64 (bitpos + lval * 8)) (tx_len t),
        if negb (0 =? width) then Some (mkField type width name 0 pval None) else None).

(** The number for a type in lower case. *)
Definition text_bits (buf : list Z) (t : TEXT) (type width : Z) (name : list Z) (nminusv mminusv : Z)
    : option (TEXT * option FIELD) :=
  let loopw := if u64 (tx_bitpos t + width) >? u64 (tx_len t * 8)
               then u32 (u64 (u64 (tx_len t * 8) - tx_bitpos t)) else width in
  '(uval, bitpos) ← read_bits (S (Z.to_nat loopw)) buf (tx_bitpos t) loopw 0;
  let newlen := u64 (uval + nminusv + 1) in
  let has_n := negb (u32 (-1) =? nminusv) in
  let warn := if has_n && negb (tx_len t =? newlen) then Some DataLengthMismatch else None in
  let len := if has_n && (newlen <? tx_len t) then newlen else tx_len t in
  let m := if negb has_n && negb (u32 (-1) =? mminusv) then u32 uval else tx_m t in
  r ← invariant_strncmp RESERVED (name ++ [0]) (length name);
  let warn := if (0 =? r) && negb (0 =? uval) then Some NonZeroReserved else warn in
  Some (mkText (tx_p t) (tx_star t) m bitpos len, Some (mkField type width name uval [] warn)).

(** One turn of the loop: nothing if it has ended. *)
Definition text_step (buf : list Z) (t : TEXT) : option (option (TEXT * option FIELD)) :=
  if negb (tx_bitpos t <? u64 (tx_len t * 8)) then Some None
  else
    c ← tx_p t !! 0%nat;
    let '(star, p) := if 42 =? c then (Some (tx_p t), tail (tx_p t)) else (tx_star t, tx_p t) in
    type ← p !! 0%nat;
    if 0 =? type then
      Some (match star with
            | Some s => Some (mkText s star (tx_m t) (tx_bitpos t) (tx_len t), None)
            | None => None
            end)
    else
      let p := tail p in
      c ← p !! 0%nat;
      '(width, p) ← (if 109 =? c then Some (tx_m t, tail p)
                     else '(v, p) ← strtoint p 10 false; Some (u32 v, p));
      name ← skip_spaces p;
      '(p, nminusv, mminusv) ← scan_name name (u32 (-1)) (u32 (-1));
      let nm := take (length name - length p) name in
      c ← p !! 0%nat;
      let t := mkText (if 10 =? c then tail p else p) star (tx_m t) (tx_bitpos t) (tx_len t) in
      r ← (if is_upper type then text_bytes buf t type width nm
           else if is_lower type then text_bits buf t type width nm nminusv mminusv
           else Some (t, None));
      Some (Some r).

Fixpoint text_loop (fuel : nat) (buf : list Z) (t : TEXT) : option (list FIELD) :=
  match fuel with
  | O => None
  | S fuel =>
      s ← text_step buf t;
      match s with
      | None => Some []
      | Some (t, f) => l ← text_loop fuel buf t; Some (match f with Some f => f :: l | None => l end)
      end
  end.

(** [ScsiText]: the fields that the callback is given; [len] bytes of [buf] are data. *)
Definition ScsiText (fuel : nat) (format buf : list Z) (len : Z) : option (list FIELD) :=
  text_loop fuel buf (mkText format None 1 0 len).

(** ** Printing *)

(** What was written, the buffer with what was not yet, and the column. *)
Record PRINTER := mkPrinter { pr_out : list Z; pr_buf : list Z; pr_col : Z }.

#[export] Instance PRINTER_eta : Eta PRINTER := fun p => mkPrinter (pr_out p) (pr_buf p) (pr_col p).

Definition sizeof_buf : nat := 1024.

Definition ScsiTextPrint (printer : PRINTER) (buf : list Z) : option PRINTER :=
  if (sizeof_buf <? length (pr_buf printer) + length buf)%nat then
    let n := (sizeof_buf - length (pr_buf printer))%nat in
    if (sizeof_buf <? length buf - n)%nat then None
    else Some (mkPrinter (pr_out printer ++ pr_buf printer ++ take n buf) (drop n buf) (pr_col printer))
  else Some (mkPrinter (pr_out printer) (pr_buf printer ++ buf) (pr_col printer)).

Definition ScsiTextFlush (printer : PRINTER) : PRINTER :=
  mkPrinter (pr_out printer ++ pr_buf printer) [] (pr_col printer).

(** One text after the other. *)
Fixpoint print_all (printer : PRINTER) (ts : list (list Z)) : option PRINTER :=
  match ts with
  | [] => Some printer
  | t :: ts => printer ← ScsiTextPrint printer t; print_all printer ts
  end.

(** The formats of a number: [%lx:%08lx], [%lu (0x%lx)], [%lu]. *)
Definition uval_text (uval : Z) : list Z :=
  if 0x100000000 <=? uval then hexadecimal 8 (u32 (uval ≫ 32)) [] ++ [58] ++ hexadecimal_padded 8 (u32 uval) []
  else if 10 <=? uval then decimal 10 (u32 uval) [] ++ [32; 40; 48; 120] ++ hexadecimal 8 (u32 uval) [] ++ [41]
  else decimal 10 (u32 uval) [].

(** A byte as a character. *)
Definition char_text (c : Z) : list Z := if (c <? 0x20) || (0x7f <=? c) then [46] else [c].

(** Bytes in hexadecimal, with a space between them. *)
Fixpoint bytes_texts (sep : list Z) (bs : list Z) : list (list Z) :=
  match bs with
  | [] => []
  | b :: bs => (sep ++ hexadecimal_padded 2 b []) :: bytes_texts [32] bs
  end.

Definition warn_text (w : WARNING) : list Z :=
  [32; 40; 87; 65; 82; 78; 58; 32] ++                                            (* " (WARN: " *)
  match w with
  | DataLengthMismatch =>                                            (* data buffer length mismatch *)
      [100; 97; 116; 97; 32; 98; 117; 102; 102; 101; 114; 32; 108; 101; 110; 103; 116; 104; 32;
       109; 105; 115; 109; 97; 116; 99; 104]
  | NonZeroReserved =>                                               (* non-zero reserved value *)
      [110; 111; 110; 45; 122; 101; 114; 111; 32; 114; 101; 115; 101; 114; 118; 101; 100; 32;
       118; 97; 108; 117; 101]
  end ++ [41].

(** The texts of a line. *)
Definition ScsiLineTextFn (printer : PRINTER) (f : FIELD) : option PRINTER :=
  print_all printer
    ([fd_name f; [61]] ++
     (if fd_type f =? 117 then [uval_text (fd_uval f)]
      else if fd_type f =? 65 then char_text <$> fd_pval f
      else if fd_type f =? 88 then bytes_texts [] (fd_pval f)
      else []) ++
     (match fd_warn f with Some w => [warn_text w] | None => [] end) ++ [[10]]).

Fixpoint line_fields (fs : list FIELD) (printer : PRINTER) : option PRINTER :=
  match fs with
  | [] => Some printer
  | f :: fs => printer ← ScsiLineTextFn printer f; line_fields fs printer
  end.

(** [ScsiLineText]: what is written. *)
Definition ScsiLineText (fuel : nat) (format buf : list Z) (len : Z) : option (list Z) :=
  fs ← ScsiText fuel format buf len;
  printer ← line_fields fs (mkPrinter [] [] 0);
  Some (pr_out (ScsiTextFlush printer)).

(** ** Tables *)

Definition END_OF_LINE : list Z := [124; 10].                                     (* a bar and a newline *)

(** Spaces on both sides of what is in the buffer after the first character. *)
Definition ScsiTableTextCenter (printer : PRINTER) (colwidth : nat) : option PRINTER :=
  let pos := length (pr_buf printer) in
  if (pos <? colwidth)%nat then
    if (sizeof_buf <? colwidth)%nat then None
    else
      match pr_buf printer with
      | [] => None
      | c :: b =>
          let spacewidth := (colwidth - pos)%nat in
          let left := Nat.div2 spacewidth in
          Some (printer <| pr_buf := c :: replicate left 32 ++ b ++ replicate (spacewidth - left) 32 |>)
      end
  else Some printer.

(** A corner and eight dashes or spaces. *)
Definition corner (fill : Z) : list Z := 43 :: replicate 8 fill.

Definition boundary : list Z := concat (replicate 8 (corner 45)) ++ [43; 10].

Definition ScsiTablePrintBoundary (printer : PRINTER) : option PRINTER :=
  printer ← ScsiTextPrint printer boundary; Some (printer <| pr_col := 0 |>).

(** The rest of a row that the next cell does not fit in, and the line below it. *)
Definition table_filler (printer : PRINTER) : option PRINTER :=
  let col := pr_col printer in
  if 71 <? col then None
  else
    printer ← print_all printer
      ([[124]; replicate (Z.to_nat (71 - col)) 32; END_OF_LINE] ++
       ((fun i => if Z.of_nat i * 9 <? col then corner 45
                  else if Z.of_nat i * 9 =? col then corner 32 else replicate 9 32) <$> seq 0 8) ++
       [END_OF_LINE]);
    Some (ScsiTextFlush printer).

(** The position of a character. *)
Fixpoint find_char (c : Z) (l : list Z) : option nat :=
  match l with
  | [] => None
  | x :: l => if c =? x then Some O else S <$> find_char c l
  end.

(** The number of a cell that is too wide is moved to the left, over the name. *)
Definition table_cut (printer : PRINTER) (colwidth : nat) : PRINTER :=
  let pos := length (pr_buf printer) in
  if (colwidth <? pos)%nat then
    match find_char 61 (pr_buf printer) with
    | Some p => let q := (p - (pos - colwidth))%nat in
                printer <| pr_buf := take q (pr_buf printer) ++ drop p (pr_buf printer) |>
    | None => printer
    end
  else printer.

(** A row of its own, and the start of the next one. *)
Definition table_row (printer : PRINTER) : option PRINTER :=
  printer ← ScsiTableTextCenter printer 72;
  printer ← ScsiTextPrint printer END_OF_LINE;
  ScsiTextPrint (ScsiTextFlush printer) [124].

(** The loops over the bytes, [n] of them to a row. *)
Fixpoint table_bytes (n i : nat) (ts : list (list Z)) (printer : PRINTER) : option PRINTER :=
  match ts with
  | [] => Some printer
  | t :: ts =>
      printer ← (if (i mod n =? 0)%nat then table_row printer else Some printer);
      printer ← ScsiTextPrint printer t;
      table_bytes n (S i) ts printer
  end.

Definition table_end (printer : PRINTER) : option PRINTER :=
  printer ← ScsiTableTextCenter printer 72;
  printer ← ScsiTextPrint printer END_OF_LINE;
  ScsiTablePrintBoundary printer.

Definition ScsiTableTextFn (printer : PRINTER) (f : FIELD) : option PRINTER :=
  let col := pr_col printer in
  printer ← (if (fd_type f =? 117) && negb (0 =? col) && (72 <? u64 (col + u32 (9 * fd_width f)))
             then table_filler printer else Some printer);
  printer ← ScsiTextPrint printer [124];
  printer ← ScsiTextPrint printer (fd_name f);
  printer ←
    (if fd_type f =? 117 then
       printer ← ScsiTextPrint printer [61];
       printer ← ScsiTextPrint printer (uval_text (fd_uval f));
       let colwidth := Z.to_nat (9 * (if 8 >? fd_width f then fd_width f else 8)) in
       printer ← ScsiTableTextCenter printer colwidth;
       let printer := table_cut printer colwidth in
       let printer := printer <| pr_col := pr_col printer + Z.of_nat (length (pr_buf printer)) |> in
       if 72 <=? pr_col printer then
         printer ← ScsiTextPrint printer END_OF_LINE;
         ScsiTablePrintBoundary printer
       else Some printer
     else if fd_type f =? 65 then
       printer ← table_bytes 64 0 (char_text <$> fd_pval f) printer; table_end printer
     else if fd_type f =? 88 then
       printer ← table_bytes 16 0 (bytes_texts [] (fd_pval f)) printer; table_end printer
     else Some printer);
  Some (ScsiTextFlush printer).

Fixpoint table_fields (fs : list FIELD) (printer : PRINTER) : option PRINTER :=
  match fs with
  | [] => Some printer
  | f :: fs => printer ← ScsiTableTextFn printer f; table_fields fs printer
  end.

(** [ScsiTableText]: what is written. *)
Definition ScsiTableText (fuel : nat) (format buf : list Z) (len : Z) : option (list Z) :=
  printer ← ScsiTablePrintBoundary (mkPrinter [] [] 0);
  fs ← ScsiText fuel format buf len;
  printer ← table_fields fs (ScsiTextFlush printer);
  Some (pr_out printer).
