(* ===== verification/ScsiTool.v ===== *)
(** * The SCSI tool: [scsitool/scsitool.c]

    The commands of the tool: the CDB that each one sends, the format of its answer, and what is
    printed. *)

From stdpp Require Import strings.
From S2P Require Import Prelude Wdk IoctlTypes Minimal StrToInt IoctlDevice ScsiText.

(** ** Formats *)

Definition chars (s : string) : list Z := (fun a => Z.of_N (Ascii.N_of_ascii a)) <$> String.list_ascii_of_string s.

(** Lines, each with its newline, and the terminator; the last line may be without a newline. *)
Definition lines (ls : list string) : list Z := concat ((fun l => chars l ++ [10]) <$> ls) ++ [0].

Fixpoint open_lines (ls : list string) : list Z :=
  match ls with
  | [] => [0]
  | [l] => chars l ++ [0]
  | l :: ls => chars l ++ 10 :: open_lines ls
  end.

Definition sense_format : list Z := open_lines
  ["u1  VALID";
   "u7  RESPONSE CODE (70h or 71h)";
   "u8  Obsolete";
   "u1  FILEMARK";
   "u1  EOM";
   "u1  ILI";
   "u1  Reserved";
   "u4  SENSE KEY";
   "u32 INFORMATION";
   "u8  ADDITIONAL SENSE LENGTH (n-7)";
   "u32 COMMAND-SPECIFIC INFORMATION";
   "u8  ADDITIONAL SENSE CODE";
   "u8  ADDITIONAL SENSE CODE QUALIFIER";
   "u8  FIELD REPLACEABLE UNIT CODE";
   "u1  SKSV";
   "u23 SENSE KEY SPECIFIC";
   "X14 Additional sense bytes"]%string.

Definition report_luns_format : list Z := lines
  ["u32 LUN LIST LENGTH (n-7)";
   "u32 Reserved";
   "*u64 LUN"]%string.

Definition inquiry_format : list Z := lines
  ["u3  PERIPHERAL QUALIFIER";
   "u5  PERIPHERAL DEVICE TYPE";
   "u1  RMB";
   "u7  Reserved";
   "u8  VERSION";
   "u1  Obsolete";
   "u1  Obsolete";
   "u1  NORMACA";
   "u1  HISUP";
   "u4  RESPONSE DATA FORMAT";
   "u8  ADDITIONAL LENGTH (n-4)";
   "u1  SCCS";
   "u1  ACC";
   "u2  TPGS";
   "u1  3PC";
   "u2  Reserved";
   "u1  PROTECT";
   "u1  BQUE";
   "u1  ENCSERV";
   "u1  VS";
   "u1  MULTIP";
   "u1  MCHNGR";
   "u1  Obsolete";
   "u1  Obsolete";
   "u1  ADDR16";
   "u1  Obsolete";
   "u1  Obsolete";
   "u1  WBUS16";
   "u1  SYNC";
   "u1  LINKED";
   "u1  Obsolete";
   "u1  CMDQUE";
   "u1  VS";
   "A8  T10 VENDOR IDENTIFICATION";
   "A16 PRODUCT IDENTIFICATION";
   "A4  PRODUCT REVISION LEVEL";
   "X20 Vendor specific";
   "u4  Reserved";
   "u2  CLOCKING";
   "u1  QAS";
   "u1  IUS";
   "u8  Reserved";
   "u16 VERSION DESCRIPTOR 1";
   "u16 VERSION DESCRIPTOR 2";
   "u16 VERSION DESCRIPTOR 3";
   "u16 VERSION DESCRIPTOR 4";
   "u16 VERSION DESCRIPTOR 5";
   "u16 VERSION DESCRIPTOR 6";
   "u16 VERSION DESCRIPTOR 7";
   "u16 VERSION DESCRIPTOR 8";
   "X22 Reserved";
   "X160 Vendor specific"]%string.

Definition inquiry_vpd0_format : list Z := lines
  ["u3  PERIPHERAL QUALIFIER";
   "u5  PERIPHERAL DEVICE TYPE";
   "u8  PAGE CODE (00h)";
   "u8  Reserved";
   "u8  PAGE LENGTH (n-3)";
   "X255 Supported VPD page list"]%string.

Definition inquiry_vpd80_format : list Z := lines
  ["u3  PERIPHERAL QUALIFIER";
   "u5  PERIPHERAL DEVICE TYPE";
   "u8  PAGE CODE (80h)";
   "u8  Reserved";
   "u8  PAGE LENGTH (n-3)";
   "A255 PRODUCT SERIAL NUMBER"]%string.

Definition inquiry_vpd83_format : list Z := lines
  ["u3  PERIPHERAL QUALIFIER";
   "u5  PERIPHERAL DEVICE TYPE";
   "u8  PAGE CODE (83h)";
   "u16 PAGE LENGTH (n-3)";
   "*u4  PROTOCOL IDENTIFIER";
   "u4  CODE SET";
   "u1  PIV";
   "u1  Reserved";
   "u2  ASSOCIATION";
   "u4  IDENTIFIER TYPE";
   "u8  Reserved";
   "u8  IDENTIFIER LENGTH (m-3)";
   "Am  IDENTIFIER"]%string.

Definition inquiry_vpdb0_format : list Z := lines
  ["u3  PERIPHERAL QUALIFIER";
   "u5  PERIPHERAL DEVICE TYPE";
   "u8  PAGE CODE (B0h)";
   "u16 PAGE LENGTH (003Ch)";
   "u8  Reserved";
   "u8  MAXIMUM COMPARE AND WRITE LENGTH";
   "u16 OPTIMAL TRANSFER LENGTH GRANULARITY";
   "u32 MAXIMUM TRANSFER LENGTH";
   "u32 OPTIMAL TRANSFER LENGTH";
   "u32 MAXIMUM PREFETCH XDREAD XDWRITE TRANSFER LENGTH";
   "u32 MAXIMUM UNMAP LBA COUNT";
   "u32 MAXIMUM UNMAP BLOCK DESCRIPTOR COUNT";
   "u32 OPTIMAL UNMAP GRANULARITY";
   "u1  UGAVALID";
   "u31 UNMAP GRANULARITY ALIGNMENT";
   "X28 Reserved"]%string.

Definition inquiry_vpdb2_format : list Z := lines
  ["u3  PERIPHERAL QUALIFIER";
   "u5  PERIPHERAL DEVICE TYPE";
   "u8  PAGE CODE (B2h)";
   "u16 PAGE LENGTH (n-3)";
   "u8  THRESHOLD EXPONENT";
   "u1  LBPU";
   "u1  LBPWS";
   "u4  Reserved";
   "u1  ANC_SUP";
   "u1  DP";
   "u5  Reserved";
   "u3  PROVISIONING TYPE";
   "u8  Reserved";
   "X255 PROVISIONING GROUP DESCRIPTOR"]%string.

Definition mode_sense_format : list Z := lines
  ["u8  MODE DATA LENGTH (n-0)";
   "u8  MEDIUM TYPE";
   "u1  WP";
   "u2  Reserved";
   "u1  DPOFUA";
   "u4  Reserved";
   "u8  BLOCK DESCRIPTOR LENGTH (m-0)";
   "Xm  BLOCK DESCRIPTORS";
   "X255 MODE PAGES"]%string.

Definition mode_caching_format : list Z := lines
  ["u8  MODE DATA LENGTH (n-0)";
   "u8  MEDIUM TYPE";
   "u1  WP";
   "u2  Reserved";
   "u1  DPOFUA";
   "u4  Reserved";
   "u8  BLOCK DESCRIPTOR LENGTH (m-0)";
   "Xm  BLOCK DESCRIPTORS";
   "u1  PS";
   "u1  SPF";
   "u6  PAGE CODE (08h)";
   "u8  PAGE LENGTH (12h)";
   "u1  IC";
   "u1  ABPF";
   "u1  CAP";
   "u1  DISC";
   "u1  SIZE";
   "u1  WCE";
   "u1  MF";
   "u1  RCD";
   "u4  DEMAND READ RETENTION PRIORITY";
   "u4  WRITE RETENTION PRIORITY";
   "u8  DISABLE PRE-FETCH TRANSFER LENGTH";
   "u8  MINIMUM PRE-FETCH";
   "u8  MAXIMUM PRE-FETCH";
   "u8  MAXIMUM PRE-FETCH CEILING";
   "u1  FSW";
   "u1  LBCSS";
   "u1  DRA";
   "u2  vendor specific";
   "u2  Reserved";
   "u1  NV_DIS";
   "u8  NUMBER OF CACHE SEGMENTS";
   "u16 CACHE SEGMENT SIZE";
   "u8  Reserved";
   "u24 Obsolete"]%string.

Definition capacity_format : list Z := lines
  ["u32 RETURNED LOGICAL BLOCK ADDRESS";
   "u32 LOGICAL BLOCK LENGTH IN BYTES"]%string.

Definition capacity16_format : list Z := lines
  ["u64 RETURNED LOGICAL BLOCK ADDRESS";
   "u32 LOGICAL BLOCK LENGTH IN BYTES";
   "u4  Reserved";
   "u3  P_TYPE";
   "u1  PROT_EN";
   "u4  P_I_EXPONENT";
   "u4  LOGICAL BLOCKS PER PHYSICAL BLOCK EXPONENT";
   "u1  TPE";
   "u1  TPRZ";
   "u14 LOWEST ALIGNED LOGICAL BLOCK ADDRESS";
   "X16 Reserved"]%string.

(** ** Commands *)

(** A name for the command line. *)
Definition word (s : string) : list Z := chars s ++ [0].

(** An [INQUIRY], for a page of vital product data or not. *)
Definition inquiry_cdb (EnableVitalProductData PageCode : Z) : list Z :=
  [SCSIOP_INQUIRY; EnableVitalProductData; PageCode; 0; VPD_MAX_BUFFER_SIZE; 0] ++ replicate 10 0.

Definition MODE_SENSE_CURRENT_VALUES : Z := 0.

Definition mode_sense_cdb (PageCode : Z) : list Z :=
  [SCSIOP_MODE_SENSE; 0; PageCode .| (MODE_SENSE_CURRENT_VALUES ≪ 6); 0; 255; 0] ++ replicate 10 0.

Definition report_luns_cdb : list Z :=
  [SCSIOP_REPORT_LUNS; 0; 0; 0; 0; 0; 0; 0; (1024 ≫ 8) .& 0xff; 1024 .& 0xff] ++ replicate 6 0.

Definition capacity_cdb : list Z := SCSIOP_READ_CAPACITY :: replicate 15 0.

Definition capacity16_cdb : list Z :=
  [SCSIOP_SERVICE_ACTION_IN16; SERVICE_ACTION_READ_CAPACITY16] ++ replicate 11 0 ++ [255; 0; 0].

(** The commands. *)
Inductive TOOL_COMMAND :=
  | report_luns | inquiry | inquiry_vpd0 | inquiry_vpd80 | inquiry_vpd83 | inquiry_vpdb0 | inquiry_vpdb2
  | mode_sense | mode_caching | capacity | capacity16.

(** The CDB, the length of the data and the format of each. *)
Definition COMMAND_ARGS : Type := list Z * Z * list Z.

Definition report_luns_command : COMMAND_ARGS := (report_luns_cdb, 1024, report_luns_format).
Definition inquiry_command : COMMAND_ARGS := (inquiry_cdb 0 0, VPD_MAX_BUFFER_SIZE, inquiry_format).
Definition inquiry_vpd0_command : COMMAND_ARGS := (inquiry_cdb 1 0, VPD_MAX_BUFFER_SIZE, inquiry_vpd0_format).
Definition inquiry_vpd80_command : COMMAND_ARGS := (inquiry_cdb 1 0x80, VPD_MAX_BUFFER_SIZE, inquiry_vpd80_format).
Definition inquiry_vpd83_command : COMMAND_ARGS := (inquiry_cdb 1 0x83, VPD_MAX_BUFFER_SIZE, inquiry_vpd83_format).
Definition inquiry_vpdb0_command : COMMAND_ARGS := (inquiry_cdb 1 0xb0, VPD_MAX_BUFFER_SIZE, inquiry_vpdb0_format).
Definition inquiry_vpdb2_command : COMMAND_ARGS := (inquiry_cdb 1 0xb2, VPD_MAX_BUFFER_SIZE, inquiry_vpdb2_format).
Definition mode_sense_command : COMMAND_ARGS := (mode_sense_cdb MODE_SENSE_RETURN_ALL, 255, mode_sense_format).
Definition mode_caching_command : COMMAND_ARGS := (mode_sense_cdb MODE_PAGE_CACHING, 255, mode_caching_format).
Definition capacity_command : COMMAND_ARGS := (capacity_cdb, 255, capacity_format).
Definition capacity16_command : COMMAND_ARGS := (capacity16_cdb, 255, capacity16_format).

Definition command_args (c : TOOL_COMMAND) : COMMAND_ARGS :=
  match c with
  | report_luns => report_luns_command
  | inquiry => inquiry_command
  | inquiry_vpd0 => inquiry_vpd0_command
  | inquiry_vpd80 => inquiry_vpd80_command
  | inquiry_vpd83 => inquiry_vpd83_command
  | inquiry_vpdb0 => inquiry_vpdb0_command
  | inquiry_vpdb2 => inquiry_vpdb2_command
  | mode_sense => mode_sense_command
  | mode_caching => mode_caching_command
  | capacity => capacity_command
  | capacity16 => capacity16_command
  end.

Definition command_cdb (c : TOOL_COMMAND) : list Z := (command_args c).1.1.
Definition command_length (c : TOOL_COMMAND) : Z := (command_args c).1.2.
Definition command_format (c : TOOL_COMMAND) : list Z := (command_args c).2.

(** The address of a unit, [b:t:l]: what follows a colon is put behind what was read before. *)
Definition btl_part (Btl : Z) (p : list Z) : option (Z * list Z) :=
  '(v, p) ← wcstoint p 10 false; Some (u32 (Btl ≪ 8) .| u8 v, p).

Definition parse_btl (arg : list Z) : option Z :=
  '(Btl, p) ← btl_part 0 arg;
  c ← p !! 0%nat;
  if 58 =? c then
    '(Btl, p) ← btl_part Btl (tail p);
    c ← p !! 0%nat;
    if 58 =? c then '(Btl, _) ← btl_part Btl (tail p); Some Btl else Some Btl
  else Some Btl.

(** What is printed: a text, the line with the status, a path. *)
Inductive OUTPUT :=
  | Printed (Text : list Z)
  | StatusLine (ScsiStatus : Z)
  | PathLine (Path : list Z).

Section Tool.
(** What the tool meets: its turns of the interpreter are bounded by [fuel]. *)
Context (fuel : nat) {W : Type}.

Record TOOL := mkTool {
  tl_Devices : DEVICES; tl_PathBuf : list Z; tl_CreateFile : list Z -> Z * Z;
  tl_AllocError : Z; tl_DataBuffer : list Z; tl_Overlapped : Z; tl_Stack : Z * list Z;
  tl_World : W; tl_PassThrough : W -> SCSI_PASS_THROUGH_DIRECT -> list Z -> PASS_THROUGH_ANSWER * W
}.

Definition ScsiPrint (ScsiPrintCanonical : bool) (format buf : list Z) (len : Z) : option (list Z) :=
  if ScsiPrintCanonical then ScsiLineText fuel format buf len else ScsiTableText fuel format buf len.

Definition ScsiPrintSenseInfo (ScsiPrintCanonical : bool) (ScsiStatus : Z) (SenseInfoBuffer : list Z)
    : option (list OUTPUT) :=
  t ← ScsiPrint ScsiPrintCanonical sense_format SenseInfoBuffer 32;
  Some [StatusLine ScsiStatus; Printed t].

(** [ScsiDataInAndPrint], for the arguments from the name of the command on: nothing for a wrong
    use, or the error and what is printed. *)
Definition ScsiDataInAndPrint (ScsiPrintCanonical : bool) (t : TOOL) (argv : list (list Z)) (Cdb : list Z)
    (DataLength : Z) (Format : list Z) : option (option (Z * list OUTPUT)) :=
  let argc := length argv in
  if (argc <? 2)%nat || (3 <? argc)%nat then Some None
  else
    let exit Error := Some (Some (Error, [])) in
    Btl ← (if (argc =? 3)%nat then arg ← argv !! 2%nat; parse_btl arg else Some 0);
    DeviceName ← argv !! 1%nat;
    '(err, _) ← SpdIoctlOpenDevice (tl_Devices t) DeviceName (tl_PathBuf t) (tl_CreateFile t);
    if negb (ERROR_SUCCESS =? err) then exit err
    else if negb (ERROR_SUCCESS =? tl_AllocError t) then exit (tl_AllocError t)
    else
      let '(ScsiStatus, SenseInfoBuffer) := tl_Stack t in
      '(r, _) ← SpdIoctlScsiExecute (tl_PassThrough t) (tl_Overlapped t) (tl_World t) Btl Cdb 1
                  (tl_DataBuffer t) (Some DataLength) (Some ScsiStatus) (Some SenseInfoBuffer);
      if negb (ERROR_SUCCESS =? ex_Error r) then exit (ex_Error r)
      else
        ScsiStatus ← ex_ScsiStatus r;
        if SCSISTAT_GOOD =? ScsiStatus then
          DataLength ← ex_DataLength r;
          o ← ScsiPrint ScsiPrintCanonical Format (ex_DataBuffer r) DataLength;
          Some (Some (ERROR_SUCCESS, [Printed o]))
        else
          SenseInfoBuffer ← ex_SenseInfo r;
          os ← ScsiPrintSenseInfo ScsiPrintCanonical ScsiStatus SenseInfoBuffer;
          Some (Some (ERROR_SUCCESS, os)).

Definition run_command (ScsiPrintCanonical : bool) (t : TOOL) (argv : list (list Z)) (c : TOOL_COMMAND) :=
  ScsiDataInAndPrint ScsiPrintCanonical t argv (command_cdb c) (command_length c) (command_format c).

Definition devpath (t : TOOL) (argv : list (list Z)) : option (option (Z * list OUTPUT)) :=
  if negb (length argv =? 2)%nat then Some None
  else
    DeviceName ← argv !! 1%nat;
    '(err, PathBuf) ← SpdIoctlGetDevicePath (tl_Devices t) DeviceName (tl_PathBuf t) (2 * 1024);
    Some (Some (err, if negb (ERROR_SUCCESS =? err) then [] else [PathLine PathBuf])).

(** The names of the commands, in the order of the tests. *)
Definition COMMANDS : list (list Z * TOOL_COMMAND) :=
  [(word "luns", report_luns); (word "inquiry", inquiry); (word "vpd0", inquiry_vpd0);
   (word "vpd80", inquiry_vpd80); (word "vpd83", inquiry_vpd83); (word "vpdb0", inquiry_vpdb0);
   (word "vpdb2", inquiry_vpdb2); (word "mode-sense", mode_sense); (word "mode-caching", mode_caching);
   (word "capacity", capacity); (word "capacity16", capacity16)].

Fixpoint find_command (cs : list (list Z * TOOL_COMMAND)) (arg : list Z) : option (option TOOL_COMMAND) :=
  match cs with
  | [] => Some None
  | (Name, c) :: cs => v ← invariant_wcscmp Name arg; if 0 =? v then Some (Some c) else find_command cs arg
  end.

(** [wmain], for the arguments after the name of the program. *)
Definition tool_main (t : TOOL) (argv : list (list Z)) : option (option (Z * list OUTPUT)) :=
  canonical ← match argv with
              | [] => Some false
              | arg :: _ => v ← invariant_wcscmp (word "-c") arg; Some (0 =? v)
              end;
  let argv := if (canonical : bool) then tail argv else argv in
  match argv with
  | [] => Some None
  | arg :: _ =>
      v ← invariant_wcscmp (word "devpath") arg;
      if 0 =? v then devpath t argv
      else
        c ← find_command COMMANDS arg;
        match c with
        | Some c => run_command canonical t argv c
        | None => Some None
        end
  end.
End Tool.
