(* ===== verification/ScsiTextSpec.v ===== *)
(** * What a format means

    A format is a list of items, and each item stands for the bits or the bytes that follow those
    of the items before it.  The interpreter of formats does what its items mean. *)

From S2P Require Import Prelude Wdk Minimal StrToInt ScsiText.

(** ** Items *)

(** A width is a numeral, or the number of the last field that is marked with [m]. *)
Inductive WIDTH :=
  | Fixed (ds : list Z)
  | Last.

Record ITEM := mkItem {
  it_star : bool; it_type : Z; it_width : WIDTH; it_pad : nat; it_name : list Z
}.

Definition width_text (w : WIDTH) : list Z :=
  match w with Fixed ds => (fun d => 48 + d) <$> ds | Last => [109] end.

Definition item_text (i : ITEM) : list Z :=
  (if it_star i then [42] else []) ++ it_type i :: width_text (it_width i) ++ replicate (it_pad i) 32 ++ it_name i.

(** A format, whose last line may have no newline. *)
Fixpoint format_of (open : bool) (items : list ITEM) : list Z :=
  match items with
  | [] => [0]
  | [i] => item_text i ++ (if open then [0] else [10; 0])
  | i :: items => item_text i ++ 10 :: format_of open items
  end.

(** The marks of a name. *)
Definition name_marks (name : list Z) : option (Z * Z) :=
  '(_, n, m) ← scan_name (name ++ [0]) (u32 (-1)) (u32 (-1)); Some (n, m).

Record item_wf (i : ITEM) : Prop := {
  iw_type : is_upper (it_type i) = true \/ is_lower (it_type i) = true;
  iw_width ds : it_width i = Fixed ds -> Forall (fun d => 0 <= d < 10) ds /\ digits_value 10 ds < 2 ^ 32;
  iw_pad : (0 < it_pad i)%nat;
  iw_name : Forall (fun c => 0 < c < 256 /\ c <> 10) (it_name i);
  iw_space : hd 0 (it_name i) <> 32;
  iw_marks : is_Some (name_marks (it_name i))
}.

(** ** Bits *)

(** The bits of a buffer, the highest of each byte first, and the number that some of them make. *)
Definition bit_at (buf : list Z) (i : Z) : bool := Z.testbit (buf !!! Z.to_nat (i / 8)) (7 - i mod 8).

Fixpoint bits_value (buf : list Z) (pos : Z) (n : nat) : Z :=
  match n with
  | O => 0
  | S n => 2 * bits_value buf pos n + b2z (bit_at buf (pos + Z.of_nat n))
  end.

(** ** Meaning *)

(** What is left of the format, the part that is repeated, the number for [m], the position in bits
    and the length of the data in bytes. *)
Record SPEC := mkSpec {
  sp_items : list ITEM; sp_star : option (list ITEM); sp_m : Z; sp_pos : Z; sp_len : Z
}.

Definition item_width (m : Z) (i : ITEM) : Z :=
  match it_width i with Fixed ds => digits_value 10 ds | Last => m end.

(** The bytes of an item start at a whole byte. *)
Definition bytes_item (buf : list Z) (s : SPEC) (i : ITEM) : SPEC * option FIELD :=
  let w := item_width (sp_m s) i in
  let q := (sp_pos s + 7) / 8 in
  let n := Z.min w (sp_len s - q) in
  (mkSpec (sp_items s) (sp_star s) (sp_m s) (8 * (q + n)) (sp_len s),
   if 0 =? w then None
   else Some (mkField (it_type i) w (it_name i) 0 (take (Z.to_nat n) (drop (Z.to_nat q) buf)) None)).

(** The number of an item; one that is marked tells the length of the data or the next width. *)
Definition bits_item (buf : list Z) (s : SPEC) (i : ITEM) : SPEC * option FIELD :=
  let w := item_width (sp_m s) i in
  let n := Z.min w (8 * sp_len s - sp_pos s) in
  let v := u64 (bits_value buf (sp_pos s) (Z.to_nat n)) in
  let '(nv, mv) := default (u32 (-1), u32 (-1)) (name_marks (it_name i)) in
  let has_n := negb (u32 (-1) =? nv) in
  let newlen := u64 (v + nv + 1) in
  (mkSpec (sp_items s) (sp_star s) (if negb has_n && negb (u32 (-1) =? mv) then u32 v else sp_m s)
     (sp_pos s + n) (if has_n then Z.min (sp_len s) newlen else sp_len s),
   Some (mkField (it_type i) w (it_name i) v []
     (if bool_decide (it_name i = take (length (it_name i)) RESERVED) && negb (0 =? v) then Some NonZeroReserved
      else if has_n && negb (sp_len s =? newlen) then Some DataLengthMismatch else None))).

Definition spec_item (buf : list Z) (s : SPEC) (i : ITEM) : SPEC * option FIELD :=
  if is_upper (it_type i) then bytes_item buf s i else bits_item buf s i.

Definition spec_step (buf : list Z) (s : SPEC) : option (SPEC * option FIELD) :=
  if 8 * sp_len s <=? sp_pos s then None
  else
    match sp_items s with
    | [] => l ← sp_star s; Some (mkSpec l (sp_star s) (sp_m s) (sp_pos s) (sp_len s), None)
    | i :: items =>
        Some (spec_item buf (mkSpec items (if it_star i then Some (sp_items s) else sp_star s)
                               (sp_m s) (sp_pos s) (sp_len s)) i)
    end.

Fixpoint spec_loop (fuel : nat) (buf : list Z) (s : SPEC) : option (list FIELD) :=
  match fuel with
  | O => None
  | S fuel =>
      match spec_step buf s with
      | None => Some []
      | Some (s, f) => l ← spec_loop fuel buf s; Some (match f with Some f => f :: l | None => l end)
      end
  end.

(** ** Bytes and bits *)

Lemma align_8 x : 0 <= x < 2 ^ 64 -> x .& u64 (Z.lnot 7) = 8 * (x / 8).
Proof.
  intros Hx. unfold u64. rewrite <- Z.land_ones by lia.
  rewrite (Z.land_comm (Z.lnot 7)), Z.land_assoc, (Z.land_ones x) by lia. rewrite Z.mod_small by lia.
  rewrite <- Z.ldiff_land. change 7 with (Z.ones 3). rewrite Z.ldiff_ones_r by lia.
  rewrite Z.shiftl_mul_pow2, Z.shiftr_div_pow2 by lia. change (2 ^ 3) with 8. lia.
Qed.

(** The bits of a byte from the bit [k] on. *)
Fixpoint byte_bits (u : Z) (k : Z) (n : nat) : Z :=
  match n with
  | O => 0
  | S n => 2 * byte_bits u k n + b2z (Z.testbit u (7 - (k + Z.of_nat n)))
  end.

Lemma bits_value_byte buf q k n :
  0 <= q -> 0 <= k -> k + Z.of_nat n <= 8 -> bits_value buf (8 * q + k) n = byte_bits (buf !!! Z.to_nat q) k n.
Proof.
  intros Hq Hk. induction n as [|n IH]; intros Hn; [done|]. cbn [bits_value byte_bits]. rewrite IH by lia.
  unfold bit_at. replace ((8 * q + k + Z.of_nat n) / 8) with q by dlia.
  by replace ((8 * q + k + Z.of_nat n) mod 8) with (k + Z.of_nat n) by dlia.
Qed.

(** What the code computes of a byte. *)
Lemma byte_bits_shifts u k n :
  0 <= u < 256 -> 0 <= k -> k + Z.of_nat n <= 8 ->
  ((u ≪ k) .& 0xff) ≫ (8 - Z.of_nat n) = byte_bits u k n.
Proof.
  intros Hu Hk Hn.
  assert (forallb (fun u => forallb (fun k => forallb (fun n => if (k + n <=? 8)%nat then
      (((Z.of_nat u ≪ Z.of_nat k) .& 0xff) ≫ (8 - Z.of_nat n)) =? byte_bits (Z.of_nat u) (Z.of_nat k) n
      else true) (seq 0 9)) (seq 0 9)) (seq 0 256) = true) as H by (vm_compute; reflexivity).
  rewrite forallb_forall in H. specialize (H (Z.to_nat u)). rewrite in_seq, Z2Nat.id in H by lia.
  specialize (H ltac:(lia)). rewrite forallb_forall in H. specialize (H (Z.to_nat k)).
  rewrite in_seq, Z2Nat.id in H by lia. specialize (H ltac:(lia)). rewrite forallb_forall in H. specialize (H n).
  rewrite in_seq in H. specialize (H ltac:(lia)).
  rewrite (proj2 (Nat.leb_le _ 8)) in H by lia. by apply Z.eqb_eq in H.
Qed.

Lemma bits_value_app buf pos a b :
  bits_value buf pos (a + b) = bits_value buf pos a * 2 ^ Z.of_nat b + bits_value buf (pos + Z.of_nat a) b.
Proof.
  induction b as [|b IH]; [rewrite Nat.add_0_r; cbn; lia|]. rewrite Nat.add_succ_r. cbn [bits_value]. rewrite IH.
  rewrite Nat2Z.inj_succ, Z.pow_succ_r by lia. rewrite Nat2Z.inj_add, Z.add_assoc. lia.
Qed.

Lemma bits_value_bound buf pos n : 0 <= bits_value buf pos n < 2 ^ Z.of_nat n.
Proof.
  induction n as [|n IH]; [done|]. cbn [bits_value]. rewrite Nat2Z.inj_succ, Z.pow_succ_r by lia.
  destruct (bit_at _ _); cbn [b2z]; lia.
Qed.

(** Whole bytes. *)
Lemma bits_value_8 buf q : 0 <= q -> is_byte (buf !!! Z.to_nat q) -> bits_value buf (8 * q) 8 = buf !!! Z.to_nat q.
Proof.
  intros Hq Hb. replace (8 * q) with (8 * q + 0) by lia. rewrite bits_value_byte by lia.
  unfold is_byte in Hb. rewrite <- byte_bits_shifts by lia. rewrite Z.shiftl_0_r. change (8 - Z.of_nat 8) with 0.
  rewrite Z.shiftr_0_r. change 255 with (Z.ones 8). rewrite Z.land_ones by lia. by apply Z.mod_small.
Qed.

(** The fields that a state stands for. *)
Inductive means (buf : list Z) : SPEC -> list FIELD -> Prop :=
  | means_end s : spec_step buf s = None -> means buf s []
  | means_step s s' f fs : spec_step buf s = Some (s', f) -> means buf s' fs ->
      means buf s (match f with Some f => f :: fs | None => fs end).

(** An item that always takes some bits. *)
Definition advances (items : list ITEM) : Prop :=
  Exists (fun i => exists ds, it_width i = Fixed ds /\ digits_value 10 ds <> 0) items.

(** What is repeated has such an item. *)
Fixpoint stars_advance (items : list ITEM) : Prop :=
  match items with
  | [] => True
  | i :: r => (it_star i = true -> advances items) /\ stars_advance r
  end.

(** Turns of the loop that are enough. *)
Definition text_fuel (items : list ITEM) (len : Z) : nat :=
  length items + 2 + (length items + 1) * Z.to_nat (8 * len).
