(* ===== verification/ScsiTextProps.v ===== *)
(** * The interpreter of formats does what the items mean *)

From S2P Require Import Prelude Wdk Minimal StrToInt ScsiText ScsiTextSpec.

(** ** Texts *)

(** The end of a line or of the format. *)
Definition line_end (e : Z) : Prop := e = 0 \/ e = 10.

Definition in_line (t : list Z) : Prop := Forall (fun c => 0 < c < 256 /\ c <> 10) t.

(** What the parsers of a line do is the same whatever comes after the line. *)
Lemma toint_loop_line t v :
  in_line t -> exists o, forall e r, line_end e ->
    toint_loop (t ++ e :: r) 10 v = '(w, q) ← o; Some (w, q ++ e :: r).
Proof.
  intros Ht. revert v. induction Ht as [|c t [Hc Hc'] Ht IH]; intros v.
  { exists (Some (v, [])). by intros e r [->| ->]. }
  cbn [app toint_loop]. rewrite (proj2 (Z.eqb_neq c 0)) by lia.
  assert (forall o : option Z, exists o', forall e r, line_end e ->
    (v ← o; toint_loop (t ++ e :: r) 10 v) = '(w, q) ← o'; Some (w, q ++ e :: r)) as Hstep.
  { intros [w|]; [|by exists None]. destruct (IH w) as [o' Ho']. exists o'. intros e r He. by rewrite bind_value, Ho'. }
  case_match; [apply Hstep|]. case_match; [apply Hstep|].
  exists (Some (v, c :: t)). by intros e r He.
Qed.

Lemma name_mark_line letter t :
  in_line t -> letter <> 0 -> letter <> 10 ->
  exists o, forall e r, line_end e -> name_mark letter (t ++ e :: r) = o.
Proof.
  intros Ht H0 H10. unfold name_mark.
  destruct t as [|c0 t]; [exists (Some None); by intros e r [->| ->]|].
  destruct (40 =? c0) eqn:E0.
  2: { exists (Some None). intros e r He. cbn [app lookup list_lookup]. by rewrite bind_value, E0. }
  destruct t as [|c1 t].
  { exists (Some None). intros e r He. cbn [app lookup list_lookup]. rewrite bind_value, E0, bind_value.
    rewrite (proj2 (Z.eqb_neq letter e)); [done|]. destruct He; congruence. }
  destruct (letter =? c1) eqn:E1.
  2: { exists (Some None). intros e r He. cbn [app lookup list_lookup]. by rewrite bind_value, E0, bind_value, E1. }
  destruct t as [|c2 t].
  { exists (Some None). intros e r He. cbn [app lookup list_lookup]. rewrite bind_value, E0, bind_value, E1, bind_value.
    by destruct He as [->| ->]. }
  destruct (45 =? c2) eqn:E2.
  2: { exists (Some None). intros e r He. cbn [app lookup list_lookup].
       by rewrite bind_value, E0, bind_value, E1, bind_value, E2. }
  apply Forall_cons in Ht as [_ Ht]. apply Forall_cons in Ht as [_ Ht]. apply Forall_cons in Ht as [_ Ht].
  destruct (toint_loop_line t 0 Ht) as [o Ho].
  exists ('(w, q) ← o; Some (match q with c :: _ => if 41 =? c then Some (u32 (1 * w)) else None | [] => None end)).
  intros e r He. cbn [app lookup list_lookup drop]. rewrite bind_value, E0, bind_value, E1, bind_value, E2.
  rewrite drop_0. unfold strtoint. change (toint_sign (t ++ e :: r) false) with (Some (1, t ++ e :: r)).
  rewrite bind_value. change (toint_base (t ++ e :: r) 10) with (Some (10, t ++ e :: r)). rewrite bind_value.
  rewrite Ho by done. destruct o as [[w q]|]; [|done]. rewrite !bind_value.
  destruct q as [|c q]; cbn [app lookup list_lookup]; rewrite bind_value; [|done]. by destruct He as [->| ->].
Qed.

Lemma scan_name_line t n m :
  in_line t -> exists o, forall e r, line_end e ->
    scan_name (t ++ e :: r) n m = '(n, m) ← o; Some (e :: r, n, m).
Proof.
  intros Ht. revert n m. induction Ht as [|c t Hc Ht IH]; intros n m.
  { exists (Some (n, m)). intros e r [->| ->]; done. }
  assert (in_line (c :: t)) as Hct by by constructor.
  destruct (name_mark_line 110 (c :: t) Hct ltac:(done) ltac:(done)) as [on Hon].
  destruct (name_mark_line 109 (c :: t) Hct ltac:(done) ltac:(done)) as [om Hom].
  assert (forall e r, line_end e -> scan_name ((c :: t) ++ e :: r) n m =
    n' ← on; match n' with Some v => scan_name (t ++ e :: r) v m
             | None => m' ← om; scan_name (t ++ e :: r) n (default m m') end) as Heq.
  { intros e r He. cbn [app scan_name]. destruct Hc as [Hc1 Hc2].
    rewrite (proj2 (Z.eqb_neq c 0)), (proj2 (Z.eqb_neq c 10)) by lia. cbn [orb].
    rewrite (Hon e r He : name_mark 110 (c :: t ++ e :: r) = on).
    rewrite (Hom e r He : name_mark 109 (c :: t ++ e :: r) = om). done. }
  destruct on as [[v|]|].
  - destruct (IH v m) as [o Ho]. exists o. intros e r He. rewrite Heq by done. rewrite bind_value. by apply Ho.
  - destruct om as [m'|].
    + destruct (IH n (default m m')) as [o Ho]. exists o. intros e r He. rewrite Heq by done. rewrite !bind_value. by apply Ho.
    + exists None. intros e r He. by rewrite Heq.
  - exists None. intros e r He. by rewrite Heq.
Qed.

Lemma scan_name_marks name n m e r :
  in_line name -> name_marks name = Some (n, m) -> line_end e ->
  scan_name (name ++ e :: r) (u32 (-1)) (u32 (-1)) = Some (e :: r, n, m).
Proof.
  intros Hn Hm He. destruct (scan_name_line name (u32 (-1)) (u32 (-1)) Hn) as [o Ho].
  unfold name_marks in Hm. rewrite (Ho 0 []) in Hm by (by left). rewrite Ho by done.
  destruct o as [[n' m']|]; [|done]. rewrite !bind_value in Hm. by injection Hm as -> ->.
Qed.

Lemma skip_spaces_pad k p : hd 0 p <> 32 -> p <> [] -> skip_spaces (replicate k 32 ++ p) = Some p.
Proof.
  intros Hp Hne. induction k as [|k IH]; cbn [replicate app skip_spaces]; [|done].
  destruct p as [|c p]; [done|]. cbn in Hp. cbn [skip_spaces]. by rewrite (proj2 (Z.eqb_neq 32 c)) by congruence.
Qed.

(** A width is read up to the spaces after it. *)
Lemma width_reads ds k p :
  Forall (fun d => 0 <= d < 10) ds -> digits_value 10 ds < 2 ^ 32 -> (0 < k)%nat ->
  strtoint (((fun d => 48 + d) <$> ds) ++ replicate k 32 ++ p) 10 false =
    Some (digits_value 10 ds, replicate k 32 ++ p).
Proof.
  intros Hds Hv Hk. unfold strtoint. cbn [toint_sign]. rewrite bind_value.
  unfold toint_base. change (0 =? 10) with false. cbv iota. rewrite bind_value.
  rewrite (toint_loop_numeral 10 ltac:(lia) ds); [|split; [|done]|done|unfold digits_value in Hv; lia].
  - assert (no_digit 10 (replicate k 32 ++ p)) as Hno.
    { destruct k as [|k]; [lia|]. exists 32, (replicate k 32 ++ p). split; [done|]. unfold digit_char. lia. }
    rewrite (toint_loop_stop 10) by (done || lia). rewrite bind_value. by rewrite Z.mul_1_l.
  - clear Hv. induction Hds as [|d ds Hd Hds IH]; [constructor|]. constructor; [left; split; [lia|done]|done].
Qed.

(** ** Comparisons *)

Lemma unsigned_char_sub a b :
  0 <= a < 256 -> 0 <= b < 256 -> int_of (unsigned_char a - unsigned_char b) = 0 <-> a = b.
Proof. intros Ha Hb. unfold int_of, unsigned_char, u32. repeat case_match; zify_bools; dlia. Qed.

Lemma strncmp_name s t v :
  in_line t -> Forall (fun c => 0 <= c < 256) s -> 0 ∈ s ->
  exists w, strncmp_loop unsigned_char s (t ++ [0]) (length t) v = Some w /\
    ((0 =? w) = if bool_decide (t = []) then 0 =? v else bool_decide (t = take (length t) s)).
Proof.
  intros Ht. revert s v. induction Ht as [|c t [Hc Hc'] Ht IH]; intros s v Hs H0; [exists v; split; [by destruct s|by rewrite bool_decide_eq_true_2]|].
  cbn [length app]. destruct s as [|cs s]; [by apply not_elem_of_nil in H0|].
  apply Forall_cons in Hs as [Hcs Hs]. pose proof (unsigned_char_sub cs c ltac:(lia) ltac:(lia)) as Hsub.
  rewrite (bool_decide_eq_false_2 (c :: t = [])) by done. cbn [take strncmp_loop].
  set (w := int_of _) in *. destruct (Z.eqb_spec 0 w) as [E|E].
  - assert (cs = c) as -> by (apply Hsub; congruence). rewrite (proj2 (Z.eqb_neq c 0)) by lia. cbn [negb andb].
    apply elem_of_cons in H0 as [H0|H0]; [lia|].
    destruct (IH s w Hs H0) as (w' & -> & Hw'). exists w'. split; [done|]. rewrite Hw'. destruct t as [|c1 t].
    + rewrite <- E. by rewrite !bool_decide_eq_true_2 by done.
    + rewrite (bool_decide_eq_false_2 (c1 :: t = [])) by done. apply bool_decide_ext.
      split; congruence.
  - cbn [andb]. exists w. split; [done|]. rewrite (proj2 (Z.eqb_neq 0 w)) by congruence. symmetry.
    apply bool_decide_eq_false. intros [= -> _]. apply E. symmetry. by apply Hsub.
Qed.

(** Is the name the one of a reserved field? *)
Lemma reserved_name name :
  in_line name ->
  exists w, invariant_strncmp RESERVED (name ++ [0]) (length name) = Some w /\
    (0 =? w) = bool_decide (name = take (length name) RESERVED).
Proof.
  intros Hn. destruct (strncmp_name RESERVED name 0 Hn) as (w & E & Hw).
  { repeat constructor; lia. } { unfold RESERVED. set_solver. }
  exists w. split; [done|]. rewrite Hw. case_bool_decide as H; [|done]. subst. done.
Qed.

(** ** Numbers *)

Lemma shift_or u k n x :
  0 <= u < 256 -> 0 <= k -> k + Z.of_nat n <= 8 -> 0 <= x ->
  u64 (x ≪ Z.of_nat n) .| (((u ≪ k) .& 0xff) ≫ (8 - Z.of_nat n)) = u64 (x * 2 ^ Z.of_nat n + byte_bits u k n).
Proof.
  intros Hu Hk Hn Hx. rewrite byte_bits_shifts by done.
  assert (0 <= byte_bits u k n < 2 ^ Z.of_nat n) as Hb.
  { clear. induction n as [|n IH]; [done|]. cbn [byte_bits]. rewrite Nat2Z.inj_succ, Z.pow_succ_r by lia.
    destruct (Z.testbit _ _); cbn [b2z]; lia. }
  rewrite Z.shiftl_mul_pow2 by lia. unfold u64.
  assert (exists j, 2 ^ 64 = 2 ^ Z.of_nat n * j /\ 0 < j) as (j & Hj & Hj0).
  { exists (2 ^ (64 - Z.of_nat n)). split; [|lia]. rewrite <- Z.pow_add_r by lia. f_equal. lia. }
  assert ((x * 2 ^ Z.of_nat n) mod 2 ^ 64 = (x mod j) * 2 ^ Z.of_nat n) as E.
  { rewrite Hj, Z.mul_comm, Zmult_mod_distr_l by lia. lia. }
  rewrite (lor_disjoint_add (Z.of_nat n)); [|lia|done|rewrite E; apply Z_mod_mult].
  rewrite <- Zplus_mod_idemp_l. symmetry. apply Z.mod_small. rewrite E, Hj. pose proof (Z.mod_pos_bound x j). nia.
Qed.

Section Buffer.
Context (buf : list Z) (Hbytes : Forall is_byte buf) (Hsize : 8 * Z.of_nat (length buf) < 2 ^ 32).

Lemma buf_byte q : 0 <= q < Z.of_nat (length buf) ->
  buf !! Z.to_nat q = Some (buf !!! Z.to_nat q) /\ 0 <= buf !!! Z.to_nat q < 256.
Proof using Hbytes.
  intros Hq. assert (buf !! Z.to_nat q = Some (buf !!! Z.to_nat q)) as E by (apply list_lookup_lookup_total_lt; lia).
  split; [done|]. by apply (Forall_lookup_1 _ _ _ _ Hbytes E).
Qed.

Lemma read_bits_spec fuel pos n v :
  0 <= pos -> 0 <= n -> pos + n <= 8 * Z.of_nat (length buf) -> 0 <= v -> (Z.to_nat n < fuel)%nat ->
  read_bits fuel buf pos n (u64 v) = Some (u64 (v * 2 ^ n + bits_value buf pos (Z.to_nat n)), pos + n).
Proof using Hbytes Hsize.
  revert pos n v. induction fuel as [|fuel IH]; intros pos n v Hpos Hn Hle Hv Hf; [lia|]. cbn [read_bits].
  destruct (Z.ltb_spec 0 n) as [H0|H0].
  2: { replace n with 0 by lia. cbn. by rewrite Z.mul_1_r, !Z.add_0_r. }
  rewrite (u64_small (pos + 8)), align_8 by lia. rewrite (u64_small (pos + n)) by lia.
  set (w := if _ >? _ then _ else _). assert (w = Z.min n (8 - pos mod 8)) as ->.
  { subst w. rewrite Z.gtb_ltb. destruct (Z.ltb_spec (8 * ((pos + 8) / 8)) (pos + n)).
    - rewrite u64_small by dlia. rewrite u32_small by dlia. dlia.
    - dlia. }
  set (w := Z.min n (8 - pos mod 8)). assert (1 <= w <= n /\ w <= 8 - pos mod 8) as [Hw Hw8] by dlia. clearbody w.
  destruct (buf_byte (pos / 8)) as [-> Hu]; [dlia|]. rewrite bind_value. set (u := buf !!! Z.to_nat (pos / 8)) in *.
  assert (pos .& 7 = pos mod 8) as -> by (change 7 with (Z.ones 3); by rewrite Z.land_ones by lia).
  rewrite (u64_small (pos + w)), (u32_small (n - w)) by lia.
  assert (u64 (u64 v ≪ w) .| (((u ≪ (pos mod 8)) .& 255) ≫ (8 - w)) = u64 (v * 2 ^ w + bits_value buf pos (Z.to_nat w))) as ->.
  { pose proof (shift_or u (pos mod 8) (Z.to_nat w) (u64 v) Hu ltac:(dlia) ltac:(lia) ltac:(apply u64_bound)) as E.
    rewrite Z2Nat.id in E by lia. rewrite E. replace pos with (8 * (pos / 8) + pos mod 8) at 2 by dlia.
    rewrite bits_value_byte by dlia. fold u. unfold u64. rewrite <- Zplus_mod_idemp_l, Zmult_mod_idemp_l.
    by rewrite Zplus_mod_idemp_l. }
  rewrite IH by (try lia; pose proof (bits_value_bound buf pos (Z.to_nat w)); nia). f_equal. f_equal; [|lia].
  replace (Z.to_nat n) with (Z.to_nat w + Z.to_nat (n - w))%nat by lia. rewrite bits_value_app, !Z2Nat.id by lia.
  replace (2 ^ n) with (2 ^ w * 2 ^ (n - w)) by (rewrite <- Z.pow_add_r by lia; f_equal; lia). f_equal. ring.
Qed.

(** ** Steps *)

(** The variables of the loop for a state of the meaning. *)
Definition variables (open : bool) (s : SPEC) : TEXT :=
  mkText (format_of open (sp_items s)) (format_of open <$> sp_star s) (sp_m s) (sp_pos s) (sp_len s).

Record spec_wf (s : SPEC) : Prop := {
  sw_items : Forall item_wf (sp_items s);
  sw_star l : sp_star s = Some l -> Forall item_wf l;
  sw_m : 0 <= sp_m s < 2 ^ 32;
  sw_pos : 0 <= sp_pos s <= 8 * Z.of_nat (length buf);
  sw_len : 0 <= sp_len s <= Z.of_nat (length buf)
}.

Lemma format_of_cons open i items :
  exists e r, line_end e /\ format_of open (i :: items) = item_text i ++ e :: r /\
    (if 10 =? e then r else e :: r) = format_of open items.
Proof.
  destruct items as [|i' items].
  - destruct open; [exists 0, []|exists 10, [0]]; (split; [unfold line_end; lia|done]).
  - exists 10, (format_of open (i' :: items)). split; [by right|done].
Qed.

Lemma item_width_bound m i : 0 <= m < 2 ^ 32 -> item_wf i -> 0 <= item_width m i < 2 ^ 32.
Proof.
  intros Hm Hi. unfold item_width. destruct (it_width i) as [ds|] eqn:E; [|done].
  destruct (iw_width i Hi ds E) as [Hd Hv]. split; [|done]. by apply (digits_value_step 10).
Qed.

Lemma text_bytes_spec open s i :
  spec_wf s -> sp_pos s < 8 * sp_len s -> item_wf i ->
  text_bytes buf (variables open s) (it_type i) (item_width (sp_m s) i) (it_name i) =
    Some ((variables open (bytes_item buf s i).1), (bytes_item buf s i).2) /\
  spec_wf (bytes_item buf s i).1.
Proof using Hsize.
  intros [H1 H2 H3 H4 H5] Hlt Hi. pose proof (item_width_bound _ _ H3 Hi) as Hw.
  unfold text_bytes, bytes_item. cbn [variables tx_p tx_star tx_m tx_bitpos tx_len fst snd].
  set (w := item_width _ _) in *. clearbody w. rewrite (u64_small (sp_pos s + 7)), align_8 by lia.
  assert ((8 * ((sp_pos s + 7) / 8)) / 8 = (sp_pos s + 7) / 8) as -> by dlia.
  set (q := (sp_pos s + 7) / 8). assert (0 <= q <= sp_len s) as Hq by (subst q; dlia). clearbody q.
  rewrite (u64_small (q + w)) by lia. set (lval := if _ >? _ then _ else _).
  assert (lval = Z.min w (sp_len s - q)) as ->.
  { subst lval. rewrite Z.gtb_ltb. destruct (Z.ltb_spec (sp_len s) (q + w)); [|lia].
    rewrite u64_small, u32_small by lia. lia. }
  set (n := Z.min w (sp_len s - q)). assert (0 <= n <= sp_len s - q) as Hn by lia. clearbody n.
  unfold buf_read. rewrite decide_True by lia. rewrite bind_value. rewrite u64_small by lia.
  assert (8 * q + n * 8 = 8 * (q + n)) as -> by lia. split; [|by constructor; cbn; try done; lia].
  unfold variables. cbn [sp_items sp_star sp_m sp_pos sp_len]. by destruct (0 =? w).
Qed.

Lemma text_bits_spec open s i nv mv :
  spec_wf s -> sp_pos s < 8 * sp_len s -> item_wf i -> name_marks (it_name i) = Some (nv, mv) ->
  text_bits buf (variables open s) (it_type i) (item_width (sp_m s) i) (it_name i) nv mv =
    Some ((variables open (bits_item buf s i).1), (bits_item buf s i).2) /\
  spec_wf (bits_item buf s i).1.
Proof using Hbytes Hsize.
  intros [H1 H2 H3 H4 H5] Hlt Hi Hmarks. pose proof (item_width_bound _ _ H3 Hi) as Hw.
  unfold text_bits, bits_item. cbn [variables tx_p tx_star tx_m tx_bitpos tx_len]. rewrite Hmarks. cbn [default].
  set (w := item_width _ _) in *. clearbody w. rewrite (u64_small (sp_pos s + w)), (u64_small (sp_len s * 8)) by lia.
  set (loopw := if _ >? _ then _ else _). assert (loopw = Z.min w (8 * sp_len s - sp_pos s)) as ->.
  { subst loopw. rewrite Z.gtb_ltb. destruct (Z.ltb_spec (sp_len s * 8) (sp_pos s + w)); [|lia].
    rewrite u64_small, u32_small by lia. lia. }
  set (n := Z.min w (8 * sp_len s - sp_pos s)). assert (0 <= n <= 8 * sp_len s - sp_pos s) as Hn by lia. clearbody n.
  pose proof (read_bits_spec (S (Z.to_nat n)) (sp_pos s) n 0 ltac:(lia) ltac:(lia) ltac:(lia) ltac:(lia) ltac:(lia)) as E.
  change (u64 0) with 0 in E. rewrite E, bind_value. rewrite Z.mul_0_l, Z.add_0_l.
  set (v := u64 (bits_value _ _ _)). destruct (reserved_name (it_name i) (iw_name i Hi)) as (r & -> & Hr).
  rewrite bind_value, Hr. cbn [fst snd].
  assert ((if negb (u32 (-1) =? nv) && (u64 (v + nv + 1) <? sp_len s) then u64 (v + nv + 1) else sp_len s) =
    (if negb (u32 (-1) =? nv) then Z.min (sp_len s) (u64 (v + nv + 1)) else sp_len s)) as ->.
  { destruct (negb (u32 (-1) =? nv)); cbn [andb]; [|done].
    destruct (Z.ltb_spec (u64 (v + nv + 1)) (sp_len s)); lia. }
  split; [done|]. pose proof (u64_bound (v + nv + 1)) as Hu. constructor; cbn; try done; try lia.
  - destruct (_ && _); [apply u32_bound|done].
  - destruct (negb (u32 (-1) =? nv)); lia.
Qed.

(** A turn of the loop is a step. *)
Lemma text_step_spec open s :
  spec_wf s ->
  text_step buf (variables open s) = Some ((fun x => (variables open x.1, x.2)) <$> spec_step buf s) /\
  (forall s' f, spec_step buf s = Some (s', f) -> spec_wf s').
Proof using Hbytes Hsize.
  intros Hwf. pose proof Hwf as [H1 H2 H3 H4 H5]. unfold text_step, spec_step.
  cbn [variables tx_p tx_star tx_m tx_bitpos tx_len]. rewrite u64_small by lia.
  destruct (Z.ltb_spec (sp_pos s) (sp_len s * 8)) as [Hlt|Hge]; cbn [negb].
  2: { by rewrite (proj2 (Z.leb_le _ _)) by lia. }
  rewrite (proj2 (Z.leb_gt _ _)) by lia. destruct (sp_items s) as [|i items] eqn:Ei.
  { cbn [format_of lookup list_lookup]. rewrite bind_value. change (42 =? 0) with false. cbv iota.
    cbn [lookup list_lookup]. rewrite bind_value. change (0 =? 0) with true. cbv iota.
    destruct (sp_star s) as [l|] eqn:El; cbn; [|done]. split; [unfold variables; cbn; by rewrite ?El|].
    intros s' f [= <- <-]. constructor; cbn; try done. by apply H2. }
  destruct (format_of_cons open i items) as (e & r & He & Ef & Er).
  apply Forall_cons in H1 as [Hi Hitems]. pose proof (iw_name i Hi) as Hname.
  destruct (iw_marks i Hi) as [[nv mv] Hmarks].
  set (s1 := mkSpec items (if it_star i then Some (i :: items) else sp_star s) (sp_m s) (sp_pos s) (sp_len s)).
  assert (spec_wf s1) as Hwf1.
  { constructor; cbn; try done. intros l. destruct (it_star i); [intros [= <-]; by constructor|by apply H2]. }
  assert (it_type i <> 42 /\ it_type i <> 0) as [Ht42 Ht0].
  { destruct (iw_type i Hi) as [H|H]; unfold is_upper, is_lower in H; apply andb_true_iff in H as [Ha Hb]; zify_bools; lia. }
  rewrite Ef. unfold item_text.
  assert (exists c p0, (if it_star i then [42] else []) ++ it_type i :: width_text (it_width i) ++
      replicate (it_pad i) 32 ++ it_name i = c :: p0 /\
    (if 42 =? c then (Some (c :: p0 ++ e :: r), p0 ++ e :: r) else (format_of open <$> sp_star s, c :: p0 ++ e :: r)) =
    (format_of open <$> sp_star s1,
     it_type i :: width_text (it_width i) ++ replicate (it_pad i) 32 ++ it_name i ++ e :: r)) as (c & p0 & Ec & Es).
  { unfold s1. cbn [sp_star]. destruct (it_star i) eqn:Estar; cbn [app].
    - eexists _, _. split; [reflexivity|]. change (42 =? 42) with true. cbv iota. cbn [fmap option_fmap option_map].
      rewrite Ef. unfold item_text. rewrite Estar. cbn [app]. by rewrite <- !app_assoc.
    - eexists _, _. split; [reflexivity|]. rewrite (proj2 (Z.eqb_neq 42 _)) by congruence. by rewrite <- !app_assoc. }
  rewrite Ec. cbn [app lookup list_lookup tail]. rewrite bind_value, Es. cbn [lookup list_lookup]. rewrite bind_value.
  rewrite (proj2 (Z.eqb_neq 0 _)) by congruence. cbn [tail].
  assert (exists c1, (width_text (it_width i) ++ replicate (it_pad i) 32 ++ it_name i ++ e :: r) !! 0%nat = Some c1 /\
    (if 109 =? c1 then Some (sp_m s, tail (width_text (it_width i) ++ replicate (it_pad i) 32 ++ it_name i ++ e :: r))
     else '(v, p) ← strtoint (width_text (it_width i) ++ replicate (it_pad i) 32 ++ it_name i ++ e :: r) 10 false;
          Some (u32 v, p)) = Some (item_width (sp_m s) i, replicate (it_pad i) 32 ++ it_name i ++ e :: r))
    as (c1 & -> & Ew).
  { pose proof (iw_pad i Hi) as Hpad. unfold item_width. destruct (it_width i) as [ds|] eqn:Ewd; cbn [width_text].
    - destruct (iw_width i Hi ds Ewd) as [Hds Hv]. rewrite width_reads by done. rewrite bind_value.
      rewrite u32_small by (split; [by apply (digits_value_step 10)|done]).
      destruct ds as [|d ds]; cbn [fmap list_fmap app].
      + destruct (it_pad i) as [|k]; [lia|]. by exists 32.
      + exists (48 + d). split; [done|]. apply Forall_cons in Hds as [Hd _].
        by rewrite (proj2 (Z.eqb_neq 109 _)) by lia.
    - by exists 109. }
  rewrite bind_value, Ew, bind_value. rewrite skip_spaces_pad.
  2: { pose proof (iw_space i Hi) as Hsp. destruct (it_name i); cbn in *; [destruct He; lia|done]. }
  2: { by destruct (it_name i). }
  rewrite bind_value, (scan_name_marks _ nv mv) by done. rewrite bind_value, length_app.
  replace (length (it_name i) + length (e :: r) - length (e :: r))%nat with (length (it_name i)) by lia.
  rewrite take_app_length. cbn [lookup list_lookup tail]. rewrite bind_value.
  change (mkText (if 10 =? e then r else e :: r) (format_of open <$> sp_star s1) (sp_m s) (sp_pos s) (sp_len s))
    with (mkText (if 10 =? e then r else e :: r) (format_of open <$> sp_star s1) (sp_m s1) (sp_pos s1) (sp_len s1)).
  rewrite Er. change (mkText (format_of open items) _ _ _ _) with (variables open s1).
  change (item_width (sp_m s) i) with (item_width (sp_m s1) i). unfold spec_item.
  destruct (is_upper (it_type i)) eqn:Eup.
  - destruct (text_bytes_spec open s1 i Hwf1) as [-> Hwf2]; [cbn; lia|done|]. rewrite bind_value. split; [done|].
    intros s' f Hs. apply (inj Some) in Hs. by rewrite Hs in Hwf2.
  - assert (is_lower (it_type i) = true) as -> by (destruct (iw_type i Hi); congruence).
    destruct (text_bits_spec open s1 i nv mv Hwf1) as [-> Hwf2]; [cbn; lia|done|done|]. rewrite bind_value. split; [done|].
    intros s' f Hs. apply (inj Some) in Hs. by rewrite Hs in Hwf2.
Qed.

Lemma text_loop_spec open fuel s :
  spec_wf s -> text_loop fuel buf (variables open s) = spec_loop fuel buf s.
Proof using Hbytes Hsize.
  revert s. induction fuel as [|fuel IH]; intros s Hwf; [done|]. cbn [text_loop spec_loop].
  destruct (text_step_spec open s Hwf) as [-> Hnext]. rewrite bind_value.
  destruct (spec_step buf s) as [[s' f]|] eqn:E; cbn; [|done]. by rewrite IH by eauto.
Qed.

(** ** The loop ends *)

Lemma spec_loop_more n k s fs : spec_loop n buf s = Some fs -> (n <= k)%nat -> spec_loop k buf s = Some fs.
Proof using.
  revert k s fs. induction n as [|n IH]; intros k s fs; [done|]. intros E Hk. destruct k as [|k]; [lia|].
  cbn [spec_loop] in *. destruct (spec_step buf s) as [[s' f]|]; [|done].
  destruct (spec_loop n buf s') as [fs'|] eqn:E'; [|done]. by rewrite (IH k s' fs' E') by lia.
Qed.

Lemma spec_loop_means n s fs : spec_loop n buf s = Some fs -> means buf s fs.
Proof using.
  revert s fs. induction n as [|n IH]; intros s fs; [done|]. cbn [spec_loop].
  destruct (spec_step buf s) as [[s' f]|] eqn:E; [|intros [= <-]; by apply means_end].
  destruct (spec_loop n buf s') as [fs'|] eqn:E'; [|done]. rewrite bind_value. intros [= <-].
  eapply means_step; [exact E|by apply IH].
Qed.

Section Ends.
Context (N : nat).

(** What is repeated takes some bits, and is not longer than the format. *)
Definition star_ok (s : SPEC) : Prop :=
  (forall l, sp_star s = Some l -> advances l /\ stars_advance l /\ (length l <= N)%nat) /\
  stars_advance (sp_items s) /\ (length (sp_items s) <= N)%nat.

Lemma spec_item_moves s i :
  spec_wf s -> sp_pos s < 8 * sp_len s -> item_wf i ->
  let s' := (spec_item buf s i).1 in
  sp_items s' = sp_items s /\ sp_star s' = sp_star s /\ sp_len s' <= sp_len s /\ sp_pos s <= sp_pos s' /\
  (advances [i] -> sp_pos s < sp_pos s').
Proof using.
  intros [H1 H2 H3 H4 H5] Hlt Hi. pose proof (item_width_bound _ _ H3 Hi) as Hw.
  assert (advances [i] -> item_width (sp_m s) i <> 0) as Hadv.
  { unfold advances. intros Ha. apply Exists_cons in Ha as [(ds & E & Hds)|Ha%Exists_nil]; [|done].
    unfold item_width. by rewrite E. }
  unfold spec_item. destruct (is_upper (it_type i)).
  - unfold bytes_item. cbn [fst sp_items sp_star sp_len sp_pos]. split_and!; try done; [dlia|].
    intros Ha%Hadv. dlia.
  - unfold bits_item. destruct (default _ _) as [nv mv]. cbn [fst sp_items sp_star sp_len sp_pos].
    split_and!; try done; [destruct (negb _); lia|lia|]. intros Ha%Hadv. lia.
Qed.

(** Through the items of a format. *)
Lemma spec_loop_items items s k :
  spec_wf s -> star_ok s -> sp_items s = items ->
  (forall s', spec_wf s' -> star_ok s' -> sp_items s' = [] -> sp_len s' <= sp_len s -> sp_pos s <= sp_pos s' ->
     (advances items -> sp_pos s < sp_pos s') -> is_Some (spec_loop k buf s')) ->
  is_Some (spec_loop (length items + k) buf s).
Proof using Hbytes Hsize.
  revert s. induction items as [|i items IH]; intros s Hwf Hok Ei Hend; cbn [length Nat.add].
  { apply Hend; try done. unfold advances. by intros ?%Exists_nil. }
  cbn [spec_loop]. destruct (spec_step buf s) as [[s' f]|] eqn:E; [|by eexists].
  pose proof (proj2 (text_step_spec false s Hwf) s' f E) as Hwf'.
  unfold spec_step in E. destruct (Z.leb_spec (8 * sp_len s) (sp_pos s)) as [|Hlt]; [done|].
  rewrite Ei in E. apply (inj Some) in E.
  set (s0 := mkSpec items (if it_star i then Some (i :: items) else sp_star s) (sp_m s) (sp_pos s) (sp_len s)) in *.
  pose proof (sw_items s Hwf) as Hit. rewrite Ei in Hit. apply Forall_cons in Hit as [Hi Hit].
  destruct Hok as (Hstar & Hadv & Hlen). rewrite Ei in Hadv, Hlen. cbn [length] in Hlen. destruct Hadv as [Hadv1 Hadv2].
  assert (spec_wf s0) as Hwf0.
  { destruct Hwf as [W1 W2 W3 W4 W5]. constructor; cbn; try done.
    intros l. destruct (it_star i); [intros [= <-]; by constructor|by apply W2]. }
  destruct (spec_item_moves s0 i Hwf0 Hlt Hi) as (M1 & M2 & M3 & M4 & M5). rewrite E in M1, M2, M3, M4, M5.
  cbn [fst] in *. destruct (IH s' Hwf') as [fs ->]; [|done| |by rewrite bind_value].
  - split; [|split; [by rewrite M1|rewrite M1; cbn; lia]]. intros l. rewrite M2. cbn [sp_star s0].
    destruct (it_star i); [|apply Hstar]. intros [= <-]. split; [by apply Hadv1|split; [split; [intros _; by apply Hadv1|done]|cbn [length]; lia]].
  - intros s2 W2 O2 E2 L2 P2 A2. apply Hend; try done; cbn in *; [lia|lia|].
    intros Ha. unfold advances in Ha, A2, M5. apply Exists_cons in Ha as [Ha|Ha]; [|specialize (A2 Ha); lia].
    assert (sp_pos s < sp_pos s') by (apply M5; by constructor). lia.
Qed.

(** And around, as long as there are data. *)
Lemma spec_loop_around d s :
  spec_wf s -> star_ok s -> sp_items s = [] -> 8 * sp_len s - sp_pos s <= Z.of_nat d ->
  is_Some (spec_loop (2 + (N + 1) * d) buf s).
Proof using Hbytes Hsize.
  revert s. induction d as [|d IH]; intros s Hwf Hok Ei Hd.
  { cbn [Nat.add spec_loop]. unfold spec_step. rewrite (proj2 (Z.leb_le _ _)) by lia. by eexists. }
  destruct (sp_star s) as [l|] eqn:El.
  2: { cbn [Nat.add spec_loop]. unfold spec_step. rewrite Ei, El. destruct (_ <=? _); by eexists. }
  destruct (Z.leb_spec (8 * sp_len s) (sp_pos s)) as [|Hlt].
  { cbn [Nat.add spec_loop]. unfold spec_step. rewrite (proj2 (Z.leb_le _ _)) by lia. by eexists. }
  destruct (proj1 Hok l El) as (Ha & Hs & Hl).
  set (s0 := mkSpec l (Some l) (sp_m s) (sp_pos s) (sp_len s)).
  assert (is_Some (spec_loop (length l + (2 + (N + 1) * d)) buf s0)) as [fs Hfs].
  { apply spec_loop_items; [| |done|].
    - destruct Hwf as [W1 W2 W3 W4 W5]. constructor; cbn; try done; [by apply W2|]. intros l' [= <-]. by apply W2.
    - split_and!; [|done|done]. intros l' [= <-]. done.
    - intros s' W' O' E' L' P' A'. apply IH; try done. specialize (A' Ha). cbn in L', A'. lia. }
  replace (2 + (N + 1) * S d)%nat with (S (S (N + 1 + (N + 1) * d))) by lia. cbn [spec_loop].
  unfold spec_step at 1. rewrite (proj2 (Z.leb_gt _ _)) by lia. rewrite Ei, El. cbn [mbind option_bind].
  fold s0. apply (spec_loop_more _ (S (N + 1 + (N + 1) * d))) in Hfs; [|lia]. cbn [spec_loop] in Hfs.
  rewrite Hfs. by eexists.
Qed.
End Ends.
End Buffer.

(** The interpreter of formats reads each number from the bits of the buffer that come after those of
    the items before it, the most significant first, and each text from the next whole bytes; it
    repeats what is after a star, lets a marked number tell the next width or the length of the data,
    warns when it should, and never reads outside of the data.  It always comes to an end, if what is
    repeated has an item that takes some bits. *)
Lemma text_refines open items buf len :
  Forall item_wf items -> stars_advance items ->
  Forall is_byte buf -> 8 * Z.of_nat (length buf) < 2 ^ 32 -> 0 <= len <= Z.of_nat (length buf) ->
  exists fs, means buf (mkSpec items None 1 0 len) fs /\
    forall fuel, (text_fuel items len <= fuel)%nat -> ScsiText fuel (format_of open items) buf len = Some fs.
Proof.
  intros Hitems Hstars Hb Hsize Hlen. set (s := mkSpec items None 1 0 len).
  assert (spec_wf buf s) as Hwf by (constructor; cbn; try done; lia).
  assert (star_ok (length items) s) as Hok by (split_and!; [|done|cbn; lia]; done).
  destruct (spec_loop_items buf Hb Hsize (length items) items s (2 + (length items + 1) * Z.to_nat (8 * len)) Hwf Hok eq_refl)
    as [fs Hfs].
  { intros s' W' O' E' L' P' _. apply (spec_loop_around buf Hb Hsize); try done. cbn in L', P'. lia. }
  exists fs. split; [by eapply spec_loop_means|]. intros fuel Hfuel. unfold ScsiText.
  change (mkText _ _ _ _ _) with (variables open s). rewrite (text_loop_spec buf Hb Hsize) by done.
  eapply spec_loop_more; [exact Hfs|]. unfold text_fuel in Hfuel. lia.
Qed.

(** * What the SCSI tool prints

    The printer of lines writes the text of each field, one after the other, whatever the state of
    its buffer, and the address of a unit is read back. *)

(** ** Lines *)

(** The text of a field. *)
Definition value_text (f : FIELD) : list Z :=
  if fd_type f =? 117 then uval_text (fd_uval f)
  else if fd_type f =? 65 then concat (char_text <$> fd_pval f)
  else if fd_type f =? 88 then concat (bytes_texts [] (fd_pval f))
  else [].

Definition line_text (f : FIELD) : list Z :=
  fd_name f ++ 61 :: value_text f ++ match fd_warn f with Some w => warn_text w | None => [] end ++ [10].

(** ** The buffer *)

(** What was printed, written or not yet. *)
Definition printed (p : PRINTER) : list Z := pr_out p ++ pr_buf p.

Definition printer_wf (p : PRINTER) : Prop := (length (pr_buf p) <= sizeof_buf)%nat.

Lemma print_text p t :
  printer_wf p -> (length t <= sizeof_buf)%nat ->
  exists p', ScsiTextPrint p t = Some p' /\ printer_wf p' /\ printed p' = printed p ++ t.
Proof.
  unfold printer_wf, printed, ScsiTextPrint. generalize sizeof_buf as N. intros N Hp Ht.
  destruct (Nat.ltb_spec N (length (pr_buf p) + length t)) as [Hn|Hn].
  - rewrite (proj2 (Nat.ltb_ge N _)) by lia. eexists. split; [done|]. cbn [pr_buf pr_out].
    rewrite length_drop. split; [lia|]. by rewrite <- !app_assoc, take_drop.
  - eexists. split; [done|]. cbn [pr_buf pr_out]. rewrite length_app. split; [lia|]. by rewrite app_assoc.
Qed.

Lemma print_texts ts p :
  printer_wf p -> Forall (fun t => (length t <= sizeof_buf)%nat) ts ->
  exists p', print_all p ts = Some p' /\ printer_wf p' /\ printed p' = printed p ++ concat ts.
Proof.
  intros Hp Hts. revert p Hp. induction Hts as [|t ts Ht Hts IH]; intros p Hp.
  { exists p. by rewrite app_nil_r. }
  destruct (print_text p t Hp Ht) as (p1 & E1 & H1 & P1). destruct (IH p1 H1) as (p2 & E2 & H2 & P2).
  exists p2. cbn [print_all concat]. rewrite E1. cbn [mbind option_bind]. split; [done|split; [done|]].
  by rewrite P2, P1, app_assoc.
Qed.

(** ** Lengths *)

Lemma uval_text_length v : (length (uval_text v) <= 23)%nat.
Proof.
  unfold uval_text. pose proof (hexadecimal_length 8 (u32 (v ≫ 32)) []) as H1.
  pose proof (hexadecimal_length 8 (u32 v) []) as H2. pose proof (decimal_length 10 (u32 v) []) as H3.
  cbn [length] in *. repeat case_match; rewrite ?length_app, ?hexadecimal_padded_length; cbn [length]; lia.
Qed.

Lemma bytes_texts_length sep bs :
  (length sep <= 1)%nat -> Forall (fun t => (length t <= sizeof_buf)%nat) (bytes_texts sep bs).
Proof.
  revert sep. induction bs as [|b bs IH]; intros sep Hs; [done|]. cbn [bytes_texts]. constructor; [|by apply IH].
  rewrite length_app, hexadecimal_padded_length. cbn [length]. unfold sizeof_buf. lia.
Qed.

(** ** The printer of lines *)

Lemma print_line p f :
  printer_wf p -> (length (fd_name f) <= sizeof_buf)%nat ->
  exists p', ScsiLineTextFn p f = Some p' /\ printer_wf p' /\ printed p' = printed p ++ line_text f.
Proof.
  intros Hp Hn. unfold ScsiLineTextFn.
  lazymatch goal with |- context [print_all p ?ts] =>
    destruct (print_texts ts p Hp) as (p' & E & H & P); [|exists p'; split; [exact E|split; [exact H|rewrite P]]]
  end.
  - rewrite !Forall_app, !Forall_cons. split_and!; try done; try (unfold sizeof_buf; cbn; lia).
    + repeat case_match; [|apply Forall_fmap, Forall_true; intros c; unfold compose, char_text, sizeof_buf;
                            case_match; cbn; lia|by apply bytes_texts_length; cbn; lia|done].
      rewrite Forall_cons. split; [|done]. etrans; [apply uval_text_length|]. unfold sizeof_buf. lia.
    + destruct (fd_warn f) as [[]|]; rewrite ?Forall_cons; try done; (split; [|done]); unfold sizeof_buf; cbn; lia.
  - f_equal. unfold line_text, value_text. rewrite !concat_app. cbn [concat app]. rewrite <- app_assoc. cbn [app].
    f_equal. f_equal. f_equal; [repeat case_match; cbn [concat]; by rewrite ?app_nil_r|].
    destruct (fd_warn f); cbn [concat]; by rewrite ?app_nil_r.
Qed.

Lemma print_lines fs p :
  printer_wf p -> Forall (fun f => (length (fd_name f) <= sizeof_buf)%nat) fs ->
  exists p', line_fields fs p = Some p' /\ printed p' = printed p ++ concat (line_text <$> fs).
Proof.
  intros Hp Hfs. revert p Hp. induction Hfs as [|f fs Hf Hfs IH]; intros p Hp.
  { exists p. by rewrite app_nil_r. }
  destruct (print_line p f Hp Hf) as (p1 & E1 & H1 & P1). destruct (IH p1 H1) as (p2 & E2 & P2).
  exists p2. cbn [line_fields]. rewrite E1. cbn [mbind option_bind]. split; [done|].
  rewrite P2, P1. cbn [fmap list_fmap concat]. by rewrite app_assoc.
Qed.

(** What [ScsiLineText] writes. *)
Lemma line_text_written fuel format buf len fs :
  ScsiText fuel format buf len = Some fs -> Forall (fun f => (length (fd_name f) <= sizeof_buf)%nat) fs ->
  ScsiLineText fuel format buf len = Some (concat (line_text <$> fs)).
Proof.
  intros E Hfs. unfold ScsiLineText. rewrite E. cbn [mbind option_bind].
  destruct (print_lines fs (mkPrinter [] [] 0)) as (p & -> & P); [unfold printer_wf, sizeof_buf; cbn; lia|done|].
  cbn [mbind option_bind]. f_equal. exact P.
Qed.

(** ** The printer of tables *)

(** Between two fields nothing is left in the buffer, and the row is not full. *)
Definition table_wf (p : PRINTER) : Prop := pr_buf p = [] /\ 0 <= pr_col p < 72.

Definition name_max : nat := 512.

(** A text that fits in the buffer only goes there. *)
Lemma print_fits p t :
  (length (pr_buf p) + length t <= sizeof_buf)%nat ->
  ScsiTextPrint p t = Some (mkPrinter (pr_out p) (pr_buf p ++ t) (pr_col p)).
Proof. intros H. unfold ScsiTextPrint. by rewrite (proj2 (Nat.ltb_ge sizeof_buf _) H). Qed.

Lemma print_texts_fit ts p :
  (length (pr_buf p) + length (concat ts) <= sizeof_buf)%nat ->
  print_all p ts = Some (mkPrinter (pr_out p) (pr_buf p ++ concat ts) (pr_col p)).
Proof.
  revert p. induction ts as [|t ts IH]; intros p H; cbn [print_all concat] in *.
  { rewrite app_nil_r. by destruct p. }
  rewrite length_app in H. rewrite print_fits by lia. cbn [mbind option_bind]. rewrite IH; cbn [pr_buf pr_out pr_col].
  - by rewrite app_assoc.
  - rewrite length_app. lia.
Qed.

Lemma center_spec p colwidth :
  pr_buf p <> [] -> (colwidth <= sizeof_buf)%nat ->
  exists b, ScsiTableTextCenter p colwidth = Some (mkPrinter (pr_out p) b (pr_col p)) /\
    length b = Nat.max colwidth (length (pr_buf p)) /\ hd 0 b = hd 0 (pr_buf p).
Proof.
  intros Hb Hc. unfold ScsiTableTextCenter. destruct p as [o [|c b] k]; [done|]. cbn [pr_buf pr_out pr_col].
  destruct (Nat.ltb_spec (length (c :: b)) colwidth) as [H|H].
  - rewrite (proj2 (Nat.ltb_ge sizeof_buf _) Hc). eexists. split; [done|]. cbn [hd].
    split; [|done]. cbn [length] in *. rewrite !length_app, !length_replicate.
    pose proof (Nat.div2_decr (colwidth - S (length b)) (colwidth - S (length b))). lia.
  - eexists. split; [done|]. split; [lia|done].
Qed.

Lemma boundary_length : length boundary = 74%nat.
Proof. reflexivity. Qed.

(** The line that ends a row. *)
Lemma table_end_spec p :
  pr_buf p <> [] -> (length (pr_buf p) <= name_max)%nat ->
  exists p', table_end p = Some p' /\ pr_col p' = 0.
Proof.
  intros Hb Hl. unfold table_end. destruct (center_spec p 72 Hb ltac:(unfold sizeof_buf; lia)) as (b & -> & Hb' & _).
  cbn [mbind option_bind]. unfold name_max, sizeof_buf in *.
  rewrite print_fits by (unfold sizeof_buf; cbn [pr_buf END_OF_LINE length]; lia). cbn [mbind option_bind pr_buf pr_out pr_col].
  unfold ScsiTablePrintBoundary. rewrite print_fits.
  2: { cbn [pr_buf]. rewrite boundary_length, length_app. unfold sizeof_buf. cbn [END_OF_LINE length]. lia. }
  by eexists.
Qed.

(** Rows of their own: the first breaks the line with the name. *)
Lemma table_bytes_spec n ts i p :
  (0 < n <= 64)%nat -> Forall (fun t => (length t <= 3)%nat) ts -> pr_buf p <> [] ->
  ((i mod n = 0 -> length (pr_buf p) <= name_max) /\ (i mod n <> 0 -> length (pr_buf p) <= 1 + 3 * (i mod n)))%nat ->
  exists p', table_bytes n i ts p = Some p' /\ pr_buf p' <> [] /\ (length (pr_buf p') <= name_max)%nat.
Proof.
  intros Hn Hts. revert i p. induction Hts as [|t ts Ht Hts IH]; intros i p Hb [H0 H1].
  { exists p. split; [done|]. split; [done|]. destruct (decide (i mod n = 0)%nat) as [E|E]; [by apply H0|].
    specialize (H1 E). pose proof (Nat.mod_upper_bound i n ltac:(lia)). unfold name_max. lia. }
  assert (exists p1, (if (i mod n =? 0)%nat then table_row p else Some p) = Some p1 /\ pr_buf p1 <> [] /\
    (length (pr_buf p1) <= 1 + 3 * (i mod n))%nat) as (p1 & E1 & Hb1 & Hl1).
  { destruct (Nat.eqb_spec (i mod n) 0) as [E|E]; [|exists p; by auto]. specialize (H0 E). unfold table_row.
    destruct (center_spec p 72 Hb ltac:(unfold sizeof_buf; lia)) as (b & -> & Hb' & _).
    cbn [mbind option_bind]. unfold name_max, sizeof_buf in *.
    rewrite print_fits by (unfold sizeof_buf; cbn [pr_buf END_OF_LINE length]; lia). cbn [mbind option_bind].
    rewrite print_fits by (unfold sizeof_buf; cbn; lia). eexists. split; [done|]. cbn. split; [done|lia]. }
  cbn [table_bytes]. rewrite E1. cbn [mbind option_bind].
  pose proof (Nat.mod_upper_bound i n ltac:(lia)) as Hi.
  rewrite print_fits by (unfold sizeof_buf; lia). cbn [mbind option_bind].
  apply IH; cbn [pr_buf]; [destruct (pr_buf p1); [done|discriminate]|]. rewrite length_app.
  split; [unfold name_max; lia|]. intros Hs.
  assert (S i mod n = S (i mod n))%nat as ->; [|lia].
  rewrite (Nat.div_mod_eq i n) at 1. rewrite <- Nat.add_succ_r, Nat.add_comm, Nat.mul_comm, Nat.Div0.mod_add.
  apply Nat.mod_small. destruct (decide (S (i mod n) = n)) as [E|]; [|lia]. destruct Hs.
  rewrite (Nat.div_mod_eq i n), <- Nat.add_succ_r, E.
  replace (n * (i / n) + n)%nat with ((i / n + 1) * n)%nat by lia. apply Nat.Div0.mod_mul.
Qed.

(** *** Cells *)

(** The columns of a number. *)
Definition cell_width (f : FIELD) : Z := 9 * Z.min (fd_width f) 8.

Definition field_wf (f : FIELD) : Prop :=
  (length (fd_name f) <= 400)%nat /\ Forall (fun c => c <> 61) (fd_name f) /\
  (fd_type f = 117 -> 0 < fd_width f < 2 ^ 24 /\ 0 <= fd_uval f < 2 ^ fd_width f) /\
  (fd_type f = 117 \/ fd_type f = 65 \/ fd_type f = 88).

Lemma find_char_app c a b : Forall (fun x => x <> c) a -> find_char c (a ++ c :: b) = Some (length a).
Proof.
  induction 1 as [|x a Hx Ha IH]; cbn [app find_char length]; [by rewrite Z.eqb_refl|].
  rewrite (proj2 (Z.eqb_neq c x)) by congruence. by rewrite IH.
Qed.

(** A number of few bits has a short text. *)
Lemma uval_text_narrow w v : 0 <= v < 2 ^ w -> 0 < w <= 3 -> length (uval_text v) = 1%nat.
Proof.
  intros Hv Hw.
  assert (2 ^ w <= 8) by (assert (w = 1 \/ w = 2 \/ w = 3) as [->|[->| ->]] by lia; done).
  unfold uval_text. rewrite (proj2 (Z.leb_gt _ v)), (proj2 (Z.leb_gt 10 v)) by lia.
  rewrite u32_small by lia. cbn [decimal]. by rewrite (proj2 (Z.ltb_lt v 10)) by lia.
Qed.

Lemma value_fits f :
  field_wf f -> fd_type f = 117 -> (S (length (uval_text (fd_uval f))) <= Z.to_nat (cell_width f))%nat.
Proof.
  intros (_ & _ & Hv & _) Ht. specialize (Hv Ht) as [Hw Hv]. unfold cell_width. pose proof (uval_text_length (fd_uval f)) as Hl.
  destruct (decide (fd_width f <= 3)) as [H|H]; [rewrite (uval_text_narrow _ _ Hv) by lia; lia|lia].
Qed.

(** The text of a cell: a bar, the name, the number; spaces around it, or its name cut. *)
Definition cell_text (f : FIELD) : list Z := 124 :: fd_name f ++ 61 :: uval_text (fd_uval f).

Lemma cell_cut_spec o k f :
  field_wf f -> fd_type f = 117 ->
  exists b, ScsiTableTextCenter (mkPrinter o (cell_text f) k) (Z.to_nat (cell_width f)) = Some (mkPrinter o b k) /\
    length (pr_buf (table_cut (mkPrinter o b k) (Z.to_nat (cell_width f)))) = Z.to_nat (cell_width f) /\
    pr_out (table_cut (mkPrinter o b k) (Z.to_nat (cell_width f))) = o /\
    pr_col (table_cut (mkPrinter o b k) (Z.to_nat (cell_width f))) = k.
Proof.
  intros Hf Ht. pose proof (value_fits f Hf Ht) as Hv. destruct Hf as (_ & Hn & Hw & _). specialize (Hw Ht) as [Hw _].
  destruct (center_spec (mkPrinter o (cell_text f) k) (Z.to_nat (cell_width f))) as (b & E & Hb & _);
    [done|unfold cell_width, sizeof_buf; lia|]. cbn [pr_buf pr_out pr_col] in *.
  exists b. split; [done|]. unfold table_cut. cbn [pr_buf].
  destruct (Nat.ltb_spec (Z.to_nat (cell_width f)) (length b)) as [H|H]; [|split_and!; try done; cbn [pr_buf]; lia].
  revert E. unfold ScsiTableTextCenter. cbn [pr_buf]. rewrite (proj2 (Nat.ltb_ge _ _)) by lia. intros [= <-].
  change (cell_text f) with ((124 :: fd_name f) ++ 61 :: uval_text (fd_uval f)) in *.
  rewrite find_char_app by (by constructor). split_and!; try done.
  match goal with |- context [?q ++ drop ?n ?l] => change (length (q ++ drop n l) = Z.to_nat (cell_width f)) end.
  rewrite drop_app_length, !length_app, length_take, !length_app. rewrite length_app in H. cbn [length] in *. lia.
Qed.

(** The rest of a row. *)
Lemma table_filler_spec p :
  table_wf p -> exists p', table_filler p = Some p' /\ pr_buf p' = [] /\ pr_col p' = pr_col p.
Proof.
  intros [Hb Hc]. unfold table_filler. rewrite (proj2 (Z.ltb_ge 71 _)) by lia.
  rewrite print_texts_fit; [by eexists|]. rewrite Hb, !concat_app, !length_app. cbn [length Nat.add].
  match goal with |- context [length (concat (?f <$> ?l))] =>
    assert (length (concat (f <$> l)) = 9 * length l)%nat as ->
  end.
  { induction (seq 0 8) as [|i l IH]; [done|]. cbn [fmap list_fmap concat length]. rewrite length_app, IH.
    repeat case_match; unfold corner; cbn [length]; rewrite ?length_replicate; lia. }
  rewrite length_seq. cbn [concat app length END_OF_LINE]. rewrite !length_app, length_replicate. unfold sizeof_buf. cbn [length]. lia.
Qed.

(** A number: its cell has its columns, and a row that is full is ended. *)
Lemma table_number p f :
  table_wf p -> field_wf f -> fd_type f = 117 ->
  exists p', ScsiTableTextFn p f = Some p' /\ table_wf p' /\
    pr_col p' = (if 72 <=? pr_col p + cell_width f then 0 else pr_col p + cell_width f).
Proof.
  intros Hp Hf Ht. unfold ScsiTableTextFn. rewrite Ht. cbv beta zeta.
  change (117 =? 117) with true. cbn [andb].
  assert (exists p1, (if negb (0 =? pr_col p) && (72 <? u64 (pr_col p + u32 (9 * fd_width f)))
    then table_filler p else Some p) = Some p1 /\ pr_buf p1 = [] /\ pr_col p1 = pr_col p) as (p1 & -> & Hb & Hk).
  { destruct (_ && _); [by apply table_filler_spec|]. exists p. by destruct Hp. }
  destruct p1 as [o b k]. cbn [pr_buf pr_col] in Hb, Hk. subst b k. destruct Hp as [_ Hc].
  pose proof (uval_text_length (fd_uval f)) as Hl. pose proof Hf as (Hn & _ & Hw & _). specialize (Hw Ht) as [Hw _].
  cbn [mbind option_bind].
  do 4 (rewrite print_fits by (cbn [pr_buf]; rewrite ?length_app; unfold sizeof_buf; cbn [length app]; rewrite ?length_app; cbn [length]; lia);
        cbn [mbind option_bind pr_buf pr_out pr_col]).
  replace (9 * (if 8 >? fd_width f then fd_width f else 8)) with (cell_width f)
    by (unfold cell_width; rewrite Z.gtb_ltb; destruct (Z.ltb_spec (fd_width f) 8); lia).
  replace (((([] ++ [124]) ++ fd_name f) ++ [61]) ++ uval_text (fd_uval f)) with (cell_text f)
    by (unfold cell_text; by rewrite <- !app_assoc).
  destruct (cell_cut_spec o (pr_col p) f Hf Ht) as (b & -> & Hlen & Ho & Hk). cbn [mbind option_bind].
  destruct (table_cut _ _) as [o' b' k']. cbn [pr_buf pr_out pr_col] in Hlen, Ho, Hk. subst o' k'.
  set (cw := Z.to_nat (cell_width f)) in *. cbn [pr_buf]. rewrite Hlen. subst cw.
  assert (0 < cell_width f <= 72) as Hcw by (unfold cell_width; lia). rewrite Z2Nat.id by lia.
  change ((mkPrinter o b' (pr_col p)) <| pr_col := ?v |>) with (mkPrinter o b' v). cbn [pr_col].
  destruct (Z.leb_spec 72 (pr_col p + cell_width f)) as [H|H].
  - rewrite print_fits by (unfold sizeof_buf; cbn [pr_buf END_OF_LINE length]; lia). cbn [mbind option_bind pr_buf pr_out pr_col].
    unfold ScsiTablePrintBoundary. rewrite print_fits; [by eexists|].
    cbn [pr_buf]. rewrite boundary_length, length_app. unfold sizeof_buf. cbn [END_OF_LINE length]. lia.
  - eexists. split; [done|]. split; [split; [done|]|done]. change (0 <= pr_col p + cell_width f < 72). lia.
Qed.

(** Bytes have rows of their own. *)
Lemma table_rows p f n ts :
  table_wf p -> (length (fd_name f) <= 400)%nat -> (0 < n <= 64)%nat -> Forall (fun t => (length t <= 3)%nat) ts ->
  exists p', (printer ← ScsiTextPrint p [124]; printer ← ScsiTextPrint printer (fd_name f);
              printer ← (printer ← table_bytes n 0 ts printer; table_end printer);
              Some (ScsiTextFlush printer)) = Some p' /\ table_wf p' /\ pr_col p' = 0.
Proof.
  intros [Hb Hc] Hn Hn' Hts. destruct p as [o b k]. cbn [pr_buf pr_col] in *. subst b.
  do 2 (rewrite print_fits by (cbn [pr_buf length app]; unfold sizeof_buf; lia); cbn [mbind option_bind pr_buf pr_out pr_col]).
  destruct (table_bytes_spec n ts 0 (mkPrinter o (([] ++ [124]) ++ fd_name f) k) Hn' Hts) as (p1 & -> & H1 & H2); [done| |].
  { rewrite Nat.Div0.mod_0_l. cbn [pr_buf app length]. unfold name_max. lia. }
  cbn [mbind option_bind]. destruct (table_end_spec p1 H1 H2) as (p2 & -> & H3). cbn [mbind option_bind].
  eexists. split; [done|]. split; [split; [done|]|done]. change (0 <= pr_col p2 < 72). lia.
Qed.

Lemma bytes_texts_short sep bs : (length sep <= 1)%nat -> Forall (fun t => (length t <= 3)%nat) (bytes_texts sep bs).
Proof.
  revert sep. induction bs as [|b bs IH]; intros sep Hs; [done|]. cbn [bytes_texts]. constructor; [|by apply IH].
  rewrite length_app, hexadecimal_padded_length. cbn [length]. lia.
Qed.

(** Every field has its cell or its rows: the printer stays within its buffer and the row. *)
Lemma table_field p f :
  table_wf p -> field_wf f -> exists p', ScsiTableTextFn p f = Some p' /\ table_wf p'.
Proof.
  intros Hp Hf. pose proof Hf as (_ & _ & _ & [Ht|[Ht|Ht]]).
  - destruct (table_number p f Hp Hf Ht) as (p' & E & H & _). by exists p'.
  - destruct (table_rows p f 64 (char_text <$> fd_pval f) Hp (proj1 Hf) ltac:(lia)) as (p' & E & H & _).
    { apply Forall_fmap, Forall_true. intros c. unfold compose, char_text. case_match; cbn; lia. }
    exists p'. split; [|done]. unfold ScsiTableTextFn. by rewrite Ht.
  - destruct (table_rows p f 16 (bytes_texts [] (fd_pval f)) Hp (proj1 Hf) ltac:(lia)) as (p' & E & H & _).
    { apply bytes_texts_short. cbn. lia. }
    exists p'. split; [|done]. unfold ScsiTableTextFn. by rewrite Ht.
Qed.

Lemma table_fields_spec p fs :
  table_wf p -> Forall field_wf fs ->
  is_Some (table_fields fs p).
Proof.
  intros Hp Hfs. revert p Hp. induction Hfs as [|f fs Hf Hfs IH]; intros p Hp; [by eexists|].
  cbn [table_fields]. destruct (table_field p f Hp Hf) as (p' & -> & Hp'). by apply IH.
Qed.

Lemma table_text_written fuel format buf len fs :
  ScsiText fuel format buf len = Some fs ->
  Forall field_wf fs ->
  is_Some (ScsiTableText fuel format buf len).
Proof.
  intros E Hfs. unfold ScsiTableText, ScsiTablePrintBoundary.
  rewrite print_fits by (unfold sizeof_buf; rewrite boundary_length; cbn; lia). cbn [mbind option_bind]. rewrite E.
  cbn [mbind option_bind]. destruct (table_fields_spec (ScsiTextFlush (mkPrinter [] boundary 0)) fs) as [p Hp]; [|done|].
  - split; [done|]. change (0 <= 0 < 72). lia.
  - change (ScsiTextFlush _) with (ScsiTextFlush (mkPrinter [] boundary 0)). rewrite Hp. by eexists.
Qed.
