(* ===== verification/ScsiFormats.v ===== *)
(** * The formats of the SCSI tool

    Every format of the tool is made of well-formed items, and what it repeats takes some bits, so that
    the interpreter ends on any data that a device may answer with. *)

From stdpp Require Import strings.
From S2P Require Import Prelude Wdk Minimal StrToInt IoctlDevice ScsiText ScsiTool ScsiTextSpec ScsiTextProps.

(** ** The items of a format *)

(** The lines of a text, to its end. *)
Fixpoint split_lines (l : list Z) (line : list Z) : list (list Z) :=
  match l with
  | [] => []
  | c :: l =>
      if c =? 0 then match line with [] => [] | _ => [line] end
      else if c =? 10 then line :: split_lines l [] else split_lines l (line ++ [c])
  end.

Fixpoint take_digits (l : list Z) : list Z * list Z :=
  match l with
  | c :: l' => if (48 <=? c) && (c <=? 57) then let '(ds, r) := take_digits l' in (c - 48 :: ds, r) else ([], l)
  | [] => ([], [])
  end.

Fixpoint count_spaces (l : list Z) : nat * list Z :=
  match l with
  | c :: l' => if c =? 32 then let '(n, r) := count_spaces l' in (S n, r) else (O, l)
  | [] => (O, [])
  end.

Definition line_item (l : list Z) : ITEM :=
  let '(star, l) := match l with c :: l' => if c =? 42 then (true, l') else (false, l) | [] => (false, []) end in
  let '(type, l) := match l with c :: l' => (c, l') | [] => (0, []) end in
  let '(w, l) := match l with
                 | c :: l' => if c =? 109 then (Last, l') else let '(ds, r) := take_digits l in (Fixed ds, r)
                 | [] => (Fixed [], [])
                 end in
  let '(n, name) := count_spaces l in
  mkItem star type w n name.

Definition format_items (format : list Z) : list ITEM := line_item <$> split_lines format [].

(** ** Checks *)

Definition item_check (i : ITEM) : bool :=
  (is_upper (it_type i) || is_lower (it_type i)) &&
  match it_width i with
  | Fixed ds => forallb (fun d => (0 <=? d) && (d <? 10)) ds && (digits_value 10 ds <? 2 ^ 32)
  | Last => true
  end &&
  (0 <? it_pad i)%nat && forallb (fun c => (0 <? c) && (c <? 256) && negb (c =? 10)) (it_name i) &&
  negb (hd 0 (it_name i) =? 32) && match name_marks (it_name i) with Some _ => true | None => false end.

Lemma item_check_wf i : item_check i = true -> item_wf i.
Proof.
  unfold item_check. rewrite !andb_true_iff. intros (((((H1 & H2) & H3) & H4) & H5) & H6). constructor.
  - by apply orb_true_iff.
  - intros ds E. rewrite E, andb_true_iff in H2. destruct H2 as [H2 H2']. split; [|lia].
    rewrite forallb_forall in H2. apply Forall_forall. intros d Hd%list_elem_of_In. specialize (H2 d Hd). lia.
  - by apply Nat.ltb_lt.
  - rewrite forallb_forall in H4. apply Forall_forall. intros c Hc%list_elem_of_In. specialize (H4 c Hc). lia.
  - intros E. rewrite E in H5. done.
  - destruct (name_marks _); [by eexists|done].
Qed.

Definition advances_check (items : list ITEM) : bool :=
  existsb (fun i => match it_width i with Fixed ds => negb (digits_value 10 ds =? 0) | Last => false end) items.

Lemma advances_check_ok items : advances_check items = true -> advances items.
Proof.
  unfold advances_check, advances. rewrite existsb_exists. intros (i & Hi & H). apply Exists_exists.
  exists i. split; [by apply list_elem_of_In|]. destruct (it_width i) as [ds|]; [|done]. exists ds. split; [done|lia].
Qed.

Fixpoint stars_check (items : list ITEM) : bool :=
  match items with
  | [] => true
  | i :: r => implb (it_star i) (advances_check items) && stars_check r
  end.

Lemma stars_check_ok items : stars_check items = true -> stars_advance items.
Proof.
  induction items as [|i r IH]; [done|]. cbn [stars_check stars_advance]. rewrite andb_true_iff. intros [H1 H2].
  split; [|by apply IH]. intros Hs. rewrite Hs in H1. by apply advances_check_ok.
Qed.

(** What an item of the tool is: a number of some bits, or bytes; its name fits in a table. *)
Definition item_printable (i : ITEM) : bool :=
  (length (it_name i) <=? 400)%nat && forallb (fun c => negb (c =? 61)) (it_name i) &&
  ((it_type i =? 65) || (it_type i =? 88) ||
   (it_type i =? 117) && match it_width i with
                         | Fixed ds => (0 <? digits_value 10 ds) && (digits_value 10 ds <? 2 ^ 24)
                         | Last => false
                         end).

Lemma item_field i s buf f :
  item_printable i = true -> (spec_item buf s i).2 = Some f -> field_wf f.
Proof.
  unfold item_printable. rewrite !andb_true_iff, !orb_true_iff, andb_true_iff. intros ((Hn & Hc) & Ht) E.
  assert (length (it_name i) <= 400)%nat as Hn' by (by apply Nat.leb_le).
  assert (Forall (fun c => c <> 61) (it_name i)) as Hc'.
  { rewrite forallb_forall in Hc. apply Forall_forall. intros c Hi%list_elem_of_In. specialize (Hc c Hi). lia. }
  unfold spec_item, bytes_item, bits_item in E. destruct Ht as [[Ht|Ht]|[Ht Hw]]; apply Z.eqb_eq in Ht; rewrite Ht in E.
  - destruct (0 =? _); [done|]. apply (inj Some) in E as <-. unfold field_wf. cbn. split; [done|]. split; [done|]. split; [done|by auto].
  - destruct (0 =? _); [done|]. apply (inj Some) in E as <-. unfold field_wf. cbn. split; [done|]. split; [done|]. split; [done|by auto].
  - change (is_upper 117) with false in E. cbv iota in E. unfold item_width in E.
    destruct (it_width i) as [ds|]; [|done]. apply andb_true_iff in Hw as [H1 H2]. zify_bools.
    destruct (default _ _) as [nv mv]. apply (inj Some) in E as <-.
    unfold field_wf. cbn [fd_name fd_type fd_width fd_uval]. split; [done|]. split; [done|]. split; [|by auto].
    intros _. split; [lia|]. set (n := Z.to_nat _). pose proof (bits_value_bound buf (sp_pos s) n) as Hb.
    unfold u64. split; [apply Z.mod_pos_bound; lia|].
    apply Z.le_lt_trans with (bits_value buf (sp_pos s) n); [apply Z.mod_le; lia|].
    apply Z.lt_le_trans with (2 ^ Z.of_nat n); [lia|]. apply Z.pow_le_mono_r; lia.
Qed.

(** A format, with its last line open or not. *)
Definition format_check (open : bool) (format : list Z) : bool :=
  bool_decide (format = format_of open (format_items format)) && forallb item_check (format_items format) &&
  stars_check (format_items format) && forallb item_printable (format_items format).

Lemma format_check_ok open format :
  format_check open format = true ->
  format = format_of open (format_items format) /\ Forall item_wf (format_items format) /\
  stars_advance (format_items format) /\ Forall (fun i => item_printable i = true) (format_items format).
Proof.
  unfold format_check. rewrite !andb_true_iff, bool_decide_eq_true. intros [[[H1 H2] H3] H4].
  split; [done|]. split; [|split; [by apply stars_check_ok|]].
  2: { rewrite forallb_forall in H4. apply Forall_forall. intros i Hi%list_elem_of_In. by apply H4. }
  rewrite forallb_forall in H2. apply Forall_forall.
  intros i Hi%list_elem_of_In. by apply item_check_wf, H2.
Qed.

(** All formats pass. *)
Lemma sense_format_ok : format_check true sense_format = true.
Proof. vm_compute. reflexivity. Qed.

Lemma command_format_ok c : format_check false (command_format c) = true.
Proof. destruct c; vm_compute; reflexivity. Qed.

(** What the fields of a format are. *)
Lemma means_fields buf s fs :
  means buf s fs -> Forall (fun i => item_printable i = true) (sp_items s) ->
  (forall l, sp_star s = Some l -> Forall (fun i => item_printable i = true) l) -> Forall field_wf fs.
Proof.
  induction 1 as [s E|s s' f fs E _ IH]; intros Hi Hs; [done|].
  unfold spec_step in E. destruct (_ <=? _); [done|]. destruct (sp_items s) as [|i items] eqn:Ei.
  - destruct (sp_star s) as [l|] eqn:El; [|done]. apply (inj Some) in E as [= <- <-].
    apply IH; cbn [sp_items sp_star]; [by apply Hs|done].
  - apply (inj Some) in E. apply Forall_cons in Hi as [Hi Hit].
    set (s0 := mkSpec items _ _ _ _) in E.
    assert (sp_items s' = items /\ sp_star s' = sp_star s0) as [Es1 Es2].
    { unfold spec_item, bytes_item, bits_item in E. destruct (is_upper _); [by injection E as <- _|].
      destruct (default _ _). by injection E as <- _. }
    assert (Forall field_wf fs) as Hfs.
    { apply IH; [by rewrite Es1|]. intros l. rewrite Es2. cbn [sp_star s0].
      destruct (it_star i); [intros [= <-]; by constructor|apply Hs]. }
    destruct f as [f|]; [|done]. constructor; [|done]. apply (item_field i s0 buf); [done|]. by rewrite E.
Qed.

(** ** What the tool prints *)

Section Print.
Context (buf : list Z) (len : Z).
Context (Hb : Forall is_byte buf) (Hsize : 8 * Z.of_nat (length buf) < 2 ^ 32) (Hlen : 0 <= len <= Z.of_nat (length buf)).

Lemma format_prints open format :
  format_check open format = true ->
  exists fs, means buf (mkSpec (format_items format) None 1 0 len) fs /\
    forall fuel, (text_fuel (format_items format) len <= fuel)%nat ->
      ScsiPrint fuel true format buf len = Some (concat (line_text <$> fs)) /\
      is_Some (ScsiPrint fuel false format buf len).
Proof using Hb Hsize Hlen.
  intros (E & Hwf & Hstars & Hp)%format_check_ok.
  destruct (text_refines open _ buf len Hwf Hstars Hb Hsize Hlen) as (fs & Hm & Hf). rewrite <- E in Hf.
  assert (Forall field_wf fs) as Hfs by (by eapply means_fields).
  exists fs. split; [done|]. intros fuel Hfuel. split.
  - apply line_text_written; [by apply Hf|]. eapply Forall_impl; [exact Hfs|]. intros f (Hn & _).
    unfold sizeof_buf. lia.
  - eapply table_text_written; [by apply Hf|done].
Qed.
End Print.

(** C34: The SCSI tool displays whatever a device answers to any of its commands, and any sense data: each
    format is read as its items mean, in at most as many steps as [text_fuel] tells; the canonical
    display has one line for each field, with its name, its value and its warning; and the display as
    a table comes to an end within its buffer and the eight columns of its rows. *)
Theorem scsitool_displays_answers buf len open format :
  (open, format) ∈ (true, sense_format) ::
    ((fun c => (false, command_format c)) <$>
     [report_luns; inquiry; inquiry_vpd0; inquiry_vpd80; inquiry_vpd83; inquiry_vpdb0; inquiry_vpdb2;
      mode_sense; mode_caching; capacity; capacity16]) ->
  Forall is_byte buf -> 8 * Z.of_nat (length buf) < 2 ^ 32 -> 0 <= len <= Z.of_nat (length buf) ->
  exists fs, means buf (mkSpec (format_items format) None 1 0 len) fs /\
    format = format_of open (format_items format) /\
    forall fuel, (text_fuel (format_items format) len <= fuel)%nat ->
      ScsiPrint fuel true format buf len = Some (concat (line_text <$> fs)) /\
      is_Some (ScsiPrint fuel false format buf len).
Proof.
  intros Hin Hb Hsize Hlen. assert (format_check open format = true) as Hc.
  { apply elem_of_cons in Hin as [[= -> ->]|Hin]; [apply sense_format_ok|].
    apply list_elem_of_fmap in Hin as (c & [= -> ->] & _). apply command_format_ok. }
  destruct (format_prints buf len Hb Hsize Hlen open format Hc) as (fs & H1 & H2).
  exists fs. split; [done|]. split; [|done]. by apply format_check_ok in Hc as [E _].
Qed.

(** A list of one unit, which is too long for its buffer. *)
Definition example_luns : list Z := [0; 0; 0; 16; 0; 0; 0; 0; 0; 1; 0; 0; 0; 0; 0; 0].

Lemma scsitool_displays_answers_witness :
  ScsiPrint 1000 true report_luns_format example_luns 16 =
    Some (chars "LUN LIST LENGTH (n-7)=16 (0x10) (WARN: data buffer length mismatch)"%string ++ [10] ++
          chars "Reserved=0"%string ++ [10] ++ chars "LUN=10000:00000000" ++ [10]) /\
  is_Some (ScsiPrint 1000 false report_luns_format example_luns 16).
Proof.
  destruct (scsitool_displays_answers example_luns 16 false report_luns_format) as (fs & Hm & E & Hp).
  - right. left.
  - apply Forall_forall. intros b Hb%list_elem_of_In. repeat destruct Hb as [<-|Hb]; by split.
  - reflexivity.
  - split; [lia|reflexivity].
  - destruct (Hp 1000%nat) as [_ H2]; [vm_compute; lia|]. split; [vm_compute; reflexivity|exact H2].
Defined.
