(* ===== verification/ScsiToolProps.v ===== *)
(** * What the SCSI tool shows of a storage unit

    The tool sends a command, the driver answers for the unit, and the fields that are printed tell
    the parameters of the unit. *)

From stdpp Require Import strings.
From S2P Require Import Prelude Wdk IoctlTypes ListEntry Srb Ioq IoqRun StgUnit StgUnitInv Scsi ScsiSpec ScsiProps ScsiIo.
From S2P Require Import Minimal StrToInt IoctlDevice ScsiText ScsiTool ScsiTextSpec ScsiTextProps.
From S2P Require Import ScsiFormats.

(** ** The answers of the driver *)

Definition command_data (u : SPD_STORAGE_UNIT) (c : TOOL_COMMAND) : list Z :=
  let P := StorageUnitParams u in
  match c with
  | report_luns => report_luns_data (Some u)
  | inquiry => inquiry_data u
  | inquiry_vpd0 => default [] (vpd_data u 0)
  | inquiry_vpd80 => default [] (vpd_data u 0x80)
  | inquiry_vpd83 => default [] (vpd_data u 0x83)
  | inquiry_vpdb0 => default [] (vpd_data u 0xB0)
  | inquiry_vpdb2 => default [] (vpd_data u 0xB2)
  | mode_sense | mode_caching => mode_data P false
  | capacity => capacity_data P
  | capacity16 => capacity16_data P true
  end.

(** The length of the answer. *)
Definition answer_length (c : TOOL_COMMAND) : nat :=
  match c with
  | report_luns => 16 | inquiry => 36 | inquiry_vpd0 => 9 | inquiry_vpd80 => 40 | inquiry_vpd83 => 84
  | inquiry_vpdb0 => 64 | inquiry_vpdb2 => 8 | mode_sense | mode_caching => 16 | capacity => 8 | capacity16 => 32
  end.

Lemma command_data_length u c : unit_data_wf u -> length (command_data u c) = answer_length c.
Proof.
  intros Hu. destruct Hu as [HP Hs] eqn:E0. clear E0. pose proof (wf_ProductId _ HP) as Hp. pose proof (wf_ProductRevisionLevel _ HP) as Hr.
  destruct c; cbn [command_data]; try reflexivity.
  - unfold inquiry_data. by rewrite !length_app, Hp, Hr.
  - change (length ([0; 0x80; 0; 36] ++ SerialNumber u) = 40%nat). by rewrite length_app, Hs.
  - destruct (vpd_data u 0x83) as [d|] eqn:E; [|discriminate E]. cbn [default from_option id].
    by rewrite (identifiers_length u d).
  - unfold vpd_data. destruct (UnmapSupported (StorageUnitParams u)); reflexivity.
  - unfold vpd_data. destruct (UnmapSupported (StorageUnitParams u)); reflexivity.
Qed.

Section Answer.
Context (u : SPD_STORAGE_UNIT) (Hu : unit_data_wf u) (q : SPD_IOQ) (Hq : Ioq u = Some q).
Context (Srb : SRB) (Hwf : srb_wf Srb) (Hbuf : srb_DataBuffer Srb <> 0).

(** The request of a command is answered with the data of the unit. *)
Lemma unit_answers DBG StorageUnit SrbAddress SystemAddress c :
  SrbGetCdb Srb = command_cdb c -> SrbGetDataTransferLength Srb = command_length c ->
  execute_scsi_switch DBG u StorageUnit SrbAddress SystemAddress Srb =
    Some (SRB_STATUS_SUCCESS, with_data Srb (command_data u c) (Z.of_nat (answer_length c)), q).
Proof using Hu Hq Hwf Hbuf.
  intros Hcdb Hlen. pose proof (command_data_length u c Hu) as Hl.
  assert (reply Srb (command_data u c) =
    (SRB_STATUS_SUCCESS, with_data Srb (command_data u c) (Z.of_nat (answer_length c)))) as Hr.
  { unfold reply. rewrite Hl, Hlen. by destruct c. }
  assert (forall r, r = Some (reply Srb (command_data u c)) -> not_posted u r =
    Some (SRB_STATUS_SUCCESS, with_data Srb (command_data u c) (Z.of_nat (answer_length c)), q)) as Hpost.
  { intros r ->. unfold not_posted. by rewrite Hr, Hq. }
  pose proof (answer_data Srb Hbuf) as Ha.
  assert (forall r, r = Some (answer Srb (Some (command_data u c))) -> not_posted u r =
    Some (SRB_STATUS_SUCCESS, with_data Srb (command_data u c) (Z.of_nat (answer_length c)), q)) as Hpost'.
  { intros r ->. apply Hpost. by rewrite Ha. }
  pose proof (inquiry_spec Srb Hwf Hbuf u Hu) as Hinq. pose proof (mode_sense_spec Srb Hwf Hbuf u Hu) as Hmode.
  pose proof (capacity_spec Srb Hwf Hbuf u Hu) as Hcap. unfold execute_scsi_switch.
  unfold inquiry_answer, mode_sense_answer, read_capacity_answer in Hinq, Hmode, Hcap.
  rewrite Hcdb in Hinq, Hmode, Hcap |- *. rewrite Hlen in Hcap. destruct c.
  1: { apply Hpost. by rewrite report_luns_spec by done. }
  all: apply Hpost'; rewrite ?Hinq, ?Hmode, ?Hcap; reflexivity.
Qed.
End Answer.

(** ** The fields *)

Inductive VALUE :=
  | Number (v : Z)
  | Bytes (bs : list Z).

Definition field_value (f : FIELD) : VALUE := if fd_type f =? 117 then Number (fd_uval f) else Bytes (fd_pval f).

(** The values of the fields with a name. *)
Definition values_of (name : string) (fs : list FIELD) : list VALUE :=
  field_value <$> filter (fun f => fd_name f = chars name) fs.

(** What the fields of a command tell of the unit. *)
Definition unit_facts (u : SPD_STORAGE_UNIT) (c : TOOL_COMMAND) : list (string * list VALUE) :=
  let P := StorageUnitParams u in
  match c with
  | report_luns => [("LUN LIST LENGTH (n-7)", [Number 8]); ("LUN", [Number 0])]
  | inquiry =>
      [("T10 VENDOR IDENTIFICATION", [Bytes SPD_IOCTL_VENDOR_ID]); ("PRODUCT IDENTIFICATION", [Bytes (ProductId P)]);
       ("PRODUCT REVISION LEVEL", [Bytes (ProductRevisionLevel P)]); ("CMDQUE", [Number 1])]
  | inquiry_vpd0 => [("Supported VPD page list", [Bytes [0; 0x80; 0x83; 0xB0; 0xB2]])]
  | inquiry_vpd80 => [("PRODUCT SERIAL NUMBER", [Bytes (SerialNumber u)])]
  | inquiry_vpd83 =>
      [("IDENTIFIER",
        [Bytes (SPD_IOCTL_VENDOR_ID ++ ProductId P ++ ProductRevisionLevel P ++ SerialNumber u)%list;
         Bytes ([80; 73; 68; if EjectDisabled P then 88 else 32] ++ be32 (OwnerProcessId u))%list])]
  | inquiry_vpdb0 =>
      [("MAXIMUM TRANSFER LENGTH", [Number (MaxTransferLength P / BlockLength P)]);
       ("MAXIMUM UNMAP BLOCK DESCRIPTOR COUNT", [Number (if UnmapSupported P then MaxTransferLength P / 16 else 0)])]
  | inquiry_vpdb2 =>
      [("LBPU", [Number (b2z (UnmapSupported P))]); ("PROVISIONING TYPE", [Number (if UnmapSupported P then 2 else 0)])]
  | mode_sense => [("WP", [Number (b2z (WriteProtected P))]); ("DPOFUA", [Number (b2z (CacheSupported P))])]
  | mode_caching =>
      [("WP", [Number (b2z (WriteProtected P))]); ("DPOFUA", [Number (b2z (CacheSupported P))]);
       ("WCE", [Number (b2z (CacheSupported P))]);
       ("RCD", [Number (b2z (negb (CacheSupported P)))])]
  | capacity =>
      [("RETURNED LOGICAL BLOCK ADDRESS", [Number (Z.min (BlockCount P - 1) 0xffffffff)]);
       ("LOGICAL BLOCK LENGTH IN BYTES", [Number (BlockLength P)])]
  | capacity16 =>
      [("RETURNED LOGICAL BLOCK ADDRESS", [Number (BlockCount P - 1)]);
       ("LOGICAL BLOCK LENGTH IN BYTES", [Number (BlockLength P)]); ("TPE", [Number (b2z (UnmapSupported P))])]
  end%string.

(** The fields of a command, without a warning. *)
Definition shows_facts (facts : list (string * list VALUE)) (fs : list FIELD) : Prop :=
  Forall (fun f => (length (fd_name f) <=? sizeof_buf)%nat = true) fs /\
  Forall (fun f => fd_warn f = None) fs /\ Forall (fun '(name, vs) => values_of name fs = vs) facts.

Definition shows (u : SPD_STORAGE_UNIT) (c : TOOL_COMMAND) (fs : list FIELD) : Prop :=
  shows_facts (unit_facts u c) fs.

(** The buffer after the command. *)
Definition answer_buffer (u : SPD_STORAGE_UNIT) (c : TOOL_COMMAND) : list Z :=
  command_data u c ++ replicate (Z.to_nat (command_length c) - answer_length c) 0.

Definition shown_in (u : SPD_STORAGE_UNIT) (c : TOOL_COMMAND) (fuel : nat) : Prop :=
  exists fs, ScsiText fuel (command_format c) (answer_buffer u c) (Z.of_nat (answer_length c)) = Some fs /\
    shows u c fs.

#[local] Ltac evaluate :=
  match goal with |- exists fs, ?t = Some fs /\ _ =>
    let E := fresh in destruct t as [fs|] eqn:E; vm_compute in E; [|discriminate E];
    apply (inj Some) in E; subst fs; eexists; split; [reflexivity|]
  end;
  split; [repeat (apply Forall_cons_2; [reflexivity|]); apply Forall_nil_2|];
  split; [repeat (apply Forall_cons_2; [reflexivity|]); apply Forall_nil_2|];
  repeat (apply Forall_cons_2; [vm_compute; reflexivity|]); apply Forall_nil_2.

Lemma shown_plain u c :
  unit_data_wf u -> c <> inquiry_vpdb0 -> c <> capacity -> c <> capacity16 -> shown_in u c 200.
Proof.
  intros [HP Hs] H1 H2 H3. unfold shown_in, answer_buffer, command_data.
  destruct u as [rc P sn opid ioq dev tpid]. cbn [StorageUnitParams SerialNumber OwnerProcessId] in *.
  destruct P as [g bc bl pid rev dt wp ca un ej mtl].
  pose proof (wf_ProductId _ HP) as Hp. pose proof (wf_ProductRevisionLevel _ HP) as Hr.
  cbn [ProductId ProductRevisionLevel] in *. clear HP. explode pid Hp. explode rev Hr. explode sn Hs.
  destruct c; try done; clear H1 H2 H3.
  1-4: evaluate.
  - unfold shows, unit_facts, vpd_data. cbn [StorageUnitParams EjectDisabled SerialNumber OwnerProcessId].
    change (be32 opid) with [byte_of 24 opid; byte_of 16 opid; byte_of 8 opid; byte_of 0 opid].
    generalize (byte_of 24 opid), (byte_of 16 opid), (byte_of 8 opid), (byte_of 0 opid). intros x0 x1 x2 x3.
    destruct ej; evaluate.
  - destruct un; evaluate.
  - destruct wp, ca; evaluate.
  - destruct wp, ca; evaluate.
Qed.

(** *** Numbers of the unit *)

(** An item that is only a number. *)
Definition plain (i : ITEM) : bool :=
  negb (is_upper (it_type i)) && negb (it_star i) &&
  match it_width i with Fixed ds => (0 <? digits_value 10 ds) && (digits_value 10 ds <=? 64) | Last => false end &&
  match name_marks (it_name i) with Some (n, m) => (u32 (-1) =? n) && (u32 (-1) =? m) | None => false end.

Definition plain_width (i : ITEM) : Z := item_width 0 i.

Fixpoint total_width (items : list ITEM) : Z :=
  match items with [] => 0 | i :: r => plain_width i + total_width r end.

Fixpoint plain_fields (value : Z -> nat -> Z) (items : list ITEM) (pos : Z) : list FIELD :=
  match items with
  | [] => []
  | i :: r => mkField (it_type i) (plain_width i) (it_name i) (value pos (Z.to_nat (plain_width i))) [] None
              :: plain_fields value r (pos + plain_width i)
  end.

(** What is reserved is zero. *)
Fixpoint reserved_zero (buf : list Z) (items : list ITEM) (pos : Z) : bool :=
  match items with
  | [] => true
  | i :: r => (if bool_decide (it_name i = take (length (it_name i)) RESERVED)
               then bits_value buf pos (Z.to_nat (plain_width i)) =? 0 else true) &&
              reserved_zero buf r (pos + plain_width i)
  end.

Lemma plain_item buf s i :
  plain i = true -> sp_pos s + plain_width i <= 8 * sp_len s ->
  (if bool_decide (it_name i = take (length (it_name i)) RESERVED)
   then bits_value buf (sp_pos s) (Z.to_nat (plain_width i)) =? 0 else true) = true ->
  spec_item buf s i = (mkSpec (sp_items s) (sp_star s) (sp_m s) (sp_pos s + plain_width i) (sp_len s),
    Some (mkField (it_type i) (plain_width i) (it_name i) (bits_value buf (sp_pos s) (Z.to_nat (plain_width i))) [] None)).
Proof.
  unfold plain. rewrite !andb_true_iff. intros (((Hu & _) & Hw) & Hm) Hpos Hr.
  unfold spec_item. apply negb_true_iff in Hu. rewrite Hu. unfold bits_item.
  assert (item_width (sp_m s) i = plain_width i /\ 0 < plain_width i <= 64) as [-> Hpw].
  { unfold plain_width, item_width. destruct (it_width i); [|done]. split; [done|]. lia. }
  destruct (name_marks _) as [[n m]|]; [|done]. apply andb_true_iff in Hm as [->%Z.eqb_eq%eq_sym ->%Z.eqb_eq%eq_sym].
  cbn [default from_option id]. rewrite Z.eqb_refl. cbn [negb andb].
  rewrite Z.min_l by lia. rewrite u64_small.
  2: { pose proof (bits_value_bound buf (sp_pos s) (Z.to_nat (plain_width i))) as Hb. split; [lia|].
       apply Z.lt_le_trans with (2 ^ Z.of_nat (Z.to_nat (plain_width i))); [lia|]. apply Z.pow_le_mono_r; lia. }
  f_equal. f_equal. f_equal. destruct (bool_decide _); [|done].
  apply Z.eqb_eq in Hr. by rewrite Hr.
Qed.

Lemma plain_loop buf post pre m pos len n fs :
  forallb plain pre = true -> 0 <= pos -> pos + total_width pre <= 8 * len -> reserved_zero buf pre pos = true ->
  spec_loop n buf (mkSpec post None m (pos + total_width pre) len) = Some fs ->
  spec_loop (length pre + n) buf (mkSpec (pre ++ post) None m pos len) = Some (plain_fields (bits_value buf) pre pos ++ fs).
Proof.
  revert pos. induction pre as [|i pre IH]; intros pos Hp Hpos Hl Hr E; cbn [length Nat.add app total_width] in *.
  { by rewrite Z.add_0_r in E. }
  apply andb_true_iff in Hp as [Hi Hp]. cbn [reserved_zero] in Hr. apply andb_true_iff in Hr as [Hri Hr].
  assert (0 < plain_width i /\ it_star i = false) as [Hw Hs].
  { unfold plain in Hi. rewrite !andb_true_iff in Hi. destruct Hi as (((_ & H1) & H2) & _).
    unfold plain_width, item_width. destruct (it_width i); [|done]. split; [lia|by destruct (it_star i)]. }
  assert (0 <= total_width pre) as Ht.
  { clear -Hp. induction pre as [|j pre IH]; [done|]. cbn in *. apply andb_true_iff in Hp as [Hj Hp]. specialize (IH Hp).
    unfold plain in Hj. rewrite !andb_true_iff in Hj. destruct Hj as ((_ & H2) & _).
    unfold plain_width, item_width. destruct (it_width j); [lia|done]. }
  cbn [spec_loop]. unfold spec_step. cbn [sp_items sp_star sp_m sp_pos sp_len].
  rewrite (proj2 (Z.leb_gt _ _)) by lia. rewrite Hs.
  rewrite plain_item by (cbn [sp_pos sp_len]; done || lia). cbn [sp_items sp_star sp_m sp_pos sp_len].
  rewrite (IH (pos + plain_width i)) by (done || lia || by rewrite <- Z.add_assoc). done.
Qed.

(** Numbers of four and of eight bytes. *)
Lemma bits_be32 buf pos (pre post : list Z) v :
  buf = pre ++ be32 v ++ post -> pos = 8 * Z.of_nat (length pre) -> bits_value buf pos 32 = u32 v.
Proof.
  intros -> ->.
  assert (forall k, (k < 4)%nat ->
    bits_value (pre ++ be32 v ++ post) (8 * Z.of_nat (length pre) + Z.of_nat (8 * k)) 8 = be32 v !!! k) as Hbyte.
  { intros k Hk. replace (8 * Z.of_nat (length pre) + Z.of_nat (8 * k)) with (8 * Z.of_nat (length pre + k)) by lia.
    assert ((pre ++ be32 v ++ post) !!! (length pre + k)%nat = be32 v !!! k) as E.
    { rewrite lookup_total_app_r by lia. replace (length pre + k - length pre)%nat with k by lia.
      apply lookup_total_app_l. cbn. lia. }
    rewrite bits_value_8; rewrite ?Nat2Z.id, ?E; [done|lia|].
    destruct k as [|[|[|[|k]]]]; [..|lia]; apply byte_of_is_byte. }
  rewrite <- be32_get, get_be32_add by apply byte_of_is_byte.
  change 32%nat with (8 + (8 + (8 + 8)))%nat. rewrite !bits_value_app.
  pose proof (Hbyte 0%nat ltac:(lia)) as E0. pose proof (Hbyte 1%nat ltac:(lia)) as E1.
  pose proof (Hbyte 2%nat ltac:(lia)) as E2. pose proof (Hbyte 3%nat ltac:(lia)) as E3.
  set (q := 8 * Z.of_nat (length pre)) in *. rewrite Z.add_0_r in E0.
  replace (q + Z.of_nat 8 + Z.of_nat 8 + Z.of_nat 8) with (q + Z.of_nat (8 * 3)) by lia.
  replace (q + Z.of_nat 8 + Z.of_nat 8) with (q + Z.of_nat (8 * 2)) by lia.
  change (q + Z.of_nat 8) with (q + Z.of_nat (8 * 1)). rewrite E0, E1, E2, E3.
  change (be32 v !!! 0%nat) with (byte_of 24 v). change (be32 v !!! 1%nat) with (byte_of 16 v).
  change (be32 v !!! 2%nat) with (byte_of 8 v). change (be32 v !!! 3%nat) with (byte_of 0 v).
  change (Z.of_nat (8 + (8 + 8))) with 24. change (Z.of_nat (8 + 8)) with 16. change (Z.of_nat 8) with 8. lia.
Qed.

Lemma bits_be64 buf pos (pre post : list Z) v :
  buf = pre ++ be64 v ++ post -> pos = 8 * Z.of_nat (length pre) -> 0 <= v < 2 ^ 64 -> bits_value buf pos 64 = v.
Proof.
  intros Hb Hp Hv. rewrite be64_be32, <- app_assoc in Hb. change 64%nat with (32 + 32)%nat.
  rewrite bits_value_app, (bits_be32 buf pos _ _ _ Hb Hp).
  rewrite (bits_be32 buf (pos + Z.of_nat 32) (pre ++ be32 (v / 2 ^ 32)) post v);
    [|by rewrite <- app_assoc|rewrite length_app; cbn [length be32]; lia].
  change (2 ^ Z.of_nat 32) with (2 ^ 32). unfold u32. dlia.
Qed.

Lemma text_loop_more n k buf t fs : text_loop n buf t = Some fs -> (n <= k)%nat -> text_loop k buf t = Some fs.
Proof.
  revert k t fs. induction n as [|n IH]; intros k t fs; [done|]. intros E Hk. destruct k as [|k]; [lia|].
  cbn [text_loop] in *. destruct (text_step buf t) as [[[t' f]|]|]; [|done|done]. rewrite bind_value in *.
  destruct (text_loop n buf t') as [fs'|] eqn:E'; [|done]. by rewrite (IH k t' fs' E') by lia.
Qed.

(** Text of plain items and the rest. *)
Lemma text_plain c buf pre post fs n k len :
  (length pre + n <= k)%nat ->
  format_items (command_format c) = pre ++ post -> forallb plain pre = true -> total_width pre <= 8 * len ->
  reserved_zero buf pre 0 = true -> Forall is_byte buf -> 8 * Z.of_nat (length buf) < 2 ^ 32 ->
  0 <= len <= Z.of_nat (length buf) ->
  spec_loop n buf (mkSpec post None 1 (total_width pre) len) = Some fs ->
  ScsiText k (command_format c) buf len = Some (plain_fields (bits_value buf) pre 0 ++ fs).
Proof.
  intros Hk Hi Hp Hw Hr Hb Hsize Hlen Hfs.
  destruct (format_check_ok false _ (command_format_ok c)) as (E & Hwf & _). rewrite Hi in E, Hwf.
  apply (text_loop_more (length pre + n)); [|done]. rewrite E.
  change (mkText _ _ _ _ _) with (variables false (mkSpec (pre ++ post) None 1 0 len)).
  rewrite (text_loop_spec buf Hb Hsize) by (constructor; cbn; done || lia). by apply plain_loop.
Qed.

Lemma be32_bytes v : Forall is_byte (be32 v).
Proof. unfold be32. repeat (apply Forall_cons_2; [apply byte_of_is_byte|]). apply Forall_nil_2. Qed.

Lemma be64_bytes v : Forall is_byte (be64 v).
Proof. rewrite be64_be32, Forall_app. split; apply be32_bytes. Qed.

Lemma zeros_bytes n : Forall is_byte (replicate n 0).
Proof. apply Forall_replicate. unfold is_byte. lia. Qed.

#[local] Hint Resolve be32_bytes be64_bytes zeros_bytes : spd.

#[local] Ltac are_bytes :=
  rewrite ?Forall_app; split_and?; auto with spd;
  repeat (apply Forall_cons_2; [unfold is_byte; repeat case_match; lia|]); try apply Forall_nil_2.

#[local] Ltac fields :=
  split; [repeat (apply Forall_cons_2; [reflexivity|]); apply Forall_nil_2|];
  split; [repeat (apply Forall_cons_2; [reflexivity|]); apply Forall_nil_2|];
  repeat (apply Forall_cons_2; [vm_compute; reflexivity|]); apply Forall_nil_2.

(** The fields of the numbers, for any numbers. *)
#[local] Ltac numbers :=
  match goal with |- shows_facts _ ?fs =>
    let l := eval vm_compute in fs in replace fs with l by (vm_compute; reflexivity)
  end.

Lemma capacity_fields value bc bl :
  value 0 32%nat = bc -> value 32 32%nat = bl ->
  shows_facts
    [("RETURNED LOGICAL BLOCK ADDRESS", [Number bc]); ("LOGICAL BLOCK LENGTH IN BYTES", [Number bl])]%string
    (plain_fields value (format_items capacity_format) 0 ++ []).
Proof. intros E1 E2. numbers. rewrite E1, E2. fields. Qed.

Lemma shown_capacity u : unit_data_wf u -> shown_in u capacity 200.
Proof.
  intros [HP _]. pose proof (wf_BlockCount _ HP) as Hbc. pose proof (wf_BlockLength _ HP) as Hbl.
  unfold shown_in, answer_buffer, command_data, capacity_data.
  set (bc := Z.min (BlockCount (StorageUnitParams u) - 1) 0xffffffff). set (bl := BlockLength (StorageUnitParams u)).
  set (z := replicate _ 0). set (buf := (be32 bc ++ be32 bl) ++ z).
  assert (Forall is_byte buf) as Hb by (subst buf z; are_bytes).
  exists (plain_fields (bits_value buf) (format_items capacity_format) 0 ++ []). split.
  - apply (text_plain capacity buf (format_items capacity_format) [] [] 1 200 8); try done. vm_compute. lia.
  - apply capacity_fields.
    + rewrite (bits_be32 buf 0 [] (be32 bl ++ z) bc); [apply u32_small; subst bc; lia|by subst buf; rewrite <- app_assoc|done].
    + rewrite (bits_be32 buf 32 (be32 bc) z bl); [apply u32_small; subst bl; lia|by subst buf; rewrite <- app_assoc|done].
Qed.

(** The items of a format but the last. *)
Definition capacity16_numbers : list ITEM := take 10 (format_items capacity16_format).
Definition capacity16_bytes : list ITEM := drop 10 (format_items capacity16_format).

Lemma capacity16_fields value bc bl tpe z :
  value 0 64%nat = bc -> value 64 32%nat = bl -> value 112 1%nat = tpe ->
  shows_facts
    [("RETURNED LOGICAL BLOCK ADDRESS", [Number bc]); ("LOGICAL BLOCK LENGTH IN BYTES", [Number bl]);
     ("TPE", [Number tpe])]%string
    (plain_fields value capacity16_numbers 0 ++ [mkField 88 16 (chars "Reserved"%string) 0 z None]).
Proof. intros E1 E2 E3. numbers. rewrite E1, E2, E3. fields. Qed.

Lemma shown_capacity16 u : unit_data_wf u -> shown_in u capacity16 200.
Proof.
  intros [HP _]. pose proof (wf_BlockCount _ HP) as Hbc. pose proof (wf_BlockLength _ HP) as Hbl.
  unfold shown_in, answer_buffer, command_data, capacity16_data, shows, unit_facts.
  assert (0 <= BlockCount (StorageUnitParams u) - 1 < 2 ^ 64) as Hbc' by lia.
  generalize dependent (BlockCount (StorageUnitParams u) - 1). generalize dependent (BlockLength (StorageUnitParams u)).
  generalize (UnmapSupported (StorageUnitParams u)). clear HP. intros un bl Hbl bc Hbc'.
  set (z := replicate (_ - _) 0). set (r := [0; 0; if un then 0x80 else 0; 0] ++ replicate 16 0).
  set (buf := (be64 bc ++ be32 bl ++ r) ++ z).
  assert (Forall is_byte buf) as Hb by (subst buf z r; are_bytes).
  exists (plain_fields (bits_value buf) capacity16_numbers 0 ++ [mkField 88 16 (chars "Reserved"%string) 0 (replicate 16 0) None]).
  split.
  - apply (text_plain capacity16 buf capacity16_numbers capacity16_bytes _ 2 200 32); [vm_compute; lia|..].
    all: try (subst buf r z; destruct un; vm_compute; reflexivity). all: done.
  - apply capacity16_fields.
    + apply (bits_be64 buf 0 [] ((be32 bl ++ r) ++ z)); [by subst buf; rewrite <- !app_assoc|done|done].
    + rewrite (bits_be32 buf 64 (be64 bc) (r ++ z) bl); [apply u32_small; lia|by subst buf; rewrite <- !app_assoc|done].
    + subst buf r z. destruct un; vm_compute; reflexivity.
Qed.

Definition vpdb0_numbers : list ITEM := take 15 (format_items inquiry_vpdb0_format).
Definition vpdb0_bytes : list ITEM := drop 15 (format_items inquiry_vpdb0_format).

Lemma vpdb0_fields value n d z :
  value 64 32%nat = n -> value 192 32%nat = d ->
  shows_facts
    [("MAXIMUM TRANSFER LENGTH", [Number n]); ("MAXIMUM UNMAP BLOCK DESCRIPTOR COUNT", [Number d])]%string
    (plain_fields value vpdb0_numbers 0 ++ [mkField 88 28 (chars "Reserved"%string) 0 z None]).
Proof. intros E1 E2. numbers. rewrite E1, E2. fields. Qed.

Lemma shown_vpdb0 u : unit_data_wf u -> shown_in u inquiry_vpdb0 200.
Proof.
  intros [HP _]. pose proof (wf_BlockLength _ HP) as Hbl. pose proof (wf_MaxTransferLength _ HP) as Hm.
  unfold shown_in, answer_buffer, command_data, vpd_data, shows, unit_facts.
  assert (0 <= MaxTransferLength (StorageUnitParams u) / BlockLength (StorageUnitParams u) < 2 ^ 32) as Hn.
  { split; [apply Z.div_pos; lia|]. apply Z.div_lt_upper_bound; [lia|]. nia. }
  assert (0 <= MaxTransferLength (StorageUnitParams u) / 16 < 2 ^ 32) as Hd by dlia.
  generalize dependent (MaxTransferLength (StorageUnitParams u) / BlockLength (StorageUnitParams u)).
  generalize dependent (MaxTransferLength (StorageUnitParams u) / 16).
  generalize (UnmapSupported (StorageUnitParams u)). clear HP Hbl Hm. intros un d Hd n Hn.
  cbn [Z.eqb Pos.eqb default from_option id].
  set (z := replicate (_ - _) 0). set (h := [0; 0xB0; 0; 60] ++ replicate 4 0).
  set (r := (if un then be32 0xffffffff ++ be32 d else replicate 8 0) ++ replicate 36 0).
  set (buf := (([0; 0xB0; 0; 60] ++ replicate 4 0 ++ be32 n ++ replicate 8 0 ++ r)) ++ z).
  assert (buf = h ++ be32 n ++ (replicate 8 0 ++ r) ++ z) as E1 by (subst buf h; by rewrite <- !app_assoc).
  assert (Forall is_byte buf) as Hb by (rewrite E1; subst h r z; destruct un; are_bytes).
  exists (plain_fields (bits_value buf) vpdb0_numbers 0 ++ [mkField 88 28 (chars "Reserved"%string) 0 (replicate 28 0) None]).
  split.
  - apply (text_plain inquiry_vpdb0 buf vpdb0_numbers vpdb0_bytes _ 2 200 64); [vm_compute; lia|..].
    all: try (subst buf r z; destruct un; vm_compute; reflexivity). all: try exact Hb.
    + vm_compute. discriminate.
    + clear. subst buf r z. destruct un; vm_compute; split; discriminate.
  - apply vpdb0_fields.
    + rewrite (bits_be32 buf 64 h _ n E1); [apply u32_small; lia|done].
    + destruct un; [|subst buf r z; vm_compute; reflexivity].
      rewrite (bits_be32 buf 192 (h ++ be32 n ++ replicate 8 0 ++ be32 0xffffffff) (replicate 36 0 ++ z) d);
        [apply u32_small; lia|rewrite E1; subst r; by rewrite <- !app_assoc|done].
Qed.

Lemma shown u c : unit_data_wf u -> shown_in u c 200.
Proof.
  intros Hu. destruct c.
  6: by apply shown_vpdb0. 9: by apply shown_capacity. 9: by apply shown_capacity16.
  all: by apply shown_plain.
Qed.

(** ** The tool *)

Section Tool.
Context {W : Type} (t : TOOL (W := W)) (u : SPD_STORAGE_UNIT).

(** The system gives a request of the tool to the driver as a request of the port driver, with its command
    and its buffer, and the answer of the driver to the tool. *)
Definition delivers : Prop :=
  forall w req buf,
    length (pt_Cdb req) = 16%nat -> Forall is_byte (pt_Cdb req) -> Forall is_byte buf ->
    Z.of_nat (length buf) = pt_DataTransferLength req -> pt_DataTransferLength req < 2 ^ 32 ->
    exists DBG StorageUnit SrbAddress SystemAddress Srb,
      srb_wf Srb /\ srb_DataBuffer Srb <> 0 /\ SrbGetCdb Srb = pt_Cdb req /\ srb_Data Srb = buf /\
      SrbGetDataTransferLength Srb = pt_DataTransferLength req /\
      forall Srb' q',
        execute_scsi_switch DBG u StorageUnit SrbAddress SystemAddress Srb = Some (SRB_STATUS_SUCCESS, Srb', q') ->
        let a := fst (tl_PassThrough t w req buf) in
        pa_Error a = ERROR_SUCCESS /\ pa_ScsiStatus a = IoctlDevice.SCSISTAT_GOOD /\
        pa_DataTransferLength a = SrbGetDataTransferLength Srb' /\ pa_DataBuffer a = srb_Data Srb'.

(** The device can be opened, and there is memory. *)
Record ready (DeviceName : list Z) (c : TOOL_COMMAND) : Prop := {
  rd_open : exists Handle, SpdIoctlOpenDevice (tl_Devices t) DeviceName (tl_PathBuf t) (tl_CreateFile t) =
              Some (ERROR_SUCCESS, Handle);
  rd_alloc : tl_AllocError t = ERROR_SUCCESS;
  rd_overlapped : tl_Overlapped t = ERROR_SUCCESS;
  rd_buffer : Z.of_nat (length (tl_DataBuffer t)) = command_length c;
  rd_bytes : Forall is_byte (tl_DataBuffer t)
}.

Lemma command_cdb_wf c : length (command_cdb c) = 16%nat /\ Forall is_byte (command_cdb c).
Proof. destruct c; (split; [reflexivity|bytes]). Qed.

(** What the system answers to a command. *)
Lemma command_answer c w Btl n :
  unit_data_wf u -> is_Some (Ioq u) -> delivers -> Z.of_nat (length (tl_DataBuffer t)) = command_length c ->
  Forall is_byte (tl_DataBuffer t) ->
  let a := fst (tl_PassThrough t w (pass_through Btl n (command_cdb c) 1 (Some (command_length c))) (tl_DataBuffer t)) in
  pa_Error a = ERROR_SUCCESS /\ pa_ScsiStatus a = IoctlDevice.SCSISTAT_GOOD /\
  pa_DataTransferLength a = Z.of_nat (answer_length c) /\ pa_DataBuffer a = answer_buffer u c.
Proof.
  intros Hu [q Hq] Hd Hlen Hb. destruct (command_cdb_wf c) as [Hc Hcb].
  set (req := pass_through _ _ _ _ _). assert (pt_Cdb req = command_cdb c) as Er by (by apply firstn_all2; lia).
  destruct (Hd w req (tl_DataBuffer t)) as (DBG & p & A & S & Srb & Hwf & Hbuf & Ec & Ed & El & Ha).
  - by rewrite Er.
  - by rewrite Er.
  - done.
  - done.
  - change (command_length c < 2 ^ 32). destruct c; done.
  - rewrite Er in Ec. change (pt_DataTransferLength req) with (command_length c) in El.
    destruct (Ha _ _ (unit_answers u Hu q Hq Srb Hwf Hbuf DBG p A S c Ec El)) as (H1 & H2 & H3 & H4).
    split; [done|]. split; [done|]. split; [exact H3|]. rewrite H4. unfold answer_buffer.
    change (srb_Data (with_data Srb (command_data u c) _)) with
      (command_data u c ++ replicate (length (srb_Data Srb) - length (command_data u c)) 0).
    rewrite (command_data_length u c Hu), Ed. do 2 f_equal. lia.
Qed.

(** A command, whatever the display. *)
Lemma run_command_spec fuel canonical c name DeviceName :
  unit_data_wf u -> is_Some (Ioq u) -> delivers -> ready DeviceName c ->
  run_command fuel canonical t [name; DeviceName] c =
    o ← ScsiPrint fuel canonical (command_format c) (answer_buffer u c) (Z.of_nat (answer_length c));
    Some (Some (ERROR_SUCCESS, [Printed o])).
Proof.
  intros Hu Hq Hd [[h Ho] Ha Hv Hl Hb]. unfold run_command, ScsiDataInAndPrint. cbn [length Nat.ltb Nat.leb orb Nat.eqb].
  rewrite bind_value. cbn [lookup list_lookup]. rewrite bind_value, Ho, bind_value, Ha.
  cbn [negb Z.eqb]. change (ERROR_SUCCESS =? ERROR_SUCCESS) with true. cbv iota. cbn [negb].
  destruct (tl_Stack t) as [st sense]. unfold SpdIoctlScsiExecute.
  assert (exists n, cdb_length (command_cdb c) = Some (Some n)) as [n ->] by (destruct c; eexists; reflexivity).
  rewrite bind_value, Hv. change (negb (ERROR_SUCCESS =? ERROR_SUCCESS)) with false. cbv iota.
  pose proof (command_answer c (tl_World t) 0 n Hu Hq Hd Hl Hb) as Hans.
  destruct (tl_PassThrough t (tl_World t) _ _) as [a w]. cbn [fst] in Hans. destruct Hans as (H1 & H2 & H3 & H4).
  rewrite H1, H2. change (negb (ERROR_SUCCESS =? ERROR_SUCCESS)) with false.
  change (negb (IoctlDevice.SCSISTAT_GOOD =? IoctlDevice.SCSISTAT_GOOD)) with false. cbv iota.
  rewrite !bind_value. cbn [ex_Error ex_ScsiStatus ex_DataLength ex_DataBuffer].
  change (negb (ERROR_SUCCESS =? ERROR_SUCCESS)) with false. cbv iota. rewrite bind_value.
  change (IoctlDevice.SCSISTAT_GOOD =? IoctlDevice.SCSISTAT_GOOD) with true. cbv iota. by rewrite bind_value, H3, H4.
Qed.

Lemma main_command fuel (canonical : bool) name c DeviceName :
  (name, c) ∈ COMMANDS ->
  tool_main fuel t ((if canonical then [word "-c"%string] else []) ++ [name; DeviceName]) =
    run_command fuel canonical t [name; DeviceName] c.
Proof.
  intros Hin. apply list_elem_of_In in Hin. cbn [COMMANDS In] in Hin.
  repeat destruct Hin as [[= <- <-]|Hin]; [..|done]; destruct canonical; reflexivity.
Qed.
End Tool.

(** C10: The SCSI tool shows what the driver says of a storage unit, end to end: for every command, the
    request that the tool makes is answered by the driver, the answer is read without a warning, and
    the fields that are displayed tell the product, the serial number, the owner, the capacity, the
    limits and the mode of the unit. *)
Theorem scsitool_shows_unit {W : Type} (t : TOOL (W := W)) u fuel name c DeviceName :
  unit_data_wf u -> is_Some (Ioq u) -> delivers t u -> ready t DeviceName c -> (name, c) ∈ COMMANDS ->
  (200 <= fuel)%nat ->
  exists fs,
    tool_main fuel t [word "-c"%string; name; DeviceName] =
      Some (Some (ERROR_SUCCESS, [Printed (concat (line_text <$> fs))])) /\
    Forall (fun f => fd_warn f = None) fs /\
    Forall (fun '(name, vs) => values_of name fs = vs) (unit_facts u c).
Proof.
  intros Hu Hq Hd Hr Hin Hf. destruct (shown u c Hu) as (fs & E & Hn & Hw & Hs).
  apply (text_loop_more 200 fuel) in E; [|done]. exists fs. split; [|by split].
  etransitivity; [exact (main_command t fuel true name c DeviceName Hin)|].
  rewrite (run_command_spec t u fuel true c) by done.
  unfold ScsiPrint. rewrite (line_text_written fuel _ _ _ fs); [done|exact E|].
  eapply Forall_impl; [exact Hn|]. intros f. apply Nat.leb_le.
Qed.

(** The unit of the example, with its queue. *)
Definition shown_unit : SPD_STORAGE_UNIT :=
  example_unit <| Ioq := match SpdIoqCreate sizeof_SPD_IOQ_64 true with Some (_, q) => q | None => None end |>.

(** A system that gives each request to the unit of the example. *)
Definition example_srb (req : SCSI_PASS_THROUGH_DIRECT) (buf : list Z) : SRB :=
  (example_request (length buf) (pt_Cdb req)) <| srb_Data := buf |>.

Definition example_pass (u : SPD_STORAGE_UNIT) (w : unit) (req : SCSI_PASS_THROUGH_DIRECT) (buf : list Z)
    : PASS_THROUGH_ANSWER * unit :=
  match execute_scsi_switch false u 0 0 (0, 0) (example_srb req buf) with
  | Some (_, Srb, _) =>
      (mkPassThrough 0 (SrbGetDataTransferLength Srb) 0 32 (replicate 32 0) (srb_Data Srb), w)
  | None => (mkPassThrough 31 0 0 32 (replicate 32 0) buf, w)
  end.

Definition example_tool (n : nat) : TOOL :=
  mkTool (mkDevices (inl []) [] 0) (replicate 1024 0) (fun _ => (7, 0)) 0 (replicate n 0xcc) 0 (0, replicate 32 0)
    tt (example_pass shown_unit).

Lemma example_delivers n : delivers (example_tool n) shown_unit.
Proof.
  intros w req buf H1 H2 H3 H4 H5. exists false, 0, 0, (0, 0), (example_srb req buf).
  split; [|split; [done|split; [done|split; [done|split; [exact H4|]]]]].
  - split; cbn; done || lia || (intros; by rewrite ?length_replicate).
  - intros Srb' q' E. cbn [tl_PassThrough example_tool]. unfold example_pass. rewrite E. by split.
Qed.

(** The capacity of the example unit, and how it is displayed. *)
Lemma scsitool_shows_unit_witness :
  (exists fs,
    tool_main 200 (example_tool 255) [word "-c"%string; word "capacity"%string; word "0:0"%string] =
      Some (Some (ERROR_SUCCESS, [Printed (concat (line_text <$> fs))])) /\
    values_of "LOGICAL BLOCK LENGTH IN BYTES" fs = [Number 512]) /\
  tool_main 200 (example_tool 255) [word "-c"%string; word "capacity"%string; word "0:0"%string] =
    Some (Some (ERROR_SUCCESS, [Printed (
      chars "RETURNED LOGICAL BLOCK ADDRESS=2047 (0x7ff)"%string ++ [10] ++
      chars "LOGICAL BLOCK LENGTH IN BYTES=512 (0x200)"%string ++ [10])])).
Proof.
  split; [|vm_compute; reflexivity].
  destruct (scsitool_shows_unit (example_tool 255) shown_unit 200 (word "capacity"%string) capacity (word "0:0"%string))
    as (fs & H1 & _ & H2).
  - exact example_unit_data_wf.
  - eexists. reflexivity.
  - apply example_delivers.
  - split; [|reflexivity..|bytes]. exists 7. vm_compute. reflexivity.
  - do 9 right. left.
  - lia.
  - exists fs. split; [exact H1|]. apply Forall_cons in H2 as [_ H2]. by apply Forall_cons in H2 as [H2 _].
Defined.

(** ** Sense data *)

Definition sense_items : list ITEM := format_items sense_format.
Definition sense_before : list ITEM := take 9 sense_items.
Definition sense_length : ITEM := nth 9 sense_items (mkItem false 0 Last 0 []).
Definition sense_after : list ITEM := take 6 (drop 10 sense_items).
Definition sense_rest : list ITEM := drop 16 sense_items.

(** Sense data of eighteen bytes in a buffer of thirty-two. *)
Lemma text_sense buf k :
  (40 <= k)%nat -> Forall is_byte buf -> length buf = 32%nat -> reserved_zero buf sense_before 0 = true ->
  bits_value buf 56 8 = 10 ->
  ScsiText k sense_format buf 32 =
    Some (plain_fields (bits_value buf) sense_before 0 ++
          mkField 117 8 (it_name sense_length) 10 [] (Some DataLengthMismatch) ::
          plain_fields (bits_value buf) sense_after 64 ++ []).
Proof.
  intros Hk Hb Hl Hr H10. destruct (format_check_ok true _ sense_format_ok) as (E & Hwf & _).
  apply (text_loop_more (length sense_before + (1 + (length sense_after + 1)))); [|vm_compute in Hk |- *; lia].
  rewrite E. change (mkText _ _ _ _ _) with (variables true (mkSpec sense_items None 1 0 32)).
  rewrite (text_loop_spec buf Hb); [|rewrite Hl; done|constructor; cbn [sp_items sp_star sp_m sp_pos sp_len]; rewrite ?Hl; [exact Hwf|done|lia..]].
  change sense_items with (sense_before ++ sense_length :: sense_after ++ sense_rest).
  apply plain_loop; try done. change (0 + total_width sense_before) with 56. cbn [Nat.add spec_loop].
  unfold spec_step. cbn [sp_items sp_star sp_m sp_pos sp_len]. change (8 * 32 <=? 56) with false. cbv iota.
  change (it_star sense_length) with false. cbv iota.
  assert (forall s, sp_pos s = 56 -> sp_len s = 32 -> spec_item buf s sense_length =
    (mkSpec (sp_items s) (sp_star s) (sp_m s) 64 18,
     Some (mkField 117 8 (it_name sense_length) 10 [] (Some DataLengthMismatch)))) as Hitem.
  { intros [items star m pos len]. cbn [sp_pos sp_len]. intros -> ->. unfold spec_item, bits_item.
    change (is_upper (it_type sense_length)) with false. cbv iota. cbn [sp_items sp_star sp_m sp_pos sp_len].
    change (item_width m sense_length) with 8. change (Z.to_nat (Z.min 8 (8 * 32 - 56))) with 8%nat. rewrite H10.
    reflexivity. }
  rewrite Hitem by done. cbn [sp_items sp_star sp_m].
  rewrite (plain_loop buf sense_rest sense_after 1 64 18 1 []); [done|reflexivity|lia|by vm_compute|reflexivity|reflexivity].
Qed.

(** The fields of the sense data of the driver. *)
Definition sense_facts (K A Q : Z) (Information : option Z) : list (string * list VALUE) :=
  [("VALID", [Number (match Information with Some _ => 1 | None => 0 end)]);
   ("SENSE KEY", [Number (K mod 16)]);
   ("INFORMATION", [Number (match Information with Some i => u32 i | None => 0 end)]);
   ("ADDITIONAL SENSE CODE", [Number A]); ("ADDITIONAL SENSE CODE QUALIFIER", [Number Q])]%string.

Lemma sense_fields_shown value v k i a q :
  value 0 1%nat = v -> value 20 4%nat = k -> value 24 32%nat = i -> value 96 8%nat = a -> value 104 8%nat = q ->
  let fs := plain_fields value sense_before 0 ++
    mkField 117 8 (it_name sense_length) 10 [] (Some DataLengthMismatch) :: plain_fields value sense_after 64 ++ [] in
  Forall (fun f => (length (fd_name f) <=? sizeof_buf)%nat = true) fs /\
  Forall (fun '(name, vs) => values_of name fs = vs)
    [("VALID", [Number v]); ("SENSE KEY", [Number k]); ("INFORMATION", [Number i]);
     ("ADDITIONAL SENSE CODE", [Number a]); ("ADDITIONAL SENSE CODE QUALIFIER", [Number q])]%string.
Proof.
  intros E1 E2 E3 E4 E5 fs. subst fs.
  match goal with |- Forall _ ?fs /\ _ => let l := eval vm_compute in fs in replace fs with l by (vm_compute; reflexivity) end.
  rewrite E1, E2, E3, E4, E5. split; [repeat (apply Forall_cons_2; [reflexivity|]); apply Forall_nil_2|].
  repeat (apply Forall_cons_2; [vm_compute; reflexivity|]); apply Forall_nil_2.
Qed.

(** The lower half of a byte. *)
Lemma nibble_bits k : 0 <= k < 16 -> byte_bits k 3 1 = 0 /\ byte_bits k 4 4 = k.
Proof.
  intros Hk.
  assert (forallb (fun k => (byte_bits (Z.of_nat k) 3 1 =? 0) && (byte_bits (Z.of_nat k) 4 4 =? Z.of_nat k)) (seq 0 16) = true)
    as H by (vm_compute; reflexivity).
  rewrite forallb_forall in H. specialize (H (Z.to_nat k)). rewrite in_seq, Z2Nat.id in H by lia.
  specialize (H ltac:(lia)). lia.
Qed.

(** The bytes of the buffer. *)
Lemma sense_buffer K A Q Information :
  let buf := sense_data K A Q Information ++ replicate 14 0 in
  exists x0 x1 x2 x3 v,
    buf = [v; 0; K .& 0xf; x0; x1; x2; x3; 10; 0; 0; 0; 0; A; Q; 0; 0; 0; 0] ++ replicate 14 0 /\
    (v = 0x70 \/ v = 0xf0) /\ b2z (v =? 0xf0) = match Information with Some _ => 1 | None => 0 end /\
    Forall is_byte [x0; x1; x2; x3] /\
    bits_value buf 24 32 = match Information with Some i => u32 i | None => 0 end.
Proof.
  intros buf. destruct Information as [i|].
  - exists (byte_of 24 i), (byte_of 16 i), (byte_of 8 i), (byte_of 0 i), 0xf0.
    split_and!; [done|by right|done|apply be32_bytes|].
    by apply (bits_be32 buf 24 [0xf0; 0; K .& 0xf] ([10; 0; 0; 0; 0; A; Q; 0; 0; 0; 0] ++ replicate 14 0)).
  - exists 0, 0, 0, 0, 0x70. split_and!; [done|by left|done|bytes|by vm_compute].
Qed.

(** The sense data of every refusal of the driver are displayed with the key, the codes and the
    information of the refusal; but the tool gives the whole of its sense buffer as the length of the
    data, so that each display also warns of a length that does not match. *)
Theorem scsitool_shows_sense fuel ScsiStatus K A Q Information :
  is_byte K -> is_byte A -> is_byte Q -> (40 <= fuel)%nat ->
  exists fs,
    ScsiPrintSenseInfo fuel true ScsiStatus (sense_data K A Q Information ++ replicate 14 0) =
      Some [StatusLine ScsiStatus; Printed (concat (line_text <$> fs))] /\
    Forall (fun '(name, vs) => values_of name fs = vs) (sense_facts K A Q Information) /\
    Exists (fun f => fd_warn f = Some DataLengthMismatch) fs.
Proof.
  intros HK HA HQ Hf. set (buf := sense_data K A Q Information ++ replicate 14 0).
  assert (0 <= K .& 0xf < 16) as Hk.
  { change 0xf with (Z.ones 4). rewrite Z.land_ones by lia. apply Z.mod_pos_bound. lia. }
  destruct (sense_buffer K A Q Information) as (x0 & x1 & x2 & x3 & v & E & Hv & Hvi & Hx & Hi). fold buf in E, Hi.
  assert (length buf = 32%nat) as Hl by (by rewrite E).
  assert (Forall is_byte buf) as Hb.
  { rewrite E. apply Forall_app. split; [|apply zeros_bytes].
    repeat (apply Forall_cons in Hx as [? Hx]). repeat (apply Forall_cons_2; [try done; unfold is_byte; lia|]). apply Forall_nil_2. }
  assert (forall n, (n < 32)%nat -> bits_value buf (8 * Z.of_nat n) 8 = buf !!! n) as H8.
  { intros n Hn. rewrite bits_value_8; rewrite ?Nat2Z.id; [done|lia|].
    rewrite Forall_lookup in Hb. apply (Hb n). apply list_lookup_lookup_total_lt. lia. }
  assert (bits_value buf 20 4 = K mod 16) as EK.
  { transitivity (K .& 0xf); [|change 0xf with (Z.ones 4); by rewrite Z.land_ones by lia].
    rewrite E. change 20 with (8 * 2 + 4). rewrite bits_value_byte by lia. exact (proj2 (nibble_bits _ Hk)). }
  assert (bits_value buf 19 1 = 0) as ER.
  { rewrite E. change 19 with (8 * 2 + 3). rewrite bits_value_byte by lia. exact (proj1 (nibble_bits _ Hk)). }
  assert (bits_value buf 0 1 = match Information with Some _ => 1 | None => 0 end) as EV.
  { rewrite <- Hvi. etransitivity; [exact (bits_value_byte buf 0 0 1 ltac:(lia) ltac:(lia) ltac:(lia))|].
    rewrite E. by destruct Hv as [-> | ->]. }
  assert (bits_value buf 56 8 = 10) as E10 by (etransitivity; [exact (H8 7%nat ltac:(lia))|by rewrite E]).
  assert (bits_value buf 96 8 = A) as EA by (etransitivity; [exact (H8 12%nat ltac:(lia))|by rewrite E]).
  assert (bits_value buf 104 8 = Q) as EQ by (etransitivity; [exact (H8 13%nat ltac:(lia))|by rewrite E]).
  assert (reserved_zero buf sense_before 0 = true) as Hr.
  { transitivity ((bits_value buf 19 1 =? 0) && true); [reflexivity|by rewrite ER]. }
  destruct (sense_fields_shown (bits_value buf) _ _ _ _ _ EV EK Hi EA EQ) as [Hn Hs].
  eexists. split; [|split; [exact Hs|apply Exists_app; right; by apply Exists_cons_hd]].
  unfold ScsiPrintSenseInfo, ScsiPrint.
  by erewrite line_text_written; [rewrite bind_value|apply (text_sense buf fuel)|
    eapply Forall_impl; [exact Hn|intros f; apply Nat.leb_le]].
Qed.

(** A read of a block that the medium has lost. *)
Lemma scsitool_shows_sense_witness :
  exists fs,
    ScsiPrintSenseInfo 40 true 2 (sense_data 3 0x11 0 (Some 0x12345678) ++ replicate 14 0) =
      Some [StatusLine 2; Printed (concat (line_text <$> fs))] /\
    values_of "SENSE KEY" fs = [Number 3] /\ Exists (fun f => fd_warn f = Some DataLengthMismatch) fs.
Proof.
  destruct (scsitool_shows_sense 40 2 3 0x11 0 (Some 0x12345678)) as (fs & H1 & H2 & H3);
    [by split..|lia|]. exists fs. split; [exact H1|]. split; [|exact H3].
  apply Forall_cons in H2 as [_ H2]. by apply Forall_cons in H2 as [H2 _].
Defined.
