(* ===== verification/Text.v ===== *)
(** * Literal texts

    The characters of a literal, and the bytes of a wide text in memory. *)

From stdpp Require Export strings.
From S2P Require Import Prelude.

#[global] Open Scope Z_scope.

(** The characters of a literal, without its terminator. *)
Definition lit (s : string) : list Z := (fun a => Z.of_N (Ascii.N_of_ascii a)) <$> String.list_ascii_of_string s.

(** The bytes of wide characters, and of a wide text with its terminator. *)
Definition wide (t : list Z) : list Z := t ≫= fun c => [byte_of 0 c; byte_of 8 c].
Definition wide_sz (t : list Z) : list Z := wide (t ++ [0]).

Lemma wide_length t : length (wide t) = (2 * length t)%nat.
Proof. induction t as [|c t IH]; [done|]. unfold wide in *. cbn [mbind list_bind app length] in *. lia. Qed.

Lemma wide_sz_length t : Z.of_nat (length (wide_sz t)) = (Z.of_nat (length t) + 1) * 2.
Proof. unfold wide_sz. rewrite wide_length, length_app. cbn [length]. lia. Qed.
