(* ===== verification/RegUtil.v ===== *)
(** * Registry entries: [shared/regutil.c]

    A list of entries is a walk over keys of the registry: an entry with a name and no value goes to
    a key below the current one, an entry without either goes back to the root, and an entry with a
    value is a value of the current key.  The registry is a class of operations.  An operation with
    a key that is not open is a fault. *)

From S2P Require Import Prelude Wdk.

(** ** Entries *)

Record REGENTRY := mkEntry {
  re_Name : option (list Z); re_Type : Z; re_Value : option (list Z); re_Size : Z
}.

(** ** The registry *)

(** Errors, and what each call gives: a key, whether it is new, the registry. *)
Class Registry (W : Type) := {
  RegOpenKeyExW : W -> Z -> option (list Z) -> option (Z * Z * W);
  RegCreateKeyExW : W -> Z -> option (list Z) -> option (Z * Z * bool * W);
  RegCloseKey : W -> Z -> option W;
  RegSetValueExW : W -> Z -> option (list Z) -> Z -> list Z -> Z -> option (Z * W);
  RegDeleteTree : W -> Z -> option (list Z) -> option (Z * W);
  RegDeleteValue : W -> Z -> option (list Z) -> option (Z * W)
}.

Section RegUtil.
Context {W : Type} {R : Registry W}.

(** [if (0 != EntryKey) RegCloseKey(EntryKey)] *)
Definition close_entry (w : W) (EntryKey : Z) : option W :=
  if negb (0 =? EntryKey) then RegCloseKey w EntryKey else Some w.

(** [0 != EntryKey ? EntryKey : Key] *)
Definition current (Key EntryKey : Z) : Z := if negb (0 =? EntryKey) then EntryKey else Key.

(** ** Adding *)

(** What the loop of [RegAddEntries] leaves: the error, the key, and whether a key was added. *)
Fixpoint add_loop (Key : Z) (Entries : list REGENTRY) (EntryKey : Z) (KeyAdded : bool) (w : W)
    : option (Z * Z * bool * W) :=
  match Entries with
  | [] => Some (ERROR_SUCCESS, EntryKey, KeyAdded, w)
  | Entry :: Entries =>
      match re_Name Entry, re_Value Entry with
      | None, None => w ← close_entry w EntryKey; add_loop Key Entries 0 KeyAdded w
      | Name, None =>
          '(err, TempKey, KeyAdded, w) ←
            (if 0 =? re_Type Entry then
               '(err, TempKey, w) ← RegOpenKeyExW w (current Key EntryKey) Name;
               Some (err, TempKey, KeyAdded, w)
             else
               '(err, TempKey, New, w) ← RegCreateKeyExW w (current Key EntryKey) Name;
               Some (err, TempKey, if (ERROR_SUCCESS =? err) && New then true else KeyAdded, w));
          if negb (ERROR_SUCCESS =? err) then Some (err, EntryKey, KeyAdded, w)
          else w ← close_entry w EntryKey; add_loop Key Entries TempKey KeyAdded w
      | Name, Some Value =>
          '(err, w) ← RegSetValueExW w (current Key EntryKey) Name (re_Type Entry) Value (re_Size Entry);
          if negb (ERROR_SUCCESS =? err) then Some (err, EntryKey, KeyAdded, w)
          else add_loop Key Entries EntryKey KeyAdded w
      end
  end.

(** [RegAddEntries]: the error, [*PKeyAdded] and the registry. *)
Definition RegAddEntries (Key : Z) (Entries : list REGENTRY) (w : W) : option (Z * bool * W) :=
  '(err, EntryKey, KeyAdded, w) ← add_loop Key Entries 0 false w;
  w ← close_entry w EntryKey;
  Some (err, KeyAdded, w).

(** ** Deleting *)

Definition not_found_is_success (err : Z) : Z := if ERROR_FILE_NOT_FOUND =? err then ERROR_SUCCESS else err.

Fixpoint delete_loop (Key : Z) (Entries : list REGENTRY) (EntryKey : Z) (Skip KeyDeleted : bool) (w : W)
    : option (Z * Z * bool * W) :=
  match Entries with
  | [] => Some (ERROR_SUCCESS, EntryKey, KeyDeleted, w)
  | Entry :: Entries =>
      match re_Name Entry, re_Value Entry with
      | None, None => w ← close_entry w EntryKey; delete_loop Key Entries 0 false KeyDeleted w
      | Name, None =>
          if Skip then delete_loop Key Entries EntryKey Skip KeyDeleted w
          else
            '(err, TempKey, Skip, KeyDeleted, w) ←
              (if 0 =? re_Type Entry then
                 '(err, TempKey, w) ← RegOpenKeyExW w (current Key EntryKey) Name;
                 Some (err, TempKey, Skip, KeyDeleted, w)
               else
                 '(err, w) ← RegDeleteTree w (current Key EntryKey) Name;
                 Some (not_found_is_success err, 0, true,
                       if ERROR_SUCCESS =? err then true else KeyDeleted, w));
            if negb (ERROR_SUCCESS =? err) then Some (err, EntryKey, KeyDeleted, w)
            else w ← close_entry w EntryKey; delete_loop Key Entries TempKey Skip KeyDeleted w
      | Name, Some _ =>
          if Skip then delete_loop Key Entries EntryKey Skip KeyDeleted w
          else
            '(err, w) ← RegDeleteValue w (current Key EntryKey) Name;
            let err := not_found_is_success err in
            if negb (ERROR_SUCCESS =? err) then Some (err, EntryKey, KeyDeleted, w)
            else delete_loop Key Entries EntryKey Skip KeyDeleted w
      end
  end.

(** [RegDeleteEntries]: the error, [*PKeyDeleted] and the registry. *)
Definition RegDeleteEntries (Key : Z) (Entries : list REGENTRY) (w : W) : option (Z * bool * W) :=
  '(err, EntryKey, KeyDeleted, w) ← delete_loop Key Entries 0 false false w;
  w ← close_entry w EntryKey;
  Some (err, KeyDeleted, w).
End RegUtil.

(** * Registry entries are added and deleted

    The laws of a registry: what its calls do to the keys, the values and the open handles.  Every
    key that is opened is closed, and deleting the entries that were added gives the registry back. *)

(** ** A registry as a map *)

(** A path is the list of the names of keys, each folded to one case; a key has values. *)
Abbreviation PATH := (list (list Z)) (only parsing).
Abbreviation VALUES := (gmap (list Z) (Z * list Z)) (only parsing).

(** The names of a path, which backslashes separate. *)
Fixpoint components (n : list Z) : list (list Z) :=
  match n with
  | [] => [[]]
  | c :: n =>
      if c =? 92 then [] :: components n
      else match components n with [] => [[c]] | x :: xs => (c :: x) :: xs end
  end.

(** A name of one key: it is not empty, and it is not a path. *)
Definition plain_name (n : list Z) : Prop := n <> [] /\ 92 ∉ n.

#[export] Instance plain_name_dec n : Decision (plain_name n).
Proof. unfold plain_name. apply _. Defined.

Lemma plain_components n : plain_name n -> components n = [n].
Proof.
  intros [_ Hn]. induction n as [|c n IH]; [done|]. cbn [components].
  apply not_elem_of_cons in Hn as [Hc Hn]. by rewrite (proj2 (Z.eqb_neq c 92)), IH by auto.
Qed.

Class RegistryLaws (W : Type) {R : Registry W} := {
  fold_case : list Z -> list Z;
  keys : W -> gmap PATH VALUES;
  held : W -> gmap Z PATH;
  rl_open w k n p :
    held w !! k = Some p -> n <> [] ->
    exists err h w', RegOpenKeyExW w k (Some n) = Some (err, h, w') /\ keys w' = keys w /\
      (if ERROR_SUCCESS =? err
       then is_Some (keys w !! (p ++ map fold_case (components n))) /\ h <> 0 /\ held w !! h = None /\
            held w' = <[h := p ++ map fold_case (components n)]> (held w)
       else held w' = held w);
  rl_create w k n p :
    held w !! k = Some p -> plain_name n ->
    exists err h new w', RegCreateKeyExW w k (Some n) = Some (err, h, new, w') /\
      (if ERROR_SUCCESS =? err
       then new = bool_decide (keys w !! (p ++ [fold_case n]) = None) /\
            keys w' = (if (new : bool) then <[p ++ [fold_case n] := ∅]> (keys w) else keys w) /\
            h <> 0 /\ held w !! h = None /\ held w' = <[h := p ++ [fold_case n]]> (held w)
       else keys w' = keys w /\ held w' = held w);
  rl_close w k :
    is_Some (held w !! k) ->
    exists w', RegCloseKey w k = Some w' /\ keys w' = keys w /\ held w' = delete k (held w);
  rl_set w k n p ty v size :
    held w !! k = Some p ->
    exists err w', RegSetValueExW w k n ty v size = Some (err, w') /\ held w' = held w /\
      keys w' = (if ERROR_SUCCESS =? err
                 then alter <[fold_case (default [] n) := (ty, take (Z.to_nat size) v)]> p (keys w) else keys w);
  rl_delete_tree w k n p :
    held w !! k = Some p -> plain_name n ->
    exists err w', RegDeleteTree w k (Some n) = Some (err, w') /\ held w' = held w /\
      (err = ERROR_SUCCESS ->
       keys w' = filter (fun kv => ~ (p ++ [fold_case n]) `prefix_of` kv.1) (keys w)) /\
      (err = ERROR_FILE_NOT_FOUND ->
       (forall q, (p ++ [fold_case n]) `prefix_of` q -> keys w !! q = None) /\ keys w' = keys w);
  rl_delete_value w k n p :
    held w !! k = Some p ->
    exists err w', RegDeleteValue w k n = Some (err, w') /\ held w' = held w /\
      (err = ERROR_SUCCESS -> keys w' = alter (delete (fold_case (default [] n))) p (keys w)) /\
      (err = ERROR_FILE_NOT_FOUND ->
       (forall vs, keys w !! p = Some vs -> vs !! fold_case (default [] n) = None) /\ keys w' = keys w)
}.

(** Where nothing fails: calls with keys that are there succeed. *)
Class ReliableRegistry (W : Type) {R : Registry W} {L : RegistryLaws W} : Prop := {
  rr_open w k n p err h w' :
    held w !! k = Some p -> n <> [] -> is_Some (keys w !! (p ++ map fold_case (components n))) ->
    RegOpenKeyExW w k (Some n) = Some (err, h, w') -> err = ERROR_SUCCESS;
  rr_create w k n p err h new w' :
    held w !! k = Some p -> plain_name n -> is_Some (keys w !! p) ->
    RegCreateKeyExW w k (Some n) = Some (err, h, new, w') -> err = ERROR_SUCCESS;
  rr_set w k n p ty v size err w' :
    held w !! k = Some p -> is_Some (keys w !! p) ->
    RegSetValueExW w k n ty v size = Some (err, w') -> err = ERROR_SUCCESS;
  rr_delete_tree w k n p err w' :
    held w !! k = Some p -> plain_name n ->
    RegDeleteTree w k (Some n) = Some (err, w') -> err = ERROR_SUCCESS \/ err = ERROR_FILE_NOT_FOUND;
  rr_delete_value w k n p err w' :
    held w !! k = Some p -> is_Some (keys w !! p) ->
    RegDeleteValue w k n = Some (err, w') -> err = ERROR_SUCCESS \/ err = ERROR_FILE_NOT_FOUND
}.

(** Entries whose keys have names, and those that are created plain names. *)
Definition entry_wf (e : REGENTRY) : Prop :=
  match re_Name e, re_Value e with
  | Some n, None => if 0 =? re_Type e then n <> [] else plain_name n
  | _, _ => True
  end.

#[export] Instance entry_wf_dec e : Decision (entry_wf e).
Proof. unfold entry_wf. repeat case_match; apply _. Defined.

Section Walk.
Context {W : Type} {R : Registry W} {L : RegistryLaws W}.

(** ** What a list of entries is about *)

(** A key that is created, with all that is below it, or a value of a key that is not. *)
Inductive TARGET :=
  | KeyTarget (p : PATH)
  | ValueTarget (p : PATH) (n : list Z).

#[local] Set Warnings "-clear-no-such-hyp".
#[export] Instance TARGET_eq_dec : EqDecision TARGET.
Proof. solve_decision. Defined.
#[local] Set Warnings "clear-no-such-hyp".

(** [p] is the current key; after a key that is created, up to the root, everything is below it. *)
Fixpoint targets (root : PATH) (es : list REGENTRY) (p : PATH) (skip : bool) : list TARGET :=
  match es with
  | [] => []
  | e :: es =>
      match re_Name e, re_Value e with
      | None, None => targets root es root false
      | Name, None =>
          if skip then targets root es p skip
          else
            let q := p ++ map fold_case (components (default [] Name)) in
            if 0 =? re_Type e then targets root es q false else KeyTarget q :: targets root es root true
      | Name, Some _ =>
          if skip then targets root es p skip
          else ValueTarget p (fold_case (default [] Name)) :: targets root es p skip
      end
  end.

(** What is below a created key does not matter. *)
Lemma targets_skip root es p p' : targets root es p true = targets root es p' true.
Proof.
  revert p p'. induction es as [|e es IH]; intros p p'; [done|]. cbn [targets].
  by destruct (re_Name e), (re_Value e); try apply IH.
Qed.

(** The keys that the entries open are there, and below a key that is created every key is created. *)
Fixpoint present (K : gmap PATH VALUES) (root : PATH) (es : list REGENTRY) (p : PATH) (skip : bool) : bool :=
  match es with
  | [] => true
  | e :: es =>
      match re_Name e, re_Value e with
      | None, None => present K root es root false
      | Name, None =>
          let q := p ++ map fold_case (components (default [] Name)) in
          if skip then negb (0 =? re_Type e) && present K root es p true
          else if 0 =? re_Type e then bool_decide (is_Some (K !! q)) && present K root es q false
          else present K root es root true
      | _, Some _ => present K root es p skip
      end
  end.

Lemma present_skip K root es p p' : present K root es p true = present K root es p' true.
Proof.
  revert p p'. induction es as [|e es IH]; intros p p'; [done|]. cbn [present].
  destruct (re_Name e), (re_Value e); try done; try apply IH. by rewrite (IH p p').
Qed.

(** No key is lost. *)
Definition kept (K K' : gmap PATH VALUES) : Prop := forall q, is_Some (K !! q) -> is_Some (K' !! q).

#[export] Instance kept_refl : Reflexive kept.
Proof. intros K q Hq. exact Hq. Qed.

Lemma kept_alter (K0 K : gmap PATH VALUES) (q : PATH) (f : VALUES -> VALUES) : kept K0 K -> kept K0 (alter f q K).
Proof.
  intros Hk q' Hq'%Hk. destruct (decide (q = q')) as [<-|]; [by rewrite lookup_alter_eq, fmap_is_Some|].
  by rewrite lookup_alter_ne.
Qed.

Lemma kept_insert (K0 K : gmap PATH VALUES) (q : PATH) (vs : VALUES) : kept K0 K -> kept K0 (<[q := vs]> K).
Proof.
  intros Hk q' Hq'%Hk. destruct (decide (q = q')) as [<-|]; [by rewrite lookup_insert_eq|].
  by rewrite lookup_insert_ne.
Qed.

(** Nothing of a target is there. *)
Definition cleared (K : gmap PATH VALUES) (t : TARGET) : Prop :=
  match t with
  | KeyTarget c => forall q, c `prefix_of` q -> K !! q = None
  | ValueTarget p n => forall vs, K !! p = Some vs -> vs !! n = None
  end.

(** Two registries that are the same but for the targets. *)
Definition below (T : list TARGET) (q : PATH) : Prop := exists c, KeyTarget c ∈ T /\ c `prefix_of` q.

Definition covers (q : PATH) (t : TARGET) : Prop := match t with KeyTarget c => c `prefix_of` q | ValueTarget _ _ => False end.

#[export] Instance covers_dec q t : Decision (covers q t).
Proof. destruct t; cbn [covers]; apply _. Defined.

#[export] Instance below_dec T q : Decision (below T q).
Proof.
  refine (cast_if (decide (Exists (covers q) T))).
  - apply Exists_exists in e as ([c|] & Ht & Hc); [by exists c|done].
  - intros (c & Hin & Hp). apply n, Exists_exists. by exists (KeyTarget c).
Defined.

Definition agree (T : list TARGET) (K K' : gmap PATH VALUES) : Prop :=
  forall q, ~ below T q ->
    (K !! q = None -> K' !! q = None) /\
    (forall vs, K !! q = Some vs ->
       exists vs', K' !! q = Some vs' /\ forall n, ValueTarget q n ∉ T -> vs' !! n = vs !! n).

#[export] Instance agree_refl T : Reflexive (agree T).
Proof. intros K q _. split; [done|]. intros vs E. by exists vs. Qed.

#[export] Instance agree_trans T : Transitive (agree T).
Proof.
  intros K1 K2 K3 H12 H23 q Hq. destruct (H12 q Hq) as [N12 S12]. destruct (H23 q Hq) as [N23 S23].
  split; [auto|]. intros vs (vs2 & E2 & H2)%S12. destruct (S23 vs2 E2) as (vs3 & E3 & H3).
  exists vs3. split; [done|]. intros n Hn. by rewrite H3, H2.
Qed.

Lemma agree_kept T K0 K K' :
  (forall q, is_Some (K0 !! q) -> ~ below T q) -> agree T K K' -> kept K0 K -> kept K0 K'.
Proof.
  intros Hb Ha Hk q Hq. destruct (Ha q (Hb q Hq)) as [_ HS]. destruct (Hk q Hq) as [vs E].
  destruct (HS vs E) as (vs' & E' & _). by exists vs'.
Qed.

(** A key that is there is not below a target that is cleared. *)
Lemma cleared_not_below T K q : Forall (cleared K) T -> is_Some (K !! q) -> ~ below T q.
Proof.
  rewrite Forall_forall. intros Hc [vs E] (c & Hin & Hp). specialize (Hc _ Hin q Hp). by rewrite E in Hc.
Qed.

Lemma agree_insert T K q vs : below T q -> agree T K (<[q := vs]> K).
Proof.
  intros Hq q' Hq'. assert (q <> q') by (intros ->; done). rewrite lookup_insert_ne by done.
  split; [done|]. intros vs' E. by exists vs'.
Qed.

Lemma agree_alter (T : list TARGET) (K : gmap PATH VALUES) (q : PATH) (n : list Z) (f : VALUES -> VALUES) :
  below T q \/ ValueTarget q n ∈ T -> (forall vs m, m <> n -> f vs !! m = vs !! m) -> agree T K (alter f q K).
Proof.
  intros Hq Hf q' Hq'. destruct (decide (q = q')) as [<-|Hne].
  - rewrite lookup_alter_eq. split; [by intros ->|]. intros vs ->. eexists. split; [done|].
    intros m Hm. apply Hf. intros ->. by destruct Hq.
  - rewrite lookup_alter_ne by done. split; [done|]. intros vs' E. by exists vs'.
Qed.

Lemma agree_filter T K c :
  KeyTarget c ∈ T -> agree T K (filter (fun kv => ~ c `prefix_of` kv.1) K).
Proof.
  intros Hc q Hq. assert (~ c `prefix_of` q) as Hp by (intros Hp; apply Hq; by exists c). split.
  - intros E. apply map_lookup_filter_None. by left.
  - intros vs E. exists vs. split; [|done]. apply map_lookup_filter_Some. done.
Qed.

Lemma below_child T q ns : below T q -> below T (q ++ ns).
Proof. intros (c & Hc & Hp). exists c. split; [done|]. by apply prefix_app_r. Qed.

(** A registry that agrees with one that has nothing of the targets, and has nothing of them either. *)
Lemma agree_cleared T K K' :
  agree T K K' -> Forall (cleared K) T -> Forall (cleared K') T -> K' = K.
Proof.
  rewrite !Forall_forall. intros Ha Hc Hc'. apply map_eq. intros q.
  destruct (decide (below T q)) as [(c & Hin & Hp)|Hq].
  - etrans; [exact (Hc' _ Hin q Hp)|symmetry; exact (Hc _ Hin q Hp)].
  - destruct (Ha q Hq) as [HN HS]. destruct (K !! q) as [vs|] eqn:E; [|by apply HN].
    destruct (HS vs eq_refl) as (vs' & E' & Hvs). rewrite E'. f_equal. apply map_eq. intros n.
    destruct (decide (ValueTarget q n ∈ T)) as [Ht|Ht]; [|by apply Hvs].
    etrans; [exact (Hc' _ Ht vs' E')|symmetry; exact (Hc _ Ht vs E)].
Qed.

(** ** What a deletion does *)

(** Nothing is added. *)
Definition shrinks (K K' : gmap PATH VALUES) : Prop :=
  forall q vs', K' !! q = Some vs' ->
    exists vs, K !! q = Some vs /\ forall n, vs !! n = None -> vs' !! n = None.

#[export] Instance shrinks_refl : Reflexive shrinks.
Proof. intros K q vs E. by exists vs. Qed.

#[export] Instance shrinks_trans : Transitive shrinks.
Proof.
  intros K1 K2 K3 H12 H23 q vs3 (vs2 & E2 & H2)%H23. destruct (H12 q vs2 E2) as (vs1 & E1 & H1).
  exists vs1. auto.
Qed.

Lemma shrinks_cleared K K' t : shrinks K K' -> cleared K t -> cleared K' t.
Proof.
  intros Hs. destruct t as [c|p n]; cbn [cleared].
  - intros Hc q Hq. destruct (K' !! q) as [vs'|] eqn:E; [|done].
    destruct (Hs q vs' E) as (vs & E' & _). by rewrite Hc in E'.
  - intros Hc vs' E. destruct (Hs p vs' E) as (vs & E' & Hn). apply Hn. by apply Hc.
Qed.

(** One target is deleted, and nothing else changes. *)
Definition deletes (t : TARGET) (K K' : gmap PATH VALUES) : Prop :=
  shrinks K K' /\ agree [t] K K' /\ cleared K' t.

Lemma deletes_nothing t K : cleared K t -> deletes t K K.
Proof. intros Hc. by split. Qed.

Lemma deletes_tree c K : deletes (KeyTarget c) K (filter (fun kv => ~ c `prefix_of` kv.1) K).
Proof.
  split; [|split].
  - intros q vs [E _]%map_lookup_filter_Some. by exists vs.
  - apply agree_filter. left.
  - intros q Hq. apply map_lookup_filter_None. right. intros vs _. cbn [fst]. tauto.
Qed.

Lemma deletes_value p n K : deletes (ValueTarget p n) K (alter (delete n) p K).
Proof.
  split; [|split].
  - intros q vs' E. apply lookup_alter_Some in E as [(<- & vs & E & ->)|[_ E]]; [|by exists vs'].
    exists vs. split; [done|]. intros m Hm. apply lookup_delete_None. by right.
  - apply (agree_alter _ _ _ n); [right; left|]. intros vs m Hm. by apply lookup_delete_ne.
  - intros vs' E. rewrite lookup_alter_eq in E. apply fmap_Some in E as (vs & _ & ->). apply lookup_delete_eq.
Qed.

Lemma agree_mono T T' K K' : T ⊆ T' -> agree T K K' -> agree T' K K'.
Proof.
  intros HT Ha q Hq. destruct (Ha q) as [HN HS].
  { intros (c & Hc & Hp). apply Hq. exists c. split; [by apply HT|done]. }
  split; [done|]. intros vs E. destruct (HS vs E) as (vs' & E' & Hvs). exists vs'. split; [done|].
  intros n Hn. apply Hvs. by intros ?%HT.
Qed.

Lemma not_below_tail (t : TARGET) (T : list TARGET) (K0 : gmap PATH VALUES) :
  (forall q, is_Some (K0 !! q) -> ~ below (t :: T) q) -> forall q, is_Some (K0 !! q) -> ~ below T q.
Proof. intros Hb q Hq (c & Hc & Hp). apply (Hb q Hq). exists c. split; [by right|done]. Qed.

Lemma deletes_kept (t : TARGET) (T : list TARGET) (K0 K K' : gmap PATH VALUES) :
  (forall q, is_Some (K0 !! q) -> ~ below (t :: T) q) -> deletes t K K' -> kept K0 K -> kept K0 K'.
Proof.
  intros Hb (_ & Ha & _). apply (agree_kept (t :: T)); [exact Hb|]. eapply agree_mono; [|exact Ha].
  intros x ->%list_elem_of_singleton. left.
Qed.

Lemma deletes_cons t T K K1 K2 :
  deletes t K K1 -> shrinks K1 K2 /\ agree T K1 K2 /\ Forall (cleared K2) T ->
  shrinks K K2 /\ agree (t :: T) K K2 /\ Forall (cleared K2) (t :: T).
Proof.
  intros (Hs1 & Ha1 & Hc1) (Hs2 & Ha2 & Hc2). split; [by etrans|]. split; [|constructor; [|done]].
  - etrans; (eapply agree_mono; [|eassumption]); intros x Hx; [|by right].
    apply list_elem_of_singleton in Hx as ->. left.
  - by apply (shrinks_cleared K1).
Qed.

Lemma not_found_is_success_spec err :
  not_found_is_success err = ERROR_SUCCESS -> err = ERROR_SUCCESS \/ err = ERROR_FILE_NOT_FOUND.
Proof.
  unfold not_found_is_success. destruct (Z.eqb_spec ERROR_FILE_NOT_FOUND err) as [<-|]; auto.
Qed.

(** ** Open keys *)

Section Loops.
Context (Key : Z) (root : PATH) (H0 : gmap Z PATH) (HKey : H0 !! Key = Some root).

(** The handle of the current key, which is the root or a key of its own. *)
Definition walk (w : W) (EntryKey : Z) (p : PATH) : Prop :=
  (EntryKey = 0 /\ p = root /\ held w = H0) \/
  (EntryKey <> 0 /\ H0 !! EntryKey = None /\ held w = <[EntryKey := p]> H0).

Lemma current_held w EntryKey p : walk w EntryKey p -> held w !! current Key EntryKey = Some p.
Proof using HKey.
  unfold current. intros [(-> & -> & ->)|(Hne & _ & ->)]; [done|].
  rewrite (proj2 (Z.eqb_neq 0 EntryKey)) by auto. apply lookup_insert_eq.
Qed.

Lemma close_entry_walk w EntryKey p :
  walk w EntryKey p -> exists w', close_entry w EntryKey = Some w' /\ keys w' = keys w /\ held w' = H0.
Proof using.
  unfold close_entry. intros [(-> & _ & E)|(Hne & Hfresh & E)]; [by exists w|].
  rewrite (proj2 (Z.eqb_neq 0 EntryKey)) by auto. destruct (rl_close w EntryKey) as (w' & -> & Ek & Eh).
  { rewrite E, lookup_insert_eq. by eexists. }
  exists w'. split; [done|]. split; [done|]. by rewrite Eh, E, delete_insert_id.
Qed.

(** A key that was opened takes the place of the one before. *)
Lemma step_down w w' EntryKey p h q :
  walk w EntryKey p -> h <> 0 -> held w !! h = None -> held w' = <[h := q]> (held w) ->
  exists w2, close_entry w' EntryKey = Some w2 /\ keys w2 = keys w' /\ walk w2 h q.
Proof using.
  intros Hw Hh Hfresh E. assert (H0 !! h = None) as Hh0.
  { destruct Hw as [(_ & _ & E')|(_ & _ & E')]; rewrite E' in Hfresh; [done|].
    by apply lookup_insert_None in Hfresh as [? _]. }
  unfold close_entry. destruct Hw as [(-> & _ & Eh)|(Hne & Hf & Eh)].
  { exists w'. split; [done|]. split; [done|]. right. by rewrite E, Eh. }
  rewrite (proj2 (Z.eqb_neq 0 EntryKey)) by auto.
  assert (h <> EntryKey) as Hhe by (intros ->; by rewrite Eh, lookup_insert_eq in Hfresh).
  destruct (rl_close w' EntryKey) as (w2 & -> & Ek & Eh2).
  { rewrite E, lookup_insert_ne, Eh, lookup_insert_eq by done. by eexists. }
  exists w2. split; [done|]. split; [done|]. right. split; [done|]. split; [done|].
  by rewrite Eh2, E, delete_insert_ne, Eh, delete_insert_id by done.
Qed.

(** ** Adding *)

(** What remains of the entries is about targets among [T]; after a key that is created, the current
    key is below it. *)
Definition ahead (T : list TARGET) (es : list REGENTRY) (p : PATH) (skip : bool) : Prop :=
  (forall q, targets root es (if skip then q else p) skip ⊆ T) /\ (skip = true -> below T p).

Lemma add_loop_spec T es EntryKey p skip added w :
  Forall entry_wf es -> walk w EntryKey p -> ahead T es p skip ->
  exists err EntryKey' p' added' w',
    add_loop Key es EntryKey added w = Some (err, EntryKey', added', w') /\
    walk w' EntryKey' p' /\ agree T (keys w) (keys w') /\
    (ReliableRegistry W -> forall K0, kept K0 (keys w) -> present K0 root es p skip = true ->
     is_Some (K0 !! root) -> is_Some (keys w !! p) -> err = ERROR_SUCCESS).
Proof using HKey.
  intros Hes. revert EntryKey p skip added w. induction Hes as [|e es He Hes IH]; intros EntryKey p skip added w Hw [Ht Hb].
  { exists ERROR_SUCCESS, EntryKey, p, added, w. do 3 (split; [done|]). done. }
  pose proof (current_held w EntryKey p Hw) as Hcur. cbn [add_loop targets present] in *.
  destruct (re_Value e) as [v|] eqn:Ev.
  - assert (below T p \/ ValueTarget p (fold_case (default [] (re_Name e))) ∈ T) as Hin.
    { destruct skip; [left; by apply Hb|right]. apply (Ht p). destruct (re_Name e); left. }
    destruct (rl_set w (current Key EntryKey) (re_Name e) p (re_Type e) v (re_Size e) Hcur) as (err & w' & E & Eh & Ek).
    assert (walk w' EntryKey p) as Hw' by (unfold walk; by rewrite Eh).
    assert (agree T (keys w) (keys w')) as Ha.
    { rewrite Ek. destruct (ERROR_SUCCESS =? err); [|done]. apply (agree_alter _ _ _ _ _ Hin).
      intros vs m Hm. by apply lookup_insert_ne. }
    assert (ahead T es p skip) as Hahead.
    { split; [|done]. intros q. specialize (Ht q). destruct skip; [by destruct (re_Name e)|].
      etrans; [|exact Ht]. destruct (re_Name e); intros t Hin'; by right. }
    assert (ReliableRegistry W -> is_Some (keys w !! p) -> err = ERROR_SUCCESS) as Hr.
    { intros Hrr Hp. exact (rr_set _ _ _ _ _ _ _ _ _ Hcur Hp E). }
    assert (forall K0, kept K0 (keys w) -> kept K0 (keys w')) as Hk.
    { intros K0 HK0. rewrite Ek. destruct (ERROR_SUCCESS =? err); [by apply kept_alter|done]. }
    destruct (IH EntryKey p skip added w' Hw' Hahead) as (err' & k' & p' & a' & w2 & E2 & Hw2 & Ha2 & Hr2).
    assert (forall K0, ReliableRegistry W -> kept K0 (keys w) -> present K0 root es p skip = true ->
      is_Some (K0 !! root) -> is_Some (keys w !! p) -> err' = ERROR_SUCCESS) as Hr'.
    { intros K0 Hrr HK0 Hpr Hroot Hp. apply (Hr2 Hrr K0 (Hk K0 HK0) Hpr Hroot). by apply (Hk _ (kept_refl _)). }
    destruct (re_Name e); rewrite E, bind_value;
      (destruct (Z.eqb_spec ERROR_SUCCESS err) as [_|Hne];
       [exists err', k', p', a', w2; split; [exact E2|]; split; [exact Hw2|]; split; [etrans; [exact Ha|exact Ha2]|];
        intros Hrr K0; by apply Hr'
       |exists err, EntryKey, p, added, w'; split; [done|]; split; [exact Hw'|]; split; [exact Ha|];
        intros; by apply Hr]).
  - destruct (re_Name e) as [n|] eqn:En.
    2: { destruct (close_entry_walk w EntryKey p Hw) as (w' & -> & Ek & Eh). rewrite bind_value.
         destruct (IH 0 root false added w') as (err' & k' & p' & a' & w2 & E2 & Hw2 & Ha2 & Hr2).
         - by left.
         - split; [|done]. intros q. by specialize (Ht q).
         - exists err', k', p', a', w2. split; [exact E2|]. split; [exact Hw2|]. rewrite Ek in Ha2, Hr2. split; [exact Ha2|].
           intros Hrr K0 HK0 Hpr Hroot _. apply (Hr2 Hrr K0); auto. }
    unfold entry_wf in He. rewrite En, Ev in He. cbn [default from_option id] in Ht.
    set (q := p ++ map fold_case (components n)) in *.
    assert (exists skip', skip' = skip || negb (0 =? re_Type e) /\ ahead T es q skip' /\
      (negb (0 =? re_Type e) = true -> below T q)) as (skip' & Hskip & Hahead & Hq).
    { destruct skip.
      - exists true. split; [done|]. split; [|intros _; by apply below_child, Hb]. split; [exact Ht|]. intros _. by apply below_child, Hb.
      - specialize (Ht p). destruct (0 =? re_Type e).
        + exists false. split; [done|]. by split.
        + assert (below T q) as Hq by (exists q; split; [apply Ht; left|done]).
          exists true. split; [done|]. split; [|done]. split; [|done]. intros q'. rewrite (targets_skip root es q' root).
          intros t Hin. apply Ht. by right. }
    assert (exists err h added' w', (if 0 =? re_Type e then
               '(err, TempKey, w) ← RegOpenKeyExW w (current Key EntryKey) (Some n); Some (err, TempKey, added, w)
             else
               '(err, TempKey, New, w) ← RegCreateKeyExW w (current Key EntryKey) (Some n);
               Some (err, TempKey, if (ERROR_SUCCESS =? err) && New then true else added, w)) =
        Some (err, h, added', w') /\ agree T (keys w) (keys w') /\
        (if ERROR_SUCCESS =? err then h <> 0 /\ held w !! h = None /\ held w' = <[h := q]> (held w)
         else held w' = held w) /\
        (ReliableRegistry W -> (re_Type e = 0 -> is_Some (keys w !! q)) -> is_Some (keys w !! p) ->
         err = ERROR_SUCCESS) /\
        (err = ERROR_SUCCESS -> is_Some (keys w' !! q)) /\
        (forall K0, kept K0 (keys w) -> kept K0 (keys w'))) as (err & h & added' & w' & -> & Ha & Hh & Hr & Hq' & Hk).
    { destruct (0 =? re_Type e) eqn:Ety.
      - destruct (rl_open w _ n p Hcur He) as (err & h & w' & E & Ek & Hh). rewrite E, bind_value.
        exists err, h, added, w'. rewrite Ek. apply Z.eqb_eq, eq_sym in Ety. split_and!; try done.
        + destruct (ERROR_SUCCESS =? err); [|done]. by destruct Hh as (_ & H1 & H2 & H3).
        + intros Hrr Hp _. exact (rr_open _ _ _ _ _ _ _ Hcur He (Hp Ety) E).
        + intros ->. by destruct Hh.
      - destruct (rl_create w _ n p Hcur He) as (err & h & new & w' & E & Hh). rewrite E, bind_value.
        assert (p ++ [fold_case n] = q) as Eq by (unfold q; by rewrite plain_components). rewrite Eq in Hh.
        assert (ReliableRegistry W -> is_Some (keys w !! p) -> err = ERROR_SUCCESS) as Hr.
        { intros Hrr Hp. exact (rr_create _ _ _ _ _ _ _ _ Hcur He Hp E). }
        eexists err, h, _, w'. split; [done|]. destruct (Z.eqb_spec ERROR_SUCCESS err) as [<-|Hne].
        2: { destruct Hh as [-> ->]. split_and!; auto; done. }
        destruct Hh as (Hnew & -> & H1 & H2 & H3).
        destruct new; [apply eq_sym, bool_decide_eq_true in Hnew|apply eq_sym, bool_decide_eq_false in Hnew];
          split_and!; auto; try done.
        + apply agree_insert. by apply Hq.
        + intros _. rewrite lookup_insert_eq. by eexists.
        + intros K0. apply kept_insert.
        + intros _. by apply not_eq_None_Some. }
    assert (forall K0, kept K0 (keys w) -> present K0 root (e :: es) p skip = true ->
      (re_Type e = 0 -> is_Some (keys w !! q)) /\ present K0 root es q skip' = true) as Hpresent.
    { intros K0 HK0. cbn [present]. rewrite En, Ev. cbn [default from_option id]. fold q.
      rewrite Hskip. destruct skip; cbn [orb].
      - rewrite andb_true_iff, negb_true_iff, Z.eqb_neq. intros [Hne Hpr]. split; [done|].
        by rewrite (present_skip _ _ _ q p).
      - destruct (Z.eqb_spec 0 (re_Type e)) as [_|Hne]; cbn [negb].
        + rewrite andb_true_iff. intros [Hs%bool_decide_eq_true Hpr]. split; [|done]. intros _. by apply HK0.
        + intros Hpr. split; [done|]. by rewrite (present_skip _ _ _ q root). }
    rewrite bind_value. destruct (ERROR_SUCCESS =? err) eqn:Eerr; cbn [negb].
    2: { exists err, EntryKey, p, added', w'. split; [done|]. split; [unfold walk; by rewrite Hh|]. split; [done|].
         intros Hrr K0 HK0 Hpr _ Hp. apply (Hr Hrr); [|done]. apply (Hpresent _ HK0). cbn [present]. by rewrite En, Ev. }
    destruct Hh as (H1 & H2 & H3). destruct (step_down w w' EntryKey p h q Hw H1 H2 H3) as (w2 & -> & Ek2 & Hw2).
    rewrite bind_value. destruct (IH h q skip' added' w2 Hw2 Hahead) as (err' & k' & p' & a' & w3 & E3 & Hw3 & Ha3 & Hr3).
    rewrite Ek2 in Ha3, Hr3. exists err', k', p', a', w3.
    split; [exact E3|]. split; [exact Hw3|]. split; [by etrans|].
    intros Hrr K0 HK0 Hpr Hroot _. apply (Hr3 Hrr K0); [by apply Hk|apply (Hpresent _ HK0); cbn [present]; by rewrite En, Ev|done|].
    apply Hq'. by apply eq_sym, Z.eqb_eq.
Qed.

(** ** Deleting *)

Lemma delete_loop_spec es EntryKey p skip deleted w :
  Forall entry_wf es -> walk w EntryKey p ->
  exists err EntryKey' p' deleted' w',
    delete_loop Key es EntryKey skip deleted w = Some (err, EntryKey', deleted', w') /\
    walk w' EntryKey' p' /\
    (err = ERROR_SUCCESS -> shrinks (keys w) (keys w') /\
       agree (targets root es p skip) (keys w) (keys w') /\
       Forall (cleared (keys w')) (targets root es p skip)) /\
    (ReliableRegistry W -> forall K0, kept K0 (keys w) -> present K0 root es p skip = true ->
     (forall q, is_Some (K0 !! q) -> ~ below (targets root es p skip) q) ->
     is_Some (K0 !! root) -> is_Some (K0 !! p) -> err = ERROR_SUCCESS).
Proof using HKey.
  intros Hes. revert EntryKey p skip deleted w.
  induction Hes as [|e es He Hes IH]; intros EntryKey p skip deleted w Hw.
  { exists ERROR_SUCCESS, EntryKey, p, deleted, w. cbn [targets]. do 3 (split; [done|]). done. }
  pose proof (current_held w EntryKey p Hw) as Hcur. cbn [delete_loop targets present].
  destruct (re_Value e) as [v|] eqn:Ev.
  - destruct skip; [destruct (re_Name e); by apply IH|].
    destruct (rl_delete_value w (current Key EntryKey) (re_Name e) p Hcur) as (err & w' & E & Eh & Hs & Hn).
    assert (walk w' EntryKey p) as Hw' by (unfold walk; by rewrite Eh).
    assert (ReliableRegistry W -> is_Some (keys w !! p) -> not_found_is_success err = ERROR_SUCCESS) as Hr.
    { intros Hrr Hp. by destruct (rr_delete_value _ _ _ _ _ _ Hcur Hp E) as [-> | ->]. }
    set (t := ValueTarget p (fold_case (default [] (re_Name e)))).
    assert (not_found_is_success err = ERROR_SUCCESS -> deletes t (keys w) (keys w')) as Hdel.
    { intros [-> | ->]%not_found_is_success_spec.
      - rewrite (Hs eq_refl). apply deletes_value.
      - destruct (Hn eq_refl) as [Hc ->]. by apply deletes_nothing. }
    destruct (IH EntryKey p false deleted w' Hw') as (err' & k' & p' & d' & w2 & E2 & Hw2 & Hd & Hr2).
    unfold t in *. clear t. destruct (re_Name e) as [n|] eqn:En; rewrite ?En in E, Hdel; rewrite E, bind_value; cbv zeta;
      (destruct (Z.eqb_spec ERROR_SUCCESS (not_found_is_success err)) as [Eerr|Hne]; cbn [negb];
       [apply eq_sym, Hdel in Eerr; exists err', k', p', d', w2; split; [exact E2|]; split; [exact Hw2|]; split;
        [intros Hok; apply deletes_cons with (keys w'); [exact Eerr|by apply Hd]|];
        intros Hrr K0 HK0 Hpr Hb; apply (Hr2 Hrr K0); [|exact Hpr|exact (not_below_tail _ _ _ Hb)];
        exact (deletes_kept _ _ _ _ _ Hb Eerr HK0)
       |exists (not_found_is_success err), EntryKey, p, deleted, w'; split; [done|]; split; [done|]; split;
        [intros Hok; by rewrite Hok in Hne|];
        intros Hrr K0 HK0 Hpr Hb Hroot Hp; apply (Hr Hrr); by apply HK0]).
  - destruct (re_Name e) as [n|] eqn:En.
    2: { destruct (close_entry_walk w EntryKey p Hw) as (w' & -> & Ek & Eh). rewrite bind_value.
         destruct (IH 0 root false deleted w') as (err' & k' & p' & d' & w2 & E2 & Hw2 & Hd & Hr2); [by left|].
         rewrite Ek in Hd, Hr2. exists err', k', p', d', w2. split; [done|]. split; [done|]. split; [done|].
         intros Hrr K0 HK0 Hpr Hb Hroot _. by apply (Hr2 Hrr K0). }
    destruct skip.
    { destruct (IH EntryKey p true deleted w Hw) as (err' & k' & p' & d' & w2 & E2 & Hw2 & Hd & Hr2).
      exists err', k', p', d', w2. split; [done|]. split; [done|]. split; [done|].
      intros Hrr K0 HK0 [_ Hpr]%andb_true_iff. by apply (Hr2 Hrr K0). }
    unfold entry_wf in He. rewrite En, Ev in He. cbn [default from_option id].
    destruct (0 =? re_Type e) eqn:Ety; cbv zeta.
    + destruct (rl_open w _ n p Hcur He) as (err & h & w' & E & Ek & Hh). rewrite E, !bind_value.
      set (q := p ++ map fold_case (components n)) in *.
      destruct (ERROR_SUCCESS =? err) eqn:Eerr; cbn [negb].
      2: { exists err, EntryKey, p, deleted, w'. split; [done|]. split; [unfold walk; by rewrite Hh|].
           split; [intros ->; done|]. intros Hrr K0 HK0 [Hs%bool_decide_eq_true _]%andb_true_iff _ _ _.
           exact (rr_open _ _ _ _ _ _ _ Hcur He (HK0 _ Hs) E). }
      destruct Hh as (_ & H1 & H2 & H3).
      destruct (step_down w w' EntryKey p h _ Hw H1 H2 H3) as (w2 & -> & Ek2 & Hw2).
      rewrite bind_value. destruct (IH h q false deleted w2 Hw2) as (err' & k' & p' & d' & w3 & E3 & Hw3 & Hd & Hr3).
      rewrite Ek2, Ek in Hd, Hr3. exists err', k', p', d', w3. split; [done|]. split; [done|]. split; [done|].
      intros Hrr K0 HK0 [Hs%bool_decide_eq_true Hpr]%andb_true_iff Hb Hroot _. by apply (Hr3 Hrr K0).
    + rewrite plain_components by done. cbn [map].
      destruct (rl_delete_tree w _ n p Hcur He) as (err & w' & E & Eh & Hs & Hn). rewrite E, !bind_value.
      assert (walk w' EntryKey p) as Hw' by (unfold walk; by rewrite Eh).
      set (t := KeyTarget (p ++ [fold_case n])).
      destruct (ERROR_SUCCESS =? not_found_is_success err) eqn:Eerr; cbn [negb].
      2: { eexists _, EntryKey, p, _, w'. split; [reflexivity|]. split; [done|]. split.
           - intros Hok. by rewrite Hok in Eerr.
           - intros Hrr _ _ _ _ _ _. by destruct (rr_delete_tree _ _ _ _ _ _ Hcur He E) as [-> | ->]. }
      assert (deletes t (keys w) (keys w')) as Hdel.
      { apply Z.eqb_eq, eq_sym, not_found_is_success_spec in Eerr as [-> | ->].
        - rewrite (Hs eq_refl). apply deletes_tree.
        - destruct (Hn eq_refl) as [Hc ->]. by apply deletes_nothing. }
      destruct (close_entry_walk w' EntryKey p Hw') as (w2 & -> & Ek2 & Eh2). rewrite bind_value.
      edestruct (IH 0 root true) as (err' & k' & p' & d' & w3 & E3 & Hw3 & Hd & Hr3); [by left|].
      rewrite Ek2 in Hd, Hr3.
      eexists err', k', p', d', w3. split; [exact E3|]. split; [exact Hw3|]. split.
      * intros Hok. apply deletes_cons with (keys w'); [exact Hdel|by apply Hd].
      * intros Hrr K0 HK0 Hpr Hb Hroot _. apply (Hr3 Hrr K0); [|exact Hpr|exact (not_below_tail _ _ _ Hb)|done|done].
        exact (deletes_kept _ _ _ _ _ Hb Hdel HK0).
Qed.
End Loops.

(** ** Both loops, from the root *)

Lemma RegAddEntries_spec Key root Entries w T :
  held w !! Key = Some root -> Forall entry_wf Entries -> targets root Entries root false ⊆ T ->
  exists err added w', RegAddEntries Key Entries w = Some (err, added, w') /\
    held w' = held w /\ agree T (keys w) (keys w') /\
    (ReliableRegistry W -> forall K0, kept K0 (keys w) -> present K0 root Entries root false = true ->
     is_Some (K0 !! root) -> err = ERROR_SUCCESS).
Proof using.
  intros HKey Hes HT.
  destruct (add_loop_spec Key root (held w) HKey T Entries 0 root false false w Hes) as
    (err & k & p & added & w1 & E & Hw & Ha & Hr); [by left| |].
  { split; [|done]. intros q. exact HT. }
  unfold RegAddEntries. rewrite E, bind_value.
  destruct (close_entry_walk root (held w) w1 k p Hw) as (w2 & -> & Ek & Eh). rewrite bind_value.
  exists err, added, w2. rewrite Ek. do 3 (split; [done|]). intros Hrr K0 HK0 Hpr Hroot.
  apply (Hr Hrr K0 HK0 Hpr Hroot). by apply HK0.
Qed.

Lemma RegDeleteEntries_spec Key root Entries w :
  held w !! Key = Some root -> Forall entry_wf Entries ->
  exists err deleted w', RegDeleteEntries Key Entries w = Some (err, deleted, w') /\
    held w' = held w /\
    (err = ERROR_SUCCESS -> shrinks (keys w) (keys w') /\
       agree (targets root Entries root false) (keys w) (keys w') /\
       Forall (cleared (keys w')) (targets root Entries root false)) /\
    (ReliableRegistry W -> forall K0, kept K0 (keys w) -> present K0 root Entries root false = true ->
     (forall q, is_Some (K0 !! q) -> ~ below (targets root Entries root false) q) ->
     is_Some (K0 !! root) -> err = ERROR_SUCCESS).
Proof using.
  intros HKey Hes.
  destruct (delete_loop_spec Key root (held w) HKey Entries 0 root false false w Hes) as
    (err & k & p & deleted & w1 & E & Hw & Hd & Hr); [by left|].
  unfold RegDeleteEntries. rewrite E, bind_value.
  destruct (close_entry_walk root (held w) w1 k p Hw) as (w2 & -> & Ek & Eh). rewrite bind_value.
  exists err, deleted, w2. rewrite Ek. do 3 (split; [done|]). intros Hrr K0 HK0 Hpr Hb Hroot.
  by apply (Hr Hrr K0).
Qed.

(** Deleting the entries of a list undoes their addition.  Both calls walk the keys without ever
    using one that is not open, and leave exactly the keys open that were open before, whatever
    fails.  Where nothing of the entries was in the registry, a deletion that succeeds gives the
    registry back, after an addition that succeeded and after one that failed half way. *)
Lemma reg_add_delete_roundtrip Key root Entries w :
  held w !! Key = Some root -> Forall entry_wf Entries ->
  Forall (cleared (keys w)) (targets root Entries root false) ->
  exists err added w1,
    RegAddEntries Key Entries w = Some (err, added, w1) /\ held w1 = held w /\
    agree (targets root Entries root false) (keys w) (keys w1) /\
    exists err' deleted w2,
      RegDeleteEntries Key Entries w1 = Some (err', deleted, w2) /\ held w2 = held w /\
      (err' = ERROR_SUCCESS -> keys w2 = keys w).
Proof using.
  intros HKey Hes Hc.
  destruct (RegAddEntries_spec Key root Entries w _ HKey Hes (reflexivity _)) as (err & added & w1 & E1 & H1 & A1 & _).
  exists err, added, w1. do 3 (split; [done|]). rewrite <-H1 in HKey.
  destruct (RegDeleteEntries_spec Key root Entries w1 HKey Hes) as (err' & deleted & w2 & E2 & H2 & Hd & _).
  exists err', deleted, w2. split; [done|]. split; [by rewrite H2|]. intros (_ & A2 & C2)%Hd.
  apply (agree_cleared _ _ _ (transitivity A1 A2) Hc C2).
Qed.
End Walk.

(** ** A registry that is a map *)

Record MAP_REGISTRY := mkMapRegistry { mr_keys : gmap PATH VALUES; mr_held : gmap Z PATH }.

Definition fold_upper (n : list Z) : list Z := map (fun c => if (97 <=? c) && (c <=? 122) then c - 32 else c) n.

(** A new handle. *)
Definition mr_fresh (w : MAP_REGISTRY) : Z := fresh (0 :: (map_to_list (mr_held w)).*1).

Definition mr_hold (w : MAP_REGISTRY) (q : PATH) : MAP_REGISTRY :=
  mkMapRegistry (mr_keys w) (<[mr_fresh w := q]> (mr_held w)).

Definition mr_path (p : PATH) (n : option (list Z)) : PATH := p ++ map fold_upper (components (default [] n)).

#[local] Definition mr_open (w : MAP_REGISTRY) (k : Z) (n : option (list Z)) : option (Z * Z * MAP_REGISTRY) :=
  p ← mr_held w !! k;
  Some (if decide (is_Some (mr_keys w !! mr_path p n))
        then (ERROR_SUCCESS, mr_fresh w, mr_hold w (mr_path p n))
        else (ERROR_FILE_NOT_FOUND, 0, w)).

#[local] Definition mr_create (w : MAP_REGISTRY) (k : Z) (n : option (list Z)) : option (Z * Z * bool * MAP_REGISTRY) :=
  p ← mr_held w !! k;
  let new := bool_decide (mr_keys w !! mr_path p n = None) in
  let w' := mr_hold w (mr_path p n) in
  Some (ERROR_SUCCESS, mr_fresh w, new,
        mkMapRegistry (if new then <[mr_path p n := ∅]> (mr_keys w') else mr_keys w') (mr_held w')).

#[local] Definition mr_close (w : MAP_REGISTRY) (k : Z) : option MAP_REGISTRY :=
  _ ← mr_held w !! k; Some (mkMapRegistry (mr_keys w) (delete k (mr_held w))).

#[local] Definition mr_set (w : MAP_REGISTRY) (k : Z) (n : option (list Z)) (ty : Z) (v : list Z) (size : Z)
    : option (Z * MAP_REGISTRY) :=
  p ← mr_held w !! k;
  Some (ERROR_SUCCESS,
        mkMapRegistry (alter <[fold_upper (default [] n) := (ty, take (Z.to_nat size) v)]> p (mr_keys w))
          (mr_held w)).

#[local] Definition mr_delete_tree (w : MAP_REGISTRY) (k : Z) (n : option (list Z)) : option (Z * MAP_REGISTRY) :=
  p ← mr_held w !! k;
  let K := filter (fun kv : PATH * VALUES => ~ mr_path p n `prefix_of` kv.1) (mr_keys w) in
  Some (if decide (K = mr_keys w) then (ERROR_FILE_NOT_FOUND, w)
        else (ERROR_SUCCESS, mkMapRegistry K (mr_held w))).

#[local] Definition mr_delete_value (w : MAP_REGISTRY) (k : Z) (n : option (list Z)) : option (Z * MAP_REGISTRY) :=
  p ← mr_held w !! k;
  Some (if decide (mr_keys w !! p ≫= (.!! fold_upper (default [] n)) = None) then (ERROR_FILE_NOT_FOUND, w)
        else (ERROR_SUCCESS,
              mkMapRegistry (alter (delete (fold_upper (default [] n))) p (mr_keys w)) (mr_held w))).

#[export] Instance map_registry : Registry MAP_REGISTRY := {|
  RegOpenKeyExW := mr_open; RegCreateKeyExW := mr_create; RegCloseKey := mr_close;
  RegSetValueExW := mr_set; RegDeleteTree := mr_delete_tree; RegDeleteValue := mr_delete_value
|}.

Lemma mr_fresh_spec w : mr_fresh w <> 0 /\ mr_held w !! mr_fresh w = None.
Proof.
  pose proof (infinite_is_fresh (0 :: (map_to_list (mr_held w)).*1)) as Hf.
  apply not_elem_of_cons in Hf as [Hne Hf]. split; [done|]. apply eq_None_not_Some. intros [q E]. apply Hf.
  apply list_elem_of_fmap. exists (mr_fresh w, q). split; [done|]. by apply elem_of_map_to_list.
Qed.

#[export, program] Instance map_registry_laws : RegistryLaws MAP_REGISTRY := {|
  fold_case := fold_upper; keys := mr_keys; held := mr_held
|}.
Next Obligation.
  intros w k n p E Hn. cbn [RegOpenKeyExW map_registry].
  unfold mr_open.
  rewrite E. cbn [mbind option_bind].
  change (mr_path p (Some n)) with (p ++ map fold_upper (components n)).
  destruct (decide _) as [Hs|]; [|by eexists _, _, _].
  eexists ERROR_SUCCESS, _, _. split; [done|]. pose proof (mr_fresh_spec w) as []. by split_and!.
Qed.
Next Obligation.
  intros w k n p E Hn. cbn [RegCreateKeyExW map_registry]. unfold mr_create. rewrite E. cbn [mbind option_bind].
  unfold mr_path. cbn [default from_option id]. rewrite plain_components by done. cbn [map].
  eexists ERROR_SUCCESS, _, _, _. split; [done|]. pose proof (mr_fresh_spec w) as []. by split_and!.
Qed.
Next Obligation.
  intros w k [p E]. cbn [RegCloseKey map_registry]. unfold mr_close. rewrite E. eexists. split; [reflexivity|]. done. Qed.
Next Obligation. intros w k n p ty v size E. cbn [RegSetValueExW map_registry]. unfold mr_set. rewrite E. by eexists _, _. Qed.
Next Obligation.
  intros w k n p E Hn. cbn [RegDeleteTree map_registry]. unfold mr_delete_tree. rewrite E. cbn [mbind option_bind].
  unfold mr_path. cbn [default from_option id]. rewrite plain_components by done. cbn [map].
  destruct (decide _) as [Hk|]; eexists _, _; (split; [done|]); (split; [done|]); split; try done.
  intros _. split; [|done]. intros q Hq. rewrite <-Hk. apply map_lookup_filter_None. right. cbn [fst]. tauto.
Qed.
Next Obligation.
  intros w k n p E. cbn [RegDeleteValue map_registry]. unfold mr_delete_value. rewrite E. cbn [mbind option_bind].
  destruct (decide _) as [Hk|]; eexists _, _; (split; [done|]); (split; [done|]); split; try done.
  intros _. split; [|done]. intros vs Evs. by rewrite Evs in Hk.
Qed.

#[export] Instance map_registry_reliable : ReliableRegistry MAP_REGISTRY.
Proof.
  split.
  - intros w k n p err h w' E Hn Hs. cbn [RegOpenKeyExW map_registry held keys fold_case map_registry_laws] in *.
    unfold mr_open. rewrite E. cbn [mbind option_bind].
    change (mr_path p (Some n)) with (p ++ map fold_upper (components n)). destruct (decide _); [congruence|done].
  - intros w k n p err h new w' E Hn Hs. cbn [RegCreateKeyExW map_registry held map_registry_laws] in *.
    unfold mr_create. rewrite E. cbn [mbind option_bind]. congruence.
  - intros w k n p ty v size err w' E Hs. cbn [RegSetValueExW map_registry held map_registry_laws] in *.
    unfold mr_set. rewrite E. cbn [mbind option_bind]. congruence.
  - intros w k n p err w' E Hn. cbn [RegDeleteTree map_registry held map_registry_laws] in *.
    unfold mr_delete_tree. rewrite E. cbn [mbind option_bind]. destruct (decide _); intros [= <- _]; auto.
  - intros w k n p err w' E Hs. cbn [RegDeleteValue map_registry held map_registry_laws] in *.
    unfold mr_delete_value. rewrite E. cbn [mbind option_bind]. destruct (decide _); intros [= <- _]; auto.
Qed.
