(* ===== verification/ShellCom.v ===== *)
(** * The server of the shell extension: [shellex/com.hpp], [shellex/command.hpp], [shellex/library.cpp]

    The classes of the server and their registration, and the objects with their counts of
    references.  An object that is used after it was deleted is a fault. *)

From S2P Require Import Prelude Wdk IoctlTypes Text RegUtil.

Definition S_OK := 0.
Definition S_FALSE := 1.
Definition E_NOINTERFACE := 0x80004002.
Definition E_OUTOFMEMORY := 0x8007000E.
Definition CLASS_E_NOAGGREGATION := 0x80040110.
Definition CLASS_E_CLASSNOTAVAILABLE := 0x80040111.
Definition REG_SZ := 1.
Definition HKEY_LOCAL_MACHINE := 0x80000002.
Definition MAX_PATH := 260.

(** [HRESULT_FROM_WIN32], of a [DWORD] *)
Definition HRESULT_FROM_WIN32 (x : Z) : Z :=
  if (x =? 0) || (2 ^ 31 <=? x) then x else (x .& 0xffff) .| 0x80070000.

(** ** Registration *)

(** What a class tells the server; [cc_Entries] are those of its [Register]. *)
Record COCLASS := mkClass {
  cc_Clsid : GUID; cc_ThreadingModel : option (list Z); cc_Entries : list REGENTRY
}.

Section Server.
Context {W : Type} {R : Registry W}.
Context (StringFromGUID2 : GUID -> list Z).

(** [Register] of a class. *)
Definition Register (Class : COCLASS) (Flag : bool) (w : W) : option (Z * W) :=
  '(err, _, w) ← (if Flag then RegAddEntries HKEY_LOCAL_MACHINE (cc_Entries Class) w
                  else RegDeleteEntries HKEY_LOCAL_MACHINE (cc_Entries Class) w);
  Some (HRESULT_FROM_WIN32 err, w).

(** [loop_exit] *)
Definition loop_exit (Result GuidKey InProcKey : Z) (w : W) : option (Z * W) :=
  w ← close_entry w InProcKey; w ← close_entry w GuidKey; Some (Result, w).

(** The value of the threading model, if the class has one. *)
Definition set_threading_model (Class : COCLASS) (InProcKey : Z) (w : W) : option (Z * W) :=
  match cc_ThreadingModel Class with
  | None => Some (S_OK, w)
  | Some Model =>
      '(err, w) ← RegSetValueExW w InProcKey (Some (lit "ThreadingModel")) REG_SZ (wide_sz Model)
                    ((Z.of_nat (length Model) + 1) * 2);
      Some (HRESULT_FROM_WIN32 err, w)
  end.

(** The body of the loop of [RegisterServer]. *)
Definition register_class (ClassesKey : Z) (ModuleFileName : list Z) (Class : COCLASS) (w : W) : option (Z * W) :=
  '(err, GuidKey, _, w) ← RegCreateKeyExW w ClassesKey (Some (StringFromGUID2 (cc_Clsid Class)));
  let Result := HRESULT_FROM_WIN32 err in
  if negb (S_OK =? Result) then loop_exit Result 0 0 w
  else
    '(err, InProcKey, _, w) ← RegCreateKeyExW w GuidKey (Some (lit "InProcServer32"));
    let Result := HRESULT_FROM_WIN32 err in
    if negb (S_OK =? Result) then loop_exit Result GuidKey 0 w
    else
      '(err, w) ← RegSetValueExW w InProcKey None REG_SZ (wide_sz ModuleFileName)
                    ((Z.of_nat (length ModuleFileName) + 1) * 2);
      let Result := HRESULT_FROM_WIN32 err in
      if negb (S_OK =? Result) then loop_exit Result GuidKey InProcKey w
      else
        '(Result, w) ← set_threading_model Class InProcKey w;
        if negb (S_OK =? Result) then loop_exit Result GuidKey InProcKey w
        else
          '(Result, w) ← Register Class true w;
          loop_exit Result GuidKey InProcKey w.

Fixpoint register_loop (ClassesKey : Z) (ModuleFileName : list Z) (Classes : list COCLASS) (Result : Z) (w : W)
    : option (Z * W) :=
  match Classes with
  | [] => Some (Result, w)
  | Class :: Classes =>
      '(Result, w) ← register_class ClassesKey ModuleFileName Class w;
      if negb (S_OK =? Result) then Some (Result, w)
      else register_loop ClassesKey ModuleFileName Classes Result w
  end.

Definition CLSID_KEY : list Z := lit "SOFTWARE\Classes\CLSID".

(** [CoClass::RegisterServer]; [Module] is the name of the module, or the error. *)
Definition RegisterServer (Module : Z + list Z) (Classes : list COCLASS) (w : W) : option (Z * W) :=
  match Module with
  | inl LastError => Some (HRESULT_FROM_WIN32 LastError, w)
  | inr ModuleFileName =>
      '(err, ClassesKey, w) ← RegOpenKeyExW w HKEY_LOCAL_MACHINE (Some CLSID_KEY);
      let Result := HRESULT_FROM_WIN32 err in
      if negb (S_OK =? Result) then Some (Result, w)
      else
        '(Result, w) ← register_loop ClassesKey ModuleFileName Classes Result w;
        w ← RegCloseKey w ClassesKey;
        Some (Result, w)
  end.

(** The loop of [UnregisterServer], which goes on whatever fails. *)
Fixpoint unregister_loop (ClassesKey : Z) (Classes : list COCLASS) (w : W) : option W :=
  match Classes with
  | [] => Some w
  | Class :: Classes =>
      '(_, w) ← Register Class false w;
      '(_, w) ← RegDeleteTree w ClassesKey (Some (StringFromGUID2 (cc_Clsid Class)));
      unregister_loop ClassesKey Classes w
  end.

(** [CoClass::UnregisterServer] *)
Definition UnregisterServer (Classes : list COCLASS) (w : W) : option (Z * W) :=
  '(err, ClassesKey, w) ← RegOpenKeyExW w HKEY_LOCAL_MACHINE (Some CLSID_KEY);
  let Result := HRESULT_FROM_WIN32 err in
  if negb (S_OK =? Result) then Some (Result, w)
  else
    w ← unregister_loop ClassesKey Classes w;
    w ← RegCloseKey w ClassesKey;
    Some (Result, w).

(** [DllRegisterServer] and [DllUnregisterServer]: the result, and whether the shell is told. *)
Definition DllRegisterServer (Module : Z + list Z) (Classes : list COCLASS) (w : W) : option (Z * bool * W) :=
  '(Result, w) ← RegisterServer Module Classes w; Some (Result, S_OK =? Result, w).
Definition DllUnregisterServer (Classes : list COCLASS) (w : W) : option (Z * bool * W) :=
  '(Result, w) ← UnregisterServer Classes w; Some (Result, S_OK =? Result, w).

(** ** The classes *)

Definition key (Name : string) (Type_ : Z) : REGENTRY := mkEntry (Some (lit Name)) Type_ None 0.
Definition value (Name : option string) (Text : list Z) : REGENTRY :=
  mkEntry (lit <$> Name) REG_SZ (Some (wide_sz Text)) ((Z.of_nat (length Text) + 1) * 2).

Definition Eject_Clsid : GUID := mkGUID 0x18f72bbe 0xce30 0x4eba [0x86; 0x91; 0x91; 0x1d; 0x15; 0x8a; 0x88; 0x3c].
Definition Mount_Clsid : GUID := mkGUID 0x62ad20c1 0x8f38 0x452a [0xab; 0x7a; 0xf2; 0x81; 0x00; 0x4d; 0x02; 0x83].

(** [EjectContextMenu::Register] *)
Definition Eject_Entries : list REGENTRY :=
  [key "SOFTWARE\Classes" 0; key "Drive" 0; key "shellex\ContextMenuHandlers" 0; key "WinSpd.Eject" 1;
   value None (StringFromGUID2 Eject_Clsid)].

(** [MountCommand::Register]; the text of the icon is empty if the shell does not tell it. *)
Definition Mount_Entries (DefaultIcon : list Z) : list REGENTRY :=
  let GuidStr := StringFromGUID2 Mount_Clsid in
  [key "SOFTWARE\Classes" 0; key "WinSpd.DiskFile" 1; value None (lit "WinSpd Disk File");
   key "shell" 1; key "open" 1; value None (lit "Mount"); value (Some "MultiSelectModel"%string) (lit "Document");
   key "command" 1; value (Some "DelegateExecute"%string) GuidStr; mkEntry None 0 None 0;
   key "SOFTWARE\Classes" 0; key "WinSpd.DiskFile" 1; key "DefaultIcon" 1; value None DefaultIcon].

(** The list of the classes, the last that was constructed first. *)
Definition ClassList (DefaultIcon : list Z) : list COCLASS :=
  [mkClass Eject_Clsid (Some (lit "Apartment")) Eject_Entries;
   mkClass Mount_Clsid (Some (lit "Apartment")) (Mount_Entries DefaultIcon)].
End Server.

(** ** Objects *)

(** The interfaces that the sources name; any other has a number. *)
Inductive INTERFACE :=
  | IUnknown | IClassFactory
  | IInitializeCommand | IObjectWithSelection | IExecuteCommand | IExplorerCommandState
  | IShellExtInit | IContextMenu
  | IOther (n : Z).

#[export] Instance INTERFACE_eq_dec : EqDecision INTERFACE.
Proof. solve_decision. Defined.

(** The two classes of objects, with their interfaces in their order. *)
Inductive COOBJECT_CLASS := Command | ContextMenu.

Definition Interfaces (k : COOBJECT_CLASS) : list INTERFACE :=
  match k with
  | Command => [IInitializeCommand; IObjectWithSelection; IExecuteCommand; IExplorerCommandState]
  | ContextMenu => [IShellExtInit; IContextMenu]
  end.

(** An object: its count, its class, and the array that a command has selected (0 if none). *)
Record COOBJECT := mkObject { co_RefCnt : Z; co_Class : COOBJECT_CLASS; co_Array : Z }.

(** The global count, the objects that live, and for each array how many references to it the
    objects have taken and not released. *)
Record COM := mkCom { com_RefCnt : Z; com_Objects : gmap Z COOBJECT; com_Taken : gmap Z Z }.

Definition int32 (v : Z) : Z := (v + 2 ^ 31) mod 2 ^ 32 - 2 ^ 31.

Definition GlobalRefCnt (v : Z) (c : COM) : COM :=
  mkCom (int32 (com_RefCnt c + v)) (com_Objects c) (com_Taken c).

Definition set_object (o : Z) (ob : COOBJECT) (c : COM) : COM :=
  mkCom (com_RefCnt c) (<[o := ob]> (com_Objects c)) (com_Taken c).

(** [Array->AddRef()] and [Array->Release()], if there is an array. *)
Definition taken (c : COM) (A : Z) : Z := default 0 (com_Taken c !! A).
Definition take_array (A v : Z) (c : COM) : COM :=
  if negb (0 =? A) then mkCom (com_RefCnt c) (com_Objects c) (<[A := taken c A + v]> (com_Taken c)) else c.

Definition AddRef (o : Z) (c : COM) : option (Z * COM) :=
  ob ← com_Objects c !! o;
  let RefCnt := u32 (co_RefCnt ob + 1) in
  Some (RefCnt, set_object o (mkObject RefCnt (co_Class ob) (co_Array ob)) c).

(** [delete this], with the destructor of the class and that of [CoObject]. *)
Definition delete_object (o : Z) (ob : COOBJECT) (c : COM) : COM :=
  let c := take_array (co_Array ob) (-1) c in
  GlobalRefCnt (-1) (mkCom (com_RefCnt c) (delete o (com_Objects c)) (com_Taken c)).

Definition Release (o : Z) (c : COM) : option (Z * COM) :=
  ob ← com_Objects c !! o;
  let RefCnt := u32 (co_RefCnt ob - 1) in
  let c := set_object o (mkObject RefCnt (co_Class ob) (co_Array ob)) c in
  Some (RefCnt, if 0 =? RefCnt then delete_object o ob c else c).

(** [QueryInterfaces]: the result, and the interface that the pointer is to, if it is not null. *)
Fixpoint QueryInterfaces (Is : list INTERFACE) (o : Z) (Iid : INTERFACE) (c : COM)
    : option (Z * option INTERFACE * COM) :=
  match Is with
  | [] => Some (E_NOINTERFACE, None, c)
  | Interface :: Is =>
      if bool_decide (Interface = Iid) || bool_decide (IUnknown = Iid) then
        '(_, c) ← AddRef o c; Some (S_OK, Some Interface, c)
      else QueryInterfaces Is o Iid c
  end.

Definition QueryInterface (o : Z) (Iid : INTERFACE) (c : COM) : option (Z * option INTERFACE * COM) :=
  ob ← com_Objects c !! o; QueryInterfaces (Interfaces (co_Class ob)) o Iid c.

(** [CoClassOf::CreateInstance]; [o] is what [new] gives. *)
Definition CreateInstance_ (k : COOBJECT_CLASS) (o : Z) (Iid : INTERFACE) (c : COM)
    : option (Z * option INTERFACE * COM) :=
  if 0 =? o then Some (E_OUTOFMEMORY, None, c)
  else
    let c := set_object o (mkObject 1 k 0) (GlobalRefCnt 1 c) in
    '(Result, P, c) ← QueryInterface o Iid c;
    '(_, c) ← Release o c;
    Some (Result, P, c).

(** [CoClass::CreateInstance], [CoClass::QueryInterface], [CoClass::LockServer]. *)
Definition CreateInstance (Outer : bool) (k : COOBJECT_CLASS) (o : Z) (Iid : INTERFACE) (c : COM)
    : option (Z * option INTERFACE * COM) :=
  if Outer then Some (CLASS_E_NOAGGREGATION, None, c) else CreateInstance_ k o Iid c.

Definition ClassQueryInterface (Iid : INTERFACE) : Z * option INTERFACE :=
  if bool_decide (IClassFactory = Iid) || bool_decide (IUnknown = Iid) then (S_OK, Some IClassFactory)
  else (E_NOINTERFACE, None).

Definition LockServer (Lock : bool) (c : COM) : COM := GlobalRefCnt (if Lock then 1 else -1) c.

(** [CoClass::GetClassObject]: the result, and the class and the interface of the pointer. *)
Fixpoint GetClassObject (Classes : list COCLASS) (Clsid : GUID) (Iid : INTERFACE)
    : Z * option (COCLASS * INTERFACE) :=
  match Classes with
  | [] => (CLASS_E_CLASSNOTAVAILABLE, None)
  | Class :: Classes =>
      if bool_decide (Clsid = cc_Clsid Class) then
        let '(Result, P) := ClassQueryInterface Iid in (Result, (Class,.) <$> P)
      else GetClassObject Classes Clsid Iid
  end.

Definition CanUnloadNow (c : COM) : Z := if 0 =? com_RefCnt c then S_OK else S_FALSE.

(** [Command::SetSelection] *)
Definition SetSelection (o : Z) (Array : Z) (c : COM) : option (Z * COM) :=
  ob ← com_Objects c !! o;
  let c := take_array (co_Array ob) (-1) c in
  let c := take_array Array 1 c in
  Some (S_OK, set_object o (mkObject (co_RefCnt ob) (co_Class ob) Array) c).

(** ** Clients *)

(** A client: the server, the references that it has, each as often as it has one, and its locks. *)
Record CLIENT := mkClient { cl_Com : COM; cl_Refs : list Z; cl_Locks : Z }.

Inductive CLIENT_OP :=
  | OCreate (Outer : bool) (k : COOBJECT_CLASS) (o : Z) (Iid : INTERFACE)
  | OAddRef (o : Z)
  | ORelease (o : Z)
  | OQuery (o : Z) (Iid : INTERFACE)
  | OSelect (o : Z) (Array : Z)
  | OLock (Lock : bool).

Fixpoint remove_one (o : Z) (l : list Z) : list Z :=
  match l with [] => [] | x :: l => if x =? o then l else x :: remove_one o l end.

Definition client_step (s : CLIENT) (op : CLIENT_OP) : option CLIENT :=
  let c := cl_Com s in
  match op with
  | OCreate Outer k o Iid =>
      '(Result, _, c) ← CreateInstance Outer k o Iid c;
      Some (mkClient c (if S_OK =? Result then o :: cl_Refs s else cl_Refs s) (cl_Locks s))
  | OAddRef o => '(_, c) ← AddRef o c; Some (mkClient c (o :: cl_Refs s) (cl_Locks s))
  | ORelease o => '(_, c) ← Release o c; Some (mkClient c (remove_one o (cl_Refs s)) (cl_Locks s))
  | OQuery o Iid =>
      '(Result, _, c) ← QueryInterface o Iid c;
      Some (mkClient c (if S_OK =? Result then o :: cl_Refs s else cl_Refs s) (cl_Locks s))
  | OSelect o Array => '(_, c) ← SetSelection o Array c; Some (mkClient c (cl_Refs s) (cl_Locks s))
  | OLock Lock => Some (mkClient (LockServer Lock c) (cl_Refs s) (if Lock then cl_Locks s + 1 else cl_Locks s - 1))
  end.

(** What a client may do: it uses the objects to which it has a reference, a new object is not at
    the place of another, and an unlock is that of a lock.  Its references and locks are fewer
    than the counts hold. *)
Definition client_may (s : CLIENT) (op : CLIENT_OP) : Prop :=
  Z.of_nat (length (cl_Refs s)) + cl_Locks s + 2 < 2 ^ 31 /\
  match op with
  | OCreate _ _ o _ => com_Objects (cl_Com s) !! o = None
  | OAddRef o | ORelease o | OQuery o _ => o ∈ cl_Refs s
  | OSelect o _ => o ∈ cl_Refs s /\ exists ob, com_Objects (cl_Com s) !! o = Some ob /\ co_Class ob = Command
  | OLock Lock => Lock = true \/ 0 < cl_Locks s
  end.

Inductive client_reach : CLIENT -> Prop :=
  | client_start : client_reach (mkClient (mkCom 0 ∅ ∅) [] 0)
  | client_reach_step s op s' :
      client_reach s -> client_may s op -> client_step s op = Some s' -> client_reach s'.

(** * The objects of the shell extension live as long as there are references to them

    The counts of the objects are those of the references of the clients, the global count is that
    of the objects and the locks, and what an object has selected is released. *)

#[local] Set Warnings "-clear-no-such-hyp".

(** ** Counts *)

Definition refs_of (o : Z) (refs : list Z) : nat := length (filter (eq o) refs).

Lemma refs_of_cons o x refs : refs_of o (x :: refs) = ((if decide (o = x) then 1 else 0) + refs_of o refs)%nat.
Proof. unfold refs_of. rewrite filter_cons. by destruct (decide (o = x)). Qed.

Lemma refs_of_elem o refs : o ∈ refs <-> (0 < refs_of o refs)%nat.
Proof.
  induction refs as [|x refs IH]; [rewrite elem_of_nil; unfold refs_of; simpl; lia|].
  rewrite refs_of_cons, elem_of_cons, IH. destruct (decide (o = x)); naive_solver lia.
Qed.

Lemma refs_of_remove o x refs :
  o ∈ refs -> refs_of x (remove_one o refs) = (refs_of x refs - (if decide (x = o) then 1 else 0))%nat.
Proof.
  induction refs as [|y refs IH]; [by intros ?%elem_of_nil|]. intros Hin. cbn [remove_one].
  rewrite (refs_of_cons x y). destruct (Z.eqb_spec y o) as [->|Hne].
  - destruct (decide (x = o)); lia.
  - apply elem_of_cons in Hin as [->|Hin]; [done|]. rewrite refs_of_cons, IH by done.
    apply refs_of_elem in Hin. destruct (decide (x = o)) as [->|]; [|lia].
    destruct (decide (o = y)); [by subst|lia].
Qed.

Lemma remove_one_length o refs : o ∈ refs -> S (length (remove_one o refs)) = length refs.
Proof.
  induction refs as [|y refs IH]; [by intros ?%elem_of_nil|]. intros Hin. cbn [remove_one].
  destruct (Z.eqb_spec y o) as [->|Hne]; [done|]. apply elem_of_cons in Hin as [->|Hin]; [done|].
  cbn [length]. by rewrite IH.
Qed.

Lemma int32_small v : - 2 ^ 31 <= v < 2 ^ 31 -> int32 v = v.
Proof. intros Hv. unfold int32. rewrite Z.mod_small; lia. Qed.

(** How many objects have selected an array. *)
Definition selecting (A : Z) (m : gmap Z COOBJECT) : Z :=
  Z.of_nat (size (filter (fun kv : Z * COOBJECT => co_Array kv.2 = A) m)).

Lemma selecting_new A m o ob :
  m !! o = None -> selecting A (<[o := ob]> m) = selecting A m + (if decide (co_Array ob = A) then 1 else 0).
Proof.
  intros Ho. unfold selecting. destruct (decide (co_Array ob = A)) as [HA|HA].
  - rewrite map_filter_insert_True by done. rewrite map_size_insert_None; [lia|].
    apply map_lookup_filter_None. by left.
  - rewrite map_filter_insert_not' by (try done; intros y E; congruence). lia.
Qed.

Lemma selecting_delete A m o ob :
  m !! o = Some ob -> selecting A m = selecting A (delete o m) + (if decide (co_Array ob = A) then 1 else 0).
Proof.
  intros Ho. rewrite <- (insert_delete_id m o ob Ho) at 1. by rewrite selecting_new by apply lookup_delete_eq.
Qed.

Lemma selecting_update A m o ob ob' :
  m !! o = Some ob -> selecting A (<[o := ob']> m) =
    selecting A m - (if decide (co_Array ob = A) then 1 else 0) + (if decide (co_Array ob' = A) then 1 else 0).
Proof.
  intros Ho. rewrite <- insert_delete_eq, selecting_new by apply lookup_delete_eq.
  rewrite (selecting_delete A m o ob Ho). lia.
Qed.

(** ** The invariant *)

Record com_wf (c : COM) (refs : list Z) (locks : Z) : Prop := {
  cw_object o : match com_Objects c !! o with
                | Some ob => co_RefCnt ob = Z.of_nat (refs_of o refs) /\ o ∈ refs /\ o <> 0
                | None => o ∉ refs
                end;
  cw_global : com_RefCnt c = Z.of_nat (size (com_Objects c)) + locks;
  cw_locks : 0 <= locks;
  cw_few : Z.of_nat (length refs) + locks < 2 ^ 31;
  cw_taken A : A <> 0 -> taken c A = selecting A (com_Objects c)
}.

Lemma objects_few c refs locks : com_wf c refs locks -> (size (com_Objects c) <= length refs)%nat.
Proof.
  intros Hwf. rewrite <- (size_dom (com_Objects c)).
  assert (dom (com_Objects c) ⊆@{gset Z} list_to_set refs) as Hs.
  { intros o [ob E]%elem_of_dom. pose proof (cw_object _ _ _ Hwf o) as Ho. rewrite E in Ho.
    apply elem_of_list_to_set. tauto. }
  apply subseteq_size in Hs. assert (size (list_to_set refs : gset Z) <= length refs)%nat; [|lia].
  clear. induction refs as [|x refs IH]; cbn [list_to_set length]; [by rewrite size_empty|].
  rewrite size_union_alt, size_singleton.
  pose proof (subseteq_size (list_to_set refs ∖ {[x]}) (list_to_set refs : gset Z) ltac:(set_solver)). lia.
Qed.

Lemma taken_take A B v c :
  B <> 0 -> taken (take_array A v c) B = taken c B + (if decide (A = B) then v else 0).
Proof.
  intros HB. unfold take_array. destruct (Z.eqb_spec 0 A) as [<-|HA]; cbn [negb].
  { rewrite decide_False by done. lia. }
  unfold taken at 1. cbn [com_Taken]. destruct (decide (A = B)) as [->|Hne].
  - by rewrite lookup_insert_eq.
  - rewrite lookup_insert_ne by done. unfold taken. lia.
Qed.

Lemma take_array_same A v c :
  com_RefCnt (take_array A v c) = com_RefCnt c /\ com_Objects (take_array A v c) = com_Objects c.
Proof. unfold take_array. by case_match. Qed.

Lemma AddRef_wf c refs locks o :
  com_wf c refs locks -> o ∈ refs -> Z.of_nat (length refs) + locks + 1 < 2 ^ 31 ->
  exists n c', AddRef o c = Some (n, c') /\ com_wf c' (o :: refs) locks.
Proof.
  intros Hwf Hin Hlen. pose proof (cw_object _ _ _ Hwf o) as Ho. unfold AddRef.
  destruct (com_Objects c !! o) as [ob|] eqn:E; [|done]. rewrite bind_value.
  destruct Ho as (Hc & _ & Ho0). pose proof (cw_locks _ _ _ Hwf) as HL.
  assert (refs_of o refs <= length refs)%nat as Hle by apply length_filter.
  rewrite u32_small by lia. eexists _, _. split; [done|]. split; cbn [com_Objects com_RefCnt set_object].
  - intros x. destruct (decide (x = o)) as [->|Hne].
    + rewrite lookup_insert_eq. cbn [co_RefCnt]. rewrite refs_of_cons, decide_True, Hc by done.
      split_and!; [lia|left|done].
    + rewrite lookup_insert_ne by done. pose proof (cw_object _ _ _ Hwf x) as Hx.
      destruct (com_Objects c !! x); [|by apply not_elem_of_cons].
      rewrite refs_of_cons, decide_False by done. destruct Hx as (? & ? & ?). split_and!; [done|by right|done].
  - rewrite map_size_insert_Some by (by eexists). apply (cw_global _ _ _ Hwf).
  - done.
  - cbn [length]. lia.
  - intros A HA. change (taken c A = selecting A (<[o := mkObject (co_RefCnt ob + 1) (co_Class ob) (co_Array ob)]> (com_Objects c))).
    rewrite (selecting_update _ _ _ _ _ E). cbn [co_Array]. rewrite (cw_taken _ _ _ Hwf A HA). lia.
Qed.

Lemma Release_wf c refs locks o :
  com_wf c refs locks -> o ∈ refs ->
  exists n c', Release o c = Some (n, c') /\ com_wf c' (remove_one o refs) locks /\
    (n = 0 <-> com_Objects c' !! o = None).
Proof.
  intros Hwf Hin. pose proof (cw_object _ _ _ Hwf o) as Ho. unfold Release.
  destruct (com_Objects c !! o) as [ob|] eqn:E; [|done]. rewrite bind_value.
  destruct Ho as (Hc & _ & Ho0). pose proof (cw_locks _ _ _ Hwf) as HL. pose proof (cw_few _ _ _ Hwf) as Hfew.
  assert (refs_of o refs <= length refs)%nat as Hle by apply length_filter.
  apply refs_of_elem in Hin as Hpos. pose proof (remove_one_length o refs Hin) as Hrl.
  rewrite u32_small by lia. set (ob' := mkObject _ _ _).
  assert (forall x, x <> o -> match com_Objects c !! x with
    | Some ob => co_RefCnt ob = Z.of_nat (refs_of x (remove_one o refs)) /\ x ∈ remove_one o refs /\ x <> 0
    | None => x ∉ remove_one o refs end) as Hothers.
  { intros x Hx. pose proof (cw_object _ _ _ Hwf x) as Hox.
    pose proof (refs_of_remove o x refs Hin) as Hr. rewrite decide_False, Nat.sub_0_r in Hr by done.
    destruct (com_Objects c !! x); [|by rewrite refs_of_elem, Hr, <- refs_of_elem].
    rewrite refs_of_elem, Hr, <- refs_of_elem. done. }
  pose proof (refs_of_remove o o refs Hin) as Hro. rewrite decide_True in Hro by done.
  eexists _, _. split; [done|]. destruct (Z.eqb_spec 0 (co_RefCnt ob - 1)) as [H0|H0].
  - assert (com_Objects (delete_object o ob (set_object o ob' c)) = delete o (com_Objects c)) as EO.
    { unfold delete_object. cbn [GlobalRefCnt com_Objects]. rewrite (proj2 (take_array_same _ _ _)).
      cbn [set_object com_Objects]. by rewrite delete_insert_eq. }
    split; [|rewrite EO, lookup_delete_eq; split; [done|lia]]. split.
    + rewrite EO. intros x. destruct (decide (x = o)) as [->|Hne].
      * rewrite lookup_delete_eq, refs_of_elem, Hro. lia.
      * rewrite lookup_delete_ne by done. by apply Hothers.
    + rewrite EO. pose proof (map_size_delete_Some (M:=gmap Z) o (com_Objects c) (mk_is_Some _ _ E)) as Hsz.
      pose proof (objects_few _ _ _ Hwf). pose proof (cw_global _ _ _ Hwf) as HG.
      assert (size (com_Objects c) <> 0%nat). { intros Hs%map_size_empty_inv. by rewrite Hs in E. }
      unfold delete_object. cbn [GlobalRefCnt com_RefCnt]. rewrite (proj1 (take_array_same _ _ _)).
      cbn [set_object com_RefCnt]. rewrite HG, int32_small; lia.
    + done.
    + lia.
    + intros A HA. rewrite EO. pose proof (selecting_delete A _ _ _ E) as HS.
      rewrite <- (cw_taken _ _ _ Hwf A HA) in HS.
      change (taken (take_array (co_Array ob) (-1) (set_object o ob' c)) A = selecting A (delete o (com_Objects c))).
      rewrite taken_take by done. change (taken (set_object o ob' c) A) with (taken c A).
      destruct (decide (co_Array ob = A)); lia.
  - split; [|cbn [set_object com_Objects]; rewrite lookup_insert_eq; split; [lia|done]].
    split; cbn [com_Objects com_RefCnt set_object].
    + intros x. destruct (decide (x = o)) as [->|Hne].
      * rewrite lookup_insert_eq. cbn [co_RefCnt ob']. rewrite refs_of_elem, Hro. lia.
      * rewrite lookup_insert_ne by done. by apply Hothers.
    + rewrite map_size_insert_Some by (by eexists). apply (cw_global _ _ _ Hwf).
    + done.
    + lia.
    + intros A HA. change (taken c A = selecting A (<[o := ob']> (com_Objects c))).
      rewrite (selecting_update _ _ _ _ _ E). cbn [co_Array ob']. rewrite (cw_taken _ _ _ Hwf A HA). lia.
Qed.

Lemma new_wf c refs locks o k :
  com_wf c refs locks -> com_Objects c !! o = None -> o <> 0 -> Z.of_nat (length refs) + locks + 1 < 2 ^ 31 ->
  com_wf (set_object o (mkObject 1 k 0) (GlobalRefCnt 1 c)) (o :: refs) locks.
Proof.
  intros Hwf E Ho0 Hlen. pose proof (cw_object _ _ _ Hwf o) as Ho. rewrite E in Ho.
  pose proof (cw_locks _ _ _ Hwf) as HL. pose proof (objects_few _ _ _ Hwf) as Hf.
  split; cbn [com_Objects com_RefCnt set_object GlobalRefCnt].
  - intros x. destruct (decide (x = o)) as [->|Hne].
    + rewrite lookup_insert_eq. cbn [co_RefCnt]. rewrite refs_of_cons, decide_True by done.
      assert (refs_of o refs = 0)%nat as -> by (rewrite refs_of_elem in Ho; lia). split_and!; [done|left|done].
    + rewrite lookup_insert_ne by done. pose proof (cw_object _ _ _ Hwf x) as Hx.
      destruct (com_Objects c !! x); [|by apply not_elem_of_cons].
      rewrite refs_of_cons, decide_False by done. destruct Hx as (? & ? & ?). split_and!; [done|by right|done].
  - rewrite map_size_insert_None by done. rewrite (cw_global _ _ _ Hwf), int32_small; lia.
  - done.
  - cbn [length]. lia.
  - intros A HA. change (taken c A = selecting A (<[o := mkObject 1 k 0]> (com_Objects c))).
    rewrite selecting_new by done. cbn [co_Array]. rewrite decide_False by done.
    rewrite (cw_taken _ _ _ Hwf A HA). lia.
Qed.

Lemma lock_wf c refs locks Lock :
  com_wf c refs locks -> Z.of_nat (length refs) + locks + 1 < 2 ^ 31 -> Lock = true \/ 0 < locks ->
  com_wf (LockServer Lock c) refs (if Lock then locks + 1 else locks - 1).
Proof.
  intros Hwf Hlen HL. pose proof (objects_few _ _ _ Hwf). pose proof (cw_locks _ _ _ Hwf).
  split; try apply Hwf.
  - cbn [LockServer GlobalRefCnt com_RefCnt com_Objects]. rewrite (cw_global _ _ _ Hwf).
    destruct Lock, HL as [HL|HL]; try done; rewrite int32_small; lia.
  - destruct Lock, HL; try done; lia.
  - destruct Lock; lia.
Qed.

Lemma select_wf c refs locks o A :
  com_wf c refs locks -> o ∈ refs -> exists r c', SetSelection o A c = Some (r, c') /\ com_wf c' refs locks.
Proof.
  intros Hwf Hin. pose proof (cw_object _ _ _ Hwf o) as Ho. unfold SetSelection.
  destruct (com_Objects c !! o) as [ob|] eqn:E; [|done]. rewrite bind_value. eexists _, _. split; [done|].
  assert (forall c1, com_RefCnt c1 = com_RefCnt c /\ com_Objects c1 = com_Objects c ->
    com_RefCnt (take_array A 1 c1) = com_RefCnt c /\ com_Objects (take_array A 1 c1) = com_Objects c) as HT.
  { intros c1 [<- <-]. apply take_array_same. }
  destruct (HT _ (take_array_same (co_Array ob) (-1) c)) as [HG HO].
  split; cbn [set_object com_Objects com_RefCnt]; rewrite ?HG, ?HO.
  - intros x. pose proof (cw_object _ _ _ Hwf x) as Hx. destruct (decide (x = o)) as [->|Hne].
    + rewrite lookup_insert_eq. by rewrite E in Hx.
    + by rewrite lookup_insert_ne.
  - rewrite map_size_insert_Some by (by eexists). apply (cw_global _ _ _ Hwf).
  - apply Hwf.
  - apply Hwf.
  - intros B HB. rewrite (selecting_update _ _ _ _ _ E), <- (cw_taken _ _ _ Hwf B HB). cbn [co_Array].
    change (taken (take_array A 1 (take_array (co_Array ob) (-1) c)) B = taken c B
      - (if decide (co_Array ob = B) then 1 else 0) + (if decide (A = B) then 1 else 0)).
    rewrite !taken_take by done. repeat case_decide; lia.
Qed.

Lemma query_wf Is c refs locks o Iid :
  com_wf c refs locks -> o ∈ refs -> Z.of_nat (length refs) + locks + 1 < 2 ^ 31 ->
  exists r P c', QueryInterfaces Is o Iid c = Some (r, P, c') /\
    com_wf c' (if S_OK =? r then o :: refs else refs) locks /\ (S_OK = r <-> is_Some P).
Proof.
  intros Hwf Hin Hlen. induction Is as [|x Is IH]; cbn [QueryInterfaces].
  { eexists _, _, _. split; [done|]. split; [exact Hwf|]. split; [done|by intros []]. }
  destruct (_ || _); [|exact IH]. destruct (AddRef_wf _ _ _ o Hwf Hin Hlen) as (n & c' & -> & Hwf').
  rewrite bind_value. eexists _, _, _. split; [done|]. split; [exact Hwf'|done].
Qed.

Lemma remove_one_head o refs : remove_one o (o :: refs) = refs.
Proof. cbn [remove_one]. by rewrite Z.eqb_refl. Qed.

Lemma create_wf Outer k c refs locks o Iid :
  com_wf c refs locks -> com_Objects c !! o = None -> Z.of_nat (length refs) + locks + 2 < 2 ^ 31 ->
  exists r P c', CreateInstance Outer k o Iid c = Some (r, P, c') /\
    com_wf c' (if S_OK =? r then o :: refs else refs) locks /\ (S_OK = r <-> is_Some P) /\
    (S_OK <> r -> forall x, com_Objects c' !! x = None <-> com_Objects c !! x = None).
Proof.
  intros Hwf E Hlen. unfold CreateInstance. destruct Outer.
  { eexists _, _, _. split; [done|]. split; [exact Hwf|]. split; [|done]. split; [done|by intros []]. }
  unfold CreateInstance_. destruct (Z.eqb_spec 0 o) as [H0|H0].
  { eexists _, _, _. split; [done|]. split; [exact Hwf|]. split; [|done]. split; [done|by intros []]. }
  pose proof (new_wf c refs locks o k Hwf E (not_eq_sym H0) ltac:(lia)) as Hwf1.
  set (c1 := set_object _ _ _) in *. unfold QueryInterface.
  assert (com_Objects c1 !! o = Some (mkObject 1 k 0)) as E1 by apply lookup_insert_eq.
  rewrite E1, bind_value. cbn [co_Class].
  destruct (query_wf (Interfaces k) c1 (o :: refs) locks o Iid Hwf1 ltac:(left) ltac:(cbn [length]; lia))
    as (r & P & c2 & EQ & Hwf2 & HP). rewrite EQ, bind_value.
  destruct (Release_wf c2 _ locks o Hwf2) as (n & c3 & E3 & Hwf3 & Hn).
  { destruct (S_OK =? r); left. }
  rewrite E3, bind_value. eexists _, _, _. split; [done|]. split; [|split; [exact HP|]].
  - destruct (S_OK =? r); [by rewrite remove_one_head in Hwf3|by rewrite remove_one_head in Hwf3].
  - intros Hne x. destruct (Z.eqb_spec S_OK r) as [|_]; [done|]. rewrite remove_one_head in Hwf3.
    pose proof (cw_object _ _ _ Hwf x) as Hx. pose proof (cw_object _ _ _ Hwf3 x) as Hx3.
    destruct (com_Objects c !! x), (com_Objects c3 !! x); naive_solver.
Qed.

(** ** Every client *)

Lemma client_step_wf s op :
  com_wf (cl_Com s) (cl_Refs s) (cl_Locks s) -> client_may s op ->
  exists s', client_step s op = Some s' /\ com_wf (cl_Com s') (cl_Refs s') (cl_Locks s').
Proof.
  intros Hwf [Hlen Hop]. destruct op as [Outer k o Iid|o|o|o Iid|o A|Lock]; cbn [client_step].
  - destruct (create_wf Outer k _ _ _ o Iid Hwf Hop Hlen) as (r & P & c' & -> & Hwf' & _).
    rewrite bind_value. by eexists.
  - destruct (AddRef_wf _ _ _ o Hwf Hop ltac:(lia)) as (n & c' & -> & Hwf'). rewrite bind_value. by eexists.
  - destruct (Release_wf _ _ _ o Hwf Hop) as (n & c' & -> & Hwf' & _). rewrite bind_value. by eexists.
  - unfold QueryInterface. pose proof (cw_object _ _ _ Hwf o) as Ho.
    destruct (com_Objects (cl_Com s) !! o) as [ob|]; [|done]. rewrite bind_value.
    destruct (query_wf (Interfaces (co_Class ob)) _ _ _ o Iid Hwf Hop ltac:(lia)) as (r & P & c' & -> & Hwf' & _).
    rewrite bind_value. by eexists.
  - destruct Hop as [Hin _]. destruct (select_wf _ _ _ o A Hwf Hin) as (r & c' & -> & Hwf').
    rewrite bind_value. by eexists.
  - eexists. split; [done|]. apply (lock_wf _ _ _ Lock Hwf); [lia|done].
Qed.

Lemma client_reach_wf s : client_reach s -> com_wf (cl_Com s) (cl_Refs s) (cl_Locks s).
Proof.
  induction 1 as [|s op s' _ IH Hop E].
  - split; cbn [cl_Com cl_Refs cl_Locks com_Objects com_RefCnt]; try done. intros o. rewrite lookup_empty.
    apply not_elem_of_nil.
  - destruct (client_step_wf s op IH Hop) as (s2 & E2 & Hwf). by rewrite E in E2; injection E2 as ->.
Qed.

(** C33: The objects of the shell extension live exactly as long as a client has a reference to
    them.  Whatever clients do with the references that they have, no object is used after it is
    deleted; an object is there if and only if there is a reference to it; its count is the number
    of these; the server can be unloaded if and only if there is neither an object nor a lock; and
    for each array of items as many references are held as objects have it selected, so that none
    is left when the objects are gone. *)
Theorem com_objects_counted s :
  client_reach s ->
  (forall op, client_may s op -> is_Some (client_step s op)) /\
  (forall o, is_Some (com_Objects (cl_Com s) !! o) <-> o ∈ cl_Refs s) /\
  (forall o ob, com_Objects (cl_Com s) !! o = Some ob -> co_RefCnt ob = Z.of_nat (refs_of o (cl_Refs s))) /\
  (CanUnloadNow (cl_Com s) = S_OK <-> cl_Refs s = [] /\ cl_Locks s = 0) /\
  (forall A, A <> 0 -> taken (cl_Com s) A = selecting A (com_Objects (cl_Com s))).
Proof.
  intros HR. pose proof (client_reach_wf s HR) as Hwf.
  assert (forall o, is_Some (com_Objects (cl_Com s) !! o) <-> o ∈ cl_Refs s) as Hlive.
  { intros o. pose proof (cw_object _ _ _ Hwf o) as Ho. destruct (com_Objects (cl_Com s) !! o) as [ob|] eqn:E.
    - split; [tauto|by eexists].
    - split; [by intros []|done]. }
  split_and!; [|exact Hlive| | |exact (cw_taken _ _ _ Hwf)].
  - intros op Hop. destruct (client_step_wf s op Hwf Hop) as (s' & -> & _). by eexists.
  - intros o ob E. pose proof (cw_object _ _ _ Hwf o) as Ho. rewrite E in Ho. tauto.
  - unfold CanUnloadNow. rewrite (cw_global _ _ _ Hwf). pose proof (cw_locks _ _ _ Hwf).
    assert (size (com_Objects (cl_Com s)) = 0%nat <-> cl_Refs s = []) as Hsz.
    { rewrite map_size_empty_iff. split.
      - intros E. destruct (cl_Refs s) as [|o refs]; [done|]. destruct (proj2 (Hlive o) ltac:(left)) as [ob Hob].
        by rewrite E in Hob.
      - intros E. apply map_empty. intros o. apply eq_None_not_Some. rewrite Hlive, E. apply not_elem_of_nil. }
    rewrite <- Hsz. destruct (Z.eqb_spec 0 (Z.of_nat (size (com_Objects (cl_Com s))) + cl_Locks s)); [|split; [done|lia]].
    split; [lia|done].
Qed.

(** Two commands with the same selection, one asked for a second interface; then one is gone. *)
Definition example_ops : list CLIENT_OP :=
  [OCreate false Command 16 IExecuteCommand; OCreate false Command 32 IUnknown; OSelect 16 7; OSelect 32 7;
   OQuery 16 IObjectWithSelection; OCreate false ContextMenu 48 IExecuteCommand; ORelease 32].

Lemma client_reach_after s op :
  client_reach s -> client_may s op -> client_reach (default s (client_step s op)).
Proof.
  intros HR Hop. destruct (client_step_wf s op (client_reach_wf s HR) Hop) as (s' & E & _). rewrite E.
  by eapply client_reach_step.
Qed.

Fixpoint client_run (s : CLIENT) (ops : list CLIENT_OP) : CLIENT :=
  match ops with [] => s | op :: ops => client_run (default s (client_step s op)) ops end.

Definition example_client : CLIENT := client_run (mkClient (mkCom 0 ∅ ∅) [] 0) example_ops.

Lemma example_client_reach : client_reach example_client.
Proof.
  unfold example_client, example_ops, client_run.
  repeat (apply client_reach_after; [|vm_compute; split; [done|]; try (repeat first [left|right; left]); try done]).
  all: try apply client_start.
  all: split; [repeat first [left|right; left]|by eexists].
Qed.

Lemma com_objects_counted_witness :
  client_reach example_client /\ cl_Refs example_client = [16; 16] /\
  co_RefCnt <$> com_Objects (cl_Com example_client) !! 16 = Some 2 /\
  com_Objects (cl_Com example_client) !! 32 = None /\ com_Objects (cl_Com example_client) !! 48 = None /\
  taken (cl_Com example_client) 7 = 1 /\ CanUnloadNow (cl_Com example_client) = S_FALSE /\
  (16 ∈ cl_Refs example_client <-> is_Some (com_Objects (cl_Com example_client) !! 16)).
Proof.
  split; [exact example_client_reach|]. do 6 (split; [vm_compute; reflexivity|]).
  destruct (com_objects_counted example_client example_client_reach) as (_ & H & _). symmetry. apply H.
Defined.
