(* ===== verification/ShellRegister.v ===== *)
(** * The registration of the shell extension can be undone

    [DllUnregisterServer] gives the registry back that [DllRegisterServer] has found, and both leave
    no key open. *)

From S2P Require Import Prelude Wdk IoctlTypes Minimal Text RegUtil ShellCom.

Lemma HRESULT_ok x : HRESULT_FROM_WIN32 x = S_OK <-> x = ERROR_SUCCESS.
Proof.
  unfold HRESULT_FROM_WIN32, S_OK, ERROR_SUCCESS. destruct (Z.eqb_spec x 0) as [->|Hx]; [done|]. cbn [orb].
  destruct (2 ^ 31 <=? x); [done|]. split; [|done]. by intros [_ ?]%Z.lor_eq_0_iff.
Qed.

Lemma CLSID_KEY_nonempty : CLSID_KEY <> [].
Proof. done. Qed.

Section Register.
Context {W : Type} {R : Registry W} {L : RegistryLaws W} (StringFromGUID2 : GUID -> list Z) (root : PATH).

Definition CLSID_PATH : PATH := root ++ map fold_case (components CLSID_KEY).
Definition class_path (c : COCLASS) : PATH := CLSID_PATH ++ [fold_case (StringFromGUID2 (cc_Clsid c))].

(** The keys of a class have plain names. *)
Definition class_wf (c : COCLASS) : Prop :=
  plain_name (StringFromGUID2 (cc_Clsid c)) /\ Forall entry_wf (cc_Entries c).

(** What a class adds: its own entries, and the key of its identifier. *)
Definition class_targets (c : COCLASS) : list TARGET :=
  targets root (cc_Entries c) root false ++ [KeyTarget (class_path c)].

Definition server_targets (Classes : list COCLASS) : list TARGET := Classes ≫= class_targets.

(** ** Handles *)

(** The last key that was opened is closed. *)
Lemma close_top H w h q :
  h <> 0 -> H !! h = None -> held w = <[h := q]> H ->
  exists w', close_entry w h = Some w' /\ keys w' = keys w /\ held w' = H.
Proof using. intros Hh Hf E. apply (close_entry_walk [] H w h q). right. done. Qed.

(** A key below a target is created: only what is below targets changes. *)
Lemma create_below T w k n p :
  held w !! k = Some p -> plain_name n -> below T (p ++ [fold_case n]) ->
  exists err h new w', RegCreateKeyExW w k (Some n) = Some (err, h, new, w') /\
    agree T (keys w) (keys w') /\ (forall K0, kept K0 (keys w) -> kept K0 (keys w')) /\
    (ReliableRegistry W -> is_Some (keys w !! p) -> err = ERROR_SUCCESS) /\
    (if ERROR_SUCCESS =? err
     then is_Some (keys w' !! (p ++ [fold_case n])) /\ h <> 0 /\ held w !! h = None /\
          held w' = <[h := p ++ [fold_case n]]> (held w)
     else held w' = held w).
Proof using.
  intros Hk Hn Hb. destruct (rl_create w k n p Hk Hn) as (err & h & new & w' & E & Hh).
  exists err, h, new, w'. split; [done|].
  assert (ReliableRegistry W -> is_Some (keys w !! p) -> err = ERROR_SUCCESS) as Hr.
  { intros Hrr Hp. exact (rr_create _ _ _ _ _ _ _ _ Hk Hn Hp E). }
  destruct (ERROR_SUCCESS =? err); [|destruct Hh as [-> ->]; by split_and!].
  destruct Hh as (Hnew & -> & H1 & H2 & H3).
  destruct new; [|by apply eq_sym, bool_decide_eq_false, not_eq_None_Some in Hnew; split_and!].
  split_and!; try done; [by apply agree_insert|intros K0; by apply kept_insert|].
  rewrite lookup_insert_eq. by eexists.
Qed.

(** A value of a key below a target is set. *)
Lemma set_below T w k n p ty v size :
  held w !! k = Some p -> below T p ->
  exists err w', RegSetValueExW w k n ty v size = Some (err, w') /\ held w' = held w /\
    agree T (keys w) (keys w') /\ (forall K0, kept K0 (keys w) -> kept K0 (keys w')) /\
    (ReliableRegistry W -> is_Some (keys w !! p) -> err = ERROR_SUCCESS).
Proof using.
  intros Hk Hb. destruct (rl_set w k n p ty v size Hk) as (err & w' & E & Eh & Ek).
  exists err, w'. split; [done|]. split; [done|]. rewrite Ek. split_and!.
  - destruct (ERROR_SUCCESS =? err); [|done]. apply (agree_alter _ _ _ (fold_case (default [] n))); [by left|].
    intros vs m Hm. by apply lookup_insert_ne.
  - destruct (ERROR_SUCCESS =? err); [|done]. intros K0. apply kept_alter.
  - intros Hrr Hp. exact (rr_set _ _ _ _ _ _ _ _ _ Hk Hp E).
Qed.

(** ** Registration *)

(** What a step of the registration does: no key is left open, only what is below the targets
    changes, and it succeeds where nothing fails. *)
Definition registers (T : list TARGET) (w w' : W) (Result : Z) (Ready : gmap PATH VALUES -> Prop) : Prop :=
  held w' = held w /\ agree T (keys w) (keys w') /\
  (ReliableRegistry W -> forall K0, kept K0 (keys w) -> Ready K0 -> Result = S_OK).

(** The keys that are there already. *)
Definition class_ready (c : COCLASS) (K0 : gmap PATH VALUES) : Prop :=
  is_Some (K0 !! root) /\ is_Some (K0 !! CLSID_PATH) /\ present K0 root (cc_Entries c) root false = true.

Lemma Register_true T w c :
  held w !! HKEY_LOCAL_MACHINE = Some root -> Forall entry_wf (cc_Entries c) ->
  targets root (cc_Entries c) root false ⊆ T ->
  exists Result w', Register c true w = Some (Result, w') /\ registers T w w' Result (class_ready c).
Proof using.
  intros HK He HT. unfold Register.
  destruct (RegAddEntries_spec HKEY_LOCAL_MACHINE root (cc_Entries c) w T HK He HT)
    as (err & added & w' & -> & Hh & Ha & Hr). rewrite bind_value. eexists _, w'. split; [done|].
  split; [done|]. split; [done|]. intros Hrr K0 HK0 (Hroot & _ & Hp). apply HRESULT_ok. by apply (Hr Hrr K0).
Qed.

Lemma set_threading_model_below T w k p c :
  held w !! k = Some p -> below T p ->
  exists Result w', set_threading_model c k w = Some (Result, w') /\ held w' = held w /\
    agree T (keys w) (keys w') /\ (forall K0, kept K0 (keys w) -> kept K0 (keys w')) /\
    (ReliableRegistry W -> is_Some (keys w !! p) -> Result = S_OK).
Proof using.
  intros Hk Hb. unfold set_threading_model. destruct (cc_ThreadingModel c) as [m|]; [|by eexists _, w].
  edestruct (set_below T w k) as (err & w' & -> & Hh & Ha & HK & Hr); [done..|]. rewrite bind_value.
  eexists _, w'. split; [done|]. split; [done|]. split; [done|]. split; [done|].
  intros Hrr Hp. apply HRESULT_ok. by apply Hr.
Qed.

(** The values of a class and its entries, with both of its keys open. *)
Lemma register_values_spec T w H k p g q Module c :
  held w = <[k := p]> (<[g := q]> H) -> k <> 0 -> g <> 0 -> H !! g = None -> <[g := q]> H !! k = None ->
  H !! HKEY_LOCAL_MACHINE = Some root -> below T p -> Forall entry_wf (cc_Entries c) ->
  targets root (cc_Entries c) root false ⊆ T -> is_Some (keys w !! p) ->
  exists Result w',
    ('(err, w) ← RegSetValueExW w k None REG_SZ (wide_sz Module) ((Z.of_nat (length Module) + 1) * 2);
     let Result := HRESULT_FROM_WIN32 err in
     if negb (S_OK =? Result) then loop_exit Result g k w
     else
       '(Result, w) ← set_threading_model c k w;
       if negb (S_OK =? Result) then loop_exit Result g k w
       else '(Result, w) ← Register c true w; loop_exit Result g k w) = Some (Result, w') /\
    held w' = H /\ agree T (keys w) (keys w') /\
    (ReliableRegistry W -> forall K0, kept K0 (keys w) -> class_ready c K0 -> Result = S_OK).
Proof using.
  intros Eh Hk Hg Hfg Hfk HK Hb He HT Hp.
  assert (forall Result w', held w' = held w -> exists w2, loop_exit Result g k w' = Some (Result, w2) /\
    keys w2 = keys w' /\ held w2 = H) as Hexit.
  { intros Result w' Eh'. unfold loop_exit.
    destruct (close_top _ w' k p Hk Hfk) as (w2 & -> & Ek2 & Eh2); [by rewrite Eh'|]. rewrite bind_value.
    destruct (close_top H w2 g q Hg Hfg Eh2) as (w3 & -> & Ek3 & Eh3). rewrite bind_value.
    exists w3. by rewrite Ek3. }
  assert (held w !! k = Some p) as Hkp by (rewrite Eh; apply lookup_insert_eq).
  destruct (set_below T w k None p REG_SZ (wide_sz Module) ((Z.of_nat (length Module) + 1) * 2) Hkp Hb)
    as (err & w1 & -> & Eh1 & Ha1 & HK1 & Hr1). rewrite bind_value. cbv zeta.
  destruct (Z.eqb_spec S_OK (HRESULT_FROM_WIN32 err)) as [H1|H1]; cbn [negb].
  2: { destruct (Hexit (HRESULT_FROM_WIN32 err) w1 Eh1) as (w2 & -> & Ek2 & Eh2). eexists _, w2.
       split; [done|]. rewrite Ek2. split; [done|]. split; [done|]. intros Hrr K0 _ _. exfalso. apply H1.
       symmetry. apply HRESULT_ok. by apply Hr1. }
  rewrite <- Eh1 in Hkp.
  destruct (set_threading_model_below T w1 k p c Hkp Hb) as (Result & w2 & -> & Eh2 & Ha2 & HK2 & Hr2).
  rewrite bind_value. rewrite Eh1 in Eh2. destruct (Z.eqb_spec S_OK Result) as [H2|H2]; cbn [negb].
  2: { destruct (Hexit Result w2 Eh2) as (w3 & -> & Ek3 & Eh3). eexists _, w3.
       split; [done|]. rewrite Ek3. split; [done|]. split; [by etrans|]. intros Hrr K0 _ _. exfalso. apply H2.
       symmetry. apply (Hr2 Hrr). by apply (HK1 _ (reflexivity _)). }
  destruct (Register_true T w2 c) as (Result3 & w3 & -> & Eh3 & Ha3 & Hr3); [|done..|].
  { rewrite Eh2, Eh. rewrite !lookup_insert_ne; [done|congruence|]. intros ->. rewrite lookup_insert_ne in Hfk by congruence.
    congruence. }
  rewrite bind_value. destruct (Hexit Result3 w3) as (w4 & -> & Ek4 & Eh4); [by rewrite Eh3|].
  eexists _, w4. split; [done|]. rewrite Ek4. split; [done|]. split; [by do 2 (etrans; [eassumption|])|].
  intros Hrr K0 HK0 Hready. apply (Hr3 Hrr K0); [|done]. by apply HK2, HK1.
Qed.

Lemma register_class_spec T w C Module c :
  held w !! C = Some CLSID_PATH -> held w !! HKEY_LOCAL_MACHINE = Some root -> class_wf c -> class_targets c ⊆ T ->
  exists Result w', register_class StringFromGUID2 C Module c w = Some (Result, w') /\
    registers T w w' Result (class_ready c).
Proof using.
  intros HC HK [Hg He] HT. unfold register_class.
  assert (below T (class_path c)) as Hb.
  { exists (class_path c). split; [|done]. apply HT, elem_of_app. right. left. }
  assert (targets root (cc_Entries c) root false ⊆ T) as HTe.
  { intros t Ht. apply HT, elem_of_app. by left. }
  destruct (create_below T w C _ CLSID_PATH HC Hg Hb) as (err & g & new & w1 & -> & Ha1 & HK1 & Hr1 & Hh1).
  rewrite bind_value. cbv zeta. unfold registers, loop_exit.
  destruct (Z.eqb_spec S_OK (HRESULT_FROM_WIN32 err)) as [H1|H1]; cbn [negb].
  2: { rewrite (proj2 (Z.eqb_neq ERROR_SUCCESS err)) in Hh1 by (intros <-; by apply H1).
       eexists _, w1. split; [done|]. split; [done|]. split; [done|]. intros Hrr K0 HK0 (_ & Hp & _). exfalso. apply H1.
       symmetry. apply HRESULT_ok, (Hr1 Hrr). by apply HK0. }
  symmetry in H1. apply HRESULT_ok in H1 as ->. change (ERROR_SUCCESS =? ERROR_SUCCESS) with true in Hh1. cbv iota in Hh1.
  destruct Hh1 as (Hs1 & Hg0 & Hfg & Eh1). fold (class_path c) in Hs1, Eh1.
  assert (plain_name (lit "InProcServer32")) as Hn by (apply (bool_decide_unpack _); vm_compute; exact I).
  assert (held w1 !! g = Some (class_path c)) as Hgw by (rewrite Eh1; apply lookup_insert_eq).
  destruct (create_below T w1 g _ (class_path c) Hgw Hn (below_child _ _ _ Hb)) as (err & k & new2 & w2 & -> & Ha2 & HK2 & Hr2 & Hh2).
  rewrite bind_value. cbv zeta.
  destruct (Z.eqb_spec S_OK (HRESULT_FROM_WIN32 err)) as [H2|H2]; cbn [negb].
  2: { rewrite (proj2 (Z.eqb_neq ERROR_SUCCESS err)) in Hh2 by (intros <-; by apply H2).
       destruct (close_top (held w) w2 g (class_path c) Hg0 Hfg) as (w3 & E3 & Ek3 & Eh3); [by rewrite Hh2|].
       change (close_entry w2 0) with (Some w2). rewrite bind_value, E3, bind_value.
       eexists _, w3. split; [done|]. rewrite Ek3. split; [done|]. split; [by etrans|].
       intros Hrr K0 HK0 _. exfalso. apply H2. symmetry. apply HRESULT_ok. by apply (Hr2 Hrr). }
  symmetry in H2. apply HRESULT_ok in H2 as ->. change (ERROR_SUCCESS =? ERROR_SUCCESS) with true in Hh2. cbv iota in Hh2.
  destruct Hh2 as (Hs2 & Hk0 & Hfk & Eh2). rewrite Eh1 in Eh2, Hfk.
  destruct (register_values_spec T w2 (held w) k _ g _ Module c Eh2 Hk0 Hg0 Hfg Hfk HK (below_child _ _ _ Hb) He HTe Hs2)
    as (Result & w3 & E3 & Eh3 & Ha3 & Hr3).
  eexists _, w3. split; [exact E3|]. split; [done|]. split; [by do 2 (etrans; [eassumption|])|].
  intros Hrr K0 HK0 Hready. apply (Hr3 Hrr K0); [by apply HK2, HK1|done].
Qed.

Lemma register_loop_spec T w C Module Classes :
  held w !! C = Some CLSID_PATH -> held w !! HKEY_LOCAL_MACHINE = Some root -> Forall class_wf Classes ->
  server_targets Classes ⊆ T -> Forall (cleared (keys w)) T -> forall K0 Result0 w0,
  keys w0 = K0 -> held w0 = held w -> kept (keys w) K0 -> agree T (keys w) K0 -> Result0 = S_OK ->
  exists Result w', register_loop StringFromGUID2 C Module Classes Result0 w0 = Some (Result, w') /\
    held w' = held w /\ agree T (keys w) (keys w') /\
    (ReliableRegistry W -> Forall (fun c => class_ready c (keys w)) Classes -> Result = S_OK).
Proof using.
  intros HC HK Hwf HT Hcl. induction Hwf as [|c Classes Hc Hwf IH]; intros K0 Result0 w0 <- Hh Hk Ha ->; cbn [register_loop].
  { by eexists _, w0. }
  rewrite <- Hh in HC, HK. change (server_targets (c :: Classes)) with (class_targets c ++ server_targets Classes) in HT.
  destruct (register_class_spec T w0 C Module c HC HK Hc) as (Result & w1 & -> & Hh1 & Ha1 & Hr1).
  { intros t Ht. apply HT, elem_of_app. by left. }
  rewrite bind_value. rewrite Hh in Hh1, HC, HK. assert (agree T (keys w) (keys w1)) as Ha2 by (by etrans).
  destruct (Z.eqb_spec S_OK Result) as [<-|Hne]; cbn [negb].
  - assert (server_targets Classes ⊆ T) as HT' by (intros t Ht; apply HT, elem_of_app; by right).
    assert (kept (keys w) (keys w1)) as Hk1.
    { apply (agree_kept T _ (keys w)); [|done|done]. intros q. by apply cleared_not_below. }
    destruct (IH HT' (keys w1) S_OK w1 eq_refl Hh1 Hk1 Ha2 eq_refl) as (Result & w2 & E2 & Hh2 & Ha3 & Hr2).
    eexists _, w2. split; [exact E2|]. split; [done|]. split; [done|].
    intros Hrr [_ Hrs]%Forall_cons. by apply Hr2.
  - eexists _, w1. split; [done|]. split; [done|]. split; [done|].
    intros Hrr [Hready _]%Forall_cons. by apply (Hr1 Hrr (keys w)).
Qed.

(** ** The way back *)

(** All of the targets are gone, and nothing else. *)
Definition clears (T : list TARGET) (K K' : gmap PATH VALUES) : Prop :=
  shrinks K K' /\ agree T K K' /\ Forall (cleared K') T.

Lemma clears_app T1 T2 K K1 K2 : clears T1 K K1 -> clears T2 K1 K2 -> clears (T1 ++ T2) K K2.
Proof using.
  intros (S1 & A1 & C1) (S2 & A2 & C2). split; [by etrans|]. split.
  - etrans; (eapply agree_mono; [|eassumption]); intros t Ht; apply elem_of_app; auto.
  - apply Forall_app. split; [|done]. eapply Forall_impl; [exact C1|]. intros t. by apply shrinks_cleared.
Qed.

Lemma not_below_app (T1 T2 : list TARGET) (K0 : gmap PATH VALUES) :
  (forall q, is_Some (K0 !! q) -> ~ below (T1 ++ T2) q) ->
  (forall q, is_Some (K0 !! q) -> ~ below T1 q) /\ (forall q, is_Some (K0 !! q) -> ~ below T2 q).
Proof using.
  intros Hb. split; intros q Hq (c & Hc & Hp); apply (Hb q Hq); exists c; (split; [|done]); apply elem_of_app; auto.
Qed.

(** What was there, apart from the targets, is kept. *)
Lemma clears_kept (T : list TARGET) (K0 K K' : gmap PATH VALUES) :
  (forall q, is_Some (K0 !! q) -> ~ below T q) -> clears T K K' -> kept K0 K -> kept K0 K'.
Proof using. intros Hb (_ & Ha & _). by apply (agree_kept T). Qed.

Lemma unregister_class_spec w C c :
  held w !! C = Some CLSID_PATH -> held w !! HKEY_LOCAL_MACHINE = Some root -> class_wf c ->
  exists r1 w1, Register c false w = Some (r1, w1) /\
  exists r2 w2, RegDeleteTree w1 C (Some (StringFromGUID2 (cc_Clsid c))) = Some (r2, w2) /\ held w2 = held w /\
    (ReliableRegistry W -> forall K0, kept K0 (keys w) -> class_ready c K0 ->
     (forall q, is_Some (K0 !! q) -> ~ below (class_targets c) q) -> clears (class_targets c) (keys w) (keys w2)).
Proof using.
  intros HC HK [Hg He]. unfold Register.
  destruct (RegDeleteEntries_spec HKEY_LOCAL_MACHINE root (cc_Entries c) w HK He) as (err & d & w1 & -> & Hh1 & Hd & Hr).
  rewrite bind_value. eexists _, w1. split; [done|]. rewrite <- Hh1 in HC.
  destruct (rl_delete_tree w1 C _ CLSID_PATH HC Hg) as (err2 & w2 & E2 & Hh2 & Hs & Hn).
  exists err2, w2. split; [done|]. split; [by rewrite Hh2|]. intros Hrr K0 HK0 (Hroot & _ & Hp) Hb.
  apply not_below_app in Hb as [Hb1 Hb2].
  apply clears_app with (keys w1); [by apply Hd, (Hr Hrr K0)|].
  assert (deletes (KeyTarget (class_path c)) (keys w1) (keys w2)) as (S2 & A2 & C2).
  { destruct (rr_delete_tree _ _ _ _ _ _ HC Hg E2) as [-> | ->].
    - rewrite (Hs eq_refl). apply deletes_tree.
    - destruct (Hn eq_refl) as [Hc ->]. by apply deletes_nothing. }
  split; [done|]. split; [done|]. by constructor.
Qed.

Lemma unregister_loop_spec C Classes : Forall class_wf Classes -> forall w,
  held w !! C = Some CLSID_PATH -> held w !! HKEY_LOCAL_MACHINE = Some root ->
  exists w', unregister_loop StringFromGUID2 C Classes w = Some w' /\ held w' = held w /\
    (ReliableRegistry W -> forall K0, kept K0 (keys w) -> Forall (fun c => class_ready c K0) Classes ->
     (forall q, is_Some (K0 !! q) -> ~ below (server_targets Classes) q) ->
     clears (server_targets Classes) (keys w) (keys w')).
Proof using.
  induction 1 as [|c Classes Hc Hwf IH]; intros w HC HK; cbn [unregister_loop].
  { exists w. split; [done|]. split; [done|]. intros _ K0 _ _ _. split; [done|]. split; [done|]. constructor. }
  destruct (unregister_class_spec w C c HC HK Hc) as (r1 & w1 & -> & r2 & w2 & E2 & Hh2 & Hr).
  rewrite bind_value, E2, bind_value. destruct (IH w2) as (w3 & E3 & Hh3 & Hr3); [by rewrite Hh2..|].
  exists w3. split; [done|]. split; [by rewrite Hh3|]. intros Hrr K0 HK0 [Hc0 Hcs]%Forall_cons Hb.
  change (server_targets (c :: Classes)) with (class_targets c ++ server_targets Classes) in *.
  apply not_below_app in Hb as [Hb1 Hb2]. apply clears_app with (keys w2); [by apply (Hr Hrr K0)|].
  apply (Hr3 Hrr K0); [|done|done]. eapply clears_kept; [exact Hb1|by apply (Hr Hrr K0)|done].
Qed.

(** ** The server *)

Lemma RegisterServer_spec w Module Classes :
  held w !! HKEY_LOCAL_MACHINE = Some root -> Forall class_wf Classes ->
  Forall (cleared (keys w)) (server_targets Classes) ->
  exists Result w1, RegisterServer StringFromGUID2 (inr Module) Classes w = Some (Result, w1) /\
    held w1 = held w /\ agree (server_targets Classes) (keys w) (keys w1) /\
    (ReliableRegistry W -> is_Some (keys w !! CLSID_PATH) -> Forall (fun c => class_ready c (keys w)) Classes ->
     Result = S_OK).
Proof using.
  intros HK Hwf Hcl. unfold RegisterServer.
  destruct (rl_open w _ CLSID_KEY root HK CLSID_KEY_nonempty) as (err & C & w0 & E & Ek & Hh). rewrite E, bind_value. cbv zeta.
  assert (ReliableRegistry W -> is_Some (keys w !! CLSID_PATH) -> err = ERROR_SUCCESS) as Hr.
  { intros Hrr Hs. exact (rr_open _ _ _ _ _ _ _ HK CLSID_KEY_nonempty Hs E). }
  destruct (Z.eqb_spec S_OK (HRESULT_FROM_WIN32 err)) as [H1|H1]; cbn [negb].
  2: { rewrite (proj2 (Z.eqb_neq ERROR_SUCCESS err)) in Hh by (intros <-; by apply H1).
       eexists _, w0. split; [done|]. split; [done|]. rewrite Ek. split; [done|]. intros Hrr Hs _. exfalso.
       apply H1. symmetry. apply HRESULT_ok. by apply Hr. }
  rewrite H1. symmetry in H1. apply HRESULT_ok in H1 as ->.
  change (ERROR_SUCCESS =? ERROR_SUCCESS) with true in Hh. cbv iota in Hh. destruct Hh as (Hs & HC0 & Hf & Hh).
  fold CLSID_PATH in Hs, Hh. rewrite <- Ek in Hcl.
  destruct (register_loop_spec (server_targets Classes) w0 C Module Classes) with (K0 := keys w0)
    (Result0 := HRESULT_FROM_WIN32 ERROR_SUCCESS) (w0 := w0) as (Result & w1 & -> & Hh1 & Ha1 & Hr1); try done.
  { rewrite Hh. apply lookup_insert_eq. }
  { rewrite Hh, lookup_insert_ne; [done|]. intros ->. congruence. }
  rewrite bind_value. destruct (rl_close w1 C) as (w2 & -> & Ek2 & Eh2).
  { rewrite Hh1, Hh, lookup_insert_eq. by eexists. }
  rewrite bind_value. eexists _, w2. split; [done|]. split; [by rewrite Eh2, Hh1, Hh, delete_insert_id|].
  rewrite Ek2, <- Ek. split; [done|]. intros Hrr _ Hready. by apply Hr1.
Qed.

Lemma UnregisterServer_spec w Classes :
  held w !! HKEY_LOCAL_MACHINE = Some root -> Forall class_wf Classes ->
  exists Result w1, UnregisterServer StringFromGUID2 Classes w = Some (Result, w1) /\ held w1 = held w /\
    (ReliableRegistry W -> forall K0, kept K0 (keys w) -> is_Some (K0 !! CLSID_PATH) ->
     Forall (fun c => class_ready c K0) Classes -> (forall q, is_Some (K0 !! q) -> ~ below (server_targets Classes) q) ->
     Result = S_OK /\ clears (server_targets Classes) (keys w) (keys w1)).
Proof using.
  intros HK Hwf. unfold UnregisterServer.
  destruct (rl_open w _ CLSID_KEY root HK CLSID_KEY_nonempty) as (err & C & w0 & E & Ek & Hh). rewrite E, bind_value. cbv zeta.
  assert (ReliableRegistry W -> is_Some (keys w !! CLSID_PATH) -> err = ERROR_SUCCESS) as Hr.
  { intros Hrr Hs. exact (rr_open _ _ _ _ _ _ _ HK CLSID_KEY_nonempty Hs E). }
  destruct (Z.eqb_spec S_OK (HRESULT_FROM_WIN32 err)) as [H1|H1]; cbn [negb].
  2: { rewrite (proj2 (Z.eqb_neq ERROR_SUCCESS err)) in Hh by (intros <-; by apply H1).
       eexists _, w0. split; [done|]. split; [done|]. intros Hrr K0 HK0 Hs _ _. exfalso.
       apply H1. symmetry. apply HRESULT_ok, Hr; [done|]. by apply HK0. }
  rewrite <- H1. symmetry in H1. apply HRESULT_ok in H1 as ->.
  change (ERROR_SUCCESS =? ERROR_SUCCESS) with true in Hh. cbv iota in Hh. destruct Hh as (Hs & HC0 & Hf & Hh).
  fold CLSID_PATH in Hs, Hh.
  destruct (unregister_loop_spec C Classes Hwf w0) as (w1 & -> & Hh1 & Hr1).
  { rewrite Hh. apply lookup_insert_eq. }
  { rewrite Hh, lookup_insert_ne; [done|]. intros ->. congruence. }
  rewrite bind_value. destruct (rl_close w1 C) as (w2 & -> & Ek2 & Eh2).
  { rewrite Hh1, Hh, lookup_insert_eq. by eexists. }
  rewrite bind_value. eexists _, w2. split; [done|]. split; [by rewrite Eh2, Hh1, Hh, delete_insert_id|].
  intros Hrr K0 HK0 _ Hready Hb. split; [done|]. rewrite Ek2. rewrite Ek in Hr1. by apply (Hr1 Hrr K0).
Qed.

(** C21: The registration of the shell extension is undone by its removal.  Whatever the registry
    answers, both use no key that is not open, leave open exactly the keys that were, and the
    registration changes nothing but the entries of the classes and the keys of their identifiers.
    Where calls with keys that are there succeed, both report success to the system, and the removal
    gives back the registry that the registration has found. *)
Theorem shell_register_roundtrip w Module Classes :
  held w !! HKEY_LOCAL_MACHINE = Some root -> Forall class_wf Classes ->
  Forall (cleared (keys w)) (server_targets Classes) ->
  exists r1 b1 w1, DllRegisterServer StringFromGUID2 (inr Module) Classes w = Some (r1, b1, w1) /\
    held w1 = held w /\ agree (server_targets Classes) (keys w) (keys w1) /\
    exists r2 b2 w2, DllUnregisterServer StringFromGUID2 Classes w1 = Some (r2, b2, w2) /\ held w2 = held w /\
      (ReliableRegistry W -> is_Some (keys w !! CLSID_PATH) -> Forall (fun c => class_ready c (keys w)) Classes ->
       r1 = S_OK /\ b1 = true /\ r2 = S_OK /\ b2 = true /\ keys w2 = keys w).
Proof using.
  intros HK Hwf Hcl. unfold DllRegisterServer, DllUnregisterServer.
  destruct (RegisterServer_spec w Module Classes HK Hwf Hcl) as (r1 & w1 & -> & Hh1 & Ha1 & Hr1). rewrite bind_value.
  eexists _, _, w1. split; [done|]. split; [done|]. split; [done|]. rewrite <- Hh1 in HK.
  destruct (UnregisterServer_spec w1 Classes HK Hwf) as (r2 & w2 & -> & Hh2 & Hr2). rewrite bind_value.
  eexists _, _, w2. split; [done|]. split; [by rewrite Hh2|]. intros Hrr Hs Hready.
  assert (forall q, is_Some (keys w !! q) -> ~ below (server_targets Classes) q) as Hb
    by (intros q; by apply cleared_not_below).
  destruct (Hr2 Hrr (keys w)) as (-> & _ & A2 & C2); try done; [by apply (agree_kept (server_targets Classes) _ (keys w))|].
  rewrite (Hr1 Hrr Hs Hready). do 4 (split; [done|]).
  by apply (agree_cleared (server_targets Classes)); [etrans|..].
Qed.
End Register.

(** ** The classes of the extension *)

(** A text of an identifier, which tells its first member. *)
Definition example_guid_text (g : GUID) : list Z := 123 :: hexadecimal_padded 8 (Data1 g) [125].

Definition example_classes : list COCLASS := ClassList example_guid_text (lit "imageres.dll,30").

(** Keys of the machine. *)
Definition example_path (s : list string) : PATH := (fun x => fold_upper (lit x)) <$> s.

Definition example_registry : MAP_REGISTRY :=
  mkMapRegistry
    (list_to_map ((fun s => (example_path s, ∅)) <$>
       [[]; ["SOFTWARE"]; ["SOFTWARE"; "Classes"]; ["SOFTWARE"; "Classes"; "CLSID"]; ["SOFTWARE"; "Classes"; "Drive"];
        ["SOFTWARE"; "Classes"; "Drive"; "shellex"];
        ["SOFTWARE"; "Classes"; "Drive"; "shellex"; "ContextMenuHandlers"]]%string))
    {[HKEY_LOCAL_MACHINE := []]}.

Definition mount_server_path : PATH := example_path ["SOFTWARE"; "Classes"; "CLSID"; "{62ad20c1}"; "InProcServer32"].

(** A test for a key with nothing below it. *)
Definition nothing_below (K : gmap PATH VALUES) (c : PATH) : bool :=
  forallb (fun kv => negb (bool_decide (c `prefix_of` kv.1))) (map_to_list K).

Lemma nothing_below_cleared (w : MAP_REGISTRY) c : nothing_below (keys w) c = true -> cleared (keys w) (KeyTarget c).
Proof.
  intros Hb q Hq. apply eq_None_not_Some. intros [vs E]. unfold nothing_below in Hb. rewrite forallb_forall in Hb.
  specialize (Hb (q, vs) (proj1 (list_elem_of_In _ _) (proj2 (elem_of_map_to_list _ _ _) E))).
  cbn [fst] in Hb. by rewrite bool_decide_true in Hb.
Qed.

Lemma all_cleared (w : MAP_REGISTRY) T :
  forallb (fun t => if t is KeyTarget c then nothing_below (keys w) c else false) T = true -> Forall (cleared (keys w)) T.
Proof.
  rewrite forallb_forall. intros Hb. apply Forall_forall. intros t Ht%list_elem_of_In%Hb.
  destruct t; [by apply nothing_below_cleared|done].
Qed.

Lemma example_registry_classes :
  held example_registry !! HKEY_LOCAL_MACHINE = Some [] /\ Forall (class_wf example_guid_text) example_classes /\
  Forall (cleared (keys example_registry)) (server_targets example_guid_text [] example_classes) /\
  is_Some (keys example_registry !! CLSID_PATH []) /\
  Forall (fun c => class_ready [] c (keys example_registry)) example_classes.
Proof.
  split; [reflexivity|]. split.
  { unfold class_wf. apply (bool_decide_unpack _). vm_compute. exact I. }
  split; [|split].
  - apply all_cleared. vm_compute. reflexivity.
  - apply (bool_decide_unpack _). vm_compute. exact I.
  - unfold class_ready. apply (bool_decide_unpack _). vm_compute. exact I.
Qed.

(** The real classes in a registry without them. *)
Lemma shell_register_roundtrip_witness :
  exists w1 w2,
    DllRegisterServer example_guid_text (inr (lit "C:\winspd.dll")) example_classes example_registry = Some (S_OK, true, w1) /\
    keys w1 !! mount_server_path ≫= (.!! []) = Some (REG_SZ, wide_sz (lit "C:\winspd.dll")) /\
    DllUnregisterServer example_guid_text example_classes w1 = Some (S_OK, true, w2) /\
    keys w2 = keys example_registry.
Proof.
  destruct example_registry_classes as (H1 & H2 & H3 & H4 & H5).
  destruct (shell_register_roundtrip example_guid_text [] example_registry (lit "C:\winspd.dll") example_classes H1 H2 H3)
    as (r1 & b1 & w1 & E1 & _ & _ & r2 & b2 & w2 & E2 & _ & H).
  destruct (H map_registry_reliable H4 H5) as (-> & -> & -> & -> & Hk).
  exists w1, w2. split; [exact E1|]. split; [|split; [exact E2|exact Hk]].
  assert ((r ← DllRegisterServer example_guid_text (inr (lit "C:\winspd.dll")) example_classes example_registry;
           keys r.2 !! mount_server_path ≫= (.!! [])) = Some (REG_SZ, wide_sz (lit "C:\winspd.dll"))) as E
    by (vm_compute; reflexivity).
  rewrite E1 in E. exact E.
Defined.
