(* ===== verification/ShellExt.v ===== *)
(** * Mounting and ejecting from the shell: [shellex/mountcmd.hpp], [shellex/ejectmnu.hpp], [shellex/ctxmenu.hpp]

    The names of files are lists of characters without their terminators; a null pointer is [None].
    Reading past the end of the buffer of a descriptor is [None] as well, and so is a recursion
    that needs more fuel. *)

From S2P Require Import Prelude Wdk IoctlTypes Minimal Text LaunchText Launcher LaunchClient ShellCom.

Definition ERROR_SHARING_VIOLATION := 32.
Definition FILE_ATTRIBUTE_REPARSE_POINT := 0x400.

(** [4 + MAX_PATH] wide characters. *)
Definition sizeof_Volume : Z := (4 + MAX_PATH) * 2.

(** A name with its terminator, as the client library takes it. *)
Definition sz (t : list Z) : list Z := t ++ [0].

(** ** Ejecting *)

(** The last character is dropped if it is a backslash. *)
Definition drop_backslash (t : list Z) : list Z :=
  match last t with Some c => if c =? 92 then removelast t else t | None => t end.

(** [GetVolume]: the error, or the name of the volume.  [PathName] is [GetVolumePathNameW] with the
    size of the buffer in characters. *)
Definition GetVolume (PathName : list Z -> Z -> Z + list Z) (Name : option (list Z)) (VolumeBufSize : Z) : Z + list Z :=
  if 4 >? VolumeBufSize / 2 then inl ERROR_INVALID_PARAMETER
  else
    match Name with
    | None => inl ERROR_FILE_NOT_FOUND
    | Some Name =>
        match PathName Name (VolumeBufSize / 2 - 4) with
        | inl LastError => inl LastError
        | inr t => inr (drop_backslash (if default 0 (t !! 0%nat) =? 92 then t else lit "\\?\" ++ t))
        end
    end.

(** [strcmp] of the C library, up to the first difference. *)
Definition strcmp : list Z -> list Z -> option Z := strcmp_loop (fun c => c).

Definition eject_vendor_is_spd (Desc : list Z) : option bool :=
  Size ← load_le32 4 Desc;
  if Size <=? sizeof_DescBuf then
    Offset ← load_le32 12 Desc;
    if negb (0 =? Offset) then
      v ← strcmp (drop (Z.to_nat Offset) Desc) (SPD_IOCTL_VENDOR_ID ++ [0]);
      Some (0 =? v)
    else Some false
  else Some false.

(** The test of a [STORAGE_IDENTIFIER] at the offset [o]: unlike the launcher's, it leaves out the
    units that are not to be ejected. *)
Definition eject_identifier_is_pid (o : nat) (Desc : list Z) : option bool :=
  let eq32 k v := x ← load_le32 (o + k) Desc; Some (v =? x) in
  let eq8 k v := x ← Desc !! (o + k)%nat; Some (v =? x) in
  and_then (eq32 0%nat 1) (and_then (eq32 4%nat 0) (and_then (eq32 12%nat 0)
    (and_then (x ← load_le16 (o + 8) Desc; Some (8 =? x))
       (and_then (eq8 16%nat 80) (and_then (eq8 17%nat 73) (and_then (eq8 18%nat 68) (eq8 19%nat 32))))))).

Fixpoint eject_find_pid (n : nat) (o : nat) (Desc : list Z) : option (option Z) :=
  match n with
  | O => Some None
  | S n =>
      pid ← eject_identifier_is_pid o Desc;
      if (pid : bool) then
        b4 ← Desc !! (o + 20)%nat; b5 ← Desc !! (o + 21)%nat; b6 ← Desc !! (o + 22)%nat; b7 ← Desc !! (o + 23)%nat;
        Some (Some (get_be32 b4 b5 b6 b7))
      else
        NextOffset ← load_le16 (o + 10) Desc;
        eject_find_pid n (o + Z.to_nat NextOffset) Desc
  end.

(** [GetVolumeOwnerProcessId]: the error and the process. *)
Definition EjectVolumeOwner (a : VOLUME_OWNER) : option (Z * Z) :=
  if INVALID_HANDLE_VALUE =? (vo_Create a).1 then Some ((vo_Create a).2, 0)
  else
    let '(ok, LastError, Desc) := vo_Device a in
    if negb ok then Some (LastError, 0)
    else
      spd ← eject_vendor_is_spd Desc;
      if negb spd then Some (ERROR_NO_ASSOCIATION, 0)
      else
        let '(ok, LastError, Desc) := vo_DeviceId a in
        if negb ok then Some (LastError, 0)
        else
          Size ← load_le32 4 Desc;
          if Size <=? sizeof_DescBuf then
            Count ← load_le32 8 Desc;
            ProcessId ← eject_find_pid (Z.to_nat Count) 12 Desc;
            Some (match ProcessId with
                  | Some ProcessId => (ERROR_SUCCESS, ProcessId)
                  | None => (ERROR_NO_ASSOCIATION, 0)
                  end)
          else Some (ERROR_NO_ASSOCIATION, 0).

Section Eject.
(** The system: the volume of a path, and the answers for a volume; the pipe of the launcher, and
    whether the buffer of a call is allocated. *)
Context (PathName : list Z -> Z -> Z + list Z) (Volume : list Z -> VOLUME_OWNER).
Context (CallPipe : list Z -> Z * list Z * Z) (Alloc : bool).

Definition CanEject (Name : option (list Z)) : option bool :=
  match GetVolume PathName Name sizeof_Volume with
  | inl _ => Some false
  | inr v => '(err, _) ← EjectVolumeOwner (Volume v); Some (ERROR_SUCCESS =? err)
  end.

Definition Eject (Name : option (list Z)) : option Z :=
  match GetVolume PathName Name sizeof_Volume with
  | inl err => Some err
  | inr v =>
      '(err, ProcessId) ← EjectVolumeOwner (Volume v);
      if negb (ERROR_SUCCESS =? err) then Some err
      else
        r ← SpdLaunchStop CallPipe Alloc (sz (lit ".pid.")) (sz (decimal 10 ProcessId []));
        let LauncherError := default 0 (lr_LauncherError r) in
        Some (if negb (ERROR_SUCCESS =? lr_Error r) || (ERROR_FILE_NOT_FOUND =? LauncherError)
              then ERROR_NO_ASSOCIATION else LauncherError)
  end.

(** [Invoke]: the result, and the error of the message that is shown, if there is one. *)
Definition Invoke (Name : option (list Z)) (ShowUI : bool) : option (Z * option Z) :=
  err ← Eject Name;
  Some (S_OK, if negb (ERROR_SUCCESS =? err) && ShowUI then Some err else None).

(** [QueryContextMenu]: the number of new items, and where the item is put.  [Separators] tells for
    each item of the menu whether it is known to be a separator. *)
Definition CMF_DEFAULTONLY := 1.

Fixpoint separator_from (I : Z) (Separators : list bool) : option Z :=
  match Separators with
  | [] => None
  | s :: Separators => if (s : bool) then Some I else separator_from (I + 1) Separators
  end.

Definition QueryContextMenu (Name : option (list Z)) (Separators : list bool) (Index Flags : Z)
    : option (Z * option Z) :=
  if negb (0 =? Flags .& CMF_DEFAULTONLY) then Some (0, None)
  else
    can ← CanEject Name;
    if negb can then Some (0, None)
    else Some (1, Some (default Index (separator_from Index (drop (Z.to_nat Index) Separators)))).

(** [InvokeCommand]: a verb is a number, or a pointer whose higher word is not zero, to a text. *)
Record INVOKE_INFO := mkInvoke {
  iv_Ex : bool; iv_Unicode : bool; iv_NoUI : bool; iv_Verb : Z; iv_VerbText : list Z; iv_VerbW : Z; iv_VerbWText : list Z
}.

Definition HIWORD (p : Z) : Z := (p / 2 ^ 16) mod 2 ^ 16.
Definition LOWORD (p : Z) : Z := p mod 2 ^ 16.
Definition E_FAIL := 0x80004005.

(** [GetVerbNameA] and [GetVerbNameW] *)
Definition GetVerbName : list Z := lit "Drive".

(** [StrCmpIA], [StrCmpIW]: are two texts equal but for the case of their letters? *)
Definition same_text (s t : list Z) : bool := bool_decide (map invariant_toupper s = map invariant_toupper t).

Definition InvokeCommand (Name : option (list Z)) (i : INVOKE_INFO) : option (Z * option Z) :=
  let Unicode := iv_Ex i && iv_Unicode i in
  let Invoked :=
    if negb Unicode && negb (0 =? HIWORD (iv_Verb i)) then same_text (iv_VerbText i) GetVerbName
    else if Unicode && negb (0 =? HIWORD (iv_VerbW i)) then same_text (iv_VerbWText i) GetVerbName
    else 0 =? LOWORD (iv_Verb i) in
  if Invoked then Invoke Name (negb (iv_NoUI i)) else Some (E_FAIL, None).
End Eject.

(** ** Mounting *)

(** The text after the last character [c], if there is one. *)
Fixpoint after_last (c : Z) (t : list Z) : option (list Z) :=
  match t with
  | [] => None
  | x :: t => match after_last c t with Some r => Some r | None => if x =? c then Some t else None end
  end.

Section Mount.
(** The system: the error of [CreateFileW], or 0; [GetFinalPathNameByHandle] of the file, with the
    size of the buffer in characters: what it returns, the name, and the last error; and the
    attributes that [FindFirstFileW] finds. *)
Context (Create : list Z -> Z) (FinalPath : list Z -> Z -> Z * list Z * Z) (FindFirst : list Z -> option Z).

(** [GetFinalPathName]: the error or the name.  [fuel] bounds the recursion. *)
Fixpoint GetFinalPathName (fuel : nat) (Name : list Z) (Size : Z) : option (Z + list Z) :=
  match fuel with
  | O => None
  | S fuel =>
      let err := Create Name in
      if negb (0 =? err) then
        if ERROR_SHARING_VIOLATION =? err then
          match after_last 92 Name with
          | None => Some (inl ERROR_SHARING_VIOLATION)
          | Some BaseName =>
              let n := Z.of_nat (length Name) - Z.of_nat (length BaseName) in
              if sizeof_Volume <? n * 2 + 2 then Some (inl ERROR_SHARING_VIOLATION)
              else
                r ← GetFinalPathName fuel (take (Z.to_nat n) Name) Size;
                match r with
                | inl _ => Some (inl ERROR_SHARING_VIOLATION)
                | inr Buf =>
                    match FindFirst Name with
                    | None => Some (inl ERROR_SHARING_VIOLATION)
                    | Some Attributes =>
                        if negb (0 =? Attributes .& FILE_ATTRIBUTE_REPARSE_POINT)
                        then Some (inl ERROR_SHARING_VIOLATION)
                        else
                          let Buf := drop_backslash Buf in
                          if Size <? (Z.of_nat (length Buf) + 1 + Z.of_nat (length BaseName) + 1) * 2
                          then Some (inl ERROR_INSUFFICIENT_BUFFER)
                          else Some (inr (Buf ++ 92 :: BaseName))
                    end
                end
          end
        else Some (inl err)
      else
        let Size := if 2 <=? Size then (Size - 2) / 2 else 0 in
        let '(n, Buf, LastError) := FinalPath Name Size in
        if (0 =? n) || (Size <? n) then Some (inl LastError) else Some (inr Buf)
  end.

Context (CallPipe : list Z -> Z * list Z * Z) (Alloc : bool).

(** The error of [Mount], before it is made a result. *)
Definition MountError (fuel : nat) (Name : list Z) : option Z :=
  match after_last 46 Name with
  | None => Some ERROR_NO_ASSOCIATION
  | Some ClassName =>
      r ← GetFinalPathName fuel Name sizeof_Volume;
      match r with
      | inl err => Some err
      | inr Name =>
          r ← SpdLaunchStart CallPipe Alloc (sz ClassName) (sz Name) [Some (sz Name)];
          let LauncherError := default 0 (lr_LauncherError r) in
          Some (if negb (ERROR_SUCCESS =? lr_Error r) then ERROR_NO_ASSOCIATION
                else if ERROR_FILE_NOT_FOUND =? LauncherError then ERROR_NO_ASSOCIATION
                else if ERROR_ALREADY_EXISTS =? LauncherError then ERROR_SUCCESS
                else LauncherError)
      end
  end.

Definition Mount (fuel : nat) (Name : list Z) : option Z :=
  err ← MountError fuel Name; Some (HRESULT_FROM_WIN32 err).

(** [Execute]: the result of the last item that has a name. *)
Fixpoint Execute (fuel : nat) (Names : list (option (list Z))) (Result : Z) : option Z :=
  match Names with
  | [] => Some Result
  | Some Name :: Names => Result ← Mount fuel Name; Execute fuel Names Result
  | None :: Names => Execute fuel Names Result
  end.
End Mount.
