(* ===== verification/ShellExtProps.v ===== *)
(** * What the shell does with units

    A unit is ejected by the stop of its owner, whom the descriptors of the driver name; a file is
    mounted by the start of the service of its extension, with the final name of the file. *)

From S2P Require Import Prelude Wdk IoctlTypes Minimal MinimalProps StrToInt ListEntry Srb Ioq StgUnit StgUnitInv StgUnitProps Scsi ScsiSpec ScsiProps.
From S2P Require Import Text LaunchText LaunchTextProps Launcher LaunchServer LaunchServerProps LaunchClient LaunchClientProps ShellCom ShellExt.

#[local] Set Warnings "-clear-no-such-hyp".

(** ** Names *)

Lemma after_last_spec c t r :
  after_last c t = Some r -> exists d, t = d ++ c :: r /\ c ∉ r.
Proof.
  revert r. induction t as [|x t IH]; [done|]. intros r. cbn [after_last].
  destruct (after_last c t) as [r'|] eqn:E.
  - intros [= ->]. destruct (IH r eq_refl) as (d & -> & Hr). by exists (x :: d).
  - destruct (Z.eqb_spec x c) as [->|]; [|done]. intros [= ->]. exists []. split; [done|].
    clear IH. induction r as [|y r IH]; [apply not_elem_of_nil|]. cbn [after_last] in E.
    destruct (after_last c r) eqn:Er; [done|]. destruct (Z.eqb_spec y c) as [->|]; [done|].
    apply not_elem_of_cons. auto.
Qed.

Lemma after_last_end c d : after_last c (d ++ [c]) = Some [].
Proof.
  induction d as [|x d IH]; cbn [app after_last]; [by rewrite Z.eqb_refl|]. by rewrite IH.
Qed.

(** The directory of a name, with its backslash. *)
Definition directory (Name : list Z) : option (list Z) :=
  Base ← after_last 92 Name; Some (take (length Name - length Base) Name).

Lemma directory_spec Name Dir Base :
  after_last 92 Name = Some Base -> directory Name = Some Dir ->
  exists d, Dir = d ++ [92] /\ Name = Dir ++ Base /\ directory Dir = Some Dir.
Proof.
  unfold directory. intros HB. rewrite HB, bind_value. intros [= <-].
  destruct (after_last_spec _ _ _ HB) as (d & -> & _). exists d.
  assert (take (length (d ++ 92%Z :: Base) - length Base) (d ++ 92 :: Base) = d ++ [92]) as ->.
  { rewrite (cons_middle 92 d Base), app_assoc. apply take_app_length'. rewrite !length_app. cbn [length]. lia. }
  split; [done|]. split; [by rewrite <- app_assoc|]. rewrite after_last_end, bind_value. cbn [length].
  by rewrite Nat.sub_0_r, firstn_all.
Qed.

Section Names.
Context (Create : list Z -> Z) (FinalPath : list Z -> Z -> Z * list Z * Z) (FindFirst : list Z -> option Z).

(** A name that cannot be opened because it is in use, so that its directory is asked. *)
Definition in_use (Name : list Z) : Prop :=
  Create Name = ERROR_SHARING_VIOLATION /\
  exists Dir, directory Name = Some Dir /\ Z.of_nat (length Dir) * 2 + 2 <= sizeof_Volume.

(** One step of [GetFinalPathName], whose recursion is for the directory. *)
Lemma final_path_step fuel Name Size :
  GetFinalPathName Create FinalPath FindFirst (S fuel) Name Size = None <->
  in_use Name /\ exists Dir, directory Name = Some Dir /\ GetFinalPathName Create FinalPath FindFirst fuel Dir Size = None.
Proof using.
  cbn [GetFinalPathName]. unfold in_use. destruct (Z.eqb_spec 0 (Create Name)) as [H0|H0]; cbn [negb].
  { split.
    - destruct (FinalPath Name _) as [[n t] e]. by case_match.
    - intros [[Hs _] _]. by rewrite <- H0 in Hs. }
  destruct (Z.eqb_spec ERROR_SHARING_VIOLATION (Create Name)) as [Hs|Hs].
  2: { split; [done|]. intros [[He _] _]. congruence. }
  destruct (after_last 92 Name) as [Base|] eqn:EB.
  2: { split; [done|]. intros [_ (Dir & ED & _)]. unfold directory in ED. by rewrite EB in ED. }
  destruct (directory Name) as [Dir|] eqn:ED; [|by unfold directory in ED; rewrite EB in ED].
  destruct (directory_spec _ _ _ EB ED) as (d & Ed & EN & _).
  assert (Z.of_nat (length Name) - Z.of_nat (length Base) = Z.of_nat (length Dir)) as ->
    by (rewrite EN, length_app; lia).
  assert (take (Z.to_nat (Z.of_nat (length Dir))) Name = Dir) as ->
    by (rewrite Nat2Z.id, EN; apply take_app_length).
  destruct (Z.ltb_spec sizeof_Volume (Z.of_nat (length Dir) * 2 + 2)) as [Hl|Hl].
  { split; [done|]. intros [(_ & Dir' & [= <-] & Hfit) _]. lia. }
  destruct (GetFinalPathName Create FinalPath FindFirst fuel Dir Size) as [r|] eqn:EG.
  - rewrite bind_value. split; [|by intros [_ (Dir' & [= <-] & ?)]; congruence].
    destruct r; [done|]. destruct (FindFirst Name); [|done]. by repeat case_match.
  - split; [|done]. intros _. split; [split; [done|]; by exists Dir|by exists Dir].
Qed.

(** The name of a file to mount is found with at most one step to its directory, except when
    that directory is in use as well: then the recursion goes on with the same directory, and never
    ends. *)
Theorem final_path_ends Name Size :
  (exists Dir, directory Name = Some Dir /\ in_use Name /\ in_use Dir /\
     forall fuel, GetFinalPathName Create FinalPath FindFirst fuel Name Size = None) \/
  is_Some (GetFinalPathName Create FinalPath FindFirst 2 Name Size).
Proof using.
  destruct (GetFinalPathName Create FinalPath FindFirst 2 Name Size) eqn:E; [right; by eexists|left].
  apply final_path_step in E as (HU & Dir & ED & E). apply final_path_step in E as (HD & _).
  exists Dir. split; [done|]. split; [done|]. split; [done|].
  assert (exists Base, after_last 92 Name = Some Base) as [Base EB].
  { unfold directory in ED. destruct (after_last 92 Name); [by eexists|done]. }
  destruct (directory_spec _ _ _ EB ED) as (d & _ & _ & EDD).
  assert (forall fuel, GetFinalPathName Create FinalPath FindFirst fuel Dir Size = None) as Hdir.
  { induction fuel as [|fuel IH]; [done|]. apply final_path_step. split; [done|]. by exists Dir. }
  intros [|fuel]; [done|]. apply final_path_step. split; [done|]. by exists Dir.
Qed.
End Names.

(** ** Identifiers *)

(** The buffer [Desc] has from the offset [o] on an identifier for each designator of the device
    identification page, as the storage class driver of the system makes them. *)
Fixpoint described (ds : list (Z * Z * Z * list Z)) (o : nat) (Desc : list Z) : Prop :=
  match ds with
  | [] => True
  | (CodeSet, Type_, Association, Id) :: ds =>
      exists Next, load_le32 o Desc = Some CodeSet /\ load_le32 (o + 4) Desc = Some Type_ /\
        load_le16 (o + 8) Desc = Some (Z.of_nat (length Id)) /\ load_le16 (o + 10) Desc = Some Next /\
        load_le32 (o + 12) Desc = Some Association /\ (forall i, (i < length Id)%nat -> Desc !! (o + (16 + i))%nat = Id !! i) /\
        described ds (o + Z.to_nat Next) Desc
  end.

(** The process that the shell finds: only of a unit that may be ejected. *)
Fixpoint eject_process (ds : list (Z * Z * Z * list Z)) : option Z :=
  match ds with
  | [] => None
  | (c, t, a, Id) :: ds =>
      match Id with
      | [p; i; d; x; b4; b5; b6; b7] =>
          if (c =? 1) && (t =? 0) && (a =? 0) && (p =? 80) && (i =? 73) && (d =? 68) && (x =? 32)
          then Some (get_be32 b4 b5 b6 b7) else eject_process ds
      | _ => eject_process ds
      end
  end.

Lemma and_then_value (b : bool) c : and_then (Some b) c = if b then c else Some false.
Proof. done. Qed.

Lemma eject_find_described ds o Desc :
  described ds o Desc -> eject_find_pid (length ds) o Desc = Some (eject_process ds).
Proof.
  revert o. induction ds as [|[[[c t] a] Id] ds IH]; intros o; [done|]. cbn [described length eject_find_pid].
  intros (Next & Hc & Ht & Hs & HN & Ha & Hb & Hd).
  assert (forall r : option (option Z), (NextOffset ← load_le16 (o + 10) Desc; eject_find_pid (length ds) (o + Z.to_nat NextOffset) Desc) =
    Some (eject_process ds)) as Hrest by (intros _; rewrite HN, bind_value; by apply IH).
  specialize (Hrest None). cbn [eject_process].
  unfold eject_identifier_is_pid. rewrite Nat.add_0_r, Hc, Ht, Ha, Hs, !bind_value, !and_then_value.
  rewrite !(Z.eqb_sym _ c), !(Z.eqb_sym _ t), !(Z.eqb_sym _ a).
  destruct (c =? 1); [|rewrite bind_value; by destruct Id as [|p [|i [|d [|x [|b4 [|b5 [|b6 [|b7 [|]]]]]]]]]].
  destruct (t =? 0); [|rewrite bind_value; by destruct Id as [|p [|i [|d [|x [|b4 [|b5 [|b6 [|b7 [|]]]]]]]]]].
  destruct (a =? 0); [|rewrite bind_value; by destruct Id as [|p [|i [|d [|x [|b4 [|b5 [|b6 [|b7 [|]]]]]]]]]].
  destruct (Z.eqb_spec 8 (Z.of_nat (length Id))) as [Hl|Hl].
  2: { rewrite bind_value. destruct Id as [|p [|i [|d [|x [|b4 [|b5 [|b6 [|b7 [|]]]]]]]]]; try exact Hrest. by cbn in Hl. }
  destruct Id as [|p [|i [|d [|x [|b4 [|b5 [|b6 [|b7 [|]]]]]]]]]; cbn [length] in Hl; try lia. cbn [andb].
  pose proof (Hb 0%nat) as B0. pose proof (Hb 1%nat) as B1. pose proof (Hb 2%nat) as B2. pose proof (Hb 3%nat) as B3.
  pose proof (Hb 4%nat) as B4. pose proof (Hb 5%nat) as B5. pose proof (Hb 6%nat) as B6. pose proof (Hb 7%nat) as B7.
  cbn [length] in *. specialize (B0 ltac:(lia)). specialize (B1 ltac:(lia)). specialize (B2 ltac:(lia)).
  specialize (B3 ltac:(lia)). specialize (B4 ltac:(lia)). specialize (B5 ltac:(lia)). specialize (B6 ltac:(lia)).
  specialize (B7 ltac:(lia)). cbn [Nat.add lookup list_lookup] in *.
  rewrite B0, B1, B2, B3, B4, B5, B6, B7, !bind_value, !and_then_value.
  rewrite (Z.eqb_sym 80 p), (Z.eqb_sym 73 i), (Z.eqb_sym 68 d), (Z.eqb_sym 32 x).
  destruct (p =? 80); [|rewrite bind_value; exact Hrest].
  destruct (i =? 73); [|rewrite bind_value; exact Hrest].
  destruct (d =? 68); [|rewrite bind_value; exact Hrest].
  destruct (x =? 32); rewrite bind_value; [done|exact Hrest].
Qed.

(** A [STORAGE_DEVICE_DESCRIPTOR] of a unit of this driver, and the identifiers of its page. *)
Definition spd_device (Desc : list Z) : Prop :=
  exists Size Offset, load_le32 4 Desc = Some Size /\ Size <= sizeof_DescBuf /\
    load_le32 12 Desc = Some Offset /\ Offset <> 0 /\ is_Some (Desc !! Z.to_nat Offset) /\
    take 9 (drop (Z.to_nat Offset) Desc) = SPD_IOCTL_VENDOR_ID ++ [0].

Definition device_ids (ds : list (Z * Z * Z * list Z)) (Desc : list Z) : Prop :=
  exists Size, load_le32 4 Desc = Some Size /\ Size <= sizeof_DescBuf /\
    load_le32 8 Desc = Some (Z.of_nat (length ds)) /\ described ds 12 Desc.

(** What the system answers for the volume of a unit with these designators. *)
Definition volume_of (ds : list (Z * Z * Z * list Z)) (a : VOLUME_OWNER) : Prop :=
  (vo_Create a).1 <> INVALID_HANDLE_VALUE /\
  (exists e Desc, vo_Device a = (true, e, Desc) /\ spd_device Desc) /\
  (exists e Desc, vo_DeviceId a = (true, e, Desc) /\ device_ids ds Desc).

Lemma spd_device_vendor Desc : spd_device Desc -> eject_vendor_is_spd Desc = Some true.
Proof.
  intros (Size & Offset & H1 & H2 & H3 & H4 & _ & H5). unfold eject_vendor_is_spd.
  rewrite H1, bind_value, (proj2 (Z.leb_le _ _) H2), H3, bind_value. rewrite (proj2 (Z.eqb_neq 0 Offset)) by done.
  cbn [negb]. rewrite <- (take_drop 9 (drop (Z.to_nat Offset) Desc)), H5. reflexivity.
Qed.

Lemma eject_owner_described ds a :
  volume_of ds a ->
  EjectVolumeOwner a = Some (match eject_process ds with Some p => (ERROR_SUCCESS, p) | None => (ERROR_NO_ASSOCIATION, 0) end).
Proof.
  intros (Hc & (e & Dev & Ed & Hd) & (e2 & Desc & Ei & Size & H1 & H2 & H3 & H4)). unfold EjectVolumeOwner.
  rewrite (proj2 (Z.eqb_neq _ _)) by auto. rewrite Ed. cbn [negb]. rewrite (spd_device_vendor _ Hd), bind_value.
  cbn [negb]. rewrite Ei. cbn [negb]. rewrite H1, bind_value, (proj2 (Z.leb_le _ _) H2), H3, bind_value, Nat2Z.id.
  by rewrite (eject_find_described _ _ _ H4), bind_value.
Qed.

(** The page of a unit names its owner, unless the unit is not to be ejected. *)
Lemma unit_eject_process u data :
  unit_data_wf u -> vpd_data u VPD_DEVICE_IDENTIFIERS = Some data -> 0 <= OwnerProcessId u < 2 ^ 32 ->
  exists ds, identification data = Some ds /\
    eject_process ds = if EjectDisabled (StorageUnitParams u) then None else Some (OwnerProcessId u).
Proof.
  intros Hu Hd Ho. pose proof (identification_vpd u data Hu Hd) as HI. cbv zeta in HI. eexists. split; [exact HI|].
  destruct Hu as [HP Hs]. pose proof (wf_ProductId _ HP) as Hp. unfold SPD_IOCTL_VENDOR_ID.
  destruct (ProductId _) as [|b l]; [done|]. cbn [app eject_process].
  destruct (EjectDisabled _); cbn; rewrite ?be32_get, ?u32_small; done.
Qed.

(** ** Numbers as texts *)

Lemma decimal_numeral n v t :
  (0 < n)%nat -> 0 <= v < 10 ^ Z.of_nat n ->
  exists ds cs, decimal n v t = cs ++ t /\ numeral 10 ds cs /\ (forall w, fold_left (fun v d => 10 * v + d) ds w = w * 10 ^ Z.of_nat (length ds) + v) /\
    (0 < v -> exists d ds', ds = d :: ds' /\ d <> 0) /\ (0 < length ds)%nat.
Proof.
  revert v t. induction n as [|n IH]; [lia|]. intros v t _ Hv. cbn [decimal]. destruct (Z.ltb_spec v 10) as [H|H].
  - exists [v], [48 + v]. split; [done|]. split.
    { split; [apply Forall2_cons_2; [left; lia|constructor]|repeat constructor; lia]. }
    split; [intros w; cbn; lia|]. split; [intros ?; exists v, []; split; [done|lia]|cbn; lia].
  - assert (0 < n)%nat as Hn by (destruct n; [cbn in Hv; lia|lia]).
    rewrite Nat2Z.inj_succ, Z.pow_succ_r in Hv by lia.
    destruct (IH (v / 10) (48 + v mod 10 :: t) Hn ltac:(dlia)) as (ds & cs & -> & [HF Hds] & Hval & Hhd & Hpos).
    exists (ds ++ [v mod 10]), (cs ++ [48 + v mod 10]). split; [by rewrite <- app_assoc|]. split.
    { split; [apply Forall2_app; [done|]; apply Forall2_cons_2; [left; dlia|constructor]|].
      apply Forall_app. split; [done|]. repeat constructor; dlia. }
    split; [|split].
    + intros w. rewrite fold_left_app, Hval. cbn [fold_left]. rewrite length_app. cbn [length].
      rewrite Nat2Z.inj_add, Z.pow_add_r by lia. change (10 ^ Z.of_nat 1) with 10. pose proof (Z.div_mod v 10). lia.
    + intros _. destruct (Hhd ltac:(dlia)) as (d & ds' & -> & Hd). by exists d, (ds' ++ [v mod 10]).
    + rewrite length_app. lia.
Qed.

(** The number of a process is read back. *)
Lemma process_reads p r :
  0 < p < 2 ^ 32 -> exists q, wcstoint (decimal 10 p [] ++ 0 :: r) 0 false = Some (p, q).
Proof.
  intros Hp. destruct (decimal_numeral 10 p [] ltac:(lia) ltac:(lia)) as (ds & cs & -> & Hnum & Hval & Hhd & _).
  rewrite app_nil_r. unfold wcstoint, toint_sign. rewrite bind_value.
  assert (no_digit 10 (0 :: r)) as Hno by (exists 0, r; split; [done|]; unfold digit_char; lia).
  destruct (toint_base_prefix 0 10 [] ds cs (0 :: r)) as [Hb Hbase]; [|done|done|].
  { right. right. right. split; [done|]. split; [done|]. split; [done|]. apply Hhd. lia. }
  cbn [app] in Hb. rewrite Hb, bind_value.
  assert (fold_left (fun v d => 10 * v + d) ds 0 = p) as Hv by (rewrite Hval; lia).
  rewrite (toint_loop_numeral 10 ltac:(lia) ds cs) by (rewrite ?Hv; done || lia).
  rewrite Hv, (toint_loop_stop 10 ltac:(lia)) by done. rewrite bind_value. eexists. f_equal. f_equal. lia.
Qed.

Lemma decimal_text p : 0 <= p < 2 ^ 32 -> is_text (decimal 10 p []).
Proof.
  intros Hp. destruct (decimal_numeral 10 p [] ltac:(lia) ltac:(lia)) as (ds & cs & -> & [HF Hds] & _).
  rewrite app_nil_r. induction HF as [|d c ds cs Hd HF IH]; [constructor|].
  apply Forall_cons in Hds as [Hd0 Hds]. constructor; [unfold digit_char in Hd; lia|by apply IH].
Qed.

(** ** The launcher *)

Section Served.
Context (DBG : bool) (Job : Z) (L : LAUNCHER) (a : COMMAND_ANSWERS).

(** What the shell makes of the launcher's error. *)
Definition eject_error (err : Z) : Z := if err =? ERROR_FILE_NOT_FOUND then ERROR_NO_ASSOCIATION else client_error err.

Definition mount_error (err : Z) : Z :=
  if err =? ERROR_FILE_NOT_FOUND then ERROR_NO_ASSOCIATION
  else if err =? ERROR_ALREADY_EXISTS then ERROR_SUCCESS else client_error err.

Lemma client_error_is e v : 0 < v < ERROR_BROKEN_PIPE \/ ERROR_BROKEN_PIPE < v < 2 ^ 31 -> (v =? client_error e) = (e =? v).
Proof using.
  intros Hv. unfold client_error. destruct (Z.ltb_spec e (2 ^ 31)); [apply Z.eqb_sym|].
  destruct (Z.eqb_spec v ERROR_BROKEN_PIPE), (Z.eqb_spec e v); (done || (unfold ERROR_BROKEN_PIPE in *; lia)).
Qed.

(** A stop of an instance that a client asks for. *)
Lemma stop_served c i :
  is_text c -> is_text i -> 2 * Z.of_nat (1 + length (multi_sz [c; i])) <= SPD_LAUNCH_PIPE_BUFFER_SIZE ->
  exists r1 r2, forall err L',
    SvcInstanceStop L (c ++ 0 :: r1) (i ++ 0 :: r2) false (co_Access a) (co_Stop a) (co_Delete a) = Some (err, L') ->
    0 <= err < 2 ^ 32 ->
    SpdLaunchStop (served DBG Job L a) true (sz c) (sz i) = Some (client_result err [] None).
Proof using.
  intros Hc Hi Hfit. assert (arguments [sz c; sz i] [c; i]) as HA.
  { apply arguments_cons; split; [split; [done|by exists []]|]. apply arguments_cons. split; [split; [done|by exists []]|constructor]. }
  destruct (get_parts_named c i [] (arguments_texts _ _ HA) ltac:(cbn; lia)) as (cx & ix & P1 & P2 & E1 & E2 & HA').
  apply arguments_cons in HA' as [[_ [r1 ->]] HA']. apply arguments_cons in HA' as [[_ [r2 ->]] _].
  exists r1, r2. intros err L' HS He. unfold SpdLaunchStop.
  apply (call_served DBG Job L a SpdLaunchCmdStop [sz c; sz i] [c; i] None err [] L' HA Hfit); [|done].
  unfold SvcPipeTransact. rewrite E1, E2. cbv iota zeta.
  change (SpdLaunchCmdStart =? SpdLaunchCmdStop) with false.
  change (SpdLaunchCmdStopForced =? SpdLaunchCmdStop) with false.
  change (SpdLaunchCmdStop =? SpdLaunchCmdStop) with true. cbv iota. cbn [orb]. by rewrite HS, bind_value.
Qed.

(** A start of an instance with one argument. *)
Lemma start_served c i t :
  is_text c -> is_text i -> is_text t ->
  2 * Z.of_nat (1 + length (multi_sz [c; i; t])) <= SPD_LAUNCH_PIPE_BUFFER_SIZE ->
  exists r1 r2 As, arguments As [t] /\ forall err L',
    SvcInstanceStart L (c ++ 0 :: r1) (i ++ 0 :: r2) As Job (co_Create a) (co_Persistent a) = Some (err, L') ->
    0 <= err < 2 ^ 32 ->
    SpdLaunchStart (served DBG Job L a) true (sz c) (sz i) [Some (sz t)] = Some (client_result err [] None).
Proof using.
  intros Hc Hi Ht Hfit. assert (arguments [sz c; sz i; sz t] [c; i; t]) as HA.
  { do 3 (apply arguments_cons; split; [split; [done|by exists []]|]). constructor. }
  destruct (get_parts_named c i [t] (arguments_texts _ _ HA) ltac:(cbn; lia)) as (cx & ix & P1 & P2 & E1 & E2 & HA').
  apply arguments_cons in HA' as [[_ [r1 ->]] HA']. apply arguments_cons in HA' as [[_ [r2 ->]] HA'].
  exists r1, r2, (get_parts 9 P2). split; [done|]. intros err L' HS He. unfold SpdLaunchStart. cbn [length].
  change (9 <? Z.of_nat 1) with false. cbv iota.
  apply (call_served DBG Job L a SpdLaunchCmdStart [sz c; sz i; sz t] [c; i; t] None err [] L' HA Hfit); [|done].
  unfold SvcPipeTransact. rewrite E1, E2. change (SpdLaunchCmdStart =? SpdLaunchCmdStart) with true. cbv iota zeta.
  by rewrite HS, bind_value.
Qed.

(** An instance of the class [.pid.] is the one with that process. *)
Lemma lookup_pid p r1 r2 :
  0 < p < 2 ^ 32 ->
  SvcInstanceLookup L (lit ".pid." ++ 0 :: r1) (decimal 10 p [] ++ 0 :: r2) true = SvcInstanceLookupByPid L p.
Proof using.
  intros Hp. unfold SvcInstanceLookup.
  assert (invariant_wcsicmp (lit ".pid." ++ 0 :: r1) pid_class = Some 0) as -> by reflexivity.
  rewrite !bind_value. change (0 =? 0) with true. cbv iota. destruct (process_reads p r2 Hp) as (q & ->).
  by rewrite bind_value, u32_small by lia.
Qed.

Context (PathName : list Z -> Z -> Z + list Z) (Volume : list Z -> VOLUME_OWNER).

(** C14: The shell ejects a unit by the stop of its owner.  From the answer of the driver to an
    inquiry, which the system gives as identifiers, the shell learns whether the unit may be
    ejected at all, shows the item of the menu only then, and asks the launcher to stop the instance
    whose process provisioned the unit: the launcher looks up the instance by that process, and the
    error of its stop is the error of the ejection.  A unit of which the launcher has no instance,
    or whose ejection is disabled, has no association. *)
Theorem shell_eject_stops_owner u Srb Srb' ds Name t v :
  srb_wf Srb -> unit_data_wf u -> srb_DataBuffer Srb <> 0 -> 0 < OwnerProcessId u < 2 ^ 32 ->
  84 <= SrbGetDataTransferLength Srb ->
  Z.odd (SrbGetCdb Srb !!! 1%nat) = true -> SrbGetCdb Srb !!! 2%nat = VPD_DEVICE_IDENTIFIERS ->
  SpdScsiInquiry u Srb (SrbGetCdb Srb) = Some (SRB_STATUS_SUCCESS, Srb') ->
  identification (take (Z.to_nat (SrbGetDataTransferLength Srb')) (srb_Data Srb')) = Some ds ->
  PathName Name (sizeof_Volume / 2 - 4) = inr t ->
  v = drop_backslash (if default 0 (t !! 0%nat) =? 92 then t else lit "\\?\" ++ t) ->
  volume_of ds (Volume v) ->
  CanEject PathName Volume (Some Name) = Some (negb (EjectDisabled (StorageUnitParams u))) /\
  if EjectDisabled (StorageUnitParams u)
  then Eject PathName Volume (served DBG Job L a) true (Some Name) = Some ERROR_NO_ASSOCIATION
  else exists cx ix, SvcInstanceLookup L cx ix true = SvcInstanceLookupByPid L (OwnerProcessId u) /\
       forall err L', SvcInstanceStop L cx ix false (co_Access a) (co_Stop a) (co_Delete a) = Some (err, L') ->
         0 <= err < 2 ^ 32 ->
         Eject PathName Volume (served DBG Job L a) true (Some Name) = Some (eject_error err).
Proof using.
  intros Hwf Hu Hb Ho HL Hodd Hpage HI Hds HP -> Hvol.
  rewrite (inquiry_spec Srb Hwf Hb u Hu) in HI. unfold inquiry_answer in HI. rewrite Hodd, Hpage in HI.
  destruct (vpd_data u VPD_DEVICE_IDENTIFIERS) as [data|] eqn:E; [|discriminate E].
  rewrite answer_data in HI by done. pose proof (identifiers_length u data Hu E) as Hlen. unfold reply in HI.
  rewrite Hlen in HI. assert ((Z.of_nat 84 >? SrbGetDataTransferLength Srb) = false) as Hfit by
    (change (Z.of_nat 84) with 84; lia).
  rewrite Hfit in HI. injection HI as <-. simpl in Hds. change (Pos.to_nat 84) with 84%nat in Hds.
  rewrite take_app_length' in Hds by done.
  destruct (unit_eject_process u data Hu E ltac:(lia)) as (ds' & E' & Hp). rewrite Hds in E'. injection E' as <-.
  assert (GetVolume PathName (Some Name) sizeof_Volume = inr (drop_backslash (if default 0 (t !! 0%nat) =? 92 then t else lit "\\?\" ++ t)))
    as EV by (unfold GetVolume; change (4 >? sizeof_Volume / 2) with false; cbv iota; by rewrite HP).
  unfold CanEject, Eject. rewrite EV, (eject_owner_described ds _ Hvol), Hp.
  destruct (EjectDisabled _); [done|]. split; [done|]. rewrite bind_value.
  change (ERROR_SUCCESS =? ERROR_SUCCESS) with true. cbn [negb].
  assert (is_text (lit ".pid.")) as Hc by (repeat constructor; done).
  pose proof (decimal_text (OwnerProcessId u) ltac:(lia)) as Hi.
  assert (length (decimal 10 (OwnerProcessId u) []) <= 10)%nat as Hd by (pose proof (decimal_length 10 (OwnerProcessId u) []); simpl in *; lia).
  destruct (stop_served (lit ".pid.") (decimal 10 (OwnerProcessId u) []) Hc Hi) as (r1 & r2 & HS).
  { unfold multi_sz. cbn [fmap list_fmap concat]. rewrite !length_app. cbn [length].
    change (length (lit ".pid.")) with 5%nat. unfold SPD_LAUNCH_PIPE_BUFFER_SIZE. lia. }
  exists (lit ".pid." ++ 0 :: r1), (decimal 10 (OwnerProcessId u) [] ++ 0 :: r2). split; [by apply lookup_pid|].
  intros err L' Hstop He. rewrite (HS err L' Hstop He), bind_value. cbn [client_result lr_LauncherError lr_Error default from_option id].
  change (negb (ERROR_SUCCESS =? ERROR_SUCCESS)) with false. cbn [orb]. unfold eject_error.
  rewrite client_error_is by (unfold ERROR_FILE_NOT_FOUND, ERROR_BROKEN_PIPE; lia). by destruct (err =? ERROR_FILE_NOT_FOUND).
Qed.

(** Mounting a file starts the service of its extension: the launcher is asked for an instance
    of the class that is the text after the last dot, named by the final name of the file and with
    that name as its argument.  A mount of what is mounted already succeeds; an extension that is
    not a service, as none at all, has no association. *)
Theorem shell_mount_starts_service Create FinalPath FindFirst Name :
  match after_last 46 Name with
  | None => MountError Create FinalPath FindFirst (served DBG Job L a) true 2 Name = Some ERROR_NO_ASSOCIATION
  | Some Class =>
      forall Final, is_text Name -> is_text Final ->
      GetFinalPathName Create FinalPath FindFirst 2 Name sizeof_Volume = Some (inr Final) ->
      2 * Z.of_nat (1 + length (multi_sz [Class; Final; Final])) <= SPD_LAUNCH_PIPE_BUFFER_SIZE ->
      exists r1 r2 As, arguments As [Final] /\
      forall err L', SvcInstanceStart L (Class ++ 0 :: r1) (Final ++ 0 :: r2) As Job (co_Create a) (co_Persistent a) = Some (err, L') ->
        0 <= err < 2 ^ 32 ->
        MountError Create FinalPath FindFirst (served DBG Job L a) true 2 Name = Some (mount_error err)
  end.
Proof using.
  unfold MountError. destruct (after_last 46 Name) as [Class|] eqn:EC; [|done]. intros Final HN HF EG Hfit.
  assert (is_text Class) as Hc.
  { destruct (after_last_spec _ _ _ EC) as (d & -> & _). apply Forall_app in HN as [_ HN]. by apply Forall_cons in HN as [_ HN]. }
  destruct (start_served Class Final Final Hc HF HF Hfit) as (r1 & r2 & As & HA & HS). exists r1, r2, As. split; [done|].
  intros err L' Hst He. rewrite EG, bind_value, (HS err L' Hst He), bind_value.
  cbn [client_result lr_LauncherError lr_Error default from_option id]. unfold mount_error.
  rewrite !client_error_is by (unfold ERROR_FILE_NOT_FOUND, ERROR_ALREADY_EXISTS, ERROR_BROKEN_PIPE; lia).
  change (negb (ERROR_SUCCESS =? ERROR_SUCCESS)) with false. by destruct (err =? ERROR_FILE_NOT_FOUND), (err =? ERROR_ALREADY_EXISTS).
Qed.
End Served.

(** ** Witnesses *)

(** A test for [described]. *)
Fixpoint described_test (ds : list (Z * Z * Z * list Z)) (o : nat) (Desc : list Z) : bool :=
  match ds with
  | [] => true
  | (CodeSet, Type_, Association, Id) :: ds =>
      match load_le16 (o + 10) Desc with
      | Some Next =>
          bool_decide (load_le32 o Desc = Some CodeSet) && bool_decide (load_le32 (o + 4) Desc = Some Type_) &&
          bool_decide (load_le16 (o + 8) Desc = Some (Z.of_nat (length Id))) &&
          bool_decide (load_le32 (o + 12) Desc = Some Association) &&
          bool_decide (take (length Id) (drop (o + 16) Desc) = Id) && described_test ds (o + Z.to_nat Next) Desc
      | None => false
      end
  end.

Lemma described_tested ds o Desc : described_test ds o Desc = true -> described ds o Desc.
Proof.
  revert o. induction ds as [|[[[c t] a] Id] ds IH]; intros o; [done|]. cbn [described_test described].
  destruct (load_le16 (o + 10) Desc) as [Next|]; [|done]. rewrite !andb_true_iff, !bool_decide_eq_true.
  intros (((((H1 & H2) & H3) & H4) & H5) & H6). exists Next. do 3 (split; [done|]). split; [done|]. split; [done|].
  split; [|by apply IH]. intros i Hi. rewrite <- H5. rewrite lookup_take_lt, lookup_drop by done.
  f_equal. lia.
Qed.

(** What the system makes of designators. *)
Definition encode_id (d : Z * Z * Z * list Z) : list Z :=
  let '(c, t, a, Id) := d in
  le32 c ++ le32 t ++ [byte_of 0 (Z.of_nat (length Id)); byte_of 8 (Z.of_nat (length Id))] ++
  [byte_of 0 (16 + Z.of_nat (length Id)); byte_of 8 (16 + Z.of_nat (length Id))] ++ le32 a ++ Id.

Definition encode_ids (ds : list (Z * Z * Z * list Z)) : list Z :=
  let ids := ds ≫= encode_id in
  le32 12 ++ le32 (12 + Z.of_nat (length ids)) ++ le32 (Z.of_nat (length ds)) ++ ids.

Definition example_ids : list (Z * Z * Z * list Z) :=
  default [] (vpd_data example_unit VPD_DEVICE_IDENTIFIERS ≫= identification).

Definition example_volume (_ : list Z) : VOLUME_OWNER :=
  mkVolumeOwner (900, 0)
    (true, 0, [0; 0; 0; 0; 40; 0; 0; 0; 0; 0; 0; 0; 16; 0; 0; 0] ++ SPD_IOCTL_VENDOR_ID ++ [0])
    (true, 0, encode_ids example_ids).

Definition example_path_name (_ : list Z) (_ : Z) : Z + list Z := inr (lit "E:\").

(** A launcher with an instance whose process is 77, the owner of the unit. *)
Definition owner_launcher : LAUNCHER :=
  mkLauncher [1000] {[1000 := mkSvcInstance 2 [99; 0] [105; 0] [97; 0] 500 false 77 16 32 None]} false ∅
    {[RHandle 16; RWait 32; RLocal 500]} [].

Lemma shell_eject_stops_owner_witness :
  CanEject example_path_name example_volume (Some (lit "E:\")) = Some true /\
  exists cx ix, SvcInstanceLookup owner_launcher cx ix true = Some (Some 1000).
Proof.
  set (Srb := example_request 96 (inquiry_cdb 0x83)).
  destruct (SpdScsiInquiry example_unit Srb (SrbGetCdb Srb)) as [[st Srb']|] eqn:E; vm_compute in E; [|done].
  injection E as <- <-.
  pose proof (shell_eject_stops_owner false 0 owner_launcher no_answers example_path_name example_volume
    example_unit Srb) as H.
  edestruct H as [HC HE].
  - apply example_request_wf; [vm_compute; reflexivity|reflexivity|bytes].
  - exact example_unit_data_wf.
  - discriminate.
  - split; vm_compute; reflexivity.
  - vm_compute. discriminate.
  - reflexivity.
  - reflexivity.
  - vm_compute. reflexivity.
  - vm_compute. reflexivity.
  - reflexivity.
  - reflexivity.
  - split; [discriminate|]. split.
    + eexists _, _. split; [reflexivity|]. exists 40, 16. split_and!; try reflexivity; [discriminate..|by eexists].
    + eexists _, _. split; [reflexivity|]. eexists. split; [vm_compute; reflexivity|]. split; [vm_compute; discriminate|].
      split; [vm_compute; reflexivity|]. apply described_tested. vm_compute. reflexivity.
  - split; [exact HC|]. change (EjectDisabled (StorageUnitParams example_unit)) with false in HE. cbv iota in HE.
    destruct HE as (cx & ix & HE & _). exists cx, ix. rewrite HE. vm_compute. reflexivity.
Defined.

(** With the whole of the answers: the instance is stopped, and its process is told to end. *)
Lemma example_eject :
  Eject example_path_name example_volume
    (served false 0 owner_launcher (mkCommandAnswers (co_Create no_answers) (co_Persistent no_answers) (true, true, 0)
       (mkStopAnswers (inr []) true (mkKillAnswers true true 60 64)) (co_Delete no_answers))) true (Some (lit "E:")) = Some 0.
Proof. vm_compute. reflexivity. Qed.

(** A file that opens, with a launcher that refuses the start. *)
Lemma shell_mount_starts_service_witness :
  MountError (fun _ => 0) (fun _ _ => (11, lit "\\?\C:\d.raw", 0)) (fun _ => None)
    (served false 0 (mkLauncher [] ∅ true ∅ ∅ []) no_answers) true 2 (lit "C:\d.raw") = Some ERROR_ACCESS_DENIED.
Proof.
  destruct (shell_mount_starts_service false 0 (mkLauncher [] ∅ true ∅ ∅ []) no_answers (fun _ => 0)
    (fun _ _ => (11, lit "\\?\C:\d.raw", 0)) (fun _ => None) (lit "C:\d.raw") (lit "\\?\C:\d.raw"))
    as (r1 & r2 & As & HA & HS); [repeat constructor; done|repeat constructor; done|reflexivity|vm_compute; discriminate|].
  apply (HS ERROR_ACCESS_DENIED (mkLauncher [] ∅ true ∅ ∅ [])); [|by split].
  unfold SvcInstanceStart, SvcInstanceCreate. reflexivity.
Defined.
