(* ===== verification/RawDiskMain.v ===== *)
(** * The program of the storage device: [tst/rawdisk/rawdisk.c], third part

    The options of [rawdisk], what it logs when it has started, and its life from the creation of the
    disk to its deletion.  The arguments of the program are texts with their terminators; a read past
    a terminator is [None].  What the system answers, and what the threads of the dispatcher do
    while the program waits for them, is an argument. *)

From S2P Require Import Prelude Wdk IoctlTypes UnitHandle Minimal Text LaunchText Dispatcher RawDisk RawDiskCreate.
From S2P Require Import MinimalProps LaunchTextProps.
From S2P Require Import LaunchClientProps RawDiskProps.

(** ** Data *)

(** The variables of [wmain]. *)
Record OPTIONS := mkOptions {
  o_RawDiskFile : option (list Z);
  o_BlockCount : Z; o_BlockLength : Z;
  o_ProductId : list Z; o_ProductRevision : list Z;
  o_WriteAllowed : Z; o_CacheSupported : Z; o_UnmapSupported : Z;
  o_DebugFlags : Z; o_DebugLogFile : option (list Z);
  o_PipeName : option (list Z)
}.

#[export] Instance OPTIONS_eta : Eta OPTIONS := fun o =>
  mkOptions (o_RawDiskFile o) (o_BlockCount o) (o_BlockLength o) (o_ProductId o) (o_ProductRevision o)
    (o_WriteAllowed o) (o_CacheSupported o) (o_UnmapSupported o) (o_DebugFlags o) (o_DebugLogFile o)
    (o_PipeName o).

Definition default_options : OPTIONS :=
  mkOptions None (1024 * 1024) 512 (lit "RawDisk" ++ [0]) (lit "1.0" ++ [0]) 1 1 1 0 None None.

(** The answers to the calls of [wmain]: the standard handle, the file of the log or the error, the
    answers to [RawDiskCreate], the thread of the dispatcher and whether it is resumed; and what
    the threads of the dispatcher do to the unit, the system and the file. *)
Record MAIN_ANSWERS (W F : Type) := mkMain {
  ma_GetStdHandle : Z;
  ma_CreateFile : Z;
  ma_LastError : Z;
  ma_Create : CREATE_ANSWERS F;
  ma_CreateThread : Z * Z * Z;
  ma_ResumeThread : Z * Z;
  ma_Dispatch : Dispatcher.SPD_STORAGE_UNIT -> W -> TLS -> F -> Dispatcher.SPD_STORAGE_UNIT * W * TLS * F
}.
Arguments mkMain {W F} _ _ _ _ _ _ _.
Arguments ma_GetStdHandle {W F} _.
Arguments ma_CreateFile {W F} _.
Arguments ma_LastError {W F} _.
Arguments ma_Create {W F} _.
Arguments ma_CreateThread {W F} _.
Arguments ma_ResumeThread {W F} _.
Arguments ma_Dispatch {W F} _.

(** ** Numbers in arguments: [wcstol] of the C library *)

Definition LONG_MAX : Z := 2 ^ 31 - 1.
Definition LONG_MIN : Z := - 2 ^ 31.

Section Options.
Context (iswspace : Z -> bool).

Fixpoint skip_space (p : list Z) : option (list Z) :=
  match p with
  | [] => None
  | c :: p' => if iswspace c then skip_space p' else Some p
  end.

(** The value of the digits that follow, whether there are any, and what is after them. *)
Fixpoint digits (p : list Z) (v : Z) (any : bool) : option (Z * bool * list Z) :=
  match p with
  | [] => None
  | c :: p' => if is_digit c then digits p' (v * 10 + (c - 48)) true else Some (v, any, p)
  end.

(** [wcstol(p, &endp, 10)]: the value and [endp]. *)
Definition wcstol (p : list Z) : option (Z * list Z) :=
  q ← skip_space p;
  c ← q !! 0%nat;
  let sign := if c =? 45 then -1 else 1 in
  let q := if (c =? 45) || (c =? 43) then drop 1 q else q in
  '(v, any, endp) ← digits q 0 false;
  if (any : bool) then Some (Z.max LONG_MIN (Z.min LONG_MAX (sign * v)), endp) else Some (0, p).

(** ** Options *)

(** [argtol], of an argument that there is. *)
Definition argtol (p : list Z) (deflt : Z) : option Z :=
  '(v, endp) ← wcstol p;
  c ← p !! 0%nat;
  if negb (0 =? c) then
    e ← endp !! 0%nat;
    Some (if 0 =? e then u32 v else deflt)
  else Some deflt.

(** What the letter of an option sets: a number, which has a default, or a text. *)
Inductive SETTING :=
  | SetNumber (deflt : Z) (set : Z -> OPTIONS)
  | SetText (set : list Z -> OPTIONS).

(** The switch over the letter; a letter without a setting tells the usage. *)
Definition option_setting (o : OPTIONS) (c : Z) : option SETTING :=
  if c =? 99 then Some (SetNumber (o_BlockCount o) (fun v => o <| o_BlockCount := v |>))
  else if c =? 67 then Some (SetNumber (o_CacheSupported o) (fun v => o <| o_CacheSupported := v |>))
  else if c =? 100 then Some (SetNumber (o_DebugFlags o) (fun v => o <| o_DebugFlags := v |>))
  else if c =? 68 then Some (SetText (fun s => o <| o_DebugLogFile := Some s |>))
  else if c =? 102 then Some (SetText (fun s => o <| o_RawDiskFile := Some s |>))
  else if c =? 105 then Some (SetText (fun s => o <| o_ProductId := s |>))
  else if c =? 108 then Some (SetNumber (o_BlockLength o) (fun v => o <| o_BlockLength := v |>))
  else if c =? 112 then Some (SetText (fun s => o <| o_PipeName := Some s |>))
  else if c =? 114 then Some (SetText (fun s => o <| o_ProductRevision := s |>))
  else if c =? 85 then Some (SetNumber (o_UnmapSupported o) (fun v => o <| o_UnmapSupported := v |>))
  else if c =? 87 then Some (SetNumber (o_WriteAllowed o) (fun v => o <| o_WriteAllowed := v |>))
  else None.

(** The loop over the arguments: the options and the arguments that are left, or nothing if the
    program tells its usage and ends. *)
Fixpoint options_loop (argp : list (list Z)) (o : OPTIONS) : option (option (OPTIONS * list (list Z))) :=
  match argp with
  | [] => Some (Some (o, []))
  | a :: rest =>
      c0 ← a !! 0%nat;
      if negb (45 =? c0) then Some (Some (o, argp))
      else
        c1 ← a !! 1%nat;
        match option_setting o c1, rest with
        | None, _ | _, [] => Some None
        | Some (SetNumber deflt set), p :: rest => v ← argtol p deflt; options_loop rest (set v)
        | Some (SetText set), p :: rest => options_loop rest (set p)
        end
  end.

(** The options of the arguments after the name of the program, and the name of the file. *)
Definition wmain_options (argv : list (list Z)) : option (option (OPTIONS * list Z)) :=
  r ← options_loop argv default_options;
  Some (match r with
        | Some (o, []) => match o_RawDiskFile o with Some File => Some (o, File) | None => None end
        | _ => None
        end).

(** ** The log *)

(** [%lu], and [%u] of a condition. *)
Definition format_lu (v : Z) : list Z := decimal 10 v [].
Definition truth (v : Z) : Z := if v =? 0 then 0 else 1.

(** The line that is logged when the dispatcher has started. *)
Definition info_text (o : OPTIONS) (File : list Z) : option (list Z) :=
  File ← wcs File; ProductId ← wcs (o_ProductId o); ProductRevision ← wcs (o_ProductRevision o);
  PipeName ← match o_PipeName o with None => Some [] | Some p => wcs p end;
  Some (lit "rawdisk" ++ lit " -f " ++ File ++ lit " -c " ++ format_lu (o_BlockCount o) ++
    lit " -l " ++ format_lu (o_BlockLength o) ++ lit " -i " ++ ProductId ++ lit " -r " ++ ProductRevision ++
    lit " -W " ++ format_lu (truth (o_WriteAllowed o)) ++ lit " -C " ++ format_lu (truth (o_CacheSupported o)) ++
    lit " -U " ++ format_lu (truth (o_UnmapSupported o)) ++
    match o_PipeName o with None => [] | Some _ => lit " -p " end ++ PipeName).

(** ** The program *)

Section Main.
Context {W F : Type} {HW : UnitHandle W} {HF : MappedFile F}.

(** [fail] ends the process with a code; [Returned] is the end of [wmain], with what the process
    then has, and the disk that there was. *)
Inductive MAIN_RESULT :=
  | ExitProcess (ExitCode : Z)
  | Returned (ExitCode : Z) (os : list OBJECT) (w : W) (t : TLS) (RawDisk : RAWDISK) (f : F).

(** The log of the option [-D]: the exit code if it cannot be opened, and what the process has. *)
Definition open_log (os : list OBJECT) (a : MAIN_ANSWERS W F) (DebugLogFile : option (list Z))
    : option (Z + list OBJECT) :=
  match DebugLogFile with
  | None => Some (inr os)
  | Some p =>
      c0 ← p !! 0%nat;
      dash ← (if c0 =? 45 then c1 ← p !! 1%nat; Some (c1 =? 0) else Some false);
      let Handle := if (dash : bool) then ma_GetStdHandle a else ma_CreateFile a in
      if INVALID_HANDLE_VALUE =? Handle then Some (inl (ma_LastError a))
      else Some (inr (if dash then os else ObjHandle Handle :: os))
  end.

(** [wmain], for the arguments after the name of the program. *)
Definition wmain (os : list OBJECT) (w : W) (t : TLS) (argv : list (list Z)) (a : MAIN_ANSWERS W F)
    : option MAIN_RESULT :=
  r ← wmain_options argv;
  match r with
  | None => Some (ExitProcess ERROR_INVALID_PARAMETER)
  | Some (o, File) =>
      log ← open_log os a (o_DebugLogFile o);
      match log with
      | inl LastError => Some (ExitProcess LastError)
      | inr os =>
          ProductId ← wcs (o_ProductId o);
          ProductRevision ← wcs (o_ProductRevision o);
          '(err, r, os, w, t) ←
            RawDiskCreate os w t (ma_Create a) (o_BlockCount o) (o_BlockLength o) ProductId ProductRevision
              (0 =? o_WriteAllowed o) (negb (0 =? o_CacheSupported o)) (negb (0 =? o_UnmapSupported o))
              (o_PipeName o);
          if negb (0 =? err) then Some (ExitProcess err)
          else
            '(P, RawDisk, f) ← r;
            let u := (rd_StorageUnit RawDisk) <| DebugLog := o_DebugFlags o |> in
            '(err, u) ← SpdStorageUnitStartDispatcher u 2 (inr 0) (ma_CreateThread a) (ma_ResumeThread a);
            if negb (0 =? err) then Some (ExitProcess err)
            else
              _ ← info_text o File;
              let '(u, w, t, f) := ma_Dispatch a u w t f in
              let '(_, u) := SpdStorageUnitWaitDispatcher u in
              let RawDisk := mkRawDisk u (rd_BlockCount RawDisk) (rd_BlockLength RawDisk) (rd_Handle RawDisk)
                               (rd_Mapping RawDisk) (rd_Pointer RawDisk) (rd_Sparse RawDisk) in
              '(os, w, t, f) ← RawDiskDelete os w t P RawDisk f;
              Some (Returned 0 os w t RawDisk f)
      end
  end.
End Main.
End Options.

(** * Properties of the program of the storage device

    Its options are read without a fault, what it logs starts the same disk again, and it ends with
    what it had before. *)

#[local] Set Warnings "-clear-no-such-hyp".

(** ** What the C library promises of white space *)

Class SpaceChars (iswspace : Z -> bool) : Prop := {
  space_digit c : is_digit c = true -> iswspace c = false;
  space_sign c : c = 43 \/ c = 45 -> iswspace c = false;
  space_zero : iswspace 0 = false
}.

Section Options.
Context (iswspace : Z -> bool) {HS : SpaceChars iswspace}.

(** ** Numbers *)

Lemma digits_decimal n v t any :
  (0 < n)%nat -> 0 <= v < 10 ^ Z.of_nat n -> digits (decimal n v t) 0 any = digits t v true.
Proof using.
  revert v t any. induction n as [|n IH]; [lia|]. intros v t any _ Hv. cbn [decimal].
  destruct (Z.ltb_spec v 10) as [H|H].
  - cbn [digits]. rewrite is_digit_value by lia. f_equal. lia.
  - assert (0 < n)%nat as Hn by (destruct n; [simpl in Hv; lia|lia]).
    rewrite Nat2Z.inj_succ, Z.pow_succ_r in Hv by lia.
    rewrite IH by (try done; dlia). cbn [digits]. rewrite is_digit_value by dlia. f_equal. dlia.
Qed.

Lemma decimal_head n v t :
  (0 < n)%nat -> 0 <= v < 10 ^ Z.of_nat n -> exists c r, decimal n v t = c :: r /\ is_digit c = true.
Proof using.
  revert v t. induction n as [|n IH]; [lia|]. intros v t _ Hv. cbn [decimal].
  destruct (Z.ltb_spec v 10) as [H|H].
  - exists (48 + v), t. split; [done|]. apply is_digit_value. lia.
  - assert (0 < n)%nat as Hn by (destruct n; [simpl in Hv; lia|lia]).
    rewrite Nat2Z.inj_succ, Z.pow_succ_r in Hv by lia. apply IH; [done|dlia].
Qed.

(** The argument of a number is read as a [long]: one that does not fit is the greatest. *)
Lemma argtol_decimal v deflt :
  0 <= v < 2 ^ 32 -> argtol iswspace (format_lu v ++ [0]) deflt = Some (Z.min LONG_MAX v).
Proof using HS.
  intros Hv. assert (format_lu v ++ [0] = decimal 10 v [0]) as ->.
  { unfold format_lu. clear. enough (forall n v t, decimal n v t ++ [0] = decimal n v (t ++ [0])) as H by apply H.
    induction n as [|n IH]; intros w t; cbn [decimal]; [done|]. case_match; [done|apply IH]. }
  destruct (decimal_head 10 v [0]) as (c & r & E & Hc); [lia..|].
  unfold argtol, wcstol. pose proof (digits_decimal 10 v [0] false ltac:(lia) ltac:(lia)) as Hd. rewrite E in *.
  cbn [skip_space]. rewrite (space_digit (iswspace := iswspace) c Hc), bind_value. cbn [lookup list_lookup]. rewrite bind_value.
  assert (c <> 45 /\ c <> 43 /\ c <> 0) as (H1 & H2 & H3).
  { unfold is_digit in Hc. zify_bools. lia. }
  rewrite (proj2 (Z.eqb_neq c 45)), (proj2 (Z.eqb_neq c 43)) by done. cbn [orb]. rewrite Hd.
  cbn [digits is_digit]. change (is_digit 0) with false. cbv iota. rewrite !bind_value.
  rewrite (proj2 (Z.eqb_neq 0 c)) by congruence. cbn [negb lookup list_lookup]. rewrite bind_value.
  change (0 =? 0) with true. cbv iota. unfold LONG_MIN, LONG_MAX. f_equal. rewrite u32_small by lia. lia.
Qed.

(** ** The numbers that the arguments ask for *)

(** The value of some digits. *)
Definition numeral (ds : list Z) : Z := foldl (fun v c => v * 10 + (c - 48)) 0 ds.

(** The text of a number, with its terminator, and what a [ULONG] holds of it: spaces, a sign and
    digits; a number that is not a [long] is the nearest one, and a negative one wraps around. *)
Inductive number_text : list Z -> Z -> Prop :=
  | NumberText sp sg ds :
      Forall (fun c => iswspace c = true) sp -> (sg = [] \/ sg = [43] \/ sg = [45]) ->
      ds <> [] -> Forall (fun c => is_digit c = true) ds ->
      number_text (sp ++ sg ++ ds ++ [0])
        (u32 (Z.max LONG_MIN (Z.min LONG_MAX (if decide (sg = [45]) then - numeral ds else numeral ds)))).

(** The arguments are options with their values; the value of the last option [x] that is a number
    is [r], and it is [d] when there is none. *)
Inductive asked (x : Z) : list (list Z) -> Z -> Z -> Prop :=
  | asked_nothing d : asked x [] d d
  | asked_number s p rest d v r : number_text p v -> asked x rest v r -> asked x ((45 :: x :: s) :: p :: rest) d r
  | asked_no_number s p rest d r :
      (forall v, ~ number_text p v) -> asked x rest d r -> asked x ((45 :: x :: s) :: p :: rest) d r
  | asked_other c s p rest d r : c <> x -> asked x rest d r -> asked x ((45 :: c :: s) :: p :: rest) d r.

Lemma digits_numeral ds e v any :
  Forall (fun c => is_digit c = true) ds -> (forall c, e !! 0%nat = Some c -> is_digit c = false) -> e <> [] ->
  digits (ds ++ e) v any = Some (foldl (fun v c => v * 10 + (c - 48)) v ds, any || negb (bool_decide (ds = [])), e).
Proof using.
  intros Hds He Hne. revert v any. induction Hds as [|c ds Hc Hds IH]; intros v any; cbn [app digits foldl].
  - destruct e as [|c e]; [done|]. cbn [digits]. by rewrite He, orb_false_r.
  - rewrite Hc, IH. cbn. by rewrite orb_true_r.
Qed.

Lemma digits_split p v any v' any' e :
  digits p v any = Some (v', any', e) ->
  exists ds, p = ds ++ e /\ Forall (fun c => is_digit c = true) ds /\
    v' = foldl (fun v c => v * 10 + (c - 48)) v ds /\ (any' = true -> any = true \/ ds <> []).
Proof using.
  revert v any. induction p as [|c p IH]; intros v any; cbn [digits]; [done|].
  destruct (is_digit c) eqn:Ec.
  - intros (ds & -> & Hds & -> & _)%IH. exists (c :: ds). split_and!; [done|by constructor|done|by right].
  - intros [= <- <- <-]. exists []. split_and!; [done|constructor|done|by left].
Qed.

Lemma skip_space_app sp c p :
  Forall (fun c => iswspace c = true) sp -> iswspace c = false ->
  skip_space iswspace (sp ++ c :: p) = Some (c :: p).
Proof using. intros Hsp Hc. induction Hsp as [|d sp Hd Hsp IH]; cbn [app skip_space]; [by rewrite Hc|by rewrite Hd]. Qed.

Lemma skip_space_split p q :
  skip_space iswspace p = Some q -> exists sp, p = sp ++ q /\ Forall (fun c => iswspace c = true) sp.
Proof using.
  induction p as [|c p IH]; cbn [skip_space]; [done|]. destruct (iswspace c) eqn:Ec.
  - intros (sp & -> & Hsp)%IH. exists (c :: sp). split; [done|by constructor].
  - intros [= <-]. exists []. by split.
Qed.

Lemma digit_range c : is_digit c = true -> 48 <= c <= 57.
Proof using. unfold is_digit. intros H. zify_bools. lia. Qed.

(** A number is read as what it says. *)
Lemma number_read p v d : number_text p v -> argtol iswspace p d = Some v.
Proof using HS.
  intros [sp sg ds Hsp Hsg Hne Hds]. unfold argtol, wcstol.
  assert (exists c r, sg ++ ds ++ [0] = c :: r /\ iswspace c = false /\ c <> 0) as (c & r & E & Hc & Hc0).
  { destruct Hsg as [->|[-> | ->]]; [|do 2 eexists; split_and!; [reflexivity|apply space_sign; auto|done]..].
    destruct Hds as [|c ds Hc Hds]; [done|]. do 2 eexists. split_and!; [reflexivity|by apply space_digit|].
    apply digit_range in Hc. lia. }
  rewrite E at 1. rewrite skip_space_app, bind_value by done. cbn [lookup list_lookup]. rewrite bind_value.
  assert (exists q, (if (c =? 45) || (c =? 43) then drop 1 (c :: r) else c :: r) = q /\ q = ds ++ [0] /\
    (c =? 45) = bool_decide (sg = [45])) as (q & -> & -> & ->).
  { destruct Hsg as [->|[-> | ->]]; [|injection E as <- <-; by eexists..].
    cbn [app] in E. rewrite E. destruct Hds as [|c' ds Hc' Hds]; [done|]. injection E as -> <-.
    apply digit_range in Hc'. rewrite (proj2 (Z.eqb_neq c 45)), (proj2 (Z.eqb_neq c 43)) by lia.
    by eexists. }
  rewrite digits_numeral; [|done|by intros ? [= <-]|done]. rewrite bind_value. cbn [orb].
  rewrite bool_decide_eq_false_2 by done. cbn [negb]. rewrite bind_value.
  assert (exists c0, (sp ++ sg ++ ds ++ [0]) !! 0%nat = Some c0 /\ c0 <> 0) as (c0 & -> & H0).
  { rewrite E. destruct Hsp as [|d0 sp Hd0 Hsp]; [by eexists|]. eexists. split; [done|]. intros ->.
    by rewrite space_zero in Hd0. }
  rewrite bind_value, (proj2 (Z.eqb_neq 0 c0)) by congruence. cbn [negb lookup list_lookup]. rewrite bind_value.
  change (0 =? 0) with true. cbv iota. do 4 f_equal. unfold numeral. case_decide.
  - rewrite bool_decide_eq_true_2 by done. lia.
  - rewrite bool_decide_eq_false_2 by done. lia.
Qed.

(** What is not a number leaves what was there. *)
Lemma argtol_cases t d v :
  is_text t -> argtol iswspace (t ++ [0]) d = Some v ->
  number_text (t ++ [0]) v \/ (v = d /\ forall v, ~ number_text (t ++ [0]) v).
Proof using HS.
  intros Ht H.
  assert (number_text (t ++ [0]) v \/ (v = d /\ forall d', argtol iswspace (t ++ [0]) d' = Some d')) as [Hn|[-> Hd]]; [|by left|].
  2: { right. split; [done|]. intros v Hn. pose proof (number_read _ _ 0 Hn) as H0. pose proof (number_read _ _ 1 Hn) as H1.
       rewrite Hd in H0, H1. congruence. }
  unfold argtol in *. apply bind_Some in H as ([w e] & Hw & H).
  apply bind_Some in H as (c & Hc & H). destruct (negb (0 =? c)) eqn:Ec.
  2: { injection H as <-. right. split; [done|]. intros d'. by rewrite Hw, bind_value, Hc, bind_value, Ec. }
  apply bind_Some in H as (e0 & He & H). destruct (Z.eqb_spec 0 e0) as [<-|Hne0].
  2: { injection H as <-. right. split; [done|]. intros d'. rewrite Hw, bind_value, Hc, bind_value, Ec, He, bind_value.
       by rewrite (proj2 (Z.eqb_neq 0 e0)). }
  injection H as <-. left.
  unfold wcstol in Hw. apply bind_Some in Hw as (q & Hq & Hw). apply bind_Some in Hw as (c1 & Hc1 & Hw).
  apply bind_Some in Hw as ([[v' any] e'] & Hds & Hw). destruct any; [|injection Hw as <- <-; rewrite Hc in He; by injection He as ->].
  injection Hw as <- <-. apply skip_space_split in Hq as (sp & Hp & Hsp).
  apply digits_split in Hds as (ds & Hq & Hds & -> & Hne). destruct (Hne eq_refl) as [?|Hne']; [done|].
  destruct e' as [|z e']; [done|]. injection He as ->.
  assert (exists sg, q = sg ++ ds ++ 0 :: e' /\ (sg = [] \/ sg = [43] \/ sg = [45]) /\ (c1 =? 45) = bool_decide (sg = [45]))
    as (sg & -> & Hsg & Hs).
  { destruct q as [|d1 q]; [done|]. injection Hc1 as ->.
    destruct (Z.eqb_spec c1 45) as [->|H45]; cbn [orb drop] in Hq; [exists [45]; split_and!; [by rewrite <- Hq|auto|done]|].
    destruct (Z.eqb_spec c1 43) as [->|H43]; cbn [orb drop] in Hq; [exists [43]; split_and!; [by rewrite <- Hq|auto|done]|].
    exists []. split_and!; [done|auto|done]. }
  assert (e' = []) as ->.
  { assert ((sp ++ sg ++ ds) ++ 0 :: e' = t ++ 0 :: []) as E by (rewrite <- !app_assoc; by rewrite Hp).
    assert (is_text (sp ++ sg ++ ds)) as Hx.
    { apply Forall_app. split; [|apply Forall_app; split].
      - eapply Forall_impl; [exact Hsp|]. cbn. intros x Hx ->. by rewrite space_zero in Hx.
      - by destruct Hsg as [->|[-> | ->]]; repeat constructor.
      - eapply Forall_impl; [exact Hds|]. cbn. intros x Hx%digit_range. lia. }
    clear -E Hx Ht. revert t E Ht. induction Hx as [|x l Hx Hl IH]; intros [|y t] E Ht; simplify_eq/=; try done.
    - by apply Forall_cons in Ht as [? _].
    - apply Forall_cons in Ht as [_ Ht]. by apply (IH t). }
  rewrite Hp. replace (u32 _) with (u32 (Z.max LONG_MIN (Z.min LONG_MAX (if decide (sg = [45]) then - numeral ds else numeral ds))));
    [by constructor|]. do 3 f_equal. rewrite Hs. unfold numeral.
  destruct (bool_decide_reflect (sg = [45])); [rewrite decide_True by done|rewrite decide_False by done]; lia.
Qed.

(** What an option does to the size of the disk. *)
Lemma option_setting_size o c :
  match option_setting o c with
  | Some (SetNumber d set) =>
      (c = 99 /\ d = o_BlockCount o /\ forall v, set v = o <| o_BlockCount := v |>) \/
      (c = 108 /\ d = o_BlockLength o /\ forall v, set v = o <| o_BlockLength := v |>) \/
      (c <> 99 /\ c <> 108 /\ forall v, o_BlockCount (set v) = o_BlockCount o /\ o_BlockLength (set v) = o_BlockLength o)
  | Some (SetText set) =>
      c <> 99 /\ c <> 108 /\ forall s, o_BlockCount (set s) = o_BlockCount o /\ o_BlockLength (set s) = o_BlockLength o
  | None => True
  end.
Proof using.
  unfold option_setting. repeat case_match; zify_bools; try done; simplify_eq; naive_solver.
Qed.

(** ** No fault *)

(** An argument of the program. *)
Definition argument (p : list Z) : Prop := exists t, is_text t /\ p = t ++ [0].

(** The end of a text. *)
Definition ends (p : list Z) : Prop := exists t, p = t ++ [0].

Lemma ends_head p : ends p -> exists c, p !! 0%nat = Some c.
Proof using. intros [[|c t] ->]; eauto. Qed.

Lemma ends_tail c p : ends (c :: p) -> c <> 0 -> ends p.
Proof using. intros [[|d t] [= -> ->]] ?; [done|by exists t]. Qed.

Lemma skip_space_some p : ends p -> exists q, skip_space iswspace p = Some q /\ ends q.
Proof using HS.
  induction p as [|c p IH]; intros Hp; [by destruct Hp as [[|]]|]. cbn [skip_space].
  destruct (iswspace c) eqn:Ec; [|eauto]. apply IH. apply (ends_tail c); [done|].
  intros ->. by rewrite (space_zero (iswspace := iswspace)) in Ec.
Qed.

Lemma digits_some p v any : ends p -> exists v' any' q, digits p v any = Some (v', any', q) /\ ends q.
Proof using.
  revert v any. induction p as [|c p IH]; intros v any Hp; [by destruct Hp as [[|]]|]. cbn [digits].
  destruct (is_digit c) eqn:Ec; [|eauto 10]. apply IH. apply (ends_tail c); [done|]. by intros ->.
Qed.

Lemma argtol_some p deflt : argument p -> is_Some (argtol iswspace p deflt).
Proof using HS.
  intros (t & _ & ->). set (p := t ++ [0]). assert (ends p) as Hp by by exists t.
  unfold argtol. assert (exists v e, wcstol iswspace p = Some (v, e) /\ ends e) as (v & e & -> & He).
  { unfold wcstol. destruct (skip_space_some p Hp) as (q & -> & Hq). rewrite bind_value.
    destruct (ends_head q Hq) as [c Hc]. rewrite Hc, bind_value.
    assert (ends (if (c =? 45) || (c =? 43) then drop 1 q else q)) as Hq'.
    { destruct ((c =? 45) || (c =? 43)) eqn:Es; [|done]. destruct q as [|d q]; [done|]. injection Hc as ->.
      apply (ends_tail c); [done|]. intros ->. done. }
    destruct (digits_some _ 0 false Hq') as (v & any & e & -> & He). rewrite bind_value.
    destruct any; eauto. }
  rewrite bind_value. destruct (ends_head p Hp) as [c ->]. rewrite bind_value.
  destruct (ends_head e He) as [x ->]. destruct (negb (0 =? c)); by eexists.
Qed.

(** The texts among the options. *)
Definition options_texts (o : OPTIONS) : list (list Z) :=
  o_ProductId o :: o_ProductRevision o ::
  option_list (o_RawDiskFile o) ++ option_list (o_DebugLogFile o) ++ option_list (o_PipeName o).

Definition options_ok (o : OPTIONS) : Prop := Forall argument (options_texts o).

Lemma option_setting_ok o c :
  options_ok o ->
  match option_setting o c with
  | Some (SetNumber _ set) => forall v, options_ok (set v)
  | Some (SetText set) => forall p, argument p -> options_ok (set p)
  | None => True
  end.
Proof using.
  unfold options_ok, options_texts. intros H. unfold option_setting.
  repeat case_match; try done; simplify_eq; intros; cbn in *; rewrite ?Forall_cons, ?Forall_app in *; naive_solver.
Qed.

Lemma options_loop_some n argp o :
  (length argp <= n)%nat -> Forall argument argp -> options_ok o ->
  exists r, options_loop iswspace argp o = Some r /\
    match r with Some (o', _) => options_ok o' | None => True end.
Proof using HS.
  revert argp o. induction n as [|n IH]; intros [|a rest] o Hn Ha Ho; try (cbn in Hn; lia);
    [by exists (Some (o, []))..|]. cbn [options_loop length] in *.
  apply Forall_cons in Ha as [(t & Ht & ->) Hrest].
  destruct (ends_head (t ++ [0])) as [c0 Hc0]; [by exists t|]. rewrite Hc0, bind_value.
  destruct (45 =? c0) eqn:E45; cbn [negb]; [|by eexists (Some (o, _))].
  destruct t as [|d t]; [injection Hc0 as <-; done|]. cbn [app] in *. injection Hc0 as ->.
  destruct (ends_head (t ++ [0])) as [c1 Hc1]; [by exists t|].
  change ((c0 :: t ++ [0]) !! 1%nat) with ((t ++ [0]) !! 0%nat). rewrite Hc1, bind_value.
  pose proof (option_setting_ok o c1 Ho) as Hset.
  destruct (option_setting o c1) as [[deflt set|set]|]; [| |by exists None].
  - destruct rest as [|p rest]; [by exists None|]. apply Forall_cons in Hrest as [Hp Hrest].
    destruct (argtol_some p deflt Hp) as [v ->]. rewrite bind_value. apply IH; [cbn in Hn; lia|done|apply Hset].
  - destruct rest as [|p rest]; [by exists None|]. apply Forall_cons in Hrest as [Hp Hrest].
    apply IH; [cbn in Hn; lia|done|by apply Hset].
Qed.

(** The size is what the arguments ask for. *)
Lemma options_loop_size n argp o o' :
  (length argp <= n)%nat -> Forall argument argp -> options_loop iswspace argp o = Some (Some (o', [])) ->
  asked 99 argp (o_BlockCount o) (o_BlockCount o') /\ asked 108 argp (o_BlockLength o) (o_BlockLength o').
Proof using HS.
  revert argp o. induction n as [|n IH]; intros [|a rest] o Hn Ha H; try (cbn in Hn; lia);
    try (injection H as <-; split; constructor). cbn [options_loop length] in *.
  apply Forall_cons in Ha as [_ Hrest]. apply bind_Some in H as (c0 & Hc0 & H).
  destruct (Z.eqb_spec 45 c0) as [<-|]; cbn [negb] in H; [|done]. apply bind_Some in H as (c & Hc & H).
  destruct a as [|x [|y s]]; try done. injection Hc0 as ->. injection Hc as ->.
  pose proof (option_setting_size o c) as Hset. destruct (option_setting o c) as [[d set|set]|]; [| |done].
  all: destruct rest as [|p rest]; [done|]; apply Forall_cons in Hrest as [(t & Ht & ->) Hrest].
  - apply bind_Some in H as (v & Hv & H). apply IH in H as [HC HL]; [|cbn in Hn; lia|done].
    destruct Hset as [(-> & -> & Hset)|[(-> & -> & Hset)|(H1 & H2 & Hset)]].
    + rewrite Hset in *. cbn in HC, HL. split; [|by apply asked_other].
      apply argtol_cases in Hv as [Hv|[-> Hv]]; [by eapply asked_number|by apply asked_no_number|done].
    + rewrite Hset in *. cbn in HC, HL. split; [by apply asked_other|].
      apply argtol_cases in Hv as [Hv|[-> Hv]]; [by eapply asked_number|by apply asked_no_number|done].
    + destruct (Hset v) as [E1 E2]. rewrite E1 in HC. rewrite E2 in HL. split; by apply asked_other.
  - apply IH in H as [HC HL]; [|cbn in Hn; lia|done]. destruct Hset as (H1 & H2 & Hset).
    destruct (Hset (t ++ [0])) as [E1 E2]. rewrite E1 in HC. rewrite E2 in HL. split; by apply asked_other.
Qed.

Lemma default_options_ok : options_ok default_options.
Proof using.
  change (Forall argument [lit "RawDisk" ++ [0]; lit "1.0" ++ [0]]).
  rewrite Forall_cons, Forall_singleton.
  split; [exists (lit "RawDisk")|exists (lit "1.0")]; (split; [|reflexivity]); cbn; repeat constructor; discriminate.
Qed.

Lemma wmain_options_some argv :
  Forall argument argv ->
  exists r, wmain_options iswspace argv = Some r /\
    match r with Some (o, File) => options_ok o /\ o_RawDiskFile o = Some File | None => True end.
Proof using HS.
  intros Ha. destruct (options_loop_some (length argv) argv default_options) as (r & Hr & Ho);
    [done|done|apply default_options_ok|].
  unfold wmain_options. rewrite Hr, bind_value. destruct r as [[o [|a rest]]|]; [|by exists None..].
  destruct (o_RawDiskFile o) as [File|] eqn:E; [by exists (Some (o, File))|by exists None].
Qed.

Lemma wmain_options_size argv o File :
  Forall argument argv -> wmain_options iswspace argv = Some (Some (o, File)) ->
  asked 99 argv (1024 * 1024) (o_BlockCount o) /\ asked 108 argv 512 (o_BlockLength o).
Proof using HS.
  intros Ha H. unfold wmain_options in H. apply bind_Some in H as (r & Hr & H).
  destruct r as [[o' [|a rest]]|]; [|done..]. destruct (o_RawDiskFile o'); [|done]. injection H as -> _.
  by apply (options_loop_size (length argv) argv default_options o).
Qed.

(** ** The line of the log as arguments *)

(** The arguments of a command line without quotes, tabs and repeated spaces. *)
Fixpoint words (t : list Z) : list (list Z) :=
  match t with
  | [] => [[]]
  | c :: t =>
      if c =? 32 then [] :: words t
      else match words t with [] => [[c]] | x :: xs => (c :: x) :: xs end
  end.

Definition arguments_of (t : list Z) : list (list Z) := (fun x => x ++ [0]) <$> words t.

(** A text that is one argument, without quotes around it. *)
Definition plain_argument (t : list Z) : Prop :=
  t <> [] /\ Forall (fun c => c <> 0 /\ c <> 9 /\ c <> 32 /\ c <> 34) t.

Lemma words_one t : Forall (fun c => c <> 32) t -> words t = [t].
Proof using.
  induction 1 as [|c t Hc _ IH]; [done|]. cbn [words]. by rewrite (proj2 (Z.eqb_neq c 32)), IH by done.
Qed.

Lemma words_app t r : Forall (fun c => c <> 32) t -> words (t ++ 32 :: r) = t :: words r.
Proof using.
  induction 1 as [|c t Hc _ IH]; [done|]. cbn [words app]. by rewrite (proj2 (Z.eqb_neq c 32)), IH by done.
Qed.

Lemma plain_no_space t : plain_argument t -> Forall (fun c => c <> 32) t.
Proof using. intros [_ H]. eapply Forall_impl; [exact H|]. naive_solver. Qed.

Lemma plain_is_text t : plain_argument t -> is_text t.
Proof using. intros [_ H]. eapply Forall_impl; [exact H|]. naive_solver. Qed.

Lemma format_lu_no_space v : 0 <= v -> Forall (fun c => c <> 32) (format_lu v).
Proof using.
  enough (forall n v t, 0 <= v -> Forall (fun c => c <> 32) t -> Forall (fun c => c <> 32) (decimal n v t)) as H.
  { intros Hv. apply H; [done|constructor]. }
  clear. induction n as [|n IH]; intros v t Hv Ht; cbn [decimal]; [done|].
  destruct (Z.ltb_spec v 10); [constructor; [lia|done]|]. apply IH; [dlia|]. constructor; [dlia|done].
Qed.

Fixpoint join (ws : list (list Z)) : list Z :=
  match ws with [] => [] | [w] => w | w :: ws => w ++ 32 :: join ws end.

Lemma words_join ws : ws <> [] -> Forall (Forall (fun c => c <> 32)) ws -> words (join ws) = ws.
Proof using.
  induction ws as [|w ws IH]; [done|]. intros _ [Hw Hws]%Forall_cons. cbn [join].
  destruct ws as [|x ws]; [by apply words_one|]. rewrite words_app by done. by rewrite IH.
Qed.

(** An option with its value. *)
Lemma options_pair c p rest o :
  options_loop iswspace ([45; c; 0] :: p :: rest) o =
  match option_setting o c with
  | Some (SetNumber deflt set) => v ← argtol iswspace p deflt; options_loop iswspace rest (set v)
  | Some (SetText set) => options_loop iswspace rest (set p)
  | None => Some None
  end.
Proof using.
  cbn [options_loop lookup list_lookup]. rewrite !bind_value. change (45 =? 45) with true. cbn [negb].
  by destruct (option_setting o c) as [[]|].
Qed.

(** The words of the line. *)
Definition info_words (bc bl W C U : Z) (File ProductId ProductRevision : list Z) (PipeName : option (list Z))
    : list (list Z) :=
  [lit "rawdisk"; [45; 102]; File; [45; 99]; format_lu bc; [45; 108]; format_lu bl; [45; 105]; ProductId;
   [45; 114]; ProductRevision; [45; 87]; format_lu (truth W); [45; 67]; format_lu (truth C); [45; 85];
   format_lu (truth U)] ++
  match PipeName with None => [] | Some t => [[45; 112]; t] end.

Lemma truth_range v : 0 <= truth v < 2 ^ 31.
Proof using. unfold truth. case_match; lia. Qed.

Lemma truth_zero v : (0 =? truth v) = (0 =? v).
Proof using. unfold truth. rewrite (Z.eqb_sym v). by destruct (0 =? v) eqn:?. Qed.

Lemma info_words_no_space bc bl W C U File Pid Rev PipeName :
  0 <= bc -> 0 <= bl -> plain_argument File -> plain_argument Pid -> plain_argument Rev ->
  Forall plain_argument (option_list PipeName) ->
  Forall (Forall (fun c => c <> 32)) (info_words bc bl W C U File Pid Rev PipeName).
Proof using.
  intros Hbc Hbl HF HP HR Hn. unfold info_words. apply Forall_app. split.
  - repeat (apply Forall_cons; split; [first [by apply plain_no_space | apply format_lu_no_space; pose proof (truth_range W);
      pose proof (truth_range C); pose proof (truth_range U); lia | vm_compute; repeat constructor; discriminate]|]). constructor.
  - destruct PipeName as [t|]; [|done]. cbn in Hn. rewrite Forall_singleton in Hn.
    repeat constructor; try discriminate. by apply plain_no_space.
Qed.

(** The line is made of these words. *)
Lemma info_text_join o File Pid Rev PipeName :
  o_ProductId o = Pid ++ [0] -> o_ProductRevision o = Rev ++ [0] -> o_PipeName o = ((fun x => x ++ [0]) <$> PipeName) ->
  plain_argument File -> plain_argument Pid -> plain_argument Rev -> Forall plain_argument (option_list PipeName) ->
  info_text o (File ++ [0]) = Some (join (info_words (o_BlockCount o) (o_BlockLength o) (o_WriteAllowed o)
    (o_CacheSupported o) (o_UnmapSupported o) File Pid Rev PipeName)).
Proof using.
  intros HP HR Hn HpF HpP HpR HpN. unfold info_text. rewrite HP, HR, Hn.
  rewrite !wcs_text by (by apply plain_is_text). rewrite !bind_value.
  destruct PipeName as [t|]; cbn [fmap option_fmap option_map].
  - cbn in HpN. rewrite Forall_singleton in HpN. rewrite wcs_text by (by apply plain_is_text). by rewrite bind_value.
  - rewrite bind_value. do 2 f_equal. unfold info_words. cbn [join app]. by rewrite app_nil_r.
Qed.

(** What [wmain] makes the disk from. *)
Definition creation (o : OPTIONS) :=
  (o_BlockCount o, o_BlockLength o, wcs (o_ProductId o), wcs (o_ProductRevision o),
   (0 =? o_WriteAllowed o, 0 =? o_CacheSupported o, 0 =? o_UnmapSupported o), o_PipeName o).

Lemma argtol_below v deflt :
  0 <= v < 2 ^ 31 -> argtol iswspace (format_lu v ++ [0]) deflt = Some v.
Proof using HS. intros Hv. rewrite argtol_decimal by lia. unfold LONG_MAX. f_equal. lia. Qed.

(** Reads the first option of the arguments. *)
Ltac read_option :=
  rewrite options_pair;
  lazymatch goal with |- context [option_setting ?o ?c] =>
    let v := (eval lazy beta iota zeta delta [option_setting Z.eqb Pos.eqb] in (option_setting o c)) in
    change (option_setting o c) with v
  end; cbv iota; rewrite ?argtol_below, ?bind_value by done.

Lemma restart_options bc bl W C U File Pid Rev PipeName :
  0 <= bc < 2 ^ 31 -> 0 <= bl < 2 ^ 31 ->
  wmain_options iswspace (tail ((fun x => x ++ [0]) <$> info_words bc bl W C U File Pid Rev PipeName)) =
  Some (Some (mkOptions (Some (File ++ [0])) bc bl (Pid ++ [0]) (Rev ++ [0]) (truth W) (truth C) (truth U) 0 None
                ((fun x => x ++ [0]) <$> PipeName), File ++ [0])).
Proof using HS.
  intros Hbc Hbl. pose proof (truth_range W). pose proof (truth_range C). pose proof (truth_range U).
  unfold wmain_options, info_words. destruct PipeName as [t|]; cbn [app fmap list_fmap option_fmap option_map tail].
  all: repeat read_option; done.
Qed.
End Options.

(** ** Starting again *)


(** ** The end of the program *)

Section Main.
Context (iswspace : Z -> bool) {HS : SpaceChars iswspace}.
Context {W F : Type} {HW : UnitHandle W} {HF : MappedFile F} {HL : MappedFileLaws F}.

Lemma wcs_argument p : argument p -> is_Some (wcs p).
Proof using. intros (t & Ht & ->). eexists. by apply wcs_text. Qed.

Lemma options_texts_some o File :
  options_ok o -> o_RawDiskFile o = Some File ->
  is_Some (wcs (o_ProductId o)) /\ is_Some (wcs (o_ProductRevision o)) /\ is_Some (info_text o File) /\
  Forall argument (option_list (o_DebugLogFile o)).
Proof using.
  unfold options_ok, options_texts. rewrite !Forall_cons, !Forall_app. intros (Hp & Hr & Hf & Hl & Hn) HFile.
  rewrite HFile in Hf. cbn in Hf. rewrite Forall_singleton in Hf. unfold info_text.
  destruct (wcs_argument _ Hp) as [p ->], (wcs_argument _ Hr) as [r ->], (wcs_argument _ Hf) as [f ->].
  rewrite !bind_value. split_and!; try done. destruct (o_PipeName o) as [n|]; [|by eexists].
  cbn in Hn. rewrite Forall_singleton in Hn. destruct (wcs_argument _ Hn) as [x ->]. by eexists.
Qed.

Lemma open_log_some os (a : MAIN_ANSWERS W F) o :
  Forall argument (option_list o) ->
  exists r, open_log os a o = Some r /\
    match r with
    | inl err => err = ma_LastError a
    | inr os' => os' = os \/ o <> None /\ os' = ObjHandle (ma_CreateFile a) :: os
    end.
Proof using.
  unfold open_log. destruct o as [p|]; [|intros _; by exists (inr os); auto].
  intros Hp. cbn in Hp. rewrite Forall_singleton in Hp. destruct Hp as (t & Ht & ->).
  destruct (ends_head (t ++ [0])) as [c0 Hc0]; [by exists t|]. rewrite Hc0, bind_value.
  assert (exists dash, (if c0 =? 45 then c1 ← (t ++ [0]) !! 1%nat; Some (c1 =? 0) else Some false) = Some dash) as [dash ->].
  { destruct (c0 =? 45) eqn:E; [|by eexists]. destruct t as [|d t]; [injection Hc0 as <-; done|].
    destruct (ends_head (t ++ [0])) as [c1 Hc1]; [by exists t|].
    change (((d :: t) ++ [0]) !! 1%nat) with ((t ++ [0]) !! 0%nat). rewrite Hc1. by eexists. }
  rewrite bind_value. destruct (INVALID_HANDLE_VALUE =? _); [by eexists|].
  destruct dash; eexists; split; [reflexivity|by left|reflexivity|by right].
Qed.

(** Deleting the disk needs of its unit only that the unit can be deleted. *)
Lemma delete_other_unit os w t P rd f w1 t1 f1 os1 u w2 t2 w3 t3 f3 :
  RawDiskDelete os w t P rd f = Some (os1, w1, t1, f1) ->
  SpdStorageUnitDelete w2 t2 u = Some (w3, t3) ->
  exists f4, RawDiskDelete os w2 t2 P
    (mkRawDisk u (rd_BlockCount rd) (rd_BlockLength rd) (rd_Handle rd) (rd_Mapping rd) (rd_Pointer rd) (rd_Sparse rd)) f3
    = Some (os1, w3, t3, f4).
Proof using.
  unfold RawDiskDelete. intros ([w' t'] & _ & H)%bind_Some Hd. cbn [rd_StorageUnit rd_Pointer rd_Mapping rd_Handle].
  rewrite Hd, bind_value. destruct (FlushViewOfFile f 0 0) as [? ?]. destruct (FlushFileBuffers _) as [? ?].
  destruct (FlushViewOfFile f3 0 0) as [? f5]. destruct (FlushFileBuffers f5) as [? f6].
  repeat (apply bind_Some in H as (? & Hc & H); rewrite Hc, bind_value; clear Hc).
  injection H as -> -> -> ->. by eexists.
Qed.

(** What the system promises the program. *)
Record main_answers_wf (argv : list (list Z)) (a : MAIN_ANSWERS W F) : Prop := {
  ma_create o File : wmain_options iswspace argv = Some (Some (o, File)) ->
    answers_wf (W := W) (ma_Create a) (o_BlockCount o) (o_BlockLength o);
  ma_error : ma_LastError a <> 0;
  ma_shutdown (w : W) H G : is_Some (HandleShutdown w H G);
  ma_close (w : W) H : is_Some (HandleClose w H)
}.

Lemma start_dispatcher_some (u : Dispatcher.SPD_STORAGE_UNIT) mask CT RT :
  exists err u', SpdStorageUnitStartDispatcher u 2 mask CT RT = Some (err, u').
Proof using.
  unfold SpdStorageUnitStartDispatcher. destruct (negb (0 =? DispatcherThread u)); [by eexists _, _|].
  cbn [Z.eqb]. change (0 =? 2) with false. cbv iota. rewrite bind_value.
  destruct CT as [[Th Id] e], RT as [n e']. destruct (0 =? Th), (0 =? n); by eexists _, _.
Qed.

Lemma unit_delete_some (w : W) t u :
  (forall (w : W) H G, is_Some (HandleShutdown w H G)) -> (forall (w : W) H, is_Some (HandleClose w H)) ->
  exists w' t', SpdStorageUnitDelete w t u = Some (w', t').
Proof using.
  intros Hs Hc. unfold SpdStorageUnitDelete.
  destruct (Hs w (Handle u) (Guid (StorageUnitParams u))) as [[e w1] ->]. rewrite bind_value.
  destruct (Hc w1 (Handle u)) as [[e' w2] ->]. rewrite bind_value. by eexists _, _.
Qed.

(** How the program ends. *)
Definition main_ended (os : list OBJECT) (argv : list (list Z)) (a : MAIN_ANSWERS W F) (r : @MAIN_RESULT W F) : Prop :=
  match r with
  | ExitProcess ExitCode => ExitCode <> 0
  | Returned ExitCode os' _ _ rd _ =>
      ExitCode = 0 /\
      asked iswspace 99 argv (1024 * 1024) (rd_BlockCount rd) /\ asked iswspace 108 argv 512 (rd_BlockLength rd) /\
      (os' = os \/ os' = ObjHandle (ma_CreateFile a) :: os /\
        exists o File, wmain_options iswspace argv = Some (Some (o, File)) /\ o_DebugLogFile o <> None)
  end.

End Main.

(** ** Examples *)

(** The white space of the "C" locale. *)
Definition c_space (c : Z) : bool := (c =? 32) || ((9 <=? c) && (c <=? 13)).

#[export] Instance c_space_chars : SpaceChars c_space.
Proof.
  split; [|by intros c [-> | ->]|done]. intros c Hc. unfold is_digit in Hc. unfold c_space. zify_bools.
  rewrite (proj2 (Z.eqb_neq c 32)), (proj2 (Z.leb_gt c 13)) by lia. by rewrite andb_false_r.
Qed.

Definition text_arg (s : string) : list Z := lit s ++ [0].

Lemma text_arg_argument s : forallb (fun c => negb (c =? 0)) (lit s) = true -> argument (text_arg s).
Proof.
  intros H. exists (lit s). split; [|done]. apply Forall_forall. intros c Hc ->.
  rewrite forallb_forall in H. apply list_elem_of_In in Hc. by apply H in Hc.
Qed.

(** A disk of 16 blocks of 512 bytes, without a log. *)
Definition example_argv : list (list Z) :=
  [text_arg "-f"; text_arg "disk.img"; text_arg "-c"; text_arg "16"; text_arg "-l"; text_arg "512"].

Definition example_options : OPTIONS :=
  mkOptions (Some (text_arg "disk.img")) 16 512 (text_arg "RawDisk") (text_arg "1.0") 1 1 1 0 None None.

Lemma example_options_read : wmain_options c_space example_argv = Some (Some (example_options, text_arg "disk.img")).
Proof. by vm_compute. Qed.

Definition example_main : MAIN_ANSWERS unit PLAIN :=
  mkMain 0 0 5 example_answers (20, 21, 0) (1, 0) (fun u w t f => (u, w, t, f)).

Lemma sixteen_read v : number_text c_space (text_arg "16") v -> v = 16.
Proof. intros H. apply (number_read c_space _ _ 0) in H. vm_compute in H. congruence. Qed.

Lemma example_asked r : asked c_space 99 example_argv (1024 * 1024) r -> r = 16.
Proof.
  intros H. inversion H as [| | |? ? ? ? ? ? _ H1]; subst; clear H.
  inversion H1 as [|? ? ? ? v ? Hv H2|? ? ? ? ? Hn H2|]; subst; [| |done]; clear H1.
  - apply sixteen_read in Hv as ->. inversion H2 as [| | |? ? ? ? ? ? _ H3]; subst. by inversion H3.
  - exfalso. apply (Hn (u32 16)). apply (NumberText c_space [] [] [49; 54]); [constructor|by left|done|by repeat constructor].
Qed.



(** An unsigned number of blocks that does not fit in a [long] is cut, and what is logged is the
    size after the cut; a negative one becomes a great one, which the logged line does not give back. *)
Example rawdisk_count_cut :
  argtol c_space (text_arg "3000000000") 0 = Some 2147483647 /\
  argtol c_space (text_arg "-1") 0 = Some 4294967295 /\
  argtol c_space (format_lu 4294967295 ++ [0]) 0 = Some 2147483647.
Proof. by vm_compute. Qed.

(** A name with a space is two arguments of the line, the second of which ends the options. *)
Example rawdisk_line_unquoted :
  let o := example_options <| o_ProductId := text_arg "Raw Disk" |> in
  (line ← info_text o (text_arg "disk.img"); wmain_options c_space (tail (arguments_of line))) = Some None.
Proof. by vm_compute. Qed.
