(* ===== verification/DriverEntry.v ===== *)
(** * Loading and unloading the driver: [sys/driver.c], and the kernel requests of [sys/util.c]

    What [DriverEntry] reads from the registry, tells the port driver and hooks, what a failure gives
    back, and [DriverUnload]; a request to another driver and what is made of its status.  What the
    system and the port driver answer is an argument.  Closing a handle that is not open, and
    deleting a resource that is not initialized, is [None]. *)

From S2P Require Import Prelude Wdk IoctlTypes Minimal LaunchText Launcher StgUnit Scsi DriverGlobal.
From S2P Require Import DriverGlobalProps.

(** ** Data *)

(** Pointers to functions: null, one of the port driver, or one of this driver. *)
Inductive SPD_ROUTINE :=
  | rDriverUnload | rSpdDispatchPnp | rSpdHwInitialize | rSpdHwStartIo | rSpdHwFindAdapter | rSpdHwResetBus
  | rSpdHwAdapterControl | rSpdHwFreeAdapterResources | rSpdHwProcessServiceRequest | rSpdHwCompleteServiceIrp
  | rSpdHwInitializeTracing | rSpdHwCleanupTracing.

Inductive ROUTINE := NullRoutine | PortRoutine (Address : Z) | SpdRoutine (r : SPD_ROUTINE).

Definition is_null (r : ROUTINE) : bool := match r with NullRoutine => true | _ => false end.

(** The members of the driver object that the driver changes. *)
Record DRIVER_OBJECT := mkDriverObject { ob_DriverUnload : ROUTINE; ob_MajorFunctionPnp : ROUTINE }.

(** The members of the initialization data that are set. *)
Record VIRTUAL_HW_INITIALIZATION_DATA := mkHwData {
  HwInitialize : ROUTINE; HwStartIo : ROUTINE; HwFindAdapter : ROUTINE; HwResetBus : ROUTINE;
  DeviceExtensionSize : Z; SrbExtensionSize : Z;
  MapBuffers : Z; TaggedQueuing : bool; AutoRequestSense : bool; MultipleRequestPerLu : bool;
  HwAdapterControl : ROUTINE; HwFreeAdapterResources : ROUTINE; HwProcessServiceRequest : ROUTINE;
  HwCompleteServiceIrp : ROUTINE; HwInitializeTracing : ROUTINE; HwCleanupTracing : ROUTINE
}.

(** The handles of the driver, its resource if it is initialized, and its global variables. *)
Record DRIVER := mkDriver {
  dr_Handles : list Z;
  SpdGlobalDeviceResource : bool;
  dr_StorageUnitCapacity : Z;
  StorPortDriverUnload : ROUTINE;
  StorPortDispatchPnp : ROUTINE
}.

#[export] Instance DRIVER_eta : Eta DRIVER := fun D =>
  mkDriver (dr_Handles D) (SpdGlobalDeviceResource D) (dr_StorageUnitCapacity D) (StorPortDriverUnload D)
    (StorPortDispatchPnp D).

(** ** The kernel *)

Definition ZwClose (D : DRIVER) (Handle : Z) : option DRIVER :=
  hs ← take_away Handle (dr_Handles D); Some (D <| dr_Handles := hs |>).

Definition ExInitializeResourceLite (D : DRIVER) : option DRIVER :=
  if SpdGlobalDeviceResource D then None else Some (D <| SpdGlobalDeviceResource := true |>).

Definition ExDeleteResourceLite (D : DRIVER) : option DRIVER :=
  if SpdGlobalDeviceResource D then Some (D <| SpdGlobalDeviceResource := false |>) else None.

(** ** The registry *)

(** [SpdRegistryGetValue]: the status and the value information.  [ZwOpenKey] gives its status and the
    handle, 0 if there is none, and [ZwQueryValueKey] its status and what it leaves in the buffer. *)
Definition SpdRegistryGetValue (D : DRIVER) (ZwOpenKey : Z * Z) (ZwQueryValueKey : Z -> list Z -> Z * list Z)
    (ValueInformation : list Z) : option (Z * list Z * DRIVER) :=
  let '(Result, Handle) := ZwOpenKey in
  let D := if 0 =? Handle then D else D <| dr_Handles := Handle :: dr_Handles D |> in
  let exit Result ValueInformation :=
    D ← (if negb (0 =? Handle) then ZwClose D Handle else Some D);
    Some (Result, ValueInformation, D) in
  if negb (NT_SUCCESS Result) then exit Result ValueInformation
  else
    let '(Result, ValueInformation) := ZwQueryValueKey Handle ValueInformation in
    if negb (NT_SUCCESS Result) then exit Result ValueInformation
    else exit STATUS_SUCCESS ValueInformation.

(** The members [Type] and [Data] of a [KEY_VALUE_PARTIAL_INFORMATION]. *)
Definition information_Type (Information : list Z) : option Z := load_le32 4 Information.
Definition information_Data (Information : list Z) : option Z := load_le32 12 Information.

(** ** [DriverEntry] *)

Definition STOR_MAP_NON_READ_WRITE_BUFFERS : Z := 2.
Definition sizeof_SPD_STORAGE_UNIT_ptr : Z := 8.

(** The answers to its calls; the sizes of the structures; [StorPortInitialize] gives its status and
    leaves its own functions in the driver object. *)
Record ENTRY_ANSWERS := mkEntry {
  en_ZwOpenKey : Z * Z;
  en_ZwQueryValueKey : Z -> list Z -> Z * list Z;
  en_RegistryValue : list Z;             (* the buffer on the stack, not initialized *)
  en_sizeof_SPD_DEVICE_EXTENSION : Z;
  en_sizeof_SPD_SRB_EXTENSION : Z;
  en_StorPortInitialize : DRIVER_OBJECT -> VIRTUAL_HW_INITIALIZATION_DATA -> Z * DRIVER_OBJECT
}.

Definition hw_initialization_data (a : ENTRY_ANSWERS) (Capacity : Z) : VIRTUAL_HW_INITIALIZATION_DATA :=
  mkHwData (SpdRoutine rSpdHwInitialize) (SpdRoutine rSpdHwStartIo) (SpdRoutine rSpdHwFindAdapter)
    (SpdRoutine rSpdHwResetBus)
    (u32 (en_sizeof_SPD_DEVICE_EXTENSION a + sizeof_SPD_STORAGE_UNIT_ptr * Capacity))
    (en_sizeof_SPD_SRB_EXTENSION a)
    STOR_MAP_NON_READ_WRITE_BUFFERS true true true
    (SpdRoutine rSpdHwAdapterControl) (SpdRoutine rSpdHwFreeAdapterResources)
    (SpdRoutine rSpdHwProcessServiceRequest) (SpdRoutine rSpdHwCompleteServiceIrp)
    (SpdRoutine rSpdHwInitializeTracing) (SpdRoutine rSpdHwCleanupTracing).

(** [DriverEntry]: the status, the driver object and the driver. *)
Definition DriverEntry (D : DRIVER) (DriverObject : DRIVER_OBJECT) (a : ENTRY_ANSWERS)
    : option (Z * DRIVER_OBJECT * DRIVER) :=
  D ← ExInitializeResourceLite D;
  '(Result, Information, D) ← SpdRegistryGetValue D (en_ZwOpenKey a) (en_ZwQueryValueKey a) (en_RegistryValue a);
  D ← (if NT_SUCCESS Result then
         Type_ ← information_Type Information;
         if REG_DWORD =? Type_ then
           Value ← information_Data Information;
           Some (if (SPD_IOCTL_STORAGE_UNIT_CAPACITY <=? Value) && (Value <=? SPD_IOCTL_STORAGE_UNIT_MAX_CAPACITY)
                 then D <| dr_StorageUnitCapacity := Value |> else D)
         else Some D
       else Some D);
  let Data := hw_initialization_data a (dr_StorageUnitCapacity D) in
  let '(Result, DriverObject) := en_StorPortInitialize a DriverObject Data in
  if negb (NT_SUCCESS Result) then
    D ← ExDeleteResourceLite D; Some (Result, DriverObject, D)
  else
    let D := D <| StorPortDriverUnload := ob_DriverUnload DriverObject |>
               <| StorPortDispatchPnp := ob_MajorFunctionPnp DriverObject |> in
    let DriverObject :=
      mkDriverObject (SpdRoutine rDriverUnload)
        (if negb (is_null (StorPortDispatchPnp D)) then SpdRoutine rSpdDispatchPnp else NullRoutine) in
    Some (Result, DriverObject, D).

(** [DriverUnload]: the functions of the port driver that it calls, and the driver. *)
Definition DriverUnload (D : DRIVER) : option (list ROUTINE * DRIVER) :=
  let calls := if negb (is_null (StorPortDriverUnload D)) then [StorPortDriverUnload D] else [] in
  D ← ExDeleteResourceLite D; Some (calls, D).

(** ** Requests to a device *)

Definition NT_ERROR (Status : Z) : bool := Status ≫ 30 =? 3.
Definition STATUS_PENDING := 0x103.

(** What the system does with a request: whether there is memory for it, what [IoCallDriver] gives,
    and what is in the status block when the event was set, or when there is no wait. *)
Record IO_ANSWER := mkIoAnswer {
  io_Irp : bool;
  io_IoCallDriver : Z;
  io_Now : option (Z * Z);
  io_Waited : option (Z * Z)
}.

(** [SpdMakeDeviceIoControlRequest]: the status block, which was [IoStatus]. *)
Definition SpdMakeDeviceIoControlRequest (IoStatus : Z * Z) (a : IO_ANSWER) : Z * Z :=
  if negb (io_Irp a) then (STATUS_INSUFFICIENT_RESOURCES, 0)
  else
    let Result := io_IoCallDriver a in
    let IoStatus := default IoStatus (if STATUS_PENDING =? Result then io_Waited a else io_Now a) in
    if NT_ERROR Result then (Result, 0) else IoStatus.

(** The request for the address of a disk: what [SpdGetScsiAddress] of [DriverGlobal] looks at. *)
Definition scsi_address_request (a : IO_ANSWER) (Length PathId TargetId Lun : Z) : SCSI_ADDRESS :=
  let IoStatus := SpdMakeDeviceIoControlRequest (0, 0) a in
  mkScsiAddress IoStatus.1 IoStatus.2 Length PathId TargetId Lun.

(** * Properties of loading and unloading the driver *)

#[local] Set Warnings "-clear-no-such-hyp".

(** ** The registry *)

(** Every handle that is opened is closed, whatever the calls give. *)
Lemma registry_get_value D Open Query B :
  exists s B', SpdRegistryGetValue D Open Query B = Some (s, B', D) /\
    (B' = B \/ NT_SUCCESS Open.1 = true /\ B' = (Query Open.2 B).2).
Proof.
  unfold SpdRegistryGetValue. destruct Open as [s H]. cbn [fst snd].
  assert (forall (s' : Z) (B' : list Z),
    (D' ← (if negb (0 =? H) then ZwClose (if 0 =? H then D else D <| dr_Handles := H :: dr_Handles D |>) H
           else Some (if 0 =? H then D else D <| dr_Handles := H :: dr_Handles D |>)); Some (s', B', D'))
    = Some (s', B', D)) as Hexit.
  { intros s' B'. destruct (0 =? H); cbn [negb]; [done|]. unfold ZwClose. cbn [dr_Handles update].
    rewrite take_away_head, !bind_value. by destruct D. }
  destruct (NT_SUCCESS s); cbn [negb]; [|eexists _, _; split; [apply Hexit|by left]].
  destruct (Query H B) as [s' B']. destruct (NT_SUCCESS s'); cbn [negb];
    eexists _, _; (split; [apply Hexit|by right]).
Qed.

Lemma load_le32_some o buf : (o + 4 <= length buf)%nat -> exists v, load_le32 o buf = Some v.
Proof.
  intros H. unfold load_le32. assert (forall i, (i < 4)%nat -> exists b, buf !! (o + i)%nat = Some b) as Hb
    by (intros i Hi; apply lookup_lt_is_Some_2; lia).
  destruct (Hb 0%nat) as [b0 H0]; [lia|]. rewrite Nat.add_0_r in H0.
  destruct (Hb 1%nat) as [b1 H1]; [lia|]. destruct (Hb 2%nat) as [b2 H2]; [lia|]. destruct (Hb 3%nat) as [b3 H3]; [lia|].
  eexists. by rewrite ?H0, ?H1, ?H2, ?H3.
Qed.

(** ** Loading *)

(** What the registry and the compiler promise: the system writes inside the buffer, and the extension
    without its table is not absurdly large. *)
Record entry_answers_wf (a : ENTRY_ANSWERS) : Prop := {
  ew_buffer : length (en_RegistryValue a) = 16%nat;
  ew_query h b : length b = 16%nat -> length (en_ZwQueryValueKey a h b).2 = 16%nat;
  ew_sizeof : 0 <= en_sizeof_SPD_DEVICE_EXTENSION a < 2 ^ 31
}.

(** The driver after it was loaded, and its object. *)
Record loaded (D0 D : DRIVER) (a : ENTRY_ANSWERS) (Ob ObPort : DRIVER_OBJECT) : Prop := {
  ld_handles : dr_Handles D = dr_Handles D0;
  ld_resource : SpdGlobalDeviceResource D = true;
  ld_capacity : SPD_IOCTL_STORAGE_UNIT_CAPACITY <= dr_StorageUnitCapacity D <= SPD_IOCTL_STORAGE_UNIT_MAX_CAPACITY;
  ld_table I : 0 <= I < dr_StorageUnitCapacity D ->
    en_sizeof_SPD_DEVICE_EXTENSION a + sizeof_SPD_STORAGE_UNIT_ptr * (I + 1) <=
    DeviceExtensionSize (hw_initialization_data a (dr_StorageUnitCapacity D));
  ld_unload : ob_DriverUnload Ob = SpdRoutine rDriverUnload /\ StorPortDriverUnload D = ob_DriverUnload ObPort;
  ld_pnp : StorPortDispatchPnp D = ob_MajorFunctionPnp ObPort /\
    (ob_MajorFunctionPnp Ob = SpdRoutine rSpdDispatchPnp <-> StorPortDispatchPnp D <> NullRoutine)
}.

(** The capacity is the one that [DriverGlobal] has for what the registry gives. *)
Lemma driver_entry_capacity D s B :
  dr_StorageUnitCapacity D = SPD_IOCTL_STORAGE_UNIT_CAPACITY -> length B = 16%nat ->
  exists Type_ Value,
    (if NT_SUCCESS s then
       Type_ ← information_Type B;
       if REG_DWORD =? Type_ then
         Value ← information_Data B;
         Some (if (SPD_IOCTL_STORAGE_UNIT_CAPACITY <=? Value) && (Value <=? SPD_IOCTL_STORAGE_UNIT_MAX_CAPACITY)
               then D <| dr_StorageUnitCapacity := Value |> else D)
       else Some D
     else Some D) = Some (D <| dr_StorageUnitCapacity := DriverEntryCapacity s Type_ Value |>).
Proof.
  intros HD HB. unfold information_Type, information_Data.
  destruct (load_le32_some 4 B) as [Type_ HT]; [lia|]. destruct (load_le32_some 12 B) as [Value HV]; [lia|].
  exists Type_, Value. rewrite HT, bind_value, HV. unfold DriverEntryCapacity.
  assert (D = D <| dr_StorageUnitCapacity := SPD_IOCTL_STORAGE_UNIT_CAPACITY |>) as HD' by (destruct D; cbn in *; congruence).
  destruct (NT_SUCCESS s); cbn [andb]; [|by rewrite <- HD']. destruct (REG_DWORD =? Type_); [|by rewrite <- HD'].
  rewrite bind_value. destruct ((_ <=? _) && _); [done|by rewrite <- HD'].
Qed.

(** C18: Loading the driver has no fault, whatever the registry holds: it closes the key, and when the
    port driver takes it, the table has between 16 and 64 slots, all inside the extension that the
    port driver is told to allocate, and the plug and play requests and the end of the driver come
    to this driver, which calls the port driver's own functions; unloading it then calls that function
    and deletes the resource.  If the port driver does not take it, nothing is left. *)
Theorem driver_load_unload D Ob a :
  entry_answers_wf a -> SpdGlobalDeviceResource D = false ->
  dr_StorageUnitCapacity D = SPD_IOCTL_STORAGE_UNIT_CAPACITY ->
  exists s Ob' D', DriverEntry D Ob a = Some (s, Ob', D') /\
    if NT_SUCCESS s then
      (exists ObPort, en_StorPortInitialize a Ob (hw_initialization_data a (dr_StorageUnitCapacity D')) = (s, ObPort) /\
         loaded D D' a Ob' ObPort) /\
      (exists calls D'', DriverUnload D' = Some (calls, D'') /\ SpdGlobalDeviceResource D'' = false /\
         dr_Handles D'' = dr_Handles D /\
         calls = (if is_null (StorPortDriverUnload D') then [] else [StorPortDriverUnload D']))
    else SpdGlobalDeviceResource D' = false /\ dr_Handles D' = dr_Handles D.
Proof.
  intros Ha HR HC. unfold DriverEntry. unfold ExInitializeResourceLite at 1. rewrite HR, bind_value.
  set (D1 := D <| SpdGlobalDeviceResource := true |>).
  destruct (registry_get_value D1 (en_ZwOpenKey a) (en_ZwQueryValueKey a) (en_RegistryValue a)) as (s & B & -> & HB).
  rewrite bind_value.
  assert (length B = 16%nat) as HL by (destruct HB as [->|[_ ->]]; [|apply (ew_query _ Ha)]; apply (ew_buffer _ Ha)).
  destruct (driver_entry_capacity D1 s B) as (Type_ & Value & ->); [done|done|]. rewrite bind_value.
  pose proof (driver_capacity_range s Type_ Value) as Hcap. set (cap := DriverEntryCapacity s Type_ Value) in *.
  cbn [dr_StorageUnitCapacity update D1].
  destruct (en_StorPortInitialize a Ob (hw_initialization_data a cap)) as [st Obp] eqn:EP.
  destruct (NT_SUCCESS st) eqn:ES; cbn [negb].
  - eexists _, _, _. split; [reflexivity|]. rewrite ES. split; [|eexists _, _; split; [reflexivity|]].
    + exists Obp. split; [done|]. constructor; try done; cbn.
      * intros I HI. pose proof (ew_sizeof _ Ha). unfold hw_initialization_data. cbn [DeviceExtensionSize].
        unfold SPD_IOCTL_STORAGE_UNIT_CAPACITY, SPD_IOCTL_STORAGE_UNIT_MAX_CAPACITY in Hcap. rewrite u32_small; unfold sizeof_SPD_STORAGE_UNIT_ptr; cbn in HI; lia.
      * split; [done|]. destruct (ob_MajorFunctionPnp Obp); cbn; split; congruence.
    + cbn. split_and!; [done|done|]. by destruct (ob_DriverUnload Obp).
  - unfold ExDeleteResourceLite. cbn. rewrite bind_value || idtac. eexists _, _, _. split; [reflexivity|]. by rewrite ES.
Qed.

(** ** Requests *)

(** What the system promises of a request that ends with the status [s] and the information [i]: at
    once, and then it need not set the block when the status is an error, or later. *)
Definition completes (a : IO_ANSWER) (s i : Z) : Prop :=
  io_Irp a = true /\
  ((io_IoCallDriver a = s /\ s <> STATUS_PENDING /\ (NT_ERROR s = false -> io_Now a = Some (s, i))) \/
   (io_IoCallDriver a = STATUS_PENDING /\ io_Waited a = Some (s, i))).

(** A request to a device gives the status with which the request ends, at once or later, though
    the system does not set the status block of one that fails at once; so the address of a disk is
    taken only if the request for it succeeded with the whole structure, and an error is never taken for
    success. *)
Theorem scsi_address_status a s i Length PathId TargetId Lun :
  completes a s i ->
  let A := scsi_address_request a Length PathId TargetId Lun in
  IoStatus_Status A = s /\ (NT_ERROR s = false -> IoStatus_Information A = i) /\
  (NT_SUCCESS (SpdGetScsiAddress A) = true <->
     NT_SUCCESS s = true /\ sizeof_SCSI_ADDRESS <= i /\ sizeof_SCSI_ADDRESS <= Length).
Proof.
  intros [HI Hc]. unfold scsi_address_request, SpdMakeDeviceIoControlRequest. rewrite HI. cbn [negb].
  assert (forall e, NT_ERROR e = true -> NT_SUCCESS e = false) as Herr.
  { intros e. unfold NT_ERROR, NT_SUCCESS. rewrite Z.shiftr_div_pow2 by lia. intros H. zify_bools. apply Z.ltb_ge. dlia. }
  assert (exists b, (if NT_ERROR (io_IoCallDriver a) then (io_IoCallDriver a, 0)
     else default (0, 0) (if STATUS_PENDING =? io_IoCallDriver a then io_Waited a else io_Now a)) = b /\
     b.1 = s /\ (NT_ERROR s = false -> b.2 = i)) as (b & -> & H1 & H2).
  { eexists. split; [reflexivity|]. destruct Hc as [(-> & Hp & Hnow)|[-> ->]].
    - rewrite (proj2 (Z.eqb_neq STATUS_PENDING s)) by congruence. destruct (NT_ERROR s) eqn:E; [done|].
      by rewrite (Hnow eq_refl).
    - change (NT_ERROR STATUS_PENDING) with false. by rewrite Z.eqb_refl. }
  cbn [IoStatus_Status IoStatus_Information]. split; [done|]. split; [done|].
  unfold SpdGetScsiAddress. cbn [IoStatus_Status IoStatus_Information sa_Length]. rewrite H1.
  destruct (NT_SUCCESS s) eqn:E; cbn [negb]; [|rewrite E; naive_solver].
  assert (NT_ERROR s = false) as Hne by (destruct (NT_ERROR s) eqn:E'; [by rewrite (Herr _ E') in E|done]).
  rewrite (H2 Hne). destruct ((sizeof_SCSI_ADDRESS >? i) || _) eqn:Eo.
  - split; [done|]. intros (_ & ? & ?). apply orb_true_iff in Eo as [Eo|Eo]; zify_bools; lia.
  - split; [|done]. intros _. zify_bools. split; [done|lia].
Qed.

(** ** Examples *)

(** A registry value of 32, and a port driver that has its own functions. *)
Definition example_entry : ENTRY_ANSWERS :=
  mkEntry (STATUS_SUCCESS, 9)
    (fun _ _ => (STATUS_SUCCESS, le32 0 ++ le32 REG_DWORD ++ le32 4 ++ le32 32))
    (replicate 16 0xcc) 48 64
    (fun _ _ => (STATUS_SUCCESS, mkDriverObject (PortRoutine 0x100) (PortRoutine 0x200))).

Definition example_driver : DRIVER := mkDriver [] false SPD_IOCTL_STORAGE_UNIT_CAPACITY NullRoutine NullRoutine.

Lemma driver_load_unload_witness :
  exists D' D'', DriverEntry example_driver (mkDriverObject NullRoutine NullRoutine) example_entry =
      Some (STATUS_SUCCESS, mkDriverObject (SpdRoutine rDriverUnload) (SpdRoutine rSpdDispatchPnp), D') /\
    dr_StorageUnitCapacity D' = 32 /\
    DriverUnload D' = Some ([PortRoutine 0x100], D'') /\ SpdGlobalDeviceResource D'' = false.
Proof.
  destruct (driver_load_unload example_driver (mkDriverObject NullRoutine NullRoutine) example_entry)
    as (s & Ob' & D' & He & Hr).
  - constructor; [done|done|split; [discriminate|reflexivity]].
  - done.
  - done.
  - vm_compute in He. injection He as <- <- <-. cbn in Hr. destruct Hr as [_ (calls & D'' & Hu & Hres & _ & ->)].
    eexists _, D''. split; [by vm_compute|]. split; [done|]. split; [exact Hu|exact Hres].
Defined.

(** A request that fails at once, and leaves the status block as it was: zero, which is success. *)
Lemma scsi_address_status_witness :
  completes (mkIoAnswer true STATUS_OBJECT_NAME_NOT_FOUND None None) STATUS_OBJECT_NAME_NOT_FOUND 0 /\
  IoStatus_Status (scsi_address_request (mkIoAnswer true STATUS_OBJECT_NAME_NOT_FOUND None None) 0 0 0 0) =
    STATUS_OBJECT_NAME_NOT_FOUND.
Proof.
  assert (completes (mkIoAnswer true STATUS_OBJECT_NAME_NOT_FOUND None None) STATUS_OBJECT_NAME_NOT_FOUND 0) as H.
  { split; [done|]. left. split; [done|]. by split. }
  split; [exact H|]. by destruct (scsi_address_status _ _ _ 0 0 0 0 H).
Defined.
