(* ===== verification/DebugLog.v ===== *)
(** * Logs: [shared/debug.c], [shared/log.c], [SrbStringize] of [sys/debug.c], [dll/library.c]

    What is logged for a request and a response: the format and the arguments that go to the
    functions of the system which print them.  An argument is of the type that the code passes. *)

From S2P Require Import Prelude Wdk IoctlTypes Minimal Srb Text.

(** ** Arguments and formats *)

(** What a variadic call passes: a number of 32 bits, a pointer, a text, a wide text. *)
Inductive ARG :=
  | ArgInt (v : Z)
  | ArgPointer (p : Z)
  | ArgText (t : list Z)
  | ArgWide (t : list Z).

(** The conversions of a format: the characters that are taken as they are, numbers with the least
    number of digits, a pointer, and texts. *)
Inductive ITEM :=
  | Char (c : Z)
  | Number (hex : bool) (width : nat)
  | Pointer
  | Text
  | WideText.

(** A conversion, after its percent sign: a width, [l] (which changes nothing), and a letter. *)
Fixpoint conversion (f : list Z) (width : nat) : option (ITEM * list Z) :=
  match f with
  | [] => None
  | c :: f =>
      if (48 <=? c) && (c <=? 57) then conversion f (10 * width + Z.to_nat (c - 48))
      else if c =? 108 then conversion f width
      else if (c =? 117) || (c =? 100) then Some (Number false width, f)
      else if c =? 120 then Some (Number true width, f)
      else if c =? 112 then Some (Pointer, f)
      else if c =? 115 then Some (Text, f)
      else if c =? 83 then Some (WideText, f)
      else None
  end.

Fixpoint parse_format (fuel : nat) (f : list Z) : option (list ITEM) :=
  match fuel, f with
  | _, [] => Some []
  | O, _ => None
  | S fuel, c :: f =>
      if c =? 37 then '(i, f) ← conversion f 0; is_ ← parse_format fuel f; Some (i :: is_)
      else is_ ← parse_format fuel f; Some (Char c :: is_)
  end.

Definition items (f : list Z) : option (list ITEM) := parse_format (length f) f.

(** Does each conversion get an argument of its type, and each argument a conversion? *)
Fixpoint agree_args (is_ : list ITEM) (args : list ARG) : bool :=
  match is_, args with
  | [], [] => true
  | Char _ :: is_, args => agree_args is_ args
  | Number _ _ :: is_, ArgInt _ :: args => agree_args is_ args
  | Pointer :: is_, ArgPointer _ :: args => agree_args is_ args
  | Text :: is_, ArgText _ :: args => agree_args is_ args
  | WideText :: is_, ArgWide _ :: args => agree_args is_ args
  | _, _ => false
  end.

Definition well_typed (log : list Z * list ARG) : bool :=
  match items log.1 with Some is_ => agree_args is_ log.2 | None => false end.

(** The most characters that the items print. *)
Fixpoint most_chars (is_ : list ITEM) (args : list ARG) : Z :=
  match is_, args with
  | Char _ :: is_, args => 1 + most_chars is_ args
  | Number _ width :: is_, _ :: args => Z.max 10 (Z.of_nat width) + most_chars is_ args
  | Pointer :: is_, _ :: args => 16 + most_chars is_ args
  | Text :: is_, ArgText t :: args => Z.of_nat (length t) + most_chars is_ args
  | WideText :: is_, ArgWide t :: args => 2 * Z.of_nat (length t) + most_chars is_ args
  | _, _ => 0
  end.

(** ** Requests and responses *)

Section Debug.
Context (Ident : list Z) (Tid : Z).

Definition HighPart (v : Z) : ARG := ArgInt (u32 (v ≫ 32)).
Definition LowPart (v : Z) : ARG := ArgInt (u32 v).

(** [SpdDebugLogRequest]; a member of the union that is not the one of the kind is [None]. *)
Definition SpdDebugLogRequest (Request : SPD_IOCTL_TRANSACT_REQ) : option (list Z * list ARG) :=
  let args := [ArgWide Ident; ArgInt Tid; ArgPointer (req_Hint Request)] in
  if req_Kind Request =? SpdIoctlTransactReadKind then
    match req_Op Request with
    | OpRead a c f =>
        Some (lit "%S[TID=%04lx]: %p: >>Read  BlockAddress=%lx:%lx, BlockCount=%u, FUA=%u" ++ [10],
              args ++ [HighPart a; LowPart a; ArgInt c; ArgInt f])
    | _ => None
    end
  else if req_Kind Request =? SpdIoctlTransactWriteKind then
    match req_Op Request with
    | OpWrite a c f =>
        Some (lit "%S[TID=%04lx]: %p: >>Write BlockAddress=%lx:%lx, BlockCount=%u, FUA=%u" ++ [10],
              args ++ [HighPart a; LowPart a; ArgInt c; ArgInt f])
    | _ => None
    end
  else if req_Kind Request =? SpdIoctlTransactFlushKind then
    match req_Op Request with
    | OpFlush a c =>
        Some (lit "%S[TID=%04lx]: %p: >>Flush BlockAddress=%lx:%lx, BlockCount=%u" ++ [10],
              args ++ [HighPart a; LowPart a; ArgInt c])
    | _ => None
    end
  else if req_Kind Request =? SpdIoctlTransactUnmapKind then
    match req_Op Request with
    | OpUnmap c => Some (lit "%S[TID=%04lx]: %p: >>Unmap Count=%u" ++ [10], args ++ [ArgInt c])
    | _ => None
    end
  else Some (lit "%S[TID=%04lx]: %p: >>INVLD" ++ [10], args).

(** The name of a value among those of a switch. *)
Fixpoint symbol (table : list (Z * string)) (v : Z) : list Z :=
  match table with
  | [] => lit "UNKNOWN"
  | (x, n) :: table => if v =? x then lit n else symbol table v
  end.

Definition SpdDebugLogScsiStatusSym : Z -> list Z :=
  symbol [(0x00, "GOOD"); (0x02, "CHECK_CONDITION"); (0x04, "CONDITION_MET"); (0x08, "BUSY");
          (0x18, "RESERVATION_CONFLICT"); (0x28, "TASK_SET_FULL"); (0x30, "ACA_ACTIVE"); (0x40, "TASK_ABORTED")]%string.

Definition SpdDebugLogSenseKeySym : Z -> list Z :=
  symbol [(0x0, "NO_SENSE"); (0x1, "RECOVERED_ERROR"); (0x2, "NOT_READY"); (0x3, "MEDIUM_ERROR"); (0x4, "HARDWARE_ERROR");
          (0x5, "ILLEGAL_REQUEST"); (0x6, "UNIT_ATTENTION"); (0x7, "DATA_PROTECT"); (0x8, "BLANK_CHECK");
          (0x9, "VENDOR_SPECIFIC"); (0xA, "COPY_ABORTED"); (0xB, "ABORTED_COMMAND"); (0xD, "VOL_OVERFLOW");
          (0xE, "MISCOMPARE")]%string.

(** [SpdDebugLogResponseStatus] *)
Definition SpdDebugLogResponseStatus (Response : SPD_IOCTL_TRANSACT_RSP) (Name : list Z) : list Z * list ARG :=
  let Status := rsp_Status Response in
  let args := [ArgWide Ident; ArgInt Tid; ArgPointer (rsp_Hint Response); ArgText Name] in
  if SCSISTAT_GOOD =? ScsiStatus Status then
    (lit "%S[TID=%04lx]: %p: <<%s Status=%s" ++ [10], args ++ [ArgText (SpdDebugLogScsiStatusSym (ScsiStatus Status))])
  else
    let args := args ++ [ArgText (SpdDebugLogScsiStatusSym (ScsiStatus Status));
                         ArgText (SpdDebugLogSenseKeySym (SenseKey Status)); ArgInt (ASC Status); ArgInt (ASCQ Status)] in
    if negb (InformationValid Status) then
      (lit "%S[TID=%04lx]: %p: <<%s Status=%u SenseKey=%s ASC/ASCQ=%lu/%lu" ++ [10], args)
    else
      (lit "%S[TID=%04lx]: %p: <<%s Status=%u SenseKey=%s ASC/ASCQ=%lu/%lu Information=%lx:%lx" ++ [10],
       args ++ [HighPart (Information Status); LowPart (Information Status)]).

Definition SpdDebugLogResponse (Response : SPD_IOCTL_TRANSACT_RSP) : list Z * list ARG :=
  SpdDebugLogResponseStatus Response
    (if rsp_Kind Response =? SpdIoctlTransactReadKind then lit "Read "
     else if rsp_Kind Response =? SpdIoctlTransactWriteKind then lit "Write"
     else if rsp_Kind Response =? SpdIoctlTransactFlushKind then lit "Flush"
     else if rsp_Kind Response =? SpdIoctlTransactUnmapKind then lit "Unmap"
     else lit "INVLD").

(** Where [SpdDebugLog] sends a text: to the handle that was set, or to the debugger. *)
Inductive LOG_OUTPUT := ToHandle (Handle : Z) | ToDebugger.

Definition SpdDebugLog_output (SpdDebugLogHandle : Z) : LOG_OUTPUT :=
  if negb (INVALID_HANDLE_VALUE =? SpdDebugLogHandle) then ToHandle SpdDebugLogHandle else ToDebugger.
End Debug.

(** ** Requests of the port driver: [SrbStringize] *)

Section Stringize.
(** The names of the functions, the operation codes and the status values. *)
Context (SrbFunctionSym CdbOperationCodeSym SrbStatusSym : Z -> list Z).

(** [SRB_STATUS] *)
Definition SRB_STATUS_of (Status : Z) : Z := Status .& 0x3f.
Definition SRB_STATUS_QUEUE_FROZEN := 0x40.

Definition SrbStatusMaskSym (Status : Z) : list Z :=
  let m := Status .& (SRB_STATUS_QUEUE_FROZEN .| SRB_STATUS_AUTOSENSE_VALID) in
  if m =? SRB_STATUS_QUEUE_FROZEN then lit "[Qf]"
  else if m =? SRB_STATUS_AUTOSENSE_VALID then lit "[Av]"
  else if m =? (SRB_STATUS_QUEUE_FROZEN .| SRB_STATUS_AUTOSENSE_VALID) then lit "[QfAv]"
  else [].

(** [SrbStringize]: the format and the arguments.  [Sense] are the bytes of the sense data, if
    there is a buffer. *)
Definition SrbStringize (Srb : SRB) (Sense : option (list Z)) : option (list Z * list ARG) :=
  let Function := SrbGetSrbFunction Srb in
  let Status := SrbGetSrbStatus Srb in
  let status := [ArgText (SrbStatusSym (SRB_STATUS_of Status)); ArgText (SrbStatusMaskSym Status)] in
  if Function =? SRB_FUNCTION_EXECUTE_SCSI then
    op ← SrbGetCdb Srb !! 0%nat;
    let head := [ArgText (SrbFunctionSym Function); ArgText (CdbOperationCodeSym op);
                 ArgInt (SrbGetPathId Srb); ArgInt (SrbGetTargetId Srb); ArgInt (SrbGetLun Srb)] in
    if negb (SRB_STATUS_ERROR =? SRB_STATUS_of Status) then
      Some (lit "%s[%s], Lun=%u:%u:%u, DataTransferLength=%lu, SrbStatus=%s%s",
            head ++ [ArgInt (SrbGetDataTransferLength Srb)] ++ status)
    else
      let plain := Some (lit "%s[%s], Lun=%u:%u:%u, ScsiStatus=%u, SrbStatus=%s%s",
                         head ++ [ArgInt (SrbGetScsiStatus Srb)] ++ status) in
      match Sense with
      | None => plain
      | Some Sense =>
          if (sizeof_SENSE_DATA <=? SrbGetSenseInfoBufferLength Srb) &&
             (SrbGetSrbFlags Srb .& SRB_FLAGS_DISABLE_AUTOSENSE =? 0) then
            b0 ← Sense !! 0%nat; b2 ← Sense !! 2%nat; b12 ← Sense !! 12%nat;
            if Z.testbit b0 7 && negb (Status .& SRB_STATUS_AUTOSENSE_VALID =? 0) then
              Some (lit "%s[%s], Lun=%u:%u:%u, ScsiStatus=%u, SenseData={KEY=%u,ASC=%u}, SrbStatus=%s%s",
                    head ++ [ArgInt (SrbGetScsiStatus Srb); ArgInt (b2 .& 0xf); ArgInt b12] ++ status)
            else plain
          else plain
      end
  else Some (lit "%s, SrbStatus=%s%s", ArgText (SrbFunctionSym Function) :: status).
End Stringize.

(** ** Texts of programs: [shared/log.c] *)

(** The loop of [SpdDiagIdentInitialize]: where the base name begins, and where its text is cut.
    [i] is the position of [P] in the name. *)
Fixpoint ident_loop (P : list Z) (i : nat) (Base : nat) (Dot : option nat) : nat * option nat :=
  match P with
  | [] => (Base, Dot)
  | c :: P =>
      if c =? 92 then ident_loop P (S i) (S i) Dot
      else if c =? 46 then ident_loop P (S i) Base (Some i)
      else ident_loop P (S i) Base Dot
  end.

(** The text that is copied to a buffer of 20 characters: the zero at the last dot ends it. *)
Definition SpdDiagIdent (ModuleFileName : option (list Z)) : list Z :=
  let Name := default (lit "UNKNOWN") ModuleFileName in
  let '(Base, Dot) := ident_loop Name 0 0 None in
  let Text := match Dot with
              | Some d => if (d <? Base)%nat then drop Base Name else take (d - Base) (drop Base Name)
              | None => drop Base Name
              end in
  take 19 Text.

(** [SpdPrintLogV]: what is written for a text that the format gives.  [ToUtf8] is
    [WideCharToMultiByte] with the size of the buffer, the empty list where it fails; writing a byte
    outside of the buffer is [None]. *)
Definition SpdPrintLogV (ToUtf8 : list Z -> Z -> list Z) (Alloc : bool) (Text : list Z) : option (option (list Z)) :=
  let BufW := take 1023 Text in
  let Length := Z.of_nat (length BufW) in
  let Size := Length * 3 + 1 in
  if negb Alloc then Some None
  else
    let BufA := ToUtf8 BufW Size in
    let n := Z.of_nat (length BufA) in
    if 0 <? n then if n <? Size then Some (Some (BufA ++ [10])) else None else Some None.

(** The kinds of events, and the identifier of each: [SpdEventLogV]. *)
Definition EVENTLOG_ERROR_TYPE := 1.
Definition EVENTLOG_WARNING_TYPE := 2.

Definition SpdEventLog_id (Type_ : Z) : Z :=
  if Type_ =? EVENTLOG_WARNING_TYPE then 0xA0000001
  else if Type_ =? EVENTLOG_ERROR_TYPE then 0xE0000001
  else 0x60000001.

(** [SpdIsInteractive]: the window station of the last call and what it has learned of it.  [Flags]
    are those of the station, if they are known. *)
Definition WSF_VISIBLE := 1.

Definition SpdIsInteractive (Station : Z) (Interactive : bool) (Current : Z) (Flags : option Z) : bool * (Z * bool) :=
  if negb (0 =? Current) && negb (Station =? Current) then
    let Interactive := match Flags with Some f => negb (0 =? f .& WSF_VISIBLE) | None => Interactive end in
    (Interactive, (Current, Interactive))
  else (Interactive, (Station, Interactive)).

(** [SpdVersion]: the error, [*PVersion], and the version that is kept.  [Read] is what the version
    resource of the module tells. *)
Definition ERROR_GEN_FAILURE := 31.

Definition SpdVersion (Version : Z) (Read : option Z) : Z * Z * Z :=
  if 0 =? Version then
    match Read with
    | None => (ERROR_GEN_FAILURE, 0, Version)
    | Some v => (ERROR_SUCCESS, v, v)
    end
  else (ERROR_SUCCESS, Version, Version).

(** * The formats of the logs agree with their arguments

    Each conversion gets an argument of its type, but for the status of a response that is not good;
    the text of a program is the name of its file. *)

(** A request whose union has the member of its kind. *)
Definition request_tagged (r : SPD_IOCTL_TRANSACT_REQ) : Prop :=
  match req_Op r with
  | OpRead _ _ _ => req_Kind r = SpdIoctlTransactReadKind
  | OpWrite _ _ _ => req_Kind r = SpdIoctlTransactWriteKind
  | OpFlush _ _ => req_Kind r = SpdIoctlTransactFlushKind
  | OpUnmap _ => req_Kind r = SpdIoctlTransactUnmapKind
  | OpNone => ~ 1 <= req_Kind r <= 4
  end.

(** The most characters of a log. *)
Definition log_chars (log : list Z * list ARG) : Z := match items log.1 with Some is_ => most_chars is_ log.2 | None => 0 end.

(** The format of a log is computed, and its arguments are bounded. *)
Ltac log_typed :=
  eexists; split; [reflexivity|]; split; [reflexivity|]; unfold log_chars; vm_compute items; cbn -[Z.of_nat Z.max Z.mul]; lia.

Lemma request_log_typed Ident Tid r :
  request_tagged r ->
  exists log, SpdDebugLogRequest Ident Tid r = Some log /\ well_typed log = true /\
    log_chars log <= 160 + 2 * Z.of_nat (length Ident).
Proof.
  intros Hr. destruct r as [hint kind op]. unfold request_tagged in Hr. cbn [req_Op req_Kind] in Hr.
  unfold SpdDebugLogRequest. cbn [req_Op req_Kind req_Hint].
  destruct op as [|a c f|a c f|a c|c]; [|subst kind..].
  - rewrite !(proj2 (Z.eqb_neq kind _)) by (unfold SpdIoctlTransactReadKind, SpdIoctlTransactWriteKind, SpdIoctlTransactFlushKind, SpdIoctlTransactUnmapKind; lia).
    log_typed.
  - log_typed.
  - log_typed.
  - log_typed.
  - log_typed.
Qed.

Lemma response_log_typed Ident Tid r :
  well_typed (SpdDebugLogResponse Ident Tid r) = (SCSISTAT_GOOD =? ScsiStatus (rsp_Status r)).
Proof.
  unfold SpdDebugLogResponse, SpdDebugLogResponseStatus. cbv zeta.
  destruct (SCSISTAT_GOOD =? _); [reflexivity|]. by destruct (InformationValid _).
Qed.

Lemma srb_log_typed f g h Srb Sense log : SrbStringize f g h Srb Sense = Some log -> well_typed log = true.
Proof.
  unfold SrbStringize. cbv zeta. destruct (_ =? SRB_FUNCTION_EXECUTE_SCSI); [|by intros [= <-]].
  destruct (SrbGetCdb Srb !! 0%nat) as [op|]; [|done]. rewrite bind_value.
  destruct (negb _); [by intros [= <-]|]. destruct Sense as [Sense|]; [|by intros [= <-]].
  destruct (_ && _); [|by intros [= <-]].
  destruct (Sense !! 0%nat) as [b0|]; [|done]. destruct (Sense !! 2%nat) as [b2|]; [|done].
  destruct (Sense !! 12%nat) as [b12|]; [|done]. rewrite !bind_value. destruct (_ && _); by intros [= <-].
Qed.

(** C39: The logs are well typed: every format of the log of a request, of a good response, and of a
    request of the port driver gets an argument of the type of each of its conversions, in their
    order, and no other; and the log of a request fits in the buffer of 1024 bytes with the name of
    any program.  The format of a response with an error is not: its status is printed as a number,
    but the code passes the text of its name. *)
Theorem log_formats_typed Ident Tid :
  (length Ident <= 19)%nat ->
  (forall r, request_tagged r -> exists log, SpdDebugLogRequest Ident Tid r = Some log /\ well_typed log = true /\
     log_chars log < 1024) /\
  (forall r, well_typed (SpdDebugLogResponse Ident Tid r) = (SCSISTAT_GOOD =? ScsiStatus (rsp_Status r))) /\
  (forall f g h Srb Sense log, SrbStringize f g h Srb Sense = Some log -> well_typed log = true).
Proof.
  intros HI. split_and!; [|apply response_log_typed|apply srb_log_typed].
  intros r Hr. destruct (request_log_typed Ident Tid r Hr) as (log & E & Hw & Hc). exists log.
  split; [done|]. split; [done|]. lia.
Qed.

(** A flush by the program "rawdisk", and a response with an error. *)
Lemma log_formats_typed_witness :
  (exists log, SpdDebugLogRequest (lit "rawdisk") 4 (mkReq 7 SpdIoctlTransactFlushKind (OpFlush 5 8)) = Some log /\
     well_typed log = true /\ log_chars log < 1024) /\
  well_typed (SpdDebugLogResponse (lit "rawdisk") 4 (mkRsp 7 SpdIoctlTransactFlushKind (mkStatus 2 3 0 0 0 false))) = false.
Proof.
  destruct (log_formats_typed (lit "rawdisk") 4) as (H1 & H2 & _); [vm_compute; lia|].
  split; [apply H1; reflexivity|]. rewrite H2. reflexivity.
Defined.

(** ** Texts of programs *)

Lemma ident_loop_app p q i B D :
  ident_loop (p ++ q) i B D = let '(B', D') := ident_loop p i B D in ident_loop q (i + length p) B' D'.
Proof.
  revert i B D. induction p as [|c p IH]; intros i B D; cbn [app ident_loop length]; [by rewrite Nat.add_0_r|].
  rewrite Nat.add_succ_r. destruct (c =? 92); [apply IH|]. destruct (c =? 46); apply IH.
Qed.

Lemma ident_loop_plain p i B D : 92 ∉ p -> 46 ∉ p -> ident_loop p i B D = (B, D).
Proof.
  revert i. induction p as [|c p IH]; intros i H1 H2; [done|]. cbn [ident_loop].
  apply not_elem_of_cons in H1 as [Hc H1]. apply not_elem_of_cons in H2 as [Hd H2].
  rewrite (proj2 (Z.eqb_neq c 92)), (proj2 (Z.eqb_neq c 46)) by auto. by apply IH.
Qed.

Lemma ident_loop_name p i B D : 92 ∉ p -> (ident_loop p i B D).1 = B.
Proof.
  revert i D. induction p as [|c p IH]; intros i D H1; [done|]. cbn [ident_loop].
  apply not_elem_of_cons in H1 as [Hc H1]. rewrite (proj2 (Z.eqb_neq c 92)) by auto. destruct (c =? 46); by apply IH.
Qed.

Lemma ident_loop_dot p i B D d : (ident_loop p i B D).2 = Some d -> D = Some d \/ (i <= d < i + length p)%nat.
Proof.
  revert i B D. induction p as [|c p IH]; intros i B D; cbn [ident_loop length]; [by left|].
  destruct (c =? 92); [intros [?|?]%IH; [by left|right; lia]|].
  destruct (c =? 46); (intros [E|?]%IH; [|right; lia]); [injection E as <-; right; lia|by left].
Qed.

(** The text of a program is the name of its file without the directory and the extension, cut to
    19 characters; a dot in the directory does not matter. *)
Lemma diag_ident_name dir name :
  92 ∉ name ->
  (46 ∉ name -> SpdDiagIdent (Some (dir ++ 92 :: name)) = take 19 name) /\
  (forall ext, 92 ∉ ext -> 46 ∉ ext -> SpdDiagIdent (Some (dir ++ 92 :: name ++ 46 :: ext)) = take 19 name).
Proof.
  intros Hn. unfold SpdDiagIdent. cbn [default from_option id]. split.
  - intros Hd. rewrite ident_loop_app. destruct (ident_loop dir 0 0 None) as [B D] eqn:E. cbn [ident_loop].
    rewrite Z.eqb_refl, (ident_loop_plain name) by done.
    assert (drop (S (0 + length dir)) (dir ++ 92%Z :: name) = name) as ->.
    { rewrite drop_app_ge by lia. by replace (S (0 + length dir) - length dir)%nat with 1%nat by lia. }
    destruct D as [d|]; [|done]. destruct (ident_loop_dot dir 0 0 None d) as [?|?]; [by rewrite E|done|].
    by rewrite (proj2 (Nat.ltb_lt _ _)) by lia.
  - intros ext He1 He2. rewrite ident_loop_app. destruct (ident_loop dir 0 0 None) as [B D] eqn:E. cbn [ident_loop].
    rewrite Z.eqb_refl, ident_loop_app.
    destruct (ident_loop name _ _ D) as [B' D'] eqn:E'.
    pose proof (ident_loop_name name (S (0 + length dir)) (S (0 + length dir)) D Hn) as HB. rewrite E' in HB. cbn [fst] in HB. subst B'.
    cbn [ident_loop]. change (46 =? 92) with false. rewrite Z.eqb_refl, (ident_loop_plain ext) by done.
    rewrite (proj2 (Nat.ltb_ge _ _)) by lia.
    rewrite drop_app_ge by lia. replace (S (0 + length dir) - length dir)%nat with 1%nat by lia. cbn [drop].
    f_equal. apply take_app_length'. lia.
Qed.

(** A text is written whole, with a newline, and inside its buffer: the system needs at most three
    bytes for a wide character. *)
Lemma print_log_written ToUtf8 Text :
  (forall t n, Z.of_nat (length (ToUtf8 t n)) <= 3 * Z.of_nat (length t)) -> (length Text < 1024)%nat ->
  SpdPrintLogV ToUtf8 true Text =
    Some (let BufA := ToUtf8 Text (Z.of_nat (length Text) * 3 + 1) in
          if 0 <? Z.of_nat (length BufA) then Some (BufA ++ [10]) else None).
Proof.
  intros Hu Hl. unfold SpdPrintLogV. cbn [negb]. rewrite (firstn_all2 Text) by lia. cbv zeta.
  specialize (Hu Text (Z.of_nat (length Text) * 3 + 1)). destruct (0 <? _); [|done].
  by rewrite (proj2 (Z.ltb_lt _ _)) by lia.
Qed.
