(* ===== verification/DevSetupApi.v ===== *)
(** * The calls of the device setup program

    A program that only calls the system is a function of an environment, which answers each call
    from the calls before it.  What the program does is the history of its calls and the answers,
    the last one first.  Here are the calls of [devsetup/devsetup.c], the monad of such programs, and
    the rules that the calls keep: what a call uses is open. *)

From S2P Require Import Prelude Wdk IoctlTypes.

(** ** Constants of the headers *)

Definition MAX_PATH := 260.
Definition LINE_LEN := 256.
Definition ERROR_SHARING_VIOLATION := 32.
Definition ERROR_SUCCESS_REBOOT_REQUIRED := 3010.
Definition MB_OK := 0.
Definition MB_ICONEXCLAMATION := 0x30.
Definition DIGCF_PRESENT := 2.
Definition DIGCF_ALLCLASSES := 4.
Definition SPDRP_HARDWAREID := 1.
Definition SPDIT_CLASSDRIVER := 1.
Definition SPDIT_COMPATDRIVER := 2.
Definition DI_NOVCP := 0x8.
Definition DI_NEEDRESTART := 0x80.
Definition DI_NEEDREBOOT := 0x100.
Definition DI_FLAGSEX_ALLOWEXCLUDEDDRVS := 0x800.
Definition DI_FLAGSEX_INSTALLEDDRIVER := 0x4000000.
Definition DIF_INSTALLDEVICEFILES := 0x15.
Definition DIF_REGISTERDEVICE := 0x19.
Definition DICD_GENERATE_ID := 1.
Definition SPQ_SCAN_USE_CALLBACK := 2.
Definition SPFILENOTIFY_QUEUESCAN := 0xf.
Definition SUOI_FORCEDELETE := 1.
Definition DELETE := 0x10000.
Definition FILE_SHARE_READ := 1.
Definition FILE_SHARE_WRITE := 2.
Definition FILE_SHARE_DELETE := 4.
Definition OPEN_EXISTING := 3.
Definition FILE_FLAG_DELETE_ON_CLOSE := 0x4000000.
Definition FILE_ATTRIBUTE_NORMAL := 0x80.
Definition MOVEFILE_DELAY_UNTIL_REBOOT := 4.

(** ** Calls *)

(** The fields of [SP_DEVINSTALL_PARAMS_W] that the program uses. *)
Record INSTALL_PARAMS := mkInstallParams { ip_Flags : Z; ip_FlagsEx : Z; ip_FileQueue : Z }.

#[export] Instance eta_install_params : Eta INSTALL_PARAMS :=
  fun r => mkInstallParams (ip_Flags r) (ip_FlagsEx r) (ip_FileQueue r).

(** What a scan of a file queue gives: the notifications for its callback, with their first
    parameter, then its result and [ScanResult]. *)
Record SCAN := mkScan { sc_Files : list (Z * list Z); sc_Result : Z; sc_ScanResult : Z }.

(** A call, with the type of its answer.  Devices and drivers are numbers, a text has its
    terminator, an answer [None] is the failure of the call. *)
Inductive CALL : Type -> Type :=
  | GetLastError : CALL Z
  | SetupDiGetClassDevsW (Flags : Z) : CALL Z
  | SetupDiCreateDeviceInfoList (ClassGuid : Z) : CALL Z
  | SetupDiDestroyDeviceInfoList (DiHandle : Z) : CALL bool
  | SetupDiEnumDeviceInfo (DiHandle I : Z) : CALL (option Z)
  | SetupDiGetDeviceRegistryPropertyW (DiHandle Info Property Size : Z) : CALL (bool * list Z)
  | SetupDiSetDeviceRegistryPropertyW (DiHandle Info Property : Z) (Buf : list Z) : CALL bool
  | SetupDiGetDeviceInstallParamsW (DiHandle Info : Z) : CALL (option INSTALL_PARAMS)
  | SetupDiSetDeviceInstallParamsW (DiHandle Info : Z) (Params : INSTALL_PARAMS) : CALL bool
  | SetupDiBuildDriverInfoList (DiHandle Info Type_ : Z) : CALL bool
  | SetupDiEnumDriverInfoW (DiHandle Info Type_ I : Z) : CALL (option Z)
  | SetupDiGetDriverInfoDetailW (DiHandle Info DrvInfo : Z) : CALL (bool * list Z)
  | SetupDiDestroyDriverInfoList (DiHandle Info Type_ : Z) : CALL bool
  | SetupDiSetSelectedDriver (DiHandle Info DrvInfo : Z) : CALL bool
  | SetupDiCallClassInstaller (Function DiHandle Info : Z) : CALL bool
  | SetupDiGetINFClassW (FileName : list Z) : CALL (option (Z * list Z))
  | SetupDiCreateDeviceInfoW (DiHandle : Z) (ClassName : list Z) (ClassGuid Flags : Z) : CALL (option Z)
  | SetupOpenFileQueue : CALL Z
  | SetupScanFileQueueW (QueueHandle Flags : Z) : CALL SCAN
  | SetupCloseFileQueue (QueueHandle : Z) : CALL bool
  | SetupUninstallOEMInfW (FileName : list Z) (Flags : Z) : CALL bool
  | UpdateDriverForPlugAndPlayDevicesW (HardwareId FileName : list Z) : CALL (bool * bool)
  | DiUninstallDevice (DiHandle Info Flags : Z) : CALL (bool * bool)
  | GetFullPathNameW (FileName : list Z) (Size : Z) : CALL (Z * list Z)
  | UuidCreate : CALL GUID
  | MoveFileExW (Old : list Z) (To : option (list Z)) (Flags : Z) : CALL bool
  | CreateFileW (FileName : list Z) (Access Share Disposition Flags : Z) : CALL Z
  | CloseHandle (Handle : Z) : CALL bool
  | SetFileAttributesW (FileName : list Z) (Attributes : Z) : CALL bool
  | MemRealloc (Size : Z) : CALL (option (Z -> Z))
  | MemFree : CALL unit
  | MessageBoxW (Text Caption : list Z) (Type_ : Z) : CALL Z.

Inductive EVENT : Type :=
  | Event {R : Type} (c : CALL R) (r : R).
Definition HISTORY : Type := list EVENT.

(** The environment: the answer to a call after a history. *)
Definition ENV : Type := forall R, HISTORY -> CALL R -> R.

(** ** Programs *)

(** A program returns, or it exits with a code; [Stuck] is a fault, or no more fuel. *)
Inductive OUTCOME (A : Type) :=
  | Done (a : A) (h : HISTORY)
  | Exited (code : Z) (h : HISTORY)
  | Stuck.
Arguments Done {A} a h.
Arguments Exited {A} code h.
Arguments Stuck {A}.

Definition PROG (A : Type) : Type := ENV -> HISTORY -> OUTCOME A.

#[export] Instance prog_ret : MRet PROG := fun A a env h => Done a h.
#[export] Instance prog_bind : MBind PROG := fun A B k m env h =>
  match m env h with
  | Done a h => k a env h
  | Exited code h => Exited code h
  | Stuck => Stuck
  end.

Definition call {R} (c : CALL R) : PROG R := fun env h => let r := env R h c in Done r (Event c r :: h).
Definition exit_process {A} (code : Z) : PROG A := fun _ h => Exited code h.
Definition stuck {A} : PROG A := fun _ _ => Stuck.

(** A value that is not there is a fault. *)
Definition lift {A} (o : option A) : PROG A := match o with Some a => mret a | None => stuck end.

(** ** What is open *)

Record OPENED := mkOpened {
  Lists : gset Z;                 (** device information sets *)
  Drivers : gset (Z * Z * Z);     (** driver lists, by set, device and type *)
  Queues : gset Z;                (** file queues *)
  Files : gset Z                  (** files *)
}.

#[export] Instance opened_eq_dec : EqDecision OPENED.
Proof. solve_decision. Defined.

Definition nothing_open : OPENED := mkOpened ∅ ∅ ∅ ∅.

Definition opens (h : Z) (s : gset Z) : gset Z := if INVALID_HANDLE_VALUE =? h then s else {[h]} ∪ s.
Definition closes (h : Z) (s : gset Z) : option (gset Z) := if decide (h ∈ s) then Some (s ∖ {[h]}) else None.
Definition uses (h : Z) (o : OPENED) : option OPENED := if decide (h ∈ Lists o) then Some o else None.

(** The effect of a call; [None] when it uses what is not open.  A driver list is open when it is
    destroyed, unless [Exempt] lets a program destroy a list of this type that it does not have. *)
Definition after (Exempt : Z -> bool) (o : OPENED) (e : EVENT) : option OPENED :=
  let '(mkOpened L D Q F) := o in
  match e with
  | Event c r =>
      match c in CALL R return R -> option OPENED with
      | SetupDiGetClassDevsW _ | SetupDiCreateDeviceInfoList _ => fun h => Some (mkOpened (opens h L) D Q F)
      | SetupDiDestroyDeviceInfoList h => fun _ =>
          L' ← closes h L; Some (mkOpened L' (filter (fun d => d.1.1 <> h) D) Q F)
      | SetupDiEnumDeviceInfo h _ | SetupDiCreateDeviceInfoW h _ _ _ => fun _ => uses h o
      | SetupDiGetDeviceRegistryPropertyW h _ _ _ => fun _ => uses h o
      | SetupDiSetDeviceRegistryPropertyW h _ _ _ => fun _ => uses h o
      | SetupDiGetDeviceInstallParamsW h _ => fun _ => uses h o
      | SetupDiSetDeviceInstallParamsW h _ _ => fun _ => uses h o
      | SetupDiGetDriverInfoDetailW h _ _ => fun _ => uses h o
      | SetupDiCallClassInstaller _ h _ => fun _ => uses h o
      | DiUninstallDevice h _ _ => fun _ => uses h o
      | SetupDiBuildDriverInfoList h i t => fun ok =>
          uses h o ≫= fun o => Some (if (ok : bool) then mkOpened L ({[(h, i, t)]} ∪ D) Q F else o)
      | SetupDiEnumDriverInfoW h i t _ => fun _ => if decide ((h, i, t) ∈ D) then Some o else None
      | SetupDiSetSelectedDriver h i _ => fun _ => if decide ((h, i, SPDIT_CLASSDRIVER) ∈ D) then Some o else None
      | SetupDiDestroyDriverInfoList h i t => fun _ =>
          uses h o ≫= fun o =>
            if decide ((h, i, t) ∈ D) then Some (mkOpened L (D ∖ {[(h, i, t)]}) Q F)
            else if Exempt t then Some o else None
      | SetupOpenFileQueue => fun q => Some (mkOpened L D (opens q Q) F)
      | SetupScanFileQueueW q _ => fun _ => if decide (q ∈ Q) then Some o else None
      | SetupCloseFileQueue q => fun _ => Q' ← closes q Q; Some (mkOpened L D Q' F)
      | CreateFileW _ _ _ _ _ => fun f => Some (mkOpened L D Q (opens f F))
      | CloseHandle f => fun _ => F' ← closes f F; Some (mkOpened L D Q F')
      | _ => fun _ => Some o
      end r
  end.

(** What is open after a history. *)
Fixpoint opened (Exempt : Z -> bool) (h : HISTORY) : option OPENED :=
  match h with
  | [] => Some nothing_open
  | e :: h => o ← opened Exempt h; after Exempt o e
  end.

(** No exemption, and the one for the lists of compatible drivers. *)
Definition no_list (Type_ : Z) : bool := false.
Definition compat_list (Type_ : Z) : bool := Type_ =? SPDIT_COMPATDRIVER.
