(* ===== verification/DevSetup.v ===== *)
(** * Device setup: [devsetup/devsetup.c]

    The program that installs and removes the driver of WinSpd.  A text is the list of its
    characters with its terminator; a pointer into a buffer is the rest of the buffer.  The
    contents of buffers that the program does not initialize are arguments ([garbage]). *)

From S2P Require Import Prelude Wdk IoctlTypes Minimal Mbr Text DevSetupApi.

Definition PROGNAME : list Z := lit "devsetup".

Definition MessageBoxFormat (Type_ : Z) (Caption Text : list Z) : PROG Z :=
  call (MessageBoxW Text Caption Type_).

(** [usage] does not return. *)
Definition usage_text : list Z :=
  lit "usage: " ++ PROGNAME ++ lit " COMMAND ARGS" ++ [10; 10] ++ lit "commands:" ++ [10] ++
  lit "    add hwid file.inf" ++ [10] ++ lit "    remove hwid" ++ [10] ++ lit "    removedev hwid" ++ [10].

Definition usage {A} : PROG A :=
  _ ← MessageBoxFormat (MB_ICONEXCLAMATION .| MB_OK) PROGNAME usage_text;
  exit_process ERROR_INVALID_PARAMETER.

(** ** Enumerating devices *)

(** The function [Fn] that is called for a device: its [DiHandle] and its [Info]. *)
Definition DEVICE_FN : Type := Z -> Z -> PROG Z.

(** What a loop leaves: the error with which it goes to [exit], [Found] and [RebootRequired]. *)
Definition SEARCH : Type := option Z * bool * bool.

(** The call of [Fn] for a device that has been found. *)
Definition found_device (Fn : option DEVICE_FN) (DiHandle Info : Z) (Found RebootRequired : bool) : PROG SEARCH :=
  match Fn with
  | None => mret (None, true, RebootRequired)
  | Some Fn =>
      err ← Fn DiHandle Info;
      if negb (0 =? err) then
        if negb (ERROR_SUCCESS_REBOOT_REQUIRED =? err) then mret (Some err, Found, RebootRequired)
        else mret (None, true, true)
      else mret (None, true, RebootRequired)
  end.

(** The loop over the hardware identifiers of a device, from [P]. *)
Fixpoint identifiers_loop (fuel : nat) (P HardwareId : list Z) (Fn : option DEVICE_FN) (DiHandle Info : Z)
    (Found RebootRequired : bool) : PROG SEARCH :=
  match fuel with
  | O => stuck
  | S fuel =>
      c ← lift (P !! 0%nat);
      if c =? 0 then mret (None, Found, RebootRequired)
      else
        v ← lift (invariant_wcsicmp P HardwareId);
        '(Stop, Found, RebootRequired) ←
          (if 0 =? v then found_device Fn DiHandle Info Found RebootRequired
           else mret (None, Found, RebootRequired) : PROG SEARCH);
        match Stop with
        | Some err => mret (Some err, Found, RebootRequired)
        | None =>
            n ← lift (lstrlenW P);
            identifiers_loop fuel (drop (n + 1) P) HardwareId Fn DiHandle Info Found RebootRequired
        end
  end.

Definition PropBuf_length : nat := 1024.

(** What a call stores in [PropBuf]: no more than the size that it was given. *)
Definition store_property (Data PropBuf : list Z) : list Z :=
  let Data := take (PropBuf_length - 2) Data in Data ++ drop (length Data) PropBuf.

(** [PropBuf[1022] = PropBuf[1023] = L'\0'] *)
Definition terminate (PropBuf : list Z) : list Z :=
  <[(PropBuf_length - 1)%nat := 0]> (<[(PropBuf_length - 2)%nat := 0]> PropBuf).

(** The loop over the devices. *)
Fixpoint devices_loop (fuel : nat) (DiHandle I : Z) (PropBuf HardwareId : list Z) (Fn : option DEVICE_FN)
    (Found RebootRequired : bool) : PROG SEARCH :=
  if Found then mret (None, Found, RebootRequired)
  else
    match fuel with
    | O => stuck
    | S fuel =>
        Info ← call (SetupDiEnumDeviceInfo DiHandle I);
        match Info with
        | None => mret (None, Found, RebootRequired)
        | Some Info =>
            '(Success, Data) ← call (SetupDiGetDeviceRegistryPropertyW DiHandle Info SPDRP_HARDWAREID
              (2 * Z.of_nat (PropBuf_length - 2)));
            let PropBuf := store_property Data PropBuf in
            if negb Success then devices_loop fuel DiHandle (u32 (I + 1)) PropBuf HardwareId Fn Found RebootRequired
            else
              let PropBuf := terminate PropBuf in
              '(Stop, Found, RebootRequired) ←
                identifiers_loop PropBuf_length PropBuf HardwareId Fn DiHandle Info Found RebootRequired;
              match Stop with
              | Some err => mret (Some err, Found, RebootRequired)
              | None => devices_loop fuel DiHandle (u32 (I + 1)) PropBuf HardwareId Fn Found RebootRequired
              end
        end
    end.

Definition no_more_is_not_found (err : Z) : Z := if ERROR_NO_MORE_ITEMS =? err then ERROR_FILE_NOT_FOUND else err.

Definition EnumerateDevices (fuel : nat) (garbage HardwareId : list Z) (Fn : option DEVICE_FN) : PROG Z :=
  DiHandle ← call (SetupDiGetClassDevsW (DIGCF_ALLCLASSES .| DIGCF_PRESENT));
  err ←
    (if INVALID_HANDLE_VALUE =? DiHandle then call GetLastError
     else
       '(Stop, Found, RebootRequired) ← devices_loop fuel DiHandle 0 garbage HardwareId Fn false false;
       match Stop with
       | Some err => mret err
       | None =>
           if negb Found then call GetLastError
           else mret (if RebootRequired : bool then ERROR_SUCCESS_REBOOT_REQUIRED else ERROR_SUCCESS)
       end);
  let err := no_more_is_not_found err in
  _ ← (if negb (INVALID_HANDLE_VALUE =? DiHandle) then call (SetupDiDestroyDeviceInfoList DiHandle) else mret true);
  mret err.

(** ** The driver of a device *)

(** The loop of [GetInstalledDriver]: whether a driver was found, [DrvInfo] and the [InfFileName] of
    [DrvDetail]. *)
Fixpoint drivers_loop (fuel : nat) (DiHandle Info I DrvInfo : Z) (InfFileName : list Z) : PROG (bool * Z * list Z) :=
  match fuel with
  | O => stuck
  | S fuel =>
      Driver ← call (SetupDiEnumDriverInfoW DiHandle Info SPDIT_CLASSDRIVER I);
      match Driver with
      | None => mret (false, DrvInfo, InfFileName)
      | Some DrvInfo =>
          '(Success, InfFileName) ← call (SetupDiGetDriverInfoDetailW DiHandle Info DrvInfo);
          Skip ← (if negb Success then
                    err ← call GetLastError; mret (negb (ERROR_INSUFFICIENT_BUFFER =? err))
                  else mret false);
          if Skip : bool then drivers_loop fuel DiHandle Info (u32 (I + 1)) DrvInfo InfFileName
          else mret (true, DrvInfo, InfFileName)
      end
  end.

(** [GetInstalledDriver]: the error, [DrvInfo] and the [InfFileName] of [DrvDetail]. *)
Definition GetInstalledDriver (fuel : nat) (DiHandle Info DrvInfo : Z) (InfFileName : list Z)
    : PROG (Z * Z * list Z) :=
  let lasterr InfoList : PROG (Z * bool * Z * list Z) :=
    err ← call GetLastError; mret (err, InfoList, DrvInfo, InfFileName) in
  '(err, InfoList, DrvInfo, InfFileName) ←
    (InstallParams ← call (SetupDiGetDeviceInstallParamsW DiHandle Info);
     match InstallParams with
     | None => lasterr false
     | Some InstallParams =>
         let InstallParams := InstallParams <| ip_FlagsEx :=
           ip_FlagsEx InstallParams .| (DI_FLAGSEX_INSTALLEDDRIVER .| DI_FLAGSEX_ALLOWEXCLUDEDDRVS) |> in
         Success ← call (SetupDiSetDeviceInstallParamsW DiHandle Info InstallParams);
         if negb Success then lasterr false
         else
           Success ← call (SetupDiBuildDriverInfoList DiHandle Info SPDIT_CLASSDRIVER);
           if negb Success then lasterr false
           else
             '(Found, DrvInfo, InfFileName) ← drivers_loop fuel DiHandle Info 0 DrvInfo InfFileName;
             if negb Found then err ← call GetLastError; mret (err, true, DrvInfo, InfFileName)
             else mret (ERROR_SUCCESS, true, DrvInfo, InfFileName)
     end);
  let err := no_more_is_not_found err in
  _ ← (if InfoList : bool then call (SetupDiDestroyDriverInfoList DiHandle Info SPDIT_COMPATDRIVER) else mret true);
  mret (err, DrvInfo, InfFileName).

(** ** The files of a driver *)

(** [PSP_FILE_CALLBACK_W]: the context, the notification and its first parameter. *)
Definition FILE_CALLBACK (D : Type) : Type := D -> Z -> list Z -> PROG (Z * D).

(** The calls of the callback; a result other than zero ends the scan. *)
Fixpoint scan_files {D} (Fn : FILE_CALLBACK D) (Files : list (Z * list Z)) (Data : D) : PROG (option Z * D) :=
  match Files with
  | [] => mret (None, Data)
  | (Notification, Param1) :: Files =>
      '(Result, Data) ← Fn Data Notification Param1;
      if negb (0 =? Result) then mret (Some Result, Data) else scan_files Fn Files Data
  end.

(** [SetupScanFileQueueW]: its result, [ScanResult], and the context. *)
Definition scan_file_queue {D} (QueueHandle : Z) (Fn : FILE_CALLBACK D) (Data : D) : PROG (Z * Z * D) :=
  Scan ← call (SetupScanFileQueueW QueueHandle SPQ_SCAN_USE_CALLBACK);
  '(Stop, Data) ← scan_files Fn (sc_Files Scan) Data;
  match Stop with
  | Some Result => mret (0, Result, Data)
  | None => mret (sc_Result Scan, sc_ScanResult Scan, Data)
  end.

Definition EnumerateDriverFiles {D} (DiHandle Info DrvInfo : Z) (Fn : FILE_CALLBACK D) (Data : D) : PROG (Z * D) :=
  let lasterr QueueHandle : PROG (Z * Z * D) := err ← call GetLastError; mret (err, QueueHandle, Data) in
  '(err, QueueHandle, Data) ←
    (Success ← call (SetupDiSetSelectedDriver DiHandle Info DrvInfo);
     if negb Success then lasterr INVALID_HANDLE_VALUE
     else
       QueueHandle ← call SetupOpenFileQueue;
       if INVALID_HANDLE_VALUE =? QueueHandle then lasterr QueueHandle
       else
         InstallParams ← call (SetupDiGetDeviceInstallParamsW DiHandle Info);
         match InstallParams with
         | None => lasterr QueueHandle
         | Some InstallParams =>
             let InstallParams := InstallParams <| ip_FileQueue := QueueHandle |> in
             let InstallParams := InstallParams <| ip_Flags := ip_Flags InstallParams .| DI_NOVCP |> in
             Success ← call (SetupDiSetDeviceInstallParamsW DiHandle Info InstallParams);
             if negb Success then lasterr QueueHandle
             else
               Success ← call (SetupDiCallClassInstaller DIF_INSTALLDEVICEFILES DiHandle Info);
               if negb Success then lasterr QueueHandle
               else
                 '(Result, ScanResult, Data) ← scan_file_queue QueueHandle Fn Data;
                 if 0 =? Result then
                   err ← (if negb (0 =? ScanResult) then mret ScanResult else call GetLastError);
                   mret (err, QueueHandle, Data)
                 else mret (ERROR_SUCCESS, QueueHandle, Data)
         end);
  _ ← (if negb (INVALID_HANDLE_VALUE =? QueueHandle) then call (SetupCloseFileQueue QueueHandle) else mret true);
  mret (err, Data).

(** ** Adding a device *)

(** [lstrcpynW(HardwareIdBuf, HardwareId, LINE_LEN + 1)] in a buffer of zeros. *)
Definition HardwareIdBuf (HardwareId : list Z) : option (list Z) :=
  n ← lstrlenW HardwareId;
  let Text := take (Z.to_nat LINE_LEN) (take n HardwareId) in
  Some (Text ++ replicate (Z.to_nat (LINE_LEN + 2) - length Text) 0).

(** The bytes, in characters, that become the property: [lstrlenW(HardwareIdBuf) + 2] of them. *)
Definition hardware_id_property (HardwareId : list Z) : option (list Z) :=
  Buf ← HardwareIdBuf HardwareId;
  n ← lstrlenW Buf;
  buf_read 0 (n + 2) Buf.

Definition needs_reboot (InstallParams : INSTALL_PARAMS) : bool :=
  negb (0 =? ip_Flags InstallParams .& (DI_NEEDREBOOT .| DI_NEEDRESTART)).

(** The new device: an error, or [RebootRequired0], with [DiHandle]. *)
Definition create_device (HardwareId : list Z) (FileNameBuf : option (list Z)) : PROG (option Z * bool * Z) :=
  let lasterr DiHandle : PROG (option Z * bool * Z) := err ← call GetLastError; mret (Some err, false, DiHandle) in
  Name ← lift FileNameBuf;
  Class_ ← call (SetupDiGetINFClassW Name);
  match Class_ with
  | None => lasterr INVALID_HANDLE_VALUE
  | Some (ClassGuid, ClassName) =>
      DiHandle ← call (SetupDiCreateDeviceInfoList ClassGuid);
      if INVALID_HANDLE_VALUE =? DiHandle then lasterr DiHandle
      else
        Info ← call (SetupDiCreateDeviceInfoW DiHandle ClassName ClassGuid DICD_GENERATE_ID);
        match Info with
        | None => lasterr DiHandle
        | Some Info =>
            Property ← lift (hardware_id_property HardwareId);
            Success ← call (SetupDiSetDeviceRegistryPropertyW DiHandle Info SPDRP_HARDWAREID Property);
            if negb Success then lasterr DiHandle
            else
              Success ← call (SetupDiCallClassInstaller DIF_REGISTERDEVICE DiHandle Info);
              if negb Success then lasterr DiHandle
              else
                InstallParams ← call (SetupDiGetDeviceInstallParamsW DiHandle Info);
                match InstallParams with
                | None => lasterr DiHandle
                | Some InstallParams => mret (None, needs_reboot InstallParams, DiHandle)
                end
        end
  end.

(** [FileNameBuf] after [GetFullPathNameW]: a path that does not fit, the length of which is the
    result, is not stored. *)
Definition stored_path (Length : Z) (FileNameBuf : list Z) : option (list Z) :=
  if Length <? MAX_PATH then Some FileNameBuf else None.

Definition AddDevice (fuel : nat) (garbage HardwareId FileName : list Z) : PROG Z :=
  '(Length, Path) ← call (GetFullPathNameW FileName MAX_PATH);
  let FileNameBuf := stored_path Length Path in
  '(err, DiHandle) ←
    (if 0 =? Length then err ← call GetLastError; mret (err, INVALID_HANDLE_VALUE)
     else
       Present ← EnumerateDevices fuel garbage HardwareId None;
       '(Stop, RebootRequired0, DiHandle) ←
         (if negb (ERROR_SUCCESS =? Present) then create_device HardwareId FileNameBuf
          else mret (None, false, INVALID_HANDLE_VALUE));
       match Stop with
       | Some err => mret (err, DiHandle)
       | None =>
           Name ← lift FileNameBuf;
           '(Success, RebootRequired1) ← call (UpdateDriverForPlugAndPlayDevicesW HardwareId Name);
           if negb Success then err ← call GetLastError; mret (err, DiHandle)
           else
             mret (if RebootRequired0 || RebootRequired1 then ERROR_SUCCESS_REBOOT_REQUIRED else ERROR_SUCCESS,
                   DiHandle)
       end);
  _ ← (if negb (INVALID_HANDLE_VALUE =? DiHandle) then call (SetupDiDestroyDeviceInfoList DiHandle) else mret true);
  mret err.

(** ** Removing a device *)

Definition RemoveDevice (DiHandle Info : Z) : PROG Z :=
  '(Success, RebootRequired) ← call (DiUninstallDevice DiHandle Info 0);
  if negb Success then call GetLastError
  else mret (if RebootRequired : bool then ERROR_SUCCESS_REBOOT_REQUIRED else ERROR_SUCCESS).

(** The text of a file name and an identifier, of [MAX_PATH + 40] characters at most with its
    terminator; more is an access outside of [NewFileName]. *)
Definition NewFileName (FileName : list Z) (Guid : GUID) : option (list Z) :=
  n ← lstrlenW FileName;
  let Text := take n FileName ++ [46] ++ hexadecimal_padded 8 (Data1 Guid) [] ++
    hexadecimal_padded 4 (Data2 Guid) [] ++ hexadecimal_padded 4 (Data3 Guid) [] ++
    (Data4 Guid ≫= fun b => hexadecimal_padded 2 b []) in
  if Z.of_nat (length Text) + 1 <=? MAX_PATH + 40 then Some (Text ++ [0]) else None.

(** [CreateFileW] for a file that goes away when it is closed. *)
Definition open_to_delete (FileName : list Z) : PROG Z :=
  call (CreateFileW FileName DELETE (FILE_SHARE_READ .| FILE_SHARE_WRITE .| FILE_SHARE_DELETE)
    OPEN_EXISTING FILE_FLAG_DELETE_ON_CLOSE).

(** The case of [ERROR_SHARING_VIOLATION]: one more time when the system starts. *)
Definition delete_at_reboot (FileName : list Z) (RebootRequired : bool) : PROG (Z * bool) :=
  Success ← call (MoveFileExW FileName None MOVEFILE_DELAY_UNTIL_REBOOT);
  if negb Success then err ← call GetLastError; mret (err, RebootRequired)
  else mret (ERROR_SUCCESS, true).

(** [RemoveFile]: the error and [*RebootRequired]. *)
Definition RemoveFile (FileName : list Z) (RebootRequired : bool) : PROG (Z * bool) :=
  '(err, RebootRequired) ←
    (Guid ← call UuidCreate;
     Name ← lift (NewFileName FileName Guid);
     Success ← call (MoveFileExW FileName (Some Name) 0);
     if negb Success then err ← call GetLastError; mret (err, RebootRequired)
     else
       Handle ← open_to_delete Name;
       if negb (INVALID_HANDLE_VALUE =? Handle) then
         _ ← call (CloseHandle Handle); mret (ERROR_SUCCESS, RebootRequired)
       else
         err ← call GetLastError;
         if err =? ERROR_ACCESS_DENIED then
           _ ← call (SetFileAttributesW Name FILE_ATTRIBUTE_NORMAL);
           Handle ← open_to_delete Name;
           if negb (INVALID_HANDLE_VALUE =? Handle) then
             _ ← call (CloseHandle Handle); mret (ERROR_SUCCESS, RebootRequired)
           else delete_at_reboot Name RebootRequired
         else if err =? ERROR_SHARING_VIOLATION then delete_at_reboot Name RebootRequired
         else err ← call GetLastError; mret (err, RebootRequired));
  mret (if ERROR_FILE_NOT_FOUND =? err then ERROR_SUCCESS else err, RebootRequired).

(** The context of the callback, [*PBuffer]: a block of memory that starts with its size. *)
Definition BUFFER : Type := option (list Z).

(** [*(PULONG)Buffer] *)
Definition buffer_size (Buffer : list Z) : option Z := bs ← buf_read 0 4 Buffer; Some (get_le32 bs).

Definition RemoveDeviceAndDriverCallback (Buffer : BUFFER) (Notification : Z) (Param1 : list Z) : PROG (Z * BUFFER) :=
  if negb (SPFILENOTIFY_QUEUESCAN =? Notification) then mret (ERROR_SUCCESS, Buffer)
  else
    n ← lift (lstrlenW Param1);
    let FileNameSize := u32 ((Z.of_nat n + 1) * 2) in
    OldSize ← lift (match Buffer with None => Some 4 | Some Buffer => buffer_size Buffer end);
    let NewSize := u32 (OldSize + FileNameSize) in
    New ← call (MemRealloc NewSize);
    match New with
    | None => mret (ERROR_NOT_ENOUGH_MEMORY, Buffer)
    | Some New =>
        let Old := take (Z.to_nat NewSize) (default [] Buffer) in
        let Block := Old ++ (New <$> seqZ (Z.of_nat (length Old)) (NewSize - Z.of_nat (length Old))) in
        Block ← lift (buf_write (Z.to_nat OldSize) (take (Z.to_nat FileNameSize) (wide Param1)) Block);
        Block ← lift (buf_write 0 (le32 NewSize) Block);
        mret (ERROR_SUCCESS, Some Block)
    end.

(** The wide characters in memory. *)
Fixpoint unwide (bs : list Z) : list Z :=
  match bs with b0 :: b1 :: bs => b0 .| (b1 ≪ 8) :: unwide bs | _ => [] end.

(** The loop over the names in [DriverFiles]; [P] is an offset in it. *)
Fixpoint files_loop (fuel : nat) (DriverFiles : list Z) (P : nat) (RebootRequired : bool) : PROG bool :=
  Size ← lift (buffer_size DriverFiles);
  if negb (Z.of_nat P <? Size) then mret RebootRequired
  else
    match fuel with
    | O => stuck
    | S fuel =>
        let FileName := unwide (drop P DriverFiles) in
        n ← lift (lstrlenW FileName);
        '(_, RebootRequired) ← RemoveFile (take (n + 1) FileName) RebootRequired;
        files_loop fuel DriverFiles (P + 2 * (n + 1)) RebootRequired
    end.

(** The loop that looks for the last backslash: [BaseName]. *)
Fixpoint base_name (P BaseName : list Z) : option (list Z) :=
  match P with
  | [] => None
  | c :: P => if c =? 0 then Some BaseName else base_name P (if 92 =? c then P else BaseName)
  end.

(** [RemoveDeviceAndDriver]; [DrvInfo] and [InfFileName] are what its variables hold. *)
Definition RemoveDeviceAndDriver (fuel : nat) (DrvInfo : Z) (InfFileName : list Z) (DiHandle Info : Z) : PROG Z :=
  '(err, DrvInfo, InfFileName) ← GetInstalledDriver fuel DiHandle Info DrvInfo InfFileName;
  '(DriverFiles, BaseName) ←
    (if ERROR_SUCCESS =? err then
       '(_, DriverFiles) ← EnumerateDriverFiles DiHandle Info DrvInfo RemoveDeviceAndDriverCallback None;
       BaseName ← lift (base_name InfFileName InfFileName);
       mret (DriverFiles, Some BaseName)
     else mret (None, None) : PROG (BUFFER * option (list Z)));
  err ← RemoveDevice DiHandle Info;
  let RebootRequired := ERROR_SUCCESS_REBOOT_REQUIRED =? err in
  RebootRequired ←
    match DriverFiles with
    | Some DriverFiles => files_loop (length DriverFiles) DriverFiles 4 RebootRequired
    | None => mret RebootRequired
    end;
  _ ← match BaseName with
      | Some BaseName => call (SetupUninstallOEMInfW BaseName SUOI_FORCEDELETE)
      | None => mret true
      end;
  let err := if RebootRequired : bool then ERROR_SUCCESS_REBOOT_REQUIRED else ERROR_SUCCESS in
  _ ← match DriverFiles with Some _ => call MemFree | None => mret tt end;
  mret err.

(** ** The program *)

(** What the memory of the program holds where it is not initialized. *)
Record GARBAGE := mkGarbage { g_PropBuf : list Z; g_DrvInfo : Z; g_InfFileName : list Z }.

Section Program.
Variables (fuel : nat) (garbage : GARBAGE).

Definition add (HardwareId FileName : list Z) : PROG Z := AddDevice fuel (g_PropBuf garbage) HardwareId FileName.

Definition remove (HardwareId : list Z) : PROG Z :=
  EnumerateDevices fuel (g_PropBuf garbage) HardwareId
    (Some (RemoveDeviceAndDriver fuel (g_DrvInfo garbage) (g_InfFileName garbage))).

Definition removedev (HardwareId : list Z) : PROG Z :=
  EnumerateDevices fuel (g_PropBuf garbage) HardwareId (Some RemoveDevice).

(** [0 == invariant_wcscmp(Name, argv[0])] *)
Definition is_command (Name : list Z) (Arg : list Z) : option bool :=
  v ← invariant_wcscmp (Name ++ [0]) Arg; Some (0 =? v).

Definition wmain (argv : list (list Z)) : PROG Z :=
  match argv with
  | [] => stuck
  | _ :: argv =>
      match argv with
      | [] => usage
      | Command :: args =>
          is_add ← lift (is_command (lit "add") Command);
          if is_add : bool then
            match args with [HardwareId; FileName] => add HardwareId FileName | _ => usage end
          else
            is_remove ← lift (is_command (lit "remove") Command);
            if is_remove : bool then match args with [HardwareId] => remove HardwareId | _ => usage end
            else
              is_removedev ← lift (is_command (lit "removedev") Command);
              if is_removedev : bool then match args with [HardwareId] => removedev HardwareId | _ => usage end
              else usage
      end
  end.

(** [WinMainCRTStartup]; [Argv] is the result of [CommandLineToArgvW]. *)
Definition WinMainCRTStartup (Argv : option (list (list Z))) : PROG unit :=
  match Argv with
  | None => err ← call GetLastError; exit_process err
  | Some Argv => code ← wmain Argv; exit_process code
  end.
End Program.
