(* ===== verification/DevSetupProps.v ===== *)
(** * Properties of device setup

    For every environment whose enumerations end, when the full path of the [.inf] file fits: the
    program ends, it faults nowhere, what it uses is open (but for a list of compatible drivers that
    it destroys and does not have), and it leaves nothing open.  The names of the driver's files, put
    into memory by the callback, are read back and removed in their order.  A device that was added is
    found again. *)

From S2P Require Import Prelude Wdk IoctlTypes Minimal MinimalProps Mbr Text DevSetupApi DevSetup.

#[local] Set Warnings "-clear-no-such-hyp".

(** ** Weakest preconditions *)

(** In the environment, the program returns from [h], in [Q]. *)
Definition wp {A} (env : ENV) (m : PROG A) (Q : A -> HISTORY -> Prop) (h : HISTORY) : Prop :=
  match m env h with Done a h => Q a h | _ => False end.

Lemma lift_bind {A B} (a : A) (k : A -> PROG B) env h : (lift (Some a) ≫= k) env h = k a env h.
Proof. done. Qed.

Section Wp.
Context {env : ENV}.

Lemma wp_ret {A} (a : A) (Q : A -> HISTORY -> Prop) h : Q a h -> wp env (mret a) Q h.
Proof. done. Qed.

Lemma wp_bind {A B} (m : PROG A) (k : A -> PROG B) Q h :
  wp env m (fun a h => wp env (k a) Q h) h -> wp env (m ≫= k) Q h.
Proof. unfold wp, mbind, prog_bind. by destruct (m env h). Qed.

Lemma wp_call {R} (c : CALL R) (Q : R -> HISTORY -> Prop) h :
  Q (env R h c) (Event c (env R h c) :: h) -> wp env (call c) Q h.
Proof. done. Qed.

Lemma wp_lift {A} (o : option A) (a : A) (Q : A -> HISTORY -> Prop) h : o = Some a -> Q a h -> wp env (lift o) Q h.
Proof. by intros ->. Qed.

Lemma wp_mono {A} (m : PROG A) (Q Q' : A -> HISTORY -> Prop) h :
  wp env m Q h -> (forall a h, Q a h -> Q' a h) -> wp env m Q' h.
Proof. unfold wp. destruct (m env h); naive_solver. Qed.
End Wp.

(** ** What is open at each point *)

Definition idle (h : HISTORY) : Prop := opened compat_list h = Some nothing_open.

(** One set of devices is open, with driver lists of its own, [L] among them, and the queues [Q]. *)
Definition holds (L : gset (Z * Z * Z)) (Q : gset Z) (H : Z) (h : HISTORY) : Prop :=
  H <> INVALID_HANDLE_VALUE /\
  exists D : gset (Z * Z * Z), opened compat_list h = Some (mkOpened {[H]} D Q ∅) /\ L ⊆ D /\ (forall d, d ∈ D -> d.1.1 = H).

Definition holding (H : Z) (h : HISTORY) : Prop := holds ∅ ∅ H h.

Lemma holds_weaken L Q H h : holds L Q H h -> holds ∅ Q H h.
Proof. intros (Hv & D & Hh & _ & HD). split; [done|]. exists D. by split; [|split; [apply empty_subseteq|]]. Qed.

Lemma opened_step h o e o' : opened compat_list h = Some o -> after compat_list o e = Some o' -> opened compat_list (e :: h) = Some o'.
Proof. intros Hh He. cbn [opened]. by rewrite Hh, bind_value. Qed.

Lemma uses_open h o : h ∈ Lists o -> uses h o = Some o.
Proof. intros. unfold uses. by rewrite decide_True. Qed.

Lemma opens_valid h s : h <> INVALID_HANDLE_VALUE -> opens h s = {[h]} ∪ s.
Proof. intros Hh. unfold opens. by rewrite (proj2 (Z.eqb_neq _ _)) by done. Qed.

Lemma opens_invalid s : opens INVALID_HANDLE_VALUE s = s.
Proof. done. Qed.

Lemma closes_only h : closes h {[h]} = Some ∅.
Proof. unfold closes. rewrite decide_True by set_solver. f_equal. set_solver. Qed.

(** Calls that change nothing of what is open, and use nothing. *)
Definition quiet {R} (c : CALL R) : bool :=
  match c with
  | GetLastError | SetupDiGetINFClassW _ | SetupUninstallOEMInfW _ _ | UpdateDriverForPlugAndPlayDevicesW _ _
  | GetFullPathNameW _ _ | UuidCreate | MoveFileExW _ _ _ | SetFileAttributesW _ _ | MemRealloc _ | MemFree
  | MessageBoxW _ _ _ => true
  | _ => false
  end.

(** Calls that use the set [H] and change nothing. *)
Definition on_set (H : Z) {R} (c : CALL R) : bool :=
  match c with
  | SetupDiEnumDeviceInfo h _ | SetupDiCreateDeviceInfoW h _ _ _ | SetupDiGetDeviceRegistryPropertyW h _ _ _
  | SetupDiSetDeviceRegistryPropertyW h _ _ _ | SetupDiGetDeviceInstallParamsW h _
  | SetupDiSetDeviceInstallParamsW h _ _ | SetupDiGetDriverInfoDetailW h _ _ | SetupDiCallClassInstaller _ h _
  | DiUninstallDevice h _ _ => H =? h
  | _ => false
  end.

Lemma after_quiet o {R} (c : CALL R) r : quiet c = true -> after compat_list o (Event c r) = Some o.
Proof. by destruct o, c. Qed.

Lemma after_on_set H o {R} (c : CALL R) r :
  on_set H c = true -> H ∈ Lists o -> after compat_list o (Event c r) = Some o.
Proof. destruct o as [L D Q F], c; cbn [on_set after]; try done; intros ->%Z.eqb_eq ?; by rewrite uses_open. Qed.

Lemma idle_quiet h {R} (c : CALL R) r : quiet c = true -> idle h -> idle (Event c r :: h).
Proof. intros Hc Hh. eapply opened_step; [exact Hh|by apply after_quiet]. Qed.

Lemma holds_plain L Q H h {R} (c : CALL R) r :
  quiet c || on_set H c = true -> holds L Q H h -> holds L Q H (Event c r :: h).
Proof.
  intros Hc (Hv & D & Hh & HD). split; [done|]. exists D. split; [|done]. eapply opened_step; [exact Hh|].
  apply orb_true_iff in Hc as [Hc|Hc]; [by apply after_quiet|].
  apply (after_on_set H); [done|]. cbn. set_solver.
Qed.

Lemma idle_opens h (H : Z) f : idle h -> H <> INVALID_HANDLE_VALUE -> holding H (Event (SetupDiGetClassDevsW f) H :: h).
Proof.
  intros Hh Hv. split; [done|]. exists ∅. split; [|split; [done|set_solver]]. eapply opened_step; [exact Hh|].
  unfold nothing_open. cbn [after]. rewrite opens_valid by done. by rewrite union_empty_r_L.
Qed.

Lemma idle_creates h (H : Z) g : idle h -> H <> INVALID_HANDLE_VALUE -> holding H (Event (SetupDiCreateDeviceInfoList g) H :: h).
Proof. intros Hh Hv. apply (idle_opens h H 0) in Hh as [_ Hh]; [|done]. by split. Qed.

Lemma holding_destroys H h r : holding H h -> idle (Event (SetupDiDestroyDeviceInfoList H) r :: h).
Proof.
  intros (Hv & D & Hh & _ & HD). eapply opened_step; [exact Hh|]. cbn [after]. rewrite closes_only, bind_value.
  unfold nothing_open. do 2 f_equal. apply set_eq. intros d. rewrite elem_of_filter. set_solver.
Qed.

(** ** The system *)

Definition wchar (c : Z) : Prop := 0 <= c < 2 ^ 16.
Definition file_name (f : list Z) : Prop := exists t, f = t ++ [0] /\ text t /\ (length t <= 260)%nat.

(** What the setup functions promise: enumerations of fewer than [n] items end, a property is text,
    the files of a scan have names that fit in [MAX_PATH], the data of a driver is terminated, and the
    last error, which the program asks for after a failure, is an error. *)
Class Machine (env : ENV) (n : nat) : Prop := {
  machine_bound : Z.of_nat n < 2 ^ 32;
  devices_end h H i : Z.of_nat n <= i -> env _ h (SetupDiEnumDeviceInfo H i) = None;
  drivers_end h H d t i : Z.of_nat n <= i -> env _ h (SetupDiEnumDriverInfoW H d t i) = None;
  property_text h H d p s : Forall wchar (env _ h (SetupDiGetDeviceRegistryPropertyW H d p s)).2;
  scan_names h q f : Forall (fun c => file_name c.2) (sc_Files (env _ h (SetupScanFileQueueW q f)));
  scan_bound h q f : Z.of_nat (length (sc_Files (env _ h (SetupScanFileQueueW q f)))) <= 2 ^ 20;
  detail_text h H d i : exists t x, (env _ h (SetupDiGetDriverInfoDetailW H d i)).2 = t ++ 0 :: x /\ is_text t;
  last_error h : env _ h GetLastError <> ERROR_SUCCESS;
  guid_size h : length (Data4 (env _ h UuidCreate)) = 8%nat
}.


(** ** Calls in a state *)

(** An answer that the environment can give. *)
Definition answered (env : ENV) {R} (c : CALL R) (r : R) : Prop := exists h, r = env R h c.

Section Calls.
Context {env : ENV}.

Lemma wp_holds {R} L S H (c : CALL R) (Q : R -> HISTORY -> Prop) h :
  quiet c || on_set H c = true -> holds L S H h ->
  (forall r h', answered env c r -> holds L S H h' -> Q r h') -> wp env (call c) Q h.
Proof. intros Hc Hh HQ. apply wp_call, HQ; [by exists h|by apply holds_plain]. Qed.

Lemma wp_holding {R} H (c : CALL R) (Q : R -> HISTORY -> Prop) h :
  quiet c || on_set H c = true -> holding H h ->
  (forall r h', answered env c r -> holding H h' -> Q r h') -> wp env (call c) Q h.
Proof. apply wp_holds. Qed.

Lemma wp_idle {R} (c : CALL R) (Q : R -> HISTORY -> Prop) h :
  quiet c = true -> idle h -> (forall r h', answered env c r -> idle h' -> Q r h') -> wp env (call c) Q h.
Proof. intros Hc Hh HQ. apply wp_call, HQ; [by exists h|by apply idle_quiet]. Qed.

Lemma wp_destroys H (Q : bool -> HISTORY -> Prop) h :
  holding H h -> (forall r h', idle h' -> Q r h') -> wp env (call (SetupDiDestroyDeviceInfoList H)) Q h.
Proof. intros Hh HQ. apply wp_call, HQ. by apply holding_destroys. Qed.

(** The answer [H] of a call that opens a set: one that is open now, or none. *)
Lemma wp_opens (c : CALL Z) (Q : Z -> HISTORY -> Prop) h :
  (forall H, after compat_list nothing_open (Event c H) = Some (mkOpened (opens H ∅) ∅ ∅ ∅)) -> idle h ->
  (forall h', idle h' -> Q INVALID_HANDLE_VALUE h') -> (forall H h', holding H h' -> Q H h') -> wp env (call c) Q h.
Proof.
  intros Hc Hh Hi HQ. apply wp_call. set (H := env Z h c). pose proof (opened_step _ _ _ _ Hh (Hc H)) as Ho.
  destruct (decide (H = INVALID_HANDLE_VALUE)) as [E|E].
  - rewrite E in *. apply Hi. by rewrite opens_invalid in Ho.
  - apply HQ. split; [done|]. exists ∅. split; [|split; [done|set_solver]].
    by rewrite opens_valid, union_empty_r_L in Ho by done.
Qed.
End Calls.

(** One step of a program that holds a set, or that is idle; the answer becomes [r]. *)
Ltac step_as r Hr :=
  lazymatch goal with |- wp _ (_ ≫= _) _ _ => apply wp_bind | _ => idtac end;
  first
    [ eapply wp_holding; [cbn [quiet on_set orb]; rewrite ?Z.eqb_refl; reflexivity|eassumption|]
    | eapply wp_holds; [cbn [quiet on_set orb]; rewrite ?Z.eqb_refl; reflexivity|eassumption|]
    | eapply wp_idle; [reflexivity|eassumption|] ];
  match goal with
  | Hh : holding _ ?h |- _ => clear dependent h; intros r h Hr Hh
  | Hh : holds _ _ _ ?h |- _ => clear dependent h; intros r h Hr Hh
  | Hh : idle ?h |- _ => clear dependent h; intros r h Hr Hh
  end.
Tactic Notation "step" "as" simple_intropattern(r) ident(Hr) := step_as r Hr.

(** The steps whose answers do not matter, up to the next choice. *)
Ltac steps :=
  repeat first
    [ progress cbn beta iota
    | apply wp_bind, wp_ret | apply wp_ret | done | assumption
    | let r := fresh "r" in let Hr := fresh "Hr" in step_as r Hr; clear Hr
    | lazymatch goal with
      | |- wp _ (if ?b then _ else _) _ _ => destruct b eqn:?
      | |- wp _ (match ?o with Some _ => _ | None => _ end) _ _ => destruct o
      | |- wp _ (let '(_, _) := ?p in _) _ _ => destruct p
      | |- wp _ (_ ≫= _) _ _ => apply wp_bind
      end ].

(** ** Enumerating devices *)

Section Enumerate.
Context {env : ENV} {n : nat} {M : Machine env n}.

(** A function for devices keeps the set open and ends. *)
Definition device_fn_ok (Fn : DEVICE_FN) : Prop :=
  forall H Info h, holding H h -> wp env (Fn H Info) (fun _ h => holding H h) h.

Lemma found_device_ok Fn H Info Found Reboot h :
  (forall f, Fn = Some f -> device_fn_ok f) -> holding H h ->
  wp env (found_device Fn H Info Found Reboot) (fun _ h => holding H h) h.
Proof.
  intros HF Hh. unfold found_device. destruct Fn as [Fn|]; [|done]. apply wp_bind.
  eapply wp_mono; [by apply (HF Fn)|]. intros err h' Hh'. clear h Hh. steps.
Qed.

(** The rest of the buffer, from an identifier on: it ends with two terminators. *)
Definition identifiers (P : list Z) : Prop :=
  Forall wchar P /\ P !! (length P - 1)%nat = Some 0 /\ ((2 <= length P)%nat -> P !! (length P - 2)%nat = Some 0).

Lemma split_text P k : Forall wchar P -> P !! k = Some 0 -> exists a x, P = a ++ 0 :: x /\ text a /\ (length a <= k)%nat.
Proof.
  intros HP. revert k. induction HP as [|c P Hc HP IH]; intros k Hk; [done|].
  destruct (decide (c = 0)) as [->|Hc0].
  - exists [], P. repeat split; [constructor|cbn; lia].
  - destruct k as [|k]; [cbn in Hk; congruence|].
    destruct (IH k Hk) as (a & x & -> & Ha & Hl). exists (c :: a), x. split; [done|].
    split; [constructor; [unfold wchar in Hc; lia|done]|cbn [length]; lia].
Qed.

Lemma identifiers_next P c :
  identifiers P -> P !! 0%nat = Some c -> c <> 0 ->
  exists a x, P = a ++ 0 :: x /\ text a /\ identifiers x.
Proof.
  intros (HP & H1 & H2) H0 Hc.
  assert (2 <= length P)%nat as Hlen.
  { destruct P as [|? [|d P]]; cbn in *; [done|congruence|lia]. }
  specialize (H2 Hlen). destruct (split_text _ _ HP H2) as (a & x & -> & Ha & Hl).
  exists a, x. split; [done|]. split; [done|].
  apply Forall_app in HP as [_ HP]. apply Forall_cons in HP as [_ HP].
  rewrite length_app in *. cbn [length] in *. rewrite lookup_app_r in H1 by lia.
  rewrite lookup_app_r in H2 by lia. split; [done|]. split.
  - replace (_ - 1 - length a)%nat with (S (length x - 1)) in H1 by lia. done.
  - intros Hx. replace (_ - 2 - length a)%nat with (S (length x - 2)) in H2 by lia. done.
Qed.

(** The identifier that is searched. *)
Context {id : list Z} (Hid : text id).

Lemma compare_text a x : text a ->
  exists v, invariant_wcsicmp (a ++ 0 :: x) (id ++ [0]) = Some v /\
    (v = 0 <-> invariant_toupper <$> a = invariant_toupper <$> id).
Proof.
  intros Ha. destruct (strcmp_spec invariant_toupper a id x [] toupper_converts Ha Hid) as (v & Hv & H0 & _).
  by exists v.
Qed.

Lemma identifiers_loop_ok fuel P Fn H Info Found Reboot h :
  identifiers P -> (length P <= fuel)%nat -> (forall f, Fn = Some f -> device_fn_ok f) -> holding H h ->
  wp env (identifiers_loop fuel P (id ++ [0]) Fn H Info Found Reboot) (fun _ h => holding H h) h.
Proof.
  revert P Found Reboot h. induction fuel as [|fuel IH]; intros P Found Reboot h HP Hf HF Hh.
  { destruct HP as (_ & H1 & _). apply lookup_lt_Some in H1. lia. }
  cbn [identifiers_loop]. destruct (P !! 0%nat) as [c|] eqn:E0;
    [|apply lookup_ge_None in E0; destruct HP as (_ & H1 & _); apply lookup_lt_Some in H1; lia].
  apply wp_bind, (wp_lift _ c); [done|]. destruct (Z.eqb_spec c 0) as [_|Hc]; [done|].
  destruct (identifiers_next P c HP E0 Hc) as (a & x & -> & Ha & Hx).
  destruct (compare_text a x Ha) as (v & Hv & _). apply wp_bind, (wp_lift _ v); [done|]. apply wp_bind.
  eapply (wp_mono _ (fun _ h => holding H h)).
  { destruct (0 =? v); [by apply found_device_ok|done]. }
  clear h Hh. intros [[Stop Found'] Reboot'] h Hh. destruct Stop as [err|]; [done|].
  apply wp_bind, (wp_lift _ (length a)); [by apply lstrlenW_text, text_is_text|].
  replace (drop (length a + 1) (a ++ 0 :: x)) with x
    by (rewrite drop_app_ge by lia; by replace (length a + 1 - length a)%nat with 1%nat by lia).
  apply IH; [done| |done|done]. rewrite length_app in Hf. cbn [length] in Hf. lia.
Qed.

(** The buffer after a property was read is a list of identifiers. *)
Definition buffer_ok (B : list Z) : Prop := length B = PropBuf_length /\ Forall wchar B.

Lemma store_property_ok Data B : Forall wchar Data -> buffer_ok B -> buffer_ok (store_property Data B).
Proof.
  intros HD [Hl HB]. unfold store_property, buffer_ok. split.
  - rewrite length_app, length_drop, length_take, Hl. unfold PropBuf_length. lia.
  - apply Forall_app. split; [by apply Forall_take|by apply Forall_drop].
Qed.

Lemma terminate_ok B : buffer_ok B -> buffer_ok (terminate B) /\ identifiers (terminate B).
Proof.
  intros [Hl HB]. assert (buffer_ok (terminate B)) as HT.
  { unfold terminate. split; [by rewrite !length_insert|]. repeat apply Forall_insert; done. }
  split; [done|]. destruct HT as [HT HF]. split; [done|]. rewrite HT.
  unfold terminate, PropBuf_length in *. split.
  - rewrite list_lookup_insert_eq; [done|]. rewrite length_insert. lia.
  - intros _. rewrite list_lookup_insert_ne by lia. by rewrite list_lookup_insert_eq by lia.
Qed.

Lemma devices_loop_ok fuel I B Fn H Found Reboot h :
  buffer_ok B -> 0 <= I -> Z.of_nat n < I + Z.of_nat fuel -> I <= Z.of_nat n ->
  (forall f, Fn = Some f -> device_fn_ok f) -> holding H h ->
  wp env (devices_loop fuel H I B (id ++ [0]) Fn Found Reboot) (fun _ h => holding H h) h.
Proof.
  revert I B Found Reboot h. induction fuel as [|fuel IH]; intros I B Found Reboot h HB HI Hf Hn HF Hh; [lia|].
  cbn [devices_loop]. destruct Found; [done|]. step as Info HInfo.
  destruct Info as [Info|]; [|done].
  assert (I < Z.of_nat n) as HIn.
  { destruct HInfo as [h0 HInfo]. apply Z.nle_gt. intros Hle. by rewrite devices_end in HInfo. }
  pose proof machine_bound as Hb. rewrite (u32_small (I + 1)) by lia.
  step as R HR. destruct R as [Success Data].
  assert (Forall wchar Data) as HD by (destruct HR as [h0 HR]; pose proof (property_text h0 H Info SPDRP_HARDWAREID (2 * Z.of_nat (PropBuf_length - 2))) as HD; by rewrite <- HR in HD).
  pose proof (store_property_ok Data B HD HB) as HS. destruct Success; cbn [negb]; [|apply IH; done || lia].
  destruct (terminate_ok _ HS) as [HT HI']. apply wp_bind.
  eapply wp_mono; [apply identifiers_loop_ok; [done|by rewrite (proj1 HT)|done|done]|].
  clear h Hh. intros [[Stop Found'] Reboot'] h Hh. destruct Stop; [done|]. apply IH; done || lia.
Qed.

Lemma EnumerateDevices_ok fuel garbage Fn h :
  (n < fuel)%nat -> buffer_ok garbage -> (forall f, Fn = Some f -> device_fn_ok f) -> idle h ->
  wp env (EnumerateDevices fuel garbage (id ++ [0]) Fn) (fun _ h => idle h) h.
Proof.
  intros Hf HB HF Hh. unfold EnumerateDevices. apply wp_bind. apply wp_opens; [done|done| |]; clear h Hh.
  - intros h Hh. rewrite Z.eqb_refl. cbn [negb]. apply wp_bind. step as err Herr. steps.
  - intros H h Hh. assert ((INVALID_HANDLE_VALUE =? H) = false) as -> by (apply Z.eqb_neq; by destruct Hh).
    cbn [negb]. apply wp_bind, wp_bind. eapply wp_mono; [apply devices_loop_ok; done || lia|].
    clear h Hh. intros [[Stop Found] Reboot] h Hh.
    assert (forall err : Z, wp env (_ ← call (SetupDiDestroyDeviceInfoList H); mret err) (fun _ h => idle h) h) as Hend.
    { intros err. apply wp_bind, wp_destroys; [done|]. by intros. }
    destruct Stop as [err|]; [apply wp_ret, Hend|]. destruct Found; cbn [negb]; [apply wp_ret, Hend|].
    step as err Herr. apply wp_bind, wp_destroys; [done|]. by intros.
Qed.
End Enumerate.

(** ** The names of the files, in memory *)

(** The block that holds names: its size, then their characters. *)
Definition names_size (names : list (list Z)) : Z := 4 + Z.of_nat (length (names ≫= wide)).
Definition block (names : list (list Z)) : list Z := le32 (names_size names) ++ (names ≫= wide).

(** The context of the callback after some names: no block before the first. *)
Definition listed (names : list (list Z)) : BUFFER := match names with [] => None | _ => Some (block names) end.

(** The names of the notifications that count, and their removal one after the other. *)
Definition queued (Files : list (Z * list Z)) : list (list Z) :=
  snd <$> filter (fun f => f.1 = SPFILENOTIFY_QUEUESCAN) Files.

Fixpoint remove_each (names : list (list Z)) (RebootRequired : bool) : PROG bool :=
  match names with
  | [] => mret RebootRequired
  | f :: names => '(_, RebootRequired) ← RemoveFile f RebootRequired; remove_each names RebootRequired
  end.

Lemma length_le32 v : length (le32 v) = 4%nat.
Proof. done. Qed.

Lemma le32_buffer_size v bs : 0 <= v < 2 ^ 32 -> buffer_size (le32 v ++ bs) = Some v.
Proof.
  intros Hv. unfold buffer_size, buf_read. rewrite decide_True by (rewrite length_app, length_le32; lia).
  rewrite drop_0, take_app_le, take_ge, bind_value by (rewrite ?length_le32; lia). f_equal. by apply le32_get.
Qed.

Lemma names_size_app names f : names_size (names ++ [f]) = names_size names + 2 * Z.of_nat (length f).
Proof. unfold names_size. rewrite bind_app, length_app. cbn. rewrite app_nil_r, wide_length. lia. Qed.

Lemma names_size_ge names : 4 <= names_size names.
Proof. unfold names_size. lia. Qed.

Lemma length_block names : Z.of_nat (length (block names)) = names_size names.
Proof. unfold block, names_size. rewrite length_app, length_le32. lia. Qed.

Lemma block_size names : names_size names < 2 ^ 32 -> buffer_size (block names) = Some (names_size names).
Proof. intros Hs. pose proof (names_size_ge names). unfold block. apply le32_buffer_size. lia. Qed.

Lemma file_name_length f : file_name f -> lstrlenW f = Some (length f - 1)%nat /\ (0 < length f <= 261)%nat.
Proof.
  intros (t & -> & Ht & Hl). rewrite length_app. cbn [length]. split; [|lia].
  rewrite lstrlenW_text by by apply text_is_text. f_equal. lia.
Qed.

(** Growing a block by a name. *)
Lemma block_grows (Old w : list Z) (New : Z -> Z) (s : nat) (v : Z) :
  (4 <= s)%nat -> (Old = [] /\ s = 4%nat \/ length Old = s) ->
  let Block := Old ++ (New <$> seqZ (Z.of_nat (length Old)) (Z.of_nat (s + length w) - Z.of_nat (length Old))) in
  (b ← buf_write s w Block; buf_write 0 (le32 v) b) = Some (le32 v ++ drop 4 Old ++ w).
Proof.
  intros Hs HO Block. assert (length Block = s + length w)%nat as HB.
  { unfold Block. rewrite length_app, length_fmap, length_seqZ. destruct HO as [[-> ->]|HO]; cbn [length]; lia. }
  rewrite buf_write_Some by lia. rewrite bind_value, (drop_ge _ (s + length w)), app_nil_r by lia.
  rewrite buf_write_Some by (rewrite length_le32, length_app, length_take; lia).
  rewrite take_0, Nat.add_0_l, length_le32, drop_app_le by (rewrite length_take; lia). cbn [app]. do 3 f_equal.
  destruct HO as [[-> ->]|HO].
  - unfold Block. cbn [app]. rewrite skipn_all2 by (rewrite length_take; lia). done.
  - unfold Block. by rewrite take_app_le, take_ge by lia.
Qed.

(** One notification of the callback: the name is added, or there is no memory. *)
Lemma callback_adds env h names f :
  file_name f -> names_size (names ++ [f]) < 2 ^ 32 ->
  RemoveDeviceAndDriverCallback (listed names) SPFILENOTIFY_QUEUESCAN f env h =
    let New := env _ h (MemRealloc (names_size (names ++ [f]))) in
    let h := Event (MemRealloc (names_size (names ++ [f]))) New :: h in
    match New with
    | Some _ => Done (ERROR_SUCCESS, listed (names ++ [f])) h
    | None => Done (ERROR_NOT_ENOUGH_MEMORY, listed names) h
    end.
Proof.
  intros Hf Hs. destruct (file_name_length f Hf) as [Hn Hl]. pose proof (names_size_ge names) as Hge.
  pose proof (names_size_app names f) as Ha. unfold RemoveDeviceAndDriverCallback. rewrite Z.eqb_refl. cbn [negb].
  rewrite Hn. unfold lift, mret, prog_ret. unfold mbind at 1, prog_bind at 1.
  replace (u32 ((Z.of_nat (length f - 1) + 1) * 2)) with (2 * Z.of_nat (length f)) by (rewrite u32_small; lia).
  assert (match listed names with None => Some 4 | Some B => buffer_size B end = Some (names_size names)) as ->.
  { unfold listed. destruct names as [|g names]; [done|]. apply block_size. lia. }
  unfold mbind at 1, prog_bind at 1. rewrite (u32_small (_ + _)), <- Ha by lia.
  unfold mbind at 1, prog_bind at 1, call. cbv zeta.
  destruct (env _ h (MemRealloc (names_size (names ++ [f])))) as [New|]; [|done].
  set (Old := default [] (listed names)).
  assert (Old = [] /\ Z.to_nat (names_size names) = 4%nat \/ length Old = Z.to_nat (names_size names)) as HO.
  { unfold Old, listed. destruct names; [by left|right]. cbn [default]. pose proof (length_block (l :: names)). unfold id. lia. }
  rewrite (take_ge Old) by (destruct HO as [[-> _]|HO]; cbn [length]; lia).
  rewrite (take_ge (wide f)) by (rewrite wide_length; lia).
  pose proof (block_grows Old (wide f) New (Z.to_nat (names_size names)) (names_size (names ++ [f])) ltac:(lia) HO) as HB.
  cbv zeta in HB. rewrite wide_length in HB.
  replace (Z.of_nat (Z.to_nat (names_size names) + 2 * length f)) with (names_size (names ++ [f])) in HB by lia.
  destruct (buf_write _ (wide f) _) as [b|]; [|done]. rewrite bind_value in HB.
  unfold mbind, prog_bind. rewrite HB. do 2 f_equal. unfold listed.
  destruct (names ++ [f]) eqn:E; [by destruct names|]. rewrite <- E. f_equal. unfold block. f_equal.
  rewrite bind_app. cbn [mbind list_bind]. rewrite app_nil_r. f_equal. unfold Old, listed.
  destruct names; [done|]. cbn [default]. unfold id, block. by rewrite drop_app_ge by (rewrite length_le32; lia).
Qed.

(** The names that a scan leaves in memory: all that are queued, or, when there is no more memory,
    the first ones. *)
Definition kept (names : list (list Z)) (R : option Z * BUFFER) : Prop :=
  exists k, R.2 = listed (take k names) /\
    ((R.1 = None /\ take k names = names) \/ R.1 = Some ERROR_NOT_ENOUGH_MEMORY).

Lemma queued_cons n f Files :
  queued ((n, f) :: Files) = if SPFILENOTIFY_QUEUESCAN =? n then f :: queued Files else queued Files.
Proof.
  unfold queued. destruct (Z.eqb_spec SPFILENOTIFY_QUEUESCAN n) as [E|E].
  - by rewrite filter_cons_True by (cbn; congruence).
  - by rewrite filter_cons_False by (cbn; congruence).
Qed.

Lemma names_size_mono names names' : names_size names <= names_size (names ++ names').
Proof. unfold names_size. rewrite bind_app, length_app. lia. Qed.

Lemma scan_files_kept env (P : HISTORY -> Prop) :
  (forall h s r, P h -> P (Event (MemRealloc s) r :: h)) ->
  forall Files names h,
  Forall (fun c => file_name c.2) Files -> names_size (names ++ queued Files) < 2 ^ 32 -> P h ->
  wp env (scan_files RemoveDeviceAndDriverCallback Files (listed names))
    (fun R h => kept (names ++ queued Files) R /\ P h) h.
Proof.
  intros HP Files. induction Files as [|[n f] Files IH]; intros names h HF Hs Hh.
  { cbn [scan_files]. split; [|done]. exists (length names). unfold queued. cbn. rewrite app_nil_r.
    rewrite take_ge by done. split; [done|by left]. }
  apply Forall_cons in HF as [Hf HF]. cbn [scan_files]. rewrite queued_cons in *. apply wp_bind.
  unfold RemoveDeviceAndDriverCallback at 1. destruct (Z.eqb_spec SPFILENOTIFY_QUEUESCAN n) as [<-|Hn]; cbn [negb].
  - assert (names_size (names ++ [f]) < 2 ^ 32) as Hs'.
    { pose proof (names_size_mono (names ++ [f]) (queued Files)) as Hm. rewrite <- app_assoc in Hm. cbn [app] in Hm. lia. }
    pose proof (callback_adds env h names f Hf Hs') as HC. cbv zeta in HC.
    unfold RemoveDeviceAndDriverCallback in HC. rewrite Z.eqb_refl in HC. cbn [negb] in HC.
    unfold wp at 1. rewrite HC. destruct (env _ h _) as [New|].
    + cbn [Z.eqb negb]. replace (names ++ f :: queued Files) with ((names ++ [f]) ++ queued Files) in * by by rewrite <- app_assoc.
      apply IH; [done..|]. by apply HP.
    + split; [|by apply HP]. exists (length names). cbn. rewrite take_app_length. split; [done|by right].
  - cbn. apply IH; done.
Qed.

(** What a name in memory reads as. *)
Lemma unwide_wide t rest : Forall wchar t -> unwide (wide t ++ rest) = t ++ unwide rest.
Proof.
  induction 1 as [|c t Hc Ht IH]; [done|]. unfold wchar in Hc.
  change (wide (c :: t)) with (byte_of 0 c :: byte_of 8 c :: wide t). cbn [app unwide]. f_equal; [|done].
  rewrite Z.lor_comm, (lor_disjoint_add 8) by (rewrite ?Z.shiftl_mul_pow2, ?byte_of_div by lia; dlia).
  rewrite Z.shiftl_mul_pow2, !byte_of_div by lia. dlia.
Qed.

Lemma file_name_wchar f : file_name f -> Forall wchar f.
Proof.
  intros (t & -> & Ht & _). apply Forall_app. split; [|by repeat constructor].
  eapply Forall_impl; [exact Ht|]. unfold wchar. simpl. lia.
Qed.

(** Reading the block from a name on: the names are removed, in their order. *)
Lemma files_loop_names env fuel done_ rest r h :
  Forall file_name rest -> names_size (done_ ++ rest) < 2 ^ 32 -> (length rest <= fuel)%nat ->
  files_loop fuel (block (done_ ++ rest)) (Z.to_nat (names_size done_)) r env h = remove_each rest r env h.
Proof.
  revert done_ rest r h. induction fuel as [|fuel IH]; intros done_ rest r h Hr Hs Hf.
  - destruct rest; [|cbn [length] in Hf; lia]. cbn [files_loop remove_each]. rewrite app_nil_r in *.
    pose proof (names_size_ge done_). rewrite block_size by lia.
    rewrite lift_bind, (proj2 (Z.ltb_ge _ _)) by lia. done.
  - cbn [files_loop]. pose proof (names_size_ge done_). pose proof (names_size_ge (done_ ++ rest)).
    rewrite block_size by lia. rewrite lift_bind.
    destruct rest as [|f rest].
    { rewrite app_nil_r. rewrite (proj2 (Z.ltb_ge _ _)) by lia. done. }
    apply Forall_cons in Hr as [Hfn Hr]. destruct (file_name_length f Hfn) as [Hn Hl].
    pose proof (names_size_app done_ f) as Ha. pose proof (names_size_mono (done_ ++ [f]) rest) as Hm.
    rewrite <- app_assoc in Hm. cbn [app] in Hm. rewrite (proj2 (Z.ltb_lt _ _)) by lia. cbn [negb].
    assert (unwide (drop (Z.to_nat (names_size done_)) (block (done_ ++ f :: rest))) = f ++ unwide (rest ≫= wide)) as ->.
    { unfold block. rewrite bind_app. cbn [mbind list_bind].
      rewrite <- (unwide_wide f) by by apply file_name_wchar. f_equal.
      rewrite drop_app_ge, length_le32 by (rewrite length_le32; lia). rewrite drop_app_ge by (unfold names_size; lia).
      replace (_ - _ - _)%nat with 0%nat by (unfold names_size; unfold mbind; lia). done. }
    assert (lstrlenW (f ++ unwide (rest ≫= wide)) = Some (length f - 1)%nat) as ->.
    { destruct Hfn as (t & -> & Ht & _). rewrite <- app_assoc. cbn [app]. rewrite lstrlenW_text by by apply text_is_text.
      f_equal. rewrite length_app. cbn. lia. }
    rewrite lift_bind.
    replace (length f - 1 + 1)%nat with (length f) by lia. rewrite take_app_length. cbn [remove_each].
    unfold mbind, prog_bind. destruct (RemoveFile f r env h) as [[err r'] h'|code h'|]; [|done..].
    replace (Z.to_nat (names_size done_) + 2 * length f)%nat with (Z.to_nat (names_size (done_ ++ [f]))) by lia.
    replace (done_ ++ f :: rest) with ((done_ ++ [f]) ++ rest) by by rewrite <- app_assoc.
    apply IH; [done| |cbn [length] in Hf; lia]. by rewrite <- app_assoc.
Qed.

Lemma names_count names : Forall file_name names -> (length names <= length (block names))%nat.
Proof.
  intros Hn. pose proof (length_block names) as Hb. unfold names_size in Hb.
  cut (length names <= length (names ≫= wide))%nat; [lia|]. clear Hb.
  induction Hn as [|f names Hf Hn IH]; [done|]. cbn [length]. rewrite bind_cons, length_app, wide_length.
  destruct (file_name_length f Hf) as [_ Hl]. lia.
Qed.

Lemma listed_removed names B :
  Forall file_name names -> names_size names < 2 ^ 32 -> listed names = Some B ->
  forall env h r, files_loop (length B) B 4 r env h = remove_each names r env h.
Proof.
  intros Hn Hs HB env h r. unfold listed in HB. destruct names as [|f names]; [done|]. injection HB as <-.
  apply (files_loop_names env _ [] (f :: names) r h); [done|done|by apply names_count].
Qed.

Lemma names_take k names : names_size (take k names) <= names_size names.
Proof. rewrite <- (take_drop k names) at 2. apply names_size_mono. Qed.

Lemma queued_file_names Files : Forall (fun c => file_name c.2) Files -> Forall file_name (queued Files).
Proof.
  induction 1 as [|[n f] Files Hf HF IH]; [constructor|]. rewrite queued_cons. case_match; [by constructor|done].
Qed.

(** ** Removing *)

Section Remove.
Context {env : ENV}.

(** Opening a file to delete it, and closing it. *)
Lemma open_to_delete_ok {A} H Name (v : A) (k : PROG A) Q h :
  holding H h -> (forall h, holding H h -> Q v h) -> (forall h, holding H h -> wp env k Q h) ->
  wp env (Handle ← open_to_delete Name;
    if negb (INVALID_HANDLE_VALUE =? Handle) then _ ← call (CloseHandle Handle); mret v else k) Q h.
Proof.
  intros (Hv & D & Hh & HD) HQ Hk. apply wp_bind.
  assert (forall a s d l f, opened compat_list (Event (CreateFileW Name a s d l) f :: h) = Some (mkOpened {[H]} D ∅ (opens f ∅))) as Ho.
  { intros. by apply (opened_step _ _ _ _ Hh). }
  unfold open_to_delete. apply wp_call. set (f := env _ h _).
  destruct (Z.eqb_spec INVALID_HANDLE_VALUE f) as [E|E]; cbn [negb].
  - apply Hk. split; [done|]. exists D. split; [|done]. rewrite Ho, <- E. done.
  - apply wp_bind, wp_call, wp_ret, HQ. split; [done|]. exists D. split; [|done]. eapply opened_step; [apply Ho|].
    cbn [after]. rewrite opens_valid, union_empty_r_L, closes_only by done. done.
Qed.

Lemma delete_at_reboot_ok H Name r h :
  holding H h -> wp env (delete_at_reboot Name r) (fun _ h => holding H h) h.
Proof. intros Hh. unfold delete_at_reboot. steps. Qed.

Lemma NewFileName_fits f (g : GUID) :
  file_name f -> length (Data4 g) = 8%nat -> is_Some (NewFileName f g).
Proof.
  intros Hf Hg. destruct (file_name_length f Hf) as [Hn Hl]. unfold NewFileName. rewrite Hn, bind_value.
  assert (forall bs, length (bs ≫= fun b => hexadecimal_padded 2 b []) = (2 * length bs)%nat) as Hd.
  { induction bs as [|b bs IH]; [done|]. cbn [length]. rewrite bind_cons, length_app, hexadecimal_padded_length.
    cbn [length]. lia. }
  rewrite (proj2 (Z.leb_le _ _)); [by eexists|].
  rewrite !length_app, Hd, Hg, !hexadecimal_padded_length, length_take. unfold MAX_PATH. cbn [length]. lia.
Qed.

Context {n : nat} {M : Machine env n}.

Lemma RemoveFile_ok H f r h : file_name f -> holding H h -> wp env (RemoveFile f r) (fun _ h => holding H h) h.
Proof.
  intros Hf Hh. unfold RemoveFile. apply wp_bind. eapply (wp_mono _ (fun _ h => holding H h)).
  2: { intros [err r'] h' Hh'. apply wp_ret. exact Hh'. }
  step as Guid HG. assert (length (Data4 Guid) = 8%nat) as Hg.
  { destruct HG as [h0 ->]. apply guid_size. }
  destruct (NewFileName_fits f Guid Hf Hg) as [Name HN]. apply wp_bind, (wp_lift _ _ _ _ HN).
  step as Success HS. destruct Success; cbn [negb]; [|by steps].
  apply (open_to_delete_ok H); [done|done|]. clear h Hh. intros h Hh. step as err He.
  destruct (err =? ERROR_ACCESS_DENIED).
  - step as ok Hok. apply (open_to_delete_ok H); [done|done|]. clear h Hh. intros h Hh. by apply delete_at_reboot_ok.
  - destruct (err =? ERROR_SHARING_VIOLATION); [by apply delete_at_reboot_ok|by steps].
Qed.

Lemma remove_each_ok H names r h :
  Forall file_name names -> holding H h -> wp env (remove_each names r) (fun _ h => holding H h) h.
Proof.
  intros Hn. revert r h. induction Hn as [|f names Hf Hn IH]; intros r h Hh; [done|]. cbn [remove_each].
  apply wp_bind. eapply wp_mono; [by apply RemoveFile_ok|]. intros [err r'] h' Hh'. by apply IH.
Qed.

Lemma RemoveDevice_ok : device_fn_ok (env := env) RemoveDevice.
Proof. intros H Info h Hh. unfold RemoveDevice. steps. Qed.
End Remove.

(** ** The driver of a device *)

Section Driver.
Context {env : ENV} {n : nat} {M : Machine env n}.

(** The driver lists of a device are built. *)
Definition listing (H Info : Z) (h : HISTORY) : Prop := holds {[(H, Info, SPDIT_CLASSDRIVER)]} ∅ H h.

Definition terminated (t : list Z) : Prop := exists a x, t = a ++ 0 :: x /\ is_text a.

Lemma wp_builds H Info (Q : bool -> HISTORY -> Prop) h :
  holding H h -> (forall h, holding H h -> Q false h) -> (forall h, listing H Info h -> Q true h) ->
  wp env (call (SetupDiBuildDriverInfoList H Info SPDIT_CLASSDRIVER)) Q h.
Proof.
  intros (Hv & D & Hh & _ & HD) Hf Ht. apply wp_call. destruct (env bool h _).
  - apply Ht. split; [done|]. exists ({[(H, Info, SPDIT_CLASSDRIVER)]} ∪ D). split; [|split; [set_solver|set_solver]].
    eapply opened_step; [exact Hh|]. cbn [after]. rewrite uses_open by (cbn; set_solver). by rewrite bind_value.
  - apply Hf. split; [done|]. exists D. split; [|done]. eapply opened_step; [exact Hh|]. cbn [after].
    rewrite uses_open by (cbn; set_solver). by rewrite bind_value.
Qed.

Lemma listed_step H Info h {R} (c : CALL R) r :
  (forall D, (H, Info, SPDIT_CLASSDRIVER) ∈ D -> after compat_list (mkOpened {[H]} D ∅ ∅) (Event c r) = Some (mkOpened {[H]} D ∅ ∅)) ->
  listing H Info h -> listing H Info (Event c r :: h).
Proof.
  intros Hc (Hv & D & Hh & HL & HD). split; [done|]. exists D. split; [|done].
  eapply opened_step; [exact Hh|]. apply Hc. set_solver.
Qed.

Lemma drivers_loop_ok fuel H Info I Drv Inf h :
  0 <= I <= Z.of_nat n -> Z.of_nat n < I + Z.of_nat fuel -> listing H Info h ->
  wp env (drivers_loop fuel H Info I Drv Inf)
    (fun R h => listing H Info h /\ (R.1.1 = true -> terminated R.2)) h.
Proof.
  revert I Drv Inf h. induction fuel as [|fuel IH]; intros I Drv Inf h HI Hf Hh; [lia|]. cbn [drivers_loop].
  apply wp_bind, wp_call. assert (Z.of_nat n <= I -> env _ h (SetupDiEnumDriverInfoW H Info SPDIT_CLASSDRIVER I) = None) as HE
    by (intros; by apply drivers_end).
  set (R := env _ h _) in *. clearbody R. apply (listed_step _ _ _ (SetupDiEnumDriverInfoW H Info SPDIT_CLASSDRIVER I) R) in Hh;
    [|intros D HD; cbn [after]; by rewrite decide_True].
  destruct R as [Driver|]; [|done]. assert (I < Z.of_nat n) by (apply Z.nle_gt; intros Hle; by specialize (HE Hle)).
  pose proof (machine_bound (env := env)) as Hb. rewrite (u32_small (I + 1)) by lia.
  generalize dependent (Event (SetupDiEnumDriverInfoW H Info SPDIT_CLASSDRIVER I) (Some Driver) :: h). clear h HE. intros h Hh.
  unfold listing in Hh. step as R HR. destruct R as [Success Detail].
  assert (terminated Detail) as HT.
  { destruct HR as [h0 HR]. destruct (detail_text h0 H Info Driver) as (t & x & E & Ht). exists t, x. by rewrite <- E, <- HR. }
  destruct Success; cbn [negb]; [apply wp_bind, wp_ret; done|]. apply wp_bind. step as err Herr. apply wp_ret.
  destruct (negb _); [apply IH; done || lia|]. done.
Qed.

Lemma success_kept err : (ERROR_SUCCESS =? no_more_is_not_found err) = (ERROR_SUCCESS =? err).
Proof. unfold no_more_is_not_found. by destruct (Z.eqb_spec ERROR_NO_MORE_ITEMS err) as [<-|]. Qed.

Lemma GetInstalledDriver_ok fuel H Info Drv Inf h :
  (n < fuel)%nat -> holding H h ->
  wp env (GetInstalledDriver fuel H Info Drv Inf)
    (fun R h => if ERROR_SUCCESS =? R.1.1 then listing H Info h /\ terminated R.2 else holding H h) h.
Proof.
  intros Hf Hh. unfold GetInstalledDriver. apply wp_bind.
  eapply (wp_mono _ (fun (R : Z * bool * Z * list Z) h => if R.1.1.2 then listing H Info h /\ (R.1.1.1 = 0 -> terminated R.2)
    else holding H h /\ R.1.1.1 <> 0)).
  2: { clear h Hh. intros [[[err InfoList] Drv'] Inf'] h Hh. cbn [fst snd] in Hh. apply wp_bind. destruct InfoList.
       - destruct Hh as [Hh Ht]. apply wp_call, wp_ret. cbn [fst snd]. set (r := env _ h _).
         assert (listing H Info (Event (SetupDiDestroyDriverInfoList H Info SPDIT_COMPATDRIVER) r :: h)) as Hn.
         { destruct Hh as (Hv & D & Hh & HL & HD). split; [done|].
           exists (D ∖ {[(H, Info, SPDIT_COMPATDRIVER)]}). split; [|split; [|set_solver]].
           - eapply opened_step; [exact Hh|]. cbn [after]. rewrite uses_open by (cbn; set_solver). rewrite bind_value.
             case_decide; [done|]. cbn. do 2 f_equal. set_solver.
           - assert ((H, Info, SPDIT_CLASSDRIVER) <> (H, Info, SPDIT_COMPATDRIVER)) by done. set_solver. }
         rewrite success_kept. destruct (Z.eqb_spec ERROR_SUCCESS err); [|by eapply holds_weaken]. split; [done|]. by apply Ht.
       - destruct Hh as [Hh He]. apply wp_ret, wp_ret. cbn [fst snd] in *. rewrite success_kept.
         by rewrite (proj2 (Z.eqb_neq _ _)) by done. }
  assert (forall h, holding H h -> wp env (err ← call GetLastError; mret (err, false, Drv, Inf))
    (fun (R : Z * bool * Z * list Z) h => if R.1.1.2 then listing H Info h /\ (R.1.1.1 = 0 -> terminated R.2)
      else holding H h /\ R.1.1.1 <> 0) h) as Hlast.
  { clear h Hh. intros h Hh. step as err He. apply wp_ret. cbn. split; [done|]. destruct He as [h0 ->]. apply last_error. }
  step as Params HP. destruct Params as [Params|]; [|by apply Hlast]. cbv zeta. step as Success HS.
  destruct Success; cbn [negb]; [|by apply Hlast]. apply wp_bind, wp_builds; [done| |]; clear h Hh; intros h Hh; cbn [negb];
    [by apply Hlast|].
  apply wp_bind. eapply wp_mono; [apply drivers_loop_ok; [lia|lia|done]|]. clear h Hh.
  intros [[Found Drv'] Inf'] h [Hh HT]. cbn [fst snd] in HT. destruct Found; cbn [negb]; [by apply wp_ret; cbn; auto|].
  unfold listing in Hh. step as err He. apply wp_ret. cbn. split; [done|]. destruct He as [h0 ->].
  intros E. by pose proof (last_error h0).
Qed.

(** What the callback has left, whatever the scan gave. *)
Definition names_kept (B : BUFFER) : Prop :=
  exists names, B = listed names /\ Forall file_name names /\ names_size names < 2 ^ 32.

Lemma names_kept_none : names_kept None.
Proof. exists []. split; [done|]. by split; [constructor|]. Qed.

Lemma scan_size Files :
  Forall (fun c => file_name c.2) Files -> Z.of_nat (length Files) <= 2 ^ 20 -> names_size (queued Files) < 2 ^ 32.
Proof.
  intros HF Hl. cut (names_size (queued Files) <= 4 + 522 * Z.of_nat (length Files)).
  { lia. }
  clear Hl. induction HF as [|[m f] Files Hf HF IH]; [done|]. rewrite queued_cons. cbn [length].
  destruct (_ =? _); [|lia]. destruct (file_name_length f Hf) as [_ Hl]. unfold names_size in *.
  rewrite bind_cons, length_app, wide_length. lia.
Qed.

Lemma wp_closes_queue q H (Q : bool -> HISTORY -> Prop) h :
  holds ∅ {[q]} H h -> (forall r h, holding H h -> Q r h) -> wp env (call (SetupCloseFileQueue q)) Q h.
Proof.
  intros (Hv & D & Hh & HD) HQ. apply wp_call, HQ. split; [done|]. exists D. split; [|done].
  eapply opened_step; [exact Hh|]. cbn [after]. by rewrite closes_only.
Qed.

Lemma wp_opens_queue H (Q : Z -> HISTORY -> Prop) h :
  holding H h -> (forall h, holding H h -> Q INVALID_HANDLE_VALUE h) ->
  (forall q h, q <> INVALID_HANDLE_VALUE -> holds ∅ {[q]} H h -> Q q h) -> wp env (call SetupOpenFileQueue) Q h.
Proof.
  intros (Hv & D & Hh & HD) Hi HQ. apply wp_call. set (q := env _ h _).
  assert (opened compat_list (Event SetupOpenFileQueue q :: h) = Some (mkOpened {[H]} D (opens q ∅) ∅)) as Ho
    by by apply (opened_step _ _ _ _ Hh).
  destruct (decide (q = INVALID_HANDLE_VALUE)) as [E|E].
  - rewrite E in *. apply Hi. split; [done|]. by exists D.
  - apply HQ; [done|]. split; [done|]. exists D. split; [|done]. rewrite Ho, opens_valid, union_empty_r_L; done.
Qed.

Lemma scan_file_queue_ok q H h :
  holds ∅ {[q]} H h ->
  wp env (scan_file_queue q RemoveDeviceAndDriverCallback None) (fun R h => names_kept R.2 /\ holds ∅ {[q]} H h) h.
Proof.
  intros Hh. unfold scan_file_queue. apply wp_bind, wp_call.
  pose proof (scan_names h q SPQ_SCAN_USE_CALLBACK) as HF. pose proof (scan_bound h q SPQ_SCAN_USE_CALLBACK) as Hb.
  set (Scan := env _ h _) in *. clearbody Scan. apply wp_bind. pose proof (scan_size _ HF Hb) as Hs.
  eapply wp_mono.
  - apply (scan_files_kept env (holds ∅ {[q]} H)) with (names := []); [|done|done|].
    + intros h' s r Hh'. by apply holds_plain.
    + destruct Hh as (Hv & D & Hh & HD). split; [done|]. exists D. split; [|done]. eapply opened_step; [exact Hh|].
      cbn [after]. by rewrite decide_True by set_solver.
  - intros [Stop B] h' [(k & HB & _) Hh']. cbn in HB. assert (names_kept B) as HN.
    { exists (take k (queued (sc_Files Scan))). split; [done|]. split; [by apply Forall_take, queued_file_names|].
      pose proof (names_take k (queued (sc_Files Scan))). lia. }
    destruct Stop; by apply wp_ret.
Qed.

Lemma EnumerateDriverFiles_ok H Info Drv h :
  listing H Info h ->
  wp env (EnumerateDriverFiles H Info Drv RemoveDeviceAndDriverCallback None)
    (fun R h => names_kept R.2 /\ holding H h) h.
Proof.
  intros Hh. unfold EnumerateDriverFiles. apply wp_bind.
  eapply (wp_mono _ (fun (R : Z * Z * BUFFER) h => names_kept R.2 /\
    if INVALID_HANDLE_VALUE =? R.1.2 then holding H h else holds ∅ {[R.1.2]} H h)).
  2: { clear h Hh. intros [[err q] B] h [HB Hh]. cbn [fst snd] in *.
       destruct (INVALID_HANDLE_VALUE =? q); cbn [negb]; [by apply wp_bind, wp_ret, wp_ret|].
       apply wp_bind. apply (wp_closes_queue q H); [done|]. intros r h' Hh'. by apply wp_ret. }
  apply wp_bind, wp_call. set (Success := env _ h _). apply (listed_step _ _ _ (SetupDiSetSelectedDriver H Info Drv) Success) in Hh;
    [|intros D HD; cbn [after]; by rewrite decide_True]. apply holds_weaken in Hh.
  generalize dependent (Event (SetupDiSetSelectedDriver H Info Drv) Success :: h). clearbody Success. clear h. intros h Hh.
  destruct Success; cbn [negb].
  2: { step as err He. apply wp_ret. split; [apply names_kept_none|]. by rewrite Z.eqb_refl. }
  apply wp_bind. apply (wp_opens_queue H); [done| |]; clear h Hh.
  { intros h Hh. rewrite Z.eqb_refl. step as err He. apply wp_ret. split; [apply names_kept_none|]. by rewrite Z.eqb_refl. }
  intros q h Hq Hh. assert ((INVALID_HANDLE_VALUE =? q) = false) as Hi by by apply Z.eqb_neq. rewrite Hi.
  assert (forall h, holds ∅ {[q]} H h -> wp env (err ← call GetLastError; mret (err, q, None))
    (fun (R : Z * Z * BUFFER) h => names_kept R.2 /\
      if INVALID_HANDLE_VALUE =? R.1.2 then holding H h else holds ∅ {[R.1.2]} H h) h) as Hlast.
  { clear h Hh. intros h Hh. step as err He. apply wp_ret. split; [apply names_kept_none|]. cbn. by rewrite Hi. }
  step as Params HP. destruct Params as [Params|]; [|by apply Hlast]. cbv zeta.
  step as Success HS. destruct Success; cbn [negb]; [|by apply Hlast].
  step as Called HS'. destruct Called; cbn [negb]; [|by apply Hlast]. apply wp_bind.
  eapply wp_mono; [by apply scan_file_queue_ok|]. clear h Hh. intros [[R SR] B] h [HB Hh]. cbn [snd] in HB.
  destruct (0 =? R); [|apply wp_ret; cbn; by rewrite Hi]. apply wp_bind.
  destruct (0 =? SR); cbn [negb]; [step as err He|apply wp_ret]; apply wp_ret; cbn; by rewrite Hi.
Qed.

Lemma base_name_some P B : terminated P -> is_Some (base_name P B).
Proof.
  intros (a & x & -> & Ha). revert B. induction Ha as [|c a Hc Ha IH]; intros B; [by eexists|].
  cbn [app base_name]. rewrite (proj2 (Z.eqb_neq _ _)) by done. apply IH.
Qed.

Lemma RemoveDeviceAndDriver_ok fuel Drv Inf :
  (n < fuel)%nat -> device_fn_ok (env := env) (RemoveDeviceAndDriver fuel Drv Inf).
Proof.
  intros Hf H Info h Hh. unfold RemoveDeviceAndDriver. apply wp_bind.
  eapply wp_mono; [by apply GetInstalledDriver_ok|]. clear h Hh. intros [[err Drv'] Inf'] h Hh. cbn [fst snd] in Hh.
  apply wp_bind. eapply (wp_mono _ (fun (R : BUFFER * option (list Z)) h => names_kept R.1 /\ holding H h)).
  { destruct (ERROR_SUCCESS =? err); [|apply wp_ret; by split; [apply names_kept_none|]]. destruct Hh as [Hh HT]. apply wp_bind.
    eapply wp_mono; [by apply EnumerateDriverFiles_ok|]. clear h Hh. intros [err' B] h HB.
    destruct (base_name_some Inf' Inf' HT) as [b Hb]. by apply wp_bind, (wp_lift _ b), wp_ret. }
  clear h Hh. intros [Files Base] h [(names & HE & Hn & Hs) Hh]. cbn [fst] in HE. subst Files. apply wp_bind.
  eapply wp_mono; [by apply RemoveDevice_ok|]. clear h Hh. intros err' h Hh. apply wp_bind.
  eapply (wp_mono _ (fun _ h => holding H h)).
  - destruct (listed names) as [B|] eqn:E; [|done]. unfold wp.
    rewrite (listed_removed names B Hn Hs E). by apply remove_each_ok.
  - clear h Hh. intros r h Hh. steps.
Qed.

(** The property that [AddDevice] stores: the identifier, cut at [LINE_LEN], and two terminators. *)
Lemma hardware_id_property_value id :
  text id -> hardware_id_property (id ++ [0]) = Some (take (Z.to_nat LINE_LEN) id ++ [0; 0]).
Proof.
  intros Hid. unfold hardware_id_property, HardwareIdBuf.
  rewrite (lstrlenW_text id []) by by apply text_is_text. rewrite !bind_value, take_app_length.
  set (t := take _ id). assert (length t <= 256)%nat as Hl by (unfold t; rewrite length_take; unfold LINE_LEN; lia).
  assert (is_text t) as Ht by by apply text_is_text, Forall_take.
  replace (Z.to_nat (LINE_LEN + 2) - length t)%nat with (S (S (256 - length t))) by (unfold LINE_LEN; lia).
  cbn [replicate]. rewrite lstrlenW_text, bind_value by done. unfold buf_read.
  rewrite decide_True by (rewrite length_app; cbn [length]; lia). f_equal. rewrite drop_0.
  rewrite take_app_ge by lia. replace (length t + 2 - length t)%nat with 2%nat by lia. done.
Qed.

Lemma AddDevice_ok fuel garbage id File h :
  (forall h f, (env _ h (GetFullPathNameW f MAX_PATH)).1 < MAX_PATH) ->
  text id -> (n < fuel)%nat -> buffer_ok garbage -> idle h ->
  wp env (AddDevice fuel garbage (id ++ [0]) File) (fun _ h => idle h) h.
Proof.
  intros Hpath Hid Hf Hg Hh. unfold AddDevice. step as R HR. destruct R as [Len Buf].
  assert (stored_path Len Buf = Some Buf) as HB.
  { destruct HR as [h0 HR]. specialize (Hpath h0 File). rewrite <- HR in Hpath. unfold stored_path.
    by rewrite (proj2 (Z.ltb_lt _ _)). }
  cbv zeta. rewrite HB. apply wp_bind.
  eapply (wp_mono _ (fun (R : Z * Z) h => if INVALID_HANDLE_VALUE =? R.2 then idle h else holding R.2 h)).
  2: { clear h Hh. intros [err H] h Hh. cbn [snd] in Hh. destruct (INVALID_HANDLE_VALUE =? H); cbn [negb].
       - by apply wp_bind, wp_ret, wp_ret.
       - apply wp_bind, (wp_destroys H); [done|]. intros r h' Hh'. by apply wp_ret. }
  destruct (0 =? Len). { step as err He. by apply wp_ret. }
  apply wp_bind. eapply wp_mono; [by apply EnumerateDevices_ok|]. clear h Hh. intros Present h Hh. apply wp_bind.
  eapply (wp_mono _ (fun (R : option Z * bool * Z) h => if INVALID_HANDLE_VALUE =? R.2 then idle h else holding R.2 h)).
  2: { clear h Hh. intros [[Stop r0] H] h Hh. cbn [snd] in Hh. destruct Stop as [err|]; [by apply wp_ret|].
       destruct (INVALID_HANDLE_VALUE =? H) eqn:E.
       all: cbn iota in Hh; apply wp_bind, (wp_lift _ Buf); [done|]; step as R HR'; destruct R as [Success r1]; destruct Success; cbn [negb]; [by apply wp_ret; cbn; rewrite E|].
       all: step as err He; apply wp_ret; cbn; by rewrite E. }
  destruct (negb (ERROR_SUCCESS =? Present)); [|by apply wp_ret]. unfold create_device. cbv zeta. cbn beta in Hh. apply wp_bind, (wp_lift _ Buf); [done|]. step as C HC.
  destruct C as [[Guid Name]|]; [|step as err He; by apply wp_ret]. apply wp_bind.
  apply wp_opens; [done|done| |]; clear h Hh.
  { intros h Hh. rewrite Z.eqb_refl. step as err He. by apply wp_ret. }
  intros H h Hh. assert ((INVALID_HANDLE_VALUE =? H) = false) as E by (apply Z.eqb_neq; by destruct Hh). rewrite E.
  assert (forall h, holding H h -> wp env (err ← call GetLastError; mret (Some err, false, H))
    (fun (R : option Z * bool * Z) h => if INVALID_HANDLE_VALUE =? R.2 then idle h else holding R.2 h) h) as Hlast.
  { clear h Hh. intros h Hh. step as err He. apply wp_ret. cbn. by rewrite E. }
  step as I' HI. destruct I' as [Info|]; [|by apply Hlast].
  apply wp_bind, (wp_lift _ _ _ _ (hardware_id_property_value id Hid)).
  step as Success HS. destruct Success; cbn [negb]; [|by apply Hlast].
  step as Called HS'. destruct Called; cbn [negb]; [|by apply Hlast].
  step as Params HP. destruct Params as [Params|]; [|by apply Hlast]. apply wp_ret. cbn. by rewrite E.
Qed.
End Driver.

(** ** The program *)

Definition argument (a : list Z) : Prop := exists t, a = t ++ [0] /\ text t.

Lemma is_command_some Name a : text Name -> argument a -> is_Some (is_command Name a).
Proof.
  intros HN (t & -> & Ht). unfold is_command, invariant_wcscmp.
  destruct (strcmp_spec u32 Name t [] [] u32_converts HN Ht) as (v & -> & _). by eexists.
Qed.

Lemma lit_text (t : list Z) : forallb (fun c => (0 <? c) && (c <? 2 ^ 16)) t = true -> text t.
Proof.
  intros Ht. apply Forall_forall. intros c Hc. rewrite forallb_forall in Ht.
  apply list_elem_of_In, Ht in Hc. zify_bools. lia.
Qed.

(** C19: Whatever the system answers, as long as its enumerations end, what it gives as text is text,
    the file names of a driver fit in [MAX_PATH], and so does the full path of the [.inf] file: the
    device setup program ends, for every command line, with a code; it does not fault (it does not
    leave [PropBuf], [NewFileName], [HardwareIdBuf] or the block of file names); it uses a device
    information set, a driver list or a file queue only while it is open, with one exception; and it
    has closed every set, queue and file that it opened, on all of its error paths.  The exception:
    it destroys a list of compatible drivers that it does not have (devsetup.c:159; see
    [class_drivers_stay]), and the list of class drivers stays until its set is closed.  The condition
    on the path is there because the program does not compare the result of [GetFullPathNameW] with
    [MAX_PATH] (devsetup.c:227; see [long_path_unwritten]). *)
Theorem devsetup_closes env n (M : Machine env n) fuel garbage Program Args :
  (forall h f, (env _ h (GetFullPathNameW f MAX_PATH)).1 < MAX_PATH) ->
  (n < fuel)%nat -> buffer_ok (g_PropBuf garbage) -> Forall argument Args ->
  exists code h, WinMainCRTStartup fuel garbage (Some (Program :: Args)) env [] = Exited code h /\
    opened compat_list h = Some nothing_open.
Proof.
  intros Hpath Hf Hg HA.
  assert (forall m : PROG Z, wp env m (fun _ h => idle h) [] ->
    exists code h, (code ← m; exit_process code : PROG unit) env [] = Exited code h /\ opened compat_list h = Some nothing_open) as Hok.
  { intros m Hm. unfold wp in Hm. unfold mbind, prog_bind. destruct (m env []) as [code h|code h|]; [|done..]. by exists code, h. }
  assert (exists code h, (code ← usage; exit_process code : PROG unit) env [] = Exited code h /\ opened compat_list h = Some nothing_open) as Hu
    by (do 2 eexists; split; reflexivity).
  cbn [WinMainCRTStartup wmain]. destruct HA as [|Command args HC HA]; [exact Hu|].
  destruct (is_command_some (lit "add") Command (lit_text (lit "add") eq_refl) HC) as [b1 E1].
  destruct (is_command_some (lit "remove") Command (lit_text (lit "remove") eq_refl) HC) as [b2 E2].
  destruct (is_command_some (lit "removedev") Command (lit_text (lit "removedev") eq_refl) HC) as [b3 E3].
  rewrite E1. destruct b1.
  { destruct HA as [|? ? (id & -> & Hid) [|File ? HF [|? ? ? ?]]]; try exact Hu. apply Hok. by apply AddDevice_ok. }
  rewrite E2. destruct b2.
  { destruct HA as [|? ? (id & -> & Hid) [|? ? ? ?]]; try exact Hu. apply Hok, EnumerateDevices_ok; [done..| |done].
    intros f [= <-]. by apply RemoveDeviceAndDriver_ok. }
  rewrite E3. destruct b3; [|exact Hu].
  destruct HA as [|? ? (id & -> & Hid) [|? ? ? ?]]; try exact Hu. apply Hok, EnumerateDevices_ok; [done..| |done].
  intros f [= <-]. by apply RemoveDevice_ok.
Qed.

(** C40: The callback puts the names of the files that a scan queues one after the other into a block
    of memory that starts with its size, and the loop of [RemoveDeviceAndDriver] reads them back: it
    removes each of them once, in their order.  Notifications of other kinds add nothing.  When there
    is no more memory the scan ends with that error, and the names that came before are removed. *)
Theorem driver_files_removed env h Files :
  Forall (fun c => file_name c.2) Files -> names_size (queued Files) < 2 ^ 32 ->
  exists stop Buffer h' k, scan_files RemoveDeviceAndDriverCallback Files None env h = Done (stop, Buffer) h' /\
    (stop = None /\ take k (queued Files) = queued Files \/ stop = Some ERROR_NOT_ENOUGH_MEMORY) /\
    match Buffer with
    | None => take k (queued Files) = []
    | Some Buffer => forall env h r,
        files_loop (length Buffer) Buffer 4 r env h = remove_each (take k (queued Files)) r env h
    end.
Proof.
  intros HF Hs. pose proof (scan_files_kept env (fun _ => True) ltac:(done) Files [] h HF Hs ltac:(done)) as HK.
  unfold wp in HK. cbn [listed app] in HK.
  destruct (scan_files RemoveDeviceAndDriverCallback Files None env h) as [[stop B] h'|code h'|]; [|done..].
  destruct HK as [(k & HB & Hstop) _]. cbn [fst snd] in HB, Hstop. exists stop, B, h', k. split; [done|]. split; [done|].
  destruct B as [B|]; symmetry in HB.
  - intros env' h'' r. apply listed_removed; [by apply Forall_take, queued_file_names| |done].
    pose proof (names_take k (queued Files)). lia.
  - by destruct (take k (queued Files)).
Qed.

(** ** A device that was added is found *)

(** Are two identifiers the same, up to the case of Latin letters? *)
Definition same_identifier (a b : list Z) : bool :=
  bool_decide (invariant_toupper <$> a = invariant_toupper <$> b).

(** A buffer with one identifier. *)
Lemma one_identifier env h fuel id id' x H Info r :
  text id -> text id' -> id <> [] ->
  identifiers_loop (S (S fuel)) (id ++ 0 :: 0 :: x) (id' ++ [0]) None H Info false r env h =
    Done (None, same_identifier id id', r) h.
Proof.
  intros Hid Hid' Hne. destruct (compare_text Hid' id (0 :: x) Hid) as (v & Hv & H0).
  destruct id as [|c id]; [done|]. inversion_clear Hid as [|? ? Hc Hid0].
  remember (S fuel) as fuel1 eqn:Ef. cbn [identifiers_loop].
  change (((c :: id) ++ 0 :: 0 :: x) !! 0%nat) with (Some c). rewrite lift_bind, (proj2 (Z.eqb_neq c 0)) by lia.
  rewrite Hv, lift_bind.
  assert ((0 =? v) = same_identifier (c :: id) id') as ->.
  { unfold same_identifier. destruct (Z.eqb_spec 0 v) as [E|E]; symmetry;
      [apply bool_decide_eq_true|apply bool_decide_eq_false]; rewrite <- H0; lia. }
  assert (lstrlenW ((c :: id) ++ 0 :: 0 :: x) = Some (length (c :: id))) as Hlen.
  { apply lstrlenW_text, text_is_text. by constructor. }
  assert (drop (length (c :: id) + 1) ((c :: id) ++ 0 :: 0 :: x) = 0 :: x) as Hdrop.
  { rewrite drop_app_ge by lia. by replace (length (c :: id) + 1 - length (c :: id))%nat with 1%nat by lia. }
  assert (forall b : bool, (if b then found_device None H Info false r else mret (None, false, r)) =
    (mret (None, b, r) : PROG SEARCH)) as Hb by by intros [].
  rewrite Hb. unfold mbind at 1, prog_bind at 1, mret at 1, prog_ret at 1. rewrite Hlen, lift_bind, Hdrop.
  subst fuel1. done.
Qed.

(** The property that [AddDevice] stores for a hardware identifier of at most [LINE_LEN]
    characters, read into [PropBuf], is found by [EnumerateDevices] when it looks for the same
    identifier, in any case, and not when it looks for another one; whatever the buffer held before. *)
Theorem added_device_found env h id id' B Property H Info r :
  text id -> text id' -> id <> [] -> Z.of_nat (length id) <= LINE_LEN -> buffer_ok B ->
  hardware_id_property (id ++ [0]) = Some Property ->
  identifiers_loop PropBuf_length (terminate (store_property Property B)) (id' ++ [0]) None H Info false r env h =
    Done (None, same_identifier id id', r) h.
Proof.
  intros Hid Hid' Hne Hl [HB HW] HP. rewrite hardware_id_property_value in HP by done. injection HP as <-.
  rewrite take_ge by lia. unfold LINE_LEN in Hl.
  assert (exists x, terminate (store_property (id ++ [0; 0]) B) = id ++ 0 :: 0 :: x) as [x ->].
  { unfold store_property. rewrite take_ge by (rewrite length_app; unfold PropBuf_length; cbn; lia).
    exists (<[(1021 - length id)%nat := 0]> (<[(1020 - length id)%nat := 0]> (drop (length (id ++ [0; 0])) B))).
    unfold terminate, PropBuf_length. rewrite <- app_assoc. cbn [app].
    rewrite insert_app_r_alt by lia. rewrite insert_app_r_alt by lia. f_equal.
    replace (1024 - 2 - length id)%nat with (S (S (1020 - length id))) by lia.
    replace (1024 - 1 - length id)%nat with (S (S (1021 - length id))) by lia. done. }
  by apply (one_identifier env h 1022).
Qed.

(** ** A concrete machine *)

Definition example_id : list Z := lit "root\WinSpd".
Definition example_file : list Z := lit "C:\Windows\System32\drivers\winspd-x64.sys" ++ [0].

(** One device, with one driver that has one file. *)
Definition example_env : ENV := fun R h c =>
  match c in CALL R return R with
  | GetLastError => ERROR_NO_MORE_ITEMS
  | SetupDiGetClassDevsW _ => 5
  | SetupDiCreateDeviceInfoList _ => 6
  | SetupDiDestroyDeviceInfoList _ => true
  | SetupDiEnumDeviceInfo _ i => if i =? 0 then Some 7 else None
  | SetupDiGetDeviceRegistryPropertyW _ _ _ _ => (true, lit "ROOT\WINSPD" ++ [0; 0])
  | SetupDiSetDeviceRegistryPropertyW _ _ _ _ => true
  | SetupDiGetDeviceInstallParamsW _ _ => Some (mkInstallParams 0 0 INVALID_HANDLE_VALUE)
  | SetupDiSetDeviceInstallParamsW _ _ _ => true
  | SetupDiBuildDriverInfoList _ _ _ => true
  | SetupDiEnumDriverInfoW _ _ _ i => if i =? 0 then Some 9 else None
  | SetupDiGetDriverInfoDetailW _ _ _ => (true, lit "C:\Windows\INF\oem7.inf" ++ [0])
  | SetupDiDestroyDriverInfoList _ _ _ => true
  | SetupDiSetSelectedDriver _ _ _ => true
  | SetupDiCallClassInstaller _ _ _ => true
  | SetupDiGetINFClassW _ => Some (1, lit "SCSIAdapter" ++ [0])
  | SetupDiCreateDeviceInfoW _ _ _ _ => Some 8
  | SetupOpenFileQueue => 11
  | SetupScanFileQueueW _ _ => mkScan [(1, lit "x" ++ [0]); (SPFILENOTIFY_QUEUESCAN, example_file)] 1 0
  | SetupCloseFileQueue _ => true
  | SetupUninstallOEMInfW _ _ => true
  | UpdateDriverForPlugAndPlayDevicesW _ _ => (true, false)
  | DiUninstallDevice _ _ _ => (true, false)
  | GetFullPathNameW _ _ => (13, lit "C:\winspd.inf" ++ [0])
  | UuidCreate => mkGUID 1 2 3 [4; 5; 6; 7; 8; 9; 10; 11]
  | MoveFileExW _ _ _ => true
  | CreateFileW _ _ _ _ _ => 12
  | CloseHandle _ => true
  | SetFileAttributesW _ _ => true
  | MemRealloc _ => Some (fun _ => 0xcd)
  | MemFree => tt
  | MessageBoxW _ _ _ => 1
  end.

Lemma example_file_name : file_name example_file.
Proof.
  exists (lit "C:\Windows\System32\drivers\winspd-x64.sys"). split; [done|].
  split; [by apply lit_text|vm_compute; lia].
Qed.

#[export] Instance example_machine : Machine example_env 1.
Proof.
  split; try done.
  - intros h H i Hi. cbn [example_env]. by rewrite (proj2 (Z.eqb_neq _ _)) by lia.
  - intros h H d t i Hi. cbn [example_env]. by rewrite (proj2 (Z.eqb_neq _ _)) by lia.
  - intros h H d p s. cbn [example_env snd]. eapply (Forall_impl (fun c => 0 <= c < 2 ^ 16)); [|done].
    apply Forall_app. split; [|by repeat constructor]. eapply Forall_impl; [by apply (lit_text (lit "ROOT\WINSPD"))|]. simpl. lia.
  - intros h q f. cbn [example_env sc_Files]. apply Forall_cons. split.
    + exists (lit "x"). split; [done|]. split; [by apply lit_text|vm_compute; lia].
    + apply Forall_cons. split; [apply example_file_name|constructor].
  - intros h H d i. exists (lit "C:\Windows\INF\oem7.inf"), []. split; [done|]. by apply text_is_text, lit_text.
Qed.

Definition example_garbage : GARBAGE := mkGarbage (replicate 1024 0xcdcd) 0 [].

Lemma example_buffer : buffer_ok (g_PropBuf example_garbage).
Proof. split; [done|]. by apply Forall_replicate. Qed.

Definition example_args (Command : string) : list (list Z) := [lit Command ++ [0]; example_id ++ [0]].

Lemma devsetup_closes_witness :
  exists code h, WinMainCRTStartup 2 example_garbage (Some ([0] :: example_args "remove")) example_env [] =
    Exited code h /\ opened compat_list h = Some nothing_open.
Proof.
  apply (devsetup_closes example_env 1 example_machine 2 example_garbage [0] (example_args "remove"));
    [|lia|exact example_buffer|].
  { intros h f. done. }
  apply Forall_cons. split; [|apply Forall_cons; split; [|constructor]].
  - exists (lit "remove"). split; [done|by apply lit_text].
  - exists example_id. split; [done|by apply (lit_text example_id)].
Defined.

(** What [remove] renames and asks to delete on this machine, and how it ends. *)
Definition renamed (h : HISTORY) : list (list Z) :=
  rev (h ≫= fun e => match e with Event c _ => match c with MoveFileExW Old _ _ => [Old] | _ => [] end end).

Example remove_example :
  match WinMainCRTStartup 2 example_garbage (Some ([0] :: example_args "remove")) example_env [] with
  | Exited code h => Some (code, renamed h)
  | _ => None
  end = Some (ERROR_SUCCESS, [example_file]).
Proof. vm_compute. reflexivity. Qed.

(** [GetInstalledDriver] builds the list of class drivers, and the list that it destroys is another
    one, which is not open; the list that it built is still there, and [EnumerateDriverFiles] uses it. *)
Example class_drivers_stay :
  match (DiHandle ← call (SetupDiGetClassDevsW 0); GetInstalledDriver 2 DiHandle 7 0 []) example_env [] with
  | Done (err, _, _) h =>
      Some (err, bool_decide (opened compat_list h = Some (mkOpened {[5]} {[(5, 7, SPDIT_CLASSDRIVER)]} ∅ ∅)),
        bool_decide (opened no_list h = None))
  | _ => None
  end = Some (ERROR_SUCCESS, true, true).
Proof. vm_compute. reflexivity. Qed.

(** The full path does not fit in [FileNameBuf]: [add] goes on with what the buffer held. *)
Definition long_path_env : ENV := fun R h c =>
  match c in CALL R return R -> R with
  | GetFullPathNameW FileName _ => fun _ => (300, FileName)
  | _ => fun r => r
  end (example_env R h c).

Example long_path_unwritten :
  WinMainCRTStartup 2 example_garbage (Some ([0] :: example_args "add" ++ [lit "winspd.inf" ++ [0]])) long_path_env [] = Stuck.
Proof. vm_compute. reflexivity. Qed.

Lemma driver_files_removed_witness :
  exists stop Buffer h' k,
    scan_files RemoveDeviceAndDriverCallback [(SPFILENOTIFY_QUEUESCAN, example_file)] None example_env [] =
      Done (stop, Buffer) h' /\
    (stop = None /\ take k (queued [(SPFILENOTIFY_QUEUESCAN, example_file)]) =
       queued [(SPFILENOTIFY_QUEUESCAN, example_file)] \/ stop = Some ERROR_NOT_ENOUGH_MEMORY) /\
    match Buffer with
    | None => take k (queued [(SPFILENOTIFY_QUEUESCAN, example_file)]) = []
    | Some Buffer => forall env h r, files_loop (length Buffer) Buffer 4 r env h =
        remove_each (take k (queued [(SPFILENOTIFY_QUEUESCAN, example_file)])) r env h
    end.
Proof.
  apply (driver_files_removed example_env [] [(SPFILENOTIFY_QUEUESCAN, example_file)]).
  - apply Forall_cons. split; [exact example_file_name|constructor].
  - vm_compute. reflexivity.
Defined.

Lemma added_device_found_witness :
  identifiers_loop PropBuf_length (terminate (store_property (example_id ++ [0; 0]) (g_PropBuf example_garbage)))
    (lit "ROOT\WINSPD" ++ [0]) None 5 7 false false example_env [] =
  Done (None, same_identifier example_id (lit "ROOT\WINSPD"), false) [].
Proof.
  apply (added_device_found example_env [] example_id (lit "ROOT\WINSPD") (g_PropBuf example_garbage)
    (example_id ++ [0; 0]) 5 7 false).
  - by apply (lit_text example_id).
  - by apply (lit_text (lit "ROOT\WINSPD")).
  - done.
  - vm_compute. discriminate.
  - exact example_buffer.
  - reflexivity.
Defined.
