(* ===== verification/Installer.v ===== *)
(** * The custom actions of the installer: [build/VStudio/installer/CustomActions/CustomActions.cpp]

    The installer runs [devsetup] as a command, and finds out at its end whether one of its commands asked
    for a restart of the system: an atom of the session remembers it.  The functions of the installer
    toolkit and of the system give answers, which are arguments; closing a handle that is not open is
    [None]. *)

From S2P Require Import Prelude Wdk Minimal DevSetupApi.

Definition ERROR_INSTALL_FAILURE := 1603.

(** [SUCCEEDED] *)
Definition SUCCEEDED (hr : Z) : bool := hr <? 2 ^ 31.

(** [ExitWithLastError] of the toolkit: a failure, whatever the error is. *)
Definition E_FAIL := 0x80004005.
Definition hresult_from_last_error (LastError : Z) : Z :=
  let hr := if (LastError =? 0) || (2 ^ 31 <=? LastError) then LastError else (LastError .& 0xffff) .| 0x80070000 in
  if SUCCEEDED hr then E_FAIL else hr.

(** The session: how often the atom [ATOM_REBOOT] was added, the handles and the texts that the action
    holds, and the property that it set. *)
Record SESSION := mkSession {
  AtomCount : nat; OpenHandles : list Z; OpenTexts : nat; CheckRebootProperty : option bool
}.

#[export] Instance SESSION_eta : Eta SESSION := fun S =>
  mkSession (AtomCount S) (OpenHandles S) (OpenTexts S) (CheckRebootProperty S).

(** [GlobalFindAtomW], [GlobalAddAtomW] and [GlobalDeleteAtom], of that atom; [added] tells whether there
    is room for it. *)
Definition GlobalFindAtom (S : SESSION) : bool := (0 <? Z.of_nat (AtomCount S)).
Definition GlobalAddAtom (added : bool) (S : SESSION) : SESSION :=
  if added then S <| AtomCount := (AtomCount S + 1)%nat |> else S.
Definition GlobalDeleteAtom (found : bool) (S : SESSION) : SESSION :=
  if found then S <| AtomCount := (AtomCount S - 1)%nat |> else S.

Definition CloseHandle (Handle : Z) (S : SESSION) : option SESSION :=
  hs ← take_away Handle (OpenHandles S); Some (S <| OpenHandles := hs |>).

(** The answers to the calls of [ExecuteCommand]. *)
Record EXECUTE_ANSWERS := mkExecute {
  ex_Initialize : Z;
  ex_GetProperty : Z;
  ex_CreateProcess : option (Z * Z);     (* the handles of the thread and of the process *)
  ex_LastError : Z;
  ex_AddAtom : bool
}.

(** [ExecuteCommand]: the error that it ends with.  [ExitCode] is that of the process. *)
Definition ExecuteCommand (S : SESSION) (a : EXECUTE_ANSWERS) (ExitCode : Z) : option (Z * SESSION) :=
  let exit hr (CommandLine : bool) ExitCode S :=
    let S := if CommandLine then S <| OpenTexts := (OpenTexts S - 1)%nat |> else S in
    Some (if SUCCEEDED hr && (ERROR_SUCCESS =? ExitCode) then ERROR_SUCCESS else ERROR_INSTALL_FAILURE, S) in
  let hr := ex_Initialize a in
  if negb (SUCCEEDED hr) then exit hr false ERROR_SUCCESS S
  else
    let hr := ex_GetProperty a in
    if negb (SUCCEEDED hr) then exit hr false ERROR_SUCCESS S
    else
      let S := S <| OpenTexts := (OpenTexts S + 1)%nat |> in
      match ex_CreateProcess a with
      | None => exit (hresult_from_last_error (ex_LastError a)) true ERROR_SUCCESS S
      | Some (Thread, Process) =>
          let S := S <| OpenHandles := Thread :: Process :: OpenHandles S |> in
          S ← CloseHandle Thread S;
          S ← CloseHandle Process S;
          let RebootRequired := ERROR_SUCCESS_REBOOT_REQUIRED =? ExitCode in
          if RebootRequired : bool then
            let S := if negb (GlobalFindAtom S) then GlobalAddAtom (ex_AddAtom a) S else S in
            exit hr true ERROR_SUCCESS S
          else exit hr true ExitCode S
      end.

(** [CheckReboot], with the result of [WcaInitialize]. *)
Definition CheckReboot (S : SESSION) (Initialize : Z) : Z * SESSION :=
  let hr := Initialize in
  let S :=
    if SUCCEEDED hr then
      let RebootRequired := GlobalFindAtom S in
      let S := GlobalDeleteAtom (GlobalFindAtom S) S in
      S <| CheckRebootProperty := Some RebootRequired |>
    else S in
  (if SUCCEEDED hr then ERROR_SUCCESS else ERROR_INSTALL_FAILURE, S).

(** ** Properties *)

(** The commands of an installation, with how each process ended; one that does not end is [None].  What
    fails does not keep the installer from running commands: it undoes what it has done. *)
Fixpoint run_commands (S : SESSION) (runs : list (EXECUTE_ANSWERS * OUTCOME unit)) : option (list Z * SESSION) :=
  match runs with
  | [] => Some ([], S)
  | (a, Exited ExitCode _) :: runs =>
      '(err, S) ← ExecuteCommand S a ExitCode;
      '(errs, S) ← run_commands S runs;
      Some (err :: errs, S)
  | _ => None
  end.

(** The process was started, and asked for a restart. *)
Definition started (a : EXECUTE_ANSWERS) : bool :=
  SUCCEEDED (ex_Initialize a) && SUCCEEDED (ex_GetProperty a) && bool_decide (ex_CreateProcess a <> None).

Definition exit_code (o : OUTCOME unit) : Z := match o with Exited c _ => c | _ => -1 end.

Definition asks_restart (r : EXECUTE_ANSWERS * OUTCOME unit) : bool :=
  started r.1 && (ERROR_SUCCESS_REBOOT_REQUIRED =? exit_code r.2).

(** What the error of a command says. *)
Definition command_result (r : EXECUTE_ANSWERS * OUTCOME unit) (err : Z) : Prop :=
  err = if started r.1 && ((exit_code r.2 =? ERROR_SUCCESS) || (exit_code r.2 =? ERROR_SUCCESS_REBOOT_REQUIRED))
        then ERROR_SUCCESS else ERROR_INSTALL_FAILURE.

(** The session that differs only in the atom. *)
Definition with_atom (S : SESSION) (n : nat) : SESSION := S <| AtomCount := n |>.

Lemma failure_not_success e : SUCCEEDED (hresult_from_last_error e) = false.
Proof.
  unfold hresult_from_last_error. cbv zeta.
  lazymatch goal with |- SUCCEEDED (if SUCCEEDED ?x then _ else _) = _ => destruct (SUCCEEDED x) eqn:E end; done.
Qed.

(** One command: the atom is there afterwards if it was before, or if the command asks for a restart. *)
Lemma execute_command_spec S a code :
  ex_AddAtom a = true -> (AtomCount S <= 1)%nat ->
  exists err n, ExecuteCommand S a code = Some (err, with_atom S n) /\ (n <= 1)%nat /\
    command_result (a, Exited code []) err /\
    bool_decide (n = 1%nat) = bool_decide (AtomCount S = 1%nat) || asks_restart (a, Exited code []).
Proof.
  intros Hadd Hn. unfold ExecuteCommand, command_result, asks_restart, started, exit_code. cbn [fst snd].
  assert (S = with_atom S (AtomCount S)) as HS by by destruct S.
  destruct (SUCCEEDED (ex_Initialize a)) eqn:E1; cbn [negb andb];
    [|exists ERROR_INSTALL_FAILURE, (AtomCount S); rewrite <- HS, orb_false_r; done].
  destruct (SUCCEEDED (ex_GetProperty a)) eqn:E2; cbn [negb andb];
    [|exists ERROR_INSTALL_FAILURE, (AtomCount S); rewrite <- HS, orb_false_r; done].
  destruct (ex_CreateProcess a) as [[Thread Process]|] eqn:E3; cbn [andb bool_decide].
  - change (bool_decide (Some (Thread, Process) <> None)) with true. unfold CloseHandle. cbn -[take_away].
    rewrite !take_away_head. cbn -[take_away]. rewrite take_away_head. cbn.
    rewrite (Z.eqb_sym code ERROR_SUCCESS_REBOOT_REQUIRED).
    destruct (Z.eqb_spec ERROR_SUCCESS_REBOOT_REQUIRED code) as [<-|Hc].
    + unfold GlobalFindAtom, GlobalAddAtom. rewrite Hadd. cbn [AtomCount update]. exists ERROR_SUCCESS, 1%nat.
      rewrite orb_true_r. destruct S as [n hs m p]; cbn in *. destruct n as [|[|n]]; [..|lia];
        [change (negb (0 <? Z.of_nat 0)) with true|change (negb (0 <? Z.of_nat 1)) with false]; cbn;
        rewrite Nat.add_sub; done.
    + exists (if ERROR_SUCCESS =? code then ERROR_SUCCESS else ERROR_INSTALL_FAILURE), (AtomCount S).
      rewrite !orb_false_r, (Z.eqb_sym code). cbn [andb]. split; [|done].
      destruct S as [n hs m p]; cbn. rewrite Nat.add_sub. by destruct (ERROR_SUCCESS =? code).
  - change (bool_decide (None <> None)) with false. rewrite failure_not_success. cbn [andb].
    exists ERROR_INSTALL_FAILURE, (AtomCount S). rewrite orb_false_r. split; [|done].
    destruct S as [n hs m p]; cbn. by rewrite Nat.add_sub.
Qed.


