(* ===== verification/TestBench.v ===== *)
(** * The bench of the driver tests

    What [tst/winspd-tests] runs on: a process with the DLL, over the driver.  A test is a program
    over the state of this bench; an assertion that does not hold, and a fault of the code under
    test, is [None].  A thread of a test executes one SCSI command; it is blocked from the moment
    that its command is in the queue of a storage unit until the command is completed.

    The port driver is an argument: the error of a pass-through request for the status of its
    SRB, and the error of the system for the status of a control request. *)

From S2P Require Import Prelude Wdk IoctlTypes ListEntry Srb Ioq StgUnit Scsi ScsiIo DriverIo DriverIoctl.
From S2P Require Import IoctlDevice IoctlClient Text.

(** ** The bench *)

(** The driver as the process sees it; the next number for an address, a handle or a process; the
    open handles; the requests that the port driver got back. *)
Record BENCH := mkBench {
  bn_Driver : DRIVER; bn_Next : Z; bn_Handles : gset Z; bn_Completed : list completion
}.

#[export] Instance BENCH_eta : Eta BENCH := fun b =>
  mkBench (bn_Driver b) (bn_Next b) (bn_Handles b) (bn_Completed b).

Definition TEST (A : Type) : Type := BENCH -> option (A * BENCH).

#[export] Instance test_ret : MRet TEST := fun A a b => Some (a, b).
#[export] Instance test_bind : MBind TEST := fun A B k m b =>
  match m b with Some (a, b) => k a b | None => None end.

Definition fail {A} : TEST A := fun _ => None.
Definition lift_option {A} (o : option A) : TEST A := match o with Some a => mret a | None => fail end.

(** [ASSERT] of the tests *)
Definition ASSERT_ (c : bool) : TEST unit := if c then mret tt else fail.

(** A step on the bench. *)
Definition act {A} (f : BENCH -> option (A * BENCH)) : TEST A := f.

(** A number that was not used before. *)
Definition fresh_number : TEST Z := fun b => Some (bn_Next b, b <| bn_Next := bn_Next b + 0x1000 |>).

Section Bench.
Context (DBG : bool) (sizeof_SPD_IOQ : Z) (PortError DosError : Z -> Z).

(** What is on the stack before it is written. *)
Context (garbage : Z).

Definition Device := DriverDevice DBG sizeof_SPD_IOQ DosError.

(** *** Handles *)

(** The hardware identifier [SPD_IOCTL_HARDWARE_ID] of the adapter, and the name of its device. *)
Definition SPD_IOCTL_HARDWARE_ID : list Z := lit "root\winspd".
Definition bench_devices : DEVICES :=
  mkDevices (inl [mkDevice (Some (SPD_IOCTL_HARDWARE_ID ++ [0; 0])) (inl (lit "\Device\00000042" ++ [0]))])
    (replicate 1024 garbage) 0.

Definition OpenDevice (DeviceName : list Z) : TEST (Z * Z) :=
  Handle ← fresh_number;
  '(err, Handle) ← lift_option (SpdIoctlOpenDevice bench_devices DeviceName (replicate 1024 garbage)
    (fun _ => (Handle, 0)));
  act (fun b => Some ((err, Handle), b <| bn_Handles := {[Handle]} ∪ bn_Handles b |>)).

(** A handle of another object: a file, a process, a thread. *)
Definition open_handle : TEST Z :=
  Handle ← fresh_number; act (fun b => Some (Handle, b <| bn_Handles := {[Handle]} ∪ bn_Handles b |>)).

(** Closing a handle that is not open fails. *)
Definition CloseHandle (Handle : Z) : TEST bool := fun b =>
  Some (bool_decide (Handle ∈ bn_Handles b), b <| bn_Handles := bn_Handles b ∖ {[Handle]} |>).

(** *** Control requests *)

(** A function of the DLL on the driver, through a handle that is open. *)
Definition on_driver {A} (DeviceHandle : Z) (f : DRIVER -> option (A * DRIVER)) : TEST A := fun b =>
  if decide (DeviceHandle ∈ bn_Handles b) then
    '(a, d) ← f (bn_Driver b); Some (a, b <| bn_Driver := d |>)
  else None.

Definition Provision (DeviceHandle : Z) (StorageUnitParams : SPD_IOCTL_STORAGE_UNIT_PARAMS) : TEST (Z * Z) :=
  Unit ← fresh_number;
  on_driver DeviceHandle (fun d =>
    '(err, Btl, d) ← ProvisionClient Device (d <| drv_AllocUnit := Unit |>) DeviceHandle StorageUnitParams;
    Some ((err, Btl), d)).

Definition Unprovision (DeviceHandle : Z) (G : GUID) : TEST Z :=
  on_driver DeviceHandle (fun d => UnprovisionClient Device d DeviceHandle G).

Definition GetList (DeviceHandle ListSize : Z) : TEST (Z * list Z * Z) :=
  on_driver DeviceHandle (fun d =>
    '(err, List, Size, d) ← GetListClient Device d DeviceHandle ListSize; Some ((err, List, Size), d)).

Definition SetTransactProcessId (DeviceHandle Btl ProcessId : Z) : TEST Z :=
  on_driver DeviceHandle (fun d => SetTransactProcessIdClient Device d DeviceHandle Btl ProcessId).

(** *** Transactions *)

(** The address of the data buffer of a test. *)
Definition Address : Z := 0x7000.

Definition extension_of (b : BENCH) : SPD_DEVICE_EXTENSION := drv_Extension (bn_Driver b).
Definition with_extension (b : BENCH) (E : SPD_DEVICE_EXTENSION) : BENCH :=
  b <| bn_Driver := (bn_Driver b) <| drv_Extension := E |> |>.

(** [SpdIoctlTransact] with a response only. *)
Definition Respond (DeviceHandle Btl : Z) (Rsp : SPD_IOCTL_TRANSACT_RSP) (DataBuffer : list Z) : TEST Z :=
  on_driver DeviceHandle (fun d =>
    '(err, _, _, d) ← TransactClient Device Address d DeviceHandle Btl (Some Rsp) false (Some DataBuffer);
    Some (err, d)).

(** [SpdIoctlTransact] for a request only: the thread has its reference to the unit, then it waits;
    while it waits [between] runs, and after that it is woken, with what the others have left. *)
Definition Request {A} (DeviceHandle Btl : Z) (DataBuffer : list Z) (between : TEST A)
    : TEST (Z * option SPD_IOCTL_TRANSACT_REQ * list Z * A) := fun b =>
  let E := extension_of b in
  '(_, E1) ← SpdStorageUnitReferenceByBtl E Btl;
  '(a, b) ← between (with_extension b E1);
  let rounds := [(STATUS_SUCCESS, extension_of b)] in
  let b := with_extension b E in
  on_driver DeviceHandle (fun d =>
    '(err, Req, Buffer, d) ←
      TransactClient Device Address (d <| drv_Rounds := rounds |>) DeviceHandle Btl None true (Some DataBuffer);
    Buffer ← Buffer;
    Some ((err, Req, Buffer, a), d)) b.

(** *** SCSI commands *)

(** The request that the port driver makes of a pass-through request. *)
Definition port_srb (SrbAddress : Z) (pt : SCSI_PASS_THROUGH_DIRECT) (DataBuffer : list Z) : SRB :=
  mkSrb 88 SRB_FUNCTION_EXECUTE_SCSI 0 0 (pt_PathId pt) (pt_TargetId pt) (pt_Lun pt) 0 0 (pt_CdbLength pt)
    (pt_SenseInfoLength pt) 0 (pt_DataTransferLength pt) (pt_TimeOutValue pt)
    (if 0 =? pt_DataTransferLength pt then 0 else 0x10000) 0x20000 0 0 (SrbAddress + 0x800) 0
    (pt_Cdb pt) DataBuffer (replicate 32 garbage).

(** The answer for a request that was completed. *)
Definition port_answer (Srb : SRB) : PASS_THROUGH_ANSWER :=
  mkPassThrough (PortError (SRB_STATUS (srb_SrbStatus Srb))) (srb_DataTransferLength Srb) (srb_ScsiStatus Srb)
    (srb_SenseInfoBufferLength Srb) (srb_Sense Srb) (srb_Data Srb).

(** The port driver gives a request to the driver. *)
Definition start_srb (pt : SCSI_PASS_THROUGH_DIRECT) (DataBuffer : list Z) : TEST Z :=
  SrbAddress ← fresh_number;
  act (fun b =>
    '(E, cs) ← SpdHwStartIo DBG (extension_of b) SrbAddress (STOR_STATUS_SUCCESS, 0x9000) (0, 0)
      (port_srb SrbAddress pt DataBuffer);
    Some (SrbAddress, (with_extension b E) <| bn_Completed := bn_Completed b ++ cs |>)).

(** The requests that came back: at once, and from control requests. *)
Definition completed (b : BENCH) : list completion :=
  bn_Completed b ++ (drv_Effects (bn_Driver b) ≫= eff_completed).

Definition find_completed (SrbAddress : Z) : TEST SRB := fun b =>
  match list_find (fun c => c.1 = SrbAddress) (completed b) with
  | Some (_, (_, Srb)) => Some (Srb, b)
  | None => None
  end.

(** A command as a caller of [SpdIoctlScsiExecute] gives it; the status and the sense information
    are asked for. *)
Record COMMAND := mkCommand {
  cm_Cdb : list Z; cm_DataDirection : Z; cm_DataBuffer : list Z; cm_DataLength : Z
}.

Definition execute_with {W} (pass : W -> SCSI_PASS_THROUGH_DIRECT -> list Z -> PASS_THROUGH_ANSWER * W) (w : W)
    (Btl : Z) (c : COMMAND) : option (EXECUTE_RESULT * W) :=
  SpdIoctlScsiExecute pass ERROR_SUCCESS w Btl (cm_Cdb c) (cm_DataDirection c) (cm_DataBuffer c)
    (Some (cm_DataLength c)) (Some garbage) (Some (replicate 32 garbage)).

(** [SpdIoctlScsiExecute], up to the request that it sends ... *)
Definition sent_request (Btl : Z) (c : COMMAND) : option (option (SCSI_PASS_THROUGH_DIRECT * list Z)) :=
  '(_, sent) ← execute_with (fun _ pt buf => (mkPassThrough 0 0 0 0 [] [], Some (pt, buf))) None Btl c; Some sent.

Definition begin_execute (Btl : Z) (c : COMMAND) : TEST Z :=
  sent ← lift_option (sent_request Btl c);
  '(pt, buf) ← lift_option sent;
  start_srb pt buf.

(** ... and from its answer on. *)
Definition end_execute (Btl : Z) (c : COMMAND) (SrbAddress : Z) : TEST EXECUTE_RESULT :=
  Srb ← find_completed SrbAddress;
  '(r, _) ← lift_option (execute_with (fun w _ _ => (port_answer Srb, w)) tt Btl c);
  mret r.

(** A command that the driver answers by itself. *)
Definition execute (Btl : Z) (c : COMMAND) : TEST EXECUTE_RESULT :=
  SrbAddress ← begin_execute Btl c; end_execute Btl c SrbAddress.

(** [SpdIoctlScsiInquiry] without data, when the first answer is a good one: the loop that it
    consists of does not wait. *)
Definition bench_inquiry : COMMAND := mkCommand INQUIRY_CDB 1 (replicate 255 garbage) VPD_MAX_BUFFER_SIZE.

Definition Inquiry (Btl Timeout : Z) : TEST Z :=
  sent ← lift_option (sent_request Btl bench_inquiry);
  '(pt, buf) ← lift_option sent;
  SrbAddress ← start_srb pt buf;
  Srb ← find_completed SrbAddress;
  '(err, _, _, _) ← lift_option (SpdIoctlScsiInquiry (fun w _ _ => (port_answer Srb, w)) ERROR_SUCCESS 1
    0 tt Btl false Timeout (replicate 255 garbage, garbage, replicate 32 garbage));
  mret err.

(** *** Threads *)

(** A thread that executes a command, and its exit code, the [DWORD] [Error]. *)
Record THREAD := mkThread { th_Command : COMMAND; th_ExitCode : EXECUTE_RESULT -> option Z }.

(** A thread that runs: its handle of the device and its request, or the error with which it ended;
    with the handle of the thread. *)
Definition RUNNING : Type := (Z * Z) + Z.

Definition begin_thread (th : THREAD) (Btl : Z) : TEST RUNNING :=
  '(err, DeviceHandle) ← OpenDevice (SPD_IOCTL_HARDWARE_ID ++ [0]);
  if negb (ERROR_SUCCESS =? err) then mret (inr err)
  else
    _ ← Inquiry Btl 3000;
    SrbAddress ← begin_execute Btl (th_Command th);
    mret (inl (DeviceHandle, SrbAddress)).

(** The end of the thread, after [WaitForSingleObject(Thread, INFINITE)], its exit code, and its handle
    closed. *)
Definition end_thread (th : THREAD) (Btl : Z) (Thread : Z * RUNNING) : TEST Z :=
  code ←
    match Thread.2 with
    | inr err => mret err
    | inl (DeviceHandle, SrbAddress) =>
        r ← end_execute Btl (th_Command th) SrbAddress;
        _ ← CloseHandle DeviceHandle;
        lift_option (th_ExitCode th r)
    end;
  _ ← CloseHandle Thread.1;
  mret code.

(** The thread is started, and a request is waited for; either comes first, [ThreadFirst]. *)
Definition thread_and_request (ThreadFirst : bool) (th : THREAD) (DeviceHandle Btl : Z) (DataBuffer : list Z)
    : TEST (Z * option SPD_IOCTL_TRANSACT_REQ * list Z * (Z * RUNNING)) :=
  Thread ← open_handle;
  _ ← ASSERT_ (negb (0 =? Thread));
  if ThreadFirst then
    t ← begin_thread th Btl;
    '(err, Req, Buffer, _) ← Request DeviceHandle Btl DataBuffer (mret tt);
    mret (err, Req, Buffer, (Thread, t))
  else
    '(err, Req, Buffer, t) ← Request DeviceHandle Btl DataBuffer (begin_thread th Btl);
    mret (err, Req, Buffer, (Thread, t)).

(** *** Processes *)

(** A test in a process of its own, after [before] was done with the identifier of the process; then
    the process ends, its handles are closed, and the driver is told. *)
Definition run_process (before : Z -> TEST unit) (body : TEST unit) : TEST Z :=
  ProcessId ← fresh_number;
  _ ← before ProcessId;
  act (fun b =>
    let Parent := drv_ProcessId (bn_Driver b) in
    '(_, b') ← body (b <| bn_Driver := (bn_Driver b) <| drv_ProcessId := ProcessId |> |>
                      <| bn_Handles := ∅ |>);
    '(E, effs) ← SpdDeviceExtensionNotifyRoutine DBG (extension_of b') ProcessId false;
    let b' := with_extension b' E in
    let d := bn_Driver b' in
    Some (0, b' <| bn_Driver := (d <| drv_ProcessId := Parent |>) <| drv_Effects := drv_Effects d ++ effs |> |>
               <| bn_Handles := bn_Handles b |>)).
End Bench.
