(* ===== verification/DriverTests.v ===== *)
(** * The tests of the control requests: [tst/winspd-tests/ioctl-test.c]

    Each test is a program on the bench of [TestBench].  In the tests with a thread, [ThreadFirst]
    says which comes first, the command of the thread or the wait of the test for a request. *)

From S2P Require Import Prelude Wdk IoctlTypes ListEntry Srb Ioq StgUnit Scsi ScsiIo DriverIo DriverIoctl.
From S2P Require Import IoctlDevice IoctlClient StgTest Text TestBench.

Definition TestGuid : GUID := mkGUID 0x4112a9a1 0xf079 0x4f3d [0xba; 0x53; 0x2d; 0x5d; 0xf2; 0x7d; 0x28; 0xb5].
Definition TestGuid2 : GUID := mkGUID 0xd7f5a95d 0xb9f0 0x4e47 [0x87; 0x3b; 0xa; 0xb0; 0xa; 0x89; 0xf9; 0x5a].

Definition SPD_IOCTL_STORAGE_UNIT_CAPACITY : nat := 16.
Definition SCSISTAT_CHECK_CONDITION : Z := 2.
Definition SCSI_ADSENSE_SEEK_ERROR : Z := 0x15.
Definition SCSI_SENSEQ_POSITIONING_ERROR_DETECTED_BY_READ_OF_MEDIUM : Z := 2.

(** The parameters of the units of the tests. *)
Definition test_params (G : GUID) (MaxTransferLength : Z) : SPD_IOCTL_STORAGE_UNIT_PARAMS :=
  mkParams G 16 512 (replicate 16 0) (replicate 4 0) 0 false false false false MaxTransferLength.

(** A multi-character constant. *)
Definition characters (s : string) : Z := foldl (fun v c => v * 256 + c) 0 (lit s).

(** A field of a request, when the request is of the kind. *)
Definition read_fields (Req : SPD_IOCTL_TRANSACT_REQ) : option (Z * Z * Z) :=
  match req_Op Req with OpRead a n f => Some (a, n, f) | _ => None end.
Definition write_fields (Req : SPD_IOCTL_TRANSACT_REQ) : option (Z * Z * Z) :=
  match req_Op Req with OpWrite a n f => Some (a, n, f) | _ => None end.
Definition flush_fields (Req : SPD_IOCTL_TRANSACT_REQ) : option (Z * Z) :=
  match req_Op Req with OpFlush a n => Some (a, n) | _ => None end.
Definition unmap_count (Req : SPD_IOCTL_TRANSACT_REQ) : option Z :=
  match req_Op Req with OpUnmap n => Some n | _ => None end.

(** A little-endian number in a buffer. *)
Definition load_le (off n : nat) (buf : list Z) : option Z :=
  bs ← buf_read off n buf; Some (foldr (fun b v => b + 256 * v) 0 bs).

Section IoctlTests.
Context (DBG : bool) (sizeof_SPD_IOQ : Z) (PortError DosError : Z -> Z) (garbage : Z).

Let OpenDevice := OpenDevice garbage.
Let Provision := Provision DBG sizeof_SPD_IOQ DosError.
Let Unprovision := Unprovision DBG sizeof_SPD_IOQ DosError.
Let GetList := GetList DBG sizeof_SPD_IOQ DosError.
Let Respond := Respond DBG sizeof_SPD_IOQ DosError.
Let Inquiry := Inquiry DBG PortError garbage.
Let thread_and_request := thread_and_request DBG sizeof_SPD_IOQ PortError DosError garbage.
Let end_thread := end_thread PortError garbage.
Let run_process := run_process DBG.

(** The device is opened. *)
Definition open_test_device : TEST Z :=
  '(err, DeviceHandle) ← OpenDevice (SPD_IOCTL_HARDWARE_ID ++ [0]);
  _ ← ASSERT_ (ERROR_SUCCESS =? err);
  mret DeviceHandle.

Definition close_test_device (DeviceHandle : Z) : TEST unit :=
  Success ← CloseHandle DeviceHandle; ASSERT_ Success.

(** ** Provisioning *)

Definition ioctl_provision_test : TEST unit :=
  DeviceHandle ← open_test_device;
  '(err, Btl) ← Provision DeviceHandle (test_params TestGuid 512);
  _ ← ASSERT_ (ERROR_SUCCESS =? err);
  _ ← ASSERT_ (0 =? Btl);
  err ← Unprovision DeviceHandle TestGuid;
  _ ← ASSERT_ (ERROR_SUCCESS =? err);
  close_test_device DeviceHandle.

Definition ioctl_provision_invalid_test : TEST unit :=
  DeviceHandle ← open_test_device;
  let StorageUnitParams := ZeroParams in
  '(err, Btl) ← Provision DeviceHandle StorageUnitParams;
  _ ← ASSERT_ (ERROR_INVALID_PARAMETER =? err);
  _ ← ASSERT_ (0xffffffff =? Btl);
  let StorageUnitParams := StorageUnitParams <| Guid := TestGuid |> in
  '(err, Btl) ← Provision DeviceHandle StorageUnitParams;
  _ ← ASSERT_ (ERROR_INVALID_PARAMETER =? err);
  _ ← ASSERT_ (0xffffffff =? Btl);
  let StorageUnitParams := StorageUnitParams <| BlockCount := 16 |> <| BlockLength := 512 |>
                             <| MaxTransferLength := 512 + 1 |> in
  '(err, Btl) ← Provision DeviceHandle StorageUnitParams;
  _ ← ASSERT_ (ERROR_INVALID_PARAMETER =? err);
  _ ← ASSERT_ (0xffffffff =? Btl);
  let StorageUnitParams := StorageUnitParams <| MaxTransferLength := 512 |> in
  '(err, Btl) ← Provision DeviceHandle StorageUnitParams;
  _ ← ASSERT_ (ERROR_SUCCESS =? err);
  _ ← ASSERT_ (0 =? Btl);
  err ← Unprovision DeviceHandle (Guid StorageUnitParams);
  _ ← ASSERT_ (ERROR_SUCCESS =? err);
  close_test_device DeviceHandle.

Definition ioctl_provision_multi_test : TEST unit :=
  DeviceHandle ← open_test_device;
  '(err, Btl) ← Provision DeviceHandle (test_params TestGuid 512);
  _ ← ASSERT_ (ERROR_SUCCESS =? err);
  _ ← ASSERT_ (0 =? Btl);
  '(err, Btl) ← Provision DeviceHandle (test_params TestGuid 512);
  _ ← ASSERT_ (ERROR_ALREADY_EXISTS =? err);
  _ ← ASSERT_ (0xffffffff =? Btl);
  '(err, Btl) ← Provision DeviceHandle (test_params TestGuid2 512);
  _ ← ASSERT_ (ERROR_SUCCESS =? err);
  _ ← ASSERT_ (SPD_IOCTL_BTL 0 1 0 =? Btl);
  err ← Unprovision DeviceHandle TestGuid;
  _ ← ASSERT_ (ERROR_SUCCESS =? err);
  err ← Unprovision DeviceHandle TestGuid2;
  _ ← ASSERT_ (ERROR_SUCCESS =? err);
  err ← Unprovision DeviceHandle TestGuid;
  _ ← ASSERT_ (ERROR_FILE_NOT_FOUND =? err);
  close_test_device DeviceHandle.

(** The units of [ioctl_provision_toomany_test], from [i] on. *)
Definition numbered_guid (i : nat) : GUID := mkGUID (Z.of_nat i) 42 0 (replicate 8 0).

Fixpoint provision_many (n i : nat) (DeviceHandle : Z) : TEST unit :=
  match n with
  | O => mret tt
  | S n =>
      '(err, Btl) ← Provision DeviceHandle (test_params (numbered_guid i) 512);
      _ ← ASSERT_ (ERROR_SUCCESS =? err);
      _ ← ASSERT_ (SPD_IOCTL_BTL 0 (Z.of_nat i) 0 =? Btl);
      provision_many n (S i) DeviceHandle
  end.

Fixpoint unprovision_many (n i : nat) (DeviceHandle : Z) : TEST unit :=
  match n with
  | O => mret tt
  | S n =>
      err ← Unprovision DeviceHandle (numbered_guid i);
      _ ← ASSERT_ (ERROR_SUCCESS =? err);
      unprovision_many n (S i) DeviceHandle
  end.

Definition ioctl_provision_toomany_test : TEST unit :=
  DeviceHandle ← open_test_device;
  _ ← provision_many SPD_IOCTL_STORAGE_UNIT_CAPACITY 0 DeviceHandle;
  '(err, Btl) ← Provision DeviceHandle (test_params TestGuid 512);
  _ ← ASSERT_ (ERROR_CANNOT_MAKE =? err);
  _ ← ASSERT_ (0xffffffff =? Btl);
  _ ← unprovision_many SPD_IOCTL_STORAGE_UNIT_CAPACITY 0 DeviceHandle;
  close_test_device DeviceHandle.

Definition sizeof_UINT32 : Z := 4.
Definition sizeof_BtlBuf : Z := 256 * sizeof_UINT32.

Definition ioctl_list_test : TEST unit :=
  DeviceHandle ← open_test_device;
  '(err, Btl) ← Provision DeviceHandle (test_params TestGuid 512);
  _ ← ASSERT_ (ERROR_SUCCESS =? err);
  _ ← ASSERT_ (0 =? Btl);
  '(err, Btl) ← Provision DeviceHandle (test_params TestGuid2 512);
  _ ← ASSERT_ (ERROR_SUCCESS =? err);
  _ ← ASSERT_ (SPD_IOCTL_BTL 0 1 0 =? Btl);
  '(err, _, _) ← GetList DeviceHandle sizeof_UINT32;
  _ ← ASSERT_ (ERROR_INSUFFICIENT_BUFFER =? err);
  '(err, BtlBuf, BtlBufSize) ← GetList DeviceHandle sizeof_BtlBuf;
  _ ← ASSERT_ (ERROR_SUCCESS =? err);
  _ ← ASSERT_ (2 * sizeof_UINT32 =? BtlBufSize);
  Btl0 ← lift_option (BtlBuf !! 0%nat);
  _ ← ASSERT_ (0 =? Btl0);
  Btl1 ← lift_option (BtlBuf !! 1%nat);
  _ ← ASSERT_ (SPD_IOCTL_BTL 0 1 0 =? Btl1);
  err ← Unprovision DeviceHandle TestGuid;
  _ ← ASSERT_ (ERROR_SUCCESS =? err);
  err ← Unprovision DeviceHandle TestGuid2;
  _ ← ASSERT_ (ERROR_SUCCESS =? err);
  close_test_device DeviceHandle.

(** ** Transactions: the common parts *)

(** [FillOrTest] of this file is the one of [stgtest.c]. *)
Definition fill (DataBuffer : list Z) (BlockAddress BlockCount : Z) : TEST (list Z) :=
  '(_, DataBuffer) ← lift_option (FillOrTest DataBuffer 512 BlockAddress BlockCount SpdIoctlTransactReservedKind);
  mret DataBuffer.

Definition test_written (DataBuffer : list Z) (BlockAddress BlockCount : Z) : option bool :=
  '(ok, _) ← FillOrTest DataBuffer 512 BlockAddress BlockCount SpdIoctlTransactWriteKind; Some ok.

(** [memset(DataBuffer, 0, sizeof DataBuffer)]: the size is that of the pointer. *)
Definition clear_buffer (DataBuffer : list Z) : TEST (list Z) := lift_option (buf_zero 8 DataBuffer).

Definition malloc (Size : Z) : list Z := replicate (Z.to_nat Size) garbage.

(** [Rsp.Hint = Req.Hint; Rsp.Kind = Req.Kind] in a response of zeros. *)
Definition response (Req : SPD_IOCTL_TRANSACT_REQ) : SPD_IOCTL_TRANSACT_RSP :=
  mkRsp (req_Hint Req) (req_Kind Req) ZeroStatus.

(** The unit is provisioned and has answered an inquiry. *)
Definition provision_for_commands (DeviceHandle : Z) (StorageUnitParams : SPD_IOCTL_STORAGE_UNIT_PARAMS) : TEST Z :=
  '(err, Btl) ← Provision DeviceHandle StorageUnitParams;
  _ ← ASSERT_ (ERROR_SUCCESS =? err);
  _ ← ASSERT_ (0 =? Btl);
  err ← Inquiry Btl 3000;
  _ ← ASSERT_ (ERROR_SUCCESS =? err);
  mret Btl.

(** The checks of a request: its kind, and its block address and count with the access forced. *)
Definition check_request (Kind : Z) (fields : SPD_IOCTL_TRANSACT_REQ -> option (Z * Z * Z))
    (BlockAddress BlockCount : Z) (err : Z) (Req : option SPD_IOCTL_TRANSACT_REQ) : TEST SPD_IOCTL_TRANSACT_REQ :=
  _ ← ASSERT_ (ERROR_SUCCESS =? err);
  Req ← lift_option Req;
  _ ← ASSERT_ (negb (0 =? req_Hint Req));
  _ ← ASSERT_ (Kind =? req_Kind Req);
  '(a, n, f) ← lift_option (fields Req);
  _ ← ASSERT_ (BlockAddress =? a);
  _ ← ASSERT_ (BlockCount =? n);
  _ ← ASSERT_ (1 =? f);
  mret Req.

Definition respond_good (DeviceHandle Btl : Z) (Req : SPD_IOCTL_TRANSACT_REQ) (DataBuffer : list Z) : TEST unit :=
  err ← Respond DeviceHandle Btl (response Req) DataBuffer;
  ASSERT_ (ERROR_SUCCESS =? err).

(** The end of a test with a thread. *)
Definition end_test (DeviceHandle : Z) : TEST unit :=
  err ← Unprovision DeviceHandle TestGuid;
  _ ← ASSERT_ (ERROR_SUCCESS =? err);
  close_test_device DeviceHandle.

(** ** Reading *)

(** A command with a block address and a block count of 16 bytes. *)
Definition test_cdb16 (OperationCode BlockAddress BlockCount : Z) : list Z :=
  [OperationCode; 0; 0; 0; 0; 0; 0; 0; 0; BlockAddress; 0; 0; 0; BlockCount; 0; 0].

Definition ioctl_transact_read_test_thread : THREAD :=
  mkThread (mkCommand (test_cdb16 SCSIOP_READ16 7 5) 1 (replicate (5 * 512) 0) (5 * 512)) (fun r =>
    if negb (ERROR_SUCCESS =? ex_Error r) then Some (ex_Error r)
    else if negb (bool_decide (ex_ScsiStatus r = Some SCSISTAT_GOOD)) ||
            negb (bool_decide (ex_DataLength r = Some (5 * 512)))
    then Some (u32 (- characters "ASR1"))
    else
      ok ← test_written (ex_DataBuffer r) 7 5;
      if negb ok then Some (u32 (- characters "ASR2")) else Some ERROR_SUCCESS).

Definition ioctl_transact_read_dotest (ThreadFirst : bool) (MaxBlockCount : Z) : TEST unit :=
  let DataBuffer := malloc (MaxBlockCount * 512) in
  DeviceHandle ← open_test_device;
  Btl ← provision_for_commands DeviceHandle (test_params TestGuid (MaxBlockCount * 512));
  DataBuffer ← clear_buffer DataBuffer;
  '(err, Req, DataBuffer, Thread) ←
    thread_and_request ThreadFirst ioctl_transact_read_test_thread DeviceHandle Btl DataBuffer;
  Req ← check_request SpdIoctlTransactReadKind read_fields 7 MaxBlockCount err Req;
  DataBuffer ← fill DataBuffer 7 MaxBlockCount;
  _ ← respond_good DeviceHandle Btl Req DataBuffer;
  _ ← (if 5 >? MaxBlockCount then
         DataBuffer ← clear_buffer DataBuffer;
         '(err, Req, DataBuffer, _) ← Request DBG sizeof_SPD_IOQ DosError DeviceHandle Btl DataBuffer (mret tt);
         Req ← check_request SpdIoctlTransactReadKind read_fields (7 + MaxBlockCount) (5 - MaxBlockCount) err Req;
         DataBuffer ← fill DataBuffer (7 + MaxBlockCount) (5 - MaxBlockCount);
         respond_good DeviceHandle Btl Req DataBuffer
       else mret tt);
  _ ← end_test DeviceHandle;
  ExitCode ← end_thread ioctl_transact_read_test_thread Btl Thread;
  ASSERT_ (ERROR_SUCCESS =? ExitCode).

Definition ioctl_transact_read_test (ThreadFirst : bool) : TEST unit := ioctl_transact_read_dotest ThreadFirst 5.
Definition ioctl_transact_read_chunked_test (ThreadFirst : bool) : TEST unit := ioctl_transact_read_dotest ThreadFirst 3.

(** ** Writing *)

(** What the thread writes; the buffer is on its stack. *)
Definition written_data : list Z :=
  default [] (snd <$> FillOrTest (malloc (5 * 512)) 512 7 5 SpdIoctlTransactReservedKind).

Definition ioctl_transact_write_test_thread : THREAD :=
  mkThread (mkCommand (test_cdb16 SCSIOP_WRITE16 7 5) (-1) written_data (5 * 512)) (fun r =>
    if negb (ERROR_SUCCESS =? ex_Error r) then Some (ex_Error r)
    else if negb (bool_decide (ex_ScsiStatus r = Some SCSISTAT_GOOD)) ||
            negb (bool_decide (ex_DataLength r = Some (5 * 512)))
    then Some (u32 (- characters "ASRT"))
    else Some ERROR_SUCCESS).

Definition assert_written (DataBuffer : list Z) (BlockAddress BlockCount : Z) : TEST unit :=
  ok ← lift_option (test_written DataBuffer BlockAddress BlockCount); ASSERT_ ok.

Definition ioctl_transact_write_dotest (ThreadFirst : bool) (MaxBlockCount : Z) : TEST unit :=
  let DataBuffer := malloc (MaxBlockCount * 512) in
  DeviceHandle ← open_test_device;
  Btl ← provision_for_commands DeviceHandle (test_params TestGuid (MaxBlockCount * 512));
  DataBuffer ← clear_buffer DataBuffer;
  '(err, Req, DataBuffer, Thread) ←
    thread_and_request ThreadFirst ioctl_transact_write_test_thread DeviceHandle Btl DataBuffer;
  Req ← check_request SpdIoctlTransactWriteKind write_fields 7 MaxBlockCount err Req;
  _ ← assert_written DataBuffer 7 MaxBlockCount;
  _ ← respond_good DeviceHandle Btl Req DataBuffer;
  _ ← (if 5 >? MaxBlockCount then
         DataBuffer ← clear_buffer DataBuffer;
         '(err, Req, DataBuffer, _) ← Request DBG sizeof_SPD_IOQ DosError DeviceHandle Btl DataBuffer (mret tt);
         Req ← check_request SpdIoctlTransactWriteKind write_fields (7 + MaxBlockCount) (5 - MaxBlockCount) err Req;
         _ ← assert_written DataBuffer (7 + MaxBlockCount) (5 - MaxBlockCount);
         respond_good DeviceHandle Btl Req DataBuffer
       else mret tt);
  _ ← end_test DeviceHandle;
  ExitCode ← end_thread ioctl_transact_write_test_thread Btl Thread;
  ASSERT_ (ERROR_SUCCESS =? ExitCode).

Definition ioctl_transact_write_test (ThreadFirst : bool) : TEST unit := ioctl_transact_write_dotest ThreadFirst 5.
Definition ioctl_transact_write_chunked_test (ThreadFirst : bool) : TEST unit := ioctl_transact_write_dotest ThreadFirst 3.

(** ** Flushing *)

Definition ioctl_transact_flush_test_thread : THREAD :=
  mkThread (mkCommand (test_cdb16 SCSIOP_SYNCHRONIZE_CACHE16 7 5) 0 [] 0) (fun r =>
    if negb (ERROR_SUCCESS =? ex_Error r) then Some (ex_Error r)
    else if negb (bool_decide (ex_ScsiStatus r = Some SCSISTAT_GOOD)) ||
            negb (bool_decide (ex_DataLength r = Some 0))
    then Some (u32 (- characters "ASRT"))
    else Some ERROR_SUCCESS).

Definition ioctl_transact_flush_test (ThreadFirst : bool) : TEST unit :=
  let DataBuffer := malloc (5 * 512) in
  DeviceHandle ← open_test_device;
  Btl ← provision_for_commands DeviceHandle ((test_params TestGuid (5 * 512)) <| CacheSupported := true |>);
  DataBuffer ← clear_buffer DataBuffer;
  '(err, Req, DataBuffer, Thread) ←
    thread_and_request ThreadFirst ioctl_transact_flush_test_thread DeviceHandle Btl DataBuffer;
  _ ← ASSERT_ (ERROR_SUCCESS =? err);
  Req ← lift_option Req;
  _ ← ASSERT_ (negb (0 =? req_Hint Req));
  _ ← ASSERT_ (SpdIoctlTransactFlushKind =? req_Kind Req);
  '(a, n) ← lift_option (flush_fields Req);
  _ ← ASSERT_ (7 =? a);
  _ ← ASSERT_ (5 =? n);
  _ ← respond_good DeviceHandle Btl Req DataBuffer;
  _ ← end_test DeviceHandle;
  ExitCode ← end_thread ioctl_transact_flush_test_thread Btl Thread;
  ASSERT_ (ERROR_SUCCESS =? ExitCode).

(** ** Unmapping *)

(** A descriptor of an UNMAP command, and the list that the thread sends. *)
Definition unmap_block (StartingLba LbaCount : Z) : list Z :=
  [0; 0; 0; 0; 0; 0; 0; StartingLba; 0; 0; 0; LbaCount; 0; 0; 0; 0].
Definition UnmapBuffer : list Z :=
  [0; 8 - 2 + 3 * 16; 0; 3 * 16; 0; 0; 0; 0] ++ unmap_block 7 1 ++ unmap_block 6 2 ++ unmap_block 5 3.
Definition sizeof_UnmapBuffer : Z := 8 + 3 * 16.

Definition ioctl_transact_unmap_test_thread : THREAD :=
  mkThread (mkCommand [SCSIOP_UNMAP; 0; 0; 0; 0; 0; 0; 0; sizeof_UnmapBuffer; 0; 0; 0; 0; 0; 0; 0] (-1)
    UnmapBuffer sizeof_UnmapBuffer) (fun r =>
    if negb (ERROR_SUCCESS =? ex_Error r) then Some (ex_Error r)
    else if negb (bool_decide (ex_ScsiStatus r = Some SCSISTAT_GOOD)) ||
            negb (bool_decide (ex_DataLength r = Some sizeof_UnmapBuffer))
    then Some (u32 (- characters "ASRT"))
    else Some ERROR_SUCCESS).

(** The checks of a descriptor of the request. *)
Definition assert_descriptor (DataBuffer : list Z) (i : nat) (BlockAddress BlockCount : Z) : TEST unit :=
  a ← lift_option (load_le (16 * i) 8 DataBuffer);
  _ ← ASSERT_ (BlockAddress =? a);
  n ← lift_option (load_le (16 * i + 8) 4 DataBuffer);
  _ ← ASSERT_ (BlockCount =? n);
  Reserved ← lift_option (load_le (16 * i + 12) 4 DataBuffer);
  ASSERT_ (0 =? Reserved).

Definition ioctl_transact_unmap_test (ThreadFirst : bool) : TEST unit :=
  let DataBuffer := malloc (5 * 512) in
  DeviceHandle ← open_test_device;
  Btl ← provision_for_commands DeviceHandle ((test_params TestGuid (5 * 512)) <| UnmapSupported := true |>);
  DataBuffer ← clear_buffer DataBuffer;
  '(err, Req, DataBuffer, Thread) ←
    thread_and_request ThreadFirst ioctl_transact_unmap_test_thread DeviceHandle Btl DataBuffer;
  _ ← ASSERT_ (ERROR_SUCCESS =? err);
  Req ← lift_option Req;
  _ ← ASSERT_ (negb (0 =? req_Hint Req));
  _ ← ASSERT_ (SpdIoctlTransactUnmapKind =? req_Kind Req);
  n ← lift_option (unmap_count Req);
  _ ← ASSERT_ (3 =? n);
  _ ← assert_descriptor DataBuffer 0 7 1;
  _ ← assert_descriptor DataBuffer 1 6 2;
  _ ← assert_descriptor DataBuffer 2 5 3;
  _ ← respond_good DeviceHandle Btl Req DataBuffer;
  _ ← end_test DeviceHandle;
  ExitCode ← end_thread ioctl_transact_unmap_test_thread Btl Thread;
  ASSERT_ (ERROR_SUCCESS =? ExitCode).

(** ** Errors *)

(** Bytes of the sense data: [ErrorCode] and [Valid], the key, the information, the codes. *)
Definition sense_byte (r : EXECUTE_RESULT) (i : nat) : option Z := s ← ex_SenseInfo r; s !! i.

Definition ioctl_transact_error_test_thread : THREAD :=
  mkThread (mkCommand (test_cdb16 SCSIOP_READ16 7 5) 1 (replicate (5 * 512) garbage) (5 * 512)) (fun r =>
    if negb (ERROR_SUCCESS =? ex_Error r) then Some (ex_Error r)
    else
      b0 ← sense_byte r 0; b2 ← sense_byte r 2; b6 ← sense_byte r 6; b12 ← sense_byte r 12; b13 ← sense_byte r 13;
      if negb (bool_decide (ex_ScsiStatus r = Some SCSISTAT_CHECK_CONDITION)) ||
         negb (b2 .& 0xf =? SCSI_SENSE_MEDIUM_ERROR) ||
         negb (b12 =? SCSI_ADSENSE_SEEK_ERROR) ||
         negb (b13 =? SCSI_SENSEQ_POSITIONING_ERROR_DETECTED_BY_READ_OF_MEDIUM) ||
         negb (b6 =? 11) ||
         negb (b0 ≫ 7 =? 1)
      then Some (u32 (- characters "ASRT"))
      else Some ERROR_SUCCESS).

Definition ioctl_transact_error_test (ThreadFirst : bool) : TEST unit :=
  let DataBuffer := malloc (5 * 512) in
  DeviceHandle ← open_test_device;
  Btl ← provision_for_commands DeviceHandle (test_params TestGuid (5 * 512));
  '(err, Req, DataBuffer, Thread) ←
    thread_and_request ThreadFirst ioctl_transact_error_test_thread DeviceHandle Btl DataBuffer;
  Req ← check_request SpdIoctlTransactReadKind read_fields 7 5 err Req;
  let Rsp := mkRsp (req_Hint Req) (req_Kind Req)
    (mkStatus SCSISTAT_CHECK_CONDITION SCSI_SENSE_MEDIUM_ERROR SCSI_ADSENSE_SEEK_ERROR
       SCSI_SENSEQ_POSITIONING_ERROR_DETECTED_BY_READ_OF_MEDIUM 11 true) in
  err ← Respond DeviceHandle Btl Rsp DataBuffer;
  _ ← ASSERT_ (ERROR_SUCCESS =? err);
  _ ← end_test DeviceHandle;
  ExitCode ← end_thread ioctl_transact_error_test_thread Btl Thread;
  ASSERT_ (ERROR_SUCCESS =? ExitCode).

Definition ioctl_transact_cancel_test_thread : THREAD :=
  mkThread (mkCommand (test_cdb16 SCSIOP_READ16 7 5) 1 (replicate (5 * 512) garbage) (5 * 512))
    (fun r => Some (ex_Error r)).

Definition ioctl_transact_cancel_test (ThreadFirst : bool) : TEST unit :=
  let DataBuffer := malloc (5 * 512) in
  DeviceHandle ← open_test_device;
  Btl ← provision_for_commands DeviceHandle (test_params TestGuid (5 * 512));
  '(err, Req, DataBuffer, Thread) ←
    thread_and_request ThreadFirst ioctl_transact_cancel_test_thread DeviceHandle Btl DataBuffer;
  _ ← check_request SpdIoctlTransactReadKind read_fields 7 5 err Req;
  _ ← end_test DeviceHandle;
  ExitCode ← end_thread ioctl_transact_cancel_test_thread Btl Thread;
  ASSERT_ (negb (0 =? ExitCode)).

(** ** Processes *)

Definition ioctl_process_death_test_DO_NOT_RUN_FROM_COMMAND_LINE : TEST unit :=
  DeviceHandle ← open_test_device;
  '(err, _) ← Provision DeviceHandle (test_params TestGuid 512);
  _ ← ASSERT_ (ERROR_SUCCESS =? err);
  close_test_device DeviceHandle.

(** The transaction is refused before it waits: nothing comes in between. *)
Definition ioctl_process_access_test_DO_NOT_RUN_FROM_COMMAND_LINE : TEST unit :=
  let DataBuffer := malloc (5 * 512) in
  DeviceHandle ← open_test_device;
  DataBuffer ← clear_buffer DataBuffer;
  '(err, _, _, _) ← Request DBG sizeof_SPD_IOQ DosError DeviceHandle 0 DataBuffer (mret tt);
  _ ← ASSERT_ (ERROR_ACCESS_DENIED =? err);
  err ← Unprovision DeviceHandle TestGuid;
  _ ← ASSERT_ (ERROR_ACCESS_DENIED =? err);
  close_test_device DeviceHandle.

Definition ioctl_process_transact_test_DO_NOT_RUN_FROM_COMMAND_LINE (ThreadFirst : bool) : TEST unit :=
  let DataBuffer := malloc (5 * 512) in
  DeviceHandle ← open_test_device;
  let Btl := 0 in
  DataBuffer ← clear_buffer DataBuffer;
  '(err, Req, DataBuffer, Thread) ←
    thread_and_request ThreadFirst ioctl_transact_read_test_thread DeviceHandle Btl DataBuffer;
  Req ← check_request SpdIoctlTransactReadKind read_fields 7 5 err Req;
  DataBuffer ← fill DataBuffer 7 5;
  _ ← respond_good DeviceHandle Btl Req DataBuffer;
  _ ← close_test_device DeviceHandle;
  ExitCode ← end_thread ioctl_transact_read_test_thread Btl Thread;
  ASSERT_ (ERROR_SUCCESS =? ExitCode).

(** The command line of the process of a test; [StringCbPrintfW] cuts it to the size of its buffer. *)
Definition MAX_PATH : Z := 260.
Definition ModuleFileName : list Z := lit "C:\winspd-tests.exe".
Definition command_line (Name : list Z) : list Z :=
  take (Z.to_nat (MAX_PATH + 64) - 1) ([34] ++ ModuleFileName ++ [34] ++ lit " +" ++ Name) ++ [0].

(** The test that a command line asks for: the one with the name at its end. *)
Definition test_of (ThreadFirst : bool) (CommandLine : list Z) : option (TEST unit) :=
  let tests := [
    (lit "ioctl_process_death_test_DO_NOT_RUN_FROM_COMMAND_LINE",
     ioctl_process_death_test_DO_NOT_RUN_FROM_COMMAND_LINE);
    (lit "ioctl_process_access_test_DO_NOT_RUN_FROM_COMMAND_LINE",
     ioctl_process_access_test_DO_NOT_RUN_FROM_COMMAND_LINE);
    (lit "ioctl_process_transact_test_DO_NOT_RUN_FROM_COMMAND_LINE",
     ioctl_process_transact_test_DO_NOT_RUN_FROM_COMMAND_LINE ThreadFirst)] in
  snd ∘ snd <$> list_find (fun t => (lit " +" ++ t.1 ++ [0]) `suffix_of` CommandLine) tests.

(** The run of a test in a process of its own, with its output to [NUL]. *)
Definition process_test (ThreadFirst : bool) (Name : list Z) (before : Z -> TEST unit) : TEST unit :=
  Stdout ← open_handle;
  _ ← ASSERT_ (negb (INVALID_HANDLE_VALUE =? Stdout));
  Stderr ← open_handle;
  _ ← ASSERT_ (negb (INVALID_HANDLE_VALUE =? Stderr));
  body ← lift_option (test_of ThreadFirst (command_line Name));
  hProcess ← open_handle;
  hThread ← open_handle;
  ExitCode ← run_process before body;
  _ ← ASSERT_ (0 =? ExitCode);
  _ ← CloseHandle hThread;
  _ ← CloseHandle hProcess;
  _ ← CloseHandle Stdout;
  _ ← CloseHandle Stderr;
  mret tt.

Definition ioctl_process_death_test : TEST unit :=
  _ ← process_test true (lit "ioctl_process_death_test_DO_NOT_RUN_FROM_COMMAND_LINE") (fun _ => mret tt);
  DeviceHandle ← open_test_device;
  '(err, _, BtlBufSize) ← GetList DeviceHandle sizeof_BtlBuf;
  _ ← ASSERT_ (ERROR_SUCCESS =? err);
  _ ← ASSERT_ (0 =? BtlBufSize);
  close_test_device DeviceHandle.

Definition ioctl_process_access_test : TEST unit :=
  DeviceHandle ← open_test_device;
  _ ← provision_for_commands DeviceHandle (test_params TestGuid (5 * 512));
  _ ← process_test true (lit "ioctl_process_access_test_DO_NOT_RUN_FROM_COMMAND_LINE") (fun _ => mret tt);
  end_test DeviceHandle.

Definition ioctl_process_transact_test (ThreadFirst : bool) : TEST unit :=
  DeviceHandle ← open_test_device;
  Btl ← provision_for_commands DeviceHandle (test_params TestGuid (5 * 512));
  _ ← process_test ThreadFirst (lit "ioctl_process_transact_test_DO_NOT_RUN_FROM_COMMAND_LINE") (fun ProcessId =>
      err ← SetTransactProcessId DBG sizeof_SPD_IOQ DosError DeviceHandle Btl ProcessId;
      ASSERT_ (ERROR_SUCCESS =? err));
  end_test DeviceHandle.

(** [ioctl_tests]: the tests, one after the other. *)
Definition ioctl_tests (ThreadFirst : bool) : list (TEST unit) :=
  [ioctl_provision_test; ioctl_provision_invalid_test; ioctl_provision_multi_test; ioctl_provision_toomany_test;
   ioctl_list_test; ioctl_transact_read_test ThreadFirst; ioctl_transact_read_chunked_test ThreadFirst;
   ioctl_transact_write_test ThreadFirst; ioctl_transact_write_chunked_test ThreadFirst;
   ioctl_transact_flush_test ThreadFirst; ioctl_transact_unmap_test ThreadFirst;
   ioctl_transact_error_test ThreadFirst; ioctl_transact_cancel_test ThreadFirst; ioctl_process_death_test;
   ioctl_process_access_test; ioctl_process_transact_test ThreadFirst].
End IoctlTests.

(** [TEST]: a suite runs to its end when no assertion fails. *)
Definition run_suite (tests : list (TEST unit)) : TEST unit := foldr (fun t r => _ ← t; r) (mret tt) tests.
