(* ===== verification/ScsiTests.v ===== *)
(** * The tests of the SCSI commands: [tst/winspd-tests/scsi-test.c]

    Commands that the driver answers by itself, on the bench of [TestBench]; the answers are read at
    the offsets of the structures of the standard. *)

From S2P Require Import Prelude Wdk IoctlTypes ListEntry Srb Ioq StgUnit Scsi ScsiIo DriverIo DriverIoctl.
From S2P Require Import IoctlDevice IoctlClient Text TestBench DriverTests.

(** ["4112a9a1-f079-4f3d-ba53-2d5df27d28b5"] *)
Definition TestGuidString : list Z := lit "4112a9a1-f079-4f3d-ba53-2d5df27d28b5".

(** [CDB6INQUIRY3], [MODE_SENSE], [MODE_SENSE10] and the two of READ CAPACITY. *)
Definition inquiry_test_cdb (EnableVitalProductData PageCode : Z) : list Z :=
  [SCSIOP_INQUIRY; EnableVitalProductData; PageCode; 0; VPD_MAX_BUFFER_SIZE; 0] ++ replicate 10 0.
Definition MODE_SENSE_CURRENT_VALUES : Z := 0.
Definition mode_sense_test_cdb : list Z :=
  [SCSIOP_MODE_SENSE; 0; MODE_SENSE_RETURN_ALL .| (MODE_SENSE_CURRENT_VALUES ≪ 6); 0; 255; 0] ++ replicate 10 0.
Definition mode_sense10_test_cdb : list Z :=
  [SCSIOP_MODE_SENSE10; 0; MODE_SENSE_RETURN_ALL .| (MODE_SENSE_CURRENT_VALUES ≪ 6); 0; 0; 0; 0; 0; 255; 0] ++
  replicate 6 0.
Definition read_capacity_test_cdb : list Z := SCSIOP_READ_CAPACITY :: replicate 15 0.
Definition read_capacity16_test_cdb : list Z :=
  [SCSIOP_SERVICE_ACTION_IN16; SERVICE_ACTION_READ_CAPACITY16; 0; 0; 0; 0; 0; 0; 0; 0; 0; 0; 0; 255; 0; 0].

(** [0 == memcmp(p, q, n)] where [p] is at an offset of the data, and [n] bytes of [q] are known. *)
Definition same_bytes (off : nat) (bytes Data : list Z) : option bool :=
  bs ← buf_read off (length bytes) Data; Some (bool_decide (bs = bytes)).

(** A big-endian number of the data, as the tests put it together. *)
Definition load_be32 (off : nat) (Data : list Z) : option Z :=
  bs ← buf_read off 4 Data;
  match bs with [b0; b1; b2; b3] => Some (get_be32 b0 b1 b2 b3) | _ => None end.
Definition load_be64 (off : nat) (Data : list Z) : option Z :=
  bs ← buf_read off 8 Data;
  match bs with [b0; b1; b2; b3; b4; b5; b6; b7] => Some (get_be64 b0 b1 b2 b3 b4 b5 b6 b7) | _ => None end.

Section ScsiTests.
Context (DBG : bool) (sizeof_SPD_IOQ : Z) (PortError DosError : Z -> Z) (garbage : Z).

(** The assertions on the data: a value, a byte, the bytes of a text. *)
Definition assert_value (v : Z) (o : option Z) : TEST unit := x ← lift_option o; ASSERT_ (v =? x).
Definition assert_byte (v : Z) (Data : list Z) (i : nat) : TEST unit := assert_value v (Data !! i).
Definition assert_bytes (bytes Data : list Z) (off : nat) : TEST unit :=
  ok ← lift_option (same_bytes off bytes Data); ASSERT_ ok.

(** A command and its data; the buffer of the test still holds the data of the command before. *)
Definition test_command (Btl : Z) (Cdb DataBuffer : list Z) : TEST (list Z) :=
  r ← execute DBG PortError garbage Btl (mkCommand Cdb 1 DataBuffer (Z.of_nat (length DataBuffer)));
  _ ← ASSERT_ (ERROR_SUCCESS =? ex_Error r);
  mret (ex_DataBuffer r).

(** The unit of a test, and its end. *)
Definition with_unit (P : SPD_IOCTL_STORAGE_UNIT_PARAMS) (body : Z -> TEST unit) : TEST unit :=
  DeviceHandle ← open_test_device garbage;
  Btl ← provision_for_commands DBG sizeof_SPD_IOQ PortError DosError garbage DeviceHandle P;
  _ ← body Btl;
  end_test DBG sizeof_SPD_IOQ DosError DeviceHandle.

(** ** INQUIRY *)

Definition check_standard_inquiry (P : SPD_IOCTL_STORAGE_UNIT_PARAMS) (D : list Z) : TEST unit :=
  _ ← assert_bytes SPD_IOCTL_VENDOR_ID D 8;
  _ ← assert_bytes (ProductId P) D 16;
  assert_bytes (ProductRevisionLevel P) D 32.

Definition check_supported_pages (D : list Z) : TEST unit :=
  _ ← assert_byte 5 D 3;
  _ ← assert_byte VPD_SUPPORTED_PAGES D 4;
  _ ← assert_byte VPD_SERIAL_NUMBER D 5;
  _ ← assert_byte VPD_DEVICE_IDENTIFIERS D 6;
  _ ← assert_byte VPD_BLOCK_LIMITS D 7;
  assert_byte VPD_LOGICAL_BLOCK_PROVISIONING D 8.

Definition check_serial_number (D : list Z) : TEST unit :=
  _ ← assert_byte 36 D 3;
  assert_bytes TestGuidString D 4.

Definition check_identifiers (P : SPD_IOCTL_STORAGE_UNIT_PARAMS) (D : list Z) : TEST unit :=
  _ ← assert_byte (sizeof_VPD_IDENTIFICATION_PAGE + 8 + 16 + 4 + 36 + sizeof_VPD_IDENTIFICATION_PAGE + 8) D 3;
  let o := Z.to_nat sizeof_VPD_IDENTIFICATION_PAGE in
  _ ← assert_value VpdCodeSetAscii (b ← D !! o; Some (b .& 0xf));
  _ ← assert_value VpdIdentifierTypeVendorId (b ← D !! (o + 1)%nat; Some (b .& 0xf));
  _ ← assert_byte (8 + 16 + 4 + 36) D (o + 3);
  _ ← assert_bytes SPD_IOCTL_VENDOR_ID D (o + 4);
  _ ← assert_bytes (ProductId P) D (o + 4 + 8);
  _ ← assert_bytes (ProductRevisionLevel P) D (o + 4 + 8 + 16);
  _ ← assert_bytes TestGuidString D (o + 4 + 8 + 16 + 4);
  let o := (o + Z.to_nat sizeof_VPD_IDENTIFICATION_PAGE + 8 + 16 + 4 + 36)%nat in
  _ ← assert_value VpdCodeSetBinary (b ← D !! o; Some (b .& 0xf));
  _ ← assert_value VpdIdentifierTypeVendorSpecific (b ← D !! (o + 1)%nat; Some (b .& 0xf));
  _ ← assert_byte 8 D (o + 3);
  assert_bytes (lit "PID ") D (o + 4).

Definition check_block_limits (P : SPD_IOCTL_STORAGE_UNIT_PARAMS) (D : list Z) : TEST unit :=
  _ ← assert_value (MaxTransferLength P / BlockLength P) (load_be32 8 D);
  _ ← assert_value (if UnmapSupported P then 0xffffffff else 0) (load_be32 20 D);
  assert_value (if UnmapSupported P then MaxTransferLength P / 16 else 0) (load_be32 24 D).

Definition check_provisioning (P : SPD_IOCTL_STORAGE_UNIT_PARAMS) (D : list Z) : TEST unit :=
  _ ← assert_value (if UnmapSupported P then PROVISIONING_TYPE_THIN else 0) (b ← D !! 6%nat; Some (b .& 0x7));
  _ ← assert_value (if UnmapSupported P then 1 else 0) (b ← D !! 5%nat; Some (b ≫ 7));
  assert_value 0 (b ← D !! 5%nat; Some ((b ≫ 1) .& 1)).

Definition scsi_inquiry_dotest (UnmapSupported_ : bool) : TEST unit :=
  let P := (test_params TestGuid 512) <| UnmapSupported := UnmapSupported_ |> in
  with_unit P (fun Btl =>
    D ← test_command Btl (inquiry_test_cdb 0 0) (replicate (Z.to_nat VPD_MAX_BUFFER_SIZE) garbage);
    _ ← check_standard_inquiry P D;
    D ← test_command Btl (inquiry_test_cdb 1 VPD_SUPPORTED_PAGES) D;
    _ ← check_supported_pages D;
    D ← test_command Btl (inquiry_test_cdb 1 VPD_SERIAL_NUMBER) D;
    _ ← check_serial_number D;
    D ← test_command Btl (inquiry_test_cdb 1 VPD_DEVICE_IDENTIFIERS) D;
    _ ← check_identifiers P D;
    D ← test_command Btl (inquiry_test_cdb 1 VPD_BLOCK_LIMITS) D;
    _ ← check_block_limits P D;
    D ← test_command Btl (inquiry_test_cdb 1 VPD_LOGICAL_BLOCK_PROVISIONING) D;
    check_provisioning P D).

Definition scsi_inquiry_test : TEST unit :=
  _ ← scsi_inquiry_dotest false; scsi_inquiry_dotest true.

(** ** MODE SENSE *)

(** The header, with its medium type and its parameter at [o], and the caching page at [page]. *)
Definition check_mode (P : SPD_IOCTL_STORAGE_UNIT_PARAMS) (D : list Z) (o : nat) (BlockDescriptorLength : list nat)
    (page : nat) : TEST unit :=
  _ ← assert_byte 0 D o;
  _ ← assert_byte ((if WriteProtected P then MODE_DSP_WRITE_PROTECT else 0) .|
                   (if CacheSupported P then MODE_DSP_FUA_SUPPORTED else 0)) D (o + 1);
  _ ← foldr (fun i (r : TEST unit) => _ ← assert_byte 0 D i; r) (mret tt) BlockDescriptorLength;
  _ ← assert_value MODE_PAGE_CACHING (b ← D !! page; Some (b .& 0x3f));
  _ ← assert_value 0 (b ← D !! page; Some (b ≫ 7));
  _ ← assert_value (b2z (negb (CacheSupported P))) (b ← D !! (page + 2)%nat; Some (b .& 1));
  assert_value (b2z (CacheSupported P)) (b ← D !! (page + 2)%nat; Some ((b ≫ 2) .& 1)).

Definition scsi_mode_sense_dotest (WriteProtected_ CacheSupported_ : bool) : TEST unit :=
  let P := (test_params TestGuid 512) <| WriteProtected := WriteProtected_ |> <| CacheSupported := CacheSupported_ |> in
  with_unit P (fun Btl =>
    D ← test_command Btl mode_sense_test_cdb (replicate 255 garbage);
    _ ← check_mode P D 1 [3%nat] (Z.to_nat sizeof_MODE_PARAMETER_HEADER);
    D ← test_command Btl mode_sense10_test_cdb D;
    check_mode P D 2 [6%nat; 7%nat] (Z.to_nat sizeof_MODE_PARAMETER_HEADER10)).

Definition scsi_mode_sense_test : TEST unit :=
  _ ← scsi_mode_sense_dotest false false; _ ← scsi_mode_sense_dotest false true; scsi_mode_sense_dotest true false.

(** ** READ CAPACITY *)

Definition scsi_read_capacity_dotest (UnmapSupported_ : bool) : TEST unit :=
  let P := (test_params TestGuid 512) <| UnmapSupported := UnmapSupported_ |> in
  with_unit P (fun Btl =>
    D ← test_command Btl read_capacity_test_cdb (replicate 255 garbage);
    _ ← assert_value (BlockCount P - 1) (load_be32 0 D);
    _ ← assert_value (BlockLength P) (load_be32 4 D);
    D ← test_command Btl read_capacity16_test_cdb D;
    _ ← assert_value (BlockCount P - 1) (load_be64 0 D);
    _ ← assert_value (BlockLength P) (load_be32 8 D);
    assert_value (if UnmapSupported P then 1 else 0) (b ← D !! 14%nat; Some (b ≫ 7))).

Definition scsi_read_capacity_test : TEST unit :=
  _ ← scsi_read_capacity_dotest false; scsi_read_capacity_dotest true.

(** [scsi_tests] *)
Definition scsi_tests : list (TEST unit) := [scsi_inquiry_test; scsi_mode_sense_test; scsi_read_capacity_test].

(** The tests of [winspd-tests.c]: both suites. *)
Definition winspd_tests (ThreadFirst : bool) : list (TEST unit) :=
  ioctl_tests DBG sizeof_SPD_IOQ PortError DosError garbage ThreadFirst ++ scsi_tests.
End ScsiTests.
