(* ===== verification/DriverTestsProps.v ===== *)
(** * The tests of the driver pass

    All assertions of [tst/winspd-tests] hold on the bench, whichever of a thread and the test comes
    first, in the checked and in the free build, and whatever memory holds before it is written. *)

From Stdlib Require Import FunctionalExtensionality.
From S2P Require Import Prelude Wdk IoctlTypes Ioq IoqSpec IoqRun StgUnit StgUnitInv StgUnitProps ScsiIo.
From S2P Require Import IoctlClient TestBench DriverTests ScsiTests.

(** What the tests rely on of the port driver: a pass-through request succeeds when its SRB does, or
    when it ends with a check condition, and fails when the SRB was aborted. *)
Class PortErrors (PortError : Z -> Z) : Prop := {
  port_success : PortError SRB_STATUS_SUCCESS = ERROR_SUCCESS;
  port_check_condition : PortError SRB_STATUS_ERROR = ERROR_SUCCESS;
  port_aborted : 0 < PortError SRB_STATUS_ABORTED
}.

(** What they rely on of [RtlNtStatusToDosError]. *)
Class DosErrors (DosError : Z -> Z) : Prop := {
  dos_invalid_parameter : DosError STATUS_INVALID_PARAMETER = ERROR_INVALID_PARAMETER;
  dos_collision : DosError STATUS_OBJECT_NAME_COLLISION = ERROR_ALREADY_EXISTS;
  dos_not_found : DosError STATUS_OBJECT_NAME_NOT_FOUND = ERROR_FILE_NOT_FOUND;
  dos_cannot_make : DosError STATUS_CANNOT_MAKE = ERROR_CANNOT_MAKE;
  dos_too_small : DosError STATUS_BUFFER_TOO_SMALL = ERROR_INSUFFICIENT_BUFFER;
  dos_access_denied : DosError STATUS_ACCESS_DENIED = ERROR_ACCESS_DENIED
}.

(** The process 77 with a driver that has no units. *)
Definition new_bench : BENCH :=
  mkBench (mkDriver (empty_extension 16) 77 0 true [] []) 0x100000 ∅ [].

(** Nothing is left behind: no unit, no memory of one, no handle. *)
Definition clean (b : BENCH) : bool :=
  bool_decide (StorageUnits (extension_of b) = replicate SPD_IOCTL_STORAGE_UNIT_CAPACITY 0) &&
  bool_decide (dom (Units (extension_of b)) = ∅) && bool_decide (bn_Handles b = ∅).

Definition passes (t : TEST unit) : bool := match t new_bench with Some (_, b) => clean b | None => false end.

(** A function with known values at some points. *)
Definition known (points : list (Z * Z)) (f : Z -> Z) (x : Z) : Z :=
  match list_find (fun p => p.1 = x) points with Some (_, (_, y)) => y | None => f x end.

Lemma known_values points f : Forall (fun p => f p.1 = p.2) points -> f = known points f.
Proof.
  intros Hp. apply functional_extensionality. intros x. unfold known.
  destruct (list_find _ points) as [[i [x' y]]|] eqn:E; [|done].
  apply list_find_Some in E as (Hi & <- & _). cbn [fst] in *.
  apply (Forall_lookup_1 _ _ _ _ Hp Hi).
Qed.

(** C16: Every assertion of every test of the driver holds, one test after the other: provisioning with
    good, bad, doubled and too many parameters; the list of units; reads and writes, in one chunk and
    in two; flushes and unmaps; an error of the device; a unit that goes away with a command pending;
    the death of a process, its access to the units of another one, and the hand-over of a unit; and
    the data of INQUIRY, MODE SENSE and READ CAPACITY.  In the end no unit, no memory and no handle
    is left.  This holds whether the command of a thread comes before the wait of the test or during
    it, with and without the assertions of the driver, and whatever uninitialized memory holds. *)
Theorem driver_tests_pass DBG ThreadFirst garbage PortError DosError :
  PortErrors PortError -> DosErrors DosError ->
  passes (run_suite (winspd_tests DBG sizeof_SPD_IOQ_64 PortError DosError garbage ThreadFirst)) = true.
Proof.
  intros [P1 P2 P3] [D1 D2 D3 D4 D5 D6]. destruct (PortError SRB_STATUS_ABORTED) as [|e|e] eqn:E; [lia| |lia].
  rewrite (known_values [(SRB_STATUS_SUCCESS, ERROR_SUCCESS); (SRB_STATUS_ERROR, ERROR_SUCCESS);
    (SRB_STATUS_ABORTED, Z.pos e)] PortError) by by repeat constructor.
  rewrite (known_values [(STATUS_INVALID_PARAMETER, ERROR_INVALID_PARAMETER);
    (STATUS_OBJECT_NAME_COLLISION, ERROR_ALREADY_EXISTS); (STATUS_OBJECT_NAME_NOT_FOUND, ERROR_FILE_NOT_FOUND);
    (STATUS_CANNOT_MAKE, ERROR_CANNOT_MAKE); (STATUS_BUFFER_TOO_SMALL, ERROR_INSUFFICIENT_BUFFER);
    (STATUS_ACCESS_DENIED, ERROR_ACCESS_DENIED)] DosError) by by repeat constructor.
  clear. destruct DBG, ThreadFirst; vm_compute; reflexivity.
Qed.

(** Errors of the documentation. *)
Definition example_port_error (s : Z) : Z :=
  if (s =? SRB_STATUS_SUCCESS) || (s =? SRB_STATUS_ERROR) then ERROR_SUCCESS else ERROR_IO_DEVICE.
Definition example_dos_error (s : Z) : Z :=
  known [(STATUS_INVALID_PARAMETER, ERROR_INVALID_PARAMETER);
    (STATUS_OBJECT_NAME_COLLISION, ERROR_ALREADY_EXISTS); (STATUS_OBJECT_NAME_NOT_FOUND, ERROR_FILE_NOT_FOUND);
    (STATUS_CANNOT_MAKE, ERROR_CANNOT_MAKE); (STATUS_BUFFER_TOO_SMALL, ERROR_INSUFFICIENT_BUFFER);
    (STATUS_ACCESS_DENIED, ERROR_ACCESS_DENIED)] (fun _ => 31) s.

#[export] Instance example_port_errors : PortErrors example_port_error.
Proof. by split. Qed.
#[export] Instance example_dos_errors : DosErrors example_dos_error.
Proof. by split. Qed.

Lemma driver_tests_pass_witness :
  passes (run_suite (winspd_tests true sizeof_SPD_IOQ_64 example_port_error example_dos_error 0xcc false)) = true.
Proof.
  exact (driver_tests_pass true false 0xcc example_port_error example_dos_error
    example_port_errors example_dos_errors).
Defined.
